(* ===== verification/_CoqProject ===== *)
-Q . S2P
Prelude.v
RingBuffer.v
NVTable.v
NVTableInv.v
NVTableOps.v
NVTableStore.v
NVTableSpec.v
LogMsgRef.v
LogMsgRefInv.v
LogMsgRefSpec.v
LogQueue.v
LogQueueFifo.v
LogQueueSpec.v
LogQueueClaims.v
AckTracker.v
AckTrackerSpec.v
AckTrackerClaims.v
Serialize.v
SerializeClaims.v
NVTableSerialize.v
NVTableSerializeInv.v
NVTableSerializeClaims.v
NVTableSerializeSwap.v
NVRegistry.v
NVTableUpdate.v
NVTableUpdateClaims.v
TimerWheel.v
TimerWheelSpec.v
TimerWheelRuns.v
TimerWheelClaims.v
CString.v
CsvParser.v
CsvParserClaims.v
FindEom.v
Buffer.v
FramedServer.v
ProtoClient.v
ProtoClientClaims.v
FileWriter.v
TextServer.v
TextServerSpec.v
TextServerClaims.v
TextServerSafe.v
StrFormat.v
TimeStamp.v
SyslogDate.v
TimeStampSpec.v
TimeStampClaims.v
SyslogFormat.v
SyslogFormatSpec.v
SyslogFormatClaims.v
SyslogSafeClaims.v
RadixParsers.v
Radix.v
RadixSpec.v
RadixInsert.v
RadixFindSpec.v
RadixClaims.v
LogMsgData.v
LogMsgTags.v
LogMsgValues.v
LogMsgCow.v
SdataFormat.v
LogMsgClaims.v
DnsCache.v
DnsClaims.v
LogMatcher.v
MatcherClaims.v
FilterTree.v
Filter.v
FilterClaims.v
LogPath.v
LogPathAcks.v
LogPathSpec.v
LogPathClaims.v
PersistState.v
PersistInv.v
PersistOps.v
PersistClaims.v
