(* ===== verification/Prelude.v ===== *)
(** * A verification of the core of syslog-ng

    syslog-ng receives log messages from sources, parses and filters them, and
    sends them to destinations.  A message ([LogMessage], lib/logmsg.c) carries
    its fields in a name-value table (lib/nvtable.c) and is shared by every
    path it takes, so it counts references and acknowledgements.  A source
    (lib/logsource.c) reads through a protocol driver (lib/logproto.h,
    modules/basic-proto/basic-proto.c), sends as many messages as its window
    allows, and learns through an acknowledgement tracker
    (lib/late_ack_tracker.c) which position of its input may be saved.  A
    destination has a queue (lib/logqueue.c, lib/logqueue-fifo.c), from which a
    protocol driver writes to a connection or a file.  Tables are stored in
    archives (lib/serialize.c, lib/nvtable-serialize.c); the handles of names
    come from a registry and are translated when a stored table is loaded.
    The text of a message is taken apart by modules/syslogformat.  Parsers split
    messages into columns (modules/csvparser); the pattern database recognizes
    them with a radix tree (modules/dbparser/radix.c), and to correlate them it
    needs timers (modules/dbparser/timerwheel.c).

    ** Conventions

    A C integer is a [Z]; what is stored into an object of w bits goes through
    [u8] .. [u64] or [s32].  Memory that the code addresses by offset is a list
    of bytes or a map from offsets.  A call that can run into a failed
    assertion, or that touches memory outside its block, has the type
    [outcome]: [Abort] is that event, [Ret] a normal return; error codes of the
    source are values.  Calls that leave the component are recorded or are
    arguments of the definitions; what is assumed of them is a named hypothesis
    of the theorems.  [malloc] does not fail.

    ** The parts

    - [RingBuffer] (lib/ringbuffer.c).  Indices and byte offsets as stored.  Over
      any run it is a bounded FIFO queue of distinct cells.
    - [NVTable], [NVTableInv], [NVTableOps], [NVTableStore], [NVTableSpec]
      (lib/nvtable.c, lib/nvtable.h).  The block with its static and dynamic
      slots and its entries, direct and indirect; lookup, stores, removal,
      growth, cloning, iteration.  Tables keep the layout invariant under all
      operations but one, a reference stored over a referenced value without
      room to copy it (an example shows the loss); the table is a finite map from handles to values, and
      each operation changes exactly what it names; the mutual recursion of
      lookups and stores is two deep.
    - [NVRegistry] (the registry in lib/nvtable.c).  Handles and names determine
      each other and never change.
    - [Serialize], [SerializeClaims] (lib/serialize.c).  Archives over a string
      and over a buffer; what was written is read back, and a truncated
      archive is noticed.
    - [NVTableSerialize], [NVTableSerializeInv],
      [NVTableSerializeClaims], [NVTableSerializeSwap]
      (lib/nvtable-serialize.c).  The present format, on bytes, for hosts of
      either byte order: round trips, and exactly when the reader writes
      outside its block.
    - [NVTableUpdate], [NVTableUpdateClaims] (the same
      file).  Handles of a loaded table are replaced by those of the running
      program; every value stays under its name, but for a static one that refers
      to a dynamic one.
    - [LogMsgRef], [LogMsgRefInv], [LogMsgRefSpec] (lib/logmsg.c).  The packed
      word of counters and flags and the per-thread caches, under any
      interleaving of threads: the message is freed with the last reference
      and acknowledged once, and no assertion fires.
    - [LogQueue] (lib/logqueue.c), the base class as the class [LogQueueClass];
      [LogQueueFifo], its instance (lib/logqueue-fifo.c); [LogQueueSpec],
      [LogQueueClaims].  The FIFO refines an abstract queue with a backlog,
      keeps the order of each input thread where nothing is put back at its head
      and the backlog is not rewound as a whole, owns what its messages count,
      and the throttle keeps its rate.
    - [AckTracker], [AckTrackerSpec], [AckTrackerClaims]
      (lib/logsource.c, lib/late_ack_tracker.c, lib/early_ack_tracker.c).  The
      window counts the messages in flight; the saved position is that of the
      longest acknowledged prefix.
    - [TimerWheel] and [TimerWheelSpec],
      [TimerWheelRuns], [TimerWheelClaims] (modules/dbparser/timerwheel.c).
      Setting the time calls back the due timers, each once, in order and at the
      clock plus the timeout with which it was set, for the timeouts that the
      wheel places rightly ([exact_timeout]); expiring the wheel empties it.
    - [CString], [CsvParser], [CsvParserClaims]
      (modules/csvparser/csvparser.c).  Both parsers end inside their input;
      quoted values are parsed back; without escaping it is splitting.
    - [FindEom] (find_eom of modules/basic-proto/basic-proto.c).  The word-wise
      search is the plain search.
    - [Buffer]: blocks, answers of a transport, the frame format.
      [FramedServer]; [ProtoClient],
      [ProtoClientClaims]; [FileWriter] (the same file).
      However reads and writes are cut, the framed server hands out the
      messages of the stream, the clients put the consumed messages on the
      wire, both together transport them, and the file writer's file, rest and
      buffer are what it consumed.
    - [TextServer], [TextServerSpec],
      [TextServerClaims], [TextServerSafe] (the same file).  The server for
      lines and for multi-line messages hands out the messages of the stream
      whatever the reads were, as long as nothing is flushed; the position of a bookmark is that behind its
      message, and with any patterns it stays inside its buffer.
    - [StrFormat] (lib/str-format.c), [TimeStamp] (lib/timeutils.c,
      lib/logstamp.c, gmtime and its inverse), [SyslogDate] (the dates of
      modules/syslogformat/syslog-format.c), [TimeStampSpec],
      [TimeStampClaims].  Stamps that are printed are read back
      as the same time, for any zone of the host; the caches give what the C
      library gives, except for time 0 and for the correction of skipped hours.
    - [SyslogFormat], [SyslogFormatSpec], [SyslogFormatClaims],
      [SyslogSafeClaims]
      (modules/syslogformat/syslog-format.c).  The parser of messages: what RFC
      5424 and the traditional format print is taken apart into its parts, but for
      the hosts and long names that the theorem leaves out, and any message
      without too long names of structured data is parsed without leaving its
      memory by more than two bytes.
    - [RadixParsers], [Radix], [RadixSpec], [RadixInsert],
      [RadixFindSpec], [RadixClaims] (modules/dbparser/radix.c).
      The tree of the pattern database holds exactly the patterns inserted, if
      they are ASCII; a search finds a rule that reads the message, with the
      matches of its parsers; the parsers stay inside the string, but for the
      named ones, which the rules of that theorem do not use.
    - [LogMsgData], [LogMsgTags], [LogMsgValues],
      [LogMsgCow] (lib/logmsg.c, lib/tags.c).  Values, tags and
      structured data of messages, in blocks that a clone shares with its
      original until it is changed: messages and clones behave as copies, no
      freed block is touched.  [SdataFormat]: structured data that
      is printed is parsed again.  The theorems are in [LogMsgClaims].
    - [LogMatcher], [MatcherClaims] (lib/logmatcher.c).  Strings, globs and both
      kinds of regular expressions, the libraries of the latter as parameters:
      replacing by a PCRE ends, also where a match is empty, finds its matches as
      the documented sequence of searches does, except at the end of the
      value, and puts the formatted texts in their place.
    - [FilterTree] (lib/filter.c: expressions, their start and evaluation),
      [Filter] (the tests, lib/filter-netmask6.c, lib/filter-in-list.c,
      lib/logrewrite.c), [FilterClaims].  The start of filters that name each
      other ends and finds every loop; what is evaluated is the formula with
      the rules written out; networks match senders by their first bits.
    - [LogPath], [LogPathAcks], [LogPathSpec], [LogPathClaims] (lib/logmpx.c,
      lib/logpipe.h, lib/dgroup.c, lib/center.c, and of lib/logmsg.c,
      lib/logwriter.c and lib/logthrdestdrv.c what queues, clones and
      acknowledges a message).  Messages on the tree of pipes, with shared
      payloads, flow control and acknowledgements.  Branches do not see
      each other's changes in statements where nothing rewrites behind a
      destination or a nested statement and a statement around one that
      rewrites rewrites itself; two statements that are not like this show
      that the marks the code sets are too few.  For every tree a source is
      told once, when nothing with an acknowledgement still to give is
      queued; without flow control a destination gives it when it queues.
    - [PersistState], [PersistInv], [PersistOps], [PersistClaims]
      (lib/persist-state.c).  The file of named entries, byte by byte, with its
      blocks of keys, its growth and the loader.  Over calls, and
      stops and starts between them, it is a map of names when the system calls
      succeed; a start takes over what was used since the one before.
    - [DnsCache], [DnsClaims] (lib/dnscache.c, and its use in lib/misc.c).  The
      cache of names is a map of entries in the order of their age, with those
      of the hosts file kept apart: it answers what was stored last and is not
      too old, and it never holds more than its size.

    ** Bounds and fuel

    Recursion of the source that is not structural has fuel, with a theorem or
    lemma that it is enough: lookups and stores of the table two levels
    ([nv_table_recursion_bounded]); binary searches the number of slots; the
    clock of the timer wheel the seconds to go; the escaping CSV parser three
    times the input and three; the read loop of the text server twice the
    buffer and two, because a read adds a byte and the awaited prefix is found
    once; the search for a prefix one more than the bytes and one; the call of
    the text server after garbage one more; [decimal] the twenty digits of a 64
    bit number; the loops over structured data one more than the bytes; the loop that makes
    the table of a message larger 40 rounds, as each doubles the size up to 2^28; an
    insertion into the radix tree twice the key and two and the height of the
    tree, a search the height; the start of filters one more than the named
    filters, as each is marked while it starts; replacing by a PCRE twice the
    value and two, by a string its length and two; acknowledging a clone the
    number of messages, as a clone is younger than its original; the hosts
    file one more than its bytes; the loader of the persistent state the keys and
    one times the bytes of the file and two, as between two keys a block cannot
    come twice.  Running out is [Abort], so the theorems that give [Ret] show
    that it does not happen.  Limits that are hypotheses are those of the types
    of the source: buffers and lengths below 2^31, counters as in the source.

    ** Not modelled

    Character set conversion and the stored state of the buffered server; the
    formats of stored tables before the present one; files and compression as archives;
    the stored form of messages, their receipt ids and merging of contexts; templates
    and the actions of the pattern database, which are the next parts to follow
    (lib/template, modules/dbparser/patterndb.c), as are the rest of
    lib/logwriter.c, lib/logreader.c and lib/stats.c.  The configuration
    grammar, plugins, main loop, process control and the drivers for sockets,
    files, programs and databases are calls to the operating system and to
    other libraries, with little state of their own. *)
From stdpp Require Export prelude gmap list numbers strings.
From Stdlib Require Export ZArith Lia.
#[global] Open Scope Z_scope.
#[global] Set Warnings "-notation-overridden".

Declare Scope sng_scope.
Delimit Scope sng_scope with sng.
#[global] Open Scope sng_scope.

(** ** Machine integers

    A w-bit C integer is a [Z]; every place where the source stores into a
    narrower or unsigned object goes through one of these conversions. *)

Definition u8 (x : Z) : Z := x mod 2 ^ 8.
Definition u16 (x : Z) : Z := x mod 2 ^ 16.
Definition u32 (x : Z) : Z := x mod 2 ^ 32.
Definition u64 (x : Z) : Z := x mod 2 ^ 64.

Definition s32 (x : Z) : Z :=
  let y := u32 x in if bool_decide (y < 2 ^ 31) then y else y - 2 ^ 32.

Abbreviation byte := Z (only parsing).
Abbreviation bytes := (list Z) (only parsing).

Definition is_byte (b : Z) : Prop := 0 <= b < 256.

Fixpoint bytes_of_string (s : string) : bytes :=
  match s with
  | EmptyString => []
  | String a s => Z.of_nat (Ascii.nat_of_ascii a) :: bytes_of_string s
  end.

Definition lenZ {A} (l : list A) : Z := Z.of_nat (length l).

(** ** Failing assertions

    [g_assert] aborts the process: a definition whose source asserts returns
    [Abort] where the assertion fails. *)

Inductive outcome (A : Type) : Type :=
| Ret (a : A)
| Abort.
Arguments Ret {A} a.
Arguments Abort {A}.

Definition obind {A B} (m : outcome A) (f : A -> outcome B) : outcome B :=
  match m with Ret a => f a | Abort => Abort end.

Notation "'let!' x ':=' m 'in' k" := (obind m (fun x => k))
  (at level 10, x pattern, m at level 100, k at level 200) : sng_scope.

Definition g_assert (b : bool) : outcome unit := if b then Ret tt else Abort.

(** ** Generic lemmas *)

Lemma u8_small (x : Z) : 0 <= x < 2 ^ 8 -> u8 x = x.
Proof. intros; unfold u8; by rewrite Z.mod_small. Qed.

Lemma u16_small (x : Z) : 0 <= x < 2 ^ 16 -> u16 x = x.
Proof. intros; unfold u16; by rewrite Z.mod_small. Qed.

Lemma u32_small (x : Z) : 0 <= x < 2 ^ 32 -> u32 x = x.
Proof. intros; unfold u32; by rewrite Z.mod_small. Qed.

Lemma u64_small (x : Z) : 0 <= x < 2 ^ 64 -> u64 x = x.
Proof. intros; unfold u64; by rewrite Z.mod_small. Qed.

Lemma u8_range (x : Z) : 0 <= u8 x < 2 ^ 8.
Proof. by apply Z.mod_pos_bound. Qed.

Lemma u16_range (x : Z) : 0 <= u16 x < 2 ^ 16.
Proof. by apply Z.mod_pos_bound. Qed.

Lemma u32_range (x : Z) : 0 <= u32 x < 2 ^ 32.
Proof. by apply Z.mod_pos_bound. Qed.

Lemma lenZ_nonneg {A} (l : list A) : 0 <= lenZ l.
Proof. unfold lenZ; lia. Qed.

Lemma lenZ_nil {A} : lenZ ([] : list A) = 0.
Proof. done. Qed.

Lemma lenZ_cons {A} (x : A) (l : list A) : lenZ (x :: l) = 1 + lenZ l.
Proof. unfold lenZ; simpl; lia. Qed.

Lemma lenZ_app {A} (l k : list A) : lenZ (l ++ k) = lenZ l + lenZ k.
Proof. unfold lenZ; rewrite length_app; lia. Qed.

Lemma lenZ_zero_nil {A} (l : list A) : lenZ l = 0 -> l = [].
Proof. destruct l; [done|]. rewrite lenZ_cons. pose proof (lenZ_nonneg l). lia. Qed.

Lemma lenZ_take {A} (n : nat) (l : list A) : lenZ (take n l) = Z.min (Z.of_nat n) (lenZ l).
Proof. unfold lenZ; rewrite length_take; lia. Qed.

Lemma lenZ_drop {A} (n : nat) (l : list A) : lenZ (drop n l) = Z.max 0 (lenZ l - Z.of_nat n).
Proof. unfold lenZ; rewrite length_drop; lia. Qed.

(** ** Automation *)

Create HintDb sng.
Create Rewrite HintDb sng.

#[export] Hint Resolve lenZ_nonneg u8_range u16_range u32_range : sng.
#[export] Hint Rewrite @lenZ_nil @lenZ_cons @lenZ_app @lenZ_take @lenZ_drop : sng.

(** Case analysis on the boolean tests of the source, kept as propositions. *)
Ltac case_bool :=
  match goal with
  | |- context [if bool_decide ?P then _ else _] =>
      let H := fresh "Hb" in destruct (bool_decide_reflect P) as [H|H]
  | H : context [if bool_decide ?P then _ else _] |- _ =>
      let Hb := fresh "Hb" in destruct (bool_decide_reflect P) as [Hb|Hb]
  end.

Lemma s32_small (x : Z) : - 2 ^ 31 <= x < 2 ^ 31 -> s32 x = x.
Proof. intros Hx. unfold s32, u32. case_bool; Z.to_euclidean_division_equations; lia. Qed.

Ltac case_if_in H :=
  match type of H with
  | context [if ?b then _ else _] => let E := fresh "E" in destruct b eqn:E
  end.

(** Peel an [outcome] computation known to return. *)
Ltac inv_ret H := injection H as H; try subst.
