(* ===== verification/RingBuffer.v ===== *)
(** * lib/ringbuffer.c: the fixed-capacity ring of ack records

    [RingBuffer] keeps the five integer fields of the struct at their 32 bit
    width.  A [gpointer] into the buffer is the byte offset from
    [self->buffer], so the element addresses the code computes are visible.
    [rb_contents] is the abstract queue; the theorems show that each operation
    is the list operation on it. *)
From S2P Require Import Prelude.

Record RingBuffer := mkRingBuffer {
  rb_allocated : bool;        (* self->buffer != NULL *)
  rb_head : Z;
  rb_tail : Z;
  rb_count : Z;
  rb_capacity : Z;
  rb_element_size : Z;
}.

Definition ring_buffer_init : RingBuffer := mkRingBuffer false 0 0 0 0 0.

Definition ring_buffer_alloc (element_size capacity : Z) : outcome RingBuffer :=
  let! _ := g_assert (bool_decide (capacity > 0)) in
  Ret (mkRingBuffer true 0 0 0 capacity element_size).

Definition ring_buffer_is_allocated (self : RingBuffer) : bool := rb_allocated self.

Definition ring_buffer_free (self : RingBuffer) : RingBuffer := mkRingBuffer false 0 0 0 0 0.

Definition ring_buffer_is_full (self : RingBuffer) : bool :=
  bool_decide (rb_capacity self = rb_count self).

Definition ring_buffer_is_empty (self : RingBuffer) : bool :=
  bool_decide (rb_count self = 0).

(** The byte offset of a slot, computed in 32 bits. *)
Definition rb_slot_ptr (self : RingBuffer) (slot : Z) : Z :=
  u32 (slot * rb_element_size self).

Definition ring_buffer_tail (self : RingBuffer) : outcome (option Z) :=
  let! _ := g_assert (rb_allocated self) in
  if ring_buffer_is_full self then Ret None
  else Ret (Some (rb_slot_ptr self (rb_tail self))).

Definition ring_buffer_push (self : RingBuffer) : outcome (option Z * RingBuffer) :=
  let! r := ring_buffer_tail self in
  match r with
  | None => Ret (None, self)
  | Some p =>
      Ret (Some p,
           mkRingBuffer (rb_allocated self) (rb_head self)
             (u32 (rb_tail self + 1) mod rb_capacity self)
             (u32 (rb_count self + 1)) (rb_capacity self) (rb_element_size self))
  end.

Definition ring_buffer_pop (self : RingBuffer) : outcome (option Z * RingBuffer) :=
  let! _ := g_assert (rb_allocated self) in
  if ring_buffer_is_empty self then Ret (None, self)
  else
    Ret (Some (rb_slot_ptr self (rb_head self)),
         mkRingBuffer (rb_allocated self)
           (u32 (rb_head self + 1) mod rb_capacity self)
           (rb_tail self) (u32 (rb_count self - 1))
           (rb_capacity self) (rb_element_size self)).

Definition ring_buffer_count (self : RingBuffer) : Z := rb_count self.

Definition ring_buffer_capacity (self : RingBuffer) : Z :=
  if rb_allocated self then rb_capacity self else 0.

Definition ring_buffer_drop (self : RingBuffer) (n : Z) : outcome (bool * RingBuffer) :=
  let! _ := g_assert (rb_allocated self) in
  if bool_decide (ring_buffer_count self < n) then Ret (false, self)
  else
    Ret (true,
         mkRingBuffer (rb_allocated self)
           (u32 (rb_head self + n) mod rb_capacity self)
           (rb_tail self) (u32 (rb_count self - n))
           (rb_capacity self) (rb_element_size self)).

Definition ring_buffer_element_at (self : RingBuffer) (idx : Z) : outcome (option Z) :=
  let! _ := g_assert (rb_allocated self) in
  if bool_decide (idx >= rb_count self) then Ret None
  else Ret (Some (rb_slot_ptr self (u32 (rb_head self + idx) mod rb_capacity self))).

(** The loop over [i]: [fuel] bounds the number of iterations; the caller
    passes [count], after which the loop condition is false. *)
Fixpoint continual_range_loop (fuel : nat) (self : RingBuffer) (pred : Z -> bool) (i r : Z)
  : outcome Z :=
  match fuel with
  | O => Ret r
  | S fuel =>
      if bool_decide (i < ring_buffer_count self) then
        let! e := ring_buffer_element_at self i in
        match e with
        | None => Abort  (* pred(NULL) *)
        | Some p =>
            if pred p then continual_range_loop fuel self pred (u32 (i + 1)) (u32 (r + 1))
            else Ret r
        end
      else Ret r
  end.

Definition ring_buffer_get_continual_range_length (self : RingBuffer) (pred : Z -> bool)
  : outcome Z :=
  let! _ := g_assert (rb_allocated self) in
  continual_range_loop (Z.to_nat (rb_count self)) self pred 0 0.

(** ** The abstract queue *)

(** What an allocated ring looks like between two operations.  [head + n] is
    computed in 32 bits, so the capacity is at most 2^31; the callers pass a
    positive [gint]. *)
Record rb_wf (self : RingBuffer) : Prop := {
  rbw_alloc : rb_allocated self = true;
  rbw_cap : 0 < rb_capacity self <= 2 ^ 31;
  rbw_esz : 0 < rb_element_size self;
  rbw_bytes : rb_capacity self * rb_element_size self < 2 ^ 32;
  rbw_head : 0 <= rb_head self < rb_capacity self;
  rbw_count : 0 <= rb_count self <= rb_capacity self;
  rbw_tail : rb_tail self = (rb_head self + rb_count self) mod rb_capacity self;
}.

Definition rb_nth (self : RingBuffer) (i : nat) : Z :=
  rb_slot_ptr self ((rb_head self + Z.of_nat i) mod rb_capacity self).

Definition rb_contents (self : RingBuffer) : list Z :=
  rb_nth self <$> seq 0 (Z.to_nat (rb_count self)).

(** The longest prefix of a list on which a predicate holds. *)
Fixpoint prefix_while {A} (p : A -> bool) (l : list A) : nat :=
  match l with
  | [] => 0
  | x :: l => if p x then S (prefix_while p l) else 0
  end.

(** A bounded queue of distinct cells: what the ring promises its clients. *)
Inductive rb_op := RbPush | RbPop | RbDrop (n : Z) | RbElementAt (i : Z) | RbContinual (p : Z -> bool).

Inductive rb_res := RbPtr (p : option Z) | RbBool (b : bool) | RbNum (n : Z).

Definition rb_run (self : RingBuffer) (op : rb_op) : outcome (rb_res * RingBuffer) :=
  match op with
  | RbPush => let! (p, self') := ring_buffer_push self in Ret (RbPtr p, self')
  | RbPop => let! (p, self') := ring_buffer_pop self in Ret (RbPtr p, self')
  | RbDrop n => let! (b, self') := ring_buffer_drop self n in Ret (RbBool b, self')
  | RbElementAt i => let! p := ring_buffer_element_at self i in Ret (RbPtr p, self)
  | RbContinual p =>
      let! n := ring_buffer_get_continual_range_length self p in Ret (RbNum n, self)
  end.

Inductive rbq_step (cap : Z) : list Z -> rb_op -> rb_res -> list Z -> Prop :=
| rbq_push_full q : lenZ q = cap -> rbq_step cap q RbPush (RbPtr None) q
| rbq_push q p : lenZ q < cap -> p ∉ q -> rbq_step cap q RbPush (RbPtr (Some p)) (q ++ [p])
| rbq_pop_empty : rbq_step cap [] RbPop (RbPtr None) []
| rbq_pop p q : rbq_step cap (p :: q) RbPop (RbPtr (Some p)) q
| rbq_drop_short q n : lenZ q < n -> rbq_step cap q (RbDrop n) (RbBool false) q
| rbq_drop q n : n <= lenZ q -> rbq_step cap q (RbDrop n) (RbBool true) (drop (Z.to_nat n) q)
| rbq_element q i : rbq_step cap q (RbElementAt i) (RbPtr (q !! Z.to_nat i)) q
| rbq_continual q p : rbq_step cap q (RbContinual p) (RbNum (Z.of_nat (prefix_while p q))) q.

(** Running a whole sequence of operations. *)
Fixpoint rb_run_all (self : RingBuffer) (ops : list rb_op) : outcome (list rb_res * RingBuffer) :=
  match ops with
  | [] => Ret ([], self)
  | op :: ops =>
      let! (r, self') := rb_run self op in
      let! (rs, self'') := rb_run_all self' ops in
      Ret (r :: rs, self'')
  end.

Inductive rbq_steps (cap : Z) : list Z -> list rb_op -> list rb_res -> list Z -> Prop :=
| rbq_done q : rbq_steps cap q [] [] q
| rbq_next q q' q'' op ops r rs :
    rbq_step cap q op r q' -> rbq_steps cap q' ops rs q'' ->
    rbq_steps cap q (op :: ops) (r :: rs) q''.

(** The 31 bit arguments that the callers pass. *)
Definition rb_op_ok (op : rb_op) : Prop :=
  match op with
  | RbDrop n => 0 <= n < 2 ^ 31
  | RbElementAt i => 0 <= i < 2 ^ 31
  | _ => True
  end.


Lemma prefix_while_le {A} (p : A -> bool) (l : list A) : (prefix_while p l <= length l)%nat.
Proof. induction l as [|x l IH]; simpl; [lia|]. destruct (p x); lia. Qed.

Lemma prefix_while_take {A} (p : A -> bool) (l : list A) :
  Forall (fun x => p x = true) (take (prefix_while p l) l).
Proof.
  induction l as [|x l IH]; simpl; [constructor|].
  destruct (p x) eqn:E; simpl; [by constructor|constructor].
Qed.

Lemma prefix_while_stop {A} (p : A -> bool) (l : list A) (x : A) :
  l !! prefix_while p l = Some x -> p x = false.
Proof.
  induction l as [|y l IH]; simpl; [done|].
  destruct (p y) eqn:E; simpl; [done|]. by intros [= <-].
Qed.

Lemma rb_contents_length self :
  rb_wf self -> lenZ (rb_contents self) = rb_count self.
Proof.
  intros H; destruct H. unfold lenZ, rb_contents.
  rewrite length_fmap, length_seq; lia.
Qed.

Lemma rb_contents_lookup self i :
  (i < Z.to_nat (rb_count self))%nat -> rb_contents self !! i = Some (rb_nth self i).
Proof.
  intros Hi. unfold rb_contents. rewrite list_lookup_fmap, lookup_seq_lt by done.
  done.
Qed.

Lemma seq_shift_fmap (f : nat -> Z) (n m : nat) :
  f <$> seq n m = (fun i => f (n + i)%nat) <$> seq 0 m.
Proof.
  apply list_eq; intros i. rewrite !list_lookup_fmap.
  destruct (decide (i < m)%nat).
  - by rewrite !lookup_seq_lt.
  - by rewrite !lookup_seq_ge by lia.
Qed.

Lemma rb_slot_ptr_small self slot :
  rb_wf self -> 0 <= slot < rb_capacity self ->
  rb_slot_ptr self slot = slot * rb_element_size self.
Proof. intros [] Hs. unfold rb_slot_ptr. apply u32_small; nia. Qed.

Lemma rb_slot_ptr_inj self i j :
  rb_wf self -> 0 <= i < rb_capacity self -> 0 <= j < rb_capacity self ->
  rb_slot_ptr self i = rb_slot_ptr self j -> i = j.
Proof. intros Hwf Hi Hj. rewrite !rb_slot_ptr_small by done. destruct Hwf. nia. Qed.

(** The two indices below [2 * capacity] that the ring arithmetic meets. *)
Lemma mod_once (x c : Z) : 0 < c -> c <= x < 2 * c -> x mod c = x - c.
Proof. intros. symmetry. apply (Z.mod_unique_pos _ _ 1); lia. Qed.

Lemma u32_mod_small (x c : Z) : 0 <= x < 2 ^ 32 -> u32 x mod c = x mod c.
Proof. intros. by rewrite u32_small. Qed.

Lemma ring_buffer_alloc_wf esz cap :
  0 < esz -> 0 < cap <= 2 ^ 31 -> cap * esz < 2 ^ 32 ->
  exists rb, ring_buffer_alloc esz cap = Ret rb /\ rb_wf rb /\ rb_contents rb = [] /\
    rb_capacity rb = cap.
Proof.
  intros. unfold ring_buffer_alloc. rewrite bool_decide_true by lia. simpl.
  eexists; split_and!; [done| |done|done]. split; simpl; try lia; done.
Qed.

Lemma ring_buffer_tail_spec self :
  rb_wf self ->
  ring_buffer_tail self =
    Ret (if bool_decide (rb_count self < rb_capacity self)
         then Some (rb_slot_ptr self (rb_tail self)) else None).
Proof.
  intros []. unfold ring_buffer_tail, ring_buffer_is_full.
  rewrite rbw_alloc0; simpl. repeat case_bool; try done; lia.
Qed.

Lemma ring_buffer_push_spec self :
  rb_wf self -> rb_count self < rb_capacity self ->
  exists self', ring_buffer_push self = Ret (Some (rb_slot_ptr self (rb_tail self)), self') /\
    rb_wf self' /\ rb_contents self' = rb_contents self ++ [rb_slot_ptr self (rb_tail self)] /\
    rb_capacity self' = rb_capacity self /\ rb_count self' = rb_count self + 1.
Proof.
  intros Hwf Hlt. unfold ring_buffer_push. rewrite ring_buffer_tail_spec by done.
  rewrite bool_decide_true by done. simpl. destruct Hwf.
  assert (Ht : 0 <= rb_tail self < rb_capacity self).
  { rewrite rbw_tail0. apply Z.mod_pos_bound; lia. }
  eexists; split; [done|]. rewrite (u32_small (_ + 1)) by lia.
  rewrite (u32_small (rb_count self + 1)) by lia.
  split_and!; [split; simpl; try done; try lia| |done|done].
  - rewrite rbw_tail0, Zplus_mod_idemp_l. f_equal; lia.
  - unfold rb_contents; simpl. rewrite Z2Nat.inj_add by lia.
    rewrite seq_app, fmap_app. f_equal. simpl. f_equal.
    unfold rb_nth; simpl. rewrite rbw_tail0. do 3 f_equal; lia.
Qed.

Lemma ring_buffer_drop_spec self n :
  rb_wf self -> 0 <= n <= rb_count self ->
  exists self', ring_buffer_drop self n = Ret (true, self') /\ rb_wf self' /\
    rb_contents self' = drop (Z.to_nat n) (rb_contents self) /\
    rb_capacity self' = rb_capacity self /\ rb_count self' = rb_count self - n.
Proof.
  intros [] Hn. unfold ring_buffer_drop, ring_buffer_count. rewrite rbw_alloc0; simpl.
  rewrite bool_decide_false by lia. eexists; split; [done|].
  rewrite (u32_small (_ + n)), (u32_small (_ - n)) by lia.
  split_and!; [split; simpl; try done; try lia| |done|done].
  - apply Z.mod_pos_bound; lia.
  - rewrite rbw_tail0, Zplus_mod_idemp_l. f_equal; lia.
  - unfold rb_contents; simpl. rewrite <- fmap_drop, drop_seq, <- Z2Nat.inj_sub by lia.
    rewrite (seq_shift_fmap _ (0 + _)%nat). apply list_fmap_ext; intros i x _.
    unfold rb_nth, rb_slot_ptr; simpl. rewrite Zplus_mod_idemp_l. do 3 f_equal; lia.
Qed.

Lemma ring_buffer_element_at_spec self i :
  rb_wf self -> 0 <= i < 2 ^ 31 ->
  ring_buffer_element_at self i = Ret (rb_contents self !! Z.to_nat i).
Proof.
  intros Hwf Hi. pose proof (rb_contents_length self Hwf) as HL. destruct Hwf.
  unfold ring_buffer_element_at. rewrite rbw_alloc0; simpl. unfold lenZ in HL.
  case_bool.
  - by rewrite lookup_ge_None_2 by lia.
  - rewrite rb_contents_lookup by lia. unfold rb_nth.
    rewrite u32_mod_small by lia. do 4 f_equal; lia.
Qed.

Lemma continual_range_loop_spec self pred fuel i :
  rb_wf self -> (length (rb_contents self) <= i + fuel)%nat -> (i <= length (rb_contents self))%nat ->
  continual_range_loop fuel self pred (Z.of_nat i) (Z.of_nat i) =
    Ret (Z.of_nat (i + prefix_while pred (drop i (rb_contents self)))).
Proof.
  intros Hwf. pose proof (rb_contents_length self Hwf) as HL.
  pose proof (rbw_count _ Hwf). pose proof (rbw_cap _ Hwf). unfold lenZ in HL.
  revert i; induction fuel as [|fuel IH]; intros i Hf Hi; simpl.
  - rewrite drop_ge by lia. simpl. do 2 f_equal; lia.
  - unfold ring_buffer_count. case_bool.
    + rewrite ring_buffer_element_at_spec, Nat2Z.id by (done || lia). simpl.
      destruct (rb_contents self !! i) as [p|] eqn:E; [|apply lookup_ge_None_1 in E; lia].
      rewrite (drop_S _ p i) by done. simpl. destruct (pred p).
      * replace (u32 (Z.of_nat i + 1)) with (Z.of_nat (S i)) by (rewrite u32_small; lia).
        rewrite IH by lia. do 2 f_equal; lia.
      * do 2 f_equal; lia.
    + rewrite drop_ge by lia. simpl. do 2 f_equal; lia.
Qed.

Lemma rb_contents_cons self :
  rb_wf self -> 0 < rb_count self ->
  rb_contents self = rb_slot_ptr self (rb_head self) :: drop 1 (rb_contents self).
Proof.
  intros Hwf Hc. pose proof (rb_contents_lookup self 0). destruct Hwf.
  destruct (rb_contents self) as [|x q]; simpl in *; [by discriminate H; lia|].
  f_equal. specialize (H ltac:(lia)) as [= ->]. unfold rb_nth.
  rewrite Z.add_0_r, Z.mod_small by lia. done.
Qed.

Lemma ring_buffer_pop_spec self :
  rb_wf self -> 0 < rb_count self ->
  exists self', ring_buffer_pop self = Ret (Some (rb_slot_ptr self (rb_head self)), self') /\
    rb_wf self' /\ rb_contents self = rb_slot_ptr self (rb_head self) :: rb_contents self' /\
    rb_capacity self' = rb_capacity self.
Proof.
  intros Hwf Hc. destruct (ring_buffer_drop_spec self 1) as (self' & Hd & Hwf' & Hq & Hcap & _); [done|lia|].
  pose proof (rb_contents_cons self Hwf Hc) as Hcons. destruct Hwf.
  unfold ring_buffer_drop, ring_buffer_pop, ring_buffer_is_empty in *.
  rewrite rbw_alloc0 in *; simpl in *. rewrite bool_decide_false in Hd by (unfold ring_buffer_count; lia).
  rewrite bool_decide_false by lia. injection Hd as <-. eexists; split_and!; [done|done| |done].
  rewrite Hq. exact Hcons.
Qed.

Lemma rb_tail_fresh self :
  rb_wf self -> rb_count self < rb_capacity self ->
  rb_slot_ptr self (rb_tail self) ∉ rb_contents self.
Proof.
  intros Hwf Hlt Hin. apply list_elem_of_fmap in Hin as (i & Heq & Hi).
  apply elem_of_seq in Hi. pose proof Hwf as [].
  unfold rb_nth in Heq. rewrite rbw_tail0 in Heq.
  apply rb_slot_ptr_inj in Heq; [|done|apply Z.mod_pos_bound; lia..].
  assert (Hc : forall x, 0 <= x < 2 * rb_capacity self ->
    x mod rb_capacity self = x \/ x mod rb_capacity self = x - rb_capacity self /\ rb_capacity self <= x).
  { intros x Hx. destruct (decide (x < rb_capacity self)).
    - left; apply Z.mod_small; lia.
    - right; split; [apply mod_once; lia|lia]. }
  destruct (Hc (rb_head self + rb_count self)) as [E|[E ?]], (Hc (rb_head self + Z.of_nat i)) as [E'|[E' ?]];
    lia.
Qed.

Lemma rb_run_simulates self op :
  rb_wf self -> rb_op_ok op ->
  exists r self', rb_run self op = Ret (r, self') /\ rb_wf self' /\
    rb_capacity self' = rb_capacity self /\
    rbq_step (rb_capacity self) (rb_contents self) op r (rb_contents self').
Proof.
  intros Hwf Hop. pose proof (rb_contents_length self Hwf) as HL. pose proof Hwf as [].
  destruct op as [| |n|i|p]; simpl in *.
  - destruct (decide (rb_count self < rb_capacity self)) as [Hlt|Hge].
    + destruct (ring_buffer_push_spec self) as (self' & -> & Hwf' & Hq & Hc & _); [done..|]. simpl.
      eexists _, _; split_and!; [done..|]. rewrite Hq. constructor; [lia|by apply rb_tail_fresh].
    + unfold ring_buffer_push. rewrite ring_buffer_tail_spec, bool_decide_false by done. simpl.
      eexists _, _; split_and!; [done..|]. constructor; lia.
  - destruct (decide (rb_count self = 0)) as [Hz|Hnz].
    + unfold ring_buffer_pop, ring_buffer_is_empty. rewrite rbw_alloc0, bool_decide_true by done. simpl.
      eexists _, _; split_and!; [done..|]. rewrite (lenZ_zero_nil (rb_contents self)) by lia. constructor.
    + destruct (ring_buffer_pop_spec self) as (self' & -> & Hwf' & Hq & Hc); [done|lia|]. simpl.
      eexists _, _; split_and!; [done..|]. rewrite Hq. constructor.
  - destruct (decide (rb_count self < n)) as [Hlt|Hge].
    + unfold ring_buffer_drop. rewrite rbw_alloc0; simpl. rewrite bool_decide_true by done. simpl.
      eexists _, _; split_and!; [done..|]. constructor; lia.
    + destruct (ring_buffer_drop_spec self n) as (self' & -> & Hwf' & Hq & Hc & _); [done|lia|]. simpl.
      eexists _, _; split_and!; [done..|]. rewrite Hq. constructor; lia.
  - rewrite ring_buffer_element_at_spec by done. simpl.
    eexists _, _; split_and!; [done..|]. constructor.
  - unfold ring_buffer_get_continual_range_length. rewrite rbw_alloc0; simpl.
    unfold lenZ in HL.
    rewrite (continual_range_loop_spec self p _ 0) by (done || lia). simpl.
    eexists _, _; split_and!; [done..|]. constructor.
Qed.

Lemma ring_buffer_get_continual_range_length_spec self p :
  rb_wf self ->
  ring_buffer_get_continual_range_length self p = Ret (Z.of_nat (prefix_while p (rb_contents self))).
Proof.
  intros Hwf. destruct (rb_run_simulates self (RbContinual p) Hwf I) as (r & self' & Hr & _ & _ & Hs).
  simpl in Hr. destruct (ring_buffer_get_continual_range_length self p); [|done].
  inversion Hs; subst. by inversion Hr; subst.
Qed.

Lemma rb_run_all_simulates self ops :
  rb_wf self -> Forall rb_op_ok ops ->
  exists rs self', rb_run_all self ops = Ret (rs, self') /\ rb_wf self' /\
    rbq_steps (rb_capacity self) (rb_contents self) ops rs (rb_contents self').
Proof.
  intros Hwf Hok. revert self Hwf. induction Hok as [|op ops Hop _ IH]; intros self Hwf; simpl.
  - eexists _, _; split_and!; [done..|constructor].
  - destruct (rb_run_simulates self op) as (r & s1 & -> & Hwf1 & Hc & Hs); [done..|]. simpl.
    destruct (IH s1 Hwf1) as (rs & s2 & -> & Hwf2 & Hss). simpl.
    eexists _, _; split_and!; [done..|]. rewrite Hc in Hss. by econstructor.
Qed.

(** C1: a freshly allocated ring of [cap] elements behaves, over any sequence of
    pushes, pops, drops, element reads and continuous-range scans, exactly as a
    bounded FIFO queue of [cap] pairwise distinct cells: no assertion fires, a
    push fails only on a full queue and hands out a cell that is not in use, and
    every result and the final contents are those of the queue. *)
Theorem ring_buffer_refines_queue (esz cap : Z) (ops : list rb_op)
  (Hesz : 0 < esz) (Hcap : 0 < cap <= 2 ^ 31) (Hbytes : cap * esz < 2 ^ 32)
  (Hops : Forall rb_op_ok ops) :
  exists rb rs rb', ring_buffer_alloc esz cap = Ret rb /\
    rb_run_all rb ops = Ret (rs, rb') /\ rb_wf rb' /\
    rbq_steps cap [] ops rs (rb_contents rb').
Proof.
  destruct (ring_buffer_alloc_wf esz cap) as (rb & Ha & Hwf & Hq & Hc); [done..|].
  destruct (rb_run_all_simulates rb ops) as (rs & rb' & Hr & Hwf' & Hs); [done..|].
  exists rb, rs, rb'. rewrite Hq, Hc in Hs. done.
Qed.

Lemma ring_buffer_refines_queue_witness :
  exists rb rs rb', ring_buffer_alloc 40 2 = Ret rb /\
    rb_run_all rb [RbPush; RbPush; RbPush; RbPop; RbPush; RbElementAt 1] = Ret (rs, rb') /\
    rb_wf rb' /\
    rbq_steps 2 [] [RbPush; RbPush; RbPush; RbPop; RbPush; RbElementAt 1] rs (rb_contents rb').
Proof. apply ring_buffer_refines_queue; [lia|lia|lia|repeat constructor; simpl; lia]. Defined.

Example ring_buffer_trace :
  exists rb, ring_buffer_alloc 40 2 = Ret rb /\
    (let! (rs, _) := rb_run_all rb [RbPush; RbPush; RbPush; RbPop; RbPush; RbElementAt 1] in Ret rs) =
    Ret [RbPtr (Some 0); RbPtr (Some 40); RbPtr None; RbPtr (Some 0); RbPtr (Some 0); RbPtr (Some 0)].
Proof. eexists; split; [reflexivity|vm_compute; reflexivity]. Qed.
