(* ===== verification/NVTable.v ===== *)
(** * lib/nvtable.h, lib/nvtable.c: the name-value table of a message

    An [NVTable] is one block of memory: a header, an array of static offsets,
    an array of (handle, offset) pairs sorted by handle, free space, and the
    entries, which grow downwards from the end of the block.  Entries are
    addressed by their distance from the end ([ofs]), so growing the block
    keeps every offset.

    The model keeps the sizes and offsets of that layout exactly and represents
    the entry area as a finite map from offsets to entries; an entry keeps the
    number of bytes it owns ([alloc_len]) beside its contents.  The prefix of
    [num_dyn_entries] pairs is the list [dyn_entries]; the code never reads the
    pairs behind that prefix. *)
From S2P Require Import Prelude.

(** ** Data *)

(** [struct _NVReferencedSlice]; the [name] that follows it is [e_name]. *)
Record NVReferencedSlice := mkSlice {
  rs_handle : Z;
  rs_ofs : Z;
  rs_len : Z;
  rs_type : Z;
}.

(** The union of [struct _NVEntry]; the bit [indirect] is the constructor. *)
Inductive NVBody :=
| VDirect (value : bytes)
| VIndirect (slice : NVReferencedSlice).

Record NVEntry := mkEntry {
  e_referenced : bool;
  e_name : bytes;             (* name_len is its length *)
  e_alloc_len : Z;
  e_body : NVBody;
}.

Definition e_indirect (e : NVEntry) : bool :=
  match e_body e with VDirect _ => false | VIndirect _ => true end.

Record NVTable := mkTable {
  nt_size : Z;
  nt_used : Z;
  nt_ref_cnt : Z;                    (* 7 bits *)
  nt_borrowed : bool;
  nt_static : list Z;                (* static_entries; num_static_entries is its length *)
  nt_dyn : list (Z * Z);             (* (handle, ofs) *)
  nt_heap : gmap Z NVEntry;          (* ofs -> entry *)
}.

Definition nt_num_static (self : NVTable) : Z := lenZ (nt_static self).
Definition nt_num_dyn (self : NVTable) : Z := lenZ (nt_dyn self).

(** Sizes of the structs on the supported 32/64 bit ABIs. *)
Definition SIZEOF_NVTABLE : Z := 16.
Definition OFFSETOF_NVTABLE_DATA : Z := 12.
Definition SIZEOF_STATIC : Z := 4.
Definition SIZEOF_NVDYNVALUE : Z := 8.
Definition NV_ENTRY_DIRECT_HDR : Z := 12.
Definition NV_ENTRY_INDIRECT_HDR : Z := 24.
Definition NV_TABLE_MAX_BYTES : Z := 256 * 1024 * 1024.

Definition NV_TABLE_BOUND (x : Z) : Z := Z.land (x + 3) (Z.lnot 3).

(** ** Field updates *)

Definition set_static (self : NVTable) (l : list Z) : NVTable :=
  mkTable (nt_size self) (nt_used self) (nt_ref_cnt self) (nt_borrowed self) l (nt_dyn self) (nt_heap self).
Definition set_dyn (self : NVTable) (l : list (Z * Z)) : NVTable :=
  mkTable (nt_size self) (nt_used self) (nt_ref_cnt self) (nt_borrowed self) (nt_static self) l (nt_heap self).
Definition set_heap (self : NVTable) (h : gmap Z NVEntry) : NVTable :=
  mkTable (nt_size self) (nt_used self) (nt_ref_cnt self) (nt_borrowed self) (nt_static self) (nt_dyn self) h.
Definition set_used (self : NVTable) (u : Z) : NVTable :=
  mkTable (nt_size self) u (nt_ref_cnt self) (nt_borrowed self) (nt_static self) (nt_dyn self) (nt_heap self).

Definition set_entry (self : NVTable) (ofs : Z) (e : NVEntry) : NVTable :=
  set_heap self (<[ofs := e]> (nt_heap self)).

(** ** Sizes and allocation *)

Definition nv_table_get_size (size : Z) : Z := Z.min size NV_TABLE_MAX_BYTES.

Definition nv_table_get_alloc_size (num_static_entries num_dyn_values init_length : Z) : Z :=
  let size := NV_TABLE_BOUND init_length +
    NV_TABLE_BOUND (SIZEOF_NVTABLE + num_static_entries * SIZEOF_STATIC + num_dyn_values * SIZEOF_NVDYNVALUE) in
  if bool_decide (size < 128) then 128
  else if bool_decide (size > NV_TABLE_MAX_BYTES) then NV_TABLE_MAX_BYTES
  else size.

(** Addresses are relative to the start of the block. *)
Definition nv_table_get_top (self : NVTable) : Z := nt_size self.
Definition nv_table_get_bottom (self : NVTable) : Z := nv_table_get_top self - nt_used self.
Definition nv_table_get_ofs_table_top (self : NVTable) : Z :=
  OFFSETOF_NVTABLE_DATA + nt_num_static self * SIZEOF_STATIC + nt_num_dyn self * SIZEOF_NVDYNVALUE.

(** The difference of two pointers is signed, the comparison is with a [gsize]. *)
Definition nv_table_alloc_check (self : NVTable) (alloc_size : Z) : bool :=
  if bool_decide (u64 (nv_table_get_bottom self - nv_table_get_ofs_table_top self) < alloc_size)
  then false else true.

(** The fresh entry is handed to the caller with its [alloc_len] and cleared
    flags; its body is filled in by the caller before it is linked. *)
Definition nv_table_alloc_value (self : NVTable) (alloc_size : Z) : option (Z * Z * NVTable) :=
  let alloc_size := NV_TABLE_BOUND alloc_size in
  if nv_table_alloc_check self alloc_size then
    let used := u32 (nt_used self + alloc_size) in
    Some (used, u32 alloc_size, set_used self used)
  else None.

Definition nv_table_init (alloc_length num_static_entries : Z) : NVTable :=
  mkTable (u32 (nv_table_get_size alloc_length)) 0 1 false
    (replicate (Z.to_nat (u8 num_static_entries)) 0) [] ∅.

Definition nv_table_new (num_static_entries num_dyn_values init_length : Z) : NVTable :=
  nv_table_init (nv_table_get_alloc_size num_static_entries num_dyn_values init_length) num_static_entries.

Definition nv_table_init_borrowed (space_len num_static_entries : Z) : outcome NVTable :=
  let space_len := Z.land space_len (Z.lnot 3) in
  let! _ := g_assert (bool_decide (space_len > num_static_entries * SIZEOF_STATIC + SIZEOF_NVTABLE)) in
  let t := nv_table_init (NV_TABLE_BOUND space_len) num_static_entries in
  Ret (mkTable (nt_size t) (nt_used t) (nt_ref_cnt t) true (nt_static t) (nt_dyn t) (nt_heap t)).

Definition calc_nv_table_realloc_size (self : NVTable) : Z :=
  nv_table_get_size (Z.shiftl (nt_size self) 1).

Definition nv_table_ref (self : NVTable) : NVTable :=
  mkTable (nt_size self) (nt_used self) ((nt_ref_cnt self + 1) mod 2 ^ 7) (nt_borrowed self)
    (nt_static self) (nt_dyn self) (nt_heap self).

(** The second component tells whether the block was freed. *)
Definition nv_table_unref (self : NVTable) : NVTable * bool :=
  let cnt := (nt_ref_cnt self - 1) mod 2 ^ 7 in
  (mkTable (nt_size self) (nt_used self) cnt (nt_borrowed self)
     (nt_static self) (nt_dyn self) (nt_heap self),
   bool_decide (cnt = 0) && negb (nt_borrowed self)).

Definition resize (self : NVTable) (size : Z) (ref_cnt : Z) (borrowed : bool) : NVTable :=
  mkTable size (nt_used self) ref_cnt borrowed (nt_static self) (nt_dyn self) (nt_heap self).

(** [None] is the NULL return; otherwise the new table, and the old one where
    it stays allocated under another reference or in its container. *)
Definition nv_table_realloc (self : NVTable) : option (NVTable * option NVTable) :=
  let old_size := nt_size self in
  let new_size := calc_nv_table_realloc_size self in
  if bool_decide (new_size = old_size) then None
  else if bool_decide (nt_ref_cnt self = 1) && negb (nt_borrowed self) then
    Some (resize self (u32 (nv_table_get_size new_size)) (nt_ref_cnt self) (nt_borrowed self), None)
  else
    let '(old, freed) := nv_table_unref self in
    Some (resize self (u32 new_size) 1 false, if freed then None else Some old).

Definition nv_table_clone (self : NVTable) (additional_space : Z) : NVTable :=
  let new_size :=
    if bool_decide (nv_table_get_bottom self - nv_table_get_ofs_table_top self < additional_space)
    then s32 (nt_size self)
    else s32 (nt_size self + NV_TABLE_BOUND additional_space) in
  let new_size := s32 (nv_table_get_size (u64 new_size)) in
  resize self (u32 new_size) 1 false.

(** ** Lookup *)

(** The open-coded binary search, shared by the two functions that contain it:
    [mv] is the handle of the probed pair as the local variable [mv] holds it
    (32 bits in [nv_table_get_entry_slow], 16 bits in
    [nv_table_reserve_table_entry]).  The result is [inl m] for a match at [m]
    and [inr l] where the loop ends without one.  Every iteration shrinks
    [h - l]; the fuel is the number of pairs. *)
Fixpoint dyn_bsearch (mv : Z -> Z) (dyn : list (Z * Z)) (handle : Z) (fuel : nat) (l h : Z) : nat + Z :=
  match fuel with
  | O => inr l
  | S fuel =>
      if bool_decide (l <= h) then
        let m := Z.shiftr (l + h) 1 in
        match dyn !! Z.to_nat m with
        | None => inr l   (* not reached: 0 <= m < num_dyn_entries *)
        | Some (hm, _) =>
            if bool_decide (mv hm = handle) then inl (Z.to_nat m)
            else if bool_decide (mv hm > handle) then dyn_bsearch mv dyn handle fuel l (m - 1)
            else dyn_bsearch mv dyn handle fuel (m + 1) h
        end
      else inr l
  end.

Definition bsearch (mv : Z -> Z) (dyn : list (Z * Z)) (handle : Z) : nat + Z :=
  dyn_bsearch mv dyn handle (length dyn) 0 (lenZ dyn - 1).

(** A pointer to an entry is its offset; NULL is [None]. *)
Definition nv_table_get_entry_at_ofs (ofs : Z) : option Z :=
  if bool_decide (ofs = 0) then None else Some ofs.

(** The entry and the dynamic slot (its index), both possibly NULL. *)
Definition nv_table_get_entry_slow (self : NVTable) (handle : Z) : option Z * option nat :=
  if bool_decide (nt_num_dyn self = 0) then (None, None)
  else
    match bsearch u32 (nt_dyn self) handle with
    | inl m =>
        let ofs := match nt_dyn self !! m with Some (_, ofs) => ofs | None => 0 end in
        (nv_table_get_entry_at_ofs ofs, Some m)
    | inr _ => (nv_table_get_entry_at_ofs 0, None)
    end.

(** Handles are unsigned: [!handle] is [handle <= 0] on the whole of [Z]. *)
Definition nv_table_get_entry (self : NVTable) (handle : Z) : option Z * option nat :=
  if bool_decide (handle <= 0) then (None, None)
  else if bool_decide (handle <= nt_num_static self) then
    let ofs := default 0 (nt_static self !! Z.to_nat (handle - 1)) in
    if bool_decide (ofs = 0) then (None, None) else (Some ofs, None)
  else nv_table_get_entry_slow self handle.

Definition nv_table_is_value_set (self : NVTable) (handle : Z) : bool :=
  match fst (nv_table_get_entry self handle) with Some _ => true | None => false end.

(** The entry behind a handle, as the code dereferences it. *)
Definition nv_lookup (self : NVTable) (handle : Z) : option NVEntry :=
  match fst (nv_table_get_entry self handle) with
  | Some ofs => nt_heap self !! ofs
  | None => None
  end.

(** A returned value: the bytes at the returned pointer and the length. *)
Definition null_value : bytes * Z := ([], 0).

(** The part of [nv_table_resolve_indirect] after the referenced value is known. *)
Definition resolve_slice (slice : NVReferencedSlice) (ref : bytes * Z) : bytes * Z :=
  let '(referenced_value, referenced_length) := ref in
  if bool_decide (rs_ofs slice > referenced_length) then null_value
  else
    let length := Z.min (u32 (rs_ofs slice + rs_len slice)) referenced_length - rs_ofs slice in
    (take (Z.to_nat length) (drop (Z.to_nat (rs_ofs slice)) referenced_value), length).

(** [nv_table_get_value] and [nv_table_resolve_indirect] call each other.  The
    fuel bounds the chain of references followed; [None] is a chain longer than
    that.  The code keeps references one deep, so two levels are enough. *)
Fixpoint nv_table_get_value_fuel (fuel : nat) (self : NVTable) (handle : Z) : option (bytes * Z) :=
  match fuel with
  | O => None
  | S fuel =>
      match nv_lookup self handle with
      | None => Some null_value
      | Some e =>
          match e_body e with
          | VDirect v => Some (v, lenZ v)
          | VIndirect slice =>
              match nv_table_get_value_fuel fuel self (rs_handle slice) with
              | Some ref => Some (resolve_slice slice ref)
              | None => None
              end
          end
      end
  end.

Definition nv_table_get_value (self : NVTable) (handle : Z) : option (bytes * Z) :=
  nv_table_get_value_fuel 2 self handle.

(** [nv_table_resolve_entry] on the entry [e]. *)
Definition nv_table_resolve_entry (self : NVTable) (e : NVEntry) : option (bytes * Z) :=
  match e_body e with
  | VDirect v => Some (v, lenZ v)
  | VIndirect slice =>
      match nv_table_get_value self (rs_handle slice) with
      | Some ref => Some (resolve_slice slice ref)
      | None => None
      end
  end.

(** ** Linking an entry *)

(** The result carries the slot ([dyn_slot] after the call). *)
Definition nv_table_reserve_table_entry (self : NVTable) (handle : Z) (dyn_slot : option nat)
  : option (option nat * NVTable) :=
  match dyn_slot with
  | Some _ => Some (dyn_slot, self)
  | None =>
      if bool_decide (handle > nt_num_static self) then
        if nv_table_alloc_check self SIZEOF_NVDYNVALUE then
          let '(ndx, found) :=
            match bsearch u16 (nt_dyn self) handle with
            | inl m => (m, true)
            | inr l => (Z.to_nat l, false)
            end in
          (* the pairs behind [ndx] move up by one; [num_dyn_entries] (16 bits)
             counts the new pair only where no match was found *)
          let moved := take ndx (nt_dyn self) ++ [(handle, 0)] ++ drop ndx (nt_dyn self) in
          let num := if found then nt_num_dyn self else u16 (nt_num_dyn self + 1) in
          Some (Some ndx, set_dyn self (take (Z.to_nat num) moved))
        else None
      else Some (None, self)
  end.

Definition nv_table_set_table_entry (self : NVTable) (handle ofs : Z) (dyn_slot : option nat) : NVTable :=
  if bool_decide (handle <= nt_num_static self) then
    set_static self (<[Z.to_nat (handle - 1) := ofs]> (nt_static self))
  else
    match dyn_slot with
    | Some ndx => set_dyn self (<[ndx := (handle, ofs)]> (nt_dyn self))
    | None => self
    end.

(** ** Iteration *)

(** [func] sees the table as the previous calls left it; iteration stops at the
    first call that returns [true].  No callback of the code adds a slot to the
    table it iterates over, so the indices are those at the start. *)
Fixpoint foreach_static (func : Z -> Z -> NVTable -> bool * NVTable) (idxs : list nat) (self : NVTable)
  : bool * NVTable :=
  match idxs with
  | [] => (false, self)
  | i :: idxs =>
      match nv_table_get_entry_at_ofs (default 0 (nt_static self !! i)) with
      | None => foreach_static func idxs self
      | Some ofs =>
          let '(stop, self') := func (Z.of_nat i + 1) ofs self in
          if stop then (true, self') else foreach_static func idxs self'
      end
  end.

Fixpoint foreach_dyn (func : Z -> Z -> NVTable -> bool * NVTable) (idxs : list nat) (self : NVTable)
  : bool * NVTable :=
  match idxs with
  | [] => (false, self)
  | i :: idxs =>
      match nt_dyn self !! i with
      | None => foreach_dyn func idxs self
      | Some (handle, o) =>
          match nv_table_get_entry_at_ofs o with
          | None => foreach_dyn func idxs self
          | Some ofs =>
              let '(stop, self') := func handle ofs self in
              if stop then (true, self') else foreach_dyn func idxs self'
          end
      end
  end.

Definition nv_table_foreach_entry (self : NVTable) (func : Z -> Z -> NVTable -> bool * NVTable)
  : bool * NVTable :=
  let '(stop, self') := foreach_static func (seq 0 (length (nt_static self))) self in
  if stop then (true, self')
  else foreach_dyn func (seq 0 (length (nt_dyn self'))) self'.

(** ** Storing a value *)

(** [new_entry] is [None] for a NULL argument, otherwise what was stored
    through it. *)
Definition store_new_entry (new_entry : option bool) (b : bool) : option bool :=
  match new_entry with None => None | Some _ => Some b end.

Definition is_null (new_entry : option bool) : bool :=
  match new_entry with None => true | Some _ => false end.

(** The end of [nv_table_add_value]: a slot, a new entry, and the link to it.
    [name] and [value] are the bytes at the argument pointers. *)
Definition nv_table_append_value (self : NVTable) (handle : Z) (name value : bytes)
    (new_entry : option bool) (dyn_slot : option nat) : bool * option bool * NVTable :=
  match nv_table_reserve_table_entry self handle dyn_slot with
  | None => (false, new_entry, self)
  | Some (dyn_slot, self) =>
      match nv_table_alloc_value self (NV_ENTRY_DIRECT_HDR + lenZ name + lenZ value + 2) with
      | None => (false, new_entry, self)
      | Some (ofs, alloc_len, self) =>
          let name' := if bool_decide (handle >= nt_num_static self) then name else [] in
          let self := set_entry self ofs (mkEntry false name' alloc_len (VDirect value)) in
          (true, new_entry, nv_table_set_table_entry self handle ofs dyn_slot)
      end
  end.

(** The tail of [nv_table_add_value], from the test whether the value fits in
    the space of the existing entry.  [entry] and [dyn_slot] were looked up
    before. *)
Definition nv_table_store_value (self : NVTable) (handle : Z) (name value : bytes)
    (new_entry : option bool) (entry : option Z) (dyn_slot : option nat)
  : bool * option bool * NVTable :=
  match entry with
  | Some ofs =>
      match nt_heap self !! ofs with
      | Some e =>
          if bool_decide (e_alloc_len e >= lenZ value + NV_ENTRY_DIRECT_HDR + lenZ name + 2) then
            let name' := if e_indirect e then name else e_name e in
            (true, new_entry,
             set_entry self ofs (mkEntry (e_referenced e) name' (e_alloc_len e) (VDirect value)))
          else nv_table_append_value self handle name value new_entry dyn_slot
      | None => (false, new_entry, self)   (* not reached: a link leads to an entry *)
      end
  | None =>
      nv_table_append_value self handle name value (store_new_entry new_entry true) dyn_slot
  end.

Definition truncate_value (value : bytes) : bytes :=
  take (Z.to_nat (nv_table_get_size (lenZ value))) value.

(** [nv_table_make_direct], the callback, for the value-storing function
    [add_value] it calls back into. *)
Definition nv_table_make_direct
    (add_value : NVTable -> Z -> bytes -> bytes -> option bool -> bool * option bool * NVTable)
    (ref_handle : Z) (handle ofs : Z) (self : NVTable) : bool * NVTable :=
  match nt_heap self !! ofs with
  | Some e =>
      match e_body e with
      | VIndirect slice =>
          if bool_decide (rs_handle slice = ref_handle) then
            match nv_table_resolve_entry self e with
            | Some (value, _) =>
                let '(ok, _, self') := add_value self handle (e_name e) value None in
                (negb ok, self')
            | None => (false, self)   (* a chain of references: excluded by the code *)
            end
          else (false, self)
      | VDirect _ => (false, self)
      end
  | None => (false, self)
  end.

(** [nv_table_add_value].  It recurses through [nv_table_make_direct], on
    entries that are indirect, where the recursive call does not recurse
    again: two levels of fuel are enough. *)
Fixpoint nv_table_add_value_fuel (fuel : nat) (self : NVTable) (handle : Z) (name value : bytes)
    (new_entry : option bool) : bool * option bool * NVTable :=
  match fuel with
  | O => (false, new_entry, self)
  | S fuel =>
      let value := truncate_value value in
      let new_entry := store_new_entry new_entry false in
      let '(entry, dyn_slot) := nv_table_get_entry self handle in
      if bool_decide (entry = None) && is_null new_entry && bool_decide (lenZ value = 0) then
        (true, new_entry, self)
      else
        let referenced :=
          match nv_lookup self handle with
          | Some e => negb (e_indirect e) && e_referenced e
          | None => false
          end in
        let '(stop, self) :=
          if referenced then
            nv_table_foreach_entry self (nv_table_make_direct (nv_table_add_value_fuel fuel) handle)
          else (false, self) in
        if stop then (false, new_entry, self)
        else nv_table_store_value self handle name value new_entry entry dyn_slot
  end.

Definition nv_table_add_value := nv_table_add_value_fuel 2.

(** ** Storing a reference *)

Definition nv_table_set_indirect_entry (self : NVTable) (handle ofs : Z) (e : NVEntry) (name : bytes)
    (slice : NVReferencedSlice) : NVTable :=
  let name' :=
    if e_indirect e then e_name e
    else if bool_decide (handle >= nt_num_static self) then name else [] in
  set_entry self ofs (mkEntry (e_referenced e) name' (e_alloc_len e) (VIndirect slice)).

Definition set_referenced (self : NVTable) (ofs : Z) : NVTable :=
  match nt_heap self !! ofs with
  | Some e => set_entry self ofs (mkEntry true (e_name e) (e_alloc_len e) (e_body e))
  | None => self
  end.

(** The slice as [nv_table_copy_referenced_value] clips it, in place, to the
    referenced value. *)
Definition clip_slice (slice : NVReferencedSlice) (ref_length : Z) : NVReferencedSlice :=
  if bool_decide (rs_ofs slice > ref_length) then
    mkSlice (rs_handle slice) 0 0 (rs_type slice)
  else
    mkSlice (rs_handle slice) (rs_ofs slice)
      (u32 (Z.min (u32 (rs_ofs slice + rs_len slice)) ref_length - rs_ofs slice)) (rs_type slice).

(** [ref_entry] is dereferenced without a NULL check.  The clipped slice is also
    written back to the caller, which only ever passes it to this function
    again; [clip_slice_idem] shows that clipping it twice changes nothing. *)
Definition nv_table_copy_referenced_value (self : NVTable) (ref_entry : option Z) (handle : Z)
    (name : bytes) (slice : NVReferencedSlice) (new_entry : option bool)
  : outcome (bool * option bool * NVTable) :=
  match ref_entry with
  | None => Abort
  | Some ofs =>
      match nt_heap self !! ofs with
      | None => Abort
      | Some e =>
          match nv_table_resolve_entry self e with
          | None => Abort   (* a chain of references: excluded by the code *)
          | Some (ref_value, ref_length) =>
              let slice := clip_slice slice ref_length in
              Ret (nv_table_add_value self handle name
                     (take (Z.to_nat (rs_len slice)) (drop (Z.to_nat (rs_ofs slice)) ref_value)) new_entry)
          end
      end
  end.

(** The end of [nv_table_add_value_indirect]. *)
Definition nv_table_append_reference (self : NVTable) (handle : Z) (name : bytes)
    (slice : NVReferencedSlice) (new_entry : option bool) (dyn_slot : option nat) (ref_ofs : Z)
  : bool * option bool * NVTable :=
  match nv_table_reserve_table_entry self handle dyn_slot with
  | None => (false, new_entry, self)
  | Some (dyn_slot, self) =>
      match nv_table_alloc_value self (NV_ENTRY_INDIRECT_HDR + lenZ name + 1) with
      | None => (false, new_entry, self)
      | Some (ofs, alloc_len, self) =>
          let fresh := mkEntry false [] alloc_len (VDirect []) in
          let self := nv_table_set_indirect_entry self handle ofs fresh name slice in
          let self := set_referenced self ref_ofs in
          (true, new_entry, nv_table_set_table_entry self handle ofs dyn_slot)
      end
  end.

(** From the test whether the reference fits in the space of the existing
    entry. *)
Definition nv_table_store_reference (self : NVTable) (handle : Z) (name : bytes)
    (slice : NVReferencedSlice) (new_entry : option bool) (entry : option Z) (dyn_slot : option nat)
    (ref_ofs : Z) : bool * option bool * NVTable :=
  match entry with
  | Some ofs =>
      match nt_heap self !! ofs with
      | Some e =>
          if bool_decide (e_alloc_len e >= NV_ENTRY_INDIRECT_HDR + lenZ name + 1) then
            (true, new_entry,
             set_referenced (nv_table_set_indirect_entry self handle ofs e name slice) ref_ofs)
          else nv_table_append_reference self handle name slice new_entry dyn_slot ref_ofs
      | None => (false, new_entry, self)   (* not reached: a link leads to an entry *)
      end
  | None =>
      nv_table_append_reference self handle name slice (store_new_entry new_entry true) dyn_slot ref_ofs
  end.

Definition nv_table_add_value_indirect (self : NVTable) (handle : Z) (name : bytes)
    (slice : NVReferencedSlice) (new_entry : option bool) : outcome (bool * option bool * NVTable) :=
  let new_entry := store_new_entry new_entry false in
  let '(ref_entry, _) := nv_table_get_entry self (rs_handle slice) in
  let ref_indirect :=
    match nv_lookup self (rs_handle slice) with Some e => e_indirect e | None => false end in
  if ref_indirect || bool_decide (handle = rs_handle slice) then
    nv_table_copy_referenced_value self ref_entry handle name slice new_entry
  else
    let '(entry, dyn_slot) := nv_table_get_entry self handle in
    match ref_entry with
    | None => Ret (true, new_entry, self)
    | Some ref_ofs =>
        if bool_decide (entry = None) && is_null new_entry && bool_decide (rs_len slice = 0) then
          Ret (true, new_entry, self)
        else
          let referenced :=
            match nv_lookup self handle with
            | Some e => negb (e_indirect e) && e_referenced e
            | None => false
            end in
          (* the code returns FALSE where the iteration was NOT stopped *)
          let '(proceed, self) :=
            if referenced then
              nv_table_foreach_entry self (nv_table_make_direct nv_table_add_value handle)
            else (true, self) in
          if negb proceed then Ret (false, new_entry, self)
          else Ret (nv_table_store_reference self handle name slice new_entry entry dyn_slot ref_ofs)
    end.
