(* ===== verification/NVTableInv.v ===== *)
(** * The layout invariant of [NVTable] and the lookup lemmas *)
From S2P Require Import Prelude NVTable.

(** ** Specification-level views *)

(** Position of a handle among the dynamic pairs. *)
Definition dyn_index (dyn : list (Z * Z)) (handle : Z) : option nat :=
  fst <$> list_find (fun p : Z * Z => p.1 = handle) dyn.

Definition dyn_sorted (dyn : list (Z * Z)) : Prop :=
  forall i j p q, dyn !! i = Some p -> dyn !! j = Some q -> (i < j)%nat -> p.1 < q.1.

(** The offset linked to a handle. *)
Definition link (t : NVTable) (h : Z) : option Z := fst (nv_table_get_entry t h).

Definition entry_fits (e : NVEntry) : Prop :=
  match e_body e with
  | VDirect v => NV_ENTRY_DIRECT_HDR + lenZ (e_name e) + lenZ v + 2 <= e_alloc_len e
  | VIndirect _ => NV_ENTRY_INDIRECT_HDR + lenZ (e_name e) + 1 <= e_alloc_len e
  end.

Definition slice_ok (s : NVReferencedSlice) : Prop :=
  0 <= rs_ofs s /\ 0 <= rs_len s /\ rs_ofs s + rs_len s < 2 ^ 32.

(** The part of the invariant about the two offset tables. *)
Record keys_wf (t : NVTable) : Prop := {
  kw_static : nt_num_static t < 2 ^ 8;
  kw_sorted : dyn_sorted (nt_dyn t);
  kw_handles : forall i p, nt_dyn t !! i = Some p -> nt_num_static t < p.1 < 2 ^ 16;
}.

(** [nm] is the name registered for a handle. *)
Record nv_wf (nm : Z -> bytes) (t : NVTable) : Prop := {
  wf_used : 0 <= nt_used t /\ (4 | nt_used t);
  wf_size : nt_size t <= NV_TABLE_MAX_BYTES;
  wf_room : nv_table_get_ofs_table_top t <= nv_table_get_bottom t;
  wf_keys : keys_wf t;
  wf_link : forall h o, link t h = Some o ->
    exists e, nt_heap t !! o = Some e /\ lenZ (e_name e) <= lenZ (nm h);
  wf_inj : forall h1 h2 o, link t h1 = Some o -> link t h2 = Some o -> h1 = h2;
  wf_entry : forall o e, nt_heap t !! o = Some e ->
    0 < e_alloc_len e <= o /\ o <= nt_used t /\ entry_fits e;
  wf_disjoint : forall o1 o2 e1 e2, nt_heap t !! o1 = Some e1 -> nt_heap t !! o2 = Some e2 ->
    o1 < o2 -> o1 <= o2 - e_alloc_len e2;
  wf_ref : forall h e s, nv_lookup t h = Some e -> e_body e = VIndirect s ->
    slice_ok s /\ exists e', nv_lookup t (rs_handle s) = Some e' /\
      e_indirect e' = false /\ e_referenced e' = true;
}.

Definition no_refs (t : NVTable) (h : Z) : Prop :=
  forall h' e s, nv_lookup t h' = Some e -> e_body e = VIndirect s -> rs_handle s <> h.

(** [t'] is [t] with the entry behind [h] replaced by [e]. *)
Definition updated (t t' : NVTable) (h : Z) (e : NVEntry) : Prop :=
  forall h', nv_lookup t' h' = if decide (h' = h) then Some e else nv_lookup t h'.

(** [t'] is [t] with a new entry [e] allocated at [o] and linked to [h]. *)
Record installed (t t' : NVTable) (h o : Z) (e : NVEntry) : Prop := {
  in_size : nt_size t' = nt_size t;
  in_used : nt_used t' = o;
  in_alloc : o = nt_used t + e_alloc_len e /\ 0 < e_alloc_len e /\ (4 | e_alloc_len e);
  in_heap : nt_heap t' = <[o := e]> (nt_heap t);
  in_link : forall h', link t' h' = if decide (h' = h) then Some o else link t h';
  in_keys : keys_wf t';
  in_room : nv_table_get_ofs_table_top t' <= nv_table_get_bottom t';
}.

(** ** Arithmetic of the layout *)

Lemma NV_TABLE_BOUND_eq x : NV_TABLE_BOUND x = 4 * ((x + 3) / 4).
Proof.
  unfold NV_TABLE_BOUND. change 3 with (Z.ones 2) at 2.
  rewrite <- Z.ldiff_land, Z.ldiff_ones_r, Z.shiftr_div_pow2, Z.shiftl_mul_pow2 by lia.
  change (2 ^ 2) with 4. lia.
Qed.

Lemma NV_TABLE_BOUND_ge x : x <= NV_TABLE_BOUND x < x + 4.
Proof. rewrite NV_TABLE_BOUND_eq. pose proof (Z.div_mod (x + 3) 4). pose proof (Z.mod_pos_bound (x + 3) 4). lia. Qed.

Lemma NV_TABLE_BOUND_div x : (4 | NV_TABLE_BOUND x).
Proof. rewrite NV_TABLE_BOUND_eq. apply Z.divide_factor_l. Qed.

(** ** The binary search *)

Lemma dyn_bsearch_spec mv dyn handle fuel l h :
  dyn_sorted dyn -> (forall i p, dyn !! i = Some p -> mv p.1 = p.1) ->
  0 <= l -> h < lenZ dyn -> l <= h + 1 -> (h - l + 1 <= Z.of_nat fuel) ->
  (forall i p, dyn !! i = Some p -> Z.of_nat i < l -> p.1 < handle) ->
  (forall i p, dyn !! i = Some p -> h < Z.of_nat i -> handle < p.1) ->
  match dyn_bsearch mv dyn handle fuel l h with
  | inl m => exists p, dyn !! m = Some p /\ p.1 = handle
  | inr r => 0 <= r <= lenZ dyn /\
      (forall i p, dyn !! i = Some p -> Z.of_nat i < r -> p.1 < handle) /\
      (forall i p, dyn !! i = Some p -> r <= Z.of_nat i -> handle < p.1)
  end.
Proof.
  intros Hs Hmv. revert l h. induction fuel as [|fuel IH]; intros l h Hl Hh Hlh Hf Hlo Hhi; simpl.
  { split; [lia|]. split; [done|]. intros; apply (Hhi i); [done|lia]. }
  case_bool; [|split; [lia|]; split; [done|]; intros; apply (Hhi i); [done|lia]].
  rewrite Z.shiftr_div_pow2 by lia. change (2 ^ 1) with 2.
  pose proof (Z.div_mod (l + h) 2). pose proof (Z.mod_pos_bound (l + h) 2).
  set (m := (l + h) / 2) in *.
  destruct (dyn !! Z.to_nat m) as [[hm o]|] eqn:E; cycle 1.
  { apply lookup_ge_None_1 in E. unfold lenZ in *. lia. }
  pose proof (Hmv _ _ E) as Hm; simpl in Hm. rewrite Hm.
  case_bool; [by eexists|]. case_bool.
  - apply IH; try lia; [done|]. intros i p Hi Him.
    destruct (decide (i = Z.to_nat m)) as [->|]; [simplify_eq; simpl; lia|].
    pose proof (Hs _ _ _ _ E Hi); simpl in *; lia.
  - apply IH; try lia; [|done]. intros i p Hi Him.
    destruct (decide (i = Z.to_nat m)) as [->|]; [simplify_eq; simpl in *; lia|].
    pose proof (Hs _ _ _ _ Hi E); simpl in *; lia.
Qed.

Lemma bsearch_spec mv dyn handle :
  dyn_sorted dyn -> (forall i p, dyn !! i = Some p -> mv p.1 = p.1) ->
  match bsearch mv dyn handle with
  | inl m => exists p, dyn !! m = Some p /\ p.1 = handle
  | inr r => 0 <= r <= lenZ dyn /\
      (forall i p, dyn !! i = Some p -> Z.of_nat i < r -> p.1 < handle) /\
      (forall i p, dyn !! i = Some p -> r <= Z.of_nat i -> handle < p.1)
  end.
Proof.
  intros Hs Hmv. pose proof (lenZ_nonneg dyn). apply dyn_bsearch_spec; try done; try (unfold lenZ; lia).
  intros i p Hi. apply lookup_lt_Some in Hi. unfold lenZ. lia.
Qed.

Lemma dyn_index_Some dyn h m :
  dyn_sorted dyn -> dyn_index dyn h = Some m <-> exists o, dyn !! m = Some (h, o).
Proof.
  intros Hs. unfold dyn_index. rewrite fmap_Some. split.
  - intros ([i [h' o]] & Hf & ->). apply list_find_Some in Hf as (? & ? & _). simpl in *; subst. eauto.
  - intros (o & Hm). exists (m, (h, o)). split; [|done]. apply list_find_Some. split_and!; [done|done|].
    intros j p Hj Hjm Heq. pose proof (Hs _ _ _ _ Hj Hm Hjm). simpl in *; lia.
Qed.

Lemma dyn_index_None dyn h :
  dyn_index dyn h = None <-> forall i p, dyn !! i = Some p -> p.1 <> h.
Proof.
  unfold dyn_index. rewrite fmap_None, list_find_None, Forall_forall. split.
  - intros H i p Hi. apply H. by eapply list_elem_of_lookup_2.
  - intros H p [i Hi]%list_elem_of_lookup. eauto.
Qed.

(** The binary search finds what a linear scan of the sorted pairs finds. *)
Lemma bsearch_dyn_index mv dyn h :
  dyn_sorted dyn -> (forall i p, dyn !! i = Some p -> mv p.1 = p.1) ->
  (forall m, bsearch mv dyn h = inl m <-> dyn_index dyn h = Some m) /\
  ((exists l, bsearch mv dyn h = inr l) <-> dyn_index dyn h = None).
Proof.
  intros Hs Hmv. pose proof (bsearch_spec mv dyn h Hs Hmv) as B.
  destruct (bsearch mv dyn h) as [m|r].
  - destruct B as ([h' o] & Hm & Heq). simpl in Heq; subst h'.
    assert (Hx : dyn_index dyn h = Some m) by (apply dyn_index_Some; eauto).
    rewrite Hx. split; [intros; split; congruence|]. split; [intros [? ?]; congruence|congruence].
  - destruct B as (Hr & Hlo & Hhi).
    assert (Hx : dyn_index dyn h = None).
    { apply dyn_index_None. intros i p Hi. destruct (decide (Z.of_nat i < r)).
      - pose proof (Hlo _ _ Hi); lia.
      - pose proof (Hhi _ _ Hi); lia. }
    rewrite Hx. split; [intros; split; congruence|]. split; [done|eauto].
Qed.

(** ** Links *)

Lemma dyn_sorted_elem_index dyn h o m :
  dyn_sorted dyn -> (h, o) ∈ dyn -> dyn_index dyn h = Some m -> dyn !! m = Some (h, o).
Proof.
  intros Hs [j Hj]%list_elem_of_lookup Hm.
  assert (dyn_index dyn h = Some j) by (apply dyn_index_Some; eauto). congruence.
Qed.

(** What the lookup needs of the pairs: handles of 32 bits in order. *)
Record keys32 (t : NVTable) : Prop := {
  k32_sorted : dyn_sorted (nt_dyn t);
  k32_handles : forall i p, nt_dyn t !! i = Some p -> nt_num_static t < p.1 < 2 ^ 32;
}.

Lemma keys_wf_keys32 t : keys_wf t -> keys32 t.
Proof. intros [H1 H2 H3]. split; [done|]. intros i p Hp. pose proof (H3 i p Hp). lia. Qed.

Lemma keys32_u32 t : keys32 t -> forall i p, nt_dyn t !! i = Some p -> u32 p.1 = p.1.
Proof.
  intros [_ H] i p Hp. pose proof (H _ _ Hp). pose proof (lenZ_nonneg (nt_static t)).
  unfold nt_num_static in *. apply u32_small; lia.
Qed.

Lemma keys_wf_u16 t : keys_wf t -> forall i p, nt_dyn t !! i = Some p -> u16 p.1 = p.1.
Proof.
  intros [] i p Hp. pose proof (kw_handles0 _ _ Hp). pose proof (lenZ_nonneg (nt_static t)).
  unfold nt_num_static in *. apply u16_small; lia.
Qed.

(** The dynamic branch of the lookup, with the binary search replaced by its
    specification. *)
Lemma get_entry_dyn t h :
  keys32 t -> nt_num_static t < h ->
  nv_table_get_entry t h =
    (match dyn_index (nt_dyn t) h with
     | Some m => nv_table_get_entry_at_ofs (default 0 (snd <$> nt_dyn t !! m))
     | None => None
     end, dyn_index (nt_dyn t) h).
Proof.
  intros Hk Hh. pose proof (lenZ_nonneg (nt_static t)). unfold nv_table_get_entry, nt_num_static in *.
  rewrite !bool_decide_false by lia. unfold nv_table_get_entry_slow, nt_num_dyn.
  destruct (bsearch_dyn_index u32 (nt_dyn t) h) as [H1 H2]; [apply Hk|by apply keys32_u32|].
  case_bool.
  { apply lenZ_zero_nil in Hb. rewrite Hb. reflexivity. }
  destruct (bsearch u32 (nt_dyn t) h) as [m|l].
  - rewrite (proj1 (H1 m) eq_refl). by destruct (nt_dyn t !! m) as [[? ?]|].
  - rewrite (proj1 H2) by eauto. done.
Qed.

Lemma link_iff32 t h o :
  keys32 t ->
  link t h = Some o <->
  o <> 0 /\ 0 < h /\
  ((h <= nt_num_static t /\ nt_static t !! Z.to_nat (h - 1) = Some o) \/
   (nt_num_static t < h /\ (h, o) ∈ nt_dyn t)).
Proof.
  intros Hk. pose proof (lenZ_nonneg (nt_static t)). unfold link.
  destruct (decide (nt_num_static t < h)) as [Hd|Hd].
  - rewrite get_entry_dyn by done. simpl. unfold nt_num_static in *. split.
    + destruct (dyn_index (nt_dyn t) h) as [m|] eqn:E; [|done].
      apply dyn_index_Some in E as [o' Hm]; [|apply Hk]. rewrite Hm. simpl.
      unfold nv_table_get_entry_at_ofs. case_bool; [done|]. intros [= ->].
      split_and!; [done|lia|right; split; [done|by eapply list_elem_of_lookup_2]].
    + intros (Ho & Hp & [[? _]|[_ Hin]]); [lia|].
      pose proof Hin as [m Hm]%list_elem_of_lookup.
      assert (dyn_index (nt_dyn t) h = Some m) as -> by (apply dyn_index_Some; [apply Hk|eauto]).
      rewrite Hm. simpl. unfold nv_table_get_entry_at_ofs. by rewrite bool_decide_false.
  - unfold nv_table_get_entry. unfold nt_num_static in *. case_bool; simpl.
    { split; [done|]. intros (_ & ? & _). lia. }
    rewrite bool_decide_true by lia. split.
    + case_bool; [done|]. simpl. destruct (nt_static t !! Z.to_nat (h - 1)) as [o'|]; [|done].
      simpl in *. intros [= ->]. split_and!; [done|lia|left; split; [lia|done]].
    + intros (Ho & Hp & [[_ Hs]|[? _]]); [|lia]. rewrite Hs. simpl. by rewrite bool_decide_false.
Qed.

Lemma link_iff t h o :
  keys_wf t ->
  link t h = Some o <->
  o <> 0 /\ 0 < h /\
  ((h <= nt_num_static t /\ nt_static t !! Z.to_nat (h - 1) = Some o) \/
   (nt_num_static t < h /\ (h, o) ∈ nt_dyn t)).
Proof. intros Hk. by apply link_iff32, keys_wf_keys32. Qed.

Lemma link_eq_ext t t' h :
  (forall o, link t' h = Some o <-> link t h = Some o) -> link t' h = link t h.
Proof.
  intros H. destruct (link t h) as [o|] eqn:E; [by apply H|].
  destruct (link t' h) as [o|]; [|done]. by destruct (H o) as [-> _].
Qed.

Lemma nv_lookup_link t h : nv_lookup t h = link t h ≫= (nt_heap t !!.).
Proof. unfold nv_lookup, link. by destruct (fst (nv_table_get_entry t h)). Qed.

Lemma link_pos t h o : keys_wf t -> link t h = Some o -> 0 < h.
Proof. intros Hk. rewrite link_iff by done. tauto. Qed.

Lemma wf_lookup_Some nm t h o :
  nv_wf nm t -> link t h = Some o -> exists e, nt_heap t !! o = Some e /\ nv_lookup t h = Some e.
Proof.
  intros Hwf Hl. destruct (wf_link _ _ Hwf _ _ Hl) as (e & He & _). exists e. split; [done|].
  by rewrite nv_lookup_link, Hl.
Qed.

(** *** In-place replacement *)

Lemma link_set_entry t o e h : link (set_entry t o e) h = link t h.
Proof. done. Qed.

Lemma get_entry_set_entry t o e h : nv_table_get_entry (set_entry t o e) h = nv_table_get_entry t h.
Proof. done. Qed.

Lemma updated_set_entry nm t h o e :
  nv_wf nm t -> link t h = Some o -> updated t (set_entry t o e) h e.
Proof.
  intros Hwf Hl h'. rewrite !nv_lookup_link, link_set_entry. simpl.
  destruct (decide (h' = h)) as [->|Hne].
  - rewrite Hl. simpl. by rewrite lookup_insert_eq.
  - destruct (link t h') as [o'|] eqn:E; simpl; [|done].
    rewrite lookup_insert_ne; [done|]. intros ->. by pose proof (wf_inj _ _ Hwf _ _ _ Hl E).
Qed.

(** *** A freshly allocated entry *)

Lemma heap_fresh nm t o : nv_wf nm t -> nt_used t < o -> nt_heap t !! o = None.
Proof.
  intros Hwf Ho. destruct (nt_heap t !! o) as [e|] eqn:E; [|done].
  pose proof (wf_entry _ _ Hwf _ _ E). lia.
Qed.

Lemma updated_installed nm t t' h o e :
  nv_wf nm t -> installed t t' h o e -> updated t t' h e.
Proof.
  intros Hwf [] h'. rewrite !nv_lookup_link, in_link0, in_heap0.
  destruct (decide (h' = h)); simpl; [by rewrite lookup_insert_eq|].
  destruct (link t h') as [o'|] eqn:E; simpl; [|done].
  destruct (wf_link _ _ Hwf _ _ E) as (e' & He' & _).
  pose proof (wf_entry _ _ Hwf _ _ He'). rewrite lookup_insert_ne; [done|lia].
Qed.
