(* ===== verification/NVTableOps.v ===== *)
(** * Every operation of [NVTable] preserves the layout invariant *)
From S2P Require Import Prelude NVTable NVTableInv.

Section nv.
Context (nm : Z -> bytes).

(** Bounds of every entry the context mentions. *)
Ltac heap_bounds Hwf :=
  repeat match goal with
  | H : nt_heap _ !! ?o = Some ?e |- _ =>
      lazymatch goal with
      | _ : 0 < e_alloc_len e <= o /\ _ |- _ => fail
      | _ => pose proof (wf_entry _ _ Hwf _ _ H)
      end
  end.

(** ** Values *)

Lemma get_value_direct t h e v :
  nv_lookup t h = Some e -> e_body e = VDirect v -> nv_table_get_value t h = Some (v, lenZ v).
Proof. intros He Hb. unfold nv_table_get_value; simpl. by rewrite He, Hb. Qed.

Lemma get_value_absent t h : nv_lookup t h = None -> nv_table_get_value t h = Some null_value.
Proof. intros He. unfold nv_table_get_value; simpl. by rewrite He. Qed.

Lemma get_value_indirect t h e s e' v :
  nv_lookup t h = Some e -> e_body e = VIndirect s ->
  nv_lookup t (rs_handle s) = Some e' -> e_body e' = VDirect v ->
  nv_table_get_value t h = Some (resolve_slice s (v, lenZ v)).
Proof.
  intros He Hb He' Hb'. unfold nv_table_get_value; simpl. by rewrite He, Hb, He', Hb'.
Qed.

Lemma resolve_entry_get_value t h e s e' v :
  nv_lookup t h = Some e -> e_body e = VIndirect s ->
  nv_lookup t (rs_handle s) = Some e' -> e_body e' = VDirect v ->
  nv_table_resolve_entry t e = nv_table_get_value t h.
Proof.
  intros He Hb He' Hb'. rewrite (get_value_indirect t h e s e' v) by done.
  unfold nv_table_resolve_entry. rewrite Hb. by rewrite (get_value_direct _ _ e' v).
Qed.

Lemma e_indirect_false e : e_indirect e = false -> exists v, e_body e = VDirect v.
Proof. unfold e_indirect. destruct (e_body e); [eauto|done]. Qed.

Lemma resolve_slice_len s v :
  slice_ok s ->
  exists v', resolve_slice s (v, lenZ v) = (v', lenZ v') /\ lenZ v' <= lenZ v.
Proof.
  intros (Ho & Hl & Hb). unfold resolve_slice. case_bool.
  - exists []. split; [done|]. apply lenZ_nonneg.
  - rewrite u32_small by lia. eexists; split; [f_equal|]; rewrite lenZ_take, lenZ_drop; lia.
Qed.

Lemma entry_size_bound t h e :
  nv_wf nm t -> nv_lookup t h = Some e -> e_alloc_len e <= nt_size t.
Proof.
  intros Hwf He. rewrite nv_lookup_link in He. destruct (link t h) as [o|] eqn:E; [|done].
  simpl in He. pose proof (wf_entry _ _ Hwf _ _ He) as (? & ? & _). pose proof (wf_room _ _ Hwf).
  unfold nv_table_get_ofs_table_top, nv_table_get_bottom, nv_table_get_top in *.
  pose proof (lenZ_nonneg (nt_static t)). pose proof (lenZ_nonneg (nt_dyn t)).
  unfold nt_num_static, nt_num_dyn, OFFSETOF_NVTABLE_DATA, SIZEOF_STATIC, SIZEOF_NVDYNVALUE in *. lia.
Qed.

Lemma lookup_fits t h e : nv_wf nm t -> nv_lookup t h = Some e -> entry_fits e.
Proof.
  intros Hwf He. rewrite nv_lookup_link in He. destruct (link t h) as [o|]; [|done].
  simpl in He. by apply (wf_entry _ _ Hwf _ _ He).
Qed.

(** Under the invariant every handle has a value, whose length is the length
    returned and which is shorter than the table. *)
Lemma get_value_total t h :
  nv_wf nm t -> exists v, nv_table_get_value t h = Some (v, lenZ v) /\ lenZ v <= NV_TABLE_MAX_BYTES.
Proof.
  intros Hwf. pose proof (wf_size _ _ Hwf).
  assert (Hd : forall h' e' v, nv_lookup t h' = Some e' -> e_body e' = VDirect v -> lenZ v <= NV_TABLE_MAX_BYTES).
  { intros h' e' v He' Hb'. pose proof (entry_size_bound _ _ _ Hwf He').
    pose proof (lookup_fits _ _ _ Hwf He') as Hf. unfold entry_fits in Hf. rewrite Hb' in Hf.
    pose proof (lenZ_nonneg (e_name e')). unfold NV_ENTRY_DIRECT_HDR in *. lia. }
  destruct (nv_lookup t h) as [e|] eqn:E; cycle 1.
  { exists []. split; [by apply get_value_absent|]. rewrite lenZ_nil. unfold NV_TABLE_MAX_BYTES; lia. }
  destruct (e_body e) as [v|s] eqn:Eb.
  - exists v. split; [by eapply get_value_direct|eauto].
  - destruct (wf_ref _ _ Hwf _ _ _ E Eb) as (Hs & e' & He' & Hi & _).
    apply e_indirect_false in Hi as [v Hv].
    destruct (resolve_slice_len s v Hs) as (v' & Hr & Hl).
    exists v'. rewrite (get_value_indirect t h e s e' v), Hr by done. split; [done|].
    pose proof (Hd _ _ _ He' Hv). lia.
Qed.

(** Replacing the entry of a handle that nothing refers to leaves every other
    value as it was. *)
Lemma updated_other_values t t' h e h' :
  nv_wf nm t -> updated t t' h e -> no_refs t h -> h' <> h ->
  nv_table_get_value t' h' = nv_table_get_value t h'.
Proof.
  intros Hwf Hu Hn Hne. pose proof (Hu h') as H1. rewrite decide_False in H1 by done.
  destruct (nv_lookup t h') as [e1|] eqn:E; [|by rewrite !get_value_absent].
  destruct (e_body e1) as [v|s] eqn:Eb.
  - by rewrite !(get_value_direct _ _ e1 v).
  - destruct (wf_ref _ _ Hwf _ _ _ E Eb) as (Hs & e' & He' & Hi & _).
    apply e_indirect_false in Hi as [v Hv].
    assert (Hr : nv_lookup t' (rs_handle s) = Some e').
    { rewrite Hu, decide_False; [done|]. exact (Hn _ _ _ E Eb). }
    by rewrite !(get_value_indirect _ _ e1 s e' v).
Qed.

(** ** Who can be referred to *)

Lemma no_refs_unreferenced t h :
  nv_wf nm t ->
  (forall e, nv_lookup t h = Some e -> negb (e_indirect e) && e_referenced e = false) ->
  no_refs t h.
Proof.
  intros Hwf Hh h' e s He Hb Heq. destruct (wf_ref _ _ Hwf _ _ _ He Hb) as (_ & e' & He' & Hi & Hr).
  rewrite Heq in He'. pose proof (Hh _ He') as Hx. by rewrite Hi, Hr in Hx.
Qed.

(** The reference part of the invariant after an entry is replaced. *)
Definition body_ok (t : NVTable) (h : Z) (b : NVBody) : Prop :=
  match b with
  | VDirect _ => True
  | VIndirect s => slice_ok s /\ rs_handle s <> h /\
      exists e', nv_lookup t (rs_handle s) = Some e' /\ e_indirect e' = false /\ e_referenced e' = true
  end.

Lemma updated_wf_ref t t' h e :
  nv_wf nm t -> updated t t' h e -> no_refs t h -> body_ok t h (e_body e) ->
  forall h' e1 s, nv_lookup t' h' = Some e1 -> e_body e1 = VIndirect s ->
    slice_ok s /\ exists e', nv_lookup t' (rs_handle s) = Some e' /\
      e_indirect e' = false /\ e_referenced e' = true.
Proof.
  intros Hwf Hu Hn Hok h' e1 s He1 Hb. rewrite Hu in He1. destruct (decide (h' = h)) as [->|Hne].
  - injection He1 as <-. rewrite Hb in Hok. destruct Hok as (Hs & Ht & e' & He' & ?).
    split; [done|]. exists e'. by rewrite Hu, decide_False.
  - destruct (wf_ref _ _ Hwf _ _ _ He1 Hb) as (Hs & e' & He' & ?). split; [done|].
    exists e'. rewrite Hu, decide_False; [done|]. exact (Hn _ _ _ He1 Hb).
Qed.

Lemma set_entry_wf t h o e e' :
  nv_wf nm t -> link t h = Some o -> nt_heap t !! o = Some e ->
  e_alloc_len e' = e_alloc_len e -> entry_fits e' -> lenZ (e_name e') <= lenZ (nm h) ->
  no_refs t h -> body_ok t h (e_body e') ->
  nv_wf nm (set_entry t o e').
Proof.
  intros Hwf Hl He Ha Hf Hnm Hn Hok.
  assert (Hu := updated_set_entry nm t h o e' Hwf Hl).
  pose proof Hwf as [Wused Wsize Wroom Wkeys Wlink Winj Wentry Wdisj Wref]. split; try done.
  - destruct Wkeys; by split.
  - intros h1 o1 H1. rewrite link_set_entry in H1. simpl. destruct (decide (o1 = o)) as [->|].
    + rewrite lookup_insert_eq. rewrite (Winj _ _ _ H1 Hl). eauto.
    + rewrite lookup_insert_ne by done. eauto.
  - intros o1 e1. simpl. destruct (decide (o1 = o)) as [->|].
    + rewrite lookup_insert_eq. intros [= <-]. rewrite Ha. destruct (Wentry _ _ He) as (? & ? & _). done.
    + rewrite lookup_insert_ne by done. apply Wentry.
  - intros o1 o2 e1 e2. simpl. rewrite !lookup_insert. repeat case_decide; intros; simplify_eq; try lia.
    + eapply Wdisj; eauto.
    + rewrite Ha. eapply Wdisj; eauto.
    + eapply Wdisj; eauto.
  - eapply updated_wf_ref; eauto.
Qed.

Lemma installed_wf t t' h o e :
  nv_wf nm t -> installed t t' h o e -> entry_fits e -> lenZ (e_name e) <= lenZ (nm h) ->
  no_refs t h -> body_ok t h (e_body e) -> nv_wf nm t'.
Proof.
  intros Hwf Hin Hf Hnm Hn Hok. assert (Hu := updated_installed nm t t' h o e Hwf Hin).
  destruct Hin as [Hs Hus (Ho & Hp & Hd) Hh Hl Hk Hr].
  assert (Hlt : forall o1 e1, nt_heap t !! o1 = Some e1 -> o1 < o).
  { intros o1 e1 H1. pose proof (wf_entry _ _ Hwf _ _ H1). lia. }
  split; try done.
  - rewrite Hus. destruct (wf_used _ _ Hwf). split; [lia|]. rewrite Ho. by apply Z.divide_add_r.
  - rewrite Hs. apply (wf_size _ _ Hwf).
  - intros h1 o1. rewrite Hl, Hh. case_decide as Hd1.
    + intros [= <-]. subst. rewrite lookup_insert_eq. eauto.
    + intros H1. destruct (wf_link _ _ Hwf _ _ H1) as (e1 & He1 & ?).
      pose proof (Hlt _ _ He1). rewrite lookup_insert_ne by lia. eauto.
  - intros h1 h2 o1. rewrite !Hl. repeat case_decide; intros; simplify_eq; try done.
    + destruct (wf_link _ _ Hwf _ _ H2) as (e1 & He1 & _). pose proof (Hlt _ _ He1). lia.
    + destruct (wf_link _ _ Hwf _ _ H1) as (e1 & He1 & _). pose proof (Hlt _ _ He1). lia.
    + eapply (wf_inj _ _ Hwf); eauto.
  - intros o1 e1. rewrite Hh, Hus. rewrite lookup_insert. case_decide.
    + intros [= <-]. subst. destruct (wf_used _ _ Hwf). split_and!; [lia|lia|lia|done].
    + intros H1. destruct (wf_entry _ _ Hwf _ _ H1) as (? & ? & ?). split_and!; [lia|lia|lia|done].
  - intros o1 o2 e1 e2. rewrite Hh, !lookup_insert. repeat case_decide; intros; simplify_eq; try lia.
    all: heap_bounds Hwf; try lia. eapply (wf_disjoint _ _ Hwf); eauto.
  - eapply updated_wf_ref; eauto.
Qed.

(** ** Allocation *)

Definition free_space (t : NVTable) : Z := nv_table_get_bottom t - nv_table_get_ofs_table_top t.

Lemma alloc_check_spec t n :
  nv_wf nm t -> nv_table_alloc_check t n = bool_decide (n <= free_space t).
Proof.
  intros Hwf. pose proof (wf_room _ _ Hwf). pose proof (wf_size _ _ Hwf). destruct (wf_used _ _ Hwf).
  unfold nv_table_alloc_check, free_space in *.
  assert (0 <= nv_table_get_ofs_table_top t).
  { unfold nv_table_get_ofs_table_top, nt_num_static, nt_num_dyn, OFFSETOF_NVTABLE_DATA, SIZEOF_STATIC, SIZEOF_NVDYNVALUE.
    pose proof (lenZ_nonneg (nt_static t)). pose proof (lenZ_nonneg (nt_dyn t)). lia. }
  rewrite u64_small; cycle 1.
  { unfold nv_table_get_bottom, nv_table_get_top, NV_TABLE_MAX_BYTES in *. lia. }
  case_bool; symmetry; [apply bool_decide_eq_false_2|apply bool_decide_eq_true_2]; lia.
Qed.

Lemma dyn_handle_lower t i p :
  keys_wf t -> nt_dyn t !! i = Some p -> nt_num_static t + Z.of_nat i < p.1.
Proof.
  intros Hk. revert p. induction i as [|i IH]; intros p Hp.
  - pose proof (kw_handles _ Hk _ _ Hp). lia.
  - destruct (nt_dyn t !! i) as [q|] eqn:Eq.
    + specialize (IH _ eq_refl). pose proof (kw_sorted _ Hk _ _ _ _ Eq Hp). lia.
    + apply lookup_ge_None in Eq. apply lookup_lt_Some in Hp. lia.
Qed.

Lemma dyn_length_bound t : keys_wf t -> nt_num_dyn t < 2 ^ 16.
Proof.
  intros Hk. unfold nt_num_dyn, lenZ. destruct (nt_dyn t) as [|q l] eqn:E; [simpl; lia|].
  destruct (nt_dyn t !! length l) as [p|] eqn:Ep.
  - pose proof (dyn_handle_lower _ _ _ Hk Ep). pose proof (kw_handles _ Hk _ _ Ep).
    pose proof (lenZ_nonneg (nt_static t)). unfold nt_num_static in *. simpl. lia.
  - apply lookup_ge_None in Ep. rewrite E in Ep. simpl in Ep. lia.
Qed.

(** Inserting a slot where the binary search ended. *)
Definition dyn_insert (r : nat) (p : Z * Z) (dyn : list (Z * Z)) : list (Z * Z) :=
  take r dyn ++ [p] ++ drop r dyn.

Lemma dyn_insert_lookup r p dyn i :
  (r <= length dyn)%nat ->
  dyn_insert r p dyn !! i =
    if decide (i < r)%nat then dyn !! i else if decide (i = r) then Some p else dyn !! (i - 1)%nat.
Proof.
  intros Hr. unfold dyn_insert. destruct (decide (i < r)%nat).
  - rewrite lookup_app_l by (rewrite length_take; lia). by rewrite lookup_take_lt by lia.
  - rewrite lookup_app_r by (rewrite length_take; lia). rewrite length_take, Nat.min_l by lia.
    destruct (decide (i = r)) as [->|]; [by rewrite Nat.sub_diag|].
    rewrite lookup_app_r by (simpl; lia). simpl. rewrite lookup_drop. f_equal. lia.
Qed.

Lemma dyn_insert_sorted r p dyn :
  dyn_sorted dyn -> (r <= length dyn)%nat ->
  (forall i q, dyn !! i = Some q -> (i < r)%nat -> q.1 < p.1) ->
  (forall i q, dyn !! i = Some q -> (r <= i)%nat -> p.1 < q.1) ->
  dyn_sorted (dyn_insert r p dyn).
Proof.
  intros Hs Hr Hlo Hhi i j a b. rewrite !dyn_insert_lookup by done.
  repeat case_decide; intros Ha Hb Hij; simplify_eq; try lia.
  - eapply Hs; eauto.
  - eauto.
  - destruct (decide (i < j - 1)%nat); [eapply Hs; eauto|].
    replace (j - 1)%nat with i in Hb by lia. lia.
  - apply (Hhi _ _ Hb). lia.
  - eapply Hs; [exact Ha|exact Hb|lia].
Qed.

Lemma dyn_insert_elem r p dyn q : q ∈ dyn_insert r p dyn <-> q = p \/ q ∈ dyn.
Proof.
  unfold dyn_insert. rewrite <- (take_drop r dyn) at 3. rewrite !elem_of_app, list_elem_of_singleton. tauto.
Qed.

Lemma reserve_spec t h en slot :
  nv_wf nm t -> 0 < h < 2 ^ 16 -> nv_table_get_entry t h = (en, slot) ->
  match nv_table_reserve_table_entry t h slot with
  | None => nt_num_static t < h /\ slot = None /\ free_space t < SIZEOF_NVDYNVALUE
  | Some (slot', t') =>
      nt_size t' = nt_size t /\ nt_used t' = nt_used t /\ nt_heap t' = nt_heap t /\
      nt_static t' = nt_static t /\ keys_wf t' /\ (forall h', link t' h' = link t h') /\
      nv_table_get_ofs_table_top t' <= nv_table_get_bottom t' /\
      (nt_num_static t < h -> exists m o, slot' = Some m /\ nt_dyn t' !! m = Some (h, o))
  end.
Proof.
  intros Hwf Hh Hg. pose proof (wf_keys _ _ Hwf) as Hk. pose proof (wf_room _ _ Hwf) as Hroom.
  unfold nv_table_reserve_table_entry. destruct slot as [m|].
  { split_and!; try done. intros Hs. rewrite get_entry_dyn in Hg by (done || by apply keys_wf_keys32). injection Hg as _ Hm.
    apply dyn_index_Some in Hm as [o Ho]; [|apply Hk]. eauto. }
  case_bool; cycle 1.
  { split_and!; try done. lia. }
  rewrite get_entry_dyn in Hg by (done || lia || by apply keys_wf_keys32). injection Hg as _ Hm.
  rewrite alloc_check_spec by done. case_bool; cycle 1.
  { split_and!; [lia|done|lia]. }
  destruct (bsearch_dyn_index u16 (nt_dyn t) h) as [H1 H2]; [apply Hk|by apply keys_wf_u16|].
  pose proof (bsearch_spec u16 (nt_dyn t) h (kw_sorted _ Hk) (keys_wf_u16 _ Hk)) as Hb2.
  destruct (bsearch u16 (nt_dyn t) h) as [m|r].
  { rewrite (proj1 (H1 m) eq_refl) in Hm. done. }
  destruct Hb2 as (Hr & Hlo & Hhi). change (take (Z.to_nat r) (nt_dyn t) ++ [(h, 0)] ++ drop (Z.to_nat r) (nt_dyn t))
    with (dyn_insert (Z.to_nat r) (h, 0) (nt_dyn t)).
  assert (Hrl : (Z.to_nat r <= length (nt_dyn t))%nat) by (unfold lenZ in *; lia).
  assert (Hk' : keys_wf (set_dyn t (dyn_insert (Z.to_nat r) (h, 0) (nt_dyn t)))).
  { split; [apply Hk| |].
    - apply dyn_insert_sorted; [apply Hk|done|..]; simpl; intros i q Hq Hi.
      + apply (Hlo _ _ Hq). lia.
      + apply (Hhi _ _ Hq). lia.
    - intros i p Hp. apply list_elem_of_lookup_2 in Hp. simpl in Hp.
      apply dyn_insert_elem in Hp as [->|Hp]; [simpl; unfold nt_num_static in *; simpl; lia|].
      apply list_elem_of_lookup in Hp as [j Hj]. apply (kw_handles _ Hk _ _ Hj). }
  assert (Hlen : lenZ (dyn_insert (Z.to_nat r) (h, 0) (nt_dyn t)) = nt_num_dyn t + 1).
  { unfold nt_num_dyn, dyn_insert. rewrite !lenZ_app, lenZ_take, lenZ_drop, lenZ_cons, lenZ_nil. lia. }
  pose proof (dyn_length_bound _ Hk') as Hlb. unfold nt_num_dyn in Hlb. simpl in Hlb.
  pose proof (lenZ_nonneg (nt_dyn t)). rewrite Hlen in Hlb.
  rewrite u16_small by (unfold nt_num_dyn in *; lia).
  rewrite take_ge; cycle 1. { unfold lenZ in Hlen. lia. }
  split_and!; try done.
  - intros h'. apply link_eq_ext. intros o. rewrite !link_iff by done. simpl.
    unfold nt_num_static in *; simpl. rewrite dyn_insert_elem.
    split; intros (Ho & Hp & [?|[? Hin]]); (split_and!; [done..|]);
      [by left|right|by left|right]; (split; [done|]); [by destruct Hin as [[= _ ?]|]|by right].
  - unfold free_space, nv_table_get_ofs_table_top, nv_table_get_bottom, nv_table_get_top, SIZEOF_NVDYNVALUE in *.
    unfold nt_num_static, nt_num_dyn in *. simpl. rewrite Hlen. lia.
  - intros _. exists (Z.to_nat r), 0. split; [done|]. simpl. rewrite dyn_insert_lookup by done.
    by rewrite decide_False, decide_True by lia.
Qed.

Lemma set_table_entry_link t h o slot :
  keys_wf t -> 0 < h < 2 ^ 16 -> o <> 0 ->
  (nt_num_static t < h -> exists m o, slot = Some m /\ nt_dyn t !! m = Some (h, o)) ->
  let t' := nv_table_set_table_entry t h o slot in
  keys_wf t' /\ (forall h', link t' h' = if decide (h' = h) then Some o else link t h') /\
  nv_table_get_ofs_table_top t' = nv_table_get_ofs_table_top t /\
  nt_size t' = nt_size t /\ nt_used t' = nt_used t /\ nt_heap t' = nt_heap t.
Proof.
  intros Hk Hh Ho Hslot. unfold nv_table_set_table_entry. case_bool.
  - set (st := <[Z.to_nat (h - 1) := o]> (nt_static t)). simpl.
    assert (Hlst : lenZ st = nt_num_static t) by (unfold lenZ, st; by rewrite length_insert).
    assert (Hk' : keys_wf (set_static t st)).
    { destruct Hk. split; unfold nt_num_static; simpl; rewrite ?Hlst; done. }
    split_and!; try done; cycle 1.
    { unfold nv_table_get_ofs_table_top, nt_num_static, nt_num_dyn. simpl. rewrite Hlst. done. }
    intros h'. case_decide as Hd.
    + subst h'. apply link_iff; [done|]. unfold nt_num_static; simpl. rewrite Hlst.
      split_and!; [done|lia|left]. split; [lia|]. apply list_lookup_insert_eq.
      unfold nt_num_static, lenZ in *. lia.
    + apply link_eq_ext. intros o'. rewrite !link_iff by done. unfold nt_num_static; simpl. rewrite Hlst.
      unfold st. destruct (decide (0 < h')); [|split; intros (? & ? & _); lia].
      rewrite list_lookup_insert_ne by lia. done.
  - destruct (Hslot ltac:(lia)) as (m & o0 & -> & Hm). simpl.
    set (dyn := <[m := (h, o)]> (nt_dyn t)).
    pose proof (lookup_lt_Some _ _ _ Hm) as Hml.
    assert (Hlook : forall i p, dyn !! i = Some p -> exists o', nt_dyn t !! i = Some (p.1, o')).
    { intros i p. unfold dyn. destruct (decide (i = m)) as [->|].
      - rewrite list_lookup_insert_eq by done. intros [= <-]. eauto.
      - rewrite list_lookup_insert_ne by done. destruct p; eauto. }
    assert (Hk' : keys_wf (set_dyn t dyn)).
    { destruct Hk as [K1 K2 K3]. split; simpl; [done| |].
      - intros i j p q Hi Hj Hij. apply Hlook in Hi as [? Hi], Hj as [? Hj]. by apply (K2 _ _ _ _ Hi Hj).
      - intros i p Hi. apply Hlook in Hi as [? Hi]. by apply (K3 _ _ Hi). }
    split_and!; try done; cycle 1.
    { unfold nv_table_get_ofs_table_top, nt_num_static, nt_num_dyn, dyn, lenZ. simpl. by rewrite length_insert. }
    intros h'. case_decide as Hd.
    + subst h'. apply link_iff; [done|]. unfold nt_num_static in *; simpl.
      split_and!; [done|lia|right]. split; [lia|]. apply (list_elem_of_lookup_2 _ m).
      unfold dyn. by rewrite list_lookup_insert_eq.
    + apply link_eq_ext. intros o'. rewrite !link_iff by done. unfold nt_num_static; simpl.
      assert (He : (h', o') ∈ dyn <-> (h', o') ∈ nt_dyn t); [|by rewrite He].
      rewrite !list_elem_of_lookup. unfold dyn. split; intros [i Hi]; exists i.
      * destruct (decide (i = m)) as [->|]; [rewrite list_lookup_insert_eq in Hi by done; congruence|].
        by rewrite list_lookup_insert_ne in Hi.
      * destruct (decide (i = m)) as [->|]; [congruence|]. by rewrite list_lookup_insert_ne.
Qed.

(** Moving the block, or its offset tables, without touching links and entries. *)
Lemma same_links_wf t t' :
  nv_wf nm t -> nt_used t' = nt_used t -> nt_heap t' = nt_heap t -> nt_size t' <= NV_TABLE_MAX_BYTES ->
  keys_wf t' -> (forall h, link t' h = link t h) ->
  nv_table_get_ofs_table_top t' <= nv_table_get_bottom t' -> nv_wf nm t'.
Proof.
  intros [Wused Wsize Wroom Wkeys Wlink Winj Wentry Wdisj Wref] Hu Hh Hs Hk Hl Hr.
  assert (Hlook : forall h, nv_lookup t' h = nv_lookup t h).
  { intros h. by rewrite !nv_lookup_link, Hl, Hh. }
  split; try done.
  - by rewrite Hu.
  - intros h o. rewrite Hl, Hh. apply Wlink.
  - intros h1 h2 o. rewrite !Hl. apply Winj.
  - intros o e. rewrite Hh, Hu. apply Wentry.
  - intros o1 o2 e1 e2. rewrite Hh. apply Wdisj.
  - intros h e s. rewrite !Hlook. apply Wref.
Qed.

Lemma same_lookup_value t t' h :
  (forall h, nv_lookup t' h = nv_lookup t h) -> nv_table_get_value t' h = nv_table_get_value t h.
Proof.
  intros H. unfold nv_table_get_value; simpl. rewrite H. destruct (nv_lookup t h) as [e|]; [|done].
  destruct (e_body e); [done|]. by rewrite H.
Qed.

Lemma install_spec t h en slot slot' t1 n ofs al t2 e :
  nv_wf nm t -> 0 < h < 2 ^ 16 -> nv_table_get_entry t h = (en, slot) -> 0 < n ->
  nv_table_reserve_table_entry t h slot = Some (slot', t1) ->
  nv_table_alloc_value t1 n = Some (ofs, al, t2) -> e_alloc_len e = al ->
  installed t (nv_table_set_table_entry (set_entry t2 ofs e) h ofs slot') h ofs e /\
  n <= al /\ nt_heap t2 = nt_heap t /\ nt_num_static t2 = nt_num_static t.
Proof.
  intros Hwf Hh Hg Hn Hr Ha Hal. pose proof (reserve_spec t h en slot Hwf Hh Hg) as R. rewrite Hr in R.
  destruct R as (Rs & Ru & Rh & Rst & Rk & Rl & Rr & Rslot).
  assert (Hwf1 : nv_wf nm t1).
  { apply (same_links_wf t); try done. rewrite Rs. apply (wf_size _ _ Hwf). }
  unfold nv_table_alloc_value in Ha. rewrite alloc_check_spec in Ha by done.
  pose proof (NV_TABLE_BOUND_ge n) as Hbd. pose proof (NV_TABLE_BOUND_div n) as Hdv.
  case_bool; [|done]. injection Ha as Hofs Hal' Ht2. rewrite Hofs in Ht2.
  pose proof (wf_size _ _ Hwf1) as Wsize. pose proof (wf_used _ _ Hwf1) as [Wused _].
  assert (Htop : 0 <= nv_table_get_ofs_table_top t1).
  { unfold nv_table_get_ofs_table_top, nt_num_static, nt_num_dyn, OFFSETOF_NVTABLE_DATA, SIZEOF_STATIC, SIZEOF_NVDYNVALUE.
    pose proof (lenZ_nonneg (nt_static t1)). pose proof (lenZ_nonneg (nt_dyn t1)). lia. }
  unfold free_space, nv_table_get_bottom, nv_table_get_top, NV_TABLE_MAX_BYTES in *.
  rewrite u32_small in Hofs by lia. rewrite u32_small in Hal' by lia.
  assert (Hk2 : keys_wf (set_entry t2 ofs e)) by (subst t2; destruct Rk; by split).
  assert (Hns : nt_num_static (set_entry t2 ofs e) = nt_num_static t).
  { subst t2. unfold nt_num_static; simpl. by rewrite Rst. }
  destruct (set_table_entry_link (set_entry t2 ofs e) h ofs slot') as (K & L & T & S & U & H); [done|done|lia| |].
  { intros Hlt. subst t2. simpl. apply Rslot. rewrite Hns in Hlt. done. }
  split_and!; [|lia|by subst t2|subst t2; unfold nt_num_static; simpl; by rewrite Rst].
  split; [by rewrite S; subst t2|rewrite U; subst t2; simpl; lia| |rewrite H; subst t2; simpl; by rewrite Rh| |done|].
  - rewrite Hal, <- Ru. split_and!; [lia|lia|by rewrite <- Hal'].
  - intros h'. rewrite L. case_decide; [done|]. subst t2. apply Rl.
  - rewrite T. unfold nv_table_get_bottom, nv_table_get_top. rewrite S, U. subst t2.
    unfold nv_table_get_ofs_table_top, nt_num_static, nt_num_dyn in *. simpl. lia.
Qed.

(** ** [nv_table_store_value] *)

(** The handles that have a slot. *)
Definition same_shape (t t' : NVTable) : Prop :=
  length (nt_static t') = length (nt_static t) /\ (nt_dyn t').*1 = (nt_dyn t).*1.

Lemma same_shape_refl t : same_shape t t.
Proof. done. Qed.

Lemma insert_same_key (dyn : list (Z * Z)) m h o o' :
  dyn !! m = Some (h, o) -> (<[m := (h, o')]> dyn).*1 = dyn.*1.
Proof.
  intros Hm. rewrite list_fmap_insert. simpl. apply list_insert_id. by rewrite list_lookup_fmap, Hm.
Qed.

Lemma reserve_existing t h en slot slot' t1 :
  nv_wf nm t -> 0 < h -> nv_table_get_entry t h = (en, slot) -> en <> None ->
  nv_table_reserve_table_entry t h slot = Some (slot', t1) -> t1 = t /\ slot' = slot /\
  (nt_num_static t < h -> exists m o, slot = Some m /\ nt_dyn t !! m = Some (h, o)).
Proof.
  intros Hwf Hh Hg Hen. unfold nv_table_reserve_table_entry.
  destruct (decide (nt_num_static t < h)) as [Hd|Hd].
  - rewrite get_entry_dyn in Hg by (done || apply keys_wf_keys32, Hwf). injection Hg as Hg1 Hg2.
    rewrite Hg2 in Hg1. destruct slot as [m|]; [|done]. intros [= <- <-]. split_and!; [done..|].
    intros _. apply dyn_index_Some in Hg2 as [o Ho]; [eauto|apply Hwf].
  - destruct slot; [intros [= <- <-]; split_and!; [done..|lia]|].
    case_bool; [lia|]. intros [= <- <-]. split_and!; [done..|lia].
Qed.

Lemma set_table_entry_shape t h o slot :
  (nt_num_static t < h -> exists m o, slot = Some m /\ nt_dyn t !! m = Some (h, o)) ->
  same_shape t (nv_table_set_table_entry t h o slot).
Proof.
  intros Hs. unfold nv_table_set_table_entry. case_bool.
  - split; [apply length_insert|done].
  - destruct Hs as (m & o' & -> & Hm); [lia|]. split; [done|]. simpl. by eapply insert_same_key.
Qed.

(** What storing a value promises: the invariant, every other value unchanged,
    and either the new value or the old one behind the handle. *)
Record stored (t t' : NVTable) (h : Z) (ok : bool) (v : bytes) : Prop := {
  st_wf : nv_wf nm t';
  st_other : forall h', h' <> h -> nv_table_get_value t' h' = nv_table_get_value t h';
  st_value : nv_table_get_value t' h = if ok then Some (v, lenZ v) else nv_table_get_value t h;
  st_lookup : if ok then exists e, updated t t' h e /\ e_body e = VDirect v
              else forall h', nv_lookup t' h' = nv_lookup t h';
  st_link : forall h', h' <> h -> link t' h' = link t h';
  st_shape : link t h <> None -> same_shape t t';
}.

Lemma updated_direct_stored t t' h e v :
  nv_wf nm t -> nv_wf nm t' -> updated t t' h e -> e_body e = VDirect v -> no_refs t h ->
  (forall h', h' <> h -> link t' h' = link t h') -> (link t h <> None -> same_shape t t') ->
  stored t t' h true v.
Proof.
  intros Hwf Hwf' Hu Hb Hn Hl Hsh. split; [done| | |eauto|done|done].
  - intros h' Hne. by eapply updated_other_values.
  - eapply get_value_direct; [|done]. rewrite Hu. by rewrite decide_True.
Qed.

Lemma same_links_stored t t' h v :
  nv_wf nm t' -> nt_heap t' = nt_heap t -> (forall h', link t' h' = link t h') ->
  (link t h <> None -> same_shape t t') -> stored t t' h false v.
Proof.
  intros Hwf Hh Hl Hsh.
  assert (Hlk : forall h', nv_lookup t' h' = nv_lookup t h').
  { intros h'. by rewrite !nv_lookup_link, Hl, Hh. }
  split; try done; [intros; by apply same_lookup_value|by apply same_lookup_value].
Qed.

Lemma append_value_spec t h name value ne en slot :
  nv_wf nm t -> 0 < h < 2 ^ 16 -> nv_table_get_entry t h = (en, slot) ->
  lenZ name <= lenZ (nm h) -> no_refs t h ->
  let '(ok, _, t') := nv_table_append_value t h name value ne slot in stored t t' h ok value.
Proof.
  intros Hwf Hh Hg Hnm Hn. pose proof (lenZ_nonneg name). pose proof (lenZ_nonneg value).
  assert (Hen : link t h = en) by (unfold link; by rewrite Hg). unfold nv_table_append_value.
  destruct (nv_table_reserve_table_entry t h slot) as [[slot' t1]|] eqn:Er; cycle 1.
  { by apply same_links_stored. }
  assert (Hex : link t h <> None -> t1 = t /\ slot' = slot /\
    (nt_num_static t < h -> exists m o, slot = Some m /\ nt_dyn t !! m = Some (h, o))).
  { rewrite Hen. intros Hne. eapply reserve_existing; eauto. lia. }
  pose proof (reserve_spec t h en slot Hwf Hh Hg) as R. rewrite Er in R.
  destruct R as (Rs & Ru & Rh & Rst & Rk & Rl & Rr & _).
  destruct (nv_table_alloc_value t1 _) as [[[ofs al] t2]|] eqn:Ea.
  - set (nm' := if bool_decide _ then name else []). set (e := mkEntry false nm' al (VDirect value)).
    destruct (fun Hp => install_spec t h en slot slot' t1 _ ofs al t2 e Hwf Hh Hg Hp Er Ea eq_refl)
      as (Hin & Hnal & _); [unfold NV_ENTRY_DIRECT_HDR; lia|].
    assert (Hl : lenZ nm' <= lenZ name) by (unfold nm'; case_bool; rewrite ?lenZ_nil; lia).
    eapply updated_direct_stored; [done| |by eapply updated_installed|done|done| |].
    + eapply installed_wf; [done|done| |simpl; lia|done|done]. unfold entry_fits; simpl. lia.
    + intros h' Hne. rewrite (in_link _ _ _ _ _ Hin). by rewrite decide_False.
    + intros Hne. destruct (Hex Hne) as (-> & -> & Hs).
      unfold nv_table_alloc_value in Ea. case_if_in Ea; [|done]. injection Ea as _ _ <-.
      exact (set_table_entry_shape (set_entry (set_used t _) ofs e) h ofs slot Hs).
  - apply same_links_stored; [|done|done|intros Hne; by destruct (Hex Hne) as (-> & _)].
    apply (same_links_wf t); try done. rewrite Rs. apply (wf_size _ _ Hwf).
Qed.

Lemma store_value_spec t h name value ne en slot :
  nv_wf nm t -> 0 < h < 2 ^ 16 -> nv_table_get_entry t h = (en, slot) ->
  lenZ name <= lenZ (nm h) -> (forall e, nv_lookup t h = Some e -> lenZ (e_name e) <= lenZ name) ->
  no_refs t h ->
  let '(ok, _, t') := nv_table_store_value t h name value ne en slot in stored t t' h ok value.
Proof.
  intros Hwf Hh Hg Hnm Hnm' Hn. assert (Hen : link t h = en) by (unfold link; by rewrite Hg).
  unfold nv_table_store_value. destruct en as [ofs|]; [|by eapply append_value_spec].
  destruct (wf_lookup_Some _ _ _ _ Hwf Hen) as (e & He & Hlk). rewrite He.
  case_bool; [|by eapply append_value_spec].
  set (e' := mkEntry _ _ _ _).
  eapply updated_direct_stored; [done| |by apply (updated_set_entry nm)|done|done|done|done].
  eapply set_entry_wf; [done|done|done|done| | |done|done].
  - unfold entry_fits; simpl. destruct (e_indirect e); [lia|]. pose proof (Hnm' _ Hlk). lia.
  - simpl. destruct (e_indirect e); [done|]. pose proof (Hnm' _ Hlk). lia.
Qed.

End nv.
