(* ===== verification/NVTableStore.v ===== *)
(** * [nv_table_foreach_entry], [nv_table_make_direct] and [nv_table_add_value] *)
From S2P Require Import Prelude NVTable NVTableInv NVTableOps.

(** ** Iteration *)

Lemma link_static t i :
  (i < length (nt_static t))%nat ->
  link t (Z.of_nat i + 1) = nv_table_get_entry_at_ofs (default 0 (nt_static t !! i)).
Proof.
  intros Hi. unfold link, nv_table_get_entry, nt_num_static, lenZ.
  rewrite bool_decide_false, bool_decide_true by lia. replace (Z.to_nat (Z.of_nat i + 1 - 1)) with i by lia.
  unfold nv_table_get_entry_at_ofs. by case_bool.
Qed.

Lemma link_dyn t i h o :
  keys_wf t -> nt_dyn t !! i = Some (h, o) -> link t h = nv_table_get_entry_at_ofs o.
Proof.
  intros Hk Hi. pose proof (kw_handles _ Hk _ _ Hi). unfold link. rewrite get_entry_dyn by (done || (by apply keys_wf_keys32) || simpl in *; lia).
  assert (dyn_index (nt_dyn t) h = Some i) as -> by (apply dyn_index_Some; [apply Hk|eauto]).
  simpl. by rewrite Hi.
Qed.

Section foreach.
Context (func : Z -> Z -> NVTable -> bool * NVTable).
Context (t0 : NVTable) (I : NVTable -> Prop) (R : Z -> NVTable -> Prop).
Hypothesis I_keys : forall t, I t -> keys_wf t.
Hypothesis I_shape : forall t, I t -> same_shape t0 t.
Hypothesis R_absent : forall t h, I t -> link t h = None -> R h t.
Hypothesis step : forall t h ofs, I t -> link t h = Some ofs ->
  let '(stop, t') := func h ofs t in
  I t' /\ (stop = false -> R h t' /\ forall h', R h' t -> R h' t').

Lemma foreach_static_spec idxs t :
  I t -> Forall (fun i => (i < length (nt_static t0))%nat) idxs ->
  let '(stop, t') := foreach_static func idxs t in
  I t' /\ (stop = false -> forall h, R h t \/ (exists i, i ∈ idxs /\ h = Z.of_nat i + 1) -> R h t').
Proof.
  intros HI Hi. revert t HI. induction Hi as [|i idxs Hi _ IH]; intros t HI; simpl.
  { split; [done|]. intros _ h [?|(i & []%not_elem_of_nil & _)]; done. }
  rewrite <- link_static by (rewrite (proj1 (I_shape _ HI)); done).
  destruct (link t (Z.of_nat i + 1)) as [ofs|] eqn:El.
  - pose proof (step t _ _ HI El) as Hs. destruct (func _ ofs t) as [[] t1]; [split; [tauto|done]|].
    destruct Hs as [HI1 Hs]. destruct (Hs eq_refl) as [R1 R2]. specialize (IH t1 HI1).
    destruct (foreach_static func idxs t1) as [stop t2]. destruct IH as [HI2 IH]. split; [done|].
    intros Hst h Hh. apply (IH Hst). destruct Hh as [Hh|(j & Hj & ->)]; [by left; apply R2|].
    apply elem_of_cons in Hj as [->|Hj]; [by left|right; eauto].
  - specialize (IH t HI). destruct (foreach_static func idxs t) as [stop t2]. destruct IH as [HI2 IH].
    split; [done|]. intros Hst h Hh. apply (IH Hst). destruct Hh as [Hh|(j & Hj & ->)]; [by left|].
    apply elem_of_cons in Hj as [->|Hj]; [by left; apply R_absent|right; eauto].
Qed.

Lemma foreach_dyn_spec idxs t :
  I t ->
  let '(stop, t') := foreach_dyn func idxs t in
  I t' /\ (stop = false ->
    forall h, R h t \/ (exists i, i ∈ idxs /\ (nt_dyn t0).*1 !! i = Some h) -> R h t').
Proof.
  revert t. induction idxs as [|i idxs IH]; intros t HI; simpl.
  { split; [done|]. intros _ h [?|(i & []%not_elem_of_nil & _)]; done. }
  pose proof (proj2 (I_shape _ HI)) as Hkeys.
  assert (Hskip : (forall h, (nt_dyn t0).*1 !! i = Some h -> R h t) ->
    let '(stop, t') := foreach_dyn func idxs t in
    I t' /\ (stop = false ->
      forall h, R h t \/ (exists j, j ∈ i :: idxs /\ (nt_dyn t0).*1 !! j = Some h) -> R h t')).
  { intros Hr. specialize (IH t HI). destruct (foreach_dyn func idxs t) as [stop t2].
    destruct IH as [HI2 IH]. split; [done|]. intros Hst h Hh. apply (IH Hst).
    destruct Hh as [Hh|(j & Hj & Hjh)]; [by left|].
    apply elem_of_cons in Hj as [->|Hj]; [left; eauto|right; eauto]. }
  destruct (nt_dyn t !! i) as [[h o]|] eqn:Ed; cycle 1.
  { apply Hskip. intros h. rewrite <- Hkeys, list_lookup_fmap, Ed. done. }
  assert (Hki : (nt_dyn t0).*1 !! i = Some h) by (by rewrite <- Hkeys, list_lookup_fmap, Ed).
  pose proof (link_dyn t i h o (I_keys _ HI) Ed) as Hl. rewrite <- Hl.
  destruct (link t h) as [ofs|] eqn:El; cycle 1.
  { apply Hskip. intros h'. rewrite Hki. intros [= <-]. by apply R_absent. }
  pose proof (step t _ _ HI El) as Hs. destruct (func _ ofs t) as [[] t1]; [split; [tauto|done]|].
  destruct Hs as [HI1 Hs]. destruct (Hs eq_refl) as [R1 R2]. specialize (IH t1 HI1).
  destruct (foreach_dyn func idxs t1) as [stop t2]. destruct IH as [HI2 IH]. split; [done|].
  intros Hst h' Hh. apply (IH Hst). destruct Hh as [Hh|(j & Hj & Hjh)]; [by left; apply R2|].
  apply elem_of_cons in Hj as [->|Hj]; [left; congruence|right; eauto].
Qed.

Lemma foreach_entry_spec t :
  I t ->
  let '(stop, t') := nv_table_foreach_entry t func in
  I t' /\ (stop = false -> forall h, R h t').
Proof.
  intros HI. unfold nv_table_foreach_entry.
  pose proof (foreach_static_spec (seq 0 (length (nt_static t))) t HI) as Hst.
  destruct (foreach_static func _ t) as [stop1 t1]. destruct Hst as [HI1 Hst].
  { apply Forall_seq. intros j Hj. rewrite (proj1 (I_shape _ HI)) in Hj. lia. }
  destruct stop1; [done|]. specialize (Hst eq_refl).
  pose proof (foreach_dyn_spec (seq 0 (length (nt_dyn t1))) t1 HI1) as Hdy.
  destruct (foreach_dyn func _ t1) as [stop t2]. destruct Hdy as [HI2 Hdy]. split; [done|].
  intros Hs h. apply (Hdy Hs). pose proof (I_shape _ HI1) as [S1 S2]. pose proof (I_shape _ HI) as [S1' _].
  destruct (link t1 h) as [o|] eqn:El; [|left; by apply R_absent].
  pose proof (proj1 (link_iff _ _ _ (I_keys _ HI1)) El) as (_ & Hp & [[Hns _]|[_ Hin]]).
  - left. apply Hst. right. exists (Z.to_nat (h - 1)). split; [|lia]. apply elem_of_seq.
    unfold nt_num_static, lenZ in Hns. lia.
  - right. apply list_elem_of_lookup in Hin as [i Hi]. exists i. split.
    + apply elem_of_seq. apply lookup_lt_Some in Hi. lia.
    + rewrite <- S2, list_lookup_fmap, Hi. done.
Qed.

(** Two callbacks that agree on the tables the iteration meets. *)
Context (func' : Z -> Z -> NVTable -> bool * NVTable).
Hypothesis agree : forall t h ofs, I t -> link t h = Some ofs -> func h ofs t = func' h ofs t.

Lemma foreach_static_ext idxs t :
  I t -> foreach_static func idxs t = foreach_static func' idxs t.
Proof.
  revert t. induction idxs as [|i idxs IH]; intros t HI; simpl; [done|].
  destruct (nv_table_get_entry_at_ofs _) as [ofs|] eqn:E; [|by apply IH].
  assert (Hl : link t (Z.of_nat i + 1) = Some ofs).
  { rewrite link_static; [done|]. destruct (nt_static t !! i) eqn:Ei; [by apply lookup_lt_Some in Ei|by vm_compute in E]. }
  rewrite <- agree by done. pose proof (step t _ _ HI Hl) as Hs.
  destruct (func _ ofs t) as [[] t1]; [done|]. apply IH, Hs.
Qed.

Lemma foreach_dyn_ext idxs t :
  I t -> foreach_dyn func idxs t = foreach_dyn func' idxs t.
Proof.
  revert t. induction idxs as [|i idxs IH]; intros t HI; simpl; [done|].
  destruct (nt_dyn t !! i) as [[h o]|] eqn:Ed; [|by apply IH].
  pose proof (link_dyn t i h o (I_keys _ HI) Ed) as Hl.
  destruct (nv_table_get_entry_at_ofs o) as [ofs|]; [|by apply IH].
  rewrite <- agree by done. pose proof (step t _ _ HI Hl) as Hs.
  destruct (func _ ofs t) as [[] t1]; [done|]. apply IH, Hs.
Qed.

Lemma foreach_entry_ext t :
  I t -> nv_table_foreach_entry t func = nv_table_foreach_entry t func'.
Proof.
  intros HI. unfold nv_table_foreach_entry. rewrite <- foreach_static_ext by done.
  pose proof (foreach_static_spec (seq 0 (length (nt_static t))) t HI) as Hst.
  destruct (foreach_static func _ t) as [[] t1]; [done|]. apply foreach_dyn_ext.
  apply Hst. apply Forall_seq. intros j Hj. rewrite (proj1 (I_shape _ HI)) in Hj. lia.
Qed.
End foreach.

Section nv.
Context (nm : Z -> bytes).

Lemma truncate_value_id v : lenZ v <= NV_TABLE_MAX_BYTES -> truncate_value v = v.
Proof.
  intros Hv. unfold truncate_value, nv_table_get_size. rewrite Z.min_l by done.
  apply take_ge. unfold lenZ. lia.
Qed.

Lemma truncate_value_idem v : truncate_value (truncate_value v) = truncate_value v.
Proof.
  apply truncate_value_id. unfold truncate_value, nv_table_get_size. rewrite lenZ_take.
  unfold NV_TABLE_MAX_BYTES. lia.
Qed.

(** ** Making references direct *)

(** What [nv_table_make_direct] keeps while it is called for every entry. *)
Record md_inv (t0 : NVTable) (ref : Z) (t : NVTable) : Prop := {
  md_wf : nv_wf nm t;
  md_values : forall h, nv_table_get_value t h = nv_table_get_value t0 h;
  md_shape : same_shape t0 t;
  md_entry : nv_table_get_entry t ref = nv_table_get_entry t0 ref;
  md_direct : exists e, nv_lookup t ref = Some e /\ nv_lookup t0 ref = Some e /\ e_indirect e = false;
  md_present : forall h, nv_lookup t h = None <-> nv_lookup t0 h = None;
}.

Definition not_ref_to (ref h : Z) (t : NVTable) : Prop :=
  forall e s, nv_lookup t h = Some e -> e_body e = VIndirect s -> rs_handle s <> ref.

Lemma handle_bound t h o : keys_wf t -> link t h = Some o -> 0 < h < 2 ^ 16.
Proof.
  intros Hk Hl. apply link_iff in Hl as (_ & Hp & [[Hns _]|[_ Hin]]); [| |done].
  - pose proof (kw_static _ Hk). lia.
  - apply list_elem_of_lookup in Hin as [i Hi]. pose proof (kw_handles _ Hk _ _ Hi). simpl in *. lia.
Qed.

(** On an indirect entry [nv_table_add_value] goes straight to the store. *)
Lemma add_value_indirect_entry fuel t h e s ofs slot name v :
  nv_table_get_entry t h = (Some ofs, slot) -> nv_lookup t h = Some e -> e_body e = VIndirect s ->
  lenZ v <= NV_TABLE_MAX_BYTES ->
  nv_table_add_value_fuel (S fuel) t h name v None =
    nv_table_store_value t h name v None (Some ofs) slot.
Proof.
  intros Hg Hl Hb Hv. simpl. rewrite Hg, Hl, truncate_value_id by done.
  unfold e_indirect. rewrite Hb. simpl. done.
Qed.

Lemma get_entry_slot_shape t t' h :
  keys_wf t -> keys_wf t' -> same_shape t t' -> link t' h = link t h ->
  nv_table_get_entry t' h = nv_table_get_entry t h.
Proof.
  intros Hk Hk' [S1 S2] Hl. assert (Hn : nt_num_static t' = nt_num_static t) by (unfold nt_num_static, lenZ; lia).
  destruct (decide (nt_num_static t < h)) as [Hd|Hd].
  - assert (Hidx : dyn_index (nt_dyn t') h = dyn_index (nt_dyn t) h).
    { assert (Hmk : forall (a b : list (Z * Z)) m, dyn_sorted a -> dyn_sorted b -> a.*1 = b.*1 ->
        dyn_index a h = Some m -> dyn_index b h = Some m).
      { intros a b m Ha Hb Hab Hm. apply dyn_index_Some in Hm as [o Ho]; [|done]. apply dyn_index_Some; [done|].
        assert (Hbm : b.*1 !! m = Some h) by (rewrite <- Hab, list_lookup_fmap, Ho; done).
        rewrite list_lookup_fmap in Hbm. destruct (b !! m) as [[? o']|]; [|done].
        injection Hbm as <-. eauto. }
      destruct (dyn_index (nt_dyn t) h) as [m|] eqn:E.
      - eapply Hmk; [..|exact E]; [apply Hk|apply Hk'|done].
      - destruct (dyn_index (nt_dyn t') h) as [m|] eqn:E'; [|done].
        rewrite (Hmk _ _ m (kw_sorted _ Hk') (kw_sorted _ Hk) S2 E') in E. done. }
    rewrite (surjective_pairing (nv_table_get_entry t' h)), (surjective_pairing (nv_table_get_entry t h)).
    unfold link in Hl. rewrite Hl. f_equal. rewrite !get_entry_dyn by (done || lia || by apply keys_wf_keys32). done.
  - rewrite (surjective_pairing (nv_table_get_entry t' h)), (surjective_pairing (nv_table_get_entry t h)).
    unfold link in Hl. rewrite Hl. f_equal. unfold nv_table_get_entry.
    rewrite Hn. rewrite !(bool_decide_true (h <= nt_num_static t)) by lia. by repeat case_bool.
Qed.

Lemma make_direct_step fuel t0 ref t h ofs :
  md_inv t0 ref t -> link t h = Some ofs ->
  let '(stop, t') := nv_table_make_direct (nv_table_add_value_fuel (S fuel)) ref h ofs t in
  md_inv t0 ref t' /\
  (stop = false -> not_ref_to ref h t' /\ forall h', not_ref_to ref h' t -> not_ref_to ref h' t').
Proof.
  intros HI Hl. pose proof (md_wf _ _ _ HI) as Hwf. pose proof (wf_keys _ _ Hwf) as Hk.
  destruct (wf_lookup_Some _ _ _ _ Hwf Hl) as (e & He & Hlk).
  unfold nv_table_make_direct. rewrite He.
  destruct (e_body e) as [v|s] eqn:Eb.
  { split; [done|]. intros _. split; [|done]. intros e1 s1. rewrite Hlk. intros [= <-]. congruence. }
  case_bool; cycle 1.
  { split; [done|]. intros _. split; [|done]. intros e1 s1. rewrite Hlk. intros [= <-]. congruence. }
  destruct (wf_ref _ _ Hwf _ _ _ Hlk Eb) as (Hsl & e' & He' & Hi & _).
  apply e_indirect_false in Hi as [w Hw].
  rewrite (resolve_entry_get_value t h e s e' w) by done.
  destruct (get_value_total nm t h Hwf) as (v & Hv & Hvl). rewrite Hv.
  destruct (nv_table_get_entry t h) as [en slot] eqn:Hg.
  assert (Hen : en = Some ofs) by (unfold link in Hl; by rewrite Hg in Hl). subst en.
  rewrite (add_value_indirect_entry fuel t h e s ofs slot) by done.
  assert (Hn : no_refs t h).
  { apply (no_refs_unreferenced nm); [done|]. intros e1. rewrite Hlk. intros [= <-].
    unfold e_indirect. by rewrite Eb. }
  pose proof (store_value_spec nm t h (e_name e) v None (Some ofs) slot Hwf (handle_bound _ _ _ Hk Hl) Hg) as Hst.
  destruct (nv_table_store_value t h (e_name e) v None (Some ofs) slot) as [[ok ne] t'].
  destruct Hst as [Swf Sother Sval Slook Slink Sshape]; [|intros e1; rewrite Hlk; by intros [= <-]|done|].
  { destruct (wf_link _ _ Hwf _ _ Hl) as (e1 & He1 & ?). congruence. }
  assert (Hne : ref <> h).
  { intros ->. destruct (md_direct _ _ _ HI) as (e1 & He1 & _ & Hi1). rewrite Hlk in He1. injection He1 as <-.
    unfold e_indirect in Hi1. by rewrite Eb in Hi1. }
  split.
  - split; [done| | | | |].
    + intros h'. rewrite <- (md_values _ _ _ HI). destruct (decide (h' = h)) as [->|]; [|by apply Sother].
      rewrite Sval, Hv. by destruct ok.
    + destruct (md_shape _ _ _ HI) as [S1 S2]. destruct Sshape as [S3 S4]; [congruence|]. split; congruence.
    + rewrite <- (md_entry _ _ _ HI). apply get_entry_slot_shape; [done|apply Swf|apply Sshape; congruence|by apply Slink].
    + destruct (md_direct _ _ _ HI) as (e1 & He1 & ? & ?). exists e1. split; [|done].
      destruct ok; [destruct Slook as (e2 & Hu & _); by rewrite Hu, decide_False|by rewrite Slook].
    + intros h'. rewrite <- (md_present _ _ _ HI). destruct ok; [|by rewrite Slook]. destruct Slook as (e2 & Hu & _). rewrite Hu. case_decide; [subst; by rewrite Hlk|done].
  - destruct ok; [|done]. intros _. destruct Slook as (e2 & Hu & Hb2). split.
    + intros e3 s3. rewrite Hu, decide_True by done. intros [= <-]. congruence.
    + intros h' Hr e3 s3. rewrite Hu. case_decide; [intros [= <-]; congruence|apply Hr].
Qed.

Lemma make_direct_all fuel t ref e :
  nv_wf nm t -> nv_lookup t ref = Some e -> e_indirect e = false ->
  let '(stop, t') := nv_table_foreach_entry t (nv_table_make_direct (nv_table_add_value_fuel (S fuel)) ref) in
  md_inv t ref t' /\ (stop = false -> no_refs t' ref).
Proof.
  intros Hwf Hl Hi.
  pose proof (foreach_entry_spec (nv_table_make_direct (nv_table_add_value_fuel (S fuel)) ref)
    t (md_inv t ref) (not_ref_to ref)) as Hf.
  assert (HI : md_inv t ref t) by (split; eauto using same_shape_refl).
  specialize (Hf (fun _ HH => wf_keys _ _ (md_wf _ _ _ HH)) (fun _ HH => md_shape _ _ _ HH)).
  specialize (Hf ltac:(intros t1 h _ Hn e1 s1; rewrite nv_lookup_link, Hn; done)).
  specialize (Hf ltac:(intros; by apply make_direct_step) t HI).
  destruct (nv_table_foreach_entry _ _) as [stop t']. destruct Hf as [H1 H2]. split; [done|].
  intros Hs h e1 s1. by apply H2.
Qed.

(** ** [nv_table_add_value] *)

(** Names are the registered ones: an entry never stores a longer name. *)
Lemma lookup_name t h e : nv_wf nm t -> nv_lookup t h = Some e -> lenZ (e_name e) <= lenZ (nm h).
Proof.
  intros Hwf Hl. rewrite nv_lookup_link in Hl. destruct (link t h) as [o|] eqn:E; [|done].
  destruct (wf_link _ _ Hwf _ _ E) as (e1 & He1 & ?). simpl in Hl. congruence.
Qed.

Lemma add_value_fuel_spec fuel t h v ne :
  nv_wf nm t -> 0 < h < 2 ^ 16 ->
  let '(ok, _, t') := nv_table_add_value_fuel (S (S fuel)) t h (nm h) v ne in
  nv_wf nm t' /\
  (forall h', h' <> h -> nv_table_get_value t' h' = nv_table_get_value t h') /\
  nv_table_get_value t' h =
    (if ok then Some (truncate_value v, lenZ (truncate_value v)) else nv_table_get_value t h).
Proof.
  intros Hwf Hh. set (f := S fuel). simpl. destruct (nv_table_get_entry t h) as [en slot] eqn:Hg.
  assert (Hlink : link t h = en) by (unfold link; by rewrite Hg).
  destruct (bool_decide (en = None) && is_null (store_new_entry ne false) &&
            bool_decide (lenZ (truncate_value v) = 0)) eqn:Ez.
  { apply andb_true_iff in Ez as [Ez Ev]. apply andb_true_iff in Ez as [Ee _].
    apply bool_decide_eq_true in Ee, Ev. apply lenZ_zero_nil in Ev. rewrite Ev. split_and!; [done..|].
    apply get_value_absent. by rewrite nv_lookup_link, Hlink, Ee. }
  assert (Hfin : forall t1, nv_wf nm t1 -> (forall h', nv_table_get_value t1 h' = nv_table_get_value t h') ->
    nv_table_get_entry t1 h = (en, slot) -> no_refs t1 h ->
    let '(ok, _, t') := nv_table_store_value t1 h (nm h) (truncate_value v) (store_new_entry ne false) en slot in
    nv_wf nm t' /\ (forall h', h' <> h -> nv_table_get_value t' h' = nv_table_get_value t h') /\
    nv_table_get_value t' h =
      (if ok then Some (truncate_value v, lenZ (truncate_value v)) else nv_table_get_value t h)).
  { intros t1 Hwf1 Hv1 Hg1 Hn1.
    pose proof (store_value_spec nm t1 h (nm h) (truncate_value v) (store_new_entry ne false) en slot Hwf1 Hh Hg1) as Hst.
    destruct (nv_table_store_value _ _ _ _ _ _ _) as [[ok ne'] t'].
    destruct Hst as [Swf Sother Sval _ _ _]; [done|intros; by apply (lookup_name t1)|done|].
    split_and!; [done| |].
    - intros h' Hne. by rewrite Sother, Hv1.
    - rewrite Sval. destruct ok; [done|apply Hv1]. }
  destruct (nv_lookup t h) as [e|] eqn:El; cycle 1.
  { apply Hfin; [done..|]. apply (no_refs_unreferenced nm); [done|]. by rewrite El. }
  destruct (negb (e_indirect e) && e_referenced e) eqn:Er; cycle 1.
  { apply Hfin; [done..|]. apply (no_refs_unreferenced nm); [done|]. rewrite El. by intros ? [= <-]. }
  apply andb_true_iff in Er as [Ei _]. apply negb_true_iff in Ei.
  pose proof (make_direct_all fuel t h e Hwf El Ei) as Hmd. subst f.
  destruct (nv_table_foreach_entry _ _) as [[] t1]; destruct Hmd as [HI Hn].
  - split_and!; [apply HI|intros; apply HI|apply HI].
  - apply Hfin; [apply HI|apply HI| |by apply Hn]. by rewrite (md_entry _ _ _ HI).
Qed.

(** More fuel than two levels gives the same result. *)
Lemma add_value_fuel_enough_indirect fuel fuel' t h e s name v :
  nv_lookup t h = Some e -> e_body e = VIndirect s ->
  nv_table_add_value_fuel (S fuel) t h name v None = nv_table_add_value_fuel (S fuel') t h name v None.
Proof.
  intros Hl Hb. simpl. rewrite Hl. unfold e_indirect. rewrite Hb. done.
Qed.

Lemma make_direct_fuel fuel fuel' t ref h ofs :
  link t h = Some ofs ->
  nv_table_make_direct (nv_table_add_value_fuel (S fuel)) ref h ofs t =
  nv_table_make_direct (nv_table_add_value_fuel (S fuel')) ref h ofs t.
Proof.
  intros Hl. unfold nv_table_make_direct. destruct (nt_heap t !! ofs) as [e|] eqn:E; [|done].
  destruct (e_body e) as [|s] eqn:Eb; [done|]. case_bool; [|done].
  destruct (nv_table_resolve_entry t e) as [[w n]|]; [|done].
  rewrite (add_value_fuel_enough_indirect fuel fuel' t h e s); [done| |done].
  by rewrite nv_lookup_link, Hl.
Qed.

Lemma add_value_fuel_enough fuel t h name v ne :
  nv_wf nm t ->
  nv_table_add_value_fuel (S (S fuel)) t h name v ne = nv_table_add_value t h name v ne.
Proof.
  intros Hwf. unfold nv_table_add_value. set (f := S fuel). set (g := 1%nat). simpl.
  destruct (nv_table_get_entry t h) as [en slot]. case_match; [done|].
  destruct (nv_lookup t h) as [e|] eqn:El; [|done].
  destruct (negb (e_indirect e) && e_referenced e) eqn:Er; [|done].
  apply andb_true_iff in Er as [Ei _]. apply negb_true_iff in Ei.
  rewrite (foreach_entry_ext (nv_table_make_direct (nv_table_add_value_fuel f) h) t (md_inv t h) (not_ref_to h))
    with (func' := nv_table_make_direct (nv_table_add_value_fuel g) h); [done|..].
  - intros ? HH; exact (wf_keys _ _ (md_wf _ _ _ HH)).
  - intros ? HH; exact (md_shape _ _ _ HH).
  - intros t1 h1 _ Hn e1 s1. rewrite nv_lookup_link, Hn. done.
  - intros; by apply make_direct_step.
  - intros; by apply make_direct_fuel.
  - split; eauto using same_shape_refl.
Qed.

End nv.
