(* ===== verification/NVTableSpec.v ===== *)
(** * What [NVTable] promises

    The value behind each handle is a finite map from handles to byte strings;
    the theorems below show which map each operation produces, on success and
    on failure, and where the code departs from that. *)
From S2P Require Import Prelude NVTable NVTableInv NVTableOps NVTableStore.

Section nv.
Context (nm : Z -> bytes).

(** ** Initialisation, growing, cloning *)

Lemma nv_table_init_wf alloc_length num_static :
  OFFSETOF_NVTABLE_DATA + num_static * SIZEOF_STATIC <= alloc_length -> 0 <= num_static < 2 ^ 8 ->
  nv_wf nm (nv_table_init alloc_length num_static).
Proof.
  unfold OFFSETOF_NVTABLE_DATA, SIZEOF_STATIC. intros Hal Hns. unfold nv_table_init. rewrite u8_small by lia.
  assert (Hn : lenZ (replicate (Z.to_nat num_static) 0) = num_static) by (unfold lenZ; rewrite length_replicate; lia).
  rewrite u32_small by (unfold nv_table_get_size, NV_TABLE_MAX_BYTES; lia).
  set (t := mkTable _ _ _ _ _ _ _).
  assert (Hk : keys_wf t) by (split; unfold nt_num_static; simpl; rewrite ?Hn; [lia|done|done]).
  assert (Hl : forall h, link t h = None).
  { intros h. destruct (link t h) as [o|] eqn:E; [|done]. apply link_iff in E as (Ho & _ & [[_ Hs]|[_ Hs]]); [| |done].
    - simpl in Hs. apply lookup_replicate in Hs as [-> _]. done.
    - by apply not_elem_of_nil in Hs. }
  split; try done.
  - split; [done|]. exists 0; done.
  - simpl. unfold nv_table_get_size. lia.
  - unfold nv_table_get_ofs_table_top, nv_table_get_bottom, nv_table_get_top, nt_num_static, nt_num_dyn. simpl.
    rewrite Hn. unfold lenZ, nv_table_get_size, NV_TABLE_MAX_BYTES, OFFSETOF_NVTABLE_DATA, SIZEOF_STATIC, SIZEOF_NVDYNVALUE. simpl. lia.
  - intros h o. by rewrite Hl.
  - intros h1 h2 o. by rewrite Hl.
  - intros h e s. by rewrite nv_lookup_link, Hl.
Qed.

Lemma resize_spec t size rc b :
  nv_wf nm t -> nt_size t <= size <= NV_TABLE_MAX_BYTES ->
  nv_wf nm (resize t size rc b) /\
  forall h, nv_table_get_value (resize t size rc b) h = nv_table_get_value t h.
Proof.
  intros Hwf Hs. split.
  - apply (same_links_wf nm t); try done; [simpl; lia|destruct (wf_keys _ _ Hwf); by split|].
    pose proof (wf_room _ _ Hwf). unfold nv_table_get_ofs_table_top, nv_table_get_bottom, nv_table_get_top in *.
    unfold nt_num_static, nt_num_dyn in *. simpl. lia.
  - intros h. by apply same_lookup_value.
Qed.

Lemma wf_size_nonneg t : nv_wf nm t -> 0 < nt_size t.
Proof.
  intros Hwf. pose proof (wf_room _ _ Hwf). destruct (wf_used _ _ Hwf).
  unfold nv_table_get_ofs_table_top, nv_table_get_bottom, nv_table_get_top, nt_num_static, nt_num_dyn,
    OFFSETOF_NVTABLE_DATA, SIZEOF_STATIC, SIZEOF_NVDYNVALUE in *.
  pose proof (lenZ_nonneg (nt_static t)). pose proof (lenZ_nonneg (nt_dyn t)). lia.
Qed.

Lemma realloc_size t :
  nv_wf nm t ->
  match nv_table_realloc t with
  | None => nt_size t = NV_TABLE_MAX_BYTES
  | Some (t', _) => nt_size t' = Z.min (2 * nt_size t) NV_TABLE_MAX_BYTES /\ nt_size t < nt_size t' /\
      (exists rc b, t' = resize t (nt_size t') rc b)
  end.
Proof.
  intros Hwf. pose proof (wf_size_nonneg t Hwf). pose proof (wf_size _ _ Hwf).
  unfold nv_table_realloc, calc_nv_table_realloc_size, nv_table_get_size.
  rewrite Z.shiftl_mul_pow2 by lia. change (2 ^ 1) with 2.
  assert (Hm : 0 < NV_TABLE_MAX_BYTES < 2 ^ 32) by (unfold NV_TABLE_MAX_BYTES; lia).
  case_bool; [lia|].
  destruct (bool_decide (nt_ref_cnt t = 1) && negb (nt_borrowed t)); simpl;
    rewrite u32_small by lia; (split_and!; [lia|lia|eauto]).
Qed.

Lemma nv_table_realloc_spec t t' old :
  nv_wf nm t -> nv_table_realloc t = Some (t', old) ->
  nv_wf nm t' /\ (forall h, nv_table_get_value t' h = nv_table_get_value t h).
Proof.
  intros Hwf Hr. pose proof (realloc_size t Hwf) as R. rewrite Hr in R. destruct R as (Hs & Hlt & rc & b & Ht).
  rewrite Ht. apply resize_spec; [done|]. lia.
Qed.

Lemma clone_resize t extra :
  nv_wf nm t -> 0 <= extra < 2 ^ 30 ->
  nv_table_clone t extra =
    resize t (if bool_decide (free_space t < extra) then nt_size t
              else Z.min (nt_size t + NV_TABLE_BOUND extra) NV_TABLE_MAX_BYTES) 1 false.
Proof.
  intros Hwf He. pose proof (wf_size_nonneg t Hwf). pose proof (wf_size _ _ Hwf).
  pose proof (NV_TABLE_BOUND_ge extra).
  assert (Hs : forall x, 0 <= x < 2 ^ 31 -> s32 x = x).
  { intros x Hx. unfold s32. rewrite u32_small by lia. by rewrite bool_decide_true by lia. }
  unfold nv_table_clone, free_space, nv_table_get_size, NV_TABLE_MAX_BYTES in *. f_equal.
  case_bool; [rewrite (Hs (nt_size t)) by lia|rewrite (Hs (nt_size t + NV_TABLE_BOUND extra)) by lia];
    rewrite u64_small by lia; rewrite (Hs (Z.min _ _)) by lia; rewrite u32_small by lia; [lia|done].
Qed.

Lemma nv_table_clone_spec t extra :
  nv_wf nm t -> 0 <= extra < 2 ^ 30 ->
  nv_wf nm (nv_table_clone t extra) /\
  (forall h, nv_table_get_value (nv_table_clone t extra) h = nv_table_get_value t h).
Proof.
  intros Hwf He. rewrite clone_resize by done. pose proof (NV_TABLE_BOUND_ge extra).
  pose proof (wf_size _ _ Hwf). apply resize_spec; [done|]. case_bool; lia.
Qed.

(** ** [nv_table_add_value_indirect] *)

Lemma clip_slice_idem s n : 0 <= n < 2 ^ 32 -> slice_ok s -> clip_slice (clip_slice s n) n = clip_slice s n.
Proof.
  intros Hn (Ho & Hl & Hb). unfold clip_slice. rewrite (u32_small (rs_ofs s + rs_len s)) by lia.
  destruct (bool_decide_reflect (rs_ofs s > n)) as [H1|H1]; simpl.
  - rewrite bool_decide_false by lia. f_equal. rewrite (u32_small (0 + 0)) by lia. rewrite u32_small; lia.
  - rewrite bool_decide_false by lia. f_equal.
    rewrite (u32_small (Z.min (rs_ofs s + rs_len s) n - rs_ofs s)) by lia.
    rewrite (u32_small (rs_ofs s + _)) by lia. rewrite u32_small by lia. lia.
Qed.

(** The bytes a slice denotes. *)
Definition slice_bytes (s : NVReferencedSlice) (v : bytes) : bytes :=
  take (Z.to_nat (rs_len s)) (drop (Z.to_nat (rs_ofs s)) v).

Lemma resolve_slice_bytes s v :
  slice_ok s -> resolve_slice s (v, lenZ v) = (slice_bytes s v, lenZ (slice_bytes s v)).
Proof.
  intros (Ho & Hl & Hb). unfold resolve_slice, slice_bytes. case_bool.
  - rewrite drop_ge by (unfold lenZ in *; lia). rewrite take_nil. done.
  - rewrite u32_small by lia. f_equal.
    + destruct (decide (rs_ofs s + rs_len s <= lenZ v)).
      * do 2 f_equal. lia.
      * rewrite !take_ge; [done|..]; rewrite length_drop; unfold lenZ in *; lia.
    + rewrite lenZ_take, lenZ_drop. lia.
Qed.

Lemma clip_slice_bytes s v :
  slice_ok s -> lenZ v < 2 ^ 32 ->
  take (Z.to_nat (rs_len (clip_slice s (lenZ v)))) (drop (Z.to_nat (rs_ofs (clip_slice s (lenZ v)))) v)
  = slice_bytes s v.
Proof.
  intros (Ho & Hl & Hb) Hv. unfold clip_slice, slice_bytes. case_bool; simpl.
  - rewrite take_0, drop_ge by (unfold lenZ in *; lia). by rewrite take_nil.
  - rewrite (u32_small (_ + _)) by lia. rewrite u32_small by lia.
    destruct (decide (rs_ofs s + rs_len s <= lenZ v)).
    + do 2 f_equal. lia.
    + rewrite !take_ge; [done|..]; rewrite length_drop; unfold lenZ in *; lia.
Qed.

(** *** The flag [referenced] *)

Lemma same_body_value t t' h :
  (forall h, e_body <$> nv_lookup t' h = e_body <$> nv_lookup t h) ->
  nv_table_get_value t' h = nv_table_get_value t h.
Proof.
  intros H. unfold nv_table_get_value; simpl.
  assert (Hx : forall h, match nv_lookup t' h with Some e => Some (e_body e) | None => None end =
                         match nv_lookup t h with Some e => Some (e_body e) | None => None end).
  { intros h'. specialize (H h'). by destruct (nv_lookup t' h'), (nv_lookup t h'). }
  pose proof (Hx h) as H1. destruct (nv_lookup t' h) as [e'|], (nv_lookup t h) as [e|]; try done.
  injection H1 as ->. destruct (e_body e) as [|s]; [done|].
  pose proof (Hx (rs_handle s)) as H2.
  destruct (nv_lookup t' (rs_handle s)) as [f'|], (nv_lookup t (rs_handle s)) as [f|]; try done.
  injection H2 as ->. done.
Qed.

Lemma set_referenced_eq t o e :
  nt_heap t !! o = Some e ->
  set_referenced t o = set_entry t o (mkEntry true (e_name e) (e_alloc_len e) (e_body e)).
Proof. intros He. unfold set_referenced. by rewrite He. Qed.

Lemma set_referenced_wf t h o :
  nv_wf nm t -> link t h = Some o ->
  nv_wf nm (set_referenced t o) /\
  (forall h', nv_table_get_value (set_referenced t o) h' = nv_table_get_value t h') /\
  (exists e e', nv_lookup t h = Some e /\ updated t (set_referenced t o) h e' /\
     e_body e' = e_body e /\ e_name e' = e_name e /\ e_referenced e' = true).
Proof.
  intros Hwf Hl. destruct (wf_lookup_Some _ _ _ _ Hwf Hl) as (e & He & Hlk).
  rewrite (set_referenced_eq t o e He). set (e' := mkEntry true _ _ _).
  pose proof (updated_set_entry nm t h o e' Hwf Hl) as Hu.
  assert (Hi : e_indirect e' = e_indirect e) by done.
  split_and!; cycle 1.
  - intros h'. apply same_body_value. intros h1. rewrite Hu. case_decide; [|done]. subst. by rewrite Hlk.
  - exists e, e'. split_and!; done.
  - pose proof Hwf as [Wused Wsize Wroom Wkeys Wlink Winj Wentry Wdisj Wref]. split; try done.
    + destruct Wkeys; by split.
    + intros h1 o1 H1. rewrite link_set_entry in H1. simpl. destruct (decide (o1 = o)) as [->|].
      * rewrite lookup_insert_eq. destruct (Wlink _ _ H1) as (e1 & He1 & ?).
        assert (e1 = e) as -> by congruence. eauto.
      * rewrite lookup_insert_ne by done. eauto.
    + intros o1 e1. simpl. rewrite lookup_insert. case_decide; [|apply Wentry].
      intros [= <-]. subst. apply (Wentry _ _ He).
    + intros o1 o2 e1 e2. simpl. rewrite !lookup_insert. repeat case_decide; intros; simplify_eq; try lia.
      all: simpl; eapply Wdisj; eauto.
    + intros h1 e1 s1. rewrite Hu. intros H1 Hb1.
      assert (exists e2, nv_lookup t h1 = Some e2 /\ e_body e2 = VIndirect s1) as (e2 & H2 & Hb2).
      { case_decide as Hd; [|eauto]. injection H1 as H1. exists e. rewrite Hd. split; [exact Hlk|].
        rewrite <- H1 in Hb1. exact Hb1. }
      destruct (Wref _ _ _ H2 Hb2) as (Hsl & e3 & He3 & Hi3 & Hr3). split; [done|].
      rewrite Hu. destruct (decide (rs_handle s1 = h)) as [Hd|]; [|eauto]. exists e'. split; [reflexivity|]. split; [|reflexivity].
      rewrite Hi. rewrite Hd in He3. congruence.
Qed.

(** The offset tables do not depend on the entries. *)
Lemma reserve_set_heap t hp h slot :
  nv_table_reserve_table_entry (set_heap t hp) h slot =
    (fun p => (p.1, set_heap p.2 hp)) <$> nv_table_reserve_table_entry t h slot.
Proof.
  unfold nv_table_reserve_table_entry. destruct slot; [done|].
  change (nt_num_static (set_heap t hp)) with (nt_num_static t).
  change (nv_table_alloc_check (set_heap t hp)) with (nv_table_alloc_check t).
  case_bool; [|done]. destruct (nv_table_alloc_check t SIZEOF_NVDYNVALUE); [|done].
  change (nt_dyn (set_heap t hp)) with (nt_dyn t). by destruct (bsearch u16 (nt_dyn t) h).
Qed.

Lemma alloc_value_set_heap t hp n :
  nv_table_alloc_value (set_heap t hp) n =
    (fun p => (p.1, set_heap p.2 hp)) <$> nv_table_alloc_value t n.
Proof.
  unfold nv_table_alloc_value. change (nv_table_alloc_check (set_heap t hp)) with (nv_table_alloc_check t).
  by destruct (nv_table_alloc_check t _).
Qed.

(** What storing a reference promises. *)
Record stored_ref (t t' : NVTable) (h : Z) (ok : bool) (v : bytes) : Prop := {
  sr_wf : nv_wf nm t';
  sr_other : forall h', h' <> h -> nv_table_get_value t' h' = nv_table_get_value t h';
  sr_value : nv_table_get_value t' h = if ok then Some (v, lenZ v) else nv_table_get_value t h;
}.

Lemma updated_indirect_stored t t' h e s w :
  nv_wf nm t -> nv_wf nm t' -> updated t t' h e -> e_body e = VIndirect s -> no_refs t h ->
  slice_ok s -> rs_handle s <> h ->
  (exists e2, nv_lookup t (rs_handle s) = Some e2 /\ e_body e2 = VDirect w) ->
  stored_ref t t' h true (slice_bytes s w).
Proof.
  intros Hwf Hwf' Hu Hb Hn Hs Hne (e2 & He2 & Hw). split; [done| |].
  - intros h' Hh. by eapply updated_other_values.
  - rewrite (get_value_indirect t' h e s e2 w), resolve_slice_bytes; [done|done| |done| |done].
    + rewrite Hu. by rewrite decide_True.
    + rewrite Hu. by rewrite decide_False.
Qed.

Lemma stored_ref_trans t t1 t' h ok v :
  (forall h', nv_table_get_value t1 h' = nv_table_get_value t h') ->
  stored_ref t1 t' h ok v -> stored_ref t t' h ok v.
Proof.
  intros Hv [W O V]. split; [done| |].
  - intros h' Hh. by rewrite O, Hv.
  - rewrite V. destruct ok; [done|apply Hv].
Qed.
Lemma resolve_entry_value t h e :
  nv_wf nm t -> nv_lookup t h = Some e -> nv_table_resolve_entry t e = nv_table_get_value t h.
Proof.
  intros Hwf Hl. destruct (e_body e) as [v|s] eqn:Eb.
  - rewrite (get_value_direct t h e v) by done. unfold nv_table_resolve_entry. by rewrite Eb.
  - destruct (wf_ref _ _ Hwf _ _ _ Hl Eb) as (_ & e' & He' & Hi & _).
    apply e_indirect_false in Hi as [v Hv]. by apply (resolve_entry_get_value t h e s e' v).
Qed.

(** Copying the slice instead of referring to it. *)
Lemma copy_referenced_spec t h s ne ofs rv :
  nv_wf nm t -> 0 < h < 2 ^ 16 -> slice_ok s -> link t (rs_handle s) = Some ofs ->
  nv_table_get_value t (rs_handle s) = Some (rv, lenZ rv) -> lenZ rv <= NV_TABLE_MAX_BYTES ->
  exists ok ne' t', nv_table_copy_referenced_value t (Some ofs) h (nm h) s ne = Ret (ok, ne', t') /\
    stored_ref t t' h ok (slice_bytes s rv).
Proof.
  intros Hwf Hh Hs Hl Hv Hb. destruct (wf_lookup_Some _ _ _ _ Hwf Hl) as (e & He & Hlk).
  unfold nv_table_copy_referenced_value. rewrite He, (resolve_entry_value t (rs_handle s)), Hv by done.
  rewrite clip_slice_bytes by (done || unfold NV_TABLE_MAX_BYTES in *; lia).
  pose proof (add_value_fuel_spec nm 0 t h (slice_bytes s rv) ne Hwf Hh) as Ha.
  change (nv_table_add_value_fuel 2) with nv_table_add_value in Ha.
  destruct (nv_table_add_value t h (nm h) (slice_bytes s rv) ne) as [[ok ne'] t'].
  exists ok, ne', t'. split; [done|]. destruct Ha as (H1 & H2 & H3). split; [done|done|].
  rewrite H3, truncate_value_id; [done|]. unfold slice_bytes. rewrite lenZ_take, lenZ_drop.
  pose proof (lenZ_nonneg rv). lia.
Qed.

(** The case where a reference is really stored: the target is direct and
    nothing refers to the handle. *)
Lemma store_reference_inplace t h s ofs ref_ofs e w :
  nv_wf nm t -> slice_ok s -> rs_handle s <> h -> link t h = Some ofs -> nt_heap t !! ofs = Some e ->
  link t (rs_handle s) = Some ref_ofs -> no_refs t h ->
  (exists e2, nv_lookup t (rs_handle s) = Some e2 /\ e_body e2 = VDirect w) ->
  e_alloc_len e >= NV_ENTRY_INDIRECT_HDR + lenZ (nm h) + 1 ->
  stored_ref t (set_referenced (nv_table_set_indirect_entry t h ofs e (nm h) s) ref_ofs) h true (slice_bytes s w).
Proof.
  intros Hwf Hs Hne Hl He Hlr Hn (e2 & He2 & Hw) Hfit.
  assert (Hoo : ofs <> ref_ofs). { intros ->. apply Hne. symmetry. by apply (wf_inj _ _ Hwf _ _ _ Hl Hlr). }
  destruct (set_referenced_wf t (rs_handle s) ref_ofs Hwf Hlr) as (Wr & Vr & e3 & e3' & L3 & U3 & B3 & N3 & R3).
  rewrite L3 in He2. injection He2 as <-.
  destruct (wf_lookup_Some _ _ _ _ Hwf Hlr) as (e4 & He4 & Hlk4).
  set (name' := if e_indirect e then e_name e else if bool_decide (h >= nt_num_static t) then nm h else []).
  set (en := mkEntry (e_referenced e) name' (e_alloc_len e) (VIndirect s)).
  assert (Heq : set_referenced (nv_table_set_indirect_entry t h ofs e (nm h) s) ref_ofs =
    set_entry (set_referenced t ref_ofs) ofs en).
  { rewrite (set_referenced_eq t ref_ofs e4 He4). unfold set_referenced, nv_table_set_indirect_entry. simpl.
    rewrite lookup_insert_ne, He4 by done. unfold set_entry, set_heap. simpl. f_equal.
    by rewrite insert_insert_ne. }
  rewrite Heq. eapply stored_ref_trans; [exact Vr|].
  assert (Hl' : link (set_referenced t ref_ofs) h = Some ofs) by (rewrite (set_referenced_eq t ref_ofs e4 He4); done).
  assert (Hnm : lenZ name' <= lenZ (nm h)).
  { unfold name'. destruct (e_indirect e); [|case_bool; [done|rewrite lenZ_nil; apply lenZ_nonneg]].
    apply (lookup_name nm t h); [done|]. by rewrite nv_lookup_link, Hl. }
  assert (Hn' : no_refs (set_referenced t ref_ofs) h).
  { intros h1 e1 s1. rewrite U3. case_decide as Hd; [|apply Hn]. intros [= <-]. rewrite B3. by apply Hn with h1; subst. }
  apply (updated_indirect_stored _ _ _ en s w); try done.
  - eapply (set_entry_wf nm _ h ofs e); try done.
    + rewrite (set_referenced_eq t ref_ofs e4 He4). simpl. by rewrite lookup_insert_ne.
    + unfold entry_fits; simpl. lia.
    + simpl. split_and!; [done..|]. exists e3'. rewrite U3, decide_True by done. split_and!; [done| |done].
      unfold e_indirect. by rewrite B3, Hw.
  - by apply (updated_set_entry nm).
  - exists e3'. rewrite U3, decide_True by done. split; [done|]. by rewrite B3.
Qed.
Lemma store_reference_new t h s en slot slot' ref_ofs t1 ofs al t2 w :
  nv_wf nm t -> 0 < h < 2 ^ 16 -> slice_ok s -> rs_handle s <> h ->
  nv_table_get_entry t h = (en, slot) -> link t (rs_handle s) = Some ref_ofs -> no_refs t h ->
  (exists e2, nv_lookup t (rs_handle s) = Some e2 /\ e_body e2 = VDirect w) ->
  nv_table_reserve_table_entry t h slot = Some (slot', t1) ->
  nv_table_alloc_value t1 (NV_ENTRY_INDIRECT_HDR + lenZ (nm h) + 1) = Some (ofs, al, t2) ->
  stored_ref t
    (nv_table_set_table_entry
       (set_referenced (nv_table_set_indirect_entry t2 h ofs (mkEntry false [] al (VDirect [])) (nm h) s) ref_ofs)
       h ofs slot') h true (slice_bytes s w).
Proof.
  intros Hwf Hh Hs Hne Hg Hlr Hn (e2 & He2 & Hw) Hr Ha. pose proof (lenZ_nonneg (nm h)) as Hln.
  destruct (set_referenced_wf t (rs_handle s) ref_ofs Hwf Hlr) as (Wr & Vr & e3 & e3' & L3 & U3 & B3 & N3 & R3).
  rewrite L3 in He2. injection He2 as <-.
  destruct (wf_lookup_Some _ _ _ _ Hwf Hlr) as (e4 & He4 & Hlk4).
  set (name' := if bool_decide (h >= nt_num_static t2) then nm h else []).
  set (ne := mkEntry false name' al (VIndirect s)).
  pose proof (install_spec nm t h en slot slot' t1 (NV_ENTRY_INDIRECT_HDR + lenZ (nm h) + 1) ofs al t2 ne Hwf Hh Hg
    ltac:(unfold NV_ENTRY_INDIRECT_HDR; lia) Hr Ha eq_refl) as (Hin & Hnal & Hheap & _).
  set (hp := nt_heap (set_referenced t ref_ofs)).
  assert (Hsr : set_referenced t ref_ofs = set_heap t hp).
  { unfold hp. rewrite (set_referenced_eq t ref_ofs e4 He4). done. }
  assert (Hoo : ofs <> ref_ofs).
  { pose proof (wf_entry _ _ Hwf _ _ He4). destruct (in_alloc _ _ _ _ _ Hin) as (? & ? & _). lia. }
  assert (Hg' : nv_table_get_entry (set_heap t hp) h = (en, slot)) by exact Hg.
  assert (Hr' : nv_table_reserve_table_entry (set_heap t hp) h slot = Some (slot', set_heap t1 hp)).
  { by rewrite reserve_set_heap, Hr. }
  assert (Ha' : nv_table_alloc_value (set_heap t1 hp) (NV_ENTRY_INDIRECT_HDR + lenZ (nm h) + 1)
    = Some (ofs, al, set_heap t2 hp)) by (by rewrite alloc_value_set_heap, Ha).
  rewrite Hsr in Wr, Vr, U3.
  pose proof (install_spec nm (set_heap t hp) h en slot slot' (set_heap t1 hp) (NV_ENTRY_INDIRECT_HDR + lenZ (nm h) + 1) ofs al (set_heap t2 hp) ne Wr Hh Hg'
    ltac:(unfold NV_ENTRY_INDIRECT_HDR; lia) Hr' Ha' eq_refl) as (Hin' & _ & _ & _).
  assert (Heq : set_referenced (nv_table_set_indirect_entry t2 h ofs (mkEntry false [] al (VDirect [])) (nm h) s) ref_ofs
    = set_entry (set_heap t2 hp) ofs ne).
  { unfold nv_table_set_indirect_entry, set_referenced. simpl. rewrite lookup_insert_ne, Hheap, He4 by done.
    unfold hp. rewrite (set_referenced_eq t ref_ofs e4 He4). unfold set_entry, set_heap. simpl. f_equal.
    by rewrite insert_insert_ne, Hheap. }
  rewrite Heq. eapply stored_ref_trans; [exact Vr|].
  assert (Hn' : no_refs (set_heap t hp) h).
  { intros h1 e1 s1. rewrite U3. case_decide as Hd; [|apply Hn]. intros [= <-]. rewrite B3. by apply Hn with h1; subst. }
  assert (Hnm : lenZ name' <= lenZ (nm h)) by (unfold name'; case_bool; rewrite ?lenZ_nil; lia).
  apply (updated_indirect_stored _ _ _ ne s w); try done.
  - eapply installed_wf; try done; [unfold entry_fits; simpl; lia|].
    simpl. split_and!; [done..|]. exists e3'. rewrite U3, decide_True by done. split_and!; [done| |done].
    unfold e_indirect. by rewrite B3, Hw.
  - by eapply updated_installed.
  - exists e3'. rewrite U3, decide_True by done. split; [done|]. by rewrite B3.
Qed.

(** Nothing changes for the handles where a reservation alone succeeded. *)
Lemma reserve_only t h en slot slot' t1 v :
  nv_wf nm t -> 0 < h < 2 ^ 16 -> nv_table_get_entry t h = (en, slot) ->
  nv_table_reserve_table_entry t h slot = Some (slot', t1) -> stored_ref t t1 h false v.
Proof.
  intros Hwf Hh Hg Hr. pose proof (reserve_spec nm t h en slot Hwf Hh Hg) as R. rewrite Hr in R.
  destruct R as (Rs & Ru & Rh & Rst & Rk & Rl & Rr & _).
  assert (Hlk : forall h, nv_lookup t1 h = nv_lookup t h).
  { intros h'. by rewrite !nv_lookup_link, Rl, Rh. }
  split; [|intros; by apply same_lookup_value|by apply same_lookup_value].
  apply (same_links_wf nm t); try done. rewrite Rs. apply (wf_size _ _ Hwf).
Qed.

Lemma append_reference_spec t h s ne en slot ref_ofs w :
  nv_wf nm t -> 0 < h < 2 ^ 16 -> slice_ok s -> rs_handle s <> h ->
  nv_table_get_entry t h = (en, slot) -> link t (rs_handle s) = Some ref_ofs -> no_refs t h ->
  (exists e2, nv_lookup t (rs_handle s) = Some e2 /\ e_body e2 = VDirect w) ->
  let '(ok, _, t') := nv_table_append_reference t h (nm h) s ne slot ref_ofs in
  stored_ref t t' h ok (slice_bytes s w).
Proof.
  intros Hwf Hh Hs Hne Hg Hlr Hn He2. unfold nv_table_append_reference.
  destruct (nv_table_reserve_table_entry t h slot) as [[slot' t1]|] eqn:Er; [|by split].
  destruct (nv_table_alloc_value t1 _) as [[[ofs al] t2]|] eqn:Ea.
  - eapply store_reference_new; eauto.
  - eapply reserve_only; eauto.
Qed.

Lemma store_reference_spec t h s ne en slot ref_ofs w :
  nv_wf nm t -> 0 < h < 2 ^ 16 -> slice_ok s -> rs_handle s <> h ->
  nv_table_get_entry t h = (en, slot) -> link t (rs_handle s) = Some ref_ofs -> no_refs t h ->
  (exists e2, nv_lookup t (rs_handle s) = Some e2 /\ e_body e2 = VDirect w) ->
  let '(ok, _, t') := nv_table_store_reference t h (nm h) s ne en slot ref_ofs in
  stored_ref t t' h ok (slice_bytes s w).
Proof.
  intros Hwf Hh Hs Hne Hg Hlr Hn He2. assert (Hlh : link t h = en) by (unfold link; by rewrite Hg).
  unfold nv_table_store_reference. destruct en as [ofs|]; [|by eapply append_reference_spec].
  destruct (wf_lookup_Some _ _ _ _ Hwf Hlh) as (e & He & Hlk). rewrite He.
  case_bool; [|by eapply append_reference_spec]. eapply store_reference_inplace; eauto.
Qed.

(** What a successful call leaves behind the handle: the slice of the
    referenced value, or, where that value does not exist, the old value. *)
Definition ref_value (t : NVTable) (h : Z) (s : NVReferencedSlice) : option (bytes * Z) :=
  match nv_lookup t (rs_handle s), nv_table_get_value t (rs_handle s) with
  | Some _, Some (v, _) => Some (slice_bytes s v, lenZ (slice_bytes s v))
  | _, _ => nv_table_get_value t h
  end.

Definition ref_stored (t t' : NVTable) (h : Z) (s : NVReferencedSlice) (ok : bool) : Prop :=
  nv_wf nm t' /\
  (forall h', h' <> h -> nv_table_get_value t' h' = nv_table_get_value t h') /\
  nv_table_get_value t' h = (if ok then ref_value t h s else nv_table_get_value t h).

Lemma stored_ref_ref_stored t t' h s ok e2 rv n :
  nv_lookup t (rs_handle s) = Some e2 -> nv_table_get_value t (rs_handle s) = Some (rv, n) ->
  stored_ref t t' h ok (slice_bytes s rv) -> ref_stored t t' h s ok.
Proof.
  intros Hl Hv [W O V]. split_and!; [done..|]. rewrite V. unfold ref_value. by rewrite Hl, Hv.
Qed.

Lemma add_value_indirect_spec t h s ne :
  nv_wf nm t -> 0 < h < 2 ^ 16 -> slice_ok s ->
  (forall e, nv_lookup t h = Some e -> negb (e_indirect e) && e_referenced e = false) ->
  (h = rs_handle s -> nv_lookup t h <> None) ->
  exists ok ne' t', nv_table_add_value_indirect t h (nm h) s ne = Ret (ok, ne', t') /\
    ref_stored t t' h s ok.
Proof.
  intros Hwf Hh Hs Hun Hself. unfold nv_table_add_value_indirect.
  assert (Hn : no_refs t h) by (by apply (no_refs_unreferenced nm)).
  destruct (nv_table_get_entry t (rs_handle s)) as [ref_en ref_slot] eqn:Hgr.
  assert (Hlr : link t (rs_handle s) = ref_en) by (unfold link; by rewrite Hgr).
  destruct (get_value_total nm t (rs_handle s) Hwf) as (rv & Hrv & Hrl).
  destruct ref_en as [ref_ofs|]; cycle 1.
  { assert (Hnl : nv_lookup t (rs_handle s) = None) by (by rewrite nv_lookup_link, Hlr).
    rewrite Hnl. simpl. case_bool; [exfalso; apply Hself; congruence|].
    destruct (nv_table_get_entry t h) as [en slot]. eexists _, _, _. split; [done|]. split_and!; [done..|].
    unfold ref_value. by rewrite Hnl. }
  destruct (wf_lookup_Some _ _ _ _ Hwf Hlr) as (e2 & He2 & Hlk2). rewrite Hlk2.
  destruct (e_indirect e2 || bool_decide (h = rs_handle s)) eqn:Ecopy.
  { destruct (copy_referenced_spec t h s (store_new_entry ne false) ref_ofs rv) as (ok & ne' & t' & -> & Hst); [done..|].
    exists ok, ne', t'. split; [done|]. by eapply stored_ref_ref_stored. }
  apply orb_false_iff in Ecopy as [Ei Ene]. apply bool_decide_eq_false in Ene.
  pose proof Ei as [w Hw]%e_indirect_false. pose proof Hrv as Hrv'.
  rewrite (get_value_direct t _ e2 w) in Hrv' by done. injection Hrv' as <- _.
  destruct (nv_table_get_entry t h) as [en slot] eqn:Hg.
  destruct (bool_decide (en = None) && is_null (store_new_entry ne false) && bool_decide (rs_len s = 0)) eqn:Ez.
  { apply andb_true_iff in Ez as [Ez Ev]. apply andb_true_iff in Ez as [Ee _].
    apply bool_decide_eq_true in Ee, Ev. eexists _, _, _. split; [done|]. split_and!; [done..|].
    unfold ref_value. rewrite Hlk2, Hrv. unfold slice_bytes. rewrite Ev, take_0.
    apply get_value_absent. rewrite nv_lookup_link. unfold link. by rewrite Hg, Ee. }
  assert (Href : match nv_lookup t h with Some e => negb (e_indirect e) && e_referenced e | None => false end = false).
  { destruct (nv_lookup t h) as [e|] eqn:El; [by apply Hun|done]. }
  rewrite Href. simpl.
  pose proof (store_reference_spec t h s (store_new_entry ne false) en slot ref_ofs w Hwf Hh Hs) as Hst.
  destruct (nv_table_store_reference _ _ _ _ _ _ _ _) as [[ok ne'] t']. exists ok, ne', t'. split; [done|].
  eapply stored_ref_ref_stored; [done..|]. apply Hst; eauto.
Qed.
End nv.

(** [nv_table_add_value_indirect] tests the result of the iteration that
    makes references direct the wrong way round: storing a reference under a
    handle that is a referenced direct value returns FALSE precisely when that
    iteration succeeded, stores nothing, and leaves the handle in the same
    situation, so that no amount of growing the table makes it succeed. *)
Theorem indirect_over_referenced_fails (nm : Z -> bytes) (t : NVTable) (h : Z) (e e2 : NVEntry)
  (s : NVReferencedSlice) (ne : option bool)
  (Hwf : nv_wf nm t) (He : nv_lookup t h = Some e) (Hi : e_indirect e = false) (Hr : e_referenced e = true)
  (He2 : nv_lookup t (rs_handle s) = Some e2) (Hi2 : e_indirect e2 = false) (Hne : h <> rs_handle s)
  (Hroom : fst (nv_table_foreach_entry t (nv_table_make_direct nv_table_add_value h)) = false) :
  exists ne' t', nv_table_add_value_indirect t h (nm h) s ne = Ret (false, ne', t') /\
    nv_wf nm t' /\ (forall h', nv_table_get_value t' h' = nv_table_get_value t h') /\
    nv_lookup t' h = Some e.
Proof.
  unfold nv_table_add_value_indirect. rewrite He2, Hi2, He, Hi, Hr.
  rewrite bool_decide_false by done. simpl.
  pose proof (make_direct_all nm 1 t h e Hwf He Hi) as Hmd. change (nv_table_add_value_fuel 2) with nv_table_add_value in Hmd.
  destruct (nv_table_get_entry t (rs_handle s)) as [[ro|] rslot] eqn:Hgr; cycle 1.
  { rewrite nv_lookup_link in He2. unfold link in He2. by rewrite Hgr in He2. }
  destruct (nv_table_get_entry t h) as [[o|] slot] eqn:Hg; cycle 1.
  { rewrite nv_lookup_link in He. unfold link in He. by rewrite Hg in He. }
  destruct (nv_table_foreach_entry t _) as [stop t1]. simpl in Hroom. subst stop. destruct Hmd as [HI _].
  eexists _, _. split; [rewrite bool_decide_false by done; reflexivity|].
  split_and!; [apply HI|apply HI|]. destruct (md_direct _ _ _ _ HI) as (e1 & H1 & H2 & _). congruence.
Qed.

(** All cases in which the iteration is not stopped. *)
Lemma add_value_indirect_over (nm : Z -> bytes) (t : NVTable) (h : Z) (s : NVReferencedSlice) (ne : option bool) (e : NVEntry) : nv_wf nm t -> 0 < h < 2 ^ 16 -> slice_ok s -> nv_lookup t h = Some e -> e_indirect e = false -> e_referenced e = true ->
  (forall e2, nv_lookup t (rs_handle s) = Some e2 -> e_indirect e2 = false -> h <> rs_handle s -> fst (nv_table_foreach_entry t (nv_table_make_direct nv_table_add_value h)) = false) ->
  exists ok ne' t', nv_table_add_value_indirect t h (nm h) s ne = Ret (ok, ne', t') /\ nv_wf nm t'.
Proof.
  intros Hwf Hh Hs He Hi Hr Hgo. destruct (nv_lookup t (rs_handle s)) as [e2|] eqn:He2.
  - destruct (e_indirect e2 || bool_decide (h = rs_handle s)) eqn:Ec; cycle 1.
    + apply orb_false_iff in Ec as [Hi2 Hne%bool_decide_eq_false]. destruct (indirect_over_referenced_fails nm t h e e2 s ne Hwf He Hi Hr He2 Hi2 Hne (Hgo e2 eq_refl Hi2 Hne)) as (ne' & t' & E & W & _). by exists false, ne', t'.
    + unfold nv_table_add_value_indirect. destruct (nv_table_get_entry t (rs_handle s)) as [[ro|] rslot] eqn:Hgr; cycle 1; [rewrite nv_lookup_link in He2; unfold link in He2; by rewrite Hgr in He2|].
      rewrite He2, Ec. destruct (get_value_total nm t (rs_handle s) Hwf) as (rv & Hrv & Hrl). assert (Hlr : link t (rs_handle s) = Some ro) by (unfold link; by rewrite Hgr).
      destruct (copy_referenced_spec nm t h s (store_new_entry ne false) ro rv) as (ok & ne' & t' & -> & Hst); [done..|]. exists ok, ne', t'. split; [done|]. by destruct Hst.
  - unfold nv_table_add_value_indirect. destruct (nv_table_get_entry t (rs_handle s)) as [[ro|] rslot] eqn:Hgr; [exfalso|]. { destruct (wf_lookup_Some nm t (rs_handle s) ro Hwf) as (x & _ & Hx); [unfold link; by rewrite Hgr|]. congruence. }
    rewrite He2. cbn. rewrite bool_decide_false by (intros ->; congruence). destruct (nv_table_get_entry t h). by eexists _, _, _.
Qed.

(** ** Reachable tables *)

Section reachable.
Context (nm : Z -> bytes).

(** A reference is stored over a value that others refer to, although not all of those could be given values of
    their own: nvtable.c:540 tests the result of that iteration the wrong way round and goes on. *)
Definition overwrites_referenced (t : NVTable) (h : Z) (s : NVReferencedSlice) : bool :=
  match nv_lookup t h, nv_lookup t (rs_handle s) with
  | Some e, Some e2 =>
      negb (e_indirect e) && e_referenced e && negb (e_indirect e2) && bool_decide (h <> rs_handle s) &&
      fst (nv_table_foreach_entry t (nv_table_make_direct nv_table_add_value h))
  | _, _ => false
  end.

(** The calls the rest of the program makes, with handles of 16 bits (nvtable.c:286 searches with such), each under its name. *)
Inductive nv_step : NVTable -> NVTable -> Prop :=
| step_add t h v ne ok ne' t' :
    0 < h < 2 ^ 16 -> nv_table_add_value t h (nm h) v ne = (ok, ne', t') -> nv_step t t'
| step_add_indirect t h s ne ok ne' t' :
    0 < h < 2 ^ 16 -> slice_ok s ->
    overwrites_referenced t h s = false ->
    nv_table_add_value_indirect t h (nm h) s ne = Ret (ok, ne', t') -> nv_step t t'
| step_realloc t t' old : nv_table_realloc t = Some (t', old) -> nv_step t t'
| step_clone t extra : 0 <= extra < 2 ^ 30 -> nv_step t (nv_table_clone t extra)
| step_ref t : nv_step t (nv_table_ref t)
| step_unref t : nv_step t (fst (nv_table_unref t)).

Inductive nv_reachable : NVTable -> Prop :=
| reach_new num_static num_dyn init_length :
    0 <= num_static < 2 ^ 8 -> 0 <= num_dyn -> 0 <= init_length ->
    nv_reachable (nv_table_new num_static num_dyn init_length)
| reach_borrowed space_len num_static t :
    0 <= num_static < 2 ^ 8 -> nv_table_init_borrowed space_len num_static = Ret t -> nv_reachable t
| reach_step t t' : nv_reachable t -> nv_step t t' -> nv_reachable t'.

Lemma self_reference_absent_aborts t h s ne :
  keys_wf t -> h = rs_handle s -> nv_lookup t h = None -> (forall o, link t h = Some o -> False) ->
  nv_table_add_value_indirect t h (nm h) s ne = Abort.
Proof.
  intros Hk -> Hl Hno. unfold nv_table_add_value_indirect.
  destruct (nv_table_get_entry t (rs_handle s)) as [[o|] slot] eqn:Hg.
  { exfalso. apply (Hno o). unfold link. by rewrite Hg. }
  rewrite Hl. simpl. by rewrite bool_decide_true.
Qed.

Lemma nv_step_wf t t' : nv_wf nm t -> nv_step t t' -> nv_wf nm t'.
Proof.
  intros Hwf Hs. destruct Hs as [t h v ne ok ne' t' Hh Ha|t h s ne ok ne' t' Hh Hsl Hun Ha|t t' old Hr|t extra He|t|t].
  - pose proof (add_value_fuel_spec nm 0 t h v ne Hwf Hh) as H.
    change (nv_table_add_value_fuel 2) with nv_table_add_value in H. rewrite Ha in H. tauto.
  - destruct (decide (h = rs_handle s /\ nv_lookup t h = None)) as [[Heq Hnone]|Hself].
    + rewrite self_reference_absent_aborts in Ha; try done; [apply Hwf|].
      intros o Hl. destruct (wf_lookup_Some _ _ _ _ Hwf Hl) as (e & _ & He). congruence.
    + assert ((exists e, nv_lookup t h = Some e /\ e_indirect e = false /\ e_referenced e = true) \/ forall e, nv_lookup t h = Some e -> negb (e_indirect e) && e_referenced e = false) as [(e & He & Hi & Hrf)|Hn].
      { destruct (nv_lookup t h) as [e|]; [|right; by intros e [=]]. destruct (e_indirect e) eqn:Hi; [right; intros ? [= <-]; by rewrite Hi|]. destruct (e_referenced e) eqn:Hrf; [left; by exists e|right]. intros ? [= <-]. by rewrite Hrf, andb_false_r. }
      * destruct (add_value_indirect_over nm t h s ne e Hwf Hh Hsl He Hi Hrf) as (ok1 & ne1 & t1 & Heq & Hr).
        { intros e2 He2 Hi2 Hne. unfold overwrites_referenced in Hun. rewrite He, He2, Hi, Hrf, Hi2, bool_decide_true in Hun by done. exact Hun. }
        rewrite Ha in Heq. injection Heq as <- <- <-. apply Hr.
      * destruct (add_value_indirect_spec nm t h s ne) as (ok1 & ne1 & t1 & Heq & Hr); [done..|by intros ??; apply Hself|].
        rewrite Ha in Heq. injection Heq as <- <- <-. apply Hr.
  - by eapply nv_table_realloc_spec.
  - by apply nv_table_clone_spec.
  - by apply (resize_spec nm t (nt_size t)); [|split; [done|apply Hwf]].
  - by apply (resize_spec nm t (nt_size t)); [|split; [done|apply Hwf]].
Qed.

Lemma alloc_size_room num_static num_dyn init_length :
  0 <= num_static < 2 ^ 8 -> 0 <= num_dyn -> 0 <= init_length ->
  OFFSETOF_NVTABLE_DATA + num_static * SIZEOF_STATIC <= nv_table_get_alloc_size num_static num_dyn init_length.
Proof.
  intros H1 H2 H3. unfold nv_table_get_alloc_size, OFFSETOF_NVTABLE_DATA, SIZEOF_STATIC, SIZEOF_NVTABLE, SIZEOF_NVDYNVALUE, NV_TABLE_MAX_BYTES.
  pose proof (NV_TABLE_BOUND_ge init_length). pose proof (NV_TABLE_BOUND_ge (16 + num_static * 4 + num_dyn * 8)).
  repeat case_bool; lia.
Qed.

Lemma init_borrowed_wf space_len num_static t : 0 <= num_static < 2 ^ 8 -> nv_table_init_borrowed space_len num_static = Ret t -> nv_wf nm t.
Proof.
  intros Hns Ht. unfold nv_table_init_borrowed in Ht. destruct (g_assert _) as [[]|] eqn:Ea; [|done].
  unfold g_assert in Ea. case_if_in Ea; [|done]. apply bool_decide_eq_true in E. injection Ht as <-.
  assert (Hwf : nv_wf nm (nv_table_init (NV_TABLE_BOUND (Z.land space_len (Z.lnot 3))) num_static)).
  { pose proof (NV_TABLE_BOUND_ge (Z.land space_len (Z.lnot 3))). apply nv_table_init_wf; [|done].
    unfold OFFSETOF_NVTABLE_DATA, SIZEOF_STATIC, SIZEOF_NVTABLE in *. lia. }
  apply (resize_spec nm _ (nt_size (nv_table_init (NV_TABLE_BOUND (Z.land space_len (Z.lnot 3))) num_static)) 1 true Hwf).
  split; [done|apply Hwf].
Qed.

(** C2: every table that is built by creating it, storing values and references, growing, copying, taking and dropping
    counts keeps the layout invariant: the offset tables and the entries stay inside the block and apart from each
    other, no two entries overlap, every entry's header, name and value fit in
    the bytes it owns, the dynamic slots are sorted by handle, distinct handles
    own distinct entries, and every reference leads to a direct entry marked as
    referenced.  Handles are from 1 to 65535, each stored under one name.  One call is left out: a reference stored over
    a value that others refer to, when there is no room to give those values of their own; nvtable.c:540 goes on
    then, and the invariant is lost (indirect_over_referenced_two_deep). *)
Theorem nv_table_reachable_wf (t : NVTable) (Hr : nv_reachable t) : nv_wf nm t.
Proof.
  induction Hr as [ns nd il Hns Hnd Hil|sl ns t Hns Ht|t t' _ IH Hs].
  - apply nv_table_init_wf; [by apply alloc_size_room|done].
  - by eapply init_borrowed_wf.
  - by eapply nv_step_wf.
Qed.

End reachable.

(** Names for the witnesses: the decimal digits do not matter, any short name does. *)
Definition demo_name (h : Z) : bytes := bytes_of_string "demo".

Definition demo_table : NVTable :=
  snd (nv_table_add_value (nv_table_new 9 16 256) 3 (demo_name 3) (bytes_of_string "hello") None).

Lemma demo_table_reachable : nv_reachable demo_name demo_table.
Proof.
  eapply reach_step; [apply (reach_new _ 9 16 256); lia|].
  eapply (step_add _ _ 3 (bytes_of_string "hello") None true None); [lia|vm_compute; reflexivity].
Qed.

Lemma nv_table_reachable_wf_witness : nv_wf demo_name demo_table.
Proof. apply nv_table_reachable_wf. apply demo_table_reachable. Defined.

(** C3: storing a value.  On a well-formed table [nv_table_add_value] stores
    exactly the given bytes (cut at 256 MB) under the handle when it returns
    TRUE and leaves the value as it was when it returns FALSE, and in both cases
    every other handle keeps its value, the ones that referred to the
    overwritten value included. *)
Theorem nv_table_add_value_correct (nm : Z -> bytes) (t : NVTable) (h : Z) (v : bytes) (ne : option bool)
  (Hwf : nv_wf nm t) (Hh : 0 < h < 2 ^ 16) :
  let '(ok, _, t') := nv_table_add_value t h (nm h) v ne in
  nv_wf nm t' /\
  (forall h', h' <> h -> nv_table_get_value t' h' = nv_table_get_value t h') /\
  nv_table_get_value t' h =
    (if ok then Some (truncate_value v, lenZ (truncate_value v)) else nv_table_get_value t h).
Proof. exact (add_value_fuel_spec nm 0 t h v ne Hwf Hh). Qed.

Lemma demo_table_wf : nv_wf demo_name demo_table.
Proof.
  apply (nv_step_wf _ (nv_table_new 9 16 256)); [apply nv_table_init_wf; [vm_compute; discriminate|lia]|].
  eapply (step_add _ _ 3 (bytes_of_string "hello") None true None); [lia|vm_compute; reflexivity].
Qed.

Lemma nv_table_add_value_correct_witness :
  let '(ok, _, t') := nv_table_add_value demo_table 20 (demo_name 20) (bytes_of_string "x") (Some false) in
  nv_wf demo_name t' /\
  (forall h', h' <> 20 -> nv_table_get_value t' h' = nv_table_get_value demo_table h') /\
  nv_table_get_value t' 20 =
    (if ok then Some (truncate_value (bytes_of_string "x"), lenZ (truncate_value (bytes_of_string "x")))
     else nv_table_get_value demo_table 20).
Proof. apply (nv_table_add_value_correct demo_name demo_table 20); [apply demo_table_wf|lia]. Defined.

(** storing a reference.  Where the handle is not itself a referenced direct
    value and does not refer to itself while unset, the call returns; on TRUE
    the handle denotes the addressed slice of the referenced value (clipped to
    its end), or keeps its value when there is nothing to refer to; on FALSE it
    keeps its value; every other handle keeps its value and the table stays
    well-formed. *)
Theorem nv_table_add_value_indirect_correct (nm : Z -> bytes) (t : NVTable) (h : Z)
  (s : NVReferencedSlice) (ne : option bool)
  (Hwf : nv_wf nm t) (Hh : 0 < h < 2 ^ 16) (Hs : slice_ok s)
  (Hun : forall e, nv_lookup t h = Some e -> negb (e_indirect e) && e_referenced e = false)
  (Hself : h = rs_handle s -> nv_lookup t h <> None) :
  exists ok ne' t', nv_table_add_value_indirect t h (nm h) s ne = Ret (ok, ne', t') /\
    nv_wf nm t' /\
    (forall h', h' <> h -> nv_table_get_value t' h' = nv_table_get_value t h') /\
    nv_table_get_value t' h = (if ok then ref_value t h s else nv_table_get_value t h).
Proof. exact (add_value_indirect_spec nm t h s ne Hwf Hh Hs Hun Hself). Qed.

Definition demo_slice : NVReferencedSlice := mkSlice 3 1 3 0.

Lemma nv_table_add_value_indirect_correct_witness :
  exists ok ne' t', nv_table_add_value_indirect demo_table 20 (demo_name 20) demo_slice None = Ret (ok, ne', t') /\
    nv_wf demo_name t' /\
    (forall h', h' <> 20 -> nv_table_get_value t' h' = nv_table_get_value demo_table h') /\
    nv_table_get_value t' 20 = (if ok then ref_value demo_table 20 demo_slice else nv_table_get_value demo_table 20).
Proof.
  apply nv_table_add_value_indirect_correct; [apply demo_table_wf|lia|unfold slice_ok; simpl; lia| |].
  - intros e He. vm_compute in He. discriminate He.
  - intros He. vm_compute in He. discriminate He.
Defined.

(** The reference above is stored and reads back "ell". *)
Example demo_reference :
  match nv_table_add_value_indirect demo_table 20 (demo_name 20) demo_slice None with
  | Ret (ok, _, t') => ok = true /\ nv_table_get_value t' 20 = Some (bytes_of_string "ell", 3)
  | Abort => False
  end.
Proof. vm_compute. split; reflexivity. Qed.

(** growing and cloning.  [nv_table_realloc] fails exactly at the 256 MB
    limit and otherwise doubles the block up to that limit; it and
    [nv_table_clone] keep the table well-formed and every value as it was. *)
Theorem nv_table_move_preserves_values (nm : Z -> bytes) (t : NVTable) (extra : Z)
  (Hwf : nv_wf nm t) (Hx : 0 <= extra < 2 ^ 30) :
  (nv_table_realloc t = None <-> nt_size t = NV_TABLE_MAX_BYTES) /\
  (forall t' old, nv_table_realloc t = Some (t', old) ->
     nt_size t' = Z.min (2 * nt_size t) NV_TABLE_MAX_BYTES /\ nv_wf nm t' /\
     forall h, nv_table_get_value t' h = nv_table_get_value t h) /\
  nv_wf nm (nv_table_clone t extra) /\
  (forall h, nv_table_get_value (nv_table_clone t extra) h = nv_table_get_value t h).
Proof.
  pose proof (realloc_size nm t Hwf) as Hr. split; [|split; [|by apply nv_table_clone_spec]].
  - destruct (nv_table_realloc t) as [[t' old]|]; [|done]. split; [done|]. destruct Hr as (? & ? & _). lia.
  - intros t' old Ht. pose proof (nv_table_realloc_spec nm t t' old Hwf Ht). rewrite Ht in Hr. tauto.
Qed.

Lemma nv_table_move_preserves_values_witness :
  nv_wf demo_name (nv_table_clone demo_table 16) /\
  (forall h, nv_table_get_value (nv_table_clone demo_table 16) h = nv_table_get_value demo_table h).
Proof. apply (nv_table_move_preserves_values demo_name demo_table 16 demo_table_wf). lia. Defined.

(** lookups and stores always finish: on a well-formed table a reference is
    followed at most once and a store converts references without storing
    through further ones, so any larger bound on the recursion gives the same
    result, and every handle has a value whose length is the returned length. *)
Theorem nv_table_recursion_bounded (nm : Z -> bytes) (t : NVTable) (h : Z) (name v : bytes)
  (ne : option bool) (n : nat) (Hwf : nv_wf nm t) :
  nv_table_get_value_fuel (S (S n)) t h = nv_table_get_value t h /\
  (exists w, nv_table_get_value t h = Some (w, lenZ w)) /\
  nv_table_add_value_fuel (S (S n)) t h name v ne = nv_table_add_value t h name v ne.
Proof.
  split_and!; [|destruct (get_value_total nm t h Hwf) as (w & Hw & _); eauto|by apply (add_value_fuel_enough nm)].
  unfold nv_table_get_value. simpl. destruct (nv_lookup t h) as [e|] eqn:El; [|done].
  destruct (e_body e) as [|s] eqn:Eb; [done|].
  destruct (wf_ref _ _ Hwf _ _ _ El Eb) as (_ & e' & He' & Hi & _).
  apply e_indirect_false in Hi as [w Hw]. by rewrite He', Hw.
Qed.

Lemma nv_table_recursion_bounded_witness :
  nv_table_get_value_fuel 5 demo_table 3 = nv_table_get_value demo_table 3 /\
  (exists w, nv_table_get_value demo_table 3 = Some (w, lenZ w)) /\
  nv_table_add_value_fuel 5 demo_table 3 (demo_name 3) [] None = nv_table_add_value demo_table 3 (demo_name 3) [] None.
Proof. apply (nv_table_recursion_bounded demo_name demo_table 3 (demo_name 3) [] None 3 demo_table_wf). Defined.

(** ** Where the code departs from its intent *)

(** [nv_table_reserve_table_entry] reads the handles it searches through a
    16 bit variable: storing a value under handle 20 while a value is stored
    under handle 65556 (= 65536 + 20) takes over its slot, and the other value
    is lost although both stores return TRUE. *)
Theorem nv_table_handle_truncation_loses_value :
  let t0 := nv_table_new 9 16 256 in
  let '(ok1, _, t1) := nv_table_add_value t0 65556 (demo_name 65556) (bytes_of_string "lost") None in
  let '(ok2, _, t2) := nv_table_add_value t1 20 (demo_name 20) (bytes_of_string "kept") None in
  ok1 = true /\ ok2 = true /\
  nv_table_get_value t1 65556 = Some (bytes_of_string "lost", 4) /\
  nv_table_get_value t2 20 = Some (bytes_of_string "kept", 4) /\
  nv_table_get_value t2 65556 = Some null_value.
Proof. vm_compute. repeat split. Qed.

(** A table where handle 3 is referred to by handle 20. *)
Definition demo_referenced : NVTable :=
  match nv_table_add_value_indirect
          (snd (nv_table_add_value demo_table 4 (demo_name 4) (bytes_of_string "prog") None))
          20 (demo_name 20) demo_slice None with
  | Ret (_, _, t) => t
  | Abort => demo_table
  end.

Lemma demo_referenced_wf : nv_wf demo_name demo_referenced.
Proof.
  eapply nv_step_wf; [eapply nv_step_wf; [apply demo_table_wf|]|].
  - eapply (step_add _ _ 4 (bytes_of_string "prog") None true None); [lia|vm_compute; reflexivity].
  - eapply (step_add_indirect _ _ 20 demo_slice None true None); [lia|unfold slice_ok; simpl; lia| |vm_compute; reflexivity].
    vm_compute. reflexivity.
Qed.

Lemma indirect_over_referenced_fails_witness :
  exists e, nv_lookup demo_referenced 3 = Some e /\
  exists ne' t', nv_table_add_value_indirect demo_referenced 3 (demo_name 3) (mkSlice 4 0 2 0) None = Ret (false, ne', t') /\
    nv_wf demo_name t' /\ (forall h', nv_table_get_value t' h' = nv_table_get_value demo_referenced h') /\
    nv_lookup t' 3 = Some e.
Proof.
  eexists; split; [vm_compute; reflexivity|].
  eapply (indirect_over_referenced_fails demo_name demo_referenced 3);
    [apply demo_referenced_wf|vm_compute; reflexivity|reflexivity|reflexivity|vm_compute; reflexivity|reflexivity|discriminate|vm_compute; reflexivity].
Defined.

(** A full table where handle 20 refers to handle 3. *)
Definition demo_full : NVTable :=
  let t := nv_table_new 9 3 80 in
  let t := snd (nv_table_add_value t 3 (demo_name 3) (bytes_of_string "a long value to refer to") None) in
  let t := snd (nv_table_add_value t 4 (demo_name 4) (bytes_of_string "prog") None) in
  match nv_table_add_value_indirect t 20 (demo_name 20) (mkSlice 3 0 24 0) None with Ret (_, _, t) => t | Abort => t end.

Lemma demo_full_reachable : nv_reachable demo_name demo_full.
Proof.
  eapply reach_step; [eapply reach_step; [eapply reach_step; [apply (reach_new _ 9 3 80); lia|]|]|].
  - eapply (step_add _ _ 3 (bytes_of_string "a long value to refer to") None true None); [lia|vm_compute; reflexivity].
  - eapply (step_add _ _ 4 (bytes_of_string "prog") None true None); [lia|vm_compute; reflexivity].
  - eapply (step_add_indirect _ _ 20 (mkSlice 3 0 24 0) None true None); [lia|unfold slice_ok; simpl; lia|vm_compute; reflexivity|vm_compute; reflexivity].
Qed.

(** What [overwrites_referenced] excludes: the call returns TRUE, the reference of handle 20 is two deep
    then, and the value of 20 is changed with that of 3. *)
Theorem indirect_over_referenced_two_deep :
  overwrites_referenced demo_full 3 (mkSlice 4 1 2 0) = true /\ nv_table_get_value demo_full 20 = Some (bytes_of_string "a long value to refer to", 24) /\
  exists t, nv_table_add_value_indirect demo_full 3 (demo_name 3) (mkSlice 4 1 2 0) None = Ret (true, None, t) /\
    nv_table_get_value_fuel 3 t 20 = Some (bytes_of_string "ro", 2) /\ ~ nv_wf demo_name t.
Proof.
  split; [vm_compute; reflexivity|]. split; [vm_compute; reflexivity|]. eexists. split; [vm_compute; reflexivity|]. split; [vm_compute; reflexivity|].
  intros Hwf. destruct (get_value_total _ _ 20 Hwf) as (w & Hw & _). vm_compute in Hw. discriminate Hw.
Qed.

(** [nv_table_clone] enlarges the copy only where the original already has
    the requested room: a table short of room yields a clone that is exactly as
    short, contrary to the description of [additional_space]. *)
Theorem nv_table_clone_adds_no_room (nm : Z -> bytes) (t : NVTable) (extra : Z)
  (Hwf : nv_wf nm t) (Hx : 0 <= extra < 2 ^ 30) (Hshort : free_space t < extra) :
  free_space (nv_table_clone t extra) = free_space t /\ free_space (nv_table_clone t extra) < extra.
Proof. rewrite (clone_resize nm) by done. rewrite bool_decide_true by done. done. Qed.

Lemma nv_table_clone_adds_no_room_witness :
  free_space (nv_table_clone demo_table 1000) = free_space demo_table /\
  free_space (nv_table_clone demo_table 1000) < 1000.
Proof.
  apply (nv_table_clone_adds_no_room demo_name demo_table 1000 demo_table_wf); [lia|vm_compute; reflexivity].
Defined.
