(* ===== verification/LogMsgRef.v ===== *)
(** * Reference and acknowledgement counters of a message (lib/logmsg.c)

    One 32 bit word of a [LogMessage] packs the reference counter (15 bits),
    the acknowledgement counter (15 bits) and the abort and suspend flags.  A
    thread that works on a message caches its changes in thread local
    variables between [log_msg_refcache_start_*] and [log_msg_refcache_stop].

    The operations act on the thread local block of the calling thread and on
    the shared word.  Freeing the message is recorded in [freed]; [ack_func],
    the callback a message carries, is a parameter. *)
From S2P Require Import Prelude.

Inductive AckType := AT_UNDEFINED | AT_PROCESSED | AT_ABORTED | AT_SUSPENDED.

#[global] Instance AckType_eq_dec : EqDecision AckType.
Proof. solve_decision. Defined.
#[global] Arguments AckType_eq_dec : simpl never.

Definition IS_ACK_ABORTED (x : AckType) : Z := if bool_decide (x = AT_ABORTED) then 1 else 0.
Definition IS_ACK_SUSPENDED (x : AckType) : Z := if bool_decide (x = AT_SUSPENDED) then 1 else 0.
Definition IS_ABORTFLAG_ON (x : Z) : bool := bool_decide (x = 1).
Definition IS_SUSPENDFLAG_ON (x : Z) : bool := bool_decide (x = 1).

Record LogPathOptions := mkLogPathOptions {
  ack_needed : bool;
  flow_control_requested : bool
}.

(** ** The packed word *)

Definition LOGMSG_REFCACHE_SUSPEND_SHIFT : Z := 31.
Definition LOGMSG_REFCACHE_SUSPEND_MASK : Z := 0x80000000.
Definition LOGMSG_REFCACHE_ABORT_SHIFT : Z := 30.
Definition LOGMSG_REFCACHE_ABORT_MASK : Z := 0x40000000.
Definition LOGMSG_REFCACHE_ACK_SHIFT : Z := 15.
Definition LOGMSG_REFCACHE_ACK_MASK : Z := 0x3FFF8000.
Definition LOGMSG_REFCACHE_REF_SHIFT : Z := 0.
Definition LOGMSG_REFCACHE_REF_MASK : Z := 0x00007FFF.
Definition LOGMSG_REFCACHE_BIAS : Z := 0x00002000.

Definition LOGMSG_REFCACHE_REF_TO_VALUE (x : Z) : Z :=
  Z.land (Z.shiftl x LOGMSG_REFCACHE_REF_SHIFT) LOGMSG_REFCACHE_REF_MASK.
Definition LOGMSG_REFCACHE_ACK_TO_VALUE (x : Z) : Z :=
  Z.land (Z.shiftl x LOGMSG_REFCACHE_ACK_SHIFT) LOGMSG_REFCACHE_ACK_MASK.
Definition LOGMSG_REFCACHE_ABORT_TO_VALUE (x : Z) : Z :=
  Z.land (Z.shiftl x LOGMSG_REFCACHE_ABORT_SHIFT) LOGMSG_REFCACHE_ABORT_MASK.
Definition LOGMSG_REFCACHE_SUSPEND_TO_VALUE (x : Z) : Z :=
  Z.land (Z.shiftl x LOGMSG_REFCACHE_SUSPEND_SHIFT) LOGMSG_REFCACHE_SUSPEND_MASK.

Definition LOGMSG_REFCACHE_VALUE_TO_REF (x : Z) : Z :=
  Z.shiftr (Z.land x LOGMSG_REFCACHE_REF_MASK) LOGMSG_REFCACHE_REF_SHIFT.
Definition LOGMSG_REFCACHE_VALUE_TO_ACK (x : Z) : Z :=
  Z.shiftr (Z.land x LOGMSG_REFCACHE_ACK_MASK) LOGMSG_REFCACHE_ACK_SHIFT.
Definition LOGMSG_REFCACHE_VALUE_TO_ABORT (x : Z) : Z :=
  Z.shiftr (Z.land x LOGMSG_REFCACHE_ABORT_MASK) LOGMSG_REFCACHE_ABORT_SHIFT.
Definition LOGMSG_REFCACHE_VALUE_TO_SUSPEND (x : Z) : Z :=
  Z.shiftr (Z.land x LOGMSG_REFCACHE_SUSPEND_MASK) LOGMSG_REFCACHE_SUSPEND_SHIFT.

Definition _ack_and_ref_and_abort_and_suspend_to_acktype (value : Z) : AckType :=
  if IS_SUSPENDFLAG_ON (LOGMSG_REFCACHE_VALUE_TO_SUSPEND value) then AT_SUSPENDED
  else if IS_ABORTFLAG_ON (LOGMSG_REFCACHE_VALUE_TO_ABORT value) then AT_ABORTED
  else AT_PROCESSED.

(** The value the compare-and-exchange loop installs over [old_value]. *)
Definition updated_word (old_value add_ref add_ack add_abort add_suspend : Z) : Z :=
  let new_value := old_value in
  let new_value := Z.land new_value (Z.lnot LOGMSG_REFCACHE_REF_MASK) +
    LOGMSG_REFCACHE_REF_TO_VALUE (LOGMSG_REFCACHE_VALUE_TO_REF old_value + add_ref) in
  let new_value := Z.land new_value (Z.lnot LOGMSG_REFCACHE_ACK_MASK) +
    LOGMSG_REFCACHE_ACK_TO_VALUE (LOGMSG_REFCACHE_VALUE_TO_ACK old_value + add_ack) in
  let new_value := Z.land new_value (Z.lnot LOGMSG_REFCACHE_ABORT_MASK) +
    LOGMSG_REFCACHE_ABORT_TO_VALUE (Z.lor (LOGMSG_REFCACHE_VALUE_TO_ABORT old_value) add_abort) in
  Z.land new_value (Z.lnot LOGMSG_REFCACHE_SUSPEND_MASK) +
    LOGMSG_REFCACHE_SUSPEND_TO_VALUE (Z.lor (LOGMSG_REFCACHE_VALUE_TO_SUSPEND old_value) add_suspend).

#[global] Arguments updated_word : simpl never.
#[global] Arguments LOGMSG_REFCACHE_VALUE_TO_REF : simpl never.
#[global] Arguments LOGMSG_REFCACHE_VALUE_TO_ACK : simpl never.
#[global] Arguments _ack_and_ref_and_abort_and_suspend_to_acktype : simpl never.

(** ** State *)

(** The thread local block; pointers to messages are addresses. *)
Record TLS := mkTLS {
  logmsg_current : option Z;
  logmsg_cached_ack_needed : bool;
  logmsg_cached_refs : Z;
  logmsg_cached_acks : Z;
  logmsg_cached_abort : bool;
  logmsg_cached_suspend : bool
}.

Definition tls_init : TLS := mkTLS None false 0 0 false false.

(** The counted part of a message, with the calls of its [ack_func] and
    whether it was freed. *)
Record Counted := mkCounted {
  ack_and_ref_and_abort_and_suspended : Z;
  acked : list AckType;
  freed : bool
}.

Record rstate := mkRState { st_tls : TLS; st_msg : Counted }.

Definition is_current (tls : TLS) (self : Z) : bool := bool_decide (logmsg_current tls = Some self).

Definition set_word (m : Counted) (w : Z) : Counted := mkCounted w (acked m) (freed m).

Definition log_msg_free (st : rstate) : rstate :=
  let m := st_msg st in
  mkRState (st_tls st) (mkCounted (ack_and_ref_and_abort_and_suspended m) (acked m) true).

Definition add_cached_refs (tls : TLS) (d : Z) : TLS :=
  mkTLS (logmsg_current tls) (logmsg_cached_ack_needed tls) (s32 (logmsg_cached_refs tls + d))
        (logmsg_cached_acks tls) (logmsg_cached_abort tls) (logmsg_cached_suspend tls).

Definition add_cached_acks (tls : TLS) (d : Z) (abort suspend : bool) : TLS :=
  mkTLS (logmsg_current tls) (logmsg_cached_ack_needed tls) (logmsg_cached_refs tls)
        (s32 (logmsg_cached_acks tls + d))
        (logmsg_cached_abort tls || abort) (logmsg_cached_suspend tls || suspend).

Definition log_msg_update_ack_and_ref_and_abort_and_suspended
    (st : rstate) (add_ref add_ack add_abort add_suspend : Z) : Z * rstate :=
  let old_value := ack_and_ref_and_abort_and_suspended (st_msg st) in
  (old_value, mkRState (st_tls st)
     (set_word (st_msg st) (updated_word old_value add_ref add_ack add_abort add_suspend))).

Definition log_msg_update_ack_and_ref (st : rstate) (add_ref add_ack : Z) : Z * rstate :=
  log_msg_update_ack_and_ref_and_abort_and_suspended st add_ref add_ack 0 0.

(** ** Operations *)

Section operations.
Context (self : Z) (ack_func : AckType -> rstate -> outcome rstate).

Definition log_msg_ref (st : rstate) : outcome rstate :=
  if is_current (st_tls st) self then
    Ret (mkRState (add_cached_refs (st_tls st) 1) (st_msg st))
  else
    let '(old_value, st) := log_msg_update_ack_and_ref st 1 0 in
    let! _ := g_assert (bool_decide (LOGMSG_REFCACHE_VALUE_TO_REF old_value >= 1)) in
    Ret st.

Definition log_msg_unref (st : rstate) : outcome rstate :=
  if is_current (st_tls st) self then
    Ret (mkRState (add_cached_refs (st_tls st) (-1)) (st_msg st))
  else
    let '(old_value, st) := log_msg_update_ack_and_ref st (-1) 0 in
    let! _ := g_assert (bool_decide (LOGMSG_REFCACHE_VALUE_TO_REF old_value >= 1)) in
    if bool_decide (LOGMSG_REFCACHE_VALUE_TO_REF old_value = 1) then Ret (log_msg_free st) else Ret st.

Definition log_msg_add_ack (path_options : LogPathOptions) (st : rstate) : outcome rstate :=
  if ack_needed path_options then
    if is_current (st_tls st) self then
      Ret (mkRState (add_cached_acks (st_tls st) 1 false false) (st_msg st))
    else Ret (snd (log_msg_update_ack_and_ref st 0 1))
  else Ret st.

Definition log_msg_ack (path_options : LogPathOptions) (ack_type : AckType) (st : rstate) : outcome rstate :=
  if ack_needed path_options then
    if is_current (st_tls st) self then
      Ret (mkRState (add_cached_acks (st_tls st) (-1)
             (bool_decide (IS_ACK_ABORTED ack_type = 1)) (bool_decide (IS_ACK_SUSPENDED ack_type = 1)))
             (st_msg st))
    else
      let '(old_value, st) := log_msg_update_ack_and_ref_and_abort_and_suspended st 0 (-1)
                                (IS_ACK_ABORTED ack_type) (IS_ACK_SUSPENDED ack_type) in
      if bool_decide (LOGMSG_REFCACHE_VALUE_TO_ACK old_value = 1) then
        if bool_decide (ack_type = AT_SUSPENDED) then ack_func AT_SUSPENDED st
        else if bool_decide (ack_type = AT_ABORTED) then ack_func AT_ABORTED st
        else ack_func (_ack_and_ref_and_abort_and_suspend_to_acktype old_value) st
      else Ret st
  else Ret st.

Definition log_msg_drop (path_options : LogPathOptions) (ack_type : AckType) (st : rstate) : outcome rstate :=
  let! st := log_msg_ack path_options ack_type st in
  log_msg_unref st.

Definition log_msg_break_ack (path_options : LogPathOptions) (st : rstate) : outcome (LogPathOptions * rstate) :=
  let! _ := g_assert (negb (flow_control_requested path_options)) in
  let! st := log_msg_ack path_options AT_PROCESSED st in
  Ret (mkLogPathOptions false (flow_control_requested path_options), st).

(** The bias is added with plain stores: no other thread has the message yet. *)
Definition biased_word (w : Z) : Z :=
  let w := Z.land w (Z.lnot LOGMSG_REFCACHE_REF_MASK) +
    LOGMSG_REFCACHE_REF_TO_VALUE (LOGMSG_REFCACHE_VALUE_TO_REF w + LOGMSG_REFCACHE_BIAS) in
  Z.land w (Z.lnot LOGMSG_REFCACHE_ACK_MASK) +
    LOGMSG_REFCACHE_ACK_TO_VALUE (LOGMSG_REFCACHE_VALUE_TO_ACK w + LOGMSG_REFCACHE_BIAS).

Definition log_msg_refcache_start_producer (st : rstate) : outcome rstate :=
  let! _ := g_assert (bool_decide (logmsg_current (st_tls st) = None)) in
  Ret (mkRState
    (mkTLS (Some self) true (- LOGMSG_REFCACHE_BIAS) (- LOGMSG_REFCACHE_BIAS) false false)
    (set_word (st_msg st) (biased_word (ack_and_ref_and_abort_and_suspended (st_msg st))))).

Definition log_msg_refcache_start_consumer (path_options : LogPathOptions) (st : rstate) : outcome rstate :=
  let! _ := g_assert (bool_decide (logmsg_current (st_tls st) = None)) in
  Ret (mkRState (mkTLS (Some self) (ack_needed path_options) 0 0 false false) (st_msg st)).

Definition cache_in_range (x : Z) : bool :=
  bool_decide (x < LOGMSG_REFCACHE_BIAS - 1) && bool_decide (x >= - LOGMSG_REFCACHE_BIAS).

Definition Z_of_bool (b : bool) : Z := if b then 1 else 0.

(** Steps 1 and 2 of [log_msg_refcache_stop]: take a reference and fold the
    acknowledgements; the type to report is returned when the counter dropped
    to zero.  [logmsg_current] is the message itself. *)
Definition refcache_stop_fold_acks (st : rstate) : outcome (option AckType * rstate) :=
  let! _ := g_assert (bool_decide (logmsg_current (st_tls st) <> None)) in
  let! _ := g_assert (cache_in_range (logmsg_cached_acks (st_tls st))) in
  let! _ := g_assert (cache_in_range (logmsg_cached_refs (st_tls st))) in
  let! st := log_msg_ref st in
  let tls := st_tls st in
  let current_cached_acks := logmsg_cached_acks tls in
  let current_cached_abort := logmsg_cached_abort tls in
  let current_cached_suspend := logmsg_cached_suspend tls in
  let st := mkRState (mkTLS (logmsg_current tls) (logmsg_cached_ack_needed tls)
                            (logmsg_cached_refs tls) 0 false false) (st_msg st) in
  let '(old_value, st) := log_msg_update_ack_and_ref_and_abort_and_suspended st 0 current_cached_acks
       (Z_of_bool current_cached_abort) (Z_of_bool current_cached_suspend) in
  if bool_decide (LOGMSG_REFCACHE_VALUE_TO_ACK old_value = - current_cached_acks)
     && logmsg_cached_ack_needed (st_tls st) then
    let ack_type_cumulated := _ack_and_ref_and_abort_and_suspend_to_acktype old_value in
    let ack_type_cumulated :=
      if current_cached_suspend then AT_SUSPENDED
      else if current_cached_abort then AT_ABORTED
      else ack_type_cumulated in
    Ret (Some ack_type_cumulated, st)
  else Ret (None, st).

(** Steps 4 and 5: drop the reference taken in step 1 and fold the references. *)
Definition refcache_stop_fold_refs (st : rstate) : outcome rstate :=
  let! st := log_msg_unref st in
  let cached_refs := logmsg_cached_refs (st_tls st) in
  let '(old_value, st) := log_msg_update_ack_and_ref st cached_refs 0 in
  let st := if bool_decide (LOGMSG_REFCACHE_VALUE_TO_REF old_value = - cached_refs)
            then log_msg_free st else st in
  let tls := st_tls st in
  Ret (mkRState (mkTLS None (logmsg_cached_ack_needed tls) 0 (logmsg_cached_acks tls)
                       (logmsg_cached_abort tls) (logmsg_cached_suspend tls)) (st_msg st)).

Definition log_msg_refcache_stop (st : rstate) : outcome rstate :=
  let! (report, st) := refcache_stop_fold_acks st in
  let! st :=
    match report with
    | Some ack_type =>
        let! st := ack_func ack_type st in
        let! _ := g_assert (bool_decide (logmsg_cached_acks (st_tls st) = 0)) in
        Ret st
    | None => Ret st
    end in
  refcache_stop_fold_refs st.
End operations.

(** ** The fields of the word *)

Record fields := mkFields { f_ref : Z; f_ack : Z; f_abort : Z; f_suspend : Z }.

Definition pack (f : fields) : Z :=
  f_ref f + f_ack f * 2 ^ 15 + f_abort f * 2 ^ 30 + f_suspend f * 2 ^ 31.

Definition fields_ok (f : fields) : Prop :=
  0 <= f_ref f < 2 ^ 15 /\ 0 <= f_ack f < 2 ^ 15 /\ 0 <= f_abort f < 2 /\ 0 <= f_suspend f < 2.

Lemma land_field (w k n : Z) : 0 <= k -> 0 <= n ->
  Z.land w (Z.shiftl (Z.ones n) k) = (w / 2 ^ k) mod 2 ^ n * 2 ^ k.
Proof.
  intros Hk Hn. rewrite <- Z.shiftl_mul_pow2, <- Z.land_ones, <- Z.shiftr_div_pow2 by lia.
  apply Z.bits_inj'; intros i Hi. rewrite Z.land_spec, !Z.shiftl_spec by lia.
  destruct (Z.lt_ge_cases i k) as [Hlt|Hge].
  - rewrite !(Z.testbit_neg_r _ (i - k)) by lia. by rewrite andb_false_r.
  - rewrite Z.land_spec, Z.shiftr_spec by lia. by replace (i - k + k) with i by lia.
Qed.

Lemma land_lnot (w m : Z) : Z.land w (Z.lnot m) = w - Z.land w m.
Proof.
  rewrite <- Z.ldiff_land.
  assert (Hd : Z.land (Z.ldiff w m) (Z.land w m) = 0).
  { apply Z.bits_inj'; intros i _. rewrite Z.land_spec, Z.ldiff_spec, Z.land_spec, Z.bits_0.
    by destruct (Z.testbit w i), (Z.testbit m i). }
  pose proof (Z.add_nocarry_lxor _ _ Hd) as Ha. rewrite (Z.lxor_lor _ _ Hd), Z.lor_ldiff_and in Ha. lia.
Qed.

Lemma div_mod_field (q r k n : Z) : 0 <= k -> 0 <= n -> 0 <= r < 2 ^ k ->
  ((q * 2 ^ k + r) / 2 ^ k) mod 2 ^ n = q mod 2 ^ n.
Proof.
  intros Hk Hn Hr. f_equal. rewrite Z.div_add_l by lia. rewrite (Z.div_small r) by lia. lia.
Qed.

Lemma VALUE_TO_REF_pack (f : fields) : fields_ok f -> LOGMSG_REFCACHE_VALUE_TO_REF (pack f) = f_ref f.
Proof.
  intros (Hr & Ha & Hb & Hs). unfold LOGMSG_REFCACHE_VALUE_TO_REF, LOGMSG_REFCACHE_REF_MASK,
    LOGMSG_REFCACHE_REF_SHIFT, pack. rewrite Z.shiftr_0_r.
  change 32767 with (Z.shiftl (Z.ones 15) 0). rewrite land_field by lia.
  Z.to_euclidean_division_equations; lia.
Qed.

Lemma VALUE_TO_ACK_pack (f : fields) : fields_ok f -> LOGMSG_REFCACHE_VALUE_TO_ACK (pack f) = f_ack f.
Proof.
  intros (Hr & Ha & Hb & Hs). unfold LOGMSG_REFCACHE_VALUE_TO_ACK, LOGMSG_REFCACHE_ACK_MASK,
    LOGMSG_REFCACHE_ACK_SHIFT, pack. rewrite Z.shiftr_div_pow2 by lia.
  change 1073709056 with (Z.shiftl (Z.ones 15) 15). rewrite land_field, Z.div_mul by lia.
  Z.to_euclidean_division_equations; lia.
Qed.

Lemma VALUE_TO_ABORT_pack (f : fields) : fields_ok f -> LOGMSG_REFCACHE_VALUE_TO_ABORT (pack f) = f_abort f.
Proof.
  intros (Hr & Ha & Hb & Hs). unfold LOGMSG_REFCACHE_VALUE_TO_ABORT, LOGMSG_REFCACHE_ABORT_MASK,
    LOGMSG_REFCACHE_ABORT_SHIFT, pack. rewrite Z.shiftr_div_pow2 by lia.
  change 1073741824 with (Z.shiftl (Z.ones 1) 30). rewrite land_field, Z.div_mul by lia.
  Z.to_euclidean_division_equations; lia.
Qed.

Lemma VALUE_TO_SUSPEND_pack (f : fields) : fields_ok f -> LOGMSG_REFCACHE_VALUE_TO_SUSPEND (pack f) = f_suspend f.
Proof.
  intros (Hr & Ha & Hb & Hs). unfold LOGMSG_REFCACHE_VALUE_TO_SUSPEND, LOGMSG_REFCACHE_SUSPEND_MASK,
    LOGMSG_REFCACHE_SUSPEND_SHIFT, pack. rewrite Z.shiftr_div_pow2 by lia.
  change 2147483648 with (Z.shiftl (Z.ones 1) 31). rewrite land_field, Z.div_mul by lia.
  Z.to_euclidean_division_equations; lia.
Qed.

Lemma field_to_value (x k n : Z) : 0 <= k -> 0 <= n ->
  Z.land (Z.shiftl x k) (Z.shiftl (Z.ones n) k) = x mod 2 ^ n * 2 ^ k.
Proof. intros. rewrite land_field, Z.shiftl_mul_pow2, Z.div_mul by lia. done. Qed.

Lemma REF_TO_VALUE_spec (x : Z) : LOGMSG_REFCACHE_REF_TO_VALUE x = x mod 2 ^ 15.
Proof. pose proof (field_to_value x 0 15 ltac:(lia) ltac:(lia)) as H. rewrite Z.mul_1_r in H. exact H. Qed.

Lemma ACK_TO_VALUE_spec (x : Z) : LOGMSG_REFCACHE_ACK_TO_VALUE x = x mod 2 ^ 15 * 2 ^ 15.
Proof. by apply (field_to_value x 15 15). Qed.

Lemma ABORT_TO_VALUE_spec (x : Z) : LOGMSG_REFCACHE_ABORT_TO_VALUE x = x mod 2 * 2 ^ 30.
Proof. by apply (field_to_value x 30 1). Qed.

Lemma SUSPEND_TO_VALUE_spec (x : Z) : LOGMSG_REFCACHE_SUSPEND_TO_VALUE x = x mod 2 * 2 ^ 31.
Proof. by apply (field_to_value x 31 1). Qed.

(** Clearing a field of a packed word. *)
Lemma clear_ref (f : fields) : fields_ok f ->
  Z.land (pack f) (Z.lnot LOGMSG_REFCACHE_REF_MASK) = pack f - f_ref f.
Proof.
  intros Hf. rewrite land_lnot. pose proof (VALUE_TO_REF_pack f Hf) as H.
  unfold LOGMSG_REFCACHE_VALUE_TO_REF, LOGMSG_REFCACHE_REF_SHIFT in H. rewrite Z.shiftr_0_r in H. lia.
Qed.

Lemma clear_shifted (f : fields) (k n x : Z) : 0 <= k -> 0 <= n ->
  Z.shiftr (Z.land (pack f) (Z.shiftl (Z.ones n) k)) k = x ->
  Z.land (pack f) (Z.lnot (Z.shiftl (Z.ones n) k)) = pack f - x * 2 ^ k.
Proof.
  intros Hk Hn <-. rewrite land_lnot, land_field, Z.shiftr_div_pow2, Z.div_mul by lia. done.
Qed.

Lemma clear_ack (f : fields) : fields_ok f ->
  Z.land (pack f) (Z.lnot LOGMSG_REFCACHE_ACK_MASK) = pack f - f_ack f * 2 ^ 15.
Proof. intros Hf. apply (clear_shifted f 15 15); [lia..|]. by apply VALUE_TO_ACK_pack. Qed.

Lemma clear_abort (f : fields) : fields_ok f ->
  Z.land (pack f) (Z.lnot LOGMSG_REFCACHE_ABORT_MASK) = pack f - f_abort f * 2 ^ 30.
Proof. intros Hf. apply (clear_shifted f 30 1); [lia..|]. by apply VALUE_TO_ABORT_pack. Qed.

Lemma clear_suspend (f : fields) : fields_ok f ->
  Z.land (pack f) (Z.lnot LOGMSG_REFCACHE_SUSPEND_MASK) = pack f - f_suspend f * 2 ^ 31.
Proof. intros Hf. apply (clear_shifted f 31 1); [lia..|]. by apply VALUE_TO_SUSPEND_pack. Qed.

Lemma mod_pow_range (x n : Z) : 0 <= n -> 0 <= x mod 2 ^ n < 2 ^ n.
Proof. intros. apply Z.mod_pos_bound. lia. Qed.

Lemma lor_flag_range (a b : Z) : 0 <= a < 2 -> 0 <= b < 2 -> 0 <= Z.lor a b < 2.
Proof. intros. assert (a = 0 \/ a = 1) as [->| ->] by lia; assert (b = 0 \/ b = 1) as [->| ->] by lia;
  split; done. Qed.

Definition updated_fields (f : fields) (add_ref add_ack add_abort add_suspend : Z) : fields :=
  mkFields ((f_ref f + add_ref) mod 2 ^ 15) ((f_ack f + add_ack) mod 2 ^ 15)
           (Z.lor (f_abort f) add_abort) (Z.lor (f_suspend f) add_suspend).

Lemma updated_fields_ok (f : fields) (add_ref add_ack add_abort add_suspend : Z) :
  fields_ok f -> 0 <= add_abort < 2 -> 0 <= add_suspend < 2 ->
  fields_ok (updated_fields f add_ref add_ack add_abort add_suspend).
Proof.
  intros (Hr & Ha & Hb & Hs) Hab Hsu. unfold fields_ok, updated_fields; simpl.
  auto using mod_pow_range, lor_flag_range with lia.
Qed.

Lemma updated_word_pack (f : fields) (add_ref add_ack add_abort add_suspend : Z) :
  fields_ok f -> 0 <= add_abort < 2 -> 0 <= add_suspend < 2 ->
  updated_word (pack f) add_ref add_ack add_abort add_suspend =
  pack (updated_fields f add_ref add_ack add_abort add_suspend).
Proof.
  intros Hf Hab Hsu. pose proof Hf as (Hr & Ha & Hb & Hs).
  unfold updated_word. cbv zeta.
  rewrite VALUE_TO_REF_pack, VALUE_TO_ACK_pack, VALUE_TO_ABORT_pack, VALUE_TO_SUSPEND_pack by done.
  rewrite REF_TO_VALUE_spec, ACK_TO_VALUE_spec, ABORT_TO_VALUE_spec, SUSPEND_TO_VALUE_spec.
  pose proof (lor_flag_range _ _ Hb Hab). pose proof (lor_flag_range _ _ Hs Hsu).
  rewrite !(Z.mod_small (Z.lor _ _)) by done.
  pose proof (mod_pow_range (f_ref f + add_ref) 15). pose proof (mod_pow_range (f_ack f + add_ack) 15).
  set (r := (f_ref f + add_ref) mod 2 ^ 15) in *. set (a := (f_ack f + add_ack) mod 2 ^ 15) in *.
  rewrite clear_ref by done.
  replace (pack f - f_ref f + r) with (pack (mkFields r (f_ack f) (f_abort f) (f_suspend f)))
    by (unfold pack; simpl; lia).
  rewrite clear_ack by (unfold fields_ok; simpl; auto with lia).
  replace (pack _ - _ + _) with (pack (mkFields r a (f_abort f) (f_suspend f))) by (unfold pack; simpl; lia).
  rewrite clear_abort by (unfold fields_ok; simpl; auto with lia).
  replace (pack _ - _ + _) with (pack (mkFields r a (Z.lor (f_abort f) add_abort) (f_suspend f)))
    by (unfold pack; simpl; lia).
  rewrite clear_suspend by (unfold fields_ok; simpl; auto with lia).
  unfold pack, updated_fields; simpl. lia.
Qed.

Lemma biased_word_pack (f : fields) : fields_ok f ->
  biased_word (pack f) =
  pack (updated_fields f LOGMSG_REFCACHE_BIAS LOGMSG_REFCACHE_BIAS 0 0).
Proof.
  intros Hf. pose proof Hf as (Hr & Ha & Hb & Hs). unfold biased_word. cbv zeta.
  rewrite VALUE_TO_REF_pack, REF_TO_VALUE_spec, clear_ref by done.
  pose proof (mod_pow_range (f_ref f + LOGMSG_REFCACHE_BIAS) 15).
  set (r := (f_ref f + LOGMSG_REFCACHE_BIAS) mod 2 ^ 15) in *.
  replace (pack f - f_ref f + r) with (pack (mkFields r (f_ack f) (f_abort f) (f_suspend f)))
    by (unfold pack; simpl; lia).
  rewrite clear_ack, VALUE_TO_ACK_pack, ACK_TO_VALUE_spec by (unfold fields_ok; simpl; auto with lia).
  unfold pack, updated_fields; simpl. rewrite !Z.lor_0_r. lia.
Qed.

(** Every 32 bit value is a packed word. *)
Definition unpack (w : Z) : fields :=
  mkFields (w mod 2 ^ 15) (w / 2 ^ 15 mod 2 ^ 15) (w / 2 ^ 30 mod 2) (w / 2 ^ 31 mod 2).

Lemma unpack_spec (w : Z) : 0 <= w < 2 ^ 32 -> fields_ok (unpack w) /\ pack (unpack w) = w.
Proof. intros Hw. unfold fields_ok, unpack, pack; simpl. Z.to_euclidean_division_equations; lia. Qed.
