(* ===== verification/LogMsgRefInv.v ===== *)
(** * Counting references and acknowledgements from several threads

    The operations of [LogMsgRef] interleaved by any number of threads.  A
    world is the shared message and, per thread, its thread local block and
    two ghost counts: the references and the acknowledgements the thread is
    in charge of.  A step runs one operation of one thread; the two atomic
    updates inside [log_msg_refcache_stop] are separate steps, with the
    callback's own operations free to run in between.  Handing a message over
    (through a queue) moves a reference or an acknowledgement from a thread to
    another one. *)
From S2P Require Import Prelude LogMsgRef.

(** Where a thread stands with respect to the message: not caching it, caching
    it as its producer or as a consumer, or between the two folds of
    [log_msg_refcache_stop]. *)
Inductive phase := Idle | Producer | Consumer | Stopping.

#[global] Instance phase_eq_dec : EqDecision phase.
Proof. solve_decision. Defined.

Record thread := mkThread {
  t_tls : TLS;
  t_phase : phase;
  own_refs : Z;
  own_acks : Z
}.

Record world := mkWorld { w_msg : Counted; w_threads : list thread }.

(** What the thread still owes to the shared word: its own count less the
    difference it has cached. *)
Definition slack_refs (t : thread) : Z :=
  own_refs t - (if bool_decide (t_phase t = Idle) then 0 else logmsg_cached_refs (t_tls t)).

Definition slack_acks (t : thread) : Z :=
  own_acks t - (if bool_decide (t_phase t = Idle) then 0 else logmsg_cached_acks (t_tls t)).

Definition total (g : thread -> Z) (ts : list thread) : Z := foldr (fun t s => g t + s) 0 ts.

(** Operations on a message that takes part in flow control. *)
Definition flow : LogPathOptions := mkLogPathOptions true false.

Inductive event :=
| ERef
| EUnref
| EAddAck
| EAck (ack_type : AckType)
| EStartConsumer (path_options : LogPathOptions)
| EFoldAcks
| EFoldRefs
| EOther (tls : TLS).

Section threads.
Context (self : Z).

(** The callback of the message: only that it was called is recorded, what it
    does are later steps of the same thread. *)
Definition record_ack (ack_type : AckType) (st : rstate) : outcome rstate :=
  let m := st_msg st in
  Ret (mkRState (st_tls st)
        (mkCounted (ack_and_ref_and_abort_and_suspended m) (acked m ++ [ack_type]) (freed m))).

(** When the protocol lets a thread run an operation: it counts only on
    references and acknowledgements it is in charge of. *)
Definition event_ok (ev : event) (t : thread) : bool :=
  match ev with
  | ERef | EUnref => bool_decide (1 <= own_refs t)
  | EAddAck =>
      match t_phase t with
      | Producer => true
      | Idle | Consumer => bool_decide (1 <= own_acks t)
      | Stopping => false
      end
  | EAck _ => bool_decide (1 <= own_acks t) && bool_decide (t_phase t <> Stopping)
  | EStartConsumer po =>
      bool_decide (t_phase t = Idle) && bool_decide (1 <= own_refs t) &&
      (if ack_needed po then bool_decide (1 <= own_acks t) else bool_decide (own_acks t = 0))
  | EFoldAcks => bool_decide (t_phase t = Producer) || bool_decide (t_phase t = Consumer)
  | EFoldRefs => bool_decide (t_phase t = Stopping) && bool_decide (1 <= own_refs t)
  | EOther tls => bool_decide (t_phase t = Idle) && negb (is_current tls self)
  end.

Definition run_event (ev : event) (t : thread) (m : Counted) : outcome (thread * Counted) :=
  let st := mkRState (t_tls t) m in
  let ret ph refs acks (st : rstate) := Ret (mkThread (st_tls st) ph refs acks, st_msg st) in
  match ev with
  | ERef => let! st := log_msg_ref self st in ret (t_phase t) (own_refs t + 1) (own_acks t) st
  | EUnref => let! st := log_msg_unref self st in ret (t_phase t) (own_refs t - 1) (own_acks t) st
  | EAddAck => let! st := log_msg_add_ack self flow st in ret (t_phase t) (own_refs t) (own_acks t + 1) st
  | EAck ty => let! st := log_msg_ack self record_ack flow ty st in ret (t_phase t) (own_refs t) (own_acks t - 1) st
  | EStartConsumer po =>
      let! st := log_msg_refcache_start_consumer self po st in ret Consumer (own_refs t) (own_acks t) st
  | EFoldAcks =>
      let! (report, st) := refcache_stop_fold_acks self st in
      let! st := match report with Some ty => record_ack ty st | None => Ret st end in
      ret Stopping (own_refs t + 1) (own_acks t) st
  | EFoldRefs => let! st := refcache_stop_fold_refs self st in ret Idle (own_refs t - 1) (own_acks t) st
  | EOther tls => ret Idle (own_refs t) (own_acks t) (mkRState tls m)
  end.

(** The counters have 15 bits. *)
Definition no_overflow (ts : list thread) : Prop :=
  total slack_refs ts < 2 ^ 15 /\ total slack_acks ts < 2 ^ 15 /\
  total own_refs ts < 2 ^ 15 /\ total own_acks ts < 2 ^ 15.

(** A caching thread must not hand over what only its cache knows of. *)
Definition can_give (slack own : thread -> Z) (t : thread) : bool :=
  bool_decide (1 <= own t) && (bool_decide (t_phase t = Idle) || bool_decide (2 <= slack t)).

Definition give_ref (d : Z) (t : thread) : thread := mkThread (t_tls t) (t_phase t) (own_refs t + d) (own_acks t).
Definition give_ack (d : Z) (t : thread) : thread := mkThread (t_tls t) (t_phase t) (own_refs t) (own_acks t + d).

Inductive step : world -> world -> Prop :=
| step_event i ev t t' m' w :
    w_threads w !! i = Some t -> event_ok ev t = true -> run_event ev t (w_msg w) = Ret (t', m') ->
    no_overflow (<[i:=t']> (w_threads w)) ->
    step w (mkWorld m' (<[i:=t']> (w_threads w)))
| step_pass_ref i j t u w :
    i <> j -> w_threads w !! i = Some t -> w_threads w !! j = Some u -> t_phase u = Idle ->
    can_give slack_refs own_refs t = true ->
    step w (mkWorld (w_msg w) (<[j:=give_ref 1 u]> (<[i:=give_ref (-1) t]> (w_threads w))))
| step_pass_ack i j t u w :
    i <> j -> w_threads w !! i = Some t -> w_threads w !! j = Some u -> t_phase u = Idle ->
    can_give slack_acks own_acks t = true ->
    step w (mkWorld (w_msg w) (<[j:=give_ack 1 u]> (<[i:=give_ack (-1) t]> (w_threads w)))).

(** A message right after [log_msg_init], with its producer caching it. *)
Definition initial_word : Z :=
  LOGMSG_REFCACHE_REF_TO_VALUE 1 + LOGMSG_REFCACHE_ACK_TO_VALUE 0 + LOGMSG_REFCACHE_ABORT_TO_VALUE 0.

Definition start_world (others : nat) : outcome world :=
  let! st := log_msg_refcache_start_producer self (mkRState tls_init (mkCounted initial_word [] false)) in
  Ret (mkWorld (st_msg st)
        (mkThread (st_tls st) Producer 1 0 :: replicate others (mkThread tls_init Idle 0 0))).

Inductive reachable : world -> Prop :=
| reach_start n w : start_world n = Ret w -> reachable w
| reach_step w w' : reachable w -> step w w' -> reachable w'.

(** ** The invariant *)

Definition tinv (t : thread) : Prop :=
  0 <= own_refs t /\ 0 <= own_acks t /\ 0 <= slack_acks t /\
  match t_phase t with
  | Idle => is_current (t_tls t) self = false
  | Producer =>
      is_current (t_tls t) self = true /\ logmsg_cached_ack_needed (t_tls t) = true /\
      1 <= slack_refs t /\ 1 <= slack_acks t
  | Consumer =>
      is_current (t_tls t) self = true /\ 1 <= slack_refs t /\
      (if logmsg_cached_ack_needed (t_tls t) then 1 <= slack_acks t
       else own_acks t = 0 /\ logmsg_cached_acks (t_tls t) = 0)
  | Stopping => is_current (t_tls t) self = true /\ 1 <= slack_refs t /\ logmsg_cached_acks (t_tls t) = 0
  end.

Record winv (w : world) : Prop := {
  winv_threads : Forall tinv (w_threads w);
  winv_bounds : no_overflow (w_threads w);
  winv_word : exists ab su,
    ack_and_ref_and_abort_and_suspended (w_msg w) =
      pack (mkFields (total slack_refs (w_threads w)) (total slack_acks (w_threads w)) ab su) /\
    0 <= ab < 2 /\ 0 <= su < 2;
  winv_freed : freed (w_msg w) = true <-> total slack_refs (w_threads w) = 0;
  winv_acked : acked (w_msg w) <> [] <-> total slack_acks (w_threads w) = 0;
  winv_once : (length (acked (w_msg w)) <= 1)%nat
}.

(** ** Sums over threads *)

Lemma total_insert (g : thread -> Z) (ts : list thread) (i : nat) (t t' : thread) :
  ts !! i = Some t -> total g (<[i:=t']> ts) = total g ts - g t + g t'.
Proof.
  revert i; induction ts as [|x ts IH]; intros [|i] Hi; simplify_eq/=; [lia|].
  rewrite (IH _ Hi). lia.
Qed.

Lemma total_ge (g : thread -> Z) (ts : list thread) (i : nat) (t : thread) :
  Forall (fun t => 0 <= g t) ts -> ts !! i = Some t -> g t <= total g ts.
Proof.
  intros Hall. revert i; induction Hall as [|x ts Hx Hall IH]; intros [|i] Hi; simplify_eq/=.
  - clear IH. assert (0 <= total g ts); [|lia]. induction Hall; simpl; lia.
  - specialize (IH _ Hi). lia.
Qed.

Lemma total_nonneg (g : thread -> Z) (ts : list thread) : Forall (fun t => 0 <= g t) ts -> 0 <= total g ts.
Proof. induction 1; simpl; lia. Qed.

Lemma total_zero (g : thread -> Z) (ts : list thread) : Forall (fun t => 0 <= g t) ts ->
  total g ts = 0 <-> Forall (fun t => g t = 0) ts.
Proof.
  induction 1 as [|x ts Hx Hall IH]; simpl; [naive_solver|].
  pose proof (total_nonneg g ts Hall). rewrite Forall_cons, <- IH. lia.
Qed.

Lemma tinv_slack_refs (t : thread) : tinv t -> 0 <= slack_refs t.
Proof.
  unfold tinv. intros (H1 & H2 & H3 & H4). destruct (t_phase t) eqn:E; [|lia..].
  unfold slack_refs. rewrite E. simpl. lia.
Qed.

Lemma tinv_slack_acks (t : thread) : tinv t -> 0 <= slack_acks t.
Proof. by intros (_ & _ & H & _). Qed.

(** ** One event *)

(** What the event lemmas need of the shared word. *)
Record ready (t : thread) (m : Counted) (f : fields) : Prop := {
  rd_tinv : tinv t;
  rd_word : ack_and_ref_and_abort_and_suspended m = pack f;
  rd_ok : fields_ok f;
  rd_freed : freed m = bool_decide (f_ref f = 0);
  rd_slack_refs : slack_refs t <= f_ref f;
  rd_slack_acks : slack_acks t <= f_ack f;
  rd_own_refs : own_refs t < 2 ^ 15;
  rd_own_acks : own_acks t < 2 ^ 15
}.

(** The shared word changes by the change of the thread's slack, the message
    is freed when the references reach zero and the callback runs when the
    acknowledgements do, after which they stay zero. *)
Definition ev_post (t : thread) (m : Counted) (f : fields) (t' : thread) (m' : Counted) : Prop :=
  let dr := slack_refs t' - slack_refs t in
  let da := slack_acks t' - slack_acks t in
  tinv t' /\
  (exists ab su, 0 <= ab < 2 /\ 0 <= su < 2 /\
     ack_and_ref_and_abort_and_suspended m' = pack (updated_fields f dr da ab su)) /\
  freed m' = bool_decide (f_ref f + dr = 0) /\
  (f_ack f = 0 -> da = 0) /\
  (if bool_decide (1 <= f_ack f /\ f_ack f + da = 0)
   then exists ty, acked m' = acked m ++ [ty] else acked m' = acked m).

Lemma updated_fields_0 (f : fields) : fields_ok f -> updated_fields f 0 0 0 0 = f.
Proof.
  intros (Hr & Ha & Hb & Hs). destruct f as [r a b s]. unfold updated_fields; simpl in *.
  rewrite !Z.lor_0_r, !Z.mod_small by lia. f_equal; lia.
Qed.

Lemma slack_unchanged_post (t t' : thread) (m : Counted) (f : fields) : ready t m f ->
  tinv t' -> slack_refs t' = slack_refs t -> slack_acks t' = slack_acks t ->
  ev_post t m f t' m.
Proof.
  intros [Ht Hw Hok Hfr Hsr Hsa Hor Hoa] Ht' Hr Ha. unfold ev_post. rewrite Hr, Ha, !Z.sub_diag, !Z.add_0_r.
  split; [done|]; split; [|split; [done|split; [done|]]].
  - exists 0, 0. by rewrite updated_fields_0.
  - rewrite bool_decide_eq_false_2; [done|]. lia.
Qed.

Lemma tinv_current (t : thread) : tinv t -> is_current (t_tls t) self = negb (bool_decide (t_phase t = Idle)).
Proof. unfold tinv. intros (_ & _ & _ & H). destruct (t_phase t); [exact H|apply H..]. Qed.

Lemma cached_refs_bound (t : thread) (m : Counted) (f : fields) : ready t m f -> t_phase t <> Idle ->
  - 2 ^ 15 < logmsg_cached_refs (t_tls t) < 2 ^ 15.
Proof.
  intros [Ht _ (Hr & _) _ Hsr _ Hor _] Hp. pose proof (tinv_slack_refs t Ht).
  destruct Ht as (Ho & _). unfold slack_refs in *. rewrite bool_decide_eq_false_2 in * by done. lia.
Qed.

Lemma cached_acks_bound (t : thread) (m : Counted) (f : fields) : ready t m f -> t_phase t <> Idle ->
  - 2 ^ 15 < logmsg_cached_acks (t_tls t) < 2 ^ 15.
Proof.
  intros [Ht _ (_ & Hr & _) _ _ Hsr _ Hor] Hp. pose proof (tinv_slack_acks t Ht).
  destruct Ht as (_ & Ho & _). unfold slack_acks in *. rewrite bool_decide_eq_false_2 in * by done. lia.
Qed.

(** A change of both the own count and the cache leaves the slack alone. *)
Lemma cached_refs_post (t : thread) (m : Counted) (f : fields) (d : Z) : ready t m f ->
  t_phase t <> Idle -> -1 <= d <= 1 -> 0 <= own_refs t + d ->
  ev_post t m f (mkThread (add_cached_refs (t_tls t) d) (t_phase t) (own_refs t + d) (own_acks t)) m.
Proof.
  intros Hrd Hp Hd Ho. pose proof (cached_refs_bound t m f Hrd Hp) as Hc. set (t' := mkThread _ _ _ _).
  assert (Hr : slack_refs t' = slack_refs t).
  { unfold slack_refs, t'; simpl. rewrite bool_decide_eq_false_2, s32_small by (done || lia). lia. }
  assert (Ha : slack_acks t' = slack_acks t) by done.
  apply slack_unchanged_post; [done| |done|done].
  destruct Hrd as [(H1 & H2 & H3 & H4) _ _ _ _ _ _ _]. unfold tinv. rewrite Hr, Ha. subst t'. simpl.
  split_and!; [done..|exact H4].
Qed.

Lemma cached_acks_post (t : thread) (m : Counted) (f : fields) (d : Z) (ab su : bool) : ready t m f ->
  t_phase t <> Idle -> t_phase t <> Stopping -> logmsg_cached_ack_needed (t_tls t) = true ->
  -1 <= d <= 1 -> 0 <= own_acks t + d ->
  ev_post t m f (mkThread (add_cached_acks (t_tls t) d ab su) (t_phase t) (own_refs t) (own_acks t + d)) m.
Proof.
  intros Hrd Hp Hns Hneed Hd Ho. pose proof (cached_acks_bound t m f Hrd Hp) as Hc.
  set (t' := mkThread _ _ _ _).
  assert (Hr : slack_acks t' = slack_acks t).
  { unfold slack_acks, t'; simpl. rewrite bool_decide_eq_false_2, s32_small by (done || lia). lia. }
  apply slack_unchanged_post; [done| |done|done].
  destruct Hrd as [(H1 & H2 & H3 & H4) _ _ _ _ _ _ _]. unfold tinv. rewrite Hr.
  split_and!; [done..|]. subst t'. simpl.
  change (slack_refs _) with (slack_refs t). destruct (t_phase t); rewrite ?Hneed in *; done.
Qed.
Lemma slack_refs_idle (t : thread) : t_phase t = Idle -> slack_refs t = own_refs t.
Proof. intros H. unfold slack_refs. rewrite bool_decide_eq_true_2 by done. lia. Qed.

Lemma slack_acks_idle (t : thread) : t_phase t = Idle -> slack_acks t = own_acks t.
Proof. intros H. unfold slack_acks. rewrite bool_decide_eq_true_2 by done. lia. Qed.

Lemma slack_refs_caching (t : thread) : t_phase t <> Idle ->
  slack_refs t = own_refs t - logmsg_cached_refs (t_tls t).
Proof. intros H. unfold slack_refs. by rewrite bool_decide_eq_false_2. Qed.

Lemma slack_acks_caching (t : thread) : t_phase t <> Idle ->
  slack_acks t = own_acks t - logmsg_cached_acks (t_tls t).
Proof. intros H. unfold slack_acks. by rewrite bool_decide_eq_false_2. Qed.

(** An update of the shared word by a thread that does not cache the message. *)
Lemma direct_post (t : thread) (m m' : Counted) (f : fields) (dr da ab su : Z) : ready t m f ->
  t_phase t = Idle -> 0 <= own_refs t + dr -> 0 <= own_acks t + da -> 0 <= ab < 2 -> 0 <= su < 2 ->
  ack_and_ref_and_abort_and_suspended m' =
    updated_word (ack_and_ref_and_abort_and_suspended m) dr da ab su ->
  freed m' = bool_decide (f_ref f + dr = 0) -> (f_ack f = 0 -> da = 0) ->
  (if bool_decide (1 <= f_ack f /\ f_ack f + da = 0)
   then exists ty, acked m' = acked m ++ [ty] else acked m' = acked m) ->
  ev_post t m f (mkThread (t_tls t) (t_phase t) (own_refs t + dr) (own_acks t + da)) m'.
Proof.
  intros [Ht Hw Hok Hfr Hsr Hsa Hor Hoa] Hp Hr Ha Hab Hsu Hm Hf Hz Hk. unfold ev_post.
  rewrite !slack_refs_idle, !slack_acks_idle by done. simpl.
  replace (own_refs t + dr - own_refs t) with dr by lia.
  replace (own_acks t + da - own_acks t) with da by lia.
  split; [|split; [|done]].
  - destruct Ht as (_ & _ & _ & H4). unfold tinv. rewrite slack_acks_idle by done. simpl.
    rewrite Hp in *. auto.
  - exists ab, su. rewrite Hm, Hw, updated_word_pack by done. auto.
Qed.

Lemma ref_post (t t' : thread) (m m' : Counted) (f : fields) : ready t m f ->
  event_ok ERef t = true -> run_event ERef t m = Ret (t', m') -> ev_post t m f t' m'.
Proof.
  intros Hrd Hok Hrun. apply bool_decide_eq_true in Hok. pose proof Hrd as [Ht Hw Hfo Hfr Hsr Hsa Hor Hoa].
  simpl in Hrun. unfold log_msg_ref in Hrun. simpl in Hrun. rewrite (tinv_current t Ht) in Hrun.
  destruct (bool_decide_reflect (t_phase t = Idle)) as [Hp|Hp]; simpl in Hrun.
  - rewrite slack_refs_idle in Hsr by done.
    rewrite Hw, VALUE_TO_REF_pack, bool_decide_eq_true_2 in Hrun by (done || lia).
    injection Hrun as <- <-. rewrite <- Hw.
    rewrite <- (Z.add_0_r (own_acks t)). apply (direct_post _ _ _ _ 1 0 0 0); simpl; try done; try lia.
    + destruct Ht as (_ & ? & _). lia.
    + rewrite Hfr, !bool_decide_eq_false_2 by lia. done.
    + rewrite bool_decide_eq_false_2 by lia. done.
  - injection Hrun as <- <-. apply cached_refs_post; (done || lia).
Qed.

Lemma unref_post (t t' : thread) (m m' : Counted) (f : fields) : ready t m f ->
  event_ok EUnref t = true -> run_event EUnref t m = Ret (t', m') -> ev_post t m f t' m'.
Proof.
  intros Hrd Hok Hrun. apply bool_decide_eq_true in Hok. pose proof Hrd as [Ht Hw Hfo Hfr Hsr Hsa Hor Hoa].
  simpl in Hrun. unfold log_msg_unref in Hrun. simpl in Hrun. rewrite (tinv_current t Ht) in Hrun.
  destruct (bool_decide_reflect (t_phase t = Idle)) as [Hp|Hp]; simpl in Hrun.
  - rewrite slack_refs_idle in Hsr by done. rewrite Hw, VALUE_TO_REF_pack in Hrun by done.
    rewrite bool_decide_eq_true_2 in Hrun by lia. simpl in Hrun.
    set (m1 := set_word m (updated_word (pack f) (-1) 0 0 0)) in Hrun.
    assert (t' = mkThread (t_tls t) (t_phase t) (own_refs t + -1) (own_acks t + 0) /\
            m' = (if bool_decide (f_ref f = 1) then st_msg (log_msg_free (mkRState (t_tls t) m1)) else m1))
      as [-> ->].
    { rewrite Z.add_0_r. case_bool; simpl in Hrun; by injection Hrun as <- <-. }
    apply (direct_post _ _ _ _ (-1) 0 0 0); simpl; try done; try lia.
    + destruct Ht as (_ & ? & _). lia.
    + case_bool; simpl; by rewrite Hw.
    + case_bool; simpl; [by rewrite bool_decide_eq_true_2 by lia|].
      rewrite Hfr, !bool_decide_eq_false_2 by lia. done.
    + rewrite bool_decide_eq_false_2 by lia. by case_bool.
  - injection Hrun as <- <-. apply (cached_refs_post _ _ _ (-1)); (done || lia).
Qed.

Lemma add_ack_post (t t' : thread) (m m' : Counted) (f : fields) : ready t m f ->
  event_ok EAddAck t = true -> run_event EAddAck t m = Ret (t', m') -> ev_post t m f t' m'.
Proof.
  intros Hrd Hok Hrun. pose proof Hrd as [Ht Hw Hfo Hfr Hsr Hsa Hor Hoa].
  simpl in Hrun. unfold log_msg_add_ack in Hrun. simpl in Hrun. rewrite (tinv_current t Ht) in Hrun.
  destruct (bool_decide_reflect (t_phase t = Idle)) as [Hp|Hp]; simpl in Hrun; injection Hrun as <- <-.
  - simpl in Hok. rewrite Hp in Hok. apply bool_decide_eq_true in Hok.
    rewrite slack_acks_idle in Hsa by done. destruct Ht as (? & ? & _).
    rewrite <- (Z.add_0_r (own_refs t)). apply (direct_post _ _ _ _ 0 1 0 0); simpl; try done; try lia.
    + by rewrite Z.add_0_r.
    + rewrite bool_decide_eq_false_2 by lia. done.
  - pose proof Ht as (? & ? & ? & Hph). apply cached_acks_post; try (done || lia).
    + intros Hs. simpl in Hok. by rewrite Hs in Hok.
    + simpl in Hok. destruct (t_phase t); [done|by destruct Hph as (_ & ? & _)| |done].
      apply bool_decide_eq_true in Hok. destruct Hph as (_ & _ & Hif).
      destruct (logmsg_cached_ack_needed _); [done|lia].
Qed.
Lemma flag_range (b : bool) : 0 <= Z_of_bool b < 2.
Proof. by destruct b. Qed.

Lemma ack_flag_range (ty : AckType) : 0 <= IS_ACK_ABORTED ty < 2 /\ 0 <= IS_ACK_SUSPENDED ty < 2.
Proof. by destruct ty. Qed.

(** The uncached [log_msg_ack] reports exactly when the counter was one. *)
Lemma direct_ack_run (ty : AckType) (st st' : rstate) : is_current (st_tls st) self = false ->
  log_msg_ack self record_ack flow ty st = Ret st' ->
  st_tls st' = st_tls st /\
  ack_and_ref_and_abort_and_suspended (st_msg st') =
    updated_word (ack_and_ref_and_abort_and_suspended (st_msg st)) 0 (-1)
      (IS_ACK_ABORTED ty) (IS_ACK_SUSPENDED ty) /\
  freed (st_msg st') = freed (st_msg st) /\
  (if bool_decide (LOGMSG_REFCACHE_VALUE_TO_ACK (ack_and_ref_and_abort_and_suspended (st_msg st)) = 1)
   then exists ty, acked (st_msg st') = acked (st_msg st) ++ [ty]
   else acked (st_msg st') = acked (st_msg st)).
Proof.
  intros Hc Hrun. unfold log_msg_ack in Hrun. rewrite Hc in Hrun.
  cbn [flow ack_needed log_msg_update_ack_and_ref_and_abort_and_suspended st_tls st_msg] in Hrun.
  destruct (bool_decide (LOGMSG_REFCACHE_VALUE_TO_ACK _ = 1)); [|by injection Hrun as <-].
  repeat case_bool; injection Hrun as <-; simpl; eauto.
Qed.

Lemma ack_post (ty : AckType) (t t' : thread) (m m' : Counted) (f : fields) : ready t m f ->
  event_ok (EAck ty) t = true -> run_event (EAck ty) t m = Ret (t', m') -> ev_post t m f t' m'.
Proof.
  intros Hrd Hok Hrun. pose proof Hrd as [Ht Hw Hfo Hfr Hsr Hsa Hor Hoa].
  apply andb_true_iff in Hok as [Hown Hns]. apply bool_decide_eq_true in Hown, Hns.
  cbn [run_event] in Hrun. destruct (bool_decide_reflect (t_phase t = Idle)) as [Hp|Hp].
  - destruct (log_msg_ack _ _ _ _ _) as [st'|] eqn:Erun; [|done]. injection Hrun as <- <-.
    apply direct_ack_run in Erun as (Htls & Hword & Hfreed & Hack); cbn [st_tls st_msg] in *.
    2: { rewrite tinv_current by done. by rewrite bool_decide_eq_true_2. }
    rewrite Htls, <- (Z.add_0_r (own_refs t)). pose proof (ack_flag_range ty) as [? ?].
    rewrite Hw, VALUE_TO_ACK_pack in Hack by done. rewrite slack_acks_idle in Hsa by done.
    destruct Ht as (? & ? & _).
    apply (direct_post _ _ _ _ 0 (-1) (IS_ACK_ABORTED ty) (IS_ACK_SUSPENDED ty)); simpl; try done; try lia.
    + by rewrite Z.add_0_r, Hfreed.
    + rewrite (bool_decide_ext _ (f_ack f = 1)); [done|lia].
  - unfold log_msg_ack in Hrun. cbn [flow ack_needed st_tls st_msg] in Hrun.
    rewrite (tinv_current t Ht), bool_decide_eq_false_2 in Hrun by done.
    injection Hrun as <- <-. pose proof Ht as (? & ? & ? & Hph).
    apply (cached_acks_post _ _ _ (-1)); try (done || lia).
    destruct (t_phase t); [done|by destruct Hph as (_ & ? & _)| |done].
    destruct Hph as (_ & _ & Hif). destruct (logmsg_cached_ack_needed _); [done|lia].
Qed.

Lemma start_consumer_post (po : LogPathOptions) (t t' : thread) (m m' : Counted) (f : fields) : ready t m f ->
  event_ok (EStartConsumer po) t = true -> run_event (EStartConsumer po) t m = Ret (t', m') ->
  ev_post t m f t' m'.
Proof.
  intros Hrd Hok Hrun. pose proof Hrd as [Ht _ _ _ _ _ _ _]. simpl in Hok.
  apply andb_true_iff in Hok as [[Hp Href]%andb_true_iff Hack]. apply bool_decide_eq_true in Hp, Href.
  simpl in Hrun. unfold log_msg_refcache_start_consumer in Hrun. simpl in Hrun.
  destruct (g_assert _); [|done]. injection Hrun as <- <-. destruct Ht as (? & ? & _).
  apply slack_unchanged_post; [done| |..].
  2: { rewrite (slack_refs_idle t), slack_refs_caching by done. simpl. lia. }
  2: { rewrite (slack_acks_idle t), slack_acks_caching by done. simpl. lia. }
  unfold tinv. rewrite slack_refs_caching, slack_acks_caching by done. simpl.
  unfold is_current; simpl. rewrite bool_decide_eq_true_2 by done.
  destruct (ack_needed po); apply bool_decide_eq_true in Hack; auto with lia.
Qed.

Lemma other_post (tls : TLS) (t t' : thread) (m m' : Counted) (f : fields) : ready t m f ->
  event_ok (EOther tls) t = true -> run_event (EOther tls) t m = Ret (t', m') -> ev_post t m f t' m'.
Proof.
  intros Hrd Hok Hrun. pose proof Hrd as [Ht _ _ _ _ _ _ _]. simpl in Hok.
  apply andb_true_iff in Hok as [Hp Hcur]. apply bool_decide_eq_true in Hp. apply negb_true_iff in Hcur.
  injection Hrun as <- <-. destruct Ht as (? & ? & _).
  apply slack_unchanged_post; [done| |by rewrite !slack_refs_idle|by rewrite !slack_acks_idle].
  unfold tinv. rewrite slack_acks_idle by done. simpl. auto.
Qed.
(** The first fold, on a thread that caches the message. *)
Lemma fold_acks_run (tls : TLS) (m : Counted) (report : option AckType) (st' : rstate) :
  is_current tls self = true ->
  refcache_stop_fold_acks self (mkRState tls m) = Ret (report, st') ->
  st' = mkRState (mkTLS (logmsg_current tls) (logmsg_cached_ack_needed tls)
                        (s32 (logmsg_cached_refs tls + 1)) 0 false false)
          (set_word m (updated_word (ack_and_ref_and_abort_and_suspended m) 0 (logmsg_cached_acks tls)
             (Z_of_bool (logmsg_cached_abort tls)) (Z_of_bool (logmsg_cached_suspend tls)))) /\
  bool_decide (is_Some report) =
    (bool_decide (LOGMSG_REFCACHE_VALUE_TO_ACK (ack_and_ref_and_abort_and_suspended m)
                  = - logmsg_cached_acks tls) && logmsg_cached_ack_needed tls).
Proof.
  intros Hc. unfold refcache_stop_fold_acks, log_msg_ref. cbn [st_tls st_msg]. rewrite Hc.
  destruct (g_assert _); [|done]. destruct (g_assert (cache_in_range _)); [|done].
  destruct (g_assert (cache_in_range _)); [|done].
  cbn [obind log_msg_update_ack_and_ref_and_abort_and_suspended add_cached_refs st_tls st_msg
       logmsg_cached_acks logmsg_cached_abort logmsg_cached_suspend logmsg_cached_ack_needed
       logmsg_current logmsg_cached_refs].
  destruct (bool_decide _ && _) eqn:E; intros [= <- <-]; (split; [done|]).
  - by apply bool_decide_eq_true.
  - apply bool_decide_eq_false. by intros [? ?].
Qed.

Lemma tinv_phase_refs (t : thread) : tinv t -> t_phase t <> Idle -> 1 <= slack_refs t.
Proof. intros (_ & _ & _ & H) Hp. destruct (t_phase t); [done|apply H..]. Qed.

Lemma fold_acks_tinv (t : thread) (m : Counted) (f : fields) : ready t m f -> t_phase t <> Idle ->
  let tls := t_tls t in
  let t' := mkThread (mkTLS (logmsg_current tls) (logmsg_cached_ack_needed tls)
              (s32 (logmsg_cached_refs tls + 1)) 0 false false) Stopping (own_refs t + 1) (own_acks t) in
  tinv t' /\ slack_refs t' - slack_refs t = 0 /\
  slack_acks t' - slack_acks t = logmsg_cached_acks tls.
Proof.
  intros Hrd Hp tls t'. pose proof Hrd as [Ht _ _ _ _ _ _ _].
  pose proof (cached_refs_bound t m f Hrd Hp). pose proof (tinv_phase_refs t Ht Hp).
  pose proof (tinv_current t Ht) as Hc. rewrite bool_decide_eq_false_2 in Hc by done.
  rewrite (slack_refs_caching t), (slack_acks_caching t) in * by done.
  assert (slack_refs t' = own_refs t - logmsg_cached_refs tls) as Hr.
  { rewrite slack_refs_caching by done. subst t' tls; simpl. rewrite s32_small by lia. lia. }
  assert (slack_acks t' = own_acks t) as Ha by (rewrite slack_acks_caching by done; simpl; lia).
  rewrite Hr, Ha. destruct Ht as (? & ? & _ & _). subst tls.
  split; [|lia]. unfold tinv. rewrite Hr, Ha. simpl. auto with lia.
Qed.

Lemma fold_acks_post (t t' : thread) (m m' : Counted) (f : fields) : ready t m f ->
  event_ok EFoldAcks t = true -> run_event EFoldAcks t m = Ret (t', m') -> ev_post t m f t' m'.
Proof.
  intros Hrd Hok Hrun. pose proof Hrd as [Ht Hw Hfo Hfr Hsr Hsa Hor Hoa]. cbn [run_event] in Hrun.
  assert (Hp : t_phase t = Producer \/ t_phase t = Consumer).
  { apply orb_true_iff in Hok as [H|H]; apply bool_decide_eq_true in H; auto. }
  assert (Hni : t_phase t <> Idle) by (destruct Hp; congruence).
  destruct (refcache_stop_fold_acks _ _) as [[report st']|] eqn:E; [|done].
  apply fold_acks_run in E as [-> Hrep]; [|rewrite tinv_current by done; by rewrite bool_decide_eq_false_2].
  destruct (fold_acks_tinv t m f Hrd Hni) as (Ht' & Hdr & Hda). simpl in Ht', Hdr, Hda.
  assert (Hrun' : t' = mkThread (mkTLS (logmsg_current (t_tls t)) (logmsg_cached_ack_needed (t_tls t))
              (s32 (logmsg_cached_refs (t_tls t) + 1)) 0 false false) Stopping (own_refs t + 1) (own_acks t) /\
     ack_and_ref_and_abort_and_suspended m' = updated_word (pack f) 0 (logmsg_cached_acks (t_tls t))
         (Z_of_bool (logmsg_cached_abort (t_tls t))) (Z_of_bool (logmsg_cached_suspend (t_tls t))) /\
     freed m' = freed m /\ acked m' = acked m ++ option_list report).
  { destruct report; injection Hrun as <- <-; simpl; rewrite ?app_nil_r, <- ?Hw; auto. }
  clear Hrun. destruct Hrun' as (-> & Hm' & Hf' & Ha'). unfold ev_post. rewrite Hdr, Hda, Hm', Hf', Ha'.
  rewrite Hw, VALUE_TO_ACK_pack in Hrep by done. rewrite slack_acks_caching in Hsa by done.
  split; [done|]. split; [|split; [by rewrite Z.add_0_r|split]].
  - do 2 eexists. rewrite updated_word_pack by (done || apply flag_range). eauto using flag_range.
  - intros Hz. destruct Ht as (_ & Hoa0 & _ & Hph). rewrite slack_acks_caching in Hph by done.
    destruct Hp as [Hp|Hp]; rewrite Hp in Hph; [lia|]. destruct Hph as (_ & _ & Hs).
    destruct (logmsg_cached_ack_needed _); lia.
  - rewrite (bool_decide_ext _ (is_Some report)); [destruct report; simpl; eauto using app_nil_r|].
    rewrite <- (bool_decide_eq_true (is_Some report)), Hrep, andb_true_iff, bool_decide_eq_true.
    destruct Ht as (_ & Hoa0 & _ & Hph). rewrite slack_acks_caching in Hph by done.
    destruct Hp as [Hp|Hp]; rewrite Hp in Hph.
    + destruct Hph as (_ & -> & _ & Hs). lia.
    + destruct Hph as (_ & _ & Hs). destruct (logmsg_cached_ack_needed _); lia.
Qed.

(** The second fold. *)
Lemma fold_refs_run (tls : TLS) (m : Counted) (st' : rstate) : is_current tls self = true ->
  refcache_stop_fold_refs self (mkRState tls m) = Ret st' ->
  let cached := s32 (logmsg_cached_refs tls + -1) in
  st_tls st' = mkTLS None (logmsg_cached_ack_needed tls) 0 (logmsg_cached_acks tls)
                 (logmsg_cached_abort tls) (logmsg_cached_suspend tls) /\
  ack_and_ref_and_abort_and_suspended (st_msg st') =
    updated_word (ack_and_ref_and_abort_and_suspended m) cached 0 0 0 /\
  freed (st_msg st') =
    (bool_decide (LOGMSG_REFCACHE_VALUE_TO_REF (ack_and_ref_and_abort_and_suspended m) = - cached) || freed m) /\
  acked (st_msg st') = acked m.
Proof.
  intros Hc. unfold refcache_stop_fold_refs, log_msg_unref. cbn [st_tls st_msg]. rewrite Hc.
  cbn [obind log_msg_update_ack_and_ref log_msg_update_ack_and_ref_and_abort_and_suspended add_cached_refs
       st_tls st_msg logmsg_cached_refs logmsg_cached_ack_needed logmsg_cached_acks
       logmsg_cached_abort logmsg_cached_suspend].
  intros [= <-]. by destruct (bool_decide _).
Qed.

Lemma fold_refs_post (t t' : thread) (m m' : Counted) (f : fields) : ready t m f ->
  event_ok EFoldRefs t = true -> run_event EFoldRefs t m = Ret (t', m') -> ev_post t m f t' m'.
Proof.
  intros Hrd Hok Hrun. pose proof Hrd as [Ht Hw Hfo Hfr Hsr Hsa Hor Hoa].
  apply andb_true_iff in Hok as [Hp Ho]. apply bool_decide_eq_true in Hp, Ho.
  assert (Hni : t_phase t <> Idle) by congruence. pose proof (cached_refs_bound t m f Hrd Hni) as Hb.
  pose proof (tinv_phase_refs t Ht Hni) as Hs. rewrite slack_refs_caching in Hs, Hsr by done.
  cbn [run_event] in Hrun. destruct (refcache_stop_fold_refs _ _) as [st'|] eqn:E; [|done].
  apply fold_refs_run in E as (Htls & Hm' & Hf' & Ha');
    [|rewrite tinv_current by done; by rewrite bool_decide_eq_false_2].
  rewrite s32_small, Hw in Hm', Hf' by lia. rewrite VALUE_TO_REF_pack in Hf' by done.
  injection Hrun as <- <-. destruct Ht as (_ & ? & _ & Hph). rewrite Hp in Hph. destruct Hph as (_ & _ & Hca).
  unfold ev_post. rewrite (slack_refs_caching t), (slack_acks_caching t) by done.
  rewrite slack_refs_idle, slack_acks_idle by done. cbn [own_refs own_acks]. rewrite Hca, Hm', Hf', Ha'.
  replace (own_refs t - 1 - (own_refs t - logmsg_cached_refs (t_tls t)))
    with (logmsg_cached_refs (t_tls t) + -1) by lia.
  replace (own_acks t - (own_acks t - 0)) with 0 by lia.
  split; [|split; [|split; [|split; [done|]]]].
  - unfold tinv. rewrite slack_acks_idle by done. cbn [own_refs own_acks t_phase t_tls].
    rewrite Htls. auto with lia.
  - exists 0, 0. by rewrite updated_word_pack by done.
  - rewrite Hfr, (bool_decide_eq_false_2 (f_ref f = 0)), orb_false_r by lia. apply bool_decide_ext. lia.
  - rewrite bool_decide_eq_false_2 by lia. done.
Qed.

Lemma event_post (ev : event) (t t' : thread) (m m' : Counted) (f : fields) : ready t m f ->
  event_ok ev t = true -> run_event ev t m = Ret (t', m') -> ev_post t m f t' m'.
Proof.
  destruct ev; eauto using ref_post, unref_post, add_ack_post, ack_post, start_consumer_post,
    fold_acks_post, fold_refs_post, other_post.
Qed.

(** ** The invariant is preserved *)

Lemma winv_nonneg (w : world) : winv w ->
  Forall (fun t => 0 <= slack_refs t) (w_threads w) /\ Forall (fun t => 0 <= slack_acks t) (w_threads w) /\
  Forall (fun t => 0 <= own_refs t) (w_threads w) /\ Forall (fun t => 0 <= own_acks t) (w_threads w).
Proof.
  intros [H _ _ _ _ _]. split_and!; (eapply Forall_impl; [exact H|]); intros t Ht;
    [by apply tinv_slack_refs|by apply tinv_slack_acks|by destruct Ht|by destruct Ht as (_ & ? & _)].
Qed.

Lemma winv_ready (w : world) (i : nat) (t : thread) : winv w -> w_threads w !! i = Some t ->
  exists ab su, ready t (w_msg w) (mkFields (total slack_refs (w_threads w)) (total slack_acks (w_threads w)) ab su).
Proof.
  intros Hw Hi. pose proof (winv_nonneg w Hw) as (N1 & N2 & N3 & N4).
  destruct Hw as [Hth (B1 & B2 & B3 & B4) (ab & su & Hword & Hab & Hsu) Hfr _ _].
  exists ab, su. split; simpl.
  - by eapply (Forall_lookup_1 tinv).
  - done.
  - split; [|split; [|done]]; simpl; auto using total_nonneg.
  - destruct (freed (w_msg w)); symmetry; [apply bool_decide_eq_true|apply bool_decide_eq_false]; [tauto|].
    rewrite <- Hfr. done.
  - by eapply total_ge.
  - by eapply total_ge.
  - eapply Z.le_lt_trans; [by eapply (total_ge own_refs)|done].
  - eapply Z.le_lt_trans; [by eapply (total_ge own_acks)|done].
Qed.
Lemma step_event_winv (w : world) (i : nat) (ev : event) (t t' : thread) (m' : Counted) : winv w ->
  w_threads w !! i = Some t -> event_ok ev t = true -> run_event ev t (w_msg w) = Ret (t', m') ->
  no_overflow (<[i:=t']> (w_threads w)) -> winv (mkWorld m' (<[i:=t']> (w_threads w))).
Proof.
  intros Hw Hi Hok Hrun Hno. destruct (winv_ready w i t Hw Hi) as (ab & su & Hrd).
  destruct (event_post _ _ _ _ _ _ Hrd Hok Hrun) as (Ht' & (ab' & su' & Hab & Hsu & Hword) & Hfr & Hz & Hack).
  destruct Hw as [Hth _ _ Hfr0 Hack0 Honce]. simpl in Hfr, Hz, Hack.
  assert (Hth' : Forall tinv (<[i:=t']> (w_threads w))) by by apply Forall_insert.
  assert (0 <= total slack_refs (<[i:=t']> (w_threads w)) /\ 0 <= total slack_acks (<[i:=t']> (w_threads w)))
    as [P1 P2].
  { split; apply total_nonneg; (eapply Forall_impl; [exact Hth'|]);
      [apply tinv_slack_refs|apply tinv_slack_acks]. }
  pose proof (total_insert slack_refs _ _ _ t' Hi) as Er. pose proof (total_insert slack_acks _ _ _ t' Hi) as Ea.
  pose proof (rd_ok _ _ _ Hrd) as (_ & (? & _) & Hab0 & Hsu0). simpl in *. destruct Hno as (O1 & O2 & O3).
  split; simpl; try done.
  - exists (Z.lor ab ab'), (Z.lor su su'). split; [|auto using lor_flag_range].
    rewrite Hword. unfold pack, updated_fields; simpl. rewrite !Z.mod_small by lia. lia.
  - rewrite Hfr, bool_decide_eq_true. lia.
  - case_bool.
    + destruct Hack as [ty Hty]. rewrite Hty. split; [lia|]. intros _ []%app_nil. done.
    + rewrite Hack, Hack0. lia.
  - case_bool; [|by rewrite Hack]. destruct Hack as [ty Hty]. rewrite Hty, length_app; simpl.
    destruct (acked (w_msg w)) eqn:E; simpl; [lia|]. exfalso. rewrite (proj1 Hack0 ltac:(done)) in *. lia.
Qed.

(** Moving a reference or an acknowledgement leaves every total alone. *)
Lemma move_winv (w : world) (ts : list thread) : winv w -> Forall tinv ts ->
  (forall g, g = slack_refs \/ g = slack_acks \/ g = own_refs \/ g = own_acks ->
     total g ts = total g (w_threads w)) ->
  winv (mkWorld (w_msg w) ts).
Proof.
  intros [Hth Hno Hword Hfr Hack Honce] Hts Htot.
  split; simpl; unfold no_overflow; rewrite ?(Htot slack_refs), ?(Htot slack_acks), ?(Htot own_refs),
    ?(Htot own_acks) by auto; done.
Qed.

Lemma total_move (g : thread -> Z) (ts : list thread) (i j : nat) (t u t' u' : thread) :
  i <> j -> ts !! i = Some t -> ts !! j = Some u -> g t' + g u' = g t + g u ->
  total g (<[j:=u']> (<[i:=t']> ts)) = total g ts.
Proof.
  intros Hij Hi Hj Hg. rewrite (total_insert g (<[i:=t']> ts) j u), (total_insert g ts i t); [lia|done|].
  by rewrite list_lookup_insert_ne.
Qed.

Lemma give_ref_tinv (t : thread) : tinv t -> can_give slack_refs own_refs t = true -> tinv (give_ref (-1) t).
Proof.
  intros (H1 & H2 & H3 & H4) [Ho Hs]%andb_true_iff. apply bool_decide_eq_true in Ho.
  unfold tinv, slack_acks, slack_refs in *. simpl in *. split_and!; [lia|done|done|].
  destruct (t_phase t); simpl in *; [done|apply bool_decide_eq_true in Hs..]; repeat split; try apply H4; lia.
Qed.

Lemma give_ack_tinv (t : thread) : tinv t -> can_give slack_acks own_acks t = true -> tinv (give_ack (-1) t).
Proof.
  intros (H1 & H2 & H3 & H4) [Ho Hs]%andb_true_iff. apply bool_decide_eq_true in Ho.
  unfold tinv, slack_acks, slack_refs in *. simpl in *.
  destruct (t_phase t); simpl in *; [auto with lia|apply bool_decide_eq_true in Hs..];
    repeat split; try apply H4; try lia.
  destruct H4 as (_ & _ & H4). destruct (logmsg_cached_ack_needed _); lia.
Qed.

Lemma receive_tinv (u : thread) : tinv u -> t_phase u = Idle -> tinv (give_ref 1 u) /\ tinv (give_ack 1 u).
Proof.
  intros (H1 & H2 & H3 & H4) Hp. unfold tinv, slack_acks in *. simpl. rewrite Hp in *. simpl in *.
  auto 10 with lia.
Qed.

Lemma slack_give (d : Z) (t : thread) :
  slack_refs (give_ref d t) = slack_refs t + d /\ slack_acks (give_ref d t) = slack_acks t /\
  slack_refs (give_ack d t) = slack_refs t /\ slack_acks (give_ack d t) = slack_acks t + d.
Proof. unfold slack_refs, slack_acks; simpl. lia. Qed.

Lemma step_winv (w w' : world) : winv w -> step w w' -> winv w'.
Proof.
  intros Hw Hs. destruct Hs as [i ev t t' m' w Hi Hok Hrun Hno|i j t u w Hij Hi Hj Hp Hg|i j t u w Hij Hi Hj Hp Hg];
    [by eapply step_event_winv|..]; pose proof (winv_threads _ Hw) as Hth;
    pose proof (Forall_lookup_1 _ _ _ _ Hth Hi) as Hti; pose proof (Forall_lookup_1 _ _ _ _ Hth Hj) as Htj;
    pose proof (receive_tinv u Htj Hp) as [Hr1 Hr2]; apply move_winv; auto using Forall_insert, give_ref_tinv, give_ack_tinv;
    intros g Hgs; eapply total_move; try done;
    pose proof (slack_give 1 u); pose proof (slack_give (-1) t);
    destruct Hgs as [->|[->|[->| ->]]]; simpl; lia.
Qed.
End threads.
