(* ===== verification/LogMsgRefSpec.v ===== *)
(** * The guarantees of the message counters

    What holds in every interleaving of [LogMsgRefInv], that no assertion of
    the counting code fires, and what the packed word and the reported
    acknowledgement type are. *)
From S2P Require Import Prelude LogMsgRef LogMsgRefInv.

(** ** Reachable worlds *)

Lemma start_winv (self : Z) (n : nat) (w : world) : start_world self n = Ret w -> winv self w.
Proof.
  unfold start_world, log_msg_refcache_start_producer. simpl. intros [= <-].
  assert (Hz : forall g : thread -> Z, g (mkThread tls_init Idle 0 0) = 0 ->
            total g (replicate n (mkThread tls_init Idle 0 0)) = 0).
  { intros g Hg. induction n as [|n IH]; simpl; [done|]. rewrite Hg, IH. done. }
  change (biased_word initial_word) with (pack (mkFields 8193 8192 0 0)).
  assert (Forall (tinv self) (replicate n (mkThread tls_init Idle 0 0))) as Hth.
  { apply Forall_replicate. unfold tinv; simpl. done. }
  split; simpl; unfold no_overflow; simpl; rewrite ?(Hz slack_refs), ?(Hz slack_acks), ?(Hz own_refs),
    ?(Hz own_acks) by done.
  - constructor; [|done]. unfold tinv, is_current; simpl. rewrite bool_decide_eq_true_2 by done. done.
  - done.
  - by exists 0, 0.
  - done.
  - split; done.
  - lia.
Qed.

Lemma reachable_winv (self : Z) (w : world) : reachable self w -> winv self w.
Proof. induction 1; eauto using start_winv, step_winv. Qed.

(** Runs of concrete actions. *)
Inductive action :=
| Do (i : nat) (ev : event)
| PassRef (i j : nat)
| PassAck (i j : nat).

Definition no_overflowb (ts : list thread) : bool :=
  bool_decide (total slack_refs ts < 2 ^ 15) && bool_decide (total slack_acks ts < 2 ^ 15) &&
  bool_decide (total own_refs ts < 2 ^ 15) && bool_decide (total own_acks ts < 2 ^ 15).

Definition pass (slack own : thread -> Z) (give : Z -> thread -> thread) (i j : nat) (w : world) : option world :=
  t ← w_threads w !! i; u ← w_threads w !! j;
  if bool_decide (i <> j) && bool_decide (t_phase u = Idle) && can_give slack own t
  then Some (mkWorld (w_msg w) (<[j:=give 1 u]> (<[i:=give (-1) t]> (w_threads w)))) else None.

Definition run_action (self : Z) (a : action) (w : world) : option world :=
  match a with
  | Do i ev =>
      t ← w_threads w !! i;
      if event_ok self ev t then
        match run_event self ev t (w_msg w) with
        | Ret (t', m') =>
            if no_overflowb (<[i:=t']> (w_threads w)) then Some (mkWorld m' (<[i:=t']> (w_threads w))) else None
        | Abort => None
        end
      else None
  | PassRef i j => pass slack_refs own_refs give_ref i j w
  | PassAck i j => pass slack_acks own_acks give_ack i j w
  end.

Fixpoint run_actions (self : Z) (l : list action) (w : world) : option world :=
  match l with
  | [] => Some w
  | a :: l => w' ← run_action self a w; run_actions self l w'
  end.

Lemma pass_inv (slack own : thread -> Z) (give : Z -> thread -> thread) (i j : nat) (w w' : world) :
  pass slack own give i j w = Some w' -> exists t u,
  i <> j /\ w_threads w !! i = Some t /\ w_threads w !! j = Some u /\ t_phase u = Idle /\
  can_give slack own t = true /\
  w' = mkWorld (w_msg w) (<[j:=give 1 u]> (<[i:=give (-1) t]> (w_threads w))).
Proof.
  unfold pass. intros H. destruct (w_threads w !! i) as [t|] eqn:Hi; [|done].
  destruct (w_threads w !! j) as [u|] eqn:Hj; [|done]. simpl in H.
  destruct (bool_decide _ && _ && _) eqn:E; [|done]. injection H as <-.
  apply andb_true_iff in E as [[E1 E2]%andb_true_iff E3]. apply bool_decide_eq_true in E1, E2.
  exists t, u. auto 10.
Qed.

Lemma run_action_step (self : Z) (a : action) (w w' : world) : run_action self a w = Some w' -> step self w w'.
Proof.
  destruct a as [i ev|i j|i j]; simpl.
  - destruct (w_threads w !! i) as [t|] eqn:Hi; [simpl|done].
    destruct (event_ok self ev t) eqn:Hok; [|done].
    destruct (run_event self ev t (w_msg w)) as [[t' m']|] eqn:Hrun; [|done].
    destruct (no_overflowb _) eqn:Hno; [|done]. intros [= <-]. econstructor; try done.
    unfold no_overflowb in Hno. by rewrite !andb_true_iff, !bool_decide_eq_true in Hno; destruct Hno as [[[? ?] ?] ?].
  - intros (t & u & Hij & Hi & Hj & Hp & Hg & ->)%pass_inv. by econstructor.
  - intros (t & u & Hij & Hi & Hj & Hp & Hg & ->)%pass_inv. by econstructor.
Qed.

Lemma run_actions_reachable (self : Z) (l : list action) (w w' : world) : reachable self w ->
  run_actions self l w = Some w' -> reachable self w'.
Proof.
  revert w; induction l as [|a l IH]; intros w Hw H; simplify_eq/=; [done|].
  destruct (run_action self a w) as [w1|] eqn:E; [|done].
  eapply IH; [|exact H]. econstructor; [done|]. by eapply run_action_step.
Qed.

(** ** Claims *)

(** Nothing that needs the message is left in the thread. *)
Definition refs_done (t : thread) : Prop := t_phase t = Idle /\ own_refs t = 0.

Definition acks_done (t : thread) : Prop :=
  own_acks t = 0 /\
  match t_phase t with
  | Idle | Stopping => True
  | Producer => False
  | Consumer => logmsg_cached_ack_needed (t_tls t) = false
  end.

Lemma slack_refs_done (self : Z) (t : thread) : tinv self t -> slack_refs t = 0 <-> refs_done t.
Proof.
  intros Ht. split.
  - intros H. destruct (decide (t_phase t = Idle)) as [Hp|Hp].
    + rewrite slack_refs_idle in H by done. done.
    + pose proof (tinv_phase_refs self t Ht Hp). lia.
  - intros [Hp Ho]. rewrite slack_refs_idle; done.
Qed.

Lemma slack_acks_done (self : Z) (t : thread) : tinv self t -> slack_acks t = 0 <-> acks_done t.
Proof.
  intros (H1 & H2 & H3 & H4). unfold slack_acks, acks_done in *.
  destruct (t_phase t); simpl in *.
  - intuition lia.
  - split; [lia|tauto].
  - destruct H4 as (_ & _ & H4). destruct (logmsg_cached_ack_needed _); [|intuition lia].
    split; [lia|by intros [_ ?]].
  - destruct H4 as (_ & _ & ->). intuition lia.
Qed.

Lemma Forall_iff_under {A} (P Q R : A -> Prop) (l : list A) :
  Forall R l -> (forall x, R x -> P x <-> Q x) -> Forall P l <-> Forall Q l.
Proof. intros HR H. rewrite !Forall_forall in *. split; intros HP x Hx; eapply H; eauto. Qed.

(** C4: whatever the interleaving of the threads that share a message and
    cache its counters, the message is freed exactly when no thread is left
    with a reference or in a cached section, and its acknowledgement callback
    has run - at most once - exactly when every acknowledgement arrived. *)
Theorem log_msg_counters_safe (self : Z) (w : world) : reachable self w ->
  (freed (w_msg w) = true <-> Forall refs_done (w_threads w)) /\
  (acked (w_msg w) <> [] <-> Forall acks_done (w_threads w)) /\
  (length (acked (w_msg w)) <= 1)%nat.
Proof.
  intros Hr%reachable_winv. pose proof (winv_nonneg self w Hr) as (N1 & N2 & _ & _).
  destruct Hr as [Hth _ _ Hfr Hack Honce]. split; [|split; [|done]].
  - rewrite Hfr, total_zero by done. eapply Forall_iff_under; [exact Hth|apply slack_refs_done].
  - rewrite Hack, total_zero by done. eapply Forall_iff_under; [exact Hth|apply slack_acks_done].
Qed.

Definition demo_start : world :=
  match start_world 1000 1 with Ret w => w | Abort => mkWorld (mkCounted 0 [] false) [] end.

(** The producer hands a reference and the acknowledgement to a consumer,
    which acknowledges and drops the message after the producer finished. *)
Definition demo_run : list action :=
  [Do 0 EAddAck; Do 0 ERef; PassAck 0 1; PassRef 0 1; Do 0 EUnref; Do 0 EFoldAcks; Do 0 EFoldRefs;
   Do 1 (EStartConsumer flow); Do 1 (EAck AT_PROCESSED); Do 1 EUnref; Do 1 EFoldAcks; Do 1 EFoldRefs].

Definition demo_end (k : nat) : world :=
  match run_actions 1000 (take k demo_run) demo_start with
  | Some w => w | None => mkWorld (mkCounted 0 [] true) []
  end.

Lemma demo_reachable (k : nat) :
  match run_actions 1000 (take k demo_run) demo_start with Some _ => true | None => false end = true ->
  reachable 1000 (demo_end k).
Proof.
  unfold demo_end. destruct (run_actions _ _ _) as [w|] eqn:Hw; [|done]. intros _.
  eapply run_actions_reachable; [|exact Hw]. by apply (reach_start _ 1).
Qed.

Lemma log_msg_counters_safe_witness :
  (freed (w_msg (demo_end 11)) = false /\ acked (w_msg (demo_end 11)) = [AT_PROCESSED] /\
   ~ Forall refs_done (w_threads (demo_end 11))) /\
  (freed (w_msg (demo_end 12)) = true /\ Forall refs_done (w_threads (demo_end 12)) /\
   Forall acks_done (w_threads (demo_end 12))).
Proof.
  split.
  - split; [by vm_compute|]. split; [by vm_compute|].
    destruct (log_msg_counters_safe 1000 (demo_end 11)) as [[_ H] _]; [apply demo_reachable; by vm_compute|].
    intros HF. specialize (H HF). by vm_compute in H.
  - destruct (log_msg_counters_safe 1000 (demo_end 12)) as ([H1 _] & [H2 _] & _); [apply demo_reachable; by vm_compute|].
    split; [by vm_compute|]. split; [apply H1; by vm_compute|apply H2; by vm_compute].
Defined.

(** in every reachable state, a thread that counts only on references and
    acknowledgements it is in charge of never hits an assertion of the
    counting functions. *)
Theorem log_msg_counters_no_assert (self : Z) (w : world) (i : nat) (t : thread) (ev : event)
  (Hr : reachable self w) (Hi : w_threads w !! i = Some t) (Hok : event_ok self ev t = true)
  (Hev : match ev with ERef | EUnref | EAddAck | EAck _ | EFoldRefs => True | _ => False end) :
  is_Some (match run_event self ev t (w_msg w) with Ret r => Some r | Abort => None end).
Proof.
  apply reachable_winv in Hr. destruct (winv_ready self w i t Hr Hi) as (ab & su & Hrd).
  pose proof (rd_tinv _ _ _ _ Hrd) as Ht. pose proof (rd_ok _ _ _ _ Hrd) as Hfo.
  pose proof (rd_word _ _ _ _ Hrd) as Hw. pose proof (rd_slack_refs _ _ _ _ Hrd) as Hs. simpl in Hs.
  pose proof (tinv_current self t Ht) as Hc.
  destruct ev; try done; simpl in Hok.
  1, 2: apply bool_decide_eq_true in Hok; cbn [run_event]; unfold log_msg_ref, log_msg_unref;
    cbn [st_tls]; rewrite Hc; destruct (bool_decide_reflect (t_phase t = Idle)) as [Hp|Hp];
    cbn [negb]; [|eauto]; rewrite slack_refs_idle in Hs by done;
    cbn [log_msg_update_ack_and_ref log_msg_update_ack_and_ref_and_abort_and_suspended st_msg];
    rewrite Hw, VALUE_TO_REF_pack, bool_decide_eq_true_2 by (done || simpl; lia); cbn [g_assert obind f_ref];
    try case_bool; by eexists.
  - cbn [run_event]. unfold log_msg_add_ack. by destruct (ack_needed flow), (is_current _ _).
  - cbn [run_event]. unfold log_msg_ack. destruct (ack_needed flow); [|by eexists].
    destruct (is_current _ _); [by eexists|].
    cbn [log_msg_update_ack_and_ref_and_abort_and_suspended]. repeat case_bool; by eexists.
  - apply andb_true_iff in Hok as [Hp _]. apply bool_decide_eq_true in Hp. cbn [run_event].
    unfold refcache_stop_fold_refs, log_msg_unref. cbn [st_tls]. rewrite Hc, Hp. by eexists.
Qed.

Lemma log_msg_counters_no_assert_witness :
  is_Some (match run_event 1000 (EAck AT_PROCESSED)
             (default (mkThread tls_init Idle 0 0) (w_threads (demo_end 8) !! 1%nat)) (w_msg (demo_end 8))
           with Ret r => Some r | Abort => None end).
Proof.
  apply (log_msg_counters_no_assert 1000 (demo_end 8) 1); [apply demo_reachable; by vm_compute|by vm_compute..|done].
Defined.

(** the update of the packed word changes each field by itself: both
    counters modulo 2^15, both flags sticky, and nothing carries from one
    field into another one, for any 32 bit word. *)
Theorem log_msg_update_fieldwise (st : rstate) (add_ref add_ack add_abort add_suspend : Z)
  (Hw : 0 <= ack_and_ref_and_abort_and_suspended (st_msg st) < 2 ^ 32)
  (Hab : 0 <= add_abort < 2) (Hsu : 0 <= add_suspend < 2) :
  let '(old, st') := log_msg_update_ack_and_ref_and_abort_and_suspended st add_ref add_ack add_abort add_suspend in
  let new := ack_and_ref_and_abort_and_suspended (st_msg st') in
  old = ack_and_ref_and_abort_and_suspended (st_msg st) /\ 0 <= new < 2 ^ 32 /\
  LOGMSG_REFCACHE_VALUE_TO_REF new = (LOGMSG_REFCACHE_VALUE_TO_REF old + add_ref) mod 2 ^ 15 /\
  LOGMSG_REFCACHE_VALUE_TO_ACK new = (LOGMSG_REFCACHE_VALUE_TO_ACK old + add_ack) mod 2 ^ 15 /\
  LOGMSG_REFCACHE_VALUE_TO_ABORT new = Z.lor (LOGMSG_REFCACHE_VALUE_TO_ABORT old) add_abort /\
  LOGMSG_REFCACHE_VALUE_TO_SUSPEND new = Z.lor (LOGMSG_REFCACHE_VALUE_TO_SUSPEND old) add_suspend.
Proof.
  destruct st as [tls [word ak fr]]. cbn [log_msg_update_ack_and_ref_and_abort_and_suspended st_msg
    ack_and_ref_and_abort_and_suspended set_word] in *.
  destruct (unpack_spec word Hw) as [Hok Hpk]. rewrite <- Hpk. set (f := unpack word) in *.
  rewrite updated_word_pack by done. pose proof (updated_fields_ok f add_ref add_ack _ _ Hok Hab Hsu) as Hok'.
  rewrite !VALUE_TO_REF_pack, !VALUE_TO_ACK_pack, !VALUE_TO_ABORT_pack, !VALUE_TO_SUSPEND_pack by done.
  split; [done|]. split; [|done]. destruct Hok' as (? & ? & ? & ?). unfold pack. lia.
Qed.

Lemma log_msg_update_fieldwise_witness :
  let st := mkRState tls_init (mkCounted 0x40007FFF [] false) in
  LOGMSG_REFCACHE_VALUE_TO_ACK (ack_and_ref_and_abort_and_suspended
    (st_msg (snd (log_msg_update_ack_and_ref_and_abort_and_suspended st 1 0 0 1)))) = 0.
Proof.
  intros st. pose proof (log_msg_update_fieldwise st 1 0 0 1 ltac:(done) ltac:(done) ltac:(done)) as H.
  apply H.
Defined.

(** The uncached acknowledgements of two destinations, one after the other. *)
Definition ack_twice (self : Z) (ty1 ty2 : AckType) (st : rstate) : outcome rstate :=
  let! st := log_msg_ack self record_ack flow ty1 st in
  log_msg_ack self record_ack flow ty2 st.

(** The cached acknowledgements of the same two destinations. *)
Definition ack_twice_cached (self : Z) (ty1 ty2 : AckType) (st : rstate) : outcome rstate :=
  let! st := log_msg_refcache_start_consumer self flow st in
  let! st := ack_twice self ty1 ty2 st in
  log_msg_refcache_stop self record_ack st.

Definition reported (o : outcome rstate) : option (list AckType) :=
  match o with Ret st => Some (acked (st_msg st)) | Abort => None end.

Lemma direct_ack_reports (self : Z) (ty : AckType) (tls : TLS) (f : fields) (l : list AckType) (fr : bool) :
  is_current tls self = false -> fields_ok f ->
  log_msg_ack self record_ack flow ty (mkRState tls (mkCounted (pack f) l fr)) =
  Ret (mkRState tls (mkCounted (pack (updated_fields f 0 (-1) (IS_ACK_ABORTED ty) (IS_ACK_SUSPENDED ty)))
        (if bool_decide (f_ack f = 1)
         then l ++ [match ty with
                    | AT_SUSPENDED => AT_SUSPENDED
                    | AT_ABORTED => AT_ABORTED
                    | _ => if bool_decide (f_suspend f = 1) then AT_SUSPENDED
                           else if bool_decide (f_abort f = 1) then AT_ABORTED else AT_PROCESSED
                    end]
         else l) fr)).
Proof.
  intros Hc Hf. pose proof (ack_flag_range ty) as [Hr1 Hr2]. unfold log_msg_ack. cbn [st_tls]. rewrite Hc.
  cbn [flow ack_needed log_msg_update_ack_and_ref_and_abort_and_suspended st_msg st_tls
       ack_and_ref_and_abort_and_suspended set_word acked freed].
  rewrite updated_word_pack, VALUE_TO_ACK_pack by done.
  unfold _ack_and_ref_and_abort_and_suspend_to_acktype, IS_SUSPENDFLAG_ON, IS_ABORTFLAG_ON.
  rewrite VALUE_TO_SUSPEND_pack, VALUE_TO_ABORT_pack by done.
  destruct (bool_decide (f_ack f = 1)); [|done]. by destruct ty.
Qed.

Lemma cached_ack_run (self : Z) (ty : AckType) (tls : TLS) (m : Counted) : is_current tls self = true ->
  log_msg_ack self record_ack flow ty (mkRState tls m) =
  Ret (mkRState (add_cached_acks tls (-1) (bool_decide (IS_ACK_ABORTED ty = 1))
                                          (bool_decide (IS_ACK_SUSPENDED ty = 1))) m).
Proof. intros Hc. unfold log_msg_ack. cbn [st_tls]. by rewrite Hc. Qed.

(** Leaving a cached section that saw a suspended acknowledgement and brings
    the counter to zero. *)
Lemma stop_reports_suspended (self refs acks : Z) (ab : bool) (f : fields) (l : list AckType) :
  fields_ok f -> cache_in_range acks = true -> cache_in_range refs = true -> f_ack f = - acks ->
  reported (log_msg_refcache_stop self record_ack
    (mkRState (mkTLS (Some self) true refs acks ab true) (mkCounted (pack f) l false))) =
  Some (l ++ [AT_SUSPENDED]).
Proof.
  intros Hf Ha Hr Hz. assert (Hcur : is_current (mkTLS (Some self) true refs acks ab true) self = true).
  { unfold is_current. by rewrite bool_decide_eq_true_2. }
  unfold log_msg_refcache_stop, refcache_stop_fold_acks, log_msg_ref. cbn [st_tls]. rewrite Hcur.
  match goal with |- context [g_assert (bool_decide ?P)] => rewrite (bool_decide_eq_true_2 P) by done end.
  cbn [logmsg_cached_acks logmsg_cached_refs]. rewrite Ha, Hr.
  cbn [g_assert obind log_msg_update_ack_and_ref_and_abort_and_suspended add_cached_refs st_tls st_msg
       logmsg_cached_acks logmsg_cached_abort logmsg_cached_suspend logmsg_cached_ack_needed
       logmsg_current logmsg_cached_refs ack_and_ref_and_abort_and_suspended].
  rewrite VALUE_TO_ACK_pack, bool_decide_eq_true_2 by done.
  cbn [andb obind record_ack st_msg st_tls logmsg_cached_acks].
  rewrite bool_decide_eq_true_2 by done. cbn [g_assert obind].
  unfold refcache_stop_fold_refs, log_msg_unref, is_current. cbn [st_tls logmsg_current].
  rewrite bool_decide_eq_true_2 by done. cbn [obind reported].
  cbn [log_msg_update_ack_and_ref log_msg_update_ack_and_ref_and_abort_and_suspended st_msg st_tls].
  by case_bool.
Qed.

(** a message that waits for two acknowledgements, one suspended and one
    aborted: cached, the callback gets AT_SUSPENDED in both orders; uncached,
    it gets the type of whichever came last. *)
Theorem ack_type_depends_on_order (self : Z) (tls : TLS) (refs : Z) (Hc : logmsg_current tls = None)
  (Hr : 1 <= refs < 2 ^ 15) :
  let st := mkRState tls (mkCounted (pack (mkFields refs 2 0 0)) [] false) in
  reported (ack_twice self AT_SUSPENDED AT_ABORTED st) = Some [AT_ABORTED] /\
  reported (ack_twice self AT_ABORTED AT_SUSPENDED st) = Some [AT_SUSPENDED] /\
  reported (ack_twice_cached self AT_SUSPENDED AT_ABORTED st) = Some [AT_SUSPENDED] /\
  reported (ack_twice_cached self AT_ABORTED AT_SUSPENDED st) = Some [AT_SUSPENDED].
Proof.
  intros st. assert (Hn : is_current tls self = false).
  { unfold is_current. rewrite Hc. by rewrite bool_decide_eq_false_2. }
  assert (Hf : fields_ok (mkFields refs 2 0 0)) by (unfold fields_ok; simpl; lia).
  split; [|split].
  1, 2: unfold ack_twice, st; rewrite direct_ack_reports by done; cbn [obind];
    rewrite direct_ack_reports by (done || by apply updated_fields_ok); done.
  split; unfold ack_twice_cached, log_msg_refcache_start_consumer, ack_twice, st; cbn [st_tls]; rewrite Hc;
    (rewrite bool_decide_eq_true_2 by done); cbn [obind g_assert st_msg];
    rewrite cached_ack_run by (unfold is_current; by rewrite bool_decide_eq_true_2);
    cbn [obind]; rewrite cached_ack_run by (unfold is_current; by rewrite bool_decide_eq_true_2);
    cbn [obind]; by apply (stop_reports_suspended self 0 (-2) true).
Qed.

Lemma ack_type_depends_on_order_witness :
  reported (ack_twice 7 AT_SUSPENDED AT_ABORTED
              (mkRState tls_init (mkCounted (pack (mkFields 1 2 0 0)) [] false))) = Some [AT_ABORTED].
Proof. exact (proj1 (ack_type_depends_on_order 7 tls_init 1 eq_refl ltac:(lia))). Defined.
