(* ===== verification/LogQueue.v ===== *)
(** * The queue base class (lib/logqueue.c, lib/logqueue.h)

    State and operations shared by every queue: the reference count, the
    counters, the wake-up callback and the throttle.  What the base class
    calls through function pointers is the class [LogQueueClass]; the FIFO
    implements it in [LogQueueFifo].  Calls that leave the queue (on messages
    and through callbacks) are returned as a list, in the order they happen. *)
From S2P Require Import Prelude LogMsgRef.

Record GTimeVal := mkGTimeVal { tv_sec : Z; tv_usec : Z }.

Definition G_USEC_PER_SEC : Z := 1000000.

Definition g_time_val_diff (t1 t2 : GTimeVal) : Z :=
  (tv_sec t1 - tv_sec t2) * G_USEC_PER_SEC + (tv_usec t1 - tv_usec t2).

(** Calls the queue makes; a message, a callback and its data are addresses. *)
Inductive call :=
| CRef (msg : Z)
| CUnref (msg : Z)
| CAck (msg : Z) (path_options : LogPathOptions) (ack_type : AckType)
| CDrop (msg : Z) (path_options : LogPathOptions) (ack_type : AckType)
| CRegisterBatch (thread_id : Z)
| CNotify (func : Z) (data : option Z)
| CDestroy (func : Z) (data : Z).

Record LogQueue := mkLogQueue {
  ref_cnt : Z;
  use_backlog : bool;
  throttle : Z;
  throttle_buckets : Z;
  last_throttle_check : GTimeVal;
  stored_messages : option Z;
  dropped_messages : option Z;
  parallel_push_notify : option Z;
  parallel_push_data : option Z;
  parallel_push_data_destroy : option Z
}.

Definition stats_counter_add (counter : option Z) (add : Z) : option Z :=
  (fun v => u32 (v + add)) <$> counter.
Definition stats_counter_inc (counter : option Z) : option Z := stats_counter_add counter 1.
Definition stats_counter_dec (counter : option Z) : option Z := stats_counter_add counter (-1).
Definition stats_counter_set (counter : option Z) (value : Z) : option Z := (fun _ => u32 value) <$> counter.

Definition set_stored (q : LogQueue) (c : option Z) : LogQueue :=
  mkLogQueue (ref_cnt q) (use_backlog q) (throttle q) (throttle_buckets q) (last_throttle_check q)
    c (dropped_messages q) (parallel_push_notify q) (parallel_push_data q) (parallel_push_data_destroy q).

Definition set_dropped (q : LogQueue) (c : option Z) : LogQueue :=
  mkLogQueue (ref_cnt q) (use_backlog q) (throttle q) (throttle_buckets q) (last_throttle_check q)
    (stored_messages q) c (parallel_push_notify q) (parallel_push_data q) (parallel_push_data_destroy q).

Definition set_ref_cnt (q : LogQueue) (n : Z) : LogQueue :=
  mkLogQueue n (use_backlog q) (throttle q) (throttle_buckets q) (last_throttle_check q)
    (stored_messages q) (dropped_messages q) (parallel_push_notify q) (parallel_push_data q)
    (parallel_push_data_destroy q).

Definition set_buckets (q : LogQueue) (n : Z) : LogQueue :=
  mkLogQueue (ref_cnt q) (use_backlog q) (throttle q) n (last_throttle_check q)
    (stored_messages q) (dropped_messages q) (parallel_push_notify q) (parallel_push_data q)
    (parallel_push_data_destroy q).

Definition set_last_check (q : LogQueue) (t : GTimeVal) : LogQueue :=
  mkLogQueue (ref_cnt q) (use_backlog q) (throttle q) (throttle_buckets q) t
    (stored_messages q) (dropped_messages q) (parallel_push_notify q) (parallel_push_data q)
    (parallel_push_data_destroy q).

Definition set_notify (q : LogQueue) (func data destroy : option Z) : LogQueue :=
  mkLogQueue (ref_cnt q) (use_backlog q) (throttle q) (throttle_buckets q) (last_throttle_check q)
    (stored_messages q) (dropped_messages q) func data destroy.

Definition log_queue_init_instance : LogQueue :=
  mkLogQueue 1 false 0 0 (mkGTimeVal 0 0) None None None None None.

Definition log_queue_push_notify (self : LogQueue) : list call * LogQueue :=
  match parallel_push_notify self with
  | Some func =>
      let user_data := parallel_push_data self in
      (CNotify func user_data ::
       match parallel_push_data_destroy self, user_data with
       | Some destroy, Some d => [CDestroy destroy d]
       | _, _ => []
       end,
       set_notify self None None None)
  | None => ([], self)
  end.

Definition log_queue_reset_parallel_push (self : LogQueue) : LogQueue :=
  set_notify self None None (parallel_push_data_destroy self).

Definition log_queue_set_parallel_push (self : LogQueue) (func data destroy : option Z) : LogQueue :=
  set_notify self func data destroy.

Definition log_queue_set_counters (length : Z) (self : LogQueue) (stored dropped : option Z) : LogQueue :=
  set_stored (set_dropped self dropped) (stats_counter_set stored length).

Definition log_queue_set_throttle (self : LogQueue) (t : Z) : LogQueue :=
  mkLogQueue (ref_cnt self) (use_backlog self) t t (last_throttle_check self)
    (stored_messages self) (dropped_messages self) (parallel_push_notify self) (parallel_push_data self)
    (parallel_push_data_destroy self).

Definition log_queue_set_use_backlog (self : LogQueue) (b : bool) : LogQueue :=
  mkLogQueue (ref_cnt self) b (throttle self) (throttle_buckets self) (last_throttle_check self)
    (stored_messages self) (dropped_messages self) (parallel_push_notify self) (parallel_push_data self)
    (parallel_push_data_destroy self).

Definition log_queue_ref (self : LogQueue) : outcome LogQueue :=
  let! _ := g_assert (bool_decide (ref_cnt self > 0)) in
  Ret (set_ref_cnt self (ref_cnt self + 1)).

(** The returned flag is whether [free_fn] is due. *)
Definition log_queue_unref (self : LogQueue) : outcome (bool * LogQueue) :=
  let! _ := g_assert (bool_decide (ref_cnt self <> 0)) in
  let n := ref_cnt self - 1 in
  Ret (bool_decide (n = 0), set_ref_cnt self n).

(** ** Throttling *)

(** The new tokens since the last check: a 64 bit quotient stored in a [gint];
    C division truncates towards zero. *)
Definition new_buckets (self : LogQueue) (diff : Z) : Z := s32 (Z.quot (throttle self * diff) G_USEC_PER_SEC).

Definition refill_buckets (self : LogQueue) (now : GTimeVal) : LogQueue :=
  let '(diff, self) :=
    if bool_decide (tv_sec (last_throttle_check self) <> 0)
    then (g_time_val_diff now (last_throttle_check self), self)
    else (0, set_last_check self now) in
  let n := new_buckets self diff in
  if bool_decide (n <> 0) then
    set_last_check (set_buckets self (Z.min (throttle self) (s32 (throttle_buckets self + n)))) now
  else self.

(** What a concrete queue offers to the base class. *)
Class LogQueueClass (Q : Type) := {
  super : Q -> LogQueue;
  set_super : Q -> LogQueue -> Q;
  get_length : Q -> Z;
  pop_head : Q -> option (Z * bool) * list call * Q;
  ack_backlog : Q -> Z -> list call * Q;
  rewind_backlog : Q -> Z -> Q;
  rewind_backlog_all : Q -> Q
}.

(** What the base class relies on: the state it keeps itself is its own. *)
Class LogQueueLaws (Q : Type) `{LogQueueClass Q} := {
  super_set_super (q : Q) (s : LogQueue) : super (set_super q s) = s;
  pop_head_throttle (q : Q) :
    let q' := snd (pop_head q) in
    throttle (super q') = throttle (super q) /\
    throttle_buckets (super q') = throttle_buckets (super q) /\
    last_throttle_check (super q') = last_throttle_check (super q)
}.

Section base.
Context {Q : Type} `{LogQueueClass Q}.

(** [timeout] is whether the caller passed a place for the waiting time; the
    time to wait is returned. *)
Definition log_queue_check_items (q : Q) (timeout : bool) (func data destroy : option Z) (now : GTimeVal)
    : bool * option Z * list call * Q :=
  let self := super q in
  let dropped := match parallel_push_data self, parallel_push_data_destroy self with
                 | Some d, Some f => [CDestroy f d] | _, _ => [] end in
  let num_elements := get_length q in
  if bool_decide (num_elements = 0) then
    (false, None, dropped, set_super q (set_notify self func data destroy))
  else
    let consumed := match data, destroy with Some d, Some f => [CDestroy f d] | _, _ => [] end in
    let calls := dropped ++ consumed in
    let self := set_notify self None None (parallel_push_data_destroy self) in
    if bool_decide (throttle self > 0) then
      let self := refill_buckets self now in
      if bool_decide (throttle_buckets self = 0) then
        (false, (if timeout then Some (Z.quot 1000 (throttle self) + 1) else None), calls, set_super q self)
      else (true, None, calls, set_super q self)
    else (true, None, calls, set_super q self).

Definition log_queue_pop_head (q : Q) : option (Z * bool) * list call * Q :=
  if bool_decide (throttle (super q) <> 0) && bool_decide (throttle_buckets (super q) = 0) then (None, [], q)
  else
    let '(msg, calls, q) := pop_head q in
    let q := match msg with
             | Some _ =>
                 if bool_decide (throttle_buckets (super q) > 0)
                 then set_super q (set_buckets (super q) (throttle_buckets (super q) - 1)) else q
             | None => q
             end in
    (msg, calls, q).

Definition log_queue_pop_head_ignore_throttle (q : Q) : option (Z * bool) * list call * Q := pop_head q.

Definition log_queue_rewind_backlog (q : Q) (rewind_count : Z) : Q :=
  if use_backlog (super q) then rewind_backlog q rewind_count else q.

Definition log_queue_rewind_backlog_all (q : Q) : Q :=
  if use_backlog (super q) then rewind_backlog_all q else q.

Definition log_queue_ack_backlog (q : Q) (rewind_count : Z) : list call * Q :=
  if use_backlog (super q) then ack_backlog q rewind_count else ([], q).
End base.

(** ** The rate limit *)

(** What a consumer does with a throttled queue: ask whether there is work at
    some time, or take a message. *)
Inductive consume := Check (now : GTimeVal) | Pop.

Definition usec (t : GTimeVal) : Z := tv_sec t * G_USEC_PER_SEC + tv_usec t.

Section throttle.
Context {Q : Type} `{LogQueueLaws Q}.

(** A run of a consumer: the queue it leaves and how many messages it took. *)
Fixpoint consumer_run (l : list consume) (q : Q) : Z * Q :=
  match l with
  | [] => (0, q)
  | Check now :: l =>
      let '(_, _, _, q) := log_queue_check_items q true None None None now in consumer_run l q
  | Pop :: l =>
      let '(msg, _, q) := log_queue_pop_head q in
      let '(n, q) := consumer_run l q in
      ((if msg is Some _ then 1 else 0) + n, q)
  end.

(** The clock moves forward from [prev], never to second zero, and no
    interval is long enough to overflow the token counter. *)
Fixpoint clock_ok (prev : Z) (l : list consume) (q : Q) : Prop :=
  match l with
  | [] => True
  | Check now :: l =>
      let self := super q in
      prev <= usec now /\ tv_sec now <> 0 /\
      throttle self * (G_USEC_PER_SEC + (usec now - usec (last_throttle_check self))) < 2 ^ 31 * G_USEC_PER_SEC /\
      clock_ok (usec now) l (snd (log_queue_check_items q true None None None now))
  | Pop :: l => clock_ok prev l (snd (log_queue_pop_head q))
  end.

(** A throttled queue whose clock has started. *)
Definition throttled (T : Z) (self : LogQueue) : Prop :=
  throttle self = T /\ 0 < T < 2 ^ 31 /\ 0 <= throttle_buckets self <= T /\
  tv_sec (last_throttle_check self) <> 0.

Lemma time_diff_usec (t1 t2 : GTimeVal) : g_time_val_diff t1 t2 = usec t1 - usec t2.
Proof. unfold g_time_val_diff, usec. lia. Qed.

Lemma refill_spec (T : Z) (self : LogQueue) (now : GTimeVal) :
  throttled T self -> tv_sec now <> 0 -> usec (last_throttle_check self) <= usec now ->
  T * (G_USEC_PER_SEC + (usec now - usec (last_throttle_check self))) < 2 ^ 31 * G_USEC_PER_SEC ->
  let self' := refill_buckets self now in
  throttled T self' /\ usec (last_throttle_check self) <= usec (last_throttle_check self') <= usec now /\
  throttle_buckets self' * G_USEC_PER_SEC <= throttle_buckets self * G_USEC_PER_SEC +
    T * (usec (last_throttle_check self') - usec (last_throttle_check self)).
Proof.
  intros (HT & Ht & Hb & Hsec) Hnow Hle Hsmall. unfold refill_buckets.
  rewrite bool_decide_eq_true_2, time_diff_usec by done. set (d := usec now - _) in *.
  cbv beta iota zeta. unfold new_buckets. rewrite HT. unfold G_USEC_PER_SEC in *.
  assert (Hq : Z.quot (T * d) 1000000 = T * d / 1000000) by (apply Z.quot_div_nonneg; nia).
  assert (Hd : 0 <= T * d / 1000000 < 2 ^ 31 - T) by (Z.to_euclidean_division_equations; nia).
  rewrite Hq, s32_small by lia. simpl.
  case_bool; simpl; [|unfold throttled; lia].
  rewrite s32_small by lia. unfold throttled; simpl. split_and!; try done; try lia.
  assert (1000000 * (T * d / 1000000) <= T * d) by (apply Z.mul_div_le; lia). unfold d in *. lia.
Qed.

Lemma check_items_super (q : Q) (now : GTimeVal) (T : Z) : throttled T (super q) ->
  let q' := snd (log_queue_check_items q true None None None now) in
  super q' = set_notify (super q) None None None \/
  super q' = refill_buckets (set_notify (super q) None None (parallel_push_data_destroy (super q))) now.
Proof.
  intros (HT & Ht & _). unfold log_queue_check_items. case_bool; simpl; [left; by rewrite super_set_super|].
  rewrite bool_decide_eq_true_2 by (simpl; lia). right. case_bool; simpl; by rewrite super_set_super.
Qed.

Lemma pop_head_throttled (q : Q) (T : Z) : throttled T (super q) ->
  let '(msg, _, q') := log_queue_pop_head q in
  throttled T (super q') /\ last_throttle_check (super q') = last_throttle_check (super q) /\
  (if msg is Some _ then 1 else 0) + throttle_buckets (super q') <= throttle_buckets (super q).
Proof.
  intros (HT & Ht & Hb & Hsec). unfold log_queue_pop_head. pose proof (pop_head_throttle q) as Hpop.
  destruct (bool_decide (throttle (super q) <> 0) && bool_decide (throttle_buckets (super q) = 0)) eqn:E.
  { done. }
  assert (throttle_buckets (super q) <> 0).
  { apply andb_false_iff in E as [E|E]; apply bool_decide_eq_false in E; lia. }
  destruct (pop_head q) as [[msg calls] q'] eqn:Ep. simpl in Hpop. destruct Hpop as (P1 & P2 & P3).
  unfold throttled. destruct msg; [|rewrite P1, P2, P3; split_and!; (done || lia)].
  rewrite bool_decide_eq_true_2 by lia. rewrite !super_set_super. simpl. rewrite P1, P2, P3.
  split_and!; (done || lia).
Qed.

Lemma consumer_run_bound (T : Z) (l : list consume) (q : Q) (prev : Z) :
  throttled T (super q) -> usec (last_throttle_check (super q)) <= prev -> clock_ok prev l q ->
  let '(n, q') := consumer_run l q in
  throttled T (super q') /\
  (n + throttle_buckets (super q')) * G_USEC_PER_SEC <= throttle_buckets (super q) * G_USEC_PER_SEC +
    T * (usec (last_throttle_check (super q')) - usec (last_throttle_check (super q))).
Proof.
  revert q prev; induction l as [|[now|] l IH]; intros q prev Hth Hlast Hck; simpl in *.
  - split; [done|]. lia.
  - destruct Hck as (Hprev & Hsec & Hsmall & Hck). pose proof Hth as (HT & _).
    pose proof (check_items_super q now T Hth) as Hsup.
    destruct (log_queue_check_items q true None None None now) as [[[r tm] cs] q'] eqn:E. simpl in Hsup, Hck.
    rewrite HT in Hsmall. destruct Hsup as [Hsup|Hsup].
    + specialize (IH q' (usec now)). rewrite Hsup in IH. apply IH; [done|simpl; lia|done].
    + pose proof (refill_spec T (set_notify (super q) None None (parallel_push_data_destroy (super q))) now
                    Hth Hsec ltac:(simpl; lia) Hsmall) as (R1 & R2 & R3).
      rewrite <- Hsup in R1, R2, R3. simpl in R2, R3.
      specialize (IH q' (usec now) R1 ltac:(lia) Hck). destruct (consumer_run l q') as [n q2].
      destruct IH as [IH1 IH2]. split; [done|]. lia.
  - pose proof (pop_head_throttled q T Hth) as Hpop.
    destruct (log_queue_pop_head q) as [[msg cs] q'] eqn:E. simpl in Hck. destruct Hpop as (P1 & P2 & P3).
    rewrite <- P2 in Hlast. specialize (IH q' prev P1 Hlast Hck). destruct (consumer_run l q') as [n q2].
    destruct IH as [IH1 IH2]. split; [done|]. rewrite P2 in IH2. unfold G_USEC_PER_SEC in *. lia.
Qed.
End throttle.
