(* ===== verification/LogQueueFifo.v ===== *)
(** * The in-memory queue (lib/logqueue-fifo.c)

    Messages flow from the unlocked input list of their thread to the wait
    list and on to the output list; with a backlog, sent messages stay on the
    backlog list until they are acknowledged or sent again.  The lengths are
    kept beside the lists, as in the source.  Message addresses and the flags
    of a queue node are data; the calls on messages are returned in order. *)
From S2P Require Import Prelude LogMsgRef LogQueue.

(** A queue node, as [log_msg_init_queue_node] fills it. *)
Record Node := mkNode {
  node_msg : Z;
  node_ack_needed : bool;
  node_flow_control_requested : bool
}.

#[global] Instance Node_eq_dec : EqDecision Node.
Proof. solve_decision. Defined.

Record InputQueue := mkInputQueue {
  items : list Node;
  len : Z;
  finish_cb_registered : bool
}.

Record LogQueueFifo := mkLogQueueFifo {
  fifo_super : LogQueue;
  qoverflow_output : list Node;
  qoverflow_wait : list Node;
  qoverflow_wait_len : Z;
  qoverflow_output_len : Z;
  qoverflow_size : Z;
  qbacklog : list Node;
  qbacklog_len : Z;
  qoverflow_input : list InputQueue
}.

Definition fifo_set_super (q : LogQueueFifo) (s : LogQueue) : LogQueueFifo :=
  mkLogQueueFifo s (qoverflow_output q) (qoverflow_wait q) (qoverflow_wait_len q) (qoverflow_output_len q)
    (qoverflow_size q) (qbacklog q) (qbacklog_len q) (qoverflow_input q).

Definition set_wait (q : LogQueueFifo) (l : list Node) (n : Z) : LogQueueFifo :=
  mkLogQueueFifo (fifo_super q) (qoverflow_output q) l n (qoverflow_output_len q)
    (qoverflow_size q) (qbacklog q) (qbacklog_len q) (qoverflow_input q).

Definition set_output (q : LogQueueFifo) (l : list Node) (n : Z) : LogQueueFifo :=
  mkLogQueueFifo (fifo_super q) l (qoverflow_wait q) (qoverflow_wait_len q) n
    (qoverflow_size q) (qbacklog q) (qbacklog_len q) (qoverflow_input q).

Definition set_backlog (q : LogQueueFifo) (l : list Node) (n : Z) : LogQueueFifo :=
  mkLogQueueFifo (fifo_super q) (qoverflow_output q) (qoverflow_wait q) (qoverflow_wait_len q)
    (qoverflow_output_len q) (qoverflow_size q) l n (qoverflow_input q).

Definition set_input (q : LogQueueFifo) (thread_id : nat) (i : InputQueue) : LogQueueFifo :=
  mkLogQueueFifo (fifo_super q) (qoverflow_output q) (qoverflow_wait q) (qoverflow_wait_len q)
    (qoverflow_output_len q) (qoverflow_size q) (qbacklog q) (qbacklog_len q)
    (<[thread_id:=i]> (qoverflow_input q)).

Definition log_msg_init_queue_node (msg : Z) (path_options : LogPathOptions) : list call * Node :=
  ([CRef msg], mkNode msg (ack_needed path_options) (flow_control_requested path_options)).

Definition log_queue_fifo_get_length (self : LogQueueFifo) : Z :=
  s32 (qoverflow_wait_len self + qoverflow_output_len self).

Definition log_queue_fifo_is_empty_racy (self : LogQueueFifo) : bool :=
  negb (if bool_decide (log_queue_fifo_get_length self > 0) then true
        else existsb finish_cb_registered (qoverflow_input self)).

Definition log_queue_fifo_keep_on_reload (self : LogQueueFifo) : bool :=
  bool_decide (log_queue_fifo_get_length self > 0) || bool_decide (qbacklog_len self > 0).

(** The loop that drops the first [n] messages of an input list. *)
Fixpoint drop_input (n : nat) (i : InputQueue) (dropped : option Z) (calls : list call)
    : InputQueue * option Z * list call :=
  match n with
  | O => (i, dropped, calls)
  | S n =>
      match items i with
      | node :: l =>
          let path_options := mkLogPathOptions (node_ack_needed node) (node_flow_control_requested node) in
          let ty := if node_flow_control_requested node then AT_SUSPENDED else AT_PROCESSED in
          drop_input n (mkInputQueue l (u16 (len i - 1)) (finish_cb_registered i)) (stats_counter_inc dropped)
            (calls ++ [CDrop (node_msg node) path_options ty])
      | [] => (i, dropped, calls)
      end
  end.

(** [queue_len] is the length the input thread saw, which may be outdated. *)
Definition move_input_seen (self : LogQueueFifo) (thread_id : nat) (i : InputQueue) (queue_len : Z)
    : list call * LogQueueFifo :=
  let '(i, dropped, calls) :=
    if bool_decide (queue_len + len i > qoverflow_size self) then
      let n := len i - Z.max 0 (qoverflow_size self - queue_len) in
      drop_input (Z.to_nat n) i (dropped_messages (fifo_super self)) []
    else (i, dropped_messages (fifo_super self), []) in
  let s := set_dropped (fifo_super self) dropped in
  let s := set_stored s (stats_counter_add (stored_messages s) (len i)) in
  let self := fifo_set_super self s in
  let self := set_wait self (qoverflow_wait self ++ items i) (s32 (qoverflow_wait_len self + len i)) in
  (calls, set_input self thread_id (mkInputQueue [] 0 (finish_cb_registered i))).

Definition log_queue_fifo_move_input_unlocked (self : LogQueueFifo) (thread_id : nat)
    : outcome (list call * LogQueueFifo) :=
  match qoverflow_input self !! thread_id with
  | Some i => Ret (move_input_seen self thread_id i (log_queue_fifo_get_length self))
  | None => Abort
  end.

(** Freeing a list: every message is acknowledged as aborted and released. *)
Definition log_queue_fifo_free_queue (q : list Node) : list call :=
  q ≫= (fun node =>
    [CAck (node_msg node) (mkLogPathOptions (node_ack_needed node) false) AT_ABORTED; CUnref (node_msg node)]).

Definition log_queue_fifo_free (self : LogQueueFifo) : list call :=
  (qoverflow_input self ≫= (fun i => log_queue_fifo_free_queue (items i))) ++
  log_queue_fifo_free_queue (qoverflow_wait self) ++
  log_queue_fifo_free_queue (qoverflow_output self) ++
  log_queue_fifo_free_queue (qbacklog self).

(** The batch callback of an input thread.  Giving up the queue's reference
    may free it: then its messages are released and nothing is left. *)
Definition log_queue_fifo_move_input (self : LogQueueFifo) (thread_id : Z)
    : outcome (list call * option LogQueueFifo) :=
  let! _ := g_assert (bool_decide (thread_id >= 0)) in
  let! (calls, self) := log_queue_fifo_move_input_unlocked self (Z.to_nat thread_id) in
  let '(notify, s) := log_queue_push_notify (fifo_super self) in
  let self := fifo_set_super self s in
  match qoverflow_input self !! Z.to_nat thread_id with
  | Some i =>
      let self := set_input self (Z.to_nat thread_id) (mkInputQueue (items i) (len i) false) in
      let! (last, s) := log_queue_unref (fifo_super self) in
      let self := fifo_set_super self s in
      if last then Ret (calls ++ notify ++ log_queue_fifo_free self, None)
      else Ret (calls ++ notify, Some self)
  | None => Abort
  end.

(** [thread_id] is negative outside worker threads. *)
Definition log_queue_fifo_push_tail (self : LogQueueFifo) (thread_id msg : Z) (path_options : LogPathOptions)
    : outcome (list call * LogQueueFifo) :=
  let! _ := g_assert (bool_decide (thread_id < 0) || bool_decide (lenZ (qoverflow_input self) > thread_id)) in
  if bool_decide (thread_id >= 0) then
    match qoverflow_input self !! Z.to_nat thread_id with
    | None => Abort
    | Some i =>
        let! (registered, s) :=
          if finish_cb_registered i then Ret ([], fifo_super self)
          else let! s := log_queue_ref (fifo_super self) in Ret ([CRegisterBatch thread_id], s) in
        let '(ref, node) := log_msg_init_queue_node msg path_options in
        let self := set_input (fifo_set_super self s) (Z.to_nat thread_id)
                      (mkInputQueue (items i ++ [node]) (u16 (len i + 1)) true) in
        Ret (registered ++ ref ++ [CUnref msg], self)
    end
  else if bool_decide (log_queue_fifo_get_length self < qoverflow_size self) then
    let '(ref, node) := log_msg_init_queue_node msg path_options in
    let self := set_wait self (qoverflow_wait self ++ [node]) (s32 (qoverflow_wait_len self + 1)) in
    let '(notify, s) := log_queue_push_notify (fifo_super self) in
    let s := set_stored s (stats_counter_inc (stored_messages s)) in
    Ret (ref ++ notify ++ [CUnref msg], fifo_set_super self s)
  else
    let s := fifo_super self in
    let s := set_dropped s (stats_counter_inc (dropped_messages s)) in
    let ty := if flow_control_requested path_options then AT_SUSPENDED else AT_PROCESSED in
    Ret ([CDrop msg path_options ty], fifo_set_super self s).

Definition log_queue_fifo_push_head (self : LogQueueFifo) (msg : Z) (path_options : LogPathOptions)
    : list call * LogQueueFifo :=
  let '(ref, node) := log_msg_init_queue_node msg path_options in
  let self := set_output self (node :: qoverflow_output self) (s32 (qoverflow_output_len self + 1)) in
  let s := fifo_super self in
  (ref, fifo_set_super self (set_stored s (stats_counter_inc (stored_messages s)))).

(** The result is the message and the [ack_needed] flag of its node.  A length
    without a node behind it reads the list head as a node: no result is
    given for it. *)
Definition log_queue_fifo_pop_head (self : LogQueueFifo) : option (Z * bool) * list call * LogQueueFifo :=
  let self :=
    if bool_decide (qoverflow_output_len self = 0) then
      set_wait (set_output self (qoverflow_output self ++ qoverflow_wait self) (qoverflow_wait_len self)) [] 0
    else self in
  if bool_decide (qoverflow_output_len self > 0) then
    match qoverflow_output self with
    | node :: output =>
        let self := set_output self output (qoverflow_output_len self - 1) in
        let s := fifo_super self in
        let self := fifo_set_super self (set_stored s (stats_counter_dec (stored_messages s))) in
        if use_backlog (fifo_super self) then
          (Some (node_msg node, node_ack_needed node), [CRef (node_msg node)],
           set_backlog self (qbacklog self ++ [node]) (s32 (qbacklog_len self + 1)))
        else (Some (node_msg node, node_ack_needed node), [], self)
    | [] => (None, [], self)
    end
  else (None, [], self).

Fixpoint ack_backlog_loop (n : nat) (l : list Node) (blen : Z) (calls : list call) : list call * list Node * Z :=
  match n with
  | O => (calls, l, blen)
  | S n =>
      if bool_decide (blen > 0) then
        match l with
        | node :: l =>
            ack_backlog_loop n l (blen - 1)
              (calls ++ [CAck (node_msg node) (mkLogPathOptions (node_ack_needed node) false) AT_PROCESSED;
                         CUnref (node_msg node)])
        | [] => (calls, l, blen)
        end
      else (calls, l, blen)
  end.

Definition log_queue_fifo_ack_backlog (self : LogQueueFifo) (rewind_count : Z) : list call * LogQueueFifo :=
  let '(calls, l, n) := ack_backlog_loop (Z.to_nat rewind_count) (qbacklog self) (qbacklog_len self) [] in
  (calls, set_backlog self l n).

Definition log_queue_fifo_rewind_backlog_all (self : LogQueueFifo) : LogQueueFifo :=
  let self' := set_output self (qoverflow_output self ++ qbacklog self)
                 (s32 (qoverflow_output_len self + qbacklog_len self)) in
  let s := fifo_super self' in
  let self' := fifo_set_super self' (set_stored s (stats_counter_add (stored_messages s) (qbacklog_len self))) in
  set_backlog self' [] 0.

(** One round of the loop of [log_queue_fifo_rewind_backlog]: the last backlog
    entry goes to the front of the output. *)
Definition rewind_one (self : LogQueueFifo) : LogQueueFifo :=
  match last (qbacklog self) with
  | Some node =>
      let self := set_backlog self (removelast (qbacklog self)) (qbacklog_len self - 1) in
      let self := set_output self (node :: qoverflow_output self) (s32 (qoverflow_output_len self + 1)) in
      let s := fifo_super self in
      fifo_set_super self (set_stored s (stats_counter_inc (stored_messages s)))
  | None => self
  end.

Definition log_queue_fifo_rewind_backlog (self : LogQueueFifo) (rewind_count : Z) : LogQueueFifo :=
  let rewind_count := if bool_decide (rewind_count > u32 (qbacklog_len self)) then u32 (qbacklog_len self)
                      else rewind_count in
  Nat.iter (Z.to_nat rewind_count) rewind_one self.

Definition log_queue_fifo_new (log_queue_max_threads : nat) (size : Z) : LogQueueFifo :=
  mkLogQueueFifo log_queue_init_instance [] [] 0 0 size [] 0
    (replicate log_queue_max_threads (mkInputQueue [] 0 false)).

#[global] Instance LogQueueFifo_class : LogQueueClass LogQueueFifo := {|
  super := fifo_super;
  set_super := fifo_set_super;
  get_length := log_queue_fifo_get_length;
  pop_head := log_queue_fifo_pop_head;
  ack_backlog := log_queue_fifo_ack_backlog;
  rewind_backlog := log_queue_fifo_rewind_backlog;
  rewind_backlog_all := log_queue_fifo_rewind_backlog_all
|}.

#[global] Instance LogQueueFifo_laws : LogQueueLaws LogQueueFifo.
Proof.
  split; [done|]. intros q. simpl. unfold log_queue_fifo_pop_head. cbv zeta.
  repeat first [case_bool | case_match]; done.
Qed.
