(* ===== verification/LogQueueSpec.v ===== *)
(** * The FIFO queue against its specification

    An abstract queue is one list of pending messages per input thread, the
    queue proper and the backlog.  The implementation refines it: every
    operation acts on the abstract lists as its rule says, and its counters
    equal the lengths of its lists. *)
From S2P Require Import Prelude LogMsgRef LogQueue LogQueueFifo.

Record AQueue := mkAQueue {
  a_pending : list (list Node);
  a_queue : list Node;
  a_backlog : list Node;
  a_size : Z;
  a_use_backlog : bool
}.

Definition abs (f : LogQueueFifo) : AQueue :=
  mkAQueue (items <$> qoverflow_input f) (qoverflow_output f ++ qoverflow_wait f) (qbacklog f)
    (qoverflow_size f) (use_backlog (fifo_super f)).

Inductive fifo_op :=
| OPushTail (thread_id msg : Z) (path_options : LogPathOptions)
| OMoveInput (thread_id : Z)
| OPushHead (msg : Z) (path_options : LogPathOptions)
| OPopHead
| OAckBacklog (n : Z)
| ORewindBacklog (n : Z)
| ORewindBacklogAll
| OSetCounters (stored dropped : Z).

(** Result, calls and next state; [Abort] also where the queue would be freed
    under its owner. *)
Definition run_op (op : fifo_op) (f : LogQueueFifo) : outcome (option (Z * bool) * list call * LogQueueFifo) :=
  match op with
  | OPushTail t m po => let! (c, f) := log_queue_fifo_push_tail f t m po in Ret (None, c, f)
  | OMoveInput t =>
      let! (c, f) := log_queue_fifo_move_input f t in
      match f with Some f => Ret (None, c, f) | None => Abort end
  | OPushHead m po => let '(c, f) := log_queue_fifo_push_head f m po in Ret (None, c, f)
  | OPopHead => Ret (log_queue_fifo_pop_head f)
  | OAckBacklog n => let '(c, f) := log_queue_fifo_ack_backlog f n in Ret (None, c, f)
  | ORewindBacklog n => Ret (None, [], log_queue_fifo_rewind_backlog f n)
  | ORewindBacklogAll => Ret (None, [], log_queue_fifo_rewind_backlog_all f)
  | OSetCounters s d =>
      Ret (None, [], fifo_set_super f (log_queue_set_counters (log_queue_fifo_get_length f) (fifo_super f)
                                         (Some s) (Some d)))
  end.

(** Calls on messages, without the wake-up callbacks. *)
Definition is_msg_call (c : call) : bool :=
  match c with CRef _ | CUnref _ | CAck _ _ _ | CDrop _ _ _ => true | _ => false end.

Definition msg_calls (l : list call) : list call := List.filter is_msg_call l.

Definition drop_call (node : Node) : call :=
  CDrop (node_msg node) (mkLogPathOptions (node_ack_needed node) (node_flow_control_requested node))
    (if node_flow_control_requested node then AT_SUSPENDED else AT_PROCESSED).

Definition ack_calls (node : Node) : list call :=
  [CAck (node_msg node) (mkLogPathOptions (node_ack_needed node) false) AT_PROCESSED; CUnref (node_msg node)].

Definition new_node (msg : Z) (po : LogPathOptions) : Node :=
  mkNode msg (ack_needed po) (flow_control_requested po).

(** How many of [k] pending messages do not fit. *)
Definition excess (size queued k : Z) : nat := Z.to_nat (Z.min k (Z.max 0 (queued + k - size))).

Inductive astep : fifo_op -> AQueue -> option (Z * bool) -> list call -> AQueue -> Prop :=
| A_push t m po a l : 0 <= t -> a_pending a !! Z.to_nat t = Some l ->
    astep (OPushTail t m po) a None [CRef m; CUnref m]
      (mkAQueue (<[Z.to_nat t := l ++ [new_node m po]]> (a_pending a)) (a_queue a) (a_backlog a) (a_size a) (a_use_backlog a))
| A_push_direct t m po a : t < 0 -> lenZ (a_queue a) < a_size a ->
    astep (OPushTail t m po) a None [CRef m; CUnref m]
      (mkAQueue (a_pending a) (a_queue a ++ [new_node m po]) (a_backlog a) (a_size a) (a_use_backlog a))
| A_push_full t m po a : t < 0 -> a_size a <= lenZ (a_queue a) ->
    astep (OPushTail t m po) a None
      [CDrop m po (if flow_control_requested po then AT_SUSPENDED else AT_PROCESSED)] a
| A_move t a l : 0 <= t -> a_pending a !! Z.to_nat t = Some l ->
    let n := excess (a_size a) (lenZ (a_queue a)) (lenZ l) in
    astep (OMoveInput t) a None (drop_call <$> take n l)
      (mkAQueue (<[Z.to_nat t := []]> (a_pending a)) (a_queue a ++ drop n l) (a_backlog a) (a_size a) (a_use_backlog a))
| A_push_head m po a :
    astep (OPushHead m po) a None [CRef m]
      (mkAQueue (a_pending a) (new_node m po :: a_queue a) (a_backlog a) (a_size a) (a_use_backlog a))
| A_pop_empty a : a_queue a = [] -> astep OPopHead a None [] a
| A_pop a x q : a_queue a = x :: q ->
    astep OPopHead a (Some (node_msg x, node_ack_needed x)) (if a_use_backlog a then [CRef (node_msg x)] else [])
      (mkAQueue (a_pending a) q (if a_use_backlog a then a_backlog a ++ [x] else a_backlog a) (a_size a) (a_use_backlog a))
| A_ack n a :
    astep (OAckBacklog n) a None (take (Z.to_nat n) (a_backlog a) ≫= ack_calls)
      (mkAQueue (a_pending a) (a_queue a) (drop (Z.to_nat n) (a_backlog a)) (a_size a) (a_use_backlog a))
| A_rewind n a :
    let k := (length (a_backlog a) - Z.to_nat n)%nat in
    astep (ORewindBacklog n) a None []
      (mkAQueue (a_pending a) (drop k (a_backlog a) ++ a_queue a) (take k (a_backlog a)) (a_size a) (a_use_backlog a))
| A_rewind_all k a :
    astep ORewindBacklogAll a None []
      (mkAQueue (a_pending a) (take k (a_queue a) ++ a_backlog a ++ drop k (a_queue a)) [] (a_size a) (a_use_backlog a))
| A_counters s d a : astep (OSetCounters s d) a None [] a.

(** ** Invariant *)

Definition input_wf (i : InputQueue) : Prop := len i = lenZ (items i) /\ lenZ (items i) < 2 ^ 16.

Definition registered (l : list InputQueue) : Z := lenZ (List.filter finish_cb_registered l).

Definition node_count (f : LogQueueFifo) : Z :=
  lenZ (qoverflow_output f) + lenZ (qoverflow_wait f) + lenZ (qbacklog f) +
  lenZ (qoverflow_input f ≫= items).

Record fifo_wf (f : LogQueueFifo) : Prop := {
  wf_wait : qoverflow_wait_len f = lenZ (qoverflow_wait f);
  wf_output : qoverflow_output_len f = lenZ (qoverflow_output f);
  wf_backlog : qbacklog_len f = lenZ (qbacklog f);
  wf_input : Forall input_wf (qoverflow_input f);
  wf_count : node_count f < 2 ^ 31;
  wf_refs : 1 + registered (qoverflow_input f) <= ref_cnt (fifo_super f);
  wf_stored : forall c, stored_messages (fifo_super f) = Some c ->
    c = lenZ (qoverflow_output f) + lenZ (qoverflow_wait f)
}.

(** When an operation may run: threads exist, the callback of an input thread
    runs only when registered, a thread collects less than 65535 messages
    between two callbacks and counters stay in their range. *)
Definition op_ok (op : fifo_op) (f : LogQueueFifo) : bool :=
  match op with
  | OPushTail t _ _ =>
      bool_decide (node_count f + 1 < 2 ^ 31) &&
      (bool_decide (t < 0) ||
       match qoverflow_input f !! Z.to_nat t with Some i => bool_decide (len i < 65535) | None => false end)
  | OMoveInput t =>
      bool_decide (0 <= t) &&
      match qoverflow_input f !! Z.to_nat t with Some i => finish_cb_registered i | None => false end
  | OPushHead _ _ => bool_decide (node_count f + 1 < 2 ^ 31)
  | OAckBacklog n | ORewindBacklog n => bool_decide (0 <= n < 2 ^ 32)
  | OPopHead | ORewindBacklogAll | OSetCounters _ _ => true
  end.

(** ** Lists of input queues *)

Lemma input_insert_count (l : list InputQueue) (t : nat) (i i' : InputQueue) : l !! t = Some i ->
  lenZ ((<[t:=i']> l) ≫= items) = lenZ (l ≫= items) - lenZ (items i) + lenZ (items i').
Proof.
  revert t; induction l as [|x l IH]; intros [|t] Ht; simplify_eq/=; rewrite !lenZ_app; [lia|].
  rewrite (IH _ Ht). lia.
Qed.

Lemma registered_cons (x : InputQueue) (l : list InputQueue) :
  registered (x :: l) = (if finish_cb_registered x then 1 else 0) + registered l.
Proof. unfold registered. simpl. destruct (finish_cb_registered x); [apply lenZ_cons|lia]. Qed.

Lemma registered_insert (l : list InputQueue) (t : nat) (i i' : InputQueue) : l !! t = Some i ->
  registered (<[t:=i']> l) =
  registered l - (if finish_cb_registered i then 1 else 0) + (if finish_cb_registered i' then 1 else 0).
Proof.
  revert t; induction l as [|x l IH]; intros [|t] Ht; simplify_eq/=; rewrite !registered_cons; [lia|].
  rewrite (IH _ Ht). lia.
Qed.

Lemma registered_nonneg (l : list InputQueue) : 0 <= registered l.
Proof. apply lenZ_nonneg. Qed.

Lemma node_count_parts (f : LogQueueFifo) : fifo_wf f ->
  lenZ (qoverflow_output f) + lenZ (qoverflow_wait f) < 2 ^ 31 /\ lenZ (qbacklog f) < 2 ^ 31 /\
  lenZ (qoverflow_output f) + lenZ (qbacklog f) < 2 ^ 31.
Proof.
  intros Hf. pose proof (wf_count f Hf) as Hc. unfold node_count in Hc.
  pose proof (lenZ_nonneg (qoverflow_output f)). pose proof (lenZ_nonneg (qoverflow_wait f)).
  pose proof (lenZ_nonneg (qbacklog f)). pose proof (lenZ_nonneg (qoverflow_input f ≫= items)). lia.
Qed.

Lemma node_count_room (f : LogQueueFifo) : node_count f + 1 < 2 ^ 31 ->
  lenZ (qoverflow_output f) + lenZ (qoverflow_wait f) + 1 < 2 ^ 31.
Proof.
  unfold node_count. pose proof (lenZ_nonneg (qbacklog f)). pose proof (lenZ_nonneg (qoverflow_input f ≫= items)). lia.
Qed.

Lemma get_length_wf (f : LogQueueFifo) : fifo_wf f ->
  log_queue_fifo_get_length f = lenZ (qoverflow_output f ++ qoverflow_wait f).
Proof.
  intros Hf. pose proof (node_count_parts f Hf) as (H1 & _). destruct Hf as [W O _ _ _ _ _].
  unfold log_queue_fifo_get_length. rewrite W, O, lenZ_app, s32_small; [lia|].
  pose proof (lenZ_nonneg (qoverflow_output f)). pose proof (lenZ_nonneg (qoverflow_wait f)). lia.
Qed.

Lemma input_lookup_count (l : list InputQueue) (t : nat) (i : InputQueue) : l !! t = Some i ->
  lenZ (items i) <= lenZ (l ≫= items).
Proof.
  revert t; induction l as [|x l IH]; intros [|t] Ht; simplify_eq/=; rewrite lenZ_app.
  - pose proof (lenZ_nonneg (l ≫= items)). lia.
  - specialize (IH _ Ht). pose proof (lenZ_nonneg (items x)). lia.
Qed.

(** ** Dropping from an input list *)

Lemma drop_input_spec (n : nat) (i : InputQueue) (dropped : option Z) (calls : list call) : input_wf i ->
  (n <= length (items i))%nat ->
  exists dropped', drop_input n i dropped calls =
    (mkInputQueue (drop n (items i)) (lenZ (drop n (items i))) (finish_cb_registered i),
     dropped', calls ++ (drop_call <$> take n (items i))).
Proof.
  revert i dropped calls; induction n as [|n IH]; intros [l k b] dropped calls [Hk Hb] Hn; simpl in *.
  { exists dropped. by rewrite app_nil_r, Hk, drop_0. }
  destruct l as [|x l]; simpl in *; [lia|]. rewrite lenZ_cons in Hk, Hb. pose proof (lenZ_nonneg l).
  destruct (IH (mkInputQueue l (u16 (k - 1)) b) (stats_counter_inc dropped)
              (calls ++ [drop_call x])) as [d' Hd']; simpl; [|lia|].
  - split; simpl; [rewrite u16_small|]; lia.
  - exists d'. simpl in Hd'. rewrite <- app_assoc in Hd'. exact Hd'.
Qed.

Lemma excess_le (size queued : Z) (l : list Node) : (excess size queued (lenZ l) <= length l)%nat.
Proof. unfold excess, lenZ. lia. Qed.

Lemma stored_add (f : LogQueueFifo) (k c : Z) : fifo_wf f ->
  stats_counter_add (stored_messages (fifo_super f)) k = Some c ->
  0 <= lenZ (qoverflow_output f) + lenZ (qoverflow_wait f) + k < 2 ^ 32 ->
  c = lenZ (qoverflow_output f) + lenZ (qoverflow_wait f) + k.
Proof.
  intros Hf Hc Hb. unfold stats_counter_add in Hc. apply fmap_Some in Hc as (v & Hv & ->).
  apply (wf_stored f Hf) in Hv as ->. by rewrite u32_small.
Qed.

(** The outcome an operation must have. *)
Definition refined (op : fifo_op) (f : LogQueueFifo) : Prop :=
  exists r c f', run_op op f = Ret (r, c, f') /\ fifo_wf f' /\ astep op (abs f) r (msg_calls c) (abs f').

Lemma notify_spec (q : LogQueue) :
  msg_calls (fst (log_queue_push_notify q)) = [] /\
  ref_cnt (snd (log_queue_push_notify q)) = ref_cnt q /\
  use_backlog (snd (log_queue_push_notify q)) = use_backlog q /\
  stored_messages (snd (log_queue_push_notify q)) = stored_messages q.
Proof.
  unfold log_queue_push_notify. destruct (parallel_push_notify q); [|done].
  by destruct (parallel_push_data_destroy q), (parallel_push_data q).
Qed.

Lemma input_items_insert (l : list InputQueue) (t : nat) (i : InputQueue) :
  items <$> <[t:=i]> l = <[t:=items i]> (items <$> l).
Proof. apply list_fmap_insert. Qed.

Lemma push_tail_thread_refined (f : LogQueueFifo) (t m : Z) (po : LogPathOptions) : fifo_wf f -> 0 <= t ->
  op_ok (OPushTail t m po) f = true -> refined (OPushTail t m po) f.
Proof.
  intros Hf Ht [Hcnt Hok]%andb_true_iff. apply bool_decide_eq_true in Hcnt.
  rewrite bool_decide_eq_false_2 in Hok by lia. simpl in Hok.
  destruct (qoverflow_input f !! Z.to_nat t) as [i|] eqn:Hi; [|done]. apply bool_decide_eq_true in Hok.
  pose proof (Forall_lookup_1 _ _ _ _ (wf_input f Hf) Hi) as [Hl Hb].
  pose proof (wf_refs f Hf) as Href. pose proof (registered_nonneg (qoverflow_input f)) as Hreg.
  pose proof (lookup_lt_Some _ _ _ Hi) as Hlt.
  unfold refined, run_op, log_queue_fifo_push_tail.
  rewrite (bool_decide_eq_false_2 (t < 0)), (bool_decide_eq_true_2 (lenZ _ > t)) by (unfold lenZ; lia).
  cbn [orb g_assert obind]. rewrite bool_decide_eq_true_2, Hi by lia.
  set (s := if finish_cb_registered i then fifo_super f else set_ref_cnt (fifo_super f) (ref_cnt (fifo_super f) + 1)).
  exists None, ((if finish_cb_registered i then [] else [CRegisterBatch t]) ++ [CRef m; CUnref m]),
    (set_input (fifo_set_super f s) (Z.to_nat t)
       (mkInputQueue (items i ++ [new_node m po]) (u16 (len i + 1)) true)).
  split; [|split].
  - unfold log_queue_ref, s. rewrite (bool_decide_eq_true_2 (ref_cnt _ > 0)) by lia.
    by destruct (finish_cb_registered i).
  - pose proof (input_insert_count _ _ _ (mkInputQueue (items i ++ [new_node m po]) (u16 (len i + 1)) true) Hi) as Hc.
    pose proof (registered_insert _ _ _ (mkInputQueue (items i ++ [new_node m po]) (u16 (len i + 1)) true) Hi) as Hr.
    simpl in Hc, Hr. autorewrite with sng in Hc. destruct Hf as [W O B I C R S]. unfold node_count in *.
    split; simpl; try done.
    + apply Forall_insert; [done|]. unfold input_wf; simpl. autorewrite with sng.
      pose proof (lenZ_nonneg (items i)). rewrite u16_small by lia. lia.
    + unfold node_count; simpl. lia.
    + unfold s. destruct (finish_cb_registered i); simpl; lia.
    + unfold s. by destruct (finish_cb_registered i).
  - unfold abs; simpl. rewrite input_items_insert.
    replace (use_backlog s) with (use_backlog (fifo_super f)) by (unfold s; by destruct (finish_cb_registered i)).
    replace (msg_calls _) with [CRef m; CUnref m] by (by destruct (finish_cb_registered i)).
    apply (A_push t m po (abs f) (items i)); [lia|]. simpl. by rewrite list_lookup_fmap, Hi.
Qed.

Lemma push_tail_direct_refined (f : LogQueueFifo) (t m : Z) (po : LogPathOptions) : fifo_wf f -> t < 0 ->
  op_ok (OPushTail t m po) f = true -> refined (OPushTail t m po) f.
Proof.
  intros Hf Ht [Hcnt _]%andb_true_iff. apply bool_decide_eq_true in Hcnt.
  assert (Hn : lenZ (qoverflow_output f) + lenZ (qoverflow_wait f) + 1 < 2 ^ 31) by (by apply node_count_room).
  pose proof (lenZ_nonneg (qoverflow_output f)). pose proof (lenZ_nonneg (qoverflow_wait f)).
  unfold refined, run_op, log_queue_fifo_push_tail.
  rewrite (bool_decide_eq_true_2 (t < 0)), (bool_decide_eq_false_2 (t >= 0)) by lia. cbn [orb g_assert obind].
  rewrite get_length_wf by done. destruct (bool_decide_reflect (lenZ (qoverflow_output f ++ qoverflow_wait f) < qoverflow_size f)).
  - cbn [log_msg_init_queue_node]. pose proof (notify_spec (fifo_super f)) as (N1 & N2 & N3 & N4).
    cbn [set_wait fifo_super]. destruct (log_queue_push_notify (fifo_super f)) as [nt s] eqn:En. simpl in N1, N2, N3, N4.
    do 3 eexists. split; [done|]. split.
    + assert (Hws : s32 (qoverflow_wait_len f + 1) = lenZ (qoverflow_wait f ++ [new_node m po])).
      { rewrite (wf_wait f Hf), s32_small by lia. autorewrite with sng. lia. }
      pose proof (stored_add f 1) as Hst. destruct Hf as [W O B I C R S]. unfold node_count in *.
      split; simpl; try done; autorewrite with sng; try lia.
      * unfold node_count; simpl. autorewrite with sng. lia.
      * rewrite N4. intros c Hc. apply Hst in Hc; [lia|by split|lia].
    + replace (msg_calls _) with [CRef m; CUnref m].
      2: { unfold msg_calls. simpl. rewrite List.filter_app. unfold msg_calls in N1. by rewrite N1. }
      unfold abs; simpl. rewrite N3, app_assoc. apply (A_push_direct t m po (abs f)); done.
  - do 3 eexists. split; [done|]. split.
    + destruct Hf as [W O B I C R S]. by split.
    + apply (A_push_full t m po (abs f)); [done|]. simpl. lia.
Qed.

(** What moving an input list does, whatever length the thread saw. *)
Lemma move_input_seen_spec (f : LogQueueFifo) (t : nat) (i : InputQueue) (seen : Z) : fifo_wf f ->
  qoverflow_input f !! t = Some i ->
  let n := excess (qoverflow_size f) seen (lenZ (items i)) in
  let '(calls, f') := move_input_seen f t i seen in
  calls = drop_call <$> take n (items i) /\ fifo_wf f' /\
  f' = mkLogQueueFifo (fifo_super f') (qoverflow_output f) (qoverflow_wait f ++ drop n (items i))
         (qoverflow_wait_len f') (qoverflow_output_len f) (qoverflow_size f) (qbacklog f) (qbacklog_len f)
         (<[t:=mkInputQueue [] 0 (finish_cb_registered i)]> (qoverflow_input f)) /\
  use_backlog (fifo_super f') = use_backlog (fifo_super f).
Proof.
  intros Hf Hi n. pose proof (Forall_lookup_1 _ _ _ _ (wf_input f Hf) Hi) as Hiw. pose proof Hiw as [Hl Hb].
  pose proof (excess_le (qoverflow_size f) seen (items i)) as Hle. fold n in Hle.
  unfold move_input_seen.
  assert (exists d', (if bool_decide (seen + len i > qoverflow_size f)
     then drop_input (Z.to_nat (len i - Z.max 0 (qoverflow_size f - seen))) i (dropped_messages (fifo_super f)) []
     else (i, dropped_messages (fifo_super f), [])) =
     (mkInputQueue (drop n (items i)) (lenZ (drop n (items i))) (finish_cb_registered i), d',
      drop_call <$> take n (items i))) as [d' ->].
  { case_bool.
    - replace (Z.to_nat (len i - Z.max 0 (qoverflow_size f - seen))) with n by (unfold n, excess; lia).
      destruct (drop_input_spec n i (dropped_messages (fifo_super f)) [] Hiw Hle) as [d' ->]. by exists d'.
    - exists (dropped_messages (fifo_super f)). replace n with 0%nat by (unfold n, excess; lia).
      rewrite drop_0, take_0, <- Hl. by destruct i. }
  cbn [items len finish_cb_registered]. split; [done|]. split; [|done].
  pose proof (input_insert_count _ _ _ (mkInputQueue [] 0 (finish_cb_registered i)) Hi) as Hc.
  pose proof (registered_insert _ _ _ (mkInputQueue [] 0 (finish_cb_registered i)) Hi) as Hr. simpl in Hc, Hr.
  pose proof (input_lookup_count _ _ _ Hi) as Hic.
  assert (Hdl : 0 <= lenZ (drop n (items i)) <= lenZ (items i)) by (autorewrite with sng; unfold lenZ; lia).
  pose proof (stored_add f (lenZ (drop n (items i)))) as Hst.
  pose proof (lenZ_nonneg (qoverflow_output f)). pose proof (lenZ_nonneg (qoverflow_wait f)).
  pose proof (lenZ_nonneg (qbacklog f)). pose proof (lenZ_nonneg (qoverflow_input f ≫= items)).
  pose proof (wf_count f Hf) as Hcnt. unfold node_count in Hcnt.
  pose proof Hf as [W O B I _ R S].
  split; simpl; try done.
  - rewrite W, s32_small, lenZ_app by lia. done.
  - by apply Forall_insert.
  - unfold node_count; simpl. rewrite Hc, lenZ_app. change (lenZ []) with 0. lia.
  - lia.
  - intros c Hcs. rewrite (Hst c Hf Hcs ltac:(lia)), lenZ_app. lia.
Qed.

Lemma msg_calls_drop (l : list Node) : msg_calls (drop_call <$> l) = drop_call <$> l.
Proof. induction l as [|x l IH]; [done|]. cbn. f_equal. exact IH. Qed.

Lemma move_input_refined (f : LogQueueFifo) (t : Z) : fifo_wf f ->
  op_ok (OMoveInput t) f = true -> refined (OMoveInput t) f.
Proof.
  intros Hf [Ht Hreg]%andb_true_iff. apply bool_decide_eq_true in Ht.
  destruct (qoverflow_input f !! Z.to_nat t) as [i|] eqn:Hi; [|done].
  unfold refined, run_op, log_queue_fifo_move_input, log_queue_fifo_move_input_unlocked.
  rewrite bool_decide_eq_true_2, Hi by lia. cbn [g_assert obind].
  pose proof (move_input_seen_spec f _ i (log_queue_fifo_get_length f) Hf Hi) as Hm. cbv zeta in Hm.
  destruct (move_input_seen f (Z.to_nat t) i _) as [calls f1]. destruct Hm as (-> & Hf1 & E1 & U1).
  pose proof (notify_spec (fifo_super f1)) as (N1 & N2 & N3 & N4).
  destruct (log_queue_push_notify (fifo_super f1)) as [nt s]. simpl in N1, N2, N3, N4.
  assert (Hlt : (Z.to_nat t < length (qoverflow_input f))%nat) by (by eapply lookup_lt_Some).
  assert (Hi1 : qoverflow_input f1 !! Z.to_nat t = Some (mkInputQueue [] 0 (finish_cb_registered i))).
  { rewrite E1. simpl. by rewrite list_lookup_insert_eq. }
  cbn [fifo_set_super qoverflow_input]. rewrite Hi1. cbn [set_input fifo_super items len].
  pose proof (registered_insert _ _ _ (mkInputQueue [] 0 false) Hi1) as Hr. simpl in Hr. rewrite Hreg in Hr.
  pose proof (registered_nonneg (<[Z.to_nat t:=mkInputQueue [] 0 false]> (qoverflow_input f1))) as Hnn.
  pose proof (wf_refs f1 Hf1) as Href.
  unfold log_queue_unref. cbn [set_input fifo_set_super fifo_super]. rewrite N2, bool_decide_eq_true_2 by lia. cbn [g_assert obind].
  rewrite bool_decide_eq_false_2 by lia. do 3 eexists. split; [done|]. split.
  - pose proof (input_insert_count _ _ _ (mkInputQueue [] 0 false) Hi1) as Hc. simpl in Hc.
    destruct Hf1 as [W O B I C R S]. unfold node_count in *.
    split; simpl; try done; try (by apply Forall_insert); try (unfold node_count; simpl); try lia.
    rewrite N4. done.
  - replace (msg_calls _) with (drop_call <$> take (excess (qoverflow_size f)
        (log_queue_fifo_get_length f) (lenZ (items i))) (items i)).
    2: { unfold msg_calls in *. rewrite List.filter_app, N1, app_nil_r.
         symmetry. apply msg_calls_drop. }
    unfold abs. simpl. rewrite N3, U1, E1. simpl. rewrite list_insert_insert_eq, app_assoc, input_items_insert.
    rewrite get_length_wf by done. apply (A_move t (abs f) (items i)); [done|].
    simpl. by rewrite list_lookup_fmap, Hi.
Qed.

Lemma push_head_refined (f : LogQueueFifo) (m : Z) (po : LogPathOptions) : fifo_wf f ->
  op_ok (OPushHead m po) f = true -> refined (OPushHead m po) f.
Proof.
  intros Hf Hok. apply bool_decide_eq_true in Hok. pose proof (node_count_room f Hok) as Hn.
  pose proof (lenZ_nonneg (qoverflow_output f)). pose proof (lenZ_nonneg (qoverflow_wait f)).
  do 3 eexists. split; [done|]. split; [|exact (A_push_head m po (abs f))].
  pose proof (stored_add f 1) as Hst. pose proof Hf as [W O B I C R S]. unfold node_count in *.
  split; simpl; try done; autorewrite with sng.
  - rewrite O, s32_small by lia. lia.
  - unfold node_count; simpl. autorewrite with sng. lia.
  - intros c Hc. apply Hst in Hc; [lia|done|lia].
Qed.

(** Refilling the output from the wait list changes nothing an observer sees. *)
Definition refill_output (f : LogQueueFifo) : LogQueueFifo :=
  if bool_decide (qoverflow_output_len f = 0) then
    set_wait (set_output f (qoverflow_output f ++ qoverflow_wait f) (qoverflow_wait_len f)) [] 0
  else f.

Lemma refill_output_spec (f : LogQueueFifo) : fifo_wf f ->
  fifo_wf (refill_output f) /\ abs (refill_output f) = abs f /\
  (qoverflow_output (refill_output f) = [] -> qoverflow_output f ++ qoverflow_wait f = []).
Proof.
  intros Hf. unfold refill_output. case_bool; simpl.
  - assert (Ho : qoverflow_output f = []).
    { apply lenZ_zero_nil. by rewrite <- (wf_output f Hf). }
    destruct Hf as [W O B I C R S]. rewrite Ho in *. simpl. split; [|split].
    + unfold node_count in C. rewrite Ho in C. split; simpl; try done.
      * unfold node_count; simpl. change (lenZ []) with 0 in *. lia.
      * intros c Hc. apply S in Hc. rewrite Hc. change (lenZ []) with 0. lia.
    + unfold abs; simpl. by rewrite Ho, app_nil_r.
    + done.
  - split; [done|]. split; [done|]. intros He. rewrite (wf_output f Hf), He in Hb. by rewrite lenZ_nil in Hb.
Qed.

Lemma pop_head_refined (f : LogQueueFifo) : fifo_wf f -> refined OPopHead f.
Proof.
  intros Hf. pose proof (refill_output_spec f Hf) as (Hg & Ha & He). set (g := refill_output f) in *.
  unfold refined, run_op, log_queue_fifo_pop_head. fold (refill_output f). fold g. cbv zeta.
  pose proof (node_count_parts g Hg) as (Hn1 & Hn2 & Hn3). pose proof (wf_output g Hg) as Ho.
  destruct (qoverflow_output g) as [|x l] eqn:Eo.
  { rewrite bool_decide_eq_false_2 by (rewrite Ho, lenZ_nil; lia).
    exists None, [], g. split; [done|]. split; [done|]. rewrite Ha. apply A_pop_empty. simpl. by apply He. }
  pose proof (lenZ_nonneg l). rewrite lenZ_cons in Ho, Hn1, Hn3.
  rewrite bool_decide_eq_true_2 by lia. cbn [fifo_super fifo_set_super use_backlog set_stored set_output].
  pose proof (stored_add g (-1)) as Hst. rewrite Eo, lenZ_cons in Hst.
  assert (Hpop : forall a, abs g = a -> astep OPopHead a (Some (node_msg x, node_ack_needed x))
      (if use_backlog (fifo_super g) then [CRef (node_msg x)] else [])
      (mkAQueue (a_pending a) (l ++ qoverflow_wait g)
         (if use_backlog (fifo_super g) then a_backlog a ++ [x] else a_backlog a) (a_size a) (a_use_backlog a))).
  { intros a <-. apply (A_pop (abs g) x (l ++ qoverflow_wait g)). simpl. by rewrite Eo. }
  specialize (Hpop _ Ha). rewrite <- Ha in Hpop |- *. pose proof Hg as [W O B I C R S]. unfold node_count in C.
  rewrite Eo, lenZ_cons in C. pose proof (lenZ_nonneg (qoverflow_wait g)). pose proof (lenZ_nonneg (qbacklog g)).
  pose proof (lenZ_nonneg (qoverflow_input g ≫= items)).
  unfold abs in Hpop |- *. simpl in Hpop. destruct (use_backlog (fifo_super g)) eqn:Eu.
  - do 3 eexists. split; [done|]. split; [|simpl; rewrite Eu; exact Hpop].
    split; simpl; try done; try lia.
    + rewrite B, s32_small, lenZ_app by lia. done.
    + unfold node_count; simpl. autorewrite with sng. lia.
    + intros c Hc. apply Hst in Hc; [lia|done|lia].
  - do 3 eexists. split; [done|]. split; [|simpl; rewrite Eu; exact Hpop].
    split; simpl; try done; try lia.
    + unfold node_count; simpl. lia.
    + intros c Hc. apply Hst in Hc; [lia|done|lia].
Qed.

Lemma ack_loop_spec (n : nat) (l : list Node) (calls : list call) :
  ack_backlog_loop n l (lenZ l) calls = (calls ++ (take n l ≫= ack_calls), drop n l, lenZ (drop n l)).
Proof.
  revert l calls; induction n as [|n IH]; intros l calls.
  - simpl. by rewrite app_nil_r, drop_0.
  - destruct l as [|x l]; cbn [ack_backlog_loop take drop].
    + simpl. by rewrite app_nil_r.
    + rewrite lenZ_cons, bool_decide_eq_true_2 by (pose proof (lenZ_nonneg l); lia).
      replace (1 + lenZ l - 1) with (lenZ l) by lia. rewrite IH. cbn. by rewrite <- app_assoc.
Qed.

Lemma msg_calls_ack (l : list Node) : msg_calls (l ≫= ack_calls) = l ≫= ack_calls.
Proof. induction l as [|x l IH]; [done|]. cbn. do 2 f_equal. exact IH. Qed.

Lemma ack_backlog_refined (f : LogQueueFifo) (n : Z) : fifo_wf f -> refined (OAckBacklog n) f.
Proof.
  intros Hf. unfold refined, run_op, log_queue_fifo_ack_backlog. rewrite (wf_backlog f Hf), ack_loop_spec.
  do 3 eexists. split; [done|]. simpl. rewrite msg_calls_ack. split; [|exact (A_ack n (abs f))].
  destruct Hf as [W O B I C R S]. split; simpl; try done. unfold node_count in *; simpl. rewrite lenZ_drop.
  pose proof (lenZ_nonneg (qbacklog f)). lia.
Qed.

Lemma rewind_one_spec (f : LogQueueFifo) (l : list Node) (x : Node) : fifo_wf f -> qbacklog f = l ++ [x] ->
  fifo_wf (rewind_one f) /\ qbacklog (rewind_one f) = l /\
  abs (rewind_one f) = mkAQueue (a_pending (abs f)) (x :: a_queue (abs f)) l (a_size (abs f)) (a_use_backlog (abs f)).
Proof.
  intros Hf Hl. pose proof (stored_add f 1) as Hst. pose proof (node_count_parts f Hf) as (Hn1 & _ & Hn3).
  unfold rewind_one. rewrite Hl, last_snoc, removelast_last. simpl. split; [|split; [done|]].
  - pose proof Hf as [W O B I C R S]. unfold node_count in *. rewrite Hl in *. autorewrite with sng in *.
    pose proof (lenZ_nonneg (qoverflow_output f)). pose proof (lenZ_nonneg (qoverflow_wait f)).
    pose proof (lenZ_nonneg l).
    split; simpl; try done; try lia.
    + rewrite O, s32_small, lenZ_cons by lia. lia.
    + unfold node_count; simpl. autorewrite with sng. lia.
    + intros c Hc. rewrite lenZ_cons. apply Hst in Hc; [lia|done|lia].
  - done.
Qed.

Lemma rewind_iter_spec (k : nat) (f : LogQueueFifo) (l m : list Node) : fifo_wf f ->
  qbacklog f = l ++ m -> length m = k ->
  fifo_wf (Nat.iter k rewind_one f) /\
  abs (Nat.iter k rewind_one f) =
    mkAQueue (a_pending (abs f)) (m ++ a_queue (abs f)) l (a_size (abs f)) (a_use_backlog (abs f)).
Proof.
  revert l m; induction k as [|k IH]; intros l m Hf Hl Hk; simpl.
  { destruct m; [|done]. rewrite app_nil_r in Hl. split; [done|]. unfold abs; simpl. by rewrite Hl. }
  destruct m as [|x m]; [done|]. injection Hk as Hk.
  assert (Hf' : qbacklog f = (l ++ [x]) ++ m) by (by rewrite <- app_assoc).
  destruct (IH (l ++ [x]) m Hf Hf' Hk) as [IH1 IH2].
  assert (Hb : qbacklog (Nat.iter k rewind_one f) = l ++ [x]) by (exact (f_equal a_backlog IH2)).
  destruct (rewind_one_spec _ _ _ IH1 Hb) as (R1 & _ & R3). split; [done|]. by rewrite R3, IH2.
Qed.

Lemma rewind_backlog_refined (f : LogQueueFifo) (n : Z) : fifo_wf f ->
  op_ok (ORewindBacklog n) f = true -> refined (ORewindBacklog n) f.
Proof.
  intros Hf Hok. apply bool_decide_eq_true in Hok. pose proof (node_count_parts f Hf) as (_ & Hb & _).
  do 3 eexists. split; [done|]. unfold log_queue_fifo_rewind_backlog.
  pose proof (lenZ_nonneg (qbacklog f)). rewrite (wf_backlog f Hf), u32_small by lia.
  set (k := (length (qbacklog f) - Z.to_nat n)%nat).
  replace (Z.to_nat (if bool_decide (n > lenZ (qbacklog f)) then lenZ (qbacklog f) else n))
    with (length (drop k (qbacklog f))).
  2: { rewrite length_drop. unfold k, lenZ. case_bool; lia. }
  destruct (rewind_iter_spec (length (drop k (qbacklog f))) f (take k (qbacklog f)) (drop k (qbacklog f)) Hf)
    as [R1 R2]; [by rewrite take_drop|done|]. split; [done|]. rewrite R2. exact (A_rewind n (abs f)).
Qed.

Lemma rewind_all_refined (f : LogQueueFifo) : fifo_wf f -> refined ORewindBacklogAll f.
Proof.
  intros Hf. pose proof (stored_add f (qbacklog_len f)) as Hst.
  pose proof (node_count_parts f Hf) as (Hn1 & Hn2 & Hn3).
  do 3 eexists. split; [done|]. split.
  - pose proof Hf as [W O B I C R S]. unfold node_count in *.
    pose proof (lenZ_nonneg (qoverflow_output f)). pose proof (lenZ_nonneg (qoverflow_wait f)).
    pose proof (lenZ_nonneg (qbacklog f)). pose proof (lenZ_nonneg (qoverflow_input f ≫= items)).
    split; simpl; try done; autorewrite with sng.
    + rewrite O, B, s32_small by lia. done.
    + unfold node_count; simpl. autorewrite with sng. lia.
    + intros c Hc. apply Hst in Hc; [lia|done|lia].
  - pose proof (A_rewind_all (length (qoverflow_output f)) (abs f)) as Hst'.
    unfold abs in *. simpl in *. rewrite take_app_length, drop_app_length in Hst'.
    rewrite <- app_assoc. exact Hst'.
Qed.

Lemma counters_refined (f : LogQueueFifo) (s d : Z) : fifo_wf f -> refined (OSetCounters s d) f.
Proof.
  intros Hf. do 3 eexists. split; [done|]. split; [|exact (A_counters s d (abs f))].
  pose proof (get_length_wf f Hf) as Hlen. pose proof (node_count_parts f Hf) as (Hn1 & _).
  pose proof (lenZ_nonneg (qoverflow_output f)). pose proof (lenZ_nonneg (qoverflow_wait f)).
  destruct Hf as [W O B I C R S]. split; simpl; try done.
  intros c [= <-]. rewrite Hlen, lenZ_app, u32_small by lia. done.
Qed.

Lemma op_refined (f : LogQueueFifo) (op : fifo_op) : fifo_wf f -> op_ok op f = true -> refined op f.
Proof.
  intros Hf Hok. destruct op as [t m po|t|m po| |n|n| |s d].
  - destruct (Z.lt_ge_cases t 0); [by apply push_tail_direct_refined|by apply push_tail_thread_refined].
  - by apply move_input_refined.
  - by apply push_head_refined.
  - by apply pop_head_refined.
  - by apply ack_backlog_refined.
  - by apply rewind_backlog_refined.
  - by apply rewind_all_refined.
  - by apply counters_refined.
Qed.
