(* ===== verification/LogQueueClaims.v ===== *)
(** * What the queues guarantee

    Refinement of the FIFO by its specification, the order of delivery, the
    balance of references and acknowledgements, the rate limit, and two places
    where the code gives less than it means to. *)
From S2P Require Import Prelude LogMsgRef LogQueue LogQueueFifo LogQueueSpec.

(** ** Reachable queues *)

Definition new_queue (threads : nat) (size : Z) (backlog : bool) : LogQueueFifo :=
  let f := log_queue_fifo_new threads size in
  fifo_set_super f (log_queue_set_use_backlog (fifo_super f) backlog).

Inductive fifo_reach : LogQueueFifo -> Prop :=
| reach_new threads size backlog : fifo_reach (new_queue threads size backlog)
| reach_op op f r c f' : fifo_reach f -> op_ok op f = true -> run_op op f = Ret (r, c, f') -> fifo_reach f'.

Lemma new_queue_inputs (n : nat) :
  replicate n (mkInputQueue [] 0 false) ≫= items = [] /\ registered (replicate n (mkInputQueue [] 0 false)) = 0.
Proof. induction n as [|n [IH1 IH2]]; [done|]. split; [exact IH1|]. simpl. rewrite registered_cons. simpl. lia. Qed.

Lemma new_queue_wf (threads : nat) (size : Z) (backlog : bool) : fifo_wf (new_queue threads size backlog).
Proof.
  destruct (new_queue_inputs threads) as [H1 H2]. split; simpl; try done.
  - by apply Forall_replicate.
  - unfold node_count; simpl. by rewrite H1.
  - rewrite H2. lia.
Qed.

Lemma reach_wf (f : LogQueueFifo) : fifo_reach f -> fifo_wf f.
Proof.
  induction 1 as [|op f r c f' _ IH Hok Hrun]; [apply new_queue_wf|].
  destruct (op_refined f op IH Hok) as (r1 & c1 & f1 & Hrun1 & Hwf & _). rewrite Hrun1 in Hrun.
  by injection Hrun as <- <- <-.
Qed.

Lemma run_op_astep (f f' : LogQueueFifo) (op : fifo_op) (r : option (Z * bool)) (c : list call) :
  fifo_wf f -> op_ok op f = true -> run_op op f = Ret (r, c, f') -> astep op (abs f) r (msg_calls c) (abs f').
Proof.
  intros Hf Hok Hrun. destruct (op_refined f op Hf Hok) as (r1 & c1 & f1 & Hrun1 & _ & Ha).
  rewrite Hrun1 in Hrun. by injection Hrun as <- <- <-.
Qed.

(** Runs used by the examples. *)
Fixpoint run_ops (ops : list fifo_op) (f : LogQueueFifo) : option LogQueueFifo :=
  match ops with
  | [] => Some f
  | op :: ops =>
      if op_ok op f then
        match run_op op f with Ret (_, _, f') => run_ops ops f' | Abort => None end
      else None
  end.

Lemma run_ops_reach (ops : list fifo_op) (f f' : LogQueueFifo) : fifo_reach f -> run_ops ops f = Some f' ->
  fifo_reach f'.
Proof.
  revert f; induction ops as [|op ops IH]; intros f Hf H; simplify_eq/=; [done|].
  destruct (op_ok op f) eqn:Hok; [|done]. destruct (run_op op f) as [[[r c] f1]|] eqn:E; [|done].
  eapply IH; [|exact H]. by econstructor.
Qed.

Definition plain : LogPathOptions := mkLogPathOptions true false.
Definition controlled : LogPathOptions := mkLogPathOptions true true.

Definition demo_ops : list fifo_op :=
  [OSetCounters 0 0; OPushTail 0 10 plain; OPushTail 1 20 controlled; OPushTail 0 11 plain; OMoveInput 0; OPopHead;
   OMoveInput 1; OPopHead; OPopHead].

Definition demo_fifo (k : nat) : LogQueueFifo :=
  default (new_queue 2 2 true) (run_ops (take k demo_ops) (new_queue 2 2 true)).

Lemma demo_fifo_reach (k : nat) : fifo_reach (demo_fifo k).
Proof.
  unfold demo_fifo. destruct (run_ops _ _) as [f|] eqn:E; [|constructor].
  eapply run_ops_reach; [|exact E]. constructor.
Qed.

(** ** Claims *)

(** C5: in every reachable queue every allowed operation returns without an
    assertion failing, does to the pending lists, the queue and the backlog
    exactly what its rule of the abstract queue says (calls on messages
    included), and the length and the statistics counter are those of the
    abstract queue. *)
Theorem log_queue_fifo_refines (f : LogQueueFifo) (op : fifo_op) (Hr : fifo_reach f)
  (Hok : op_ok op f = true) :
  (exists r c f', run_op op f = Ret (r, c, f') /\ astep op (abs f) r (msg_calls c) (abs f')) /\
  log_queue_fifo_get_length f = lenZ (a_queue (abs f)) /\
  (forall n, stored_messages (fifo_super f) = Some n -> n = lenZ (a_queue (abs f))).
Proof.
  apply reach_wf in Hr. destruct (op_refined f op Hr Hok) as (r & c & f' & H1 & _ & H3).
  split; [eauto|]. split; [by apply get_length_wf|].
  intros n Hn. rewrite (wf_stored f Hr n Hn). simpl. rewrite lenZ_app. lia.
Qed.

Lemma log_queue_fifo_refines_witness :
  a_queue (abs (demo_fifo 5)) = [new_node 10 plain; new_node 11 plain] /\
  exists r c f', run_op (OMoveInput 1) (demo_fifo 5) = Ret (r, c, f') /\
    astep (OMoveInput 1) (abs (demo_fifo 5)) r (msg_calls c) (abs f').
Proof.
  split; [by vm_compute|].
  exact (proj1 (log_queue_fifo_refines (demo_fifo 5) (OMoveInput 1) (demo_fifo_reach 5) ltac:(by vm_compute))).
Defined.

(** ** Order of delivery *)

Section order.
Context (src : Z -> Z) (t : Z).

(** The operations of input threads and of the output thread; messages a
    thread pushes are its own. *)
Definition ordered_op (op : fifo_op) : bool :=
  match op with
  | OPushTail t' m _ => bool_decide (0 <= t') && bool_decide (src m = t')
  | OMoveInput _ | OPopHead | OAckBacklog _ | ORewindBacklog _ | OSetCounters _ _ => true
  | OPushHead _ _ | ORewindBacklogAll => false
  end.

Definition pushed_by (op : fifo_op) : list Node :=
  match op with
  | OPushTail t' m po => if bool_decide (t' = t) then [new_node m po] else []
  | _ => []
  end.

(** The nodes that leave the queue for good: delivered without a backlog, or
    acknowledged. *)
Definition done_by (op : fifo_op) (a : AQueue) : list Node :=
  match op with
  | OPopHead => if a_use_backlog a then [] else take 1 (a_queue a)
  | OAckBacklog n => take (Z.to_nat n) (a_backlog a)
  | _ => []
  end.

Inductive traced : LogQueueFifo -> list Node -> list Node -> Prop :=
| traced_new threads size backlog : traced (new_queue threads size backlog) [] []
| traced_op op f r c f' P D : traced f P D -> ordered_op op = true -> op_ok op f = true ->
    run_op op f = Ret (r, c, f') -> traced f' (P ++ pushed_by op) (D ++ done_by op (abs f)).

Definition from_t (n : Node) : bool := bool_decide (src (node_msg n) = t).

Definition mine (l : list Node) : list Node := List.filter from_t l.

Definition pending_of (a : AQueue) : list Node := default [] (a_pending a !! Z.to_nat t).

(** Everything in the pending list of a thread was pushed by it. *)
Definition pending_own (a : AQueue) : Prop :=
  forall t' l, a_pending a !! t' = Some l -> Forall (fun n => src (node_msg n) = Z.of_nat t') l.

Lemma mine_app (l k : list Node) : mine (l ++ k) = mine l ++ mine k.
Proof. apply List.filter_app. Qed.

Lemma mine_all (l : list Node) : Forall (fun n => src (node_msg n) = t) l -> mine l = l.
Proof.
  induction 1 as [|x l Hx _ IH]; [done|]. simpl. unfold from_t at 1. rewrite bool_decide_eq_true_2 by done.
  by f_equal.
Qed.

Lemma mine_none (t' : Z) (l : list Node) : t' <> t -> Forall (fun n => src (node_msg n) = t') l -> mine l = [].
Proof.
  intros Ht. induction 1 as [|x l Hx _ IH]; [done|]. simpl. unfold from_t at 1.
  rewrite bool_decide_eq_false_2 by congruence. done.
Qed.

Lemma pending_own_step (op : fifo_op) (a a' : AQueue) (r : option (Z * bool)) (c : list call) :
  ordered_op op = true -> astep op a r c a' -> pending_own a -> pending_own a'.
Proof.
  intros Hop Hs Hown. destruct Hs; try done; intros t' k Hk; simpl in *; try by eapply Hown.
  - apply andb_true_iff in Hop as [H1 H2]. apply bool_decide_eq_true in H1, H2.
    destruct (decide (t' = Z.to_nat t0)) as [->|Hne].
    + rewrite list_lookup_insert_eq in Hk by (by eapply lookup_lt_Some). injection Hk as <-.
      apply Forall_app. split; [by eapply Hown|]. constructor; [|done]. simpl. lia.
    + rewrite list_lookup_insert_ne in Hk by done. by eapply Hown.
  - destruct (decide (t' = Z.to_nat t0)) as [->|Hne].
    + rewrite list_lookup_insert_eq in Hk by (by eapply lookup_lt_Some). by injection Hk as <-.
    + rewrite list_lookup_insert_ne in Hk by done. by eapply Hown.
Qed.

(** What of thread [t]'s messages is still to be acknowledged, in order. *)
Definition chain (a : AQueue) : list Node := mine (a_backlog a ++ a_queue a) ++ pending_of a.

Definition order_inv (a : AQueue) (P D : list Node) : Prop :=
  pending_own a /\ (a_use_backlog a = false -> a_backlog a = []) /\ mine D ++ chain a `sublist_of` P.

Lemma no_backlog_step (op : fifo_op) (a a' : AQueue) (r : option (Z * bool)) (c : list call) :
  astep op a r c a' -> (a_use_backlog a = false -> a_backlog a = []) ->
  a_use_backlog a' = false -> a_backlog a' = [].
Proof.
  intros Hs Hno. destruct Hs; simpl; intros Hu; try (by apply Hno); try rewrite Hno by done;
    by rewrite ?Hu, ?drop_nil, ?take_nil.
Qed.

Lemma order_push (a : AQueue) (P D l : list Node) (t' m : Z) (po : LogPathOptions) : 0 <= t' -> 0 <= t ->
  a_pending a !! Z.to_nat t' = Some l -> mine D ++ chain a `sublist_of` P ->
  mine D ++ mine (a_backlog a ++ a_queue a) ++
    default [] (<[Z.to_nat t' := l ++ [new_node m po]]> (a_pending a) !! Z.to_nat t)
  `sublist_of` P ++ (if bool_decide (t' = t) then [new_node m po] else []).
Proof.
  intros H1 H2 Hl Hsub. unfold chain, pending_of in Hsub. case_bool.
  - subst t'. rewrite list_lookup_insert_eq by (by eapply lookup_lt_Some). rewrite Hl in Hsub. simpl in *.
    rewrite !app_assoc in *. by apply sublist_app.
  - rewrite list_lookup_insert_ne by lia. by rewrite app_nil_r.
Qed.

Lemma order_move (a : AQueue) (P D l : list Node) (t' : Z) (n : nat) : 0 <= t' -> 0 <= t -> pending_own a ->
  a_pending a !! Z.to_nat t' = Some l -> mine D ++ chain a `sublist_of` P ->
  mine D ++ mine (a_backlog a ++ a_queue a ++ drop n l) ++
    default [] (<[Z.to_nat t' := []]> (a_pending a) !! Z.to_nat t) `sublist_of` P.
Proof.
  intros H1 H2 Hown Hl Hsub. pose proof (Hown _ _ Hl) as Hl'. rewrite Z2Nat.id in Hl' by lia.
  unfold chain, pending_of in Hsub. rewrite (app_assoc (a_backlog a)), (mine_app (_ ++ _)). destruct (decide (t' = t)) as [->|Hne].
  - rewrite list_lookup_insert_eq by (by eapply lookup_lt_Some). rewrite Hl in Hsub. simpl in *.
    rewrite (mine_all (drop n l)) by (by apply Forall_drop). etrans; [|exact Hsub].
    rewrite app_nil_r. repeat (apply sublist_app; [done|]). apply sublist_drop.
  - rewrite list_lookup_insert_ne by lia. rewrite (mine_none t' (drop n l)) by (done || by apply Forall_drop).
    by rewrite app_nil_r.
Qed.

Lemma order_step (op : fifo_op) (a a' : AQueue) (r : option (Z * bool)) (c : list call) (P D : list Node) :
  0 <= t -> ordered_op op = true -> astep op a r c a' -> order_inv a P D ->
  order_inv a' (P ++ pushed_by op) (D ++ done_by op a).
Proof.
  intros Ht Hop Hs (Hown & Hno & Hsub). split; [by eapply pending_own_step|]. split; [by eapply no_backlog_step|].
  rewrite mine_app, <- app_assoc.
  destruct Hs; simpl in *; rewrite ?app_nil_r; try done.
  - by apply (order_push a).
  - apply andb_true_iff in Hop as [H1 _]. apply bool_decide_eq_true in H1. lia.
  - rewrite bool_decide_eq_false_2 by lia. by rewrite app_nil_r.
  - by apply (order_move a).
  - rewrite H. by destruct (a_use_backlog a).
  - unfold chain in *; simpl. rewrite H in *. destruct (a_use_backlog a).
    + by rewrite <- app_assoc.
    + rewrite Hno in * by done. simpl in *. by destruct (from_t x).
  - unfold chain in *; simpl.
    by rewrite (app_assoc (mine (take _ _))), <- mine_app, (app_assoc (take _ _)), take_drop.
  - unfold chain in *; simpl. by rewrite (app_assoc (take _ _)), take_drop.
Qed.

Lemma traced_inv (f : LogQueueFifo) (P D : list Node) : 0 <= t -> traced f P D ->
  fifo_wf f /\ order_inv (abs f) P D.
Proof.
  intros Ht. induction 1 as [threads size backlog|op f r c f' P D _ [IH1 IH2] Hop Hok Hrun].
  - split; [apply new_queue_wf|]. split; [|split; [done|]].
    + intros t' l Hl. simpl in Hl. rewrite fmap_replicate in Hl. apply lookup_replicate in Hl as [-> _]. done.
    + unfold chain, pending_of. simpl. rewrite fmap_replicate.
      destruct (replicate _ _ !! Z.to_nat t) as [l|] eqn:E; [|done]. by apply lookup_replicate in E as [-> _].
  - pose proof (run_op_astep _ _ _ _ _ IH1 Hok Hrun). split; [|by eapply order_step].
    destruct (op_refined f op IH1 Hok) as (r1 & c1 & f1 & Hrun1 & Hwf & _). rewrite Hrun1 in Hrun.
    by injection Hrun as <- <- <-.
Qed.
End order.

(** C6: the messages of one input thread leave the queue in the order the
    thread pushed them.  Over any run of pushes at the tail by input threads, moves to the waiting list, pops, acknowledgements and
    rewinds of a number of messages (log_queue_rewind_backlog): those already delivered, those waiting for an
    acknowledgement, the queued ones and the pending ones form, in this
    order, a subsequence of what the thread pushed; what is missing was dropped.  Pushes at the head and
    log_queue_rewind_backlog_all are not among the calls; the latter breaks the order (rewind_backlog_all_reorders). *)
Theorem log_queue_fifo_order (src : Z -> Z) (t : Z) (f : LogQueueFifo) (P D : list Node) (Ht : 0 <= t)
  (Htr : traced src t f P D) :
  mine src t (D ++ qbacklog f ++ qoverflow_output f ++ qoverflow_wait f) ++
    default [] (items <$> qoverflow_input f !! Z.to_nat t) `sublist_of` P.
Proof.
  destruct (traced_inv src t f P D Ht Htr) as (_ & _ & _ & H). unfold chain, pending_of in H. simpl in H.
  rewrite list_lookup_fmap in H. by rewrite mine_app, <- app_assoc.
Qed.

Definition order_ops : list fifo_op :=
  [OPushTail 0 10 plain; OPushTail 1 20 plain; OPushTail 0 11 plain; OMoveInput 1; OMoveInput 0; OPopHead; OPopHead;
   ORewindBacklog 1; OPopHead; OAckBacklog 1].

Fixpoint run_traced (src : Z -> Z) (t : Z) (ops : list fifo_op) (f : LogQueueFifo) (P D : list Node)
    : option (LogQueueFifo * list Node * list Node) :=
  match ops with
  | [] => Some (f, P, D)
  | op :: ops =>
      if ordered_op src op && op_ok op f then
        match run_op op f with
        | Ret (_, _, f') => run_traced src t ops f' (P ++ pushed_by t op) (D ++ done_by op (abs f))
        | Abort => None
        end
      else None
  end.

Lemma run_traced_sound (src : Z -> Z) (t : Z) (ops : list fifo_op) (f f' : LogQueueFifo) (P D P' D' : list Node) :
  traced src t f P D -> run_traced src t ops f P D = Some (f', P', D') -> traced src t f' P' D'.
Proof.
  revert f P D; induction ops as [|op ops IH]; intros f P D Hf H; simplify_eq/=; [done|].
  destruct (ordered_op src op && op_ok op f) eqn:E; [|done]. apply andb_true_iff in E as [E1 E2].
  destruct (run_op op f) as [[[r c] f1]|] eqn:Er; [|done]. eapply IH; [|exact H]. by econstructor.
Qed.

Lemma log_queue_fifo_order_witness :
  let src m := Z.quot m 10 - 1 in
  match run_traced src 0 order_ops (new_queue 2 10 true) [] [] with
  | Some (f, P, D) =>
      P = [new_node 10 plain; new_node 11 plain] /\ D = [new_node 20 plain] /\
      mine src 0 (D ++ qbacklog f ++ qoverflow_output f ++ qoverflow_wait f) ++
        default [] (items <$> qoverflow_input f !! Z.to_nat 0) `sublist_of` P
  | None => False
  end.
Proof.
  intros src. destruct (run_traced src 0 order_ops (new_queue 2 10 true) [] []) as [[[f P] D]|] eqn:E.
  - split; [|split]; [vm_compute in E; by injection E as _ <- _|vm_compute in E; by injection E as _ _ <-|].
    apply log_queue_fifo_order; [done|]. eapply run_traced_sound; [|exact E]. constructor.
  - by vm_compute in E.
Defined.

(** ** References and acknowledgements *)

Definition sum_of {A} (g : A -> Z) (l : list A) : Z := foldr (fun x s => g x + s) 0 l.

Lemma sum_of_app {A} (g : A -> Z) (l k : list A) : sum_of g (l ++ k) = sum_of g l + sum_of g k.
Proof. induction l as [|x l IH]; simpl; [lia|]. rewrite IH. lia. Qed.

Lemma sum_of_take_drop {A} (g : A -> Z) (n : nat) (l : list A) :
  sum_of g (take n l) + sum_of g (drop n l) = sum_of g l.
Proof. rewrite <- sum_of_app, take_drop. done. Qed.

Lemma sum_concat_insert (g : Node -> Z) (ls : list (list Node)) (t : nat) (l l' : list Node) : ls !! t = Some l ->
  sum_of g (concat (<[t:=l']> ls)) = sum_of g (concat ls) - sum_of g l + sum_of g l'.
Proof.
  revert t; induction ls as [|x ls IH]; intros [|t] Ht; simplify_eq/=; rewrite !sum_of_app; [lia|].
  rewrite (IH _ Ht). lia.
Qed.

Definition weight (g : Node -> Z) (a : AQueue) : Z :=
  sum_of g (concat (a_pending a)) + sum_of g (a_queue a) + sum_of g (a_backlog a).

(** What an operation takes over from its caller (positive) or hands to it. *)
Definition handed (head : bool) (g : Node -> Z) (op : fifo_op) (a : AQueue) : Z :=
  match op with
  | OPushTail _ m po => g (new_node m po)
  | OPushHead m po => if head then g (new_node m po) else 0
  | OPopHead => if head && a_use_backlog a then 0 else - sum_of g (take 1 (a_queue a))
  | _ => 0
  end.

(** A node weight [g] and a call weight [h] that agree on what dropping and
    acknowledging a node gives up. *)
Lemma astep_weight (head : bool) (g : Node -> Z) (h : call -> Z) (op : fifo_op) (a a' : AQueue)
  (r : option (Z * bool)) (c : list call) :
  (forall n, h (drop_call n) = - g n) -> (forall n, sum_of h (ack_calls n) = - g n) ->
  (forall n, h (CRef (node_msg n)) = if head then 0 else g n) ->
  (forall m, h (CRef m) + h (CUnref m) = 0) ->
  astep op a r c a' -> weight g a' = weight g a + sum_of h c + handed head g op a.
Proof.
  intros Hd Ha Hr Hru Hs. unfold weight.
  assert (Hdrops : forall l, sum_of h (drop_call <$> l) = - sum_of g l).
  { induction l as [|x l IH]; [done|]. rewrite fmap_cons. simpl. rewrite Hd, IH. lia. }
  assert (Hacks : forall l, sum_of h (l ≫= ack_calls) = - sum_of g l).
  { induction l as [|x l IH]; [done|]. rewrite bind_cons, sum_of_app, Ha, IH. simpl. lia. }
  destruct Hs; cbn [a_pending a_queue a_backlog a_use_backlog handed]; rewrite ?sum_of_app, ?Hdrops, ?Hacks.
  - erewrite sum_concat_insert by done. rewrite sum_of_app. specialize (Hru m). simpl. lia.
  - specialize (Hru m). simpl. lia.
  - specialize (Hd (new_node m po)). unfold drop_call in Hd. simpl in *.
    replace po with (mkLogPathOptions (ack_needed po) (flow_control_requested po)) at 1 by (by destruct po). lia.
  - erewrite sum_concat_insert by done. pose proof (sum_of_take_drop g n l). simpl. lia.
  - specialize (Hr (new_node m po)). simpl in *. destruct head; lia.
  - rewrite H. simpl. destruct (head && a_use_backlog a); lia.
  - rewrite H. specialize (Hr x). simpl.
    destruct head, (a_use_backlog a); simpl; rewrite ?sum_of_app; simpl; lia.
  - pose proof (sum_of_take_drop g (Z.to_nat n) (a_backlog a)). simpl. lia.
  - pose proof (sum_of_take_drop g k (a_backlog a)). simpl. lia.
  - pose proof (sum_of_take_drop g k (a_queue a)). simpl. lia.
  - simpl. lia.
Qed.

(** How many references a call gives to message [m], and how many
    acknowledgements it delivers. *)
Definition ref_change (m : Z) (c : call) : Z :=
  match c with
  | CRef x => if bool_decide (x = m) then 1 else 0
  | CUnref x | CDrop x _ _ => if bool_decide (x = m) then -1 else 0
  | _ => 0
  end.

Definition ack_change (m : Z) (c : call) : Z :=
  match c with
  | CAck x po _ | CDrop x po _ => if bool_decide (x = m) && ack_needed po then -1 else 0
  | _ => 0
  end.

Definition node_ref (m : Z) (n : Node) : Z := if bool_decide (node_msg n = m) then 1 else 0.
Definition node_ack (m : Z) (n : Node) : Z := if bool_decide (node_msg n = m) && node_ack_needed n then 1 else 0.

(** C7: every queued node owns exactly one reference to its message and, when
    flagged, one acknowledgement: whatever operation runs, the change of the
    number of nodes equals the references taken less those given up by its
    calls, plus what the caller hands over (or gets, when popping); with a
    backlog the acknowledgement stays with the queue. *)
Theorem log_queue_fifo_balance (f f' : LogQueueFifo) (op : fifo_op) (r : option (Z * bool)) (c : list call) (m : Z)
  (Hreach : fifo_reach f) (Hok : op_ok op f = true) (Hrun : run_op op f = Ret (r, c, f')) :
  weight (node_ref m) (abs f') = weight (node_ref m) (abs f) + sum_of (ref_change m) (msg_calls c) +
    handed false (node_ref m) op (abs f) /\
  weight (node_ack m) (abs f') = weight (node_ack m) (abs f) + sum_of (ack_change m) (msg_calls c) +
    handed true (node_ack m) op (abs f).
Proof.
  apply reach_wf in Hreach. pose proof (run_op_astep _ _ _ _ _ Hreach Hok Hrun) as Hs.
  split; (eapply astep_weight; [..|exact Hs]); intros; unfold node_ref, node_ack; simpl;
    repeat match goal with
           | |- context [bool_decide ?P] => destruct (bool_decide P)
           | |- context [node_ack_needed ?n] => destruct (node_ack_needed n)
           end; done.
Qed.

Lemma log_queue_fifo_balance_witness :
  weight (node_ack 20) (abs (demo_fifo 6)) = 1 /\ weight (node_ack 20) (abs (demo_fifo 7)) = 1 /\
  match run_op (OPushTail (-1) 33 controlled) (demo_fifo 7) with
  | Ret (r, c, f') => weight (node_ref 33) (abs f') =
      weight (node_ref 33) (abs (demo_fifo 7)) + sum_of (ref_change 33) (msg_calls c) +
      handed false (node_ref 33) (OPushTail (-1) 33 controlled) (abs (demo_fifo 7))
  | Abort => False
  end.
Proof.
  split; [by vm_compute|]. split; [by vm_compute|].
  destruct (run_op (OPushTail (-1) 33 controlled) (demo_fifo 7)) as [[[r c] f']|] eqn:E; [|by vm_compute in E].
  eapply log_queue_fifo_balance; [apply demo_fifo_reach|by vm_compute|exact E].
Defined.

(** ** Where the code falls short *)

(** [log_queue_fifo_rewind_backlog_all] puts the backlog behind the output
    list: with a message left on the output list, the next message sent is
    that one and not the oldest unacknowledged one, which
    [log_queue_fifo_rewind_backlog] sends first. *)
Theorem rewind_backlog_all_reorders (f : LogQueueFifo) (o b : Node) (os bs : list Node) (Hr : fifo_reach f)
  (Ho : qoverflow_output f = o :: os) (Hb : qbacklog f = b :: bs) :
  fst (fst (log_queue_fifo_pop_head (log_queue_fifo_rewind_backlog_all f))) = Some (node_msg o, node_ack_needed o) /\
  fst (fst (log_queue_fifo_pop_head (log_queue_fifo_rewind_backlog f (qbacklog_len f)))) =
    Some (node_msg b, node_ack_needed b).
Proof.
  apply reach_wf in Hr.
  assert (Hpop : forall g x q, fifo_wf g -> a_queue (abs g) = x :: q ->
            fst (fst (log_queue_fifo_pop_head g)) = Some (node_msg x, node_ack_needed x)).
  { intros g x q Hg Hq. destruct (pop_head_refined g Hg) as (r & c & g' & Hrun & _ & Ha).
    injection Hrun as ->. simpl. inversion Ha; congruence. }
  split.
  - destruct (rewind_all_refined f Hr) as (r & c & g & Hrun & Hg & _). injection Hrun as _ _ <-.
    eapply Hpop; [done|]. simpl. by rewrite Ho.
  - destruct (rewind_backlog_refined f (qbacklog_len f) Hr) as (r & c & g & Hrun & Hg & Ha).
    { pose proof (node_count_parts f Hr). rewrite (wf_backlog f Hr). pose proof (lenZ_nonneg (qbacklog f)).
      apply bool_decide_eq_true. lia. }
    injection Hrun as _ _ <-. set (g := log_queue_fifo_rewind_backlog f (qbacklog_len f)) in *.
    eapply (Hpop g b (bs ++ a_queue (abs f))); [done|].
    inversion Ha as [| | | | | | | |n a k E1 E2 E3 E4 E5| |]. simpl. subst k. simpl in *.
    replace (length (qbacklog f) - Z.to_nat (qbacklog_len f))%nat with 0%nat in *
      by (rewrite (wf_backlog f Hr); unfold lenZ; lia).
    match goal with H : _ = qoverflow_output g ++ _ |- _ => rewrite <- H end. by rewrite Hb.
Qed.

Lemma rewind_backlog_all_reorders_witness :
  fst (fst (log_queue_fifo_pop_head (log_queue_fifo_rewind_backlog_all (demo_fifo 6)))) = Some (11, true).
Proof.
  exact (proj1 (rewind_backlog_all_reorders (demo_fifo 6) (new_node 11 plain) (new_node 10 plain) [] []
                  (demo_fifo_reach 6) ltac:(by vm_compute) ltac:(by vm_compute))).
Defined.

(** One thread pushing a batch of messages. *)
Fixpoint push_batch (f : LogQueueFifo) (t : Z) (po : LogPathOptions) (msgs : list Z) : outcome LogQueueFifo :=
  match msgs with
  | [] => Ret f
  | m :: msgs => let! (_, f) := log_queue_fifo_push_tail f t m po in push_batch f t po msgs
  end.

Lemma push_batch_spec (msgs : list Z) (po : LogPathOptions) (t : Z) (s : LogQueue) (w : list Node) (wl size : Z)
  (ins : list InputQueue) (l : list Node) (k : Z) : ref_cnt s > 0 -> 0 <= t -> ins !! Z.to_nat t = Some (mkInputQueue l k true) ->
  0 <= k < 2 ^ 16 ->
  push_batch (mkLogQueueFifo s [] w wl 0 size [] 0 ins) t po msgs =
  Ret (mkLogQueueFifo s [] w wl 0 size [] 0
         (<[Z.to_nat t:=mkInputQueue (l ++ ((fun m => new_node m po) <$> msgs)) (u16 (k + lenZ msgs)) true]> ins)).
Proof.
  intros Hs Ht. revert ins l k; induction msgs as [|m msgs IH]; intros ins l k Hi Hk.
  { replace (u16 (k + lenZ (@nil Z))) with k by (rewrite lenZ_nil, Z.add_0_r; by rewrite u16_small).
    rewrite fmap_nil, app_nil_r, list_insert_id by done. done. }
  pose proof (lookup_lt_Some _ _ _ Hi) as Hlt.
  cbn [push_batch]. unfold log_queue_fifo_push_tail. cbn [qoverflow_input].
  rewrite (bool_decide_eq_false_2 (t < 0)), (bool_decide_eq_true_2 (lenZ ins > t))
    by (unfold lenZ; lia). cbn [orb g_assert obind].
  rewrite bool_decide_eq_true_2, Hi by lia. cbn [finish_cb_registered items len obind log_msg_init_queue_node].
  unfold set_input, fifo_set_super. cbn [qoverflow_output qoverflow_wait qoverflow_wait_len qoverflow_output_len
    qoverflow_size qbacklog qbacklog_len fifo_super qoverflow_input].
  rewrite (IH _ (l ++ [mkNode m (ack_needed po) (flow_control_requested po)]) (u16 (k + 1))).
  - rewrite list_insert_insert_eq, <- app_assoc. do 4 f_equal. unfold u16. rewrite Zplus_mod_idemp_l, lenZ_cons.
    f_equal. lia.
  - by rewrite list_lookup_insert_eq.
  - apply u16_range.
Qed.

Lemma first_push (threads : nat) (size m : Z) (po : LogPathOptions) :
  log_queue_fifo_push_tail (new_queue (S threads) size false) 0 m po =
  Ret ([CRegisterBatch 0; CRef m; CUnref m],
       mkLogQueueFifo (set_ref_cnt log_queue_init_instance 2) [] [] 0 0 size [] 0
         (mkInputQueue [new_node m po] 1 true :: replicate threads (mkInputQueue [] 0 false))).
Proof.
  unfold log_queue_fifo_push_tail. rewrite (bool_decide_eq_true_2 (lenZ _ > 0)); [reflexivity|].
  simpl. rewrite lenZ_cons. pose proof (lenZ_nonneg (replicate threads (mkInputQueue [] 0 false))). lia.
Qed.

(** the length of an input list has 16 bits: after a batch of 65536
    messages from one thread the moved messages are on the wait list while
    the queue reports length zero and popping finds nothing. *)
Theorem input_length_wraps (threads : nat) (size : Z) (msgs : list Z) (po : LogPathOptions)
  (Hn : lenZ msgs = 65535) (m : Z) (Hs : 0 <= size) :
  match (let! (_, f) := log_queue_fifo_push_tail (new_queue (S threads) size false) 0 m po in
         let! f := push_batch f 0 po msgs in
         log_queue_fifo_move_input f 0) with
  | Ret (_, Some f) =>
      qoverflow_wait f = (fun m => new_node m po) <$> m :: msgs /\ log_queue_fifo_get_length f = 0 /\
      fst (fst (log_queue_fifo_pop_head f)) = None
  | _ => False
  end.
Proof.
  rewrite first_push. cbn [obind]. rewrite (push_batch_spec msgs po 0 _ _ _ _ _ [new_node m po] 1) by done.
  cbn [obind].
  rewrite Hn. change (u16 (1 + 65535)) with 0.
  unfold log_queue_fifo_move_input, log_queue_fifo_move_input_unlocked.
  rewrite (bool_decide_eq_true_2 (0 >= 0)) by lia. change (Z.to_nat 0) with 0%nat.
  cbn [g_assert obind qoverflow_input]. rewrite list_lookup_insert_eq by (simpl; lia).
  cbn [obind]. unfold move_input_seen. cbn [len qoverflow_size].
  change (log_queue_fifo_get_length _ + 0) with 0. rewrite (bool_decide_eq_false_2 (0 > size)) by lia. done.
Qed.

Lemma input_length_wraps_witness :
  match (let! (_, f) := log_queue_fifo_push_tail (new_queue 1 1000000 false) 0 7 plain in
         let! f := push_batch f 0 plain (replicate (Z.to_nat 65535) 8) in
         log_queue_fifo_move_input f 0) with
  | Ret (_, Some f) => log_queue_fifo_get_length f = 0
  | _ => False
  end.
Proof.
  pose proof (input_length_wraps 0 1000000 (replicate (Z.to_nat 65535) 8) plain
                ltac:(unfold lenZ; rewrite length_replicate; reflexivity) 7 ltac:(lia)) as H.
  destruct (let! (_, f) := _ in _) as [[c [f|]]|]; [apply H|done|done].
Defined.

(** ** Throttling *)

(** a throttled queue, seen from one check of the consumer: over any
    sequence of later checks and pops on a forward-moving clock the consumer
    gets at most the tokens that were left plus [throttle] messages per
    second, whichever queue implements the class. *)
Theorem log_queue_throttle_rate {Q : Type} `{LogQueueLaws Q} (T : Z) (l : list consume) (q : Q)
  (Hq : throttled T (super q)) (Hclock : clock_ok (usec (last_throttle_check (super q))) l q) :
  let '(n, q') := consumer_run l q in
  n * G_USEC_PER_SEC <= throttle_buckets (super q) * G_USEC_PER_SEC +
    T * (usec (last_throttle_check (super q')) - usec (last_throttle_check (super q))).
Proof.
  pose proof (consumer_run_bound T l q _ Hq (Z.le_refl _) Hclock) as Hb.
  destruct (consumer_run l q) as [n q']. destruct Hb as [(_ & _ & Hbk & _) Hb].
  unfold G_USEC_PER_SEC in *. lia.
Qed.

(** Three messages in a queue throttled to two per second. *)
Definition throttle_queue : LogQueueFifo :=
  let f := default (new_queue 1 10 false) (run_ops [OPushTail 0 1 plain; OPushTail 0 2 plain; OPushTail 0 3 plain;
                                                    OMoveInput 0] (new_queue 1 10 false)) in
  fifo_set_super f (set_last_check (log_queue_set_throttle (fifo_super f) 2) (mkGTimeVal 100 0)).

Lemma log_queue_throttle_rate_witness :
  let l := [Check (mkGTimeVal 100 0); Pop; Pop; Pop; Check (mkGTimeVal 100 500000); Pop] in
  fst (consumer_run l throttle_queue) = 3 /\
  (let '(n, q') := consumer_run l throttle_queue in
   n * G_USEC_PER_SEC <= throttle_buckets (super throttle_queue) * G_USEC_PER_SEC +
     2 * (usec (last_throttle_check (super q')) - usec (last_throttle_check (super throttle_queue)))).
Proof.
  intros l. split; [by vm_compute|]. apply (log_queue_throttle_rate 2 l throttle_queue).
  - by vm_compute.
  - vm_compute. by repeat split.
Defined.

(** the token counter is a 32 bit integer: after an interval worth 2^31
    tokens or more it turns negative, the check says yes and popping is no
    longer limited: every pop returns what the queue has and leaves the
    counter negative. *)
Theorem throttle_overflow_disables {Q : Type} `{LogQueueLaws Q} (T : Z) (q : Q) (now : GTimeVal)
  (Hq : throttled T (super q)) (Hlen : get_length q <> 0)
  (Hn : 2 ^ 31 <= T * (usec now - usec (last_throttle_check (super q))) / G_USEC_PER_SEC < 2 ^ 32 - T) :
  let '(r, _, _, q') := log_queue_check_items q true None None None now in
  r = true /\ throttle_buckets (super q') < 0 /\
  (forall p : Q, throttle_buckets (super p) < 0 ->
     log_queue_pop_head p = pop_head p /\ throttle_buckets (super (snd (log_queue_pop_head p))) < 0).
Proof.
  destruct Hq as (HT & Ht & Hb & Hsec). unfold log_queue_check_items.
  rewrite bool_decide_eq_false_2 by done. rewrite bool_decide_eq_true_2 by (simpl; lia).
  set (d := usec now - _) in *.
  assert (Hd : 0 <= d) by (unfold G_USEC_PER_SEC in Hn; Z.to_euclidean_division_equations; nia).
  assert (Hq : Z.quot (T * d) G_USEC_PER_SEC = T * d / G_USEC_PER_SEC)
    by (apply Z.quot_div_nonneg; unfold G_USEC_PER_SEC; nia).
  assert (Hs : forall x, 2 ^ 31 <= x < 2 ^ 32 -> s32 x = x - 2 ^ 32).
  { intros x Hx. unfold s32. rewrite u32_small by lia. case_bool; lia. }
  assert (Hneg : throttle_buckets (refill_buckets (set_notify (super q) None None (parallel_push_data_destroy (super q))) now) < 0).
  { unfold refill_buckets. cbn [set_notify last_throttle_check]. rewrite bool_decide_eq_true_2, time_diff_usec by done.
    cbv beta iota zeta. unfold new_buckets. cbn [throttle throttle_buckets set_notify]. rewrite HT.
    fold d. rewrite Hq, Hs by lia. rewrite bool_decide_eq_true_2 by lia. cbn [throttle_buckets set_last_check set_buckets].
    assert (s32 (throttle_buckets (super q) + (T * d / G_USEC_PER_SEC - 2 ^ 32)) < 0); [|lia].
    unfold s32, u32. case_bool; [|Z.to_euclidean_division_equations; lia].
    exfalso. rewrite <- (Z.mod_add _ 1), Z.mod_small in Hb0 by lia. lia. }
  rewrite bool_decide_eq_false_2 by lia. rewrite super_set_super. split; [done|]. split; [done|].
  intros p Hp. unfold log_queue_pop_head. rewrite (bool_decide_eq_false_2 (throttle_buckets (super p) = 0)) by lia.
  rewrite andb_false_r. pose proof (pop_head_throttle p) as (_ & P2 & _).
  destruct (pop_head p) as [[msg c] p'] eqn:E. simpl in P2.
  rewrite (bool_decide_eq_false_2 (throttle_buckets (super p') > 0)) by lia. destruct msg; simpl; by rewrite ?P2.
Qed.

Lemma throttle_overflow_disables_witness :
  let q := fifo_set_super throttle_queue (log_queue_set_throttle (fifo_super throttle_queue) 10000) in
  let '(r, _, _, q') := log_queue_check_items q true None None None (mkGTimeVal (100 + 3 * 86400) 0) in
  r = true /\ throttle_buckets (super q') = -1702957296 /\
  log_queue_pop_head q' = pop_head q'.
Proof.
  intros q.
  pose proof (throttle_overflow_disables 10000 q (mkGTimeVal (100 + 3 * 86400) 0) ltac:(by vm_compute)
    ltac:(by vm_compute) ltac:(by vm_compute)) as H.
  destruct (log_queue_check_items q true None None None _) as [[[r tm] c] q'] eqn:E.
  destruct H as (H1 & H2 & H3). split; [done|]. split; [|by apply H3].
  vm_compute in E. by injection E as _ _ _ <-.
Defined.
