(* ===== verification/AckTracker.v ===== *)
(** * Flow control of a source (lib/logsource.c, lib/logsource.h)

    The window of a source is the number of messages it may still send before
    acknowledgements come back.  Only the fields flow control uses are kept;
    a call of the [wakeup] method is counted. *)
From S2P Require Import Prelude LogMsgRef RingBuffer.

Record timespec := mkTimespec { ts_sec : Z; ts_nsec : Z }.

(** The source computes it in floating point, exact below 2^53 ns. *)
Definition timespec_diff_nsec (t1 t2 : timespec) : Z :=
  (ts_sec t1 - ts_sec t2) * 1000000000 + (ts_nsec t1 - ts_nsec t2).

Record LogSource := mkLogSource {
  window_size : Z;
  suspended : bool;
  threaded : bool;
  pos_tracked : bool;
  last_ack_count : Z;
  ack_count : Z;
  window_full_sleep_nsec : Z;
  last_ack_rate_time : timespec;
  is_external_ack_required : bool;
  wakeups : Z;
  pipe_refs : Z
}.

Definition set_window (s : LogSource) (n : Z) : LogSource :=
  mkLogSource n (suspended s) (threaded s) (pos_tracked s) (last_ack_count s) (ack_count s)
    (window_full_sleep_nsec s) (last_ack_rate_time s) (is_external_ack_required s) (wakeups s) (pipe_refs s).

Definition set_suspended (s : LogSource) (b : bool) : LogSource :=
  mkLogSource (window_size s) b (threaded s) (pos_tracked s) (last_ack_count s) (ack_count s)
    (window_full_sleep_nsec s) (last_ack_rate_time s) (is_external_ack_required s) (wakeups s) (pipe_refs s).

Definition set_rate (s : LogSource) (last cur sleep : Z) (t : timespec) : LogSource :=
  mkLogSource (window_size s) (suspended s) (threaded s) (pos_tracked s) last cur sleep t
    (is_external_ack_required s) (wakeups s) (pipe_refs s).

Definition count_wakeup (s : LogSource) : LogSource :=
  mkLogSource (window_size s) (suspended s) (threaded s) (pos_tracked s) (last_ack_count s) (ack_count s)
    (window_full_sleep_nsec s) (last_ack_rate_time s) (is_external_ack_required s) (wakeups s + 1) (pipe_refs s).

Definition add_pipe_refs (s : LogSource) (d : Z) : LogSource :=
  mkLogSource (window_size s) (suspended s) (threaded s) (pos_tracked s) (last_ack_count s) (ack_count s)
    (window_full_sleep_nsec s) (last_ack_rate_time s) (is_external_ack_required s) (wakeups s) (pipe_refs s + d).

Definition log_source_suspend (self : LogSource) : LogSource := set_suspended self true.
Definition log_source_is_suspended (self : LogSource) : bool := suspended self.
Definition log_source_is_window_full (self : LogSource) : bool := bool_decide (window_size self <= 0).
Definition log_source_free_to_send (self : LogSource) : bool :=
  negb (log_source_is_window_full self || log_source_is_suspended self).

Definition log_source_wakeup (self : LogSource) : LogSource := count_wakeup (set_suspended self false).

Definition _flow_control_window_size_adjust (self : LogSource) (window_size_increment : Z) : LogSource :=
  let old_window_size := window_size self in
  let self := set_window self (s32 (window_size self + window_size_increment)) in
  if bool_decide (old_window_size = 0) || log_source_is_suspended self then log_source_wakeup self else self.

(** The time to sleep, measured on the last [acks] acknowledgements. *)
Definition sleep_of (diff acks : Z) : Z :=
  let sleep := Z.quot diff acks in
  if bool_decide (sleep > 1000000) then 0
  else let sleep := Z.shiftl sleep 3 in if bool_decide (sleep > 100000) then 100000 else sleep.

(** Dividing by zero ends the process. *)
Definition _flow_control_rate_adjust (accurate_nanosleep : bool) (self : LogSource) (now : timespec)
    : outcome LogSource :=
  if accurate_nanosleep && threaded self then
    let cur_ack_count := u32 (ack_count self + 1) in
    let self := set_rate self (last_ack_count self) cur_ack_count (window_full_sleep_nsec self)
                  (last_ack_rate_time self) in
    if bool_decide (Z.land cur_ack_count 0x3FFF = 0) then
      let last := last_ack_count self in
      if bool_decide (last < u32 (cur_ack_count - 16383)) then
        if bool_decide (ts_sec now > ts_sec (last_ack_rate_time self) + 6) then
          Ret (set_rate self last cur_ack_count 0 now)
        else
          let acks := u32 (cur_ack_count - last) in
          let! _ := g_assert (bool_decide (acks <> 0)) in
          Ret (set_rate self cur_ack_count cur_ack_count
                 (sleep_of (timespec_diff_nsec now (last_ack_rate_time self)) acks) now)
      else Ret self
    else Ret self
  else Ret self.

Definition log_source_flow_control_adjust (accurate_nanosleep : bool) (self : LogSource)
    (window_size_increment : Z) (now : timespec) : outcome LogSource :=
  let self := _flow_control_window_size_adjust self window_size_increment in
  let! self := _flow_control_rate_adjust accurate_nanosleep self now in
  Ret (if is_external_ack_required self then log_source_wakeup self else self).

Definition log_source_flow_control_suspend (accurate_nanosleep : bool) (self : LogSource) (now : timespec)
    : outcome LogSource :=
  let self := _flow_control_window_size_adjust self 1 in
  let self := log_source_suspend self in
  _flow_control_rate_adjust accurate_nanosleep self now.

Definition log_source_init_instance : LogSource :=
  mkLogSource (-1) false false false 0 0 0 (mkTimespec 0 0) false 0 1.

Definition log_source_set_options (self : LogSource) (init_window_size : Z) (threaded pos_tracked : bool) : LogSource :=
  let self := if bool_decide (window_size self = -1) then set_window self init_window_size else self in
  mkLogSource (window_size self) (suspended self) threaded pos_tracked (last_ack_count self) (ack_count self)
    (window_full_sleep_nsec self) (last_ack_rate_time self) (is_external_ack_required self) (wakeups self)
    (pipe_refs self).

(** What [log_source_queue] does to the window: one slot is taken, and a
    source that sends beyond its window dies. *)
Definition log_source_queue_window (self : LogSource) : outcome LogSource :=
  let old_window_size := window_size self in
  let self := set_window self (s32 (window_size self - 1)) in
  let! _ := g_assert (bool_decide (old_window_size > 0)) in
  Ret self.

(** ** Lemmas *)

Lemma rate_adjust_window (ns : bool) (s s' : LogSource) (now : timespec) :
  _flow_control_rate_adjust ns s now = Ret s' -> window_size s' = window_size s /\ suspended s' = suspended s /\
    is_external_ack_required s' = is_external_ack_required s.
Proof.
  unfold _flow_control_rate_adjust. intros H.
  repeat (case_if_in H; try (injection H as <-; done)).
  destruct (g_assert _); [|done]. by injection H as <-.
Qed.

Lemma window_adjust_spec (s : LogSource) (n : Z) : - 2 ^ 31 <= window_size s + n < 2 ^ 31 ->
  window_size (_flow_control_window_size_adjust s n) = window_size s + n.
Proof.
  intros Hn. unfold _flow_control_window_size_adjust. cbv zeta.
  assert (Hs : s32 (window_size s + n) = window_size s + n).
  { unfold s32, u32. case_bool; Z.to_euclidean_division_equations; lia. }
  destruct (bool_decide _ || _); simpl; done.
Qed.

(** Once the measured interval holds at least one acknowledgement the rate
    measurement returns. *)
Lemma rate_adjust_total (ns : bool) (s : LogSource) (now : timespec) :
  last_ack_count s <> u32 (ack_count s + 1) -> 0 <= last_ack_count s < 2 ^ 32 ->
  exists s', _flow_control_rate_adjust ns s now = Ret s'.
Proof.
  intros Hne Hl. unfold _flow_control_rate_adjust. destruct (ns && threaded s); [|eauto].
  cbv zeta. repeat case_bool; eauto. cbn [last_ack_count set_rate].
  rewrite bool_decide_eq_true_2; [simpl; eauto|].
  pose proof (u32_range (ack_count s + 1)). unfold u32 at 1. set (x := u32 _) in *.
  intros Hz. apply Z.mod_divide in Hz as [k Hk]; [|done].
  assert (k = 0) by lia. subst k. lia.
Qed.

(** * Acknowledgement trackers (lib/late_ack_tracker.c, lib/early_ack_tracker.c)

    The late tracker keeps, in a ring buffer, one record per message sent and
    not yet covered by a saved position.  Records live in memory addressed by
    the byte offset of their slot; a fresh slot is zeroed memory.  Saving and
    destroying a bookmark, unreferencing a message and the flow control of the
    source are the effects of an acknowledgement. *)

(** A bookmark: its position data and whether its methods are set. *)
Record Bookmark := mkBookmark { bm_data : Z; bm_save : bool; bm_destroy : bool }.

Record LateAckRecord := mkLateAckRecord { rec_acked : bool; rec_bookmark : Bookmark }.

Definition zero_record : LateAckRecord := mkLateAckRecord false (mkBookmark 0 false false).

Record LateAckTracker := mkLateAckTracker {
  pending_ack_record : option Z;
  ack_record_storage : RingBuffer;
  records : gmap Z LateAckRecord
}.

(** The source with its tracker, the record each message points to, and what
    happened outside: saved positions, destroyed bookmarks, released
    messages. *)
Record TrackedSource := mkTrackedSource {
  src : LogSource;
  tracker : LateAckTracker;
  msg_record : gmap Z Z;
  saved : list Z;
  destroyed : list Z;
  released : list Z
}.

Definition rec_at (t : LateAckTracker) (p : Z) : LateAckRecord := default zero_record (records t !! p).

Definition set_records (t : LateAckTracker) (m : gmap Z LateAckRecord) : LateAckTracker :=
  mkLateAckTracker (pending_ack_record t) (ack_record_storage t) m.

Definition set_storage (t : LateAckTracker) (r : RingBuffer) : LateAckTracker :=
  mkLateAckTracker (pending_ack_record t) r (records t).

Definition set_pending (t : LateAckTracker) (p : option Z) : LateAckTracker :=
  mkLateAckTracker p (ack_record_storage t) (records t).

Definition SIZEOF_LATE_ACK_RECORD : Z := 168.

Definition late_ack_tracker_new (init_window_size : Z) : outcome LateAckTracker :=
  let! r := ring_buffer_alloc SIZEOF_LATE_ACK_RECORD init_window_size in
  Ret (mkLateAckTracker None r ∅).

Definition _get_continuous_range_length (t : LateAckTracker) : outcome Z :=
  ring_buffer_get_continual_range_length (ack_record_storage t) (fun p => rec_acked (rec_at t p)).

(** The loop of [_drop_range]: each record is reset, its bookmark destroyed
    where it has a destructor. *)
Fixpoint drop_range_loop (n : nat) (i : Z) (t : LateAckTracker) (gone : list Z) : outcome (LateAckTracker * list Z) :=
  match n with
  | O => Ret (t, gone)
  | S n =>
      let! e := ring_buffer_element_at (ack_record_storage t) i in
      match e with
      | None => Abort
      | Some p =>
          let b := rec_bookmark (rec_at t p) in
          let gone := if bm_destroy b then gone ++ [bm_data b] else gone in
          drop_range_loop n (i + 1)
            (set_records t (<[p := mkLateAckRecord false (mkBookmark (bm_data b) false false)]> (records t))) gone
      end
  end.

Definition _drop_range (t : LateAckTracker) (n : Z) : outcome (LateAckTracker * list Z) :=
  let! (t, gone) := drop_range_loop (Z.to_nat n) 0 t [] in
  let! (_, r) := ring_buffer_drop (ack_record_storage t) n in
  Ret (set_storage t r, gone).

Definition late_ack_tracker_request_bookmark (t : LateAckTracker) : outcome (option Z * LateAckTracker) :=
  let! p := ring_buffer_tail (ack_record_storage t) in
  Ret (p, set_pending t p).

(** A reader fills the bookmark it got before it sends the message. *)
Definition fill_bookmark (t : LateAckTracker) (b : Bookmark) : outcome LateAckTracker :=
  match pending_ack_record t with
  | Some p => Ret (set_records t (<[p := mkLateAckRecord (rec_acked (rec_at t p)) b]> (records t)))
  | None => Abort
  end.

Definition late_ack_tracker_track_msg (s : TrackedSource) (msg : Z) : outcome TrackedSource :=
  let t := tracker s in
  match pending_ack_record t with
  | None => Abort
  | Some pending =>
      let! (p, r) := ring_buffer_push (ack_record_storage t) in
      let! _ := g_assert (bool_decide (p = Some pending)) in
      Ret (mkTrackedSource (add_pipe_refs (src s) 1) (set_pending (set_storage t r) None)
             (<[msg := pending]> (msg_record s)) (saved s) (destroyed s) (released s))
  end.

Section acks.
Context (accurate_nanosleep : bool).

Definition late_ack_tracker_manage_msg_ack (s : TrackedSource) (msg : Z) (ack_type : AckType) (now : timespec)
    : outcome TrackedSource :=
  match msg_record s !! msg with
  | None => Abort
  | Some ack_rec =>
      let t := tracker s in
      let t := set_records t (<[ack_rec := mkLateAckRecord true (rec_bookmark (rec_at t ack_rec))]> (records t)) in
      let! ack_range_length := _get_continuous_range_length t in
      let! (source, t, sav, gone) :=
        if bool_decide (ack_range_length > 0) then
          let! e := ring_buffer_element_at (ack_record_storage t) (ack_range_length - 1) in
          match e with
          | None => Abort
          | Some last_in_range =>
              let b := rec_bookmark (rec_at t last_in_range) in
              let! sav :=
                if bool_decide (ack_type <> AT_ABORTED) then
                  let! _ := g_assert (bm_save b) in Ret [bm_data b]
                else Ret [] in
              let! (t, gone) := _drop_range t ack_range_length in
              let! source :=
                if bool_decide (ack_type = AT_SUSPENDED)
                then log_source_flow_control_suspend accurate_nanosleep (src s) now
                else log_source_flow_control_adjust accurate_nanosleep (src s) ack_range_length now in
              Ret (source, t, sav, gone)
          end
        else Ret (src s, t, [], []) in
      Ret (mkTrackedSource (add_pipe_refs source (-1)) t (msg_record s) (saved s ++ sav)
             (destroyed s ++ gone) (released s ++ [msg]))
  end.

Definition late_ack_tracker_free (t : LateAckTracker) : outcome (list Z) :=
  let count := ring_buffer_count (ack_record_storage t) in
  let! (_, gone) := _drop_range t count in
  Ret gone.

(** The early tracker has one record for every message and saves nothing. *)
Definition early_ack_tracker_track_msg (s : LogSource) : LogSource := add_pipe_refs s 1.

Definition early_ack_tracker_manage_msg_ack (s : LogSource) (ack_type : AckType) (now : timespec)
    : outcome LogSource :=
  let! s :=
    if bool_decide (ack_type = AT_SUSPENDED) then log_source_flow_control_suspend accurate_nanosleep s now
    else log_source_flow_control_adjust accurate_nanosleep s 1 now in
  Ret (add_pipe_refs s (-1)).

(** ** A source at work

    [ERequest] and [EFill] are the reader asking for the bookmark of the next
    message and filling it, [ESend] the message passing [log_source_queue],
    [EAcked] its acknowledgement.  The ghost state is every message sent with
    its position, in order, and those acknowledged. *)
Inductive sevent :=
| ERequest
| EFill (b : Bookmark)
| ESend (msg : Z)
| EAcked (msg : Z) (ack_type : AckType) (now : timespec).

Record gstate := mkGState {
  g_src : TrackedSource;
  g_sent : list (Z * Z);
  g_acked : list Z;
  g_types : list AckType
}.

Definition with_tracker (s : TrackedSource) (t : LateAckTracker) : TrackedSource :=
  mkTrackedSource (src s) t (msg_record s) (saved s) (destroyed s) (released s).

Definition with_source (s : TrackedSource) (l : LogSource) : TrackedSource :=
  mkTrackedSource l (tracker s) (msg_record s) (saved s) (destroyed s) (released s).

Definition pending_data (t : LateAckTracker) : Z :=
  match pending_ack_record t with Some p => bm_data (rec_bookmark (rec_at t p)) | None => 0 end.

(** The reader sends only inside its window and after filling a bookmark that
    can be saved; a message is acknowledged once. *)
Definition sevent_ok (e : sevent) (g : gstate) : bool :=
  let t := tracker (g_src g) in
  match e with
  | ERequest => true
  | EFill b => bool_decide (pending_ack_record t <> None) && bm_save b
  | ESend msg =>
      log_source_free_to_send (src (g_src g)) && bool_decide (msg ∉ (g_sent g).*1) &&
      match pending_ack_record t with Some p => bm_save (rec_bookmark (rec_at t p)) | None => false end
  | EAcked msg _ _ => bool_decide (msg ∈ (g_sent g).*1) && bool_decide (msg ∉ g_acked g)
  end.

Definition run_sevent (e : sevent) (g : gstate) : outcome gstate :=
  let s := g_src g in
  match e with
  | ERequest =>
      let! (_, t) := late_ack_tracker_request_bookmark (tracker s) in
      Ret (mkGState (with_tracker s t) (g_sent g) (g_acked g) (g_types g))
  | EFill b =>
      let! t := fill_bookmark (tracker s) b in
      Ret (mkGState (with_tracker s t) (g_sent g) (g_acked g) (g_types g))
  | ESend msg =>
      let data := pending_data (tracker s) in
      let! s := late_ack_tracker_track_msg s msg in
      let! l := log_source_queue_window (src s) in
      Ret (mkGState (with_source s l) (g_sent g ++ [(msg, data)]) (g_acked g) (g_types g))
  | EAcked msg ty now =>
      let! s := late_ack_tracker_manage_msg_ack s msg ty now in
      Ret (mkGState s (g_sent g) (g_acked g ++ [msg]) (g_types g ++ [ty]))
  end.
End acks.

(** A source with its late tracker, as [log_source_set_options] leaves it. *)
Definition start_source (init_window_size : Z) (threads : bool) : outcome gstate :=
  let s := log_source_set_options log_source_init_instance init_window_size threads true in
  let! t := late_ack_tracker_new init_window_size in
  Ret (mkGState (mkTrackedSource s t ∅ [] [] []) [] [] []).

Inductive source_reach (ns : bool) (init : Z) : gstate -> Prop :=
| source_start threads g : start_source init threads = Ret g -> source_reach ns init g
| source_step e g g' : source_reach ns init g -> sevent_ok e g = true -> run_sevent ns e g = Ret g' ->
    source_reach ns init g'.
