(* ===== verification/AckTrackerSpec.v ===== *)
(** * The late acknowledgement tracker saves no position too early

    The invariant of a source at work and its preservation: the ring holds
    exactly the messages behind the longest acknowledged prefix of what was
    sent, and the window counts what is left. *)
From S2P Require Import Prelude RingBuffer LogMsgRef AckTracker.

(** ** Ring facts *)

Lemma rb_contents_NoDup (r : RingBuffer) : rb_wf r -> NoDup (rb_contents r).
Proof.
  intros Hwf. apply NoDup_alt. intros i j p Hi Hj. pose proof (rb_contents_length r Hwf) as HL. unfold lenZ in HL.
  pose proof (lookup_lt_Some _ _ _ Hi) as Li. pose proof (lookup_lt_Some _ _ _ Hj) as Lj.
  pose proof Hwf as [Ha Hc He Hb Hh Hn Ht].
  rewrite rb_contents_lookup in Hi, Hj by lia. injection Hi as Hi. injection Hj as Hj.
  rewrite <- Hj in Hi. apply rb_slot_ptr_inj in Hi; [|done|apply Z.mod_pos_bound; lia..].
  assert (Hm : forall x, 0 <= x < 2 * rb_capacity r -> x mod rb_capacity r = x /\ x < rb_capacity r \/
    x mod rb_capacity r = x - rb_capacity r /\ rb_capacity r <= x).
  { intros x Hx. destruct (Z.lt_ge_cases x (rb_capacity r)).
    - left. split; [apply Z.mod_small; lia|done].
    - right. split; [apply mod_once; lia|done]. }
  destruct (Hm (rb_head r + Z.of_nat i)) as [[E ?]|[E ?]], (Hm (rb_head r + Z.of_nat j)) as [[E' ?]|[E' ?]]; lia.
Qed.

Lemma prefix_while_ext2 {A B} (f : A -> bool) (g : B -> bool) (l : list A) (k : list B) :
  Forall2 (fun a b => f a = g b) l k -> prefix_while f l = prefix_while g k.
Proof. induction 1 as [|a b l k Hab _ IH]; simpl; [done|]. rewrite Hab, IH. done. Qed.

Lemma prefix_while_app_all {A} (f : A -> bool) (l k : list A) :
  Forall (fun x => f x = true) l -> prefix_while f (l ++ k) = (length l + prefix_while f k)%nat.
Proof. induction 1 as [|x l Hx _ IH]; simpl; [done|]. by rewrite Hx, IH. Qed.

Lemma Forall2_impl_in {A B} (P Q : A -> B -> Prop) (l : list A) (k : list B) :
  Forall2 P l k -> (forall a b, a ∈ l -> P a b -> Q a b) -> Forall2 Q l k.
Proof.
  induction 1 as [|a b l k Hab _ IH]; intros HQ; constructor.
  - apply HQ; [constructor|done].
  - apply IH. intros x y Hx. apply HQ. by constructor.
Qed.

(** ** Invariant *)

Definition is_acked (g : gstate) (x : Z * Z) : bool := bool_decide (x.1 ∈ g_acked g).

(** The messages behind the longest acknowledged prefix. *)
Definition covered (g : gstate) : nat := prefix_while (is_acked g) (g_sent g).
Definition live (g : gstate) : list (Z * Z) := drop (covered g) (g_sent g).

Definition matches (g : gstate) (p : Z) (x : Z * Z) : Prop :=
  msg_record (g_src g) !! x.1 = Some p /\
  rec_acked (rec_at (tracker (g_src g)) p) = is_acked g x /\
  bm_data (rec_bookmark (rec_at (tracker (g_src g)) p)) = x.2 /\
  bm_save (rec_bookmark (rec_at (tracker (g_src g)) p)) = true.

Definition ring_of (g : gstate) : RingBuffer := ack_record_storage (tracker (g_src g)).

Record ginv (init : Z) (g : gstate) : Prop := {
  gi_ring : rb_wf (ring_of g);
  gi_capacity : rb_capacity (ring_of g) = init;
  gi_live : Forall2 (matches g) (rb_contents (ring_of g)) (live g);
  gi_free : forall p, p ∉ rb_contents (ring_of g) -> rec_acked (rec_at (tracker (g_src g)) p) = false;
  gi_pending : forall p, pending_ack_record (tracker (g_src g)) = Some p ->
    p = rb_slot_ptr (ring_of g) (rb_tail (ring_of g)) /\ rb_count (ring_of g) < rb_capacity (ring_of g);
  gi_sent : NoDup (g_sent g).*1;
  gi_acked : forall m, m ∈ g_acked g -> m ∈ (g_sent g).*1;
  gi_window : 0 <= window_size (src (g_src g)) /\ window_size (src (g_src g)) + lenZ (live g) <= init /\
    (AT_SUSPENDED ∉ g_types g -> window_size (src (g_src g)) + lenZ (live g) = init);
  gi_saved : AT_ABORTED ∉ g_types g -> last (saved (g_src g)) = snd <$> last (take (covered g) (g_sent g))
}.

Lemma live_lookup_sent (g : gstate) (i : nat) (x : Z * Z) : live g !! i = Some x ->
  g_sent g !! (covered g + i)%nat = Some x.
Proof. unfold live. by rewrite lookup_drop. Qed.

Lemma ring_count_live (init : Z) (g : gstate) : ginv init g -> rb_count (ring_of g) = lenZ (live g).
Proof.
  intros Hg. rewrite <- (rb_contents_length _ (gi_ring _ _ Hg)). unfold lenZ. f_equal.
  eapply Forall2_length, gi_live, Hg.
Qed.

(** A message sent and not acknowledged is in the ring. *)
Lemma unacked_live (g : gstate) (m : Z) : m ∈ (g_sent g).*1 -> m ∉ g_acked g ->
  exists i d, live g !! i = Some (m, d).
Proof.
  intros Hm Hna. apply list_elem_of_fmap in Hm as ([m' d] & -> & Hin). simpl in *.
  apply list_elem_of_lookup in Hin as [j Hj].
  destruct (decide (covered g <= j)%nat) as [Hle|Hlt].
  - exists (j - covered g)%nat, d. unfold live. rewrite lookup_drop.
    replace (covered g + (j - covered g))%nat with j by lia. done.
  - exfalso. pose proof (prefix_while_take (is_acked g) (g_sent g)) as Hall.
    rewrite Forall_lookup in Hall. specialize (Hall j (m', d)). rewrite lookup_take_lt in Hall by (unfold covered in *; lia).
    specialize (Hall Hj). unfold is_acked in Hall. apply bool_decide_eq_true in Hall. done.
Qed.

(** ** Reader events *)

Lemma start_ginv (init : Z) (threads : bool) (g : gstate) :
  0 < init -> init * SIZEOF_LATE_ACK_RECORD < 2 ^ 32 -> start_source init threads = Ret g -> ginv init g.
Proof.
  intros Hi Hb. unfold start_source, late_ack_tracker_new.
  destruct (ring_buffer_alloc_wf SIZEOF_LATE_ACK_RECORD init) as (r & -> & Hwf & Hc & Hcap);
    [done|unfold SIZEOF_LATE_ACK_RECORD in *; lia|done|]. simpl. intros [= <-].
  split; unfold ring_of, live; simpl; rewrite ?Hc; try done.
  - constructor.
  - split; [lia|]. split; [unfold lenZ; simpl; lia|unfold lenZ; simpl; lia].
Qed.

Lemma request_ginv (init : Z) (ns : bool) (g g' : gstate) : ginv init g ->
  run_sevent ns ERequest g = Ret g' -> ginv init g'.
Proof.
  intros Hg. unfold run_sevent, late_ack_tracker_request_bookmark.
  rewrite ring_buffer_tail_spec by apply Hg. simpl. intros [= <-]. destruct Hg. split; try done.
  simpl. intros p Hp. unfold ring_of; simpl. case_bool; [|done]. by injection Hp as <-.
Qed.

Lemma rec_at_insert_eq (t : LateAckTracker) (p : Z) (r : LateAckRecord) :
  rec_at (set_records t (<[p:=r]> (records t))) p = r.
Proof. unfold rec_at. simpl. by rewrite lookup_insert_eq. Qed.

Lemma rec_at_insert_ne (t : LateAckTracker) (p q : Z) (r : LateAckRecord) : p <> q ->
  rec_at (set_records t (<[p:=r]> (records t))) q = rec_at t q.
Proof. intros H. unfold rec_at. simpl. by rewrite lookup_insert_ne. Qed.

Lemma tail_not_in (g : gstate) (init p : Z) : ginv init g ->
  pending_ack_record (tracker (g_src g)) = Some p -> p ∉ rb_contents (ring_of g).
Proof.
  intros Hg Hp. destruct (gi_pending _ _ Hg p Hp) as [-> Hlt]. by apply rb_tail_fresh; [apply Hg|].
Qed.

Lemma fill_ginv (init : Z) (ns : bool) (g g' : gstate) (b : Bookmark) : ginv init g ->
  run_sevent ns (EFill b) g = Ret g' -> ginv init g'.
Proof.
  intros Hg. unfold run_sevent, fill_bookmark.
  destruct (pending_ack_record (tracker (g_src g))) as [p|] eqn:Hp; [|done]. simpl. intros [= <-].
  pose proof (tail_not_in g init p Hg Hp) as Hnin. destruct Hg as [R C L F P S A W V].
  set (t' := set_records (tracker (g_src g)) (<[p:=mkLateAckRecord (rec_acked (rec_at (tracker (g_src g)) p)) b]>
                                                (records (tracker (g_src g))))).
  assert (Hrec : forall q, q ∈ rb_contents (ring_of g) -> rec_at t' q = rec_at (tracker (g_src g)) q).
  { intros q Hq. apply rec_at_insert_ne. intros ->. done. }
  split; try done.
  - unfold ring_of; simpl. fold (ring_of g).
    eapply Forall2_impl_in; [exact L|]. intros q x Hq (M1 & M2 & M3 & M4).
    unfold matches, is_acked; simpl. fold t'. rewrite (Hrec q Hq). done.
  - simpl. intros q Hq. destruct (decide (q = p)) as [->|Hne].
    + fold t'. unfold t'. rewrite rec_at_insert_eq. simpl. by apply F.
    + fold t'. unfold t'. rewrite rec_at_insert_ne by done. by apply F.
Qed.

Lemma prefix_while_snoc_false {A} (f : A -> bool) (l : list A) (x : A) : f x = false ->
  prefix_while f (l ++ [x]) = prefix_while f l.
Proof. intros Hx. induction l as [|y l IH]; simpl; [by rewrite Hx|]. by rewrite IH. Qed.

Lemma live_mem (g : gstate) (x : Z * Z) : x ∈ live g -> x.1 ∈ (g_sent g).*1.
Proof.
  intros Hx. apply list_elem_of_fmap. exists x. split; [done|].
  apply list_elem_of_lookup in Hx as [i Hi]. apply live_lookup_sent in Hi. by eapply list_elem_of_lookup_2.
Qed.

Lemma Forall2_mem_r {A B} (P : A -> B -> Prop) (l : list A) (k : list B) :
  Forall2 P l k -> Forall2 (fun a b => b ∈ k /\ P a b) l k.
Proof.
  induction 1 as [|a b l k Hab _ IH]; constructor; [split; [constructor|done]|].
  eapply Forall2_impl; [exact IH|]. intros x y [Hy HP]. split; [by constructor|done].
Qed.

Lemma send_ginv (init : Z) (ns : bool) (g g' : gstate) (m : Z) : init < 2 ^ 31 -> ginv init g ->
  sevent_ok (ESend m) g = true -> run_sevent ns (ESend m) g = Ret g' -> ginv init g'.
Proof.
  intros Hinit Hg Hok. simpl in Hok. apply andb_true_iff in Hok as [[Hfree Hfresh]%andb_true_iff Hpend].
  apply bool_decide_eq_true in Hfresh.
  unfold run_sevent, late_ack_tracker_track_msg, pending_data.
  destruct (pending_ack_record (tracker (g_src g))) as [p|] eqn:Hp; [|done].
  pose proof (tail_not_in g init p Hg Hp) as Hnin. destruct (gi_pending _ _ Hg p Hp) as [Hptr Hlt].
  destruct (ring_buffer_push_spec (ring_of g) (gi_ring _ _ Hg) Hlt) as (r' & Hpush & Hwf' & Hc' & Hcap' & _).
  unfold ring_of in Hpush at 1. rewrite Hpush. cbn [obind]. rewrite <- Hptr, bool_decide_eq_true_2 by done.
  cbn [g_assert obind src add_pipe_refs window_size]. unfold log_source_queue_window.
  assert (Hw : window_size (src (g_src g)) > 0).
  { unfold log_source_free_to_send, log_source_is_window_full in Hfree.
    apply negb_true_iff, orb_false_iff in Hfree as [Hf _]. apply bool_decide_eq_false in Hf. lia. }
  cbn [window_size add_pipe_refs]. rewrite bool_decide_eq_true_2 by done. cbn [g_assert obind].
  intros [= <-]. destruct Hg as [R C L F P S A [W1 [W2 W3]] V].
  set (x := (m, bm_data (rec_bookmark (rec_at (tracker (g_src g)) p)))).
  assert (Hna : m ∉ g_acked g) by (intros Hin; by apply A in Hin).
  assert (Hcov : prefix_while (is_acked g) (g_sent g ++ [x]) = covered g).
  { apply prefix_while_snoc_false. unfold is_acked. by apply bool_decide_eq_false. }
  assert (Hle : (covered g <= length (g_sent g))%nat) by apply prefix_while_le.
  match goal with |- ginv _ ?h0 => set (h := h0) end.
  assert (Hcov' : covered h = covered g) by exact Hcov.
  assert (Hlive : live h = live g ++ [x]).
  { unfold live. rewrite Hcov'. simpl. by rewrite drop_app_le. }
  rewrite <- Hptr in Hc'.
  split; unfold ring_of in *; simpl.
  - exact Hwf'.
  - by rewrite Hcap'.
  - rewrite Hc', Hlive. apply Forall2_app.
    + eapply Forall2_impl; [apply Forall2_mem_r, L|]. intros q y [Hy (M1 & M2 & M3 & M4)].
      split; [|by split]. simpl. rewrite lookup_insert_ne; [done|]. intros ->. by apply live_mem in Hy.
    + constructor; [|constructor]. split; simpl; [by rewrite lookup_insert_eq|].
      split; [|done]. unfold is_acked; simpl. rewrite bool_decide_eq_false_2 by done. by apply F.
  - intros q Hq. apply F. intros Hin. apply Hq. rewrite Hc'. apply elem_of_app. by left.
  - done.
  - rewrite fmap_app. apply NoDup_app. split; [done|]. split; [|apply NoDup_singleton].
    simpl. intros y Hy ->%list_elem_of_singleton. done.
  - intros y Hy. rewrite fmap_app. apply elem_of_app. left. by apply A.
  - rewrite Hlive, lenZ_app. change (lenZ [x]) with 1. pose proof (lenZ_nonneg (live g)).
    assert (Hs : s32 (window_size (src (g_src g)) - 1) = window_size (src (g_src g)) - 1).
    { unfold s32, u32. rewrite Z.mod_small by lia. case_bool; lia. }
    rewrite Hs. split; [lia|]. split; [lia|]. intros Hno. specialize (W3 Hno). lia.
  - intros Hno. rewrite Hcov', take_app_le by done. by apply V.
Qed.

(** ** Acknowledgement *)

(** Resetting the first records of the ring. *)
Lemma drop_range_loop_spec (n : nat) (i : nat) (t : LateAckTracker) (gone : list Z) :
  rb_wf (ack_record_storage t) -> (i + n <= length (rb_contents (ack_record_storage t)))%nat ->
  exists t' gone', drop_range_loop n (Z.of_nat i) t gone = Ret (t', gone') /\
    ack_record_storage t' = ack_record_storage t /\ pending_ack_record t' = pending_ack_record t /\
    (forall p, p ∈ take n (drop i (rb_contents (ack_record_storage t))) -> rec_acked (rec_at t' p) = false) /\
    (forall p, p ∉ take n (drop i (rb_contents (ack_record_storage t))) -> rec_at t' p = rec_at t p).
Proof.
  revert i t gone; induction n as [|n IH]; intros i t gone Hwf Hlen; simpl.
  { exists t, gone. split_and!; try done. intros p Hp. by apply not_elem_of_nil in Hp. }
  pose proof (rb_contents_length _ Hwf) as HL. unfold lenZ in HL.
  pose proof (rbw_count _ Hwf). pose proof (rbw_cap _ Hwf).
  rewrite ring_buffer_element_at_spec, Nat2Z.id by (done || lia). cbn [obind].
  destruct (rb_contents (ack_record_storage t) !! i) as [p|] eqn:Ep; [|apply lookup_ge_None_1 in Ep; lia].
  rewrite (drop_S _ p i Ep). simpl. set (b := rec_bookmark (rec_at t p)).
  set (t1 := set_records t (<[p:=mkLateAckRecord false (mkBookmark (bm_data b) false false)]> (records t))).
  destruct (IH (S i) t1 (if bm_destroy b then gone ++ [bm_data b] else gone)) as (t' & gone' & E & E1 & E2 & E3 & E4);
    [done|simpl; lia|].
  replace (Z.of_nat i + 1) with (Z.of_nat (S i)) by lia. exists t', gone'. split; [exact E|].
  simpl in E1, E2. split_and!; [done|done|..].
  - intros q [->|Hq]%elem_of_cons.
    + destruct (decide (p ∈ take n (drop (S i) (rb_contents (ack_record_storage t))))) as [Hin|Hnin].
      * by apply E3.
      * rewrite E4 by done. unfold t1. by rewrite rec_at_insert_eq.
    + by apply E3.
  - intros q [Hne Hq]%not_elem_of_cons. rewrite E4 by done. unfold t1. by rewrite rec_at_insert_ne.
Qed.

Lemma drop_range_spec (t : LateAckTracker) (n : nat) : rb_wf (ack_record_storage t) ->
  (n <= length (rb_contents (ack_record_storage t)))%nat ->
  exists t' gone, _drop_range t (Z.of_nat n) = Ret (t', gone) /\ rb_wf (ack_record_storage t') /\
    rb_capacity (ack_record_storage t') = rb_capacity (ack_record_storage t) /\
    rb_count (ack_record_storage t') <= rb_count (ack_record_storage t) /\
    rb_slot_ptr (ack_record_storage t') (rb_tail (ack_record_storage t')) =
      rb_slot_ptr (ack_record_storage t) (rb_tail (ack_record_storage t)) /\
    rb_contents (ack_record_storage t') = drop n (rb_contents (ack_record_storage t)) /\
    pending_ack_record t' = pending_ack_record t /\
    (forall p, p ∈ take n (rb_contents (ack_record_storage t)) -> rec_acked (rec_at t' p) = false) /\
    (forall p, p ∉ take n (rb_contents (ack_record_storage t)) -> rec_at t' p = rec_at t p).
Proof.
  intros Hwf Hn. unfold _drop_range. rewrite Nat2Z.id.
  destruct (drop_range_loop_spec n 0 t [] Hwf Hn) as (t1 & gone & El & E1 & E2 & E3 & E4).
  change (Z.of_nat 0) with 0 in El. rewrite El. cbn [obind].
  rewrite drop_0 in E3, E4. rewrite E1. pose proof (rb_contents_length _ Hwf) as HL. unfold lenZ in HL.
  destruct (ring_buffer_drop_spec (ack_record_storage t) (Z.of_nat n) Hwf ltac:(lia)) as (r' & Hd & Hw & Hc & Hcap & Hcnt).
  assert (Htail : rb_tail r' = rb_tail (ack_record_storage t) /\ rb_element_size r' = rb_element_size (ack_record_storage t)).
  { unfold ring_buffer_drop in Hd. rewrite (rbw_alloc _ Hwf) in Hd. simpl in Hd. case_bool; [done|]. by injection Hd as <-. }
  rewrite Hd. cbn [obind]. rewrite Nat2Z.id in Hc. do 2 eexists. split; [done|]. simpl.
  split_and!; try done; [lia|]. unfold rb_slot_ptr. by destruct Htail as [-> ->].
Qed.

(** The state after the record of [m] is marked and before the ring is
    looked at. *)
Definition marked (g : gstate) (m p : Z) (ty : AckType) : gstate :=
  let t := tracker (g_src g) in
  mkGState (with_tracker (g_src g)
              (set_records t (<[p := mkLateAckRecord true (rec_bookmark (rec_at t p))]> (records t))))
    (g_sent g) (g_acked g ++ [m]) (g_types g ++ [ty]).

Lemma is_acked_mono (g : gstate) (m p : Z) (ty : AckType) (x : Z * Z) :
  is_acked g x = true -> is_acked (marked g m p ty) x = true.
Proof.
  unfold is_acked; simpl. rewrite !bool_decide_eq_true, elem_of_app. auto.
Qed.

Lemma marked_matches (init : Z) (g : gstate) (m p d : Z) (ty : AckType) (i : nat) : ginv init g ->
  live g !! i = Some (m, d) -> rb_contents (ring_of g) !! i = Some p ->
  Forall2 (matches (marked g m p ty)) (rb_contents (ring_of g)) (live g).
Proof.
  intros Hg Hm Hp. pose proof (gi_live _ _ Hg) as L. pose proof (rb_contents_NoDup _ (gi_ring _ _ Hg)) as ND.
  pose proof (Forall2_lookup_lr _ _ _ _ _ _ L Hp Hm) as (Mr & _ & Md & Ms).
  apply Forall2_same_length_lookup. split; [by eapply Forall2_length|]. intros j q x Hq Hx.
  pose proof (Forall2_lookup_lr _ _ _ _ _ _ L Hq Hx) as (Xr & Xa & Xd & Xs). simpl in *.
  destruct (decide (q = p)) as [->|Hne].
  - assert (j = i) as -> by (eapply NoDup_lookup; eauto). rewrite Hm in Hx. injection Hx as <-.
    split; [done|]. simpl. rewrite rec_at_insert_eq. split; [|done]. unfold is_acked; simpl. symmetry.
    apply bool_decide_eq_true, elem_of_app. right. by apply list_elem_of_singleton.
  - assert (x.1 <> m) by (intros E; rewrite E in Xr; congruence).
    split; [done|]. simpl. rewrite rec_at_insert_ne by done. split; [|done]. rewrite Xa. unfold is_acked; simpl.
    apply bool_decide_ext. rewrite elem_of_app, list_elem_of_singleton. tauto.
Qed.

Lemma marked_covered (init : Z) (g : gstate) (m p d : Z) (ty : AckType) (i : nat) : ginv init g ->
  live g !! i = Some (m, d) -> rb_contents (ring_of g) !! i = Some p ->
  let h := marked g m p ty in
  let r := prefix_while (fun q => rec_acked (rec_at (tracker (g_src h)) q)) (rb_contents (ring_of g)) in
  covered h = (covered g + r)%nat /\ live h = drop r (live g) /\ (r <= length (live g))%nat.
Proof.
  intros Hg Hm Hp h r. pose proof (marked_matches init g m p d ty i Hg Hm Hp) as L. fold h in L.
  assert (Hr : r = prefix_while (is_acked h) (live g)).
  { apply prefix_while_ext2. eapply Forall2_impl; [exact L|]. by intros q x (_ & E & _). }
  assert (Hc : covered h = (covered g + r)%nat).
  { unfold covered at 1. change (g_sent h) with (g_sent g). rewrite <- (take_drop (covered g) (g_sent g)) at 1.
    rewrite prefix_while_app_all.
    - rewrite length_take, Hr. unfold live. pose proof (prefix_while_le (is_acked g) (g_sent g)).
      unfold covered in *. lia.
    - eapply Forall_impl; [apply prefix_while_take|]. intros x. apply is_acked_mono. }
  split; [done|]. split.
  - unfold live. rewrite Hc. simpl. by rewrite drop_drop.
  - rewrite Hr. apply prefix_while_le.
Qed.

Lemma last_take_lookup {A} (n : nat) (l : list A) : (0 < n)%nat -> (n <= length l)%nat ->
  last (take n l) = l !! (n - 1)%nat.
Proof.
  intros Hn Hl. rewrite last_lookup, length_take_le by done. rewrite lookup_take_lt by lia.
  f_equal. lia.
Qed.

(** Everything an acknowledgement of [m] does: [r] records leave the ring. *)
Record acked_effect (g : gstate) (m : Z) (ty : AckType) (h : gstate) (i : nat) (p d : Z) (r : nat) : Prop := {
  ae_live : live g !! i = Some (m, d);
  ae_slot : rb_contents (ring_of g) !! i = Some p;
  ae_range : r = prefix_while (fun q => rec_acked (rec_at (tracker (g_src (marked g m p ty))) q))
                   (rb_contents (ring_of g));
  ae_sent : g_sent h = g_sent g;
  ae_acked : g_acked h = g_acked g ++ [m];
  ae_types : g_types h = g_types g ++ [ty];
  ae_record : msg_record (g_src h) = msg_record (g_src g);
  ae_ring : rb_wf (ring_of h);
  ae_capacity : rb_capacity (ring_of h) = rb_capacity (ring_of g);
  ae_contents : rb_contents (ring_of h) = drop r (rb_contents (ring_of g));
  ae_count : rb_count (ring_of h) <= rb_count (ring_of g);
  ae_tail : rb_slot_ptr (ring_of h) (rb_tail (ring_of h)) = rb_slot_ptr (ring_of g) (rb_tail (ring_of g));
  ae_pending : pending_ack_record (tracker (g_src h)) = pending_ack_record (tracker (g_src g));
  ae_reset : forall q, q ∈ take r (rb_contents (ring_of g)) -> rec_acked (rec_at (tracker (g_src h)) q) = false;
  ae_keep : forall q, q ∉ take r (rb_contents (ring_of g)) ->
    rec_at (tracker (g_src h)) q = rec_at (tracker (g_src (marked g m p ty))) q;
  ae_window : window_size (src (g_src h)) = window_size (src (g_src g)) +
    (if bool_decide (r = 0%nat) then 0 else if bool_decide (ty = AT_SUSPENDED) then 1 else Z.of_nat r);
  ae_saved : saved (g_src h) = saved (g_src g) ++
    (if bool_decide (r = 0%nat) then [] else if bool_decide (ty <> AT_ABORTED)
     then option_list (snd <$> g_sent g !! (covered g + (r - 1))%nat) else [])
}.

Lemma acked_effect_covered (init : Z) (g h : gstate) (m p d : Z) (ty : AckType) (i r : nat) : ginv init g ->
  acked_effect g m ty h i p d r ->
  is_acked h = is_acked (marked g m p ty) /\ covered h = (covered g + r)%nat /\ live h = drop r (live g) /\
  (r <= length (live g))%nat.
Proof.
  intros Hg He. destruct He as [Hm Hp Hr Hsent Hack _ _ _ _ _ _ _ _ _ _ _ _].
  destruct (marked_covered init g m p d ty i Hg Hm Hp) as (Hc & Hl & Hle). rewrite <- Hr in Hc, Hl, Hle.
  assert (Ha : is_acked h = is_acked (marked g m p ty)) by (unfold is_acked; by rewrite Hack).
  assert (Hch : covered h = (covered g + r)%nat) by (unfold covered at 1; by rewrite Hsent, Ha, <- Hc).
  split; [done|]. split; [done|]. split; [|done]. rewrite <- Hl. unfold live. by rewrite Hch, Hc, Hsent.
Qed.

Lemma acked_effect_saved (init : Z) (g h : gstate) (m p d : Z) (ty : AckType) (i r : nat) : ginv init g ->
  acked_effect g m ty h i p d r -> (0 < r)%nat -> ty <> AT_ABORTED ->
  last (saved (g_src h)) = snd <$> last (take (covered h) (g_sent h)).
Proof.
  intros Hg He Hr Hty. destruct (acked_effect_covered init g h m p d ty i r Hg He) as (_ & Hc & _ & Hle).
  rewrite (ae_saved _ _ _ _ _ _ _ _ He), (ae_sent _ _ _ _ _ _ _ _ He), Hc.
  rewrite bool_decide_eq_false_2, bool_decide_eq_true_2 by (done || lia).
  unfold live in Hle. rewrite length_drop in Hle. rewrite last_take_lookup by lia.
  replace (covered g + r - 1)%nat with (covered g + (r - 1))%nat by lia.
  destruct (lookup_lt_is_Some_2 (g_sent g) (covered g + (r - 1))) as [x Hx]; [lia|]. rewrite Hx. simpl.
  by rewrite last_snoc.
Qed.

Lemma acked_effect_ginv (init : Z) (g h : gstate) (m p d : Z) (ty : AckType) (i r : nat) : ginv init g ->
  acked_effect g m ty h i p d r -> ginv init h.
Proof.
  intros Hg He. destruct (acked_effect_covered init g h m p d ty i r Hg He) as (Ha & Hch & Hlh & Hle).
  pose proof (acked_effect_saved init g h m p d ty i r Hg He) as Hsv.
  destruct He as [Hm Hp Hr Hsent Hack Htys Hmr Hwf Hcap Hcont Hcnt Htail Hpend Hdrop Hkeep Hwin Hsav].
  pose proof (marked_matches init g m p d ty i Hg Hm Hp) as L. pose proof (rb_contents_NoDup _ (gi_ring _ _ Hg)) as ND.
  split; try done.
  - rewrite Hcap. apply Hg.
  - rewrite Hcont, Hlh. eapply Forall2_impl_in; [by apply Forall2_drop, L|].
    intros q x Hq (M1 & M2 & M3). assert (Hnin : q ∉ take r (rb_contents (ring_of g))).
    { intros Hin. rewrite <- (take_drop r (rb_contents (ring_of g))) in ND. apply NoDup_app in ND as (_ & ND & _).
      by apply (ND q). }
    split; [by rewrite Hmr|]. rewrite Ha, (Hkeep q Hnin). done.
  - intros q Hq. rewrite Hcont in Hq. destruct (decide (q ∈ take r (rb_contents (ring_of g)))) as [Hin|Hnin].
    + by apply Hdrop.
    + rewrite Hkeep by done. simpl. assert (Hq' : q ∉ rb_contents (ring_of g)).
      { rewrite <- (take_drop r (rb_contents (ring_of g))). rewrite elem_of_app. tauto. }
      rewrite rec_at_insert_ne by (intros ->; apply Hq'; by eapply list_elem_of_lookup_2). by apply Hg.
  - intros q Hq. rewrite Hpend in Hq. destruct (gi_pending _ _ Hg q Hq) as [-> Hlt]. rewrite Htail.
    split; [done|]. lia.
  - rewrite Hsent. apply Hg.
  - intros y. rewrite Hack, Hsent, elem_of_app, list_elem_of_singleton. intros [Hy| ->]; [by apply Hg|].
    apply (live_mem g (m, d)). by eapply list_elem_of_lookup_2.
  - pose proof (gi_window _ _ Hg) as (W1 & W2 & W3). rewrite Hlh, lenZ_drop, Hwin, Htys. pose proof (lenZ_nonneg (live g)).
    assert (Z.max 0 (lenZ (live g) - Z.of_nat r) = lenZ (live g) - Z.of_nat r) as -> by (unfold lenZ; lia).
    split; [repeat case_bool; lia|]. split; [repeat case_bool; lia|].
    intros [Hno Hty]%not_elem_of_app. specialize (W3 Hno).
    rewrite (bool_decide_eq_false_2 (ty = AT_SUSPENDED)); [case_bool; lia|].
    intros ->. apply Hty. by apply list_elem_of_singleton.
  - intros Hno. rewrite Htys in Hno. apply not_elem_of_app in Hno as [Hno Hty].
    assert (ty <> AT_ABORTED) by (intros ->; apply Hty; by apply list_elem_of_singleton).
    destruct (decide (r = 0%nat)) as [->|Hr0]; [|apply Hsv; [lia|done]].
    rewrite Hsav, bool_decide_eq_true_2, app_nil_r, Hch, Nat.add_0_r, Hsent by done. by apply Hg.
Qed.

Lemma adjust_window (ns : bool) (s s' : LogSource) (n : Z) (now : timespec) :
  - 2 ^ 31 <= window_size s + n < 2 ^ 31 ->
  log_source_flow_control_adjust ns s n now = Ret s' -> window_size s' = window_size s + n.
Proof.
  intros Hn. unfold log_source_flow_control_adjust. pose proof (window_adjust_spec s n Hn) as Hw.
  destruct (_flow_control_rate_adjust ns _ now) as [s1|] eqn:E; [|done]. cbn [obind].
  apply rate_adjust_window in E as (E1 & _ & _). intros [= <-].
  rewrite <- Hw, <- E1. by destruct (is_external_ack_required s1).
Qed.

Lemma suspend_window (ns : bool) (s s' : LogSource) (now : timespec) :
  - 2 ^ 31 <= window_size s + 1 < 2 ^ 31 ->
  log_source_flow_control_suspend ns s now = Ret s' -> window_size s' = window_size s + 1.
Proof.
  intros Hn. unfold log_source_flow_control_suspend. pose proof (window_adjust_spec s 1 Hn) as Hw.
  intros E. apply rate_adjust_window in E as (E1 & _ & _). rewrite E1. exact Hw.
Qed.

Lemma acked_run (init : Z) (ns : bool) (g g' : gstate) (m : Z) (ty : AckType) (now : timespec) : init < 2 ^ 31 ->
  ginv init g -> sevent_ok (EAcked m ty now) g = true -> run_sevent ns (EAcked m ty now) g = Ret g' ->
  exists i p d r, acked_effect g m ty g' i p d r.
Proof.
  intros Hinit Hg [Hs Hna]%andb_true_iff Hrun. apply bool_decide_eq_true in Hs, Hna.
  destruct (unacked_live g m Hs Hna) as (i & d & Hm). pose proof (gi_live _ _ Hg) as L.
  destruct (Forall2_lookup_r _ _ _ _ _ L Hm) as (p & Hp & Mr & _). simpl in Mr.
  destruct (marked_covered init g m p d ty i Hg Hm Hp) as (Hc & Hl & Hle).
  pose proof (marked_matches init g m p d ty i Hg Hm Hp) as L'.
  unfold run_sevent, late_ack_tracker_manage_msg_ack in Hrun. rewrite Mr in Hrun.
  change (set_records (tracker (g_src g)) _) with (tracker (g_src (marked g m p ty))) in Hrun.
  unfold _get_continuous_range_length in Hrun.
  rewrite ring_buffer_get_continual_range_length_spec in Hrun by apply Hg. cbn [obind] in Hrun.
  change (ack_record_storage (tracker (g_src (marked g m p ty)))) with (ring_of g) in *.
  set (r := prefix_while _ (rb_contents (ring_of g))) in *. exists i, p, d, r.
  pose proof (gi_window _ _ Hg) as (W1 & W2 & W3). pose proof (ring_count_live init g Hg) as Hcl.
  pose proof (rbw_count _ (gi_ring _ _ Hg)) as Hcb. pose proof (rbw_cap _ (gi_ring _ _ Hg)) as Hcap.
  pose proof (Forall2_length _ _ _ L) as Hlen.
  destruct (bool_decide_reflect (Z.of_nat r > 0)) as [Hpos|Hzero].
  2: { assert (r = 0%nat) as Hr0 by lia. cbn [obind] in Hrun. injection Hrun as <-.
       split; unfold ring_of; simpl; try done; try apply Hg; rewrite ?Hr0; simpl; try done.
       - intros q Hq. by apply not_elem_of_nil in Hq.
       - lia. }
  rewrite ring_buffer_element_at_spec in Hrun; [|apply Hg|unfold lenZ in *; lia]. cbn [obind] in Hrun.
  replace (Z.to_nat (Z.of_nat r - 1)) with (r - 1)%nat in Hrun by lia.
  destruct (lookup_lt_is_Some_2 (live g) (r - 1)) as [[m1 d1] Hm1]; [lia|].
  destruct (Forall2_lookup_r _ _ _ _ _ L' Hm1) as (p1 & Hp1 & _ & _ & Hd1 & Hs1). simpl in Hd1, Hs1.
  rewrite Hp1 in Hrun. simpl in Hrun. rewrite Hd1, Hs1 in Hrun.
  destruct (drop_range_spec (tracker (g_src (marked g m p ty))) r) as
    (t' & gone & Hdr & D1 & D2 & D3 & D4 & D5 & D6 & D7 & D8);
    [apply Hg|change (ack_record_storage _) with (ring_of g); lia|].
  change (ack_record_storage (tracker (g_src (marked g m p ty)))) with (ring_of g) in *.
  simpl in Hdr. rewrite Hdr in Hrun.
  replace (if bool_decide (ty <> AT_ABORTED) then let! _ := g_assert true in Ret [d1] else Ret [])
    with (Ret (if bool_decide (ty <> AT_ABORTED) then [d1] else [])) in Hrun by (by case_bool).
  cbn [obind] in Hrun.
  destruct (if bool_decide (ty = AT_SUSPENDED) then _ else _) as [source|] eqn:Hflow in Hrun; [|done].
  cbn [obind] in Hrun. injection Hrun as <-.
  split; unfold ring_of; simpl; try done.
  - rewrite bool_decide_eq_false_2 by lia.
    case_bool; [eapply suspend_window; [|exact Hflow]|eapply adjust_window; [|exact Hflow]]; unfold lenZ in *; lia.
  - rewrite (bool_decide_eq_false_2 (r = 0%nat)) by lia. apply live_lookup_sent in Hm1. rewrite Hm1. done.
Qed.

Lemma source_reach_ginv (ns : bool) (init : Z) (g : gstate) :
  0 < init -> init * SIZEOF_LATE_ACK_RECORD < 2 ^ 32 -> source_reach ns init g -> ginv init g.
Proof.
  intros Hi Hb. unfold SIZEOF_LATE_ACK_RECORD in Hb.
  induction 1 as [threads g Hs|e g g' _ IH Hok Hrun]; [by eapply start_ginv|].
  destruct e as [|b|m|m ty now]; [by eapply request_ginv|by eapply fill_ginv|eapply send_ginv; try done; lia|].
  destruct (acked_run init ns g g' m ty now) as (i & p & d & r & He); [lia|done..|].
  by eapply acked_effect_ginv.
Qed.
