(* ===== verification/AckTrackerClaims.v ===== *)
(** * Position tracking and flow control of a source

    What the late tracker guarantees to a source in any order of
    acknowledgements, and where the type of the last acknowledgement decides
    for messages it is not about. *)
From S2P Require Import Prelude RingBuffer LogMsgRef AckTracker AckTrackerSpec.

(** ** Progress *)

Lemma adjust_total (s : LogSource) (n : Z) (now : timespec) :
  exists s', log_source_flow_control_adjust false s n now = Ret s'.
Proof. unfold log_source_flow_control_adjust, _flow_control_rate_adjust. simpl. eauto. Qed.

Lemma suspend_total (s : LogSource) (now : timespec) :
  exists s', log_source_flow_control_suspend false s now = Ret s'.
Proof. unfold log_source_flow_control_suspend, _flow_control_rate_adjust. simpl. eauto. Qed.

Lemma send_total (init : Z) (g : gstate) (m : Z) : ginv init g -> sevent_ok (ESend m) g = true ->
  exists g', run_sevent false (ESend m) g = Ret g'.
Proof.
  intros Hg Hok. simpl in Hok. apply andb_true_iff in Hok as [[Hfree _]%andb_true_iff Hpend].
  unfold run_sevent, late_ack_tracker_track_msg.
  destruct (pending_ack_record (tracker (g_src g))) as [p|] eqn:Hp; [|done].
  destruct (gi_pending _ _ Hg p Hp) as [Hptr Hlt].
  destruct (ring_buffer_push_spec (ring_of g) (gi_ring _ _ Hg) Hlt) as (r' & Hpush & _).
  unfold ring_of in Hpush at 1. rewrite Hpush. cbn [obind]. rewrite <- Hptr, bool_decide_eq_true_2 by done.
  cbn [g_assert obind src add_pipe_refs window_size]. unfold log_source_queue_window.
  cbn [window_size add_pipe_refs].
  rewrite bool_decide_eq_true_2; [simpl; eauto|].
  unfold log_source_free_to_send, log_source_is_window_full in Hfree.
  apply negb_true_iff, orb_false_iff in Hfree as [Hf _]. apply bool_decide_eq_false in Hf. lia.
Qed.

Lemma acked_total (init : Z) (g : gstate) (m : Z) (ty : AckType) (now : timespec) : ginv init g ->
  sevent_ok (EAcked m ty now) g = true -> exists g', run_sevent false (EAcked m ty now) g = Ret g'.
Proof.
  intros Hg [Hs Hna]%andb_true_iff. apply bool_decide_eq_true in Hs, Hna.
  destruct (unacked_live g m Hs Hna) as (i & d & Hm). pose proof (gi_live _ _ Hg) as L.
  destruct (Forall2_lookup_r _ _ _ _ _ L Hm) as (p & Hp & Mr & _). simpl in Mr.
  destruct (marked_covered init g m p d ty i Hg Hm Hp) as (_ & _ & Hle).
  pose proof (marked_matches init g m p d ty i Hg Hm Hp) as L'. pose proof (Forall2_length _ _ _ L) as Hlen.
  unfold run_sevent, late_ack_tracker_manage_msg_ack. rewrite Mr.
  change (set_records (tracker (g_src g)) _) with (tracker (g_src (marked g m p ty))).
  unfold _get_continuous_range_length.
  rewrite ring_buffer_get_continual_range_length_spec by apply Hg. cbn [obind].
  change (ack_record_storage (tracker (g_src (marked g m p ty)))) with (ring_of g) in *.
  set (r := prefix_while _ (rb_contents (ring_of g))) in *.
  pose proof (rb_contents_length _ (gi_ring _ _ Hg)) as Hcl. unfold lenZ in Hcl.
  pose proof (rbw_count _ (gi_ring _ _ Hg)). pose proof (rbw_cap _ (gi_ring _ _ Hg)).
  destruct (bool_decide_reflect (Z.of_nat r > 0)) as [Hpos|Hzero]; [|simpl; eauto].
  rewrite ring_buffer_element_at_spec; [|apply Hg|lia]. cbn [obind].
  replace (Z.to_nat (Z.of_nat r - 1)) with (r - 1)%nat by lia.
  destruct (lookup_lt_is_Some_2 (live g) (r - 1)) as [[m1 d1] Hm1]; [lia|].
  destruct (Forall2_lookup_r _ _ _ _ _ L' Hm1) as (p1 & -> & _ & _ & _ & ->).
  destruct (drop_range_spec (tracker (g_src (marked g m p ty))) r) as (t' & gone & -> & _);
    [apply Hg|change (ack_record_storage _) with (ring_of g); lia|].
  destruct (suspend_total (src (g_src g)) now) as [s1 ->]. destruct (adjust_total (src (g_src g)) (Z.of_nat r) now) as [s2 ->].
  repeat case_bool; simpl; eauto.
Qed.

(** ** A source at work, run by the examples *)

Fixpoint run_sevents (l : list sevent) (g : gstate) : option gstate :=
  match l with
  | [] => Some g
  | e :: l =>
      if sevent_ok e g then
        match run_sevent false e g with Ret g' => run_sevents l g' | Abort => None end
      else None
  end.

Lemma run_sevents_reach (init : Z) (l : list sevent) (g g' : gstate) : source_reach false init g ->
  run_sevents l g = Some g' -> source_reach false init g'.
Proof.
  revert g; induction l as [|e l IH]; intros g Hg H; simplify_eq/=; [done|].
  destruct (sevent_ok e g) eqn:Hok; [|done]. destruct (run_sevent false e g) as [g1|] eqn:E; [|done].
  eapply IH; [|exact H]. by econstructor.
Qed.

Definition send (m pos : Z) : list sevent := [ERequest; EFill (mkBookmark pos true false); ESend m].

Definition demo_base : gstate :=
  match start_source 3 false with
  | Ret g => g
  | Abort => mkGState (mkTrackedSource log_source_init_instance (mkLateAckTracker None ring_buffer_init ∅) ∅ [] [] []) [] [] []
  end.

(** Three messages, the second and third acknowledged first. *)
Definition demo_events (ty2 ty3 ty1 : AckType) : list sevent :=
  send 1 100 ++ send 2 200 ++ send 3 300 ++
  [EAcked 3 ty3 (mkTimespec 0 0); EAcked 2 ty2 (mkTimespec 0 0); EAcked 1 ty1 (mkTimespec 0 0)].

Definition demo_source (k : nat) (ty2 ty3 ty1 : AckType) : gstate :=
  default demo_base (run_sevents (take k (demo_events ty2 ty3 ty1)) demo_base).

Lemma demo_source_reach (k : nat) (ty2 ty3 ty1 : AckType) : source_reach false 3 (demo_source k ty2 ty3 ty1).
Proof.
  unfold demo_source. assert (source_reach false 3 demo_base) by (by eapply (source_start _ _ false)).
  destruct (run_sevents _ _) as [g|] eqn:E; [|done]. simpl. by eapply run_sevents_reach.
Qed.

Lemma not_in_types (ty : AckType) (l : list AckType) : existsb (fun x => bool_decide (x = ty)) l = false -> ty ∉ l.
Proof.
  induction l as [|x l IH]; simpl; [intros _; apply not_elem_of_nil|].
  intros [H1 H2]%orb_false_iff. apply bool_decide_eq_false in H1. apply not_elem_of_cons. auto.
Qed.

(** ** Claims *)

(** C8: in whatever order messages are acknowledged, the ring holds exactly
    the messages after the longest acknowledged prefix of what was sent, and,
    as long as no acknowledgement was an abort, the saved position is the one
    of the last message of that prefix: no unacknowledged message is ever
    passed, and no acknowledged prefix is forgotten. *)
Theorem late_ack_tracker_saves_prefix (ns : bool) (init : Z) (g : gstate)
  (Hi : 0 < init) (Hb : init * SIZEOF_LATE_ACK_RECORD < 2 ^ 32) (Hr : source_reach ns init g) :
  let k := prefix_while (fun x => bool_decide (x.1 ∈ g_acked g)) (g_sent g) in
  Forall (fun x => x.1 ∈ g_acked g) (take k (g_sent g)) /\
  (forall x, g_sent g !! k = Some x -> x.1 ∉ g_acked g) /\
  rb_count (ack_record_storage (tracker (g_src g))) = lenZ (g_sent g) - Z.of_nat k /\
  (AT_ABORTED ∉ g_types g -> last (saved (g_src g)) = snd <$> last (take k (g_sent g))).
Proof.
  apply source_reach_ginv in Hr; [|done..]. intros k.
  split; [|split; [|split]].
  - eapply Forall_impl; [apply prefix_while_take|]. intros x Hx. by apply bool_decide_eq_true in Hx.
  - intros x Hx. apply prefix_while_stop in Hx. by apply bool_decide_eq_false in Hx.
  - rewrite (ring_count_live init g Hr : rb_count (ack_record_storage _) = _). unfold live. rewrite lenZ_drop.
    change (covered g) with k. pose proof (prefix_while_le (is_acked g) (g_sent g)) as Hle.
    fold (covered g) in Hle. change (covered g) with k in Hle. unfold lenZ. lia.
  - apply Hr.
Qed.

Lemma late_ack_tracker_saves_prefix_witness :
  let g2 := demo_source 11 AT_PROCESSED AT_PROCESSED AT_PROCESSED in
  let g3 := demo_source 12 AT_PROCESSED AT_PROCESSED AT_PROCESSED in
  saved (g_src g2) = [] /\ g_acked g2 = [3; 2] /\ last (saved (g_src g3)) = Some 300.
Proof.
  intros g2 g3. split; [by vm_compute|]. split; [by vm_compute|].
  pose proof (late_ack_tracker_saves_prefix false 3 g3 ltac:(lia) ltac:(unfold SIZEOF_LATE_ACK_RECORD; lia)
                (demo_source_reach 12 _ _ _)) as (_ & _ & _ & H).
  rewrite H by (apply not_in_types; by vm_compute). by vm_compute.
Defined.

(** no operation of a source that sends inside its window fails: the ring
    always has the record the pending bookmark points to, every message being
    acknowledged has its record, and the window never goes below zero. *)
Theorem late_ack_tracker_no_assert (init : Z) (g : gstate) (e : sevent)
  (Hi : 0 < init) (Hb : init * SIZEOF_LATE_ACK_RECORD < 2 ^ 32) (Hr : source_reach false init g)
  (Hok : sevent_ok e g = true) :
  (exists g', run_sevent false e g = Ret g') /\ 0 <= window_size (src (g_src g)).
Proof.
  apply source_reach_ginv in Hr; [|done..]. split; [|apply Hr].
  destruct e as [|b|m|m ty now].
  - unfold run_sevent, late_ack_tracker_request_bookmark. rewrite ring_buffer_tail_spec by apply Hr. simpl. eauto.
  - apply andb_true_iff in Hok as [Hp _]. apply bool_decide_eq_true in Hp. unfold run_sevent, fill_bookmark.
    destruct (pending_ack_record (tracker (g_src g))); [simpl; eauto|done].
  - by eapply send_total.
  - by eapply acked_total.
Qed.

Lemma late_ack_tracker_no_assert_witness :
  exists g', run_sevent false (EAcked 2 AT_PROCESSED (mkTimespec 5 0))
    (demo_source 9 AT_PROCESSED AT_PROCESSED AT_PROCESSED) = Ret g'.
Proof.
  exact (proj1 (late_ack_tracker_no_assert 3 (demo_source 9 AT_PROCESSED AT_PROCESSED AT_PROCESSED)
    (EAcked 2 AT_PROCESSED (mkTimespec 5 0)) ltac:(lia)
    ltac:(unfold SIZEOF_LATE_ACK_RECORD; lia) (demo_source_reach 9 _ _ _) ltac:(by vm_compute))).
Defined.

(** as long as no acknowledgement was a suspension, the free window and
    the messages in flight always add up to the initial window. *)
Theorem source_window_accounts (ns : bool) (init : Z) (g : gstate)
  (Hi : 0 < init) (Hb : init * SIZEOF_LATE_ACK_RECORD < 2 ^ 32) (Hr : source_reach ns init g)
  (Hs : AT_SUSPENDED ∉ g_types g) :
  window_size (src (g_src g)) + rb_count (ack_record_storage (tracker (g_src g))) = init.
Proof.
  apply source_reach_ginv in Hr; [|done..].
  rewrite (ring_count_live init g Hr : rb_count (ack_record_storage _) = _). by apply (gi_window init g Hr).
Qed.

Lemma source_window_accounts_witness :
  let g := demo_source 9 AT_PROCESSED AT_PROCESSED AT_PROCESSED in
  window_size (src (g_src g)) = 0 /\
  window_size (src (g_src g)) + rb_count (ack_record_storage (tracker (g_src g))) = 3.
Proof.
  intros g. split; [by vm_compute|].
  apply (source_window_accounts false 3 g); [lia|unfold SIZEOF_LATE_ACK_RECORD; lia|apply demo_source_reach|].
  apply not_in_types. by vm_compute.
Defined.

(** a suspended acknowledgement that completes a range of [r] messages
    gives one slot back for all of them: the other [r - 1] are lost, and a
    window that was complete no longer is. *)
Theorem suspended_ack_shrinks_window (ns : bool) (init : Z) (g g' : gstate) (m : Z) (now : timespec)
  (Hi : 0 < init) (Hb : init * SIZEOF_LATE_ACK_RECORD < 2 ^ 32) (Hr : source_reach ns init g)
  (Hs : AT_SUSPENDED ∉ g_types g) (Hok : sevent_ok (EAcked m AT_SUSPENDED now) g = true)
  (Hrun : run_sevent ns (EAcked m AT_SUSPENDED now) g = Ret g') :
  let r := rb_count (ack_record_storage (tracker (g_src g))) - rb_count (ack_record_storage (tracker (g_src g'))) in
  0 < r ->
  window_size (src (g_src g')) + rb_count (ack_record_storage (tracker (g_src g'))) = init - (r - 1).
Proof.
  unfold SIZEOF_LATE_ACK_RECORD in Hb. apply source_reach_ginv in Hr; [|done..].
  destruct (acked_run init ns g g' m AT_SUSPENDED now) as (i & p & d & r & He); [lia|done..|].
  destruct (acked_effect_covered _ _ _ _ _ _ _ _ _ Hr He) as (_ & _ & Hl & Hle).
  pose proof (acked_effect_ginv _ _ _ _ _ _ _ _ _ Hr He) as Hg'. pose proof (gi_window _ _ Hr) as (_ & _ & W).
  specialize (W Hs). rewrite (ring_count_live init g Hr : rb_count (ack_record_storage _) = _).
  rewrite (ring_count_live init g' Hg' : rb_count (ack_record_storage _) = _), Hl, lenZ_drop.
  intros r0 Hr0. rewrite (ae_window _ _ _ _ _ _ _ _ He). unfold r0, lenZ in *.
  rewrite (bool_decide_eq_false_2 (r = 0%nat)) by lia. simpl. lia.
Qed.

Lemma suspended_ack_shrinks_window_witness :
  let g := demo_source 11 AT_PROCESSED AT_PROCESSED AT_SUSPENDED in
  let g' := demo_source 12 AT_PROCESSED AT_PROCESSED AT_SUSPENDED in
  rb_count (ack_record_storage (tracker (g_src g'))) = 0 /\
  window_size (src (g_src g')) + rb_count (ack_record_storage (tracker (g_src g'))) = 3 - (3 - 1).
Proof.
  intros g g'. split; [by vm_compute|].
  assert (Hno : AT_SUSPENDED ∉ g_types g) by (apply not_in_types; by vm_compute).
  pose proof (suspended_ack_shrinks_window false 3 g g' 1 (mkTimespec 0 0) ltac:(lia)
    ltac:(unfold SIZEOF_LATE_ACK_RECORD; lia) (demo_source_reach 11 _ _ _) Hno ltac:(by vm_compute)
    ltac:(by vm_compute)) as H.
  change (rb_count (ack_record_storage (tracker (g_src g)))) with 3 in H.
  change (rb_count (ack_record_storage (tracker (g_src g')))) with 0 in *. by apply H.
Defined.

(** the type of the last acknowledgement decides for the whole range: when
    the oldest message in flight is acknowledged normally and all others were
    acknowledged before, the position of the newest one is saved even if it
    was aborted, so its position counts as processed. *)
Theorem aborted_position_is_saved (ns : bool) (init : Z) (g g' : gstate) (m d : Z) (now : timespec)
  (Hi : 0 < init) (Hb : init * SIZEOF_LATE_ACK_RECORD < 2 ^ 32) (Hr : source_reach ns init g)
  (Hhead : live g !! 0%nat = Some (m, d)) (Hrest : Forall (fun x => x.1 ∈ g_acked g) (drop 1 (live g)))
  (Hok : sevent_ok (EAcked m AT_PROCESSED now) g = true)
  (Hrun : run_sevent ns (EAcked m AT_PROCESSED now) g = Ret g') :
  last (saved (g_src g')) = snd <$> last (g_sent g).
Proof.
  unfold SIZEOF_LATE_ACK_RECORD in Hb. apply source_reach_ginv in Hr; [|done..].
  destruct (acked_run init ns g g' m AT_PROCESSED now) as (i & p & d' & r & He); [lia|done..|].
  destruct (acked_effect_covered _ _ _ _ _ _ _ _ _ Hr He) as (_ & Hc & Hl & Hle).
  assert (Hall : live g' = []).
  { destruct (live g' !! 0%nat) as [x|] eqn:Ex; [|by apply head_None; rewrite head_lookup].
    exfalso. pose proof (live_lookup_sent _ _ _ Ex) as Hx. rewrite Nat.add_0_r in Hx.
    apply prefix_while_stop in Hx. unfold is_acked in Hx. apply bool_decide_eq_false in Hx. apply Hx.
    rewrite (ae_acked _ _ _ _ _ _ _ _ He), elem_of_app, list_elem_of_singleton.
    rewrite Hl, lookup_drop, Nat.add_0_r in Ex. destruct r as [|r].
    - right. rewrite Hhead in Ex. by injection Ex as <-.
    - left. rewrite Forall_lookup in Hrest. apply (Hrest r). by rewrite lookup_drop. }
  rewrite (acked_effect_saved init g g' m p d' AT_PROCESSED i r); try done.
  - rewrite (ae_sent _ _ _ _ _ _ _ _ He), Hc, take_ge; [done|]. rewrite Hl in Hall.
    apply (f_equal length) in Hall. unfold live in Hall. rewrite !length_drop in Hall. simpl in Hall. lia.
  - rewrite Hl in Hall. apply (f_equal length) in Hall. rewrite length_drop in Hall. simpl in Hall.
    apply lookup_lt_Some in Hhead. lia.
Qed.

Lemma aborted_position_is_saved_witness :
  last (saved (g_src (demo_source 12 AT_PROCESSED AT_ABORTED AT_PROCESSED))) = Some 300 /\
  g_types (demo_source 11 AT_PROCESSED AT_ABORTED AT_PROCESSED) = [AT_ABORTED; AT_PROCESSED].
Proof.
  split; [|by vm_compute].
  rewrite (aborted_position_is_saved false 3 (demo_source 11 AT_PROCESSED AT_ABORTED AT_PROCESSED)
    (demo_source 12 AT_PROCESSED AT_ABORTED AT_PROCESSED) 1 100 (mkTimespec 0 0)).
  - by vm_compute.
  - lia.
  - unfold SIZEOF_LATE_ACK_RECORD. lia.
  - apply demo_source_reach.
  - by vm_compute.
  - change (drop 1 (live (demo_source 11 AT_PROCESSED AT_ABORTED AT_PROCESSED))) with [(2, 200); (3, 300)].
    change (g_acked (demo_source 11 AT_PROCESSED AT_ABORTED AT_PROCESSED)) with [3; 2].
    repeat constructor.
  - by vm_compute.
  - by vm_compute.
Defined.

(** ** Rate measurement *)

Lemma sleep_of_bounds (diff acks : Z) : 0 <= diff -> 0 < acks -> 0 <= sleep_of diff acks <= 100000.
Proof.
  intros Hd Ha. unfold sleep_of. assert (0 <= Z.quot diff acks) by (apply Z.quot_pos; lia).
  repeat case_bool; try lia. rewrite Z.shiftl_mul_pow2 in * by lia. lia.
Qed.

(** measuring the acknowledgement rate keeps the sleep between 0 and 0.1
    ms on a forward-moving clock, and it divides by zero in exactly one
    state: the 2^32-th acknowledgement, at most six seconds after the last
    measurement, with no earlier measurement having stored its count. *)
Theorem flow_control_rate_adjust_bounds (ns : bool) (s : LogSource) (now : timespec)
  (Ha : 0 <= ack_count s < 2 ^ 32) (Hl : 0 <= last_ack_count s < 2 ^ 32)
  (Hsleep : 0 <= window_full_sleep_nsec s <= 100000)
  (Hclock : 0 <= timespec_diff_nsec now (last_ack_rate_time s)) :
  match _flow_control_rate_adjust ns s now with
  | Ret s' => 0 <= window_full_sleep_nsec s' <= 100000 /\ window_size s' = window_size s
  | Abort => ns = true /\ threaded s = true /\ ack_count s = 2 ^ 32 - 1 /\ last_ack_count s = 0 /\
             ts_sec now <= ts_sec (last_ack_rate_time s) + 6
  end.
Proof.
  unfold _flow_control_rate_adjust. destruct ns, (threaded s) eqn:Et; try done. cbn [andb]. cbv zeta.
  cbn [last_ack_count set_rate last_ack_rate_time]. set (cur := u32 (ack_count s + 1)).
  pose proof (u32_range (ack_count s + 1)) as Hcur. fold cur in Hcur.
  repeat case_bool; simpl; try (split; [lia|done]).
  destruct (bool_decide_reflect (u32 (cur - last_ack_count s) <> 0)) as [Hne|Hz]; simpl.
  - split; [|done]. apply sleep_of_bounds; [done|]. pose proof (u32_range (cur - last_ack_count s)). lia.
  - apply dec_stable in Hz. assert (Hcl : cur = last_ack_count s).
    { unfold u32 in Hz at 1. apply Z.mod_divide in Hz as [k Hk]; [|done]. assert (k = 0) by lia. lia. }
    assert (Hmod : cur mod 16384 = 0).
    { change 16384 with (2 ^ 14). rewrite <- Z.land_ones by lia. done. }
    assert (cur = 0).
    { destruct (Z.lt_ge_cases cur 16383) as [Hlt|Hge]; [rewrite Z.mod_small in Hmod; lia|].
      exfalso. rewrite u32_small in Hb0 by lia. lia. }
    split_and!; [done|done| |lia|lia].
    unfold cur, u32 in H. destruct (Z.eq_dec (ack_count s + 1) (2 ^ 32)); [lia|]. rewrite Z.mod_small in H by lia. lia.
Qed.

Lemma flow_control_rate_adjust_bounds_witness :
  let s := mkLogSource 10 false true true 0 4294967295 0 (mkTimespec 100 0) false 0 1 in
  _flow_control_rate_adjust true s (mkTimespec 101 0) = Abort /\ ack_count s = 2 ^ 32 - 1.
Proof.
  intros s. split; [by vm_compute|].
  pose proof (flow_control_rate_adjust_bounds true s (mkTimespec 101 0) ltac:(by vm_compute) ltac:(by vm_compute)
    ltac:(by vm_compute) ltac:(by vm_compute)) as H.
  change (_flow_control_rate_adjust true s (mkTimespec 101 0)) with (@Abort LogSource) in H. apply H.
Defined.
