(* ===== verification/Serialize.v ===== *)
(** * Serialization archives (lib/serialize.c)

    A string archive appends to a growing string and reads it from its
    position; a buffer archive reads and writes a block of fixed length.
    Integers are stored big endian.  The first failure is remembered and
    every later operation fails.  Memory for strings that are read comes from
    an allocator which may refuse, a parameter. *)
From S2P Require Import Prelude.

Inductive archive_kind := StringArchive | BufferArchive.

#[global] Instance archive_kind_eq_dec : EqDecision archive_kind.
Proof. solve_decision. Defined.

Record SerializeArchive := mkArchive {
  ar_kind : archive_kind;
  ar_data : bytes;
  ar_pos : Z;
  ar_error : bool
}.

Definition serialize_string_archive_new (str : bytes) : SerializeArchive := mkArchive StringArchive str 0 false.
Definition serialize_buffer_archive_new (buff : bytes) : SerializeArchive := mkArchive BufferArchive buff 0 false.
Definition serialize_buffer_archive_get_pos (self : SerializeArchive) : Z := ar_pos self.

Definition slice (l : bytes) (pos n : Z) : bytes := take (Z.to_nat n) (drop (Z.to_nat pos) l).

(** The [read_bytes] method of both archives; [None] is the error return. *)
Definition serialize_string_archive_read_bytes (s : SerializeArchive) (buflen : Z) : option (bytes * SerializeArchive) :=
  if bool_decide (u64 (ar_pos s + buflen) > lenZ (ar_data s)) then None
  else Some (slice (ar_data s) (ar_pos s) buflen,
             mkArchive (ar_kind s) (ar_data s) (u64 (ar_pos s + buflen)) (ar_error s)).

Definition serialize_buffer_archive_read_bytes (s : SerializeArchive) (buflen : Z) : option (bytes * SerializeArchive) :=
  if bool_decide (u64 (ar_pos s + buflen) > lenZ (ar_data s)) then None
  else Some (slice (ar_data s) (ar_pos s) buflen,
             mkArchive (ar_kind s) (ar_data s) (u64 (ar_pos s + buflen)) (ar_error s)).

Definition serialize_string_archive_write_bytes (s : SerializeArchive) (buf : bytes) : option SerializeArchive :=
  Some (mkArchive (ar_kind s) (ar_data s ++ buf) (ar_pos s) (ar_error s)).

Definition serialize_buffer_archive_write_bytes (s : SerializeArchive) (buf : bytes) : option SerializeArchive :=
  if bool_decide (u64 (ar_pos s + lenZ buf) > lenZ (ar_data s)) then None
  else Some (mkArchive (ar_kind s)
               (take (Z.to_nat (ar_pos s)) (ar_data s) ++ buf ++
                drop (Z.to_nat (ar_pos s) + length buf) (ar_data s))
               (u64 (ar_pos s + lenZ buf)) (ar_error s)).

Definition set_error (s : SerializeArchive) : SerializeArchive := mkArchive (ar_kind s) (ar_data s) (ar_pos s) true.

(** Results carry the bytes read on success. *)
Definition serialize_archive_read_bytes (self : SerializeArchive) (buflen : Z) : option bytes * SerializeArchive :=
  if ar_error self then (None, self)
  else
    match (match ar_kind self with
           | StringArchive => serialize_string_archive_read_bytes self buflen
           | BufferArchive => serialize_buffer_archive_read_bytes self buflen
           end) with
    | Some (b, self) => (Some b, self)
    | None => (None, set_error self)
    end.

Definition serialize_archive_write_bytes (self : SerializeArchive) (buf : bytes) : bool * SerializeArchive :=
  if ar_error self then (false, self)
  else
    match (match ar_kind self with
           | StringArchive => serialize_string_archive_write_bytes self buf
           | BufferArchive => serialize_buffer_archive_write_bytes self buf
           end) with
    | Some self => (true, self)
    | None => (false, set_error self)
    end.

Definition serialize_write_blob (archive : SerializeArchive) (blob : bytes) : bool * SerializeArchive :=
  serialize_archive_write_bytes archive blob.
Definition serialize_read_blob (archive : SerializeArchive) (len : Z) : option bytes * SerializeArchive :=
  serialize_archive_read_bytes archive len.

(** ** Big endian integers *)

Fixpoint be_bytes (n : nat) (v : Z) : bytes :=
  match n with
  | O => []
  | S n => (v / 256 ^ Z.of_nat n) mod 256 :: be_bytes n v
  end.

Fixpoint be_value (l : bytes) : Z :=
  match l with
  | [] => 0
  | b :: l => b * 256 ^ lenZ l + be_value l
  end.

Definition write_be (n : nat) (archive : SerializeArchive) (value : Z) : bool * SerializeArchive :=
  serialize_archive_write_bytes archive (be_bytes n value).

Definition read_be (n : nat) (archive : SerializeArchive) : option Z * SerializeArchive :=
  let '(r, archive) := serialize_archive_read_bytes archive (Z.of_nat n) in (be_value <$> r, archive).

Definition serialize_write_uint8 (archive : SerializeArchive) (value : Z) := write_be 1 archive (u8 value).
Definition serialize_read_uint8 (archive : SerializeArchive) := read_be 1 archive.
Definition serialize_write_uint16 (archive : SerializeArchive) (value : Z) := write_be 2 archive (u16 value).
Definition serialize_read_uint16 (archive : SerializeArchive) := read_be 2 archive.
Definition serialize_write_uint32 (archive : SerializeArchive) (value : Z) := write_be 4 archive (u32 value).
Definition serialize_read_uint32 (archive : SerializeArchive) := read_be 4 archive.
Definition serialize_write_uint64 (archive : SerializeArchive) (value : Z) := write_be 8 archive (u64 value).
Definition serialize_read_uint64 (archive : SerializeArchive) := read_be 8 archive.

(** [a && b] of two writes: the second runs only when the first succeeded. *)
Definition and_then (r : bool * SerializeArchive) (f : SerializeArchive -> bool * SerializeArchive) : bool * SerializeArchive :=
  let '(ok, archive) := r in if ok then f archive else (false, archive).

Definition serialize_write_string (archive : SerializeArchive) (str : bytes) : bool * SerializeArchive :=
  and_then (serialize_write_uint32 archive (lenZ str)) (fun archive => serialize_archive_write_bytes archive str).

(** The bytes of a C string up to its first zero byte. *)
Fixpoint c_string (str : bytes) : bytes :=
  match str with
  | [] => []
  | b :: str => if bool_decide (b = 0) then [] else b :: c_string str
  end.

(** [len] is negative to write up to the terminator. *)
Definition serialize_write_cstring (archive : SerializeArchive) (str : bytes) (len : Z) : bool * SerializeArchive :=
  let len := if bool_decide (len < 0) then lenZ (c_string str) else len in
  and_then (serialize_write_uint32 archive len)
    (fun archive => if bool_decide (len = 0) then (true, archive)
                    else serialize_archive_write_bytes archive (take (Z.to_nat len) str)).

Section allocator.
(** Whether a block of the given size can be allocated. *)
Context (try_alloc : Z -> bool).

(** [g_try_malloc (len + 1)], computed in 32 bits: a size of zero gives no
    block. *)
Definition alloc_string (len : Z) : bool :=
  let n := u32 (len + 1) in if bool_decide (n = 0) then false else try_alloc n.

Definition serialize_read_string (archive : SerializeArchive) (allocated_len : Z) : option bytes * SerializeArchive :=
  let '(r, archive) := serialize_read_uint32 archive in
  match r with
  | None => (None, archive)
  | Some len =>
      if bool_decide (len > allocated_len) && negb (alloc_string len) then (None, archive)
      else serialize_archive_read_bytes archive len
  end.

Definition serialize_read_cstring (archive : SerializeArchive) : option bytes * SerializeArchive :=
  let '(r, archive) := serialize_read_uint32 archive in
  match r with
  | None => (None, archive)
  | Some len => if alloc_string len then serialize_archive_read_bytes archive len else (None, archive)
  end.
End allocator.

(** ** Lemmas on big endian integers *)

Lemma be_bytes_length (n : nat) (v : Z) : length (be_bytes n v) = n.
Proof. induction n as [|n IH]; simpl; [done|]. by rewrite IH. Qed.

Lemma be_bytes_lenZ (n : nat) (v : Z) : lenZ (be_bytes n v) = Z.of_nat n.
Proof. unfold lenZ. by rewrite be_bytes_length. Qed.

Lemma be_bytes_are_bytes (n : nat) (v : Z) : Forall is_byte (be_bytes n v).
Proof.
  induction n as [|n IH]; constructor; [|done]. unfold is_byte. apply Z.mod_pos_bound. lia.
Qed.

Lemma be_value_bytes (n : nat) (v : Z) : be_value (be_bytes n v) = v mod 256 ^ Z.of_nat n.
Proof.
  induction n as [|n IH]; cbn [be_bytes be_value].
  - by rewrite Z.mod_1_r.
  - rewrite be_bytes_lenZ, IH, Nat2Z.inj_succ, Z.pow_succ_r by lia.
    rewrite (Z.mul_comm 256), Z.rem_mul_r by lia. lia.
Qed.

Lemma be_value_small (n : nat) (v : Z) : 0 <= v < 256 ^ Z.of_nat n -> be_value (be_bytes n v) = v.
Proof. intros Hv. rewrite be_value_bytes. by apply Z.mod_small. Qed.

#[global] Arguments be_bytes : simpl never.

(** ** Writing and reading at a position *)

(** What was written so far, and whether more bytes fit. *)
Definition written (a : SerializeArchive) : bytes :=
  match ar_kind a with StringArchive => ar_data a | BufferArchive => take (Z.to_nat (ar_pos a)) (ar_data a) end.

Definition fits (a : SerializeArchive) (n : Z) : Prop :=
  match ar_kind a with StringArchive => True | BufferArchive => ar_pos a + n <= lenZ (ar_data a) end.

Record archive_wf (a : SerializeArchive) : Prop := {
  aw_pos : 0 <= ar_pos a <= lenZ (ar_data a);
  aw_len : lenZ (ar_data a) < 2 ^ 63
}.

Definition push (a : SerializeArchive) (b : bytes) : SerializeArchive :=
  match ar_kind a with
  | StringArchive => mkArchive StringArchive (ar_data a ++ b) (ar_pos a) (ar_error a)
  | BufferArchive =>
      mkArchive BufferArchive
        (take (Z.to_nat (ar_pos a)) (ar_data a) ++ b ++ drop (Z.to_nat (ar_pos a) + length b) (ar_data a))
        (ar_pos a + lenZ b) (ar_error a)
  end.

Definition advance (a : SerializeArchive) (n : Z) : SerializeArchive :=
  mkArchive (ar_kind a) (ar_data a) (ar_pos a + n) (ar_error a).

Lemma write_bytes_fits (a : SerializeArchive) (b : bytes) : archive_wf a -> ar_error a = false -> fits a (lenZ b) ->
  serialize_archive_write_bytes a b = (true, push a b).
Proof.
  intros [Hp Hl] He Hf. pose proof (lenZ_nonneg b). unfold serialize_archive_write_bytes, push, fits in *. rewrite He.
  destruct (ar_kind a) eqn:Ek.
  - unfold serialize_string_archive_write_bytes. by rewrite Ek, He.
  - unfold serialize_buffer_archive_write_bytes. rewrite u64_small by lia.
    rewrite bool_decide_eq_false_2 by lia. by rewrite Ek, He.
Qed.

Lemma write_bytes_full (a : SerializeArchive) (b : bytes) : archive_wf a -> ar_error a = false ->
  lenZ b < 2 ^ 63 -> ~ fits a (lenZ b) -> serialize_archive_write_bytes a b = (false, set_error a).
Proof.
  intros [Hp Hl] He Hb Hf. pose proof (lenZ_nonneg b). unfold serialize_archive_write_bytes, fits in *. rewrite He.
  destruct (ar_kind a) eqn:Ek; [done|].
  unfold serialize_buffer_archive_write_bytes. rewrite u64_small by lia. by rewrite bool_decide_eq_true_2 by lia.
Qed.

Lemma push_written (a : SerializeArchive) (b : bytes) : archive_wf a -> fits a (lenZ b) ->
  written (push a b) = written a ++ b.
Proof.
  intros [Hp Hl] Hf. unfold written, push, fits in *. destruct (ar_kind a) eqn:Ek; simpl; [done|].
  rewrite app_assoc, take_app_le.
  - rewrite take_ge; [done|]. rewrite length_app, length_take. unfold lenZ in *. lia.
  - rewrite length_app, length_take. unfold lenZ in *. lia.
Qed.

Lemma push_wf (a : SerializeArchive) (b : bytes) : archive_wf a -> fits a (lenZ b) ->
  lenZ (ar_data a) + lenZ b < 2 ^ 63 -> archive_wf (push a b).
Proof.
  intros [Hp Hl] Hf Hb. pose proof (lenZ_nonneg b). unfold push, fits in *.
  destruct (ar_kind a); split; simpl; autorewrite with sng; unfold lenZ in *; lia.
Qed.

Lemma push_app (a : SerializeArchive) (b c : bytes) : archive_wf a -> fits a (lenZ (b ++ c)) ->
  push (push a b) c = push a (b ++ c).
Proof.
  intros [Hp Hl] Hf. unfold push, fits in *. destruct (ar_kind a) eqn:Ek; simpl; [by rewrite app_assoc|].
  rewrite lenZ_app in *. f_equal; [|lia].
  assert (Hn : Z.to_nat (ar_pos a + lenZ b) = (Z.to_nat (ar_pos a) + length b)%nat) by (unfold lenZ in *; lia).
  assert (Ht : length (take (Z.to_nat (ar_pos a)) (ar_data a)) = Z.to_nat (ar_pos a))
    by (rewrite length_take; unfold lenZ in *; lia).
  rewrite Hn. set (T := take (Z.to_nat (ar_pos a)) (ar_data a)) in *. set (p := Z.to_nat (ar_pos a)) in *.
  rewrite (app_assoc T b). rewrite take_app_length' by (rewrite length_app; lia).
  rewrite drop_app_ge by (rewrite length_app; lia). rewrite drop_drop, !length_app, Ht, <- !app_assoc.
  do 4 f_equal. lia.
Qed.

Lemma read_bytes_at (a : SerializeArchive) (b rest : bytes) : archive_wf a -> ar_error a = false ->
  drop (Z.to_nat (ar_pos a)) (ar_data a) = b ++ rest ->
  serialize_archive_read_bytes a (lenZ b) = (Some b, advance a (lenZ b)).
Proof.
  intros [Hp Hl] He Hd. pose proof (lenZ_nonneg b).
  assert (ar_pos a + lenZ b <= lenZ (ar_data a)).
  { apply (f_equal length) in Hd. rewrite length_drop, length_app in Hd. unfold lenZ in *. lia. }
  assert (Hs : slice (ar_data a) (ar_pos a) (lenZ b) = b).
  { unfold slice. rewrite Hd. unfold lenZ. rewrite Nat2Z.id. by rewrite take_app_length. }
  unfold serialize_archive_read_bytes, serialize_string_archive_read_bytes, serialize_buffer_archive_read_bytes, advance.
  rewrite He, u64_small, bool_decide_eq_false_2, Hs by lia. by destruct (ar_kind a).
Qed.

Lemma advance_at (a : SerializeArchive) (b rest : bytes) : archive_wf a ->
  drop (Z.to_nat (ar_pos a)) (ar_data a) = b ++ rest ->
  archive_wf (advance a (lenZ b)) /\
  drop (Z.to_nat (ar_pos (advance a (lenZ b)))) (ar_data (advance a (lenZ b))) = rest.
Proof.
  intros [Hp Hl] Hd. pose proof (lenZ_nonneg b). pose proof (f_equal length Hd) as Hlen.
  rewrite length_drop, length_app in Hlen. split; [split; simpl; unfold lenZ in *; lia|]. simpl.
  replace (Z.to_nat (ar_pos a + lenZ b)) with (length b + Z.to_nat (ar_pos a))%nat by (unfold lenZ in *; lia).
  rewrite Nat.add_comm, <- drop_drop, Hd. by rewrite drop_app_length.
Qed.

(** A failed operation leaves the archive in error, where nothing moves. *)
Lemma read_error (a : SerializeArchive) (n : Z) : ar_error a = true -> serialize_archive_read_bytes a n = (None, a).
Proof. intros He. unfold serialize_archive_read_bytes. by rewrite He. Qed.

Lemma write_error (a : SerializeArchive) (b : bytes) : ar_error a = true ->
  serialize_archive_write_bytes a b = (false, a).
Proof. intros He. unfold serialize_archive_write_bytes. by rewrite He. Qed.

(** ** Codecs

    What the users of archives rely on: an encoding, and a writer and a reader
    that implement it. *)
Record codec (A : Type) := mkCodec {
  c_enc : A -> bytes;
  c_valid : A -> Prop;
  c_write : SerializeArchive -> A -> bool * SerializeArchive;
  c_read : SerializeArchive -> option A * SerializeArchive
}.
Arguments mkCodec {A}. Arguments c_enc {A}. Arguments c_valid {A}. Arguments c_write {A}. Arguments c_read {A}.

Record codec_ok {A} (c : codec A) : Prop := {
  co_write : forall a x, archive_wf a -> ar_error a = false -> c_valid c x -> fits a (lenZ (c_enc c x)) ->
    lenZ (ar_data a) + lenZ (c_enc c x) < 2 ^ 63 -> c_write c a x = (true, push a (c_enc c x));
  co_read : forall a x rest, archive_wf a -> ar_error a = false -> c_valid c x ->
    drop (Z.to_nat (ar_pos a)) (ar_data a) = c_enc c x ++ rest ->
    c_read c a = (Some x, advance a (lenZ (c_enc c x)))
}.

Definition codec_be (n : nat) (wr : SerializeArchive -> Z -> bool * SerializeArchive)
    (rd : SerializeArchive -> option Z * SerializeArchive) : codec Z :=
  mkCodec (be_bytes n) (fun v => 0 <= v < 256 ^ Z.of_nat n) wr rd.

Lemma codec_be_ok (n : nat) wr rd :
  (forall a v, 0 <= v < 256 ^ Z.of_nat n -> wr a v = write_be n a v) -> (forall a, rd a = read_be n a) ->
  codec_ok (codec_be n wr rd).
Proof.
  intros Hw Hr. split; simpl.
  - intros a x Ha He Hx Hf Hl. rewrite Hw by done. unfold write_be. by apply write_bytes_fits.
  - intros a x rest Ha He Hx Hd. rewrite Hr. unfold read_be. rewrite <- (be_bytes_lenZ n x) at 1.
    rewrite (read_bytes_at a (be_bytes n x) rest) by done. simpl. by rewrite be_value_small.
Qed.

Definition codec_uint8 := codec_be 1 serialize_write_uint8 serialize_read_uint8.
Definition codec_uint16 := codec_be 2 serialize_write_uint16 serialize_read_uint16.
Definition codec_uint32 := codec_be 4 serialize_write_uint32 serialize_read_uint32.
Definition codec_uint64 := codec_be 8 serialize_write_uint64 serialize_read_uint64.

Lemma codec_uint8_ok : codec_ok codec_uint8.
Proof. apply codec_be_ok; [|done]. intros a v Hv. unfold serialize_write_uint8. by rewrite u8_small. Qed.
Lemma codec_uint16_ok : codec_ok codec_uint16.
Proof. apply codec_be_ok; [|done]. intros a v Hv. unfold serialize_write_uint16. by rewrite u16_small. Qed.
Lemma codec_uint32_ok : codec_ok codec_uint32.
Proof. apply codec_be_ok; [|done]. intros a v Hv. unfold serialize_write_uint32. by rewrite u32_small. Qed.
Lemma codec_uint64_ok : codec_ok codec_uint64.
Proof. apply codec_be_ok; [|done]. intros a v Hv. unfold serialize_write_uint64. by rewrite u64_small. Qed.

Definition codec_blob (n : Z) : codec bytes :=
  mkCodec (fun b => b) (fun b => lenZ b = n) serialize_write_blob (fun a => serialize_read_blob a n).

Lemma codec_blob_ok (n : Z) : codec_ok (codec_blob n).
Proof.
  split; simpl.
  - intros a x Ha He Hx Hf Hl. by apply write_bytes_fits.
  - intros a x rest Ha He <- Hd. by eapply read_bytes_at.
Qed.

Definition string_enc (s : bytes) : bytes := be_bytes 4 (lenZ s) ++ s.

Definition codec_string (try_alloc : Z -> bool) (allocated_len : Z) : codec bytes :=
  mkCodec string_enc (fun s => lenZ s < 2 ^ 32 - 1 /\ try_alloc (lenZ s + 1) = true) serialize_write_string
    (fun a => serialize_read_string try_alloc a allocated_len).

Definition codec_cstring (try_alloc : Z -> bool) : codec bytes :=
  mkCodec string_enc (fun s => lenZ s < 2 ^ 32 - 1 /\ try_alloc (lenZ s + 1) = true)
    (fun a s => serialize_write_cstring a s (lenZ s)) (serialize_read_cstring try_alloc).

Lemma string_write_ok (a : SerializeArchive) (s : bytes) : archive_wf a -> ar_error a = false ->
  lenZ s < 2 ^ 32 -> fits a (lenZ (string_enc s)) -> lenZ (ar_data a) + lenZ (string_enc s) < 2 ^ 63 ->
  serialize_write_uint32 a (lenZ s) = (true, push a (be_bytes 4 (lenZ s))) /\
  serialize_archive_write_bytes (push a (be_bytes 4 (lenZ s))) s = (true, push a (string_enc s)).
Proof.
  intros Ha He Hs Hf Hl. unfold string_enc in *. rewrite lenZ_app, be_bytes_lenZ in *.
  pose proof (lenZ_nonneg s).
  assert (Hf1 : fits a (lenZ (be_bytes 4 (lenZ s)))).
  { rewrite be_bytes_lenZ. unfold fits in *. destruct (ar_kind a); [done|lia]. }
  assert (Hw : archive_wf (push a (be_bytes 4 (lenZ s)))) by (apply push_wf; [done..|rewrite be_bytes_lenZ; lia]).
  split.
  - apply (co_write _ codec_uint32_ok); [done|done|simpl; lia|done|simpl; rewrite be_bytes_lenZ; lia].
  - rewrite write_bytes_fits.
    + rewrite push_app; [done|done|]. by rewrite lenZ_app, be_bytes_lenZ.
    + done.
    + unfold push. by destruct (ar_kind a).
    + unfold fits, push in *. destruct (ar_kind a); [done|]. simpl. autorewrite with sng. rewrite be_bytes_lenZ.
      change (length (be_bytes 4 (lenZ s))) with 4%nat. unfold lenZ in *. lia.
Qed.

Lemma string_read_ok (a : SerializeArchive) (s rest : bytes) : archive_wf a -> ar_error a = false ->
  lenZ s < 2 ^ 32 -> drop (Z.to_nat (ar_pos a)) (ar_data a) = string_enc s ++ rest ->
  serialize_read_uint32 a = (Some (lenZ s), advance a 4) /\
  serialize_archive_read_bytes (advance a 4) (lenZ s) = (Some s, advance a (lenZ (string_enc s))).
Proof.
  intros Ha He Hs Hd. unfold string_enc in *. rewrite <- app_assoc in Hd. pose proof (lenZ_nonneg s).
  pose proof (advance_at a _ _ Ha Hd) as [Hw Hd']. rewrite be_bytes_lenZ in Hw, Hd'.
  change (Z.of_nat 4) with 4 in *. split.
  - pose proof (co_read _ codec_uint32_ok a (lenZ s) (s ++ rest) Ha He ltac:(simpl; lia) Hd) as Hr.
    simpl in Hr. by rewrite Hr, be_bytes_lenZ.
  - rewrite (read_bytes_at _ s rest) by done. rewrite lenZ_app, be_bytes_lenZ. unfold advance; simpl. do 2 f_equal. lia.
Qed.

Lemma alloc_string_ok (try_alloc : Z -> bool) (n : Z) : 0 <= n < 2 ^ 32 - 1 -> try_alloc (n + 1) = true ->
  alloc_string try_alloc n = true.
Proof. intros Hn Ha. unfold alloc_string. rewrite u32_small, bool_decide_eq_false_2 by lia. done. Qed.

Lemma codec_string_ok (try_alloc : Z -> bool) (n : Z) : codec_ok (codec_string try_alloc n).
Proof.
  split; simpl.
  - intros a s Ha He [Hs _] Hf Hl. destruct (string_write_ok a s) as [H1 H2]; try (done || lia).
    unfold serialize_write_string, and_then. by rewrite H1, H2.
  - intros a s rest Ha He [Hs Hal] Hd. destruct (string_read_ok a s rest) as [H1 H2]; try (done || lia).
    unfold serialize_read_string. rewrite H1, H2, alloc_string_ok by (done || pose proof (lenZ_nonneg s); lia).
    by rewrite andb_false_r.
Qed.

Lemma codec_cstring_ok (try_alloc : Z -> bool) : codec_ok (codec_cstring try_alloc).
Proof.
  split; simpl.
  - intros a s Ha He [Hs _] Hf Hl. destruct (string_write_ok a s) as [H1 H2]; try (done || lia).
    unfold serialize_write_cstring, and_then. pose proof (lenZ_nonneg s).
    rewrite (bool_decide_eq_false_2 (lenZ s < 0)) by lia. rewrite H1.
    assert (Ht : take (Z.to_nat (lenZ s)) s = s) by (apply take_ge; unfold lenZ; lia). rewrite Ht, H2.
    case_bool; [|done]. apply lenZ_zero_nil in Hb as ->. unfold string_enc. by rewrite app_nil_r.
  - intros a s rest Ha He [Hs Hal] Hd. destruct (string_read_ok a s rest) as [H1 H2]; try (done || lia).
    unfold serialize_read_cstring. by rewrite H1, H2, alloc_string_ok by (done || pose proof (lenZ_nonneg s); lia).
Qed.

(** ** Any sequence of values *)

Inductive item :=
| I8 (v : Z) | I16 (v : Z) | I32 (v : Z) | I64 (v : Z)
| IString (s : bytes) | ICString (s : bytes) | IBlob (b : bytes).

Inductive shape := S8 | S16 | S32 | S64 | SString | SCString | SBlob (n : Z).

Definition shape_of (i : item) : shape :=
  match i with
  | I8 _ => S8 | I16 _ => S16 | I32 _ => S32 | I64 _ => S64
  | IString _ => SString | ICString _ => SCString | IBlob b => SBlob (lenZ b)
  end.

Definition write_item (a : SerializeArchive) (i : item) : bool * SerializeArchive :=
  match i with
  | I8 v => serialize_write_uint8 a v
  | I16 v => serialize_write_uint16 a v
  | I32 v => serialize_write_uint32 a v
  | I64 v => serialize_write_uint64 a v
  | IString s => serialize_write_string a s
  | ICString s => serialize_write_cstring a s (lenZ s)
  | IBlob b => serialize_write_blob a b
  end.

Section items.
Context (try_alloc : Z -> bool).

Definition tag {A} (f : A -> item) (r : option A * SerializeArchive) : option item * SerializeArchive :=
  (f <$> fst r, snd r).

Definition read_item (a : SerializeArchive) (s : shape) : option item * SerializeArchive :=
  match s with
  | S8 => tag I8 (serialize_read_uint8 a)
  | S16 => tag I16 (serialize_read_uint16 a)
  | S32 => tag I32 (serialize_read_uint32 a)
  | S64 => tag I64 (serialize_read_uint64 a)
  | SString => tag IString (serialize_read_string try_alloc a 0)
  | SCString => tag ICString (serialize_read_cstring try_alloc a)
  | SBlob n => tag IBlob (serialize_read_blob a n)
  end.

Definition item_enc (i : item) : bytes :=
  match i with
  | I8 v => be_bytes 1 v | I16 v => be_bytes 2 v | I32 v => be_bytes 4 v | I64 v => be_bytes 8 v
  | IString s | ICString s => string_enc s
  | IBlob b => b
  end.

Definition item_valid (i : item) : Prop :=
  match i with
  | I8 v => 0 <= v < 2 ^ 8 | I16 v => 0 <= v < 2 ^ 16 | I32 v => 0 <= v < 2 ^ 32 | I64 v => 0 <= v < 2 ^ 64
  | IString s | ICString s => lenZ s < 2 ^ 32 - 1 /\ try_alloc (lenZ s + 1) = true
  | IBlob _ => True
  end.

Lemma write_item_ok (a : SerializeArchive) (i : item) : archive_wf a -> ar_error a = false -> item_valid i ->
  fits a (lenZ (item_enc i)) -> lenZ (ar_data a) + lenZ (item_enc i) < 2 ^ 63 ->
  write_item a i = (true, push a (item_enc i)).
Proof.
  intros Ha He Hv Hf Hl. destruct i; simpl in *.
  - by apply (co_write _ codec_uint8_ok).
  - by apply (co_write _ codec_uint16_ok).
  - by apply (co_write _ codec_uint32_ok).
  - by apply (co_write _ codec_uint64_ok).
  - by apply (co_write _ (codec_string_ok try_alloc 0)).
  - by apply (co_write _ (codec_cstring_ok try_alloc)).
  - by apply (co_write _ (codec_blob_ok (lenZ b))).
Qed.

Lemma read_item_ok (a : SerializeArchive) (i : item) (rest : bytes) : archive_wf a -> ar_error a = false ->
  item_valid i -> drop (Z.to_nat (ar_pos a)) (ar_data a) = item_enc i ++ rest ->
  read_item a (shape_of i) = (Some i, advance a (lenZ (item_enc i))).
Proof.
  intros Ha He Hv Hd. destruct i as [v|v|v|v|s|s|b]; simpl in *.
  - pose proof (co_read _ codec_uint8_ok a v rest Ha He Hv Hd) as H. simpl in H. by rewrite H.
  - pose proof (co_read _ codec_uint16_ok a v rest Ha He Hv Hd) as H. simpl in H. by rewrite H.
  - pose proof (co_read _ codec_uint32_ok a v rest Ha He Hv Hd) as H. simpl in H. by rewrite H.
  - pose proof (co_read _ codec_uint64_ok a v rest Ha He Hv Hd) as H. simpl in H. by rewrite H.
  - pose proof (co_read _ (codec_string_ok try_alloc 0) a s rest Ha He Hv Hd) as H. simpl in H. by rewrite H.
  - pose proof (co_read _ (codec_cstring_ok try_alloc) a s rest Ha He Hv Hd) as H. simpl in H. by rewrite H.
  - pose proof (co_read _ (codec_blob_ok (lenZ b)) a b rest Ha He eq_refl Hd) as H. simpl in H. by rewrite H.
Qed.

(** Writers ignore the results and look at the archive at the end. *)
Fixpoint write_items (a : SerializeArchive) (l : list item) : SerializeArchive :=
  match l with [] => a | i :: l => write_items (snd (write_item a i)) l end.

(** Readers stop at the first failure. *)
Fixpoint read_items (a : SerializeArchive) (l : list shape) : option (list item) * SerializeArchive :=
  match l with
  | [] => (Some [], a)
  | s :: l =>
      let '(r, a) := read_item a s in
      match r with
      | None => (None, a)
      | Some i => let '(r, a) := read_items a l in (cons i <$> r, a)
      end
  end.

Definition items_enc (l : list item) : bytes := l ≫= item_enc.

Lemma items_enc_cons (i : item) (l : list item) : items_enc (i :: l) = item_enc i ++ items_enc l.
Proof. done. Qed.

Lemma fits_app (a : SerializeArchive) (b c : bytes) : archive_wf a -> fits a (lenZ (b ++ c)) ->
  fits a (lenZ b) /\ fits (push a b) (lenZ c).
Proof.
  intros [Hp Hl] Hf. rewrite lenZ_app in Hf. pose proof (lenZ_nonneg b). pose proof (lenZ_nonneg c).
  unfold fits, push in *. destruct (ar_kind a); simpl; [done|]. split; [lia|]. autorewrite with sng.
  unfold lenZ in *. lia.
Qed.

Lemma push_data_len (a : SerializeArchive) (b : bytes) : archive_wf a -> fits a (lenZ b) ->
  lenZ (ar_data (push a b)) <= lenZ (ar_data a) + lenZ b.
Proof.
  intros [Hp Hl] Hf. pose proof (lenZ_nonneg b). unfold push, fits in *.
  destruct (ar_kind a); simpl; autorewrite with sng; unfold lenZ in *; lia.
Qed.

Lemma write_items_ok (a : SerializeArchive) (l : list item) : archive_wf a -> ar_error a = false ->
  Forall item_valid l -> fits a (lenZ (items_enc l)) -> lenZ (ar_data a) + lenZ (items_enc l) < 2 ^ 63 ->
  write_items a l = push a (items_enc l) \/ (l = [] /\ write_items a l = a).
Proof.
  intros Ha He Hv. revert a Ha He. induction Hv as [|i l Hi Hv IH]; intros a Ha He Hf Hl; [by right|].
  left. simpl. rewrite items_enc_cons in *. destruct (fits_app a _ _ Ha Hf) as [Hf1 Hf2]. pose proof Hl as Hl'.
  rewrite lenZ_app in Hl. pose proof (lenZ_nonneg (items_enc l)). pose proof (push_data_len a (item_enc i) Ha Hf1).
  rewrite write_item_ok by (done || lia). simpl.
  destruct (IH (push a (item_enc i))) as [->|[-> ->]].
  - apply push_wf; [done|done|lia].
  - unfold push. by destruct (ar_kind a).
  - done.
  - lia.
  - by apply push_app.
  - simpl. by rewrite app_nil_r.
Qed.

Lemma read_items_ok (a : SerializeArchive) (l : list item) (rest : bytes) : archive_wf a -> ar_error a = false ->
  Forall item_valid l -> drop (Z.to_nat (ar_pos a)) (ar_data a) = items_enc l ++ rest ->
  read_items a (shape_of <$> l) = (Some l, advance a (lenZ (items_enc l))).
Proof.
  intros Ha He Hv. revert a Ha He. induction Hv as [|i l Hi Hv IH]; intros a Ha He Hd.
  { simpl. unfold advance. rewrite Z.add_0_r. by destruct a. }
  rewrite items_enc_cons, <- app_assoc in Hd. rewrite fmap_cons. cbn [read_items].
  rewrite (read_item_ok a i _ Ha He Hi Hd). destruct (advance_at a _ _ Ha Hd) as [Hw Hd'].
  rewrite IH by done. rewrite items_enc_cons, lenZ_app. unfold advance; simpl. by rewrite Z.add_assoc.
Qed.
End items.
