(* ===== verification/SerializeClaims.v ===== *)
(** * Archives give back what was put in

    Round trip of any sequence of values through both kinds of archive, and
    what happens on truncated input and on full buffers. *)
From S2P Require Import Prelude Serialize.

(** ** Reading looks only at what it reads *)

Definition extend (a : SerializeArchive) (e : bytes) : SerializeArchive :=
  mkArchive (ar_kind a) (ar_data a ++ e) (ar_pos a) (ar_error a).

(** A successful read, and the same read with more data behind it. *)
Definition local_read {A} (f : SerializeArchive -> option A * SerializeArchive) : Prop :=
  forall a x a' e, archive_wf a -> lenZ (ar_data a ++ e) < 2 ^ 63 -> f a = (Some x, a') ->
    archive_wf a' /\ ar_data a' = ar_data a /\ f (extend a e) = (Some x, extend a' e).

Lemma read_bytes_local (n : Z) : 0 <= n < 2 ^ 63 -> local_read (fun a => serialize_archive_read_bytes a n).
Proof.
  intros Hn a b a' e [Hp Hl] He Hr. rewrite lenZ_app in He. pose proof (lenZ_nonneg e).
  unfold serialize_archive_read_bytes, serialize_string_archive_read_bytes, serialize_buffer_archive_read_bytes in *.
  cbn [extend ar_error ar_kind ar_data ar_pos].
  destruct (ar_error a) eqn:Eerr; [done|]. rewrite u64_small in * by lia.
  assert (Hcase : ar_pos a + n <= lenZ (ar_data a) /\ b = slice (ar_data a) (ar_pos a) n /\
            a' = mkArchive (ar_kind a) (ar_data a) (ar_pos a + n) (ar_error a)).
  { destruct (ar_kind a); case_bool; simplify_eq; rewrite ?Eerr; auto with lia. }
  destruct Hcase as (Hle & -> & ->).
  rewrite bool_decide_eq_false_2 by (rewrite lenZ_app; lia). split; [split; simpl; lia|]. split; [done|].
  assert (Hs : slice (ar_data a ++ e) (ar_pos a) n = slice (ar_data a) (ar_pos a) n).
  { unfold slice. rewrite drop_app_le by (unfold lenZ in *; lia). apply take_app_le.
    rewrite length_drop. unfold lenZ in *. lia. }
  unfold extend; simpl. rewrite Hs, Eerr. by destruct (ar_kind a).
Qed.

Lemma read_be_local (n : nat) : (n <= 8)%nat -> local_read (read_be n).
Proof.
  intros Hn a x a' e Ha He Hr. unfold read_be in *.
  destruct (serialize_archive_read_bytes a (Z.of_nat n)) as [[b|] a1] eqn:E; [|done]. simpl in Hr. injection Hr as <- <-.
  pose proof (read_bytes_local (Z.of_nat n) ltac:(lia) a b a1 e Ha He E) as (H1 & H2 & H3). rewrite H3. auto.
Qed.

(** A length read from the archive has 32 bits. *)
Lemma read_uint32_range (a a' : SerializeArchive) (x : Z) : Forall is_byte (ar_data a) ->
  serialize_read_uint32 a = (Some x, a') -> 0 <= x < 2 ^ 32.
Proof.
  intros Hb Hr. unfold serialize_read_uint32, read_be in Hr.
  destruct (serialize_archive_read_bytes a (Z.of_nat 4)) as [[b|] a1] eqn:E; [|done]. simpl in Hr. injection Hr as <- _.
  assert (Hb' : Forall is_byte b /\ (length b <= 4)%nat).
  { unfold serialize_archive_read_bytes, serialize_string_archive_read_bytes, serialize_buffer_archive_read_bytes in E.
    assert (b = slice (ar_data a) (ar_pos a) 4) as ->.
    { destruct (ar_error a); [done|]. destruct (ar_kind a); case_bool; simplify_eq; done. }
    unfold slice. split; [by apply Forall_take, Forall_drop|]. rewrite length_take. lia. }
  destruct Hb' as [Hf Hl]. assert (0 <= be_value b < 256 ^ lenZ b) as Hv.
  { clear -Hf. induction Hf as [|y l Hy _ IH]; [done|]. cbn [be_value]. rewrite lenZ_cons, Z.pow_add_r by (pose proof (lenZ_nonneg l); lia).
    unfold is_byte in Hy. nia. }
  assert (256 ^ lenZ b <= 256 ^ 4) by (apply Z.pow_le_mono_r; unfold lenZ; lia). lia.
Qed.

Section alloc.
Context (try_alloc : Z -> bool).

(** The readers of strings, for bytes. *)
Lemma read_string_local (n : Z) (a a' : SerializeArchive) (x e : bytes) : Forall is_byte (ar_data a) ->
  archive_wf a -> lenZ (ar_data a ++ e) < 2 ^ 63 -> serialize_read_string try_alloc a n = (Some x, a') ->
  archive_wf a' /\ ar_data a' = ar_data a /\ serialize_read_string try_alloc (extend a e) n = (Some x, extend a' e).
Proof.
  intros Hb Ha He Hr. unfold serialize_read_string in *.
  destruct (serialize_read_uint32 a) as [[len|] a1] eqn:E; [|done].
  pose proof (read_uint32_range _ _ _ Hb E) as Hlen.
  destruct (read_be_local 4 ltac:(lia) a len a1 e Ha He E) as (H1 & H2 & H3).
  change (read_be 4 (extend a e)) with (serialize_read_uint32 (extend a e)) in H3. rewrite H3.
  destruct (bool_decide (len > n) && negb (alloc_string try_alloc len)); [done|].
  rewrite <- H2 in He. destruct (read_bytes_local len ltac:(lia) a1 x a' e H1 He Hr) as (G1 & G2 & G3).
  rewrite G3. split; [done|]. split; [congruence|done].
Qed.

Lemma read_cstring_local (a a' : SerializeArchive) (x e : bytes) : Forall is_byte (ar_data a) ->
  archive_wf a -> lenZ (ar_data a ++ e) < 2 ^ 63 -> serialize_read_cstring try_alloc a = (Some x, a') ->
  archive_wf a' /\ ar_data a' = ar_data a /\ serialize_read_cstring try_alloc (extend a e) = (Some x, extend a' e).
Proof.
  intros Hb Ha He Hr. unfold serialize_read_cstring in *.
  destruct (serialize_read_uint32 a) as [[len|] a1] eqn:E; [|done].
  pose proof (read_uint32_range _ _ _ Hb E) as Hlen.
  destruct (read_be_local 4 ltac:(lia) a len a1 e Ha He E) as (H1 & H2 & H3).
  change (read_be 4 (extend a e)) with (serialize_read_uint32 (extend a e)) in H3. rewrite H3.
  destruct (alloc_string try_alloc len); [|done].
  rewrite <- H2 in He. destruct (read_bytes_local len ltac:(lia) a1 x a' e H1 He Hr) as (G1 & G2 & G3).
  rewrite G3. split; [done|]. split; [congruence|done].
Qed.

Definition shape_valid (s : shape) : Prop := match s with SBlob n => 0 <= n < 2 ^ 63 | _ => True end.

Lemma tag_inv {A} (f : A -> item) (r : option A * SerializeArchive) (x : item) (a' : SerializeArchive) :
  tag f r = (Some x, a') -> exists y, r = (Some y, a') /\ x = f y.
Proof.
  destruct r as [[y|] a1]; unfold tag; simpl; [|done]. intros [= <- <-]. eauto.
Qed.

Lemma read_item_local (s : shape) (a a' : SerializeArchive) (x : item) (e : bytes) : shape_valid s ->
  Forall is_byte (ar_data a) -> archive_wf a -> lenZ (ar_data a ++ e) < 2 ^ 63 ->
  read_item try_alloc a s = (Some x, a') ->
  archive_wf a' /\ ar_data a' = ar_data a /\ read_item try_alloc (extend a e) s = (Some x, extend a' e).
Proof.
  intros Hs Hb Ha He Hr. destruct s; simpl in *; apply tag_inv in Hr as (y & Hr & ->); unfold tag.
  - destruct (read_be_local 1 ltac:(lia) a y a' e Ha He Hr) as (H1 & H2 & H3).
    unfold serialize_read_uint8. rewrite H3. auto.
  - destruct (read_be_local 2 ltac:(lia) a y a' e Ha He Hr) as (H1 & H2 & H3).
    unfold serialize_read_uint16. rewrite H3. auto.
  - destruct (read_be_local 4 ltac:(lia) a y a' e Ha He Hr) as (H1 & H2 & H3).
    unfold serialize_read_uint32. rewrite H3. auto.
  - destruct (read_be_local 8 ltac:(lia) a y a' e Ha He Hr) as (H1 & H2 & H3).
    unfold serialize_read_uint64. rewrite H3. auto.
  - destruct (read_string_local 0 a a' y e Hb Ha He Hr) as (H1 & H2 & H3). rewrite H3. auto.
  - destruct (read_cstring_local a a' y e Hb Ha He Hr) as (H1 & H2 & H3). rewrite H3. auto.
  - destruct (read_bytes_local n Hs a y a' e Ha He Hr) as (H1 & H2 & H3).
    unfold serialize_read_blob. rewrite H3. auto.
Qed.

Lemma read_items_local (l : list shape) (a a' : SerializeArchive) (xs : list item) (e : bytes) :
  Forall shape_valid l -> Forall is_byte (ar_data a) -> archive_wf a -> lenZ (ar_data a ++ e) < 2 ^ 63 ->
  read_items try_alloc a l = (Some xs, a') ->
  archive_wf a' /\ ar_data a' = ar_data a /\ read_items try_alloc (extend a e) l = (Some xs, extend a' e).
Proof.
  intros Hl. revert a xs. induction Hl as [|s l Hs _ IH]; intros a xs Hb Ha He Hr; simpl in *.
  { injection Hr as <- <-. done. }
  destruct (read_item try_alloc a s) as [[x|] a1] eqn:E; [|done].
  destruct (read_item_local s a a1 x e Hs Hb Ha He E) as (H1 & H2 & ->).
  destruct (read_items try_alloc a1 l) as [[ys|] a2] eqn:E2; [|done]. simpl in Hr. injection Hr as <- <-.
  rewrite <- H2 in Hb, He. destruct (IH a1 ys Hb H1 He E2) as (G1 & G2 & ->). simpl. split; [done|].
  split; [congruence|done].
Qed.
End alloc.

(** ** Claims *)

(** C9: whatever sequence of integers, strings and blobs is written to a new
    string archive, or to a buffer with enough room, it is stored without an
    error as the concatenation of the encodings, and reading it back with the
    matching calls gives exactly the values written and stops right behind
    them. *)
Theorem serialize_roundtrip (try_alloc : Z -> bool) (l : list item) (buff rest : bytes)
  (Hv : Forall (item_valid try_alloc) l) (Hl : lenZ (items_enc l) + lenZ rest < 2 ^ 62) (Hb : lenZ buff < 2 ^ 62)
  (Hroom : lenZ (items_enc l) <= lenZ buff) :
  let s := write_items (serialize_string_archive_new []) l in
  let b := write_items (serialize_buffer_archive_new buff) l in
  (ar_error s = false /\ ar_data s = items_enc l) /\
  (ar_error b = false /\ serialize_buffer_archive_get_pos b = lenZ (items_enc l)) /\
  (let '(r, a) := read_items try_alloc (serialize_string_archive_new (ar_data s ++ rest)) (shape_of <$> l) in
   r = Some l /\ ar_pos a = lenZ (items_enc l)) /\
  (let '(r, a) := read_items try_alloc (serialize_buffer_archive_new (ar_data b)) (shape_of <$> l) in
   r = Some l /\ ar_pos a = lenZ (items_enc l)).
Proof.
  intros s b. pose proof (lenZ_nonneg (items_enc l)). pose proof (lenZ_nonneg rest). pose proof (lenZ_nonneg buff).
  assert (Hs : s = mkArchive StringArchive (items_enc l) 0 false).
  { unfold s. destruct (write_items_ok try_alloc (serialize_string_archive_new []) l) as [->|[-> ->]];
      [split; done|done|done|done|simpl; change (lenZ []) with 0; lia|done|done]. }
  assert (Hbuf : b = mkArchive BufferArchive (items_enc l ++ drop (length (items_enc l)) buff) (lenZ (items_enc l)) false).
  { unfold b. destruct (write_items_ok try_alloc (serialize_buffer_archive_new buff) l) as [->|[-> ->]];
      [split; simpl; lia|done|done|unfold fits; simpl; lia|simpl; lia|done|]. simpl. by rewrite drop_0. }
  rewrite Hs, Hbuf. cbn [ar_error ar_data serialize_buffer_archive_get_pos ar_pos].
  split; [done|]. split; [done|]. split.
  - rewrite (read_items_ok try_alloc _ l rest); [done|split; simpl; rewrite ?lenZ_app; lia|done|done|].
    simpl. by rewrite drop_0.
  - rewrite (read_items_ok try_alloc _ l (drop (length (items_enc l)) buff)); [done| |done|done|].
    + split; simpl; autorewrite with sng; unfold lenZ in *; lia.
    + simpl. by rewrite drop_0.
Qed.

Definition demo_items : list item :=
  [I8 7; I16 0xabcd; I32 0xdeadbeef; I64 0x0123456789abcdef; IString (bytes_of_string "host"); ICString []; IBlob [1; 2; 3]].

Lemma serialize_roundtrip_witness :
  let s := write_items (serialize_string_archive_new []) demo_items in
  take 7 (ar_data s) = [7; 0xab; 0xcd; 0xde; 0xad; 0xbe; 0xef] /\
  (let '(r, a) := read_items (fun _ => true) (serialize_string_archive_new (ar_data s ++ [])) (shape_of <$> demo_items) in
   r = Some demo_items /\ ar_pos a = lenZ (items_enc demo_items)).
Proof.
  intros s. split; [by vm_compute|].
  apply (serialize_roundtrip (fun _ => true) demo_items (replicate 100 0) []);
    [repeat constructor; simpl; done|by vm_compute..].
Defined.

(** C10: a truncated string is noticed: reading back from any strict prefix of
    what was written never succeeds as a whole. *)
Theorem serialize_truncation_detected (try_alloc : Z -> bool) (l : list item) (n : nat)
  (Hv : Forall (item_valid try_alloc) l) (Hb : Forall is_byte (items_enc l)) (Hl : lenZ (items_enc l) < 2 ^ 62)
  (Hn : (n < length (items_enc l))%nat) :
  fst (read_items try_alloc (serialize_string_archive_new (take n (items_enc l))) (shape_of <$> l)) = None.
Proof.
  destruct (read_items _ _ _) as [[xs|] a'] eqn:E; [|done]. exfalso.
  assert (Hsh : Forall shape_valid (shape_of <$> l)).
  { clear -Hl. induction l as [|i l IH]; [constructor|]. rewrite items_enc_cons, lenZ_app in Hl.
    pose proof (lenZ_nonneg (items_enc l)). pose proof (lenZ_nonneg (item_enc i)). rewrite fmap_cons. constructor; [|apply IH; lia].
    destruct i as [v|v|v|v|s|s|b]; try done. simpl in *. lia. }
  destruct (read_items_local try_alloc (shape_of <$> l) (serialize_string_archive_new (take n (items_enc l))) a' xs (drop n (items_enc l)))
    as (W1 & W2 & W3); try done.
  - simpl. by apply Forall_take.
  - split; simpl; autorewrite with sng; unfold lenZ in *; lia.
  - simpl. rewrite take_drop. lia.
  - unfold extend in W3. simpl in W3. rewrite take_drop in W3.
    rewrite (read_items_ok try_alloc _ l []) in W3; [|split; simpl; pose proof (lenZ_nonneg (items_enc l)); lia|done|done|simpl; by rewrite drop_0, app_nil_r].
    injection W3 as _ _ _ Hpos _. destruct W1 as [Wp _]. rewrite W2 in Wp. simpl in Wp.
    rewrite lenZ_take in Wp. simpl in Hpos. unfold lenZ in *. lia.
Qed.

Lemma serialize_truncation_detected_witness :
  fst (read_items (fun _ => true) (serialize_string_archive_new (take 20 (items_enc demo_items))) (shape_of <$> demo_items)) = None.
Proof.
  apply (serialize_truncation_detected (fun _ => true) demo_items 20);
    [repeat constructor; simpl; done| |by vm_compute|vm_compute; lia].
  vm_compute. repeat constructor; done.
Defined.

(** One write to a buffer, whatever its length. *)
Lemma buffer_write_bytes (a : SerializeArchive) (b : bytes) : ar_kind a = BufferArchive -> archive_wf a ->
  lenZ b < 2 ^ 62 ->
  let a' := snd (serialize_archive_write_bytes a b) in
  ar_kind a' = BufferArchive /\ archive_wf a' /\ lenZ (ar_data a') = lenZ (ar_data a) /\ ar_pos a <= ar_pos a' /\
  drop (Z.to_nat (ar_pos a')) (ar_data a') = drop (Z.to_nat (ar_pos a')) (ar_data a) /\
  (ar_error a = true -> a' = a).
Proof.
  intros Hk Hw Hb. pose proof (lenZ_nonneg b). destruct (ar_error a) eqn:He.
  { rewrite write_error by done. simpl. auto 10 with lia. }
  destruct (Z.le_gt_cases (ar_pos a + lenZ b) (lenZ (ar_data a))) as [Hle|Hgt].
  - assert (Hf : fits a (lenZ b)) by (unfold fits; by rewrite Hk). rewrite write_bytes_fits by done.
    assert (Hlen : lenZ (ar_data (push a b)) = lenZ (ar_data a)).
    { unfold push. rewrite Hk. simpl. destruct Hw. autorewrite with sng. unfold lenZ in *. lia. }
    simpl. unfold push in *. rewrite Hk in *. simpl in *. split; [done|]. destruct Hw as [Wp Wl].
    split; [split; simpl; lia|]. split; [done|]. split; [lia|]. split; [|done].
    rewrite app_assoc, drop_app_length' by (rewrite length_app, length_take; unfold lenZ in *; lia).
    f_equal. unfold lenZ in *. lia.
  - rewrite write_bytes_full; [|done|done|lia|unfold fits; rewrite Hk; lia]. simpl.
    destruct Hw. split; [done|]. split; [by split|]. auto with lia.
Qed.

(** a buffer archive never writes outside its block: after any sequence of
    blobs the block has its old length, what lies behind the position is
    untouched, and once a write did not fit every later one fails and leaves
    the archive as it is. *)
Theorem serialize_buffer_bounds (l : list bytes) (a : SerializeArchive) (Hk : ar_kind a = BufferArchive)
  (Hw : archive_wf a) (Hl : Forall (fun b => lenZ b < 2 ^ 62) l) :
  let a' := foldl (fun a b => snd (serialize_write_blob a b)) a l in
  archive_wf a' /\ lenZ (ar_data a') = lenZ (ar_data a) /\ ar_pos a <= ar_pos a' /\
  drop (Z.to_nat (ar_pos a')) (ar_data a') = drop (Z.to_nat (ar_pos a')) (ar_data a) /\
  (ar_error a = true -> a' = a).
Proof.
  revert a Hk Hw. induction Hl as [|b l Hb _ IH]; intros a Hk Hw; simpl; [auto with lia|].
  pose proof (buffer_write_bytes a b Hk Hw Hb) as (K1 & K2 & K3 & K4 & K5 & K6).
  change (serialize_write_blob a b) with (serialize_archive_write_bytes a b). set (a1 := snd (serialize_archive_write_bytes a b)) in *.
  destruct (IH a1 K1 K2) as (J1 & J2 & J3 & J4 & J5). set (a2 := foldl _ a1 l) in *.
  split; [done|]. split; [lia|]. split; [lia|]. split.
  - rewrite J4. destruct K2 as [P1 _]. destruct Hw as [P2 _].
    replace (Z.to_nat (ar_pos a2)) with (Z.to_nat (ar_pos a1) + (Z.to_nat (ar_pos a2) - Z.to_nat (ar_pos a1)))%nat by lia.
    by rewrite <- (drop_drop (ar_data a1)), <- (drop_drop (ar_data a)), K5.
  - intros He. specialize (K6 He). transitivity a1; [apply J5; congruence|done].
Qed.

Lemma serialize_buffer_bounds_witness :
  let a' := foldl (fun a b => snd (serialize_write_blob a b)) (serialize_buffer_archive_new [9; 9; 9; 9]) [[1]; [2; 3; 4; 5]; [6]] in
  a' = mkArchive BufferArchive [1; 9; 9; 9] 1 true /\ lenZ (ar_data a') = 4.
Proof.
  intros a'. split; [reflexivity|].
  apply (serialize_buffer_bounds [[1]; [2; 3; 4; 5]; [6]] (serialize_buffer_archive_new [9; 9; 9; 9]));
    [done|by split|repeat constructor].
Defined.
