(* ===== verification/NVTableSerialize.v ===== *)
(** * Storing a name-value table (lib/nvtable-serialize.c, lib/nvtable-serialize-endianutils.h)

    The table is seen here as its block of memory: a header of twelve bytes,
    the 32 bit static offsets, the (handle, offset) pairs, and the entries at
    the end.  Integers have the byte order of the host, a parameter.  A read or
    a write outside the block is [Abort].  [g_malloc] and [g_realloc] always
    give memory; what it holds at first is a parameter. *)
From S2P Require Import Prelude Serialize.

(** ** Memory *)

Definition load (mem : bytes) (ofs n : Z) : outcome bytes :=
  if bool_decide (0 <= ofs /\ 0 <= n /\ ofs + n <= lenZ mem) then Ret (slice mem ofs n) else Abort.

Definition splice (mem : bytes) (ofs : Z) (b : bytes) : bytes :=
  take (Z.to_nat ofs) mem ++ b ++ drop (Z.to_nat ofs + length b) mem.

Definition store (mem : bytes) (ofs : Z) (b : bytes) : outcome bytes :=
  if bool_decide (0 <= ofs /\ ofs + lenZ b <= lenZ mem) then Ret (splice mem ofs b) else Abort.

Definition host_bytes (big_endian : bool) (n : nat) (v : Z) : bytes :=
  if big_endian then be_bytes n v else rev (be_bytes n v).
Definition host_value (big_endian : bool) (b : bytes) : Z :=
  if big_endian then be_value b else be_value (rev b).

(** [GUINT32_SWAP_LE_BE] *)
Definition swap32 (v : Z) : Z := be_value (rev (be_bytes 4 v)).

Definition NV_TABLE_MAGIC_V2 : bytes := bytes_of_string "NVT2".
Definition NVT_SF_BE : Z := 1.

Section host.
(** The byte order of the host, and what fresh memory holds. *)
Context (big_endian : bool) (junk : nat -> Z).

Definition loadn (mem : bytes) (ofs : Z) (n : nat) : outcome Z :=
  let! b := load mem ofs (Z.of_nat n) in Ret (host_value big_endian b).
Definition storen (mem : bytes) (ofs : Z) (n : nat) (v : Z) : outcome bytes :=
  store mem ofs (host_bytes big_endian n v).

Definition g_malloc (n : Z) : bytes := junk <$> seq 0 (Z.to_nat n).
Definition g_realloc (mem : bytes) (n : Z) : bytes :=
  take (Z.to_nat n) (mem ++ (junk <$> seq (length mem) (Z.to_nat n - length mem))).

(** Fields of [struct _NVTable]. *)
Definition get_size (mem : bytes) := loadn mem 0 4.
Definition get_used (mem : bytes) := loadn mem 4 4.
Definition get_num_dyn_entries (mem : bytes) := loadn mem 8 2.
Definition get_num_static_entries (mem : bytes) := loadn mem 10 1.

(** [guint8 ref_cnt:7, borrowed:1] fills the byte from its low end on little
    endian hosts and from its high end on big endian ones. *)
Definition set_borrowed (mem : bytes) (b : Z) : outcome bytes :=
  let! x := loadn mem 11 1 in
  storen mem 11 1 (if big_endian then Z.lor (Z.land x 0xfe) b else Z.lor (Z.land x 0x7f) (Z.shiftl b 7)).
Definition set_ref_cnt (mem : bytes) (c : Z) : outcome bytes :=
  let! x := loadn mem 11 1 in
  storen mem 11 1 (if big_endian then Z.lor (Z.land x 1) (Z.shiftl c 1) else Z.lor (Z.land x 0x80) c).

Definition static_ofs (i : Z) : Z := 12 + 4 * i.
Definition dyn_ofs (ns i : Z) : Z := 12 + 4 * ns + 8 * i.

(** ** Writing *)

Definition _serialize_nv_dyn_value (sa : SerializeArchive) (handle ofs : Z) : SerializeArchive :=
  let sa := snd (serialize_write_uint32 sa handle) in
  snd (serialize_write_uint32 sa ofs).

Fixpoint write_static (n : nat) (i : Z) (sa : SerializeArchive) (self : bytes) : outcome SerializeArchive :=
  match n with
  | O => Ret sa
  | S n =>
      let! v := loadn self (static_ofs i) 4 in
      write_static n (i + 1) (snd (serialize_write_uint32 sa v)) self
  end.

Fixpoint write_dyn (n : nat) (ns i : Z) (sa : SerializeArchive) (self : bytes) : outcome SerializeArchive :=
  match n with
  | O => Ret sa
  | S n =>
      let! h := loadn self (dyn_ofs ns i) 4 in
      let! o := loadn self (dyn_ofs ns i + 4) 4 in
      write_dyn n ns (i + 1) (_serialize_nv_dyn_value sa h o) self
  end.

Definition _write_struct (sa : SerializeArchive) (self : bytes) : outcome SerializeArchive :=
  let! size := get_size self in
  let! used := get_used self in
  let! nd := get_num_dyn_entries self in
  let! ns := get_num_static_entries self in
  let sa := snd (serialize_write_uint32 sa size) in
  let sa := snd (serialize_write_uint32 sa used) in
  let sa := snd (serialize_write_uint16 sa nd) in
  let sa := snd (serialize_write_uint8 sa ns) in
  let! sa := write_static (Z.to_nat ns) 0 sa self in
  write_dyn (Z.to_nat nd) ns 0 sa self.

Definition nv_table_serialize (sa : SerializeArchive) (self : bytes) : outcome (bool * SerializeArchive) :=
  let magic := host_value big_endian NV_TABLE_MAGIC_V2 in
  let sa := snd (serialize_write_uint32 sa magic) in
  let serialized_flag := if big_endian then Z.lor 0 NVT_SF_BE else 0 in
  let sa := snd (serialize_write_uint8 sa serialized_flag) in
  let! sa := _write_struct sa self in
  let! size := get_size self in
  let! used_len := get_used self in
  let! blob := load self (u32 (size - used_len)) used_len in
  Ret (true, snd (serialize_write_blob sa blob)).

(** ** Reading *)

(** [if (!read) return NULL]. *)
Definition or_null {A B} (r : option A * SerializeArchive) (f : A -> SerializeArchive -> outcome (option B * SerializeArchive))
  : outcome (option B * SerializeArchive) :=
  match r with (Some x, sa) => f x sa | (None, sa) => Ret (None, sa) end.

Definition serialize_read_nvhandle (sa : SerializeArchive) := serialize_read_uint32 sa.

Definition _deserialize_dyn_value (sa : SerializeArchive) : option (Z * Z) * SerializeArchive :=
  match serialize_read_nvhandle sa with
  | (Some h, sa) => match serialize_read_uint32 sa with (Some o, sa) => (Some (h, o), sa) | (None, sa) => (None, sa) end
  | (None, sa) => (None, sa)
  end.

Fixpoint read_static (n : nat) (i : Z) (sa : SerializeArchive) (res : bytes) : outcome (option bytes * SerializeArchive) :=
  match n with
  | O => Ret (Some res, sa)
  | S n =>
      or_null (serialize_read_uint32 sa) (fun v sa =>
        let! res := storen res (static_ofs i) 4 v in read_static n (i + 1) sa res)
  end.

Fixpoint read_dyn (n : nat) (ns i : Z) (sa : SerializeArchive) (res : bytes) : outcome (option bytes * SerializeArchive) :=
  match n with
  | O => Ret (Some res, sa)
  | S n =>
      or_null (_deserialize_dyn_value sa) (fun v sa =>
        let! res := storen res (dyn_ofs ns i) 4 (fst v) in
        let! res := storen res (dyn_ofs ns i + 4) 4 (snd v) in
        read_dyn n ns (i + 1) sa res)
  end.

Definition _deserialize_struct_v25 (sa : SerializeArchive) (res : bytes) : outcome (option bytes * SerializeArchive) :=
  let! ns := get_num_static_entries res in
  let! nd := get_num_dyn_entries res in
  let! r := read_static (Z.to_nat ns) 0 sa res in
  or_null r (fun res sa => read_dyn (Z.to_nat nd) ns 0 sa res).

(** *** Entries of the other byte order *)

Definition reverse (b : Z) : Z :=
  let b := u8 (Z.lor (Z.shiftr (Z.land b 0xf0) 4) (Z.shiftl (Z.land b 0x0f) 4)) in
  let b := u8 (Z.lor (Z.shiftr (Z.land b 0xcc) 2) (Z.shiftl (Z.land b 0x33) 2)) in
  u8 (Z.lor (Z.shiftr (Z.land b 0xaa) 1) (Z.shiftl (Z.land b 0x55) 1)).

Definition entry_indirect (flags : Z) : bool := if big_endian then Z.testbit flags 7 else Z.testbit flags 0.

Definition swap_field (mem : bytes) (ofs : Z) : outcome bytes :=
  let! v := loadn mem ofs 4 in storen mem ofs 4 (swap32 v).

(** [p] is the address of the entry in the block. *)
Definition nv_entry_swap_bytes (mem : bytes) (p : Z) : outcome bytes :=
  let! flags := loadn mem p 1 in
  let flags := reverse flags in
  let! mem := storen mem p 1 flags in
  let! mem := swap_field mem (p + 4) in
  if negb (entry_indirect flags) then swap_field mem (p + 8)
  else
    let! mem := swap_field mem (p + 8) in
    let! mem := swap_field mem (p + 12) in
    swap_field mem (p + 16).

(** The entry whose offset is stored at [slot], if there is one. *)
Definition swap_slot (mem : bytes) (slot : Z) : outcome bytes :=
  let! size := get_size mem in
  let! ofs := loadn mem slot 4 in
  if bool_decide (ofs = 0) then Ret mem else nv_entry_swap_bytes mem (size - ofs).

(** Both loops test the count in the header before every step, and the counts
    have 8 and 16 bits. *)
Fixpoint swap_slots (fuel : nat) (count : bytes -> outcome Z) (i base stride : Z) (mem : bytes) : outcome bytes :=
  match fuel with
  | O => Ret mem
  | S fuel =>
      let! n := count mem in
      if bool_decide (i < n) then
        let! mem := swap_slot mem (base + stride * i) in swap_slots fuel count (i + 1) base stride mem
      else Ret mem
  end.

Definition nv_table_data_swap_bytes (mem : bytes) : outcome bytes :=
  let! mem := swap_slots (Z.to_nat (2 ^ 8)) get_num_static_entries 0 (static_ofs 0) 4 mem in
  let! ns := get_num_static_entries mem in
  swap_slots (Z.to_nat (2 ^ 16)) get_num_dyn_entries 0 (dyn_ofs ns 0 + 4) 8 mem.

Definition nv_table_deserialize_newest (sa : SerializeArchive) : outcome (option bytes * SerializeArchive) :=
  or_null (serialize_read_uint32 sa) (fun magic sa =>
  or_null (serialize_read_uint8 sa) (fun flags sa =>
  let other := negb (eqb (bool_decide (Z.land flags NVT_SF_BE <> 0)) big_endian) in
  let magic := if other then swap32 magic else magic in
  if negb (bool_decide (host_bytes big_endian 4 magic = NV_TABLE_MAGIC_V2)) then Ret (None, sa) else
  let res := g_malloc 16 in
  or_null (serialize_read_uint32 sa) (fun v sa =>
  let! res := storen res 0 4 v in
  or_null (serialize_read_uint32 sa) (fun v sa =>
  let! res := storen res 4 4 v in
  or_null (serialize_read_uint16 sa) (fun v sa =>
  let! res := storen res 8 2 v in
  or_null (serialize_read_uint8 sa) (fun v sa =>
  let! res := storen res 10 1 v in
  let! size := get_size res in
  if bool_decide (size = 0) then Ret (None, sa) else
  let res := g_realloc res size in
  let! res := set_borrowed res 0 in
  let! res := set_ref_cnt res 1 in
  let! r := _deserialize_struct_v25 sa res in
  or_null r (fun res sa =>
  let! size := get_size res in
  let! used := get_used res in
  or_null (serialize_read_blob sa used) (fun blob sa =>
  let! res := store res (u32 (size - used)) blob in
  if other then let! res := nv_table_data_swap_bytes res in Ret (Some res, sa) else Ret (Some res, sa))))))))).
End host.
