(* ===== verification/NVTableSerializeInv.v ===== *)
(** * Lemmas on blocks of memory and on the stored form of a table *)
From S2P Require Import Prelude Serialize NVTableSerialize.

(** ** Bytes of an integer *)

Lemma be_bytes_value (b : bytes) : Forall is_byte b -> be_bytes (length b) (be_value b) = b.
Proof.
  induction b as [|x b IH]; intros Hb; [done|]. inversion Hb as [|? ? Hx Hb']; subst. specialize (IH Hb').
  assert (Hv : 0 <= be_value b < 256 ^ Z.of_nat (length b)).
  { rewrite <- IH at 1 2. rewrite be_value_bytes. apply Z.mod_pos_bound. lia. }
  assert (Hsh : forall n v w, be_bytes n (v * 256 ^ Z.of_nat n + w) = be_bytes n w).
  { clear. intros n v w. enough (H : forall m, be_bytes n (v * 256 ^ (Z.of_nat n + Z.of_nat m) + w) = be_bytes n w).
    { specialize (H O). by rewrite Z.add_0_r in H. }
    revert v. induction n as [|n IH]; intros v m; [done|]. unfold be_bytes; fold be_bytes. f_equal.
    - replace (Z.of_nat (S n) + Z.of_nat m) with (Z.of_nat n + Z.of_nat (S m)) by lia.
      rewrite Z.pow_add_r, Nat2Z.inj_succ, Z.pow_succ_r by lia.
      replace (v * (256 ^ Z.of_nat n * (256 * 256 ^ Z.of_nat m)) + w)
        with ((v * 256 ^ Z.of_nat m * 256) * 256 ^ Z.of_nat n + w) by lia.
      rewrite Z.div_add_l by lia. rewrite Z.add_comm, Z.mod_add by lia. done.
    - replace (Z.of_nat (S n) + Z.of_nat m) with (Z.of_nat n + Z.of_nat (S m)) by lia. apply IH. }
  cbn [length be_value]. change (be_bytes (S (length b)) (x * 256 ^ lenZ b + be_value b)) with
    ((x * 256 ^ lenZ b + be_value b) / 256 ^ Z.of_nat (length b) mod 256 :: be_bytes (length b) (x * 256 ^ lenZ b + be_value b)).
  unfold lenZ in *. rewrite Hsh, IH. f_equal. rewrite Z.div_add_l by lia.
  rewrite (Z.div_small (be_value b)) by lia. rewrite Z.add_0_r. apply Z.mod_small. exact Hx.
Qed.

Section host.
Context (big_endian : bool).

Lemma host_bytes_length (n : nat) (v : Z) : length (host_bytes big_endian n v) = n.
Proof. unfold host_bytes. destruct big_endian; rewrite ?length_rev; apply be_bytes_length. Qed.

Lemma host_bytes_lenZ (n : nat) (v : Z) : lenZ (host_bytes big_endian n v) = Z.of_nat n.
Proof. unfold lenZ. by rewrite host_bytes_length. Qed.

Lemma host_bytes_value (b : bytes) : Forall is_byte b -> host_bytes big_endian (length b) (host_value big_endian b) = b.
Proof.
  intros Hb. unfold host_bytes, host_value. destruct big_endian; [by apply be_bytes_value|].
  rewrite <- (length_rev b), be_bytes_value, rev_involutive; [done|]. by apply Forall_rev.
Qed.

Lemma host_value_bytes (n : nat) (v : Z) : 0 <= v < 256 ^ Z.of_nat n -> host_value big_endian (host_bytes big_endian n v) = v.
Proof. intros Hv. unfold host_bytes, host_value. destruct big_endian; rewrite ?rev_involutive; by apply be_value_small. Qed.

Lemma host_value_range (b : bytes) : Forall is_byte b -> 0 <= host_value big_endian b < 256 ^ lenZ b.
Proof.
  intros Hb. assert (H : forall l, Forall is_byte l -> 0 <= be_value l < 256 ^ lenZ l).
  { clear. intros l Hl. pose proof (be_value_bytes (length l) (be_value l)) as Hv.
    rewrite be_bytes_value in Hv by done. rewrite Hv. apply Z.mod_pos_bound, Z.pow_pos_nonneg; unfold lenZ; lia. }
  unfold host_value. destruct big_endian; [by apply H|]. replace (lenZ b) with (lenZ (rev b)) by (unfold lenZ; by rewrite length_rev).
  apply H. by apply Forall_rev.
Qed.

(** ** Memory *)

Lemma slice_length (mem : bytes) (ofs n : Z) : 0 <= ofs -> 0 <= n -> ofs + n <= lenZ mem -> lenZ (slice mem ofs n) = n.
Proof. intros. unfold slice. autorewrite with sng. lia. Qed.

Lemma slice_bytes (mem : bytes) (ofs n : Z) : Forall is_byte mem -> Forall is_byte (slice mem ofs n).
Proof. intros. by apply Forall_take, Forall_drop. Qed.

Lemma slice_app (mem : bytes) (ofs n k : Z) : 0 <= ofs -> 0 <= n -> 0 <= k ->
  slice mem ofs (n + k) = slice mem ofs n ++ slice mem (ofs + n) k.
Proof.
  intros. unfold slice. rewrite !Z2Nat.inj_add, <- drop_drop by lia. symmetry. apply take_take_drop.
Qed.

Lemma splice_lenZ (mem : bytes) (ofs : Z) (b : bytes) : 0 <= ofs -> ofs + lenZ b <= lenZ mem ->
  lenZ (splice mem ofs b) = lenZ mem.
Proof. intros. unfold splice. autorewrite with sng. unfold lenZ in *. lia. Qed.

Lemma splice_same (mem : bytes) (ofs : Z) (b : bytes) : 0 <= ofs -> ofs + lenZ b <= lenZ mem ->
  slice (splice mem ofs b) ofs (lenZ b) = b.
Proof.
  intros. unfold slice, splice. rewrite drop_app_length' by (rewrite length_take; unfold lenZ in *; lia).
  rewrite take_app_length'; [done|]. unfold lenZ. lia.
Qed.

Lemma splice_same' (mem : bytes) (ofs n : Z) (b : bytes) : lenZ b = n -> 0 <= ofs -> ofs + n <= lenZ mem ->
  slice (splice mem ofs b) ofs n = b.
Proof. intros <-. apply splice_same. Qed.

Lemma splice_before (mem : bytes) (ofs : Z) (b : bytes) (q n : Z) : 0 <= q -> 0 <= n -> q + n <= ofs ->
  ofs + lenZ b <= lenZ mem -> slice (splice mem ofs b) q n = slice mem q n.
Proof.
  intros. unfold slice, splice. rewrite drop_app_le, take_app_le by (rewrite ?length_drop, length_take; unfold lenZ in *; lia).
  rewrite <- (take_drop (Z.to_nat ofs) mem) at 2.
  rewrite drop_app_le, take_app_le; [done|..]; rewrite ?length_drop, ?length_take; unfold lenZ in *; lia.
Qed.

Lemma splice_after (mem : bytes) (ofs : Z) (b : bytes) (q n : Z) : 0 <= ofs -> ofs + lenZ b <= q ->
  ofs + lenZ b <= lenZ mem -> slice (splice mem ofs b) q n = slice mem q n.
Proof.
  intros. unfold slice, splice. rewrite app_assoc, drop_app_ge by (rewrite length_app, length_take; unfold lenZ in *; lia).
  rewrite drop_drop. do 2 f_equal. rewrite length_app, length_take. unfold lenZ in *. lia.
Qed.

Lemma splice_app (mem : bytes) (ofs : Z) (b c : bytes) : 0 <= ofs -> ofs + lenZ (b ++ c) <= lenZ mem ->
  splice (splice mem ofs b) (ofs + lenZ b) c = splice mem ofs (b ++ c).
Proof.
  intros Ho Hl. rewrite lenZ_app in Hl. unfold splice.
  assert (Ht : length (take (Z.to_nat ofs) mem) = Z.to_nat ofs) by (rewrite length_take; unfold lenZ in *; lia).
  set (T := take (Z.to_nat ofs) mem) in *. replace (Z.to_nat (ofs + lenZ b)) with (Z.to_nat ofs + length b)%nat by (unfold lenZ; lia).
  rewrite (app_assoc T b), take_app_length' by (rewrite length_app; lia).
  rewrite drop_app_ge by (rewrite length_app; lia). rewrite drop_drop, !length_app, Ht, <- !app_assoc. do 4 f_equal. lia.
Qed.

Lemma splice_nil (mem : bytes) (ofs : Z) : splice mem ofs [] = mem.
Proof. unfold splice. simpl. rewrite Nat.add_0_r. apply take_drop. Qed.

Lemma load_ok (mem : bytes) (ofs n : Z) : 0 <= ofs -> 0 <= n -> ofs + n <= lenZ mem -> load mem ofs n = Ret (slice mem ofs n).
Proof. intros. unfold load. by rewrite bool_decide_eq_true_2. Qed.

Lemma loadn_ok (mem : bytes) (ofs : Z) (n : nat) : 0 <= ofs -> ofs + Z.of_nat n <= lenZ mem ->
  loadn big_endian mem ofs n = Ret (host_value big_endian (slice mem ofs (Z.of_nat n))).
Proof. intros. unfold loadn. by rewrite load_ok by lia. Qed.

Lemma store_ok (mem : bytes) (ofs : Z) (b : bytes) : 0 <= ofs -> ofs + lenZ b <= lenZ mem -> store mem ofs b = Ret (splice mem ofs b).
Proof. intros. unfold store. by rewrite bool_decide_eq_true_2. Qed.

Lemma store_abort (mem : bytes) (ofs : Z) (b : bytes) : lenZ mem < ofs + lenZ b -> store mem ofs b = Abort.
Proof. intros. unfold store. rewrite bool_decide_eq_false_2; [done|lia]. Qed.

Lemma storen_ok (mem : bytes) (ofs : Z) (n : nat) (v : Z) : 0 <= ofs -> ofs + Z.of_nat n <= lenZ mem ->
  storen big_endian mem ofs n v = Ret (splice mem ofs (host_bytes big_endian n v)).
Proof. intros. unfold storen. apply store_ok; [done|]. by rewrite host_bytes_lenZ. Qed.

Lemma storen_abort (mem : bytes) (ofs : Z) (n : nat) (v : Z) : lenZ mem < ofs + Z.of_nat n ->
  storen big_endian mem ofs n v = Abort.
Proof. intros. apply store_abort. by rewrite host_bytes_lenZ. Qed.

(** ** The 32 bit words of a region *)

Fixpoint words (n : nat) (ofs : Z) (mem : bytes) : list Z :=
  match n with
  | O => []
  | S n => host_value big_endian (slice mem ofs 4) :: words n (ofs + 4) mem
  end.

Definition raw (vs : list Z) : bytes := vs ≫= host_bytes big_endian 4.

Lemma raw_lenZ (vs : list Z) : lenZ (raw vs) = 4 * lenZ vs.
Proof.
  induction vs as [|v vs IH]; [done|]. unfold raw in *. cbn [mbind list_bind]. rewrite lenZ_app, host_bytes_lenZ, lenZ_cons.
  fold (raw vs) in *. change (vs ≫= host_bytes big_endian 4) with (raw vs) in *. lia.
Qed.

Lemma words_length (n : nat) (ofs : Z) (mem : bytes) : length (words n ofs mem) = n.
Proof. revert ofs. induction n as [|n IH]; intros ofs; simpl; [done|]. by rewrite IH. Qed.

Lemma words_lenZ (n : nat) (ofs : Z) (mem : bytes) : lenZ (words n ofs mem) = Z.of_nat n.
Proof. unfold lenZ. by rewrite words_length. Qed.

Lemma words_app (n k : nat) (ofs : Z) (mem : bytes) :
  words (n + k) ofs mem = words n ofs mem ++ words k (ofs + 4 * Z.of_nat n) mem.
Proof.
  revert ofs. induction n as [|n IH]; intros ofs; simpl; [f_equal; lia|]. rewrite IH. do 2 f_equal. f_equal. lia.
Qed.

Lemma words_range (n : nat) (ofs : Z) (mem : bytes) : Forall is_byte mem -> 0 <= ofs -> ofs + 4 * Z.of_nat n <= lenZ mem ->
  Forall (fun v => 0 <= v < 2 ^ 32) (words n ofs mem).
Proof.
  intros Hb. revert ofs. induction n as [|n IH]; intros ofs Ho Hl; [constructor|]. constructor; [|apply IH; lia].
  pose proof (host_value_range (slice mem ofs 4) (slice_bytes mem ofs 4 Hb)) as H. rewrite slice_length in H by lia. exact H.
Qed.

Lemma raw_words (n : nat) (ofs : Z) (mem : bytes) : Forall is_byte mem -> 0 <= ofs -> ofs + 4 * Z.of_nat n <= lenZ mem ->
  raw (words n ofs mem) = slice mem ofs (4 * Z.of_nat n).
Proof.
  intros Hb. revert ofs. induction n as [|n IH]; intros ofs Ho Hl; [done|].
  replace (4 * Z.of_nat (S n)) with (4 + 4 * Z.of_nat n) by lia. rewrite slice_app by lia.
  unfold raw in *. cbn [words mbind list_bind]. change (words n (ofs + 4) mem ≫= host_bytes big_endian 4) with (mbind (host_bytes big_endian 4) (words n (ofs + 4) mem)).
  rewrite IH by lia. f_equal.
  pose proof (host_bytes_value (slice mem ofs 4) (slice_bytes mem ofs 4 Hb)) as H.
  assert (Hn : length (slice mem ofs 4) = 4%nat).
  { pose proof (slice_length mem ofs 4 ltac:(lia) ltac:(lia) ltac:(lia)) as Hs. unfold lenZ in Hs. lia. }
  by rewrite Hn in H.
Qed.

(** ** The loops *)

Lemma write_static_items (n : nat) (i : Z) (sa : SerializeArchive) (mem : bytes) : 0 <= i ->
  12 + 4 * (i + Z.of_nat n) <= lenZ mem ->
  write_static big_endian n i sa mem = Ret (write_items sa (I32 <$> words n (12 + 4 * i) mem)).
Proof.
  revert i sa. induction n as [|n IH]; intros i sa Hi Hl; [done|]. cbn [write_static words]. unfold static_ofs.
  rewrite loadn_ok by lia. cbn [obind]. rewrite IH by lia. rewrite fmap_cons. cbn [write_items write_item].
  do 3 f_equal. f_equal. lia.
Qed.

Lemma write_dyn_items (n : nat) (ns i : Z) (sa : SerializeArchive) (mem : bytes) : 0 <= ns -> 0 <= i ->
  12 + 4 * ns + 8 * (i + Z.of_nat n) <= lenZ mem ->
  write_dyn big_endian n ns i sa mem = Ret (write_items sa (I32 <$> words (2 * n) (12 + 4 * ns + 8 * i) mem)).
Proof.
  intros Hns. revert i sa. induction n as [|n IH]; intros i sa Hi Hl; [done|].
  replace (2 * S n)%nat with (S (S (2 * n))) by lia. cbn [write_dyn words]. unfold dyn_ofs.
  rewrite !loadn_ok by lia. cbn [obind]. rewrite IH by lia. rewrite !fmap_cons. cbn [write_items write_item].
  unfold _serialize_nv_dyn_value. do 3 f_equal. f_equal. lia.
Qed.

Definition be_words (vs : list Z) : bytes := vs ≫= be_bytes 4.

Lemma items_enc_words (vs : list Z) : items_enc (I32 <$> vs) = be_words vs.
Proof. induction vs as [|v vs IH]; [done|]. rewrite fmap_cons, items_enc_cons, IH. done. Qed.

Lemma be_words_lenZ (vs : list Z) : lenZ (be_words vs) = 4 * lenZ vs.
Proof.
  induction vs as [|v vs IH]; [done|]. change (be_words (v :: vs)) with (be_bytes 4 v ++ be_words vs).
  rewrite lenZ_app, be_bytes_lenZ, lenZ_cons. lia.
Qed.

(** Reading a value at the position of the archive. *)
Lemma read_uint32_at (a : SerializeArchive) (v : Z) (rest : bytes) : archive_wf a -> ar_error a = false -> 0 <= v < 2 ^ 32 ->
  drop (Z.to_nat (ar_pos a)) (ar_data a) = be_bytes 4 v ++ rest -> serialize_read_uint32 a = (Some v, advance a 4).
Proof.
  intros Ha He Hv Hd. pose proof (co_read _ codec_uint32_ok a v rest Ha He Hv Hd) as H. simpl in H. by rewrite H, be_bytes_lenZ.
Qed.
Lemma read_uint16_at (a : SerializeArchive) (v : Z) (rest : bytes) : archive_wf a -> ar_error a = false -> 0 <= v < 2 ^ 16 ->
  drop (Z.to_nat (ar_pos a)) (ar_data a) = be_bytes 2 v ++ rest -> serialize_read_uint16 a = (Some v, advance a 2).
Proof.
  intros Ha He Hv Hd. pose proof (co_read _ codec_uint16_ok a v rest Ha He Hv Hd) as H. simpl in H. by rewrite H, be_bytes_lenZ.
Qed.
Lemma read_uint8_at (a : SerializeArchive) (v : Z) (rest : bytes) : archive_wf a -> ar_error a = false -> 0 <= v < 2 ^ 8 ->
  drop (Z.to_nat (ar_pos a)) (ar_data a) = be_bytes 1 v ++ rest -> serialize_read_uint8 a = (Some v, advance a 1).
Proof.
  intros Ha He Hv Hd. pose proof (co_read _ codec_uint8_ok a v rest Ha He Hv Hd) as H. simpl in H. by rewrite H, be_bytes_lenZ.
Qed.

Lemma advance_be (a : SerializeArchive) (n : nat) (v : Z) (rest : bytes) : archive_wf a ->
  drop (Z.to_nat (ar_pos a)) (ar_data a) = be_bytes n v ++ rest ->
  archive_wf (advance a (Z.of_nat n)) /\
  drop (Z.to_nat (ar_pos (advance a (Z.of_nat n)))) (ar_data (advance a (Z.of_nat n))) = rest.
Proof. intros Ha Hd. pose proof (advance_at a _ _ Ha Hd) as H. by rewrite be_bytes_lenZ in H. Qed.

Lemma advance_advance (a : SerializeArchive) (n k : Z) : advance (advance a n) k = advance a (n + k).
Proof. unfold advance; simpl. f_equal. lia. Qed.

Lemma advance_zero (a : SerializeArchive) : advance a 0 = a.
Proof. unfold advance. rewrite Z.add_0_r. by destruct a. Qed.

Lemma read_static_ok (vs : list Z) (i : Z) (a : SerializeArchive) (res rest : bytes) : archive_wf a -> ar_error a = false ->
  Forall (fun v => 0 <= v < 2 ^ 32) vs -> drop (Z.to_nat (ar_pos a)) (ar_data a) = be_words vs ++ rest ->
  0 <= i -> 12 + 4 * (i + lenZ vs) <= lenZ res ->
  read_static big_endian (length vs) i a res = Ret (Some (splice res (12 + 4 * i) (raw vs)), advance a (4 * lenZ vs)).
Proof.
  intros Ha He Hv. revert i a res Ha He. induction Hv as [|v vs Hv _ IH]; intros i a res Ha He Hd Hi Hl.
  { simpl. change (4 * lenZ []) with 0. by rewrite splice_nil, advance_zero. }
  rewrite lenZ_cons in *. pose proof (lenZ_nonneg vs). cbn [length read_static].
  change (be_words (v :: vs)) with (be_bytes 4 v ++ be_words vs) in Hd. rewrite <- app_assoc in Hd.
  rewrite (read_uint32_at a v _ Ha He Hv Hd). cbn [or_null]. unfold static_ofs. rewrite storen_ok by lia. cbn [obind].
  destruct (advance_be a 4 v _ Ha Hd) as [Ha' Hd']. change (Z.of_nat 4) with 4 in *.
  rewrite IH; [|done|done|done|lia|rewrite splice_lenZ; rewrite ?host_bytes_lenZ; lia].
  rewrite advance_advance. f_equal. f_equal; [|f_equal; lia]. f_equal.
  replace (12 + 4 * (i + 1)) with (12 + 4 * i + lenZ (host_bytes big_endian 4 v)) by (rewrite host_bytes_lenZ; lia).
  rewrite splice_app; [done|lia|]. fold (raw vs). rewrite lenZ_app, host_bytes_lenZ, raw_lenZ. lia.
Qed.

(** Pairs as the words they are made of. *)
Definition flat (ps : list (Z * Z)) : list Z := ps ≫= (fun p => [fst p; snd p]).

Lemma flat_lenZ (ps : list (Z * Z)) : lenZ (flat ps) = 2 * lenZ ps.
Proof.
  induction ps as [|p ps IH]; [done|]. change (flat (p :: ps)) with (fst p :: snd p :: flat ps). rewrite !lenZ_cons. lia.
Qed.

Lemma words_flat (n : nat) (ofs : Z) (mem : bytes) : exists ps, length ps = n /\ words (2 * n) ofs mem = flat ps.
Proof.
  revert ofs. induction n as [|n IH]; intros ofs; [by exists []|].
  replace (2 * S n)%nat with (S (S (2 * n))) by lia. cbn [words]. destruct (IH (ofs + 4 + 4)) as (ps & Hp & ->).
  exists ((host_value big_endian (slice mem ofs 4), host_value big_endian (slice mem (ofs + 4) 4)) :: ps). by simpl; rewrite Hp.
Qed.

Lemma read_dyn_value_at (a : SerializeArchive) (p : Z * Z) (rest : bytes) : archive_wf a -> ar_error a = false ->
  0 <= fst p < 2 ^ 32 -> 0 <= snd p < 2 ^ 32 ->
  drop (Z.to_nat (ar_pos a)) (ar_data a) = be_bytes 4 (fst p) ++ be_bytes 4 (snd p) ++ rest ->
  _deserialize_dyn_value a = (Some p, advance a 8) /\ archive_wf (advance a 8) /\
  drop (Z.to_nat (ar_pos (advance a 8))) (ar_data (advance a 8)) = rest.
Proof.
  intros Ha He H1 H2 Hd. unfold _deserialize_dyn_value, serialize_read_nvhandle. rewrite (read_uint32_at a _ _ Ha He H1 Hd).
  destruct (advance_be a 4 _ _ Ha Hd) as [Ha' Hd']. change (Z.of_nat 4) with 4 in *.
  rewrite (read_uint32_at (advance a 4) _ _ Ha' He H2 Hd'). destruct (advance_be _ 4 _ _ Ha' Hd') as [Ha'' Hd''].
  change (Z.of_nat 4) with 4 in *. rewrite advance_advance in *. by destruct p.
Qed.

Lemma read_dyn_ok (ps : list (Z * Z)) (ns i : Z) (a : SerializeArchive) (res rest : bytes) : archive_wf a -> ar_error a = false ->
  Forall (fun p => 0 <= fst p < 2 ^ 32 /\ 0 <= snd p < 2 ^ 32) ps ->
  drop (Z.to_nat (ar_pos a)) (ar_data a) = be_words (flat ps) ++ rest ->
  0 <= ns -> 0 <= i -> 12 + 4 * ns + 8 * (i + lenZ ps) <= lenZ res ->
  read_dyn big_endian (length ps) ns i a res =
    Ret (Some (splice res (12 + 4 * ns + 8 * i) (raw (flat ps))), advance a (8 * lenZ ps)).
Proof.
  intros Ha He Hv. revert i a res Ha He. induction Hv as [|p ps [Hp1 Hp2] _ IH]; intros i a res Ha He Hd Hns Hi Hl.
  { simpl. change (8 * lenZ []) with 0. by rewrite splice_nil, advance_zero. }
  rewrite lenZ_cons in *. pose proof (lenZ_nonneg ps). cbn [length read_dyn].
  change (be_words (flat (p :: ps))) with (be_bytes 4 (fst p) ++ be_bytes 4 (snd p) ++ be_words (flat ps)) in Hd.
  rewrite <- !app_assoc in Hd. destruct (read_dyn_value_at a p _ Ha He Hp1 Hp2 Hd) as (-> & Ha' & Hd').
  cbn [or_null]. unfold dyn_ofs. rewrite storen_ok by lia. cbn [obind].
  rewrite storen_ok by (rewrite ?splice_lenZ; rewrite ?host_bytes_lenZ; lia). cbn [obind].
  rewrite IH; [|done|done|done|lia|lia|rewrite !splice_lenZ; rewrite ?splice_lenZ; rewrite ?host_bytes_lenZ; lia].
  rewrite advance_advance. f_equal. f_equal; [|f_equal; lia]. f_equal.
  replace (12 + 4 * ns + 8 * i + 4) with (12 + 4 * ns + 8 * i + lenZ (host_bytes big_endian 4 (fst p))) by (rewrite host_bytes_lenZ; lia).
  rewrite splice_app by (rewrite ?lenZ_app, ?host_bytes_lenZ; lia).
  replace (12 + 4 * ns + 8 * (i + 1)) with
    (12 + 4 * ns + 8 * i + lenZ (host_bytes big_endian 4 (fst p) ++ host_bytes big_endian 4 (snd p)))
    by (rewrite lenZ_app, !host_bytes_lenZ; lia).
  rewrite splice_app; [by rewrite <- app_assoc|lia|].
  rewrite !lenZ_app, !host_bytes_lenZ, raw_lenZ, flat_lenZ. lia.
Qed.
End host.
