(* ===== verification/NVTableSerializeClaims.v ===== *)
(** * A stored table comes back, and what the reader trusts *)
From S2P Require Import Prelude Serialize NVTableSerialize NVTableSerializeInv.

Section host.
Context (big_endian : bool) (junk : nat -> Z).

(** What the header of a block says. *)
Record hdr_ok (mem : bytes) (size used ns nd : Z) : Prop := {
  ho_len : lenZ mem = size;
  ho_size : get_size big_endian mem = Ret size;
  ho_used : get_used big_endian mem = Ret used;
  ho_nd : get_num_dyn_entries big_endian mem = Ret nd;
  ho_ns : get_num_static_entries big_endian mem = Ret ns
}.

(** A consistent table: its parts lie inside the block without overlap. *)
Record image_ok (mem : bytes) (used ns nd : Z) : Prop := {
  im_hdr : hdr_ok mem (lenZ mem) used ns nd;
  im_bytes : Forall is_byte mem;
  im_max : lenZ mem < 2 ^ 32;
  im_parts : 12 + 4 * ns + 8 * nd + used <= lenZ mem
}.

Definition hdr_items (size used ns nd : Z) : list item :=
  [I32 (host_value big_endian NV_TABLE_MAGIC_V2); I8 (if big_endian then 1 else 0); I32 size; I32 used; I16 nd; I8 ns].

Definition table_items (mem : bytes) (used ns nd : Z) : list item :=
  hdr_items (lenZ mem) used ns nd ++ (I32 <$> words big_endian (Z.to_nat ns) 12 mem) ++
  (I32 <$> words big_endian (2 * Z.to_nat nd) (12 + 4 * ns) mem) ++ [IBlob (slice mem (lenZ mem - used) used)].

Lemma write_items_app (a : SerializeArchive) (l k : list item) : write_items a (l ++ k) = write_items (write_items a l) k.
Proof. revert a. induction l as [|i l IH]; intros a; [done|]. apply IH. Qed.

Lemma items_enc_app (l k : list item) : items_enc (l ++ k) = items_enc l ++ items_enc k.
Proof. unfold items_enc. by rewrite bind_app. Qed.

(** ** Facts about the header *)

Lemma loadn_range (mem : bytes) (ofs : Z) (n : nat) (v : Z) : Forall is_byte mem -> loadn big_endian mem ofs n = Ret v ->
  0 <= v < 256 ^ Z.of_nat n.
Proof.
  intros Hb H. unfold loadn, load in H. case_bool; [|done]. cbn [obind] in H. injection H as <-.
  pose proof (host_value_range big_endian (slice mem ofs (Z.of_nat n)) (slice_bytes mem ofs _ Hb)) as Hr.
  rewrite slice_length in Hr by lia. exact Hr.
Qed.

Lemma loadn_in_bounds (mem : bytes) (ofs : Z) (n : nat) (v : Z) : loadn big_endian mem ofs n = Ret v ->
  0 <= ofs /\ ofs + Z.of_nat n <= lenZ mem /\ v = host_value big_endian (slice mem ofs (Z.of_nat n)).
Proof. intros H. unfold loadn, load in H. case_bool; [|done]. cbn [obind] in H. injection H as <-. auto with lia. Qed.

Lemma image_ranges (mem : bytes) (used ns nd : Z) : image_ok mem used ns nd ->
  0 <= used < 2 ^ 32 /\ 0 <= ns < 2 ^ 8 /\ 0 <= nd < 2 ^ 16 /\ 11 <= lenZ mem.
Proof.
  intros [[? ? H1 H2 H3] Hb _ _].
  pose proof (loadn_range _ _ _ _ Hb H1). pose proof (loadn_range _ _ _ _ Hb H2). pose proof (loadn_range _ _ _ _ Hb H3).
  apply loadn_in_bounds in H3 as (_ & H3 & _). repeat split; try lia.
Qed.

Lemma loadn_splice (mem : bytes) (ofs : Z) (n : nat) (v p : Z) (b : bytes) : loadn big_endian mem ofs n = Ret v ->
  ofs + Z.of_nat n <= p -> p + lenZ b <= lenZ mem -> loadn big_endian (splice mem p b) ofs n = Ret v.
Proof.
  intros H Hp Hl. apply loadn_in_bounds in H as (H1 & H2 & ->). rewrite loadn_ok.
  - by rewrite splice_before by lia.
  - done.
  - rewrite splice_lenZ; lia.
Qed.

Lemma hdr_ok_splice (mem : bytes) (size used ns nd p : Z) (b : bytes) : hdr_ok mem size used ns nd -> 12 <= p ->
  p + lenZ b <= lenZ mem -> hdr_ok (splice mem p b) size used ns nd.
Proof.
  intros [H1 H2 H3 H4 H5] Hp Hl. split; [rewrite splice_lenZ; lia|apply loadn_splice; (done || simpl; lia)..].
Qed.

(** ** Writing *)

Lemma nv_table_serialize_items (sa : SerializeArchive) (mem : bytes) (used ns nd : Z) : image_ok mem used ns nd ->
  nv_table_serialize big_endian sa mem = Ret (true, write_items sa (table_items mem used ns nd)).
Proof.
  intros Hi. pose proof (image_ranges _ _ _ _ Hi) as (R1 & R2 & R3 & R4). destruct Hi as [[H1 H2 H3 H4 H5] Hb Hm Hp].
  unfold nv_table_serialize, _write_struct. rewrite H2, H3, H4, H5. cbn [obind].
  rewrite write_static_items by lia. cbn [obind]. rewrite write_dyn_items by lia. cbn [obind].
  rewrite u32_small by lia. rewrite load_ok by lia. cbn [obind]. unfold table_items, hdr_items.
  rewrite !write_items_app. replace (if big_endian then Z.lor 0 NVT_SF_BE else 0) with (if big_endian then 1 else 0) by (by destruct big_endian).
  replace (12 + 4 * ns + 8 * 0) with (12 + 4 * ns) by lia. done.
Qed.

Lemma table_items_valid (mem : bytes) (used ns nd : Z) : image_ok mem used ns nd ->
  Forall (item_valid (fun _ => true)) (table_items mem used ns nd).
Proof.
  intros Hi. pose proof (image_ranges _ _ _ _ Hi) as (R1 & R2 & R3 & R4). destruct Hi as [_ Hb Hm Hp].
  pose proof (lenZ_nonneg mem). unfold table_items, hdr_items. repeat rewrite Forall_app. split; [|split; [|split]].
  - repeat constructor; simpl; try lia; destruct big_endian; vm_compute; done.
  - rewrite Forall_fmap. by apply words_range; [done|lia|lia].
  - rewrite Forall_fmap. by apply words_range; [done|lia|lia].
  - by repeat constructor.
Qed.

Lemma table_items_lenZ (mem : bytes) (used ns nd : Z) : image_ok mem used ns nd ->
  lenZ (items_enc (table_items mem used ns nd)) = 16 + 4 * ns + 8 * nd + used.
Proof.
  intros Hi. pose proof (image_ranges _ _ _ _ Hi) as (R1 & R2 & R3 & R4). destruct Hi as [_ Hb Hm Hp].
  unfold table_items, hdr_items. rewrite !items_enc_app, !items_enc_words, !lenZ_app, !be_words_lenZ.
  rewrite !words_lenZ. unfold items_enc. cbn [mbind list_bind item_enc].
  rewrite !app_nil_r, !lenZ_app, !be_bytes_lenZ, slice_length by lia. lia.
Qed.

(** Writing to a new string archive. *)
Lemma write_items_string (try_alloc : Z -> bool) (l : list item) : Forall (item_valid try_alloc) l ->
  lenZ (items_enc l) < 2 ^ 63 -> write_items (serialize_string_archive_new []) l = mkArchive StringArchive (items_enc l) 0 false.
Proof.
  intros Hv Hl. destruct (write_items_ok try_alloc (serialize_string_archive_new []) l) as [->|[-> ->]]; try done.
Qed.

(** ** Reading *)

Lemma read_hdr (a : SerializeArchive) (size used ns nd : Z) (rest : bytes) : archive_wf a -> ar_error a = false ->
  0 <= size < 2 ^ 32 -> 0 <= used < 2 ^ 32 -> 0 <= ns < 2 ^ 8 -> 0 <= nd < 2 ^ 16 ->
  drop (Z.to_nat (ar_pos a)) (ar_data a) = be_bytes 4 size ++ be_bytes 4 used ++ be_bytes 2 nd ++ be_bytes 1 ns ++ rest ->
  serialize_read_uint32 a = (Some size, advance a 4) /\
  serialize_read_uint32 (advance a 4) = (Some used, advance a 8) /\
  serialize_read_uint16 (advance a 8) = (Some nd, advance a 10) /\
  serialize_read_uint8 (advance a 10) = (Some ns, advance a 11) /\
  archive_wf (advance a 11) /\ drop (Z.to_nat (ar_pos (advance a 11))) (ar_data (advance a 11)) = rest.
Proof.
  intros Ha He Hs Hu Hns Hnd D0.
  destruct (advance_be a 4 _ _ Ha D0) as [A1 D1]. destruct (advance_be _ 4 _ _ A1 D1) as [A2 D2].
  destruct (advance_be _ 2 _ _ A2 D2) as [A3 D3]. destruct (advance_be _ 1 _ _ A3 D3) as [A4 D4].
  rewrite !advance_advance in *. simpl (Z.of_nat _) in *. simpl (_ + _) in *.
  split; [by eapply read_uint32_at|]. split; [|split; [|split; [|done]]].
  - rewrite (read_uint32_at (advance a 4) used _ A1 He Hu D1). by rewrite advance_advance.
  - rewrite (read_uint16_at (advance a 8) nd _ A2 He Hnd D2). by rewrite advance_advance.
  - rewrite (read_uint8_at (advance a 10) ns _ A3 He Hns D3). by rewrite advance_advance.
Qed.

Lemma g_malloc_lenZ (n : Z) : 0 <= n -> lenZ (g_malloc junk n) = n.
Proof. intros. unfold g_malloc, lenZ. rewrite length_fmap, length_seq. lia. Qed.

Lemma slice_g_realloc (mem : bytes) (n q k : Z) : 0 <= q -> 0 <= k -> q + k <= n -> q + k <= lenZ mem ->
  slice (g_realloc junk mem n) q k = slice mem q k.
Proof.
  intros. unfold slice, g_realloc. rewrite skipn_firstn_comm, take_take.
  rewrite drop_app_le by (unfold lenZ in *; lia). rewrite take_app_le by (rewrite length_drop; unfold lenZ in *; lia).
  f_equal. lia.
Qed.

Lemma g_realloc_lenZ (mem : bytes) (n : Z) : 0 <= n -> lenZ (g_realloc junk mem n) = n.
Proof.
  intros. unfold g_realloc, lenZ. rewrite length_take, length_app, length_fmap, length_seq. lia.
Qed.

(** The eleven bytes in front of the reference count. *)
Definition hdr_bytes (size used ns nd : Z) : bytes :=
  ((host_bytes big_endian 4 size ++ host_bytes big_endian 4 used) ++ host_bytes big_endian 2 nd) ++ host_bytes big_endian 1 ns.

Lemma hdr_bytes_lenZ (size used ns nd : Z) : lenZ (hdr_bytes size used ns nd) = 11.
Proof. unfold hdr_bytes. rewrite !lenZ_app, !host_bytes_lenZ. done. Qed.

Lemma splice_hdr (mem : bytes) (size used ns nd : Z) : 11 <= lenZ mem ->
  (let! res := storen big_endian mem 0 4 size in
   let! res := storen big_endian res 4 4 used in
   let! res := storen big_endian res 8 2 nd in
   storen big_endian res 10 1 ns) = Ret (splice mem 0 (hdr_bytes size used ns nd)).
Proof.
  intros Hl. unfold storen.
  assert (S : forall m p b c q, p + lenZ b = q -> 0 <= p -> q + lenZ c <= lenZ m ->
    store (splice m p b) q c = Ret (splice m p (b ++ c))).
  { intros m p b c q <- Hp Hq. pose proof (lenZ_nonneg b). pose proof (lenZ_nonneg c).
    rewrite store_ok; [|lia|rewrite splice_lenZ; lia]. rewrite splice_app; [done|lia|rewrite lenZ_app; lia]. }
  rewrite store_ok by (rewrite ?host_bytes_lenZ; lia). cbn [obind].
  rewrite S by (rewrite ?host_bytes_lenZ; simpl; lia). cbn [obind].
  rewrite S by (rewrite ?lenZ_app, ?host_bytes_lenZ; simpl; lia). cbn [obind].
  apply S; rewrite ?lenZ_app, ?host_bytes_lenZ; simpl; lia.
Qed.

(** A field of those bytes. *)
Lemma hdr_field (mem : bytes) (size used ns nd : Z) : 11 <= lenZ mem -> slice mem 0 11 = hdr_bytes size used ns nd ->
  0 <= size < 2 ^ 32 -> 0 <= used < 2 ^ 32 -> 0 <= ns < 2 ^ 8 -> 0 <= nd < 2 ^ 16 ->
  get_size big_endian mem = Ret size /\ get_used big_endian mem = Ret used /\
  get_num_dyn_entries big_endian mem = Ret nd /\ get_num_static_entries big_endian mem = Ret ns.
Proof.
  intros Hl Hs H1 H2 H3 H4. unfold hdr_bytes in Hs.
  assert (Hx : forall q (n : nat), 0 <= q -> q + Z.of_nat n <= 11 -> slice mem q (Z.of_nat n) = slice (slice mem 0 11) q (Z.of_nat n)).
  { intros q n Hq Hn. unfold slice. simpl (Z.to_nat 0). rewrite drop_0, skipn_firstn_comm, take_take. f_equal. lia. }
  assert (Hv : forall n v, 0 <= v < 256 ^ Z.of_nat n -> host_value big_endian (host_bytes big_endian n v) = v)
    by (intros; by apply host_value_bytes).
  unfold get_size, get_used, get_num_dyn_entries, get_num_static_entries.
  rewrite !loadn_ok by (simpl; lia). rewrite !Hx by (simpl; lia). rewrite Hs. unfold slice.
  assert (L4 : forall v, length (host_bytes big_endian 4 v) = 4%nat) by (intros; apply host_bytes_length).
  assert (L2 : forall v, length (host_bytes big_endian 2 v) = 2%nat) by (intros; apply host_bytes_length).
  assert (L1 : forall v, length (host_bytes big_endian 1 v) = 1%nat) by (intros; apply host_bytes_length).
  rewrite <- !app_assoc. split_and!; f_equal.
  - simpl. rewrite drop_0, take_app_length' by (by rewrite L4). by apply Hv.
  - rewrite drop_app_length' by (by rewrite L4). rewrite take_app_length' by (by rewrite L4). by apply Hv.
  - rewrite app_assoc, drop_app_length' by (by rewrite length_app, !L4). rewrite take_app_length' by (by rewrite L2). by apply Hv.
  - rewrite !app_assoc, drop_app_length' by (by rewrite !length_app, !L4, L2). rewrite take_ge by (by rewrite L1). by apply Hv.
Qed.

(** The reference count is one and the block is not borrowed, whatever the
    byte held before. *)
Definition ref_byte : Z := if big_endian then 2 else 1.

Lemma set_flags (mem : bytes) : 12 <= lenZ mem ->
  (let! res := set_borrowed big_endian mem 0 in set_ref_cnt big_endian res 1) = Ret (splice mem 11 [ref_byte]).
Proof.
  intros Hl. unfold set_borrowed, set_ref_cnt. rewrite loadn_ok by (simpl; lia). cbn [obind].
  set (x := host_value big_endian (slice mem 11 (Z.of_nat 1))). rewrite storen_ok by (simpl; lia). cbn [obind].
  set (y := if big_endian then _ else _). assert (Hb : forall v, host_bytes big_endian 1 v = [v mod 256]).
  { intros v. unfold host_bytes. change (be_bytes 1 v) with [v / 1 mod 256]. rewrite Z.div_1_r. by destruct big_endian. }
  assert (Hsl : forall z, lenZ (splice mem 11 [z]) = lenZ mem) by (intros z; apply splice_lenZ; [lia|change (lenZ [z]) with 1; lia]).
  rewrite Hb. rewrite loadn_ok by (rewrite ?Hsl; simpl; lia). cbn [obind].
  change (Z.of_nat 1) with (lenZ [y mod 256]). rewrite splice_same by (change (lenZ [y mod 256]) with 1; lia).
  assert (Hv : forall v, host_value big_endian [v] = v).
  { intros v. unfold host_value. change (rev [v]) with [v]. change (be_value [v]) with (v * 1 + 0). destruct big_endian; lia. }
  rewrite Hv. rewrite storen_ok by (rewrite ?Hsl; simpl; lia). rewrite Hb. f_equal.
  assert (Hz : (if big_endian then Z.lor (Z.land (y mod 256) 1) (Z.shiftl 1 1) else Z.lor (Z.land (y mod 256) 128) 1) mod 256 = ref_byte).
  { change (y mod 256) with (y mod 2 ^ 8). rewrite <- (Z.land_ones y 8) by lia. unfold ref_byte, y. destruct big_endian.
    - rewrite Z.lor_0_r, <- !Z.land_assoc. change (Z.land 254 (Z.land (Z.ones 8) 1)) with 0. by rewrite Z.land_0_r.
    - rewrite Z.shiftl_0_l, Z.lor_0_r, <- !Z.land_assoc. change (Z.land 127 (Z.land (Z.ones 8) 128)) with 0. by rewrite Z.land_0_r. }
  rewrite Hz. unfold splice. simpl (length _). set (T := take (Z.to_nat 11) mem).
  assert (Ht : length T = 11%nat) by (unfold T; rewrite length_take; unfold lenZ in *; lia).
  rewrite take_app_length' by done. do 2 f_equal.
  rewrite app_assoc, drop_app_length' by (rewrite length_app, Ht; done). done.
Qed.
End host.

(** * Round trip and bounds of a stored table *)

(** The bytes in front of the header: magic and byte order of the writer. *)
Definition prefix (writer : bool) : bytes :=
  be_bytes 4 (host_value writer NV_TABLE_MAGIC_V2) ++ be_bytes 1 (if writer then 1 else 0).

(** The stored form of a table with the given header, offsets and entries. *)
Definition stream (writer : bool) (size used ns nd : Z) (sw : list Z) (ps : list (Z * Z)) (blob : bytes) : bytes :=
  prefix writer ++ be_bytes 4 size ++ be_bytes 4 used ++ be_bytes 2 nd ++ be_bytes 1 ns ++
  be_words sw ++ be_words (flat ps) ++ blob.

Lemma string_archive_wf (l : bytes) : lenZ l < 2 ^ 63 -> archive_wf (serialize_string_archive_new l).
Proof. intros Hl. pose proof (lenZ_nonneg l). by split. Qed.

Section host.
Context (big_endian : bool) (junk : nat -> Z).

(** ** Step by step *)

(** The part behind [_deserialize_struct_v25]. *)
Definition finish (other : bool) (r : option bytes * SerializeArchive) : outcome (option bytes * SerializeArchive) :=
  or_null r (fun res sa =>
  let! size := get_size big_endian res in
  let! used := get_used big_endian res in
  or_null (serialize_read_blob sa used) (fun blob sa =>
  let! res := store res (u32 (size - used)) blob in
  if other then let! res := nv_table_data_swap_bytes big_endian res in Ret (Some res, sa) else Ret (Some res, sa))).

Lemma read_prefix (writer : bool) (a : SerializeArchive) (rest : bytes) : archive_wf a -> ar_error a = false ->
  drop (Z.to_nat (ar_pos a)) (ar_data a) = prefix writer ++ rest ->
  let magic := host_value writer NV_TABLE_MAGIC_V2 in
  let flags := if writer then 1 else 0 in
  let other := negb (eqb (bool_decide (Z.land flags NVT_SF_BE <> 0)) big_endian) in
  serialize_read_uint32 a = (Some magic, advance a 4) /\
  serialize_read_uint8 (advance a 4) = (Some flags, advance a 5) /\
  archive_wf (advance a 5) /\ drop (Z.to_nat (ar_pos (advance a 5))) (ar_data (advance a 5)) = rest /\
  other = negb (eqb writer big_endian) /\
  host_bytes big_endian 4 (if other then swap32 magic else magic) = NV_TABLE_MAGIC_V2.
Proof.
  intros Ha He Hd magic flags other. unfold prefix in Hd. rewrite <- app_assoc in Hd.
  destruct (advance_be a 4 _ _ Ha Hd) as [A1 D1]. destruct (advance_be _ 1 _ _ A1 D1) as [A2 D2].
  rewrite advance_advance in A2, D2. simpl (Z.of_nat _) in *. simpl (4 + 1) in *.
  assert (Hm : 0 <= magic < 2 ^ 32) by (unfold magic; destruct writer; vm_compute; split; done).
  assert (Hf : 0 <= flags < 2 ^ 8) by (unfold flags; destruct writer; done).
  split; [by eapply read_uint32_at|]. split.
  { rewrite (read_uint8_at (advance a 4) flags _ A1 He Hf D1). by rewrite advance_advance. }
  split; [done|]. split; [done|]. unfold other, flags, magic. by destruct writer, big_endian.
Qed.

Lemma obind_assoc {A B C} (m : outcome A) (f : A -> outcome B) (g : B -> outcome C) :
  obind (obind m f) g = obind m (fun x => obind (f x) g).
Proof. by destruct m. Qed.

(** Storing the four fields, in front of any continuation. *)
Lemma store_hdr {A} (mem : bytes) (size used ns nd : Z) (k : bytes -> outcome A) : 11 <= lenZ mem ->
  (let! res := storen big_endian mem 0 4 size in
   let! res := storen big_endian res 4 4 used in
   let! res := storen big_endian res 8 2 nd in
   let! res := storen big_endian res 10 1 ns in k res) = k (splice mem 0 (hdr_bytes big_endian size used ns nd)).
Proof.
  intros Hl. transitivity (obind (Ret (splice mem 0 (hdr_bytes big_endian size used ns nd))) k); [|done].
  rewrite <- splice_hdr by done. rewrite !obind_assoc. destruct (storen big_endian mem 0 4 size) as [r1|]; [|done].
  cbn [obind]. destruct (storen big_endian r1 4 4 used) as [r2|]; [|done].
  cbn [obind]. by destruct (storen big_endian r2 8 2 nd).
Qed.

(** The block after the header was read and the memory was resized. *)
Definition block (size used ns nd : Z) : bytes :=
  g_realloc junk (splice (g_malloc junk 16) 0 (hdr_bytes big_endian size used ns nd)) size.

Lemma block_hdr (size used ns nd : Z) : 12 <= size < 2 ^ 32 -> 0 <= used < 2 ^ 32 -> 0 <= ns < 2 ^ 8 -> 0 <= nd < 2 ^ 16 ->
  let res := splice (block size used ns nd) 11 [ref_byte big_endian] in
  hdr_ok big_endian res size used ns nd /\ slice res 11 1 = [ref_byte big_endian].
Proof.
  intros Hs Hu Hns Hnd res.
  assert (Hg : lenZ (g_malloc junk 16) = 16) by (by apply g_malloc_lenZ).
  assert (Hl : lenZ (block size used ns nd) = size) by (apply g_realloc_lenZ; lia).
  assert (Hl' : lenZ res = size) by (unfold res; rewrite splice_lenZ; change (lenZ [ref_byte big_endian]) with 1; lia).
  assert (Hsl : slice res 0 11 = hdr_bytes big_endian size used ns nd).
  { unfold res. rewrite splice_before by (change (lenZ [ref_byte big_endian]) with 1; lia). unfold block.
    pose proof (hdr_bytes_lenZ big_endian size used ns nd) as H11.
    rewrite slice_g_realloc by (rewrite ?splice_lenZ; lia). rewrite <- H11. apply splice_same; lia. }
  destruct (hdr_field big_endian res size used ns nd) as (F1 & F2 & F3 & F4); try (done || lia).
  split; [by split|]. unfold res. change 1 with (lenZ [ref_byte big_endian]). apply splice_same; [lia|].
  change (lenZ [ref_byte big_endian]) with 1. lia.
Qed.

Lemma deserialize_hdr (writer : bool) (a : SerializeArchive) (size used ns nd : Z) (rest : bytes) :
  archive_wf a -> ar_error a = false -> 0 <= size < 2 ^ 32 -> 0 <= used < 2 ^ 32 -> 0 <= ns < 2 ^ 8 -> 0 <= nd < 2 ^ 16 ->
  drop (Z.to_nat (ar_pos a)) (ar_data a) =
    prefix writer ++ be_bytes 4 size ++ be_bytes 4 used ++ be_bytes 2 nd ++ be_bytes 1 ns ++ rest ->
  archive_wf (advance a 16) /\ drop (Z.to_nat (ar_pos (advance a 16))) (ar_data (advance a 16)) = rest /\
  nv_table_deserialize_newest big_endian junk a =
    if bool_decide (size = 0) then Ret (None, advance a 16) else
    let! res := set_borrowed big_endian (block size used ns nd) 0 in
    let! res := set_ref_cnt big_endian res 1 in
    let! r := _deserialize_struct_v25 big_endian (advance a 16) res in
    finish (negb (eqb writer big_endian)) r.
Proof.
  intros Ha He Hs Hu Hns Hnd Hd. destruct (read_prefix writer a _ Ha He Hd) as (P1 & P2 & A5 & D5 & P3 & P4).
  destruct (read_hdr (advance a 5) size used ns nd rest A5 He Hs Hu Hns Hnd D5) as (R1 & R2 & R3 & R4 & A16 & D16).
  rewrite !advance_advance in *. simpl (5 + _) in *. split; [done|]. split; [done|].
  unfold nv_table_deserialize_newest. rewrite P1. cbn [or_null]. rewrite P2. cbn [or_null]. rewrite P4, P3.
  rewrite (bool_decide_eq_true_2 (NV_TABLE_MAGIC_V2 = NV_TABLE_MAGIC_V2)) by done. cbn [negb]. rewrite R1. cbn [or_null].
  rewrite R2. cbn [or_null]. rewrite R3. cbn [or_null]. rewrite R4. cbn [or_null].
  rewrite store_hdr by (rewrite g_malloc_lenZ; lia).
  assert (Hg : lenZ (g_malloc junk 16) = 16) by (by apply g_malloc_lenZ).
  pose proof (hdr_bytes_lenZ big_endian size used ns nd) as H11.
  destruct (hdr_field big_endian (splice (g_malloc junk 16) 0 (hdr_bytes big_endian size used ns nd)) size used ns nd)
    as (F1 & _); try done.
  - rewrite splice_lenZ; lia.
  - rewrite <- H11. apply splice_same; lia.
  - rewrite F1. reflexivity.
Qed.

(** ** The offset tables *)

Definition u32_pair (p : Z * Z) : Prop := 0 <= fst p < 2 ^ 32 /\ 0 <= snd p < 2 ^ 32.

Lemma raw_app (vs ws : list Z) : raw big_endian (vs ++ ws) = raw big_endian vs ++ raw big_endian ws.
Proof. apply bind_app. Qed.

Lemma be_words_app (vs ws : list Z) : be_words (vs ++ ws) = be_words vs ++ be_words ws.
Proof. apply bind_app. Qed.

Lemma read_struct_ok (a : SerializeArchive) (res rest : bytes) (size used ns nd : Z) (sw : list Z) (ps : list (Z * Z)) :
  archive_wf a -> ar_error a = false -> hdr_ok big_endian res size used ns nd -> lenZ sw = ns -> lenZ ps = nd ->
  Forall (fun v => 0 <= v < 2 ^ 32) sw -> Forall u32_pair ps ->
  drop (Z.to_nat (ar_pos a)) (ar_data a) = be_words sw ++ be_words (flat ps) ++ rest ->
  12 + 4 * ns + 8 * nd <= size ->
  _deserialize_struct_v25 big_endian a res =
    Ret (Some (splice res 12 (raw big_endian (sw ++ flat ps))), advance a (4 * ns + 8 * nd)).
Proof.
  intros Ha He [H1 H2 H3 H4 H5] Hns Hnd Hsw Hps Hd Hb. unfold _deserialize_struct_v25. rewrite H5, H4. cbn [obind].
  pose proof (lenZ_nonneg sw). pose proof (lenZ_nonneg ps).
  replace (Z.to_nat ns) with (length sw) by (unfold lenZ in *; lia).
  replace (Z.to_nat nd) with (length ps) by (unfold lenZ in *; lia).
  rewrite (read_static_ok big_endian sw 0 a res _ Ha He Hsw Hd) by lia. cbn [obind or_null].
  destruct (advance_at a _ _ Ha Hd) as [A1 D1]. rewrite be_words_lenZ in A1, D1.
  rewrite (read_dyn_ok big_endian ps ns 0 _ _ rest A1 He Hps D1); [|lia|lia|].
  - rewrite raw_app, advance_advance. f_equal. f_equal; [|f_equal; lia]. f_equal.
    replace (12 + 4 * ns + 8 * 0) with (12 + 4 * 0 + lenZ (raw big_endian sw)) by (rewrite raw_lenZ; lia).
    apply splice_app; [lia|]. rewrite lenZ_app, !raw_lenZ, flat_lenZ. lia.
  - rewrite splice_lenZ; rewrite ?raw_lenZ; lia.
Qed.

Lemma read_static_abort (vs : list Z) (i : Z) (a : SerializeArchive) (res rest : bytes) : archive_wf a -> ar_error a = false ->
  Forall (fun v => 0 <= v < 2 ^ 32) vs -> drop (Z.to_nat (ar_pos a)) (ar_data a) = be_words vs ++ rest ->
  0 <= i -> 12 + 4 * i <= lenZ res -> lenZ res < 12 + 4 * (i + lenZ vs) ->
  read_static big_endian (length vs) i a res = Abort.
Proof.
  intros Ha He Hv. revert i a res Ha He. induction Hv as [|v vs Hv _ IH]; intros i a res Ha He Hd Hi Hlo Hl.
  { change (lenZ []) with 0 in Hl. lia. }
  rewrite lenZ_cons in *. cbn [length read_static].
  change (be_words (v :: vs)) with (be_bytes 4 v ++ be_words vs) in Hd. rewrite <- app_assoc in Hd.
  rewrite (read_uint32_at a v _ Ha He Hv Hd). cbn [or_null]. unfold static_ofs.
  destruct (Z.le_gt_cases (12 + 4 * i + 4) (lenZ res)) as [Hle|Hgt]; [|rewrite storen_abort by (simpl; lia); done].
  rewrite storen_ok by (simpl; lia). cbn [obind]. destruct (advance_be a 4 v _ Ha Hd) as [Ha' Hd'].
  apply IH; try done; rewrite ?splice_lenZ; rewrite ?host_bytes_lenZ; simpl; lia.
Qed.

Lemma read_dyn_abort (ps : list (Z * Z)) (ns i : Z) (a : SerializeArchive) (res rest : bytes) : archive_wf a ->
  ar_error a = false -> Forall u32_pair ps -> drop (Z.to_nat (ar_pos a)) (ar_data a) = be_words (flat ps) ++ rest ->
  0 <= ns -> 0 <= i -> 12 + 4 * ns + 8 * i <= lenZ res -> lenZ res < 12 + 4 * ns + 8 * (i + lenZ ps) ->
  read_dyn big_endian (length ps) ns i a res = Abort.
Proof.
  intros Ha He Hv. revert i a res Ha He. induction Hv as [|p ps [Hp1 Hp2] _ IH]; intros i a res Ha He Hd Hns Hi Hlo Hl.
  { change (lenZ []) with 0 in Hl. lia. }
  rewrite lenZ_cons in *. cbn [length read_dyn].
  change (be_words (flat (p :: ps))) with (be_bytes 4 (fst p) ++ be_bytes 4 (snd p) ++ be_words (flat ps)) in Hd.
  rewrite <- !app_assoc in Hd. destruct (read_dyn_value_at a p _ Ha He Hp1 Hp2 Hd) as (-> & Ha' & Hd').
  cbn [or_null]. unfold dyn_ofs.
  destruct (Z.le_gt_cases (12 + 4 * ns + 8 * i + 4) (lenZ res)) as [H4|H4]; [|rewrite storen_abort by (simpl; lia); done].
  rewrite storen_ok by (simpl; lia). cbn [obind].
  assert (L1 : lenZ (splice res (12 + 4 * ns + 8 * i) (host_bytes big_endian 4 (fst p))) = lenZ res)
    by (apply splice_lenZ; rewrite ?host_bytes_lenZ; simpl; lia).
  destruct (Z.le_gt_cases (12 + 4 * ns + 8 * i + 8) (lenZ res)) as [H8|H8];
    [|rewrite storen_abort by (rewrite L1; simpl; lia); done].
  rewrite storen_ok by (rewrite ?L1; simpl; lia). cbn [obind].
  apply IH; try done; rewrite ?splice_lenZ; rewrite ?L1, ?host_bytes_lenZ; simpl; lia.
Qed.

Lemma read_struct_abort (a : SerializeArchive) (res rest : bytes) (size used ns nd : Z) (sw : list Z) (ps : list (Z * Z)) :
  archive_wf a -> ar_error a = false -> hdr_ok big_endian res size used ns nd -> lenZ sw = ns -> lenZ ps = nd ->
  Forall (fun v => 0 <= v < 2 ^ 32) sw -> Forall u32_pair ps ->
  drop (Z.to_nat (ar_pos a)) (ar_data a) = be_words sw ++ be_words (flat ps) ++ rest ->
  12 <= size < 12 + 4 * ns + 8 * nd -> _deserialize_struct_v25 big_endian a res = Abort.
Proof.
  intros Ha He [H1 H2 H3 H4 H5] Hns Hnd Hsw Hps Hd Hb. unfold _deserialize_struct_v25. rewrite H5, H4. cbn [obind].
  pose proof (lenZ_nonneg sw). pose proof (lenZ_nonneg ps).
  replace (Z.to_nat ns) with (length sw) by (unfold lenZ in *; lia).
  replace (Z.to_nat nd) with (length ps) by (unfold lenZ in *; lia).
  destruct (Z.le_gt_cases (12 + 4 * ns) size) as [Hle|Hgt].
  - rewrite (read_static_ok big_endian sw 0 a res _ Ha He Hsw Hd) by lia. cbn [obind or_null].
    destruct (advance_at a _ _ Ha Hd) as [A1 D1]. rewrite be_words_lenZ in A1, D1.
    rewrite (read_dyn_abort ps ns 0 _ _ rest A1 He Hps D1); [done|lia|lia|..]; rewrite splice_lenZ; rewrite ?raw_lenZ; lia.
  - rewrite (read_static_abort sw 0 a res _ Ha He Hsw Hd) by lia. done.
Qed.

(** ** The entries *)

Lemma finish_ok (other : bool) (a : SerializeArchive) (res blob rest : bytes) (size used ns nd : Z) :
  archive_wf a -> ar_error a = false -> hdr_ok big_endian res size used ns nd -> lenZ blob = used -> used <= size < 2 ^ 32 ->
  drop (Z.to_nat (ar_pos a)) (ar_data a) = blob ++ rest ->
  let res' := splice res (size - used) blob in
  finish other (Some res, a) =
    if other then let! r := nv_table_data_swap_bytes big_endian res' in Ret (Some r, advance a used)
    else Ret (Some res', advance a used).
Proof.
  intros Ha He [H1 H2 H3 H4 H5] Hbl Hu Hd res'. unfold finish. cbn [or_null]. rewrite H2, H3. cbn [obind].
  unfold serialize_read_blob. rewrite <- Hbl, (read_bytes_at a blob rest Ha He Hd). cbn [or_null].
  pose proof (lenZ_nonneg blob). rewrite u32_small by lia. rewrite store_ok by lia. cbn [obind]. unfold res'. by rewrite Hbl.
Qed.

Lemma finish_abort (other : bool) (a : SerializeArchive) (res blob rest : bytes) (size used ns nd : Z) :
  archive_wf a -> ar_error a = false -> hdr_ok big_endian res size used ns nd -> lenZ blob = used ->
  0 <= size < used -> used < 2 ^ 32 -> drop (Z.to_nat (ar_pos a)) (ar_data a) = blob ++ rest ->
  finish other (Some res, a) = Abort.
Proof.
  intros Ha He [H1 H2 H3 H4 H5] Hbl Hu Hm Hd. unfold finish. cbn [or_null]. rewrite H2, H3. cbn [obind].
  unfold serialize_read_blob. rewrite <- Hbl, (read_bytes_at a blob rest Ha He Hd). cbn [or_null].
  rewrite store_abort; [done|].
  assert (Hw : u32 (size - lenZ blob) = size - lenZ blob + 2 ^ 32)
    by (unfold u32; symmetry; apply (Z.mod_unique_pos _ _ (-1)); lia).
  rewrite Hw. lia.
Qed.

Lemma small_block_abort (size used ns nd : Z) : 0 <= size < 12 ->
  set_borrowed big_endian (block size used ns nd) 0 = Abort.
Proof.
  intros Hs. unfold set_borrowed, loadn, load. rewrite bool_decide_eq_false_2; [done|].
  unfold block. rewrite g_realloc_lenZ; simpl; lia.
Qed.
End host.

(** ** A table read back, before its entries are converted *)

Section image.
Context (writer big_endian : bool) (junk : nat -> Z) (mem : bytes) (used ns nd : Z) (Him : image_ok writer mem used ns nd).

Let size := lenZ mem.
Let vs := words writer (Z.to_nat ns + 2 * Z.to_nat nd) 12 mem.

(** The memory of the new table when the entries have been read. *)
Definition read_image : bytes :=
  splice (splice (splice (block big_endian junk size used ns nd) 11 [ref_byte big_endian]) 12 (raw big_endian vs))
    (size - used) (slice mem (size - used) used).

Lemma image_stream : exists sw ps, vs = sw ++ flat ps /\ lenZ sw = ns /\ lenZ ps = nd /\
  Forall (fun v => 0 <= v < 2 ^ 32) sw /\ Forall u32_pair ps /\
  items_enc (table_items writer mem used ns nd) = stream writer size used ns nd sw ps (slice mem (size - used) used).
Proof.
  pose proof (image_ranges writer mem used ns nd Him) as (R1 & R2 & R3 & R4). destruct Him as [_ Hb _ Hp].
  destruct (words_flat writer (Z.to_nat nd) (12 + 4 * ns) mem) as (ps & Hpl & Hps).
  exists (words writer (Z.to_nat ns) 12 mem), ps. pose proof (words_range writer (Z.to_nat ns) 12 mem Hb ltac:(lia) ltac:(lia)) as W1.
  pose proof (words_range writer (2 * Z.to_nat nd) (12 + 4 * ns) mem Hb ltac:(lia) ltac:(lia)) as W2. rewrite Hps in W2.
  split; [unfold vs; rewrite words_app, Z2Nat.id by lia; by rewrite Hps|].
  split; [unfold lenZ; rewrite words_length; lia|]. split; [unfold lenZ; lia|]. split; [done|]. split.
  - clear -W2. induction ps as [|p ps IH]; [constructor|]. change (flat (p :: ps)) with (fst p :: snd p :: flat ps) in W2.
    rewrite !Forall_cons in W2. destruct W2 as (? & ? & ?). constructor; [by split|by apply IH].
  - unfold table_items, stream, prefix, hdr_items. rewrite !items_enc_app, !items_enc_words, Hps.
    unfold items_enc at 1 2. cbn [mbind list_bind item_enc]. by rewrite !app_nil_r, <- !app_assoc.
Qed.

Lemma read_image_facts :
  hdr_ok big_endian read_image size used ns nd /\ slice read_image 11 1 = [ref_byte big_endian] /\
  slice read_image 12 (4 * ns + 8 * nd) = raw big_endian vs /\
  slice read_image (size - used) used = slice mem (size - used) used.
Proof.
  pose proof (image_ranges writer mem used ns nd Him) as (R1 & R2 & R3 & R4). destruct Him as [_ Hb Hm Hp].
  fold size in Hm, Hp, R4. assert (Hv : lenZ (raw big_endian vs) = 4 * ns + 8 * nd).
  { rewrite raw_lenZ. unfold vs, lenZ. rewrite words_length. lia. }
  assert (Hbl : lenZ (slice mem (size - used) used) = used) by (apply slice_length; unfold size in *; lia).
  destruct (block_hdr big_endian junk size used ns nd) as [B1 B2]; try lia. pose proof (ho_len _ _ _ _ _ _ B1) as BL.
  unfold read_image. set (b0 := splice (block big_endian junk size used ns nd) 11 [ref_byte big_endian]) in *.
  assert (L1 : lenZ (splice b0 12 (raw big_endian vs)) = size) by (rewrite splice_lenZ; lia).
  split; [apply hdr_ok_splice; [apply hdr_ok_splice; [done|lia|lia]|lia|lia]|]. split; [|split].
  - rewrite !splice_before by lia. done.
  - rewrite splice_before by lia. rewrite <- Hv. apply splice_same; lia.
  - apply splice_same'; lia.
Qed.

Lemma deserialize_image (rest : bytes) : lenZ (items_enc (table_items writer mem used ns nd) ++ rest) < 2 ^ 63 ->
  let a := serialize_string_archive_new (items_enc (table_items writer mem used ns nd) ++ rest) in
  let a' := advance a (lenZ (items_enc (table_items writer mem used ns nd))) in
  nv_table_deserialize_newest big_endian junk a =
    if negb (eqb writer big_endian) then let! r := nv_table_data_swap_bytes big_endian read_image in Ret (Some r, a')
    else Ret (Some read_image, a').
Proof.
  pose proof (image_ranges writer mem used ns nd Him) as (R1 & R2 & R3 & R4). destruct Him as [_ Hb Hm Hp].
  destruct image_stream as (sw & ps & Hvs & Hsl & Hpl & Hsw & Hps & Henc). fold size in Hm, Hp, R4.
  assert (Hbl : lenZ (slice mem (size - used) used) = used) by (apply slice_length; unfold size in *; lia).
  intros Hl. rewrite Henc in *. intros a a'. unfold a'. set (blob := slice mem (size - used) used) in *.
  pose proof (string_archive_wf _ Hl) as Ha. fold a in Ha.
  assert (Hd : drop (Z.to_nat (ar_pos a)) (ar_data a) = prefix writer ++ be_bytes 4 size ++ be_bytes 4 used ++
    be_bytes 2 nd ++ be_bytes 1 ns ++ (be_words sw ++ be_words (flat ps) ++ blob ++ rest)).
  { transitivity (stream writer size used ns nd sw ps blob ++ rest); [done|]. unfold stream. by rewrite <- !app_assoc. }
  destruct (deserialize_hdr big_endian junk writer a size used ns nd _ Ha eq_refl ltac:(lia) ltac:(lia) ltac:(lia) ltac:(lia) Hd)
    as (A1 & D1 & ->). rewrite bool_decide_eq_false_2 by lia.
  rewrite <- obind_assoc, set_flags by (unfold block; rewrite g_realloc_lenZ; lia). cbn [obind].
  destruct (block_hdr big_endian junk size used ns nd ltac:(lia) ltac:(lia) ltac:(lia) ltac:(lia)) as [Hh _].
  erewrite read_struct_ok by (done || lia). cbn [obind]. rewrite <- Hvs.
  rewrite app_assoc, <- be_words_app, <- Hvs in D1. destruct (advance_at _ _ _ A1 D1) as [A2 D2].
  assert (Hv : lenZ vs = ns + 2 * nd) by (rewrite Hvs, lenZ_app, flat_lenZ; lia).
  rewrite be_words_lenZ, Hv in A2, D2. replace (4 * (ns + 2 * nd)) with (4 * ns + 8 * nd) in * by lia.
  rewrite (finish_ok big_endian _ _ _ blob rest size used ns nd); [|done|done| |done|lia|done].
  2: { apply hdr_ok_splice; [done|lia|]. rewrite raw_lenZ. destruct Hh as [-> _ _ _ _]. lia. }
  fold blob. unfold read_image. fold blob. rewrite !advance_advance.
  replace (lenZ (stream writer size used ns nd sw ps blob)) with (16 + (4 * ns + 8 * nd + used)); [done|].
  unfold stream, prefix. rewrite !lenZ_app, !be_bytes_lenZ, !be_words_lenZ, flat_lenZ. lia.
Qed.
End image.

(** ** Claims *)

(** C13: what [nv_table_deserialize_newest] trusts.  Given a complete stream of
    its own byte order, it writes outside the block it allocated exactly when
    the stored sizes contradict each other: the header and the offset tables do
    not fit into the stored size, or the entries are longer than it.  Only a
    stored size of zero is refused. *)
Theorem nv_table_deserialize_bounds (big_endian : bool) (junk : nat -> Z) (size used ns nd : Z) (sw : list Z)
  (ps : list (Z * Z)) (blob rest : bytes)
  (Hs : 0 <= size < 2 ^ 32) (Hu : lenZ blob = used /\ used < 2 ^ 32) (Hns : lenZ sw = ns /\ ns < 2 ^ 8)
  (Hnd : lenZ ps = nd /\ nd < 2 ^ 16) (Hsw : Forall (fun v => 0 <= v < 2 ^ 32) sw) (Hps : Forall u32_pair ps)
  (Hl : lenZ (stream big_endian size used ns nd sw ps blob ++ rest) < 2 ^ 63) :
  let r := nv_table_deserialize_newest big_endian junk
             (serialize_string_archive_new (stream big_endian size used ns nd sw ps blob ++ rest)) in
  (r = Abort <-> size <> 0 /\ ~ (12 + 4 * ns + 8 * nd <= size /\ used <= size)) /\
  (size = 0 -> exists sa, r = Ret (None, sa)).
Proof.
  intros r. set (a := serialize_string_archive_new _) in r.
  destruct Hu as [Hbl Hu], Hns as [Hsl Hns], Hnd as [Hpl Hnd].
  pose proof (lenZ_nonneg blob). pose proof (lenZ_nonneg sw). pose proof (lenZ_nonneg ps).
  assert (Ha : archive_wf a) by (by apply string_archive_wf).
  assert (Hd : drop (Z.to_nat (ar_pos a)) (ar_data a) = prefix big_endian ++ be_bytes 4 size ++ be_bytes 4 used ++
    be_bytes 2 nd ++ be_bytes 1 ns ++ (be_words sw ++ be_words (flat ps) ++ blob ++ rest)).
  { transitivity (stream big_endian size used ns nd sw ps blob ++ rest); [done|]. unfold stream. by rewrite <- !app_assoc. }
  destruct (deserialize_hdr big_endian junk big_endian a size used ns nd _ Ha eq_refl Hs ltac:(lia) ltac:(lia) ltac:(lia) Hd)
    as (A1 & D1 & Hr). fold r in Hr. rewrite Hr.
  destruct (Z.eq_dec size 0) as [->|Hz]; [rewrite bool_decide_eq_true_2 by done; split; [split; [done|by intros [? _]]|by eexists]|].
  rewrite bool_decide_eq_false_2 by done. split; [|done].
  destruct (Z.lt_ge_cases size 12) as [Hlt|Hge].
  { rewrite small_block_abort by lia. cbn [obind]. split; [intros _; split; [done|lia]|done]. }
  rewrite <- obind_assoc, set_flags by (unfold block; rewrite g_realloc_lenZ; lia). cbn [obind].
  destruct (block_hdr big_endian junk size used ns nd ltac:(lia) ltac:(lia) ltac:(lia) ltac:(lia)) as [Hh _].
  destruct (Z.le_gt_cases (12 + 4 * ns + 8 * nd) size) as [Hle|Hgt].
  2: { erewrite read_struct_abort by (done || lia). split; [intros _; split; [done|lia]|done]. }
  erewrite read_struct_ok by (done || lia). cbn [obind].
  rewrite app_assoc, <- be_words_app in D1. destruct (advance_at _ _ _ A1 D1) as [A2 D2].
  rewrite be_words_lenZ, lenZ_app, flat_lenZ in A2, D2. replace (4 * (lenZ sw + 2 * lenZ ps)) with (4 * ns + 8 * nd) in * by lia.
  assert (Hh' : hdr_ok big_endian (splice (splice (block big_endian junk size used ns nd) 11 [ref_byte big_endian]) 12
    (raw big_endian (sw ++ flat ps))) size used ns nd).
  { apply hdr_ok_splice; [done|lia|]. rewrite raw_lenZ, lenZ_app, flat_lenZ. destruct Hh as [-> _ _ _ _]. lia. }
  destruct (Z.le_gt_cases used size) as [Hle2|Hgt2].
  - erewrite finish_ok by (done || lia). rewrite eqb_reflx. cbn [negb]. split; [done|lia].
  - erewrite finish_abort by (done || lia). split; [intros _; split; [done|lia]|done].
Qed.

Lemma nv_table_deserialize_bounds_witness :
  let r := nv_table_deserialize_newest false (fun _ => 0)
             (serialize_string_archive_new (stream false 32 40 1 0 [0] [] (replicate 40 7) ++ [])) in
  (r = Abort <-> 32 <> 0 /\ ~ (12 + 4 * 1 + 8 * 0 <= 32 /\ 40 <= 32)) /\ r = Abort.
Proof.
  intros r. split; [|by vm_compute].
  apply (nv_table_deserialize_bounds false (fun _ => 0) 32 40 1 0 [0] [] (replicate 40 7) []);
    [done|done|done|done|by repeat constructor|constructor|done].
Defined.

(** C11: a stored table comes back: writing a consistent table and reading it
    on a host of the same byte order gives a block with the same sizes and
    counts, the same offset tables and the same entries byte for byte, owned by
    one reference; everything written is consumed and nothing more. *)
Theorem nv_table_serialize_roundtrip (big_endian : bool) (junk : nat -> Z) (mem rest : bytes) (used ns nd : Z)
  (Him : image_ok big_endian mem used ns nd) (Hr : lenZ rest < 2 ^ 62) :
  exists sa mem',
    nv_table_serialize big_endian (serialize_string_archive_new []) mem = Ret (true, sa) /\ ar_error sa = false /\
    nv_table_deserialize_newest big_endian junk (serialize_string_archive_new (ar_data sa ++ rest)) =
      Ret (Some mem', advance (serialize_string_archive_new (ar_data sa ++ rest)) (lenZ (ar_data sa))) /\
    hdr_ok big_endian mem' (lenZ mem) used ns nd /\ slice mem' 11 1 = [ref_byte big_endian] /\
    slice mem' 12 (4 * ns + 8 * nd) = slice mem 12 (4 * ns + 8 * nd) /\
    slice mem' (lenZ mem - used) used = slice mem (lenZ mem - used) used.
Proof.
  pose proof (image_ranges _ _ _ _ _ Him) as (R1 & R2 & R3 & R4). pose proof (im_parts _ _ _ _ _ Him). pose proof (im_max _ _ _ _ _ Him).
  pose proof (table_items_valid _ _ _ _ _ Him) as Hval. pose proof (table_items_lenZ _ _ _ _ _ Him) as Hlen.
  set (l := table_items big_endian mem used ns nd) in *.
  exists (mkArchive StringArchive (items_enc l) 0 false), (read_image big_endian big_endian junk mem used ns nd).
  split. { rewrite (nv_table_serialize_items _ _ _ _ _ _ Him). fold l. by rewrite (write_items_string _ _ Hval) by lia. }
  split; [done|]. cbn [ar_data]. split.
  { pose proof (lenZ_nonneg rest). rewrite (deserialize_image big_endian big_endian junk mem used ns nd Him) by (fold l; rewrite lenZ_app; lia).
    by rewrite eqb_reflx. }
  destruct (read_image_facts big_endian big_endian junk mem used ns nd Him) as (F1 & F2 & F3 & F4).
  split; [done|]. split; [done|]. split; [|done]. rewrite F3, raw_words; [f_equal; lia|apply Him|lia|lia].
Qed.

(** A table of 48 bytes with one static value and one pair. *)
Definition demo_image : bytes :=
  [48; 0; 0; 0; 16; 0; 0; 0; 1; 0; 1; 1; 16; 0; 0; 0; 2; 1; 0; 0; 0; 0; 0; 0] ++ replicate 8 0xee ++
  [0; 0; 0; 0; 16; 0; 0; 0; 1; 0; 0; 0; 0; 65; 0; 0].

Lemma demo_image_ok : image_ok false demo_image 16 1 1.
Proof. split; [by split|vm_compute; repeat constructor; done|done|done]. Qed.

Lemma nv_table_serialize_roundtrip_witness : exists sa mem',
  nv_table_serialize false (serialize_string_archive_new []) demo_image = Ret (true, sa) /\
  fst <$> (match nv_table_deserialize_newest false (fun _ => 0xcc) (serialize_string_archive_new (ar_data sa ++ [5])) with
           | Ret x => Some x | Abort => None end) = Some (Some mem') /\
  slice mem' 32 16 = slice demo_image 32 16.
Proof.
  destruct (nv_table_serialize_roundtrip false (fun _ => 0xcc) demo_image [5] 16 1 1 demo_image_ok eq_refl)
    as (sa & mem' & H1 & _ & H3 & _ & _ & _ & H7).
  exists sa, mem'. split; [exact H1|]. split; [by rewrite H3|exact H7].
Defined.
