(* ===== verification/NVTableSerializeSwap.v ===== *)
(** * Reading a table stored by a host of the other byte order *)
From S2P Require Import Prelude Serialize NVTableSerialize NVTableSerializeInv NVTableSerializeClaims.

(** ** What an entry says, as a host of the given byte order reads it *)

Definition hv (b : bool) (mem : bytes) (ofs : Z) : Z := host_value b (slice mem ofs 4).
Definition entry_flags (mem : bytes) (p : Z) : Z := hd 0 (slice mem p 1).
Definition entry_referenced (b : bool) (flags : Z) : bool := if b then Z.testbit flags 6 else Z.testbit flags 1.
Definition alloc_len (b : bool) (mem : bytes) (p : Z) : Z := hv b mem (p + 4).
Definition hdr_len (indirect : bool) : Z := if indirect then 20 else 12.

Record entry_view := mkView {
  v_indirect : bool;
  v_referenced : bool;
  v_name_len : bytes;      (* with the padding behind it *)
  v_alloc_len : Z;
  v_fields : list Z;       (* value_len; or handle, ofs, len *)
  v_data : bytes
}.

Definition view (b : bool) (mem : bytes) (p : Z) : entry_view :=
  let f := entry_flags mem p in
  let ind := entry_indirect b f in
  mkView ind (entry_referenced b f) (slice mem (p + 1) 3) (alloc_len b mem p)
    (if ind then [hv b mem (p + 8); hv b mem (p + 12); hv b mem (p + 16)] else [hv b mem (p + 8)])
    (slice mem (p + hdr_len ind) (alloc_len b mem p - hdr_len ind)).

(** The entry at [p] lies inside the block. *)
Definition entry_in (b : bool) (mem : bytes) (p : Z) : Prop :=
  0 <= p /\ hdr_len (entry_indirect b (entry_flags mem p)) <= alloc_len b mem p /\ p + alloc_len b mem p <= lenZ mem.

Definition apart (b : bool) (mem : bytes) (p q : Z) : Prop :=
  p + alloc_len b mem p <= q \/ q + alloc_len b mem q <= p.

(** ** Bytes and bits *)

Lemma swap32_host (b : bool) (x : bytes) : Forall is_byte x -> length x = 4%nat -> swap32 (host_value b x) = host_value (negb b) x.
Proof.
  intros Hx Hl. unfold swap32, host_value. destruct b; cbn [negb].
  - rewrite <- Hl, be_bytes_value by done. done.
  - rewrite <- Hl, <- (length_rev x), be_bytes_value by (by apply Forall_rev). by rewrite rev_involutive.
Qed.

Lemma host_value_rev (b : bool) (x : bytes) : host_value b (rev x) = host_value (negb b) x.
Proof. unfold host_value. destruct b; simpl; by rewrite ?rev_involutive. Qed.

Lemma all_bytes (P : Z -> bool) : forallb P (Z.of_nat <$> seq 0 256) = true -> forall f, is_byte f -> P f = true.
Proof.
  intros H f Hf. rewrite List.forallb_forall in H. apply H. unfold is_byte in Hf.
  apply list_elem_of_In, list_elem_of_fmap. exists (Z.to_nat f). split; [lia|]. apply elem_of_seq. lia.
Qed.

Lemma reverse_bits (b : bool) (f : Z) : is_byte f ->
  entry_indirect b (reverse f) = entry_indirect (negb b) f /\ entry_referenced b (reverse f) = entry_referenced (negb b) f /\
  is_byte (reverse f).
Proof.
  intros Hf.
  pose proof (all_bytes (fun f => eqb (entry_indirect b (reverse f)) (entry_indirect (negb b) f)) ltac:(by destruct b; vm_compute) f Hf) as H1.
  pose proof (all_bytes (fun f => eqb (entry_referenced b (reverse f)) (entry_referenced (negb b) f)) ltac:(by destruct b; vm_compute) f Hf) as H2.
  pose proof (all_bytes (fun f => (0 <=? reverse f) && (reverse f <? 256))%Z ltac:(by vm_compute) f Hf) as H3.
  apply eqb_prop in H1, H2. apply andb_true_iff in H3 as [H3 H4]. apply Z.leb_le in H3. apply Z.ltb_lt in H4. by split_and!.
Qed.

(** ** Parts of a region *)

Lemma slice_slice (mem : bytes) (p A k n : Z) : 0 <= p -> 0 <= k -> 0 <= n -> k + n <= A ->
  slice mem (p + k) n = slice (slice mem p A) k n.
Proof.
  intros. unfold slice. rewrite skipn_firstn_comm, take_take, drop_drop. f_equal; [lia|]. f_equal. lia.
Qed.

Lemma slice_part (m m' : bytes) (p A k n : Z) : slice m p A = slice m' p A -> 0 <= p -> 0 <= k -> 0 <= n -> k + n <= A ->
  slice m (p + k) n = slice m' (p + k) n.
Proof. intros H ? ? ? ?. rewrite !(slice_slice _ p A k n) by done. by rewrite H. Qed.

(** An entry is determined by its own region. *)
Lemma view_local (b : bool) (m m' : bytes) (p : Z) : entry_in b m p ->
  slice m p (alloc_len b m p) = slice m' p (alloc_len b m p) ->
  alloc_len b m' p = alloc_len b m p /\ entry_flags m' p = entry_flags m p /\ view b m' p = view b m p.
Proof.
  intros (Hp & Hh & _) Hs. set (A := alloc_len b m p) in *.
  assert (Hh12 : 12 <= A) by (unfold hdr_len in Hh; destruct (entry_indirect _ _); lia).
  assert (Hx : forall k n, 0 <= k -> 0 <= n -> k + n <= A -> slice m' (p + k) n = slice m (p + k) n)
    by (intros; symmetry; by eapply slice_part).
  assert (Hf : entry_flags m' p = entry_flags m p).
  { unfold entry_flags. pose proof (Hx 0 1 ltac:(lia) ltac:(lia) ltac:(lia)) as H0. rewrite Z.add_0_r in H0. by rewrite H0. }
  assert (Ha : alloc_len b m' p = A) by (unfold A, alloc_len, hv; rewrite Hx by lia; done).
  split; [done|]. split; [done|]. unfold view, hv. rewrite Hf, Ha. fold A. unfold hdr_len in *.
  destruct (entry_indirect b (entry_flags m p)); by rewrite !Hx by lia.
Qed.

(** ** One entry *)

Section reader.
Context (big_endian : bool).
Let writer := negb big_endian.

Lemma splice_bytes (mem b : bytes) (ofs : Z) : Forall is_byte mem -> Forall is_byte b -> Forall is_byte (splice mem ofs b).
Proof. intros. unfold splice. rewrite !Forall_app. split_and!; [by apply Forall_take|done|by apply Forall_drop]. Qed.

(** Outside the bytes written. *)
Lemma splice_out (mem : bytes) (ofs : Z) (b : bytes) (q n : Z) : 0 <= q -> 0 <= n -> 0 <= ofs -> ofs + lenZ b <= lenZ mem ->
  q + n <= ofs \/ ofs + lenZ b <= q -> slice (splice mem ofs b) q n = slice mem q n.
Proof. intros ? ? ? ? [?|?]; [by apply splice_before|by apply splice_after]. Qed.

(** A field is turned round in place. *)
Lemma swap_field_ok (mem : bytes) (ofs : Z) : Forall is_byte mem -> 0 <= ofs -> ofs + 4 <= lenZ mem ->
  exists mem', swap_field big_endian mem ofs = Ret mem' /\ lenZ mem' = lenZ mem /\ Forall is_byte mem' /\
    slice mem' ofs 4 = rev (slice mem ofs 4) /\
    (forall q n, 0 <= q -> 0 <= n -> q + n <= ofs \/ ofs + 4 <= q -> slice mem' q n = slice mem q n).
Proof.
  intros Hb Ho Hl. assert (Hs : length (slice mem ofs 4) = 4%nat).
  { pose proof (slice_length mem ofs 4 ltac:(lia) ltac:(lia) ltac:(lia)) as H. unfold lenZ in H. lia. }
  pose proof (slice_bytes mem ofs 4 Hb) as Hsb.
  assert (Hw : host_bytes big_endian 4 (swap32 (host_value big_endian (slice mem ofs 4))) = rev (slice mem ofs 4)).
  { rewrite swap32_host by done. rewrite <- host_value_rev. rewrite <- Hs, <- length_rev at 1.
    apply host_bytes_value. by apply Forall_rev. }
  assert (Hr : lenZ (rev (slice mem ofs 4)) = 4) by (unfold lenZ; rewrite length_rev; lia).
  exists (splice mem ofs (rev (slice mem ofs 4))).
  split; [unfold swap_field; rewrite loadn_ok by (simpl; lia); cbn [obind]; rewrite storen_ok by (simpl; lia); change (Z.of_nat 4) with 4; by rewrite Hw|].
  split; [apply splice_lenZ; lia|]. split; [apply splice_bytes; [done|by apply Forall_rev]|]. split.
  - by apply splice_same'.
  - intros q n Hq Hn Hd. apply splice_out; lia.
Qed.

Lemma swap_flags_ok (mem : bytes) (p : Z) : Forall is_byte mem -> 0 <= p -> p + 1 <= lenZ mem ->
  loadn big_endian mem p 1 = Ret (entry_flags mem p) /\ is_byte (entry_flags mem p) /\
  exists mem', storen big_endian mem p 1 (reverse (entry_flags mem p)) = Ret mem' /\ lenZ mem' = lenZ mem /\
    Forall is_byte mem' /\ entry_flags mem' p = reverse (entry_flags mem p) /\
    (forall q n, 0 <= q -> 0 <= n -> q + n <= p \/ p + 1 <= q -> slice mem' q n = slice mem q n).
Proof.
  intros Hb Hp Hl. pose proof (slice_length mem p 1 ltac:(lia) ltac:(lia) ltac:(lia)) as Hs.
  pose proof (slice_bytes mem p 1 Hb) as Hsb. unfold entry_flags.
  rewrite loadn_ok by (simpl; lia). change (Z.of_nat 1) with 1.
  destruct (slice mem p 1) as [|f [|g l]]; [done| |unfold lenZ in Hs; simpl in Hs; lia].
  inversion Hsb as [|? ? Hf _]; subst. cbn [hd].
  assert (Hv : host_value big_endian [f] = f).
  { unfold host_value. change (rev [f]) with [f]. change (be_value [f]) with (f * 1 + 0). destruct big_endian; lia. }
  destruct (reverse_bits big_endian f Hf) as (_ & _ & Hrf).
  assert (Hw : host_bytes big_endian 1 (reverse f) = [reverse f]).
  { unfold host_bytes. change (be_bytes 1 (reverse f)) with [reverse f / 1 mod 256].
    rewrite Z.div_1_r, Z.mod_small by (unfold is_byte in Hrf; lia). by destruct big_endian. }
  rewrite Hv. split; [done|]. split; [done|]. exists (splice mem p [reverse f]).
  change (lenZ [reverse f]) with 1 in *. split; [rewrite storen_ok by (simpl; lia); by rewrite Hw|].
  split; [apply splice_lenZ; change (lenZ [reverse f]) with 1; lia|]. split; [by apply splice_bytes; [|constructor]|]. split.
  - by rewrite splice_same'.
  - intros q n Hq Hn Hd. apply splice_out; change (lenZ [reverse f]) with 1; lia.
Qed.

(** The entry reads on this host as it did on the writer's; nothing else
    changed. *)
Lemma nv_entry_swap_ok (mem : bytes) (p : Z) : Forall is_byte mem -> entry_in writer mem p ->
  exists mem', nv_entry_swap_bytes big_endian mem p = Ret mem' /\ lenZ mem' = lenZ mem /\ Forall is_byte mem' /\
    view big_endian mem' p = view writer mem p /\
    (forall q n, 0 <= q -> 0 <= n -> q + n <= p \/ p + alloc_len writer mem p <= q -> slice mem' q n = slice mem q n).
Proof.
  intros Hb (Hp & Hh & Hl). set (A := alloc_len writer mem p) in *. unfold hdr_len in Hh.
  destruct (swap_flags_ok mem p Hb Hp) as (L0 & F0 & m1 & S1 & L1 & B1 & V1 & O1); [destruct (entry_indirect _ _); lia|].
  destruct (reverse_bits big_endian (entry_flags mem p) F0) as (RI & RR & _). fold writer in RI, RR.
  destruct (swap_field_ok m1 (p + 4) B1) as (m2 & S2 & L2 & B2 & V2 & O2); [lia|destruct (entry_indirect _ _); lia|].
  destruct (swap_field_ok m2 (p + 8) B2) as (m3 & S3 & L3 & B3 & V3 & O3); [lia|destruct (entry_indirect _ _); lia|].
  unfold nv_entry_swap_bytes. rewrite L0. cbn [obind]. rewrite S1. cbn [obind]. rewrite S2. cbn [obind]. rewrite S3, RI.
  assert (Hflags : forall m, slice m p 1 = slice m1 p 1 -> entry_flags m p = reverse (entry_flags mem p))
    by (intros m Hm; rewrite <- V1; unfold entry_flags; by rewrite Hm).
  unfold view, alloc_len in *. destruct (entry_indirect writer (entry_flags mem p)) eqn:Ei; cbn [negb obind].
  - destruct (swap_field_ok m3 (p + 12) B3) as (m4 & S4 & L4 & B4 & V4 & O4); [lia|lia|].
    destruct (swap_field_ok m4 (p + 16) B4) as (m5 & S5 & L5 & B5 & V5 & O5); [lia|lia|].
    rewrite S4. cbn [obind]. exists m5. split; [done|]. split; [lia|]. split; [done|]. split.
    + rewrite (Hflags m5) by (rewrite O5, O4, O3, O2 by lia; done). rewrite RI, RR. unfold hv in *. fold A.
      assert (E4 : slice m5 (p + 4) 4 = rev (slice mem (p + 4) 4)) by (rewrite O5, O4, O3, V2, O1 by lia; done).
      assert (E8 : slice m5 (p + 8) 4 = rev (slice mem (p + 8) 4)) by (rewrite O5, O4, V3, O2, O1 by lia; done).
      assert (E12 : slice m5 (p + 12) 4 = rev (slice mem (p + 12) 4)) by (rewrite O5, V4, O3, O2, O1 by lia; done).
      assert (E16 : slice m5 (p + 16) 4 = rev (slice mem (p + 16) 4)) by (rewrite V5, O4, O3, O2, O1 by lia; done).
      rewrite E4, E8, E12, E16, !host_value_rev. fold writer. fold A. unfold hdr_len.
      rewrite !O5, !O4, !O3, !O2, !O1 by lia. done.
    + intros q n Hq Hn Hd. rewrite O5, O4, O3, O2, O1 by lia. done.
  - exists m3. split; [done|]. split; [lia|]. split; [done|]. split.
    + rewrite (Hflags m3) by (rewrite O3, O2 by lia; done). rewrite RI, RR. unfold hv in *. fold A.
      assert (E4 : slice m3 (p + 4) 4 = rev (slice mem (p + 4) 4)) by (rewrite O3, V2, O1 by lia; done).
      assert (E8 : slice m3 (p + 8) 4 = rev (slice mem (p + 8) 4)) by (rewrite V3, O2, O1 by lia; done).
      rewrite E4, E8, !host_value_rev. fold writer. fold A. unfold hdr_len.
      rewrite !O3, !O2, !O1 by lia. done.
    + intros q n Hq Hn Hd. rewrite O3, O2, O1 by lia. done.
Qed.

(** ** All entries of a table *)

Fixpoint swap_all (ps : list Z) (mem : bytes) : outcome bytes :=
  match ps with
  | [] => Ret mem
  | p :: ps => let! mem := nv_entry_swap_bytes big_endian mem p in swap_all ps mem
  end.

Lemma swap_all_app (ps qs : list Z) (mem : bytes) : swap_all (ps ++ qs) mem = let! m := swap_all ps mem in swap_all qs m.
Proof.
  revert mem. induction ps as [|p ps IH]; intros mem; [done|]. cbn [app swap_all].
  destruct (nv_entry_swap_bytes big_endian mem p) as [m|]; [|done]. cbn [obind]. apply IH.
Qed.

Record entries_ok (mem : bytes) (ps : list Z) : Prop := {
  eo_bytes : Forall is_byte mem;
  eo_in : Forall (entry_in writer mem) ps;
  eo_apart : List.ForallOrdPairs (apart writer mem) ps
}.

(** Entries of a memory that agrees on their regions. *)
Lemma entries_ok_local (m m' : bytes) (ps : list Z) : entries_ok m ps -> Forall is_byte m' -> lenZ m' = lenZ m ->
  (forall p, p ∈ ps -> slice m p (alloc_len writer m p) = slice m' p (alloc_len writer m p)) -> entries_ok m' ps.
Proof.
  intros [Hb Hi Ha] Hb' Hl Hs. rewrite Forall_forall in Hi.
  assert (Hv : forall p, p ∈ ps -> alloc_len writer m' p = alloc_len writer m p /\ entry_flags m' p = entry_flags m p)
    by (intros p Hp; destruct (view_local writer m m' p (Hi p Hp) (Hs p Hp)) as (? & ? & _); done).
  split; [done|..].
  - apply Forall_forall. intros p Hp. destruct (Hi p Hp) as (I1 & I2 & I3). destruct (Hv p Hp) as [E1 E2].
    unfold entry_in. rewrite E1, E2, Hl. done.
  - clear Hi Hs. induction Ha as [|p ps Hp Ha IH]; [constructor|].
    constructor; [|apply IH; intros q Hq; apply Hv, elem_of_cons; auto].
    rewrite List.Forall_forall in *. intros q Hq. specialize (Hp q Hq). apply list_elem_of_In in Hq.
    unfold apart in *. destruct (Hv p) as [-> _]; [apply elem_of_cons; auto|]. destruct (Hv q) as [-> _]; [apply elem_of_cons; auto|]. done.
Qed.

Lemma swap_all_ok (ps : list Z) (mem : bytes) : entries_ok mem ps ->
  exists mem', swap_all ps mem = Ret mem' /\ lenZ mem' = lenZ mem /\ Forall is_byte mem' /\
    (forall p, p ∈ ps -> view big_endian mem' p = view writer mem p) /\
    (forall q n, 0 <= q -> 0 <= n -> (forall p, p ∈ ps -> q + n <= p \/ p + alloc_len writer mem p <= q) ->
       slice mem' q n = slice mem q n).
Proof.
  revert mem. induction ps as [|p ps IH]; intros mem Hok.
  { exists mem. destruct Hok. split_and!; [done..|by intros p Hp%elem_of_nil|done]. }
  pose proof Hok as [Hb Hi Ha]. inversion Hi as [|? ? Hip Hir]; subst. inversion Ha as [|? ? Hap Har]; subst.
  destruct (nv_entry_swap_ok mem p Hb Hip) as (m1 & S1 & L1 & B1 & V1 & O1). cbn [swap_all]. rewrite S1. cbn [obind].
  rewrite List.Forall_forall in Hap. rewrite Forall_forall in Hir.
  assert (Hdis : forall q, q ∈ ps -> slice mem q (alloc_len writer mem q) = slice m1 q (alloc_len writer mem q)).
  { intros q Hq. pose proof (Hir q Hq) as (I1 & I2 & I3). symmetry. apply O1; [done| |].
    - unfold hdr_len in I2. destruct (entry_indirect _ _); lia.
    - destruct (Hap q) as [H|H]; [by apply list_elem_of_In|lia|lia]. }
  destruct (IH m1) as (m2 & S2 & L2 & B2 & V2 & O2).
  { apply (entries_ok_local mem); [|done|done|done]. split; [done|by apply Forall_forall|done]. }
  assert (Hal : forall q, q ∈ ps -> alloc_len writer m1 q = alloc_len writer mem q /\ view writer m1 q = view writer mem q)
    by (intros q Hq; destruct (view_local writer mem m1 q (Hir q Hq) (Hdis q Hq)) as (? & _ & ?); done).
  exists m2. split; [done|]. split; [lia|]. split; [done|]. split.
  - intros q [->|Hq]%elem_of_cons; [|rewrite V2 by done; by apply Hal].
    rewrite <- V1. destruct Hip as (I1 & I2 & I3).
    assert (Hv : alloc_len big_endian m1 p = alloc_len writer mem p /\ entry_indirect big_endian (entry_flags m1 p) = entry_indirect writer (entry_flags mem p))
      by (split; [by injection V1|by injection V1]).
    destruct Hv as [Hv1 Hv2]. apply view_local.
    + unfold entry_in. rewrite Hv1, Hv2, L1. done.
    + rewrite Hv1. symmetry. apply O2; [done|unfold hdr_len in I2; destruct (entry_indirect _ _); lia|].
      intros q Hq. destruct (Hal q Hq) as [-> _]. destruct (Hap q) as [H|H]; [by apply list_elem_of_In|lia|lia].
  - intros q n Hq Hn Hd. rewrite O2.
    + apply O1; [done|done|]. apply Hd, elem_of_cons. auto.
    + done.
    + done.
    + intros x Hx. destruct (Hal x Hx) as [-> _]. apply Hd, elem_of_cons. auto.
Qed.

(** Addresses of the entries behind a list of offsets. *)
Definition positions (size : Z) (offs : list Z) : list Z :=
  (fun o => size - o) <$> filter (fun o => o <> 0) offs.

Lemma positions_app (size : Z) (l k : list Z) : positions size (l ++ k) = positions size l ++ positions size k.
Proof. unfold positions. by rewrite filter_app, fmap_app. Qed.

(** A block whose header and offset tables, in front of [top], are those of
    [m0]. *)
Record head_like (m0 m : bytes) (top : Z) : Prop := {
  hl_len : lenZ m = lenZ m0;
  hl_head : slice m 0 top = slice m0 0 top
}.

Lemma head_like_loadn (m0 m : bytes) (top ofs : Z) (n : nat) (v : Z) : head_like m0 m top ->
  loadn big_endian m0 ofs n = Ret v -> ofs + Z.of_nat n <= top -> loadn big_endian m ofs n = Ret v.
Proof.
  intros [Hl Hh] H Ht. apply loadn_in_bounds in H as (H1 & H2 & ->). rewrite loadn_ok by lia. do 2 f_equal.
  apply (slice_part m m0 0 top ofs (Z.of_nat n)); [done|lia..].
Qed.

Lemma swap_slots_all (m0 : bytes) (size used ns nd top base stride : Z) (count : bytes -> outcome Z) (n : Z) :
  hdr_ok big_endian m0 size used ns nd -> 11 <= top ->
  (forall m, head_like m0 m top -> count m = Ret n) ->
  forall offs fuel i m, head_like m0 m top -> entries_ok m (positions size offs) ->
  Forall (fun p => top <= p) (positions size offs) -> lenZ offs = n - i -> n - i <= Z.of_nat fuel ->
  (forall k o, offs !! k = Some o -> loadn big_endian m0 (base + stride * (i + Z.of_nat k)) 4 = Ret o /\
     base + stride * (i + Z.of_nat k) + 4 <= top) ->
  swap_slots big_endian fuel count i base stride m = swap_all (positions size offs) m.
Proof.
  intros Hh Htop Hc offs. induction offs as [|o offs IH]; intros fuel i m Hm Hok Hp Hlen Hf Hs.
  { change (lenZ []) with 0 in Hlen. destruct fuel as [|fuel]; [done|]. cbn [swap_slots]. rewrite Hc by done. cbn [obind].
    by rewrite bool_decide_eq_false_2 by lia. }
  rewrite lenZ_cons in Hlen. pose proof (lenZ_nonneg offs). destruct fuel as [|fuel]; [lia|].
  cbn [swap_slots]. rewrite Hc by done. cbn [obind]. rewrite bool_decide_eq_true_2 by lia.
  destruct (Hs O o eq_refl) as [Ho Hot]. rewrite Z.add_0_r in Ho, Hot.
  unfold swap_slot, get_size. rewrite (head_like_loadn m0 m top 0 4 size Hm (ho_size _ _ _ _ _ _ Hh) ltac:(simpl; lia)).
  cbn [obind]. rewrite (head_like_loadn m0 m top _ 4 o Hm Ho ltac:(simpl; lia)). cbn [obind].
  assert (Hs' : forall k o', offs !! k = Some o' -> loadn big_endian m0 (base + stride * (i + 1 + Z.of_nat k)) 4 = Ret o' /\
     base + stride * (i + 1 + Z.of_nat k) + 4 <= top).
  { intros k o' Hk. specialize (Hs (S k) o' Hk). by replace (i + Z.of_nat (S k)) with (i + 1 + Z.of_nat k) in Hs by lia. }
  unfold positions in *. rewrite filter_cons in *. destruct (decide (o <> 0)) as [Hz|Hz].
  - rewrite bool_decide_eq_false_2 by done. rewrite fmap_cons in *. cbn [swap_all].
    pose proof Hok as [Hb Hi Ha]. inversion Hi as [|? ? Hip Hir]; subst. inversion Ha as [|? ? Hap Har]; subst.
    inversion Hp as [|? ? Hpp Hpr]; subst. set (p := size - o) in *. set (ps := _ <$> _) in *.
    destruct (nv_entry_swap_ok m p Hb Hip) as (m1 & S1 & L1 & B1 & V1 & O1). rewrite S1. cbn [obind].
    apply IH; [| |done|lia|lia|done].
    + destruct Hm as [Hml Hmh]. split; [lia|]. rewrite O1 by lia. done.
    + apply (entries_ok_local m); [by split|done|done|]. intros q Hq. rewrite Forall_forall in Hir.
      pose proof (Hir q Hq) as (I1 & I2 & I3). rewrite List.Forall_forall in Hap. symmetry. apply O1; [done| |].
      * unfold hdr_len in I2. destruct (entry_indirect _ _); lia.
      * destruct (Hap q) as [Hq'|Hq']; [by apply list_elem_of_In|lia|lia].
  - apply dec_stable in Hz. subst o. rewrite bool_decide_eq_true_2 by done. cbn [obind]. apply IH; [done|done|done|lia|lia|done].
Qed.

(** The offsets stored in a table. *)
Definition offs_at (b : bool) (m : bytes) (base stride n : Z) : list Z :=
  (fun k => hv b m (base + stride * k)) <$> seqZ 0 n.

Definition all_offsets (b : bool) (m : bytes) (ns nd : Z) : list Z :=
  offs_at b m 12 4 ns ++ offs_at b m (12 + 4 * ns + 4) 8 nd.

Lemma offs_at_lenZ (b : bool) (m : bytes) (base stride n : Z) : 0 <= n -> lenZ (offs_at b m base stride n) = n.
Proof. intros. unfold offs_at, lenZ. rewrite length_fmap, length_seqZ. lia. Qed.

Lemma offs_at_lookup (b : bool) (m : bytes) (base stride n : Z) (k : nat) (o : Z) : offs_at b m base stride n !! k = Some o ->
  Z.of_nat k < n /\ o = hv b m (base + stride * Z.of_nat k).
Proof.
  unfold offs_at. rewrite list_lookup_fmap, fmap_Some. intros (x & Hx & ->). apply lookup_seqZ in Hx as [-> Hk]. auto.
Qed.

Lemma entries_ok_app (m : bytes) (ps qs : list Z) : entries_ok m (ps ++ qs) ->
  entries_ok m ps /\ entries_ok m qs /\ (forall p q, p ∈ ps -> q ∈ qs -> apart writer m p q).
Proof.
  intros [Hb Hi Ha]. apply Forall_app in Hi as [Hi1 Hi2].
  assert (H : List.ForallOrdPairs (apart writer m) ps /\ List.ForallOrdPairs (apart writer m) qs /\
            (forall p q, p ∈ ps -> q ∈ qs -> apart writer m p q)).
  { clear Hi1. induction ps as [|p ps IH]; [split; [constructor|]; split; [done|by intros p q Hp%elem_of_nil]|].
    inversion Ha as [|? ? Hp Hr]; subst. destruct (IH Hr) as (I1 & I2 & I3). rewrite List.Forall_forall in Hp.
    split; [constructor; [|done]|split; [done|]].
    - apply List.Forall_forall. intros q Hq. apply Hp. apply in_or_app. auto.
    - intros x q [->|Hx]%elem_of_cons Hq; [|by apply I3]. apply Hp. apply in_or_app. right. by apply list_elem_of_In. }
  destruct H as (H1 & H2 & H3). by split_and!.
Qed.

Lemma data_swap_all (m0 : bytes) (size used ns nd : Z) : hdr_ok big_endian m0 size used ns nd -> 0 <= ns < 2 ^ 8 -> 0 <= nd < 2 ^ 16 ->
  12 + 4 * ns + 8 * nd <= size -> let ps := positions size (all_offsets big_endian m0 ns nd) in
  entries_ok m0 ps -> Forall (fun p => 12 + 4 * ns + 8 * nd <= p) ps ->
  nv_table_data_swap_bytes big_endian m0 = swap_all ps m0.
Proof.
  intros Hh Hns Hnd Ht ps Hok Hp. set (top := 12 + 4 * ns + 8 * nd) in *. pose proof (ho_len _ _ _ _ _ _ Hh) as HL.
  unfold ps, all_offsets in *. rewrite positions_app in *. set (l := positions size (offs_at big_endian m0 12 4 ns)) in *.
  set (k := positions size (offs_at big_endian m0 (12 + 4 * ns + 4) 8 nd)) in *.
  apply entries_ok_app in Hok as (Hl & Hk & Hlk). apply Forall_app in Hp as [Hpl Hpk].
  assert (H0 : head_like m0 m0 top) by done.
  rewrite swap_all_app. unfold nv_table_data_swap_bytes.
  assert (S1 : swap_slots big_endian (Z.to_nat (2 ^ 8)) (get_num_static_entries big_endian) 0 (static_ofs 0) 4 m0 = swap_all l m0).
  { eapply (swap_slots_all m0 size used ns nd top (static_ofs 0) 4 _ ns Hh); [lia| |done|done|done|rewrite offs_at_lenZ; lia|lia|].
    - intros m Hm. apply (head_like_loadn m0 m top _ _ _ Hm (ho_ns _ _ _ _ _ _ Hh)). simpl. lia.
    - intros j o [Hj ->]%offs_at_lookup. unfold static_ofs. rewrite loadn_ok by (simpl; lia). split; [|lia].
      change (12 + 4 * 0) with 12. by rewrite Z.add_0_l. }
  rewrite S1. destruct (swap_all_ok l m0 Hl) as (m1 & -> & L1 & B1 & V1 & O1). cbn [obind].
  rewrite Forall_forall in Hpl. assert (H1 : head_like m0 m1 top).
  { split; [done|]. apply O1; [lia|lia|]. intros p Hpin. specialize (Hpl p Hpin). left. lia. }
  unfold get_num_static_entries. rewrite (head_like_loadn m0 m1 top _ _ _ H1 (ho_ns _ _ _ _ _ _ Hh)) by (simpl; lia). cbn [obind].
  eapply (swap_slots_all m0 size used ns nd top _ 8 _ nd Hh); [lia| |done| |done|rewrite offs_at_lenZ; lia|lia|].
  - intros m Hm. apply (head_like_loadn m0 m top _ _ _ Hm (ho_nd _ _ _ _ _ _ Hh)). simpl. lia.
  - apply (entries_ok_local m0); [done|done|done|]. intros q Hq. pose proof Hk as [_ Hki _]. rewrite Forall_forall in Hki.
    pose proof (Hki q Hq) as (I1 & I2 & I3). symmetry. apply O1; [done| |].
    + unfold hdr_len in I2. destruct (entry_indirect _ _); lia.
    + intros p Hpin. destruct (Hlk p q Hpin Hq); lia.
  - intros j o [Hj ->]%offs_at_lookup. unfold dyn_ofs. rewrite loadn_ok by (simpl; lia). split; [|lia].
    change (Z.of_nat 4) with 4. unfold hv. do 3 f_equal. lia.
Qed.
End reader.

(** ** The offsets of a table read back *)

Lemma words_lookup (b : bool) (n : nat) (ofs : Z) (mem : bytes) (k : nat) : (k < n)%nat ->
  words b n ofs mem !! k = Some (hv b mem (ofs + 4 * Z.of_nat k)).
Proof.
  revert ofs k. induction n as [|n IH]; intros ofs k Hk; [lia|]. destruct k as [|k]; cbn [words].
  - simpl. unfold hv. do 3 f_equal. lia.
  - cbn [lookup list_lookup]. change (words b n (ofs + 4) mem !! k = Some (hv b mem (ofs + 4 * Z.of_nat (S k)))).
    rewrite IH by lia. do 2 f_equal. lia.
Qed.

Lemma raw_slice (b : bool) (vs : list Z) (k : nat) (v : Z) : vs !! k = Some v ->
  slice (raw b vs) (4 * Z.of_nat k) 4 = host_bytes b 4 v.
Proof.
  revert k. induction vs as [|w vs IH]; intros k Hk; [done|]. change (raw b (w :: vs)) with (host_bytes b 4 w ++ raw b vs).
  unfold slice in *. destruct k as [|k]; simpl in Hk.
  - injection Hk as ->. change (Z.to_nat (4 * Z.of_nat 0)) with 0%nat. rewrite drop_0, take_app_length' by (by rewrite host_bytes_length). done.
  - rewrite drop_app_ge by (rewrite host_bytes_length; lia). rewrite host_bytes_length.
    replace (Z.to_nat (4 * Z.of_nat (S k)) - 4)%nat with (Z.to_nat (4 * Z.of_nat k)) by lia. by apply IH.
Qed.

Lemma read_image_offsets (writer big_endian : bool) (junk : nat -> Z) (mem : bytes) (used ns nd : Z) :
  image_ok writer mem used ns nd ->
  all_offsets big_endian (read_image writer big_endian junk mem used ns nd) ns nd = all_offsets writer mem ns nd.
Proof.
  intros Him. pose proof (image_ranges writer mem used ns nd Him) as (R1 & R2 & R3 & R4).
  destruct (read_image_facts writer big_endian junk mem used ns nd Him) as (_ & _ & Hs & _).
  set (m := read_image writer big_endian junk mem used ns nd) in *. set (vs := words writer _ 12 mem) in *.
  assert (Hw : forall k, 0 <= k < ns + 2 * nd -> hv big_endian m (12 + 4 * k) = hv writer mem (12 + 4 * k)).
  { intros k Hk. assert (Hv : vs !! Z.to_nat k = Some (hv writer mem (12 + 4 * k))).
    { unfold vs. rewrite words_lookup by lia. do 2 f_equal. lia. }
    unfold hv at 1. rewrite (slice_slice m 12 (4 * ns + 8 * nd)) by lia. rewrite Hs.
    replace (4 * k) with (4 * Z.of_nat (Z.to_nat k)) at 1 by lia. rewrite (raw_slice _ _ _ _ Hv). apply host_value_bytes.
    pose proof (words_range writer (Z.to_nat ns + 2 * Z.to_nat nd) 12 mem (im_bytes _ _ _ _ _ Him) ltac:(lia)) as Hr.
    destruct Him as [_ _ _ Hp]. specialize (Hr ltac:(lia)). fold vs in Hr. rewrite Forall_lookup in Hr. by apply (Hr _ _ Hv). }
  unfold all_offsets, offs_at. f_equal; apply list_fmap_ext; intros i x Hx; apply lookup_seqZ in Hx as [-> Hx].
  - apply Hw. lia.
  - replace (12 + 4 * ns + 4 + 8 * (0 + Z.of_nat i)) with (12 + 4 * (ns + 1 + 2 * Z.of_nat i)) by lia. apply Hw. lia.
Qed.

Lemma read_image_bytes (writer big_endian : bool) (junk : nat -> Z) (mem : bytes) (used ns nd : Z) :
  (forall i, is_byte (junk i)) -> image_ok writer mem used ns nd -> Forall is_byte (read_image writer big_endian junk mem used ns nd).
Proof.
  intros Hj Him. assert (Hhb : forall n v, Forall is_byte (host_bytes big_endian n v)).
  { intros n v. unfold host_bytes. destruct big_endian; [apply be_bytes_are_bytes|apply Forall_rev, be_bytes_are_bytes]. }
  unfold read_image. apply splice_bytes; [|apply slice_bytes, Him]. apply splice_bytes.
  - apply splice_bytes; [|by repeat constructor; destruct big_endian].
    unfold block, g_realloc. apply Forall_take, Forall_app. split; [apply splice_bytes|]; try (by apply Forall_fmap, Forall_true).
    unfold hdr_bytes. rewrite !Forall_app. by split_and!.
  - unfold raw. apply Forall_bind, Forall_true. intros v. apply Hhb.
Qed.

Lemma hdr_ok_head_like (big_endian : bool) (m0 m : bytes) (size used ns nd top : Z) : hdr_ok big_endian m0 size used ns nd ->
  12 <= top -> head_like m0 m top -> hdr_ok big_endian m size used ns nd.
Proof.
  intros [H1 H2 H3 H4 H5] Ht Hm. split; [destruct Hm; lia|..]; (eapply head_like_loadn; [done|done|simpl; lia]).
Qed.

Lemma all_offsets_head_like (big_endian : bool) (m0 m : bytes) (ns nd : Z) : 0 <= ns -> 0 <= nd ->
  head_like m0 m (12 + 4 * ns + 8 * nd) -> all_offsets big_endian m ns nd = all_offsets big_endian m0 ns nd.
Proof.
  intros Hns Hnd [_ Hh]. assert (Hw : forall k, 0 <= k -> k + 4 <= 12 + 4 * ns + 8 * nd -> hv big_endian m k = hv big_endian m0 k).
  { intros k H1 H2. unfold hv. f_equal. apply (slice_part m m0 0 (12 + 4 * ns + 8 * nd) k 4 Hh); lia. }
  unfold all_offsets, offs_at. f_equal; apply list_fmap_ext; intros i x Hx; apply lookup_seqZ in Hx as [-> Hx]; apply Hw; lia.
Qed.

(** ** Claim *)

(** C12: a table stored by a host of one byte order is read correctly by a host
    of the other.  When the entries of the table lie in its value area without
    overlap, the new block has the same sizes, counts and offsets, and every
    entry reads on the new host as it did on the old one: the same flags, name
    length, size, value length or reference, and the same name and value. *)
Theorem nv_table_deserialize_other_endian (big_endian : bool) (junk : nat -> Z) (mem rest : bytes) (used ns nd : Z)
  (Hj : forall i, is_byte (junk i)) (Him : image_ok (negb big_endian) mem used ns nd) (Hr : lenZ rest < 2 ^ 62)
  (Hok : entries_ok big_endian mem (positions (lenZ mem) (all_offsets (negb big_endian) mem ns nd)))
  (Hin : Forall (fun p => lenZ mem - used <= p) (positions (lenZ mem) (all_offsets (negb big_endian) mem ns nd))) :
  exists sa mem',
    nv_table_serialize (negb big_endian) (serialize_string_archive_new []) mem = Ret (true, sa) /\ ar_error sa = false /\
    nv_table_deserialize_newest big_endian junk (serialize_string_archive_new (ar_data sa ++ rest)) =
      Ret (Some mem', advance (serialize_string_archive_new (ar_data sa ++ rest)) (lenZ (ar_data sa))) /\
    hdr_ok big_endian mem' (lenZ mem) used ns nd /\
    all_offsets big_endian mem' ns nd = all_offsets (negb big_endian) mem ns nd /\
    (forall p, p ∈ positions (lenZ mem) (all_offsets (negb big_endian) mem ns nd) ->
       view big_endian mem' p = view (negb big_endian) mem p).
Proof.
  set (writer := negb big_endian) in *. pose proof (image_ranges _ _ _ _ _ Him) as (R1 & R2 & R3 & R4).
  pose proof (im_parts _ _ _ _ _ Him) as Hpt. pose proof (im_max _ _ _ _ _ Him).
  pose proof (table_items_valid _ _ _ _ _ Him) as Hval. pose proof (table_items_lenZ _ _ _ _ _ Him) as Hlen.
  destruct (read_image_facts writer big_endian junk mem used ns nd Him) as (F1 & F2 & F3 & F4).
  pose proof (read_image_offsets writer big_endian junk mem used ns nd Him) as Hoffs.
  pose proof (deserialize_image writer big_endian junk mem used ns nd Him rest) as Hdes.
  set (l := table_items writer mem used ns nd) in *. set (m := read_image writer big_endian junk mem used ns nd) in *.
  set (ps := positions (lenZ mem) (all_offsets writer mem ns nd)) in *.
  pose proof (ho_len _ _ _ _ _ _ F1) as HL. pose proof Hok as [_ Hi _]. rewrite Forall_forall in Hi, Hin.
  assert (Hreg : forall p, p ∈ ps -> slice mem p (alloc_len writer mem p) = slice m p (alloc_len writer mem p)).
  { intros p Hp. pose proof (Hi p Hp) as (I1 & I2 & I3). fold writer in I1, I2, I3. pose proof (Hin p Hp).
    assert (0 <= alloc_len writer mem p) by (unfold hdr_len in I2; destruct (entry_indirect _ _); lia).
    replace p with ((lenZ mem - used) + (p - (lenZ mem - used))) by lia.
    apply (slice_part mem m (lenZ mem - used) used); [done|lia|lia| |]; replace ((lenZ mem - used) + (p - (lenZ mem - used))) with p by lia; lia. }
  assert (Hm : entries_ok big_endian m ps) by (apply (entries_ok_local big_endian mem); [done|by apply read_image_bytes|lia|done]).
  assert (Htop : Forall (fun p => 12 + 4 * ns + 8 * nd <= p) ps) by (apply Forall_forall; intros p Hp; specialize (Hin p Hp); lia).
  destruct (swap_all_ok big_endian ps m Hm) as (m' & S' & L' & B' & V' & O').
  assert (Hsw : nv_table_data_swap_bytes big_endian m = Ret m').
  { rewrite (data_swap_all big_endian m (lenZ mem) used ns nd F1); rewrite ?Hoffs; fold ps; (done || lia). }
  assert (H0 : head_like m m' (12 + 4 * ns + 8 * nd)).
  { split; [done|]. apply O'; [lia|lia|]. intros p Hp. rewrite Forall_forall in Htop. specialize (Htop p Hp). lia. }
  exists (mkArchive StringArchive (items_enc l) 0 false), m'.
  split. { rewrite (nv_table_serialize_items _ _ _ _ _ _ Him). fold l. by rewrite (write_items_string _ _ Hval) by lia. }
  split; [done|]. cbn [ar_data]. split.
  { pose proof (lenZ_nonneg rest). rewrite Hdes by (rewrite lenZ_app; lia). rewrite Hsw. unfold writer. by destruct big_endian. }
  split; [by apply (hdr_ok_head_like big_endian m m' _ _ _ _ (12 + 4 * ns + 8 * nd)); [|lia|]|].
  split; [rewrite <- Hoffs; by apply all_offsets_head_like; [lia..|]|].
  intros p Hp. rewrite V' by done. destruct (view_local writer mem m p (Hi p Hp) (Hreg p Hp)) as (_ & _ & E). done.
Qed.

(** The table of [demo_image] as a big endian host keeps it. *)
Definition demo_image_be : bytes :=
  [0; 0; 0; 48; 0; 0; 0; 16; 0; 1; 1; 2; 0; 0; 0; 16; 0; 0; 1; 2; 0; 0; 0; 0] ++ replicate 8 0xee ++
  [0x40; 0; 0; 0; 0; 0; 0; 16; 0; 0; 0; 1; 0; 65; 0; 0].

Lemma demo_image_be_ok : image_ok true demo_image_be 16 1 1.
Proof. split; [by split|vm_compute; repeat constructor; done|done|done]. Qed.

Lemma demo_image_be_positions : positions (lenZ demo_image_be) (all_offsets true demo_image_be 1 1) = [32].
Proof. by vm_compute. Qed.

Lemma demo_image_be_entries : entries_ok false demo_image_be (positions (lenZ demo_image_be) (all_offsets (negb false) demo_image_be 1 1)).
Proof.
  cbn [negb]. rewrite demo_image_be_positions. split.
  - apply demo_image_be_ok.
  - constructor; [|constructor]. unfold entry_in. cbn [negb].
    change (alloc_len true demo_image_be 32) with 16. change (lenZ demo_image_be) with 48.
    change (hdr_len (entry_indirect true (entry_flags demo_image_be 32))) with 12. lia.
  - repeat constructor.
Qed.

Lemma nv_table_deserialize_other_endian_witness : exists sa mem',
  nv_table_serialize true (serialize_string_archive_new []) demo_image_be = Ret (true, sa) /\
  nv_table_deserialize_newest false (fun _ => 0xcc) (serialize_string_archive_new (ar_data sa ++ [])) =
    Ret (Some mem', advance (serialize_string_archive_new (ar_data sa ++ [])) (lenZ (ar_data sa))) /\
  view false mem' 32 = mkView false true [0; 0; 0] 16 [1] [0; 65; 0; 0].
Proof.
  assert (Hj : forall i : nat, is_byte ((fun _ => 0xcc) i)) by (intros _; unfold is_byte; lia).
  assert (Hin : Forall (fun p => lenZ demo_image_be - 16 <= p) (positions (lenZ demo_image_be) (all_offsets (negb false) demo_image_be 1 1))).
  { cbn [negb]. rewrite demo_image_be_positions. constructor; [|constructor]. change (lenZ demo_image_be) with 48. lia. }
  assert (Hr : lenZ ([] : bytes) < 2 ^ 62) by done.
  destruct (nv_table_deserialize_other_endian false (fun _ => 0xcc) demo_image_be [] 16 1 1 Hj demo_image_be_ok Hr demo_image_be_entries Hin)
    as (sa & mem' & H1 & _ & H3 & _ & _ & H6).
  exists sa, mem'. split; [exact H1|]. split; [exact H3|]. rewrite H6; [by vm_compute|].
  cbn [negb]. rewrite demo_image_be_positions. apply elem_of_cons. by left.
Defined.
