(* ===== verification/NVRegistry.v ===== *)
(** * The registry of names (lib/nvtable.c, lib/nvtable.h)

    Names are given handles 1, 2, ... in the order in which they are first
    asked for; the hash table maps names and aliases to handles and knows no
    handle zero.  A C string is the list of its bytes in front of the
    terminator.  Reading a descriptor behind the end of the array is [Abort]. *)
From S2P Require Import Prelude.

Record NVHandleDesc := mkDesc {
  hd_name : bytes;
  hd_flags : Z;      (* 16 bits *)
  hd_name_len : Z    (* 8 bits *)
}.

Record NVRegistry := mkRegistry {
  r_names : list NVHandleDesc;
  r_name_map : gmap bytes Z;
  r_nvhandle_max_value : Z
}.

(** [g_hash_table_lookup], where a stored NULL is as good as nothing. *)
Definition name_map_lookup (self : NVRegistry) (name : bytes) : option Z :=
  match r_name_map self !! name with
  | Some h => if bool_decide (h = 0) then None else Some h
  | None => None
  end.

Definition nv_registry_get_handle (self : NVRegistry) (name : bytes) : Z :=
  match name_map_lookup self name with Some p => p | None => 0 end.

Definition nv_registry_alloc_handle (self : NVRegistry) (name : bytes) : Z * NVRegistry :=
  match name_map_lookup self name with
  | Some p => (p, self)
  | None =>
      let len := lenZ name in
      if bool_decide (len = 0) then (0, self)
      else if bool_decide (len > 255) then (0, self)
      else if bool_decide (lenZ (r_names self) >= r_nvhandle_max_value self) then (0, self)
      else
        let stored := mkDesc name 0 (u8 len) in
        let names := r_names self ++ [stored] in
        (u32 (lenZ names), mkRegistry names (<[name := u32 (lenZ names)]> (r_name_map self)) (r_nvhandle_max_value self))
  end.

Definition nv_registry_add_alias (self : NVRegistry) (handle : Z) (alias : bytes) : NVRegistry :=
  mkRegistry (r_names self) (<[alias := handle]> (r_name_map self)) (r_nvhandle_max_value self).

Definition nv_registry_set_handle_flags (self : NVRegistry) (handle flags : Z) : outcome NVRegistry :=
  if bool_decide (handle = 0) then Ret self
  else
    match r_names self !! Z.to_nat (handle - 1) with
    | None => Abort
    | Some stored =>
        Ret (mkRegistry (<[Z.to_nat (handle - 1) := mkDesc (hd_name stored) (u16 flags) (hd_name_len stored)]> (r_names self))
               (r_name_map self) (r_nvhandle_max_value self))
    end.

Definition nv_registry_get_handle_flags (self : NVRegistry) (handle : Z) : outcome Z :=
  if bool_decide (handle = 0) then Ret 0
  else match r_names self !! Z.to_nat (handle - 1) with Some stored => Ret (hd_flags stored) | None => Abort end.

(** The name and its stored length. *)
Definition nv_registry_get_handle_name (self : NVRegistry) (handle : Z) : outcome (bytes * Z) :=
  if bool_decide (handle = 0) then Ret (bytes_of_string "None", 4)
  else
    match r_names self !! Z.to_nat (handle - 1) with
    | Some stored => Ret (hd_name stored, hd_name_len stored)
    | None => Abort
    end.

Definition nv_registry_new (static_names : list bytes) (nvhandle_max_value : Z) : NVRegistry :=
  foldl (fun self name => snd (nv_registry_alloc_handle self name)) (mkRegistry [] ∅ nvhandle_max_value) static_names.

(** ** Runs *)

Inductive reg_op :=
| OpAlloc (name : bytes)
| OpAlias (handle : Z) (alias : bytes)
| OpFlags (handle flags : Z).

Definition reg_step (self : NVRegistry) (op : reg_op) : outcome NVRegistry :=
  match op with
  | OpAlloc name => Ret (snd (nv_registry_alloc_handle self name))
  | OpAlias handle alias => Ret (nv_registry_add_alias self handle alias)
  | OpFlags handle flags => nv_registry_set_handle_flags self handle flags
  end.

Fixpoint reg_run (self : NVRegistry) (ops : list reg_op) : outcome NVRegistry :=
  match ops with [] => Ret self | op :: ops => let! self := reg_step self op in reg_run self ops end.

(** Callers pass handles they were given, and aliases are new names. *)
Definition op_ok (self : NVRegistry) (op : reg_op) : Prop :=
  match op with
  | OpAlloc _ => True
  | OpAlias handle alias => 1 <= handle <= lenZ (r_names self) /\ r_name_map self !! alias = None
  | OpFlags handle _ => 0 <= handle <= lenZ (r_names self)
  end.

Inductive reg_runs : NVRegistry -> list reg_op -> NVRegistry -> Prop :=
| runs_nil self : reg_runs self [] self
| runs_cons self op ops self1 self2 : op_ok self op -> reg_step self op = Ret self1 -> reg_runs self1 ops self2 ->
    reg_runs self (op :: ops) self2.

(** ** Invariant *)

Record reg_wf (self : NVRegistry) : Prop := {
  rw_max : 0 <= r_nvhandle_max_value self < 2 ^ 32;
  rw_len : lenZ (r_names self) <= r_nvhandle_max_value self;
  rw_map : forall name h, r_name_map self !! name = Some h -> 1 <= h <= lenZ (r_names self);
  rw_names : forall i d, r_names self !! i = Some d ->
    r_name_map self !! hd_name d = Some (Z.of_nat i + 1) /\ 1 <= lenZ (hd_name d) <= 255 /\ hd_name_len d = lenZ (hd_name d)
}.

Lemma name_map_lookup_wf (self : NVRegistry) (name : bytes) : reg_wf self ->
  name_map_lookup self name = r_name_map self !! name.
Proof.
  intros Hw. unfold name_map_lookup. destruct (r_name_map self !! name) as [h|] eqn:E; [|done].
  pose proof (rw_map _ Hw name h E). by rewrite bool_decide_eq_false_2 by lia.
Qed.

(** What asking for a name does, on every branch. *)
Variant alloc_spec (self : NVRegistry) (name : bytes) : Z -> NVRegistry -> Prop :=
| alloc_known h : r_name_map self !! name = Some h -> alloc_spec self name h self
| alloc_refused : r_name_map self !! name = None ->
    (lenZ name = 0 \/ lenZ name > 255 \/ lenZ (r_names self) = r_nvhandle_max_value self) -> alloc_spec self name 0 self
| alloc_new : r_name_map self !! name = None -> 1 <= lenZ name <= 255 -> lenZ (r_names self) < r_nvhandle_max_value self ->
    alloc_spec self name (lenZ (r_names self) + 1)
      (mkRegistry (r_names self ++ [mkDesc name 0 (lenZ name)]) (<[name := lenZ (r_names self) + 1]> (r_name_map self))
         (r_nvhandle_max_value self)).

Lemma alloc_handle_spec (self : NVRegistry) (name : bytes) : reg_wf self ->
  alloc_spec self name (fst (nv_registry_alloc_handle self name)) (snd (nv_registry_alloc_handle self name)).
Proof.
  intros Hw. unfold nv_registry_alloc_handle. rewrite name_map_lookup_wf by done.
  destruct (r_name_map self !! name) as [h|] eqn:E; [by constructor|].
  pose proof (rw_len _ Hw). pose proof (rw_max _ Hw). pose proof (lenZ_nonneg name). pose proof (lenZ_nonneg (r_names self)).
  cbv zeta. case_bool; [apply alloc_refused; auto|]. case_bool; [apply alloc_refused; auto|].
  case_bool; [apply alloc_refused; [done|simpl; lia]|]. cbn [fst snd].
  assert (Hl : lenZ (r_names self ++ [mkDesc name 0 (u8 (lenZ name))]) = lenZ (r_names self) + 1) by (rewrite lenZ_app; done).
  rewrite Hl, u32_small, u8_small by lia. apply alloc_new; [done|lia|lia].
Qed.

Lemma alloc_handle_wf (self : NVRegistry) (name : bytes) : reg_wf self -> reg_wf (snd (nv_registry_alloc_handle self name)).
Proof.
  intros Hw. destruct (alloc_handle_spec self name Hw) as [h E|E Hc|E Hn Hm]; [done|done|].
  pose proof (lenZ_nonneg (r_names self)). split; cbn [r_names r_name_map r_nvhandle_max_value].
  - apply Hw.
  - rewrite lenZ_app. change (lenZ [mkDesc name 0 (lenZ name)]) with 1. lia.
  - intros n h. rewrite lookup_insert_Some, lenZ_app. change (lenZ [mkDesc name 0 (lenZ name)]) with 1.
    intros [[<- <-]|[_ Hl]]; [lia|]. pose proof (rw_map _ Hw n h Hl). lia.
  - intros i d [Hl|[Hi Hd]]%lookup_app_Some.
    + destruct (rw_names _ Hw i d Hl) as (H1 & H2 & H3). split; [|done]. rewrite lookup_insert_ne; [done|]. congruence.
    + apply list_lookup_singleton_Some in Hd as [Hd <-]. cbn [hd_name hd_name_len]. split; [|done].
      rewrite lookup_insert_eq. unfold lenZ. f_equal. lia.
Qed.

Lemma add_alias_wf (self : NVRegistry) (handle : Z) (alias : bytes) : reg_wf self -> op_ok self (OpAlias handle alias) ->
  reg_wf (nv_registry_add_alias self handle alias).
Proof.
  intros Hw [Hh Ha]. split; cbn [nv_registry_add_alias r_names r_name_map r_nvhandle_max_value]; [apply Hw|apply Hw|..].
  - intros n h [[<- <-]|[_ Hl]]%lookup_insert_Some; [done|]. by apply (rw_map _ Hw n).
  - intros i d Hd. destruct (rw_names _ Hw i d Hd) as (H1 & H2). split; [|done]. rewrite lookup_insert_ne; [done|]. congruence.
Qed.

Lemma set_flags_spec (self : NVRegistry) (handle flags : Z) : op_ok self (OpFlags handle flags) ->
  exists self', nv_registry_set_handle_flags self handle flags = Ret self' /\ r_name_map self' = r_name_map self /\
    r_nvhandle_max_value self' = r_nvhandle_max_value self /\ length (r_names self') = length (r_names self) /\
    (forall i, (fun d => (hd_name d, hd_name_len d)) <$> r_names self' !! i = (fun d => (hd_name d, hd_name_len d)) <$> r_names self !! i).
Proof.
  intros Hh. simpl in Hh. unfold nv_registry_set_handle_flags. case_bool; [by exists self|].
  destruct (r_names self !! Z.to_nat (handle - 1)) as [d|] eqn:E.
  - eexists. split; [done|]. cbn [r_name_map r_nvhandle_max_value r_names]. split; [done|]. split; [done|].
    split; [by rewrite length_insert|]. intros i. destruct (decide (i = Z.to_nat (handle - 1))) as [->|Hi].
    + rewrite list_lookup_insert_eq by (by eapply lookup_lt_Some). by rewrite E.
    + by rewrite list_lookup_insert_ne.
  - apply lookup_ge_None in E. unfold lenZ in Hh. lia.
Qed.

Lemma set_flags_wf (self self' : NVRegistry) (handle flags : Z) : reg_wf self -> op_ok self (OpFlags handle flags) ->
  nv_registry_set_handle_flags self handle flags = Ret self' -> reg_wf self'.
Proof.
  intros Hw Hh H. destruct (set_flags_spec self handle flags Hh) as (s & H' & Hm & Hx & Hl & Hn).
  rewrite H' in H. injection H as <-. destruct Hw as [W1 W2 W3 W4]. split; rewrite ?Hm, ?Hx; unfold lenZ in *; rewrite ?Hl; [done..|].
  intros i d Hd. specialize (Hn i). rewrite Hd in Hn. destruct (r_names self !! i) as [d0|] eqn:E; [|done].
  simpl in Hn. injection Hn as Hn1 Hn2. rewrite Hn1, Hn2. by apply W4.
Qed.

Lemma reg_new_wf (static_names : list bytes) (max : Z) : 0 <= max < 2 ^ 32 -> reg_wf (nv_registry_new static_names max).
Proof.
  intros Hm. unfold nv_registry_new. assert (Hw : reg_wf (mkRegistry [] ∅ max)).
  { split; cbn [r_names r_name_map r_nvhandle_max_value]; [done|change (lenZ []) with 0; lia| |done].
    intros n h. by rewrite lookup_empty. }
  revert Hw. generalize (mkRegistry [] ∅ max). induction static_names as [|n l IH]; intros r Hr; [done|].
  simpl. apply IH. by apply alloc_handle_wf.
Qed.

(** One step keeps the invariant, every handle of every name, and every
    descriptor's name. *)
Lemma reg_step_stable (self self' : NVRegistry) (op : reg_op) : reg_wf self -> op_ok self op -> reg_step self op = Ret self' ->
  reg_wf self' /\ (forall n h, r_name_map self !! n = Some h -> r_name_map self' !! n = Some h) /\
  (forall h, 1 <= h <= lenZ (r_names self) -> nv_registry_get_handle_name self' h = nv_registry_get_handle_name self h) /\
  lenZ (r_names self) <= lenZ (r_names self').
Proof.
  intros Hw Hok H. destruct op as [name|handle alias|handle flags]; cbn [reg_step] in H.
  - injection H as <-. split; [by apply alloc_handle_wf|].
    destruct (alloc_handle_spec self name Hw) as [h E|E Hc|E Hn Hm]; [done|done|]. cbn [r_name_map r_names].
    split; [intros n h Hl; rewrite lookup_insert_ne; [done|congruence]|]. split.
    + intros h Hh. unfold nv_registry_get_handle_name. cbn [r_names]. rewrite lookup_app_l; [done|]. unfold lenZ in Hh. lia.
    + rewrite lenZ_app. pose proof (lenZ_nonneg [mkDesc name 0 (lenZ name)]). lia.
  - injection H as <-. split; [by apply add_alias_wf|]. destruct Hok as [_ Ha]. cbn [nv_registry_add_alias r_name_map r_names].
    split; [intros n h Hl; rewrite lookup_insert_ne; [done|congruence]|done].
  - split; [by eapply set_flags_wf|]. destruct (set_flags_spec self handle flags Hok) as (s & H' & Hm & Hx & Hl & Hn).
    rewrite H' in H. injection H as <-. rewrite Hm. split; [done|]. split; [|unfold lenZ; lia].
    intros h Hh. unfold nv_registry_get_handle_name. specialize (Hn (Z.to_nat (h - 1))). case_bool; [done|].
    destruct (r_names s !! _) as [d'|], (r_names self !! _) as [d|]; simpl in Hn; simplify_eq; congruence.
Qed.

Lemma reg_runs_stable (self self' : NVRegistry) (ops : list reg_op) : reg_wf self -> reg_runs self ops self' ->
  reg_wf self' /\ (forall n h, r_name_map self !! n = Some h -> r_name_map self' !! n = Some h) /\
  (forall h, 1 <= h <= lenZ (r_names self) -> nv_registry_get_handle_name self' h = nv_registry_get_handle_name self h) /\
  lenZ (r_names self) <= lenZ (r_names self').
Proof.
  intros Hw Hr. induction Hr as [self|self op ops s1 s2 Hok Hs Hr IH]; [auto with lia|].
  destruct (reg_step_stable self s1 op Hw Hok Hs) as (W1 & M1 & N1 & L1). destruct (IH W1) as (W2 & M2 & N2 & L2).
  split; [done|]. split; [auto|]. split; [|lia]. intros h Hh. rewrite N2 by lia. by apply N1.
Qed.

Lemma get_handle_wf (self : NVRegistry) (name : bytes) : reg_wf self ->
  nv_registry_get_handle self name = default 0 (r_name_map self !! name).
Proof. intros Hw. unfold nv_registry_get_handle. rewrite name_map_lookup_wf by done. by destruct (r_name_map self !! name). Qed.

(** Static names are numbered in order. *)
Lemma reg_new_static (l : list bytes) (r : NVRegistry) : reg_wf r -> NoDup l ->
  Forall (fun n => 1 <= lenZ n <= 255 /\ r_name_map r !! n = None) l ->
  lenZ (r_names r) + lenZ l <= r_nvhandle_max_value r ->
  let r' := foldl (fun self name => snd (nv_registry_alloc_handle self name)) r l in
  reg_wf r' /\ lenZ (r_names r') = lenZ (r_names r) + lenZ l /\
  (forall i n, l !! i = Some n -> r_name_map r' !! n = Some (lenZ (r_names r) + Z.of_nat i + 1)) /\
  (forall n h, r_name_map r !! n = Some h -> r_name_map r' !! n = Some h) /\
  r_names r' = r_names r ++ ((fun n => mkDesc n 0 (lenZ n)) <$> l).
Proof.
  intros Hw Hnd. revert r Hw. induction Hnd as [|n l Hni Hnd IH]; intros r Hw Hl Hroom r'.
  { unfold r'. simpl. change (lenZ []) with 0. split; [done|]. split; [lia|]. split; [done|]. split; [done|]. by rewrite app_nil_r. }
  inversion Hl as [|? ? [Hn Hno] Hl']; subst. rewrite lenZ_cons in Hroom. pose proof (lenZ_nonneg l).
  unfold r'. cbn [foldl]. pose proof (alloc_handle_wf r n Hw) as Hw1.
  pose proof (alloc_handle_spec r n Hw) as Hsp. set (r1 := snd (nv_registry_alloc_handle r n)) in *.
  assert (Hr1 : r_names r1 = r_names r ++ [mkDesc n 0 (lenZ n)] /\ r_name_map r1 = <[n := lenZ (r_names r) + 1]> (r_name_map r) /\
    r_nvhandle_max_value r1 = r_nvhandle_max_value r).
  { clearbody r1. destruct Hsp as [h E|E Hc|E _ _]; [congruence|lia|done]. }
  destruct Hr1 as (E1 & E2 & E3).
  assert (L1 : lenZ (r_names r1) = lenZ (r_names r) + 1) by (rewrite E1, lenZ_app; done).
  destruct (IH r1 Hw1) as (W & L & S & M & N).
  { rewrite Forall_forall in Hl' |- *. intros x Hx. destruct (Hl' x Hx) as [H1 H2]. split; [done|].
    rewrite E2, lookup_insert_ne; [done|]. congruence. }
  { lia. }
  split; [done|]. rewrite lenZ_cons. split; [lia|]. split.
  - intros [|i] m Hm; simpl in Hm.
    + injection Hm as ->. rewrite (M m (lenZ (r_names r) + 1)); [f_equal; lia|]. by rewrite E2, lookup_insert_eq.
    + rewrite (S i m Hm). f_equal. lia.
  - split; [|by rewrite N, E1, <- app_assoc]. intros m h Hm. apply M. rewrite E2, lookup_insert_ne; [done|]. congruence.
Qed.

(** ** Claims *)

(** C14: handles are stable names.  In a registry reached by any sequence of
    allocations, new aliases and flag changes, every handle has a name that
    maps back to it, so no two handles share a name; a name that has a handle
    keeps it, and the handle keeps its name, whatever happens later, and asking
    for the name again gives the same handle; a new name gets the next handle
    unless it is empty, longer than 255 bytes or the limit is reached, and
    then nothing changes. *)
Theorem nv_registry_handles_stable (static_names : list bytes) (max : Z) (ops1 ops2 : list reg_op) (r1 r2 : NVRegistry)
  (name : bytes) (Hm : 0 <= max < 2 ^ 32) (H1 : reg_runs (nv_registry_new static_names max) ops1 r1)
  (H2 : reg_runs r1 ops2 r2) :
  (forall h, 1 <= h <= lenZ (r_names r1) ->
     exists n, nv_registry_get_handle_name r1 h = Ret (n, lenZ n) /\ nv_registry_get_handle r1 n = h) /\
  (let h := nv_registry_get_handle r1 name in
   h <> 0 -> nv_registry_get_handle r2 name = h /\ fst (nv_registry_alloc_handle r2 name) = h /\
     nv_registry_get_handle_name r2 h = nv_registry_get_handle_name r1 h) /\
  (nv_registry_get_handle r1 name = 0 ->
     let '(h, r) := nv_registry_alloc_handle r1 name in
     if bool_decide (1 <= lenZ name <= 255 /\ lenZ (r_names r1) < r_nvhandle_max_value r1)
     then h = lenZ (r_names r1) + 1 /\ nv_registry_get_handle_name r h = Ret (name, lenZ name) /\ nv_registry_get_handle r name = h
     else h = 0 /\ r = r1).
Proof.
  destruct (reg_runs_stable _ _ _ (reg_new_wf static_names max Hm) H1) as (W1 & _).
  destruct (reg_runs_stable _ _ _ W1 H2) as (W2 & M2 & N2 & _).
  split; [|split].
  - intros h Hh. destruct (r_names r1 !! Z.to_nat (h - 1)) as [d|] eqn:E; [|apply lookup_ge_None in E; unfold lenZ in Hh; lia].
    destruct (rw_names _ W1 _ _ E) as (E1 & E2 & E3). exists (hd_name d). unfold nv_registry_get_handle_name.
    rewrite bool_decide_eq_false_2, E, E3 by lia. split; [done|]. rewrite get_handle_wf, E1 by done. simpl. lia.
  - intros h. assert (Eh : h = default 0 (r_name_map r1 !! name)) by (by apply get_handle_wf). clearbody h. intros Hh.
    destruct (r_name_map r1 !! name) as [x|] eqn:E; [|done]. simpl in Eh. subst h.
    rewrite get_handle_wf, (M2 _ _ E) by done. split; [done|]. split.
    + destruct (alloc_handle_spec r2 name W2) as [y Hy|Hy _|Hy _ _]; rewrite (M2 _ _ E) in Hy; [congruence|done|done].
    + apply N2. by apply (rw_map _ W1 name).
  - intros Hz. rewrite get_handle_wf in Hz by done. pose proof (alloc_handle_wf r1 name W1) as W.
    pose proof (alloc_handle_spec r1 name W1) as Hsp. destruct (nv_registry_alloc_handle r1 name) as [h r]. cbn [fst snd] in *.
    destruct Hsp as [h E|E Hc|E Hn Hr].
    + rewrite E in Hz. simpl in Hz. pose proof (rw_map _ W1 _ _ E). lia.
    + rewrite bool_decide_eq_false_2; [done|]. lia.
    + rewrite bool_decide_eq_true_2 by done. split; [done|]. pose proof (lenZ_nonneg (r_names r1)).
      rewrite get_handle_wf by done. cbn [r_name_map]. rewrite lookup_insert_eq. split; [|done].
      unfold nv_registry_get_handle_name. rewrite bool_decide_eq_false_2 by lia. cbn [r_names].
      rewrite lookup_app_r, list_lookup_singleton by (unfold lenZ; lia).
      replace (Z.to_nat (lenZ (r_names r1) + 1 - 1) - length (r_names r1))%nat with 0%nat by (unfold lenZ; lia). done.
Qed.

Lemma nv_registry_handles_stable_witness :
  exists r1 r2, reg_run (nv_registry_new [bytes_of_string "HOST"] 3) [OpAlloc (bytes_of_string "a"); OpAlias 1 (bytes_of_string "FULLHOST")] = Ret r1 /\
    reg_run r1 [OpFlags 2 7; OpAlloc (bytes_of_string "b")] = Ret r2 /\
    nv_registry_get_handle r2 (bytes_of_string "a") = 2 /\ nv_registry_get_handle r2 (bytes_of_string "FULLHOST") = 1 /\
    fst (nv_registry_alloc_handle r2 (bytes_of_string "c")) = 0.
Proof.
  eexists _, _. split; [reflexivity|]. split; [reflexivity|]. split; [|split; reflexivity].
  pose proof (nv_registry_handles_stable [bytes_of_string "HOST"] 3 [OpAlloc (bytes_of_string "a"); OpAlias 1 (bytes_of_string "FULLHOST")]
    [OpFlags 2 7; OpAlloc (bytes_of_string "b")] _ _ (bytes_of_string "a") ltac:(lia)
    ltac:(econstructor; [exact I|reflexivity|econstructor; [split; [vm_compute; split; discriminate|reflexivity]|reflexivity|constructor]])
    ltac:(econstructor; [vm_compute; split; discriminate|reflexivity|econstructor; [exact I|reflexivity|constructor]])) as (_ & H & _).
  apply H. discriminate.
Defined.

(** the static names of a new registry have the handles 1, 2, ... in their
    order, the numbers by which the rest of the program knows them. *)
Theorem nv_registry_static_handles (static_names : list bytes) (max : Z) (Hm : lenZ static_names <= max < 2 ^ 32)
  (Hd : NoDup static_names) (Hn : Forall (fun n => 1 <= lenZ n <= 255) static_names) :
  let r := nv_registry_new static_names max in
  lenZ (r_names r) = lenZ static_names /\
  (forall i n, static_names !! i = Some n ->
     nv_registry_get_handle r n = Z.of_nat i + 1 /\ nv_registry_get_handle_name r (Z.of_nat i + 1) = Ret (n, lenZ n)).
Proof.
  intros r. pose proof (lenZ_nonneg static_names). assert (W0 : reg_wf (mkRegistry [] ∅ max)) by (apply (reg_new_wf [] max); lia).
  destruct (reg_new_static static_names (mkRegistry [] ∅ max) W0 Hd) as (W & L & S & _ & N).
  - eapply Forall_impl; [exact Hn|]. intros n Hl. by split; [|apply lookup_empty].
  - cbn [r_names r_nvhandle_max_value]. change (lenZ []) with 0. lia.
  - change (foldl _ _ static_names) with r in *. cbn [r_names] in *. change (lenZ []) with 0 in *. split; [lia|].
    intros i n Hi. pose proof (S i n Hi) as Hmap. rewrite Z.add_0_l in Hmap. rewrite get_handle_wf, Hmap by done. split; [done|].
    unfold nv_registry_get_handle_name. rewrite bool_decide_eq_false_2 by lia.
    replace (Z.to_nat (Z.of_nat i + 1 - 1)) with i by lia. by rewrite N, app_nil_l, list_lookup_fmap, Hi.
Qed.

Lemma nv_registry_static_handles_witness :
  let names := bytes_of_string <$> ["HOST"; "HOST_FROM"; "MESSAGE"] in
  nv_registry_get_handle (nv_registry_new names 65535) (bytes_of_string "MESSAGE") = 3.
Proof.
  intros names. apply (nv_registry_static_handles names 65535) with (i := 2%nat).
  - vm_compute. split; [discriminate|done].
  - apply (bool_decide_unpack _). by vm_compute.
  - vm_compute. repeat constructor; discriminate.
  - reflexivity.
Defined.
