(* ===== verification/NVTableUpdate.v ===== *)
(** * Renumbering a stored table (lib/nvtable-serialize.c)

    A table that was stored by another run of the program holds the handles of
    that run.  [nv_table_update_ids] asks the registry of this run for the
    names kept in the entries and rewrites the handles.  The name of an entry is
    a C string.  [qsort] of the C library is a parameter. *)
From S2P Require Import Prelude NVTable NVRegistry NVTableInv NVTableOps.

Definition with_handle (e : NVEntry) (slice : NVReferencedSlice) (handle : Z) : NVEntry :=
  mkEntry (e_referenced e) (e_name e) (e_alloc_len e)
    (VIndirect (mkSlice handle (rs_ofs slice) (rs_len slice) (rs_type slice))).

(** [e] is the indirect entry at [ofs]; following a reference to a value that
    is not in the table dereferences NULL. *)
Definition _update_indirect_entry (self : NVTable) (logmsg_registry : NVRegistry) (ofs : Z) (e : NVEntry)
    (slice : NVReferencedSlice) : outcome (NVTable * NVRegistry) :=
  let oh := rs_handle slice in
  let name := e_name e in
  let! (self, logmsg_registry) :=
    if bool_decide (oh > nt_num_static self) then
      match nv_lookup self oh with
      | None => Abort
      | Some oe =>
          let oname := e_name oe in
          if bool_decide (lenZ oname = 0) then Ret (self, logmsg_registry)
          else
            let '(oh, logmsg_registry) := nv_registry_alloc_handle logmsg_registry oname in
            if bool_decide (oh <> 0) then Ret (set_entry self ofs (with_handle e slice oh), logmsg_registry)
            else Ret (self, logmsg_registry)
      end
    else Ret (self, logmsg_registry) in
  Ret (self, snd (nv_registry_alloc_handle logmsg_registry name)).

(** The loop does not change the pairs it runs over. *)
Fixpoint update_indirect_loop (dyn_entries : list (Z * Z)) (self : NVTable) (logmsg_registry : NVRegistry)
  : outcome (NVTable * NVRegistry) :=
  match dyn_entries with
  | [] => Ret (self, logmsg_registry)
  | (_, o) :: dyn_entries =>
      match nv_table_get_entry_at_ofs o with
      | None => update_indirect_loop dyn_entries self logmsg_registry
      | Some ofs =>
          match nt_heap self !! ofs with
          | None => Abort
          | Some e =>
              match e_body e with
              | VIndirect slice =>
                  let! (self, logmsg_registry) := _update_indirect_entry self logmsg_registry ofs e slice in
                  update_indirect_loop dyn_entries self logmsg_registry
              | VDirect _ => update_indirect_loop dyn_entries self logmsg_registry
              end
          end
      end
  end.

Definition _update_all_indirect_entries (self : NVTable) (logmsg_registry : NVRegistry) : outcome (NVTable * NVRegistry) :=
  update_indirect_loop (nt_dyn self) self logmsg_registry.

(** [handles_to_update[j] == old_handle] selects the new handles to set. *)
Fixpoint set_updated (handles_to_update : list Z) (old_handle handle : Z) (new_updated_handles : list Z) : list Z :=
  match handles_to_update, new_updated_handles with
  | h :: hs, n :: ns => (if bool_decide (h = old_handle) then handle else n) :: set_updated hs old_handle handle ns
  | _, ns => ns
  end.

Fixpoint update_dyn_loop (dyn_entries : list (Z * Z)) (self : NVTable) (logmsg_registry : NVRegistry)
    (handles_to_update new_updated_handles : list Z) : outcome (list (Z * Z) * NVRegistry * list Z) :=
  match dyn_entries with
  | [] => Ret ([], logmsg_registry, new_updated_handles)
  | (old_handle, o) :: dyn_entries =>
      match nv_table_get_entry_at_ofs o with
      | None =>
          let! (dyn, logmsg_registry, new_updated_handles) :=
            update_dyn_loop dyn_entries self logmsg_registry handles_to_update new_updated_handles in
          Ret ((old_handle, o) :: dyn, logmsg_registry, new_updated_handles)
      | Some ofs =>
          match nt_heap self !! ofs with
          | None => Abort
          | Some e =>
              let '(handle, logmsg_registry) := nv_registry_alloc_handle logmsg_registry (e_name e) in
              let new_updated_handles := set_updated handles_to_update old_handle handle new_updated_handles in
              let! (dyn, logmsg_registry, new_updated_handles) :=
                update_dyn_loop dyn_entries self logmsg_registry handles_to_update new_updated_handles in
              Ret ((handle, ofs) :: dyn, logmsg_registry, new_updated_handles)
          end
      end
  end.

(** The difference of two unsigned handles, returned as [gint]. *)
Definition _dyn_entry_cmp (a b : Z * Z) : Z := s32 (u32 (fst a - fst b)).

Section libc.
Context (qsort : (Z * Z -> Z * Z -> Z) -> list (Z * Z) -> list (Z * Z)).

Definition _update_dynamic_handles (self : NVTable) (logmsg_registry : NVRegistry) (handles_to_update : list Z)
  : outcome (NVTable * NVRegistry * list Z) :=
  let new_updated_handles := replicate (length handles_to_update) 0 in
  let! (dyn, logmsg_registry, new_updated_handles) :=
    update_dyn_loop (nt_dyn self) self logmsg_registry handles_to_update new_updated_handles in
  Ret (set_dyn self (qsort _dyn_entry_cmp dyn), logmsg_registry, new_updated_handles).

Definition nv_table_update_ids (self : NVTable) (logmsg_registry : NVRegistry) (handles_to_update : list Z)
  : outcome (NVTable * NVRegistry * list Z) :=
  let! (self, logmsg_registry) := _update_all_indirect_entries self logmsg_registry in
  _update_dynamic_handles self logmsg_registry handles_to_update.

(** What the C standard says of [qsort]: with a comparison that orders the
    elements, the result holds the same elements in that order. *)
Definition cmp_orders (cmp : Z * Z -> Z * Z -> Z) (l : list (Z * Z)) : Prop :=
  (forall a b, a ∈ l -> b ∈ l -> (cmp a b < 0 <-> cmp b a > 0)) /\
  (forall a b c, a ∈ l -> b ∈ l -> c ∈ l -> cmp a b <= 0 -> cmp b c <= 0 -> cmp a c <= 0).

Definition qsort_spec : Prop := forall cmp l, cmp_orders cmp l ->
  Permutation (qsort cmp l) l /\
  (forall i j a b, qsort cmp l !! i = Some a -> qsort cmp l !! j = Some b -> (i < j)%nat -> cmp a b <= 0).
End libc.

(** ** Asking for names of a known set *)

(** [r] is [r0] after names of [S] were asked for. *)
Record reg_ext (S : list bytes) (r0 r : NVRegistry) : Prop := {
  re_wf : reg_wf r;
  re_max : r_nvhandle_max_value r = r_nvhandle_max_value r0;
  re_map : forall n h, r_name_map r0 !! n = Some h -> r_name_map r !! n = Some h;
  re_names : exists ds, r_names r = r_names r0 ++ ds /\ NoDup (hd_name <$> ds) /\
    (forall n, n ∈ hd_name <$> ds -> n ∈ S /\ r_name_map r0 !! n = None) /\
    (forall n h, r_name_map r !! n = Some h -> r_name_map r0 !! n = Some h \/ n ∈ hd_name <$> ds)
}.

Lemma reg_ext_refl (S : list bytes) (r : NVRegistry) : reg_wf r -> reg_ext S r r.
Proof.
  intros Hw. split; [done..|]. exists []. rewrite app_nil_r. split; [done|]. split; [constructor|]. split; [|auto].
  by intros n Hn%elem_of_nil.
Qed.

(** There is room for every name of [S]. *)
Record room (S : list bytes) (r0 : NVRegistry) : Prop := {
  rm_len : forall n, n ∈ S -> 1 <= lenZ n <= 255;
  rm_room : lenZ (r_names r0) + lenZ S <= r_nvhandle_max_value r0
}.

(** A name among the descriptors has a handle. *)
Lemma desc_named (r : NVRegistry) (ds0 ds : list NVHandleDesc) (n : bytes) : reg_wf r -> r_names r = ds0 ++ ds ->
  n ∈ hd_name <$> ds -> exists i, r_name_map r !! n = Some (lenZ ds0 + Z.of_nat i + 1) /\ (hd_name <$> ds) !! i = Some n.
Proof.
  intros Hw Hds Hd. apply list_elem_of_fmap in Hd as (d & -> & Hd). apply list_elem_of_lookup in Hd as [i Hi].
  assert (Hl : r_names r !! (length ds0 + i)%nat = Some d).
  { rewrite Hds, lookup_app_r by lia. by replace (length ds0 + i - length ds0)%nat with i by lia. }
  destruct (rw_names _ Hw _ _ Hl) as [H _]. exists i. rewrite H, list_lookup_fmap, Hi. split; [|done]. f_equal. unfold lenZ. lia.
Qed.

Lemma alloc_in (S : list bytes) (r0 r : NVRegistry) (n : bytes) : reg_ext S r0 r -> room S r0 -> n ∈ S ->
  let '(h, r') := nv_registry_alloc_handle r n in
  reg_ext S r0 r' /\ h <> 0 /\ r_name_map r' !! n = Some h /\ (forall m k, r_name_map r !! m = Some k -> r_name_map r' !! m = Some k).
Proof.
  intros [Hw Hmax Hmap (ds & Hds & Hnd & Hin & Hnew)] [Hlen Hroom] Hn.
  pose proof (alloc_handle_wf r n Hw) as Hw'. pose proof (alloc_handle_spec r n Hw) as Hsp.
  destruct (nv_registry_alloc_handle r n) as [h r']. cbn [fst snd] in *. destruct Hsp as [h E|E Hc|E Hv Hl].
  - split; [split; [done..|eauto]|]. pose proof (rw_map _ Hw _ _ E). split; [lia|]. done.
  - exfalso. specialize (Hlen n Hn). assert (Hsub : (length (n :: (hd_name <$> ds)) <= length S)%nat).
    { apply submseteq_length, NoDup_submseteq.
      - constructor; [|done]. intros Hd. destruct (desc_named r _ _ n Hw Hds Hd) as (i & Hi & _). congruence.
      - intros x [->|Hx]%elem_of_cons; [done|]. by apply Hin. }
    simpl in Hsub. rewrite length_fmap in Hsub. assert (lenZ (r_names r) = lenZ (r_names r0) + lenZ ds) by (rewrite Hds; apply lenZ_app).
    unfold lenZ in *. lia.
  - pose proof (lenZ_nonneg (r_names r)). split; [|split; [lia|]].
    + split; [done|done| |].
      * intros m k Hm. cbn [r_name_map]. apply Hmap in Hm. rewrite lookup_insert_ne; [done|]. congruence.
      * exists (ds ++ [mkDesc n 0 (lenZ n)]). cbn [r_names r_name_map]. rewrite Hds, app_assoc. split; [done|].
        rewrite fmap_app. change (hd_name <$> [mkDesc n 0 (lenZ n)]) with [n].
        assert (Hfresh : n ∉ hd_name <$> ds).
        { intros Hd. destruct (desc_named r _ _ n Hw Hds Hd) as (i & Hi & _). congruence. }
        split; [apply NoDup_app; split_and!; [done| |apply NoDup_singleton]; intros x Hx ->%list_elem_of_singleton; done|]. split.
        -- intros x [Hx| ->%list_elem_of_singleton]%elem_of_app; [by apply Hin|]. split; [done|].
           destruct (r_name_map r0 !! n) eqn:E0; [|done]. apply Hmap in E0. congruence.
        -- intros x k [[<- _]|[_ Hx]]%lookup_insert_Some; [right; apply elem_of_app; right; by apply list_elem_of_singleton|].
           destruct (Hnew x k Hx); [by left|right; apply elem_of_app; by left].
    + cbn [r_name_map]. split; [by rewrite lookup_insert_eq|]. intros m k Hm. rewrite lookup_insert_ne; [done|]. congruence.
Qed.

(** * Renumbering keeps the values *)

(** The names kept in the entries of the dynamic slots. *)
Definition slot_name (t : NVTable) (p : Z * Z) : bytes := default [] (e_name <$> nt_heap t !! p.2).
Definition slot_names (t : NVTable) : list bytes := slot_name t <$> nt_dyn t.

(** A table and a registry for which renumbering can work: every slot has an
    entry with a name of its own, the registry has room for all names and not 2^31 of them, knows no
    two of them under one handle and none as a static value, and static values
    refer to static values only. *)
Record updatable (nm : Z -> bytes) (t : NVTable) (reg : NVRegistry) : Prop := {
  up_wf : nv_wf nm t;
  up_reg : reg_wf reg;
  up_slots : forall p, p ∈ nt_dyn t -> p.2 <> 0;
  up_names : NoDup (slot_names t);
  up_room : room (slot_names t) reg;
  up_count : lenZ (r_names reg) + lenZ (slot_names t) < 2 ^ 31;
  up_static : nt_num_static t <= lenZ (r_names reg);
  up_dynamic : forall n h, n ∈ slot_names t -> r_name_map reg !! n = Some h -> nt_num_static t < h;
  up_inj : forall n m h, n ∈ slot_names t -> m ∈ slot_names t -> r_name_map reg !! n = Some h ->
    r_name_map reg !! m = Some h -> n = m;
  up_refs : forall h e s, h <= nt_num_static t -> nv_lookup t h = Some e -> e_body e = VIndirect s ->
    rs_handle s <= nt_num_static t
}.

(** ** The sorted slots *)

Lemma dyn_cmp_small (a b : Z * Z) : 0 <= a.1 < 2 ^ 31 -> 0 <= b.1 < 2 ^ 31 -> _dyn_entry_cmp a b = a.1 - b.1.
Proof.
  intros Ha Hb. unfold _dyn_entry_cmp, s32, u32. rewrite Zmod_mod.
  destruct (Z.le_gt_cases 0 (a.1 - b.1)).
  - rewrite Z.mod_small by lia. by rewrite bool_decide_eq_true_2 by lia.
  - assert (E : (a.1 - b.1) mod 2 ^ 32 = a.1 - b.1 + 2 ^ 32) by (symmetry; apply (Z.mod_unique_pos _ _ (-1)); lia).
    rewrite E, bool_decide_eq_false_2; lia.
Qed.

Lemma sorted_slots (qsort : (Z * Z -> Z * Z -> Z) -> list (Z * Z) -> list (Z * Z)) (dyn : list (Z * Z)) : qsort_spec qsort ->
  (forall p, p ∈ dyn -> 0 <= p.1 < 2 ^ 31) -> NoDup (fst <$> dyn) ->
  Permutation (qsort _dyn_entry_cmp dyn) dyn /\ dyn_sorted (qsort _dyn_entry_cmp dyn).
Proof.
  intros Hq Hr Hnd. destruct (Hq _dyn_entry_cmp dyn) as [Hperm Hs].
  { split.
    - intros a b Ha Hb. rewrite !dyn_cmp_small by auto. lia.
    - intros a b c Ha Hb Hc. rewrite !dyn_cmp_small by auto. lia. }
  split; [done|]. intros i j p q Hi Hj Hij. pose proof (Hs i j p q Hi Hj Hij) as Hc.
  assert (Hp : p ∈ dyn) by (rewrite <- Hperm; by eapply list_elem_of_lookup_2).
  assert (Hq' : q ∈ dyn) by (rewrite <- Hperm; by eapply list_elem_of_lookup_2).
  rewrite dyn_cmp_small in Hc by auto. assert (p.1 <> q.1); [|lia].
  assert (Hnd' : NoDup (fst <$> qsort _dyn_entry_cmp dyn)) by (by rewrite Hperm).
  intros E. assert (Ei : (fst <$> qsort _dyn_entry_cmp dyn) !! i = Some p.1) by (by rewrite list_lookup_fmap, Hi).
  assert (Ej : (fst <$> qsort _dyn_entry_cmp dyn) !! j = Some p.1) by (by rewrite list_lookup_fmap, Hj, E).
  pose proof (NoDup_lookup _ _ _ _ Hnd' Ei Ej). lia.
Qed.

Section update.
Context (nm : Z -> bytes) (t : NVTable) (reg : NVRegistry) (Hup : updatable nm t reg).

Let ns := nt_num_static t.
Let names := slot_names t.
Let Hwf : nv_wf nm t := up_wf _ _ _ Hup.

(** ** Slots *)

Lemma slot_link (h o : Z) : (h, o) ∈ nt_dyn t -> link t h = Some o /\ ns < h.
Proof.
  intros Hin. pose proof (wf_keys _ _ Hwf) as Hk. pose proof Hin as [i Hi]%list_elem_of_lookup.
  pose proof (kw_handles _ Hk _ _ Hi) as Hh. simpl in Hh. pose proof (lenZ_nonneg (nt_static t)). split; [|unfold ns; lia].
  rewrite link_iff by done. split; [apply (up_slots _ _ _ Hup _ Hin)|]. unfold nt_num_static in *. split; [lia|]. right. split; [lia|done].
Qed.

Lemma slot_entry (h o : Z) : (h, o) ∈ nt_dyn t -> exists e, nt_heap t !! o = Some e /\ nv_lookup t h = Some e /\ e_name e ∈ names.
Proof.
  intros Hin. destruct (slot_link h o Hin) as [Hl _]. destruct (wf_lookup_Some _ _ _ _ Hwf Hl) as (e & He & Hv).
  exists e. split; [done|]. split; [done|]. unfold names, slot_names. apply list_elem_of_fmap. exists (h, o). split; [|done].
  unfold slot_name. simpl. by rewrite He.
Qed.

Lemma dynamic_slot (h : Z) (e : NVEntry) : ns < h -> nv_lookup t h = Some e -> exists o, (h, o) ∈ nt_dyn t /\ nt_heap t !! o = Some e.
Proof.
  intros Hh Hv. rewrite nv_lookup_link in Hv. destruct (link t h) as [o|] eqn:E; [|done]. simpl in Hv. exists o. split; [|done].
  rewrite link_iff in E by apply Hwf. destruct E as (_ & _ & [[? _]|[_ ?]]); [unfold ns in Hh; lia|done].
Qed.

Lemma slots_inj (h1 h2 o : Z) : (h1, o) ∈ nt_dyn t -> (h2, o) ∈ nt_dyn t -> h1 = h2.
Proof. intros H1 H2. apply slot_link in H1 as [H1 _], H2 as [H2 _]. by eapply (wf_inj _ _ Hwf). Qed.

Lemma slots_fun (h o1 o2 : Z) : (h, o1) ∈ nt_dyn t -> (h, o2) ∈ nt_dyn t -> o1 = o2.
Proof. intros H1 H2. apply slot_link in H1 as [H1 _], H2 as [H2 _]. congruence. Qed.

Lemma slots_NoDup : NoDup (nt_dyn t).
Proof. apply (NoDup_fmap_1 (slot_name t)). apply (up_names _ _ _ Hup). Qed.

(** ** First pass: references *)

(** [e'] is [e] with the handle of a dynamic value it refers to replaced by the
    one [r] has for its name. *)
Definition relabelled (r : NVRegistry) (e e' : NVEntry) : Prop :=
  match e_body e with
  | VDirect _ => e' = e
  | VIndirect s =>
      if bool_decide (ns < rs_handle s) then
        exists oe h', nv_lookup t (rs_handle s) = Some oe /\ r_name_map r !! e_name oe = Some h' /\ e' = with_handle e s h'
      else e' = e
  end.

Lemma relabelled_name (r : NVRegistry) (e e' : NVEntry) : relabelled r e e' -> e_name e' = e_name e.
Proof. unfold relabelled. destruct (e_body e); [by intros ->|]. case_bool; [by intros (oe & h' & _ & _ & ->)|by intros ->]. Qed.

Lemma relabelled_mono (r r' : NVRegistry) (e e' : NVEntry) :
  (forall n h, r_name_map r !! n = Some h -> r_name_map r' !! n = Some h) -> relabelled r e e' -> relabelled r' e e'.
Proof.
  intros Hm. unfold relabelled. destruct (e_body e); [done|]. case_bool; [|done]. intros (oe & h' & H1 & H2 & H3). eauto 10.
Qed.

(** After the entries of the slots [done] were visited. *)
Record pass1 (done : list (Z * Z)) (t1 : NVTable) (r1 : NVRegistry) : Prop := {
  p1_reg : reg_ext names reg r1;
  p1_static : nt_static t1 = nt_static t;
  p1_dyn : nt_dyn t1 = nt_dyn t;
  p1_done : forall h o e, (h, o) ∈ done -> nt_heap t !! o = Some e -> exists e', nt_heap t1 !! o = Some e' /\ relabelled r1 e e';
  p1_rest : forall o, (forall h, (h, o) ∉ done) -> nt_heap t1 !! o = nt_heap t !! o
}.

Lemma pass1_link (done : list (Z * Z)) (t1 : NVTable) (r1 : NVRegistry) (h : Z) : pass1 done t1 r1 -> link t1 h = link t h.
Proof. intros [_ H1 H2 _ _]. unfold link, nv_table_get_entry, nv_table_get_entry_slow, nt_num_static, nt_num_dyn. by rewrite H1, H2. Qed.

(** Names are where they were. *)
Lemma pass1_lookup (done : list (Z * Z)) (t1 : NVTable) (r1 : NVRegistry) (h : Z) (e : NVEntry) : pass1 done t1 r1 ->
  done ⊆ nt_dyn t -> nv_lookup t h = Some e -> exists e', nv_lookup t1 h = Some e' /\ e_name e' = e_name e.
Proof.
  intros Hp Hsub Hv. rewrite nv_lookup_link in *. rewrite (pass1_link done t1 r1 h Hp).
  destruct (link t h) as [o|] eqn:E; [|done]. simpl in *.
  destruct (decide ((h, o) ∈ done)) as [Hin|Hout].
  - destruct (p1_done _ _ _ Hp h o e Hin Hv) as (e' & He' & Hr). exists e'. split; [done|]. by eapply relabelled_name.
  - rewrite (p1_rest _ _ _ Hp o); [eauto|]. intros h' Hin. destruct (slot_link h' o (Hsub _ Hin)) as [Hl _].
    by rewrite (wf_inj _ _ Hwf _ _ _ Hl E) in Hin.
Qed.

Lemma pass1_step (done : list (Z * Z)) (t1 : NVTable) (r1 : NVRegistry) (h o : Z) (e : NVEntry) (s : NVReferencedSlice) :
  pass1 done t1 r1 -> done ⊆ nt_dyn t -> (h, o) ∈ nt_dyn t -> (h, o) ∉ done -> nt_heap t !! o = Some e -> e_body e = VIndirect s ->
  exists t2 r2, _update_indirect_entry t1 r1 o e s = Ret (t2, r2) /\ pass1 (done ++ [(h, o)]) t2 r2.
Proof.
  intros Hp Hsub Hin Hnew He Hs. pose proof (up_room _ _ _ Hup) as Hroom.
  destruct (slot_entry h o Hin) as (e0 & He0 & Hv & Hname). rewrite He in He0. injection He0 as <-.
  destruct (wf_ref _ _ Hwf _ _ _ Hv Hs) as (_ & oe & Hoe & _ & _).
  assert (Hrest : forall t2 r2 e', reg_ext names reg r2 -> nt_static t2 = nt_static t1 -> nt_dyn t2 = nt_dyn t1 ->
    (forall n k, r_name_map r1 !! n = Some k -> r_name_map r2 !! n = Some k) ->
    nt_heap t2 !! o = Some e' -> relabelled r2 e e' -> (forall o', o' <> o -> nt_heap t2 !! o' = nt_heap t1 !! o') ->
    pass1 (done ++ [(h, o)]) t2 r2).
  { intros t2 r2 e' Hr Hst Hdy Hmono He' Hrel Hoth. destruct Hp as [P1 P2 P3 P4 P5]. split; [done|congruence|congruence| |].
    - intros h' o' x [Hd| [= -> ->]%list_elem_of_singleton]%elem_of_app Hx.
      + destruct (P4 h' o' x Hd Hx) as (x' & Hx' & Hrx). exists x'. split; [|by eapply relabelled_mono].
        rewrite Hoth; [done|]. intros ->. pose proof (slots_inj _ _ _ (Hsub _ Hd) Hin) as ->. done.
      + rewrite He in Hx. injection Hx as <-. eauto.
    - intros o' Ho'. rewrite Hoth; [|intros ->; apply (Ho' h), elem_of_app; right; by apply list_elem_of_singleton].
      apply P5. intros h' Hd. apply (Ho' h'), elem_of_app. by left. }
  assert (Hcur : nt_heap t1 !! o = Some e).
  { rewrite (p1_rest _ _ _ Hp o); [done|]. intros h' Hd. by rewrite (slots_inj _ _ _ (Hsub _ Hd) Hin) in Hd. }
  unfold _update_indirect_entry. assert (Hns1 : nt_num_static t1 = ns) by (unfold nt_num_static, ns; by rewrite (p1_static _ _ _ Hp)).
  rewrite Hns1. destruct (decide (ns < rs_handle s)) as [Hdyn|Hst].
  - rewrite bool_decide_eq_true_2 by lia. destruct (pass1_lookup _ _ _ _ _ Hp Hsub Hoe) as (oe' & -> & Hon). rewrite Hon.
    destruct (dynamic_slot _ _ Hdyn Hoe) as (oo & Hoin & _). destruct (slot_entry _ _ Hoin) as (oe2 & _ & Hoe2 & Honame).
    rewrite Hoe in Hoe2. injection Hoe2 as <-. pose proof (rm_len _ _ Hroom _ Honame) as Hlen.
    rewrite bool_decide_eq_false_2 by lia.
    pose proof (alloc_in names reg r1 (e_name oe) (p1_reg _ _ _ Hp) Hroom Honame) as Ha.
    destruct (nv_registry_alloc_handle r1 (e_name oe)) as [h1 r2]. destruct Ha as (Hx1 & Hx2 & Hx3 & Hx4).
    rewrite bool_decide_eq_true_2 by done. cbn [obind].
    pose proof (alloc_in names reg r2 (e_name e) Hx1 Hroom Hname) as Hb.
    destruct (nv_registry_alloc_handle r2 (e_name e)) as [h2 r3]. destruct Hb as (Hy1 & Hy2 & Hy3 & Hy4). cbn [snd].
    eexists _, _. split; [done|]. apply (Hrest _ _ (with_handle e s h1)); [done|done|done|auto|apply lookup_insert_eq| |].
    + unfold relabelled. rewrite Hs, bool_decide_eq_true_2 by done. eauto 10.
    + intros o' Ho'. simpl. by rewrite lookup_insert_ne.
  - rewrite bool_decide_eq_false_2 by lia. cbn [obind].
    pose proof (alloc_in names reg r1 (e_name e) (p1_reg _ _ _ Hp) Hroom Hname) as Hb.
    destruct (nv_registry_alloc_handle r1 (e_name e)) as [h2 r3]. destruct Hb as (Hy1 & Hy2 & Hy3 & Hy4). cbn [snd].
    eexists _, _. split; [done|]. apply (Hrest _ _ e); [done|done|done|done|done| |done].
    unfold relabelled. by rewrite Hs, bool_decide_eq_false_2.
Qed.

Lemma pass1_direct (done : list (Z * Z)) (t1 : NVTable) (r1 : NVRegistry) (h o : Z) (e : NVEntry) (v : bytes) :
  pass1 done t1 r1 -> nt_heap t1 !! o = Some e -> nt_heap t !! o = Some e -> e_body e = VDirect v -> pass1 (done ++ [(h, o)]) t1 r1.
Proof.
  intros [P1 P2 P3 P4 P5] He1 He Hb. split; [done..| |].
  - intros h' o' x [Hd| [= -> ->]%list_elem_of_singleton]%elem_of_app Hx; [by eapply P4|].
    rewrite He in Hx. injection Hx as <-. exists e. split; [done|]. unfold relabelled. by rewrite Hb.
  - intros o' Ho'. apply P5. intros h' Hd. apply (Ho' h'), elem_of_app. by left.
Qed.

Lemma pass1_ok (dyn done : list (Z * Z)) (t1 : NVTable) (r1 : NVRegistry) : pass1 done t1 r1 -> nt_dyn t = done ++ dyn ->
  exists t2 r2, update_indirect_loop dyn t1 r1 = Ret (t2, r2) /\ pass1 (nt_dyn t) t2 r2.
Proof.
  revert done t1 r1. induction dyn as [|[h o] dyn IH]; intros done t1 r1 Hp Hd.
  { rewrite app_nil_r in Hd. rewrite Hd. eauto. }
  assert (Hin : (h, o) ∈ nt_dyn t) by (rewrite Hd; apply elem_of_app; right; apply elem_of_cons; by left).
  assert (Hsub : done ⊆ nt_dyn t) by (intros x Hx; rewrite Hd; apply elem_of_app; by left).
  assert (Hnew : (h, o) ∉ done).
  { pose proof slots_NoDup as Hn. rewrite Hd in Hn. apply NoDup_app in Hn as (_ & Hn & _). intros Hx. apply (Hn _ Hx), elem_of_cons. by left. }
  destruct (slot_entry h o Hin) as (e & He & _ & _). pose proof (up_slots _ _ _ Hup _ Hin) as Hz. simpl in Hz.
  assert (Hcur : nt_heap t1 !! o = Some e).
  { rewrite (p1_rest _ _ _ Hp o); [done|]. intros h' Hx. by rewrite (slots_inj _ _ _ (Hsub _ Hx) Hin) in Hx. }
  assert (Hd' : nt_dyn t = (done ++ [(h, o)]) ++ dyn) by (by rewrite <- app_assoc).
  cbn [update_indirect_loop]. unfold nv_table_get_entry_at_ofs. rewrite bool_decide_eq_false_2, Hcur by done.
  destruct (e_body e) as [v|s] eqn:Eb.
  - apply (IH (done ++ [(h, o)])); [by eapply pass1_direct|done].
  - destruct (pass1_step done t1 r1 h o e s Hp Hsub Hin Hnew He Eb) as (t2 & r2 & -> & Hp2). cbn [obind]. by apply (IH (done ++ [(h, o)])).
Qed.

(** ** Second pass: the slots *)

Lemma set_updated_lookup (hs new : list Z) (old k : Z) (j : nat) : length new = length hs ->
  set_updated hs old k new !! j = if decide (hs !! j = Some old) then Some k else new !! j.
Proof.
  revert new j. induction hs as [|h hs IH]; intros [|n new] j Hl; try done; cbn [set_updated].
  destruct j as [|j]; cbn [lookup list_lookup].
  - case_bool; destruct (decide _) as [Hd|Hd]; congruence.
  - apply (IH new j). simpl in Hl. lia.
Qed.

Lemma set_updated_length (hs new : list Z) (old k : Z) : length (set_updated hs old k new) = length new.
Proof. revert new. induction hs as [|h hs IH]; intros [|n new]; simpl; [done..|]. by rewrite IH. Qed.

Definition renumbered (r : NVRegistry) (p q : Z * Z) : Prop := q.2 = p.2 /\ r_name_map r !! slot_name t p = Some q.1.

Lemma pass2_ok (t1 : NVTable) (r1 : NVRegistry) (hs : list Z) : pass1 (nt_dyn t) t1 r1 ->
  forall dyn r2 new, dyn ⊆ nt_dyn t -> NoDup dyn -> reg_ext names reg r2 -> length new = length hs ->
  exists dyn' r3 new', update_dyn_loop dyn t1 r2 hs new = Ret (dyn', r3, new') /\ reg_ext names reg r3 /\
    (forall n k, r_name_map r2 !! n = Some k -> r_name_map r3 !! n = Some k) /\
    Forall2 (renumbered r3) dyn dyn' /\ length new' = length hs /\
    (forall j h, hs !! j = Some h ->
       (forall o, (h, o) ∈ dyn -> new' !! j = r_name_map r3 !! slot_name t (h, o)) /\
       ((forall o, (h, o) ∉ dyn) -> new' !! j = new !! j)).
Proof.
  intros Hp. induction dyn as [|[h o] dyn IH]; intros r2 new Hsub Hnd Hr Hl.
  { exists [], r2, new. split; [done|]. split; [done|]. split; [done|]. split; [constructor|]. split; [done|].
    intros j h Hj. split; [by intros o Ho%elem_of_nil|done]. }
  assert (Hin : (h, o) ∈ nt_dyn t) by (apply Hsub, elem_of_cons; by left).
  inversion Hnd as [|? ? Hni Hnd']; subst. destruct (slot_entry h o Hin) as (e & He & Hv & Hname).
  destruct (p1_done _ _ _ Hp h o e Hin He) as (e' & He' & Hrel). pose proof (relabelled_name _ _ _ Hrel) as Hen.
  pose proof (up_slots _ _ _ Hup _ Hin) as Hz. simpl in Hz. cbn [update_dyn_loop]. unfold nv_table_get_entry_at_ofs.
  rewrite bool_decide_eq_false_2, He', Hen by done.
  pose proof (alloc_in names reg r2 (e_name e) Hr (up_room _ _ _ Hup) Hname) as Ha.
  destruct (nv_registry_alloc_handle r2 (e_name e)) as [k r2']. destruct Ha as (Hx1 & Hx2 & Hx3 & Hx4).
  destruct (IH r2' (set_updated hs h k new)) as (dyn' & r3 & new' & Hloop & Hr3 & Hmono & Hf & Hlen & Hnew).
  { intros x Hx. apply Hsub, elem_of_cons. by right. } { done. } { done. } { by rewrite set_updated_length. }
  assert (Hsn : slot_name t (h, o) = e_name e) by (unfold slot_name; simpl; by rewrite He).
  rewrite Hloop. cbn [obind]. exists ((k, o) :: dyn'), r3, new'. split; [done|]. split; [done|]. split; [auto|].
  split; [constructor; [split; [done|rewrite Hsn; auto]|done]|]. split; [done|].
  intros j h' Hj. destruct (Hnew j h' Hj) as [N1 N2]. rewrite set_updated_lookup in N2 by done. split.
  - intros o' [[= -> ->]|Ho']%elem_of_cons; [|by apply N1]. rewrite N2; [rewrite decide_True, Hsn by done|].
    + symmetry. by apply Hmono.
    + intros o' Ho'. assert (Hin' : (h, o') ∈ nt_dyn t) by (apply Hsub, elem_of_cons; by right).
      by rewrite (slots_fun _ _ _ Hin' Hin) in Ho'.
  - intros Hno. rewrite N2, decide_False; [done| |].
    + rewrite Hj. intros [= ->]. apply (Hno o), elem_of_cons. by left.
    + intros o' Ho'. apply (Hno o'), elem_of_cons. by right.
Qed.

(** ** Handles of the final registry *)

Lemma ext_handle (r : NVRegistry) (n : bytes) (h : Z) : reg_ext names reg r -> n ∈ names -> r_name_map r !! n = Some h -> ns < h < 2 ^ 31.
Proof.
  intros [Hw Hmax _ (ds & Hds & Hnd & Hin & Hnew)] Hn Hm. pose proof (rw_map _ Hw _ _ Hm).
  assert (Hsub : (length (hd_name <$> ds) <= length names)%nat) by (apply submseteq_length, NoDup_submseteq; [done|intros x Hx; by apply Hin]).
  assert (Hlt : lenZ (r_names r) < 2 ^ 31) by (pose proof (up_count _ _ _ Hup) as Hc; rewrite Hds, lenZ_app; rewrite length_fmap in Hsub; unfold lenZ, names in *; lia).
  split; [|lia]. destruct (Hnew n h Hm) as [Hold|Hd]; [by eapply (up_dynamic _ _ _ Hup)|].
  destruct (desc_named r _ _ n Hw Hds Hd) as (i & Hi & _). rewrite Hm in Hi. injection Hi as ->. pose proof (up_static _ _ _ Hup).
  unfold ns. lia.
Qed.

Lemma ext_inj (r : NVRegistry) (n m : bytes) (h : Z) : reg_ext names reg r -> n ∈ names -> m ∈ names ->
  r_name_map r !! n = Some h -> r_name_map r !! m = Some h -> n = m.
Proof.
  intros [Hw Hmax _ (ds & Hds & _ & _ & Hnew)] Hn Hm En Em. pose proof (up_reg _ _ _ Hup) as Hw0.
  destruct (Hnew n h En) as [H0|Hd], (Hnew m h Em) as [H1|Hd1].
  - by eapply (up_inj _ _ _ Hup).
  - destruct (desc_named r _ _ m Hw Hds Hd1) as (i & Hi & _). pose proof (rw_map _ Hw0 _ _ H0). rewrite Em in Hi. injection Hi. lia.
  - destruct (desc_named r _ _ n Hw Hds Hd) as (i & Hi & _). pose proof (rw_map _ Hw0 _ _ H1). rewrite En in Hi. injection Hi. lia.
  - destruct (desc_named r _ _ n Hw Hds Hd) as (i & Hi & Li). destruct (desc_named r _ _ m Hw Hds Hd1) as (j & Hj & Lj).
    rewrite En in Hi. rewrite Em in Hj. assert (i = j) as -> by (injection Hi; injection Hj; lia). congruence.
Qed.

(** ** The slots after the second pass *)

Lemma renumbered_elem (r : NVRegistry) (dyn dyn' : list (Z * Z)) (q : Z * Z) : Forall2 (renumbered r) dyn dyn' -> q ∈ dyn' ->
  exists p, p ∈ dyn /\ renumbered r p q.
Proof.
  intros Hf [i Hi]%list_elem_of_lookup. destruct (Forall2_lookup_r _ _ _ _ _ Hf Hi) as (p & Hp & Hr).
  exists p. split; [by eapply list_elem_of_lookup_2|done].
Qed.

Lemma slot_name_in (p : Z * Z) : p ∈ nt_dyn t -> slot_name t p ∈ names.
Proof. intros Hp. unfold names, slot_names. apply list_elem_of_fmap. eauto. Qed.

Lemma renumbered_NoDup (r : NVRegistry) (dyn dyn' : list (Z * Z)) : reg_ext names reg r -> dyn ⊆ nt_dyn t -> NoDup (slot_name t <$> dyn) ->
  Forall2 (renumbered r) dyn dyn' -> NoDup (fst <$> dyn').
Proof.
  intros Hr Hsub Hnd Hf. induction Hf as [|p q dyn dyn' [Hq2 Hq1] Hf IH]; [constructor|]. rewrite fmap_cons in *.
  inversion Hnd as [|? ? Hni Hnd']; subst. constructor; [|apply IH; [|done]; intros x Hx; apply Hsub, elem_of_cons; by right].
  intros Hin. apply list_elem_of_fmap in Hin as (q' & Eq & Hq'). destruct (renumbered_elem _ _ _ _ Hf Hq') as (p' & Hp' & _ & Hp1).
  apply Hni. rewrite (ext_inj r (slot_name t p) (slot_name t p') q.1 Hr); [by apply list_elem_of_fmap_2| | |done|congruence].
  - apply slot_name_in, Hsub, elem_of_cons. by left.
  - apply slot_name_in, Hsub, elem_of_cons. by right.
Qed.
End update.
