(* ===== verification/NVTableUpdateClaims.v ===== *)
(** * Values before and after renumbering *)
From S2P Require Import Prelude NVTable NVTableInv NVTableOps NVTableStore NVTableSpec NVRegistry NVTableUpdate.
From Stdlib Require Import Sorted.

(** ** The renumbered table *)

Section final.
Context (nm : Z -> bytes) (t : NVTable) (reg : NVRegistry) (Hup : updatable nm t reg).
Context (t1 : NVTable) (r1 r3 : NVRegistry) (dyn' sorted : list (Z * Z)).
Context (Hp1 : pass1 t reg (nt_dyn t) t1 r1) (Hr3 : reg_ext (slot_names t) reg r3)
  (Hmono : forall n k, r_name_map r1 !! n = Some k -> r_name_map r3 !! n = Some k)
  (Hren : Forall2 (renumbered t r3) (nt_dyn t) dyn') (Hperm : Permutation sorted dyn') (Hsorted : dyn_sorted sorted).

Let ns := nt_num_static t.
Let t' := set_dyn t1 sorted.

Lemma final_static : nt_static t' = nt_static t.
Proof. apply (p1_static _ _ _ _ _ Hp1). Qed.

Lemma final_slot (q : Z * Z) : q ∈ nt_dyn t' -> exists p, p ∈ nt_dyn t /\ renumbered t r3 p q.
Proof. intros Hq. simpl in Hq. rewrite Hperm in Hq. by eapply renumbered_elem. Qed.

Lemma final_keys : keys32 t'.
Proof.
  split; [done|]. intros i q Hq. destruct (final_slot q) as (p & Hp & _ & Hm); [by eapply list_elem_of_lookup_2|].
  pose proof (ext_handle nm t reg Hup r3 _ _ Hr3 (slot_name_in t p Hp) Hm) as Hh.
  unfold nt_num_static in *. rewrite final_static. lia.
Qed.

(** The new handle of a dynamic value leads to its entry. *)
Lemma final_link (h o k : Z) : (h, o) ∈ nt_dyn t -> r_name_map r3 !! slot_name t (h, o) = Some k -> link t' k = Some o.
Proof.
  intros Hin Hk. pose proof (ext_handle nm t reg Hup r3 _ _ Hr3 (slot_name_in t _ Hin) Hk) as Hh.
  pose proof (lenZ_nonneg (nt_static t)). apply (link_iff32 _ _ _ final_keys).
  split; [apply (up_slots _ _ _ Hup _ Hin)|]. unfold nt_num_static in *. rewrite final_static. split; [lia|]. right. split; [lia|].
  simpl. rewrite Hperm. pose proof Hin as [i Hi]%list_elem_of_lookup.
  destruct (Forall2_lookup_l _ _ _ _ _ Hren Hi) as (q & Hq & Hq2 & Hq1). apply list_elem_of_lookup. exists i. rewrite Hq.
  rewrite Hk in Hq1. destruct q as [q1 q2]. simpl in *. congruence.
Qed.

Lemma final_link_static (h : Z) : h <= ns -> link t' h = link t h.
Proof.
  intros Hh. apply link_eq_ext. intros o. rewrite (link_iff32 _ _ _ final_keys), link_iff by apply Hup.
  unfold ns, nt_num_static in *. rewrite final_static. split; (intros (H1 & H2 & [H3|[H3 _]]); [by auto|lia]).
Qed.

Lemma final_lookup_static (h : Z) : h <= ns -> nv_lookup t' h = nv_lookup t h.
Proof.
  intros Hh. rewrite !nv_lookup_link, final_link_static by done. destruct (link t h) as [o|] eqn:E; [|done]. simpl.
  apply (p1_rest _ _ _ _ _ Hp1). intros h' Hin. destruct (slot_link nm t reg Hup h' o Hin) as [Hl Hd].
  pose proof (wf_inj _ _ (up_wf _ _ _ Hup) _ _ _ Hl E). unfold ns in Hh. lia.
Qed.

Lemma final_lookup (h : Z) (e : NVEntry) : ns < h -> nv_lookup t h = Some e -> exists k e',
  r_name_map r3 !! e_name e = Some k /\ nv_lookup t' k = Some e' /\ relabelled t r3 e e'.
Proof.
  intros Hh Hv. destruct (dynamic_slot nm t reg Hup h e Hh Hv) as (o & Hin & He).
  assert (Hsn : slot_name t (h, o) = e_name e) by (unfold slot_name; simpl; by rewrite He).
  pose proof Hin as [i Hi]%list_elem_of_lookup. destruct (Forall2_lookup_l _ _ _ _ _ Hren Hi) as (q & _ & _ & Hq1).
  rewrite Hsn in Hq1. destruct (p1_done _ _ _ _ _ Hp1 h o e Hin He) as (e' & He' & Hrel). exists q.1, e'. split; [done|].
  split; [|by eapply relabelled_mono]. rewrite nv_lookup_link, (final_link h o) by (done || by rewrite Hsn). done.
Qed.

(** Where a handle went. *)
Definition moved (h k : Z) : Prop :=
  (h <= ns /\ k = h) \/ (ns < h /\ exists e, nv_lookup t h = Some e /\ r_name_map r3 !! e_name e = Some k).

Lemma final_value (fuel : nat) (h k : Z) : moved h k -> nv_table_get_value_fuel fuel t' k = nv_table_get_value_fuel fuel t h.
Proof.
  revert h k. induction fuel as [|fuel IH]; intros h k Hm; [done|]. cbn [nv_table_get_value_fuel].
  destruct Hm as [[Hh ->]|(Hh & e & Hv & Hk)].
  - rewrite final_lookup_static by done. destruct (nv_lookup t h) as [e|] eqn:Hv; [|done].
    destruct (e_body e) as [v|s] eqn:Hb; [done|]. rewrite (IH (rs_handle s) (rs_handle s)); [done|].
    left. split; [|done]. by eapply (up_refs _ _ _ Hup).
  - destruct (final_lookup h e Hh Hv) as (k' & e' & Hk' & Hv' & Hrel). rewrite Hk in Hk'. injection Hk' as <-.
    rewrite Hv, Hv'. unfold relabelled in Hrel. destruct (e_body e) as [v|s] eqn:Hb; [subst e'; by rewrite Hb|].
    revert Hrel. case_bool.
    + intros (oe & h' & Hoe & Hh' & ->). cbn [with_handle e_body rs_handle]. rewrite (IH (rs_handle s) h'); [done|].
      right. split; [done|]. eauto.
    + intros ->. rewrite Hb, (IH (rs_handle s) (rs_handle s)); [done|]. left. unfold ns in *. split; [lia|done].
Qed.
End final.

(** ** Claims *)

Lemma update_ids_runs (qsort : (Z * Z -> Z * Z -> Z) -> list (Z * Z) -> list (Z * Z)) (nm : Z -> bytes) (t : NVTable)
  (reg : NVRegistry) (hs : list Z) : qsort_spec qsort -> updatable nm t reg ->
  exists t1 r1 r3 dyn' hs', nv_table_update_ids qsort t reg hs = Ret (set_dyn t1 (qsort _dyn_entry_cmp dyn'), r3, hs') /\
    pass1 t reg (nt_dyn t) t1 r1 /\ reg_ext (slot_names t) reg r3 /\
    (forall n k, r_name_map r1 !! n = Some k -> r_name_map r3 !! n = Some k) /\
    Forall2 (renumbered t r3) (nt_dyn t) dyn' /\
    Permutation (qsort _dyn_entry_cmp dyn') dyn' /\ dyn_sorted (qsort _dyn_entry_cmp dyn') /\
    (forall j h, hs !! j = Some h ->
       (forall o, (h, o) ∈ nt_dyn t -> hs' !! j = r_name_map r3 !! slot_name t (h, o)) /\
       ((forall o, (h, o) ∉ nt_dyn t) -> hs' !! j = Some 0)).
Proof.
  intros Hq Hup. assert (P0 : pass1 t reg [] t reg).
  { split; [apply reg_ext_refl, Hup|done|done|by intros h o e Hin%elem_of_nil|done]. }
  destruct (pass1_ok nm t reg Hup (nt_dyn t) [] t reg P0 eq_refl) as (t1 & r1 & Hl1 & P1).
  destruct (pass2_ok nm t reg Hup t1 r1 hs P1 (nt_dyn t) r1 (replicate (length hs) 0)) as (dyn' & r3 & hs' & Hl2 & E3 & M3 & F3 & L3 & N3).
  { done. } { by eapply slots_NoDup. } { apply (p1_reg _ _ _ _ _ P1). } { by rewrite length_replicate. }
  assert (Hnd : NoDup (fst <$> dyn')) by (by eapply (renumbered_NoDup nm t reg Hup r3 (nt_dyn t)); [done|done|apply (up_names _ _ _ Hup)|]).
  assert (Hrange : forall p, p ∈ dyn' -> 0 <= p.1 < 2 ^ 31).
  { intros p Hp. destruct (renumbered_elem _ _ _ _ _ F3 Hp) as (p0 & Hp0 & _ & Hm).
    pose proof (ext_handle nm t reg Hup r3 _ _ E3 (slot_name_in t p0 Hp0) Hm). pose proof (lenZ_nonneg (nt_static t)).
    unfold nt_num_static in *. lia. }
  destruct (sorted_slots qsort dyn' Hq Hrange Hnd) as [Hperm Hsorted].
  exists t1, r1, r3, dyn', hs'. split.
  { unfold nv_table_update_ids, _update_all_indirect_entries. rewrite Hl1. cbn [obind]. unfold _update_dynamic_handles.
    rewrite (p1_dyn _ _ _ _ _ P1), Hl2. done. }
  split; [done|]. split; [done|]. split; [done|]. split; [done|]. split; [done|]. split; [done|].
  intros j h Hj. destruct (N3 j h Hj) as [N4 N5]. split; [done|]. intros Hno. rewrite N5 by done.
  apply lookup_replicate_2. by eapply lookup_lt_Some.
Qed.

(** C15: renumbering keeps the values.  The registry may have the limit of the program, 2^32 - 1, with less than 2^31 names together
    with those of the table; it has room for them, and knows no two names of the table under one handle (aliases) and none as a static value.
    Every dynamic slot of the table has an entry with a name of its own, and static values refer to static ones only:
    one that refers to a dynamic value is lost (update_ids_loses_static_reference).  Then the renumbering
    returns; afterwards the slots are in order, every dynamic value is found
    under the handle this registry has for its name, every static value under
    its own handle, with the contents it had before, references included; and
    the handles kept beside the table follow their values, or become zero when
    the table has no such value. *)
Theorem nv_table_update_ids_correct (qsort : (Z * Z -> Z * Z -> Z) -> list (Z * Z) -> list (Z * Z)) (nm : Z -> bytes)
  (t : NVTable) (reg : NVRegistry) (hs : list Z) (Hq : qsort_spec qsort) (Hup : updatable nm t reg) :
  exists t' reg' hs', nv_table_update_ids qsort t reg hs = Ret (t', reg', hs') /\ dyn_sorted (nt_dyn t') /\
    (forall h e, nt_num_static t < h -> nv_lookup t h = Some e ->
       let h' := nv_registry_get_handle reg' (e_name e) in
       nt_num_static t < h' /\ nv_table_get_value t' h' = nv_table_get_value t h) /\
    (forall h, h <= nt_num_static t -> nv_table_get_value t' h = nv_table_get_value t h) /\
    (forall j h, hs !! j = Some h ->
       (forall e, nt_num_static t < h -> nv_lookup t h = Some e -> hs' !! j = Some (nv_registry_get_handle reg' (e_name e))) /\
       ((forall o, (h, o) ∉ nt_dyn t) -> hs' !! j = Some 0)).
Proof.
  destruct (update_ids_runs qsort nm t reg hs Hq Hup) as (t1 & r1 & r3 & dyn' & hs' & Hrun & P1 & E3 & M3 & F3 & Hperm & Hs & Hhs).
  pose proof (re_wf _ _ _ E3) as W3.
  exists (set_dyn t1 (qsort _dyn_entry_cmp dyn')), r3, hs'. split; [done|]. split; [done|].
  assert (Hget : forall h e, nt_num_static t < h -> nv_lookup t h = Some e ->
    r_name_map r3 !! e_name e = Some (nv_registry_get_handle r3 (e_name e))).
  { intros h e Hh Hv. destruct (final_lookup nm t reg Hup t1 r1 r3 dyn' _ P1 E3 M3 F3 Hperm Hs h e Hh Hv) as (k & e' & Hk & _).
    rewrite Hk, get_handle_wf, Hk by done. done. }
  split; [|split].
  - intros h e Hh Hv h'. pose proof (Hget h e Hh Hv) as Hk. fold h' in Hk.
    destruct (dynamic_slot nm t reg Hup h e Hh Hv) as (o & Hin & He). destruct (slot_entry nm t reg Hup h o Hin) as (e0 & He0 & _ & Hn).
    rewrite He in He0. injection He0 as <-. split; [by apply (ext_handle nm t reg Hup r3 _ _ E3 Hn Hk)|].
    apply (final_value nm t reg Hup t1 r1 r3 dyn' _ P1 E3 M3 F3 Hperm Hs). right. eauto.
  - intros h Hh. apply (final_value nm t reg Hup t1 r1 r3 dyn' _ P1 E3 M3 F3 Hperm Hs). by left.
  - intros j h Hj. destruct (Hhs j h Hj) as [H1 H2]. split; [|done]. intros e Hh Hv.
    destruct (dynamic_slot nm t reg Hup h e Hh Hv) as (o & Hin & He). rewrite (H1 o Hin), <- (Hget h e Hh Hv).
    unfold slot_name. simpl. by rewrite He.
Qed.

(** *** A concrete [qsort] *)

Fixpoint insert_sorted (cmp : Z * Z -> Z * Z -> Z) (a : Z * Z) (l : list (Z * Z)) : list (Z * Z) :=
  match l with
  | [] => [a]
  | b :: l => if bool_decide (cmp a b <= 0) then a :: b :: l else b :: insert_sorted cmp a l
  end.

Definition insertion_sort (cmp : Z * Z -> Z * Z -> Z) (l : list (Z * Z)) : list (Z * Z) := foldr (insert_sorted cmp) [] l.

Lemma insert_sorted_perm (cmp : Z * Z -> Z * Z -> Z) (a : Z * Z) (l : list (Z * Z)) : Permutation (insert_sorted cmp a l) (a :: l).
Proof.
  induction l as [|b l IH]; simpl; [done|]. case_bool; [done|]. rewrite IH. apply Permutation_swap.
Qed.

Lemma insertion_sort_perm (cmp : Z * Z -> Z * Z -> Z) (l : list (Z * Z)) : Permutation (insertion_sort cmp l) l.
Proof. induction l as [|a l IH]; simpl; [done|]. rewrite insert_sorted_perm. by f_equiv. Qed.

Lemma insert_sorted_sorted (cmp : Z * Z -> Z * Z -> Z) (all : list (Z * Z)) (a : Z * Z) (l : list (Z * Z)) :
  cmp_orders cmp all -> a ∈ all -> l ⊆ all -> StronglySorted (fun x y => cmp x y <= 0) l ->
  StronglySorted (fun x y => cmp x y <= 0) (insert_sorted cmp a l).
Proof.
  intros [Hanti Htr] Ha Hl Hs. induction Hs as [|b l Hs IH Hb]; simpl; [by repeat constructor|].
  assert (Hbin : b ∈ all) by (apply Hl, elem_of_cons; by left).
  assert (Hsub : l ⊆ all) by (intros x Hx; apply Hl, elem_of_cons; by right).
  case_bool.
  - constructor; [by constructor|]. constructor; [done|]. rewrite Forall_forall in Hb |- *. intros x Hx.
    apply (Htr a b x); auto.
  - constructor; [by apply IH|]. rewrite Forall_forall in Hb |- *. intros x Hx. rewrite insert_sorted_perm in Hx.
    apply elem_of_cons in Hx as [->|Hx]; [|auto]. pose proof (Hanti b a Hbin Ha). lia.
Qed.

Lemma insertion_sort_spec : qsort_spec insertion_sort.
Proof.
  intros cmp l Hc. split; [apply insertion_sort_perm|].
  assert (Hs : StronglySorted (fun x y => cmp x y <= 0) (insertion_sort cmp l)).
  { assert (Hsub : l ⊆ l) by done. revert Hsub. generalize l at 1 3 as k. induction k as [|a k IH]; intros Hk; simpl; [constructor|].
    assert (Hk' : k ⊆ l) by (intros x Hx; apply Hk, elem_of_cons; by right).
    apply (insert_sorted_sorted cmp l); [done|apply Hk, elem_of_cons; by left| |by apply IH].
    intros x Hx. rewrite insertion_sort_perm in Hx. by apply Hk'. }
  clear Hc. induction Hs as [|x k Hs IH Hf]; [done|]. intros [|i] [|j] a b Hi Hj Hij; simpl in *; try lia.
  - injection Hi as ->. rewrite Forall_lookup in Hf. by eapply Hf.
  - eapply (IH i j); [done|done|lia].
Qed.

(** *** Witness *)

Definition stored_name (h : Z) : bytes :=
  if bool_decide (h = 5) then bytes_of_string "b" else if bool_decide (h = 9) then bytes_of_string "a" else bytes_of_string "c".

(** A stored table: [HOST] and the values [b], [a], and [c], which refers to a
    part of [a], under the handles of an earlier run. *)
Definition stored_table : NVTable :=
  let t := nv_table_new 1 4 128 in
  let t := snd (nv_table_add_value t 1 (stored_name 1) (bytes_of_string "here") None) in
  let t := snd (nv_table_add_value t 5 (stored_name 5) (bytes_of_string "vb") None) in
  let t := snd (nv_table_add_value t 9 (stored_name 9) (bytes_of_string "value of a") None) in
  match nv_table_add_value_indirect t 11 (stored_name 11) (mkSlice 9 6 2 0) None with Ret (_, _, t) => t | Abort => t end.

Definition new_registry : NVRegistry :=
  snd (nv_registry_alloc_handle (nv_registry_new [bytes_of_string "HOST"] (2 ^ 32 - 1)) (bytes_of_string "c")).

Definition stored_names : list bytes := [bytes_of_string "b"; bytes_of_string "a"; bytes_of_string "c"].

Lemma stored_table_wf : nv_wf stored_name stored_table.
Proof.
  eapply nv_step_wf; [eapply nv_step_wf; [eapply nv_step_wf; [eapply nv_step_wf; [apply (nv_table_init_wf stored_name 180 1); [vm_compute; discriminate|lia]|]|]|]|].
  - eapply (step_add _ _ 1 (bytes_of_string "here") None true None); [lia|vm_compute; reflexivity].
  - eapply (step_add _ _ 5 (bytes_of_string "vb") None true None); [lia|vm_compute; reflexivity].
  - eapply (step_add _ _ 9 (bytes_of_string "value of a") None true None); [lia|vm_compute; reflexivity].
  - eapply (step_add_indirect _ _ 11 (mkSlice 9 6 2 0) None true None); [lia|unfold slice_ok; simpl; lia| |vm_compute; reflexivity].
    vm_compute. reflexivity.
Qed.

Lemma stored_table_names : slot_names stored_table = stored_names.
Proof. by vm_compute. Qed.

Lemma stored_names_map (n : bytes) (h : Z) : n ∈ stored_names -> r_name_map new_registry !! n = Some h -> n = bytes_of_string "c" /\ h = 2.
Proof.
  intros [->|[->|[->|[]%elem_of_nil]%elem_of_cons]%elem_of_cons]%elem_of_cons Hm; vm_compute in Hm; try discriminate Hm.
  injection Hm as <-. done.
Qed.

Lemma new_registry_wf : reg_wf new_registry.
Proof. apply alloc_handle_wf, reg_new_wf. lia. Qed.

Lemma stored_updatable : updatable stored_name stored_table new_registry.
Proof.
  split; [apply stored_table_wf|apply new_registry_wf|..]; rewrite ?stored_table_names.
  - assert (E : Forall (fun p => p.2 <> 0) (nt_dyn stored_table)) by (vm_compute; repeat constructor; discriminate).
    intros p Hp. rewrite Forall_forall in E. by apply E.
  - apply (bool_decide_unpack _). by vm_compute.
  - split; [|vm_compute; discriminate]. assert (E : Forall (fun n => 1 <= lenZ n <= 255) stored_names) by (vm_compute; repeat constructor; discriminate).
    intros n Hn. rewrite Forall_forall in E. by apply E.
  - done.
  - vm_compute. discriminate.
  - intros n h Hn Hm. destruct (stored_names_map n h Hn Hm) as [_ ->]. done.
  - intros n m h Hn Hm H1 H2. destruct (stored_names_map n h Hn H1) as [-> _]. destruct (stored_names_map m h Hm H2) as [-> _]. done.
  - intros h e s Hh Hv Hb. change (nt_num_static stored_table) with 1 in Hh. destruct (decide (h = 1)) as [->|Hne].
    + vm_compute in Hv. injection Hv as <-. discriminate Hb.
    + unfold nv_lookup, nv_table_get_entry in Hv. rewrite bool_decide_eq_true_2 in Hv by lia. done.
Qed.

Lemma nv_table_update_ids_correct_witness :
  exists t' reg' hs', nv_table_update_ids insertion_sort stored_table new_registry [11; 7] = Ret (t', reg', hs') /\
    nv_table_get_value t' (nv_registry_get_handle reg' (bytes_of_string "c")) = Some (bytes_of_string "of", 2) /\
    hs' = [2; 0].
Proof.
  destruct (nv_table_update_ids_correct insertion_sort stored_name stored_table new_registry [11; 7] insertion_sort_spec stored_updatable)
    as (t' & reg' & hs' & Hrun & _ & Hval & _).
  exists t', reg', hs'. split; [exact Hrun|]. split.
  - destruct (nv_lookup stored_table 11) as [e|] eqn:E; [|vm_compute in E; discriminate E].
    destruct (Hval 11 e ltac:(vm_compute; reflexivity) E) as [_ Hv]. vm_compute in E. injection E as <-. exact Hv.
  - vm_compute in Hrun. injection Hrun as _ _ <-. reflexivity.
Defined.

(** *** Static values that refer to dynamic ones *)

(** The first pass touches no entry outside the dynamic slots. *)
Lemma indirect_loop_outside (dyn : list (Z * Z)) (t t' : NVTable) (r r' : NVRegistry) (o : Z) :
  update_indirect_loop dyn t r = Ret (t', r') -> (forall h, (h, o) ∉ dyn) ->
  nt_heap t' !! o = nt_heap t !! o /\ nt_static t' = nt_static t.
Proof.
  revert t r. induction dyn as [|[h o'] dyn IH]; intros t r H Hno; cbn [update_indirect_loop] in H; [by injection H as <- _|].
  assert (Ho : o' <> o) by (intros ->; apply (Hno h), elem_of_cons; by left).
  assert (Hno' : forall h', (h', o) ∉ dyn) by (intros h' Hh; apply (Hno h'), elem_of_cons; by right).
  unfold nv_table_get_entry_at_ofs in H. revert H. case_bool; [intros H; by apply (IH t r)|].
  destruct (nt_heap t !! o') as [e|]; [|done]. destruct (e_body e) as [v|s]; intros H; [by apply (IH t r)|].
  unfold _update_indirect_entry in H. revert H. case_bool; [|intros H; by apply (IH _ _ H)].
  destruct (nv_lookup t (rs_handle s)) as [oe|]; [|done]. cbn [obind]. case_bool; [intros H; by apply (IH _ _ H)|].
  destruct (nv_registry_alloc_handle r (e_name oe)) as [oh r1]. case_bool; intros H; cbn [obind] in H.
  - destruct (IH _ _ H Hno') as [-> ->]. simpl. by rewrite lookup_insert_ne.
  - by apply (IH _ _ H).
Qed.

(** The binary search answers with a pair that has the handle. *)
Lemma dyn_bsearch_sound (mv : Z -> Z) (dyn : list (Z * Z)) (handle : Z) (fuel : nat) (l h : Z) (m : nat) :
  dyn_bsearch mv dyn handle fuel l h = inl m -> exists p, dyn !! m = Some p /\ mv p.1 = handle.
Proof.
  revert l h. induction fuel as [|fuel IH]; intros l h; cbn [dyn_bsearch]; [done|]. case_bool; [|done].
  destruct (dyn !! Z.to_nat _) as [[hm o]|] eqn:E; [|done]. case_bool; [intros [= <-]; by exists (hm, o)|].
  case_bool; apply IH.
Qed.

Lemma lookup_absent (t : NVTable) (h : Z) : nt_num_static t < h -> (forall p, p ∈ nt_dyn t -> u32 p.1 <> h) -> nv_lookup t h = None.
Proof.
  intros Hh Hno. pose proof (lenZ_nonneg (nt_static t)). unfold nv_lookup, nv_table_get_entry. unfold nt_num_static in *.
  rewrite !bool_decide_eq_false_2 by lia. unfold nv_table_get_entry_slow. case_bool; [done|].
  destruct (bsearch u32 (nt_dyn t) h) as [m|l] eqn:E; [|done]. apply dyn_bsearch_sound in E as (p & Hp & Hm).
  exfalso. apply (Hno p); [by eapply list_elem_of_lookup_2|done].
Qed.

(** static values are left out of the renumbering: a static value that
    refers to a dynamic one keeps the old handle of that value.  When no slot of
    the renumbered table has this handle, the value is lost; it expands to the
    empty string. *)
Theorem update_ids_loses_static_reference (qsort : (Z * Z -> Z * Z -> Z) -> list (Z * Z) -> list (Z * Z)) (nm : Z -> bytes)
  (t t' : NVTable) (reg reg' : NVRegistry) (hs hs' : list Z) (h : Z) (e : NVEntry) (s : NVReferencedSlice)
  (Hwf : nv_wf nm t) (Hrun : nv_table_update_ids qsort t reg hs = Ret (t', reg', hs'))
  (Hh : h <= nt_num_static t) (He : nv_lookup t h = Some e) (Hs : e_body e = VIndirect s) (Hd : nt_num_static t < rs_handle s)
  (Hgone : forall p, p ∈ nt_dyn t' -> u32 p.1 <> rs_handle s) :
  nv_table_get_value t' h = Some null_value.
Proof.
  unfold nv_table_update_ids in Hrun. destruct (_update_all_indirect_entries t reg) as [[t1 r1]|] eqn:E1; [|done].
  cbn [obind] in Hrun. unfold _update_dynamic_handles in Hrun.
  destruct (update_dyn_loop _ _ _ _ _) as [[[dyn r2] new]|]; [|done]. cbn [obind] in Hrun. injection Hrun as <- _ _.
  pose proof He as He'. rewrite nv_lookup_link in He'. destruct (link t h) as [o|] eqn:El; [|done]. simpl in He'.
  unfold _update_all_indirect_entries in E1.
  destruct (indirect_loop_outside (nt_dyn t) t t1 reg r1 o E1) as [Ho Hst].
  { intros h' [i Hi]%list_elem_of_lookup. pose proof (kw_handles _ (wf_keys _ _ Hwf) _ _ Hi) as Hk. simpl in Hk.
    assert (link t h' = Some o).
    { apply link_iff; [apply Hwf|]. apply link_iff in El as (? & ? & _); [|apply Hwf]. split; [done|].
      pose proof (lenZ_nonneg (nt_static t)). unfold nt_num_static in *. split; [lia|]. right. split; [lia|by eapply list_elem_of_lookup_2]. }
    pose proof (wf_inj _ _ Hwf _ _ _ H El). lia. }
  assert (Hl : nv_lookup (set_dyn t1 (qsort _dyn_entry_cmp dyn)) h = Some e).
  { unfold link in El. unfold nv_lookup, nv_table_get_entry in *. cbn [nt_static set_dyn nt_heap nt_num_static] in *.
    unfold nt_num_static in *. cbn [nt_static set_dyn]. rewrite Hst. revert El. case_bool; [done|].
    rewrite bool_decide_eq_true_2 by done. destruct (bool_decide (default 0 _ = 0)) eqn:Eb; [done|]. cbn [fst]. intros [= ->]. by rewrite Ho. }
  unfold nv_table_get_value. cbn [nv_table_get_value_fuel]. rewrite Hl, Hs.
  rewrite lookup_absent; [|unfold nt_num_static in *; simpl; by rewrite Hst|done].
  destruct (wf_ref _ _ Hwf _ _ _ He Hs) as ((H1 & H2 & H3) & _). unfold resolve_slice, null_value. case_bool; [done|].
  rewrite u32_small by lia. replace (Z.min (rs_ofs s + rs_len s) 0 - rs_ofs s) with 0 by lia. by rewrite drop_nil.
Qed.

(** A stored table where [HOST] refers to the dynamic value 9. *)
Definition stored_static_ref : NVTable :=
  let t := nv_table_new 1 4 128 in
  let t := snd (nv_table_add_value t 9 (stored_name 9) (bytes_of_string "value of a") None) in
  match nv_table_add_value_indirect t 1 (stored_name 1) (mkSlice 9 6 2 0) None with Ret (_, _, t) => t | Abort => t end.

Lemma stored_static_ref_wf : nv_wf stored_name stored_static_ref.
Proof.
  eapply nv_step_wf; [eapply nv_step_wf; [apply (nv_table_init_wf stored_name 180 1); [vm_compute; discriminate|lia]|]|].
  - eapply (step_add _ _ 9 (bytes_of_string "value of a") None true None); [lia|vm_compute; reflexivity].
  - eapply (step_add_indirect _ _ 1 (mkSlice 9 6 2 0) None true None); [lia|unfold slice_ok; simpl; lia| |vm_compute; reflexivity].
    vm_compute. reflexivity.
Qed.

Lemma update_ids_loses_static_reference_witness :
  nv_table_get_value stored_static_ref 1 = Some (bytes_of_string "of", 2) /\
  exists t' reg' hs', nv_table_update_ids insertion_sort stored_static_ref new_registry [] = Ret (t', reg', hs') /\
    nv_table_get_value t' 1 = Some null_value.
Proof.
  split; [by vm_compute|]. eexists _, _, _. split; [vm_compute; reflexivity|].
  eapply (update_ids_loses_static_reference insertion_sort stored_name stored_static_ref _ new_registry _ [] _ 1);
    [apply stored_static_ref_wf|vm_compute; reflexivity|vm_compute; discriminate|vm_compute; reflexivity|reflexivity|reflexivity|].
  intros p [->|Hp%elem_of_nil]%elem_of_cons; [vm_compute; discriminate|done].
Defined.
