(* ===== verification/TimerWheel.v ===== *)
(** * The timer wheel of the correlation engine (modules/dbparser/timerwheel.c)

    Timers hang in the slots of four levels: 1024 slots of one second, then
    three levels of 64 slots, each as wide as the level below; later timers wait
    in a list of their own.  The slot of the running second is expired; at the
    end of every 1024 seconds timers cascade to the finer levels.

    A linked list is a list with its head first and a timer is known by its
    number.  Callbacks are recorded with the time they are called with; they do
    not touch the wheel. *)
From S2P Require Import Prelude.

Record TWEntry := mkTWEntry {
  tw_target : Z;      (* 64 bits *)
  tw_id : Z
}.

#[global] Instance tw_entry_eq_dec : EqDecision TWEntry.
Proof. solve_decision. Defined.

Record TWLevel := mkTWLevel {
  lv_mask : Z;
  lv_slot_mask : Z;
  lv_num : Z;
  lv_shift : Z;
  lv_slots : list (list TWEntry)
}.

Record TimerWheel := mkTimerWheel {
  tw_levels : list TWLevel;
  tw_future : list TWEntry;
  tw_now : Z;
  tw_base : Z;
  tw_num_timers : Z
}.

Definition set_slots (level : TWLevel) (slots : list (list TWEntry)) : TWLevel :=
  mkTWLevel (lv_mask level) (lv_slot_mask level) (lv_num level) (lv_shift level) slots.
Definition set_levels (self : TimerWheel) (levels : list TWLevel) : TimerWheel :=
  mkTimerWheel levels (tw_future self) (tw_now self) (tw_base self) (tw_num_timers self).
Definition set_future (self : TimerWheel) (future : list TWEntry) : TimerWheel :=
  mkTimerWheel (tw_levels self) future (tw_now self) (tw_base self) (tw_num_timers self).
Definition set_clock (self : TimerWheel) (now base : Z) : TimerWheel :=
  mkTimerWheel (tw_levels self) (tw_future self) now base (tw_num_timers self).
Definition set_num_timers (self : TimerWheel) (n : Z) : TimerWheel :=
  mkTimerWheel (tw_levels self) (tw_future self) (tw_now self) (tw_base self) n.

Definition tw_level_new (bits shift : Z) : TWLevel :=
  let num := Z.shiftl 1 bits in
  mkTWLevel (Z.shiftl (num - 1) shift) (Z.shiftl 1 shift - 1) (u16 num) shift (replicate (Z.to_nat num) []).

Definition timer_wheel_new : TimerWheel :=
  mkTimerWheel [tw_level_new 10 0; tw_level_new 6 10; tw_level_new 6 16; tw_level_new 6 22] [] 0 0 0.

(** [tw_entry_prepend] on a slot of a level. *)
Definition slot_of (level : TWLevel) (target : Z) : Z := Z.shiftr (Z.land target (lv_mask level)) (lv_shift level).
Definition slot_get (level : TWLevel) (slot : Z) : list TWEntry := default [] (lv_slots level !! Z.to_nat slot).
Definition slot_prepend (level : TWLevel) (slot : Z) (entry : TWEntry) : TWLevel :=
  set_slots level (<[Z.to_nat slot := entry :: slot_get level slot]> (lv_slots level)).
Definition slot_clear (level : TWLevel) (slot : Z) : TWLevel :=
  set_slots level (<[Z.to_nat slot := []]> (lv_slots level)).

(** ** Adding and removing *)

(** The time of slot 0 of a level, and the width of the whole level. *)
Definition level_base (base : Z) (level : TWLevel) : Z :=
  Z.land (Z.land base (Z.lnot (lv_slot_mask level))) (Z.lnot (lv_mask level)).
Definition level_width (level : TWLevel) : Z := Z.shiftl (lv_num level) (lv_shift level).

Definition level_takes (now base : Z) (level : TWLevel) (target : Z) : bool :=
  let lb := level_base base level in
  if bool_decide (target > u64 (lb + level_width level)) then
    bool_decide (target < u64 (lb + level_width level * 2)) &&
    bool_decide (Z.land now (lv_mask level) > Z.land target (lv_mask level))
  else true.

Fixpoint add_to_levels (now base : Z) (levels : list TWLevel) (entry : TWEntry) : option (list TWLevel) :=
  match levels with
  | [] => None
  | level :: levels =>
      if level_takes now base level (tw_target entry)
      then Some (slot_prepend level (slot_of level (tw_target entry)) entry :: levels)
      else cons level <$> add_to_levels now base levels entry
  end.

Definition timer_wheel_add_timer_entry (self : TimerWheel) (entry : TWEntry) : TimerWheel :=
  match add_to_levels (tw_now self) (tw_base self) (tw_levels self) entry with
  | Some levels => set_levels self levels
  | None => set_future self (entry :: tw_future self)
  end.

Definition timer_wheel_add_timer (self : TimerWheel) (timeout id : Z) : TWEntry * TimerWheel :=
  let entry := mkTWEntry (u64 (tw_now self + timeout)) id in
  let self := timer_wheel_add_timer_entry self entry in
  (entry, set_num_timers self (tw_num_timers self + 1)).

(** [tw_entry_unlink]: the entry leaves the list it is in. *)
Definition unlink (entry : TWEntry) (l : list TWEntry) : list TWEntry := filter (fun e => tw_id e <> tw_id entry) l.
Definition tw_entry_unlink (self : TimerWheel) (entry : TWEntry) : TimerWheel :=
  mkTimerWheel ((fun level => set_slots level (unlink entry <$> lv_slots level)) <$> tw_levels self)
    (unlink entry (tw_future self)) (tw_now self) (tw_base self) (tw_num_timers self).

Definition timer_wheel_del_timer (self : TimerWheel) (entry : TWEntry) : TimerWheel :=
  let self := tw_entry_unlink self entry in set_num_timers self (tw_num_timers self - 1).

Definition timer_wheel_mod_timer (self : TimerWheel) (entry : TWEntry) (new_timeout : Z) : TWEntry * TimerWheel :=
  let self := tw_entry_unlink self entry in
  let entry := mkTWEntry (u64 (tw_now self + new_timeout)) (tw_id entry) in
  (entry, timer_wheel_add_timer_entry self entry).

Definition timer_wheel_get_timer_expiration (entry : TWEntry) : Z := tw_target entry.
Definition timer_wheel_get_time (self : TimerWheel) : Z := tw_now self.

(** ** Cascading *)

Definition prepend_to (level : TWLevel) (entry : TWEntry) : TWLevel :=
  slot_prepend level (slot_of level (tw_target entry)) entry.

(** From level [source] on down to [target]; the flag tells that the loop ran
    through all levels. *)
Fixpoint cascade_levels (now : Z) (target : TWLevel) (levels : list TWLevel) : list TWLevel * bool :=
  match levels with
  | [] => ([target], true)
  | source :: levels =>
      let slot := slot_of source now in
      let source_slot := if bool_decide (slot = lv_num source - 1) then 0 else slot + 1 in
      let target := foldl prepend_to target (slot_get source source_slot) in
      let source := slot_clear source source_slot in
      if bool_decide (source_slot < lv_num source - 1) then (target :: source :: levels, false)
      else let '(levels, whole) := cascade_levels now source levels in (target :: levels, whole)
  end.

(** The list of far timers against the last level. *)
Definition cascade_future (base : Z) (levels : list TWLevel) (future : list TWEntry) : list TWLevel * list TWEntry :=
  match last levels with
  | None => (levels, future)
  | Some level =>
      let due (e : TWEntry) := tw_target e < u64 (level_base base level + 2 * level_width level) in
      (take (length levels - 1) levels ++ [foldl prepend_to level (filter due future)],
       filter (fun e => ~ due e) future)
  end.

Definition timer_wheel_cascade (self : TimerWheel) : TimerWheel :=
  match tw_levels self with
  | [] => self
  | level0 :: levels =>
      let '(levels, whole) := cascade_levels (tw_now self) level0 levels in
      let '(levels, future) := if whole then cascade_future (tw_base self) levels (tw_future self) else (levels, tw_future self) in
      mkTimerWheel levels future (tw_now self) (u64 (tw_base self + lv_num level0)) (tw_num_timers self)
  end.

(** ** The clock *)

Definition level0 (self : TimerWheel) : TWLevel :=
  match tw_levels self with level :: _ => level | [] => tw_level_new 10 0 end.

Definition reset_clock (self : TimerWheel) (new_now : Z) : TimerWheel :=
  set_clock self new_now (Z.land new_now (Z.lnot (lv_mask (level0 self)))).

(** One round of the loop: the fired timers with the time of their call, and
    whether the loop was left. *)
Definition timer_wheel_tick (self : TimerWheel) (new_now : Z) : list (Z * TWEntry) * bool * TimerWheel :=
  let level := level0 self in
  let slot := slot_of level (tw_now self) in
  let expired := slot_get level slot in
  let self := set_num_timers (set_levels self (slot_clear level slot :: tail (tw_levels self)))
                (tw_num_timers self - lenZ expired) in
  let fired := pair (tw_now self) <$> expired in
  if bool_decide (tw_num_timers self = 0) then (fired, true, reset_clock self new_now)
  else
    let self := if bool_decide (slot = lv_num level - 1) then timer_wheel_cascade self else self in
    (fired, false, set_clock self (u64 (tw_now self + 1)) (tw_base self)).

(** The loop runs [new_now - now] times at most. *)
Fixpoint timer_wheel_loop (fuel : nat) (self : TimerWheel) (new_now : Z) : list (Z * TWEntry) * TimerWheel :=
  match fuel with
  | O => ([], self)
  | S fuel =>
      if bool_decide (tw_now self < new_now) then
        let '(fired, leave, self) := timer_wheel_tick self new_now in
        if leave then (fired, self)
        else let '(more, self) := timer_wheel_loop fuel self new_now in (fired ++ more, self)
      else ([], self)
  end.

Definition timer_wheel_set_time (self : TimerWheel) (new_now : Z) : list (Z * TWEntry) * TimerWheel :=
  if bool_decide (tw_now self >= new_now) then ([], self)
  else if bool_decide (tw_num_timers self = 0) then ([], reset_clock self new_now)
  else timer_wheel_loop (Z.to_nat (new_now - tw_now self)) self new_now.

Definition timer_wheel_expire_all (self : TimerWheel) : list (Z * TWEntry) * TimerWheel :=
  let now := tw_now self in
  let '(fired, self) := timer_wheel_set_time self (2 ^ 64 - 1) in
  (fired, set_clock self now (tw_base self)).

Example wheel_demo :
  let w := snd (timer_wheel_add_timer timer_wheel_new 5 1) in
  let w := snd (timer_wheel_add_timer w 1500 2) in
  let '(f1, w) := timer_wheel_set_time w 6 in
  let '(f2, w) := timer_wheel_set_time w 1500 in
  let '(f3, w) := timer_wheel_set_time w 1600 in
  (f1, f2, f3, tw_now w) = ([(5, mkTWEntry 5 1)], [], [(1500, mkTWEntry 1500 2)], 1600).
Proof. by vm_compute. Qed.

(** A timer of 1024 seconds set at the start of a round. *)
Example wheel_early :
  let w := snd (timer_wheel_add_timer timer_wheel_new 1024 1) in fst (timer_wheel_set_time w 1) = [(0, mkTWEntry 1024 1)].
Proof. by vm_compute. Qed.
