(* ===== verification/TimerWheelSpec.v ===== *)
(** * When a timer of the wheel fires

    The invariant gives every timer the time at which it will fire, computed
    from the state of the wheel when the timer was added. *)
From S2P Require Import Prelude TimerWheel.

(** ** Geometry *)

(** Seconds per slot, slots, and seconds per level. *)
Definition unit_of (k : nat) : Z := match k with O => 1 | S O => 1024 | S (S O) => 65536 | _ => 4194304 end.
Definition num_of (k : nat) : Z := match k with O => 1024 | _ => 64 end.
Definition width_of (k : nat) : Z := unit_of k * num_of k.

(** The last slot time of a level that was already handed down: the slots
    behind it, one round of them, are waiting. *)
Definition ptr1 (now : Z) : Z := now / 1024.
Definition ptr2 (now : Z) : Z := (ptr1 now + 1) / 64.
Definition ptr3 (now : Z) : Z := (ptr2 now + 1) / 64.
Definition ptrF (now : Z) : Z := (ptr3 now + 1) / 64.
Definition ptr (k : nat) (now : Z) : Z :=
  match k with O => now - 1 | S O => ptr1 now | S (S O) => ptr2 now | _ => ptr3 now end.

Definition takes (k : nat) (now target : Z) : bool :=
  let lb := width_of k * (now / width_of k) in
  if bool_decide (target > lb + width_of k) then
    bool_decide (target < lb + width_of k * 2) &&
    bool_decide ((now / unit_of k) mod num_of k > (target / unit_of k) mod num_of k)
  else true.

(** The time at which the slot of a timer comes up. *)
Definition align (k : nat) (now target : Z) : Z :=
  target - width_of k * ((target / unit_of k - ptr k now - 1) / num_of k).

(** When a timer for [target] fires that is added at [now]. *)
Definition fire_time (now target : Z) : Z :=
  if takes 0 now target then align 0 now target
  else if takes 1 now target then align 1 now target
  else if takes 2 now target then align 2 now target
  else if takes 3 now target then align 3 now target
  else if bool_decide (ptrF now < target / 2 ^ 28) then target else target + 2 ^ 28.

Record lv_is (k : nat) (level : TWLevel) : Prop := {
  li_mask : lv_mask level = unit_of k * (num_of k - 1);
  li_slot_mask : lv_slot_mask level = unit_of k - 1;
  li_num : lv_num level = num_of k;
  li_shift : unit_of k = 2 ^ lv_shift level /\ 0 <= lv_shift level;
  li_slots : lenZ (lv_slots level) = num_of k
}.

Lemma num_of_pos (k : nat) : 0 < num_of k.
Proof. by destruct k. Qed.
Lemma unit_of_pos (k : nat) : 0 < unit_of k.
Proof. by destruct k as [|[|[|k]]]. Qed.

Lemma num_of_pow (k : nat) : exists w, 0 <= w /\ num_of k = 2 ^ w.
Proof. destruct k; [exists 10|exists 6]; done. Qed.

Lemma land_high (x n w : Z) : 0 <= n -> 0 <= w -> Z.land x (2 ^ n * (2 ^ w - 1)) = 2 ^ n * ((x / 2 ^ n) mod 2 ^ w).
Proof.
  intros Hn Hw. rewrite (Z.mul_comm (2 ^ n) (2 ^ w - 1)), (Z.mul_comm (2 ^ n) (_ mod _)).
  rewrite <- !Z.shiftl_mul_pow2, <- Z.shiftr_div_pow2, <- Z.land_ones by done. rewrite Z.ones_equiv. rewrite Z.sub_1_r.
  apply Z.bits_inj'. intros i Hi. rewrite Z.land_spec.
  destruct (Z.le_gt_cases n i) as [Hle|Hgt].
  - rewrite !Z.shiftl_spec, Z.land_spec, Z.shiftr_spec by lia. by replace (i - n + n) with i by lia.
  - rewrite !Z.shiftl_spec_low by lia. by rewrite andb_false_r.
Qed.

Lemma slot_of_is (k : nat) (level : TWLevel) (x : Z) : lv_is k level -> slot_of level x = (x / unit_of k) mod num_of k.
Proof.
  intros [Hm _ _ [Hs H0] _]. unfold slot_of. rewrite Hm. destruct (num_of_pow k) as (w & Hw & ->). rewrite Hs.
  rewrite land_high by done. rewrite Z.shiftr_div_pow2 by done. rewrite Z.mul_comm, Z.div_mul; [done|]. pose proof (Z.pow_pos_nonneg 2 (lv_shift level)). lia.
Qed.

Lemma land_mask_is (k : nat) (level : TWLevel) (x : Z) : lv_is k level ->
  Z.land x (lv_mask level) = unit_of k * ((x / unit_of k) mod num_of k).
Proof.
  intros [Hm _ _ [Hs H0] _]. rewrite Hm. destruct (num_of_pow k) as (w & Hw & ->). rewrite Hs. by apply land_high.
Qed.

Lemma land_lnot_ones (x n : Z) : 0 <= n -> Z.land x (Z.lnot (2 ^ n - 1)) = 2 ^ n * (x / 2 ^ n).
Proof.
  intros Hn. rewrite Z.sub_1_r, <- Z.ones_equiv, <- Z.ldiff_land, Z.ldiff_ones_r, Z.shiftl_mul_pow2, Z.shiftr_div_pow2 by done. lia.
Qed.

Lemma level_base_is (k : nat) (level : TWLevel) (base : Z) : (k < 4)%nat -> lv_is k level ->
  level_base base level = width_of k * (base / width_of k).
Proof.
  intros Hk [Hm Hsm _ _ _]. unfold level_base. rewrite Hm, Hsm, <- Z.land_assoc, <- Z.lnot_lor.
  assert (E : exists n, 0 <= n /\ Z.lor (unit_of k - 1) (unit_of k * (num_of k - 1)) = 2 ^ n - 1 /\ width_of k = 2 ^ n).
  { destruct k as [|[|[|[|k]]]]; [exists 10|exists 16|exists 22|exists 28|lia]; done. }
  destruct E as (n & Hn & -> & ->). by apply land_lnot_ones.
Qed.

Lemma level_width_is (k : nat) (level : TWLevel) : lv_is k level -> level_width level = width_of k.
Proof. intros [_ _ Hn [Hs H0] _]. unfold level_width, width_of. rewrite Hn, Z.shiftl_mul_pow2 by done. lia. Qed.

(** ** Slots as sets of timers *)

Definition in_slot (level : TWLevel) (s : Z) (e : TWEntry) : Prop := 0 <= s /\ e ∈ slot_get level s.
Definition lv_entries (level : TWLevel) : list TWEntry := concat (lv_slots level).

Lemma slot_get_insert (level : TWLevel) (s s' : Z) (l : list TWEntry) : 0 <= s < lenZ (lv_slots level) -> 0 <= s' ->
  slot_get (set_slots level (<[Z.to_nat s := l]> (lv_slots level))) s' = if decide (s' = s) then l else slot_get level s'.
Proof.
  intros Hs Hs'. unfold slot_get. simpl. destruct (decide (s' = s)) as [->|Hne].
  - rewrite list_lookup_insert_eq; [done|]. unfold lenZ in Hs. lia.
  - rewrite list_lookup_insert_ne; [done|]. lia.
Qed.

Lemma concat_insert (ls : list (list TWEntry)) (i : nat) (x y : list TWEntry) : ls !! i = Some x ->
  Permutation (concat (<[i := y]> ls) ++ x) (y ++ concat ls).
Proof.
  revert i. induction ls as [|l ls IH]; intros [|i] Hi; simpl in *; try done.
  - injection Hi as ->. rewrite <- !app_assoc. f_equiv. apply Permutation_app_comm.
  - rewrite <- app_assoc, (IH i Hi), !app_assoc. f_equiv. apply Permutation_app_comm.
Qed.

Lemma slot_get_lookup (level : TWLevel) (s : Z) : 0 <= s < lenZ (lv_slots level) -> lv_slots level !! Z.to_nat s = Some (slot_get level s).
Proof.
  intros Hs. unfold slot_get. destruct (lv_slots level !! Z.to_nat s) eqn:E; [done|]. apply lookup_ge_None in E. unfold lenZ in Hs. lia.
Qed.

Lemma slot_range (k : nat) (level : TWLevel) (x : Z) : lv_is k level -> 0 <= slot_of level x < lenZ (lv_slots level).
Proof.
  intros Hl. rewrite (slot_of_is k) by done. rewrite (li_slots _ _ Hl). apply Z.mod_pos_bound, num_of_pos.
Qed.

Lemma lv_is_set_slots (k : nat) (level : TWLevel) (i : nat) (l : list TWEntry) : lv_is k level ->
  lv_is k (set_slots level (<[i := l]> (lv_slots level))).
Proof. intros [H1 H2 H3 H4 H5]. split; try done. simpl. unfold lenZ in *. by rewrite length_insert. Qed.

Lemma prepend_to_is (k : nat) (level : TWLevel) (e : TWEntry) : lv_is k level ->
  lv_is k (prepend_to level e) /\ Permutation (lv_entries (prepend_to level e)) (e :: lv_entries level) /\
  (forall s x, in_slot (prepend_to level e) s x <-> (x = e /\ s = slot_of level (tw_target e)) \/ in_slot level s x).
Proof.
  intros Hl. pose proof (slot_range k level (tw_target e) Hl) as Hr. unfold prepend_to, slot_prepend.
  split; [by apply lv_is_set_slots|]. split.
  - unfold lv_entries. simpl. pose proof (concat_insert _ _ _ (e :: slot_get level (slot_of level (tw_target e))) (slot_get_lookup level _ Hr)) as P.
    apply (Permutation_app_inv_r (slot_get level (slot_of level (tw_target e)))). rewrite P. simpl. f_equiv. apply Permutation_app_comm.
  - intros s x. unfold in_slot. split.
    + intros [Hs Hx]. rewrite slot_get_insert in Hx by done. destruct (decide _) as [->|Hne]; [|by right].
      apply elem_of_cons in Hx as [->|Hx]; [by left|by right].
    + intros [[-> ->]|[Hs Hx]]; (split; [lia|]); rewrite slot_get_insert by lia.
      * rewrite decide_True by done. apply elem_of_cons. by left.
      * destruct (decide _) as [->|Hne]; [|done]. apply elem_of_cons. by right.
Qed.

Lemma foldl_prepend_is (k : nat) (es : list TWEntry) (level : TWLevel) : lv_is k level ->
  let level' := foldl prepend_to level es in
  lv_is k level' /\ Permutation (lv_entries level') (es ++ lv_entries level) /\
  (forall s x, in_slot level' s x <-> (x ∈ es /\ s = slot_of level (tw_target x)) \/ in_slot level s x).
Proof.
  revert level. induction es as [|e es IH]; intros level Hl; simpl.
  { split; [done|]. split; [done|]. intros s x. split; [by right|]. by intros [[?%elem_of_nil _]|?]. }
  destruct (prepend_to_is k level e Hl) as (L1 & P1 & S1). destruct (IH (prepend_to level e) L1) as (L2 & P2 & S2).
  split; [done|]. split; [rewrite P2, P1; by rewrite Permutation_middle|].
  intros s x. rewrite S2, S1. rewrite !(slot_of_is k) by done. rewrite elem_of_cons.
  split; [intros [[? ->]|[[-> ->]|?]]; auto|intros [[[->|?] ->]|?]; auto].
Qed.

Lemma slot_clear_is (k : nat) (level : TWLevel) (s0 : Z) : lv_is k level -> 0 <= s0 < num_of k ->
  lv_is k (slot_clear level s0) /\ Permutation (slot_get level s0 ++ lv_entries (slot_clear level s0)) (lv_entries level) /\
  (forall s x, in_slot (slot_clear level s0) s x <-> s <> s0 /\ in_slot level s x).
Proof.
  intros Hl Hs0. assert (Hr : 0 <= s0 < lenZ (lv_slots level)) by (by rewrite (li_slots _ _ Hl)). unfold slot_clear.
  split; [by apply lv_is_set_slots|]. split.
  - unfold lv_entries. simpl. rewrite Permutation_app_comm, (concat_insert _ _ _ _ (slot_get_lookup level _ Hr)). done.
  - intros s x. unfold in_slot. split.
    + intros [Hs Hx]. rewrite slot_get_insert in Hx by done. destruct (decide _) as [->|Hne]; [by apply elem_of_nil in Hx|done].
    + intros (Hne & Hs & Hx). split; [done|]. rewrite slot_get_insert by done. by rewrite decide_False.
Qed.

Lemma in_slot_entries (k : nat) (level : TWLevel) (e : TWEntry) : lv_is k level ->
  e ∈ lv_entries level <-> exists s, 0 <= s < num_of k /\ in_slot level s e.
Proof.
  intros Hl. unfold lv_entries. rewrite list_elem_of_In, in_concat. split.
  - intros (l & Hin & He). apply list_elem_of_In in Hin, He. apply list_elem_of_lookup in Hin as [i Hi].
    pose proof (lookup_lt_Some _ _ _ Hi) as Hlt. pose proof (li_slots _ _ Hl) as HL. unfold lenZ in HL.
    exists (Z.of_nat i). split; [lia|]. split; [lia|]. unfold slot_get. by rewrite Nat2Z.id, Hi.
  - intros (s & Hs & H0 & He). exists (slot_get level s). split; [|by apply list_elem_of_In]. apply list_elem_of_In.
    apply list_elem_of_lookup. exists (Z.to_nat s). apply slot_get_lookup. by rewrite (li_slots _ _ Hl).
Qed.

(** * The invariant of the timer wheel *)

Definition entries (self : TimerWheel) : list TWEntry := (tw_levels self ≫= lv_entries) ++ tw_future self.

Section wheel.
(** When each timer fires. *)
Context (vt : Z -> Z).

Definition timer_ok (k : nat) (now s : Z) (e : TWEntry) : Prop :=
  let v := vt (tw_id e) in
  v mod width_of k = tw_target e mod width_of k /\ s = (v / unit_of k) mod num_of k /\
  ptr k now < v / unit_of k <= ptr k now + num_of k.

Definition lev_ok (k : nat) (now : Z) (level : TWLevel) : Prop := forall s e, in_slot level s e -> timer_ok k now s e.

Definition far_ok (now : Z) (e : TWEntry) : Prop :=
  let v := vt (tw_id e) in
  v mod 2 ^ 28 = tw_target e mod 2 ^ 28 /\ ptrF now < v / 2 ^ 28 /\
  (v = tw_target e \/ (v = tw_target e + 2 ^ 28 /\ v / 2 ^ 28 = ptrF now + 1)).

(** Four levels and the far timers, at the time [now] of the invariant. *)
Record levels_ok (now : Z) (l0 l1 l2 l3 : TWLevel) (future : list TWEntry) : Prop := {
  lo_is0 : lv_is 0 l0; lo_is1 : lv_is 1 l1; lo_is2 : lv_is 2 l2; lo_is3 : lv_is 3 l3;
  lo_ok0 : lev_ok 0 now l0; lo_ok1 : lev_ok 1 now l1; lo_ok2 : lev_ok 2 now l2; lo_ok3 : lev_ok 3 now l3;
  lo_far : forall e, e ∈ future -> far_ok now e
}.

Record wheel_ok (self : TimerWheel) : Prop := {
  wo_levels : exists l0 l1 l2 l3, tw_levels self = [l0; l1; l2; l3] /\ levels_ok (tw_now self) l0 l1 l2 l3 (tw_future self);
  wo_now : 0 <= tw_now self < 2 ^ 62;
  wo_base : tw_base self = 1024 * (tw_now self / 1024);
  wo_num : tw_num_timers self = lenZ (entries self)
}.

(** ** Slots of congruent times *)

Lemma slot_congr (u n v t : Z) : 0 < u -> 0 < n -> v mod (u * n) = t mod (u * n) -> (v / u) mod n = (t / u) mod n.
Proof.
  intros Hu Hn H. rewrite !Z.rem_mul_r in H by lia.
  pose proof (Z.mod_pos_bound v u Hu). pose proof (Z.mod_pos_bound t u Hu).
  assert (E : u * ((v / u) mod n) - u * ((t / u) mod n) = t mod u - v mod u) by lia. nia.
Qed.

Lemma congr_coarse (w m v t : Z) : 0 < w -> 0 < m -> v mod (w * m) = t mod (w * m) -> v mod w = t mod w.
Proof.
  intros Hw Hm H. rewrite <- (Z.mod_mod_divide v (w * m) w), <- (Z.mod_mod_divide t (w * m) w) by apply Z.divide_factor_l. by rewrite H.
Qed.

(** One round of slots holds every residue once. *)
Lemma mod_window (n p x : Z) : 0 < n -> p < x <= p + n -> x mod n = (p + 1) mod n -> x = p + 1.
Proof.
  intros Hn Hx H. assert (E : (x - (p + 1)) mod n = 0) by (by rewrite Zminus_mod, H, Z.sub_diag, Z.mod_0_l by lia).
  rewrite Z.mod_small in E; lia.
Qed.

Lemma timer_slot (k : nat) (level : TWLevel) (e : TWEntry) : lv_is k level ->
  vt (tw_id e) mod width_of k = tw_target e mod width_of k ->
  slot_of level (tw_target e) = (vt (tw_id e) / unit_of k) mod num_of k.
Proof.
  intros Hl H. rewrite (slot_of_is k) by done. symmetry. apply slot_congr; [apply unit_of_pos|apply num_of_pos|exact H].
Qed.

Lemma width_unit (k : nat) : (k < 3)%nat -> unit_of (S k) = width_of k.
Proof. intros Hk. destruct k as [|[|[|k]]]; [done..|lia]. Qed.

Lemma lev_ok_ptr (k : nat) (now now' : Z) (level : TWLevel) : ptr k now' = ptr k now -> lev_ok k now level -> lev_ok k now' level.
Proof. intros E H s e Hin. unfold timer_ok. rewrite E. by apply H. Qed.

(** ** Handing one slot down *)

(** Timers whose slot of level [k + 1] comes up next move to level [k]. *)
Lemma hand_down (k : nat) (now now' : Z) (tl sl : TWLevel) (ss : Z) : (k < 3)%nat -> lv_is k tl -> lv_is (S k) sl ->
  lev_ok k now' tl -> lev_ok (S k) now sl -> ptr (S k) now' = ptr (S k) now + 1 ->
  ptr k now' = (ptr (S k) now + 1) * num_of k - 1 -> ss = (ptr (S k) now + 1) mod num_of (S k) ->
  let tl' := foldl prepend_to tl (slot_get sl ss) in
  let sl' := slot_clear sl ss in
  lv_is k tl' /\ lv_is (S k) sl' /\ lev_ok k now' tl' /\ lev_ok (S k) now' sl' /\
  Permutation (lv_entries tl' ++ lv_entries sl') (lv_entries tl ++ lv_entries sl).
Proof.
  intros Hk Ht Hs Hot Hos Hp Hpk Hss tl' sl'. set (p := ptr (S k) now) in *.
  pose proof (num_of_pos k) as Nk. pose proof (num_of_pos (S k)) as Ns. pose proof (unit_of_pos k) as Uk.
  assert (Hr : 0 <= ss < num_of (S k)) by (rewrite Hss; by apply Z.mod_pos_bound).
  destruct (foldl_prepend_is k (slot_get sl ss) tl Ht) as (T1 & T2 & T3). destruct (slot_clear_is (S k) sl ss Hs Hr) as (S1 & S2 & S3).
  split; [done|]. split; [done|]. split; [|split].
  - intros s e [[He ->]|Hin]%T3; [|by apply Hot]. assert (Hin : in_slot sl ss e) by (split; [lia|done]).
    destruct (Hos ss e Hin) as (C & Sl & W). fold p in W. set (v := vt (tw_id e)) in *.
    assert (Ck : v mod width_of k = tw_target e mod width_of k).
    { apply (congr_coarse _ (num_of (S k))); [unfold width_of; lia|done|]. by rewrite <- width_unit. }
    assert (Ev : v / unit_of (S k) = p + 1).
    { apply (mod_window (num_of (S k))); [done|lia|by rewrite <- Hss]. }
    rewrite width_unit in Ev by done. split; [exact Ck|]. split; [by apply timer_slot|]. fold v. rewrite Hpk.
    unfold width_of in Ev. rewrite <- Z.div_div in Ev by lia.
    pose proof (Z.div_mod (v / unit_of k) (num_of k)). pose proof (Z.mod_pos_bound (v / unit_of k) (num_of k)). lia.
  - intros s e [Hne Hin]%S3. destruct (Hos s e Hin) as (C & Sl & W). fold p in W. split; [done|]. split; [done|]. rewrite Hp.
    assert (vt (tw_id e) / unit_of (S k) <> p + 1) by (intros E; rewrite E in Sl; congruence). lia.
  - unfold tl', sl'. rewrite T2, <- S2, <- !app_assoc. rewrite (Permutation_app_comm (slot_get sl ss)). rewrite <- !app_assoc. apply Permutation_app_head.
    rewrite Permutation_app_comm. done.
Qed.

(** ** The whole cascade *)

Lemma source_slot_is (k : nat) (level : TWLevel) (now : Z) : lv_is k level ->
  (if bool_decide (slot_of level now = lv_num level - 1) then 0 else slot_of level now + 1) = (now / unit_of k + 1) mod num_of k.
Proof.
  intros Hl. rewrite (slot_of_is k), (li_num _ _ Hl) by done. pose proof (num_of_pos k) as Hn.
  set (x := now / unit_of k). pose proof (Z.mod_pos_bound x (num_of k) Hn). pose proof (Z.div_mod x (num_of k)).
  case_bool.
  - apply (Z.mod_unique_pos _ _ (x / num_of k + 1)); lia.
  - apply (Z.mod_unique_pos _ _ (x / num_of k)); lia.
Qed.

Lemma far_ok_ptr (now now' : Z) (e : TWEntry) : ptrF now' = ptrF now -> far_ok now e -> far_ok now' e.
Proof. intros E. unfold far_ok. by rewrite E. Qed.

(** Far timers that come into the range of the last level. *)
Lemma far_hand_down (now now' base : Z) (l3 : TWLevel) (future : list TWEntry) : lv_is 3 l3 -> lev_ok 3 now' l3 ->
  (forall e, e ∈ future -> far_ok now e) -> 0 <= now < 2 ^ 62 -> base = 1024 * (now / 1024) ->
  ptrF now = now / 2 ^ 28 -> ptrF now' = ptrF now + 1 -> ptr 3 now' = 64 * (ptrF now + 1) - 1 ->
  let due (e : TWEntry) := tw_target e < u64 (level_base base l3 + 2 * level_width l3) in
  let l3' := foldl prepend_to l3 (filter due future) in
  let future' := filter (fun e => ~ due e) future in
  lv_is 3 l3' /\ lev_ok 3 now' l3' /\ (forall e, e ∈ future' -> far_ok now' e) /\
  Permutation (lv_entries l3' ++ future') (lv_entries l3 ++ future).
Proof.
  intros Hl Hok Hfar Hnow Hbase Hf Hf' Hp due l3' future'.
  assert (Hdue : forall e, due e <-> tw_target e < 2 ^ 28 * (ptrF now + 2)).
  { intros e. unfold due. rewrite (level_base_is 3), (level_width_is 3) by (done || lia). change (width_of 3) with (2 ^ 28).
    assert (E : base / 2 ^ 28 = now / 2 ^ 28).
    { rewrite Hbase. change (2 ^ 28) with (1024 * 262144). rewrite <- !Z.div_div by lia. by rewrite (Z.mul_comm 1024), Z.div_mul by lia. }
    rewrite E, Hf. pose proof (Z.div_mod now (2 ^ 28)). pose proof (Z.mod_pos_bound now (2 ^ 28)).
    rewrite u64_small by lia. lia. }
  assert (Hx : forall e, e ∈ future -> let v := vt (tw_id e) in
    v mod 2 ^ 28 = tw_target e mod 2 ^ 28 /\ (due e -> v / 2 ^ 28 = ptrF now + 1) /\ (~ due e -> v = tw_target e /\ ptrF now + 1 < v / 2 ^ 28)).
  { intros e He v. destruct (Hfar e He) as (C & W & D). fold v in C, W, D. split; [done|]. rewrite Hdue. destruct D as [E|[E W']].
    - rewrite E in *. split; intros Hd.
      + assert (tw_target e / 2 ^ 28 < ptrF now + 2); [|lia]. apply Z.div_lt_upper_bound; lia.
      + split; [done|]. assert (ptrF now + 2 <= tw_target e / 2 ^ 28); [|lia]. apply Z.div_le_lower_bound; lia.
    - split; [done|]. intros Hd. exfalso. apply Hd. pose proof (Z.div_mod v (2 ^ 28)). pose proof (Z.mod_pos_bound v (2 ^ 28)). lia. }
  destruct (foldl_prepend_is 3 (filter due future) l3 Hl) as (T1 & T2 & T3). split; [done|]. split; [|split].
  - intros s e [[He ->]|Hin]%T3; [|by apply Hok]. apply list_elem_of_filter in He as [Hd He].
    destruct (Hx e He) as (C & W & _). specialize (W Hd). split; [exact C|]. split; [by apply timer_slot|]. rewrite Hp.
    change (2 ^ 28) with (4194304 * 64) in W. rewrite <- Z.div_div in W by lia. change (unit_of 3) with 4194304. change (num_of 3) with 64.
    set (y := vt (tw_id e) / 4194304) in *. pose proof (Z.div_mod y 64). pose proof (Z.mod_pos_bound y 64). lia.
  - intros e [Hd He]%list_elem_of_filter. destruct (Hx e He) as (C & _ & W). destruct (W Hd) as [E W']. split; [done|]. rewrite Hf'. auto.
  - unfold l3', future'. rewrite T2. rewrite <- app_assoc, (Permutation_app_comm (lv_entries l3)), app_assoc, (Permutation_app_comm _ (lv_entries l3)).
    apply Permutation_app_head. clear. induction future as [|e l IH]; [done|]. rewrite !filter_cons.
    destruct (decide (due e)) as [Hd|Hd].
    + rewrite decide_False by (by intros ?). simpl. by rewrite IH.
    + rewrite decide_True by done. rewrite <- Permutation_middle. by rewrite IH.
Qed.
End wheel.

(** ** Times at the end of a round *)

Section arithmetic.
#[local] Ltac Zify.zify_post_hook ::= Z.to_euclidean_division_equations.

Lemma ptr1_wrap (now : Z) : 0 <= now -> now mod 1024 = 1023 ->
  ptr 1 (now + 1) = ptr 1 now + 1 /\ ptr 0 (now + 1) = (ptr 1 now + 1) * 1024 - 1 /\ ptr 1 now = now / 1024.
Proof. intros H0 H. unfold ptr, ptr1. lia. Qed.

Lemma ptr_up (x : Z) : 0 <= x -> (x + 1) mod 64 <> 63 -> (x + 1 + 1) / 64 = (x + 1) / 64.
Proof. lia. Qed.

Lemma ptr_up_wrap (x : Z) : 0 <= x -> (x + 1) mod 64 = 63 -> (x + 1 + 1) / 64 = (x + 1) / 64 + 1 /\
  x + 1 = ((x + 1) / 64 + 1) * 64 - 1 /\ (x + 1) / 64 = x / 64.
Proof. lia. Qed.

Lemma div_65536 (now : Z) : now / 65536 = now / 1024 / 64.
Proof. by rewrite Z.div_div by lia. Qed.
Lemma div_4194304 (now : Z) : now / 4194304 = now / 1024 / 64 / 64.
Proof. by rewrite !Z.div_div by lia. Qed.
Lemma div_2_28 (now : Z) : now / 2 ^ 28 = now / 1024 / 64 / 64 / 64.
Proof. by rewrite !Z.div_div by lia. Qed.
End arithmetic.
