(* ===== verification/TimerWheelRuns.v ===== *)
(** * One second of the timer wheel: the cascade and the tick *)
From Stdlib Require Import Sorted.
From S2P Require Import Prelude TimerWheel TimerWheelSpec.

Section wheel.
Context (vt : Z -> Z).

Definition all4 (l0 l1 l2 l3 : TWLevel) (future : list TWEntry) : list TWEntry :=
  lv_entries l0 ++ lv_entries l1 ++ lv_entries l2 ++ lv_entries l3 ++ future.

Lemma entries_all4 (self : TimerWheel) (l0 l1 l2 l3 : TWLevel) : tw_levels self = [l0; l1; l2; l3] ->
  entries self = all4 l0 l1 l2 l3 (tw_future self).
Proof. intros E. unfold entries, all4. rewrite E. cbn [mbind list_bind]. by rewrite app_nil_r, <- !app_assoc. Qed.

(** ** The cascade *)

Lemma cascade_ok (now base n : Z) (l0 l1 l2 l3 : TWLevel) (future : list TWEntry) : 0 <= now < 2 ^ 62 - 1 -> now mod 1024 = 1023 ->
  base = 1024 * (now / 1024) -> lv_is 0 l0 -> lev_ok vt 0 (now + 1) l0 -> lv_is 1 l1 -> lev_ok vt 1 now l1 ->
  lv_is 2 l2 -> lev_ok vt 2 now l2 -> lv_is 3 l3 -> lev_ok vt 3 now l3 -> (forall e, e ∈ future -> far_ok vt now e) ->
  exists l0' l1' l2' l3' future',
    timer_wheel_cascade (mkTimerWheel [l0; l1; l2; l3] future now base n) = mkTimerWheel [l0'; l1'; l2'; l3'] future' now (base + 1024) n /\
    levels_ok vt (now + 1) l0' l1' l2' l3' future' /\ Permutation (all4 l0' l1' l2' l3' future') (all4 l0 l1 l2 l3 future).
Proof.
  intros Hn Hend Hbase I0 O0 I1 O1 I2 O2 I3 O3 Of.
  destruct (ptr1_wrap now ltac:(lia) Hend) as (P1 & P0 & E1). set (b := ptr 1 now) in *.
  assert (Hb0 : 0 <= b) by (rewrite E1; apply Z.div_pos; lia).
  assert (Q2 : ptr 2 (now + 1) = (b + 1 + 1) / 64 /\ ptr 2 now = (b + 1) / 64) by (split; [unfold ptr, ptr2; fold (ptr 1 (now + 1)); by rewrite P1|done]).
  assert (Q3 : ptr 3 (now + 1) = (ptr 2 (now + 1) + 1) / 64 /\ ptr 3 now = (ptr 2 now + 1) / 64) by done.
  assert (QF : ptrF (now + 1) = (ptr 3 (now + 1) + 1) / 64 /\ ptrF now = (ptr 3 now + 1) / 64) by done.
  destruct Q2 as [Q2 R2], Q3 as [Q3 R3], QF as [QF RF].
  assert (Hu : u64 (base + 1024) = base + 1024).
  { apply u64_small. pose proof (Z.div_mod now 1024). pose proof (Z.mod_pos_bound now 1024). lia. }
  pose proof (hand_down vt 0 now (now + 1) l0 l1 _ ltac:(lia) I0 I1 O0 O1 P1 P0 eq_refl) as H1. cbv zeta in H1.
  fold b in H1. unfold timer_wheel_cascade. cbn [tw_levels tw_now tw_base tw_future tw_num_timers].
  rewrite (li_num _ _ I0). change (num_of 0) with 1024. rewrite Hu. cbn [cascade_levels].
  rewrite (source_slot_is 1 l1 now I1). change (unit_of 1) with 1024. rewrite <- E1. change (num_of 1) with 64 in *.
  set (s1 := (b + 1) mod 64) in *. set (l0' := foldl prepend_to l0 (slot_get l1 s1)) in *. set (l1a := slot_clear l1 s1) in *.
  destruct H1 as (I0' & I1a & O0' & O1a & Pm1). rewrite (li_num _ _ I1a). change (num_of 1 - 1) with 63.
  assert (Hs1 : 0 <= s1 < 64) by (by apply Z.mod_pos_bound).
  case_bool.
  { pose proof (ptr_up b Hb0 ltac:(fold s1; lia)) as U2. assert (V2 : ptr 2 (now + 1) = ptr 2 now) by congruence.
    assert (V3 : ptr 3 (now + 1) = ptr 3 now) by (rewrite Q3, R3; by rewrite V2). assert (VF : ptrF (now + 1) = ptrF now) by (rewrite QF, RF; by rewrite V3).
    exists l0', l1a, l2, l3, future. split; [done|]. split.
    - split; try done; [by eapply lev_ok_ptr|by eapply lev_ok_ptr|]. intros e He. eapply far_ok_ptr; [done|by apply Of].
    - unfold all4. rewrite !app_assoc. do 3 apply Permutation_app_tail. done. }
  destruct (ptr_up_wrap b Hb0 ltac:(fold s1; lia)) as (U2 & W1 & D2). assert (V2 : ptr 2 (now + 1) = ptr 2 now + 1) by congruence.
  assert (W1' : ptr 1 (now + 1) = (ptr 2 now + 1) * num_of 1 - 1) by (rewrite P1, R2; exact W1).
  pose proof (hand_down vt 1 now (now + 1) l1a l2 _ ltac:(lia) I1a I2 O1a O2 V2 W1' eq_refl) as H2. cbv zeta in H2.
  rewrite (source_slot_is 2 l2 now I2). change (unit_of 2) with 65536.
  assert (E2 : now / 65536 = ptr 2 now) by (rewrite div_65536, <- E1, R2; done). rewrite E2. set (c := ptr 2 now) in *.
  change (num_of 2) with 64 in *. set (s2 := (c + 1) mod 64) in *.
  set (l1' := foldl prepend_to l1a (slot_get l2 s2)) in *. set (l2a := slot_clear l2 s2) in *.
  destruct H2 as (I1' & I2a & O1' & O2a & Pm2). rewrite (li_num _ _ I2a). change (num_of 2 - 1) with 63.
  assert (Hs2 : 0 <= s2 < 64) by (by apply Z.mod_pos_bound). assert (Hc0 : 0 <= c) by (rewrite <- E2; apply Z.div_pos; lia).
  case_bool.
  { pose proof (ptr_up c Hc0 ltac:(fold s2; lia)) as U3. assert (V3 : ptr 3 (now + 1) = ptr 3 now) by (rewrite Q3, R3, V2; done).
    assert (VF : ptrF (now + 1) = ptrF now) by (rewrite QF, RF; by rewrite V3).
    exists l0', l1', l2a, l3, future. split; [done|]. split.
    - split; try done; [by eapply lev_ok_ptr|]. intros e He. eapply far_ok_ptr; [done|by apply Of].
    - unfold all4. rewrite (app_assoc (lv_entries l1')), Pm2, <- app_assoc, (app_assoc (lv_entries l0')), Pm1, <- app_assoc. done. }
  destruct (ptr_up_wrap c Hc0 ltac:(fold s2; lia)) as (U3 & W2 & D3). assert (V3 : ptr 3 (now + 1) = ptr 3 now + 1) by (rewrite Q3, R3, V2; done).
  assert (W2' : ptr 2 (now + 1) = (ptr 3 now + 1) * num_of 2 - 1) by (rewrite V2, R3; exact W2).
  pose proof (hand_down vt 2 now (now + 1) l2a l3 _ ltac:(lia) I2a I3 O2a O3 V3 W2' eq_refl) as H3. cbv zeta in H3.
  rewrite (source_slot_is 3 l3 now I3). change (unit_of 3) with 4194304.
  assert (E3 : now / 4194304 = ptr 3 now) by (rewrite div_4194304, <- E1, <- D2, <- R2, <- D3, R3; done). rewrite E3. set (d := ptr 3 now) in *.
  change (num_of 3) with 64 in *. set (s3 := (d + 1) mod 64) in *.
  set (l2' := foldl prepend_to l2a (slot_get l3 s3)) in *. set (l3a := slot_clear l3 s3) in *.
  destruct H3 as (I2' & I3a & O2' & O3a & Pm3). rewrite (li_num _ _ I3a). change (num_of 3 - 1) with 63.
  assert (Hs3 : 0 <= s3 < 64) by (by apply Z.mod_pos_bound). assert (Hd0 : 0 <= d) by (rewrite <- E3; apply Z.div_pos; lia).
  assert (Pm : forall f f' l3', Permutation (lv_entries l3' ++ f') (lv_entries l3a ++ f) ->
    Permutation (all4 l0' l1' l2' l3' f') (all4 l0 l1 l2 l3 f)).
  { intros f f' l3' Hf. unfold all4. rewrite Hf. rewrite (app_assoc (lv_entries l2')), Pm3, <- app_assoc.
    rewrite (app_assoc (lv_entries l1')), Pm2, <- app_assoc, (app_assoc (lv_entries l0')), Pm1, <- app_assoc. done. }
  case_bool.
  { pose proof (ptr_up d Hd0 ltac:(fold s3; lia)) as UF. assert (VF : ptrF (now + 1) = ptrF now) by (rewrite QF, RF, V3; done).
    exists l0', l1', l2', l3a, future. split; [done|]. split; [|by apply Pm].
    split; try done. intros e He. eapply far_ok_ptr; [done|by apply Of]. }
  destruct (ptr_up_wrap d Hd0 ltac:(fold s3; lia)) as (UF & W3 & DF). assert (VF : ptrF (now + 1) = ptrF now + 1) by (rewrite QF, RF, V3; done).
  assert (EF : ptrF now = now / 2 ^ 28) by (rewrite div_2_28, RF, DF, <- E1, <- D2, <- R2, <- D3, <- R3; done).
  assert (W3' : ptr 3 (now + 1) = 64 * (ptrF now + 1) - 1) by (rewrite V3, RF; lia).
  destruct (far_hand_down vt now (now + 1) base l3a future I3a O3a Of ltac:(lia) Hbase EF VF W3') as (I3' & O3' & Of' & PmF).
  unfold cascade_future. cbn [last length Nat.sub take app].
  eexists l0', l1', l2', _, _. split; [reflexivity|]. split; [by split|]. by apply Pm.
Qed.

(** ** One tick *)

Lemma levels_ok_none (now : Z) (l0 l1 l2 l3 : TWLevel) : lv_is 0 l0 -> lv_is 1 l1 -> lv_is 2 l2 -> lv_is 3 l3 ->
  all4 l0 l1 l2 l3 [] = [] -> levels_ok vt now l0 l1 l2 l3 [].
Proof.
  intros I0 I1 I2 I3 H. unfold all4 in H. apply app_nil in H as [E0 H]. apply app_nil in H as [E1 H]. apply app_nil in H as [E2 H].
  apply app_nil in H as [E3 _].
  assert (N : forall k l, lv_is k l -> lv_entries l = [] -> lev_ok vt k now l).
  { intros k l Hl E s e Hin. exfalso. destruct (decide (s < num_of k)) as [Hlt|Hge].
    - assert (He : e ∈ lv_entries l) by (apply (in_slot_entries k l e Hl); exists s; split; [destruct Hin; lia|done]).
      rewrite E in He. by apply elem_of_nil in He.
    - destruct Hin as [H0 He]. unfold slot_get in He. rewrite lookup_ge_None_2 in He; [by apply elem_of_nil in He|].
      pose proof (li_slots _ _ Hl) as HL. unfold lenZ in HL. lia. }
  split; auto. intros e He. by apply elem_of_nil in He.
Qed.

Lemma expired_now (now : Z) (l0 : TWLevel) (e : TWEntry) : lv_is 0 l0 -> lev_ok vt 0 now l0 -> e ∈ slot_get l0 (slot_of l0 now) ->
  vt (tw_id e) = now.
Proof.
  intros I0 O0 He. rewrite (slot_of_is 0) in He by done. change (unit_of 0) with 1 in He. rewrite Z.div_1_r in He.
  destruct (O0 (now mod num_of 0) e) as (_ & S & W); [split; [by apply Z.mod_pos_bound|done]|].
  change (unit_of 0) with 1 in *. rewrite Z.div_1_r in *. unfold ptr in W. pose proof (mod_window (num_of 0) (now - 1) (vt (tw_id e))) as M.
  replace (now - 1 + 1) with now in M by lia. apply M; [done|exact W|]. by rewrite <- S.
Qed.

Lemma tick_level0 (now : Z) (l0 : TWLevel) : lv_is 0 l0 -> lev_ok vt 0 now l0 ->
  lv_is 0 (slot_clear l0 (slot_of l0 now)) /\ lev_ok vt 0 (now + 1) (slot_clear l0 (slot_of l0 now)) /\
  Permutation (slot_get l0 (slot_of l0 now) ++ lv_entries (slot_clear l0 (slot_of l0 now))) (lv_entries l0).
Proof.
  intros I0 O0. pose proof (slot_range 0 l0 now I0) as Hr. rewrite (li_slots _ _ I0) in Hr.
  destruct (slot_clear_is 0 l0 _ I0 Hr) as (C1 & C2 & C3). split; [done|]. split; [|done].
  intros s e [Hne Hin]%C3. destruct (O0 s e Hin) as (C & S & W). split; [done|]. split; [done|].
  assert (vt (tw_id e) <> now).
  { intros E. apply Hne. rewrite S, E. symmetry. by apply slot_of_is. }
  change (unit_of 0) with 1 in *. rewrite Z.div_1_r in *. unfold ptr in *. lia.
Qed.

Lemma ptr_same (now : Z) : 0 <= now -> now mod 1024 <> 1023 ->
  ptr 1 (now + 1) = ptr 1 now /\ ptr 2 (now + 1) = ptr 2 now /\ ptr 3 (now + 1) = ptr 3 now /\ ptrF (now + 1) = ptrF now.
Proof.
  intros H0 H. assert (E : ptr1 (now + 1) = ptr1 now).
  { unfold ptr1. pose proof (Z.div_mod now 1024). pose proof (Z.mod_pos_bound now 1024).
    symmetry. apply (Z.div_unique_pos _ _ _ (now mod 1024 + 1)); lia. }
  unfold ptr, ptrF, ptr3, ptr2. by rewrite E.
Qed.

(** Timers fire from now on. *)
Lemma ptr_lower (k : nat) (now v : Z) : (1 <= k <= 3)%nat -> 0 <= now -> ptr k now < v / unit_of k -> now < v.
Proof.
  intros Hk H0 H. assert (Hp : now / unit_of k <= ptr k now).
  { destruct k as [|[|[|[|k]]]]; [lia| | | |lia]; unfold ptr, unit_of.
    - done.
    - rewrite div_65536. apply Z.div_le_mono; [done|]. unfold ptr1. lia.
    - rewrite div_4194304. apply Z.div_le_mono; [done|]. unfold ptr2, ptr1.
      pose proof (Z.div_le_mono (now / 1024) (now / 1024 + 1) 64). lia. }
  pose proof (unit_of_pos k). destruct (Z.lt_ge_cases now v) as [|Hge]; [done|]. pose proof (Z.div_le_mono v now (unit_of k)). lia.
Qed.

Lemma ptrF_lower (now v : Z) : 0 <= now -> ptrF now < v / 2 ^ 28 -> now < v.
Proof.
  intros H0 H. assert (Hp : now / 2 ^ 28 <= ptrF now).
  { rewrite div_2_28. unfold ptrF. apply Z.div_le_mono; [done|]. unfold ptr3, ptr2, ptr1.
    pose proof (Z.div_le_mono (now / 1024) (now / 1024 + 1) 64).
    pose proof (Z.div_le_mono (now / 1024 / 64) ((now / 1024 + 1) / 64 + 1) 64). lia. }
  destruct (Z.lt_ge_cases now v) as [|Hge]; [done|]. pose proof (Z.div_le_mono v now (2 ^ 28)). lia.
Qed.

Lemma entries_later (self : TimerWheel) (e : TWEntry) : wheel_ok vt self -> e ∈ entries self -> tw_now self <= vt (tw_id e).
Proof.
  intros [(l0 & l1 & l2 & l3 & E & [I0 I1 I2 I3 O0 O1 O2 O3 Of]) Hn _ _] He. rewrite (entries_all4 self l0 l1 l2 l3 E) in He.
  unfold all4 in He. rewrite !elem_of_app in He. destruct He as [He|[He|[He|[He|He]]]].
  - apply (in_slot_entries 0 l0 e I0) in He as (s & _ & Hin). destruct (O0 s e Hin) as (_ & _ & W).
    change (unit_of 0) with 1 in W. rewrite Z.div_1_r in W. unfold ptr in W. lia.
  - apply (in_slot_entries 1 l1 e I1) in He as (s & _ & Hin). destruct (O1 s e Hin) as (_ & _ & W).
    pose proof (ptr_lower 1 (tw_now self) (vt (tw_id e))). lia.
  - apply (in_slot_entries 2 l2 e I2) in He as (s & _ & Hin). destruct (O2 s e Hin) as (_ & _ & W).
    pose proof (ptr_lower 2 (tw_now self) (vt (tw_id e))). lia.
  - apply (in_slot_entries 3 l3 e I3) in He as (s & _ & Hin). destruct (O3 s e Hin) as (_ & _ & W).
    pose proof (ptr_lower 3 (tw_now self) (vt (tw_id e))). lia.
  - destruct (Of e He) as (_ & W & _). pose proof (ptrF_lower (tw_now self) (vt (tw_id e))). lia.
Qed.

(** An empty wheel can be set to any time. *)
Lemma reset_clock_ok (l0 l1 l2 l3 : TWLevel) (now base new_now : Z) : lv_is 0 l0 -> lv_is 1 l1 -> lv_is 2 l2 -> lv_is 3 l3 ->
  0 <= new_now < 2 ^ 62 -> all4 l0 l1 l2 l3 [] = [] ->
  let w := reset_clock (mkTimerWheel [l0; l1; l2; l3] [] now base 0) new_now in
  wheel_ok vt w /\ entries w = [] /\ tw_now w = new_now.
Proof.
  intros I0 I1 I2 I3 Hn Hnil w. assert (Hent : entries w = []) by (rewrite (entries_all4 w l0 l1 l2 l3 eq_refl); exact Hnil).
  split; [|done]. split; [|done| |by rewrite Hent].
  - exists l0, l1, l2, l3. split; [done|]. by apply levels_ok_none.
  - unfold w, reset_clock, level0. cbn [tw_levels set_clock tw_base tw_now]. rewrite (li_mask _ _ I0). apply (land_lnot_ones new_now 10). lia.
Qed.

Lemma tick_ok (self : TimerWheel) (new_now : Z) : wheel_ok vt self -> tw_now self < new_now < 2 ^ 62 ->
  exists expired leave self', timer_wheel_tick self new_now = (pair (tw_now self) <$> expired, leave, self') /\
    Permutation (entries self) (expired ++ entries self') /\ (forall e, e ∈ expired -> vt (tw_id e) = tw_now self) /\
    wheel_ok vt self' /\ (if leave then entries self' = [] /\ tw_now self' = new_now else tw_now self' = tw_now self + 1).
Proof.
  intros Hw Hnew. pose proof Hw as [(l0 & l1 & l2 & l3 & E & [I0 I1 I2 I3 O0 O1 O2 O3 Of]) Hn Hbase Hnum].
  rewrite (entries_all4 self l0 l1 l2 l3 E) in *. destruct self as [levels future now base num]. cbn [tw_levels tw_future tw_now tw_base tw_num_timers] in *.
  subst levels. destruct (tick_level0 now l0 I0 O0) as (J0 & O0' & P0). unfold timer_wheel_tick, level0.
  cbn [tw_levels tw_now set_levels set_num_timers tw_num_timers tail tw_future tw_base].
  set (expired := slot_get l0 (slot_of l0 now)) in *. set (l0' := slot_clear l0 (slot_of l0 now)) in *.
  assert (Perm : Permutation (all4 l0 l1 l2 l3 future) (expired ++ all4 l0' l1 l2 l3 future)) by (unfold all4; by rewrite <- P0, <- app_assoc).
  assert (Hlen : lenZ (all4 l0 l1 l2 l3 future) = lenZ expired + lenZ (all4 l0' l1 l2 l3 future))
    by (unfold lenZ; rewrite Perm, length_app; lia).
  assert (Hexp : forall e, e ∈ expired -> vt (tw_id e) = now) by (intros e He; exact (expired_now now l0 e I0 O0 He)).
  case_bool.
  { assert (Hnil : all4 l0' l1 l2 l3 future = []) by (apply lenZ_zero_nil; lia).
    assert (Hf : future = []) by (unfold all4 in Hnil; by repeat apply app_nil in Hnil as [_ Hnil]). subst future. rewrite Hb.
    destruct (reset_clock_ok l0' l1 l2 l3 now base new_now J0 I1 I2 I3 ltac:(lia) Hnil) as (R1 & R2 & R3).
    exists expired, true, (reset_clock (mkTimerWheel [l0'; l1; l2; l3] [] now base 0) new_now). split; [reflexivity|].
    split; [|done]. rewrite R2, Perm, Hnil. done. }
  rewrite (li_num _ _ I0). change (num_of 0 - 1) with 1023. rewrite (slot_of_is 0 l0 now I0). change (unit_of 0) with 1. rewrite Z.div_1_r.
  change (num_of 0) with 1024.
  destruct (decide (now mod 1024 = 1023)) as [Hend|Hmid].
  - rewrite bool_decide_eq_true_2 by done.
    destruct (cascade_ok now base (num - lenZ expired) l0' l1 l2 l3 future ltac:(lia) Hend Hbase J0 O0' I1 O1 I2 O2 I3 O3 Of)
      as (m0 & m1 & m2 & m3 & f & Hc & Hlv & Pm). unfold set_num_timers, set_levels. cbn [tw_levels tw_future tw_now tw_base]. rewrite Hc.
    unfold set_clock. cbn [tw_levels tw_future tw_base tw_num_timers tw_now]. rewrite (u64_small (now + 1)) by lia.
    eexists expired, false, _. split; [reflexivity|]. rewrite (entries_all4 _ m0 m1 m2 m3) by done. cbn [tw_future].
    split; [by rewrite Pm|]. split; [done|]. split; [|done]. split; cbn [tw_levels tw_now tw_future tw_base tw_num_timers].
    + by exists m0, m1, m2, m3.
    + lia.
    + destruct (ptr1_wrap now ltac:(lia) Hend) as (P1 & _ & _). unfold ptr, ptr1 in P1. lia.
    + rewrite (entries_all4 _ m0 m1 m2 m3) by done. cbn [tw_future]. unfold lenZ in *. rewrite Pm. lia.
  - rewrite bool_decide_eq_false_2 by done. destruct (ptr_same now ltac:(lia) Hmid) as (S1 & S2 & S3 & SF).
    unfold set_clock, set_num_timers, set_levels. cbn [tw_levels tw_future tw_base tw_num_timers tw_now]. rewrite (u64_small (now + 1)) by lia.
    eexists expired, false, _. split; [reflexivity|]. rewrite (entries_all4 _ l0' l1 l2 l3) by done. cbn [tw_future].
    split; [done|]. split; [done|]. split; [|done]. split; cbn [tw_levels tw_now tw_future tw_base tw_num_timers].
    + exists l0', l1, l2, l3. split; [done|]. split; try done; try (by eapply lev_ok_ptr).
      intros e He. eapply far_ok_ptr; [done|by apply Of].
    + lia.
    + unfold ptr, ptr1 in S1. lia.
    + rewrite (entries_all4 _ l0' l1 l2 l3) by done. cbn [tw_future]. lia.
Qed.
End wheel.

(** * Runs of the timer wheel: adding, removing, and setting the time *)

(** ** Setting the time *)

Section time.
Context (vt : Z -> Z).

(** What a change of the time from [self] to [self'] may do. *)
Record advanced (self self' : TimerWheel) (new_now : Z) (fired : list (Z * TWEntry)) : Prop := {
  ad_ok : wheel_ok vt self';
  ad_now : tw_now self' = new_now;
  ad_all : Permutation (entries self) ((snd <$> fired) ++ entries self');
  ad_fired : forall t e, (t, e) ∈ fired -> t = vt (tw_id e) /\ tw_now self <= t < new_now;
  ad_sorted : StronglySorted Z.le (fst <$> fired)
}.

Lemma sorted_app (l k : list Z) (x : Z) : StronglySorted Z.le l -> StronglySorted Z.le k ->
  (forall y, y ∈ l -> y <= x) -> (forall y, y ∈ k -> x <= y) -> StronglySorted Z.le (l ++ k).
Proof.
  intros Hl Hk Hlx Hkx. induction Hl as [|y l Hl IH Hy]; [done|]. simpl. constructor.
  - apply IH. intros z Hz. apply Hlx, elem_of_cons. by right.
  - apply Forall_app. split; [done|]. apply Forall_forall. intros z Hz. pose proof (Hlx y ltac:(apply elem_of_cons; by left)).
    pose proof (Hkx z Hz). lia.
Qed.

Lemma sorted_const (t : Z) (l : list TWEntry) : StronglySorted Z.le (fst <$> (pair t <$> l)).
Proof.
  induction l as [|e l IH]; [constructor|]. rewrite !fmap_cons. constructor; [done|]. apply Forall_forall.
  intros x Hx. apply list_elem_of_fmap in Hx as (p & -> & Hp). apply list_elem_of_fmap in Hp as (e' & -> & _). simpl. lia.
Qed.

Lemma fired_const (t t' : Z) (e : TWEntry) (l : list TWEntry) : (t, e) ∈ (pair t' <$> l) -> t = t' /\ e ∈ l.
Proof. intros Hp. apply list_elem_of_fmap in Hp as (e' & [= -> ->] & He). done. Qed.

Lemma snd_pair (t : Z) (l : list TWEntry) : snd <$> (pair t <$> l) = l.
Proof. induction l as [|e l IH]; [done|]. rewrite !fmap_cons, IH. done. Qed.

Lemma loop_ok (fuel : nat) (self : TimerWheel) (new_now : Z) : wheel_ok vt self -> tw_now self <= new_now < 2 ^ 62 ->
  new_now - tw_now self <= Z.of_nat fuel ->
  let '(fired, self') := timer_wheel_loop fuel self new_now in advanced self self' new_now fired.
Proof.
  revert self. induction fuel as [|fuel IH]; intros self Hw Hn Hf.
  { simpl. split; [done|lia|done|by intros t e He%elem_of_nil|constructor]. }
  cbn [timer_wheel_loop]. case_bool.
  2: { split; [done|lia|done|by intros t e He%elem_of_nil|constructor]. }
  destruct (tick_ok vt self new_now Hw ltac:(lia)) as (expired & leave & s1 & -> & P1 & V1 & W1 & L1).
  destruct leave.
  { destruct L1 as [E1 N1]. rewrite E1, app_nil_r in P1. split; [done|done| | |apply sorted_const].
    - by rewrite snd_pair, E1, app_nil_r.
    - intros t e [-> He]%fired_const. rewrite (V1 e He). lia. }
  specialize (IH s1 W1 ltac:(lia) ltac:(lia)). destruct (timer_wheel_loop fuel s1 new_now) as [more s2].
  destruct IH as [A1 A2 A3 A4 A5]. split; [done|done| | |].
  - rewrite fmap_app, snd_pair, P1, A3. by rewrite app_assoc.
  - intros t e [[-> He]%fired_const|He]%elem_of_app; [rewrite (V1 e He); lia|]. destruct (A4 t e He). lia.
  - rewrite fmap_app. apply (sorted_app _ _ (tw_now self)); [apply sorted_const|done| |].
    + intros y Hy. apply list_elem_of_fmap in Hy as ([t e] & -> & [-> _]%fired_const). simpl. lia.
    + intros y Hy. apply list_elem_of_fmap in Hy as ([t e] & -> & He). destruct (A4 t e He). simpl. lia.
Qed.

Lemma set_time_ok (self : TimerWheel) (new_now : Z) : wheel_ok vt self -> tw_now self < new_now < 2 ^ 62 ->
  let '(fired, self') := timer_wheel_set_time self new_now in advanced self self' new_now fired.
Proof.
  intros Hw Hn. unfold timer_wheel_set_time. rewrite bool_decide_eq_false_2 by lia. case_bool; [|apply loop_ok; [done|lia|lia]].
  pose proof Hw as [(l0 & l1 & l2 & l3 & E & [I0 I1 I2 I3 _ _ _ _ _]) H0 _ Hnum].
  assert (Hnil : entries self = []) by (apply lenZ_zero_nil; lia).
  rewrite (entries_all4 self l0 l1 l2 l3 E) in Hnil.
  assert (Hf : tw_future self = []) by (unfold all4 in Hnil; by repeat apply app_nil in Hnil as [_ Hnil]). rewrite Hf in Hnil.
  destruct self as [levels future now base num]. cbn [tw_levels tw_future tw_now tw_num_timers] in *. subst levels future num.
  destruct (reset_clock_ok vt l0 l1 l2 l3 now base new_now I0 I1 I2 I3 ltac:(lia) Hnil) as (R1 & R2 & R3).
  split; [done|done| |by intros t e He%elem_of_nil|constructor]. rewrite R2. rewrite (entries_all4 _ l0 l1 l2 l3) by done. simpl. by rewrite Hnil.
Qed.

(** ** Adding a timer *)

Lemma levels_base_eq (k : nat) (now base : Z) : (k < 4)%nat -> base = 1024 * (now / 1024) -> base / width_of k = now / width_of k.
Proof.
  intros Hk ->. assert (E : exists m, 0 < m /\ width_of k = 1024 * m) by (destruct k as [|[|[|[|k]]]]; [exists 1|exists 64|exists 4096|exists 262144|lia]; done).
  destruct E as (m & Hm & ->). rewrite <- !Z.div_div by lia. by rewrite (Z.mul_comm 1024), Z.div_mul by lia.
Qed.

Lemma level_takes_is (k : nat) (level : TWLevel) (now base target : Z) : (k < 4)%nat -> lv_is k level -> 0 <= now < 2 ^ 62 ->
  base = 1024 * (now / 1024) -> level_takes now base level target = takes k now target.
Proof.
  intros Hk Hl Hn Hb. unfold level_takes, takes. rewrite (level_base_is k), (level_width_is k) by done.
  rewrite (levels_base_eq k now base Hk Hb), !(land_mask_is k) by done.
  assert (Hw : 0 < width_of k <= 2 ^ 28) by (destruct k as [|[|[|[|k]]]]; [done..|lia]).
  pose proof (Z.mul_div_le now (width_of k)). pose proof (Z.div_pos now (width_of k)).
  rewrite !u64_small by nia. case_bool; [|done]. f_equal. apply bool_decide_ext. pose proof (unit_of_pos k). nia.
Qed.

Lemma align_ok (k : nat) (now target : Z) : (k < 4)%nat ->
  align k now target mod width_of k = target mod width_of k /\
  ptr k now < align k now target / unit_of k <= ptr k now + num_of k.
Proof.
  intros Hk. pose proof (unit_of_pos k) as Hu. pose proof (num_of_pos k) as Hn. unfold align.
  set (q := target / unit_of k - ptr k now - 1). split.
  - replace (target - width_of k * (q / num_of k)) with (target + (- (q / num_of k)) * width_of k) by lia.
    apply Z.mod_add. unfold width_of. lia.
  - replace (target - width_of k * (q / num_of k)) with (target + (- (num_of k * (q / num_of k))) * unit_of k) by (unfold width_of; lia).
    rewrite Z.div_add by lia. pose proof (Z.div_mod q (num_of k)). pose proof (Z.mod_pos_bound q (num_of k) Hn).
    assert (Eq : target / unit_of k = q + ptr k now + 1) by (unfold q; lia). rewrite Eq. lia.
Qed.

Lemma placed_ok (k : nat) (level : TWLevel) (now : Z) (e : TWEntry) : (k < 4)%nat -> lv_is k level -> lev_ok vt k now level ->
  vt (tw_id e) = align k now (tw_target e) ->
  lv_is k (prepend_to level e) /\ lev_ok vt k now (prepend_to level e) /\ Permutation (lv_entries (prepend_to level e)) (e :: lv_entries level).
Proof.
  intros Hk Hl Hok Hv. destruct (prepend_to_is k level e Hl) as (L & P & S). destruct (align_ok k now (tw_target e) Hk) as [C W].
  split; [done|]. split; [|done]. intros s x [[-> ->]|Hin]%S; [|by apply Hok]. split; [by rewrite Hv|].
  split; [apply timer_slot; [done|by rewrite Hv]|by rewrite Hv].
Qed.

(** The far timers lie behind the pointer, or on it. *)
Lemma far_lower (now target : Z) : 0 <= now -> takes 3 now target = false -> ptrF now <= target / 2 ^ 28.
Proof.
  intros H0 Ht. unfold takes in Ht. change (width_of 3) with (2 ^ 28) in Ht. revert Ht. case_bool; [intros _|done].
  assert (Hd : now / 2 ^ 28 + 1 <= target / 2 ^ 28) by (apply Z.div_le_lower_bound; lia).
  assert (Hp : ptrF now <= now / 2 ^ 28 + 1); [|lia]. rewrite div_2_28. unfold ptrF, ptr3, ptr2, ptr1.
  set (b := now / 1024). pose proof (Z.div_mod b 64). pose proof (Z.mod_pos_bound b 64).
  pose proof (Z.div_mod (b / 64) 64). pose proof (Z.mod_pos_bound (b / 64) 64).
  pose proof (Z.div_mod (b / 64 / 64) 64). pose proof (Z.mod_pos_bound (b / 64 / 64) 64).
  assert (X1 : (b + 1) / 64 <= b / 64 + 1) by (apply Z.div_le_upper_bound; lia).
  assert (X2 : ((b + 1) / 64 + 1) / 64 < b / 64 / 64 + 2) by (apply Z.div_lt_upper_bound; lia).
  assert (X3 : (((b + 1) / 64 + 1) / 64 + 1) / 64 < b / 64 / 64 / 64 + 2) by (apply Z.div_lt_upper_bound; lia). lia.
Qed.

Lemma add_entry_ok (self : TimerWheel) (e : TWEntry) : wheel_ok vt self -> tw_now self < 2 ^ 61 -> 0 <= tw_target e ->
  vt (tw_id e) = fire_time (tw_now self) (tw_target e) ->
  let self' := timer_wheel_add_timer_entry self e in
  (exists l0 l1 l2 l3, tw_levels self' = [l0; l1; l2; l3] /\ levels_ok vt (tw_now self) l0 l1 l2 l3 (tw_future self')) /\
  tw_now self' = tw_now self /\ tw_base self' = tw_base self /\ tw_num_timers self' = tw_num_timers self /\
  Permutation (entries self') (e :: entries self).
Proof.
  intros [(l0 & l1 & l2 & l3 & E & [I0 I1 I2 I3 O0 O1 O2 O3 Of]) Hn Hbase _] Hlt Ht Hv. unfold timer_wheel_add_timer_entry.
  rewrite (entries_all4 self l0 l1 l2 l3 E), E. cbn [add_to_levels]. unfold fire_time in Hv.
  rewrite (level_takes_is 0 l0), (level_takes_is 1 l1), (level_takes_is 2 l2), (level_takes_is 3 l3) by (done || lia).
  destruct (takes 0 _ _) eqn:T0.
  { destruct (placed_ok 0 l0 (tw_now self) e ltac:(lia) I0 O0 Hv) as (J & O & P).
    split; [exists (prepend_to l0 e), l1, l2, l3; split; [done|by split]|].
    split_and!; try done. rewrite (entries_all4 _ (prepend_to l0 e) l1 l2 l3) by done. unfold all4. rewrite P. done. }
  destruct (takes 1 _ _) eqn:T1.
  { destruct (placed_ok 1 l1 (tw_now self) e ltac:(lia) I1 O1 Hv) as (J & O & P).
    split; [exists l0, (prepend_to l1 e), l2, l3; split; [done|by split]|].
    split_and!; try done. rewrite (entries_all4 _ l0 (prepend_to l1 e) l2 l3) by done. unfold all4. rewrite P. simpl. by rewrite <- !Permutation_middle. }
  destruct (takes 2 _ _) eqn:T2.
  { destruct (placed_ok 2 l2 (tw_now self) e ltac:(lia) I2 O2 Hv) as (J & O & P).
    split; [exists l0, l1, (prepend_to l2 e), l3; split; [done|by split]|].
    split_and!; try done. rewrite (entries_all4 _ l0 l1 (prepend_to l2 e) l3) by done. unfold all4. rewrite P. simpl. by rewrite <- !Permutation_middle. }
  destruct (takes 3 _ _) eqn:T3.
  { destruct (placed_ok 3 l3 (tw_now self) e ltac:(lia) I3 O3 Hv) as (J & O & P).
    split; [exists l0, l1, l2, (prepend_to l3 e); split; [done|by split]|].
    split_and!; try done. rewrite (entries_all4 _ l0 l1 l2 (prepend_to l3 e)) by done. unfold all4. rewrite P. simpl. by rewrite <- !Permutation_middle. }
  pose proof (far_lower (tw_now self) (tw_target e) ltac:(lia) T3) as Hfar. cbn [fmap option_fmap option_map].
  split; [exists l0, l1, l2, l3; split; [done|split; try done]|].
  - intros x [->|Hx]%elem_of_cons; [|by apply Of]. unfold far_ok. rewrite Hv. case_bool; [auto|].
    assert (E1 : (tw_target e + 2 ^ 28) / 2 ^ 28 = tw_target e / 2 ^ 28 + 1) by (change (tw_target e + 2 ^ 28) with (tw_target e + 1 * 2 ^ 28); by rewrite Z.div_add by lia).
    split; [change (tw_target e + 2 ^ 28) with (tw_target e + 1 * 2 ^ 28); by apply Z.mod_add|]. rewrite E1. split; [lia|]. right. split; [done|lia].
  - split_and!; try done. rewrite (entries_all4 _ l0 l1 l2 l3) by done. unfold all4. simpl. by rewrite <- !Permutation_middle.
Qed.
End time.

(** ** Removing a timer *)

Lemma in_slot_range (k : nat) (level : TWLevel) (s : Z) (e : TWEntry) : lv_is k level -> in_slot level s e -> 0 <= s < num_of k.
Proof.
  intros Hl [H0 He]. split; [done|]. destruct (Z.lt_ge_cases s (num_of k)) as [|Hge]; [done|]. unfold slot_get in He.
  rewrite lookup_ge_None_2 in He; [by apply elem_of_nil in He|]. pose proof (li_slots _ _ Hl) as HL. unfold lenZ in HL. lia.
Qed.

Lemma levels_ok_ext (vt vt' : Z -> Z) (now : Z) (l0 l1 l2 l3 : TWLevel) (future : list TWEntry) :
  levels_ok vt now l0 l1 l2 l3 future -> (forall e, e ∈ all4 l0 l1 l2 l3 future -> vt' (tw_id e) = vt (tw_id e)) ->
  levels_ok vt' now l0 l1 l2 l3 future.
Proof.
  intros [I0 I1 I2 I3 O0 O1 O2 O3 Of] Heq. unfold all4 in Heq.
  assert (L : forall k l, lv_is k l -> lev_ok vt k now l -> (forall e, e ∈ lv_entries l -> vt' (tw_id e) = vt (tw_id e)) -> lev_ok vt' k now l).
  { intros k l Hl Hok He s e Hin. unfold timer_ok. rewrite He; [by apply Hok|]. apply (in_slot_entries k l e Hl).
    exists s. split; [by eapply in_slot_range|done]. }
  split; try done; try (apply L; [done|done|]; intros e He; apply Heq; rewrite !elem_of_app; tauto).
  intros e He. unfold far_ok. rewrite Heq; [by apply Of|]. rewrite !elem_of_app. tauto.
Qed.

Lemma unlink_concat (e : TWEntry) (ls : list (list TWEntry)) : concat (unlink e <$> ls) = unlink e (concat ls).
Proof. induction ls as [|l ls IH]; [done|]. rewrite fmap_cons. simpl. rewrite IH. unfold unlink. by rewrite filter_app. Qed.

Definition level_unlink (e : TWEntry) (level : TWLevel) : TWLevel := set_slots level (unlink e <$> lv_slots level).

Lemma level_unlink_ok (vt : Z -> Z) (k : nat) (now : Z) (level : TWLevel) (e : TWEntry) : lv_is k level -> lev_ok vt k now level ->
  lv_is k (level_unlink e level) /\ lev_ok vt k now (level_unlink e level).
Proof.
  intros [H1 H2 H3 H4 H5] Hok. split; [split; try done; simpl; unfold lenZ in *; by rewrite length_fmap|].
  intros s x [Hs Hx]. apply Hok. split; [done|]. unfold slot_get in *. simpl in Hx. rewrite list_lookup_fmap in Hx.
  destruct (lv_slots level !! Z.to_nat s); simpl in *; [|done]. by apply list_elem_of_filter in Hx as [_ Hx].
Qed.

Lemma unlink_entries (self : TimerWheel) (e : TWEntry) : entries (tw_entry_unlink self e) = unlink e (entries self).
Proof.
  unfold entries, tw_entry_unlink, unlink. cbn [tw_levels tw_future]. rewrite filter_app. f_equal. induction (tw_levels self) as [|l ls IH]; [done|].
  rewrite fmap_cons. cbn [mbind list_bind]. rewrite filter_app. f_equal; [apply unlink_concat|exact IH].
Qed.

Lemma unlink_one (e : TWEntry) (l : list TWEntry) : NoDup (tw_id <$> l) -> e ∈ l -> Permutation l (e :: unlink e l).
Proof.
  intros Hn He. induction l as [|x l IH]; [by apply elem_of_nil in He|]. rewrite fmap_cons in Hn. inversion Hn as [|? ? Hx Hn']; subst.
  unfold unlink in *. rewrite filter_cons. apply elem_of_cons in He as [->|He].
  - rewrite decide_False by (intros H; by apply H). f_equiv. symmetry. apply reflexive_eq. clear -Hx. induction l as [|y l IH]; [done|].
    rewrite fmap_cons, not_elem_of_cons in Hx. destruct Hx as [Hy Hx]. rewrite filter_cons, decide_True by done. by rewrite IH.
  - rewrite decide_True; [by rewrite Permutation_swap, <- IH|]. intros E. apply Hx. rewrite E. by apply list_elem_of_fmap_2.
Qed.

Lemma unlink_ok (vt : Z -> Z) (self : TimerWheel) (e : TWEntry) : wheel_ok vt self -> NoDup (tw_id <$> entries self) -> e ∈ entries self ->
  wheel_ok vt (set_num_timers (tw_entry_unlink self e) (tw_num_timers self - 1)) /\
  Permutation (entries self) (e :: entries (tw_entry_unlink self e)).
Proof.
  intros [(l0 & l1 & l2 & l3 & E & [I0 I1 I2 I3 O0 O1 O2 O3 Of]) Hn Hb Hnum] Hnd He.
  pose proof (unlink_one e _ Hnd He) as P. rewrite <- unlink_entries in P. split; [|done]. split; try done.
  - exists (level_unlink e l0), (level_unlink e l1), (level_unlink e l2), (level_unlink e l3).
    split; [simpl; by rewrite E|]. split; try (by eapply level_unlink_ok).
    intros x Hx. simpl in Hx. unfold unlink in Hx. apply list_elem_of_filter in Hx as [_ Hx]. by apply Of.
  - cbn [set_num_timers tw_num_timers]. change (entries (set_num_timers (tw_entry_unlink self e) (tw_num_timers self - 1))) with (entries (tw_entry_unlink self e)).
    rewrite Hnum. unfold lenZ. rewrite P at 1. simpl. lia.
Qed.

(** ** Runs *)

Definition upd (vt : Z -> Z) (id t : Z) : Z -> Z := fun i => if decide (i = id) then t else vt i.

(** [vt] keeps for every timer the time computed when it was set. *)
Inductive wheel_reach : (Z -> Z) -> TimerWheel -> Prop :=
| wr_new vt : wheel_reach vt timer_wheel_new
| wr_add vt w timeout id : wheel_reach vt w -> 0 <= timeout < 2 ^ 31 -> tw_now w < 2 ^ 61 -> id ∉ tw_id <$> entries w ->
    wheel_reach (upd vt id (fire_time (tw_now w) (tw_now w + timeout))) (snd (timer_wheel_add_timer w timeout id))
| wr_del vt w e : wheel_reach vt w -> e ∈ entries w -> wheel_reach vt (timer_wheel_del_timer w e)
| wr_mod vt w e timeout : wheel_reach vt w -> e ∈ entries w -> 0 <= timeout < 2 ^ 31 -> tw_now w < 2 ^ 61 ->
    wheel_reach (upd vt (tw_id e) (fire_time (tw_now w) (tw_now w + timeout))) (snd (timer_wheel_mod_timer w e timeout))
| wr_time vt w new_now : wheel_reach vt w -> new_now < 2 ^ 62 -> wheel_reach vt (snd (timer_wheel_set_time w new_now)).

Lemma new_ok (vt : Z -> Z) : wheel_ok vt timer_wheel_new.
Proof.
  assert (I0 : lv_is 0 (tw_level_new 10 0)) by (split; [reflexivity..|split; [reflexivity|discriminate]|reflexivity]). assert (I1 : lv_is 1 (tw_level_new 6 10)) by (split; [reflexivity..|split; [reflexivity|discriminate]|reflexivity]).
  assert (I2 : lv_is 2 (tw_level_new 6 16)) by (split; [reflexivity..|split; [reflexivity|discriminate]|reflexivity]). assert (I3 : lv_is 3 (tw_level_new 6 22)) by (split; [reflexivity..|split; [reflexivity|discriminate]|reflexivity]).
  split; [|done|done|by vm_compute]. exists (tw_level_new 10 0), (tw_level_new 6 10), (tw_level_new 6 16), (tw_level_new 6 22).
  split; [done|]. apply levels_ok_none; done.
Qed.

(** Adding to a wheel whose other timers keep their times. *)
Lemma add_ok (vt : Z -> Z) (w : TimerWheel) (timeout id : Z) (n : Z) : wheel_ok vt (set_num_timers w n) -> 0 <= timeout < 2 ^ 31 ->
  tw_now w < 2 ^ 61 -> id ∉ tw_id <$> entries w -> NoDup (tw_id <$> entries w) ->
  let e := mkTWEntry (u64 (tw_now w + timeout)) id in
  let w' := set_num_timers (timer_wheel_add_timer_entry w e) (n + 1) in
  wheel_ok (upd vt id (fire_time (tw_now w) (tw_now w + timeout))) w' /\ NoDup (tw_id <$> entries w').
Proof.
  intros Hw Ht Hn Hid Hnd e w'. set (vt' := upd vt id (fire_time (tw_now w) (tw_now w + timeout))).
  assert (Hw' : wheel_ok vt' (set_num_timers w n)).
  { destruct Hw as [(l0 & l1 & l2 & l3 & E & Hl) H1 H2 H3]. split; [|done|done|done]. exists l0, l1, l2, l3. split; [done|].
    eapply levels_ok_ext; [exact Hl|]. intros x Hx. unfold vt', upd. destruct (decide _) as [Ex|Ex]; [|done]. exfalso. apply Hid.
    rewrite <- Ex. apply list_elem_of_fmap_2. by rewrite (entries_all4 w l0 l1 l2 l3 E). }
  pose proof (wo_now _ _ Hw) as H0. cbn [set_num_timers tw_now] in H0.
  assert (Hu : u64 (tw_now w + timeout) = tw_now w + timeout) by (apply u64_small; lia).
  assert (Hv : vt' (tw_id e) = fire_time (tw_now w) (tw_target e)).
  { unfold vt', upd, e. cbn [tw_id tw_target]. by rewrite decide_True, Hu. }
  destruct (add_entry_ok vt' (set_num_timers w n) e Hw' Hn ltac:(simpl; lia) Hv) as ((l0 & l1 & l2 & l3 & E & Hl) & A1 & A2 & A3 & P).
  assert (Esame : timer_wheel_add_timer_entry (set_num_timers w n) e = set_num_timers (timer_wheel_add_timer_entry w e) n).
  { unfold timer_wheel_add_timer_entry. cbn [set_num_timers tw_now tw_base tw_levels]. by destruct (add_to_levels _ _ _ _). }
  rewrite Esame in *. cbn [set_num_timers tw_levels tw_now tw_base tw_future] in *.
  change (entries (set_num_timers (timer_wheel_add_timer_entry w e) n)) with (entries w') in P. change (entries (set_num_timers w n)) with (entries w) in P.
  split; [split|].
  - exists l0, l1, l2, l3. split; [done|]. unfold w'. cbn [set_num_timers tw_now tw_future]. by rewrite A1.
  - unfold w'. cbn [set_num_timers tw_now]. rewrite A1. apply Hw.
  - unfold w'. cbn [set_num_timers tw_now tw_base]. rewrite A1, A2. apply Hw.
  - unfold lenZ. rewrite P. pose proof (wo_num _ _ Hw) as Hnum. change (entries (set_num_timers w n)) with (entries w) in Hnum.
    unfold w'. cbn [set_num_timers tw_num_timers length] in *. unfold lenZ in Hnum. lia.
  - rewrite P. rewrite fmap_cons. by constructor.
Qed.

Lemma reach_ok (vt : Z -> Z) (w : TimerWheel) : wheel_reach vt w -> wheel_ok vt w /\ NoDup (tw_id <$> entries w).
Proof.
  induction 1 as [vt|vt w timeout id _ [IH1 IH2] Ht Hn Hid|vt w e _ [IH1 IH2] He|vt w e timeout _ [IH1 IH2] He Ht Hn|vt w new_now _ [IH1 IH2] Hn].
  - split; [apply new_ok|]. vm_compute. constructor.
  - assert (Ew : set_num_timers w (tw_num_timers w) = w) by (by destruct w).
    destruct (add_ok vt w timeout id (tw_num_timers w)) as [A1 A2]; [by rewrite Ew|done|done|done|done|].
    unfold timer_wheel_add_timer. cbn [snd].
    assert (Es : tw_num_timers (timer_wheel_add_timer_entry w (mkTWEntry (u64 (tw_now w + timeout)) id)) = tw_num_timers w)
      by (unfold timer_wheel_add_timer_entry; by destruct (add_to_levels _ _ _ _)).
    by rewrite Es.
  - destruct (unlink_ok vt w e IH1 IH2 He) as [U1 U2]. split; [exact U1|]. rewrite U2, fmap_cons in IH2. by inversion IH2.
  - destruct (unlink_ok vt w e IH1 IH2 He) as [U1 U2]. rewrite U2, fmap_cons in IH2. inversion IH2 as [|? ? Hni Hnd]; subst.
    destruct (add_ok vt (tw_entry_unlink w e) timeout (tw_id e) (tw_num_timers w - 1) U1 Ht Hn Hni Hnd) as [A1 A2].
    unfold timer_wheel_mod_timer. cbn [snd]. set (x := timer_wheel_add_timer_entry _ _) in *.
    assert (Ex : set_num_timers x (tw_num_timers w - 1 + 1) = x).
    { assert (Hx : tw_num_timers x = tw_num_timers w) by (unfold x, timer_wheel_add_timer_entry; by destruct (add_to_levels _ _ _ _)).
      replace (tw_num_timers w - 1 + 1) with (tw_num_timers x) by lia. by destruct x. }
    rewrite Ex in A1, A2. done.
  - destruct (Z.lt_ge_cases (tw_now w) new_now) as [Hlt|Hge].
    + pose proof (set_time_ok vt w new_now IH1 ltac:(lia)) as H. destruct (timer_wheel_set_time w new_now) as [fired w']. cbn [snd].
      destruct H as [A1 _ A3 _ _]. split; [done|]. rewrite A3, fmap_app in IH2. by apply NoDup_app in IH2 as (_ & _ & ?).
    + unfold timer_wheel_set_time. by rewrite bool_decide_eq_true_2 by lia.
Qed.
