(* ===== verification/TimerWheelClaims.v ===== *)
(** * When the timers of the wheel fire, and that all do *)
From S2P Require Import Prelude TimerWheel TimerWheelSpec TimerWheelRuns.
From Stdlib Require Import Sorted.

(** ** Expiring every timer *)

(** The time that is set matters only to the clock of an empty wheel. *)
Lemma tick_any (self : TimerWheel) (a b : Z) :
  let '(fired, leave, s) := timer_wheel_tick self a in
  timer_wheel_tick self b = (fired, leave, if leave then reset_clock s b else s).
Proof. unfold timer_wheel_tick. case_bool; done. Qed.

Lemma cascade_num (self : TimerWheel) : tw_num_timers (timer_wheel_cascade self) = tw_num_timers self.
Proof.
  unfold timer_wheel_cascade. destruct (tw_levels self) as [|level levels]; [done|].
  destruct (cascade_levels _ _ _) as [ls whole]. by destruct (if whole then _ else _) as [ls' future].
Qed.

Lemma tick_busy (self s : TimerWheel) (new_now : Z) (fired : list (Z * TWEntry)) :
  timer_wheel_tick self new_now = (fired, false, s) -> tw_num_timers s <> 0.
Proof.
  unfold timer_wheel_tick. case_bool; [congruence|]. intros [= _ <-]. unfold set_clock. cbn [tw_num_timers].
  case_bool; [by rewrite cascade_num|done].
Qed.

Lemma busy_later (vt : Z -> Z) (B : Z) (self : TimerWheel) : wheel_ok vt self -> tw_num_timers self <> 0 ->
  (forall e, e ∈ entries self -> vt (tw_id e) < B) -> tw_now self < B.
Proof.
  intros Hw Hnum HB. destruct (entries self) as [|e l] eqn:E; [by rewrite (wo_num _ _ Hw), E in Hnum|].
  assert (He : e ∈ entries self) by (rewrite E; apply elem_of_cons; by left). rewrite <- E in HB.
  pose proof (entries_later vt self e Hw He). pose proof (HB e He). lia.
Qed.

Lemma level0_mask (vt : Z -> Z) (self : TimerWheel) : wheel_ok vt self -> lv_mask (level0 self) = 1023.
Proof. intros [(l0 & l1 & l2 & l3 & E & [I0 _ _ _ _ _ _ _ _]) _ _ _]. unfold level0. rewrite E. apply (li_mask _ _ I0). Qed.

Lemma entries_reset (self : TimerWheel) (t : Z) : entries (reset_clock self t) = entries self.
Proof. done. Qed.

Record drained (vt : Z -> Z) (self self' : TimerWheel) (new_now : Z) (fired : list (Z * TWEntry)) : Prop := {
  dr_all : Permutation (snd <$> fired) (entries self);
  dr_fired : forall t e, (t, e) ∈ fired -> t = vt (tw_id e) /\ tw_now self <= t;
  dr_sorted : StronglySorted Z.le (fst <$> fired);
  dr_entries : entries self' = [];
  dr_num : tw_num_timers self' = 0;
  dr_base : tw_base self' = Z.land new_now (Z.lnot 1023)
}.

Lemma loop_all (vt : Z -> Z) (B : Z) (fuel : nat) (self : TimerWheel) (new_now : Z) : wheel_ok vt self -> tw_num_timers self <> 0 ->
  (forall e, e ∈ entries self -> vt (tw_id e) < B) -> B < 2 ^ 62 -> B <= new_now -> B - tw_now self <= Z.of_nat fuel ->
  let '(fired, self') := timer_wheel_loop fuel self new_now in drained vt self self' new_now fired.
Proof.
  revert self. induction fuel as [|fuel IH]; intros self Hw Hnum HB HB2 HBn Hf; pose proof (busy_later vt B self Hw Hnum HB) as Hnow.
  { exfalso. lia. }
  cbn [timer_wheel_loop]. rewrite bool_decide_eq_true_2 by lia. pose proof (tick_any self B new_now) as T.
  destruct (tick_ok vt self B Hw ltac:(lia)) as (expired & leave & s1 & E1 & P1 & V1 & W1 & L1). rewrite E1 in T. rewrite T.
  destruct leave.
  { destruct L1 as [Hnil N1]. split.
    - by rewrite snd_pair, P1, Hnil, app_nil_r.
    - intros t e [-> He]%fired_const. rewrite (V1 e He). lia.
    - apply sorted_const.
    - by rewrite entries_reset.
    - unfold reset_clock, set_clock. cbn [tw_num_timers]. by rewrite (wo_num _ _ W1), Hnil.
    - unfold reset_clock, set_clock. cbn [tw_base]. by rewrite (level0_mask vt). }
  assert (HB1 : forall e, e ∈ entries s1 -> vt (tw_id e) < B) by (intros e He; apply HB; rewrite P1; apply elem_of_app; by right).
  pose proof (tick_busy _ _ _ _ E1) as Hnum1.
  specialize (IH s1 W1 Hnum1 HB1 HB2 HBn ltac:(lia)). destruct (timer_wheel_loop fuel s1 new_now) as [more s2].
  destruct IH as [A1 A2 A3 A4 A5 A6]. split; [| | |done|done|done].
  - by rewrite fmap_app, snd_pair, A1, P1.
  - intros t e [[-> He]%fired_const|He]%elem_of_app; [rewrite (V1 e He); lia|]. destruct (A2 t e He). lia.
  - rewrite fmap_app. apply (sorted_app _ _ (tw_now self)); [apply sorted_const|done| |].
    + intros y Hy. apply list_elem_of_fmap in Hy as ([t e] & -> & [-> _]%fired_const). simpl. lia.
    + intros y Hy. apply list_elem_of_fmap in Hy as ([t e] & -> & He). destruct (A2 t e He). simpl. lia.
Qed.

(** Every timer fires within 2^28 seconds of its target. *)
Lemma fire_time_near (now target : Z) : 0 <= now <= target -> fire_time now target <= target + 2 ^ 28.
Proof.
  intros Hn.
  assert (A : forall k, (k < 4)%nat -> align k now target <= target + 2 ^ 28).
  { intros k Hk. unfold align. pose proof (num_of_pos k) as Hp. pose proof (unit_of_pos k) as Hu.
    assert (Hd : now / unit_of k <= target / unit_of k) by (apply Z.div_le_mono; lia).
    assert (Hw : 0 < width_of k <= 2 ^ 28) by (destruct k as [|[|[|[|k]]]]; [done..|lia]).
    assert (Hptr : ptr k now <= now / unit_of k + 2).
    { destruct k as [|[|[|[|k]]]]; cbn [ptr unit_of]; [rewrite Z.div_1_r; lia|unfold ptr1; lia| | |lia].
      - rewrite div_65536. unfold ptr2, ptr1. set (b := now / 1024). pose proof (Z.div_mod b 64). pose proof (Z.mod_pos_bound b 64).
        apply Z.lt_succ_r, Z.div_lt_upper_bound; lia.
      - rewrite div_4194304. unfold ptr3, ptr2, ptr1. set (b := now / 1024). pose proof (Z.div_mod b 64). pose proof (Z.mod_pos_bound b 64).
        pose proof (Z.div_mod (b / 64) 64). pose proof (Z.mod_pos_bound (b / 64) 64).
        assert (X1 : (b + 1) / 64 <= b / 64 + 1) by (apply Z.lt_succ_r, Z.div_lt_upper_bound; lia).
        apply Z.lt_succ_r, Z.div_lt_upper_bound; lia. }
    assert (Hq : -1 <= (target / unit_of k - ptr k now - 1) / num_of k).
    { apply Z.div_le_lower_bound; [done|]. assert (4 <= num_of k) by (by destruct k). lia. }
    nia. }
  unfold fire_time. destruct (takes 0 now target), (takes 1 now target), (takes 2 now target), (takes 3 now target); try (apply A; lia). case_bool; lia.
Qed.

Lemma add_to_levels_perm (now base : Z) (e : TWEntry) (levels levels' : list TWLevel) : Forall (fun l => exists k, lv_is k l) levels ->
  add_to_levels now base levels e = Some levels' -> Permutation (levels' ≫= lv_entries) (e :: (levels ≫= lv_entries)).
Proof.
  intros H. revert levels'. induction H as [|l ls [k Hl] _ IH]; intros levels' E; [done|]. cbn [add_to_levels] in E.
  destruct (level_takes _ _ _ _).
  - injection E as <-. cbn [mbind list_bind]. by rewrite (proj1 (proj2 (prepend_to_is k l e Hl))).
  - destruct (add_to_levels now base ls e) as [ls'|]; [|done]. injection E as <-. cbn [mbind list_bind]. rewrite (IH ls' eq_refl).
    by rewrite Permutation_middle.
Qed.

Lemma add_entry_perm (self : TimerWheel) (e : TWEntry) : Forall (fun l => exists k, lv_is k l) (tw_levels self) ->
  Permutation (entries (timer_wheel_add_timer_entry self e)) (e :: entries self).
Proof.
  intros H. unfold timer_wheel_add_timer_entry. destruct (add_to_levels _ _ _ _) as [ls|] eqn:E; unfold entries; simpl.
  - by rewrite (add_to_levels_perm _ _ _ _ _ H E).
  - by rewrite Permutation_middle.
Qed.

Lemma wheel_levels_are (vt : Z -> Z) (w : TimerWheel) : wheel_ok vt w -> Forall (fun l => exists k, lv_is k l) (tw_levels w).
Proof. intros [(l0 & l1 & l2 & l3 & -> & []) _ _ _]. repeat constructor; eauto. Qed.

Lemma upd_bound (vt : Z -> Z) (w w' : TimerWheel) (e : TWEntry) (t B : Z) : Permutation (entries w') (e :: entries w) -> t < B ->
  (forall x, x ∈ entries w -> vt (tw_id x) < B) -> forall x, x ∈ entries w' -> upd vt (tw_id e) t (tw_id x) < B.
Proof.
  intros P Ht H x Hx. rewrite P in Hx. unfold upd. destruct (decide _); [done|]. apply elem_of_cons in Hx as [->|Hx]; [done|by apply H].
Qed.

Lemma reach_bound (vt : Z -> Z) (w : TimerWheel) : wheel_reach vt w -> forall e, e ∈ entries w -> vt (tw_id e) < 2 ^ 61 + 2 ^ 32.
Proof.
  assert (F : forall w timeout, 0 <= timeout < 2 ^ 31 -> 0 <= tw_now w < 2 ^ 61 -> fire_time (tw_now w) (tw_now w + timeout) < 2 ^ 61 + 2 ^ 32)
    by (intros x timeout Ht Hn; pose proof (fire_time_near (tw_now x) (tw_now x + timeout) ltac:(lia)); lia).
  induction 1 as [vt|vt w timeout id Hr IH Ht Hn Hid|vt w e Hr IH He|vt w e timeout Hr IH He Ht Hn|vt w new_now Hr IH Hn].
  - intros e He. exfalso. revert He. change (entries timer_wheel_new) with (@nil TWEntry). apply not_elem_of_nil.
  - destruct (reach_ok vt w Hr) as [W D]. pose proof (wo_now _ _ W). apply (upd_bound vt w _ (mkTWEntry (u64 (tw_now w + timeout)) id)); [|apply F; [done|lia]|done].
    apply add_entry_perm. by eapply wheel_levels_are.
  - destruct (reach_ok vt w Hr) as [W D]. destruct (unlink_ok vt w e W D He) as [_ U]. intros x Hx. apply IH. rewrite U. apply elem_of_cons. by right.
  - destruct (reach_ok vt w Hr) as [W D]. pose proof (wo_now _ _ W). destruct (unlink_ok vt w e W D He) as [U1 U2].
    apply (upd_bound vt (tw_entry_unlink w e) _ (mkTWEntry (u64 (tw_now w + timeout)) (tw_id e))); [|apply F; [done|lia]|].
    + apply add_entry_perm. apply (wheel_levels_are vt _ U1).
    + intros x Hx. apply IH. rewrite U2. apply elem_of_cons. by right.
  - intros e He. apply IH. destruct (reach_ok vt w Hr) as [W D]. destruct (Z.lt_ge_cases (tw_now w) new_now) as [Hlt|Hge].
    + pose proof (set_time_ok vt w new_now W ltac:(lia)) as A. destruct (timer_wheel_set_time w new_now) as [fired w']. cbn [snd] in He.
      rewrite (ad_all _ _ _ _ _ A). apply elem_of_app. by right.
    + revert He. unfold timer_wheel_set_time. by rewrite bool_decide_eq_true_2 by lia.
Qed.

(** ** When timers fire *)

(** A timer placed ahead of the pointer, within one round, fires at its target. *)
Lemma align_id (k : nat) (now target : Z) : ptr k now < target / unit_of k <= ptr k now + num_of k -> align k now target = target.
Proof. intros Hw. unfold align. pose proof (num_of_pos k). rewrite Z.div_small; lia. Qed.

(** A level takes the timers of one round from now, and leaves the later ones. *)
Lemma takes_window (k : nat) (now target : Z) :
  if takes k now target then target / unit_of k <= now / unit_of k + num_of k else now / unit_of k + num_of k <= target / unit_of k.
Proof.
  unfold takes, width_of. pose proof (unit_of_pos k) as Hu. pose proof (num_of_pos k) as Hn. set (u := unit_of k) in *. set (n := num_of k) in *.
  rewrite <- (Z.div_div now u n) by lia. set (N := now / u). pose proof (Z.div_mod N n ltac:(lia)) as EN. pose proof (Z.mod_pos_bound N n Hn) as BN.
  pose proof (Z.div_mod (target / u) n ltac:(lia)) as ET. pose proof (Z.mod_pos_bound (target / u) n Hn) as BT.
  assert (Hle : forall m, target <= u * m -> target / u <= m) by (intros m Hm; apply Z.lt_succ_r, Z.div_lt_upper_bound; lia).
  assert (Hge : forall m, u * m <= target -> m <= target / u) by (intros m Hm; apply Z.div_le_lower_bound; lia).
  assert (Hlt : forall m, target < u * m -> target / u < m) by (intros m Hm; apply Z.div_lt_upper_bound; lia).
  set (T := target / u) in *. case_bool.
  2: { assert (T <= n * (N / n) + n) by (apply Hle; lia). lia. }
  assert (H1 : n * (N / n) + n <= T) by (apply Hge; lia).
  assert (Hq : N / n + 1 <= T / n) by (apply Z.div_le_lower_bound; lia).
  destruct (bool_decide_reflect (target < u * n * (N / n) + u * n * 2)) as [H2|H2]; simpl.
  - assert (H3 : T < n * (N / n) + n * 2) by (apply Hlt; lia). assert (T / n < N / n + 2) by (apply Z.div_lt_upper_bound; lia).
    assert (T / n = N / n + 1) by lia. case_bool_decide; nia.
  - assert (H3 : n * (N / n) + n * 2 <= T) by (apply Hge; lia). lia.
Qed.

(** Level 0 takes less than a round, but for a timer of a whole round. *)
Lemma takes0_window (now target : Z) : takes 0 now target = true -> now <= target ->
  target < now + 1024 \/ (target = now + 1024 /\ now mod 1024 = 0).
Proof.
  intros H Hle. pose proof (takes_window 0 now target) as W. rewrite H in W. change (unit_of 0) with 1 in W. rewrite !Z.div_1_r in W. change (num_of 0) with 1024 in W.
  destruct (decide (target = now + 1024)) as [->|]; [right|left; lia]. split; [done|]. revert H. unfold takes. change (width_of 0) with 1024. change (unit_of 0) with 1. change (num_of 0) with 1024.
  rewrite !Z.div_1_r. pose proof (Z.div_mod now 1024 ltac:(done)). pose proof (Z.mod_pos_bound now 1024 ltac:(done)). case_bool; [|lia].
  rewrite andb_true_iff, !bool_decide_eq_true. intros [_ H2]. replace (now + 1024) with (now + 1 * 1024) in H2 by lia. rewrite Z.mod_add in H2 by done. lia.
Qed.

(** The pointers of the upper levels, when no cascade ran ahead. *)
Definition settled (now : Z) : Prop := (now / 2 ^ 10) mod 64 <> 63 /\ (now / 2 ^ 16) mod 64 <> 63 /\ (now / 2 ^ 22) mod 64 <> 63.

Lemma succ_div_64 (x : Z) : x mod 64 <> 63 -> (x + 1) / 64 = x / 64.
Proof. intros H. pose proof (Z.div_mod x 64 ltac:(done)). pose proof (Z.mod_pos_bound x 64 ltac:(done)). symmetry. apply (Z.div_unique _ _ _ (x mod 64 + 1)); lia. Qed.

Lemma settled_ptr (now : Z) : settled now -> ptr2 now = now / 65536 /\ ptr3 now = now / 4194304 /\ ptrF now = now / 2 ^ 28.
Proof.
  intros (H1 & H2 & H3). rewrite (div_65536 now), (div_4194304 now), div_2_28. change (2 ^ 10) with 1024 in H1. change (2 ^ 16) with 65536 in H2. change (2 ^ 22) with 4194304 in H3.
  rewrite div_65536 in H2. rewrite div_4194304 in H3. unfold ptrF, ptr3, ptr2, ptr1.
  rewrite (succ_div_64 _ H1), (succ_div_64 _ H2), (succ_div_64 _ H3). done.
Qed.

Lemma fire_time_exact (now timeout : Z) : 0 <= now -> 0 <= timeout -> ~ (timeout = 1024 /\ now mod 1024 = 0) ->
  timeout <= 64512 \/ settled now -> fire_time now (now + timeout) = now + timeout.
Proof.
  intros H0 Ht Hr Hs. unfold fire_time. set (target := now + timeout).
  pose proof (takes_window 0 now target) as W0. pose proof (takes_window 1 now target) as W1. pose proof (takes_window 2 now target) as W2.
  pose proof (takes_window 3 now target) as W3. cbn [unit_of num_of] in *. rewrite !Z.div_1_r in W0.
  destruct (takes 0 now target) eqn:T0.
  { apply align_id. cbn [unit_of num_of ptr]. rewrite Z.div_1_r. destruct (takes0_window now target T0) as [|[? ?]]; lia. }
  destruct (takes 1 now target).
  { apply align_id. cbn [unit_of num_of ptr]. unfold ptr1. split; [|lia]. assert (now / 1024 + 1 <= target / 1024); [|lia].
    replace (now / 1024 + 1) with ((now + 1 * 1024) / 1024) by (by rewrite Z.div_add). apply Z.div_le_mono; lia. }
  assert (Hs' : settled now).
  { destruct Hs as [Hs|]; [exfalso|done]. pose proof (Z.mul_div_le target 1024). pose proof (Z.mul_succ_div_gt now 1024). lia. }
  destruct (settled_ptr now Hs') as (P2 & P3 & PF).
  destruct (takes 2 now target).
  { apply align_id. cbn [unit_of num_of ptr]. rewrite P2. split; [|lia]. rewrite !div_65536. pose proof (Z.div_le_mono _ _ 64 ltac:(done) W1) as M.
    replace (now / 1024 + 64) with (now / 1024 + 1 * 64) in M by lia. rewrite Z.div_add in M; lia. }
  destruct (takes 3 now target).
  { apply align_id. cbn [unit_of num_of ptr]. rewrite P3. split; [|lia]. rewrite !div_4194304. rewrite !div_65536 in W2. pose proof (Z.div_le_mono _ _ 64 ltac:(done) W2) as M.
    replace (now / 1024 / 64 + 64) with (now / 1024 / 64 + 1 * 64) in M by lia. rewrite Z.div_add in M; lia. }
  rewrite bool_decide_eq_true_2; [done|]. rewrite PF, !div_2_28. rewrite !div_4194304 in W3. pose proof (Z.div_le_mono _ _ 64 ltac:(done) W3) as M.
  replace (now / 1024 / 64 / 64 + 64) with (now / 1024 / 64 / 64 + 1 * 64) in M by lia. rewrite Z.div_add in M; lia.
Qed.

Lemma fire_time_early (now : Z) : 0 <= now -> now mod 1024 = 0 -> fire_time now (now + 1024) = now.
Proof.
  intros H0 Hm. unfold fire_time. pose proof (Z.div_mod now 1024 ltac:(done)).
  assert (T : takes 0 now (now + 1024) = true) by (unfold takes; rewrite bool_decide_eq_false_2; [done|change (width_of 0) with 1024; lia]).
  rewrite T. unfold align. change (width_of 0) with 1024. change (unit_of 0) with 1. rewrite Z.div_1_r. cbn [ptr]. change (num_of 0) with 1024.
  replace (now + 1024 - (now - 1) - 1) with (1 * 1024) by lia. rewrite Z.div_mul by done. lia.
Qed.

Lemma fire_time_late (now target : Z) : 0 <= now -> (now / 1024) mod 64 = 63 -> target / 1024 = now / 1024 + 64 ->
  fire_time now target = target + 2 ^ 22.
Proof.
  intros H0 H63 HT. unfold fire_time. pose proof (takes_window 0 now target) as W0. pose proof (takes_window 2 now target) as W2.
  cbn [unit_of num_of] in W0, W2. rewrite !Z.div_1_r in W0. pose proof (Z.mul_div_le target 1024 ltac:(done)). pose proof (Z.mul_succ_div_gt now 1024 ltac:(done)).
  pose proof (Z.div_mod (now / 1024) 64 ltac:(done)) as E1. set (q := now / 1024 / 64) in *.
  assert (Eq1 : (now / 1024 + 1) / 64 = q + 1) by (symmetry; apply (Z.div_unique _ _ _ 0); lia).
  assert (Eq2 : target / 65536 = q + 1) by (rewrite div_65536, HT; symmetry; apply (Z.div_unique _ _ _ 63); lia).
  destruct (takes 0 now target); [lia|].
  assert (T1 : takes 1 now target = false).
  { unfold takes. change (width_of 1) with 65536. cbn [unit_of num_of]. rewrite div_65536. fold q.
    rewrite bool_decide_eq_true_2 by lia. rewrite HT. replace (now / 1024 + 64) with (now / 1024 + 1 * 64) by lia. rewrite Z.mod_add by done.
    rewrite (bool_decide_eq_false_2 (_ mod 64 > _)) by lia. by rewrite andb_false_r. }
  rewrite T1. rewrite Eq2, div_65536 in W2. fold q in W2. destruct (takes 2 now target); [|lia]. unfold align. cbn [unit_of num_of ptr]. unfold ptr2, ptr1. rewrite Eq1, Eq2.
  replace (q + 1 - (q + 1) - 1) with (-1) by lia. change (-1 / 64) with (-1). change (width_of 2) with (2 ^ 22). lia.
Qed.

(** Setting the time, whatever times the timers have. *)
Lemma set_time_fires (vt : Z -> Z) (w : TimerWheel) (new_now : Z) : wheel_reach vt w -> tw_now w < new_now < 2 ^ 62 ->
  let '(fired, w') := timer_wheel_set_time w new_now in
  timer_wheel_get_time w' = new_now /\ Permutation (entries w) ((snd <$> fired) ++ entries w') /\ (forall t e, (t, e) ∈ fired -> t = vt (tw_id e) /\ tw_now w <= t < new_now) /\ StronglySorted Z.le (fst <$> fired) /\ (forall e, e ∈ entries w' -> new_now <= vt (tw_id e)).
Proof.
  intros Hr Hn. destruct (reach_ok vt w Hr) as [W _]. pose proof (set_time_ok vt w new_now W Hn) as A.
  destruct (timer_wheel_set_time w new_now) as [fired w']. destruct A as [A1 A2 A3 A4 A5]. split_and!; try done.
  intros e He. rewrite <- A2. by apply entries_later.
Qed.

(** Timeouts that are kept exactly: up to 64512 seconds, or any below 2^31 while no upper level stands on its last slot; not 1024
    seconds at the start of a round of the first level. *)
Definition exact_timeout (now timeout : Z) : Prop := 0 <= timeout < 2 ^ 31 /\ ~ (timeout = 1024 /\ now mod 1024 = 0) /\ (timeout <= 64512 \/ settled now).
(** Runs in which timers are set with such timeouts; [due] is the time that was asked for, the clock plus the timeout. *)
Inductive due_reach : (Z -> Z) -> TimerWheel -> Prop :=
| due_new due : due_reach due timer_wheel_new
| due_add due w timeout id : due_reach due w -> exact_timeout (tw_now w) timeout -> tw_now w < 2 ^ 61 -> id ∉ tw_id <$> entries w ->
    due_reach (upd due id (tw_now w + timeout)) (snd (timer_wheel_add_timer w timeout id))
| due_del due w e : due_reach due w -> e ∈ entries w -> due_reach due (timer_wheel_del_timer w e)
| due_mod due w e timeout : due_reach due w -> e ∈ entries w -> exact_timeout (tw_now w) timeout -> tw_now w < 2 ^ 61 ->
    due_reach (upd due (tw_id e) (tw_now w + timeout)) (snd (timer_wheel_mod_timer w e timeout))
| due_time due w new_now : due_reach due w -> new_now < 2 ^ 62 -> due_reach due (snd (timer_wheel_set_time w new_now)).
Lemma due_wheel_reach (due : Z -> Z) (w : TimerWheel) : due_reach due w -> wheel_reach due w.
Proof.
  assert (F : forall vt w timeout, wheel_reach vt w -> exact_timeout (tw_now w) timeout -> fire_time (tw_now w) (tw_now w + timeout) = tw_now w + timeout).
  { intros vt x timeout Hr (Ht & Hne & Hs). destruct (reach_ok vt x Hr) as [W _]. pose proof (wo_now _ _ W). apply fire_time_exact; [lia..|done|done]. }
  induction 1 as [due|due w timeout id _ IH Hx Hn Hid|due w e _ IH He|due w e timeout _ IH He Hx Hn|due w new_now _ IH Hn].
  - constructor.
  - rewrite <- (F due w timeout IH Hx). by apply wr_add; [|apply Hx|..].
  - by constructor.
  - rewrite <- (F due w timeout IH Hx). by apply wr_mod; [| |apply Hx|].
  - by constructor.
Qed.

(** C16: After any run of additions, deletions, changes and time steps in which timers were set with timeouts up to 64512 seconds (or
    below 2^31 while no upper level of the wheel stands on its last slot), and none with 1024 seconds at the start of a round
    of 1024: setting the time to [new_now] calls back exactly the timers whose due time, the clock when they were set plus the timeout, is before
    [new_now], each once, in the order of time and with the clock showing its due time; the others stay.  Other timeouts fire at once
    or too late (timer_wheel_on_time). *)
Theorem timer_wheel_fires_at (due : Z -> Z) (w : TimerWheel) (new_now : Z) : due_reach due w -> tw_now w < new_now < 2 ^ 62 ->
  let '(fired, w') := timer_wheel_set_time w new_now in
  timer_wheel_get_time w' = new_now /\ Permutation (entries w) ((snd <$> fired) ++ entries w') /\ (forall t e, (t, e) ∈ fired -> t = due (tw_id e) /\ tw_now w <= t < new_now) /\ StronglySorted Z.le (fst <$> fired) /\ (forall e, e ∈ entries w' -> new_now <= due (tw_id e)).
Proof. intros Hr. apply set_time_fires. by apply due_wheel_reach. Qed.

(** Two timers, the second one changed after a step of the clock. *)
Lemma timer_wheel_fires_at_witness :
  let w := snd (timer_wheel_add_timer (snd (timer_wheel_add_timer timer_wheel_new 5 1)) 2000 2) in
  let w := snd (timer_wheel_set_time w 6) in
  let e := mkTWEntry 2000 2 in
  let w := snd (timer_wheel_mod_timer w e 3000) in
  let '(fired, w') := timer_wheel_set_time w 4000 in timer_wheel_get_time w' = 4000 /\ fired = [(3006, mkTWEntry 3006 2)].
Proof.
  intros w0 w1 e w2.
  assert (X : forall now timeout, 0 <= timeout < 64512 -> timeout <> 1024 -> exact_timeout now timeout) by (intros now timeout H1 H2; split_and!; [lia..|left; lia]).
  assert (H0 : due_reach (upd (upd (fun _ => 0) 1 5) 2 2000) w0).
  { apply (due_add _ (snd (timer_wheel_add_timer timer_wheel_new 5 1)) 2000 2); [apply (due_add _ timer_wheel_new 5 1); [constructor|apply X; lia|reflexivity|apply not_elem_of_nil]|apply X; lia|reflexivity|apply (bool_decide_unpack _); vm_compute; reflexivity]. }
  assert (H2 : due_reach (upd (upd (upd (fun _ => 0) 1 5) 2 2000) 2 3006) w2).
  { apply (due_mod _ w1 e 3000); [by apply due_time|apply (bool_decide_unpack _); vm_compute; reflexivity|apply X; lia|reflexivity]. }
  pose proof (timer_wheel_fires_at _ w2 4000 H2 ltac:(split; reflexivity)) as H.
  assert (E : fst (timer_wheel_set_time w2 4000) = [(3006, mkTWEntry 3006 2)]) by (vm_compute; reflexivity).
  destruct (timer_wheel_set_time w2 4000) as [fired w']. destruct H as (H & _). exact (conj H E).
Defined.

(** C17: Expiring the wheel, as the correlation engine does when it is freed,
    ends: every timer is called back once, in the order of its time; the wheel
    is empty and its clock restored, but its base stays at the end of time. *)
Theorem timer_wheel_expire_all_empties (vt : Z -> Z) (w : TimerWheel) : wheel_reach vt w ->
  let '(fired, w') := timer_wheel_expire_all w in
  Permutation (snd <$> fired) (entries w) /\ (forall t e, (t, e) ∈ fired -> t = vt (tw_id e)) /\ StronglySorted Z.le (fst <$> fired) /\ entries w' = [] /\ tw_num_timers w' = 0 /\ tw_now w' = tw_now w /\ tw_base w' = 2 ^ 64 - 1024.
Proof.
  intros Hr. destruct (reach_ok vt w Hr) as [W _]. pose proof (wo_now _ _ W) as Hn. unfold timer_wheel_expire_all, timer_wheel_set_time.
  rewrite bool_decide_eq_false_2 by lia. case_bool; rename Hb into Hz.
  - assert (Hnil : entries w = []) by (apply lenZ_zero_nil; rewrite <- (wo_num _ _ W); done). rewrite Hnil.
    change (entries (set_clock (reset_clock w (2 ^ 64 - 1)) (tw_now w) (tw_base (reset_clock w (2 ^ 64 - 1))))) with (entries w).
    unfold reset_clock, set_clock. cbn [tw_num_timers tw_now tw_base]. rewrite (level0_mask vt w W). split_and!; try done; [by intros t e ?%elem_of_nil|constructor].
  - pose proof (loop_all vt (2 ^ 61 + 2 ^ 32) (Z.to_nat (2 ^ 64 - 1 - tw_now w)) w (2 ^ 64 - 1) W Hz (reach_bound vt w Hr) ltac:(done) ltac:(done) ltac:(lia)) as D.
    destruct (timer_wheel_loop _ _ _) as [fired w']. destruct D as [D1 D2 D3 D4 D5 D6].
    split_and!; try done. intros t e He. by destruct (D2 t e He).
Qed.

Lemma timer_wheel_expire_all_empties_witness :
  let w := snd (timer_wheel_add_timer timer_wheel_new 5 1) in
  let '(fired, w') := timer_wheel_expire_all w in snd <$> fired = [mkTWEntry 5 1] /\ tw_base w' = 2 ^ 64 - 1024.
Proof.
  intros w.
  assert (Hr : wheel_reach (upd (fun _ => 0) 1 5) w)
    by (apply (wr_add (fun _ => 0) timer_wheel_new 5 1); [constructor|lia|reflexivity|apply not_elem_of_nil]).
  pose proof (timer_wheel_expire_all_empties _ w Hr) as H. assert (E : entries w = [mkTWEntry 5 1]) by (vm_compute; reflexivity).
  destruct (timer_wheel_expire_all w) as [fired w']. destruct H as (H & _ & _ & _ & _ & _ & B). rewrite E in H.
  exact (conj (proj1 (Permutation_singleton_r _ _) H) B).
Defined.

(** A timer fires at its target, exactly [timeout] seconds after it was
    set, with two exceptions: set for 1024 seconds at the start of a round of
    the first level it fires at once, and set for more than 64512 seconds while
    some upper level stands on its last slot it may fire a round of that level
    late, as for the slot that an early cascade has just handed down, which
    waits 2^22 seconds more. *)
Theorem timer_wheel_on_time (vt : Z -> Z) (w : TimerWheel) (timeout id : Z) : wheel_reach vt w -> tw_now w < 2 ^ 61 ->
  id ∉ tw_id <$> entries w -> 0 <= timeout < 2 ^ 31 ->
  let '(e, w') := timer_wheel_add_timer w timeout id in
  timer_wheel_get_timer_expiration e = tw_now w + timeout /\
  (~ (timeout = 1024 /\ tw_now w mod 1024 = 0) -> timeout <= 64512 \/ settled (tw_now w) -> wheel_reach (upd vt id (tw_now w + timeout)) w') /\
  (timeout = 1024 -> tw_now w mod 1024 = 0 -> wheel_reach (upd vt id (tw_now w)) w') /\
  ((tw_now w / 1024) mod 64 = 63 -> (tw_now w + timeout) / 1024 = tw_now w / 1024 + 64 ->
   wheel_reach (upd vt id (tw_now w + timeout + 2 ^ 22)) w').
Proof.
  intros Hr Hn Hid Ht. destruct (reach_ok vt w Hr) as [W _]. pose proof (wo_now _ _ W) as H0. pose proof (wr_add vt w timeout id Hr Ht Hn Hid) as R.
  split; [apply u64_small; lia|split_and!].
  - intros Hne Hs. by rewrite fire_time_exact in R by (done || lia).
  - intros -> Hm. by rewrite fire_time_early in R by (done || lia).
  - intros H63 HT. by rewrite fire_time_late in R by (done || lia).
Qed.

Lemma timer_wheel_on_time_witness :
  let '(e, w') := timer_wheel_add_timer timer_wheel_new 100 7 in timer_wheel_get_timer_expiration e = 100 /\ wheel_reach (upd (fun _ => 0) 7 100) w'.
Proof.
  pose proof (timer_wheel_on_time (fun _ => 0) timer_wheel_new 100 7 (wr_new _) eq_refl (not_elem_of_nil _) ltac:(lia)) as H.
  destruct (timer_wheel_add_timer timer_wheel_new 100 7) as [e w']. destruct H as (H1 & H2 & _). exact (conj H1 (H2 ltac:(lia) (or_introl (ltac:(lia) : 100 <= 64512)))).
Defined.

(** The base that [timer_wheel_expire_all] leaves: a timer of ten seconds goes
    to the list of the far timers. *)
Example wheel_after_expire_all :
  let w := set_clock timer_wheel_new 0 (2 ^ 64 - 1024) in
  let w := snd (timer_wheel_add_timer w 10 1) in
  (tw_future w, fst (timer_wheel_set_time w 2000)) = ([mkTWEntry 10 1], []).
Proof. vm_compute. reflexivity. Qed.
