(* ===== verification/CString.v ===== *)
(** * C strings

    A pointer into a string that ends with a zero byte is the rest of the
    string from there on, so the pointer to the terminator is the empty list
    and two pointers into one string are equal when the rests are.  Bytes are
    unsigned; [gchar] is a signed type, [s8] reads a byte that way. *)
From S2P Require Import Prelude.

Abbreviation cstr := (list Z) (only parsing).

Definition s8 (c : Z) : Z := if bool_decide (c < 128) then c else c - 256.

(** [*p]. *)
Definition deref (p : cstr) : Z := match p with [] => 0 | c :: _ => c end.
(** [p + n], which must stay inside the string. *)
Definition advance (p : cstr) (n : Z) : outcome cstr :=
  if bool_decide (0 <= n <= lenZ p) then Ret (drop (Z.to_nat n) p) else Abort.

Definition mem (c : Z) (set : cstr) : bool := bool_decide (c ∈ set).

(** [strchr] finds the terminator when asked for it. *)
Fixpoint strchr (s : cstr) (c : Z) : option cstr :=
  match s with
  | [] => if bool_decide (c = 0) then Some [] else None
  | x :: s' => if bool_decide (x = c) then Some s else strchr s' c
  end.

Definition strchr_index (s : cstr) (c : Z) : option nat :=
  match strchr s c with Some p => Some (length s - length p)%nat | None => None end.

Fixpoint strcspn (s set : cstr) : nat :=
  match s with [] => O | c :: s => if mem c set then O else S (strcspn s set) end.

Fixpoint strspn (s set : cstr) : nat :=
  match s with [] => O | c :: s => if mem c set then S (strspn s set) else O end.

Fixpoint starts_with (s t : cstr) : bool :=
  match t, s with
  | [], _ => true
  | c :: t, x :: s => bool_decide (x = c) && starts_with s t
  | _, [] => false
  end.

Fixpoint strstr (s t : cstr) : option cstr :=
  if starts_with s t then Some s
  else match s with [] => None | _ :: s => strstr s t end.

(** [strncmp(s, t, n) == 0] and [strcmp(s, t) == 0]. *)
Definition strncmp_eq (s t : cstr) (n : nat) : bool := bool_decide (take n (s ++ [0]) = take n (t ++ [0])).
Definition strcmp_eq (s t : cstr) : bool := bool_decide (s = t).
(** [fgets]: up to [n] bytes of the file, up to and with a newline, and the rest of the file. *)
Fixpoint fgets (n : nat) (s : bytes) : bytes * bytes :=
  match n, s with
  | S n, c :: s => if bool_decide (c = 10) then ([c], s) else let '(l, r) := fgets n s in (c :: l, r)
  | _, _ => ([], s)
  end.
(** The string in a block of bytes. *)
Definition up_to_nul (s : bytes) : cstr := take (strcspn s [0]) s.
Definition g_ascii_tolower (c : Z) : Z := if bool_decide (65 <= c <= 90) then c + 32 else c.

(** ** Lemmas *)

Definition no_nul (s : cstr) : Prop := Forall (fun c => c <> 0) s.

Lemma deref_cons (c : Z) (s : cstr) : deref (c :: s) = c.
Proof. done. Qed.

Lemma deref_zero (s : cstr) : no_nul s -> deref s = 0 <-> s = [].
Proof. intros H. destruct s; simpl; [done|]. inversion H; subst. split; done. Qed.

Lemma no_nul_app (s t : cstr) : no_nul (s ++ t) <-> no_nul s /\ no_nul t.
Proof. unfold no_nul. by rewrite Forall_app. Qed.

Lemma no_nul_cons (c : Z) (s : cstr) : no_nul (c :: s) <-> c <> 0 /\ no_nul s.
Proof. unfold no_nul. by rewrite Forall_cons. Qed.

Lemma no_nul_drop (n : nat) (s : cstr) : no_nul s -> no_nul (drop n s).
Proof. unfold no_nul. apply Forall_drop. Qed.

Lemma mem_spec (c : Z) (set : cstr) : mem c set = true <-> c ∈ set.
Proof. apply bool_decide_eq_true. Qed.

Lemma starts_with_spec (s t : cstr) : starts_with s t = true <-> t `prefix_of` s.
Proof.
  revert s. induction t as [|c t IH]; intros s; [split; [intros _; apply prefix_nil|by destruct s]|].
  destruct s as [|x s]; simpl; [split; [done|intros [k Hk]; done]|]. rewrite andb_true_iff, bool_decide_eq_true, IH. split.
  - intros [-> Hp]. by apply prefix_cons.
  - intros Hp. split; [symmetry; by eapply prefix_cons_inv_1|by eapply prefix_cons_inv_2].
Qed.

Lemma strstr_eq (s t : cstr) : strstr s t = if starts_with s t then Some s else match s with [] => None | _ :: s => strstr s t end.
Proof. by destruct s. Qed.

Lemma strstr_sound (s t p : cstr) : strstr s t = Some p -> exists k, s = k ++ p /\ t `prefix_of` p.
Proof.
  induction s as [|c s IH]; rewrite strstr_eq.
  - destruct (starts_with [] t) eqn:E; [|done]. intros [= <-]. exists []. split; [done|by apply starts_with_spec].
  - destruct (starts_with (c :: s) t) eqn:E; [intros [= <-]; exists []; split; [done|by apply starts_with_spec]|].
    intros H. destruct (IH H) as (k & -> & Hp). exists (c :: k). done.
Qed.

Lemma strchr_sound (s p : cstr) (c : Z) : strchr s c = Some p -> exists k, s = k ++ p /\ deref p = c /\ c ∉ k.
Proof.
  induction s as [|x s IH]; simpl; case_bool; try done.
  - intros [= <-]. exists []. split_and!; [done|done|by apply not_elem_of_nil].
  - intros [= <-]. exists []. split_and!; [done|done|by apply not_elem_of_nil].
  - intros H. destruct (IH H) as (k & -> & Hd & Hk). exists (x :: k). split_and!; [done|done|]. rewrite not_elem_of_cons. split; [congruence|done].
Qed.

Lemma strchr_none (s : cstr) (c : Z) : strchr s c = None <-> c <> 0 /\ c ∉ s.
Proof.
  induction s as [|x s IH]; simpl; case_bool.
  - split; [done|intros [? ?]; done].
  - split; [intros _; split; [done|apply not_elem_of_nil]|done].
  - split; [done|intros [_ H]; rewrite not_elem_of_cons in H; by destruct H].
  - rewrite IH, not_elem_of_cons. intuition congruence.
Qed.

Lemma strcspn_le (s set : cstr) : (strcspn s set <= length s)%nat.
Proof. induction s as [|c s IH]; simpl; [lia|]. destruct (mem c set); lia. Qed.

Lemma strspn_le (s set : cstr) : (strspn s set <= length s)%nat.
Proof. induction s as [|c s IH]; simpl; [lia|]. destruct (mem c set); lia. Qed.

(** The segment before the first byte of [set]. *)
Lemma strcspn_app (f s set : cstr) : Forall (fun c => c ∉ set) f -> deref s ∈ set \/ s = [] -> strcspn (f ++ s) set = length f.
Proof.
  intros Hf Hs. induction Hf as [|c f Hc Hf IH]; simpl.
  - destruct s as [|x s]; [done|]. simpl in *. destruct Hs as [Hs|]; [|done]. by rewrite (proj2 (mem_spec x set)).
  - destruct (mem c set) eqn:E; [by apply mem_spec in E|by rewrite IH].
Qed.

Lemma up_to_nul_id (s : bytes) : no_nul s -> up_to_nul s = s.
Proof.
  intros H. unfold up_to_nul. pose proof (strcspn_app s [] [0]) as E. rewrite app_nil_r in E. rewrite E; [apply firstn_all| |by right]. eapply Forall_impl; [exact H|]. intros c Hc ->%list_elem_of_singleton. done.
Qed.

Lemma advance_ret (p : cstr) (n : Z) : 0 <= n <= lenZ p -> advance p n = Ret (drop (Z.to_nat n) p).
Proof. intros H. unfold advance. by rewrite bool_decide_eq_true_2. Qed.
