(* ===== verification/CsvParser.v ===== *)
(** * The CSV parser (modules/csvparser/csvparser.c)

    The input is split into the columns of the parser.  Without escaping the
    text is searched for delimiters; with escaping a state machine reads it
    byte by byte.  Delimiters are single bytes and, optionally, strings.  What
    the parser stores into the message is the list of its calls of
    [log_msg_set_value_by_name], in their order. *)
From S2P Require Import Prelude CString.

Definition LOG_CSV_PARSER_ESCAPE_NONE : Z := 1.
Definition LOG_CSV_PARSER_ESCAPE_BACKSLASH : Z := 2.
Definition LOG_CSV_PARSER_ESCAPE_DOUBLE_CHAR : Z := 4.
Definition LOG_CSV_PARSER_ESCAPE_MASK : Z := 7.
Definition LOG_CSV_PARSER_STRIP_WHITESPACE : Z := 8.
Definition LOG_CSV_PARSER_GREEDY : Z := 16.
Definition LOG_CSV_PARSER_DROP_INVALID : Z := 32.
Definition LOG_CSV_PARSER_FLAGS_DEFAULT : Z := Z.lor LOG_CSV_PARSER_STRIP_WHITESPACE LOG_CSV_PARSER_ESCAPE_NONE.

Record LogCSVParser := mkLogCSVParser {
  cp_columns : list cstr;
  cp_delimiters : cstr;
  cp_quotes_start : cstr;
  cp_quotes_end : cstr;
  cp_null_value : option cstr;
  cp_flags : Z;
  cp_string_delimiters : list cstr
}.

(** The calls of [log_msg_set_value_by_name]. *)
Abbreviation sets := (list (cstr * cstr)) (only parsing).

(** ** Options *)

Definition flag (flags bit : Z) : bool := bool_decide (Z.land flags bit <> 0).

Definition _is_escape_flag (f : Z) : bool := bool_decide (Z.land f LOG_CSV_PARSER_ESCAPE_MASK = f).
Definition _contains_escape_flag (f : Z) : bool := flag f LOG_CSV_PARSER_ESCAPE_MASK.
Definition _get_escape_flags (flags : Z) : Z := Z.land flags LOG_CSV_PARSER_ESCAPE_MASK.
Definition _remove_escape_flags (flags : Z) : Z := Z.land flags (u32 (Z.lnot LOG_CSV_PARSER_ESCAPE_MASK)).

Definition log_csv_parser_normalize_escape_flags (self : LogCSVParser) (new_flag : Z) : Z :=
  let current_flags := cp_flags self in
  if _is_escape_flag new_flag then Z.lor (_remove_escape_flags current_flags) new_flag
  else if negb (_contains_escape_flag new_flag) then Z.lor (_get_escape_flags current_flags) new_flag
  else new_flag.

Definition set_columns (self : LogCSVParser) (columns : list cstr) : LogCSVParser :=
  mkLogCSVParser columns (cp_delimiters self) (cp_quotes_start self) (cp_quotes_end self) (cp_null_value self) (cp_flags self) (cp_string_delimiters self).
Definition log_csv_parser_set_flags (self : LogCSVParser) (flags : Z) : LogCSVParser :=
  mkLogCSVParser (cp_columns self) (cp_delimiters self) (cp_quotes_start self) (cp_quotes_end self) (cp_null_value self) flags (cp_string_delimiters self).
Definition log_csv_parser_set_delimiters (self : LogCSVParser) (delimiters : cstr) : LogCSVParser :=
  mkLogCSVParser (cp_columns self) delimiters (cp_quotes_start self) (cp_quotes_end self) (cp_null_value self) (cp_flags self) (cp_string_delimiters self).
Definition log_csv_parser_set_quotes (self : LogCSVParser) (quotes : cstr) : LogCSVParser :=
  mkLogCSVParser (cp_columns self) (cp_delimiters self) quotes quotes (cp_null_value self) (cp_flags self) (cp_string_delimiters self).

Fixpoint quote_pairs_loop (quote_pairs : cstr) : cstr * cstr :=
  match quote_pairs with
  | a :: b :: rest => let '(starts, ends) := quote_pairs_loop rest in (a :: starts, b :: ends)
  | _ => ([], [])
  end.

Definition log_csv_parser_set_quote_pairs (self : LogCSVParser) (quote_pairs : cstr) : LogCSVParser :=
  let '(starts, ends) := quote_pairs_loop quote_pairs in
  mkLogCSVParser (cp_columns self) (cp_delimiters self) starts ends (cp_null_value self) (cp_flags self) (cp_string_delimiters self).

Definition log_csv_parser_set_null_value (self : LogCSVParser) (null_value : option cstr) : LogCSVParser :=
  mkLogCSVParser (cp_columns self) (cp_delimiters self) (cp_quotes_start self) (cp_quotes_end self) null_value (cp_flags self) (cp_string_delimiters self).
Definition log_csv_parser_append_string_delimiter (self : LogCSVParser) (string_delimiter : cstr) : LogCSVParser :=
  mkLogCSVParser (cp_columns self) (cp_delimiters self) (cp_quotes_start self) (cp_quotes_end self) (cp_null_value self) (cp_flags self)
    (string_delimiter :: cp_string_delimiters self).

Definition log_csv_parser_new : LogCSVParser :=
  let self := mkLogCSVParser [] [] [] [] None 0 [] in
  let self := log_csv_parser_set_delimiters self (bytes_of_string " ") in
  let self := log_csv_parser_set_quote_pairs self [34; 34; 39; 39] in
  log_csv_parser_set_flags self LOG_CSV_PARSER_FLAGS_DEFAULT.

Definition log_csv_parser_lookup_flag (f : string) : Z :=
  if String.eqb f "escape-none" then LOG_CSV_PARSER_ESCAPE_NONE
  else if String.eqb f "escape-backslash" then LOG_CSV_PARSER_ESCAPE_BACKSLASH
  else if String.eqb f "escape-double-char" then LOG_CSV_PARSER_ESCAPE_DOUBLE_CHAR
  else if String.eqb f "strip-whitespace" then LOG_CSV_PARSER_STRIP_WHITESPACE
  else if String.eqb f "greedy" then LOG_CSV_PARSER_GREEDY
  else if String.eqb f "drop-invalid" then LOG_CSV_PARSER_DROP_INVALID
  else 0.

(** [g_string_list_find_first]: the first string of the list that occurs at
    all, where it occurs, and its length. *)
Fixpoint g_string_list_find_first (list : list cstr) (str : cstr) : option cstr * Z :=
  match list with
  | [] => (None, 0)
  | item :: list =>
      match strstr str item with
      | Some start => (Some start, lenZ item)
      | None => g_string_list_find_first list str
      end
  end.

(** ** Shared helpers *)

Definition _should_drop_as_invalid (cur_column : list cstr) (src : option cstr) (flags : Z) : bool :=
  ((if cur_column is [] then false else true) || (match src with Some (_ :: _) => true | _ => false end)) && flag flags LOG_CSV_PARSER_DROP_INVALID.

Definition _is_whitespace_char (c : Z) : bool := bool_decide (c = 32 \/ c = 9).

Fixpoint _strip_whitespace_left (src : cstr) : cstr :=
  match src with c :: rest => if _is_whitespace_char c then _strip_whitespace_left rest else src | [] => [] end.

(** The loop that moves [len] in front of trailing white space. *)
Fixpoint strip_right (src : cstr) (len : nat) : nat :=
  match len with
  | O => O
  | S n => if _is_whitespace_char (default 0 (src !! n)) then strip_right src n else len
  end.

Definition _is_greedy_mode_on (self : LogCSVParser) (cur_column : list cstr) : bool :=
  match cur_column with [_] => flag (cp_flags self) LOG_CSV_PARSER_GREEDY | _ => false end.

(** The quote that closes the one at the front of [src], zero if none does. *)
Definition get_current_quote (self : LogCSVParser) (c : Z) : Z :=
  match strchr_index (cp_quotes_start self) c with
  | Some i => default 0 (cp_quotes_end self !! i)
  | None => 0
  end.

(** ** Without escaping *)

Record UnescapedParserState := mkUPS {
  up_next_delim : cstr;
  up_next_string_delim : option cstr;
  up_delim_len : Z
}.

Definition _unescaped_get_current_quote (self : LogCSVParser) (src : cstr) : Z * cstr :=
  match strchr_index (cp_quotes_start self) (deref src) with
  | Some i => (default 0 (cp_quotes_end self !! i), tail src)
  | None => (0, src)
  end.

Definition _unescaped_quoted_find_next_delim (self : LogCSVParser) (current_quote : Z) (src : cstr) : UnescapedParserState :=
  match strchr src current_quote with
  | Some next_delim =>
      let '(next_string_delim, delim_len) := g_string_list_find_first (cp_string_delimiters self) next_delim in
      let after := tail next_delim in
      if bool_decide (next_string_delim = Some after) || (if strchr (cp_delimiters self) (deref after) is Some _ then true else false)
      then mkUPS after next_string_delim delim_len
      else mkUPS next_delim next_string_delim delim_len
  | None => mkUPS [] None 0
  end.

Definition _unescaped_unquoted_find_next_delim (self : LogCSVParser) (src : cstr) : UnescapedParserState :=
  let '(next_string_delim, delim_len) :=
    match cp_string_delimiters self with [] => (None, 0) | l => g_string_list_find_first l src end in
  let next_char_delim := drop (strcspn src (cp_delimiters self)) src in
  match next_string_delim with
  | Some p => if bool_decide (lenZ next_char_delim <= lenZ p)
              then mkUPS p next_string_delim delim_len
              else mkUPS next_char_delim next_string_delim delim_len
  | None => mkUPS next_char_delim next_string_delim delim_len
  end.

Definition _unescaped_find_next_delim (self : LogCSVParser) (current_quote : Z) (src : cstr) : UnescapedParserState :=
  if bool_decide (current_quote <> 0) then _unescaped_quoted_find_next_delim self current_quote src
  else _unescaped_unquoted_find_next_delim self src.

(** The closing quote is compared as a signed with an unsigned byte. *)
Definition _unescaped_get_column_length (self : LogCSVParser) (ps : UnescapedParserState) (current_quote : Z) (src : cstr) : nat :=
  let len := (length src - length (up_next_delim ps))%nat in
  let len := if bool_decide (current_quote <> 0 /\ (0 < len)%nat /\ s8 (default 0 (src !! (len - 1)%nat)) = current_quote)
             then (len - 1)%nat else len in
  if flag (cp_flags self) LOG_CSV_PARSER_STRIP_WHITESPACE then strip_right src len else len.

Definition _unescaped_move_to_next_column (ps : UnescapedParserState) : outcome cstr :=
  if bool_decide (up_delim_len ps <> 0 /\ up_next_string_delim ps = Some (up_next_delim ps))
  then advance (up_next_delim ps) (up_delim_len ps)
  else Ret (tail (up_next_delim ps)).

(** The loop of [log_csv_parser_process_unescaped]: every round fills a column.
    The rest of the columns and of the input are returned with the values. *)
Fixpoint unescaped_loop (self : LogCSVParser) (columns : list cstr) (src : cstr) : outcome (sets * list cstr * option cstr) :=
  match columns, src with
  | column :: columns, _ :: _ =>
      let '(current_quote, src) := _unescaped_get_current_quote self src in
      let src := if flag (cp_flags self) LOG_CSV_PARSER_STRIP_WHITESPACE then _strip_whitespace_left src else src in
      let ps := _unescaped_find_next_delim self current_quote src in
      let len := _unescaped_get_column_length self ps current_quote src in
      let value := if (if cp_null_value self is Some null_value then strncmp_eq src null_value len else false)
                   then [] else take len src in
      let! src := _unescaped_move_to_next_column ps in
      if _is_greedy_mode_on self columns
      then Ret ([(column, value); (default [] (head columns), src)], [], None)
      else
        let! (more, columns, src) := unescaped_loop self columns src in
        Ret ((column, value) :: more, columns, src)
  | _, _ => Ret ([], columns, Some src)
  end.

Definition log_csv_parser_process_unescaped (self : LogCSVParser) (src : cstr) : outcome (bool * sets) :=
  let! (values, columns, src) := unescaped_loop self (cp_columns self) src in
  Ret (negb (_should_drop_as_invalid columns src (cp_flags self)), values).

(** ** With escaping *)

Inductive UnescapedParserFSAState := PS_COLUMN_START | PS_WHITESPACE | PS_VALUE | PS_DELIMITER.

Record EscapedParserState := mkEPS {
  ep_values : sets;
  ep_src : cstr;
  ep_state : UnescapedParserFSAState;
  ep_current_value : cstr;
  ep_current_column : list cstr;
  ep_current_quote : Z;
  ep_delim_len : Z;
  ep_store_value : bool
}.

Definition _escaped_parser_state_init (cur_column : list cstr) (src : cstr) : EscapedParserState :=
  mkEPS [] src PS_COLUMN_START [] cur_column 0 0 false.

Definition with_state (ps : EscapedParserState) (st : UnescapedParserFSAState) : EscapedParserState :=
  mkEPS (ep_values ps) (ep_src ps) st (ep_current_value ps) (ep_current_column ps) (ep_current_quote ps) (ep_delim_len ps) (ep_store_value ps).
Definition with_quote (ps : EscapedParserState) (st : UnescapedParserFSAState) (q delim_len : Z) : EscapedParserState :=
  mkEPS (ep_values ps) (ep_src ps) st (ep_current_value ps) (ep_current_column ps) q delim_len (ep_store_value ps).
Definition with_delim_len (ps : EscapedParserState) (n : Z) : EscapedParserState :=
  mkEPS (ep_values ps) (ep_src ps) (ep_state ps) (ep_current_value ps) (ep_current_column ps) (ep_current_quote ps) n (ep_store_value ps).
Definition with_src (ps : EscapedParserState) (src : cstr) : EscapedParserState :=
  mkEPS (ep_values ps) src (ep_state ps) (ep_current_value ps) (ep_current_column ps) (ep_current_quote ps) (ep_delim_len ps) (ep_store_value ps).
(** [g_string_append_c (current_value, *src)]. *)
Definition append_c (ps : EscapedParserState) : EscapedParserState :=
  mkEPS (ep_values ps) (ep_src ps) (ep_state ps) (ep_current_value ps ++ [deref (ep_src ps)]) (ep_current_column ps) (ep_current_quote ps)
    (ep_delim_len ps) (ep_store_value ps).
Definition with_store (ps : EscapedParserState) : EscapedParserState :=
  mkEPS (ep_values ps) (ep_src ps) (ep_state ps) (ep_current_value ps) (ep_current_column ps) (ep_current_quote ps) (ep_delim_len ps) true.

Definition _escaped_quoted_process_next_char (self : LogCSVParser) (ps : EscapedParserState) : EscapedParserState :=
  let c := deref (ep_src ps) in let c1 := deref (tail (ep_src ps)) in
  if flag (cp_flags self) LOG_CSV_PARSER_ESCAPE_BACKSLASH && bool_decide (c = 92 /\ c1 <> 0)
  then append_c (with_src ps (tail (ep_src ps)))
  else if flag (cp_flags self) LOG_CSV_PARSER_ESCAPE_DOUBLE_CHAR && bool_decide (c = ep_current_quote ps /\ c1 = ep_current_quote ps)
  then append_c (with_src ps (tail (ep_src ps)))
  else if bool_decide (c = ep_current_quote ps) then
    let delim_len :=
      match cp_string_delimiters self with
      | [] => ep_delim_len ps
      | l => let '(p, n) := g_string_list_find_first l (ep_src ps) in
             if bool_decide (p <> Some (tail (ep_src ps))) then 0 else n
      end in
    with_quote ps PS_DELIMITER 0 delim_len
  else append_c ps.

(** The test, and the length of the string delimiter it leaves behind. *)
Definition _escaped_is_delimiter (self : LogCSVParser) (ps : EscapedParserState) : bool * EscapedParserState :=
  let by_char := if strchr (cp_delimiters self) (deref (ep_src ps)) is Some _ then true else false in
  match cp_string_delimiters self with
  | [] => (by_char, ps)
  | l => let '(p, n) := g_string_list_find_first l (ep_src ps) in
         (bool_decide (p = Some (ep_src ps)) || by_char, with_delim_len ps n)
  end.

Definition _escaped_get_column_length (self : LogCSVParser) (current_value : cstr) : nat :=
  if flag (cp_flags self) LOG_CSV_PARSER_STRIP_WHITESPACE then strip_right current_value (length current_value) else length current_value.

Definition _escaped_store_value (self : LogCSVParser) (ps : EscapedParserState) : EscapedParserState :=
  let len := _escaped_get_column_length self (ep_current_value ps) in
  let value := if (if cp_null_value self is Some null_value then strcmp_eq (ep_current_value ps) null_value else false)
               then [] else take len (ep_current_value ps) in
  mkEPS (ep_values ps ++ [(default [] (head (ep_current_column ps)), value)]) (ep_src ps) (ep_state ps) (ep_current_value ps)
    (ep_current_column ps) (ep_current_quote ps) (ep_delim_len ps) (ep_store_value ps).

Definition _escaped_reset_variables (ps : EscapedParserState) : outcome EscapedParserState :=
  let! src := (if bool_decide (ep_delim_len ps > 0) then advance (ep_src ps) (ep_delim_len ps - 1) else Ret (ep_src ps)) in
  Ret (mkEPS (ep_values ps) src PS_COLUMN_START [] (tail (ep_current_column ps)) (ep_current_quote ps) 0 false).

(** The [switch]: the new state, and whether it ended with [continue]. *)
Definition escaped_switch (self : LogCSVParser) (ps : EscapedParserState) : EscapedParserState * bool :=
  let value_state ps :=
    if bool_decide (ep_current_quote ps <> 0) then (_escaped_quoted_process_next_char self ps, false)
    else
      let '(is_delimiter, ps) := _escaped_is_delimiter self ps in
      if is_delimiter then (with_state ps PS_DELIMITER, true) else (append_c ps, false) in
  match ep_state ps with
  | PS_COLUMN_START =>
      let q := get_current_quote self (deref (ep_src ps)) in
      (with_quote ps PS_WHITESPACE q (ep_delim_len ps), bool_decide (q = 0))
  | PS_WHITESPACE =>
      if flag (cp_flags self) LOG_CSV_PARSER_STRIP_WHITESPACE && _is_whitespace_char (deref (ep_src ps)) then (ps, false)
      else value_state (with_state ps PS_VALUE)
  | PS_VALUE => value_state ps
  | PS_DELIMITER => (with_store ps, false)
  end.

(** One round of the loop; [None] as the input is the null pointer that the
    greedy mode leaves. *)
Definition escaped_step (self : LogCSVParser) (ps : EscapedParserState) : outcome (EscapedParserState * bool) :=
  let '(ps, continue) := escaped_switch self ps in
  if continue then Ret (ps, false)
  else
    let ps := with_src ps (tail (ep_src ps)) in
    if bool_decide (deref (ep_src ps) = 0) || ep_store_value ps then
      let! ps := _escaped_reset_variables (_escaped_store_value self ps) in
      Ret (ps, _is_greedy_mode_on self (ep_current_column ps))
    else Ret (ps, false).

Fixpoint escaped_loop (fuel : nat) (self : LogCSVParser) (ps : EscapedParserState) : outcome (sets * list cstr * option cstr) :=
  match fuel with
  | O => Abort
  | S fuel =>
      match ep_current_column ps, ep_src ps with
      | _ :: _, _ :: _ =>
          let! (ps, greedy) := escaped_step self ps in
          if greedy : bool
          then Ret (ep_values ps ++ [(default [] (head (ep_current_column ps)), ep_src ps)], [], None)
          else escaped_loop fuel self ps
      | _, _ => Ret (ep_values ps, ep_current_column ps, Some (ep_src ps))
      end
  end.

(** A byte is looked at in at most three rounds. *)
Definition log_csv_parser_process_escaped (self : LogCSVParser) (src : cstr) : outcome (bool * sets) :=
  let! (values, columns, src) := escaped_loop (3 * length src + 3) self (_escaped_parser_state_init (cp_columns self) src) in
  Ret (negb (_should_drop_as_invalid columns src (cp_flags self)), values).

Definition _should_not_escape (flags : Z) : bool :=
  flag flags LOG_CSV_PARSER_ESCAPE_NONE || bool_decide (Z.land flags LOG_CSV_PARSER_ESCAPE_MASK = 0).
Definition _should_escape (flags : Z) : bool :=
  flag flags (LOG_CSV_PARSER_ESCAPE_BACKSLASH + LOG_CSV_PARSER_ESCAPE_DOUBLE_CHAR).

Definition log_csv_parser_process (self : LogCSVParser) (input : cstr) : outcome (bool * sets) :=
  if _should_not_escape (cp_flags self) then log_csv_parser_process_unescaped self input
  else if _should_escape (cp_flags self) then log_csv_parser_process_escaped self input
  else Ret (false, []).
