(* ===== verification/CsvParserClaims.v ===== *)
(** * The CSV parser stays inside its input and ends *)
From S2P Require Import Prelude CString CsvParser.

(** ** Delimiters *)

(** A string delimiter is found inside the text. *)
Lemma find_first_bound (l : list cstr) (s : cstr) : let '(p, n) := g_string_list_find_first l s in
  0 <= n /\ match p with Some p => (exists k, s = k ++ p) /\ n <= lenZ p | None => n = 0 end.
Proof.
  induction l as [|item l IH]; simpl; [done|]. destruct (strstr s item) as [p|] eqn:E; [|done].
  apply strstr_sound in E as (k & -> & [t ->]). rewrite lenZ_app. pose proof (lenZ_nonneg item). pose proof (lenZ_nonneg t).
  split; [done|]. split; [by exists k|lia].
Qed.

Lemma suffix_length (s k p : cstr) : s = k ++ p -> lenZ p <= lenZ s.
Proof. intros ->. rewrite lenZ_app. pose proof (lenZ_nonneg k). lia. Qed.

(** A suffix other than the text itself is one of its tail. *)
Lemma proper_suffix (s k p : cstr) : s = k ++ p -> p <> s -> lenZ p <= lenZ (tail s).
Proof.
  intros -> Hne. destruct k as [|x k]; [done|]. simpl. rewrite lenZ_app. pose proof (lenZ_nonneg k). lia.
Qed.

Lemma lenZ_tail (s : cstr) : s <> [] -> lenZ (tail s) = lenZ s - 1.
Proof. destruct s; [done|]. intros _. rewrite lenZ_cons. simpl. lia. Qed.

Lemma no_nul_tail (s : cstr) : no_nul s -> no_nul (tail s).
Proof. destruct s; [done|]. by intros [_ ?]%no_nul_cons. Qed.

Lemma strchr_suffix (s p : cstr) (c : Z) : strchr s c = Some p -> exists k, s = k ++ p.
Proof. intros (k & -> & _)%strchr_sound. by exists k. Qed.

(** ** Without escaping *)

Lemma unescaped_delim_bound (self : LogCSVParser) (q : Z) (src : cstr) :
  let ps := _unescaped_find_next_delim self q src in
  0 <= up_delim_len ps /\ match up_next_string_delim ps with Some p => up_delim_len ps <= lenZ p | None => up_delim_len ps = 0 end.
Proof.
  unfold _unescaped_find_next_delim. case_bool.
  - unfold _unescaped_quoted_find_next_delim. destruct (strchr src q) as [p|]; [|done].
    pose proof (find_first_bound (cp_string_delimiters self) p) as B. destruct (g_string_list_find_first _ _) as [d n].
    destruct (_ || _); simpl; destruct d; intuition.
  - unfold _unescaped_unquoted_find_next_delim. assert (B : let '(p, n) := match cp_string_delimiters self with [] => (None, 0) | l => g_string_list_find_first l src end in
      0 <= n /\ match p with Some p => n <= lenZ p | None => n = 0 end).
    { destruct (cp_string_delimiters self) as [|x l]; [done|]. pose proof (find_first_bound (x :: l) src) as B.
      destruct (g_string_list_find_first _ _) as [[p|] n]; intuition. }
    destruct (match cp_string_delimiters self with [] => _ | _ => _ end) as [[p|] n]; [|done]. case_bool; done.
Qed.

Lemma unescaped_move_ret (self : LogCSVParser) (q : Z) (src : cstr) :
  exists src', _unescaped_move_to_next_column (_unescaped_find_next_delim self q src) = Ret src'.
Proof.
  pose proof (unescaped_delim_bound self q src) as [B0 B]. unfold _unescaped_move_to_next_column. case_bool; [|by eexists].
  destruct Hb as [_ E]. rewrite E in B. rewrite advance_ret by lia. by eexists.
Qed.

Definition filled (columns : list cstr) (r : sets * list cstr * option cstr) : Prop :=
  let '(values, rest, src) := r in
  columns = values.*1 ++ rest.

Lemma unescaped_loop_ret (self : LogCSVParser) (columns : list cstr) (src : cstr) :
  exists r, unescaped_loop self columns src = Ret r /\ filled columns r.
Proof.
  revert src. induction columns as [|column columns IH]; intros src; [by destruct src; eexists|].
  destruct src as [|c src]; [by eexists|]. cbn [unescaped_loop]. destruct (_unescaped_get_current_quote self (c :: src)) as [q s].
  set (s' := if flag _ _ then _ else _). destruct (unescaped_move_ret self q s') as [s'' ->]. cbn [obind].
  destruct (_is_greedy_mode_on self columns) eqn:G.
  - unfold _is_greedy_mode_on in G. destruct columns as [|x [|? ?]]; [done| |done]. eexists. split; done.
  - destruct (IH s'') as ([[values rest] s3] & -> & F). eexists. split; [reflexivity|]. unfold filled in *. simpl. by rewrite F.
Qed.

(** ** With escaping *)

Definition rank (st : UnescapedParserFSAState) : Z :=
  match st with PS_COLUMN_START => 2 | PS_WHITESPACE | PS_VALUE => 1 | PS_DELIMITER => 0 end.
Definition measure (ps : EscapedParserState) : Z := 3 * lenZ (ep_src ps) + rank (ep_state ps).

Record ep_ok (self : LogCSVParser) (columns : list cstr) (ps : EscapedParserState) : Prop := {
  eo_delim : 0 <= ep_delim_len ps <= lenZ (ep_src ps);
  eo_early : match ep_state ps with PS_COLUMN_START | PS_WHITESPACE => ep_delim_len ps = 0
             | PS_VALUE => ep_current_quote ps <> 0 -> ep_delim_len ps = 0 | PS_DELIMITER => True end;
  eo_store : ep_store_value ps = false;
  eo_nul : no_nul (ep_src ps);
  eo_nil : cp_string_delimiters self = [] -> ep_delim_len ps = 0;
  eo_columns : columns = (ep_values ps).*1 ++ ep_current_column ps
}.

(** What the [switch] may leave behind. *)
Record switched (self : LogCSVParser) (ps ps' : EscapedParserState) (continue : bool) : Prop := {
  sw_src : if continue then ep_src ps' = ep_src ps else (exists k, ep_src ps = k ++ ep_src ps' /\ ep_src ps' <> []);
  sw_rank : if continue then rank (ep_state ps') < rank (ep_state ps) else True;
  sw_delim : 0 <= ep_delim_len ps' <= (if continue || ep_store_value ps' then lenZ (ep_src ps') else lenZ (tail (ep_src ps')));
  sw_early : match ep_state ps' with PS_COLUMN_START | PS_WHITESPACE => ep_delim_len ps' = 0
             | PS_VALUE => ep_current_quote ps' <> 0 -> ep_delim_len ps' = 0 | PS_DELIMITER => True end;
  sw_store : ep_store_value ps' = true -> continue = false;
  sw_nil : cp_string_delimiters self = [] -> ep_delim_len ps' = 0;
  sw_values : ep_values ps' = ep_values ps /\ ep_current_column ps' = ep_current_column ps
}.

(** Projections of an updated state. *)
Ltac ep_cbn := cbn [ep_values ep_src ep_state ep_current_value ep_current_column ep_current_quote ep_delim_len ep_store_value
  with_state with_quote with_delim_len with_src append_c with_store rank orb tail deref].

Lemma quoted_switched (self : LogCSVParser) (ps : EscapedParserState) : ep_src ps <> [] -> ep_delim_len ps = 0 ->
  ep_state ps = PS_VALUE -> ep_current_quote ps <> 0 -> ep_store_value ps = false -> no_nul (ep_src ps) ->
  switched self ps (_escaped_quoted_process_next_char self ps) false.
Proof.
  intros Hs Hd Hst Hq Hstore Hn. unfold _escaped_quoted_process_next_char.
  destruct (ep_src ps) as [|c s] eqn:E; [done|]. cbn [deref tail].
  assert (Hl : forall t : cstr, 0 <= 0 <= lenZ t) by (intros t; pose proof (lenZ_nonneg t); lia).
  destruct (_ && bool_decide (c = 92 /\ _)) eqn:C1.
  { apply andb_true_iff in C1 as [_ [-> C1]%bool_decide_eq_true]. destruct s as [|x s]; [done|].
    split; ep_cbn; rewrite ?Hst, ?Hd, ?Hstore, ?E; try done; try apply Hl. by exists [92]. }
  destruct (_ && bool_decide (c = ep_current_quote ps /\ _)) eqn:C2.
  { apply andb_true_iff in C2 as [_ [-> C2]%bool_decide_eq_true]. destruct s as [|x s]; [by rewrite <- C2 in Hq|].
    split; ep_cbn; rewrite ?Hst, ?Hd, ?Hstore, ?E; try done; try apply Hl. by eexists [_]. }
  case_bool.
  - split; ep_cbn; rewrite ?Hstore, ?E; try done; [by exists []| |by intros ->].
    destruct (cp_string_delimiters self) as [|x l]; [rewrite Hd; apply Hl|].
    pose proof (find_first_bound (x :: l) (c :: s)) as B. destruct (g_string_list_find_first (x :: l) (c :: s)) as [p n].
    cbn [tail]. case_bool; [apply Hl|]. destruct (decide (p = Some s)) as [->|]; [|done]. lia.
  - split; ep_cbn; rewrite ?Hstore, ?E, ?Hd, ?Hst; try done; try apply Hl. by exists [].
Qed.

Lemma unquoted_switched (self : LogCSVParser) (ps : EscapedParserState) : ep_src ps <> [] -> 0 <= ep_delim_len ps <= lenZ (ep_src ps) ->
  ep_state ps = PS_VALUE -> ep_current_quote ps = 0 -> ep_store_value ps = false -> (cp_string_delimiters self = [] -> ep_delim_len ps = 0) ->
  let '(is_delimiter, ps') := _escaped_is_delimiter self ps in
  if is_delimiter then switched self ps (with_state ps' PS_DELIMITER) true else switched self ps (append_c ps') false.
Proof.
  intros Hs Hd Hst Hq Hstore Hnil. unfold _escaped_is_delimiter.
  destruct (cp_string_delimiters self) as [|x l] eqn:E.
  - specialize (Hnil eq_refl). pose proof (lenZ_nonneg (ep_src ps)). pose proof (lenZ_nonneg (tail (ep_src ps))).
    destruct (strchr (cp_delimiters self) (deref (ep_src ps))); split; ep_cbn; rewrite ?Hstore, ?Hst; try done; try lia. by exists [].
  - pose proof (find_first_bound (x :: l) (ep_src ps)) as B. destruct (g_string_list_find_first (x :: l) (ep_src ps)) as [p n].
    destruct (bool_decide (p = Some (ep_src ps)) || _) eqn:D.
    + split; ep_cbn; rewrite ?Hstore, ?Hst, ?E; try done; try lia. destruct p as [p|]; [|pose proof (lenZ_nonneg (ep_src ps)); lia].
      destruct B as (B0 & [k Hk] & B1). pose proof (suffix_length _ _ _ Hk). lia.
    + apply orb_false_iff in D as [D _]. apply bool_decide_eq_false in D.
      split; ep_cbn; rewrite ?Hstore, ?Hst, ?Hq, ?E; try done; [by exists []|]. destruct p as [p|]; [|pose proof (lenZ_nonneg (tail (ep_src ps))); lia].
      destruct B as (B0 & [k Hk] & B1). pose proof (proper_suffix _ _ _ Hk ltac:(congruence)). lia.
Qed.

Lemma switch_switched (self : LogCSVParser) (columns : list cstr) (ps : EscapedParserState) : ep_ok self columns ps -> ep_src ps <> [] ->
  let '(ps', continue) := escaped_switch self ps in switched self ps ps' continue.
Proof.
  intros [O1 O2 O3 O4 Hnil O5] Hs. unfold escaped_switch.
  assert (Hpos : 0 <= lenZ (tail (ep_src ps))) by apply lenZ_nonneg. assert (Hpos' : 0 <= lenZ (ep_src ps)) by apply lenZ_nonneg.
  assert (V : forall p, ep_state p = PS_VALUE -> ep_src p = ep_src ps -> ep_current_quote p = ep_current_quote ps -> ep_delim_len p = ep_delim_len ps ->
    ep_store_value p = false -> (ep_current_quote p <> 0 -> ep_delim_len p = 0) ->
    let '(ps', continue) := if bool_decide (ep_current_quote p <> 0) then (_escaped_quoted_process_next_char self p, false)
      else let '(is_delimiter, ps') := _escaped_is_delimiter self p in
           if is_delimiter then (with_state ps' PS_DELIMITER, true) else (append_c ps', false) in switched self p ps' continue).
  { intros p Hp1 Hp2 Hp3 Hp4 Hp5 Hp6. case_bool.
    - apply quoted_switched; [by rewrite Hp2|by apply Hp6|done|done|done|by rewrite Hp2].
    - pose proof (unquoted_switched self p ltac:(by rewrite Hp2) ltac:(by rewrite Hp2, Hp4) Hp1 ltac:(lia) Hp5 ltac:(by rewrite Hp4)) as U.
      destruct (_escaped_is_delimiter self p) as [[] p']; done. }
  destruct (ep_state ps) eqn:St.
  - set (q := get_current_quote self _). case_bool_decide; split; ep_cbn; rewrite ?St, ?O3, ?O2; try done; by exists [].
  - destruct (_ && _); [split; rewrite ?St, ?O3, ?O2; try done; by exists []|].
    pose proof (V (with_state ps PS_VALUE) eq_refl eq_refl eq_refl eq_refl O3 ltac:(by intros _)) as W.
    destruct (if bool_decide _ then _ else _) as [ps' cont]. destruct W as [W1 W2 W3 W4 W5 W6]. split; try done.
    destruct cont; [|done]. revert W2. rewrite St. ep_cbn. lia.
  - by apply V.
  - split; ep_cbn; rewrite ?St, ?O3; try done. by exists [].
Qed.

(** One round keeps the invariant and gets closer to the end. *)
Lemma step_ok (self : LogCSVParser) (columns : list cstr) (ps : EscapedParserState) : ep_ok self columns ps -> ep_src ps <> [] -> ep_current_column ps <> [] ->
  exists ps' greedy, escaped_step self ps = Ret (ps', greedy) /\ ep_ok self columns ps' /\ measure ps' < measure ps /\
    (greedy = true -> exists c, ep_current_column ps' = [c]).
Proof.
  intros O Hs Hc. pose proof (switch_switched self columns ps O Hs) as S. unfold escaped_step. destruct (escaped_switch self ps) as [p cont].
  destruct S as [W1 W2 W3 W4 W5 W6 [W7 W8]]. pose proof (eo_nul _ _ _ O) as Hnul. pose proof (eo_columns _ _ _ O) as Hcol. destruct cont.
  { exists p, false. split; [done|]. rewrite W1 in *. destruct (ep_store_value p) eqn:St; [by specialize (W5 eq_refl)|].
    split; [split; rewrite ?W1, ?W7, ?W8; try done; simpl in W3; lia|]. split; [unfold measure; rewrite W1; lia|done]. }
  destruct W1 as (k & Hk & Hp). assert (Hlt : lenZ (tail (ep_src p)) < lenZ (ep_src ps)) by (rewrite lenZ_tail by done; pose proof (suffix_length _ _ _ Hk); lia).
  assert (Hn' : no_nul (tail (ep_src p))) by (apply no_nul_tail; rewrite Hk in Hnul; by apply no_nul_app in Hnul as [_ ?]).
  set (p1 := with_src p (tail (ep_src p))). assert (Hdl : ep_delim_len p1 - 1 <= lenZ (ep_src p1)).
  { unfold p1. ep_cbn. cbn [orb] in W3. rewrite lenZ_tail by done. destruct (ep_store_value p); [lia|]. rewrite lenZ_tail in W3 by done. lia. }
  destruct (bool_decide (deref (ep_src p1) = 0) || ep_store_value p1) eqn:D.
  - unfold _escaped_reset_variables. set (p2 := _escaped_store_value self p1).
    assert (A : exists n, (if bool_decide (ep_delim_len p2 > 0) then advance (ep_src p2) (ep_delim_len p2 - 1) else Ret (ep_src p2)) = Ret (drop n (ep_src p1))).
    { case_bool; [|exists 0%nat; by rewrite drop_0]. change (ep_delim_len p2) with (ep_delim_len p1) in *. change (ep_src p2) with (ep_src p1).
      rewrite advance_ret by lia. by eexists. }
    destruct A as [n ->]. cbn [obind]. do 2 eexists. split; [reflexivity|]. split; [split|].
    + ep_cbn. pose proof (lenZ_nonneg (drop n (ep_src p1))). lia.
    + done.
    + done.
    + ep_cbn. by apply no_nul_drop.
    + done.
    + ep_cbn. unfold p2, _escaped_store_value, p1. ep_cbn. rewrite W7, W8, fmap_app, Hcol. destruct (ep_current_column ps) as [|c cols]; [done|].
      simpl. by rewrite <- app_assoc.
    + split; [|unfold _is_greedy_mode_on; ep_cbn; destruct (tail (ep_current_column p2)) as [|c [|? ?]]; [done|by exists c|done]].
      unfold measure. ep_cbn. assert (lenZ (drop n (ep_src p1)) <= lenZ (ep_src p1)) by (rewrite lenZ_drop; pose proof (lenZ_nonneg (ep_src p1)); lia).
      change (ep_src p1) with (tail (ep_src p)) in *. destruct (ep_state ps); cbn [rank]; lia.
  - apply orb_false_iff in D as [_ D]. change (ep_store_value p1) with (ep_store_value p) in D. rewrite D in W3. cbn [orb] in W3.
    exists p1, false. split; [done|]. split; [split; unfold p1; ep_cbn; try done; by rewrite W7, W8|].
    split; [|done]. unfold measure, p1. ep_cbn. destruct (ep_state ps), (ep_state p); cbn [rank]; lia.
Qed.

Lemma escaped_loop_ret (fuel : nat) (self : LogCSVParser) (columns : list cstr) (ps : EscapedParserState) : ep_ok self columns ps ->
  measure ps < Z.of_nat fuel -> exists r, escaped_loop fuel self ps = Ret r /\ filled columns r.
Proof.
  revert ps. induction fuel as [|fuel IH]; intros ps O M.
  { exfalso. unfold measure in M. pose proof (lenZ_nonneg (ep_src ps)). destruct (ep_state ps); simpl in M; lia. }
  cbn [escaped_loop]. destruct (ep_current_column ps) as [|c cols] eqn:Ec.
  { eexists. split; [reflexivity|]. unfold filled. by rewrite <- Ec, (eo_columns _ _ _ O). }
  destruct (ep_src ps) as [|x s] eqn:Es.
  { eexists. split; [reflexivity|]. unfold filled. by rewrite <- Ec, (eo_columns _ _ _ O). }
  destruct (step_ok self columns ps O ltac:(by rewrite Es) ltac:(by rewrite Ec)) as (ps' & greedy & -> & O' & M' & G). cbn [obind].
  destruct greedy; [|apply IH; [done|lia]]. destruct (G eq_refl) as [c' Hc']. eexists. split; [reflexivity|].
  unfold filled. rewrite Hc', fmap_app, (eo_columns _ _ _ O'), Hc', app_nil_r. done.
Qed.

(** More fuel does not change the result. *)
Lemma escaped_loop_more (fuel fuel' : nat) (self : LogCSVParser) (ps : EscapedParserState) r :
  escaped_loop fuel self ps = Ret r -> (fuel <= fuel')%nat -> escaped_loop fuel' self ps = Ret r.
Proof.
  revert fuel' ps. induction fuel as [|fuel IH]; intros fuel' ps H Hle; [done|]. destruct fuel' as [|fuel']; [lia|].
  cbn [escaped_loop] in *. destruct (ep_current_column ps); [done|]. destruct (ep_src ps); [done|].
  destruct (escaped_step self ps) as [[ps' g]|]; [|done]. cbn [obind] in *. destruct g; [done|]. apply IH; [done|lia].
Qed.

(** * What the CSV parser computes *)

Lemma init_ok (self : LogCSVParser) (columns : list cstr) (src : cstr) : no_nul src -> ep_ok self columns (_escaped_parser_state_init columns src).
Proof. intros Hn. split; try done. ep_cbn. pose proof (lenZ_nonneg src). simpl. lia. Qed.

(** ** Printing columns *)

(** How a value is written between quotes: with a backslash before the quote
    and the backslash, or with the quote doubled. *)
Inductive csv_mode := Backslash | DoubleChar.

Definition escape_char (mode : csv_mode) (q c : Z) : cstr :=
  match mode with
  | Backslash => if bool_decide (c = q \/ c = 92) then [92; c] else [c]
  | DoubleChar => if bool_decide (c = q) then [q; q] else [c]
  end.

Definition quoted (mode : csv_mode) (q : Z) (v : cstr) : cstr := q :: (v ≫= escape_char mode q) ++ [q].

Fixpoint csv_print (mode : csv_mode) (q d : Z) (values : list cstr) : cstr :=
  match values with
  | [] => []
  | [v] => quoted mode q v
  | v :: values => quoted mode q v ++ d :: csv_print mode q d values
  end.

Definition mode_flags (mode : csv_mode) (flags : Z) : Prop :=
  match mode with
  | Backslash => flag flags LOG_CSV_PARSER_ESCAPE_BACKSLASH = true
  | DoubleChar => flag flags LOG_CSV_PARSER_ESCAPE_BACKSLASH = false /\ flag flags LOG_CSV_PARSER_ESCAPE_DOUBLE_CHAR = true
  end.

Lemma flag_sub (flags a b : Z) : Z.land b a = a -> flag flags a = true -> flag flags b = true.
Proof.
  intros E H. apply bool_decide_eq_true in H. apply bool_decide_eq_true. intros H0. apply H. by rewrite <- E, Z.land_assoc, H0.
Qed.

Lemma process_is_escaped (self : LogCSVParser) (mode : csv_mode) (input : cstr) : mode_flags mode (cp_flags self) ->
  flag (cp_flags self) LOG_CSV_PARSER_ESCAPE_NONE = false -> log_csv_parser_process self input = log_csv_parser_process_escaped self input.
Proof.
  intros Hm Hn. unfold log_csv_parser_process, _should_not_escape, _should_escape. rewrite Hn. simpl.
  assert (Hb : exists b, (b = 2 \/ b = 4) /\ flag (cp_flags self) b = true) by (destruct mode; [exists 2|exists 4]; simpl in Hm; tauto).
  destruct Hb as (b & Hb & F).
  rewrite bool_decide_eq_false_2; [rewrite (flag_sub _ b); [done| |done]; by destruct Hb as [-> | ->]|].
  apply (flag_sub _ b 7) in F; [|by destruct Hb as [-> | ->]]. by apply bool_decide_eq_true in F.
Qed.

(** ** Reading a quoted value *)

Section read.
Context (self : LogCSVParser) (mode : csv_mode) (q d : Z).
Context (Hmode : mode_flags mode (cp_flags self)).
Context (Hstrip : flag (cp_flags self) LOG_CSV_PARSER_STRIP_WHITESPACE = false).
Context (Hgreedy : flag (cp_flags self) LOG_CSV_PARSER_GREEDY = false).
Context (Hsd : cp_string_delimiters self = []) (Hnull : cp_null_value self = None).
Context (Hquote : get_current_quote self q = q) (Hq : q <> 0) (Hq92 : q <> 92) (Hd : d <> 0) (Hdq : d <> q).

Definition at_value (values : sets) (src value : cstr) (columns : list cstr) : EscapedParserState :=
  mkEPS values src PS_VALUE value columns q 0 false.
Definition at_start (values : sets) (src : cstr) (columns : list cstr) (q0 : Z) : EscapedParserState :=
  mkEPS values src PS_COLUMN_START [] columns q0 0 false.

Lemma not_greedy (l : list cstr) : _is_greedy_mode_on self l = false.
Proof. unfold _is_greedy_mode_on. destruct l as [|x [|? ?]]; done. Qed.

Lemma loop_step (fuel : nat) (ps ps' : EscapedParserState) r : ep_current_column ps <> [] -> ep_src ps <> [] ->
  escaped_step self ps = Ret (ps', false) -> escaped_loop fuel self ps' = Ret r -> escaped_loop (S fuel) self ps = Ret r.
Proof.
  intros Hc Hs E H. cbn [escaped_loop]. destruct (ep_current_column ps); [done|]. destruct (ep_src ps); [done|]. by rewrite E.
Qed.

(** The first byte of a quoted value is read like the others. *)
Lemma step_whitespace (values : sets) (src value : cstr) (columns : list cstr) :
  escaped_step self (mkEPS values src PS_WHITESPACE value columns q 0 false) = escaped_step self (at_value values src value columns).
Proof. unfold escaped_step, escaped_switch, at_value. ep_cbn. by rewrite Hstrip. Qed.

Lemma quoted_char (values : sets) (c : Z) (rest value : cstr) (columns : list cstr) : c <> 0 ->
  _escaped_quoted_process_next_char self (at_value values (escape_char mode q c ++ rest) value columns) =
  at_value values (c :: rest) (value ++ [c]) columns.
Proof.
  intros Hc. unfold _escaped_quoted_process_next_char, at_value, mode_flags in *. ep_cbn. destruct mode; cbn [escape_char].
  - rewrite Hmode. destruct (bool_decide_reflect (c = q \/ c = 92)) as [Hb|Hb]; cbn [andb app tail deref].
    + by rewrite (bool_decide_eq_true_2 (92 = 92 /\ _)).
    + rewrite (bool_decide_eq_false_2 (c = 92 /\ _)), (bool_decide_eq_false_2 (c = q /\ _)), (bool_decide_eq_false_2 (c = q)) by tauto.
      by rewrite andb_false_r.
  - destruct Hmode as [-> ->]. destruct (bool_decide_reflect (c = q)) as [Hb|Hb]; cbn [andb app tail deref].
    + subst c. by rewrite (bool_decide_eq_true_2 (q = q /\ _)).
    + by rewrite (bool_decide_eq_false_2 (c = q /\ _)), (bool_decide_eq_false_2 (c = q)) by tauto.
Qed.

Lemma step_char (values : sets) (c : Z) (rest value : cstr) (columns : list cstr) : rest <> [] -> no_nul rest -> c <> 0 ->
  escaped_step self (at_value values (escape_char mode q c ++ rest) value columns) = Ret (at_value values rest (value ++ [c]) columns, false).
Proof.
  intros Hr Hn Hc. unfold escaped_step, escaped_switch. cbn [at_value ep_state ep_current_quote]. rewrite bool_decide_eq_true_2 by done.
  change (mkEPS values ?src PS_VALUE value columns q 0 false) with (at_value values src value columns). rewrite quoted_char by done. unfold at_value. ep_cbn.
  rewrite (bool_decide_eq_false_2 (deref rest = 0)); [done|]. by rewrite deref_zero.
Qed.

Lemma no_nul_escape (c : Z) : c <> 0 -> no_nul (escape_char mode q c).
Proof. intros Hc. destruct mode; simpl; case_bool; repeat (apply no_nul_cons; split; [done|]); constructor. Qed.

Lemma no_nul_value (v : cstr) : no_nul v -> no_nul (v ≫= escape_char mode q).
Proof.
  induction v as [|c v IH]; [done|]. intros [Hc Hv]%no_nul_cons. cbn [mbind list_bind]. apply no_nul_app. split; [by apply no_nul_escape|by apply IH].
Qed.

Lemma value_loop (v : cstr) : forall (values : sets) (rest value : cstr) (columns : list cstr) r, no_nul v -> no_nul rest -> rest <> [] -> columns <> [] ->
  (exists fuel, escaped_loop fuel self (at_value values rest (value ++ v) columns) = Ret r) ->
  exists fuel, escaped_loop fuel self (at_value values ((v ≫= escape_char mode q) ++ rest) value columns) = Ret r.
Proof.
  induction v as [|c v IH]; intros values rest value columns r Hv Hr Hne Hcol; [by rewrite app_nil_r|]. intros H.
  apply no_nul_cons in Hv as [Hc Hv]. cbn [mbind list_bind]. rewrite <- app_assoc.
  destruct (IH values rest (value ++ [c]) columns r Hv Hr Hne Hcol) as [fuel IH']; [by rewrite <- app_assoc|].
  exists (S fuel). eapply loop_step; [done| |apply step_char|exact IH'].
  - unfold at_value. ep_cbn. destruct mode; simpl; by case_bool.
  - intros [_ ->]%app_nil. done.
  - apply no_nul_app. split; [by apply no_nul_value|done].
  - done.
Qed.

(** The closing quote, and the delimiter behind it. *)
Lemma close_char (values : sets) (rest value : cstr) (columns : list cstr) : deref rest <> q ->
  _escaped_quoted_process_next_char self (at_value values (q :: rest) value columns) = mkEPS values (q :: rest) PS_DELIMITER value columns 0 0 false.
Proof.
  intros Hne. unfold _escaped_quoted_process_next_char, at_value. ep_cbn. rewrite Hsd.
  rewrite (bool_decide_eq_false_2 (q = q /\ _)), (bool_decide_eq_false_2 (q = 92 /\ _)), (bool_decide_eq_true_2 (q = q)) by tauto.
  by rewrite !andb_false_r.
Qed.

Lemma store_value (values : sets) (src value : cstr) (column : cstr) (columns : list cstr) (st : UnescapedParserFSAState) (q0 : Z) (store : bool) :
  _escaped_reset_variables (_escaped_store_value self (mkEPS values src st value (column :: columns) q0 0 store)) =
  Ret (at_start (values ++ [(column, value)]) src columns q0).
Proof.
  unfold _escaped_store_value, _escaped_get_column_length. ep_cbn. rewrite Hnull, Hstrip. cbn [head hd_error default id].
  rewrite firstn_all. unfold _escaped_reset_variables. ep_cbn. rewrite bool_decide_eq_false_2 by lia. done.
Qed.

Lemma close_end (values : sets) (value : cstr) (column : cstr) (columns : list cstr) :
  escaped_step self (at_value values [q] value (column :: columns)) = Ret (at_start (values ++ [(column, value)]) [] columns 0, false).
Proof.
  unfold escaped_step, escaped_switch. cbn [at_value ep_state ep_current_quote]. rewrite bool_decide_eq_true_2 by done.
  change (mkEPS values [q] PS_VALUE value (column :: columns) q 0 false) with (at_value values [q] value (column :: columns)).
  rewrite close_char by (simpl; congruence). unfold with_src. ep_cbn. rewrite (bool_decide_eq_true_2 (0 = 0)) by done. cbn [orb].
  rewrite store_value. cbn [obind]. by rewrite not_greedy.
Qed.

Lemma close_delimiter (fuel : nat) (values : sets) (rest value : cstr) (column : cstr) (columns : list cstr) r :
  escaped_loop fuel self (at_start (values ++ [(column, value)]) rest columns 0) = Ret r ->
  escaped_loop (S (S fuel)) self (at_value values (q :: d :: rest) value (column :: columns)) = Ret r.
Proof.
  intros H. eapply (loop_step _ _ (mkEPS values (d :: rest) PS_DELIMITER value (column :: columns) 0 0 false)); [done|done| |].
  - unfold escaped_step, escaped_switch. cbn [at_value ep_state ep_current_quote]. rewrite bool_decide_eq_true_2 by done.
    change (mkEPS values ?s PS_VALUE value (column :: columns) q 0 false) with (at_value values s value (column :: columns)).
    rewrite close_char by done. ep_cbn. by rewrite (bool_decide_eq_false_2 (d = 0)).
  - eapply loop_step; [done|done| |exact H]. unfold escaped_step, escaped_switch, with_src, with_store. ep_cbn. rewrite orb_true_r. rewrite store_value. cbn [obind].
    by rewrite not_greedy.
Qed.

Lemma step_open (values : sets) (rest : cstr) (columns : list cstr) (q0 : Z) : rest <> [] -> no_nul rest ->
  escaped_step self (at_start values (q :: rest) columns q0) = Ret (mkEPS values rest PS_WHITESPACE [] columns q 0 false, false).
Proof.
  intros Hne Hn. unfold escaped_step, escaped_switch, at_start. ep_cbn. rewrite Hquote, (bool_decide_eq_false_2 (q = 0)) by done. ep_cbn.
  rewrite (bool_decide_eq_false_2 (deref rest = 0)); [done|]. by rewrite deref_zero.
Qed.

Lemma loop_whitespace (fuel : nat) (values : sets) (src value : cstr) (columns : list cstr) r : columns <> [] -> src <> [] ->
  escaped_loop fuel self (at_value values src value columns) = Ret r ->
  escaped_loop fuel self (mkEPS values src PS_WHITESPACE value columns q 0 false) = Ret r.
Proof.
  intros Hc Hs. destruct fuel as [|fuel]; [done|]. cbn [escaped_loop at_value ep_current_column ep_src]. destruct columns; [done|]. destruct src; [done|].
  by rewrite step_whitespace.
Qed.

(** A quoted value, from its first quote to the end of the text or past the
    delimiter. *)
Lemma field_loop (v : cstr) (values : sets) (rest : cstr) (column : cstr) (columns : list cstr) (q0 : Z) r : no_nul v ->
  (rest = [] /\ (exists fuel, escaped_loop fuel self (at_start (values ++ [(column, v)]) [] columns 0) = Ret r)) \/
  (exists rest', rest = d :: rest' /\ no_nul rest' /\ (exists fuel, escaped_loop fuel self (at_start (values ++ [(column, v)]) rest' columns 0) = Ret r)) ->
  exists fuel, escaped_loop fuel self (at_start values (quoted mode q v ++ rest) (column :: columns) q0) = Ret r.
Proof.
  intros Hv H. assert (Hr : no_nul (q :: rest)).
  { apply no_nul_cons. split; [done|]. destruct H as [[-> _]|(r' & -> & Hr & _)]; [constructor|by apply no_nul_cons]. }
  destruct (value_loop v values (q :: rest) [] (column :: columns) r Hv Hr) as [fuel HF]; [done|done| |].
  { destruct H as [[-> [fuel HF]]|(r' & -> & _ & [fuel HF])].
    - exists (S fuel). eapply loop_step; [done|done|apply close_end|exact HF].
    - exists (S (S fuel)). by apply close_delimiter. }
  assert (Hne : (v ≫= escape_char mode q) ++ q :: rest <> []) by (by destruct (v ≫= escape_char mode q)).
  exists (S fuel). unfold quoted. cbn [app]. rewrite <- app_assoc. cbn [app]. eapply loop_step; [done|done|apply step_open|].
  - done.
  - apply no_nul_app. split; [by apply no_nul_value|done].
  - by apply loop_whitespace.
Qed.

Lemma no_nul_print (values : list cstr) : Forall no_nul values -> no_nul (csv_print mode q d values).
Proof.
  assert (Q : forall v, no_nul v -> no_nul (quoted mode q v))
    by (intros v Hv; apply no_nul_cons; split; [done|]; apply no_nul_app; split; [by apply no_nul_value|apply no_nul_cons; split; [done|constructor]]).
  induction 1 as [|v values Hv Hvs IH]; [constructor|]. destruct values as [|v' values]; [by apply Q|]. cbn [csv_print] in *.
  apply no_nul_app. split; [by apply Q|]. by apply no_nul_cons.
Qed.

Lemma print_loop (fields : list cstr) : forall (values : sets) (columns : list cstr) (q0 : Z), fields <> [] -> Forall no_nul fields -> length fields = length columns ->
  exists fuel, escaped_loop fuel self (at_start values (csv_print mode q d fields) columns q0) = Ret (values ++ zip columns fields, [], Some []).
Proof.
  induction fields as [|v fields IH]; intros values columns q0 Hne Hn Hlen; [done|]. destruct columns as [|column columns]; [done|].
  inversion Hn as [|? ? Hv Hvs]; subst. injection Hlen as Hlen. destruct fields as [|v' fields].
  - destruct columns; [|done]. cbn [csv_print]. rewrite <- (app_nil_r (quoted mode q v)). apply field_loop; [done|]. left. split; [done|]. by exists 1%nat.
  - change (csv_print mode q d (v :: v' :: fields)) with (quoted mode q v ++ d :: csv_print mode q d (v' :: fields)).
    apply field_loop; [done|]. right. eexists. split; [done|]. split; [by apply no_nul_print|].
    destruct (IH (values ++ [(column, v)]) columns 0 ltac:(done) Hvs Hlen) as [fuel HF]. exists fuel. rewrite HF. cbn [zip zip_with]. by rewrite <- app_assoc.
Qed.
End read.

(** ** Splitting without quotes *)

Fixpoint csv_join (d : Z) (fields : list cstr) : cstr :=
  match fields with [] => [] | [f] => f | f :: fields => f ++ d :: csv_join d fields end.

Section split.
Context (self : LogCSVParser) (d : Z).
Context (Hstrip : flag (cp_flags self) LOG_CSV_PARSER_STRIP_WHITESPACE = false).
Context (Hgreedy : flag (cp_flags self) LOG_CSV_PARSER_GREEDY = false).
Context (Hsd : cp_string_delimiters self = []) (Hnull : cp_null_value self = None).
Context (Hd : d ∈ cp_delimiters self) (Hd0 : d <> 0) (Hdq : d ∉ cp_quotes_start self).

(** A field the delimiters leave whole, and which does not start a quote. *)
Definition plain (f : cstr) : Prop := no_nul f /\ Forall (fun c => c ∉ cp_delimiters self) f /\ (match f with c :: _ => c ∉ cp_quotes_start self | [] => True end).

Lemma no_quote (c : Z) (src : cstr) : c <> 0 -> c ∉ cp_quotes_start self -> _unescaped_get_current_quote self (c :: src) = (0, c :: src).
Proof. intros Hc Hq. unfold _unescaped_get_current_quote, strchr_index. simpl. by rewrite (proj2 (strchr_none _ _)). Qed.

Lemma split_field (f rest : cstr) (column : cstr) (columns : list cstr) : plain f -> f ++ rest <> [] -> rest = [] \/ deref rest = d ->
  unescaped_loop self (column :: columns) (f ++ rest) =
  let! (more, columns, src) := unescaped_loop self columns (tail rest) in Ret ((column, f) :: more, columns, src).
Proof.
  intros (Hn & Hf & Hq) Hne Hr. assert (E : exists c s, f ++ rest = c :: s /\ c <> 0 /\ c ∉ cp_quotes_start self).
  { destruct f as [|c f]; simpl in *; [|apply no_nul_cons in Hn as [Hc _]; eauto].
    destruct rest as [|c rest]; [done|]. destruct Hr as [|Hr]; [done|]. simpl in Hr. subst c. by exists d, rest. }
  destruct E as (c & s & E & Hc & Hcq). rewrite E. cbn [unescaped_loop]. rewrite (no_quote c s Hc Hcq), Hstrip, <- E, Hnull.
  unfold _unescaped_find_next_delim. rewrite bool_decide_eq_false_2 by lia. unfold _unescaped_unquoted_find_next_delim. rewrite Hsd.
  rewrite strcspn_app; [|done|]. 2: { destruct Hr as [->|Hr]; [by right|left; by rewrite Hr]. }
  rewrite drop_app_length. unfold _unescaped_get_column_length. cbn [up_next_delim]. rewrite Hstrip.
  rewrite length_app, Nat.add_sub. rewrite bool_decide_eq_false_2 by tauto. rewrite take_app_length.
  unfold _unescaped_move_to_next_column. cbn [up_delim_len up_next_string_delim up_next_delim]. rewrite bool_decide_eq_false_2 by tauto. cbn [obind].
  assert (G : _is_greedy_mode_on self columns = false) by (unfold _is_greedy_mode_on; by destruct columns as [|x [|? ?]]). by rewrite G.
Qed.

Lemma split_loop (fields columns : list cstr) : Forall plain fields -> last fields <> Some [] -> length fields = length columns ->
  unescaped_loop self columns (csv_join d fields) = Ret (zip columns fields, [], Some []).
Proof.
  revert columns. induction fields as [|f fields IH]; intros columns Hf Hl Hlen; [by destruct columns|]. destruct columns as [|column columns]; [done|].
  inversion Hf as [|? ? Hp Hfs]; subst. injection Hlen as Hlen. destruct fields as [|f' fields].
  - destruct columns; [|done]. cbn [csv_join]. rewrite <- (app_nil_r f), split_field; [|done|by rewrite app_nil_r; intros ->|by left].
    cbn. by rewrite app_nil_r.
  - change (csv_join d (f :: f' :: fields)) with (f ++ d :: csv_join d (f' :: fields)). rewrite split_field; [|done|by destruct f|by right].
    cbn [tail]. rewrite (IH columns Hfs Hl Hlen). done.
Qed.
End split.

(** ** Claims *)

(** The parser ends on every input, never moves its pointer past the end
    of the text, and fills the columns in their order, each once; with the flag
    drop-invalid it succeeds only when every column was filled. *)
Theorem csv_process_total (self : LogCSVParser) (input : cstr) : no_nul input ->
  exists ok values, log_csv_parser_process self input = Ret (ok, values) /\ values.*1 `prefix_of` cp_columns self /\
    (flag (cp_flags self) LOG_CSV_PARSER_DROP_INVALID = true -> ok = true -> values.*1 = cp_columns self).
Proof.
  intros Hn. assert (D : forall r, filled (cp_columns self) r -> let '(values, columns, src) := r in
    values.*1 `prefix_of` cp_columns self /\ (flag (cp_flags self) LOG_CSV_PARSER_DROP_INVALID = true ->
      negb (_should_drop_as_invalid columns src (cp_flags self)) = true -> values.*1 = cp_columns self)).
  { intros [[values columns] src] F. unfold filled in F. split; [by exists columns|]. intros Hf Hok. unfold _should_drop_as_invalid in Hok.
    rewrite Hf in Hok. destruct columns; [by rewrite app_nil_r in F|done]. }
  unfold log_csv_parser_process. destruct (_should_not_escape _).
  - unfold log_csv_parser_process_unescaped. destruct (unescaped_loop_ret self (cp_columns self) input) as ([[values columns] src] & -> & F).
    do 2 eexists. split; [reflexivity|]. by apply (D _ F).
  - destruct (_should_escape _); [|do 2 eexists; split; [reflexivity|]; split; [apply prefix_nil|done]].
    unfold log_csv_parser_process_escaped. destruct (escaped_loop_ret (3 * length input + 3) self (cp_columns self) (_escaped_parser_state_init (cp_columns self) input))
      as ([[values columns] src] & -> & F); [by apply init_ok|unfold measure, lenZ; simpl; lia|].
    do 2 eexists. split; [reflexivity|]. by apply (D _ F).
Qed.

Definition demo_parser (flags : Z) : LogCSVParser :=
  log_csv_parser_set_flags (log_csv_parser_set_delimiters (set_columns log_csv_parser_new [[65]; [66]; [67]]) (bytes_of_string ",;")) flags.

Lemma csv_process_total_witness : no_nul (bytes_of_string "a,b") /\
  exists ok values, log_csv_parser_process (demo_parser 33) (bytes_of_string "a,b") = Ret (ok, values) /\ ok = false.
Proof.
  assert (Hn : no_nul (bytes_of_string "a,b")) by (repeat constructor; done). split; [done|].
  destruct (csv_process_total (demo_parser 33) (bytes_of_string "a,b") Hn) as (ok & values & E & _). exists ok, values. split; [exact E|].
  vm_compute in E. injection E as <- _. reflexivity.
Defined.

(** C18: Values written between quotes, with the quote escaped by a backslash or
    doubled, and separated by a delimiter, are parsed back exactly, whatever
    bytes they hold: one value to each column. *)
Theorem csv_escaped_roundtrip (self : LogCSVParser) (mode : csv_mode) (q d : Z) (values : list cstr) :
  mode_flags mode (cp_flags self) -> flag (cp_flags self) LOG_CSV_PARSER_ESCAPE_NONE = false ->
  flag (cp_flags self) LOG_CSV_PARSER_STRIP_WHITESPACE = false -> flag (cp_flags self) LOG_CSV_PARSER_GREEDY = false ->
  cp_string_delimiters self = [] -> cp_null_value self = None -> get_current_quote self q = q -> q <> 0 -> q <> 92 -> d <> 0 -> d <> q ->
  values <> [] -> Forall no_nul values -> length values = length (cp_columns self) ->
  log_csv_parser_process self (csv_print mode q d values) = Ret (true, zip (cp_columns self) values).
Proof.
  intros Hm Hnone Hs Hg Hsd Hnull Hquote Hq Hq92 Hd Hdq Hne Hn Hlen. rewrite (process_is_escaped self mode) by done. unfold log_csv_parser_process_escaped.
  set (input := csv_print mode q d values).
  assert (Hin : no_nul input) by (by apply (no_nul_print self)).
  destruct (print_loop self mode q d Hm Hs Hg Hsd Hnull Hquote Hq Hq92 Hd Hdq values [] (cp_columns self) 0 Hne Hn Hlen) as [fuel HF]. simpl in HF.
  destruct (escaped_loop_ret (3 * length input + 3) self (cp_columns self) (_escaped_parser_state_init (cp_columns self) input))
    as (r & E & _); [by apply init_ok|unfold measure, lenZ; simpl; lia|].
  change (escaped_loop fuel self (_escaped_parser_state_init (cp_columns self) input) = Ret (zip (cp_columns self) values, [], Some [])) in HF.
  pose proof (escaped_loop_more _ (fuel + (3 * length input + 3)) _ _ _ HF ltac:(lia)) as H1.
  pose proof (escaped_loop_more _ (fuel + (3 * length input + 3)) _ _ _ E ltac:(lia)) as H2. rewrite H1 in H2. injection H2 as <-.
  rewrite E. done.
Qed.

Lemma csv_escaped_roundtrip_witness :
  log_csv_parser_process (demo_parser 2) (csv_print Backslash 34 44 [[97; 34; 44]; []; [92; 98]]) = Ret (true, [([65], [97; 34; 44]); ([66], []); ([67], [92; 98])]).
Proof.
  apply (csv_escaped_roundtrip (demo_parser 2) Backslash 34 44 [[97; 34; 44]; []; [92; 98]]); try reflexivity; try done. repeat constructor; done.
Defined.

(** Without escaping and without quotes the parser cuts the text at the
    delimiters and nowhere else: joined fields come back one to a column. *)
Theorem csv_unescaped_splits (self : LogCSVParser) (d : Z) (fields : list cstr) :
  flag (cp_flags self) LOG_CSV_PARSER_ESCAPE_NONE = true ->
  flag (cp_flags self) LOG_CSV_PARSER_STRIP_WHITESPACE = false -> flag (cp_flags self) LOG_CSV_PARSER_GREEDY = false ->
  cp_string_delimiters self = [] -> cp_null_value self = None -> d ∈ cp_delimiters self -> d <> 0 -> d ∉ cp_quotes_start self ->
  Forall (plain self) fields -> last fields <> Some [] -> length fields = length (cp_columns self) ->
  log_csv_parser_process self (csv_join d fields) = Ret (true, zip (cp_columns self) fields).
Proof.
  intros Hnone Hs Hg Hsd Hnull Hd Hd0 Hdq Hf Hl Hlen. unfold log_csv_parser_process, _should_not_escape. rewrite Hnone. cbn [orb].
  unfold log_csv_parser_process_unescaped. by rewrite (split_loop self d).
Qed.

Lemma csv_unescaped_splits_witness :
  log_csv_parser_process (demo_parser 1) (csv_join 44 [[97; 98]; []; [99]]) = Ret (true, [([65], [97; 98]); ([66], []); ([67], [99])]).
Proof.
  apply (csv_unescaped_splits (demo_parser 1) 44 [[97; 98]; []; [99]]); try reflexivity; try done; vm_compute.
  - left.
  - intros H. repeat (inversion H as [|? ? ? H']; subst; clear H; rename H' into H).
  - repeat constructor; try done; intros H; repeat (inversion H as [|? ? ? H']; subst; clear H; rename H' into H).
Defined.

(** Three defects of the parser.  Without escaping, a value that is a proper
    prefix of the null value is taken for it; of several string delimiters the
    one first in the list wins, although another one comes earlier in the text;
    and with escaping, a value ended by a byte delimiter loses the bytes behind
    it, as many as a string delimiter further on is long, less one. *)
Theorem csv_delimiter_defects :
  log_csv_parser_process (log_csv_parser_set_null_value (demo_parser 1) (Some (bytes_of_string "NULL"))) (bytes_of_string "a,NU,b") =
    Ret (true, [([65], bytes_of_string "a"); ([66], []); ([67], bytes_of_string "b")]) /\
  log_csv_parser_process (log_csv_parser_append_string_delimiter (log_csv_parser_append_string_delimiter (demo_parser 1) (bytes_of_string "--"))
    (bytes_of_string "::")) (bytes_of_string "a--b::c") = Ret (true, [([65], bytes_of_string "a--b"); ([66], bytes_of_string "c")]) /\
  log_csv_parser_process (log_csv_parser_append_string_delimiter (demo_parser 2) (bytes_of_string " - ")) (bytes_of_string "a,bcd - e") =
    Ret (true, [([65], bytes_of_string "a"); ([66], bytes_of_string "d"); ([67], bytes_of_string "e")]).
Proof. vm_compute. done. Qed.
