(* ===== verification/FindEom.v ===== *)
(** * Finding the end of a line (find_eom of modules/basic-proto/basic-proto.c)

    The buffer is searched for the first newline or zero byte, eight bytes at
    a time: a word is looked at more closely when adding the magic bits changes
    a bit behind one of its bytes.  The search is the plain one, wherever the
    buffer starts and whatever the byte order is. *)
From S2P Require Import Prelude.

Definition is_eom (b : Z) : bool := bool_decide (b = 10 \/ b = 0).

Definition magic_bits : Z := 0x7efefefefefefeff.
Definition charmask : Z := 0x0a0a0a0a0a0a0a0a.

Definition not64 (x : Z) : Z := 2 ^ 64 - 1 - x.

(** The word at an aligned address. *)
Fixpoint le_word (bs : bytes) : Z := match bs with [] => 0 | b :: bs => b + 256 * le_word bs end.
Definition load_word (big_endian : bool) (bs : bytes) : Z := le_word (if big_endian then reverse bs else bs).

Definition has_hole (longword : Z) : bool :=
  bool_decide (Z.land (Z.lxor (u64 (longword + magic_bits)) (not64 longword)) (not64 magic_bits) <> 0).
Definition word_test (longword : Z) : bool := has_hole longword || has_hole (Z.lxor longword charmask).

(** The byte loops; the position of the byte found, or of the end. *)
Fixpoint scan (s : bytes) (pos : nat) : option nat :=
  match s with [] => None | b :: s => if is_eom b then Some pos else scan s (S pos) end.

(** Up to an aligned address. *)
Fixpoint align_loop (addr : Z) (s : bytes) (pos : nat) : option nat * bytes * nat :=
  match s with
  | b :: s' =>
      if bool_decide (addr mod 8 <> 0) then
        if is_eom b then (Some pos, s, pos) else align_loop (addr + 1) s' (S pos)
      else (None, s, pos)
  | [] => (None, [], pos)
  end.

(** While more than a word is left. *)
Fixpoint word_loop (big_endian : bool) (s : bytes) (pos : nat) : option nat * bytes * nat :=
  match s with
  | b0 :: b1 :: b2 :: b3 :: b4 :: b5 :: b6 :: b7 :: ((_ :: _) as rest) =>
      let w := [b0; b1; b2; b3; b4; b5; b6; b7] in
      match (if word_test (load_word big_endian w) then scan w pos else None) with
      | Some i => (Some i, s, pos)
      | None => word_loop big_endian rest (8 + pos)
      end
  | _ => (None, s, pos)
  end.

Definition find_eom (big_endian : bool) (addr : Z) (s : bytes) : option nat :=
  match align_loop addr s 0 with
  | (Some i, _, _) => Some i
  | (None, s, pos) =>
      match word_loop big_endian s pos with
      | (Some i, _, _) => Some i
      | (None, s, pos) => scan s pos
      end
  end.

(** ** The word test misses no zero byte *)

Section holes.
#[local] Ltac Zify.zify_post_hook ::= Z.to_euclidean_division_equations.

Definition hole (k : nat) : Z := match k with 7%nat => 63 | _ => 8 * Z.of_nat k + 8 end.

Lemma hole_bit (k : nat) (w : Z) : (k < 8)%nat -> 0 <= w < 2 ^ 64 -> (w / 256 ^ Z.of_nat k) mod 256 = 0 ->
  ((w + magic_bits) mod 2 ^ 64 / 2 ^ hole k) mod 2 = (w / 2 ^ hole k) mod 2.
Proof.
  intros Hk Hw Hz. unfold magic_bits.
  destruct k as [|[|[|[|[|[|[|[|k]]]]]]]]; [..|lia]; simpl Z.of_nat in Hz; unfold hole; simpl Z.of_nat; cbn [Z.mul Z.add Z.pow Z.pow_pos Pos.iter Pos.mul Pos.add] in *; lia.
Qed.
End holes.

Section detect.
#[local] Ltac Zify.zify_post_hook ::= Z.to_euclidean_division_equations.

Lemma not64_bit (x h : Z) : 0 <= x < 2 ^ 64 -> 0 <= h < 64 -> Z.testbit (not64 x) h = negb (Z.testbit x h).
Proof.
  intros Hx Hh. replace (not64 x) with (Z.ldiff (Z.ones 64) x).
  - rewrite Z.ldiff_spec, Z.ones_spec_low by lia. done.
  - unfold not64. rewrite <- (Z.sub_nocarry_ldiff (Z.ones 64) x); [rewrite Z.ones_equiv; lia|].
    apply Z.bits_inj'. intros n Hn. rewrite Z.ldiff_spec, Z.bits_0. destruct (Z.lt_ge_cases n 64) as [Hlt|Hge].
    + rewrite Z.ones_spec_low by lia. by rewrite andb_false_r.
    + rewrite <- (Z.mod_small x (2 ^ 64)) by lia. by rewrite Z.mod_pow2_bits_high by lia.
Qed.

Lemma hole_range (k : nat) : (k < 8)%nat -> 0 <= hole k < 64.
Proof. intros Hk. destruct k as [|[|[|[|[|[|[|[|k]]]]]]]]; simpl; lia. Qed.

Lemma magic_hole (k : nat) : (k < 8)%nat -> Z.testbit (not64 magic_bits) (hole k) = true.
Proof. intros Hk. by destruct k as [|[|[|[|[|[|[|[|k]]]]]]]]; [..|lia]. Qed.

Lemma has_hole_zero (k : nat) (w : Z) : (k < 8)%nat -> 0 <= w < 2 ^ 64 -> (w / 256 ^ Z.of_nat k) mod 256 = 0 -> has_hole w = true.
Proof.
  intros Hk Hw Hz. apply bool_decide_eq_true. intros E. pose proof (hole_range k Hk) as Hh.
  assert (B : Z.testbit (Z.land (Z.lxor (u64 (w + magic_bits)) (not64 w)) (not64 magic_bits)) (hole k) = true); [|by rewrite E, Z.bits_0 in B].
  rewrite Z.land_spec, Z.lxor_spec, (magic_hole k Hk), andb_true_r, not64_bit by lia.
  assert (S : Z.testbit (u64 (w + magic_bits)) (hole k) = Z.testbit w (hole k)).
  { apply Z.b2z_inj. rewrite !Z.testbit_spec' by lia. by apply hole_bit. }
  rewrite S. by destruct (Z.testbit w (hole k)).
Qed.
End detect.

(** ** Bytes of a word *)

Lemma le_word_byte (bs : bytes) (k : nat) (b : Z) : Forall is_byte bs -> bs !! k = Some b -> (le_word bs / 256 ^ Z.of_nat k) mod 256 = b.
Proof.
  intros H. revert k. induction H as [|x bs Hx Hbs IH]; intros k Hk; [done|]. cbn [le_word]. unfold is_byte in Hx. destruct k as [|k]; simpl in Hk.
  - injection Hk as <-. rewrite Z.pow_0_r, Z.div_1_r. replace (x + 256 * le_word bs) with (x + le_word bs * 256) by lia. rewrite Z.mod_add by lia. by apply Z.mod_small.
  - rewrite Nat2Z.inj_succ, Z.pow_succ_r by lia. rewrite <- Z.div_div by (try lia; by apply Z.pow_pos_nonneg; lia).
    replace (x + 256 * le_word bs) with (x + le_word bs * 256) by lia. rewrite Z.div_add by lia. rewrite (Z.div_small x 256) by lia. by apply IH.
Qed.

Lemma le_word_range (bs : bytes) : Forall is_byte bs -> 0 <= le_word bs < 256 ^ lenZ bs.
Proof.
  induction 1 as [|b bs Hb Hbs IH]; [done|]. rewrite lenZ_cons. cbn [le_word]. unfold is_byte in Hb.
  replace (1 + lenZ bs) with (Z.succ (lenZ bs)) by lia. rewrite Z.pow_succ_r by apply lenZ_nonneg. lia.
Qed.

Lemma lxor_byte (a b n : Z) : 0 <= n -> (Z.lxor a b / 2 ^ n) mod 256 = Z.lxor ((a / 2 ^ n) mod 256) ((b / 2 ^ n) mod 256).
Proof.
  intros Hn. change 256 with (2 ^ 8). rewrite <- !Z.shiftr_div_pow2, <- !Z.land_ones, Z.shiftr_lxor by lia.
  apply Z.bits_inj'. intros i Hi. rewrite !Z.land_spec, !Z.lxor_spec, !Z.land_spec. destruct (Z.testbit (Z.ones 8) i), (Z.testbit _ i), (Z.testbit _ i); done.
Qed.

Lemma lxor_range (a b : Z) : 0 <= a < 2 ^ 64 -> 0 <= b < 2 ^ 64 -> 0 <= Z.lxor a b < 2 ^ 64.
Proof.
  intros Ha Hb. split; [apply Z.lxor_nonneg; lia|]. destruct (decide (Z.lxor a b = 0)) as [->|]; [done|].
  apply Z.log2_lt_pow2; [pose proof (proj2 (Z.lxor_nonneg a b)); lia|]. pose proof (Z.log2_lxor a b ltac:(lia) ltac:(lia)).
  assert (L : forall x, 0 <= x < 2 ^ 64 -> Z.log2 x < 64) by (intros x Hx; destruct (decide (x = 0)) as [->|]; [done|apply Z.log2_lt_pow2; lia]).
  pose proof (L a Ha). pose proof (L b Hb). lia.
Qed.

Lemma charmask_byte (k : nat) : (k < 8)%nat -> (charmask / 256 ^ Z.of_nat k) mod 256 = 10.
Proof. intros Hk. by destruct k as [|[|[|[|[|[|[|[|k]]]]]]]]; [..|lia]. Qed.

Lemma word_test_complete (big_endian : bool) (w : bytes) (k : nat) (b : Z) : length w = 8%nat -> Forall is_byte w -> w !! k = Some b -> is_eom b = true ->
  word_test (load_word big_endian w) = true.
Proof.
  intros Hlen Hw Hk Hb. unfold load_word. set (bs := if big_endian then reverse w else w).
  assert (Hbs : Forall is_byte bs /\ length bs = 8%nat /\ exists j, bs !! j = Some b).
  { unfold bs. destruct big_endian; [|split_and!; [done|done|by exists k]]. rewrite length_reverse. split_and!; [by apply Forall_reverse|done|].
    apply list_elem_of_lookup_1, elem_of_reverse. by eapply list_elem_of_lookup_2. }
  destruct Hbs as (Hbs & Hl & j & Hj). assert (Hj8 : (j < 8)%nat) by (rewrite <- Hl; by eapply lookup_lt_Some).
  pose proof (le_word_range bs Hbs) as Hr. unfold lenZ in Hr. rewrite Hl in Hr. change (256 ^ Z.of_nat 8) with (2 ^ 64) in Hr.
  pose proof (le_word_byte bs j b Hbs Hj) as Hbyte. unfold word_test. apply bool_decide_eq_true in Hb as [-> | ->].
  - rewrite (has_hole_zero j (Z.lxor (le_word bs) charmask)); [by rewrite orb_true_r|done|by apply lxor_range|].
    change 256 with (2 ^ 8) at 1. rewrite <- Z.pow_mul_r by lia. rewrite lxor_byte by lia. rewrite Z.pow_mul_r by lia. change (2 ^ 8) with 256.
    by rewrite Hbyte, charmask_byte.
  - by rewrite (has_hole_zero j).
Qed.

(** ** Equivalence with the plain search *)

Definition first_eom (s : bytes) : option nat := scan s 0.

Lemma scan_shift (s : bytes) (p : nat) : scan s p = (Nat.add p) <$> scan s 0.
Proof.
  revert p. induction s as [|b s IH]; intros p; [done|]. cbn [scan]. destruct (is_eom b); [simpl; by rewrite Nat.add_0_r|].
  rewrite (IH (S p)), (IH 1%nat). destruct (scan s 0) as [i|]; [|done]. simpl. f_equal. lia.
Qed.

Lemma scan_app (s t : bytes) (p : nat) : scan (s ++ t) p = match scan s p with Some i => Some i | None => scan t (length s + p) end.
Proof.
  revert p. induction s as [|b s IH]; intros p; [done|]. cbn [app scan length]. destruct (is_eom b); [done|]. rewrite IH.
  destruct (scan s (S p)); [done|]. f_equal. lia.
Qed.

Lemma align_loop_spec (addr : Z) (s : bytes) (p : nat) :
  scan s p = match align_loop addr s p with (Some i, _, _) => Some i | (None, s', p') => scan s' p' end /\
  (Forall is_byte s -> Forall is_byte (snd (fst (align_loop addr s p)))).
Proof.
  revert addr p. induction s as [|b s IH]; intros addr p; [done|]. cbn [align_loop]. case_bool; [|done]. cbn [scan].
  destruct (is_eom b) eqn:E; [done|]. destruct (IH (addr + 1) (S p)) as [I1 I2]. split; [done|]. intros H. inversion H; subst. by apply I2.
Qed.

Lemma word_loop_spec (big_endian : bool) (n : nat) : forall (s : bytes) (p : nat), (length s <= n)%nat -> Forall is_byte s ->
  scan s p = match word_loop big_endian s p with (Some i, _, _) => Some i | (None, s', p') => scan s' p' end.
Proof.
  induction n as [|n IH]; intros s p Hn Hs; [destruct s; [done|simpl in Hn; lia]|].
  destruct s as [|b0 [|b1 [|b2 [|b3 [|b4 [|b5 [|b6 [|b7 [|b8 s]]]]]]]]]; try done. cbn [word_loop].
  set (w := [b0; b1; b2; b3; b4; b5; b6; b7]). change (b0 :: b1 :: b2 :: b3 :: b4 :: b5 :: b6 :: b7 :: b8 :: s) with (w ++ b8 :: s) in *.
  rewrite scan_app. change (length w) with 8%nat. apply Forall_app in Hs as [Hw Hs].
  assert (T : (if word_test (load_word big_endian w) then scan w p else None) = scan w p).
  { destruct (word_test _) eqn:E; [done|]. symmetry. rewrite scan_shift. destruct (scan w 0) as [i|] eqn:Es; [exfalso|done].
    assert (F : forall l q i, scan l q = Some i -> exists k b, l !! k = Some b /\ is_eom b = true).
    { clear. induction l as [|b l IH]; intros q i H; [done|]. cbn [scan] in H. destruct (is_eom b) eqn:Eb; [by exists 0%nat, b|].
      destruct (IH _ _ H) as (k & x & Hk & Hx). by exists (S k), x. }
    destruct (F w _ _ Es) as (k & b & Hk & Hb). by rewrite (word_test_complete big_endian w k b) in E. }
  rewrite T. destruct (scan w p); [done|]. apply IH; [rewrite length_app in Hn; simpl in *; lia|done].
Qed.

Lemma find_eom_first (big_endian : bool) (addr : Z) (s : bytes) : Forall is_byte s -> find_eom big_endian addr s = first_eom s.
Proof.
  intros Hs. unfold find_eom, first_eom. destruct (align_loop_spec addr s 0) as [-> Hb]. specialize (Hb Hs).
  destruct (align_loop addr s 0) as [[[i|] s'] p]; [done|]. rewrite (word_loop_spec big_endian (length s') s' p) by (done || lia).
  by destruct (word_loop big_endian s' p) as [[[i|] s''] p'].
Qed.

(** C19: The word-wise search for the end of a line finds the first newline or
    zero byte, whatever the alignment of the buffer and the byte order of the
    host, and reads only bytes of the buffer. *)
Theorem find_eom_is_first (big_endian : bool) (addr : Z) (s : bytes) : Forall is_byte s -> find_eom big_endian addr s = first_eom s.
Proof. apply find_eom_first. Qed.

Lemma find_eom_is_first_witness :
  let s := bytes_of_string "abcdefghijklmnopqrst" ++ [10] ++ bytes_of_string "uvwxyz012345" in find_eom false 3 s = Some 20%nat.
Proof.
  intros s. rewrite (find_eom_is_first false 3 s); [vm_compute; reflexivity|]. vm_compute. repeat constructor; discriminate.
Defined.
