(* ===== verification/Buffer.v ===== *)
(** * Buffers of fixed size, and the answers of a transport

    Shared by the protocol drivers of modules/basic-proto/basic-proto.c: reads
    and writes inside a block, [memmove] to its front, and what a read or a
    write of the transport can answer. *)
From S2P Require Import Prelude.

(** The bytes [i] to [j] of a block. *)
Definition sub (l : bytes) (i j : Z) : bytes := take (Z.to_nat (j - i)) (drop (Z.to_nat i) l).

(** Storing outside the block is an error that nothing checks. *)
Definition mem_write (l : bytes) (pos : Z) (bs : bytes) : outcome bytes :=
  if bool_decide (0 <= pos /\ pos + lenZ bs <= lenZ l)
  then Ret (take (Z.to_nat pos) l ++ bs ++ drop (Z.to_nat (pos + lenZ bs)) l)
  else Abort.

(** [read(2)] and [write(2)] as the drivers see them. *)
Inductive read_result := RData (bs : bytes) | RAgain | RError | REof.
Inductive write_result := WDone (n : Z) | WAgain | WIntr | WError.

Inductive LogProtoStatus := LPS_SUCCESS | LPS_ERROR | LPS_EOF | LPS_AGAIN | LPS_PARTIAL.

#[global] Instance LogProtoStatus_eq_dec : EqDecision LogProtoStatus.
Proof. solve_decision. Defined.

(** ** Lemmas *)

Lemma sub_length (l : bytes) (i j : Z) : 0 <= i <= j -> j <= lenZ l -> lenZ (sub l i j) = j - i.
Proof. intros Hi Hj. unfold sub, lenZ in *. rewrite length_take, length_drop. lia. Qed.

Lemma sub_nil (l : bytes) (i : Z) : sub l i i = [].
Proof. unfold sub. by rewrite Z.sub_diag. Qed.

Lemma sub_split (l : bytes) (i j k : Z) : 0 <= i <= j -> j <= k -> sub l i k = sub l i j ++ sub l j k.
Proof.
  intros Hi Hj. unfold sub. replace (Z.to_nat (k - i)) with (Z.to_nat (j - i) + Z.to_nat (k - j))%nat by lia. rewrite <- take_take_drop. f_equal. f_equal.
  rewrite drop_drop. f_equal. lia.
Qed.

Lemma sub_all (l : bytes) : sub l 0 (lenZ l) = l.
Proof. unfold sub, lenZ. rewrite Z.sub_0_r, Nat2Z.id. change (Z.to_nat 0) with 0%nat. rewrite drop_0. apply firstn_all. Qed.

Lemma mem_write_ret (l : bytes) (pos : Z) (bs : bytes) : 0 <= pos -> pos + lenZ bs <= lenZ l ->
  exists l', mem_write l pos bs = Ret l' /\ lenZ l' = lenZ l /\ sub l' pos (pos + lenZ bs) = bs /\
    (forall i j, 0 <= i <= j -> j <= pos -> sub l' i j = sub l i j).
Proof.
  intros H0 H1. unfold mem_write. rewrite bool_decide_eq_true_2 by done. eexists. split; [reflexivity|].
  assert (Hlen : length (take (Z.to_nat pos) l) = Z.to_nat pos) by (rewrite length_take; unfold lenZ in H1; lia). pose proof (lenZ_nonneg bs) as Hb.
  split_and!.
  - rewrite !lenZ_app, lenZ_drop. unfold lenZ at 1. rewrite Hlen. lia.
  - unfold sub. rewrite drop_app_ge by lia. rewrite Hlen, Nat.sub_diag, drop_0. replace (pos + lenZ bs - pos) with (lenZ bs) by lia.
    rewrite take_app_le by (unfold lenZ; lia). apply take_ge. unfold lenZ. lia.
  - intros i j Hi Hj. unfold sub. rewrite drop_app_le by lia. rewrite take_app_le by (rewrite length_drop; lia).
    rewrite skipn_firstn_comm, take_take. f_equal. lia.
Qed.

Lemma sub_bytes (l : bytes) (i j : Z) : Forall is_byte l -> Forall is_byte (sub l i j).
Proof. intros H. unfold sub. by apply Forall_take, Forall_drop. Qed.

Lemma mem_write_bytes (l : bytes) (pos : Z) (bs l' : bytes) : mem_write l pos bs = Ret l' -> Forall is_byte l -> Forall is_byte bs -> Forall is_byte l'.
Proof.
  unfold mem_write. destruct (bool_decide _); [|done]. intros E Hl Hbs. assert (E' : take (Z.to_nat pos) l ++ bs ++ drop (Z.to_nat (pos + lenZ bs)) l = l') by congruence.
  rewrite <- E', !Forall_app. split_and!; [by apply Forall_take|done|by apply Forall_drop].
Qed.

Lemma take_sub (l : bytes) (i j : Z) (n : nat) : Z.of_nat n <= j - i -> take n (sub l i j) = sub l i (i + Z.of_nat n).
Proof. intros H. unfold sub. rewrite take_take. f_equal. lia. Qed.
Lemma drop_sub (l : bytes) (i j : Z) (n : nat) : 0 <= i -> drop n (sub l i j) = sub l (i + Z.of_nat n) j.
Proof. intros Hi. unfold sub. rewrite skipn_firstn_comm, drop_drop. f_equal; [lia|]. f_equal. lia. Qed.

(** * Frames: a decimal length, a space, the message

    The format that the framed client writes and the framed server reads. *)

(** A number as [g_snprintf] with [%lu] prints it; twenty digits hold any
    64 bit number. *)
Fixpoint decimal_digits (fuel : nat) (n : Z) : bytes :=
  match fuel with
  | O => []
  | S fuel => if bool_decide (n < 10) then [48 + n] else decimal_digits fuel (n / 10) ++ [48 + n mod 10]
  end.
Definition decimal (n : Z) : bytes := decimal_digits 20 n.

Definition frame (m : bytes) : bytes := decimal (lenZ m) ++ 32 :: m.
Definition stream (msgs : list bytes) : bytes := msgs ≫= frame.

(** The value of a digit string. *)
Definition digits_value (acc : Z) (ds : bytes) : Z := foldl (fun a d => a * 10 + (d - 48)) acc ds.

Lemma decimal_digits_ok (fuel : nat) (n : Z) : 0 <= n < 10 ^ Z.of_nat fuel -> (0 < fuel)%nat ->
  digits_value 0 (decimal_digits fuel n) = n /\ Forall (fun d => 48 <= d <= 57) (decimal_digits fuel n) /\ decimal_digits fuel n <> [] /\
  (forall k : nat, (0 < k)%nat -> n < 10 ^ Z.of_nat k -> (length (decimal_digits fuel n) <= k)%nat).
Proof.
  revert n. induction fuel as [|fuel IH]; intros n Hn Hf; [lia|]. cbn [decimal_digits]. case_bool.
  { split_and!; [unfold digits_value; simpl; lia|repeat constructor; lia|done|intros k Hk _; simpl; lia]. }
  assert (Hd : 0 <= n / 10 < 10 ^ Z.of_nat fuel).
  { rewrite Nat2Z.inj_succ, Z.pow_succ_r in Hn by lia. split; [by apply Z.div_pos; lia|]. apply Z.div_lt_upper_bound; lia. }
  assert (Hf' : (0 < fuel)%nat) by (destruct fuel; [simpl in Hd; pose proof (Z.div_le_lower_bound n 10 1 ltac:(lia)); lia|lia]).
  destruct (IH (n / 10) Hd Hf') as (I1 & I2 & I3 & I4). pose proof (Z.mod_pos_bound n 10 ltac:(lia)) as Hm. pose proof (Z.div_mod n 10 ltac:(lia)) as Hdm. split_and!.
  - unfold digits_value in *. rewrite foldl_app, I1. simpl. lia.
  - apply Forall_app. split; [done|]. repeat constructor; lia.
  - by intros [_ ?]%app_nil.
  - intros k Hk Hnk. rewrite length_app. simpl. destruct k as [|k]; [lia|]. rewrite Nat2Z.inj_succ, Z.pow_succ_r in Hnk by lia.
    assert (Hk' : (0 < k)%nat) by (destruct k; [simpl in Hnk; lia|lia]).
    assert (Hq : n / 10 < 10 ^ Z.of_nat k) by (apply Z.div_lt_upper_bound; lia). pose proof (I4 k Hk' Hq). lia.
Qed.

Lemma decimal_ok (n : Z) : 0 <= n < 10 ^ 10 ->
  digits_value 0 (decimal n) = n /\ Forall (fun d => 48 <= d <= 57) (decimal n) /\ decimal n <> [] /\ (length (decimal n) <= 10)%nat.
Proof.
  intros Hn. destruct (decimal_digits_ok 20 n) as (H1 & H2 & H3 & H4); [split; [lia|]; change (10 ^ Z.of_nat 20) with (10 ^ 10 * 10 ^ 10); lia|lia|].
  split_and!; [done|done|done|apply H4; [lia|]; change (10 ^ Z.of_nat 10) with (10 ^ 10); lia].
Qed.

Lemma stream_app (a b : list bytes) : stream (a ++ b) = stream a ++ stream b.
Proof. apply bind_app. Qed.

Lemma stream_cons (m : bytes) (ms : list bytes) : stream (m :: ms) = decimal (lenZ m) ++ 32 :: m ++ stream ms.
Proof. unfold stream, frame. cbn [mbind list_bind]. by rewrite <- app_assoc. Qed.

(** Prefixes of a concatenation. *)
Lemma prefix_app_cases {A} (u a b : list A) : u `prefix_of` a ++ b -> (exists k, a = u ++ k /\ k <> []) \/ (exists k, u = a ++ k /\ k `prefix_of` b).
Proof.
  revert a. induction u as [|x u IH]; intros a H.
  - destruct a as [|y a]; [right; exists []; split; [done|apply prefix_nil]|left; by exists (y :: a)].
  - destruct a as [|y a]; [right; by exists (x :: u)|]. simpl in H. pose proof (prefix_cons_inv_1 _ _ _ _ H) as ->.
    destruct (IH a (prefix_cons_inv_2 _ _ _ _ H)) as [(k & -> & Hk)|(k & -> & Hk)]; [left; by exists k|right; by exists k].
Qed.
