(* ===== verification/FramedServer.v ===== *)
(** * Octet-counted frames, the receiving side (modules/basic-proto/basic-proto.c)

    A frame is the decimal length of its message, a space, and the message.
    [log_proto_framed_server_fetch] reads from the transport into a buffer, at
    most once, and hands out one message.  The answer of the transport to a read
    of [n] bytes is [rd n]; what was read is returned for the theorems. *)
From S2P Require Import Prelude Buffer.

Inductive framed_server_state := LPFSS_FRAME_READ | LPFSS_MESSAGE_READ.

Definition LPFS_FRAME_BUFFER : Z := 10.

Record LogProtoFramedServer := mkFramedServer {
  fs_state : framed_server_state;
  fs_buffer : bytes;
  fs_buffer_size : Z;
  fs_buffer_pos : Z;
  fs_buffer_end : Z;
  fs_frame_len : Z;
  fs_max_msg_size : Z;
  fs_half_message_in_buffer : bool
}.

Definition log_proto_framed_server_new (max_msg_size : Z) : LogProtoFramedServer :=
  let buffer_size := max_msg_size + LPFS_FRAME_BUFFER in
  mkFramedServer LPFSS_FRAME_READ (replicate (Z.to_nat buffer_size) 0) buffer_size 0 0 0 max_msg_size false.

Definition with_buffer (self : LogProtoFramedServer) (buffer : bytes) (pos end_ : Z) : LogProtoFramedServer :=
  mkFramedServer (fs_state self) buffer (fs_buffer_size self) pos end_ (fs_frame_len self) (fs_max_msg_size self) (fs_half_message_in_buffer self).
Definition with_half (self : LogProtoFramedServer) (half : bool) : LogProtoFramedServer :=
  mkFramedServer (fs_state self) (fs_buffer self) (fs_buffer_size self) (fs_buffer_pos self) (fs_buffer_end self) (fs_frame_len self) (fs_max_msg_size self) half.
Definition with_frame_len (self : LogProtoFramedServer) (n : Z) : LogProtoFramedServer :=
  mkFramedServer (fs_state self) (fs_buffer self) (fs_buffer_size self) (fs_buffer_pos self) (fs_buffer_end self) n (fs_max_msg_size self) (fs_half_message_in_buffer self).
Definition with_fs_state (self : LogProtoFramedServer) (st : framed_server_state) : LogProtoFramedServer :=
  mkFramedServer st (fs_buffer self) (fs_buffer_size self) (fs_buffer_pos self) (fs_buffer_end self) (fs_frame_len self) (fs_max_msg_size self) (fs_half_message_in_buffer self).

(** [prepare]: whether a message can be parsed without reading. *)
Definition log_proto_framed_server_prepare (self : LogProtoFramedServer) : bool :=
  if fs_half_message_in_buffer self then false else bool_decide (fs_buffer_pos self <> fs_buffer_end self).

(** The unread bytes move to the front of the buffer. *)
Definition shift_buffer (self : LogProtoFramedServer) : outcome LogProtoFramedServer :=
  let! buffer := mem_write (fs_buffer self) 0 (sub (fs_buffer self) (fs_buffer_pos self) (fs_buffer_end self)) in
  Ret (with_buffer self buffer 0 (fs_buffer_end self - fs_buffer_pos self)).

Definition log_proto_framed_server_fetch_data (self : LogProtoFramedServer) (may_read : bool) (rd : Z -> read_result) :
    outcome (LogProtoStatus * LogProtoFramedServer * bytes) :=
  let self := if bool_decide (fs_buffer_pos self = fs_buffer_end self) then with_buffer self (fs_buffer self) 0 0 else self in
  let! self := (if bool_decide (fs_buffer_size self = fs_buffer_end self) then shift_buffer self else Ret self) in
  if negb may_read then Ret (LPS_SUCCESS, self, [])
  else
    match rd (fs_buffer_size self - fs_buffer_end self) with
    | RError => Ret (LPS_ERROR, self, [])
    | RAgain => Ret (LPS_SUCCESS, with_half self true, [])
    | REof => Ret (LPS_EOF, self, [])
    | RData bs =>
        let! buffer := mem_write (fs_buffer self) (fs_buffer_end self) bs in
        Ret (LPS_SUCCESS, with_buffer self buffer (fs_buffer_pos self) (fs_buffer_end self + lenZ bs), bs)
    end.

Definition isdigit (b : Z) : bool := bool_decide (48 <= b <= 57).

Inductive header := NeedMore (frame_len : Z) | Header (frame_len hdr_len : Z) | Invalid (frame_len : Z).

(** The loop over the bytes from [buffer_pos] on; [i] is relative to it. *)
Fixpoint extract_loop (bs : bytes) (i frame_len : Z) : header :=
  match bs with
  | [] => NeedMore frame_len
  | b :: bs =>
      if isdigit b && bool_decide (i < 10) then extract_loop bs (i + 1) (frame_len * 10 + (b - 48))
      else if bool_decide (b = 32) then Header frame_len (i + 1)
      else Invalid frame_len
  end.

(** Whether the header is valid, and whether more data is needed. *)
Definition log_proto_framed_server_extract_frame_length (self : LogProtoFramedServer) : bool * bool * LogProtoFramedServer :=
  match extract_loop (sub (fs_buffer self) (fs_buffer_pos self) (fs_buffer_end self)) 0 0 with
  | NeedMore n => (true, true, with_frame_len self n)
  | Header n k => (true, false, with_buffer (with_frame_len self n) (fs_buffer self) (fs_buffer_pos self + k) (fs_buffer_end self))
  | Invalid n => (false, true, with_frame_len self n)
  end.

Abbreviation fetched := (LogProtoStatus * option bytes * LogProtoFramedServer * bytes)%type.

(** The label [read_message], entered with nothing read yet or after a read. *)
Definition take_message (self : LogProtoFramedServer) : option (bytes * LogProtoFramedServer) :=
  if bool_decide (fs_buffer_end self - fs_buffer_pos self >= fs_frame_len self) then
    let msg := sub (fs_buffer self) (fs_buffer_pos self) (fs_buffer_pos self + fs_frame_len self) in
    Some (msg, with_half (with_fs_state (with_buffer self (fs_buffer self) (fs_buffer_pos self + fs_frame_len self) (fs_buffer_end self)) LPFSS_FRAME_READ) false)
  else None.

Definition read_message (self : LogProtoFramedServer) (try_read may_read : bool) (rd : Z -> read_result) : outcome fetched :=
  match take_message self with
  | Some (msg, self) => Ret (LPS_SUCCESS, Some msg, self, [])
  | None =>
      if try_read then
        let! (status, self, got) := log_proto_framed_server_fetch_data self may_read rd in
        match status with
        | LPS_SUCCESS =>
            match take_message self with
            | Some (msg, self) => Ret (LPS_SUCCESS, Some msg, self, got)
            | None => Ret (LPS_SUCCESS, None, self, got)
            end
        | _ => Ret (status, None, self, got)
        end
      else Ret (LPS_SUCCESS, None, self, [])
  end.

(** A header was found: check its length and go on with the message. *)
Definition start_message (self : LogProtoFramedServer) (try_read may_read : bool) (rd : Z -> read_result) : outcome fetched :=
  let self := with_fs_state self LPFSS_MESSAGE_READ in
  if bool_decide (fs_frame_len self > fs_max_msg_size self) then Ret (LPS_ERROR, None, self, [])
  else
    let! self := (if bool_decide (fs_buffer_pos self + fs_frame_len self > fs_buffer_size self) then shift_buffer self else Ret self) in
    read_message self try_read may_read rd.

Definition add_got (got : bytes) (r : fetched) : fetched :=
  let '(status, msg, self, more) := r in (status, msg, self, got ++ more).

Definition log_proto_framed_server_fetch (self : LogProtoFramedServer) (may_read : bool) (rd : Z -> read_result) : outcome fetched :=
  match fs_state self with
  | LPFSS_MESSAGE_READ => read_message self true may_read rd
  | LPFSS_FRAME_READ =>
      match log_proto_framed_server_extract_frame_length self with
      | (false, _, self) => Ret (LPS_ERROR, None, self, [])
      | (true, false, self) => start_message self true may_read rd
      | (true, true, self) =>
          let! (status, self, got) := log_proto_framed_server_fetch_data self may_read rd in
          match status with
          | LPS_SUCCESS =>
              match log_proto_framed_server_extract_frame_length self with
              | (false, _, self) => Ret (LPS_ERROR, None, self, got)
              | (true, false, self) => let! r := start_message self false may_read rd in Ret (add_got got r)
              | (true, true, self) => Ret (LPS_SUCCESS, None, self, got)
              end
          | _ => Ret (status, None, self, got)
          end
      end
  end.

(** Two frames in three pieces. *)
Example framed_demo :
  let fetch self bs := match log_proto_framed_server_fetch self true (fun _ => RData (bytes_of_string bs)) with
                       | Ret (_, msg, self, _) => (msg, self) | Abort => (None, self) end in
  let s0 := log_proto_framed_server_new 32 in
  let '(m1, s1) := fetch s0 "5 he" in
  let '(m2, s2) := fetch s1 "llo3 " in
  let '(m3, s3) := fetch s2 "abc" in
  (m1, m2, m3) = (None, Some (bytes_of_string "hello"), Some (bytes_of_string "abc")).
Proof. by vm_compute. Qed.

(** * The framed server hands out the messages of the stream *)

(** ** The header *)

Lemma extract_digits (ds rest : bytes) : forall i acc, Forall (fun d => 48 <= d <= 57) ds -> i + lenZ ds <= 10 ->
  extract_loop (ds ++ rest) i acc = extract_loop rest (i + lenZ ds) (digits_value acc ds).
Proof.
  induction ds as [|d ds IH]; intros i acc Hd Hi; [by rewrite lenZ_nil, Z.add_0_r|]. inversion Hd as [|? ? H1 H2]; subst. rewrite lenZ_cons in *.
  cbn [app extract_loop]. unfold isdigit. pose proof (lenZ_nonneg ds). rewrite !bool_decide_eq_true_2 by lia. cbn [andb]. rewrite IH by (done || lia).
  f_equal. lia.
Qed.

Lemma extract_header (m rest : bytes) : lenZ m < 10 ^ 10 ->
  extract_loop (decimal (lenZ m) ++ 32 :: rest) 0 0 = Header (lenZ m) (lenZ (decimal (lenZ m)) + 1).
Proof.
  intros Hm. destruct (decimal_ok (lenZ m) ltac:(pose proof (lenZ_nonneg m); lia)) as (V & D & _ & L). rewrite extract_digits; [|done|unfold lenZ at 1; lia].
  rewrite V. cbn [extract_loop]. change (isdigit 32) with false. cbn [andb]. by rewrite bool_decide_eq_true_2.
Qed.

Lemma extract_partial (m u k : bytes) : lenZ m < 10 ^ 10 -> decimal (lenZ m) = u ++ k -> exists n, extract_loop u 0 0 = NeedMore n.
Proof.
  intros Hm E. destruct (decimal_ok (lenZ m) ltac:(pose proof (lenZ_nonneg m); lia)) as (V & D & _ & L). rewrite E in D, L. apply Forall_app in D as [D _].
  rewrite length_app in L. rewrite <- (app_nil_r u), extract_digits; [|done|unfold lenZ at 1; lia]. by eexists.
Qed.

(** ** The buffer *)

Definition unread (self : LogProtoFramedServer) : bytes := sub (fs_buffer self) (fs_buffer_pos self) (fs_buffer_end self).

Record fs_geometry (max : Z) (self : LogProtoFramedServer) : Prop := {
  fg_max : fs_max_msg_size self = max;
  fg_size : fs_buffer_size self = max + 10;
  fg_len : lenZ (fs_buffer self) = fs_buffer_size self;
  fg_pos : 0 <= fs_buffer_pos self <= fs_buffer_end self;
  fg_end : fs_buffer_end self <= fs_buffer_size self
}.

(** What the operations on the buffer leave alone. *)
Record fs_same (self self' : LogProtoFramedServer) : Prop := {
  sm_state : fs_state self' = fs_state self;
  sm_frame : fs_frame_len self' = fs_frame_len self;
  sm_size : fs_buffer_size self' = fs_buffer_size self;
  sm_pos : fs_buffer_pos self' <= fs_buffer_pos self
}.

Lemma unread_length (max : Z) (self : LogProtoFramedServer) : fs_geometry max self -> lenZ (unread self) = fs_buffer_end self - fs_buffer_pos self.
Proof. intros [_ _ H1 H2 H3]. apply sub_length; lia. Qed.

Lemma shift_ok (max : Z) (self : LogProtoFramedServer) : fs_geometry max self ->
  exists self', shift_buffer self = Ret self' /\ fs_geometry max self' /\ fs_same self self' /\ unread self' = unread self /\ fs_buffer_pos self' = 0.
Proof.
  intros G. pose proof (unread_length max self G) as U. destruct G as [G1 G2 G3 G4 G5]. unfold shift_buffer. fold (unread self).
  destruct (mem_write_ret (fs_buffer self) 0 (unread self)) as (l & -> & L1 & L2 & _); [lia|lia|].
  eexists. split; [reflexivity|]. split; [split; cbn; lia|]. split; [split; cbn; (done || lia)|]. split; [|done].
  unfold unread at 1. cbn. by rewrite <- U, <- (Z.add_0_l (lenZ (unread self))).
Qed.

Definition rd_ok (rd : Z -> read_result) (P : bytes -> Prop) : Prop :=
  forall n bs, rd n = RData bs -> 0 < lenZ bs <= n /\ P bs.

Lemma fetch_data_ok (max : Z) (self : LogProtoFramedServer) (may_read : bool) (rd : Z -> read_result) (P : bytes -> Prop) :
  fs_geometry max self -> rd_ok rd P ->
  exists st self' got, log_proto_framed_server_fetch_data self may_read rd = Ret (st, self', got) /\ fs_geometry max self' /\ fs_same self self' /\
    unread self' = unread self ++ got /\ (got = [] \/ P got) /\
    match st with LPS_SUCCESS => True | LPS_ERROR => got = [] /\ (exists n, rd n = RError) | LPS_EOF => got = [] /\ (exists n, rd n = REof) | _ => False end.
Proof.
  intros G Hrd. unfold log_proto_framed_server_fetch_data.
  assert (S1 : exists s1, (if bool_decide (fs_buffer_pos self = fs_buffer_end self) then with_buffer self (fs_buffer self) 0 0 else self) = s1 /\
    fs_geometry max s1 /\ fs_same self s1 /\ unread s1 = unread self).
  { eexists. split; [reflexivity|]. case_bool; [|split_and!; done]. pose proof G as [G1 G2 G3 G4 G5].
    split; [split; cbn; lia|]. split; [split; cbn; (done || lia)|]. unfold unread. cbn. by rewrite Hb, !sub_nil. }
  destruct S1 as (s1 & -> & G1 & [M1 M2 M3 M4] & U1).
  assert (S2 : exists s2, (if bool_decide (fs_buffer_size s1 = fs_buffer_end s1) then shift_buffer s1 else Ret s1) = Ret s2 /\
    fs_geometry max s2 /\ fs_same s1 s2 /\ unread s2 = unread s1).
  { case_bool; [|by exists s1]. destruct (shift_ok max s1 G1) as (s2 & -> & ? & ? & ? & _). by exists s2. }
  destruct S2 as (s2 & -> & G2 & [N1 N2 N3 N4] & U2). cbn [obind].
  assert (M : fs_same self s2) by (split; (congruence || lia)). assert (U : unread s2 = unread self) by congruence.
  destruct may_read; cbn [negb]; [|do 3 eexists; split; [reflexivity|]; rewrite app_nil_r; split_and!; (done || by left)].
  destruct (rd (fs_buffer_size s2 - fs_buffer_end s2)) as [bs| | |] eqn:E.
  - destruct (Hrd _ _ E) as [Hn HP]. pose proof G2 as [K1 K2 K3 K4 K5].
    destruct (mem_write_ret (fs_buffer s2) (fs_buffer_end s2) bs) as (l & -> & L1 & L2 & L3); [lia|lia|]. cbn [obind].
    do 3 eexists. split; [reflexivity|]. split; [split; cbn; lia|]. split; [destruct M; split; cbn; done|]. split; [|split; [by right|done]].
    rewrite <- U. unfold unread. cbn. rewrite (sub_split l (fs_buffer_pos s2) (fs_buffer_end s2)) by lia. by rewrite L2, L3 by lia.
  - do 3 eexists. split; [reflexivity|]. rewrite app_nil_r. pose proof G2 as [K1 K2 K3 K4 K5].
    split; [split; cbn; lia|]. split; [destruct M; split; cbn; done|]. split_and!; [done|by left|done].
  - do 3 eexists. split; [reflexivity|]. rewrite app_nil_r. split_and!; try done; [by left|by eexists].
  - do 3 eexists. split; [reflexivity|]. rewrite app_nil_r. split_and!; try done; [by left|by eexists].
Qed.

(** ** The messages still to come *)

Section run.
Context (max : Z) (msgs : list bytes).
Context (Hmax : 0 <= max < 10 ^ 10) (Hmsgs : Forall (fun m => lenZ m <= max) msgs).

Record fs_ok (self : LogProtoFramedServer) (emitted : list bytes) (delivered : bytes) : Prop := {
  fo_geometry : fs_geometry max self;
  fo_prefix : delivered `prefix_of` stream msgs;
  fo_state : match fs_state self with
    | LPFSS_FRAME_READ => (exists todo, msgs = emitted ++ todo) /\ delivered = stream emitted ++ unread self
    | LPFSS_MESSAGE_READ => exists m todo, msgs = emitted ++ m :: todo /\ fs_frame_len self = lenZ m /\
        delivered = stream emitted ++ decimal (lenZ m) ++ 32 :: unread self /\ fs_buffer_pos self + fs_frame_len self <= fs_buffer_size self
    end
}.

Lemma msg_short (a b : list bytes) (m : bytes) : msgs = a ++ m :: b -> lenZ m <= max.
Proof. intros E. rewrite E in Hmsgs. apply Forall_app in Hmsgs as [_ H]. by inversion H. Qed.

(** The header, when a message is still to come. *)
Lemma extract_ok (self : LogProtoFramedServer) (emitted : list bytes) (delivered : bytes) : fs_ok self emitted delivered -> fs_state self = LPFSS_FRAME_READ ->
  (exists n, extract_loop (unread self) 0 0 = NeedMore n /\ (forall m todo, msgs = emitted ++ m :: todo -> ~ stream (emitted ++ [m]) `prefix_of` delivered)) \/
  (exists m todo rest, msgs = emitted ++ m :: todo /\ unread self = decimal (lenZ m) ++ 32 :: rest /\
     extract_loop (unread self) 0 0 = Header (lenZ m) (lenZ (decimal (lenZ m)) + 1)).
Proof.
  intros [G P S] St. rewrite St in S. destruct S as [[todo E] D]. destruct todo as [|m todo].
  { left. assert (N : unread self = []).
    { rewrite app_nil_r in E. rewrite D, E in P. apply prefix_length in P. rewrite length_app in P. apply length_zero_iff_nil. lia. }
    rewrite N. exists 0. split; [done|]. intros m todo E'. exfalso. rewrite E in E'. apply app_inv_head in E'. done. }
  assert (Hm : lenZ m < 10 ^ 10) by (pose proof (msg_short _ _ _ E); lia).
  assert (Q : unread self `prefix_of` decimal (lenZ m) ++ 32 :: m ++ stream todo).
  { rewrite D, E, stream_app, stream_cons in P. by eapply prefix_app_inv. }
  destruct (prefix_app_cases _ _ _ Q) as [(k & Hk & _)|(k & Hk & Hp)].
  - left. destruct (extract_partial m _ k Hm Hk) as [n Hn]. exists n. split; [done|]. intros m' todo' E' Hpre. rewrite E in E'. apply app_inv_head in E'. injection E' as <- <-.
    rewrite D, stream_app in Hpre. apply prefix_app_inv in Hpre. rewrite stream_cons in Hpre. apply prefix_length in Hpre.
    assert (Hl : length (decimal (lenZ m)) = length (unread self ++ k)) by (by rewrite Hk). rewrite !length_app in *. simpl in Hpre. lia.
  - destruct k as [|c k].
    { left. rewrite app_nil_r in Hk. destruct (extract_partial m (unread self) [] Hm) as [n Hn]; [by rewrite app_nil_r|]. exists n. split; [done|].
      intros m' todo' E' Hpre. rewrite E in E'. apply app_inv_head in E'. injection E' as <- <-. rewrite D, stream_app in Hpre. apply prefix_app_inv in Hpre.
      rewrite stream_cons, Hk in Hpre. apply prefix_length in Hpre. rewrite !length_app in Hpre. simpl in Hpre. lia. }
    right. pose proof (prefix_cons_inv_1 _ _ _ _ Hp) as ->. exists m, todo, k. split; [done|]. split; [done|]. rewrite Hk. by apply extract_header.
Qed.

(** Data that arrived extends what is unread. *)
Lemma data_ok (self self' : LogProtoFramedServer) (emitted : list bytes) (delivered got : bytes) : fs_ok self emitted delivered ->
  fs_geometry max self' -> fs_same self self' -> unread self' = unread self ++ got -> got = [] \/ (delivered ++ got) `prefix_of` stream msgs ->
  fs_ok self' emitted (delivered ++ got).
Proof.
  intros [G P S] G' [M1 M2 M3 M4] U HP. split; [done|destruct HP as [->|]; [by rewrite app_nil_r|done]|]. rewrite M1. destruct (fs_state self).
  - destruct S as [T ->]. split; [done|]. by rewrite U, app_assoc.
  - destruct S as (m & todo & E & F & -> & B). exists m, todo. split_and!; [done|congruence| |lia]. rewrite U. by rewrite <- !app_assoc, <- app_comm_cons.
Qed.

Lemma take_message_ok (self : LogProtoFramedServer) (emitted : list bytes) (delivered : bytes) : fs_ok self emitted delivered -> fs_state self = LPFSS_MESSAGE_READ ->
  match take_message self with
  | Some (m', self') => fs_ok self' (emitted ++ [m']) delivered /\ (forall m todo, msgs = emitted ++ m :: todo -> m' = m)
  | None => forall m todo, msgs = emitted ++ m :: todo -> ~ stream (emitted ++ [m]) `prefix_of` delivered
  end.
Proof.
  intros [G P S] St. rewrite St in S. destruct S as (m & todo & E & F & D & B). pose proof (unread_length max self G) as U. pose proof (lenZ_nonneg m) as Hm.
  unfold take_message. case_bool.
  - set (self' := with_half _ _). pose proof G as [G1 G2 G3 G4 G5].
    assert (Hs : unread self = sub (fs_buffer self) (fs_buffer_pos self) (fs_buffer_pos self + fs_frame_len self) ++ unread self').
    { unfold unread, self'. cbn. apply sub_split; lia. }
    assert (Hm' : sub (fs_buffer self) (fs_buffer_pos self) (fs_buffer_pos self + fs_frame_len self) = m).
    { rewrite D, E, stream_app, stream_cons in P. apply prefix_app_inv in P. apply prefix_app_inv in P. apply prefix_cons_inv_2 in P. rewrite Hs in P.
      assert (L : lenZ (sub (fs_buffer self) (fs_buffer_pos self) (fs_buffer_pos self + fs_frame_len self)) = lenZ m) by (rewrite sub_length; lia).
      destruct P as [k P]. rewrite <- !app_assoc in P. apply app_inj_1 in P; [by destruct P|]. unfold lenZ in L. lia. }
    rewrite Hm' in *. split; [|intros m0 todo0 E0; rewrite E in E0; apply app_inv_head in E0; by injection E0].
    split; [split; cbn; lia|done|]. cbn. split; [exists todo; by rewrite <- app_assoc|]. rewrite D, Hs, stream_app, stream_cons. change (stream []) with (@nil Z). rewrite app_nil_r. by rewrite <- !app_assoc.
  - intros m0 todo0 E0 Hpre. rewrite E in E0. apply app_inv_head in E0. injection E0 as <- <-. rewrite D, stream_app, stream_cons in Hpre.
    apply prefix_app_inv in Hpre. apply prefix_app_inv in Hpre. apply prefix_cons_inv_2 in Hpre. apply prefix_length in Hpre. rewrite length_app in Hpre. unfold lenZ in *. lia.
Qed.

Definition fetch_good (rd : Z -> read_result) (emitted : list bytes) (delivered : bytes) (r : fetched) : Prop :=
  let '(st, msg, self', got) := r in
  fs_ok self' (emitted ++ option_list msg) (delivered ++ got) /\
  match st with LPS_SUCCESS => True | LPS_ERROR => msg = None /\ (exists n, rd n = RError) | LPS_EOF => msg = None /\ (exists n, rd n = REof) | _ => False end /\
  (forall m todo, msgs = emitted ++ m :: todo -> (forall m', msg = Some m' -> m' = m) /\ (stream (emitted ++ [m]) `prefix_of` delivered -> msg = Some m)).

Lemma read_message_ok (self : LogProtoFramedServer) (try_read may_read : bool) (rd : Z -> read_result) (emitted : list bytes) (delivered : bytes) :
  fs_ok self emitted delivered -> fs_state self = LPFSS_MESSAGE_READ -> rd_ok rd (fun bs => (delivered ++ bs) `prefix_of` stream msgs) ->
  exists r, read_message self try_read may_read rd = Ret r /\ fetch_good rd emitted delivered r.
Proof.
  intros O St Hrd. unfold read_message. pose proof (take_message_ok self emitted delivered O St) as T. destruct (take_message self) as [[m' self']|].
  { destruct T as [T1 T2]. eexists. split; [reflexivity|]. unfold fetch_good. rewrite app_nil_r. split; [done|]. split; [done|].
    intros m todo E. rewrite (T2 m todo E). split; [congruence|done]. }
  destruct try_read.
  2: { eexists. split; [reflexivity|]. unfold fetch_good. cbn [option_list]. rewrite !app_nil_r. split; [done|]. split; [done|]. intros m todo E. split; [done|]. intros H. by destruct (T m todo E). }
  destruct (fetch_data_ok max self may_read rd _ (fo_geometry _ _ _ O) Hrd) as (st & s1 & got & -> & G & M & U & HP & R). cbn [obind].
  pose proof (data_ok self s1 emitted delivered got O G M U HP) as O1. destruct st; try done.
  - pose proof (take_message_ok s1 emitted (delivered ++ got) O1 ltac:(destruct M; congruence)) as T'. destruct (take_message s1) as [[m' self']|].
    + destruct T' as [T1 T2]. eexists. split; [reflexivity|]. split; [done|]. split; [done|]. intros m todo E. rewrite (T2 m todo E). split; [congruence|done].
    + eexists. split; [reflexivity|]. unfold fetch_good. cbn [option_list]. rewrite !app_nil_r. split; [done|]. split; [done|]. intros m todo E. split; [done|]. intros H. by destruct (T m todo E).
  - eexists. split; [reflexivity|]. unfold fetch_good. cbn [option_list]. rewrite !app_nil_r. split; [done|]. split; [split; [done|apply R]|]. intros m todo E. split; [done|]. intros H. by destruct (T m todo E).
  - eexists. split; [reflexivity|]. unfold fetch_good. cbn [option_list]. rewrite !app_nil_r. split; [done|]. split; [split; [done|apply R]|]. intros m todo E. split; [done|]. intros H. by destruct (T m todo E).
Qed.

Lemma start_message_ok (self s1 : LogProtoFramedServer) (try_read may_read : bool) (rd : Z -> read_result) (emitted : list bytes) (delivered m rest : bytes) (todo : list bytes) :
  fs_ok self emitted delivered -> fs_state self = LPFSS_FRAME_READ -> msgs = emitted ++ m :: todo -> unread self = decimal (lenZ m) ++ 32 :: rest ->
  s1 = with_buffer (with_frame_len self (lenZ m)) (fs_buffer self) (fs_buffer_pos self + (lenZ (decimal (lenZ m)) + 1)) (fs_buffer_end self) ->
  rd_ok rd (fun bs => (delivered ++ bs) `prefix_of` stream msgs) ->
  exists r, start_message s1 try_read may_read rd = Ret r /\ fetch_good rd emitted delivered r.
Proof.
  intros [G P S] St E U -> Hrd. rewrite St in S. destruct S as [_ D]. set (k := lenZ (decimal (lenZ m)) + 1) in *. pose proof (msg_short _ _ _ E) as Hm.
  pose proof (unread_length max self G) as UL. assert (Hk : 1 <= k <= lenZ (unread self)).
  { rewrite U, lenZ_app, lenZ_cons. unfold k. pose proof (lenZ_nonneg (decimal (lenZ m))). pose proof (lenZ_nonneg rest). lia. }
  pose proof G as [G1 G2 G3 G4 G5]. unfold start_message. set (s2 := with_fs_state _ _).
  assert (O2 : fs_geometry max s2) by (split; cbn; lia).
  assert (U2 : unread s2 = rest).
  { assert (X : unread self = sub (fs_buffer self) (fs_buffer_pos self) (fs_buffer_pos self + k) ++ unread s2) by (unfold unread, s2; cbn; apply sub_split; lia).
    rewrite U in X. change (32 :: rest) with ([32] ++ rest) in X. rewrite app_assoc in X. symmetry in X. apply app_inj_1 in X; [by destruct X|].
    assert (L : lenZ (sub (fs_buffer self) (fs_buffer_pos self) (fs_buffer_pos self + k)) = k) by (rewrite sub_length; lia). rewrite length_app. cbn [length].
    assert (L2 : lenZ (decimal (lenZ m)) = Z.of_nat (length (decimal (lenZ m)))) by done. unfold k in L at 2. rewrite L2 in L. unfold lenZ at 1 in L. lia. }
  rewrite bool_decide_eq_false_2 by (cbn; lia).
  assert (S3 : exists s3, (if bool_decide (fs_buffer_pos s2 + fs_frame_len s2 > fs_buffer_size s2) then shift_buffer s2 else Ret s2) = Ret s3 /\
    fs_geometry max s3 /\ fs_same s2 s3 /\ unread s3 = rest /\ fs_buffer_pos s3 + fs_frame_len s3 <= fs_buffer_size s3).
  { case_bool; [|exists s2; split_and!; (done || lia)]. destruct (shift_ok max s2 O2) as (s3 & -> & G' & M & U' & Z0). exists s3. pose proof M as [M1 M2 M3 M4].
    split_and!; [done|done|done|congruence|]. rewrite Z0, M2, M3. cbn. lia. }
  destruct S3 as (s3 & -> & G' & [M1 M2 M3 M4] & U3 & B). cbn [obind]. apply read_message_ok; [|by rewrite M1|done].
  split; [done|done|]. rewrite M1. cbn. exists m, todo. split_and!; [done|by rewrite M2| |done]. by rewrite D, U, U3.
Qed.

Theorem framed_fetch_ok (self : LogProtoFramedServer) (may_read : bool) (rd : Z -> read_result) (emitted : list bytes) (delivered : bytes) :
  fs_ok self emitted delivered -> rd_ok rd (fun bs => (delivered ++ bs) `prefix_of` stream msgs) ->
  exists r, log_proto_framed_server_fetch self may_read rd = Ret r /\ fetch_good rd emitted delivered r.
Proof.
  intros O Hrd. unfold log_proto_framed_server_fetch. destruct (fs_state self) eqn:St; [|by apply read_message_ok].
  assert (N : forall s n d, fs_ok s emitted d -> fs_ok (with_frame_len s n) emitted d \/ fs_state s = LPFSS_MESSAGE_READ).
  { intros s n d [G P S]. destruct (fs_state s) eqn:Ss; [left|by right]. split; [destruct G; by split|done|]. cbn. rewrite Ss. exact S. }
  unfold log_proto_framed_server_extract_frame_length at 1. fold (unread self).
  destruct (extract_ok self emitted delivered O St) as [(n & -> & Hno)|(m & todo & rest & E & U & ->)]; [|by eapply start_message_ok].
  assert (O1 : fs_ok (with_frame_len self n) emitted delivered) by (destruct (N self n _ O); [done|congruence]).
  destruct (fetch_data_ok max _ may_read rd _ (fo_geometry _ _ _ O1) Hrd) as (st & s1 & got & -> & G & M & U & HP & R). cbn [obind].
  pose proof (data_ok _ s1 emitted delivered got O1 G M U HP) as O2. assert (St1 : fs_state s1 = LPFSS_FRAME_READ) by (destruct M; cbn in *; congruence).
  destruct st; try done.
  - unfold log_proto_framed_server_extract_frame_length. fold (unread s1).
    destruct (extract_ok s1 emitted (delivered ++ got) O2 St1) as [(n' & -> & _)|(m & todo & rest & E & U1 & ->)].
    + eexists. split; [reflexivity|]. unfold fetch_good. cbn [option_list]. rewrite !app_nil_r. split; [by destruct (N s1 n' _ O2); [done|congruence]|]. split; [done|].
      intros m todo E. split; [done|]. intros H. by destruct (Hno m todo E).
    + destruct (start_message_ok s1 _ false may_read (fun _ => RAgain) emitted (delivered ++ got) m rest todo O2 St1 E U1 eq_refl ltac:(done)) as (r & Er & Hr).
      assert (Er' : forall s rd', start_message s false may_read rd' = start_message s false may_read (fun _ => RAgain)) by done.
      rewrite Er', Er. cbn [obind]. eexists. split; [reflexivity|]. destruct r as [[[st msg] s2] more]. destruct Hr as (H1 & H2 & H3). unfold fetch_good, add_got.
      rewrite app_assoc. split; [done|]. split; [destruct st; try done; by destruct H2 as [_ [? ?]]|].
      intros m0 todo0 E0. destruct (H3 m0 todo0 E0) as [H4 H5]. split; [done|]. intros H. by destruct (Hno m0 todo0 E0).
  - eexists. split; [reflexivity|]. unfold fetch_good. cbn [option_list]. rewrite !app_nil_r. split; [done|]. split; [split; [done|apply R]|]. intros m todo E. split; [done|]. intros H. by destruct (Hno m todo E).
  - eexists. split; [reflexivity|]. unfold fetch_good. cbn [option_list]. rewrite !app_nil_r. split; [done|]. split; [split; [done|apply R]|]. intros m todo E. split; [done|]. intros H. by destruct (Hno m todo E).
Qed.

(** Runs of the server on a transport that carries the frames of [msgs]. *)
Inductive fs_run : LogProtoFramedServer -> list bytes -> bytes -> Prop :=
| fr_new : fs_run (log_proto_framed_server_new max) [] []
| fr_fetch self emitted delivered may_read rd st msg self' got : fs_run self emitted delivered ->
    rd_ok rd (fun bs => (delivered ++ bs) `prefix_of` stream msgs) ->
    log_proto_framed_server_fetch self may_read rd = Ret (st, msg, self', got) -> fs_run self' (emitted ++ option_list msg) (delivered ++ got).

Lemma run_ok (self : LogProtoFramedServer) (emitted : list bytes) (delivered : bytes) : fs_run self emitted delivered -> fs_ok self emitted delivered.
Proof.
  induction 1 as [|self emitted delivered may_read rd st msg self' got _ IH Hrd E].
  - split; [split; cbn -[replicate Z.add]; try done; try lia; unfold lenZ, LPFS_FRAME_BUFFER; rewrite ?length_replicate; lia|apply prefix_nil|].
    cbn -[replicate Z.add]. split; [by exists msgs|]. unfold unread. by rewrite sub_nil.
  - destruct (framed_fetch_ok self may_read rd emitted delivered IH Hrd) as (r & E' & H). rewrite E in E'. injection E' as <-. by destruct H.
Qed.
End run.

Lemma server_delivers (max : Z) (msgs : list bytes) (self : LogProtoFramedServer) (emitted : list bytes) (delivered : bytes) (may_read : bool) (rd : Z -> read_result) :
  0 <= max < 10 ^ 10 -> Forall (fun m => lenZ m <= max) msgs -> fs_run max msgs self emitted delivered ->
  rd_ok rd (fun bs => (delivered ++ bs) `prefix_of` stream msgs) ->
  exists st msg self' got, log_proto_framed_server_fetch self may_read rd = Ret (st, msg, self', got) /\
    (emitted ++ option_list msg) `prefix_of` msgs /\
    match st with LPS_SUCCESS => True | LPS_ERROR => exists n, rd n = RError | LPS_EOF => exists n, rd n = REof | _ => False end /\
    (forall m, (emitted ++ [m]) `prefix_of` msgs -> stream (emitted ++ [m]) `prefix_of` delivered -> msg = Some m).
Proof.
  intros Hmax Hmsgs Hr Hrd. destruct (framed_fetch_ok max msgs Hmax Hmsgs self may_read rd emitted delivered) as ([[[st msg] self'] got] & E & H1 & H2 & H3);
    [by apply run_ok|done|]. exists st, msg, self', got. split; [done|]. split; [|split].
  - destruct H1 as [_ _ S]. destruct (fs_state self'); [destruct S as [[todo ->] _]; by eexists|destruct S as (m & todo & -> & _); by eexists].
  - destruct st; tauto.
  - intros m [todo Em] Hp. rewrite <- app_assoc in Em. by apply (H3 m todo Em).
Qed.

(** C20: The framed server hands out the messages of the stream.  However the
    transport cuts the frames into pieces and whenever it has no data, every
    fetch returns, stays inside the buffer, fails only if the transport fails,
    and hands out either nothing or the next message, whole; a message whose
    frame has arrived is handed out by the next fetch, without reading. *)
Theorem framed_server_delivers (max : Z) (msgs : list bytes) (self : LogProtoFramedServer) (emitted : list bytes) (delivered : bytes) (may_read : bool) (rd : Z -> read_result) :
  0 <= max < 10 ^ 10 -> Forall (fun m => lenZ m <= max) msgs -> fs_run max msgs self emitted delivered ->
  rd_ok rd (fun bs => (delivered ++ bs) `prefix_of` stream msgs) ->
  exists st msg self' got, log_proto_framed_server_fetch self may_read rd = Ret (st, msg, self', got) /\
    (emitted ++ option_list msg) `prefix_of` msgs /\
    match st with LPS_SUCCESS => True | LPS_ERROR => exists n, rd n = RError | LPS_EOF => exists n, rd n = REof | _ => False end /\
    (forall m, (emitted ++ [m]) `prefix_of` msgs -> stream (emitted ++ [m]) `prefix_of` delivered -> msg = Some m).
Proof. apply server_delivers. Qed.

Lemma framed_server_delivers_witness : let msgs := [bytes_of_string "hello"; bytes_of_string "abc"] in
  exists st msg self' got, log_proto_framed_server_fetch (log_proto_framed_server_new 32) true (fun _ => RData (bytes_of_string "5 he")) = Ret (st, msg, self', got) /\ msg = None.
Proof.
  intros msgs.
  destruct (framed_server_delivers 32 msgs (log_proto_framed_server_new 32) [] [] true (fun n => if bool_decide (4 <= n) then RData (bytes_of_string "5 he") else RAgain))
    as (st & msg & self' & got & E & _).
  - done.
  - repeat constructor; done.
  - constructor.
  - intros n bs. case_bool; [|done]. intros [= <-]. split; [split; [done|exact Hb]|]. exists (bytes_of_string "llo3 abc"). reflexivity.
  - exists st, msg, self', got. vm_compute in E. injection E as <- <- <- <-. split; vm_compute; reflexivity.
Defined.
