(* ===== verification/ProtoClient.v ===== *)
(** * Writing messages to a stream (modules/basic-proto/basic-proto.c)

    The text client writes messages as they are, the framed client puts the
    length before each; both keep the rest of a message that the transport did
    not take.  The transport answers each write with the number of bytes it
    took or with an error; its answers are a list, used up from the front, and
    what it took is kept.  Acknowledgements are counted. *)
From S2P Require Import Prelude Buffer FramedServer.

Record LogTransport := mkTransport {
  tr_answers : list write_result;
  tr_wire : bytes
}.

(** The number taken is never more than was offered; without an answer left
    the transport would block. *)
Definition log_transport_write (t : LogTransport) (buf : bytes) : write_result * LogTransport :=
  match tr_answers t with
  | [] => (WAgain, t)
  | WDone n :: l => let n := Z.max 0 (Z.min n (lenZ buf)) in (WDone n, mkTransport l (tr_wire t ++ take (Z.to_nat n) buf))
  | r :: l => (r, mkTransport l (tr_wire t))
  end.

Record LogProtoTextClient := mkTextClient {
  tc_transport : LogTransport;
  tc_partial : option bytes;
  tc_partial_len : Z;
  tc_partial_pos : Z;
  tc_keep_one_message : bool;
  tc_pending_ack_count : Z;
  tc_acked : Z
}.

Definition log_proto_text_client_new (t : LogTransport) (keep_one_message : bool) : LogProtoTextClient := mkTextClient t None 0 0 keep_one_message 0 0.

Definition with_transport (self : LogProtoTextClient) (t : LogTransport) : LogProtoTextClient :=
  mkTextClient t (tc_partial self) (tc_partial_len self) (tc_partial_pos self) (tc_keep_one_message self) (tc_pending_ack_count self) (tc_acked self).
Definition with_partial (self : LogProtoTextClient) (p : option bytes) (len pos : Z) : LogProtoTextClient :=
  mkTextClient (tc_transport self) p len pos (tc_keep_one_message self) (tc_pending_ack_count self) (tc_acked self).
Definition with_acks (self : LogProtoTextClient) (pending acked : Z) : LogProtoTextClient :=
  mkTextClient (tc_transport self) (tc_partial self) (tc_partial_len self) (tc_partial_pos self) (tc_keep_one_message self) pending acked.

Definition log_proto_text_client_do_pending_acks (self : LogProtoTextClient) : LogProtoTextClient :=
  if bool_decide (tc_pending_ack_count self > 0) then with_acks self 0 (tc_acked self + tc_pending_ack_count self) else self.

Definition log_proto_text_client_do_ack (self : LogProtoTextClient) : LogProtoTextClient :=
  if tc_keep_one_message self && bool_decide (tc_pending_ack_count self < 1)
  then with_acks self (tc_pending_ack_count self + 1) (tc_acked self)
  else with_acks self (tc_pending_ack_count self) (tc_acked self + 1).

Definition log_proto_text_client_flush_buffer (self : LogProtoTextClient) : LogProtoStatus * LogProtoTextClient :=
  match tc_partial self with
  | None => (LPS_SUCCESS, self)
  | Some partial =>
      let len := tc_partial_len self - tc_partial_pos self in
      let '(rc, t) := log_transport_write (tc_transport self) (sub partial (tc_partial_pos self) (tc_partial_len self)) in
      let self := with_transport self t in
      match rc with
      | WError => (LPS_ERROR, self)
      | WAgain | WIntr => (LPS_SUCCESS, self)
      | WDone n =>
          if bool_decide (n <> len) then (LPS_PARTIAL, with_partial self (Some partial) (tc_partial_len self) (tc_partial_pos self + n))
          else (LPS_SUCCESS, with_partial self None (tc_partial_len self) (tc_partial_pos self))
      end
  end.

Definition log_proto_text_client_flush (self : LogProtoTextClient) : LogProtoStatus * LogProtoTextClient :=
  let '(status, self) := log_proto_text_client_flush_buffer self in
  if bool_decide (status = LPS_ERROR) then (LPS_ERROR, self)
  else
    match tc_partial self with
    | None => (LPS_SUCCESS, log_proto_text_client_do_pending_acks self)
    | Some _ => (LPS_AGAIN, self)
    end.

(** The partial buffer is empty: the message is written, and what the transport
    did not take is kept. *)
Definition write_new_message (self : LogProtoTextClient) (msg : bytes) : LogProtoStatus * bool * LogProtoTextClient :=
  let '(rc, t) := log_transport_write (tc_transport self) msg in
  let self := with_transport self t in
  let keep n := with_partial self (Some msg) (lenZ msg) n in
  match rc with
  | WError => (LPS_ERROR, false, self)
  | WAgain | WIntr => (LPS_SUCCESS, true, log_proto_text_client_do_ack (keep 0))
  | WDone n => if bool_decide (n <> lenZ msg) then (LPS_SUCCESS, true, log_proto_text_client_do_ack (keep n))
               else (LPS_SUCCESS, true, log_proto_text_client_do_ack self)
  end.

(** The status, whether the message was consumed, and whether the framed client
    has to start with a new header. *)
Definition log_proto_client_post_writer (self : LogProtoTextClient) (msg : bytes) (syslog_proto : bool) : LogProtoStatus * bool * bool * LogProtoTextClient :=
  let '(status, self) := log_proto_text_client_flush_buffer self in
  if bool_decide (status = LPS_ERROR) then (LPS_ERROR, false, false, self)
  else if (if tc_partial self is Some _ then true else false) || bool_decide (status = LPS_PARTIAL) then (LPS_PARTIAL, false, false, self)
  else if bool_decide (tc_partial_len self <> 0) && syslog_proto then (status, false, true, with_partial self None 0 0)
  else let '(status, consumed, self) := write_new_message self msg in (status, consumed, false, self).

Definition log_proto_text_client_post (self : LogProtoTextClient) (msg : bytes) : LogProtoStatus * bool * LogProtoTextClient :=
  let '(status, consumed, _, self) := log_proto_client_post_writer self msg false in (status, consumed, self).

Definition log_proto_text_client_free (self : LogProtoTextClient) : LogProtoTextClient :=
  match tc_partial self with None => log_proto_text_client_do_pending_acks self | Some _ => self end.

(** ** Frames *)

Inductive framed_client_state := LPFCS_FRAME_INIT | LPFCS_FRAME_SEND | LPFCS_MESSAGE_SEND.

Record LogProtoFramedClient := mkFramedClient {
  fc_super : LogProtoTextClient;
  fc_state : framed_client_state;
  fc_frame_hdr_buf : bytes;
  fc_frame_hdr_pos : Z
}.

Definition log_proto_framed_client_new (t : LogTransport) (keep_one_message : bool) : LogProtoFramedClient :=
  mkFramedClient (log_proto_text_client_new t keep_one_message) LPFCS_FRAME_INIT [] 0.

Definition log_proto_framed_client_post_writer (self : LogProtoTextClient) (msg : bytes) : LogProtoStatus * bool * bool * LogProtoTextClient :=
  log_proto_client_post_writer self msg true.

(** The case [LPFCS_MESSAGE_SEND]. *)
Definition send_message (self : LogProtoFramedClient) (msg : bytes) : LogProtoStatus * bool * LogProtoFramedClient :=
  let '(rc, consumed, restart, super) := log_proto_framed_client_post_writer (fc_super self) msg in
  let st := if restart then LPFCS_FRAME_INIT else fc_state self in
  let st := if bool_decide (rc = LPS_SUCCESS) && (if tc_partial super is None then true else false) then LPFCS_FRAME_INIT else st in
  (rc, consumed, mkFramedClient super st (fc_frame_hdr_buf self) (fc_frame_hdr_pos self)).

(** The case [LPFCS_FRAME_SEND]. *)
Definition send_frame (self : LogProtoFramedClient) (msg : bytes) : LogProtoStatus * bool * LogProtoFramedClient :=
  let '(rc, t) := log_transport_write (tc_transport (fc_super self)) (sub (fc_frame_hdr_buf self) (fc_frame_hdr_pos self) (lenZ (fc_frame_hdr_buf self))) in
  let super := with_transport (fc_super self) t in
  match rc with
  | WIntr | WError => (LPS_ERROR, false, mkFramedClient super (fc_state self) (fc_frame_hdr_buf self) (fc_frame_hdr_pos self))
  | WAgain => (LPS_SUCCESS, false, mkFramedClient super (fc_state self) (fc_frame_hdr_buf self) (fc_frame_hdr_pos self))
  | WDone n =>
      let pos := fc_frame_hdr_pos self + n in
      if bool_decide (pos <> lenZ (fc_frame_hdr_buf self)) then (LPS_SUCCESS, false, mkFramedClient super (fc_state self) (fc_frame_hdr_buf self) pos)
      else send_message (mkFramedClient super LPFCS_MESSAGE_SEND (fc_frame_hdr_buf self) pos) msg
  end.

Definition frame_limit : Z := 9999999.

Definition truncate_msg (msg : bytes) : bytes := if bool_decide (lenZ msg > frame_limit) then take (Z.to_nat frame_limit) msg else msg.

Definition log_proto_framed_client_post (self : LogProtoFramedClient) (msg : bytes) : LogProtoStatus * bool * LogProtoFramedClient :=
  let msg := truncate_msg msg in
  match fc_state self with
  | LPFCS_FRAME_INIT => send_frame (mkFramedClient (fc_super self) LPFCS_FRAME_SEND (decimal (lenZ msg) ++ [32]) 0) msg
  | LPFCS_FRAME_SEND => send_frame self msg
  | LPFCS_MESSAGE_SEND => send_message self msg
  end.

Definition log_proto_framed_client_flush (self : LogProtoFramedClient) : LogProtoStatus * LogProtoFramedClient :=
  let '(result, super) := log_proto_text_client_flush (fc_super self) in
  let self := mkFramedClient super (fc_state self) (fc_frame_hdr_buf self) (fc_frame_hdr_pos self) in
  match result, fc_state self with
  | LPS_SUCCESS, LPFCS_FRAME_SEND => (if bool_decide (lenZ (fc_frame_hdr_buf self) <> fc_frame_hdr_pos self) then LPS_AGAIN else LPS_SUCCESS, self)
  | _, _ => (result, self)
  end.

(** * What the clients put on the wire *)

(** ** One write *)

Lemma write_spec (t : LogTransport) (buf : bytes) : let '(rc, t') := log_transport_write t buf in
  match rc with WDone n => 0 <= n <= lenZ buf /\ tr_wire t' = tr_wire t ++ sub buf 0 n | _ => tr_wire t' = tr_wire t end.
Proof.
  unfold log_transport_write. destruct (tr_answers t) as [|[n| | |] l]; try done. cbn [tr_wire]. pose proof (lenZ_nonneg buf). split; [lia|].
  unfold sub. rewrite Z.sub_0_r. change (Z.to_nat 0) with 0%nat. by rewrite drop_0.
Qed.

Lemma sub_sub (l : bytes) (i j n : Z) : 0 <= i -> 0 <= n <= j - i -> sub (sub l i j) 0 n = sub l i (i + n).
Proof.
  intros Hi Hn. unfold sub at 1 3. change (Z.to_nat 0) with 0%nat. rewrite drop_0. unfold sub. rewrite take_take. f_equal. lia.
Qed.

Definition wire (self : LogProtoTextClient) : bytes := tr_wire (tc_transport self).

(** What is kept of a message the transport did not take whole. *)
Definition unsent (self : LogProtoTextClient) : bytes :=
  match tc_partial self with Some p => sub p (tc_partial_pos self) (tc_partial_len self) | None => [] end.

Record tc_ok (self : LogProtoTextClient) : Prop := {
  to_partial : match tc_partial self with Some p => lenZ p = tc_partial_len self /\ 0 <= tc_partial_pos self <= tc_partial_len self | None => True end;
  to_acks : 0 <= tc_pending_ack_count self <= 1
}.

Definition acks (self : LogProtoTextClient) : Z := tc_acked self + tc_pending_ack_count self.

Lemma flush_buffer_ok (self : LogProtoTextClient) : tc_ok self -> let '(st, self') := log_proto_text_client_flush_buffer self in
  tc_ok self' /\ wire self' ++ unsent self' = wire self ++ unsent self /\ tc_partial_len self' = tc_partial_len self /\ acks self' = acks self /\
  (tc_partial self = None -> st = LPS_SUCCESS /\ self' = self) /\ (st = LPS_PARTIAL -> tc_partial self' <> None) /\ (st = LPS_SUCCESS \/ st = LPS_ERROR \/ st = LPS_PARTIAL).
Proof.
  intros [O1 O2]. unfold log_proto_text_client_flush_buffer, acks, unsent, wire. destruct (tc_partial self) as [p|] eqn:E; [|rewrite E; split_and!; auto; by split; [rewrite E|]].
  destruct O1 as [L B]. pose proof (write_spec (tc_transport self) (sub p (tc_partial_pos self) (tc_partial_len self))) as W.
  destruct (log_transport_write _ _) as [rc t]. destruct rc as [n| | |]; cbn.
  - rewrite sub_length in W by lia. destruct W as [Hn W]. case_bool; cbn.
    + split_and!; auto; try done. * split; cbn; [lia|done]. * rewrite W, sub_sub, <- app_assoc by lia. f_equal. rewrite <- sub_split by lia. done.
    + split_and!; auto; try done. * rewrite app_nil_r, W, sub_sub by lia. by replace (tc_partial_pos self + n) with (tc_partial_len self) by lia.
  - rewrite W, E. split_and!; auto; try done. by split; cbn; rewrite ?E.
  - rewrite W, E. split_and!; auto; try done. by split; cbn; rewrite ?E.
  - rewrite W, E. split_and!; auto; try done. by split; cbn; rewrite ?E.
Qed.

Lemma do_ack_ok (self : LogProtoTextClient) : tc_ok self -> let self' := log_proto_text_client_do_ack self in
  tc_ok self' /\ tc_transport self' = tc_transport self /\ tc_partial self' = tc_partial self /\ tc_partial_len self' = tc_partial_len self /\
  tc_partial_pos self' = tc_partial_pos self /\ acks self' = acks self + 1.
Proof.
  intros [O1 O2]. unfold log_proto_text_client_do_ack, acks. destruct (tc_keep_one_message self); cbn [andb]; [case_bool|]; cbn; split_and!; try done; try lia; split; cbn; (done || lia).
Qed.

Lemma write_new_ok (self : LogProtoTextClient) (msg : bytes) : tc_ok self -> tc_partial self = None ->
  let '(st, consumed, self') := write_new_message self msg in
  tc_ok self' /\
  if consumed : bool then st = LPS_SUCCESS /\ wire self' ++ unsent self' = wire self ++ msg /\ acks self' = acks self + 1 /\
    tc_partial_len self' = (if tc_partial self' is None then tc_partial_len self else lenZ msg)
  else st = LPS_ERROR /\ wire self' = wire self /\ tc_partial self' = None /\ tc_partial_len self' = tc_partial_len self /\ acks self' = acks self.
Proof.
  intros [O1 O2] Hp. unfold write_new_message. pose proof (write_spec (tc_transport self) msg) as W. destruct (log_transport_write _ _) as [rc t].
  assert (K : forall n, 0 <= n <= lenZ msg -> tr_wire t = wire self ++ sub msg 0 n ->
    let s' := log_proto_text_client_do_ack (with_partial (with_transport self t) (Some msg) (lenZ msg) n) in
    tc_ok s' /\ wire s' ++ unsent s' = wire self ++ msg /\ acks s' = acks self + 1 /\ tc_partial_len s' = (if tc_partial s' is None then tc_partial_len self else lenZ msg)).
  { intros n Hn Hw. destruct (do_ack_ok (with_partial (with_transport self t) (Some msg) (lenZ msg) n)) as (A1 & A2 & A3 & A4 & A5 & A6); [by split; cbn|].
    split; [done|]. unfold wire, unsent in *. rewrite A2, A3, A4, A5, A6. cbn. split_and!; [|done|done]. rewrite Hw, <- app_assoc, <- sub_split, sub_all by lia. done. }
  destruct rc as [n| | |].
  - destruct W as [Hn W]. case_bool; [destruct (K n Hn W) as (? & ? & ? & ?); split_and!; done|].
    destruct (do_ack_ok (with_transport self t)) as (A1 & A2 & A3 & A4 & A5 & A6); [split; cbn; [by rewrite Hp|done]|]. split; [done|].
    unfold wire, unsent in *. rewrite A2, A3, A4, A6. cbn. rewrite Hp, app_nil_r. split_and!; [done| |done|done]. rewrite W. replace n with (lenZ msg) by lia. by rewrite sub_all.
  - pose proof (lenZ_nonneg msg). destruct (K 0) as (? & ? & ? & ?); [lia|by rewrite sub_nil, app_nil_r|]. split_and!; done.
  - pose proof (lenZ_nonneg msg). destruct (K 0) as (? & ? & ? & ?); [lia|by rewrite sub_nil, app_nil_r|]. split_and!; done.
  - split; [split; cbn; [by rewrite Hp|done]|]. unfold wire. cbn. split_and!; done.
Qed.

Lemma do_pending_ok (self : LogProtoTextClient) : tc_ok self -> let self' := log_proto_text_client_do_pending_acks self in
  tc_ok self' /\ wire self' = wire self /\ tc_partial self' = tc_partial self /\ tc_partial_len self' = tc_partial_len self /\ unsent self' = unsent self /\ acks self' = acks self.
Proof.
  intros [O1 O2]. unfold log_proto_text_client_do_pending_acks, acks. case_bool; cbn; split_and!; try done; try lia; split; cbn; (done || lia).
Qed.

Lemma flush_ok (self : LogProtoTextClient) : tc_ok self -> let '(st, self') := log_proto_text_client_flush self in
  tc_ok self' /\ wire self' ++ unsent self' = wire self ++ unsent self /\ tc_partial_len self' = tc_partial_len self /\ acks self' = acks self /\
  (tc_partial self = None -> tc_partial self' = None /\ wire self' = wire self).
Proof.
  intros O. unfold log_proto_text_client_flush. pose proof (flush_buffer_ok self O) as F. destruct (log_proto_text_client_flush_buffer self) as [st s1].
  destruct F as (F1 & F2 & F3 & F4 & F5 & _). assert (F6 : tc_partial self = None -> tc_partial s1 = None /\ wire s1 = wire self) by (intros E; destruct (F5 E) as [_ ->]; done).
  case_bool; [done|]. destruct (tc_partial s1) as [p|] eqn:E; [rewrite E; by split_and!|]. destruct (do_pending_ok s1 F1) as (P1 & P2 & P3 & P4 & P5 & P6).
  split_and!; [done|congruence..|]. intros H. destruct (F6 H) as [_ Hw]. split; congruence.
Qed.

(** ** Plain messages *)

Inductive text_run (answers : list write_result) (keep : bool) : LogProtoTextClient -> list bytes -> Prop :=
| tr_new : text_run answers keep (log_proto_text_client_new (mkTransport answers []) keep) []
| tr_post self sent msg st consumed self' : text_run answers keep self sent -> log_proto_text_client_post self msg = (st, consumed, self') ->
    text_run answers keep self' (sent ++ (if consumed then [msg] else []))
| tr_flush self sent st self' : text_run answers keep self sent -> log_proto_text_client_flush self = (st, self') -> text_run answers keep self' sent.

Lemma post_writer_ok (self : LogProtoTextClient) (msg : bytes) : tc_ok self -> let '(st, consumed, self') := log_proto_text_client_post self msg in
  tc_ok self' /\ wire self' ++ unsent self' = wire self ++ unsent self ++ (if consumed then msg else []) /\ acks self' = acks self + (if consumed then 1 else 0).
Proof.
  intros O. unfold log_proto_text_client_post, log_proto_client_post_writer. pose proof (flush_buffer_ok self O) as F.
  destruct (log_proto_text_client_flush_buffer self) as [st s1]. destruct F as (F1 & F2 & F3 & F4 & _).
  case_bool; [by rewrite app_nil_r, Z.add_0_r|]. destruct (tc_partial s1) as [p|] eqn:E; [cbn; by rewrite app_nil_r, Z.add_0_r|]. cbn [orb].
  destruct (bool_decide (st = LPS_PARTIAL)); [by rewrite app_nil_r, Z.add_0_r|]. rewrite andb_false_r.
  pose proof (write_new_ok s1 msg F1 E) as W. destruct (write_new_message s1 msg) as [[st' consumed] s2]. destruct W as [W1 W2]. split; [done|].
  assert (U : unsent s1 = []) by (unfold unsent; by rewrite E). rewrite U, app_nil_r in F2. rewrite app_assoc, <- F2. destruct consumed.
  - destruct W2 as (_ & W3 & W4 & _). split; [done|lia].
  - destruct W2 as (_ & W3 & W4 & _ & W5). split; [|lia]. unfold unsent. by rewrite W3, W4.
Qed.

(** ** Framed messages *)

Record fc_ok (self : LogProtoFramedClient) (sent : list bytes) (pending : option bytes) : Prop := {
  fc_tc : tc_ok (fc_super self);
  fc_acks : acks (fc_super self) = lenZ sent;
  fc_shape : match fc_state self with
    | LPFCS_FRAME_INIT => tc_partial (fc_super self) = None /\ tc_partial_len (fc_super self) = 0 /\ wire (fc_super self) = stream sent
    | LPFCS_FRAME_SEND => tc_partial (fc_super self) = None /\ tc_partial_len (fc_super self) = 0 /\ exists m, pending = Some m /\
        fc_frame_hdr_buf self = decimal (lenZ (truncate_msg m)) ++ [32] /\ 0 <= fc_frame_hdr_pos self <= lenZ (fc_frame_hdr_buf self) /\
        wire (fc_super self) = stream sent ++ sub (fc_frame_hdr_buf self) 0 (fc_frame_hdr_pos self)
    | LPFCS_MESSAGE_SEND => (tc_partial_len (fc_super self) <> 0 /\ wire (fc_super self) ++ unsent (fc_super self) = stream sent) \/
        (tc_partial_len (fc_super self) = 0 /\ tc_partial (fc_super self) = None /\ exists m, pending = Some m /\
         wire (fc_super self) = stream sent ++ decimal (lenZ (truncate_msg m)) ++ [32])
    end
}.

Lemma truncate_pos (m : bytes) : m <> [] -> 0 < lenZ (truncate_msg m).
Proof.
  intros Hm. assert (0 < lenZ m) by (destruct m; [done|]; rewrite lenZ_cons; pose proof (lenZ_nonneg m); lia).
  unfold truncate_msg, frame_limit. case_bool; [rewrite lenZ_take; lia|done].
Qed.

Lemma stream_one (sent : list bytes) (m : bytes) : stream (sent ++ [m]) = stream sent ++ (decimal (lenZ m) ++ [32]) ++ m.
Proof. rewrite stream_app, stream_cons. change (stream []) with (@nil Z). by rewrite app_nil_r, <- app_assoc. Qed.

(** A message that is posted again until it is consumed. *)
Definition after (consumed : bool) (sent : list bytes) (m : bytes) : list bytes := if consumed then sent ++ [truncate_msg m] else sent.
Definition still (consumed : bool) (m : bytes) : option bytes := if consumed then None else Some m.

Lemma send_message_ok (self : LogProtoFramedClient) (sent : list bytes) (pending : option bytes) (m : bytes) : fc_ok self sent pending ->
  fc_state self = LPFCS_MESSAGE_SEND -> m <> [] -> pending = None \/ pending = Some m ->
  let '(st, consumed, self') := send_message self (truncate_msg m) in fc_ok self' (after consumed sent m) (still consumed m).
Proof.
  intros [O A S] St Hm Hp. rewrite St in S. unfold send_message, log_proto_framed_client_post_writer, log_proto_client_post_writer.
  pose proof (flush_buffer_ok (fc_super self) O) as F. destruct (log_proto_text_client_flush_buffer (fc_super self)) as [st s1].
  destruct F as (F1 & F2 & F3 & F4 & F5 & F6 & F7).
  destruct (bool_decide_reflect (st = LPS_ERROR)) as [->|Hne].
  { cbn. split; cbn; [done|by rewrite F4|]. rewrite St. destruct S as [[S1 S2]|(S1 & S2 & S3)]; [left; split; congruence|].
    destruct (F5 S2) as [? _]. done. }
  destruct (tc_partial s1) as [p|] eqn:E.
  { cbn. split; cbn; [done|by rewrite F4|]. rewrite St. destruct S as [[S1 S2]|(S1 & S2 & S3)]; [left; split; congruence|]. destruct (F5 S2) as [_ ->]. congruence. }
  cbn [orb]. rewrite (bool_decide_eq_false_2 (st = LPS_PARTIAL)) by (intros E2; by apply F6 in E2).
  assert (Hst : st = LPS_SUCCESS) by (destruct F7 as [|[|E2]]; [done|done|by apply F6 in E2]). subst st.
  assert (U1 : unsent s1 = []) by (unfold unsent; by rewrite E).
  destruct S as [[S1 S2]|(S1 & S2 & m' & S3 & S4)].
  - rewrite bool_decide_eq_true_2 by congruence. cbn. split; cbn; [split; cbn; [done|apply F1]|unfold acks in *; cbn; lia|].
    split_and!; [done|done|]. change (wire (with_partial s1 None 0 0)) with (wire s1). rewrite U1, app_nil_r in F2. congruence.
  - rewrite bool_decide_eq_false_2 by congruence. cbn [andb]. assert (m' = m) as -> by (destruct Hp; congruence).
    destruct (F5 S2) as [_ ->]. pose proof (write_new_ok (fc_super self) (truncate_msg m) O S2) as W.
    destruct (write_new_message (fc_super self) (truncate_msg m)) as [[st' consumed] s2]. destruct W as [W1 W2]. destruct consumed.
    + destruct W2 as (-> & W3 & W4 & W5). cbn [bool_decide andb]. split; cbn; [done|rewrite W4, A, lenZ_app; done|].
      assert (X : wire s2 ++ unsent s2 = stream (sent ++ [truncate_msg m])) by (rewrite W3, S4, stream_one, <- !app_assoc; done).
      destruct (tc_partial s2) as [p|] eqn:E2; cbn.
      * rewrite St. left. split; [pose proof (truncate_pos m Hm); lia|done].
      * split_and!; [done|lia|]. unfold unsent in X. by rewrite E2, app_nil_r in X.
    + destruct W2 as (-> & W3 & W4 & W5 & W6). cbn. split; cbn; [done|by rewrite W6|]. rewrite St. right. split_and!; [by rewrite W5|done|]. exists m. by rewrite W3.
Qed.

Lemma send_frame_ok (self : LogProtoFramedClient) (sent : list bytes) (m : bytes) : fc_ok self sent (Some m) ->
  fc_state self = LPFCS_FRAME_SEND -> m <> [] ->
  let '(st, consumed, self') := send_frame self (truncate_msg m) in fc_ok self' (after consumed sent m) (still consumed m).
Proof.
  intros [O A S] St Hm. rewrite St in S. destruct S as (S1 & S2 & m' & [= <-] & H1 & H2 & H3). unfold send_frame. set (hdr := fc_frame_hdr_buf self) in *.
  pose proof (write_spec (tc_transport (fc_super self)) (sub hdr (fc_frame_hdr_pos self) (lenZ hdr))) as W.
  destruct (log_transport_write _ _) as [rc t]. rewrite sub_length in W by lia.
  assert (Same : tr_wire t = wire (fc_super self) -> forall s, s = with_transport (fc_super self) t ->
    fc_ok (mkFramedClient s (fc_state self) hdr (fc_frame_hdr_pos self)) sent (Some m)).
  { intros Hw s ->. split; [destruct O; split; done|done|]. cbn [fc_state]. rewrite St. cbn. split_and!; [done|done|]. exists m. split_and!; try done; [lia..|].
    unfold wire in *. cbn. by rewrite Hw. }
  destruct rc as [n| | |]; [|by apply Same..]. destruct W as [Hn W]. rewrite sub_sub in W by lia.
  assert (Hw : tr_wire t = stream sent ++ sub hdr 0 (fc_frame_hdr_pos self + n)).
  { change (tr_wire (tc_transport (fc_super self))) with (wire (fc_super self)) in W. rewrite W, H3, <- app_assoc. f_equal. by rewrite <- sub_split by lia. }
  case_bool.
  - split; [destruct O; split; done|done|]. cbn [fc_state]. rewrite St. cbn. split_and!; [done|done|]. exists m. split_and!; (done || lia).
  - assert (Q : fc_ok (mkFramedClient (with_transport (fc_super self) t) LPFCS_MESSAGE_SEND hdr (fc_frame_hdr_pos self + n)) sent (Some m)).
    { split; [destruct O; split; done|done|]. cbn. right. split_and!; [done|done|]. exists m. split; [done|]. unfold wire. cbn. rewrite Hw.
      replace (fc_frame_hdr_pos self + n) with (lenZ hdr) by lia. by rewrite sub_all, H1. }
    apply (send_message_ok _ sent (Some m) m Q); [done|done|by right].
Qed.

Lemma framed_post_ok (self : LogProtoFramedClient) (sent : list bytes) (pending : option bytes) (m : bytes) : fc_ok self sent pending -> m <> [] ->
  pending = None \/ pending = Some m ->
  let '(st, consumed, self') := log_proto_framed_client_post self m in fc_ok self' (after consumed sent m) (still consumed m).
Proof.
  intros O Hm Hp. unfold log_proto_framed_client_post. destruct (fc_state self) eqn:St.
  - apply send_frame_ok; [|done|done]. destruct O as [O A S]. rewrite St in S. destruct S as (S1 & S2 & S3). split; [done|done|]. cbn. split_and!; [done|done|].
    exists m. split_and!; [done|done|lia|apply lenZ_nonneg|]. by rewrite sub_nil, app_nil_r.
  - apply send_frame_ok; [|done|done]. destruct O as [O A S]. split; [done|done|]. rewrite St in *. destruct S as (S1 & S2 & m' & S3 & S4).
    split_and!; [done|done|]. exists m'. split; [destruct Hp; congruence|done].
  - by apply (send_message_ok self sent pending m).
Qed.

Lemma framed_flush_ok (self : LogProtoFramedClient) (sent : list bytes) (pending : option bytes) : fc_ok self sent pending ->
  fc_ok (snd (log_proto_framed_client_flush self)) sent pending.
Proof.
  intros [O A S]. unfold log_proto_framed_client_flush. pose proof (flush_ok (fc_super self) O) as F. destruct (log_proto_text_client_flush (fc_super self)) as [st s1].
  destruct F as (F1 & F2 & F3 & F4 & F5).
  assert (Q : fc_ok (mkFramedClient s1 (fc_state self) (fc_frame_hdr_buf self) (fc_frame_hdr_pos self)) sent pending).
  { split; [done|by cbn; rewrite F4|]. cbn [fc_state fc_super fc_frame_hdr_buf fc_frame_hdr_pos]. destruct (fc_state self).
    - destruct S as (S1 & S2 & S3). destruct (F5 S1). split_and!; congruence.
    - destruct S as (S1 & S2 & m & S3 & S4 & S5 & S6). destruct (F5 S1). split_and!; [done|congruence|]. exists m. split_and!; (congruence || lia || done).
    - destruct S as [[S1 S2]|(S1 & S2 & m & S3 & S4)]; [left; split; congruence|right]. destruct (F5 S2). split_and!; [congruence|done|]. exists m. split; congruence. }
  cbn. by destruct st, (fc_state self).
Qed.
