(* ===== verification/ProtoClientClaims.v ===== *)
(** * The clients, and the framed client together with the framed server *)
From S2P Require Import Prelude Buffer FramedServer ProtoClient.

(** The writer posts a message again until it is consumed. *)
Inductive framed_run (answers : list write_result) (keep : bool) : LogProtoFramedClient -> list bytes -> option bytes -> Prop :=
| fcr_new : framed_run answers keep (log_proto_framed_client_new (mkTransport answers []) keep) [] None
| fcr_post self sent pending m st consumed self' : framed_run answers keep self sent pending -> m <> [] -> pending = None \/ pending = Some m ->
    log_proto_framed_client_post self m = (st, consumed, self') -> framed_run answers keep self' (after consumed sent m) (still consumed m)
| fcr_flush self sent pending st self' : framed_run answers keep self sent pending -> log_proto_framed_client_flush self = (st, self') ->
    framed_run answers keep self' sent pending.

Lemma framed_run_ok (answers : list write_result) (keep : bool) (self : LogProtoFramedClient) (sent : list bytes) (pending : option bytes) :
  framed_run answers keep self sent pending -> fc_ok self sent pending.
Proof.
  induction 1 as [|self sent pending m st consumed self' _ IH Hm Hp E|self sent pending st self' _ IH E].
  - split; [split; done|done|]. done.
  - pose proof (framed_post_ok self sent pending m IH Hm Hp) as H. by rewrite E in H.
  - pose proof (framed_flush_ok self sent pending IH) as H. by rewrite E in H.
Qed.

(** The messages the peer may see: the consumed ones and the one in hand. *)
Definition in_flight (sent : list bytes) (pending : option bytes) : list bytes := sent ++ (truncate_msg <$> option_list pending).

Lemma fc_wire (self : LogProtoFramedClient) (sent : list bytes) (pending : option bytes) : fc_ok self sent pending ->
  wire (fc_super self) `prefix_of` stream (in_flight sent pending).
Proof.
  intros [_ _ S]. unfold in_flight. rewrite stream_app. destruct (fc_state self).
  - destruct S as (_ & _ & ->). by eexists.
  - destruct S as (_ & _ & m & -> & E & B & ->). apply prefix_app. change (truncate_msg <$> option_list (Some m)) with [truncate_msg m]. rewrite stream_cons.
    exists (sub (fc_frame_hdr_buf self) (fc_frame_hdr_pos self) (lenZ (fc_frame_hdr_buf self)) ++ truncate_msg m ++ stream []).
    rewrite app_assoc, <- sub_split, sub_all by lia. rewrite E. by rewrite <- app_assoc.
  - destruct S as [[_ <-]|(_ & _ & m & -> & ->)]; [rewrite <- app_assoc; by eexists|].
    change (truncate_msg <$> option_list (Some m)) with [truncate_msg m]. rewrite stream_cons. apply prefix_app. exists (truncate_msg m ++ stream []). by rewrite <- app_assoc.
Qed.

Lemma client_writes (answers : list write_result) (keep : bool) (self : LogProtoFramedClient) (sent : list bytes) (pending : option bytes) :
  framed_run answers keep self sent pending ->
  wire (fc_super self) `prefix_of` stream (in_flight sent pending) /\
  (let '(st, self') := log_proto_framed_client_flush self in st = LPS_SUCCESS -> stream sent `prefix_of` wire (fc_super self')) /\
  lenZ sent - 1 <= tc_acked (fc_super self) <= lenZ sent.
Proof.
  intros H. pose proof (framed_run_ok _ _ _ _ _ H) as O. split; [by apply fc_wire|]. split.
  - pose proof (framed_flush_ok self sent pending O) as O'. destruct (log_proto_framed_client_flush self) as [st self'] eqn:E. cbn [snd] in O'. intros ->.
    assert (P : tc_partial (fc_super self') = None).
    { revert E. unfold log_proto_framed_client_flush, log_proto_text_client_flush. destruct (log_proto_text_client_flush_buffer _) as [st s1].
      case_bool; [cbn; done|]. destruct (tc_partial s1) as [p|] eqn:Ep; [cbn; done|]. cbn. intros Ef.
      assert (Ed : fc_super self' = log_proto_text_client_do_pending_acks s1) by (destruct (fc_state self); injection Ef; intros <-; done).
      rewrite Ed. unfold log_proto_text_client_do_pending_acks. by case_bool. }
    destruct O' as [_ _ S]. destruct (fc_state self').
    + destruct S as (_ & _ & ->). done.
    + destruct S as (_ & _ & m & _ & _ & _ & ->). by eexists.
    + destruct S as [[_ S]|(_ & _ & m & _ & ->)]; [|by eexists]. unfold unsent in S. rewrite P, app_nil_r in S. by rewrite S.
  - destruct O as [[_ A2] A1 _]. unfold acks in A1. lia.
Qed.

(** However the transport cuts, delays or refuses its writes, the framed
    client puts on the wire the frames of the consumed messages in their order,
    followed by at most a part of the frame of the message in hand; a flush that
    succeeds has sent all of them; every consumed message is acknowledged once,
    at most one of them later. *)
Theorem framed_client_writes_frames (answers : list write_result) (keep : bool) (self : LogProtoFramedClient) (sent : list bytes) (pending : option bytes) :
  framed_run answers keep self sent pending ->
  wire (fc_super self) `prefix_of` stream (in_flight sent pending) /\
  (let '(st, self') := log_proto_framed_client_flush self in st = LPS_SUCCESS -> stream sent `prefix_of` wire (fc_super self')) /\
  lenZ sent - 1 <= tc_acked (fc_super self) <= lenZ sent.
Proof. apply client_writes. Qed.

Definition demo_answers : list write_result := [WDone 1; WDone 100; WAgain; WDone 2; WAgain; WDone 100].

Lemma framed_client_writes_frames_witness :
  let s0 := log_proto_framed_client_new (mkTransport demo_answers []) false in
  let '(_, c1, s1) := log_proto_framed_client_post s0 (bytes_of_string "hello") in
  let '(_, c2, s2) := log_proto_framed_client_post s1 (bytes_of_string "hello") in
  c1 = false /\ c2 = true /\ wire (fc_super s2) `prefix_of` stream [bytes_of_string "hello"].
Proof.
  intros s0. assert (R0 : framed_run demo_answers false s0 [] None) by constructor.
  destruct (log_proto_framed_client_post s0 (bytes_of_string "hello")) as [[st1 c1] s1] eqn:E1.
  pose proof (fcr_post _ _ _ _ _ _ _ _ _ R0 (ltac:(discriminate) : bytes_of_string "hello" <> []) (or_introl eq_refl) E1) as R1.
  vm_compute in E1. injection E1 as <- <- <-. cbn [after still] in R1.
  destruct (log_proto_framed_client_post _ (bytes_of_string "hello")) as [[st2 c2] s2] eqn:E2.
  pose proof (fcr_post _ _ _ _ _ _ _ _ _ R1 (ltac:(discriminate) : bytes_of_string "hello" <> []) (or_intror eq_refl) E2) as R2.
  assert (C2 : c2 = true) by (vm_compute in E2; injection E2 as _ <- _; reflexivity). rewrite C2 in R2. cbn [after still] in R2.
  destruct (framed_client_writes_frames _ _ _ _ _ R2) as [H _]. split; [reflexivity|]. split; [exact C2|exact H].
Defined.

(** The text client puts on the wire the consumed messages in their order
    and nothing else; what is not yet there is the kept rest of the last one. *)
Theorem text_client_writes_messages (answers : list write_result) (keep : bool) (self : LogProtoTextClient) (sent : list bytes) : text_run answers keep self sent ->
  wire self ++ unsent self = concat sent /\ lenZ sent - 1 <= tc_acked self <= lenZ sent.
Proof.
  intros H. assert (Q : tc_ok self /\ wire self ++ unsent self = concat sent /\ acks self = lenZ sent).
  { induction H as [|self sent msg st consumed self' _ (I1 & I2 & I3) E|self sent st self' _ (I1 & I2 & I3) E].
    - by split_and!.
    - pose proof (post_writer_ok self msg I1) as P. rewrite E in P. destruct P as (P1 & P2 & P3). split; [done|]. rewrite P2, app_assoc, I2, P3, I3, concat_app, lenZ_app.
      destruct consumed; simpl; rewrite ?app_nil_r; split; (done || lia).
    - pose proof (flush_ok self I1) as P. rewrite E in P. destruct P as (P1 & P2 & P3 & P4 & _). split_and!; congruence || done. }
  destruct Q as ([_ Q2] & Q3 & Q4). split; [done|]. unfold acks in Q4. lia.
Qed.

Lemma text_client_writes_messages_witness :
  let s0 := log_proto_text_client_new (mkTransport [WDone 2] []) false in
  let '(st, c, s1) := log_proto_text_client_post s0 (bytes_of_string "hello") in wire s1 ++ unsent s1 = bytes_of_string "hello".
Proof.
  intros s0. destruct (log_proto_text_client_post s0 (bytes_of_string "hello")) as [[st c] s1] eqn:E.
  pose proof (tr_post [WDone 2] false _ _ _ _ _ _ (tr_new _ _) E) as R. destruct (text_client_writes_messages _ _ _ _ R) as [H _].
  assert (C : c = true) by (vm_compute in E; injection E as _ <- _; reflexivity). rewrite C in H. exact H.
Defined.

(** ** Client and server together *)

(** Fetching without further data hands out everything that has arrived. *)
Lemma server_drains (max : Z) (msgs : list bytes) (Hmax : 0 <= max < 10 ^ 10) (Hmsgs : Forall (fun m => lenZ m <= max) msgs) (todo : list bytes) :
  forall self emitted delivered, fs_run max msgs self emitted delivered -> (emitted ++ todo) `prefix_of` msgs -> stream (emitted ++ todo) `prefix_of` delivered ->
  exists self' delivered', fs_run max msgs self' (emitted ++ todo) delivered'.
Proof.
  induction todo as [|m todo IH]; intros self emitted delivered R Hp Hd; [exists self, delivered; by rewrite app_nil_r|].
  destruct (server_delivers max msgs self emitted delivered false (fun _ => RAgain) Hmax Hmsgs R ltac:(done)) as (st & msg & self' & got & E & _ & _ & H).
  assert (M : msg = Some m).
  { apply H; [destruct Hp as [k Hk]; exists (todo ++ k); rewrite Hk; by rewrite <- !app_assoc|].
    destruct Hd as [k Hk]. exists (stream todo ++ k). rewrite Hk. change (m :: todo) with ([m] ++ todo). by rewrite !stream_app, <- !app_assoc. }
  subst msg. assert (Hno : rd_ok (fun _ => RAgain) (fun bs => (delivered ++ bs) `prefix_of` stream msgs)) by done.
  pose proof (fr_fetch max msgs _ _ _ _ _ _ _ _ _ R Hno E) as R'. cbn [option_list] in R'.
  destruct (IH self' (emitted ++ [m]) (delivered ++ got) R') as (s2 & d2 & R2); [by rewrite <- app_assoc| |exists s2, d2; by rewrite <- app_assoc in R2].
  rewrite <- app_assoc. destruct Hd as [k Hk]. exists (k ++ got). by rewrite Hk, <- app_assoc.
Qed.

(** C21: Client and server together.  Whatever pieces the writes and the reads
    are cut into, the server hands out the messages the client consumed, in
    their order and whole (cut only to the frame limit), and once the client
    has flushed and its bytes have arrived, all of them can be fetched. *)
Theorem framed_end_to_end (max : Z) (answers : list write_result) (keep : bool) (client : LogProtoFramedClient) (sent : list bytes) (pending : option bytes)
    (server : LogProtoFramedServer) (emitted : list bytes) (delivered : bytes) :
  0 <= max < 10 ^ 10 -> framed_run answers keep client sent pending -> Forall (fun m => lenZ m <= max) (in_flight sent pending) ->
  fs_run max (in_flight sent pending) server emitted delivered ->
  emitted `prefix_of` in_flight sent pending /\
  (forall bs, (delivered ++ bs) `prefix_of` wire (fc_super client) -> (delivered ++ bs) `prefix_of` stream (in_flight sent pending)) /\
  (let '(st, client') := log_proto_framed_client_flush client in st = LPS_SUCCESS -> wire (fc_super client') `prefix_of` delivered ->
   exists server' emitted' delivered', fs_run max (in_flight sent pending) server' emitted' delivered' /\ sent `prefix_of` emitted').
Proof.
  intros Hmax Hc Hlen Hs. destruct (client_writes _ _ _ _ _ Hc) as (W1 & W2 & _).
  assert (Hpre : emitted `prefix_of` in_flight sent pending).
  { pose proof (run_ok max _ Hmax Hlen _ _ _ Hs) as [_ _ S]. destruct (fs_state server); [destruct S as [[todo ->] _]; by eexists|destruct S as (m & todo & -> & _); by eexists]. }
  split; [done|]. split; [intros bs H; by etrans|]. destruct (log_proto_framed_client_flush client) as [st c']. intros Hst Hw.
  destruct (prefix_app_cases _ _ _ Hpre) as [(todo & E & _)|(k & -> & _)]; [|exists server, (sent ++ k), delivered; split; [done|by eexists]].
  destruct (server_drains max _ Hmax Hlen todo server emitted delivered Hs) as (s2 & d2 & R2).
  - rewrite <- E. unfold in_flight. by eexists.
  - rewrite <- E. etrans; [apply (W2 Hst)|done].
  - exists s2, (emitted ++ todo), d2. split; [done|]. by rewrite <- E.
Qed.

Lemma framed_end_to_end_witness :
  let hello := bytes_of_string "hello" in
  let '(_, _, client) := log_proto_framed_client_post (log_proto_framed_client_new (mkTransport [WDone 9; WDone 9] []) false) hello in
  exists server' emitted' delivered', fs_run 32 [hello] server' emitted' delivered' /\ [hello] `prefix_of` emitted'.
Proof.
  intros hello. set (s0 := log_proto_framed_client_new (mkTransport [WDone 9; WDone 9] []) false).
  assert (R0 : framed_run [WDone 9; WDone 9] false s0 [] None) by constructor.
  destruct (log_proto_framed_client_post s0 hello) as [[st c] client] eqn:E.
  pose proof (fcr_post _ _ _ _ _ _ _ _ _ R0 (ltac:(discriminate) : hello <> []) (or_introl eq_refl) E) as R1.
  vm_compute in E. injection E as <- <- <-. change (after true [] hello) with [hello] in R1. cbn [still] in R1.
  assert (Hrd : rd_ok (fun n => if bool_decide (7 <= n) then RData (bytes_of_string "5 hello") else RAgain) (fun bs => ([] ++ bs) `prefix_of` stream [hello])).
  { intros n bs. case_bool; [|done]. intros [= <-]. split; [split; [reflexivity|exact Hb]|]. by exists []. }
  destruct (log_proto_framed_server_fetch (log_proto_framed_server_new 32) true (fun n => if bool_decide (7 <= n) then RData (bytes_of_string "5 hello") else RAgain))
    as [[[[st2 msg] server] got]|] eqn:E2; [|vm_compute in E2; discriminate].
  pose proof (fr_fetch 32 [hello] _ _ _ _ _ _ _ _ _ (fr_new 32 [hello]) Hrd E2) as S1. vm_compute in E2. injection E2 as <- <- <- <-.
  assert (Hlen : Forall (fun m => lenZ m <= 32) (in_flight [hello] None)) by (change (in_flight [hello] None) with [hello]; repeat constructor; vm_compute; discriminate).
  destruct (framed_end_to_end 32 _ _ _ _ _ _ _ _ (conj (ltac:(lia) : 0 <= 32) (ltac:(lia) : 32 < 10 ^ 10)) R1 Hlen S1) as (_ & _ & H).
  apply H; [vm_compute; reflexivity|]. exists []. vm_compute. reflexivity.
Defined.
