(* ===== verification/FileWriter.v ===== *)
(** * Writing messages to a file (modules/basic-proto/basic-proto.c)

    The file writer collects [flush_lines] messages and writes them with one
    call of [writev]; what the system did not take is kept and written before
    anything else.  The file is the transport of the clients: its answers to
    [write] and [writev], and the bytes it took.  The calls of [lseek] and
    [fsync] are left out. *)
From S2P Require Import Prelude Buffer ProtoClient.

Record LogProtoFileWriter := mkFileWriter {
  fw_file : LogTransport;
  fw_partial : option bytes;
  fw_partial_len : Z;
  fw_partial_pos : Z;
  fw_buf_size : Z;
  fw_buffer : list bytes;            (* the first buf_count entries *)
  fw_sum_len : Z;
  fw_acked : Z
}.

Definition fw_buf_count (self : LogProtoFileWriter) : Z := lenZ (fw_buffer self).

(** IOV_MAX of the host. *)
Definition log_proto_file_writer_new (iov_max : Z) (file : LogTransport) (flush_lines : Z) : LogProtoFileWriter :=
  let flush_lines := if bool_decide (flush_lines = 0) then 1 else flush_lines in
  let flush_lines := if bool_decide (flush_lines > iov_max) then iov_max else flush_lines in
  mkFileWriter file None 0 0 flush_lines [] 0 0.

Definition with_file (self : LogProtoFileWriter) (file : LogTransport) : LogProtoFileWriter :=
  mkFileWriter file (fw_partial self) (fw_partial_len self) (fw_partial_pos self) (fw_buf_size self) (fw_buffer self) (fw_sum_len self) (fw_acked self).
Definition with_rest (self : LogProtoFileWriter) (partial : option bytes) (len pos : Z) : LogProtoFileWriter :=
  mkFileWriter (fw_file self) partial len pos (fw_buf_size self) (fw_buffer self) (fw_sum_len self) (fw_acked self).
Definition with_lines (self : LogProtoFileWriter) (buffer : list bytes) (sum_len : Z) : LogProtoFileWriter :=
  mkFileWriter (fw_file self) (fw_partial self) (fw_partial_len self) (fw_partial_pos self) (fw_buf_size self) buffer sum_len (fw_acked self).
(** [log_proto_msg_ack]: one message is acknowledged. *)
Definition fw_msg_ack (self : LogProtoFileWriter) : LogProtoFileWriter :=
  mkFileWriter (fw_file self) (fw_partial self) (fw_partial_len self) (fw_partial_pos self) (fw_buf_size self) (fw_buffer self) (fw_sum_len self) (fw_acked self + 1).

(** The first entry that was not written whole, the entries behind it, and
    the length up to its end.  Running past the entries is an error that
    nothing checks. *)
Fixpoint first_cut (rc sum : Z) (cur : bytes) (rest : list bytes) : outcome (bytes * list bytes * Z) :=
  if bool_decide (rc > sum) then
    match rest with
    | b :: rest => first_cut rc (sum + lenZ b) b rest
    | [] => Abort
    end
  else Ret (cur, rest, sum).

(** The rest is copied; [g_malloc] of no bytes is NULL. *)
Definition keep_rest (self : LogProtoFileWriter) (rc : Z) (cur : bytes) (rest : list bytes) (sum : Z) : LogProtoFileWriter :=
  let ofs := sum - rc in
  let partial := sub cur (lenZ cur - ofs) (lenZ cur) ++ concat rest in
  with_rest self (match partial with [] => None | _ => Some partial end) (lenZ partial) 0.

Definition log_proto_file_writer_flush (self : LogProtoFileWriter) : outcome (LogProtoStatus * LogProtoFileWriter) :=
  match fw_buffer self with
  | [] => Ret (LPS_SUCCESS, self)
  | b :: bs =>
      let '(rc, file) := log_transport_write (fw_file self) (concat (fw_buffer self)) in
      let self := with_file self file in
      match rc with
      | WAgain | WError => Ret (LPS_ERROR, with_lines self (take (length bs) (fw_buffer self)) (fw_sum_len self))
      | WIntr => Ret (LPS_SUCCESS, self)
      | WDone rc =>
          let! self := (if bool_decide (rc <> fw_sum_len self) then
                          let! (cur, rest, sum) := first_cut rc (lenZ b) b bs in
                          Ret (keep_rest self rc cur rest sum)
                        else Ret self) in
          Ret (LPS_SUCCESS, with_lines self [] 0)
      end
  end.

(** There is still some data from the previous call. *)
Definition write_partial (self : LogProtoFileWriter) (partial : bytes) : LogProtoStatus * LogProtoFileWriter :=
  let len := fw_partial_len self - fw_partial_pos self in
  let '(rc, file) := log_transport_write (fw_file self) (sub partial (fw_partial_pos self) (fw_partial_len self)) in
  let self := with_file self file in
  match rc with
  | WError => (LPS_ERROR, self)
  | WAgain | WIntr => (LPS_SUCCESS, self)
  | WDone rc => if bool_decide (rc <> len) then (LPS_SUCCESS, with_rest self (Some partial) (fw_partial_len self) (fw_partial_pos self + rc))
                else (LPS_SUCCESS, with_rest self None (fw_partial_len self) (fw_partial_pos self))
  end.

(** The new message goes to the buffer, which is written when it is full. *)
Definition register_message (self : LogProtoFileWriter) (msg : bytes) : outcome (LogProtoStatus * bool * LogProtoFileWriter) :=
  let self := with_lines self (fw_buffer self ++ [msg]) (s32 (fw_sum_len self + lenZ msg)) in
  let! (result, self) := (if bool_decide (fw_buf_count self = fw_buf_size self) then log_proto_file_writer_flush self else Ret (LPS_SUCCESS, self)) in
  Ret (result, bool_decide (result = LPS_SUCCESS), fw_msg_ack self).

Definition log_proto_file_writer_post (self : LogProtoFileWriter) (msg : bytes) : outcome (LogProtoStatus * bool * LogProtoFileWriter) :=
  let! (rc, self) := (if bool_decide (fw_buf_count self >= fw_buf_size self) then log_proto_file_writer_flush self else Ret (LPS_SUCCESS, self)) in
  if bool_decide (rc <> LPS_SUCCESS) || bool_decide (fw_buf_count self >= fw_buf_size self) then Ret (rc, false, self)
  else
    match fw_partial self with
    | Some partial => let '(st, self) := write_partial self partial in Ret (st, false, self)
    | None => register_message self msg
    end.

Definition log_proto_file_writer_prepare (self : LogProtoFileWriter) : bool :=
  bool_decide (fw_buf_count self > 0) || (if fw_partial self is Some _ then true else false).

(** * The file holds the messages that were consumed *)

(** What was cut off the last write. *)
Definition rest_of (self : LogProtoFileWriter) : bytes :=
  match fw_partial self with Some p => sub p (fw_partial_pos self) (fw_partial_len self) | None => [] end.
Definition file_of (self : LogProtoFileWriter) : bytes := tr_wire (fw_file self).

Definition drop_last (l : list bytes) : list bytes := take (length l - 1) l.

(** The messages [kept] are in the file, in the rest, and in the buffer. *)
Record fw_ok (self : LogProtoFileWriter) (kept : list bytes) : Prop := {
  fw_size : 0 < fw_buf_size self;
  fw_count : fw_buf_count self <= fw_buf_size self;
  fw_sum : lenZ (concat (fw_buffer self)) <= fw_sum_len self;
  fw_rest : match fw_partial self with Some p => fw_partial_len self = lenZ p /\ 0 <= fw_partial_pos self <= lenZ p /\ fw_buffer self = [] | None => True end;
  fw_content : exists done, kept = done ++ fw_buffer self /\ file_of self ++ rest_of self = concat done
}.

Lemma write_cases (t : LogTransport) (buf : bytes) (rc : write_result) (t' : LogTransport) : log_transport_write t buf = (rc, t') ->
  match rc with WDone n => 0 <= n <= lenZ buf /\ tr_wire t' = tr_wire t ++ take (Z.to_nat n) buf | _ => tr_wire t' = tr_wire t end.
Proof.
  unfold log_transport_write. pose proof (lenZ_nonneg buf). destruct (tr_answers t) as [|[n| | |] l]; intros [= <- <-]; try done. split; [lia|done].
Qed.

Lemma first_cut_ok (rc : Z) (rest : list bytes) : forall sum cur pre, sum = lenZ (pre ++ cur) -> lenZ pre <= rc -> rc <= lenZ (pre ++ cur ++ concat rest) ->
  exists cur' rest' sum' pre', first_cut rc sum cur rest = Ret (cur', rest', sum') /\ pre' ++ cur' ++ concat rest' = pre ++ cur ++ concat rest /\
    sum' = lenZ (pre' ++ cur') /\ lenZ pre' <= rc <= sum'.
Proof.
  induction rest as [|b rest IH]; intros sum cur pre Hs Hp Hr; cbn [first_cut]; case_bool; try (by exists cur, [], sum, pre; split_and!; (done || lia)).
  - exfalso. simpl in Hr. rewrite app_nil_r in Hr. lia.
  - destruct (IH (sum + lenZ b) b (pre ++ cur)) as (c & r & s & p & E & H1 & H2 & H3); [rewrite (lenZ_app (pre ++ cur)); lia|lia|by rewrite <- !app_assoc|].
    exists c, r, s, p. split; [done|]. rewrite H1. simpl. by rewrite <- !app_assoc.
  - exists cur, (b :: rest), sum, pre. split_and!; done || lia.
Qed.

(** The rest that is kept is what the system did not take. *)
Lemma kept_rest (rc sum : Z) (pre cur : bytes) (rest : list bytes) : sum = lenZ (pre ++ cur) -> lenZ pre <= rc <= sum ->
  sub cur (lenZ cur - (sum - rc)) (lenZ cur) ++ concat rest = drop (Z.to_nat rc) (pre ++ cur ++ concat rest).
Proof.
  intros Hs Hr. rewrite lenZ_app in Hs. unfold lenZ in *. rewrite drop_app_ge by lia. rewrite drop_app_le by lia. f_equal. unfold sub.
  rewrite take_ge by (rewrite length_drop; lia). f_equal. lia.
Qed.

Lemma flush_writes (self : LogProtoFileWriter) (kept : list bytes) : fw_ok self kept ->
  exists st self', log_proto_file_writer_flush self = Ret (st, self') /\ fw_acked self' = fw_acked self /\ fw_buf_size self' = fw_buf_size self /\
    match st with
    | LPS_SUCCESS => fw_ok self' kept
    | _ => st = LPS_ERROR /\ fw_ok self' (drop_last kept) /\ fw_buffer self <> [] /\ fw_buffer self' = drop_last (fw_buffer self)
    end.
Proof.
  intros O. pose proof O as [S C Sm R (k0 & K & W)]. unfold log_proto_file_writer_flush. destruct (fw_buffer self) as [|b bs] eqn:B; [by exists LPS_SUCCESS, self|].
  assert (P : fw_partial self = None) by (destruct (fw_partial self); [by destruct R as (_ & _ & ?)|done]). unfold rest_of in W. rewrite P, app_nil_r in W.
  destruct (log_transport_write (fw_file self) (concat (b :: bs))) as [rc file] eqn:E. pose proof (write_cases _ _ _ _ E) as H.
  assert (Same : forall l, (exists k, b :: bs = l ++ k) -> tr_wire file = tr_wire (fw_file self) -> fw_ok (with_lines (with_file self file) l (fw_sum_len self)) (k0 ++ l)).
  { intros l [k Hk] Hw. unfold fw_buf_count in C. rewrite B in C. split; cbn [fw_buf_size fw_buffer fw_partial fw_sum_len with_lines with_file]; [done| | |by rewrite P|exists k0; split; [done|]].
    - unfold fw_buf_count. cbn [fw_buffer with_lines]. rewrite Hk, lenZ_app in C. pose proof (lenZ_nonneg k). lia.
    - rewrite Hk, concat_app, lenZ_app in Sm. pose proof (lenZ_nonneg (concat k)). lia.
    - unfold file_of, rest_of. cbn. rewrite P, app_nil_r, Hw. done. }
  change (fw_buffer (with_file self file)) with (fw_buffer self). rewrite B.
  assert (Err : tr_wire file = tr_wire (fw_file self) -> exists st self', Ret (LPS_ERROR, with_lines (with_file self file) (take (length bs) (b :: bs)) (fw_sum_len (with_file self file))) = Ret (st, self') /\
     fw_acked self' = fw_acked self /\ fw_buf_size self' = fw_buf_size self /\
     match st with LPS_SUCCESS => fw_ok self' kept | _ => st = LPS_ERROR /\ fw_ok self' (drop_last kept) /\ b :: bs <> [] /\ fw_buffer self' = drop_last (b :: bs) end).
  { intros Hw. do 2 eexists. split; [reflexivity|]. split; [done|]. split; [done|]. split; [done|]. split; [|split; [done|cbn [fw_buffer with_lines]; unfold drop_last; f_equal; simpl; lia]].
    replace (drop_last kept) with (k0 ++ take (length bs) (b :: bs)); [apply Same; [exists (drop (length bs) (b :: bs)); by rewrite take_drop|done]|].
    unfold drop_last. rewrite K, length_app. simpl length. rewrite take_app_ge by lia. f_equal. f_equal. lia. }
  destruct rc as [n| | |]; [|by apply Err| |by apply Err].
  - destruct H as [Hn Hw].
    assert (D : exists p plen ppos, (if bool_decide (n <> fw_sum_len (with_file self file)) then let! (cur, rest, sum) := first_cut n (lenZ b) b bs in Ret (keep_rest (with_file self file) n cur rest sum) else Ret (with_file self file)) =
        Ret (with_rest (with_file self file) p plen ppos) /\ match p with Some p => plen = lenZ p /\ ppos = 0 /\ p = drop (Z.to_nat n) (concat (b :: bs)) | None => drop (Z.to_nat n) (concat (b :: bs)) = [] end).
    { case_bool.
      - destruct (first_cut_ok n bs (lenZ b) b []) as (c & r & s & p & -> & H1 & H2 & H3); [done|rewrite lenZ_nil; lia|simpl in *; lia|]. cbn [obind]. unfold keep_rest. rewrite (kept_rest n s p c r) by done. rewrite H1.
        do 3 eexists. split; [reflexivity|]. rewrite app_nil_l. change (b ++ concat bs) with (concat (b :: bs)). destruct (drop (Z.to_nat n) (concat (b :: bs))) eqn:Dr; [done|]. done.
      - exists None, (fw_partial_len self), (fw_partial_pos self). split; [unfold with_rest, with_file; cbn; by rewrite P|]. apply drop_ge. cbn [fw_sum_len with_file] in Hb. unfold lenZ in *. lia. }
    destruct D as (p & plen & ppos & -> & D). cbn [obind]. exists LPS_SUCCESS. eexists. split; [reflexivity|]. split; [done|]. split; [done|].
    split; unfold fw_buf_count; cbn [fw_buf_size fw_buffer fw_partial fw_partial_len fw_partial_pos fw_sum_len with_lines with_file with_rest concat]; [done|rewrite lenZ_nil; lia|done| |exists kept; rewrite app_nil_r; split; [done|]].
    + destruct p as [p|]; [|done]. destruct D as (-> & -> & _). pose proof (lenZ_nonneg p). split_and!; done || lia.
    + unfold file_of, rest_of. cbn. rewrite Hw, K, concat_app, <- W, <- app_assoc. f_equal. transitivity (take (Z.to_nat n) (concat (b :: bs)) ++ drop (Z.to_nat n) (concat (b :: bs))); [|apply take_drop].
      f_equal. destruct p as [p|]; [destruct D as (-> & -> & D); by rewrite sub_all|done].
  - exists LPS_SUCCESS, (with_file self file). split; [done|]. split; [done|]. split; [done|]. rewrite K. 
    replace (with_file self file) with (with_lines (with_file self file) (b :: bs) (fw_sum_len self)); [apply Same; [exists []; by rewrite app_nil_r|done]|].
    unfold with_lines, with_file. cbn. by rewrite B.
Qed.

Lemma ack_ok (self : LogProtoFileWriter) (kept : list bytes) : fw_ok self kept -> fw_ok (fw_msg_ack self) kept.
Proof. intros [S C Sm R W]. by split. Qed.

Lemma drop_last_snoc (l : list bytes) (m : bytes) : drop_last (l ++ [m]) = l.
Proof. unfold drop_last. rewrite length_app. simpl. rewrite Nat.add_sub. by rewrite take_app_length. Qed.

Lemma register_ok (self : LogProtoFileWriter) (kept : list bytes) (msg : bytes) : fw_ok self kept -> fw_partial self = None -> fw_buf_count self < fw_buf_size self ->
  fw_sum_len self + lenZ msg < 2 ^ 31 ->
  exists st consumed self', register_message self msg = Ret (st, consumed, self') /\ fw_ok self' (if consumed then kept ++ [msg] else kept) /\
    consumed = bool_decide (st = LPS_SUCCESS) /\ fw_acked self' = fw_acked self + 1.
Proof.
  intros [S C Sm R (k0 & K & W)] P Hc Hs. unfold register_message. set (s1 := with_lines _ _ _). pose proof (lenZ_nonneg msg) as Hm. pose proof (lenZ_nonneg (concat (fw_buffer self))) as Hk.
  assert (O1 : fw_ok s1 (kept ++ [msg])).
  { split; cbn [fw_buf_size fw_buffer fw_partial fw_sum_len with_lines s1].
    - done.
    - unfold fw_buf_count in *. cbn [fw_buffer with_lines s1]. rewrite lenZ_app, lenZ_cons, lenZ_nil. lia.
    - rewrite s32_small by lia. rewrite concat_app, lenZ_app. simpl. rewrite app_nil_r. lia.
    - by rewrite P.
    - exists k0. split; [by rewrite K, app_assoc|]. unfold rest_of in *. cbn. by rewrite P in *. }
  case_bool.
  - destruct (flush_writes s1 _ O1) as (st & s2 & -> & A & _ & H). cbn [obind]. exists st, (bool_decide (st = LPS_SUCCESS)), (fw_msg_ack s2). split; [done|]. split; [|split; [done|cbn; by rewrite A]].
    apply ack_ok. destruct st; [done|..]; destruct H as (? & H & _); try done. by rewrite drop_last_snoc in H.
  - cbn [obind]. do 3 eexists. split; [reflexivity|]. split; [|done]. by apply ack_ok.
Qed.

Lemma write_partial_ok (self : LogProtoFileWriter) (kept : list bytes) (p : bytes) : fw_ok self kept -> fw_partial self = Some p ->
  let '(st, self') := write_partial self p in fw_ok self' kept /\ fw_acked self' = fw_acked self.
Proof.
  intros [S C Sm R (k0 & K & W)] P. rewrite P in R. destruct R as (R1 & R2 & R3). unfold rest_of in W. rewrite P in W. unfold write_partial.
  destruct (log_transport_write _ _) as [rc file] eqn:E. pose proof (write_cases _ _ _ _ E) as H.
  assert (Same : tr_wire file = tr_wire (fw_file self) -> fw_ok (with_file self file) kept).
  { intros Hw. split; cbn [fw_buf_size fw_buffer fw_partial fw_partial_len fw_partial_pos fw_sum_len with_file]; [done|done|done|by rewrite P|].
    exists k0. split; [done|]. unfold file_of, rest_of. cbn. rewrite P. by rewrite Hw. }
  destruct rc as [n| | |]; [|by split; [apply Same|]..]. destruct H as [Hn Hw]. rewrite R1 in *. rewrite sub_length in Hn by lia.
  assert (Done : forall q plen ppos, match q with Some q => plen = lenZ q /\ 0 <= ppos <= lenZ q | None => True end ->
    take (Z.to_nat n) (sub p (fw_partial_pos self) (lenZ p)) ++ match q with Some q => sub q ppos plen | None => [] end = sub p (fw_partial_pos self) (lenZ p) ->
    fw_ok (with_rest (with_file self file) q plen ppos) kept).
  { intros q plen ppos Hq Hc. split; cbn [fw_buf_size fw_buffer fw_partial fw_partial_len fw_partial_pos fw_sum_len with_file with_rest]; [done|done|done|destruct q; [destruct Hq; split; [done|split; done]|done]|].
    exists k0. split; [done|]. unfold file_of, rest_of. cbn. rewrite Hw, <- app_assoc, Hc. done. }
  case_bool; (split; [apply Done|done]).
  - cbn [fw_partial_pos with_file fw_partial_len]. rewrite R1. split; lia.
  - cbn [fw_partial_pos with_file fw_partial_len]. rewrite R1. rewrite take_sub by lia. rewrite Z2Nat.id by lia. symmetry. apply sub_split; lia.
  - done.
  - rewrite app_nil_r. apply take_ge. cbn in Hb. pose proof (sub_length p (fw_partial_pos self) (lenZ p)) as L. unfold lenZ in *. lia.
Qed.

(** The buffer is full and writing it fails. *)
Definition flush_fails (self : LogProtoFileWriter) : bool :=
  bool_decide (fw_buf_count self >= fw_buf_size self) && match log_proto_file_writer_flush self with Ret (LPS_ERROR, _) => true | _ => false end.

(** The messages after a post.  A flush that fails before the new message is
    looked at drops the last one of the buffer. *)
Definition after_post (self : LogProtoFileWriter) (consumed : bool) (msg : bytes) (kept : list bytes) : list bytes :=
  if consumed then kept ++ [msg] else if flush_fails self then drop_last kept else kept.

Lemma flush_sum (self s1 : LogProtoFileWriter) (kept : list bytes) (rc : LogProtoStatus) : fw_ok self kept -> log_proto_file_writer_flush self = Ret (rc, s1) -> fw_sum_len s1 <= fw_sum_len self.
Proof.
  intros O. unfold log_proto_file_writer_flush. destruct (fw_buffer self) as [|b bs]; [by intros [= <- <-]|].
  destruct (log_transport_write _ _) as [[n| | |] file]; [|intros [= <- <-]; done..].
  destruct (if bool_decide _ then _ else _) as [s2|]; [|done]. cbn [obind]. intros [= <- <-]. cbn [fw_sum_len with_lines].
  pose proof (fw_sum _ _ O). pose proof (lenZ_nonneg (concat (fw_buffer self))). lia.
Qed.

(** The flush at the start of a post. *)
Lemma pre_flush_ok (self : LogProtoFileWriter) (kept : list bytes) : fw_ok self kept ->
  exists rc s1, (if bool_decide (fw_buf_count self >= fw_buf_size self) then log_proto_file_writer_flush self else Ret (LPS_SUCCESS, self)) = Ret (rc, s1) /\
    fw_acked s1 = fw_acked self /\ fw_sum_len s1 <= fw_sum_len self /\ flush_fails self = bool_decide (rc <> LPS_SUCCESS) /\
    fw_ok s1 (if flush_fails self then drop_last kept else kept).
Proof.
  intros O. unfold flush_fails. case_bool; cbn [andb]; [|by exists LPS_SUCCESS, self; split_and!].
  destruct (flush_writes self kept O) as (rc & s1 & E & A & B & H). exists rc, s1. rewrite E. split; [done|]. split; [done|]. split; [by eapply flush_sum|].
  destruct rc; [by split|..]; destruct H as (H1 & H2 & _); by try done.
Qed.

Lemma post_ok (self : LogProtoFileWriter) (kept : list bytes) (msg : bytes) : fw_ok self kept -> fw_sum_len self + lenZ msg < 2 ^ 31 ->
  exists st consumed self', log_proto_file_writer_post self msg = Ret (st, consumed, self') /\ fw_ok self' (after_post self consumed msg kept) /\
    (consumed = true -> st = LPS_SUCCESS /\ fw_acked self' = fw_acked self + 1).
Proof.
  intros O Hs. unfold log_proto_file_writer_post, after_post. destruct (pre_flush_ok self kept O) as (rc & s1 & -> & A & Sm & Fl & O1). cbn [obind].
  destruct (bool_decide_reflect (rc <> LPS_SUCCESS)) as [Hrc|Hrc]; cbn [orb].
  { do 3 eexists. split; [reflexivity|]. by split. }
  rewrite Fl in *. case_bool.
  { do 3 eexists. split; [reflexivity|]. by split. }
  destruct (fw_partial s1) as [p|] eqn:P.
  - pose proof (write_partial_ok s1 kept p O1 P) as W. destruct (write_partial s1 p) as [st s2]. destruct W as [W1 W2]. do 3 eexists. split; [reflexivity|]. by split.
  - destruct (register_ok s1 kept msg O1 P ltac:(lia) ltac:(lia)) as (st & c & s2 & E & O2 & C & A2). exists st, c, s2. split; [done|]. split; [by destruct c|].
    intros ->. symmetry in C. apply bool_decide_eq_true in C. split; [done|]. by rewrite A2, A.
Qed.

(** ** Runs *)

Inductive fw_run (iov_max flush_lines : Z) (answers : list write_result) : LogProtoFileWriter -> list bytes -> Prop :=
| fwr_new : fw_run iov_max flush_lines answers (log_proto_file_writer_new iov_max (mkTransport answers []) flush_lines) []
| fwr_post self kept msg st consumed self' : fw_run iov_max flush_lines answers self kept -> fw_sum_len self + lenZ msg < 2 ^ 31 ->
    log_proto_file_writer_post self msg = Ret (st, consumed, self') -> fw_run iov_max flush_lines answers self' (after_post self consumed msg kept)
| fwr_flush self kept st self' : fw_run iov_max flush_lines answers self kept -> log_proto_file_writer_flush self = Ret (st, self') ->
    fw_run iov_max flush_lines answers self' (if bool_decide (st = LPS_ERROR) then drop_last kept else kept).

Lemma fw_run_ok (iov_max flush_lines : Z) (answers : list write_result) (self : LogProtoFileWriter) (kept : list bytes) : 0 < iov_max -> 0 <= flush_lines ->
  fw_run iov_max flush_lines answers self kept -> fw_ok self kept.
Proof.
  intros Hi Hf. induction 1 as [|self kept msg st consumed self' _ IH Hs E|self kept st self' _ IH E].
  - unfold log_proto_file_writer_new. assert (B : 0 < (if bool_decide ((if bool_decide (flush_lines = 0) then 1 else flush_lines) > iov_max) then iov_max else if bool_decide (flush_lines = 0) then 1 else flush_lines)).
    { destruct (bool_decide_reflect (flush_lines = 0)); case_bool; lia. }
    split; cbn [fw_buf_size fw_buffer fw_partial fw_sum_len]; [exact B|unfold fw_buf_count; cbn [fw_buffer fw_buf_size]; rewrite lenZ_nil; lia|done|done|by exists []].
  - destruct (post_ok self kept msg IH Hs) as (st0 & c0 & s0 & E0 & O & _). rewrite E in E0. by injection E0 as <- <- <-.
  - destruct (flush_writes self kept IH) as (st0 & s0 & E0 & _ & _ & H). rewrite E in E0. injection E0 as <- <-. destruct st; [done|..]; by destruct H as (? & H & _).
Qed.

(** C23: Whatever part of its writes the system takes, the file, followed by the
    kept rest and the buffered messages, is the consumed messages in their
    order; a message is consumed only with success, and is then acknowledged
    once.  When the writer has nothing pending the file is all of them.  A
    flush that fails loses exactly the last buffered message, whether or not
    it had been consumed before. *)
Theorem file_writer_writes (iov_max flush_lines : Z) (answers : list write_result) (self : LogProtoFileWriter) (kept : list bytes) (msg : bytes) :
  0 < iov_max -> 0 <= flush_lines -> fw_run iov_max flush_lines answers self kept -> fw_sum_len self + lenZ msg < 2 ^ 31 ->
  file_of self ++ rest_of self ++ concat (fw_buffer self) = concat kept /\
  (log_proto_file_writer_prepare self = false -> file_of self = concat kept) /\
  (exists st consumed self', log_proto_file_writer_post self msg = Ret (st, consumed, self') /\ (consumed = true -> st = LPS_SUCCESS /\ fw_acked self' = fw_acked self + 1)) /\
  (exists st self', log_proto_file_writer_flush self = Ret (st, self') /\
     file_of self' ++ rest_of self' ++ concat (fw_buffer self') = concat (if bool_decide (st = LPS_ERROR) then drop_last kept else kept) /\
     (st <> LPS_SUCCESS -> st = LPS_ERROR /\ exists m, kept = drop_last kept ++ [m] /\ fw_buffer self = fw_buffer self' ++ [m])).
Proof.
  intros Hi Hf Hr Hs. pose proof (fw_run_ok _ _ _ _ _ Hi Hf Hr) as O.
  assert (Content : forall s k, fw_ok s k -> file_of s ++ rest_of s ++ concat (fw_buffer s) = concat k).
  { intros s k [_ _ _ _ (done & -> & W)]. by rewrite concat_app, <- W, app_assoc. }
  split; [by apply Content|]. split; [|split].
  - intros P. pose proof (Content _ _ O) as C. revert C P. unfold log_proto_file_writer_prepare, rest_of, fw_buf_count. destruct (fw_partial self); [by rewrite orb_true_r|].
    destruct (fw_buffer self) as [|b bs]; [simpl; by rewrite app_nil_r|]. intros _. rewrite bool_decide_eq_true_2; [done|]. rewrite lenZ_cons. pose proof (lenZ_nonneg bs). lia.
  - destruct (post_ok self kept msg O Hs) as (st & c & s1 & E & _ & H). by exists st, c, s1.
  - destruct (flush_writes self kept O) as (st & s1 & E & _ & _ & H). exists st, s1. split; [done|].
    assert (Q : st = LPS_SUCCESS \/ (st = LPS_ERROR /\ fw_ok s1 (drop_last kept) /\ fw_buffer self <> [] /\ fw_buffer s1 = drop_last (fw_buffer self))) by (destruct st; [by left|..]; right; destruct H as (H1 & H); try done).
    destruct Q as [-> |(-> & O1 & N & B)]; [split; [by apply Content|done]|]. split; [by apply Content|]. intros _. split; [done|].
    destruct (fw_content _ _ O) as (k0 & K & _). destruct (exists_last N) as (l & m & El). exists m. rewrite B, El, drop_last_snoc. rewrite K, El, app_assoc, drop_last_snoc. by split.
Qed.

Definition short_writes : list write_result := [WDone 3; WIntr; WDone 100; WError].

Lemma file_writer_writes_witness :
  exists self kept, fw_run 1024 2 short_writes self kept /\ kept = [bytes_of_string "ab"; bytes_of_string "cd"] /\
    file_of self ++ rest_of self ++ concat (fw_buffer self) = bytes_of_string "abcd" /\ file_of self = bytes_of_string "abc".
Proof.
  destruct (log_proto_file_writer_post (log_proto_file_writer_new 1024 (mkTransport short_writes []) 2) (bytes_of_string "ab")) as [[[st1 c1] s1]|] eqn:E1; [|discriminate].
  pose proof (fwr_post _ _ _ _ _ (bytes_of_string "ab") _ _ _ (fwr_new 1024 2 short_writes) ltac:(vm_compute; reflexivity) E1) as R1. vm_compute in E1. injection E1 as <- <- <-.
  destruct (log_proto_file_writer_post (mkFileWriter (mkTransport short_writes []) None 0 0 2 [bytes_of_string "ab"] 2 1) (bytes_of_string "cd")) as [[[st2 c2] s2]|] eqn:E2; [|discriminate].
  pose proof (fwr_post _ _ _ _ _ (bytes_of_string "cd") _ _ _ R1 ltac:(vm_compute; reflexivity) E2) as R2. vm_compute in E2. injection E2 as <- <- <-.
  eexists _, _. split; [exact R2|]. split; [reflexivity|].
  destruct (file_writer_writes 1024 2 short_writes _ _ [] ltac:(lia) ltac:(lia) R2 ltac:(vm_compute; reflexivity)) as [H _]. split; [exact H|reflexivity].
Defined.
