(* ===== verification/TextServer.v ===== *)
(** * Lines, records and datagrams from a transport (modules/basic-proto/basic-proto.c)

    The buffered server reads into a buffer of the size of the largest message
    and cuts messages out of it: lines for the text server, the whole content
    for the record and the datagram server.  It keeps the position in the stream
    of what was handed out.  With a prefix() pattern a message goes on until a
    line that matches, with a garbage() pattern too it ends where that matches.
    Character sets and the address of the sender are left out: the input is not
    converted.

    The transport and the pattern matcher are parameters; the bytes read in a
    call are returned with its result. *)
From S2P Require Import Prelude Buffer FindEom.

(** The fields of the state record and of the server that this uses. *)
Record LogProtoBufferedServer := mkBufferedServer {
  bs_buffer : bytes;                 (* empty until the first fetch *)
  bs_buffer_size : Z;
  bs_pending_buffer_pos : Z;
  bs_pending_buffer_end : Z;
  bs_buffer_cached_eol : Z;
  bs_pending_raw_stream_pos : Z;
  bs_pending_raw_buffer_size : Z;
  bs_max_msg_size : Z;
  bs_init_buffer_size : Z;
  bs_status : LogProtoStatus;
  bs_nomread : bool;                 (* LPBS_NOMREAD *)
  bs_ignore_eof : bool;              (* LPBS_IGNORE_EOF *)
  bs_pos_tracking : bool;            (* LPBS_POS_TRACKING *)
  bs_wait_for_prefix : bool;
  bs_has_to_update : bool            (* of LogProtoTextServer *)
}.

(** A pattern of pcre: where it matches in a line, from and to. *)
Definition matcher : Type := bytes -> option (Z * Z).

Record LogProtoServerOptions := mkServerOptions {
  opt_prefix_matcher : option matcher;
  opt_garbage_matcher : option matcher
}.

Record FileBookmarkData := mkFileBookmark {
  fb_pending_buffer_pos : Z;
  fb_pending_raw_stream_pos : Z;
  fb_pending_raw_buffer_size : Z
}.

Definition log_proto_buffered_server_init (max_msg_size init_buffer_size : Z) (nomread ignore_eof pos_tracking : bool) : LogProtoBufferedServer :=
  mkBufferedServer [] 0 0 0 0 0 0 max_msg_size init_buffer_size LPS_SUCCESS nomread ignore_eof pos_tracking false true.

Definition with_pending (self : LogProtoBufferedServer) (buffer : bytes) (pos end_ eol : Z) : LogProtoBufferedServer :=
  mkBufferedServer buffer (bs_buffer_size self) pos end_ eol (bs_pending_raw_stream_pos self) (bs_pending_raw_buffer_size self)
    (bs_max_msg_size self) (bs_init_buffer_size self) (bs_status self) (bs_nomread self) (bs_ignore_eof self) (bs_pos_tracking self) (bs_wait_for_prefix self) (bs_has_to_update self).
Definition with_raw (self : LogProtoBufferedServer) (stream_pos size : Z) : LogProtoBufferedServer :=
  mkBufferedServer (bs_buffer self) (bs_buffer_size self) (bs_pending_buffer_pos self) (bs_pending_buffer_end self) (bs_buffer_cached_eol self) stream_pos size
    (bs_max_msg_size self) (bs_init_buffer_size self) (bs_status self) (bs_nomread self) (bs_ignore_eof self) (bs_pos_tracking self) (bs_wait_for_prefix self) (bs_has_to_update self).
Definition with_status (self : LogProtoBufferedServer) (st : LogProtoStatus) : LogProtoBufferedServer :=
  mkBufferedServer (bs_buffer self) (bs_buffer_size self) (bs_pending_buffer_pos self) (bs_pending_buffer_end self) (bs_buffer_cached_eol self)
    (bs_pending_raw_stream_pos self) (bs_pending_raw_buffer_size self) (bs_max_msg_size self) (bs_init_buffer_size self) st
    (bs_nomread self) (bs_ignore_eof self) (bs_pos_tracking self) (bs_wait_for_prefix self) (bs_has_to_update self).
Definition with_wait (self : LogProtoBufferedServer) (wait update : bool) : LogProtoBufferedServer :=
  mkBufferedServer (bs_buffer self) (bs_buffer_size self) (bs_pending_buffer_pos self) (bs_pending_buffer_end self) (bs_buffer_cached_eol self)
    (bs_pending_raw_stream_pos self) (bs_pending_raw_buffer_size self) (bs_max_msg_size self) (bs_init_buffer_size self) (bs_status self)
    (bs_nomread self) (bs_ignore_eof self) (bs_pos_tracking self) wait update.
Definition alloc_buffer (self : LogProtoBufferedServer) : LogProtoBufferedServer :=
  match bs_buffer self with
  | [] => mkBufferedServer (replicate (Z.to_nat (bs_init_buffer_size self)) 0) (bs_init_buffer_size self) (bs_pending_buffer_pos self) (bs_pending_buffer_end self)
            (bs_buffer_cached_eol self) (bs_pending_raw_stream_pos self) (bs_pending_raw_buffer_size self) (bs_max_msg_size self) (bs_init_buffer_size self)
            (bs_status self) (bs_nomread self) (bs_ignore_eof self) (bs_pos_tracking self) (bs_wait_for_prefix self) (bs_has_to_update self)
  | _ => self
  end.

(** [find_eom] on [n] bytes from [pos] on, which must lie inside the buffer;
    the result is an index into the buffer. *)
Definition find_eom_at (buffer : bytes) (pos n : Z) : outcome (option Z) :=
  if bool_decide (0 <= pos /\ 0 <= n /\ pos + n <= lenZ buffer)
  then Ret ((fun i : nat => pos + Z.of_nat i) <$> find_eom false pos (sub buffer pos (pos + n)))
  else Abort.

(** The end of a message in front of the bytes that end lines. *)
Fixpoint strip_eol (rev_msg : bytes) : bytes :=
  match rev_msg with
  | c :: rest => if bool_decide (c = 13 \/ c = 10 \/ c = 0) then strip_eol rest else rev_msg
  | [] => []
  end.
Definition strip_msg (msg : bytes) : bytes := reverse (strip_eol (reverse msg)).

(** ** Multi-line messages *)

(** The lines from [line] on, the last one without its end, up to the first one
    that matches. *)
Fixpoint line_loop (fuel : nat) (regexec : matcher) (buffer : bytes) (line end_ : Z) : outcome (option (Z * Z * Z)) :=
  match fuel with
  | O => Abort
  | S fuel =>
      let! next_line := find_eom_at buffer line (end_ - line) in
      match next_line with
      | Some next_line =>
          match regexec (sub buffer line next_line) with
          | Some (found_pos, end_pos) => Ret (Some (line, found_pos, end_pos))
          | None => line_loop fuel regexec buffer (next_line + 1) end_
          end
      | None => Ret ((fun '(found_pos, end_pos) => (line, found_pos, end_pos)) <$> regexec (sub buffer line end_))
      end
  end.

(** The end of the message, the new value of [wait_for_prefix], and how far the
    read position moves. *)
Definition find_multi_line_eom (prefix : matcher) (garbage : option matcher) (wait_for_prefix : bool) (buffer : bytes) (start n : Z) : outcome (option Z * bool * Z) :=
  let fuel := S (S (Z.to_nat n)) in
  if wait_for_prefix then
    let! r := line_loop fuel prefix buffer start (start + n) in
    Ret (match r with Some (line, _, _) => (Some line, false, 0) | None => (None, true, 0) end)
  else
    match garbage with
    | Some garbage =>
        let! r := line_loop fuel garbage buffer start (start + n) in
        Ret (match r with Some (line, found_pos, end_pos) => (Some (line + found_pos), true, end_pos + line - start) | None => (None, false, 0) end)
    | None =>
        let! next_line := find_eom_at buffer start n in
        match next_line with
        | Some line =>
            let! r := line_loop fuel prefix buffer line (start + n) in
            Ret (match r with Some (line, _, _) => (Some line, false, 0) | None => (None, false, 0) end)
        | None => Ret (None, false, 0)
        end
    end.

(** ** Cutting messages out of the buffer *)

(** The result of [fetch_from_buf]: FALSE, or TRUE with a message or none. *)
Definition buf_result : Type := option (option bytes).

(** The message ends at [eol]: the read position moves behind it, and the end of
    the next message is looked up. *)
Definition take_line (opts : LogProtoServerOptions) (self : LogProtoBufferedServer) (start eol : Z) : outcome (buf_result * LogProtoBufferedServer) :=
  let buffer := bs_buffer self in
  let end_ := bs_pending_buffer_end self in
  let msg := strip_msg (sub buffer start eol) in
  let pos := match opt_prefix_matcher opts with
             | None => eol + 1
             | Some _ => if bs_has_to_update self then eol else bs_pending_buffer_pos self
             end in
  if bool_decide (end_ <> pos) then
    let! (eom, pos, wait, update) :=
      match opt_prefix_matcher opts with
      | None => let! eom := find_eom_at buffer pos (u32 (end_ - pos)) in Ret (eom, pos, bs_wait_for_prefix self, bs_has_to_update self)
      | Some prefix =>
          let! (eom, wait, new_pos) := find_multi_line_eom prefix (opt_garbage_matcher opts) (bs_wait_for_prefix self) buffer pos (u32 (end_ - pos)) in
          let pos := pos + new_pos in
          let update := if bool_decide (new_pos <> 0) then false else bs_has_to_update self in
          match eom with
          | Some eom' =>
              if bs_wait_for_prefix self && negb wait then
                let! (eom, wait, _) := find_multi_line_eom prefix (opt_garbage_matcher opts) wait buffer eom' (u32 (end_ - eom')) in
                Ret (eom, eom', wait, true)
              else Ret (eom, pos, wait, update)
          | None => Ret (eom, pos, wait, update)
          end
      end in
    let cached := match eom with Some eom => if bool_decide (eom > pos) then eom else 0 | None => 0 end in
    Ret (Some (Some msg), with_pending (with_wait self wait update) buffer pos end_ cached)
  else Ret (Some (Some msg), with_pending self buffer end_ end_ 0).

(** No end of a message was found. *)
Definition no_line (self : LogProtoBufferedServer) (start bytes_ : Z) : outcome (buf_result * LogProtoBufferedServer) :=
  let end_ := bs_pending_buffer_end self in
  let buffer := bs_buffer self in
  if bool_decide (bytes_ >= bs_max_msg_size self)
  then Ret (Some (Some (sub buffer start (start + bytes_))), with_pending self buffer end_ end_ 0)
  else
    let! buffer := mem_write buffer 0 (sub buffer start (start + bytes_)) in
    let self := with_pending self buffer 0 bytes_ 0 in
    if bs_pos_tracking self
    then Ret (None, with_raw self (bs_pending_raw_stream_pos self + (bs_pending_raw_buffer_size self - bytes_)) bytes_)
    else Ret (None, self).

(** The call that follows when a prefix was found after garbage is the only
    one: it does not wait any more. *)
Fixpoint text_fetch_from_buf (fuel : nat) (opts : LogProtoServerOptions) (self : LogProtoBufferedServer) (flush_the_rest : bool) : outcome (buf_result * LogProtoBufferedServer) :=
  match fuel with
  | O => Abort
  | S fuel =>
      let pos := bs_pending_buffer_pos self in
      let end_ := bs_pending_buffer_end self in
      let buffer := bs_buffer self in
      let bytes_ := u32 (end_ - pos) in
      if flush_the_rest then
        if (if opt_prefix_matcher opts is Some _ then true else false) && bs_wait_for_prefix self then Ret (Some None, self)
        else Ret (Some (Some (sub buffer pos (pos + bytes_))), with_pending self buffer end_ end_ (bs_buffer_cached_eol self))
      else if bool_decide (bs_buffer_cached_eol self <> 0) then take_line opts self pos (bs_buffer_cached_eol self)
      else
        match opt_prefix_matcher opts with
        | None =>
            let! eol := find_eom_at buffer pos bytes_ in
            match eol with Some eol => take_line opts self pos eol | None => no_line self pos bytes_ end
        | Some prefix =>
            let waited := bs_wait_for_prefix self in
            let! (eol, wait, new_pos) := find_multi_line_eom prefix (opt_garbage_matcher opts) waited buffer pos bytes_ in
            let self := with_pending self buffer (pos + new_pos) end_ 0 in
            let self := with_wait self wait (if bool_decide (new_pos <> 0) then false else bs_has_to_update self) in
            match eol with
            | Some eol =>
                if waited && negb wait then text_fetch_from_buf fuel opts (with_pending self buffer eol end_ 0) flush_the_rest
                else take_line opts self pos eol
            | None => no_line self pos bytes_
            end
        end
  end.
Definition log_proto_text_server_fetch_from_buf (opts : LogProtoServerOptions) := text_fetch_from_buf 2 opts.

(** A whole record, up to the first line end unless it is binary. *)
Definition log_proto_record_server_fetch_from_buf (binary : bool) (self : LogProtoBufferedServer) (flush_the_rest : bool) : outcome (buf_result * LogProtoBufferedServer) :=
  let pos := bs_pending_buffer_pos self in
  let end_ := bs_pending_buffer_end self in
  let! msg_end := (if binary then Ret end_
                   else let! eol := find_eom_at (bs_buffer self) pos (end_ - pos) in Ret (default end_ eol)) in
  Ret (Some (Some (sub (bs_buffer self) pos msg_end)), with_pending self (bs_buffer self) end_ end_ (bs_buffer_cached_eol self)).

Definition log_proto_dgram_server_fetch_from_buf (self : LogProtoBufferedServer) (flush_the_rest : bool) : outcome (buf_result * LogProtoBufferedServer) :=
  let pos := bs_pending_buffer_pos self in
  let end_ := bs_pending_buffer_end self in
  Ret (Some (Some (sub (bs_buffer self) pos end_)), with_pending self (bs_buffer self) end_ end_ (bs_buffer_cached_eol self)).

(** ** Fetching *)

Section fetch.
Context {T : Type}.
(** The method [read_data] of the server: at most that many bytes. *)
Context (read_data : T -> Z -> outcome (read_result * T)).
(** The method [fetch_from_buf] of the server. *)
Context (fetch_from_buf : LogProtoBufferedServer -> bool -> outcome (buf_result * LogProtoBufferedServer)).
Context (opts : LogProtoServerOptions).

(** An empty buffer is reset. *)
Definition log_proto_buffered_server_fetch_from_buf (self : LogProtoBufferedServer) (flush_the_rest : bool) : outcome (buf_result * LogProtoBufferedServer) :=
  if bool_decide (bs_pending_buffer_end self = bs_pending_buffer_pos self) then
    let self := if bs_pos_tracking self then with_raw self (bs_pending_raw_stream_pos self + bs_pending_raw_buffer_size self) 0 else self in
    Ret (None, with_pending self (bs_buffer self) 0 0 (bs_buffer_cached_eol self))
  else fetch_from_buf self flush_the_rest.

Definition _buffered_server_bookmark_fill (self : LogProtoBufferedServer) : FileBookmarkData :=
  mkFileBookmark (bs_pending_buffer_pos self) (bs_pending_raw_stream_pos self) (bs_pending_raw_buffer_size self).

Definition _log_proto_buffered_server_update_pos (self : LogProtoBufferedServer) : LogProtoBufferedServer :=
  if bool_decide (bs_pending_buffer_pos self = bs_pending_buffer_end self) then
    let self := with_pending self (bs_buffer self) 0 0 (bs_buffer_cached_eol self) in
    if bs_pos_tracking self then with_raw self (bs_pending_raw_stream_pos self + bs_pending_raw_buffer_size self) 0 else self
  else self.

(** The transport failed or ended: the rest is handed out now, the status
    with the next call. *)
Definition fetch_last (self : LogProtoBufferedServer) (st : LogProtoStatus) (t : T) (got : bytes) : outcome ((LogProtoStatus * option bytes) * LogProtoBufferedServer * T * bytes) :=
  let! (msg, self) := log_proto_buffered_server_fetch_from_buf (with_status self st) true in
  Ret (match msg with Some msg => (LPS_SUCCESS, msg) | None => (st, None) end, self, t, got).

(** The loop; it reads on until a message is complete. *)
Fixpoint read_loop (fuel : nat) (self : LogProtoBufferedServer) (may_read : bool) (t : T) (got : bytes) : outcome ((LogProtoStatus * option bytes) * LogProtoBufferedServer * T * bytes) :=
  match fuel with
  | O => Abort
  | S fuel =>
      if negb may_read then Ret ((LPS_SUCCESS, None), self, t, got)
      else
        let may_read := if bs_nomread self then false else true in
        let avail := bs_buffer_size self - bs_pending_buffer_end self in
        let! (rc, t) := read_data t avail in
        match rc with
        | RAgain => Ret ((LPS_SUCCESS, None), self, t, got)
        | RError => fetch_last self LPS_ERROR t got
        | REof => if bs_ignore_eof self then Ret ((LPS_SUCCESS, None), self, t, got) else fetch_last self LPS_EOF t got
        | RData bs =>
            let! buffer := mem_write (bs_buffer self) (bs_pending_buffer_end self) bs in
            let self := with_raw self (bs_pending_raw_stream_pos self) (bs_pending_raw_buffer_size self + lenZ bs) in
            let self := with_pending self buffer (bs_pending_buffer_pos self) (bs_pending_buffer_end self + lenZ bs) (bs_buffer_cached_eol self) in
            let! (msg, self) := log_proto_buffered_server_fetch_from_buf self false in
            match msg with
            | Some msg => Ret ((LPS_SUCCESS, msg), self, t, got ++ bs)
            | None => read_loop fuel self may_read t (got ++ bs)
            end
        end
  end.

(** The [flush] request of the reader: everything, without its last newline. *)
Definition fetch_flush (self : LogProtoBufferedServer) : option bytes * LogProtoBufferedServer :=
  if (if opt_garbage_matcher opts is Some _ then true else false) && bs_wait_for_prefix self then (None, self)
  else
    let msg := sub (bs_buffer self) (bs_pending_buffer_pos self) (bs_pending_buffer_end self) in
    (match msg with
     | [] => None
     | _ => match opt_garbage_matcher opts with
            | Some garbage => match garbage msg with Some _ => None | None => Some msg end
            | None => Some (match last msg with Some 10 => take (length msg - 1) msg | _ => msg end)
            end
     end,
     with_pending self (bs_buffer self) (bs_pending_buffer_end self) (bs_pending_buffer_end self) (bs_buffer_cached_eol self)).

Record fetched_msg := mkFetched {
  fm_status : LogProtoStatus;
  fm_msg : option bytes;
  fm_bookmark : option FileBookmarkData;
  fm_self : LogProtoBufferedServer;
  fm_transport : T;
  fm_got : bytes
}.

(** The part behind the label [exit]: errors stay, a message gets a bookmark. *)
Definition fetch_exit (r : (LogProtoStatus * option bytes) * LogProtoBufferedServer * T * bytes) : fetched_msg :=
  let '((result, msg), self, t, got) := r in
  if bool_decide (result <> LPS_SUCCESS) then mkFetched result msg None (with_status self result) t got
  else
    match msg with
    | Some _ => mkFetched result msg (Some (_buffered_server_bookmark_fill self)) (_log_proto_buffered_server_update_pos self) t got
    | None => mkFetched result msg None self t got
    end.

Definition log_proto_buffered_server_fetch (self : LogProtoBufferedServer) (may_read flush : bool) (t : T) : outcome fetched_msg :=
  let self := alloc_buffer self in
  let self := if bool_decide (bs_buffer_cached_eol self = 2 ^ 32 - 1)
              then with_pending self (bs_buffer self) (bs_pending_buffer_pos self) (bs_pending_buffer_end self) 0 else self in
  if flush then let '(msg, self) := fetch_flush self in Ret (fetch_exit ((LPS_SUCCESS, msg), self, t, []))
  else if bool_decide (bs_status self <> LPS_SUCCESS) then Ret (fetch_exit ((bs_status self, None), self, t, []))
  else
    let! (msg, self) := log_proto_buffered_server_fetch_from_buf self false in
    match msg with
    | Some msg => Ret (fetch_exit ((LPS_SUCCESS, msg), self, t, []))
    | None =>
        let! r := read_loop (2 * Z.to_nat (bs_buffer_size self) + 2) self may_read t [] in
        Ret (fetch_exit r)
    end.
End fetch.

(** The position in the stream behind a message. *)
Definition log_proto_text_server_get_pending_pos (bookmark : FileBookmarkData) : Z := fb_pending_raw_stream_pos bookmark + fb_pending_buffer_pos bookmark.

Definition log_proto_text_server_is_preemptable (self : LogProtoBufferedServer) : bool := bool_decide (bs_buffer_cached_eol self = 0).
(** [prepare]: a complete line is waiting. *)
Definition log_proto_text_server_prepare (self : LogProtoBufferedServer) : bool := bool_decide (bs_buffer_cached_eol self <> 0).

Definition log_proto_text_server_new (max_msg_size : Z) (nomread ignore_eof pos_tracking : bool) : LogProtoBufferedServer :=
  log_proto_buffered_server_init max_msg_size max_msg_size nomread ignore_eof pos_tracking.
Definition log_proto_dgram_server_new (max_msg_size : Z) (nomread pos_tracking : bool) : LogProtoBufferedServer :=
  log_proto_buffered_server_init max_msg_size max_msg_size nomread true pos_tracking.
Definition log_proto_record_server_new (record_size : Z) (nomread ignore_eof pos_tracking : bool) : LogProtoBufferedServer :=
  log_proto_buffered_server_init record_size record_size nomread ignore_eof pos_tracking.

(** A read of at most [len] bytes from the transport. *)
Definition log_proto_buffered_server_read_data {T : Type} (read : T -> Z -> read_result * T) (t : T) (len : Z) : outcome (read_result * T) := Ret (read t len).
(** Records are read whole or not at all. *)
Definition log_proto_record_server_read_data {T : Type} (read : T -> Z -> read_result * T) (record_size : Z) (t : T) (len : Z) : outcome (read_result * T) :=
  let! _ := g_assert (bool_decide (len <= record_size)) in
  let '(rc, t) := read t record_size in
  Ret (match rc with RData bs => if bool_decide (lenZ bs <> record_size) then RError else RData bs | rc => rc end, t).
