(* ===== verification/TextServerSpec.v ===== *)
(** * Where a message ends *)
From S2P Require Import Prelude Buffer FindEom TextServer.

(** ** The first line that matches *)

Definition line_start (s : bytes) (i : nat) : bool := match i with O => true | S i => if s !! i is Some b then is_eom b else false end.
Definition line_at (s : bytes) (i : nat) : bytes := let l := drop i s in if first_eom l is Some j then take j l else l.
Definition matches (m : matcher) (l : bytes) : bool := if m l is Some _ then true else false.

(** The first line but the first one that matches. *)
Definition matching_line (m : matcher) (s : bytes) : option nat := find (fun i => line_start s i && matches m (line_at s i)) (seq 1 (length s)).

(** The end of the first message: a line end, or the start of a line with the
    prefix. *)
Definition message_end (prefix : option matcher) (s : bytes) : option nat :=
  match prefix with None => first_eom s | Some m => matching_line m s end.
(** What is left out between two messages. *)
Definition skipped (prefix : option matcher) : nat := match prefix with None => 1 | Some _ => 0 end.

(** The patterns this is about: not the empty line, and of a line what matches
    its start. *)
Definition prefix_pattern (prefix : option matcher) : Prop :=
  match prefix with None => True | Some m => m [] = None /\ forall l x, matches m l = true -> matches m (l ++ x) = true end.

Lemma scan_lt (s : bytes) (p i : nat) : scan s p = Some i -> (p <= i < p + length s)%nat.
Proof.
  revert p. induction s as [|b s IH]; intros p H; [done|]. cbn [scan] in H. destruct (is_eom b); [injection H as <-; simpl; lia|].
  apply IH in H. simpl. lia.
Qed.

Lemma first_eom_lt (s : bytes) (i : nat) : first_eom s = Some i -> (i < length s)%nat.
Proof. intros H. apply scan_lt in H. lia. Qed.

Lemma first_eom_app (s t : bytes) (i : nat) : first_eom s = Some i -> first_eom (s ++ t) = Some i.
Proof. unfold first_eom. intros H. by rewrite scan_app, H. Qed.

Lemma first_eom_cons (b : Z) (s : bytes) : first_eom (b :: s) = if is_eom b then Some 0%nat else S <$> first_eom s.
Proof. unfold first_eom. cbn [scan]. destruct (is_eom b); [done|]. by rewrite scan_shift. Qed.

Lemma first_eom_at (s : bytes) (i : nat) : first_eom s = Some i -> exists b, s !! i = Some b /\ is_eom b = true.
Proof.
  revert i. induction s as [|b s IH]; intros i; [done|]. rewrite first_eom_cons. destruct (is_eom b) eqn:E; [intros [= <-]; by exists b|].
  destruct (first_eom s) as [j|]; [|done]. intros [= <-]. by apply IH.
Qed.

Lemma first_eom_before (s : bytes) (j : nat) (b : Z) : s !! j = Some b -> is_eom b = true -> exists i, first_eom s = Some i /\ (i <= j)%nat.
Proof.
  revert j. induction s as [|c s IH]; intros j Hj Hb; [done|]. rewrite first_eom_cons. destruct (is_eom c) eqn:E; [exists 0%nat; split; [done|lia]|].
  destruct j as [|j]; [simpl in Hj; congruence|]. destruct (IH j Hj Hb) as (i & -> & Hi). exists (S i). split; [done|lia].
Qed.

Lemma find_first (P : nat -> bool) (a n : nat) :
  match find P (seq a n) with
  | Some i => P i = true /\ (a <= i < a + n)%nat /\ forall j, (a <= j < i)%nat -> P j = false
  | None => forall j, (a <= j < a + n)%nat -> P j = false
  end.
Proof.
  revert a. induction n as [|n IH]; intros a; simpl; [lia|]. destruct (P a) eqn:E; [split; [done|split; lia]|]. specialize (IH (S a)).
  destruct (find P (seq (S a) n)) as [i|].
  - destruct IH as (I1 & I2 & I3). split; [done|]. split; [lia|]. intros j Hj. destruct (decide (j = a)) as [->|]; [done|apply I3; lia].
  - intros j Hj. destruct (decide (j = a)) as [->|]; [done|apply IH; lia].
Qed.

Lemma find_is (P : nat -> bool) (a n i : nat) : P i = true -> (a <= i < a + n)%nat -> (forall j, (a <= j < i)%nat -> P j = false) -> find P (seq a n) = Some i.
Proof.
  intros H1 H2 H3. pose proof (find_first P a n) as F. destruct (find P (seq a n)) as [k|]; [|by rewrite F in H1 by lia].
  destruct F as (F1 & F2 & F3). f_equal. destruct (Nat.lt_trichotomy k i) as [?|[?|?]]; [by rewrite H3 in F1 by lia|done|by rewrite F3 in H1 by lia].
Qed.

Lemma find_none (P : nat -> bool) (a n : nat) : (forall j, (a <= j < a + n)%nat -> P j = false) -> find P (seq a n) = None.
Proof. intros H. pose proof (find_first P a n) as F. destruct (find P (seq a n)) as [k|]; [|done]. destruct F as (F1 & F2 & _). by rewrite H in F1. Qed.

(** ** More bytes do not change where a message ends *)

Lemma line_start_app (s t : bytes) (i : nat) : (i <= length s)%nat -> line_start (s ++ t) i = line_start s i.
Proof. intros H. destruct i as [|i]; [done|]. simpl. by rewrite lookup_app_l by lia. Qed.

Lemma line_at_app (s t : bytes) (i j : nat) : (i < j <= length s)%nat -> line_start s j = true -> line_at (s ++ t) i = line_at s i.
Proof.
  intros H Hj. unfold line_at. destruct j as [|j]; [lia|]. simpl in Hj. destruct (s !! j) as [b|] eqn:E; [|done].
  destruct (first_eom_before (drop i s) (j - i) b) as (k & Hk & _); [rewrite lookup_drop; by replace (i + (j - i))%nat with j by lia|done|].
  rewrite drop_app_le by lia. rewrite Hk, (first_eom_app _ _ _ Hk). by rewrite take_app_le by (apply first_eom_lt in Hk; lia).
Qed.

Lemma line_at_prefix (s t : bytes) (i : nat) : (i <= length s)%nat -> exists x, line_at (s ++ t) i = line_at s i ++ x.
Proof.
  intros H. unfold line_at. rewrite drop_app_le by done. destruct (first_eom (drop i s)) as [k|] eqn:Hk.
  - rewrite (first_eom_app _ _ _ Hk). rewrite take_app_le by (apply first_eom_lt in Hk; lia). exists []. by rewrite app_nil_r.
  - destruct (first_eom (drop i s ++ t)) as [k|] eqn:Hk2; [|by exists t].
    assert (Hl : (length (drop i s) <= k)%nat).
    { destruct (decide (k < length (drop i s))%nat); [|lia]. destruct (first_eom_at _ _ Hk2) as (b & Hb & Eb). rewrite lookup_app_l in Hb by done.
      destruct (first_eom_before _ _ _ Hb Eb) as (? & ? & _). congruence. }
    rewrite take_app_ge by done. by eexists.
Qed.

Lemma message_end_app (prefix : option matcher) (s t : bytes) (i : nat) : prefix_pattern prefix -> message_end prefix s = Some i -> message_end prefix (s ++ t) = Some i.
Proof.
  destruct prefix as [m|]; [|intros _; apply first_eom_app]. intros [_ Hm]. unfold message_end, matching_line. intros H.
  pose proof (find_first (fun i => line_start s i && matches m (line_at s i)) 1 (length s)) as F. rewrite H in F. destruct F as (F1 & F2 & F3). apply andb_prop in F1 as [F1 F4].
  apply find_is; [|rewrite length_app; lia|].
  - rewrite line_start_app, F1 by lia. destruct (line_at_prefix s t i ltac:(lia)) as [x ->]. by rewrite Hm.
  - intros j Hj. rewrite line_start_app by lia. rewrite (line_at_app s t j i) by (done || lia). apply F3. lia.
Qed.

Lemma message_end_le (prefix : option matcher) (s : bytes) (i : nat) : message_end prefix s = Some i -> (i + skipped prefix <= length s)%nat.
Proof.
  destruct prefix as [m|]; simpl; [|intros H; apply first_eom_lt in H; lia]. unfold matching_line. intros H.
  pose proof (find_first (fun i => line_start s i && matches m (line_at s i)) 1 (length s)) as F. rewrite H in F. lia.
Qed.

(** ** The search in the buffer *)

Lemma find_eom_at_ok (l : bytes) (pos n : Z) : Forall is_byte l -> 0 <= pos -> 0 <= n -> pos + n <= lenZ l ->
  find_eom_at l pos n = Ret ((fun i : nat => pos + Z.of_nat i) <$> first_eom (sub l pos (pos + n))).
Proof. intros Hl H1 H2 H3. unfold find_eom_at. rewrite bool_decide_eq_true_2 by done. by rewrite find_eom_first by (by apply sub_bytes). Qed.

Lemma no_start (s : bytes) (o j : nat) : (o < j)%nat -> match first_eom (drop o s) with Some k => (j <= o + k)%nat | None => True end -> line_start s j = false.
Proof.
  intros Hj Hk. destruct j as [|j]; [lia|]. simpl. destruct (s !! j) as [b|] eqn:E; [|done]. destruct (is_eom b) eqn:Eb; [exfalso|done].
  destruct (first_eom_before (drop o s) (j - o) b) as (i & Hi & Hle); [rewrite lookup_drop; by replace (o + (j - o))%nat with j by lia|done|].
  rewrite Hi in Hk. lia.
Qed.

Section search.
Context (m : matcher) (l : bytes) (start end_ : Z).
Context (Hl : Forall is_byte l) (Hpos : 0 <= start <= end_) (Hend : end_ <= lenZ l).

Lemma eom_from (o : nat) : Z.of_nat o <= end_ - start ->
  find_eom_at l (start + Z.of_nat o) (end_ - (start + Z.of_nat o)) = Ret ((fun i : nat => start + Z.of_nat (o + i)) <$> first_eom (drop o (sub l start end_))).
Proof.
  intros Ho. rewrite find_eom_at_ok by (done || lia). rewrite drop_sub by lia. replace (start + Z.of_nat o + (end_ - (start + Z.of_nat o))) with end_ by lia.
  destruct (first_eom _) as [i|]; [|done]. cbn. do 2 f_equal. lia.
Qed.

Definition loop_found (r : option (Z * Z * Z)) : Prop :=
  match matching_line m (sub l start end_) with Some i => exists f e, r = Some (start + Z.of_nat i, f, e) | None => r = None end.

Lemma line_loop_ok (fuel : nat) : forall o, (1 <= o)%nat -> Z.of_nat o <= end_ - start -> (Z.to_nat (end_ - start) - o < fuel)%nat -> line_start (sub l start end_) o = true ->
  (forall j, (1 <= j < o)%nat -> line_start (sub l start end_) j && matches m (line_at (sub l start end_) j) = false) ->
  exists r, line_loop fuel m l (start + Z.of_nat o) end_ = Ret r /\ loop_found r.
Proof.
  induction fuel as [|fuel IH]; intros o Ho1 Ho2 Hf Hs Hno; [lia|]. cbn [line_loop]. rewrite eom_from by done. cbn [obind]. set (s := sub l start end_) in *.
  assert (Ls : lenZ s = end_ - start) by (apply sub_length; lia). unfold lenZ in Ls.
  assert (Found : forall f e, m (line_at s o) = Some (f, e) -> loop_found (Some (start + Z.of_nat o, f, e))).
  { intros f e E. unfold loop_found. fold s. unfold matching_line. rewrite (find_is _ 1 (length s) o); [by exists f, e| |lia|exact Hno]. unfold matches. by rewrite Hs, E. }
  assert (Not : m (line_at s o) = None -> forall j, (1 <= j <= o)%nat -> line_start s j && matches m (line_at s j) = false).
  { intros E j Hj. destruct (decide (j = o)) as [->|]; [unfold matches; by rewrite E, andb_false_r|apply Hno; lia]. }
  destruct (first_eom (drop o s)) as [k|] eqn:F; cbn [fmap option_fmap option_map].
  - pose proof (first_eom_lt _ _ F) as Hk. rewrite length_drop in Hk.
    assert (La : line_at s o = sub l (start + Z.of_nat o) (start + Z.of_nat (o + k))) by (unfold line_at; rewrite F; unfold s; rewrite drop_sub, take_sub by lia; f_equal; lia).
    rewrite <- La. destruct (m (line_at s o)) as [[f e]|] eqn:Em; [eexists; split; [reflexivity|by apply Found]|].
    replace (start + Z.of_nat (o + k) + 1) with (start + Z.of_nat (o + k + 1)) by lia. apply IH; try lia.
    + rewrite Nat.add_1_r. simpl. destruct (first_eom_at _ _ F) as (b & Hb & Eb). rewrite lookup_drop in Hb. by rewrite Hb.
    + intros j Hj. destruct (decide (j <= o)%nat); [apply Not; [done|lia]|]. rewrite (no_start s o j); [done|lia|rewrite F; lia].
  - assert (La : line_at s o = sub l (start + Z.of_nat o) end_) by (unfold line_at; rewrite F; unfold s; by rewrite drop_sub by lia).
    rewrite <- La. eexists. split; [reflexivity|]. destruct (m (line_at s o)) as [[f e]|] eqn:Em; [by apply Found|].
    unfold loop_found. fold s. unfold matching_line. rewrite find_none; [done|]. intros j Hj. destruct (decide (j <= o)%nat); [apply Not; [done|lia]|].
    rewrite (no_start s o j); [done|lia|by rewrite F].
Qed.

Lemma line_loop_S (fuel : nat) (line e : Z) : line_loop (S fuel) m l line e =
  (let! next_line := find_eom_at l line (e - line) in
   match next_line with
   | Some next_line => match m (sub l line next_line) with Some (f, p) => Ret (Some (line, f, p)) | None => line_loop fuel m l (next_line + 1) e end
   | None => Ret ((fun '(f, p) => (line, f, p)) <$> m (sub l line e))
   end).
Proof. done. Qed.

Lemma find_multi_ok : m [] = None ->
  find_multi_line_eom m None false l start (end_ - start) = Ret ((fun i : nat => start + Z.of_nat i) <$> matching_line m (sub l start end_), false, 0).
Proof.
  intros Hm. unfold find_multi_line_eom. replace (start + (end_ - start)) with end_ by lia. set (s := sub l start end_) in *.
  assert (Ls : lenZ s = end_ - start) by (apply sub_length; lia). unfold lenZ in Ls.
  pose proof (eom_from 0 ltac:(lia)) as E0. rewrite Z.add_0_r, drop_0 in E0. rewrite E0. cbn [obind]. fold s.
  destruct (first_eom s) as [k|] eqn:F; cbn [fmap option_fmap option_map].
  - pose proof (first_eom_lt _ _ F) as Hk. rewrite line_loop_S, eom_from by lia. fold s. destruct (first_eom_at _ _ F) as (b & Hb & Eb).
    assert (F2 : first_eom (drop k s) = Some 0%nat) by (rewrite (drop_S s b k Hb), first_eom_cons, Eb; done). rewrite Nat.add_0_l, F2. cbn [obind fmap option_fmap option_map].
    rewrite Nat.add_0_r, sub_nil, Hm.
    destruct (line_loop_ok (S (Z.to_nat (end_ - start))) (k + 1)) as (r & Er & Hr); [lia|lia|lia|rewrite Nat.add_1_r; simpl; fold s; by rewrite Hb| |].
    { intros j Hj. fold s. rewrite (no_start s 0 j); [done|lia|rewrite drop_0, F; lia]. }
    replace (start + Z.of_nat (k + 1)) with (start + Z.of_nat k + 1) in Er by lia. unfold loop_found in Hr. fold s in Hr.
    rewrite Er. cbn [obind].
    destruct (matching_line m s) as [i|]; [destruct Hr as (f & e & ->)|rewrite Hr]; done.
  - assert (N : matching_line m s = None); [|by rewrite N]. unfold matching_line. apply find_none. intros j Hj. rewrite (no_start s 0 j); [done|lia|by rewrite drop_0, F].
Qed.
End search.

(** * The text server cuts the stream into messages *)

Section text_server.
(** Lines, or messages that start with lines of a prefix. *)
Context (prefix : option matcher) (Hprefix : prefix_pattern prefix).
#[local] Abbreviation opts := (mkServerOptions prefix None).

(** ** The messages of a stream *)

(** The first message of a stream and what follows it: up to its end, or a
    full buffer without one.  [None]: the message is not complete. *)
Definition next_msg (max : Z) (s : bytes) : option (bytes * bytes) :=
  match message_end prefix (take (Z.to_nat max) s) with
  | Some i => Some (strip_msg (take i s), drop (i + skipped prefix) s)
  | None => if bool_decide (max <= lenZ s) then Some (take (Z.to_nat max) s, drop (Z.to_nat max) s) else None
  end.

(** The stream [s] starts with the messages [ms] and continues with [r]. *)
Inductive splits (max : Z) (s : bytes) : list bytes -> bytes -> Prop :=
| splits_nil : splits max s [] s
| splits_snoc ms r m r' : splits max s ms r -> next_msg max r = Some (m, r') -> splits max s (ms ++ [m]) r'.

Lemma next_msg_app (max : Z) (s t : bytes) (m r : bytes) : next_msg max s = Some (m, r) -> next_msg max (s ++ t) = Some (m, r ++ t).
Proof.
  unfold next_msg. destruct (message_end prefix (take (Z.to_nat max) s)) as [i|] eqn:E.
  - intros [= <- <-]. pose proof (message_end_le _ _ _ E) as Hi. rewrite length_take in Hi.
    rewrite take_app, (message_end_app _ _ _ i Hprefix E). rewrite take_app_le, drop_app_le by lia. done.
  - case_bool; [|done]. intros [= <- <-]. unfold lenZ in Hb. rewrite take_app_le, E by lia. rewrite bool_decide_eq_true_2 by (rewrite lenZ_app; unfold lenZ; lia).
    by rewrite drop_app_le by lia.
Qed.

Lemma splits_app (max : Z) (s t : bytes) (ms : list bytes) (r : bytes) : splits max s ms r -> splits max (s ++ t) ms (r ++ t).
Proof. induction 1 as [|ms r m r' _ IH E]; [constructor|]. econstructor; [exact IH|by apply next_msg_app]. Qed.

Lemma splits_fun (max : Z) (s : bytes) (ms : list bytes) (r r' : bytes) : splits max s ms r -> splits max s ms r' -> r = r'.
Proof.
  intros H. revert r'. induction H as [|ms r m r1 _ IH E]; intros r' H'; inversion H' as [Hn|ms' r2 m' r3 H2 E2 Hn]; [done|by destruct ms'|by destruct ms|].
  apply app_inj_tail in Hn as [-> ->]. rewrite (IH _ H2) in E. congruence.
Qed.

Lemma splits_suffix (max : Z) (s : bytes) (ms : list bytes) (r : bytes) : splits max s ms r -> exists k, s = k ++ r.
Proof.
  induction 1 as [|ms r m r' _ [k ->] E]; [by exists []|]. revert E. unfold next_msg. destruct (message_end _ _) as [i|].
  - intros [= _ <-]. exists (k ++ take (i + skipped prefix) r). by rewrite <- app_assoc, take_drop.
  - case_bool; [|done]. intros [= _ <-]. exists (k ++ take (Z.to_nat max) r). by rewrite <- app_assoc, take_drop.
Qed.

(** ** The buffer *)

Definition unread (self : LogProtoBufferedServer) : bytes := sub (bs_buffer self) (bs_pending_buffer_pos self) (bs_pending_buffer_end self).

Record ts_geo (max : Z) (self : LogProtoBufferedServer) : Prop := {
  tg_max : bs_max_msg_size self = max;
  tg_size : bs_buffer_size self = max;
  tg_len : lenZ (bs_buffer self) = max;
  tg_bytes : Forall is_byte (bs_buffer self);
  tg_pos : 0 <= bs_pending_buffer_pos self <= bs_pending_buffer_end self;
  tg_end : bs_pending_buffer_end self <= max;
  tg_eol : bs_buffer_cached_eol self = 0 \/ (bs_pending_buffer_pos self < bs_buffer_cached_eol self <= bs_pending_buffer_end self /\
             message_end prefix (unread self) = Some (Z.to_nat (bs_buffer_cached_eol self - bs_pending_buffer_pos self)));
  tg_wait : bs_wait_for_prefix self = false;
  tg_update : bs_has_to_update self = true
}.

(** The position in the stream. *)
Definition ts_raw (self : LogProtoBufferedServer) (delivered : bytes) : Prop :=
  bs_pos_tracking self = true -> bs_pending_raw_stream_pos self + bs_pending_raw_buffer_size self = lenZ delivered /\
  bs_pending_raw_buffer_size self = bs_pending_buffer_end self.

Record ts_ok (max : Z) (self : LogProtoBufferedServer) (emitted : list bytes) (delivered : bytes) : Prop := {
  ts_g : ts_geo max self;
  ts_r : ts_raw self delivered;
  ts_s : splits max delivered emitted (unread self)
}.

Lemma unread_len (max : Z) (self : LogProtoBufferedServer) : ts_geo max self -> lenZ (unread self) = bs_pending_buffer_end self - bs_pending_buffer_pos self.
Proof. intros G. apply sub_length; destruct G; lia. Qed.

Lemma next_msg_unread (max : Z) (self : LogProtoBufferedServer) : ts_geo max self -> next_msg max (unread self) =
  match message_end prefix (unread self) with
  | Some i => Some (strip_msg (take i (unread self)), drop (i + skipped prefix) (unread self))
  | None => if bool_decide (max <= lenZ (unread self)) then Some (unread self, []) else None
  end.
Proof.
  intros G. pose proof (unread_len max self G) as L. assert (Hle : (length (unread self) <= Z.to_nat max)%nat) by (unfold lenZ in L; destruct G; lia).
  unfold next_msg. rewrite take_ge by done. destruct (message_end prefix (unread self)); [done|]. case_bool; [|done]. by rewrite drop_ge.
Qed.

(** ** One message from the buffer *)

(** What the operations on the buffer leave alone. *)
Record ts_same (self self' : LogProtoBufferedServer) : Prop := {
  tm_status : bs_status self' = bs_status self;
  tm_tracking : bs_pos_tracking self' = bs_pos_tracking self;
  tm_nomread : bs_nomread self' = bs_nomread self;
  tm_ignore : bs_ignore_eof self' = bs_ignore_eof self
}.

Lemma ts_same_trans (a b c : LogProtoBufferedServer) : ts_same a b -> ts_same b c -> ts_same a c.
Proof. intros [] []. split; congruence. Qed.

Lemma take_line_ok (max : Z) (self : LogProtoBufferedServer) (emitted : list bytes) (delivered : bytes) (i : nat) : 0 < max < 2 ^ 31 -> ts_ok max self emitted delivered ->
  message_end prefix (unread self) = Some i ->
  exists self', take_line opts self (bs_pending_buffer_pos self) (bs_pending_buffer_pos self + Z.of_nat i) = Ret (Some (Some (strip_msg (take i (unread self)))), self') /\
    ts_ok max self' (emitted ++ [strip_msg (take i (unread self))]) delivered /\ ts_same self self' /\ unread self' = drop (i + skipped prefix) (unread self).
Proof.
  intros Hmax [G R S] F. pose proof (next_msg_unread max self G) as N. pose proof (unread_len max self G) as L. pose proof G as [G1 G2 G3 G4 G5 G6 G7 G8 G9].
  pose proof (message_end_le _ _ _ F) as Hi. rewrite F in N. unfold lenZ in L.
  set (pos' := bs_pending_buffer_pos self + Z.of_nat (i + skipped prefix)).
  assert (U : drop (i + skipped prefix) (unread self) = sub (bs_buffer self) pos' (bs_pending_buffer_end self)) by (unfold unread; rewrite drop_sub by lia; f_equal; unfold pos'; lia).
  assert (M : sub (bs_buffer self) (bs_pending_buffer_pos self) (bs_pending_buffer_pos self + Z.of_nat i) = take i (unread self)) by (unfold unread; rewrite take_sub by lia; done).
  assert (Done : forall self' c, bs_buffer self' = bs_buffer self -> bs_pending_buffer_pos self' = pos' -> bs_pending_buffer_end self' = bs_pending_buffer_end self ->
    bs_buffer_cached_eol self' = c -> (c = 0 \/ (pos' < c <= bs_pending_buffer_end self /\ message_end prefix (drop (i + skipped prefix) (unread self)) = Some (Z.to_nat (c - pos')))) ->
    bs_wait_for_prefix self' = false -> bs_has_to_update self' = true -> bs_max_msg_size self' = max -> bs_buffer_size self' = max -> ts_same self self' ->
    bs_pending_raw_stream_pos self' = bs_pending_raw_stream_pos self -> bs_pending_raw_buffer_size self' = bs_pending_raw_buffer_size self ->
    ts_ok max self' (emitted ++ [strip_msg (take i (unread self))]) delivered /\ ts_same self self' /\ unread self' = drop (i + skipped prefix) (unread self)).
  { intros self' c B1 B2 B3 B4 B5 B6 B7 B8 B9 Sm B10 B11. assert (U' : unread self' = drop (i + skipped prefix) (unread self)) by (rewrite U; unfold unread; by rewrite B1, B2, B3).
    split; [|done]. split; [|unfold ts_raw; destruct Sm as [_ -> _ _]; by rewrite B10, B11, B3|econstructor; [exact S|by rewrite N, U']].
    split; rewrite ?U', ?B1, ?B2, ?B3, ?B4; try done; lia. }
  unfold take_line. rewrite M.
  assert (P : match opt_prefix_matcher opts with None => bs_pending_buffer_pos self + Z.of_nat i + 1 | Some _ => if bs_has_to_update self then bs_pending_buffer_pos self + Z.of_nat i else bs_pending_buffer_pos self end = pos').
  { rewrite G9. unfold pos'. destruct prefix; simpl; lia. }
  rewrite P. case_bool.
  - rewrite u32_small by lia.
    set (search := match opt_prefix_matcher opts with None => _ | Some _ => _ end).
    assert (E : search = Ret ((fun j : nat => pos' + Z.of_nat j) <$> message_end prefix (sub (bs_buffer self) pos' (bs_pending_buffer_end self)), pos', false, true)).
    { unfold search. cbn [opt_prefix_matcher opt_garbage_matcher]. rewrite G8, G9. destruct prefix as [m|].
      - rewrite find_multi_ok by (try done; try lia; apply Hprefix). cbn [obind]. rewrite Z.add_0_r. cbn [message_end]. by destruct (matching_line m _).
      - rewrite find_eom_at_ok by (done || lia). by replace (pos' + (bs_pending_buffer_end self - pos')) with (bs_pending_buffer_end self) by lia. }
    rewrite E. cbn [obind]. rewrite <- U. eexists. split; [reflexivity|]. eapply Done; try reflexivity; try done.
    destruct (message_end prefix (drop (i + skipped prefix) (unread self))) as [j|] eqn:Fj; cbn [fmap option_fmap option_map]; [|by left].
    pose proof (message_end_le _ _ _ Fj) as Hj. rewrite length_drop in Hj. case_bool; [right|by left]. cbn [bs_buffer_cached_eol with_pending]. split; [unfold pos' in *; lia|]. f_equal. lia.
  - assert (Hpe : bs_pending_buffer_end self = pos') by lia. eexists. split; [reflexivity|]. eapply (Done _ 0); try reflexivity; try done. by left.
Qed.

Lemma no_line_ok (max : Z) (self : LogProtoBufferedServer) (emitted : list bytes) (delivered : bytes) : 0 < max < 2 ^ 31 -> ts_ok max self emitted delivered ->
  message_end prefix (unread self) = None ->
  exists msg self', no_line self (bs_pending_buffer_pos self) (bs_pending_buffer_end self - bs_pending_buffer_pos self) = Ret (msg, self') /\
    ts_same self self' /\
    match next_msg max (unread self) with
    | Some (m, rest) => msg = Some (Some m) /\ ts_ok max self' (emitted ++ [m]) delivered /\ unread self' = rest
    | None => msg = None /\ ts_ok max self' emitted delivered /\ bs_pending_buffer_pos self' = 0 /\ bs_pending_buffer_end self' < max /\ unread self' = unread self
    end.
Proof.
  intros Hmax [G R S] F. pose proof (next_msg_unread max self G) as N. pose proof (unread_len max self G) as L. pose proof G as [G1 G2 G3 G4 G5 G6 G7 G8 G9].
  rewrite F in N. unfold no_line. rewrite N, G1. replace (bs_pending_buffer_pos self + (bs_pending_buffer_end self - bs_pending_buffer_pos self)) with (bs_pending_buffer_end self) by lia.
  fold (unread self). destruct (bool_decide_reflect (max <= lenZ (unread self))) as [Hf|Hf].
  - rewrite bool_decide_eq_true_2 by lia. do 2 eexists. split; [reflexivity|]. split; [by split|]. split; [done|].
    assert (U : unread (with_pending self (bs_buffer self) (bs_pending_buffer_end self) (bs_pending_buffer_end self) 0) = []) by apply sub_nil.
    split; [|done]. split; [split; cbn; try done; try lia; by left|done|]. rewrite U. by econstructor.
  - rewrite bool_decide_eq_false_2 by lia. destruct (mem_write_ret (bs_buffer self) 0 (unread self)) as (l & E2 & L1 & L2 & _); [lia|lia|]. rewrite E2. cbn [obind].
    assert (Hl : Forall is_byte l) by (eapply mem_write_bytes; [exact E2|done|by apply (sub_bytes (bs_buffer self))]).
    assert (U : sub l 0 (bs_pending_buffer_end self - bs_pending_buffer_pos self) = unread self) by (by rewrite <- L, <- (Z.add_0_l (lenZ _))).
    set (s1 := with_pending self l 0 (bs_pending_buffer_end self - bs_pending_buffer_pos self) 0).
    assert (O : forall s2, bs_buffer s2 = l -> bs_pending_buffer_pos s2 = 0 -> bs_pending_buffer_end s2 = bs_pending_buffer_end self - bs_pending_buffer_pos self ->
      bs_buffer_cached_eol s2 = 0 -> bs_max_msg_size s2 = max -> bs_buffer_size s2 = max -> bs_wait_for_prefix s2 = false -> bs_has_to_update s2 = true -> ts_raw s2 delivered ->
      ts_ok max s2 emitted delivered /\ unread s2 = unread self).
    { intros s2 B1 B2 B3 B4 B5 B6 B7 B8 B9. assert (U2 : unread s2 = unread self) by (unfold unread at 1; by rewrite B1, B2, B3). split; [|done].
      split; [split; rewrite ?B1, ?B2, ?B3; try done; try lia; by left|done|by rewrite U2]. }
    change (bs_pos_tracking s1) with (bs_pos_tracking self). destruct (bs_pos_tracking self) eqn:Tr; do 2 eexists; (split; [reflexivity|]; split; [by split|]; split; [done|]).
    + destruct (R Tr) as [R1 R2]. destruct (O (with_raw s1 (bs_pending_raw_stream_pos s1 + (bs_pending_raw_buffer_size s1 - (bs_pending_buffer_end self - bs_pending_buffer_pos self))) (bs_pending_buffer_end self - bs_pending_buffer_pos self)))
        as [O1 O2]; try done; [intros _; cbn; lia|]. split_and!; try done. cbn. lia.
    + destruct (O s1) as [O1 O2]; try done; [unfold ts_raw; cbn; by rewrite Tr|]. split_and!; try done. cbn. lia.
Qed.

Lemma text_fetch_ok (max : Z) (self : LogProtoBufferedServer) (emitted : list bytes) (delivered : bytes) : 0 < max < 2 ^ 31 -> ts_ok max self emitted delivered ->
  exists msg self', log_proto_text_server_fetch_from_buf opts self false = Ret (msg, self') /\ ts_same self self' /\
    match next_msg max (unread self) with
    | Some (m, rest) => msg = Some (Some m) /\ ts_ok max self' (emitted ++ [m]) delivered /\ unread self' = rest
    | None => msg = None /\ ts_ok max self' emitted delivered /\ bs_pending_buffer_pos self' = 0 /\ bs_pending_buffer_end self' < max /\ unread self' = unread self
    end.
Proof.
  intros Hmax O. pose proof (ts_g _ _ _ _ O) as G. pose proof (next_msg_unread max self G) as N. pose proof G as [G1 G2 G3 G4 G5 G6 G7 G8 G9].
  assert (Line : forall i, message_end prefix (unread self) = Some i -> exists msg self', take_line opts self (bs_pending_buffer_pos self) (bs_pending_buffer_pos self + Z.of_nat i) = Ret (msg, self') /\ ts_same self self' /\
    match next_msg max (unread self) with
    | Some (m, rest) => msg = Some (Some m) /\ ts_ok max self' (emitted ++ [m]) delivered /\ unread self' = rest
    | None => msg = None /\ ts_ok max self' emitted delivered /\ bs_pending_buffer_pos self' = 0 /\ bs_pending_buffer_end self' < max /\ unread self' = unread self
    end).
  { intros i F. rewrite N, F. destruct (take_line_ok max self emitted delivered i Hmax O F) as (self' & E & O' & M & U). by exists (Some (Some (strip_msg (take i (unread self))))), self'. }
  unfold log_proto_text_server_fetch_from_buf. cbn [text_fetch_from_buf]. case_bool.
  { destruct G7 as [?|[H1 H2]]; [done|]. replace (bs_buffer_cached_eol self) with (bs_pending_buffer_pos self + Z.of_nat (Z.to_nat (bs_buffer_cached_eol self - bs_pending_buffer_pos self))) by lia. by apply Line. }
  assert (C0 : bs_buffer_cached_eol self = 0) by (destruct (decide (bs_buffer_cached_eol self = 0)); [done|by destruct Hb]).
  rewrite u32_small by lia. cbn [opt_prefix_matcher opt_garbage_matcher]. destruct prefix as [m|] eqn:Ep.
  - rewrite G8. rewrite find_multi_ok by (try done; try lia; apply Hprefix). cbn [obind]. fold (unread self).
    assert (Sf : with_wait (with_pending self (bs_buffer self) (bs_pending_buffer_pos self + 0) (bs_pending_buffer_end self) 0) false (if bool_decide (0 <> 0) then false else bs_has_to_update (with_pending self (bs_buffer self) (bs_pending_buffer_pos self + 0) (bs_pending_buffer_end self) 0)) = self).
    { rewrite bool_decide_eq_false_2 by lia. rewrite Z.add_0_r. destruct self. cbn in *. by subst. }
    rewrite Sf. destruct (matching_line m (unread self)) as [i|] eqn:F; cbn [fmap option_fmap option_map andb negb]; [by apply Line|].
    apply no_line_ok; [done|done|by rewrite Ep].
  - rewrite find_eom_at_ok by (done || lia). replace (bs_pending_buffer_pos self + (bs_pending_buffer_end self - bs_pending_buffer_pos self)) with (bs_pending_buffer_end self) by lia.
    fold (unread self). cbn [obind]. destruct (first_eom (unread self)) as [i|] eqn:F; cbn [fmap option_fmap option_map]; [by apply Line|apply no_line_ok; [done|done|by rewrite Ep]].
Qed.

(** ** The state around the buffer *)

(** A buffer that was used up is reset. *)
Lemma reset_ok (max : Z) (self : LogProtoBufferedServer) (emitted : list bytes) (delivered : bytes) : 0 < max -> ts_ok max self emitted delivered ->
  bs_pending_buffer_pos self = bs_pending_buffer_end self ->
  let self1 := with_pending self (bs_buffer self) 0 0 (bs_buffer_cached_eol self) in
  let self' := if bs_pos_tracking self then with_raw self1 (bs_pending_raw_stream_pos self + bs_pending_raw_buffer_size self) 0 else self1 in
  ts_ok max self' emitted delivered /\ ts_same self self' /\ unread self' = unread self.
Proof.
  intros Hmax [G R S] Hpe self1 self'. pose proof G as [G1 G2 G3 G4 G5 G6 G7 G8 G9]. assert (U0 : unread self = []) by (unfold unread; rewrite Hpe; apply sub_nil).
  assert (C0 : bs_buffer_cached_eol self = 0) by (destruct G7 as [?|[? _]]; [done|lia]).
  assert (U1 : unread self' = []) by (unfold self'; destruct (bs_pos_tracking self); apply (sub_nil (bs_buffer self) 0)).
  split; [|split; [unfold self'; destruct (bs_pos_tracking self); by split|congruence]].
  split; [|unfold ts_raw, self'; destruct (bs_pos_tracking self) eqn:Tr; cbn; [intros _; destruct (R Tr); lia|congruence]|congruence].
  unfold self'. destruct (bs_pos_tracking self); split; cbn; try done; try lia; by left.
Qed.

Lemma next_msg_nil (max : Z) : 0 < max -> next_msg max [] = None.
Proof.
  intros H. unfold next_msg. rewrite take_nil. assert (E : message_end prefix [] = None) by (by destruct prefix). rewrite E.
  by rewrite bool_decide_eq_false_2 by (rewrite lenZ_nil; lia).
Qed.

Lemma buffered_fetch_ok (max : Z) (self : LogProtoBufferedServer) (emitted : list bytes) (delivered : bytes) : 0 < max < 2 ^ 31 -> ts_ok max self emitted delivered ->
  exists msg self', log_proto_buffered_server_fetch_from_buf (log_proto_text_server_fetch_from_buf opts) self false = Ret (Some <$> msg, self') /\
    ts_ok max self' (emitted ++ option_list msg) delivered /\ ts_same self self' /\
    match next_msg max (unread self) with
    | Some (m, rest) => msg = Some m /\ unread self' = rest
    | None => msg = None /\ bs_pending_buffer_pos self' = 0 /\ bs_pending_buffer_end self' < max /\ unread self' = unread self
    end.
Proof.
  intros Hmax O. unfold log_proto_buffered_server_fetch_from_buf. case_bool.
  - destruct (reset_ok max self emitted delivered ltac:(lia) O ltac:(done)) as (O' & M' & U').
    eexists None, _. split; [reflexivity|]. cbn [option_list]. rewrite app_nil_r.
    assert (U0 : unread self = []) by (unfold unread; rewrite Hb; apply sub_nil). rewrite U0, next_msg_nil by lia.
    destruct (bs_pos_tracking self); (split; [exact O'|]; split; [exact M'|]; split_and!; [done|done|cbn; lia|exact (eq_trans U' U0)]).
  - destruct (text_fetch_ok max self emitted delivered Hmax O) as (msg & self' & -> & M & N). destruct (next_msg max (unread self)) as [[m rest]|].
    + destruct N as (-> & O' & U). by exists (Some m), self'.
    + destruct N as (-> & O' & P & E & U). exists None, self'. split; [done|]. cbn [option_list]. rewrite app_nil_r. by split_and!.
Qed.
End text_server.
