(* ===== verification/TextServerClaims.v ===== *)
(** * A fetch of the text server against what the transport delivers *)
From S2P Require Import Prelude Buffer FindEom TextServer TextServerSpec.

Section fetch.
Context {T : Type} (read : T -> Z -> read_result * T).
Context (prefix : option matcher) (Hprefix : prefix_pattern prefix).
Context (max : Z) (Hmax : 0 < max < 2 ^ 31).
#[local] Abbreviation opts := (mkServerOptions prefix None).
#[local] Abbreviation ts_ok := (ts_ok prefix).
#[local] Abbreviation ts_geo := (ts_geo prefix).
#[local] Abbreviation next_msg := (next_msg prefix).
#[local] Abbreviation from_buf := (log_proto_text_server_fetch_from_buf opts).

(** What [read(2)] promises: at least one byte and no more than asked for. *)
Definition read_good : Prop := forall t n bs t', read t n = (RData bs, t') -> 0 < lenZ bs <= n /\ Forall is_byte bs.

(** From [t] to [t'] the transport delivered these bytes; then it failed, ended,
    or is still open. *)
Inductive reads (ignore_eof : bool) : T -> bytes -> option LogProtoStatus -> T -> Prop :=
| reads_stop t : reads ignore_eof t [] None t
| reads_error t n t' : read t n = (RError, t') -> reads ignore_eof t [] (Some LPS_ERROR) t'
| reads_eof t n t' : ignore_eof = false -> read t n = (REof, t') -> reads ignore_eof t [] (Some LPS_EOF) t'
| reads_again t n t1 more ending t' : read t n = (RAgain, t1) -> reads ignore_eof t1 more ending t' -> reads ignore_eof t more ending t'
| reads_eof_ignored t n t1 more ending t' : ignore_eof = true -> read t n = (REof, t1) -> reads ignore_eof t1 more ending t' -> reads ignore_eof t more ending t'
| reads_data t n bs t1 more ending t' : read t n = (RData bs, t1) -> reads ignore_eof t1 more ending t' -> reads ignore_eof t (bs ++ more) ending t'.

Lemma reads_trans (ignore_eof : bool) (t1 t2 t3 : T) (a b : bytes) (ending : option LogProtoStatus) :
  reads ignore_eof t1 a None t2 -> reads ignore_eof t2 b ending t3 -> reads ignore_eof t1 (a ++ b) ending t3.
Proof.
  intros H H2. remember None as e eqn:He. induction H; try done; [by eapply reads_again; eauto|by eapply reads_eof_ignored; eauto|].
  rewrite <- app_assoc. by eapply reads_data; eauto.
Qed.

Context (Hread : read_good).

#[local] Abbreviation loop := (read_loop (log_proto_buffered_server_read_data read) from_buf).
#[local] Abbreviation fetch := (log_proto_buffered_server_fetch (log_proto_buffered_server_read_data read) from_buf opts).

(** The last message: the rest of the stream. *)
Definition last_ok (tracking : bool) (st : LogProtoStatus) (s : bytes) (delivered : bytes) (self' : LogProtoBufferedServer) (result : LogProtoStatus) (msg : option bytes) : Prop :=
  bs_status self' = st /\ (result, msg) = (if bool_decide (s = []) then (st, None) else (LPS_SUCCESS, Some s)) /\
  bs_pos_tracking self' = tracking /\
  (tracking = true -> bs_pending_raw_stream_pos self' + bs_pending_buffer_pos self' = lenZ delivered).

Lemma fetch_last_ok (self : LogProtoBufferedServer) (st : LogProtoStatus) (t : T) (got : bytes) (emitted : list bytes) (delivered : bytes) : ts_ok max self emitted delivered ->
  exists result msg self', fetch_last from_buf self st t got = Ret ((result, msg), self', t, got) /\ last_ok (bs_pos_tracking self) st (unread self) delivered self' result msg.
Proof.
  intros [G R _]. pose proof (unread_len prefix max self G) as L. pose proof G as [G1 G2 G3 G4 G5 G6 G7 G8 G9]. unfold fetch_last, log_proto_buffered_server_fetch_from_buf. cbn [bs_pending_buffer_end bs_pending_buffer_pos with_status].
  case_bool.
  - assert (U0 : unread self = []) by (unfold unread; rewrite Hb; apply sub_nil). rewrite U0. cbn [obind]. do 3 eexists. split; [reflexivity|]. cbn [bs_pos_tracking with_status].
    split; [by destruct (bs_pos_tracking self)|]. split; [done|]. split; [by destruct (bs_pos_tracking self) eqn:Tr|]. destruct (bs_pos_tracking self) eqn:Tr; cbn; [intros _; destruct (R Tr); lia|congruence].
  - unfold log_proto_text_server_fetch_from_buf. cbn [text_fetch_from_buf bs_pending_buffer_end bs_pending_buffer_pos with_status bs_buffer bs_wait_for_prefix]. rewrite G8, andb_false_r, u32_small by lia.
    replace (bs_pending_buffer_pos self + (bs_pending_buffer_end self - bs_pending_buffer_pos self)) with (bs_pending_buffer_end self) by lia. fold (unread self). cbn [obind].
    do 3 eexists. split; [reflexivity|]. split; [done|]. rewrite bool_decide_eq_false_2 by (intros E; rewrite E, lenZ_nil in L; lia). split; [done|]. split; [done|].
    cbn. intros Tr. destruct (R Tr). lia.
Qed.

(** What a fetch, or its loop, does with the stream [s] it sees. *)
Definition outcome_ok (s : bytes) (ending : option LogProtoStatus) (self : LogProtoBufferedServer) (emitted : list bytes) (delivered : bytes)
    (self' : LogProtoBufferedServer) (result : LogProtoStatus) (msg : option bytes) : Prop :=
  match ending with
  | Some st => next_msg max s = None /\ last_ok (bs_pos_tracking self) st s delivered self' result msg
  | None => result = LPS_SUCCESS /\ msg = fst <$> next_msg max s /\ ts_ok max self' (emitted ++ option_list msg) delivered /\ ts_same self self' /\
      unread self' = default s (snd <$> next_msg max s)
  end.

Lemma read_loop_ok (fuel : nat) : forall self may_read t got emitted delivered, ts_ok max self emitted delivered -> next_msg max (unread self) = None ->
  bs_pending_buffer_pos self = 0 -> bs_pending_buffer_end self < max -> (Z.to_nat (max - bs_pending_buffer_end self) < fuel)%nat ->
  exists result msg self' t' more ending, loop fuel self may_read t got = Ret ((result, msg), self', t', got ++ more) /\ reads (bs_ignore_eof self) t more ending t' /\
    outcome_ok (unread self ++ more) ending self emitted (delivered ++ more) self' result msg.
Proof.
  induction fuel as [|fuel IH]; intros self may_read t got emitted delivered O N P E F; [lia|]. cbn [read_loop].
  assert (Stop : forall t', reads (bs_ignore_eof self) t [] None t' -> exists result msg self' t'' more ending, Ret ((LPS_SUCCESS, None), self, t', got) = Ret ((result, msg), self', t'', got ++ more) /\
     reads (bs_ignore_eof self) t more ending t'' /\ outcome_ok (unread self ++ more) ending self emitted (delivered ++ more) self' result msg).
  { intros t' Ht'. exists LPS_SUCCESS, None, self, t', [], None. unfold outcome_ok. rewrite !app_nil_r, N. by split_and!. }
  assert (Last : forall t' st, reads (bs_ignore_eof self) t [] (Some st) t' -> exists result msg self' t'' more ending, fetch_last from_buf self st t' got = Ret ((result, msg), self', t'', got ++ more) /\
     reads (bs_ignore_eof self) t more ending t'' /\ outcome_ok (unread self ++ more) ending self emitted (delivered ++ more) self' result msg).
  { intros t' st Ht'. destruct (fetch_last_ok self st t' got emitted delivered O) as (result & msg & self' & -> & L). exists result, msg, self', t', [], (Some st).
    unfold outcome_ok. by rewrite !app_nil_r. }
  destruct may_read; cbn [negb]; [|apply Stop; constructor]. pose proof (ts_g _ _ _ _ _ O) as [G1 G2 G3 G4 G5 G6 G7 G8 G9].
  unfold log_proto_buffered_server_read_data at 1. cbn [obind]. destruct (read t _) as [[bs| | |] t1] eqn:Er; cbn [obind].
  - destruct (Hread _ _ _ _ Er) as [Hb Hbs]. rewrite G2 in Hb. destruct (mem_write_ret (bs_buffer self) (bs_pending_buffer_end self) bs) as (l & Em & L1 & L2 & L3); [lia|lia|]. rewrite Em. cbn [obind].
    set (self1 := with_pending _ _ _ _ _).
    assert (U1 : unread self1 = unread self ++ bs).
    { unfold unread, self1. cbn. rewrite (sub_split l _ (bs_pending_buffer_end self)) by lia. by rewrite L2, L3 by lia. }
    assert (C0 : bs_buffer_cached_eol self = 0).
    { destruct G7 as [?|[_ H]]; [done|]. revert N. rewrite (next_msg_unread prefix max self) by apply O. by rewrite H. }
    assert (O1 : ts_ok max self1 emitted (delivered ++ bs)).
    { split; [|intros Tr; destruct (ts_r _ _ _ _ _ O Tr); cbn; rewrite lenZ_app; lia|rewrite U1; apply splits_app; [done|apply O]].
      split; cbn; try done; try lia; by eapply mem_write_bytes. }
    destruct (buffered_fetch_ok prefix Hprefix max self1 emitted (delivered ++ bs) Hmax O1) as (msg & self2 & -> & O2 & M2 & C). cbn [obind]. rewrite U1 in C.
    assert (M : ts_same self self2) by (apply (ts_same_trans _ self1); [by split|done]).
    destruct (next_msg max (unread self ++ bs)) as [[m rest]|] eqn:N1.
    + destruct C as [-> Ur]. exists LPS_SUCCESS, (Some m), self2, t1, bs, None. split; [done|]. split; [rewrite <- (app_nil_r bs); econstructor; [done|constructor]|].
      unfold outcome_ok. rewrite N1. by split_and!.
    + destruct C as (-> & P2 & E2 & U2). assert (S2 : bs_pending_buffer_end self2 = bs_pending_buffer_end self + lenZ bs).
      { pose proof (unread_len prefix max self2 (ts_g _ _ _ _ _ O2)) as La. rewrite U2, lenZ_app, (unread_len prefix max self) in La by apply O. lia. }
      cbn [option_list] in O2. rewrite app_nil_r in O2.
      destruct (IH self2 (if bs_nomread self then false else true) t1 (got ++ bs) emitted (delivered ++ bs) O2 ltac:(by rewrite U2) P2 E2 ltac:(lia)) as (result & msg & self' & t' & more & ending & -> & Rd & Oc).
      exists result, msg, self', t', (bs ++ more), ending. rewrite app_assoc. split; [done|]. destruct M as [M1 M3 M4 M5]. rewrite M5 in Rd. split; [by econstructor|].
      rewrite U2 in Oc. rewrite !app_assoc. destruct ending; [unfold outcome_ok in *; by rewrite <- M3|]. destruct Oc as (? & ? & ? & Ms & ?). split_and!; try done. by apply (ts_same_trans _ self2).
  - apply Stop. econstructor; [done|constructor].
  - apply Last. by econstructor.
  - destruct (bs_ignore_eof self) eqn:Ig; [apply Stop; by eapply reads_eof_ignored; [..|constructor]|apply Last; by econstructor].
Qed.

(** ** The whole fetch *)

(** The server is open, after these messages and this much of the stream. *)
Definition ts_open (self : LogProtoBufferedServer) (emitted : list bytes) (delivered : bytes) : Prop :=
  bs_status self = LPS_SUCCESS /\ ts_ok max (alloc_buffer self) emitted delivered.

Lemma alloc_id (self : LogProtoBufferedServer) : ts_geo max self -> alloc_buffer self = self.
Proof. intros G. pose proof (tg_len _ _ _ G) as L. unfold alloc_buffer. destruct (bs_buffer self); [rewrite lenZ_nil in L; lia|done]. Qed.

Lemma alloc_status (self : LogProtoBufferedServer) : bs_status (alloc_buffer self) = bs_status self.
Proof. unfold alloc_buffer. by destruct (bs_buffer self). Qed.

Lemma cached_small (self : LogProtoBufferedServer) : ts_geo max self -> bool_decide (bs_buffer_cached_eol self = 2 ^ 32 - 1) = false.
Proof. intros [_ _ _ _ G5 G6 G7 _ _]. apply bool_decide_eq_false_2. lia. Qed.

Lemma update_pos_ok (self : LogProtoBufferedServer) (emitted : list bytes) (delivered : bytes) : ts_ok max self emitted delivered ->
  let self' := _log_proto_buffered_server_update_pos self in ts_ok max self' emitted delivered /\ ts_same self self' /\ unread self' = unread self.
Proof.
  intros O. unfold _log_proto_buffered_server_update_pos. case_bool; [|split_and!; [done|by split|done]].
  apply (reset_ok prefix max self emitted delivered ltac:(lia) O Hb).
Qed.

(** The position a bookmark holds is that of the first byte behind its message. *)
Definition bookmark_ok (tracking : bool) (b : option FileBookmarkData) (delivered rest : bytes) : Prop :=
  exists bm, b = Some bm /\ (tracking = true -> log_proto_text_server_get_pending_pos bm + lenZ rest = lenZ delivered).

Definition fetch_ok_post (self : LogProtoBufferedServer) (t : T) (emitted : list bytes) (delivered : bytes) (r : fetched_msg (T := T)) (got : bytes) (ending : option LogProtoStatus) : Prop :=
  let s := unread (alloc_buffer self) ++ got in
  match next_msg max s with
  | Some (m, rest) => ending = None /\ fm_status r = LPS_SUCCESS /\ fm_msg r = Some m /\ ts_open (fm_self r) (emitted ++ [m]) (delivered ++ got) /\
      unread (alloc_buffer (fm_self r)) = rest /\ bookmark_ok (bs_pos_tracking self) (fm_bookmark r) (delivered ++ got) rest
  | None =>
      match ending with
      | None => fm_status r = LPS_SUCCESS /\ fm_msg r = None /\ ts_open (fm_self r) emitted (delivered ++ got) /\ unread (alloc_buffer (fm_self r)) = s
      | Some st => bs_status (fm_self r) = st /\
          if bool_decide (s = []) then fm_status r = st /\ fm_msg r = None
          else fm_status r = LPS_SUCCESS /\ fm_msg r = Some s /\ bookmark_ok (bs_pos_tracking self) (fm_bookmark r) (delivered ++ got) []
      end
  end.

Lemma bookmark_fill_ok (self : LogProtoBufferedServer) (delivered : bytes) : ts_geo max self -> ts_raw self delivered ->
  bookmark_ok (bs_pos_tracking self) (Some (_buffered_server_bookmark_fill self)) delivered (unread self).
Proof.
  intros G R. eexists. split; [reflexivity|]. intros Tr. destruct (R Tr). rewrite (unread_len prefix max self G). unfold log_proto_text_server_get_pending_pos. cbn. lia.
Qed.

Lemma exit_open_ok (self self' : LogProtoBufferedServer) (s got : bytes) (t t' : T) (emitted : list bytes) (delivered : bytes) (msg : option bytes) :
  bs_status self = LPS_SUCCESS -> outcome_ok s None self emitted delivered self' LPS_SUCCESS msg ->
  let r := fetch_exit ((LPS_SUCCESS, msg), self', t', got) in
  fm_status r = LPS_SUCCESS /\ fm_msg r = msg /\ fm_transport r = t' /\ ts_open (fm_self r) (emitted ++ option_list msg) delivered /\
  unread (alloc_buffer (fm_self r)) = default s (snd <$> next_msg max s) /\ (is_Some msg -> bookmark_ok (bs_pos_tracking self) (fm_bookmark r) delivered (unread (alloc_buffer (fm_self r)))) /\ ts_same self (fm_self r).
Proof.
  intros St (_ & -> & O & M & U). unfold fetch_exit. cbn [bool_decide]. rewrite bool_decide_eq_false_2 by (intros H; by apply H).
  destruct (next_msg max s) as [[m rest]|]; cbn [fmap option_fmap option_map default fst snd] in *.
  - destruct (update_pos_ok self' _ _ O) as (O2 & M2 & U2). pose proof (ts_same_trans _ _ _ M M2) as M0. destruct M as [M1 M3 M4 M5], M2 as [N1 N2 N3 N4]. cbn. rewrite (alloc_id (_log_proto_buffered_server_update_pos self')) by apply O2. rewrite U2. split_and!; try done.
    + split; [congruence|]. by rewrite alloc_id by apply O2.
    + intros _. rewrite <- M3. apply bookmark_fill_ok; apply O.
  - destruct M as [M1 M3 M4 M5]. cbn. rewrite (alloc_id self') by apply O. split_and!; try done.
    + split; [congruence|]. by rewrite alloc_id by apply O.
Qed.

Lemma exit_last_ok (self' : LogProtoBufferedServer) (st result : LogProtoStatus) (s got delivered : bytes) (t' : T) (msg : option bytes) (tracking : bool) :
  st <> LPS_SUCCESS -> last_ok tracking st s delivered self' result msg ->
  let r := fetch_exit ((result, msg), self', t', got) in
  fm_transport r = t' /\ bs_status (fm_self r) = st /\
  if bool_decide (s = []) then fm_status r = st /\ fm_msg r = None
  else fm_status r = LPS_SUCCESS /\ fm_msg r = Some s /\ bookmark_ok tracking (fm_bookmark r) delivered [].
Proof.
  intros Hst (S & E & _ & P). unfold fetch_exit. destruct (bool_decide (s = [])); injection E as -> ->.
  - by rewrite bool_decide_eq_true_2.
  - rewrite bool_decide_eq_false_2 by (intros H; by apply H). cbn. split; [done|]. split.
    { unfold _log_proto_buffered_server_update_pos. case_bool; [|done]. cbn. by destruct (bs_pos_tracking self'). }
    split_and!; try done. eexists. split; [reflexivity|]. intros Tr. rewrite lenZ_nil. unfold log_proto_text_server_get_pending_pos. cbn. rewrite <- (P Tr). lia.
Qed.

Lemma reads_ending (ignore_eof : bool) (t t' : T) (bs : bytes) (ending : option LogProtoStatus) : reads ignore_eof t bs ending t' -> ending <> Some LPS_SUCCESS.
Proof. by induction 1. Qed.

Lemma fetch_ok_alloc (self : LogProtoBufferedServer) (may_read : bool) (t : T) (emitted : list bytes) (delivered : bytes) : bs_status self = LPS_SUCCESS -> ts_ok max self emitted delivered ->
  exists r got ending, fetch self may_read false t = Ret r /\ reads (bs_ignore_eof self) t got ending (fm_transport r) /\
    (is_Some (next_msg max (unread self)) -> got = [] /\ fm_transport r = t) /\ (ending = None -> ts_same self (fm_self r)) /\ fetch_ok_post self t emitted delivered r got ending.
Proof.
  intros St O. unfold log_proto_buffered_server_fetch, fetch_ok_post. rewrite alloc_id by apply O. rewrite (cached_small _ (ts_g _ _ _ _ _ O)), St. rewrite bool_decide_eq_false_2 by (intros H; by apply H).
  destruct (buffered_fetch_ok prefix Hprefix max self emitted delivered Hmax O) as (msg & s1 & -> & O1 & M1 & C). cbn [obind].
  destruct (next_msg max (unread self)) as [[m rest]|] eqn:N.
  - destruct C as [-> U1]. eexists _, [], None. split; [reflexivity|].
    destruct (exit_open_ok self s1 (unread self) [] t t emitted delivered (Some m) St) as (E1 & E2 & E3 & E4 & E5 & E6 & E7); [unfold outcome_ok; rewrite N; by split_and!|].
    rewrite N in E5. cbn [default from_option id snd fmap option_fmap option_map] in E5. rewrite E3. split; [constructor|]. split; [done|]. split; [done|]. rewrite !app_nil_r, N. split_and!; try done. rewrite <- E5. apply E6. by eexists.
  - destruct C as (-> & P1 & E1 & U1). cbn [option_list] in O1. rewrite app_nil_r in O1. pose proof (tg_size _ _ _ (ts_g _ _ _ _ _ O1)) as Sz. pose proof (tg_pos _ _ _ (ts_g _ _ _ _ _ O1)) as Ps.
    destruct (read_loop_ok (2 * Z.to_nat (bs_buffer_size s1) + 2) s1 may_read t [] emitted delivered O1 ltac:(by rewrite U1) P1 E1 ltac:(lia)) as (result & msg & s2 & t' & more & ending & -> & Rd & Oc).
    cbn [obind]. rewrite app_nil_l. eexists _, more, ending. split; [reflexivity|]. rewrite U1 in Oc. pose proof M1 as [Q1 Q2 Q3 Q4]. rewrite Q4 in Rd. destruct ending as [st|].
    + destruct Oc as [Nn L]. destruct (exit_last_ok s2 st result (unread self ++ more) more (delivered ++ more) t' msg (bs_pos_tracking s1)) as (F1 & F2 & F3); [pose proof (reads_ending _ _ _ _ _ Rd); congruence|done|].
      rewrite F1. split; [done|]. split; [by intros [? ?]|]. split; [done|]. rewrite Nn. split; [done|]. case_bool; [done|].
      destruct F3 as (F3 & F4 & F5). split_and!; try done. by rewrite <- Q2.
    + destruct (exit_open_ok s1 s2 (unread self ++ more) more t t' emitted (delivered ++ more) msg) as (F1 & F2 & F3 & F4 & F5 & F6 & F7); [congruence|by destruct Oc as (-> & Oc)|].
      destruct Oc as (-> & Em & _). rewrite F3. split; [done|]. split; [by intros [? ?]|]. split; [intros _; by apply (ts_same_trans _ s1)|].
      destruct (next_msg max (unread self ++ more)) as [[m rest]|]; cbn [default from_option id snd fst fmap option_fmap option_map] in *; subst msg.
      * split_and!; try done. rewrite <- F5, <- Q2. apply F6. by eexists.
      * cbn [option_list] in F4. rewrite app_nil_r in F4. by split_and!.
Qed.

Lemma fetch_ok (self : LogProtoBufferedServer) (may_read : bool) (t : T) (emitted : list bytes) (delivered : bytes) : ts_open self emitted delivered ->
  exists r got ending, fetch self may_read false t = Ret r /\ reads (bs_ignore_eof self) t got ending (fm_transport r) /\
    (is_Some (next_msg max (unread (alloc_buffer self))) -> got = [] /\ fm_transport r = t) /\ (ending = None -> ts_same self (fm_self r)) /\ fetch_ok_post self t emitted delivered r got ending.
Proof.
  intros [St O]. assert (A : bs_ignore_eof (alloc_buffer self) = bs_ignore_eof self /\ bs_pos_tracking (alloc_buffer self) = bs_pos_tracking self) by (unfold alloc_buffer; by destruct (bs_buffer self)).
  assert (M : ts_same self (alloc_buffer self)) by (unfold alloc_buffer; destruct (bs_buffer self); by split). destruct A as [A1 A2].
  assert (F : fetch self may_read false t = fetch (alloc_buffer self) may_read false t) by (unfold log_proto_buffered_server_fetch; by rewrite (alloc_id (alloc_buffer self)) by apply O).
  destruct (fetch_ok_alloc (alloc_buffer self) may_read t emitted delivered ltac:(by rewrite alloc_status) O) as (r & got & ending & E & Rd & H1 & H2 & H3).
  exists r, got, ending. rewrite F. split_and!; [done|by rewrite <- A1|done|intros He; by apply (ts_same_trans _ (alloc_buffer self)); [|apply H2]|].
  revert H3. unfold fetch_ok_post. by rewrite (alloc_id (alloc_buffer self)), A2 by apply O.
Qed.
End fetch.

(** * What the text server hands out, over any number of fetches *)

Lemma splits_trans (prefix : option matcher) (max : Z) (s : bytes) (ms : list bytes) (r : bytes) (ms2 : list bytes) (r2 : bytes) : splits prefix max s ms r -> splits prefix max r ms2 r2 -> splits prefix max s (ms ++ ms2) r2.
Proof. intros H. induction 1 as [|ms2 r1 m r2 _ IH E]; [by rewrite app_nil_r|]. rewrite app_assoc. by econstructor. Qed.

(** Fetches, each of which may read from the transport or not. *)
Fixpoint ts_run {T : Type} (read : T -> Z -> read_result * T) (opts : LogProtoServerOptions) (calls : list bool) (self : LogProtoBufferedServer) (t : T) : outcome (list bytes * LogProtoBufferedServer * T) :=
  match calls with
  | [] => Ret ([], self, t)
  | may_read :: calls =>
      let! r := log_proto_buffered_server_fetch (log_proto_buffered_server_read_data read) (log_proto_text_server_fetch_from_buf opts) opts self may_read false t in
      let! (ms, self, t) := ts_run read opts calls (fm_self r) (fm_transport r) in
      Ret (option_list (fm_msg r) ++ ms, self, t)
  end.

Section run.
Context {T : Type} (read : T -> Z -> read_result * T).
Context (prefix : option matcher).
#[local] Abbreviation opts := (mkServerOptions prefix None).
#[local] Abbreviation fetch := (log_proto_buffered_server_fetch (log_proto_buffered_server_read_data read) (log_proto_text_server_fetch_from_buf opts) opts).

#[local] Abbreviation ts_run := (ts_run read opts).
Context (max : Z) (Hmax : 0 < max < 2 ^ 31) (Hread : read_good read) (Hprefix : prefix_pattern prefix).
#[local] Abbreviation splits := (splits prefix).
#[local] Abbreviation next_msg := (next_msg prefix).
#[local] Abbreviation ts_open := (ts_open prefix).
#[local] Abbreviation ts_geo := (ts_geo prefix).

(** The messages [ms] of a stream that ended, or did not end yet. *)
Definition handed_out (self : LogProtoBufferedServer) (delivered : bytes) (ending : option LogProtoStatus) (ms : list bytes) : Prop :=
  match ending with
  | None => bs_status self = LPS_SUCCESS /\ splits max delivered ms (unread (alloc_buffer self))
  | Some st => bs_status self = st /\ exists ms' rest, splits max delivered ms' rest /\ next_msg max rest = None /\
      ms = ms' ++ (if bool_decide (rest = []) then [] else [rest])
  end.

Lemma closed_run (calls : list bool) : forall self t, bs_status self <> LPS_SUCCESS -> exists self', ts_run calls self t = Ret ([], self', t) /\ bs_status self' = bs_status self.
Proof.
  induction calls as [|may_read calls IH]; intros self t St; [by exists self|]. cbn [ts_run]. unfold log_proto_buffered_server_fetch.
  set (s1 := if bool_decide (bs_buffer_cached_eol (alloc_buffer self) = 2 ^ 32 - 1) then _ else _).
  assert (S1 : bs_status s1 = bs_status self) by (unfold s1, alloc_buffer; case_bool; by destruct (bs_buffer self)). rewrite S1, bool_decide_eq_true_2 by done. cbn [obind].
  unfold fetch_exit. rewrite bool_decide_eq_true_2 by done. cbn [fm_self fm_transport fm_msg option_list app].
  destruct (IH (with_status s1 (bs_status self)) t St) as (self' & -> & E). exists self'. by split.
Qed.

Lemma open_run (calls : list bool) : forall self t emitted delivered, ts_open max self emitted delivered ->
  exists ms self' t' more ending, ts_run calls self t = Ret (ms, self', t') /\ reads read (bs_ignore_eof self) t more ending t' /\
    handed_out self' (delivered ++ more) ending (emitted ++ ms) /\
    (ending = None -> ts_open max self' (emitted ++ ms) (delivered ++ more) /\ bs_ignore_eof self' = bs_ignore_eof self /\ bs_pos_tracking self' = bs_pos_tracking self).
Proof.
  induction calls as [|may_read calls IH]; intros self t emitted delivered O.
  { exists [], self, t, [], None. rewrite !app_nil_r. destruct O as [St O]. split; [done|]. split; [constructor|]. split; [by split; [|apply O]|by intros _]. }
  destruct (fetch_ok read prefix Hprefix max Hmax Hread self may_read t emitted delivered O) as (r & got & ending & E & Rd & _ & M & P). cbn [ts_run]. rewrite E. cbn [obind]. unfold fetch_ok_post in P.
  destruct ending as [st|].
  - destruct (next_msg max (unread (alloc_buffer self) ++ got)) as [[m rest]|] eqn:N; [by destruct P|]. destruct P as [Ps P].
    destruct (closed_run calls (fm_self r) (fm_transport r)) as (self' & -> & St'); [pose proof (reads_ending _ _ _ _ _ _ Rd); congruence|]. cbn [obind]. rewrite app_nil_r.
    exists (option_list (fm_msg r)), self', (fm_transport r), got, (Some st). split; [done|]. split; [done|]. split; [|done]. split; [congruence|].
    exists emitted, (unread (alloc_buffer self) ++ got). split; [apply splits_app; [done|apply O]|]. split; [done|]. case_bool; [by destruct P as [_ ->]|by destruct P as (_ & -> & _)].
  - assert (O1 : ts_open max (fm_self r) (emitted ++ option_list (fm_msg r)) (delivered ++ got)).
    { destruct (next_msg max (unread (alloc_buffer self) ++ got)) as [[m rest]|]; [destruct P as (_ & _ & -> & P & _)|destruct P as (_ & -> & P & _); cbn [option_list]; rewrite app_nil_r]; done. }
    destruct (IH (fm_self r) (fm_transport r) _ _ O1) as (ms & self' & t' & more & ending & -> & Rd' & H1 & H2). cbn [obind]. destruct (M eq_refl) as [M1 M2 M3 M4].
    exists (option_list (fm_msg r) ++ ms), self', t', (got ++ more), ending. split; [done|]. split; [rewrite M4 in Rd'; by apply (reads_trans _ _ _ (fm_transport r))|].
    rewrite !app_assoc. split; [done|]. intros He. destruct (H2 He) as (? & ? & ?). split_and!; [done|congruence|congruence].
Qed.

Lemma new_open (nomread ignore_eof pos_tracking : bool) : ts_open max (log_proto_text_server_new max nomread ignore_eof pos_tracking) [] [].
Proof.
  split; [done|]. assert (L : lenZ (replicate (Z.to_nat max) 0) = max) by (unfold lenZ; rewrite length_replicate; lia).
  split; [split; cbn [alloc_buffer log_proto_text_server_new log_proto_buffered_server_init bs_buffer bs_max_msg_size bs_init_buffer_size bs_buffer_size bs_pending_buffer_pos bs_pending_buffer_end bs_buffer_cached_eol]; try done; try lia|done|].
  - by apply Forall_replicate.
  - assert (U : unread (alloc_buffer (log_proto_text_server_new max nomread ignore_eof pos_tracking)) = []) by exact (sub_nil (replicate (Z.to_nat max) 0) 0). rewrite U. constructor.
Qed.

(** C22: Over any sequence of ordinary fetches (not flushes) from a transport that keeps the contract of
    [read], with a buffer below 2^31 bytes, the text server never reads or writes outside its buffer, and the
    messages it hands out are the lines of the delivered bytes, however the
    transport cut them: each ends at the first newline or NUL, or where the
    buffer is full, without its trailing line ends.  With a prefix pattern a message goes on until the next line
    that matches it; the pattern must not match the empty line nor stop matching a line when more bytes follow, and there is no
    pattern for garbage.  What was delivered and not
    handed out is the unfinished rest, which comes out as the last message when
    the transport ends or fails; the status is then reported for ever.  A flush is left out: after one that finds the end
    of a further line remembered the next fetch may abort (text_server_flush_keeps_cached_eol). *)
Theorem text_server_lines (calls : list bool) (nomread ignore_eof pos_tracking : bool) (t : T) :
  exists ms self' t' delivered ending,
    ts_run calls (log_proto_text_server_new max nomread ignore_eof pos_tracking) t = Ret (ms, self', t') /\
    reads read ignore_eof t delivered ending t' /\ handed_out self' delivered ending ms.
Proof.
  destruct (open_run calls _ t [] [] (new_open nomread ignore_eof pos_tracking)) as (ms & self' & t' & more & ending & E & Rd & H & _). by exists ms, self', t', more, ending.
Qed.

(** The bookmark of a message holds the position of the byte behind it.
    After any sequence of fetches that leaves the stream open, a further fetch
    takes a complete line from the buffer without touching the transport; and
    when positions are tracked and it returns a message, reading the stream
    again from the position of its bookmark gives exactly the messages that
    follow it. *)
Theorem text_server_bookmark (calls : list bool) (nomread ignore_eof may_read : bool) (t t' : T) (ms : list bytes) (self' : LogProtoBufferedServer) :
  ts_run calls (log_proto_text_server_new max nomread ignore_eof true) t = Ret (ms, self', t') -> bs_status self' = LPS_SUCCESS ->
  exists r, fetch self' may_read false t' = Ret r /\
    (is_Some (next_msg max (unread (alloc_buffer self'))) -> fm_msg r = fst <$> next_msg max (unread (alloc_buffer self')) /\ fm_transport r = t') /\
    (forall m, fm_msg r = Some m -> exists b delivered ending, fm_bookmark r = Some b /\ reads read ignore_eof t delivered ending (fm_transport r) /\
       let pos := log_proto_text_server_get_pending_pos b in 0 <= pos <= lenZ delivered /\
       (ending = None -> forall more ms2 rest, splits max (drop (Z.to_nat pos) delivered ++ more) ms2 rest -> splits max (delivered ++ more) (ms ++ [m] ++ ms2) rest) /\
       (ending <> None -> pos = lenZ delivered)).
Proof.
  intros E St. destruct (open_run calls _ t [] [] (new_open nomread ignore_eof true)) as (ms0 & self0 & t0 & d & ending & E0 & Rd & H & Op). rewrite E in E0. injection E0 as <- <- <-.
  destruct ending as [st|]; [destruct H as [H _]; pose proof (reads_ending _ _ _ _ _ _ Rd); congruence|]. destruct (Op eq_refl) as (O & Ig & Tr). rewrite !app_nil_l in O.
  destruct (fetch_ok read prefix Hprefix max Hmax Hread self' may_read t' ms d O) as (r & got & ending & Er & Rd' & Now & _ & P). exists r. split; [done|]. unfold fetch_ok_post in P.
  rewrite Ig in Rd'. pose proof (reads_trans _ _ _ _ _ _ _ _ Rd Rd') as Rd2. rewrite Tr in P. change (bs_pos_tracking (log_proto_text_server_new max nomread ignore_eof true)) with true in P. split.
  - intros Hn. destruct (Now Hn) as [-> Ht]. split; [|done]. rewrite app_nil_r in P. destruct Hn as [[m rest] N]. rewrite N in *. by destruct P as (_ & _ & -> & _).
  - intros m Hm. destruct (next_msg max (unread (alloc_buffer self') ++ got)) as [[m0 rest]|].
    + destruct P as (-> & _ & Hm0 & [_ O1] & U1 & (b & Hb & Hpos)). specialize (Hpos eq_refl). assert (m0 = m) as -> by congruence.
      exists b, (d ++ got), None. split; [done|]. split; [done|]. pose proof (ts_s _ _ _ _ _ O1) as Sp. rewrite U1 in Sp.
      destruct (splits_suffix _ _ _ _ _ Sp) as [k Hk]. rewrite Hk, lenZ_app in Hpos. assert (Hp : log_proto_text_server_get_pending_pos b = lenZ k) by lia. cbn zeta. rewrite Hp, Hk in *. pose proof (lenZ_nonneg k). pose proof (lenZ_nonneg rest).
      split; [rewrite lenZ_app; lia|]. split; [|done]. intros _ more ms2 r2 Sp2. unfold lenZ in Sp2. rewrite Nat2Z.id, drop_app_length in Sp2.
      rewrite app_assoc. apply (splits_trans prefix max _ _ (rest ++ more)); [by apply splits_app|done].
    + destruct ending as [st|]; [|by destruct P as (_ & Hm' & _); rewrite Hm' in Hm]. destruct P as [_ P]. case_bool; [by destruct P as [_ P]; rewrite P in Hm|].
      destruct P as (_ & _ & b & Hb' & Hpos). specialize (Hpos eq_refl). rewrite lenZ_nil in Hpos. exists b, (d ++ got), (Some st). pose proof (lenZ_nonneg (d ++ got)). split; [done|]. split; [done|]. cbn zeta. split; [lia|]. split; [done|lia].
Qed.

End run.

Section flush.
Context {T : Type} (read : T -> Z -> read_result * T) (max : Z) (Hmax : 0 < max < 2 ^ 31) (Hread : read_good read).
#[local] Abbreviation opts := (mkServerOptions None None).
#[local] Abbreviation fetch := (log_proto_buffered_server_fetch (log_proto_buffered_server_read_data read) (log_proto_text_server_fetch_from_buf opts) opts).

(** A cached line end that lies behind the data that was just read. *)
Lemma stale_eol_aborts (self : LogProtoBufferedServer) : 0 = bs_pending_buffer_pos self -> bs_pending_buffer_end self <= bs_buffer_cached_eol self -> lenZ (bs_buffer self) = max ->
  0 < bs_pending_buffer_end self -> 0 < bs_buffer_cached_eol self < max -> log_proto_buffered_server_fetch_from_buf (log_proto_text_server_fetch_from_buf opts) self false = Abort.
Proof.
  intros P E L Hn C. unfold log_proto_buffered_server_fetch_from_buf. rewrite bool_decide_eq_false_2 by lia. unfold log_proto_text_server_fetch_from_buf. cbn [text_fetch_from_buf]. rewrite (bool_decide_eq_true_2 (bs_buffer_cached_eol self <> 0)) by lia. unfold take_line. cbn [opt_prefix_matcher].
  rewrite bool_decide_eq_true_2 by lia. unfold find_eom_at. rewrite (bool_decide_eq_false_2 (_ /\ _)); [done|].
  assert (W : u32 (bs_pending_buffer_end self - (bs_buffer_cached_eol self + 1)) = 2 ^ 32 + (bs_pending_buffer_end self - (bs_buffer_cached_eol self + 1))).
  { unfold u32. rewrite <- (Z_mod_plus_full _ 1). rewrite Z.mod_small; lia. }
  rewrite W. lia.
Qed.

Lemma stale_fetch_aborts (self : LogProtoBufferedServer) (t1 t2 : T) (bs : bytes) : bs_status self = LPS_SUCCESS -> bs_pending_buffer_pos self = 0 -> bs_pending_buffer_end self = 0 ->
  lenZ (bs_buffer self) = max -> bs_buffer_size self = max -> 0 < bs_buffer_cached_eol self < max -> read t1 max = (RData bs, t2) -> lenZ bs <= bs_buffer_cached_eol self ->
  fetch self true false t1 = Abort.
Proof.
  intros St P E L Sz C Rd Hle. destruct (Hread _ _ _ _ Rd) as [Hb Hbs]. unfold log_proto_buffered_server_fetch.
  assert (A : alloc_buffer self = self) by (unfold alloc_buffer; destruct (bs_buffer self); [rewrite lenZ_nil in L; lia|done]). rewrite A.
  rewrite (bool_decide_eq_false_2 (bs_buffer_cached_eol self = 2 ^ 32 - 1)) by lia. rewrite St, bool_decide_eq_false_2 by (intros H; by apply H).
  unfold log_proto_buffered_server_fetch_from_buf at 1. rewrite (bool_decide_eq_true_2 (bs_pending_buffer_end self = bs_pending_buffer_pos self)) by lia. cbn [obind]. set (s1 := with_pending _ _ _ _ _).
  assert (S1 : bs_buffer s1 = bs_buffer self /\ bs_buffer_size s1 = max /\ bs_buffer_cached_eol s1 = bs_buffer_cached_eol self /\ bs_pending_buffer_pos s1 = 0 /\ bs_pending_buffer_end s1 = 0) by (unfold s1; by destruct (bs_pos_tracking self)).
  clearbody s1. destruct S1 as (B1 & B2 & B3 & B4 & B5). replace (2 * Z.to_nat (bs_buffer_size s1) + 2)%nat with (S (2 * Z.to_nat (bs_buffer_size s1) + 1)) by lia. cbn [read_loop negb]. unfold log_proto_buffered_server_read_data at 1. cbn [obind].
  rewrite B2, B5, Z.sub_0_r, Rd. cbn [obind]. destruct (mem_write_ret (bs_buffer s1) 0 bs) as (l & -> & L1 & _); [lia|rewrite B1; lia|]. cbn [obind].
  rewrite stale_eol_aborts; [done|cbn [with_pending with_raw bs_pending_buffer_pos bs_pending_buffer_end bs_buffer_cached_eol bs_buffer]; rewrite ?L1, ?B1, ?B3, ?B4; lia..].
Qed.

(** A flush leaves the cached end of the next line behind.  When it was
    set, the fetch after the next read takes it for a position in the new data;
    unless more than that was read, it searches for a line end outside the
    buffer. *)
Theorem text_server_flush_keeps_cached_eol (self : LogProtoBufferedServer) (may_read : bool) (t : T) :
  ts_geo None max self -> bs_status self = LPS_SUCCESS -> bs_buffer_cached_eol self <> 0 ->
  exists r, fetch self may_read true t = Ret r /\
    is_Some (fm_msg r) /\ unread (fm_self r) = [] /\ bs_buffer_cached_eol (fm_self r) = bs_buffer_cached_eol self /\
    forall t1 bs t2, read t1 max = (RData bs, t2) -> lenZ bs <= bs_buffer_cached_eol self ->
      fetch (fm_self r) true false t1 = Abort.
Proof.
  intros G St C. pose proof (unread_len None max self G) as L. pose proof G as [G1 G2 G3 G4 G5 G6 [?|[G7 G8]] G9 G10]; [done|].
  unfold log_proto_buffered_server_fetch at 1. rewrite alloc_id with (prefix := None) (max := max) by done. rewrite (cached_small None max) by done. unfold fetch_flush. cbn [opt_garbage_matcher andb]. fold (unread self).
  destruct (unread self) as [|c u] eqn:U; [done|]. eexists. split; [reflexivity|]. set (msg' := match last (c :: u) with Some 10 => _ | _ => _ end). clearbody msg'.
  unfold fetch_exit. rewrite bool_decide_eq_false_2 by (intros H; by apply H). cbn [fm_msg fm_self]. split; [by eexists|].
  set (s1 := with_pending self (bs_buffer self) (bs_pending_buffer_end self) (bs_pending_buffer_end self) (bs_buffer_cached_eol self)).
  assert (S2 : exists s2, _log_proto_buffered_server_update_pos s1 = s2 /\ bs_buffer s2 = bs_buffer self /\ bs_pending_buffer_pos s2 = 0 /\ bs_pending_buffer_end s2 = 0 /\
    bs_buffer_cached_eol s2 = bs_buffer_cached_eol self /\ bs_status s2 = LPS_SUCCESS /\ bs_buffer_size s2 = max).
  { eexists. split; [reflexivity|]. unfold _log_proto_buffered_server_update_pos. rewrite bool_decide_eq_true_2 by done. cbn. by destruct (bs_pos_tracking self). }
  destruct S2 as (s2 & -> & B1 & B2 & B3 & B4 & B5 & B6). split; [unfold unread; rewrite B2, B3; apply sub_nil|]. split; [done|]. intros t1 bs t2 Rd Hle.
  pose proof (message_end_le _ _ _ G8) as Hlt. change (skipped None) with 1%nat in Hlt. unfold lenZ in L. rewrite <- B4 in Hle. apply (stale_fetch_aborts s2 t1 t2 bs); (done || congruence || lia).
Qed.
End flush.

(** ** Concrete runs *)

(** A transport that delivers the given chunks and then ends. *)
Definition chunk_read (t : list bytes) (n : Z) : read_result * list bytes :=
  match t with
  | [] => (REof, [])
  | b :: t => if forallb (fun c => bool_decide (0 <= c) && bool_decide (c < 256)) b && bool_decide (0 < lenZ b <= n) then (RData b, t) else (RError, t)
  end.

Lemma chunk_read_good : read_good chunk_read.
Proof.
  intros [|b t] n bs t'; cbn [chunk_read]; [done|]. destruct (forallb _ b) eqn:F; cbn [andb]; [|done]. case_bool; [|done]. intros [= <- <-]. split; [done|].
  apply Forall_forall. intros x Hx. rewrite forallb_forall in F. apply list_elem_of_In in Hx. specialize (F x Hx). apply andb_prop in F as [F1 F2].
  apply bool_decide_eq_true in F1, F2. split; done.
Qed.


Definition two_lines : list bytes := [bytes_of_string "ab" ++ [13; 10] ++ bytes_of_string "cd"; bytes_of_string "e" ++ [10; 10] ++ bytes_of_string "f"].
(** Messages that start with a line that begins with '<'. *)
Definition starts_with (c : Z) : matcher := fun l => match l with b :: _ => if bool_decide (b = c) then Some (0, 1) else None | [] => None end.
Definition two_records : list bytes := [bytes_of_string "<a" ++ [10] ++ bytes_of_string " b" ++ [10]; bytes_of_string "<c" ++ [10]].

Lemma starts_with_prefix (c : Z) : prefix_pattern (Some (starts_with c)).
Proof. split; [done|]. intros [|b l] x; [done|]. unfold matches, starts_with. cbn [app]. by destruct (bool_decide _). Qed.

Lemma text_server_lines_witness :
  (exists ms self' t' delivered ending, ts_run chunk_read (mkServerOptions None None) [true; true; true; true; true] (log_proto_text_server_new 16 false false true) two_lines = Ret (ms, self', t') /\
     reads chunk_read false two_lines delivered ending t' /\ handed_out None 16 self' delivered ending ms) /\
  (exists ms self' t', ts_run chunk_read (mkServerOptions (Some (starts_with 60)) None) [true; true] (log_proto_text_server_new 16 false false true) two_records = Ret (ms, self', t') /\
     ms = [bytes_of_string "<a" ++ [10] ++ bytes_of_string " b"; bytes_of_string "<c" ++ [10]]).
Proof.
  split; [apply (text_server_lines chunk_read None 16); [lia|exact chunk_read_good|exact I]|].
  destruct (text_server_lines chunk_read (Some (starts_with 60)) 16 ltac:(lia) chunk_read_good (starts_with_prefix 60) [true; true] false false true two_records) as (ms & self' & t' & d & e & E & _).
  exists ms, self', t'. split; [exact E|]. revert E. vm_compute. intros E. injection E. intros _ _ <-. reflexivity.
Defined.

Lemma text_server_bookmark_witness : exists self' t', ts_run chunk_read (mkServerOptions None None) [true; true] (log_proto_text_server_new 16 false false true) two_lines = Ret ([bytes_of_string "ab"; bytes_of_string "cde"], self', t') /\
  exists r, log_proto_buffered_server_fetch (log_proto_buffered_server_read_data chunk_read) (log_proto_text_server_fetch_from_buf (mkServerOptions None None)) (mkServerOptions None None) self' true false t' = Ret r /\ fm_msg r = Some [].
Proof.
  do 2 eexists. split; [vm_compute; reflexivity|].
  edestruct (text_server_bookmark chunk_read None 16 ltac:(lia) chunk_read_good I [true; true] false false true two_lines) as (r & E & _); [vm_compute; reflexivity|vm_compute; reflexivity|].
  exists r. split; [exact E|]. revert E. vm_compute. intros [= <-]. reflexivity.
Defined.

Definition stale_state : LogProtoBufferedServer :=
  mkBufferedServer (bytes_of_string "a" ++ [10] ++ bytes_of_string "b" ++ [10] ++ replicate 4 0) 8 2 4 3 0 4 8 8 LPS_SUCCESS false false true false true.

Lemma text_server_flush_keeps_cached_eol_witness :
  ts_run chunk_read (mkServerOptions None None) [true] (log_proto_text_server_new 8 false false true) [bytes_of_string "a" ++ [10] ++ bytes_of_string "b" ++ [10]] = Ret ([bytes_of_string "a"], stale_state, []) /\
  exists r, log_proto_buffered_server_fetch (log_proto_buffered_server_read_data chunk_read) (log_proto_text_server_fetch_from_buf (mkServerOptions None None)) (mkServerOptions None None) stale_state true true [] = Ret r /\
    log_proto_buffered_server_fetch (log_proto_buffered_server_read_data chunk_read) (log_proto_text_server_fetch_from_buf (mkServerOptions None None)) (mkServerOptions None None) (fm_self r) true false [bytes_of_string "x"] = Abort.
Proof.
  split; [vm_compute; reflexivity|].
  destruct (text_server_flush_keeps_cached_eol chunk_read 8 ltac:(lia) chunk_read_good stale_state true []) as (r & E & _ & _ & _ & H).
  - split; try reflexivity; [repeat constructor; done| | |right]; vm_compute; try (split; (reflexivity || discriminate)); try discriminate. split; [split; (reflexivity || discriminate)|reflexivity].
  - reflexivity.
  - discriminate.
  - exists r. split; [exact E|]. apply (H [bytes_of_string "x"] (bytes_of_string "x") []); [vm_compute; reflexivity|vm_compute; discriminate].
Defined.
