(* ===== verification/TextServerSafe.v ===== *)
(** * Prefix and garbage patterns: the text server stays in its buffer *)
From S2P Require Import Prelude Buffer FindEom TextServer TextServerSpec TextServerClaims.

(** What pcre promises: a match lies inside the line. *)
Definition pattern_ok (m : matcher) : Prop := forall l f e, m l = Some (f, e) -> 0 <= f <= e /\ e <= lenZ l.
Definition patterns_ok (opts : LogProtoServerOptions) : Prop :=
  (forall m, opt_prefix_matcher opts = Some m -> pattern_ok m) /\ (forall m, opt_garbage_matcher opts = Some m -> pattern_ok m).

(** ** Searching *)

Section search.
Context (l : bytes) (end_ : Z) (Hl : Forall is_byte l) (Hend : end_ <= lenZ l).

Lemma eom_in_range (line : Z) : 0 <= line <= end_ -> exists r, find_eom_at l line (end_ - line) = Ret r /\ forall i, r = Some i -> line <= i < end_.
Proof.
  intros H. rewrite find_eom_at_ok by (done || lia). eexists. split; [reflexivity|]. intros i. destruct (first_eom _) as [k|] eqn:F; [|done]. intros [= <-].
  apply first_eom_lt in F. assert (L : lenZ (sub l line (line + (end_ - line))) = end_ - line) by (rewrite sub_length; lia). unfold lenZ in L. lia.
Qed.

Lemma line_loop_in_range (m : matcher) (fuel : nat) : pattern_ok m -> forall line, 0 <= line <= end_ -> (Z.to_nat (end_ - line) < fuel)%nat ->
  exists r, line_loop fuel m l line end_ = Ret r /\ forall i f e, r = Some (i, f, e) -> line <= i /\ 0 <= f <= e /\ i + e <= end_.
Proof.
  intros Hm. induction fuel as [|fuel IH]; intros line H Hf; [lia|]. cbn [line_loop]. destruct (eom_in_range line H) as (r & -> & Hr). cbn [obind].
  destruct r as [next|]; [specialize (Hr next eq_refl)|].
  - destruct (m (sub l line next)) as [[f e]|] eqn:E.
    + eexists. split; [reflexivity|]. intros i f' e' [= <- <- <-]. apply Hm in E. rewrite sub_length in E by lia. lia.
    + destruct (IH (next + 1)) as (r & -> & Hr2); [lia|lia|]. exists r. split; [done|]. intros i f e Ei. specialize (Hr2 i f e Ei). lia.
  - eexists. split; [reflexivity|]. intros i f e. destruct (m (sub l line end_)) as [[f' e']|] eqn:E; [|done]. intros [= <- <- <-]. apply Hm in E. rewrite sub_length in E by lia. lia.
Qed.

(** The end found lies inside, and the read position does not move past the end. *)
Lemma find_multi_in_range (prefix : matcher) (garbage : option matcher) (wait : bool) (start : Z) : pattern_ok prefix -> (forall m, garbage = Some m -> pattern_ok m) -> 0 <= start <= end_ ->
  exists eom wait' n, find_multi_line_eom prefix garbage wait l start (end_ - start) = Ret (eom, wait', n) /\ 0 <= n <= end_ - start /\
    (wait = true -> n = 0) /\ match eom with Some i => start <= i <= end_ | None => n = 0 /\ wait' = wait end.
Proof.
  intros Hp Hg H. unfold find_multi_line_eom. replace (start + (end_ - start)) with end_ by lia. destruct wait; [|destruct garbage as [g|]].
  - destruct (line_loop_in_range prefix (S (S (Z.to_nat (end_ - start)))) Hp start H ltac:(lia)) as (r & -> & Hr). cbn [obind].
    destruct r as [[[i f] e]|]; [specialize (Hr i f e eq_refl)|]; (do 3 eexists; split; [reflexivity|]; split; [lia|]; split; [done|]; done || lia).
  - destruct (line_loop_in_range g (S (S (Z.to_nat (end_ - start)))) (Hg g eq_refl) start H ltac:(lia)) as (r & -> & Hr). cbn [obind].
    destruct r as [[[i f] e]|]; [specialize (Hr i f e eq_refl)|]; (do 3 eexists; split; [reflexivity|]; split; [lia|]; split; [done|]; done || lia).
  - destruct (eom_in_range start H) as (r & -> & Hr). cbn [obind]. destruct r as [k|]; [specialize (Hr k eq_refl)|do 3 eexists; split; [reflexivity|]; split; [lia|]; done].
    destruct (line_loop_in_range prefix (S (S (Z.to_nat (end_ - start)))) Hp k ltac:(lia) ltac:(lia)) as (r & -> & Hr2). cbn [obind].
    destruct r as [[[i f] e]|]; [specialize (Hr2 i f e eq_refl)|]; (do 3 eexists; split; [reflexivity|]; split; [lia|]; split; [done|]; done || lia).
Qed.
End search.

(** ** The buffer *)

Section safe.
Context (opts : LogProtoServerOptions) (Hopts : patterns_ok opts).
Context (max : Z) (Hmax : 0 < max < 2 ^ 31).
#[local] Abbreviation skip := (Z.of_nat (skipped (opt_prefix_matcher opts))).

Record tx_ok (self : LogProtoBufferedServer) : Prop := {
  tx_max : bs_max_msg_size self = max;
  tx_size : bs_buffer_size self = max;
  tx_len : lenZ (bs_buffer self) = max;
  tx_bytes : Forall is_byte (bs_buffer self);
  tx_pos : 0 <= bs_pending_buffer_pos self <= bs_pending_buffer_end self;
  tx_end : bs_pending_buffer_end self <= max;
  tx_eol : bs_buffer_cached_eol self = 0 \/ (bs_pending_buffer_pos self < bs_buffer_cached_eol self /\ bs_buffer_cached_eol self + skip <= bs_pending_buffer_end self)
}.

Lemma tx_move (self self' : LogProtoBufferedServer) : tx_ok self -> bs_buffer self' = bs_buffer self -> bs_max_msg_size self' = max -> bs_buffer_size self' = max ->
  bs_pending_buffer_end self' <= max -> 0 <= bs_pending_buffer_pos self' <= bs_pending_buffer_end self' ->
  (bs_buffer_cached_eol self' = 0 \/ (bs_pending_buffer_pos self' < bs_buffer_cached_eol self' /\ bs_buffer_cached_eol self' + skip <= bs_pending_buffer_end self')) -> tx_ok self'.
Proof. intros [A1 A2 A3 A4 A5 A6 A7] E1 E2 E3 E4 E5 E6. split; rewrite ?E1; done. Qed.

Lemma take_line_safe (self : LogProtoBufferedServer) (start eol : Z) : tx_ok self -> 0 <= eol -> eol + skip <= bs_pending_buffer_end self ->
  exists msg self', take_line opts self start eol = Ret (Some (Some msg), self') /\ tx_ok self' /\ bs_status self' = bs_status self.
Proof.
  intros O H1 H2. pose proof O as [A1 A2 A3 A4 A5 A6 A7]. unfold take_line. destruct Hopts as [Hp Hg].
  set (pos := match opt_prefix_matcher opts with None => _ | Some _ => _ end).
  assert (Ppos : 0 <= pos <= bs_pending_buffer_end self) by (unfold pos; destruct (opt_prefix_matcher opts); simpl in H2; [destruct (bs_has_to_update self); lia|lia]).
  clearbody pos. case_bool; [|do 2 eexists; split; [reflexivity|]; split; [apply (tx_move self); try done; cbn; lia|done]]. rewrite u32_small by lia.
  match goal with |- exists _ _, obind ?x _ = _ /\ _ => set (search := x) end.
  assert (S : exists eom pos' wait update, search = Ret (eom, pos', wait, update) /\ 0 <= pos' <= bs_pending_buffer_end self /\
    (forall i, eom = Some i -> i + skip <= bs_pending_buffer_end self)).
  { unfold search. destruct (opt_prefix_matcher opts) as [prefix|] eqn:Ep.
    - destruct (find_multi_in_range (bs_buffer self) (bs_pending_buffer_end self) A4 ltac:(lia) prefix (opt_garbage_matcher opts) (bs_wait_for_prefix self) pos (Hp _ eq_refl) Hg Ppos)
        as (eom & wait' & n & -> & Hn & _ & Hi). cbn [obind].
      assert (Plain : exists eom' pos' wait update, Ret (eom, pos + n, wait', if bool_decide (n <> 0) then false else bs_has_to_update self) = Ret (eom', pos', wait, update) /\
        0 <= pos' <= bs_pending_buffer_end self /\ (forall i, eom' = Some i -> i + 0 <= bs_pending_buffer_end self)).
      { do 4 eexists. split; [reflexivity|]. split; [lia|]. intros i ->. lia. }
      destruct eom as [i|]; [|exact Plain]. destruct (bs_wait_for_prefix self && negb wait'); [|exact Plain]. rewrite u32_small by lia.
      destruct (find_multi_in_range (bs_buffer self) (bs_pending_buffer_end self) A4 ltac:(lia) prefix (opt_garbage_matcher opts) wait' i (Hp _ eq_refl) Hg ltac:(lia))
        as (eom2 & wait2 & n2 & -> & _ & _ & Hi2). cbn [obind]. do 4 eexists. split; [reflexivity|]. split; [lia|]. intros j ->. simpl. lia.
    - destruct (eom_in_range (bs_buffer self) (bs_pending_buffer_end self) A4 ltac:(lia) pos Ppos) as (r & -> & Hr). cbn [obind]. do 4 eexists. split; [reflexivity|]. split; [lia|].
      intros i ->. specialize (Hr i eq_refl). simpl. lia. }
  destruct S as (eom & pos' & wait & update & -> & Hpos' & Heom). cbn [obind]. do 2 eexists. split; [reflexivity|]. split; [|done].
  apply (tx_move self); try done; cbn [bs_pending_buffer_pos bs_pending_buffer_end bs_buffer_cached_eol with_pending]; try lia.
  destruct eom as [i|]; [|by left]. specialize (Heom i eq_refl). case_bool; [right|by left]. lia.
Qed.

(** A call that finds no message has freed the front of the buffer; it drops
    bytes only when the awaited prefix was found. *)
Definition progress (self self' : LogProtoBufferedServer) : Prop :=
  bs_pending_buffer_pos self' = 0 /\ bs_pending_buffer_end self' < max /\
  ((bs_wait_for_prefix self' = bs_wait_for_prefix self /\ bs_pending_buffer_end self' = bs_pending_buffer_end self - bs_pending_buffer_pos self) \/
   (bs_wait_for_prefix self = true /\ bs_wait_for_prefix self' = false)).

Lemma no_line_safe (self : LogProtoBufferedServer) : tx_ok self ->
  exists msg self', no_line self (bs_pending_buffer_pos self) (bs_pending_buffer_end self - bs_pending_buffer_pos self) = Ret (msg, self') /\ tx_ok self' /\ bs_status self' = bs_status self /\
    match msg with None => progress self self' | Some None => False | Some (Some _) => True end.
Proof.
  intros O. pose proof O as [A1 A2 A3 A4 A5 A6 A7]. unfold no_line. rewrite A1. case_bool.
  { do 2 eexists. split; [reflexivity|]. split; [apply (tx_move self); try done; cbn; lia|done]. }
  replace (bs_pending_buffer_pos self + (bs_pending_buffer_end self - bs_pending_buffer_pos self)) with (bs_pending_buffer_end self) by lia. fold (unread self).
  assert (U : lenZ (unread self) = bs_pending_buffer_end self - bs_pending_buffer_pos self) by (apply sub_length; lia).
  destruct (mem_write_ret (bs_buffer self) 0 (unread self)) as (l & E2 & L1 & L2 & _); [lia|lia|]. rewrite E2. cbn [obind].
  assert (Hl : Forall is_byte l) by (eapply mem_write_bytes; [exact E2|done|by apply (sub_bytes (bs_buffer self))]).
  destruct (bs_pos_tracking _); (do 2 eexists; split; [reflexivity|]; split; [split; cbn; try done; lia|]; split; [done|]; split; [done|]; split; [cbn; lia|by left]).
Qed.

Lemma text_fetch_safe (fuel : nat) : forall self, tx_ok self -> (1 < fuel)%nat \/ (fuel = 1%nat /\ bs_wait_for_prefix self = false) ->
  exists msg self', text_fetch_from_buf fuel opts self false = Ret (msg, self') /\ tx_ok self' /\ bs_status self' = bs_status self /\
    match msg with None => progress self self' | Some None => False | Some (Some _) => True end.
Proof.
  induction fuel as [|fuel IH]; intros self O Hf; [lia|]. pose proof O as [A1 A2 A3 A4 A5 A6 A7]. cbn [text_fetch_from_buf]. case_bool.
  { destruct (take_line_safe self (bs_pending_buffer_pos self) (bs_buffer_cached_eol self) O) as (msg & self' & E & O' & St); [lia|lia|]. by exists (Some (Some msg)), self'. }
  rewrite u32_small by lia. destruct (opt_prefix_matcher opts) as [prefix|] eqn:Ep.
  - destruct (find_multi_in_range (bs_buffer self) (bs_pending_buffer_end self) A4 ltac:(lia) prefix (opt_garbage_matcher opts) (bs_wait_for_prefix self) (bs_pending_buffer_pos self) (proj1 Hopts _ Ep) (proj2 Hopts) A5)
      as (eom & wait' & n & -> & Hn & Hw & Hi). cbn [obind]. set (s1 := with_wait _ _ _).
    assert (O1 : tx_ok s1) by (apply (tx_move self); try done; cbn; try lia; by left). destruct eom as [i|].
    + destruct (bs_wait_for_prefix self && negb wait') eqn:W.
      * apply andb_prop in W as [W1 W2]. destruct (IH (with_pending s1 (bs_buffer self) i (bs_pending_buffer_end self) 0)) as (msg & self' & E & O' & St & P).
        { apply (tx_move self); try done; cbn; try lia; by left. }
        { destruct Hf as [Hf|[_ Hf]]; [|congruence]. destruct fuel as [|[|fuel]]; [lia|right; split; [done|by destruct wait']|left; lia]. }
        exists msg, self'. rewrite E. split; [done|]. split; [done|]. split; [done|]. destruct msg as [[m|]|]; [done|done|]. destruct P as (P1 & P2 & P3). split_and!; [done|done|].
        right. split; [done|]. destruct P3 as [[P3 _]|[P3 _]]; [rewrite P3; cbn|cbn in P3]; by destruct wait'.
      * destruct (take_line_safe s1 (bs_pending_buffer_pos self) i O1) as (msg & self' & E & O' & St); [lia|rewrite Ep; cbn; lia|]. by exists (Some (Some msg)), self'.
    + destruct Hi as [Hn0 Hw0]. assert (P0 : bs_pending_buffer_pos s1 = bs_pending_buffer_pos self) by (cbn; lia). assert (W0 : bs_wait_for_prefix s1 = bs_wait_for_prefix self) by done.
      destruct (no_line_safe s1 O1) as (msg & self' & E & O' & St & P). rewrite P0 in E. exists msg, self'. split; [exact E|]. split; [done|]. split; [done|].
      unfold progress in *. by rewrite P0, W0 in P.
  - destruct (eom_in_range (bs_buffer self) (bs_pending_buffer_end self) A4 ltac:(lia) (bs_pending_buffer_pos self) A5) as (r & -> & Hr). cbn [obind]. destruct r as [i|].
    + destruct (take_line_safe self (bs_pending_buffer_pos self) i O) as (msg & self' & E & O' & St); [specialize (Hr i eq_refl); lia|specialize (Hr i eq_refl); rewrite Ep; simpl; lia|]. by exists (Some (Some msg)), self'.
    + by apply no_line_safe.
Qed.

(** ** Fetching *)

Lemma reset_safe (self : LogProtoBufferedServer) : tx_ok self -> bs_pending_buffer_pos self = bs_pending_buffer_end self ->
  forall self', bs_buffer self' = bs_buffer self -> bs_max_msg_size self' = max -> bs_buffer_size self' = max -> bs_pending_buffer_pos self' = 0 -> bs_pending_buffer_end self' = 0 ->
  bs_buffer_cached_eol self' = bs_buffer_cached_eol self -> tx_ok self'.
Proof. intros O Hpe self' E1 E2 E3 E4 E5 E6. apply (tx_move self); try done; rewrite ?E4, ?E5, ?E6; try lia. destruct O as [_ _ _ _ _ _ [?|?]]; [by left|lia]. Qed.

Lemma buffered_fetch_safe (self : LogProtoBufferedServer) : tx_ok self ->
  exists msg self', log_proto_buffered_server_fetch_from_buf (log_proto_text_server_fetch_from_buf opts) self false = Ret (msg, self') /\ tx_ok self' /\ bs_status self' = bs_status self /\
    match msg with None => progress self self' | Some None => False | Some (Some _) => True end.
Proof.
  intros O. pose proof O as [A1 A2 A3 A4 A5 A6 A7]. unfold log_proto_buffered_server_fetch_from_buf. case_bool; [|apply (text_fetch_safe 2); [done|left; lia]].
  eexists None, _. split; [reflexivity|]. split; [apply (reset_safe self); try done; by destruct (bs_pos_tracking self)|]. split; [by destruct (bs_pos_tracking self)|].
  split; [done|]. split; [cbn; lia|]. left. split; [by destruct (bs_pos_tracking self)|cbn; lia].
Qed.

Context {T : Type} (read : T -> Z -> read_result * T) (Hread : read_good read).
#[local] Abbreviation from_buf := (log_proto_text_server_fetch_from_buf opts).
#[local] Abbreviation read_data := (log_proto_buffered_server_read_data read).

(** Fetched safely: the server goes on, or it is closed. *)
Definition safe_result (r : (LogProtoStatus * option bytes) * LogProtoBufferedServer * T * bytes) : Prop :=
  let '(result, _, self, _, _) := r in bs_status self <> LPS_SUCCESS \/ (result = LPS_SUCCESS /\ tx_ok self).

Lemma fetch_last_safe (self : LogProtoBufferedServer) (st : LogProtoStatus) (t : T) (got : bytes) : tx_ok self -> st <> LPS_SUCCESS ->
  exists r, fetch_last from_buf self st t got = Ret r /\ safe_result r.
Proof.
  intros O Hst. unfold fetch_last, log_proto_buffered_server_fetch_from_buf. cbn [bs_pending_buffer_end bs_pending_buffer_pos with_status].
  case_bool; cbn [obind]; [eexists; split; [reflexivity|]; left; cbn; by destruct (bs_pos_tracking self)|].
  unfold log_proto_text_server_fetch_from_buf. cbn [text_fetch_from_buf]. destruct (_ && _); cbn [obind]; (eexists; split; [reflexivity|by left]).
Qed.

Definition measure (self : LogProtoBufferedServer) : nat := (Z.to_nat (max - bs_pending_buffer_end self) + (if bs_wait_for_prefix self then Z.to_nat max + 1 else 0))%nat.

Lemma read_loop_safe (fuel : nat) : forall self may_read t got, tx_ok self -> bs_status self = LPS_SUCCESS -> bs_pending_buffer_pos self = 0 -> bs_pending_buffer_end self < max ->
  (measure self < fuel)%nat -> exists r, read_loop read_data from_buf fuel self may_read t got = Ret r /\ safe_result r.
Proof.
  induction fuel as [|fuel IH]; intros self may_read t got O St P E F; [lia|]. cbn [read_loop].
  assert (Stop : forall t', exists r, Ret ((LPS_SUCCESS, None), self, t', got) = Ret r /\ safe_result r) by (intros t'; eexists; split; [reflexivity|by right]).
  destruct may_read; cbn [negb]; [|apply Stop]. pose proof O as [A1 A2 A3 A4 A5 A6 A7]. unfold log_proto_buffered_server_read_data at 1. cbn [obind].
  destruct (read t _) as [[bs| | |] t1] eqn:Er; cbn [obind]; [|apply Stop|by apply fetch_last_safe|destruct (bs_ignore_eof self); [apply Stop|by apply fetch_last_safe]].
  destruct (Hread _ _ _ _ Er) as [Hb Hbs]. rewrite A2 in Hb. destruct (mem_write_ret (bs_buffer self) (bs_pending_buffer_end self) bs) as (l & Em & L1 & _); [lia|lia|]. rewrite Em. cbn [obind].
  set (s1 := with_pending _ _ _ _ _).
  assert (O1 : tx_ok s1) by (split; cbn; try done; try lia; by eapply mem_write_bytes).
  destruct (buffered_fetch_safe s1 O1) as (msg & s2 & -> & O2 & St2 & C). cbn [obind]. destruct msg as [[m|]|]; [|done|].
  { eexists. split; [reflexivity|]. by right. }
  destruct C as (P2 & E2 & C). apply IH; try done; [by rewrite St2|]. pose proof (tx_pos _ O2) as Q2. unfold measure in *. cbn in C. rewrite P in C.
  destruct C as [[-> C]|[W1 ->]]; [destruct (bs_wait_for_prefix self); lia|]. rewrite W1 in F. lia.
Qed.

#[local] Abbreviation fetch := (log_proto_buffered_server_fetch read_data from_buf opts).

Lemma exit_safe (r : (LogProtoStatus * option bytes) * LogProtoBufferedServer * T * bytes) : safe_result r ->
  bs_status (fm_self (fetch_exit r)) <> LPS_SUCCESS \/ tx_ok (fm_self (fetch_exit r)).
Proof.
  destruct r as [[[[result msg] self] t] got]. intros H. unfold fetch_exit. case_bool; [by left|]. destruct msg as [m|]; cbn [fm_self].
  - unfold _log_proto_buffered_server_update_pos. case_bool; cbn [bs_pos_tracking with_pending].
    + destruct H as [H|[_ O]]; [left|right]; [by destruct (bs_pos_tracking self)|]. apply (reset_safe self); try done; destruct (bs_pos_tracking self), O; done.
    + destruct H as [H|[_ O]]; [by left|by right].
  - destruct H as [H|[_ O]]; [by left|by right].
Qed.

Definition safe_state (self : LogProtoBufferedServer) : Prop := bs_status self <> LPS_SUCCESS \/ tx_ok (alloc_buffer self).

Lemma tx_alloc (self : LogProtoBufferedServer) : tx_ok self -> alloc_buffer self = self.
Proof. intros [_ _ L _ _ _ _]. unfold alloc_buffer. destruct (bs_buffer self); [rewrite lenZ_nil in L; lia|done]. Qed.

Lemma fetch_safe (self : LogProtoBufferedServer) (may_read : bool) (t : T) : safe_state self -> exists r, fetch self may_read false t = Ret r /\ safe_state (fm_self r).
Proof.
  assert (Exit : forall r, safe_result r -> safe_state (fm_self (fetch_exit r))).
  { intros r H. destruct (exit_safe r H) as [H1|H1]; [by left|right]. by rewrite tx_alloc. }
  intros H. unfold log_proto_buffered_server_fetch. set (s0 := if bool_decide (bs_buffer_cached_eol (alloc_buffer self) = 2 ^ 32 - 1) then _ else _).
  assert (S0 : bs_status s0 = bs_status self) by (unfold s0, alloc_buffer; case_bool; by destruct (bs_buffer self)). case_bool.
  - eexists. split; [reflexivity|]. apply Exit. by left.
  - assert (St : bs_status s0 = LPS_SUCCESS) by (destruct (decide (bs_status s0 = LPS_SUCCESS)); [done|by destruct Hb]).
    destruct H as [H|O]; [congruence|]. assert (O0 : tx_ok s0).
    { unfold s0. rewrite bool_decide_eq_false_2; [done|]. destruct O as [_ _ _ _ ? ? ?]. lia. }
    clearbody s0. destruct (buffered_fetch_safe s0 O0) as (msg & s1 & -> & O1 & St1 & C). cbn [obind]. destruct msg as [[m|]|]; [|done|].
    { eexists. split; [reflexivity|]. apply Exit. by right. }
    destruct C as (P & E & _). pose proof (tx_pos _ O1). pose proof (tx_size _ O1) as Sz.
    destruct (read_loop_safe (2 * Z.to_nat (bs_buffer_size s1) + 2) s1 may_read t []) as (r & -> & Hr); [done|congruence|done|done|unfold measure; destruct (bs_wait_for_prefix s1); lia|].
    cbn [obind]. eexists. split; [reflexivity|]. by apply Exit.
Qed.

(** With any prefix() and garbage() patterns, over any sequence of fetches,
    the text server returns from each and never touches a byte outside its
    buffer; its positions stay ordered and the cached end lies in what is
    buffered, until the stream ends. *)
Theorem text_server_patterns_safe (calls : list bool) (nomread ignore_eof pos_tracking : bool) (t : T) :
  exists ms self' t', ts_run read opts calls (log_proto_text_server_new max nomread ignore_eof pos_tracking) t = Ret (ms, self', t') /\
    (bs_status self' <> LPS_SUCCESS \/ tx_ok (alloc_buffer self')).
Proof.
  assert (H : safe_state (log_proto_text_server_new max nomread ignore_eof pos_tracking)).
  { right. assert (L : lenZ (replicate (Z.to_nat max) 0) = max) by (unfold lenZ; rewrite length_replicate; lia). split; cbn -[replicate]; try done; try lia; by apply Forall_replicate. }
  revert H t. generalize (log_proto_text_server_new max nomread ignore_eof pos_tracking). induction calls as [|may_read calls IH]; intros self H t; [by exists [], self, t|].
  cbn [ts_run]. destruct (fetch_safe self may_read t H) as (r & -> & Hr). cbn [obind]. destruct (IH (fm_self r) Hr (fm_transport r)) as (ms & self' & t' & -> & H').
  cbn [obind]. by do 3 eexists.
Qed.
End safe.

(** ** Concrete runs *)

(** A byte of a line, as a pattern. *)
Definition byte_pattern (c : Z) : matcher := fun l =>
  match list_find (fun b => b = c) l with Some (i, _) => Some (Z.of_nat i, Z.of_nat i + 1) | None => None end.

Lemma byte_pattern_ok (c : Z) : pattern_ok (byte_pattern c).
Proof.
  intros l f e. unfold byte_pattern. destruct (list_find _ l) as [[i b]|] eqn:E; [|done]. intros [= <- <-]. apply list_find_Some in E as (E & _). apply lookup_lt_Some in E. unfold lenZ. lia.
Qed.

Definition marked_options : LogProtoServerOptions := mkServerOptions (Some (byte_pattern 60)) (Some (byte_pattern 62)).

Lemma marked_patterns_ok : patterns_ok marked_options.
Proof. split; intros m [= <-]; apply byte_pattern_ok. Qed.

Lemma text_server_patterns_safe_witness : exists ms self' t',
  ts_run chunk_read marked_options [true; true; true] (log_proto_text_server_new 32 false false true) [bytes_of_string "<a" ++ [10] ++ bytes_of_string "b> x" ++ [10] ++ bytes_of_string "<c>"] = Ret (ms, self', t') /\
  ms = [bytes_of_string "<a" ++ [10] ++ bytes_of_string "b"; bytes_of_string "<c"].
Proof.
  destruct (text_server_patterns_safe marked_options marked_patterns_ok 32 ltac:(lia) chunk_read chunk_read_good [true; true; true] false false true [bytes_of_string "<a" ++ [10] ++ bytes_of_string "b> x" ++ [10] ++ bytes_of_string "<c>"]) as (ms & self' & t' & E & _).
  exists ms, self', t'. split; [exact E|]. revert E. vm_compute. intros E. injection E. intros _ _ <-. reflexivity.
Defined.

(** A prefix() pattern that matches the empty line: once a message has ended at
    a newline, every further fetch hands out an empty message and nothing
    moves, because the search starts with the empty line in front of it. *)
Theorem empty_prefix_stalls (m : matcher) (self : LogProtoBufferedServer) (at_newline : Z * Z) (b : Z) :
  m [] = Some at_newline -> Forall is_byte (bs_buffer self) -> 0 <= bs_pending_buffer_pos self < bs_pending_buffer_end self -> bs_pending_buffer_end self <= lenZ (bs_buffer self) ->
  bs_pending_buffer_end self < 2 ^ 32 -> bs_buffer self !! Z.to_nat (bs_pending_buffer_pos self) = Some b -> is_eom b = true ->
  bs_wait_for_prefix self = false -> bs_has_to_update self = true -> bs_buffer_cached_eol self = 0 ->
  log_proto_text_server_fetch_from_buf (mkServerOptions (Some m) None) self false = Ret (Some (Some []), self).
Proof.
  intros Hm Hl Hp He H32 Hb Eb Hw Hu Hc. set (pos := bs_pending_buffer_pos self) in *. set (end_ := bs_pending_buffer_end self) in *.
  assert (F : find_eom_at (bs_buffer self) pos (end_ - pos) = Ret (Some pos)).
  { rewrite find_eom_at_ok by (done || lia). replace (pos + (end_ - pos)) with end_ by lia.
    destruct (first_eom_before (sub (bs_buffer self) pos end_) 0 b) as (i & -> & Hi); [|done|assert (i = 0%nat) as -> by lia; cbn; do 2 f_equal; lia].
    unfold sub. rewrite lookup_take_lt by lia. by rewrite lookup_drop, Nat.add_0_r. }
  assert (M : find_multi_line_eom m None false (bs_buffer self) pos (end_ - pos) = Ret (Some pos, false, 0)).
  { unfold find_multi_line_eom. rewrite F. cbn [obind line_loop]. replace (pos + (end_ - pos)) with end_ by lia. rewrite F. cbn [obind]. rewrite sub_nil, Hm. by destruct at_newline. }
  unfold log_proto_text_server_fetch_from_buf. cbn [text_fetch_from_buf]. rewrite Hc. rewrite bool_decide_eq_false_2 by lia. cbn [opt_prefix_matcher opt_garbage_matcher]. fold pos end_.
  rewrite u32_small by lia. rewrite Hw, M. cbn [obind andb]. rewrite Z.add_0_r. rewrite bool_decide_eq_false_2 by lia.
  assert (Sf : with_wait (with_pending self (bs_buffer self) pos end_ 0) false (bs_has_to_update (with_pending self (bs_buffer self) pos end_ 0)) = self) by (unfold pos, end_; destruct self; cbn in *; by subst).
  rewrite Sf. unfold take_line. rewrite sub_nil. cbn [opt_prefix_matcher opt_garbage_matcher]. rewrite Hu. fold end_. rewrite bool_decide_eq_true_2 by lia. rewrite u32_small by lia.
  rewrite Hw, M. cbn [obind andb negb]. rewrite Z.add_0_r, (bool_decide_eq_false_2 (pos > pos)) by lia. rewrite bool_decide_eq_false_2 by lia.
  do 2 f_equal. unfold pos, end_. destruct self; cbn in *; by subst.
Qed.
