(* ===== verification/StrFormat.v ===== *)
(** * Numbers and dates as text (lib/str-format.c)

    A [GString] is the list of its bytes.  A scanner works on a cursor: the
    memory from the read position on, and the number of bytes the caller says
    are left.  Reading behind that memory is [Abort]. *)
From S2P Require Import Prelude.

(** ** Writing numbers *)

Definition digits (d : Z) : Z := if bool_decide (d < 10) then 48 + d else 87 + d.

Fixpoint base10_loop (result_len : nat) (value : Z) : bytes :=
  match result_len with
  | O => []
  | S result_len => if bool_decide (value > 0) then digits (value mod 10) :: base10_loop result_len (value / 10) else []
  end.
Fixpoint base16_loop (result_len : nat) (value : Z) : bytes :=
  match result_len with
  | O => []
  | S result_len => if bool_decide (value > 0) then digits (Z.land value 15) :: base16_loop result_len (Z.shiftr value 4) else []
  end.

Definition format_uint64_base10_rev (result_len : nat) (value : Z) : bytes := base10_loop result_len value.
Definition format_uint64_base16_rev (result_len : nat) (value : Z) : bytes := base16_loop result_len value.
(** The first digit is written in any case. *)
Definition format_uint32_base10_rev (result_len : nat) (value : Z) : bytes := digits (value mod 10) :: base10_loop (pred result_len) (value / 10).
Definition format_uint32_base16_rev (result_len : nat) (value : Z) : bytes := digits (Z.land value 15) :: base16_loop (pred result_len) (Z.shiftr value 4).

(** The digits, last first, go to the end of the field. *)
Definition put_padded (result : bytes) (field_len pad_char : Z) (num : bytes) : bytes * Z :=
  let field_len := if bool_decide (field_len = 0 \/ field_len < lenZ num) then lenZ num else field_len in
  (result ++ replicate (Z.to_nat (field_len - lenZ num)) pad_char ++ reverse num, field_len).

Definition format_uint32_padded (result : bytes) (field_len pad_char base value : Z) : bytes * Z :=
  let value := u32 value in
  if bool_decide (base = 10) then put_padded result field_len pad_char (format_uint32_base10_rev 32 value)
  else if bool_decide (base = 16) then put_padded result field_len pad_char (format_uint32_base16_rev 32 value)
  else (result, 0).

Definition format_uint64_padded (result : bytes) (field_len pad_char base value : Z) : bytes * Z :=
  let value := u64 value in
  if bool_decide (base = 10) then put_padded result field_len pad_char (format_uint64_base10_rev 64 value)
  else if bool_decide (base = 16) then put_padded result field_len pad_char (format_uint64_base16_rev 64 value)
  else (result, 0).

(** ** Reading *)

Record cursor := mkCursor { cur_buf : bytes; cur_left : Z }.

(** The byte [i] behind the read position. *)
Definition peek (c : cursor) (i : nat) : outcome Z := match cur_buf c !! i with Some b => Ret b | None => Abort end.
Definition advance (c : cursor) (n : nat) : cursor := mkCursor (drop n (cur_buf c)) (cur_left c - Z.of_nat n).

Definition isdigit (b : Z) : bool := bool_decide (48 <= b <= 57).
Definition g_ascii_isspace (b : Z) : bool := bool_decide (b = 32 \/ b = 9 \/ b = 10 \/ b = 12 \/ b = 13).

(** The result of a scanner: whether it succeeded, the value, and the cursor,
    which has moved in either case. *)
Fixpoint scan_uint32 (c : cursor) (field_width : nat) (result : Z) : outcome (option Z * cursor) :=
  match field_width with
  | O => Ret (Some result, c)
  | S field_width =>
      if bool_decide (cur_left c > 0) then
        let! b := peek c 0 in
        if isdigit b then scan_uint32 (advance c 1) field_width (u32 (result * 10 + (b - 48)))
        else if g_ascii_isspace b then scan_uint32 (advance c 1) field_width result
        else Ret (None, c)
      else Ret (None, c)
  end.

Definition scan_int (c : cursor) (field_width : nat) : outcome (option Z * cursor) :=
  let! (value, c) := scan_uint32 c field_width 0 in Ret (s32 <$> value, c).

Definition scan_expect_char (c : cursor) (value : Z) : outcome (bool * cursor) :=
  if bool_decide (cur_left c = 0) then Ret (false, c)
  else
    let! b := peek c 0 in
    if bool_decide (b <> value) then Ret (false, c) else Ret (true, advance c 1).

Definition to_lower (b : Z) : Z := if bool_decide (65 <= b <= 90) then b + 32 else b.
(** [strncasecmp] of three letters, which stops at a zero byte. *)
Fixpoint strncasecmp_eq (buf : bytes) (name : bytes) {struct name} : outcome bool :=
  match name with
  | [] => Ret true
  | n :: name => match buf with
                 | [] => Abort
                 | b :: buf => if bool_decide (to_lower b = to_lower n) then strncasecmp_eq buf name else Ret false
                 end
  end.

(** The names tried for a first letter, in order. *)
Fixpoint try_names (buf : bytes) (names : list (bytes * Z)) : outcome Z :=
  match names with
  | [] => Ret (-1)
  | (name, n) :: names => let! eq := strncasecmp_eq buf name in if eq then Ret n else try_names buf names
  end.

Definition scan_abbrev (cases : list (Z * list (bytes * Z))) (c : cursor) : outcome (bool * Z * cursor) :=
  if bool_decide (cur_left c < 3) then Ret (false, -1, c)
  else
    let! b := peek c 0 in
    match list_find (fun p => p.1 = b) cases with
    | Some (_, (_, names)) => let! n := try_names (cur_buf c) names in Ret (true, n, advance c 3)
    | None => Ret (false, -1, c)
    end.

Definition ascii_name := bytes_of_string.
Definition day_cases : list (Z * list (bytes * Z)) :=
  [(83, [(ascii_name "Sun", 0); (ascii_name "Sat", 6)]); (77, [(ascii_name "Mon", 1)]); (84, [(ascii_name "Tue", 2); (ascii_name "Thu", 4)]); (87, [(ascii_name "Wed", 3)]); (70, [(ascii_name "Fri", 5)])].
Definition month_cases : list (Z * list (bytes * Z)) :=
  [(74, [(ascii_name "Jan", 0); (ascii_name "Jun", 5); (ascii_name "Jul", 6)]); (70, [(ascii_name "Feb", 1)]); (77, [(ascii_name "Mar", 2); (ascii_name "May", 4)]); (65, [(ascii_name "Apr", 3); (ascii_name "Aug", 7)]);
   (83, [(ascii_name "Sep", 8)]); (79, [(ascii_name "Oct", 9)]); (78, [(ascii_name "Nov", 10)]); (68, [(ascii_name "Dec", 11)])].

Definition scan_day_abbrev := scan_abbrev day_cases.
Definition scan_month_abbrev := scan_abbrev month_cases.

(** ** Dates *)

(** The fields of [struct tm] that are used. *)
Record tm := mkTm { tm_sec : Z; tm_min : Z; tm_hour : Z; tm_mday : Z; tm_mon : Z; tm_year : Z; tm_isdst : Z; tm_gmtoff : Z }.

Definition set_sec (v : Z) (t : tm) := mkTm v (tm_min t) (tm_hour t) (tm_mday t) (tm_mon t) (tm_year t) (tm_isdst t) (tm_gmtoff t).
Definition set_min (v : Z) (t : tm) := mkTm (tm_sec t) v (tm_hour t) (tm_mday t) (tm_mon t) (tm_year t) (tm_isdst t) (tm_gmtoff t).
Definition set_hour (v : Z) (t : tm) := mkTm (tm_sec t) (tm_min t) v (tm_mday t) (tm_mon t) (tm_year t) (tm_isdst t) (tm_gmtoff t).
Definition set_mday (v : Z) (t : tm) := mkTm (tm_sec t) (tm_min t) (tm_hour t) v (tm_mon t) (tm_year t) (tm_isdst t) (tm_gmtoff t).
Definition set_mon (v : Z) (t : tm) := mkTm (tm_sec t) (tm_min t) (tm_hour t) (tm_mday t) v (tm_year t) (tm_isdst t) (tm_gmtoff t).
Definition set_year (v : Z) (t : tm) := mkTm (tm_sec t) (tm_min t) (tm_hour t) (tm_mday t) (tm_mon t) v (tm_isdst t) (tm_gmtoff t).
Definition set_isdst (v : Z) (t : tm) := mkTm (tm_sec t) (tm_min t) (tm_hour t) (tm_mday t) (tm_mon t) (tm_year t) v (tm_gmtoff t).

(** A step of a date: a field of digits, a character, a month. *)
Inductive date_item := DInt (width : nat) (set : Z -> tm -> tm) | DChar (value : Z) | DMonth.

Definition scan_item (c : cursor) (t : tm) (item : date_item) : outcome (bool * cursor * tm) :=
  match item with
  | DInt width set => let! (v, c) := scan_int c width in Ret (match v with Some v => (true, c, set v t) | None => (false, c, t) end)
  | DChar value => let! (ok, c) := scan_expect_char c value in Ret (ok, c, t)
  | DMonth => let! (ok, mon, c) := scan_month_abbrev c in Ret (ok, c, set_mon mon t)
  end.

(** One after the other, up to the first that fails. *)
Fixpoint scan_items (c : cursor) (t : tm) (items : list date_item) : outcome (bool * cursor * tm) :=
  match items with
  | [] => Ret (true, c, t)
  | item :: items =>
      let! (ok, c, t) := scan_item c t item in
      if ok : bool then scan_items c t items else Ret (false, c, t)
  end.

Definition hms : list date_item := [DInt 2 set_hour; DChar 58; DInt 2 set_min; DChar 58; DInt 2 set_sec].
Definition iso_items : list date_item := [DInt 4 set_year; DChar 45; DInt 2 set_mon; DChar 45; DInt 2 set_mday; DChar 84] ++ hms.
Definition pix_items : list date_item := [DMonth; DChar 32; DInt 2 set_mday; DChar 32; DInt 4 set_year; DChar 32] ++ hms.
Definition linksys_items : list date_item := [DMonth; DChar 32; DInt 2 set_mday; DChar 32] ++ hms ++ [DChar 32; DInt 4 set_year].
Definition bsd_items : list date_item := [DMonth; DChar 32; DInt 2 set_mday; DChar 32] ++ hms.

Definition scan_iso_timestamp (c : cursor) (t : tm) : outcome (bool * cursor * tm) :=
  let! (ok, c, t) := scan_items c t iso_items in
  Ret (if ok : bool then (true, c, set_mon (tm_mon t - 1) (set_year (tm_year t - 1900) t)) else (false, c, t)).
Definition scan_pix_timestamp (c : cursor) (t : tm) : outcome (bool * cursor * tm) :=
  let! (ok, c, t) := scan_items c t pix_items in
  Ret (if ok : bool then (true, c, set_year (tm_year t - 1900) t) else (false, c, t)).
Definition scan_linksys_timestamp (c : cursor) (t : tm) : outcome (bool * cursor * tm) :=
  let! (ok, c, t) := scan_items c t linksys_items in
  Ret (if ok : bool then (true, c, set_year (tm_year t - 1900) t) else (false, c, t)).
Definition scan_bsd_timestamp (c : cursor) (t : tm) : outcome (bool * cursor * tm) := scan_items c t bsd_items.

(** ** Trimming *)

(** The C string without its last bytes from the given set. *)
Fixpoint rtrim_loop (rev_string characters : bytes) : bytes :=
  match rev_string with
  | b :: rest => if bool_decide (b ∈ characters) then rtrim_loop rest characters else rev_string
  | [] => []
  end.
Definition str_rtrim (string characters : bytes) : bytes := reverse (rtrim_loop (reverse string) characters).
