(* ===== verification/TimeStamp.v ===== *)
(** * The calendar of the C library

    [gmtime] and its inverse, on years of 365 or 366 days counted from March,
    400 of which are an era of 146097 days.  This is what the source takes from
    the C library; local time is a parameter of the parts that use it. *)
From S2P Require Import Prelude StrFormat Buffer.

Definition era_days : Z := 146097.

(** Year of the era, month from March, and day, of a day of the era. *)
Definition year_of_era (doe : Z) : Z := (doe - doe / 1460 + doe / 36524 - doe / 146096) / 365.
Definition days_before_year (yoe : Z) : Z := 365 * yoe + yoe / 4 - yoe / 100.
Definition month_from_march (doy : Z) : Z := (5 * doy + 2) / 153.
Definition days_before_month (mp : Z) : Z := (153 * mp + 2) / 5.

(** Days since 1970-01-01 to year, month (0..11) and day. *)
Definition civil_from_days (days : Z) : Z * Z * Z :=
  let z := days + 719468 in
  let era := z / era_days in
  let doe := z mod era_days in
  let yoe := year_of_era doe in
  let doy := doe - days_before_year yoe in
  let mp := month_from_march doy in
  let mon := if bool_decide (mp < 10) then mp + 2 else mp - 10 in
  (yoe + era * 400 + (if bool_decide (mon <= 1) then 1 else 0), mon, doy - days_before_month mp + 1).

Definition days_from_civil (year mon mday : Z) : Z :=
  let y := if bool_decide (mon <= 1) then year - 1 else year in
  let era := y / 400 in
  let yoe := y mod 400 in
  let mp := if bool_decide (mon > 1) then mon - 2 else mon + 10 in
  era * era_days + days_before_year yoe + days_before_month mp + mday - 1 - 719468.

Definition gmtime (when : Z) : tm :=
  let days := when / 86400 in
  let secs := when mod 86400 in
  let '(year, mon, mday) := civil_from_days days in
  mkTm (secs mod 60) (secs / 60 mod 60) (secs / 3600) mday mon (year - 1900) 0 0.

(** The time of a broken-down time in UTC. *)
Definition timegm (t : tm) : Z :=
  days_from_civil (tm_year t + 1900) (tm_mon t) (tm_mday t) * 86400 + tm_hour t * 3600 + tm_min t * 60 + tm_sec t.

Example gmtime_leap_day : gmtime 951825296 = mkTm 56 54 11 29 1 100 0 0.
Proof. vm_compute. reflexivity. Qed.
Example gmtime_before_epoch : gmtime (-1) = mkTm 59 59 23 31 11 69 0 0.
Proof. vm_compute. reflexivity. Qed.

(** ** Ranges, and the inverse *)

Section days.
#[local] Ltac Zify.zify_post_hook ::= Z.to_euclidean_division_equations.

Lemma year_of_era_range (doe : Z) : 0 <= doe < era_days -> 0 <= year_of_era doe < 400 /\ 0 <= doe - days_before_year (year_of_era doe) <= 365.
Proof. unfold era_days, year_of_era, days_before_year. lia. Qed.

Lemma month_range (doy : Z) : 0 <= doy <= 365 -> 0 <= month_from_march doy <= 11 /\ 0 <= doy - days_before_month (month_from_march doy) <= 30.
Proof. unfold month_from_march, days_before_month. lia. Qed.

Lemma seconds_split (secs : Z) : 0 <= secs < 86400 -> 0 <= secs / 3600 < 24 /\ 0 <= secs / 60 mod 60 < 60 /\ 0 <= secs mod 60 < 60 /\
  secs / 3600 * 3600 + secs / 60 mod 60 * 60 + secs mod 60 = secs.
Proof. lia. Qed.

Lemma year_split (yoe era : Z) : 0 <= yoe < 400 -> (yoe + era * 400) / 400 = era /\ (yoe + era * 400) mod 400 = yoe.
Proof. lia. Qed.
End days.

Lemma civil_inverse (days : Z) : let '(year, mon, mday) := civil_from_days days in
  days_from_civil year mon mday = days /\ 0 <= mon <= 11 /\ 1 <= mday <= 31.
Proof.
  unfold civil_from_days. set (z := days + 719468). pose proof (Z.div_mod z era_days ltac:(done)) as Hz. pose proof (Z.mod_pos_bound z era_days ltac:(done)) as Hd.
  destruct (year_of_era_range (z mod era_days) Hd) as [Hy Hdoy]. set (yoe := year_of_era (z mod era_days)) in *. set (doy := z mod era_days - days_before_year yoe) in *.
  destruct (month_range doy Hdoy) as [Hm Hday]. set (mp := month_from_march doy) in *. destruct (year_split yoe (z / era_days) Hy) as [Y1 Y2].
  assert (M : exists mon, (if bool_decide (mp < 10) then mp + 2 else mp - 10) = mon /\ 0 <= mon <= 11 /\ (if bool_decide (mon > 1) then mon - 2 else mon + 10) = mp) by (eexists; split; [reflexivity|]; repeat case_bool; lia).
  destruct M as (mon & -> & Hmon & Hmp). split; [|lia]. unfold days_from_civil. rewrite Hmp.
  replace (if bool_decide (mon <= 1) then yoe + z / era_days * 400 + (if bool_decide (mon <= 1) then 1 else 0) - 1 else yoe + z / era_days * 400 + (if bool_decide (mon <= 1) then 1 else 0))
    with (yoe + z / era_days * 400) by (case_bool; lia).
  rewrite Y1, Y2. assert (Ez : z = days + 719468) by done. assert (Ed : doy = z mod era_days - days_before_year yoe) by done. clearbody z doy yoe mp. unfold era_days in *. lia.
Qed.

(** The fields of a broken-down time. *)
Record tm_range (t : tm) : Prop := {
  tr_sec : 0 <= tm_sec t < 60;
  tr_min : 0 <= tm_min t < 60;
  tr_hour : 0 <= tm_hour t < 24;
  tr_mday : 1 <= tm_mday t <= 31;
  tr_mon : 0 <= tm_mon t <= 11
}.

Lemma gmtime_range (when : Z) : tm_range (gmtime when).
Proof.
  unfold gmtime. pose proof (civil_inverse (when / 86400)) as C. destruct (civil_from_days (when / 86400)) as [[year mon] mday]. destruct C as (_ & C1 & C2).
  destruct (seconds_split (when mod 86400) (Z.mod_pos_bound when 86400 ltac:(done))) as (S1 & S2 & S3 & _). by split.
Qed.

(** [gmtime] loses nothing. *)
Lemma timegm_gmtime (when : Z) : timegm (gmtime when) = when.
Proof.
  unfold gmtime. pose proof (civil_inverse (when / 86400)) as C. destruct (civil_from_days (when / 86400)) as [[year mon] mday]. destruct C as (C & _).
  destruct (seconds_split (when mod 86400) (Z.mod_pos_bound when 86400 ltac:(done))) as (_ & _ & _ & S). unfold timegm. cbn [tm_year tm_mon tm_mday tm_hour tm_min tm_sec].
  replace (year - 1900 + 1900) with year by lia. rewrite C. pose proof (Z.div_mod when 86400 ltac:(done)). lia.
Qed.

(** ** One day after the other *)

Section next_day.
#[local] Ltac Zify.zify_post_hook ::= Z.to_euclidean_division_equations.

Lemma next_day_of_year (doe : Z) : 0 <= doe -> doe + 1 < era_days ->
  year_of_era (doe + 1) = year_of_era doe \/
  (doe + 1 = days_before_year (year_of_era doe + 1) /\ year_of_era (doe + 1) = year_of_era doe + 1 /\ 364 <= doe - days_before_year (year_of_era doe)).
Proof. unfold era_days, year_of_era, days_before_year. lia. Qed.

Definition day_of_month (doy : Z) : Z := doy - days_before_month (month_from_march doy).
Lemma next_day_of_month (doy : Z) : 0 <= doy < 365 ->
  day_of_month (doy + 1) = day_of_month doy + 1 \/ day_of_month (doy + 1) = 0 /\ 29 <= day_of_month doy.
Proof. unfold day_of_month, month_from_march, days_before_month. lia. Qed.
Lemma last_day_of_month (doy : Z) : 364 <= doy <= 365 -> 27 <= day_of_month doy.
Proof. unfold day_of_month, month_from_march, days_before_month. lia. Qed.
Lemma next_mod (z : Z) : (z + 1) mod era_days = z mod era_days + 1 /\ z mod era_days + 1 < era_days \/ (z + 1) mod era_days = 0 /\ z mod era_days = 146096.
Proof. unfold era_days. lia. Qed.
Lemma next_hour (w k : Z) : -24 < k < 24 -> let w' := w + 3600 * k in exists d, w' / 86400 = w / 86400 + d /\ -1 <= d <= 1 /\ (w' mod 86400) / 3600 = (w mod 86400) / 3600 + k - 24 * d.
Proof. intros Hk w'. exists (w' / 86400 - w / 86400). unfold w'. lia. Qed.
End next_day.

Lemma next_day (days : Z) : let day d := (civil_from_days d).2 in day (days + 1) = day days + 1 \/ day (days + 1) = 1 /\ 28 <= day days.
Proof.
  cbn zeta. unfold civil_from_days. cbn [snd]. replace (days + 1 + 719468) with (days + 719468 + 1) by lia. set (z := days + 719468).
  pose proof (Z.mod_pos_bound z era_days ltac:(done)) as Hd. destruct (year_of_era_range (z mod era_days) Hd) as [Hy Hdoy].
  fold (day_of_month (z mod era_days - days_before_year (year_of_era (z mod era_days)))).
  fold (day_of_month ((z + 1) mod era_days - days_before_year (year_of_era ((z + 1) mod era_days)))).
  destruct (next_mod z) as [[-> Hlt]|[-> ->]]; [|right; by vm_compute].
  set (doe := z mod era_days) in *. clearbody doe. destruct (next_day_of_year doe ltac:(lia) Hlt) as [E|(E1 & E2 & E3)].
  - pose proof (year_of_era_range (doe + 1) ltac:(lia)) as [_ R]. rewrite E in *. set (b := days_before_year (year_of_era doe)) in *. clearbody b.
    replace (doe + 1 - b) with (doe - b + 1) in * by lia. destruct (next_day_of_month (doe - b) ltac:(lia)) as [->|[-> ?]]; [left|right]; lia.
  - rewrite E2, <- E1. right. replace (doe + 1 - (doe + 1)) with 0 by lia. change (day_of_month 0) with 0. pose proof (last_day_of_month _ (conj E3 (proj2 Hdoy))). lia.
Qed.

(** * Times as the program keeps and prints them (lib/timeutils.c, lib/logstamp.c)

    Broken-down times are cached per thread: sixty-four results of [gmtime] and
    of [localtime] by the low bits of the time, and the last call of [mktime].
    [localtime] and [mktime] depend on the zone of the host and are parameters;
    [mktime] returns the time and the normalized fields.  The host has the
    field [tm_gmtoff]. *)

(** ** Caches *)

Record TimeCaches := mkCaches {
  local_time_cache : list (Z * tm);
  gm_time_cache : list (Z * tm);
  mktime_prev_tm : tm;
  mktime_prev_time : Z
}.

Definition zero_tm : tm := mkTm 0 0 0 0 0 0 0 0.
Definition empty_cache : list (Z * tm) := replicate 64 (0, zero_tm).
(** Thread local storage starts out as zeros. *)
Definition initial_caches : TimeCaches := mkCaches empty_cache empty_cache zero_tm 0.

Definition clean_time_cache (caches : TimeCaches) : TimeCaches := mkCaches empty_cache empty_cache (mktime_prev_tm caches) (mktime_prev_time caches).

(** One look-up, with [f] for the call of the C library. *)
Definition cached (f : Z -> tm) (cache : list (Z * tm)) (when : Z) : outcome (tm * list (Z * tm)) :=
  let i := Z.to_nat (Z.land when 63) in
  match cache !! i with
  | None => Abort
  | Some (cached_when, t) => if bool_decide (when = cached_when) then Ret (t, cache) else Ret (f when, <[i := (when, f when)]> cache)
  end.

Definition cached_gmtime (caches : TimeCaches) (when : Z) : outcome (tm * TimeCaches) :=
  let! (t, cache) := cached gmtime (gm_time_cache caches) when in
  Ret (t, mkCaches (local_time_cache caches) cache (mktime_prev_tm caches) (mktime_prev_time caches)).

Section zone.
Context (localtime : Z -> tm) (mktime : tm -> Z * tm).

Definition cached_localtime (caches : TimeCaches) (when : Z) : outcome (tm * TimeCaches) :=
  let! (t, cache) := cached localtime (local_time_cache caches) when in
  Ret (t, mkCaches cache (gm_time_cache caches) (mktime_prev_tm caches) (mktime_prev_time caches)).

Definition same_call (a b : tm) : bool :=
  bool_decide (tm_sec a = tm_sec b) && bool_decide (tm_min a = tm_min b) && bool_decide (tm_hour a = tm_hour b) && bool_decide (tm_mday a = tm_mday b) &&
  bool_decide (tm_mon a = tm_mon b) && bool_decide (tm_year a = tm_year b) && bool_decide (tm_isdst a = tm_isdst b).

(** The time; [tm] is normalized only by a call of [mktime]. *)
Definition cached_mktime (caches : TimeCaches) (t : tm) : Z * tm * TimeCaches :=
  if same_call t (mktime_prev_tm caches) then (mktime_prev_time caches, t, caches)
  else let '(result, t') := mktime t in (result, t', mkCaches (local_time_cache caches) (gm_time_cache caches) t result).

Definition get_local_timezone_ofs (caches : TimeCaches) (when : Z) : outcome (Z * TimeCaches) :=
  let! (ltm, caches) := cached_localtime caches when in Ret (tm_gmtoff ltm, caches).
End zone.

(** ** Zones and years *)

(** [%02ld]. *)
Definition two_digits (n : Z) : bytes := if bool_decide (n < 10) then 48 :: decimal n else decimal n.

(** [g_snprintf] into a buffer of [buflen] bytes. *)
Definition format_zone_info (buflen : nat) (gmtoff : Z) : bytes :=
  let a := if bool_decide (gmtoff < 0) then - gmtoff else gmtoff in
  take (pred buflen) ((if bool_decide (gmtoff < 0) then 45 else 43) :: two_digits (a / 3600) ++ 58 :: two_digits (a mod 3600 / 60)).

Definition determine_year_for_month (month : Z) (now : tm) : Z :=
  if bool_decide (month = 11 /\ tm_mon now = 0) then tm_year now - 1
  else if bool_decide (month = 0 /\ tm_mon now = 11) then tm_year now + 1
  else tm_year now.

(** ** Stamps *)

Record LogStamp := mkStamp { tv_sec : Z; tv_usec : Z; zone_offset : Z }.

Definition TS_FMT_BSD : Z := 0.
Definition TS_FMT_ISO : Z := 1.
Definition TS_FMT_FULL : Z := 2.
Definition TS_FMT_UNIX : Z := 3.

Definition month_names_abbrev : list bytes :=
  bytes_of_string <$> ["Jan"; "Feb"; "Mar"; "Apr"; "May"; "Jun"; "Jul"; "Aug"; "Sep"; "Oct"; "Nov"; "Dec"]%string.

(** The loop over x = 100000, 10000, ..., 1. *)
Fixpoint frac_loop (xs : list Z) (frac_digits usecs : Z) : bytes :=
  match xs with
  | [] => []
  | x :: xs => if bool_decide (frac_digits = 0) then [] else (usecs / x + 48) :: frac_loop xs (frac_digits - 1) (usecs mod x)
  end.
Definition log_stamp_append_frac_digits (stamp : LogStamp) (target : bytes) (frac_digits : Z) : bytes :=
  let usecs := tv_usec stamp mod 1000000 in
  if bool_decide (frac_digits > 0) then target ++ 46 :: frac_loop [100000; 10000; 1000; 100; 10; 1] frac_digits usecs else target.

(** A number, and a character, behind the text so far. *)
Definition put32 (field_len pad_char value : Z) (target : bytes) : bytes := (format_uint32_padded target field_len pad_char 10 value).1.
Definition put_c (c : Z) (target : bytes) : bytes := target ++ [c].

Definition put_hms (t : tm) (target : bytes) : bytes :=
  put32 2 48 (tm_sec t) (put_c 58 (put32 2 48 (tm_min t) (put_c 58 (put32 2 48 (tm_hour t) target)))).

Definition put_stamp (stamp : LogStamp) (target : bytes) (ts_format target_zone_offset frac_digits : Z) (t : tm) : outcome bytes :=
  if bool_decide (ts_format = TS_FMT_BSD) then
    let! name := match month_names_abbrev !! Z.to_nat (tm_mon t) with Some name => Ret name | None => Abort end in
    Ret (log_stamp_append_frac_digits stamp (put_hms t (put_c 32 (put32 2 32 (tm_mday t) (put_c 32 (target ++ name))))) frac_digits)
  else if bool_decide (ts_format = TS_FMT_ISO) then
    let date := put32 2 48 (tm_mday t) (put_c 45 (put32 2 48 (tm_mon t + 1) (put_c 45 (put32 0 0 (tm_year t + 1900) target)))) in
    Ret (log_stamp_append_frac_digits stamp (put_hms t (put_c 84 date)) frac_digits ++ format_zone_info 8 target_zone_offset)
  else if bool_decide (ts_format = TS_FMT_FULL) then
    let! name := match month_names_abbrev !! Z.to_nat (tm_mon t) with Some name => Ret name | None => Abort end in
    Ret (log_stamp_append_frac_digits stamp (put_hms t (put_c 32 (put32 2 32 (tm_mday t) (put_c 32 (put_c 32 (put32 0 0 (tm_year t + 1900) target) ++ name))))) frac_digits)
  else if bool_decide (ts_format = TS_FMT_UNIX) then
    Ret (log_stamp_append_frac_digits stamp (put32 0 0 (tv_sec stamp) target) frac_digits)
  else Abort.

Definition log_stamp_append_format (caches : TimeCaches) (stamp : LogStamp) (target : bytes) (ts_format zone_offset' frac_digits : Z) : outcome (bytes * TimeCaches) :=
  let target_zone_offset := if bool_decide (zone_offset' <> -1) then zone_offset' else zone_offset stamp in
  let! (t, caches) := cached_gmtime caches (tv_sec stamp + target_zone_offset) in
  let! target := put_stamp stamp target ts_format target_zone_offset frac_digits t in
  Ret (target, caches).

Definition log_stamp_format (caches : TimeCaches) (stamp : LogStamp) (ts_format zone_offset' frac_digits : Z) : outcome (bytes * TimeCaches) :=
  log_stamp_append_format caches stamp [] ts_format zone_offset' frac_digits.

Example iso_demo : fst <$> match log_stamp_format initial_caches (mkStamp 951825296 120000 3600) TS_FMT_ISO (-1) 3 with Ret r => Some r | Abort => None end =
  Some (bytes_of_string "2000-02-29T12:54:56.120+01:00").
Proof. vm_compute. reflexivity. Qed.
