(* ===== verification/SyslogDate.v ===== *)
(** * Reading the date of a message (modules/syslogformat/syslog-format.c)

    [log_msg_parse_date] recognizes ISO, BSD, PIX and LinkSys dates, sets the
    stamp of the message and moves the cursor behind the date.  Of the message
    the priority, the flags and the two stamps are kept, and the values it is
    given, in order.  The time of
    day is an argument. *)
From S2P Require Import Prelude StrFormat TimeStamp.

Definition LP_SYSLOG_PROTOCOL : Z := 0x0004.
Definition LP_NO_PARSE_DATE : Z := 0x0200.
Definition has_flag (flags f : Z) : bool := bool_decide (Z.land flags f <> 0).

Definition LF_LEGACY_MSGHDR : Z := 0x00020000.

Record LogMessage := mkMessage {
  lm_pri : Z;
  lm_flags : Z;
  lm_stamp : LogStamp;                    (* timestamps[LM_TS_STAMP] *)
  lm_recvd : LogStamp;                    (* timestamps[LM_TS_RECVD] *)
  lm_values : list (bytes * bytes)
}.
Definition set_pri (self : LogMessage) (pri : Z) : LogMessage := mkMessage pri (lm_flags self) (lm_stamp self) (lm_recvd self) (lm_values self).
Definition set_flags (self : LogMessage) (flags : Z) : LogMessage := mkMessage (lm_pri self) flags (lm_stamp self) (lm_recvd self) (lm_values self).
Definition set_stamp (self : LogMessage) (stamp : LogStamp) : LogMessage := mkMessage (lm_pri self) (lm_flags self) stamp (lm_recvd self) (lm_values self).
Definition set_values (self : LogMessage) (values : list (bytes * bytes)) : LogMessage := mkMessage (lm_pri self) (lm_flags self) (lm_stamp self) (lm_recvd self) values.

(** The program and the process id are part of the stored header, which is out
    of date when they change. *)
Definition in_header (name : bytes) : bool := bool_decide (name = bytes_of_string "PROGRAM" \/ name = bytes_of_string "PID").
Definition log_msg_set_value (self : LogMessage) (name value : bytes) : LogMessage :=
  let self := set_values self (lm_values self ++ [(name, value)]) in
  if in_header name then set_flags self (Z.ldiff (lm_flags self) LF_LEGACY_MSGHDR) else self.
Definition set_usec (stamp : LogStamp) (usec : Z) : LogStamp := mkStamp (tv_sec stamp) usec (zone_offset stamp).
Definition set_zone (stamp : LogStamp) (zone : Z) : LogStamp := mkStamp (tv_sec stamp) (tv_usec stamp) zone.
Definition set_tv_sec (stamp : LogStamp) (sec : Z) : LogStamp := mkStamp sec (tv_usec stamp) (zone_offset stamp).

(** Tests of single bytes, left to right, up to the first that fails. *)
Fixpoint bytes_match (c : cursor) (tests : list (nat * (Z -> bool))) : outcome bool :=
  match tests with
  | [] => Ret true
  | (i, test) :: tests => let! b := peek c i in if test b then bytes_match c tests else Ret false
  end.
Definition isc (v : Z) (b : Z) : bool := bool_decide (b = v).

Definition __is_iso_stamp (c : cursor) : outcome bool :=
  if bool_decide (cur_left c >= 19) then bytes_match c [(4%nat, isc 45); (7%nat, isc 45); (10%nat, isc 84); (13%nat, isc 58); (16%nat, isc 58)] else Ret false.

(** Up to six digits of a fraction. *)
Fixpoint frac_scan (fuel : nat) (c : cursor) (frac div : Z) : outcome (Z * Z * cursor) :=
  match fuel with
  | O => Ret (frac, div, c)
  | S fuel =>
      if bool_decide (cur_left c > 0) then
        let! b := peek c 0 in
        if isdigit b then frac_scan fuel (advance c 1) (10 * frac + b - 48) (div * 10) else Ret (frac, div, c)
      else Ret (frac, div, c)
  end.
(** Further digits, without a look at what is left. *)
Fixpoint skip_digits (buf : bytes) (left : Z) : outcome cursor :=
  match buf with
  | [] => Abort
  | b :: rest => if isdigit b then skip_digits rest (left - 1) else Ret (mkCursor buf left)
  end.

Definition __parse_usec (c : cursor) : outcome (Z * cursor) :=
  if bool_decide (cur_left c > 0) then
    let! b := peek c 0 in
    if isc 46 b then
      let! (frac, div, c) := frac_scan 6 (advance c 1) 0 1 in
      let! c := skip_digits (cur_buf c) (cur_left c) in
      Ret (u32 (frac * (1000000 / div)), c)
    else Ret (0, c)
  else Ret (0, c).

Definition __parse_iso_timezone (c : cursor) : outcome (Z * cursor) :=
  let! s := peek c 0 in let! h1 := peek c 1 in let! h2 := peek c 2 in let! m1 := peek c 4 in let! m2 := peek c 5 in
  let sign := if isc 45 s then -1 else 1 in
  let hours := (h1 - 48) * 10 + h2 - 48 in
  let mins := (m1 - 48) * 10 + m2 - 48 in
  Ret (u32 (sign * (hours * 3600 + mins * 60)), advance c 6).

Definition __has_iso_timezone (c : cursor) : outcome bool :=
  if bool_decide (cur_left c >= 5) then
    bytes_match c [(0%nat, fun b => isc 43 b || isc 45 b); (1%nat, isdigit); (2%nat, isdigit); (3%nat, isc 58); (4%nat, isdigit); (5%nat, isdigit); (6%nat, fun b => negb (isdigit b))]
  else Ret false.

Definition _parse_date_tz (self : LogMessage) (parse_flags : Z) (c : cursor) : outcome (LogMessage * cursor) :=
  let! z := (if bool_decide (cur_left c > 0) then let! b := peek c 0 in Ret (isc 90 b) else Ret false) in
  let! (found, self, c) :=
    (if z : bool then Ret (true, set_stamp self (set_zone (lm_stamp self) 0), advance c 1)
     else
       let! has := __has_iso_timezone c in
       if has : bool then let! (tz, c) := __parse_iso_timezone c in Ret (true, set_stamp self (set_zone (lm_stamp self) (s32 tz)), c)
       else Ret (false, self, c)) in
  Ret (if has_flag parse_flags LP_NO_PARSE_DATE then self
       else log_msg_set_value self (bytes_of_string ".SDATA.timeQuality.tzKnown") (bytes_of_string (if found : bool then "1" else "0")), c).

Definition _parse_date_is_synced (self : LogMessage) (parse_flags : Z) (c : cursor) : outcome (LogMessage * cursor) :=
  let! b := peek c 0 in
  let c := if isc 42 b || isc 46 b then advance c 1 else c in
  Ret (if has_flag parse_flags LP_NO_PARSE_DATE then self
       else log_msg_set_value self (bytes_of_string ".SDATA.timeQuality.isSynced") (bytes_of_string (if isc 46 b then "1" else "0")), c).

Definition __is_bsd_pis_or_asa (c : cursor) : outcome bool :=
  if bool_decide (cur_left c >= 21) then
    bytes_match c [(3%nat, isc 32); (6%nat, isc 32); (11%nat, isc 32); (14%nat, isc 58); (17%nat, isc 58); (20%nat, fun b => isc 58 b || isc 32 b); (7%nat, isdigit); (8%nat, isdigit); (9%nat, isdigit); (10%nat, isdigit)]
  else Ret false.
Definition __is_bsd_linksys (c : cursor) : outcome bool :=
  if bool_decide (cur_left c >= 21) then
    bytes_match c [(3%nat, isc 32); (6%nat, isc 32); (9%nat, isc 58); (12%nat, isc 58); (15%nat, isc 32); (16%nat, isdigit); (17%nat, isdigit); (18%nat, isdigit); (19%nat, isdigit); (20%nat, g_ascii_isspace)]
  else Ret false.
Definition __is_bsd_rfc_3164 (c : cursor) : outcome bool :=
  if bool_decide (cur_left c >= 15) then bytes_match c [(3%nat, isc 32); (6%nat, isc 32); (9%nat, isc 58); (12%nat, isc 58)] else Ret false.

Definition __calculate_unnormalized_hour (unnormalized t : tm) : Z :=
  if bool_decide (tm_hour unnormalized <> tm_hour t /\ tm_mday unnormalized <> tm_mday t) then
    let diff_day := tm_mday unnormalized - tm_mday t in
    let diff_day := if bool_decide (diff_day > 1) then -1 else if bool_decide (diff_day < -1) then 1 else diff_day in
    tm_hour unnormalized + 24 * diff_day
  else tm_hour unnormalized.

Section parse.
Context (localtime : Z -> tm) (mktime : tm -> Z * tm).
(** The current time in seconds. *)
Context (now : Z).

(** Results: whether it succeeded, the message, the broken-down time, the cursor
    when it did, and the caches. *)
Definition __parse_iso_stamp (self : LogMessage) (parse_flags : Z) (c : cursor) (caches : TimeCaches) : outcome (option (tm * cursor) * LogMessage * TimeCaches) :=
  let self := set_stamp self (set_usec (lm_stamp self) 0) in
  let! (t, caches) := cached_localtime localtime caches now in
  let! (ok, c, t) := scan_iso_timestamp c t in
  if negb ok then Ret (None, self, caches)
  else
    let! (usec, c) := __parse_usec c in
    let self := set_stamp self (set_usec (lm_stamp self) usec) in
    let! (self, c) := _parse_date_tz self parse_flags c in
    Ret (Some (t, c), self, caches).

(** Success gives the time, the microseconds and the cursor. *)
Definition __parse_bsd_timestamp (c : cursor) (caches : TimeCaches) : outcome (option (tm * Z * cursor) * TimeCaches) :=
  let! pix := __is_bsd_pis_or_asa c in
  if pix : bool then
    let! (t, caches) := cached_localtime localtime caches now in
    let! (ok, c, t) := scan_pix_timestamp c t in
    if negb ok then Ret (None, caches)
    else let! b := peek c 0 in Ret (Some (t, 0, if isc 58 b then advance c 1 else c), caches)
  else
    let! linksys := __is_bsd_linksys c in
    if linksys : bool then
      let! (t, caches) := cached_localtime localtime caches now in
      let! (ok, c, t) := scan_linksys_timestamp c t in
      Ret (if ok : bool then Some (t, 0, c) else None, caches)
    else
      let! bsd := __is_bsd_rfc_3164 c in
      if bsd : bool then
        let! (nowtm, caches) := cached_localtime localtime caches now in
        let! (ok, c, t) := scan_bsd_timestamp c nowtm in
        if negb ok then Ret (None, caches)
        else
          let! (usec, c) := __parse_usec c in
          Ret (Some (set_year (determine_year_for_month (tm_mon t) nowtm) t, usec, c), caches)
      else Ret (None, caches).

Definition log_msg_parse_date_unnormalized (self : LogMessage) (parse_flags : Z) (c : cursor) (caches : TimeCaches) : outcome (option (tm * cursor) * LogMessage * TimeCaches) :=
  let error self caches := Ret (None, set_stamp self (lm_recvd self), caches) in
  let! (self, c) := _parse_date_is_synced self parse_flags c in
  let! iso := __is_iso_stamp c in
  if iso : bool then
    let! (r, self, caches) := __parse_iso_stamp self parse_flags c caches in
    match r with Some r => Ret (Some r, self, caches) | None => error self caches end
  else if negb (has_flag parse_flags LP_SYSLOG_PROTOCOL) then
    let! (r, caches) := __parse_bsd_timestamp c caches in
    match r with
    | Some (t, usec, c) => Ret (Some (t, c), set_stamp self (set_usec (lm_stamp self) usec), caches)
    | None => error self caches
    end
  else Ret (None, self, caches).

Definition __calculate_correct_time (stamp : LogStamp) (normalized_hour unnormalized_hour assume_timezone : Z) (caches : TimeCaches) : outcome (LogStamp * TimeCaches) :=
  let! (local_timezone_ofs, caches) := get_local_timezone_ofs localtime caches (tv_sec stamp) in
  let stamp := if bool_decide (zone_offset stamp = -1) then set_zone stamp assume_timezone else stamp in
  let stamp := if bool_decide (zone_offset stamp = -1) then set_zone stamp local_timezone_ofs else stamp in
  Ret (set_tv_sec stamp (tv_sec stamp + local_timezone_ofs - (normalized_hour - unnormalized_hour) * 3600 - zone_offset stamp), caches).

Definition _normalize_time (stamp : LogStamp) (t : tm) (assume_timezone : Z) (caches : TimeCaches) : outcome (LogStamp * TimeCaches) :=
  let unnormalized := set_isdst (-1) t in
  let '(sec, t, caches) := cached_mktime mktime caches unnormalized in
  __calculate_correct_time (set_tv_sec stamp sec) (tm_hour t) (__calculate_unnormalized_hour unnormalized t) assume_timezone caches.

Definition log_msg_parse_date (self : LogMessage) (parse_flags assume_timezone : Z) (c : cursor) (caches : TimeCaches) : outcome (option cursor * LogMessage * TimeCaches) :=
  let! (r, self, caches) := log_msg_parse_date_unnormalized self parse_flags c caches in
  match r with
  | None => Ret (None, self, caches)
  | Some (t, c) =>
      if has_flag parse_flags LP_NO_PARSE_DATE then Ret (Some c, set_stamp self (mkStamp (-1) 0 (-1)), caches)
      else let! (stamp, caches) := _normalize_time (lm_stamp self) t assume_timezone caches in Ret (Some c, set_stamp self stamp, caches)
  end.
End parse.
