(* ===== verification/TimeStampSpec.v ===== *)
(** * Dates are read back as they were written *)
From S2P Require Import Prelude StrFormat TimeStamp Buffer SyslogDate.

Section arith.
#[local] Ltac Zify.zify_post_hook ::= Z.to_euclidean_division_equations.
Lemma div10_range (v m : Z) : 0 <= v < m * 10 -> 0 <= v / 10 < m.
Proof. lia. Qed.
Lemma mod10_range (v : Z) : 0 <= v mod 10 <= 9.
Proof. lia. Qed.
Lemma div10_pos (v : Z) : 10 <= v -> 0 < v / 10.
Proof. lia. Qed.
Lemma hour_minute (z a : Z) : 0 <= a -> a = z \/ a = - z -> z mod 60 = 0 -> a / 3600 * 3600 + a mod 3600 / 60 * 60 = a /\ 0 <= a mod 3600 / 60 < 60.
Proof. lia. Qed.
Lemma quot_step (u p q : Z) : 0 < p -> 0 < q -> (u / (p * q)) * p + (u mod (p * q)) / q = u / q.
Proof.
  intros Hp Hq. rewrite (Z.mul_comm p q), <- Z.div_div, Z.rem_mul_r by lia. replace (u mod q + q * (u / q mod p)) with (u mod q + (u / q mod p) * q) by lia.
  rewrite Z.div_add by lia. rewrite (Z.div_small (u mod q)) by (apply Z.mod_pos_bound; lia). pose proof (Z.div_mod (u / q) p ltac:(lia)). lia.
Qed.
End arith.

(** ** Numbers *)

Lemma digits_dec (d : Z) : 0 <= d <= 9 -> digits d = 48 + d.
Proof. intros H. unfold digits. by rewrite bool_decide_eq_true_2 by lia. Qed.

Lemma base10_zero (n : nat) : base10_loop n 0 = [].
Proof. by destruct n. Qed.

Lemma base10_step (n : nat) (v : Z) : 0 < v -> base10_loop (S n) v = (48 + v mod 10) :: base10_loop n (v / 10).
Proof. intros H. cbn [base10_loop]. rewrite bool_decide_eq_true_2 by lia. by rewrite digits_dec by apply mod10_range. Qed.

Lemma put_two (v : Z) (target : bytes) : 0 <= v < 100 -> put32 2 48 v target = target ++ [48 + v / 10; 48 + v mod 10].
Proof.
  intros Hv. unfold put32, format_uint32_padded. rewrite bool_decide_eq_true_2 by done. rewrite u32_small by lia. unfold format_uint32_base10_rev. rewrite digits_dec by apply mod10_range. cbn [pred].
  pose proof (div10_range v 10 ltac:(lia)) as Hq. destruct (decide (v / 10 = 0)) as [->|Hz].
  - rewrite base10_zero. unfold put_padded. cbn. done.
  - rewrite base10_step by lia. rewrite (Z.div_small (v / 10)), (Z.mod_small (v / 10)), base10_zero by lia. unfold put_padded. cbn. done.
Qed.

Lemma put_four (v : Z) (target : bytes) : 1000 <= v < 10000 -> put32 0 0 v target = target ++ [48 + v / 10 / 10 / 10; 48 + v / 10 / 10 mod 10; 48 + v / 10 mod 10; 48 + v mod 10].
Proof.
  intros Hv. unfold put32, format_uint32_padded. rewrite bool_decide_eq_true_2 by done. rewrite u32_small by lia. unfold format_uint32_base10_rev. rewrite digits_dec by apply mod10_range. cbn [pred].
  assert (H1 : 100 <= v / 10 < 1000) by (split; [apply Z.div_le_lower_bound; lia|apply Z.div_lt_upper_bound; lia]).
  assert (H2 : 10 <= v / 10 / 10 < 100) by (split; [apply Z.div_le_lower_bound; lia|apply Z.div_lt_upper_bound; lia]).
  assert (H3 : 1 <= v / 10 / 10 / 10 < 10) by (split; [apply Z.div_le_lower_bound; lia|apply Z.div_lt_upper_bound; lia]).
  rewrite !base10_step by lia. rewrite (Z.div_small (v / 10 / 10 / 10)), base10_zero by lia. rewrite (Z.mod_small (v / 10 / 10 / 10)) by lia. unfold put_padded. cbn. by rewrite app_nil_l.
Qed.

Lemma isdigit_dec (d : Z) : 0 <= d <= 9 -> isdigit (48 + d) = true.
Proof. intros H. apply bool_decide_eq_true_2. lia. Qed.

Lemma scan_digit (d : Z) (r : bytes) (n : Z) (width : nat) (acc : Z) : 0 <= d <= 9 -> 0 < n -> 0 <= acc * 10 + d < 2 ^ 32 ->
  scan_uint32 (mkCursor (48 + d :: r) n) (S width) acc = scan_uint32 (mkCursor r (n - 1)) width (acc * 10 + d).
Proof.
  intros Hd Hn Ha. cbn [scan_uint32 cur_left]. rewrite bool_decide_eq_true_2 by lia. unfold peek. cbn [cur_buf lookup list_lookup obind]. rewrite isdigit_dec by done.
  replace (48 + d - 48) with d by lia. rewrite u32_small by lia. done.
Qed.

Lemma scan_two (a b : Z) (r : bytes) (n : Z) : 0 <= a <= 9 -> 0 <= b <= 9 -> 2 <= n -> scan_int (mkCursor (48 + a :: 48 + b :: r) n) 2 = Ret (Some (a * 10 + b), mkCursor r (n - 2)).
Proof.
  intros Ha Hb Hn. unfold scan_int. rewrite !scan_digit by lia. cbn [scan_uint32 obind fmap option_fmap option_map]. rewrite s32_small by lia.
  replace (n - 1 - 1) with (n - 2) by lia. done.
Qed.

Lemma scan_four (a b c d : Z) (r : bytes) (n : Z) : 0 <= a <= 9 -> 0 <= b <= 9 -> 0 <= c <= 9 -> 0 <= d <= 9 -> 4 <= n ->
  scan_int (mkCursor (48 + a :: 48 + b :: 48 + c :: 48 + d :: r) n) 4 = Ret (Some (((a * 10 + b) * 10 + c) * 10 + d), mkCursor r (n - 4)).
Proof.
  intros Ha Hb Hc Hd Hn. unfold scan_int. rewrite !scan_digit by lia. cbn [scan_uint32 obind fmap option_fmap option_map]. rewrite s32_small by lia.
  replace (n - 1 - 1 - 1 - 1) with (n - 4) by lia. done.
Qed.

Lemma scan_char (v : Z) (r : bytes) (n : Z) : 0 < n -> scan_expect_char (mkCursor (v :: r) n) v = Ret (true, mkCursor r (n - 1)).
Proof. intros Hn. unfold scan_expect_char. cbn [cur_left]. rewrite bool_decide_eq_false_2 by lia. unfold peek. cbn [cur_buf lookup list_lookup obind]. by rewrite bool_decide_eq_false_2 by (intros H; by apply H). Qed.

(** A field of two digits in front of the rest. *)
Definition two (v : Z) (r : bytes) : bytes := 48 + v / 10 :: 48 + v mod 10 :: r.

Lemma scan_two_of (v : Z) (r : bytes) (n : Z) : 0 <= v < 100 -> 2 <= n -> scan_int (mkCursor (two v r) n) 2 = Ret (Some v, mkCursor r (n - 2)).
Proof.
  intros Hv Hn. pose proof (div10_range v 10 ltac:(lia)). pose proof (mod10_range v). unfold two. rewrite scan_two by lia. replace (v / 10 * 10 + v mod 10) with v by (pose proof (Z.div_mod v 10 ltac:(lia)); lia). done.
Qed.

(** ** The ISO date *)

Definition four (v : Z) (r : bytes) : bytes := 48 + v / 10 / 10 / 10 :: 48 + v / 10 / 10 mod 10 :: 48 + v / 10 mod 10 :: 48 + v mod 10 :: r.
Definition iso_date (t : tm) (r : bytes) : bytes :=
  four (tm_year t + 1900) (45 :: two (tm_mon t + 1) (45 :: two (tm_mday t) (84 :: two (tm_hour t) (58 :: two (tm_min t) (58 :: two (tm_sec t) r))))).

Lemma scan_four_of (v : Z) (r : bytes) (n : Z) : 1000 <= v < 10000 -> 4 <= n -> scan_int (mkCursor (four v r) n) 4 = Ret (Some v, mkCursor r (n - 4)).
Proof.
  intros Hv Hn. assert (H1 : 100 <= v / 10 < 1000) by (split; [apply Z.div_le_lower_bound; lia|apply Z.div_lt_upper_bound; lia]).
  assert (H2 : 10 <= v / 10 / 10 < 100) by (split; [apply Z.div_le_lower_bound; lia|apply Z.div_lt_upper_bound; lia]).
  assert (H3 : 1 <= v / 10 / 10 / 10 < 10) by (split; [apply Z.div_le_lower_bound; lia|apply Z.div_lt_upper_bound; lia]).
  pose proof (mod10_range v). pose proof (mod10_range (v / 10)). pose proof (mod10_range (v / 10 / 10)). unfold four. rewrite scan_four by lia.
  replace (((v / 10 / 10 / 10 * 10 + v / 10 / 10 mod 10) * 10 + v / 10 mod 10) * 10 + v mod 10) with v; [done|].
  pose proof (Z.div_mod v 10 ltac:(lia)). pose proof (Z.div_mod (v / 10) 10 ltac:(lia)). pose proof (Z.div_mod (v / 10 / 10) 10 ltac:(lia)). lia.
Qed.

Record date_ok (t : tm) : Prop := { do_range : tm_range t; do_year : 1000 <= tm_year t + 1900 < 10000 }.

(** [t] with the flags of [t0]. *)
Definition date_of (t t0 : tm) : tm := mkTm (tm_sec t) (tm_min t) (tm_hour t) (tm_mday t) (tm_mon t) (tm_year t) (tm_isdst t0) (tm_gmtoff t0).

Lemma scan_items_two (v : Z) (r : bytes) (n : Z) (set : Z -> tm -> tm) (t : tm) (items : list date_item) : 0 <= v < 100 -> 2 <= n ->
  scan_items (mkCursor (two v r) n) t (DInt 2 set :: items) = scan_items (mkCursor r (n - 2)) (set v t) items.
Proof. intros Hv Hn. cbn [scan_items scan_item]. by rewrite scan_two_of. Qed.

Lemma scan_items_four (v : Z) (r : bytes) (n : Z) (set : Z -> tm -> tm) (t : tm) (items : list date_item) : 1000 <= v < 10000 -> 4 <= n ->
  scan_items (mkCursor (four v r) n) t (DInt 4 set :: items) = scan_items (mkCursor r (n - 4)) (set v t) items.
Proof. intros Hv Hn. cbn [scan_items scan_item]. by rewrite scan_four_of. Qed.

Lemma scan_items_char (v : Z) (r : bytes) (n : Z) (t : tm) (items : list date_item) : 0 < n ->
  scan_items (mkCursor (v :: r) n) t (DChar v :: items) = scan_items (mkCursor r (n - 1)) t items.
Proof. intros Hn. cbn [scan_items scan_item]. by rewrite scan_char. Qed.

Lemma scan_iso_ok (t t0 : tm) (r : bytes) (n : Z) : date_ok t -> 19 <= n ->
  scan_iso_timestamp (mkCursor (iso_date t r) n) t0 = Ret (true, mkCursor r (n - 19), date_of t t0).
Proof.
  intros [[R1 R2 R3 R4 R5] Y] Hn. unfold scan_iso_timestamp, iso_items, hms, iso_date. cbn [app].
  rewrite scan_items_four, scan_items_char by lia. do 4 (rewrite scan_items_two, scan_items_char by lia). rewrite scan_items_two by lia. cbn [scan_items obind].
  replace (n - 4 - 1 - 2 - 1 - 2 - 1 - 2 - 1 - 2 - 1 - 2) with (n - 19) by lia. unfold date_of, set_mon, set_year. cbn.
  replace (tm_mon t + 1 - 1) with (tm_mon t) by lia. by replace (tm_year t + 1900 - 1900) with (tm_year t) by lia.
Qed.

(** ** Fractions *)

(** 10^(k-1), ..., 10, 1. *)
Fixpoint powers (k : nat) : list Z := match k with O => [] | S k => 10 ^ Z.of_nat k :: powers k end.

Definition stops (r : bytes) : Prop := match r with b :: _ => isdigit b = false | [] => False end.

Lemma frac_scan_stops (fuel : nat) (r : bytes) (f v n : Z) : stops r -> frac_scan fuel (mkCursor r n) f v = Ret (f, v, mkCursor r n).
Proof.
  intros Hr. destruct r as [|b r]; [done|]. simpl in Hr. destruct fuel as [|fuel]; [done|]. cbn [frac_scan cur_left]. case_bool; [|done].
  unfold peek. cbn [cur_buf lookup list_lookup obind]. by rewrite Hr.
Qed.

Lemma frac_read (k : nat) : forall (fuel : nat) (d u f v : Z) (r : bytes) (n : Z), 0 <= d -> 0 <= u < 10 ^ Z.of_nat k -> (k <= fuel)%nat -> stops r ->
  lenZ (frac_loop (powers k) d u) <= n ->
  let m := Z.min d (Z.of_nat k) in
  frac_scan fuel (mkCursor (frac_loop (powers k) d u ++ r) n) f v = Ret (f * 10 ^ m + u / 10 ^ (Z.of_nat k - m), v * 10 ^ m, mkCursor r (n - lenZ (frac_loop (powers k) d u))).
Proof.
  induction k as [|k IH]; intros fuel d u f v r n Hd Hu Hf Hr Hn m.
  - assert (u = 0) as -> by (simpl in Hu; lia). replace m with 0 by (unfold m; lia). cbn [powers frac_loop app]. rewrite (frac_scan_stops fuel r) by done.
    change (lenZ []) with 0. rewrite Z.pow_0_r, !Z.mul_1_r, Zdiv_0_l, Z.add_0_r, Z.sub_0_r. done.
  - cbn [powers frac_loop] in *. destruct (bool_decide_reflect (d = 0)) as [->|Hd0].
    + replace m with 0 by (unfold m; lia). cbn [app]. rewrite (frac_scan_stops fuel r) by done. change (lenZ []) with 0.
      rewrite Z.pow_0_r, !Z.mul_1_r, (Z.sub_0_r (Z.of_nat (S k))), (Z.div_small u), Z.add_0_r, Z.sub_0_r by done. done.
    + assert (P : 0 < 10 ^ Z.of_nat k) by (apply Z.pow_pos_nonneg; lia). rewrite Nat2Z.inj_succ, Z.pow_succ_r in Hu by lia.
      assert (Q : 0 <= u / 10 ^ Z.of_nat k <= 9) by (split; [apply Z.div_pos; lia|]; assert (u / 10 ^ Z.of_nat k < 10) by (apply Z.div_lt_upper_bound; lia); lia).
      destruct fuel as [|fuel]; [lia|]. cbn [app]. rewrite lenZ_cons in *. pose proof (lenZ_nonneg (frac_loop (powers k) (d - 1) (u mod 10 ^ Z.of_nat k))).
      rewrite Z.add_comm with (m := 48). cbn [frac_scan cur_left]. rewrite bool_decide_eq_true_2 by lia. unfold peek. cbn [cur_buf lookup list_lookup obind]. rewrite isdigit_dec by done.
      unfold advance. cbn [cur_buf cur_left skipn]. rewrite drop_0. change (Z.of_nat 1) with 1. rewrite IH; [|lia|apply Z.mod_pos_bound; lia|lia|done|lia].
      assert (Em : m = Z.min (d - 1) (Z.of_nat k) + 1) by (unfold m; lia). set (m' := Z.min (d - 1) (Z.of_nat k)) in *.
      assert (Hm' : 0 <= m' <= Z.of_nat k) by (unfold m'; lia).
      replace (10 ^ m) with (10 * 10 ^ m') by (rewrite Em, Z.add_1_r, Z.pow_succ_r; lia). replace (Z.of_nat (S k) - m) with (Z.of_nat k - m') by lia.
      pose proof (quot_step u (10 ^ m') (10 ^ (Z.of_nat k - m')) ltac:(apply Z.pow_pos_nonneg; lia) ltac:(apply Z.pow_pos_nonneg; lia)) as S. rewrite <- Z.pow_add_r in S by lia.
      replace (m' + (Z.of_nat k - m')) with (Z.of_nat k) in S by lia. rewrite <- S. 
      replace ((10 * f + (48 + u / 10 ^ Z.of_nat k) - 48) * 10 ^ m' + u mod 10 ^ Z.of_nat k / 10 ^ (Z.of_nat k - m')) with (f * (10 * 10 ^ m') + (u / 10 ^ Z.of_nat k * 10 ^ m' + u mod 10 ^ Z.of_nat k / 10 ^ (Z.of_nat k - m'))) by lia.
      replace (v * 10 * 10 ^ m') with (v * (10 * 10 ^ m')) by lia. do 3 f_equal. lia.
Qed.

Lemma skip_stops (r : bytes) (n : Z) : stops r -> skip_digits r n = Ret (mkCursor r n).
Proof. destruct r as [|b r]; [done|]. cbn. by intros ->. Qed.

Lemma powers_six : powers 6 = [100000; 10000; 1000; 100; 10; 1].
Proof. reflexivity. Qed.

(** What a fraction of [d] digits keeps of the microseconds. *)
Definition kept (d u : Z) : Z := let q := 10 ^ (6 - Z.max 0 (Z.min d 6)) in u / q * q.
Definition frac_text (d u : Z) : bytes := if bool_decide (d > 0) then 46 :: frac_loop (powers 6) d u else [].

Lemma six_split (m : Z) : 0 <= m <= 6 -> 1000000 / 10 ^ m = 10 ^ (6 - m).
Proof.
  intros Hm. assert (0 < 10 ^ m) by (apply Z.pow_pos_nonneg; lia). change 1000000 with (10 ^ 6). replace (10 ^ 6) with (10 ^ (6 - m) * 10 ^ m) by (rewrite <- Z.pow_add_r by lia; f_equal; lia).
  by apply Z.div_mul; lia.
Qed.

Lemma parse_usec_ok (d u : Z) (r : bytes) (n : Z) : 0 <= u < 1000000 -> stops r -> (forall r', r <> 46 :: r') -> lenZ (frac_text d u) <= n ->
  __parse_usec (mkCursor (frac_text d u ++ r) n) = Ret (kept d u, mkCursor r (n - lenZ (frac_text d u))).
Proof.
  intros Hu Hr Hdot Hn. unfold frac_text, __parse_usec in *. cbn [cur_left]. destruct (bool_decide_reflect (d > 0)) as [Hd|Hd].
  - rewrite lenZ_cons in Hn |- *. pose proof (lenZ_nonneg (frac_loop (powers 6) d u)). rewrite (bool_decide_eq_true_2 (n > 0)) by lia. cbn [app]. unfold peek. cbn [cur_buf lookup list_lookup obind].
    change (isc 46 46) with true. cbn iota. unfold advance. cbn [cur_buf cur_left skipn]. rewrite drop_0. change (Z.of_nat 1) with 1.
    rewrite (frac_read 6 6 d u 0 1 r (n - 1)); [|lia|exact Hu|lia|done|lia]. cbn [obind cur_buf cur_left]. rewrite skip_stops by done. cbn [obind].
    change (Z.of_nat 6) with 6. set (m := Z.min d 6). assert (0 <= m <= 6) by (unfold m; lia). rewrite Z.mul_1_l, six_split by done. unfold kept. replace (Z.max 0 (Z.min d 6)) with m by (unfold m; lia).
    assert (0 < 10 ^ (6 - m)) by (apply Z.pow_pos_nonneg; lia). pose proof (Z.mul_div_le u (10 ^ (6 - m)) ltac:(done)). pose proof (Z.div_pos u (10 ^ (6 - m)) ltac:(lia) ltac:(done)).
    rewrite Z.mul_0_l, Z.add_0_l, u32_small by nia. by replace (n - 1 - lenZ (frac_loop (powers 6) d u)) with (n - (1 + lenZ (frac_loop (powers 6) d u))) by lia.
  - cbn [app] in *. unfold kept. replace (Z.max 0 (Z.min d 6)) with 0 by lia. change (10 ^ (6 - 0)) with 1000000. rewrite Z.div_small, Z.mul_0_l by lia.
    change (lenZ (@nil Z)) with 0 in *. rewrite Z.sub_0_r. case_bool; [|done]. destruct r as [|b r]; [done|]. unfold peek. cbn [cur_buf lookup list_lookup obind]. unfold isc.
    rewrite bool_decide_eq_false_2; [done|]. intros ->. by apply (Hdot r).
Qed.

(** ** Zones *)

Lemma two_digits_of (v : Z) (r : bytes) : 0 <= v < 100 -> two_digits v ++ r = two v r.
Proof.
  intros Hv. pose proof (div10_range v 10 ltac:(lia)). unfold two_digits, two, decimal. cbn [decimal_digits]. case_bool.
  - by rewrite (Z.div_small v), (Z.mod_small v) by lia.
  - rewrite (bool_decide_eq_true_2 (v / 10 < 10)) by lia. done.
Qed.

Definition zone_text (z : Z) (r : bytes) : bytes := (if bool_decide (z < 0) then 45 else 43) :: two (Z.abs z / 3600) (58 :: two (Z.abs z mod 3600 / 60) r).

(** A zone in whole minutes, and less than a hundred hours. *)
Definition zone_range (z : Z) : Prop := Z.abs z < 360000 /\ z mod 60 = 0.

Lemma zone_fields (z : Z) : zone_range z -> 0 <= Z.abs z / 3600 < 100 /\ 0 <= Z.abs z mod 3600 / 60 < 60 /\ Z.abs z / 3600 * 3600 + Z.abs z mod 3600 / 60 * 60 = Z.abs z.
Proof.
  intros [H1 H2]. destruct (hour_minute z (Z.abs z)) as [E R]; [lia|lia|done|]. split_and!; [apply Z.div_pos; lia|apply Z.div_lt_upper_bound; lia|lia|lia|done].
Qed.

Lemma format_zone (z : Z) (r : bytes) : zone_range z -> format_zone_info 8 z ++ r = zone_text z r.
Proof.
  intros Hz. destruct (zone_fields z Hz) as (H1 & H2 & _). unfold format_zone_info, zone_text. cbn zeta.
  replace (if bool_decide (z < 0) then - z else z) with (Z.abs z) by (case_bool; lia). set (c := if bool_decide (z < 0) then 45 else 43).
  rewrite <- (app_nil_r (two_digits (Z.abs z mod 3600 / 60))). rewrite !two_digits_of by lia. done.
Qed.

Lemma parse_tz_ok (self : LogMessage) (flags z b : Z) (r : bytes) (n : Z) : zone_range z -> isdigit b = false -> 6 <= n ->
  _parse_date_tz self flags (mkCursor (zone_text z (b :: r)) n) =
  Ret (let self := set_stamp self (set_zone (lm_stamp self) z) in
       if has_flag flags LP_NO_PARSE_DATE then self else log_msg_set_value self (bytes_of_string ".SDATA.timeQuality.tzKnown") (bytes_of_string "1"), mkCursor (b :: r) (n - 6)).
Proof.
  intros Hz Hb Hn. destruct (zone_fields z Hz) as (H1 & H2 & H3). destruct Hz as [Hz _]. unfold _parse_date_tz. cbn [cur_left]. rewrite bool_decide_eq_true_2 by lia.
  set (sg := if bool_decide (z < 0) then 45 else 43). assert (Hsg : sg = 45 \/ sg = 43) by (unfold sg; case_bool; auto). assert (Hsv : (if isc 45 sg then -1 else 1) * Z.abs z = z) by (unfold sg; destruct (bool_decide_reflect (z < 0)); [change (isc 45 45) with true|change (isc 45 43) with false]; cbv iota; lia).
  unfold zone_text. fold sg. unfold two. set (ho := Z.abs z / 3600) in *. set (mi := Z.abs z mod 3600 / 60) in *. clearbody ho mi sg.
  pose proof (div10_range ho 10 ltac:(lia)). pose proof (div10_range mi 10 ltac:(lia)). pose proof (mod10_range ho). pose proof (mod10_range mi).
  unfold peek at 1. cbn [cur_buf lookup list_lookup obind]. replace (isc 90 sg) with false by (destruct Hsg as [-> | ->]; done). cbn iota.
  unfold __has_iso_timezone. cbn [cur_left]. rewrite bool_decide_eq_true_2 by lia. cbn [bytes_match]. unfold peek. cbn [cur_buf lookup list_lookup obind].
  replace (isc 43 sg || isc 45 sg) with true by (destruct Hsg as [-> | ->]; done). rewrite !isdigit_dec by lia. change (isc 58 58) with true. cbn iota. rewrite Hb. cbn [negb obind].
  unfold __parse_iso_timezone, peek. cbn [cur_buf lookup list_lookup obind]. unfold advance. cbn [cur_buf cur_left skipn]. rewrite ?drop_0. change (Z.of_nat 6) with 6.
  replace (((48 + ho / 10 - 48) * 10 + (48 + ho mod 10) - 48) * 3600 + ((48 + mi / 10 - 48) * 10 + (48 + mi mod 10) - 48) * 60) with (Z.abs z).
  2:{ pose proof (Z.div_mod ho 10 ltac:(lia)). pose proof (Z.div_mod mi 10 ltac:(lia)). lia. }
  rewrite Hsv. replace (s32 (u32 z)) with z; [done|]. symmetry. unfold s32. rewrite (u32_small (u32 z)) by apply u32_range. fold (s32 z). apply s32_small. lia.
Qed.

(** ** The text of a stamp *)

Lemma put_iso (stamp : LogStamp) (z d : Z) (t : tm) : date_ok t ->
  put_stamp stamp [] TS_FMT_ISO z d t = Ret (iso_date t (frac_text d (tv_usec stamp mod 1000000) ++ format_zone_info 8 z)).
Proof.
  intros [[R1 R2 R3 R4 R5] Y]. unfold put_stamp. change (bool_decide (TS_FMT_ISO = TS_FMT_BSD)) with false. change (bool_decide (TS_FMT_ISO = TS_FMT_ISO)) with true. cbn iota zeta. unfold put_hms, put_c.
  rewrite put_four by lia. do 5 rewrite put_two by lia. unfold log_stamp_append_frac_digits, frac_text. rewrite <- powers_six. case_bool; done.
Qed.

Lemma iso_date_app (t : tm) (r s : bytes) : iso_date t r ++ s = iso_date t (r ++ s).
Proof. reflexivity. Qed.
Lemma iso_date_length (t : tm) (r : bytes) : lenZ (iso_date t r) = 19 + lenZ r.
Proof. unfold iso_date, four, two. rewrite !lenZ_cons. lia. Qed.
Lemma zone_text_length (z : Z) (r : bytes) : lenZ (zone_text z r) = 6 + lenZ r.
Proof. unfold zone_text, two. rewrite !lenZ_cons. lia. Qed.

Lemma iso_recognized (t : tm) (r : bytes) (n : Z) : 19 <= n -> __is_iso_stamp (mkCursor (iso_date t r) n) = Ret true.
Proof. intros Hn. unfold __is_iso_stamp. cbn [cur_left]. by rewrite bool_decide_eq_true_2 by lia. Qed.

(** ** Caches *)

Definition cache_ok (f : Z -> tm) (cache : list (Z * tm)) : Prop :=
  length cache = 64%nat /\ forall i w t, cache !! i = Some (w, t) -> t = f w \/ w = 0 /\ t = zero_tm.

Lemma cache_ok_empty (f : Z -> tm) : cache_ok f empty_cache.
Proof. split; [done|]. intros i w t H. apply lookup_replicate in H as [[= <- <-] _]. by right. Qed.

Lemma cached_ok (f : Z -> tm) (cache : list (Z * tm)) (w : Z) : cache_ok f cache ->
  exists t cache', cached f cache w = Ret (t, cache') /\ cache_ok f cache' /\ (t = f w \/ w = 0 /\ t = zero_tm).
Proof.
  intros [Hl He]. unfold cached. pose proof (Z.mod_pos_bound w 64 ltac:(done)) as B. replace (Z.land w 63) with (w mod 64) by (symmetry; apply (Z.land_ones w 6); done).
  destruct (lookup_lt_is_Some_2 cache (Z.to_nat (w mod 64))) as [[w' t] H]; [lia|]. rewrite H. case_bool.
  - subst w'. exists t, cache. split_and!; [done|by split|by apply (He _ _ _ H)].
  - do 2 eexists. split_and!; [done|split; [by rewrite length_insert|]|by left]. intros i w1 t1 H1. apply list_lookup_insert_Some in H1 as [(_ & [= <- <-] & _)|[_ H1]]; [by left|by eapply He].
Qed.

Section host.
Context (localtime : Z -> tm) (mktime : tm -> Z * tm).

Record caches_ok (caches : TimeCaches) : Prop := {
  co_local : cache_ok localtime (local_time_cache caches);
  co_gm : cache_ok gmtime (gm_time_cache caches);
  co_mktime : mktime_prev_time caches = (mktime (mktime_prev_tm caches)).1 \/ tm_isdst (mktime_prev_tm caches) = 0
}.

Lemma initial_caches_ok : caches_ok initial_caches.
Proof. split; [apply cache_ok_empty|apply cache_ok_empty|by right]. Qed.

Lemma cached_gmtime_ok (caches : TimeCaches) (w : Z) : caches_ok caches ->
  exists t caches', cached_gmtime caches w = Ret (t, caches') /\ caches_ok caches' /\ (t = gmtime w \/ w = 0 /\ t = zero_tm).
Proof.
  intros [H1 H2 H3]. destruct (cached_ok gmtime _ w H2) as (t & cache' & E & Hc & Ht). unfold cached_gmtime. rewrite E. cbn [obind]. eauto 10 using Build_caches_ok.
Qed.

Lemma cached_localtime_ok (caches : TimeCaches) (w : Z) : caches_ok caches ->
  exists t caches', cached_localtime localtime caches w = Ret (t, caches') /\ caches_ok caches' /\ (t = localtime w \/ w = 0 /\ t = zero_tm) /\
    mktime_prev_tm caches' = mktime_prev_tm caches /\ mktime_prev_time caches' = mktime_prev_time caches.
Proof.
  intros [H1 H2 H3]. destruct (cached_ok localtime _ w H1) as (t & cache' & E & Hc & Ht). unfold cached_localtime. rewrite E. cbn [obind].
  do 2 eexists. split_and!; [done|by split|done|done|done].
Qed.

(** What the C library promises of [mktime] on a local time: the time at which
    clocks showed it, [k] hours away when they never did. *)
Record mktime_at (t : tm) (k : Z) : Prop := {
  ma_range : -24 < k < 24;
  ma_zero : (mktime t).1 <> 0;
  ma_time : (mktime t).1 + tm_gmtoff (localtime (mktime t).1) = timegm t + 3600 * k;
  ma_hour : tm_hour (mktime t).2 = tm_hour (gmtime (timegm t + 3600 * k));
  ma_mday : tm_mday (mktime t).2 = tm_mday (gmtime (timegm t + 3600 * k))
}.

Lemma same_call_eq (a b : tm) : same_call a b = true -> exists g, a = mkTm (tm_sec b) (tm_min b) (tm_hour b) (tm_mday b) (tm_mon b) (tm_year b) (tm_isdst b) g.
Proof.
  unfold same_call. rewrite !andb_true_iff, !bool_decide_eq_true. intros [[[[[[H1 H2] H3] H4] H5] H6] H7]. exists (tm_gmtoff a). destruct a; cbn in *. congruence.
Qed.
End host.

Lemma gmtime_hour (w : Z) : tm_hour (gmtime w) = w mod 86400 / 3600.
Proof. unfold gmtime. by destruct (civil_from_days (w / 86400)) as [[? ?] ?]. Qed.
Lemma gmtime_mday (w : Z) : tm_mday (gmtime w) = (civil_from_days (w / 86400)).2.
Proof. unfold gmtime. by destruct (civil_from_days (w / 86400)) as [[? ?] ?]. Qed.
Lemma mday_range (days : Z) : 1 <= (civil_from_days days).2 <= 31.
Proof. pose proof (civil_inverse days) as C. destruct (civil_from_days days) as [[? ?] ?]. tauto. Qed.

(** The hour that was meant, counted from the day that was shown. *)
Lemma unnormalized_hour_ok (u t : tm) (w k : Z) : -24 < k < 24 -> tm_hour u = tm_hour (gmtime w) -> tm_mday u = tm_mday (gmtime w) ->
  tm_hour t = tm_hour (gmtime (w + 3600 * k)) -> tm_mday t = tm_mday (gmtime (w + 3600 * k)) -> tm_hour t - __calculate_unnormalized_hour u t = k.
Proof.
  intros Hk Hu1 Hu2 Ht1 Ht2. destruct (next_hour w k Hk) as (d & Ed & Rd & Eh). unfold __calculate_unnormalized_hour. rewrite Hu1, Hu2, Ht1, Ht2, !gmtime_hour, !gmtime_mday, Ed, Eh.
  set (h := w mod 86400 / 3600). set (D := w / 86400). destruct (decide (d = 0)) as [->|Hd0].
  - rewrite Z.add_0_r. rewrite bool_decide_eq_false_2 by tauto. lia.
  - assert (d = 1 \/ d = -1) as [-> | ->] by lia.
    + pose proof (next_day D) as N. cbn zeta in N. pose proof (mday_range D). rewrite bool_decide_eq_true_2 by lia. repeat case_bool; lia.
    + pose proof (next_day (D + -1)) as N. cbn zeta in N. replace (D + -1 + 1) with D in N by lia. pose proof (mday_range (D + -1)). rewrite bool_decide_eq_true_2 by lia. repeat case_bool; lia.
Qed.
