(* ===== verification/TimeStampClaims.v ===== *)
(** * What holds of dates: writing, reading, and the caches between *)
From S2P Require Import Prelude StrFormat TimeStamp Buffer SyslogDate TimeStampSpec.

(** The local time [w] as it is handed to [mktime]. *)
Definition meant (w g : Z) : tm := set_isdst (-1) (date_of (gmtime w) (mkTm 0 0 0 0 0 0 0 g)).

Lemma timegm_meant (w g : Z) : timegm (meant w g) = w.
Proof. rewrite <- (timegm_gmtime w) at 2. unfold meant, date_of, set_isdst, timegm. cbn [tm_sec tm_min tm_hour tm_mday tm_mon tm_year]. done. Qed.

Section host.
Context (localtime : Z -> tm) (mktime : tm -> Z * tm).

(** One call of [mktime] through its cache. *)
Lemma cached_mktime_hit (caches : TimeCaches) (w g : Z) : caches_ok localtime mktime caches ->
  mktime_at localtime mktime (meant w (tm_gmtoff (mktime_prev_tm caches))) 0 -> same_call (meant w g) (mktime_prev_tm caches) = true ->
  mktime_prev_time caches <> 0 /\ mktime_prev_time caches + tm_gmtoff (localtime (mktime_prev_time caches)) = w.
Proof.
  intros [_ _ C3] [_ M1 M2 _ _] E. destruct (same_call_eq _ _ E) as [g' Eg]. assert (Ep : mktime_prev_tm caches = meant w (tm_gmtoff (mktime_prev_tm caches))).
  { destruct (mktime_prev_tm caches). injection Eg as E1 E2 E3 E4 E5 E6 E7 E8. cbn in *. unfold meant, date_of, set_isdst. cbn. congruence. }
  rewrite timegm_meant in M2. destruct C3 as [C3|C3]; [|rewrite Ep in C3; done]. rewrite <- Ep, <- C3 in M1, M2. split; [done|lia].
Qed.

Lemma cached_mktime_miss (caches : TimeCaches) (w g k : Z) : caches_ok localtime mktime caches ->
  mktime_at localtime mktime (meant w g) k -> same_call (meant w g) (mktime_prev_tm caches) = false ->
  exists m t' caches', cached_mktime mktime caches (meant w g) = (m, t', caches') /\ caches_ok localtime mktime caches' /\ mktime_prev_tm caches' = meant w g /\
    m <> 0 /\ m + tm_gmtoff (localtime m) = w + 3600 * k /\ tm_hour t' - __calculate_unnormalized_hour (meant w g) t' = k.
Proof.
  intros [C1 C2 C3] [Mk M1 M2 M3 M4] E. unfold cached_mktime. rewrite E. rewrite timegm_meant in *. destruct (mktime (meant w g)) as [m t'] eqn:Em. cbn [fst snd] in *.
  do 3 eexists. split_and!; [done|split; cbn; [done|done|left; by rewrite Em]|done|done|done|]. by apply unnormalized_hour_ok with w.
Qed.

(** What follows a call of [mktime]. *)
Lemma correct_time_ok (stamp : LogStamp) (m h uh assume : Z) (caches : TimeCaches) : caches_ok localtime mktime caches -> m <> 0 -> zone_offset stamp <> -1 ->
  exists caches', __calculate_correct_time localtime (set_tv_sec stamp m) h uh assume caches =
    Ret (mkStamp (m + tm_gmtoff (localtime m) - (h - uh) * 3600 - zone_offset stamp) (tv_usec stamp) (zone_offset stamp), caches') /\
    caches_ok localtime mktime caches' /\ mktime_prev_tm caches' = mktime_prev_tm caches.
Proof.
  intros Hc Hm Hz. unfold __calculate_correct_time, get_local_timezone_ofs, set_tv_sec, set_zone. cbn [tv_sec tv_usec zone_offset].
  destruct (cached_localtime_ok localtime mktime caches m Hc) as (lt & caches2 & E2 & H2 & Hlt & Hp & _). rewrite E2. cbn [obind]. destruct Hlt as [->|[? _]]; [|done].
  rewrite (bool_decide_eq_false_2 (zone_offset stamp = -1)) by done. cbn [zone_offset tv_sec tv_usec]. rewrite bool_decide_eq_false_2 by done. cbn [zone_offset tv_sec tv_usec]. eauto.
Qed.

Lemma normalize_first (stamp : LogStamp) (t0 : tm) (w k assume : Z) (caches : TimeCaches) : caches_ok localtime mktime caches ->
  (forall g, mktime_at localtime mktime (meant w g) k) -> same_call (meant w 0) (mktime_prev_tm caches) = false -> zone_offset stamp <> -1 ->
  exists caches', _normalize_time localtime mktime stamp (date_of (gmtime w) t0) assume caches = Ret (mkStamp (w - zone_offset stamp) (tv_usec stamp) (zone_offset stamp), caches') /\
    caches_ok localtime mktime caches' /\ mktime_prev_tm caches' = meant w (tm_gmtoff t0).
Proof.
  intros Hc Hm Hk Hz. unfold _normalize_time. change (set_isdst (-1) (date_of (gmtime w) t0)) with (meant w (tm_gmtoff t0)).
  destruct (cached_mktime_miss caches w (tm_gmtoff t0) k Hc (Hm _) Hk) as (m & t' & caches1 & E & H1 & Hp & Hm0 & Hofs & Hh). rewrite E.
  destruct (correct_time_ok stamp m (tm_hour t') (__calculate_unnormalized_hour (meant w (tm_gmtoff t0)) t') assume caches1 H1 Hm0 Hz) as (caches2 & E2 & H2 & Hp2). rewrite E2.
  eexists. split_and!; [|done|by rewrite Hp2]. do 3 f_equal. lia.
Qed.

Lemma normalize_ok (stamp : LogStamp) (t0 : tm) (w k assume : Z) (caches : TimeCaches) : caches_ok localtime mktime caches ->
  (forall g, mktime_at localtime mktime (meant w g) k) -> (k <> 0 -> same_call (meant w 0) (mktime_prev_tm caches) = false) -> zone_offset stamp <> -1 ->
  exists caches', _normalize_time localtime mktime stamp (date_of (gmtime w) t0) assume caches = Ret (mkStamp (w - zone_offset stamp) (tv_usec stamp) (zone_offset stamp), caches') /\
    caches_ok localtime mktime caches'.
Proof.
  intros Hc Hm Hk Hz. destruct (same_call (meant w 0) (mktime_prev_tm caches)) eqn:E.
  - destruct (decide (k = 0)) as [->|Hk0]; [|discriminate (Hk Hk0)]. destruct (cached_mktime_hit caches w 0 Hc (Hm _) E) as [M1 M2]. unfold _normalize_time, cached_mktime.
    change (set_isdst (-1) (date_of (gmtime w) t0)) with (meant w (tm_gmtoff t0)). change (same_call (meant w (tm_gmtoff t0)) (mktime_prev_tm caches)) with (same_call (meant w 0) (mktime_prev_tm caches)). rewrite E.
    unfold __calculate_unnormalized_hour. rewrite bool_decide_eq_false_2 by tauto.
    destruct (correct_time_ok stamp (mktime_prev_time caches) (tm_hour (meant w (tm_gmtoff t0))) (tm_hour (meant w (tm_gmtoff t0))) assume caches Hc M1 Hz) as (caches2 & E2 & H2 & _). rewrite E2.
    eexists. split; [|done]. do 3 f_equal. lia.
  - destruct (normalize_first stamp t0 w k assume caches Hc Hm E Hz) as (caches' & E1 & H1 & _). eauto.
Qed.

(** The second look-up finds the time but not the normalized fields. *)
Lemma normalize_again (stamp : LogStamp) (t0 t1 : tm) (w k assume : Z) (caches : TimeCaches) : caches_ok localtime mktime caches ->
  mktime_at localtime mktime (mktime_prev_tm caches) k -> mktime_prev_tm caches = meant w (tm_gmtoff t0) -> zone_offset stamp <> -1 ->
  exists caches', _normalize_time localtime mktime stamp (date_of (gmtime w) t1) assume caches = Ret (mkStamp (w + 3600 * k - zone_offset stamp) (tv_usec stamp) (zone_offset stamp), caches').
Proof.
  intros Hc [Mk M1 M2 _ _] Hp Hz. destruct Hc as [C1 C2 C3]. assert (Et : mktime_prev_time caches = (mktime (mktime_prev_tm caches)).1) by (destruct C3 as [?|C3]; [done|by rewrite Hp in C3]). rewrite <- Et in M1, M2.
  assert (timegm (mktime_prev_tm caches) = w) as Ew by (rewrite Hp; apply timegm_meant). rewrite Ew in M2.
  unfold _normalize_time, cached_mktime. change (set_isdst (-1) (date_of (gmtime w) t1)) with (meant w (tm_gmtoff t1)).
  replace (same_call (meant w (tm_gmtoff t1)) (mktime_prev_tm caches)) with true by (rewrite Hp; unfold same_call; by rewrite !bool_decide_eq_true_2).
  unfold __calculate_unnormalized_hour. rewrite bool_decide_eq_false_2 by tauto.
  destruct (correct_time_ok stamp (mktime_prev_time caches) (tm_hour (meant w (tm_gmtoff t1))) (tm_hour (meant w (tm_gmtoff t1))) assume caches) as (caches2 & E2 & _); [by split|done|done|]. rewrite E2.
  eexists. do 3 f_equal. lia.
Qed.

Lemma bytes_of_string_inj (s1 s2 : string) : bytes_of_string s1 = bytes_of_string s2 -> s1 = s2.
Proof.
  revert s2. induction s1 as [|a s1 IH]; intros [|b s2] H; try done. injection H as Ha Hs. f_equal; [|by apply IH].
  rewrite <- (Ascii.ascii_nat_embedding a), <- (Ascii.ascii_nat_embedding b). f_equal. lia.
Qed.

Lemma not_in_header (n : string) : n <> "PROGRAM"%string -> n <> "PID"%string -> in_header (bytes_of_string n) = false.
Proof. intros H1 H2. apply bool_decide_eq_false_2. intros [H|H]; apply bytes_of_string_inj in H; done. Qed.

(** ** Reading an ISO date *)

Context (now : Z).

Definition iso_text (t : tm) (d u z : Z) (r : bytes) : bytes := iso_date t (frac_text d u ++ zone_text z r).

Lemma iso_text_length (t : tm) (d u z : Z) (r : bytes) : lenZ (iso_text t d u z r) = 25 + lenZ (frac_text d u) + lenZ r.
Proof. unfold iso_text. rewrite iso_date_length, lenZ_app, zone_text_length. lia. Qed.

(** The memory goes on behind the message. *)
Lemma parse_date_iso (self : LogMessage) (flags assume : Z) (t : tm) (d u z b : Z) (r : bytes) (n : Z) (caches : TimeCaches) :
  date_ok t -> 0 <= u < 1000000 -> zone_range z -> isdigit b = false -> has_flag flags LP_NO_PARSE_DATE = false -> caches_ok localtime mktime caches -> 0 <= n ->
  let text := iso_text t d u z (b :: r) in
  exists t0 caches1, caches_ok localtime mktime caches1 /\ mktime_prev_tm caches1 = mktime_prev_tm caches /\
    log_msg_parse_date localtime mktime now self flags assume (mkCursor text (25 + lenZ (frac_text d u) + n)) caches =
    let! (stamp, caches) := _normalize_time localtime mktime (mkStamp (tv_sec (lm_stamp self)) (kept d u) z) (date_of t t0) assume caches1 in
    Ret (Some (mkCursor (b :: r) n),
         mkMessage (lm_pri self) (lm_flags self) stamp (lm_recvd self) (lm_values self ++ [(bytes_of_string ".SDATA.timeQuality.isSynced", bytes_of_string "0"); (bytes_of_string ".SDATA.timeQuality.tzKnown", bytes_of_string "1")]), caches).
Proof.
  intros Ht Hu Hz Hb Hf Hc Hn text. set (L := 25 + lenZ (frac_text d u) + n). assert (Hlen : L = 25 + lenZ (frac_text d u) + n) by done. pose proof (lenZ_nonneg (frac_text d u)).
  clearbody L. subst text. unfold iso_text.
  unfold log_msg_parse_date, log_msg_parse_date_unnormalized, _parse_date_is_synced. rewrite Hf. unfold peek at 1. replace (cur_buf (mkCursor (iso_date t (frac_text d u ++ zone_text z (b :: r))) L) !! 0%nat) with (Some (48 + (tm_year t + 1900) / 10 / 10 / 10)) by done. cbn [obind].
  assert (Hfirst : isc 42 (48 + (tm_year t + 1900) / 10 / 10 / 10) = false /\ isc 46 (48 + (tm_year t + 1900) / 10 / 10 / 10) = false).
  { destruct Ht as [_ Y]. pose proof (Z.div_pos (tm_year t + 1900) 10 ltac:(lia) ltac:(lia)) as P1. pose proof (Z.div_pos _ 10 P1 ltac:(lia)) as P2. pose proof (Z.div_pos _ 10 P2 ltac:(lia)).
    split; apply bool_decide_eq_false_2; lia. }
  destruct Hfirst as [-> ->]. cbn [orb obind]. rewrite iso_recognized by lia. cbn [obind]. unfold __parse_iso_stamp.
  destruct (cached_localtime_ok localtime mktime caches now Hc) as (t0 & caches1 & E & Hc1 & _ & Hp & _). rewrite E. cbn [obind]. rewrite scan_iso_ok by (done || lia). cbn [obind negb].
  rewrite parse_usec_ok; [|done|by destruct (bool_decide_reflect (z < 0)); unfold zone_text; case_bool|intros r'; unfold zone_text; by case_bool|lia]. cbn [obind].
  rewrite parse_tz_ok by (done || lia). cbn [obind]. rewrite Hf. exists t0, caches1. split_and!; [done|done|].
  unfold log_msg_set_value. rewrite !not_in_header by done. unfold set_stamp, set_values, set_usec, set_zone. cbn [lm_pri lm_flags lm_stamp lm_recvd lm_values tv_sec tv_usec zone_offset].
  destruct (_normalize_time _ _ _ _ _ _) as [[stamp caches2]|]; [|done]. cbn [obind]. rewrite <- app_assoc. replace (L - 19 - lenZ (frac_text d u) - 6) with n by lia. done.
Qed.
End host.

(** C24: A stamp printed in ISO format, in any zone of whole minutes, and read back
    from a message gives the same time, the microseconds that were printed and
    the zone, and stops behind it.  The host may be in any zone: for the local
    time that was printed [mktime] is at most a day of whole hours off (a time
    clocks skipped), and was not just asked for the same time when it is. *)
Theorem iso_stamp_roundtrip (localtime : Z -> tm) (mktime : tm -> Z * tm) (now : Z) (stamp : LogStamp) (zone d k b flags assume : Z) (r : bytes) (self : LogMessage) (caches1 caches2 : TimeCaches) :
  let z := if bool_decide (zone <> -1) then zone else zone_offset stamp in
  let w := tv_sec stamp + z in
  caches_ok localtime mktime caches1 -> caches_ok localtime mktime caches2 -> w <> 0 -> date_ok (gmtime w) -> zone_range z ->
  (forall g, mktime_at localtime mktime (meant w g) k) -> (k <> 0 -> same_call (meant w 0) (mktime_prev_tm caches2) = false) ->
  isdigit b = false -> has_flag flags LP_NO_PARSE_DATE = false ->
  exists text caches1' caches2' values,
    log_stamp_format caches1 stamp TS_FMT_ISO zone d = Ret (text, caches1') /\
    log_msg_parse_date localtime mktime now self flags assume (mkCursor (text ++ b :: r) (lenZ (text ++ b :: r))) caches2 =
      Ret (Some (mkCursor (b :: r) (lenZ (b :: r))), mkMessage (lm_pri self) (lm_flags self) (mkStamp (tv_sec stamp) (kept d (tv_usec stamp mod 1000000)) z) (lm_recvd self) values, caches2').
Proof.
  intros z w H1 H2 Hw Hd Hz Hm Hk Hb Hf. destruct (cached_gmtime_ok localtime mktime caches1 w H1) as (t & c1 & E1 & _ & [->|[? _]]); [|done].
  unfold log_stamp_format, log_stamp_append_format. fold z w. rewrite E1. cbn [obind]. rewrite put_iso by done. cbn [obind]. pose proof (Z.mod_pos_bound (tv_usec stamp) 1000000 ltac:(done)) as Hu.
  destruct (parse_date_iso localtime mktime now self flags assume (gmtime w) d _ z b r (lenZ (b :: r)) caches2 Hd Hu Hz Hb Hf H2 (lenZ_nonneg _)) as (t0 & c2 & Hc2 & Hp & E). 
  destruct (normalize_ok localtime mktime (mkStamp (tv_sec (lm_stamp self)) (kept d (tv_usec stamp mod 1000000)) z) t0 w k assume c2) as (c3 & E3 & _); [done|done|by rewrite Hp| |].
  { destruct Hz as [_ Hz]. cbn. intros ->. done. }
  do 4 eexists. split; [done|]. rewrite iso_date_app, <- app_assoc, format_zone by done. rewrite <- (iso_text_length (gmtime w) d _ z) in E. unfold iso_text in E. rewrite E, E3. cbn [obind zone_offset tv_usec].
  replace (w - z) with (tv_sec stamp) by (unfold w; lia). done.
Qed.

(** A host one hour east. *)
Definition east_localtime (m : Z) : tm := let t := gmtime (m + 3600) in mkTm (tm_sec t) (tm_min t) (tm_hour t) (tm_mday t) (tm_mon t) (tm_year t) 0 3600.
Definition east_mktime (t : tm) : Z * tm := (timegm t - 3600, east_localtime (timegm t - 3600)).

Lemma east_mktime_at (w g : Z) : w <> 3600 -> mktime_at east_localtime east_mktime (meant w g) 0.
Proof.
  intros Hw. split; [done| | | |]; unfold east_mktime, east_localtime; cbn zeta; cbn [fst snd tm_gmtoff tm_hour tm_mday]; rewrite timegm_meant; [lia|lia| |]; do 2 f_equal; lia.
Qed.

Lemma iso_stamp_roundtrip_witness : exists text caches1' caches2' values,
  log_stamp_format initial_caches (mkStamp 951825296 120345 7200) TS_FMT_ISO (-1) 3 = Ret (text, caches1') /\
  log_msg_parse_date east_localtime east_mktime 951829999 (mkMessage 0 0 (mkStamp 0 0 0) (mkStamp 0 0 0) []) 0 (-1) (mkCursor (text ++ 32 :: bytes_of_string "host") (lenZ (text ++ 32 :: bytes_of_string "host"))) initial_caches =
    Ret (Some (mkCursor (32 :: bytes_of_string "host") 5), mkMessage 0 0 (mkStamp 951825296 120000 7200) (mkStamp 0 0 0) values, caches2').
Proof.
  apply (iso_stamp_roundtrip east_localtime east_mktime 951829999 (mkStamp 951825296 120345 7200) (-1) 3 0 32 0 (-1) (bytes_of_string "host") (mkMessage 0 0 (mkStamp 0 0 0) (mkStamp 0 0 0) []) initial_caches initial_caches);
    [apply initial_caches_ok|apply initial_caches_ok|done| |done|intros g; by apply east_mktime_at|done|done|done].
  split; [apply gmtime_range|]. vm_compute. split; [intros [=]|reflexivity].
Defined.

(** A date in an hour that clocks skipped is read correctly the first time.
    Read again, with the last call of [mktime] still cached, it comes out by the
    length of the gap later: the cache does not keep the normalized fields from
    which the correction is computed. *)
Theorem dst_gap_read_twice (localtime : Z -> tm) (mktime : tm -> Z * tm) (now : Z) (w k d u z b flags assume : Z) (r : bytes) (self : LogMessage) (caches : TimeCaches) :
  caches_ok localtime mktime caches -> date_ok (gmtime w) -> 0 <= u < 1000000 -> zone_range z -> isdigit b = false -> has_flag flags LP_NO_PARSE_DATE = false ->
  (forall g, mktime_at localtime mktime (meant w g) k) -> same_call (meant w 0) (mktime_prev_tm caches) = false ->
  let text := iso_text (gmtime w) d u z (b :: r) in
  exists self1 rest1 caches1 self2 rest2 caches2,
    log_msg_parse_date localtime mktime now self flags assume (mkCursor text (lenZ text)) caches = Ret (rest1, self1, caches1) /\
    log_msg_parse_date localtime mktime now self flags assume (mkCursor text (lenZ text)) caches1 = Ret (rest2, self2, caches2) /\
    tv_sec (lm_stamp self1) = w - z /\ tv_sec (lm_stamp self2) = w - z + 3600 * k.
Proof.
  intros Hc Hd Hu Hz Hb Hf Hm Hs text. destruct (parse_date_iso localtime mktime now self flags assume (gmtime w) d u z b r (lenZ (b :: r)) caches Hd Hu Hz Hb Hf Hc (lenZ_nonneg _)) as (t0 & c1 & Hc1 & Hp & E). rewrite <- (iso_text_length (gmtime w) d u z) in E. fold text in E. rewrite E.
  assert (Hz1 : z <> -1) by (destruct Hz as [_ Hz]; intros ->; done). set (st := mkStamp (tv_sec (lm_stamp self)) (kept d u) z) in *.
  destruct (normalize_first localtime mktime st t0 w k assume c1) as (c2 & E2 & Hc2 & Hp2); [done|done|by rewrite Hp|done|]. rewrite E2. cbn [obind].
  destruct (parse_date_iso localtime mktime now self flags assume (gmtime w) d u z b r (lenZ (b :: r)) c2 Hd Hu Hz Hb Hf Hc2 (lenZ_nonneg _)) as (t1 & c3 & Hc3 & Hp3 & E3). rewrite <- (iso_text_length (gmtime w) d u z) in E3. fold text st in E3.
  destruct (normalize_again localtime mktime st t0 t1 w k assume c3) as (c4 & E4); [done|by rewrite Hp3, Hp2|by rewrite Hp3|done|]. rewrite E4 in E3. do 6 eexists. split_and!; [done|exact E3|done|]. cbn. lia.
Qed.

(** A host whose clocks went from 02:00 to 03:00, UTC before and one hour east
    after, on 2022-03-27. *)
Definition spring : Z := 1648346400.
Definition spring_localtime (m : Z) : tm :=
  let ofs := if bool_decide (m < spring) then 0 else 3600 in
  let t := gmtime (m + ofs) in mkTm (tm_sec t) (tm_min t) (tm_hour t) (tm_mday t) (tm_mon t) (tm_year t) 0 ofs.
Definition spring_mktime (t : tm) : Z * tm :=
  let w := timegm t in
  let m := if bool_decide (w < spring + 3600) then w else w - 3600 in (m, spring_localtime m).

Lemma dst_gap_read_twice_witness :
  exists self1 rest1 caches1 self2 rest2 caches2,
    log_msg_parse_date spring_localtime spring_mktime 1648300000 (mkMessage 0 0 (mkStamp 0 0 0) (mkStamp 0 0 0) []) 0 (-1) (mkCursor (bytes_of_string "2022-03-27T02:30:00+00:00 host") 30) initial_caches = Ret (rest1, self1, caches1) /\
    log_msg_parse_date spring_localtime spring_mktime 1648300000 (mkMessage 0 0 (mkStamp 0 0 0) (mkStamp 0 0 0) []) 0 (-1) (mkCursor (bytes_of_string "2022-03-27T02:30:00+00:00 host") 30) caches1 = Ret (rest2, self2, caches2) /\
    tv_sec (lm_stamp self1) = 1648348200 /\ tv_sec (lm_stamp self2) = 1648351800.
Proof.
  apply (dst_gap_read_twice spring_localtime spring_mktime 1648300000 1648348200 1 0 0 0 32 0 (-1) (bytes_of_string "host") (mkMessage 0 0 (mkStamp 0 0 0) (mkStamp 0 0 0) []) initial_caches);
    [apply initial_caches_ok| |done|done|done|done| |done].
  - split; [apply gmtime_range|]. vm_compute. split; [intros [=]|reflexivity].
  - intros g. split; [done| | | |]; unfold spring_mktime; rewrite timegm_meant; vm_compute; done.
Defined.

(** ** The caches over time *)

Inductive time_call := CallGmtime (w : Z) | CallLocaltime (w : Z) | CallMktime (t : tm) | CallClean.

Definition run_call (localtime : Z -> tm) (mktime : tm -> Z * tm) (caches : TimeCaches) (call : time_call) : outcome TimeCaches :=
  match call with
  | CallGmtime w => let! (_, caches) := cached_gmtime caches w in Ret caches
  | CallLocaltime w => let! (_, caches) := cached_localtime localtime caches w in Ret caches
  | CallMktime t => let '(_, _, caches) := cached_mktime mktime caches t in Ret caches
  | CallClean => Ret (clean_time_cache caches)
  end.
Fixpoint run_calls (localtime : Z -> tm) (mktime : tm -> Z * tm) (caches : TimeCaches) (calls : list time_call) : outcome TimeCaches :=
  match calls with
  | [] => Ret caches
  | call :: calls => let! caches := run_call localtime mktime caches call in run_calls localtime mktime caches calls
  end.

Lemma run_calls_ok (localtime : Z -> tm) (mktime : tm -> Z * tm) (calls : list time_call) : forall caches, caches_ok localtime mktime caches ->
  exists caches', run_calls localtime mktime caches calls = Ret caches' /\ caches_ok localtime mktime caches'.
Proof.
  induction calls as [|call calls IH]; intros caches Hc; [by exists caches|]. cbn [run_calls]. destruct call as [w|w|t|]; cbn [run_call].
  - destruct (cached_gmtime_ok localtime mktime caches w Hc) as (t & c & -> & H & _). cbn [obind]. by apply IH.
  - destruct (cached_localtime_ok localtime mktime caches w Hc) as (t & c & -> & H & _). cbn [obind]. by apply IH.
  - unfold cached_mktime. destruct (same_call t (mktime_prev_tm caches)); [by apply IH|]. destruct (mktime t) as [m t'] eqn:E. cbn [obind]. apply IH. destruct Hc as [C1 C2 _]. split; cbn; [done|done|left; by rewrite E].
  - apply IH. destruct Hc as [_ _ C3]. split; [apply cache_ok_empty|apply cache_ok_empty|done].
Qed.

(** Whatever a thread asked before, and whenever the caches were cleaned, a
    broken-down time other than that of time 0 is the one the C library gives. *)
Theorem cached_times_exact (localtime : Z -> tm) (mktime : tm -> Z * tm) (calls : list time_call) (w : Z) : w <> 0 ->
  exists caches caches1 caches2, run_calls localtime mktime initial_caches calls = Ret caches /\
    cached_gmtime caches w = Ret (gmtime w, caches1) /\ cached_localtime localtime caches w = Ret (localtime w, caches2).
Proof.
  intros Hw. destruct (run_calls_ok localtime mktime calls _ (initial_caches_ok localtime mktime)) as (caches & E & Hc).
  destruct (cached_gmtime_ok localtime mktime caches w Hc) as (t1 & c1 & E1 & _ & [->|[? _]]); [|done].
  destruct (cached_localtime_ok localtime mktime caches w Hc) as (t2 & c2 & E2 & _ & [->|[? _]] & _); [|done]. eauto 10.
Qed.
Lemma cached_times_exact_witness : exists caches caches1 caches2,
  run_calls east_localtime east_mktime initial_caches [CallGmtime 64; CallLocaltime 64; CallClean; CallGmtime 128] = Ret caches /\
  cached_gmtime caches 64 = Ret (mkTm 4 1 0 1 0 70 0 0, caches1) /\ cached_localtime east_localtime caches 64 = Ret (mkTm 4 1 1 1 0 70 0 3600, caches2).
Proof. apply (cached_times_exact east_localtime east_mktime [CallGmtime 64; CallLocaltime 64; CallClean; CallGmtime 128] 64). done. Defined.

(** Time 0 is found in the caches before it was ever asked for. *)
Example epoch_printed : fst <$> match log_stamp_format initial_caches (mkStamp 0 0 0) TS_FMT_ISO (-1) 0 with Ret r => Some r | Abort => None end =
  Some (bytes_of_string "1900-01-00T00:00:00+00:00").
Proof. vm_compute. reflexivity. Qed.

(** * Dates without a year are read back as they were written *)

(** A field of two, the first a space below ten. *)
Definition pad (v : Z) (r : bytes) : bytes := (if bool_decide (v < 10) then 32 else 48 + v / 10) :: 48 + v mod 10 :: r.
Definition month_name (mon : Z) : bytes := default [] (month_names_abbrev !! Z.to_nat mon).
Definition bsd_date (t : tm) (r : bytes) : bytes :=
  month_name (tm_mon t) ++ 32 :: pad (tm_mday t) (32 :: two (tm_hour t) (58 :: two (tm_min t) (58 :: two (tm_sec t) r))).

Lemma put_pad (v : Z) (target : bytes) : 0 <= v < 100 -> put32 2 32 v target = target ++ pad v [].
Proof.
  intros Hv. unfold put32, format_uint32_padded, pad. rewrite bool_decide_eq_true_2 by done. rewrite u32_small by lia. unfold format_uint32_base10_rev. rewrite digits_dec by apply mod10_range. cbn [pred].
  pose proof (div10_range v 10 ltac:(lia)) as Hq. case_bool.
  - rewrite (Z.div_small v), base10_zero by lia. unfold put_padded. cbn. done.
  - pose proof (div10_pos v ltac:(lia)). rewrite base10_step by lia. rewrite (Z.div_small (v / 10)), (Z.mod_small (v / 10)), base10_zero by lia. unfold put_padded. cbn. done.
Qed.

Lemma scan_space (r : bytes) (n : Z) (width : nat) (acc : Z) : 0 < n -> scan_uint32 (mkCursor (32 :: r) n) (S width) acc = scan_uint32 (mkCursor r (n - 1)) width acc.
Proof. intros Hn. cbn [scan_uint32 cur_left]. by rewrite bool_decide_eq_true_2 by lia. Qed.

Lemma scan_pad (v : Z) (r : bytes) (n : Z) : 0 <= v < 100 -> 2 <= n -> scan_int (mkCursor (pad v r) n) 2 = Ret (Some v, mkCursor r (n - 2)).
Proof.
  intros Hv Hn. unfold pad. case_bool; [|by apply scan_two_of]. unfold scan_int. rewrite scan_space, (Z.mod_small v), scan_digit by lia. cbn [scan_uint32 obind fmap option_fmap option_map].
  rewrite Z.mul_0_l, Z.add_0_l, s32_small by lia. by replace (n - 1 - 1) with (n - 2) by lia.
Qed.

Lemma month_cases_of (mon : Z) : 0 <= mon <= 11 -> (mon = 0 \/ mon = 1 \/ mon = 2 \/ mon = 3 \/ mon = 4 \/ mon = 5) \/ (mon = 6 \/ mon = 7 \/ mon = 8 \/ mon = 9 \/ mon = 10 \/ mon = 11).
Proof. lia. Qed.

Ltac each_month H := apply month_cases_of in H; destruct_or! H; subst.

Lemma month_name_ok (mon : Z) : 0 <= mon <= 11 -> month_names_abbrev !! Z.to_nat mon = Some (month_name mon) /\ length (month_name mon) = 3%nat.
Proof. intros H. each_month H; done. Qed.

Lemma scan_month (mon : Z) (r : bytes) (n : Z) : 0 <= mon <= 11 -> 3 <= n -> scan_month_abbrev (mkCursor (month_name mon ++ r) n) = Ret (true, mon, mkCursor r (n - 3)).
Proof. intros H Hn. unfold scan_month_abbrev, scan_abbrev. cbn [cur_left]. rewrite bool_decide_eq_false_2 by lia. each_month H; reflexivity. Qed.

Lemma scan_items_pad (v : Z) (r : bytes) (n : Z) (set : Z -> tm -> tm) (t : tm) (items : list date_item) : 0 <= v < 100 -> 2 <= n ->
  scan_items (mkCursor (pad v r) n) t (DInt 2 set :: items) = scan_items (mkCursor r (n - 2)) (set v t) items.
Proof. intros Hv Hn. cbn [scan_items scan_item]. by rewrite scan_pad. Qed.

Lemma scan_items_month (mon : Z) (r : bytes) (n : Z) (t : tm) (items : list date_item) : 0 <= mon <= 11 -> 3 <= n ->
  scan_items (mkCursor (month_name mon ++ r) n) t (DMonth :: items) = scan_items (mkCursor r (n - 3)) (set_mon mon t) items.
Proof. intros Hv Hn. cbn [scan_items scan_item]. by rewrite scan_month. Qed.

Lemma scan_bsd_ok (t t0 : tm) (r : bytes) (n : Z) : tm_range t -> 15 <= n ->
  scan_bsd_timestamp (mkCursor (bsd_date t r) n) t0 = Ret (true, mkCursor r (n - 15), set_year (tm_year t0) (date_of t t0)).
Proof.
  intros [R1 R2 R3 R4 R5] Hn. unfold scan_bsd_timestamp, bsd_items, hms, bsd_date. cbn [app].
  rewrite scan_items_month, scan_items_char, scan_items_pad, scan_items_char by lia. do 2 (rewrite scan_items_two, scan_items_char by lia). rewrite scan_items_two by lia. cbn [scan_items].
  replace (n - 3 - 1 - 2 - 1 - 2 - 1 - 2 - 1 - 2) with (n - 15) by lia. done.
Qed.

Lemma put_bsd (stamp : LogStamp) (z d : Z) (t : tm) : tm_range t -> put_stamp stamp [] TS_FMT_BSD z d t = Ret (bsd_date t (frac_text d (tv_usec stamp mod 1000000))).
Proof.
  intros [R1 R2 R3 R4 R5]. unfold put_stamp. change (bool_decide (TS_FMT_BSD = TS_FMT_BSD)) with true. cbn iota. destruct (month_name_ok (tm_mon t) R5) as [-> _]. cbn [obind]. unfold put_hms, put_c.
  rewrite app_nil_l, put_pad by lia. do 3 rewrite put_two by lia. unfold log_stamp_append_frac_digits. rewrite <- powers_six. unfold bsd_date, frac_text. rewrite <- !app_assoc. by case_bool.
Qed.

(** ** Which date it is *)

(** The bytes behind a date are not the year of a LinkSys date. *)
Definition no_year (r : bytes) : Prop :=
  forall a b c d e r', r = 32 :: a :: b :: c :: d :: e :: r' -> isdigit a && isdigit b && isdigit c && isdigit d && g_ascii_isspace e = false.

Lemma bsd_date_length (t : tm) (r : bytes) : tm_range t -> lenZ (bsd_date t r) = 15 + lenZ r.
Proof. intros R. unfold bsd_date, pad, two. rewrite lenZ_app, !lenZ_cons. unfold lenZ at 1. rewrite (proj2 (month_name_ok _ (tr_mon _ R))). lia. Qed.

Lemma bsd_bytes (t : tm) (r : bytes) : tm_range t -> exists a b c, month_name (tm_mon t) = [a; b; c] /\ a <> 42 /\ a <> 46 /\ bsd_date t r =
  a :: b :: c :: 32 :: pad (tm_mday t) (32 :: two (tm_hour t) (58 :: two (tm_min t) (58 :: two (tm_sec t) r))).
Proof. intros R. pose proof (tr_mon _ R) as H. unfold bsd_date. set (x := tm_mon t) in *. clearbody x. each_month H; do 3 eexists; done. Qed.

Ltac next_byte := cbn [bytes_match]; unfold peek at 1; cbn [cur_buf lookup list_lookup obind].

Lemma linksys_tail (x a b c d e : Z) (r : bytes) (cur : cursor) : no_year (x :: a :: b :: c :: d :: e :: r) ->
  peek cur 15 = Ret x -> peek cur 16 = Ret a -> peek cur 17 = Ret b -> peek cur 18 = Ret c -> peek cur 19 = Ret d -> peek cur 20 = Ret e ->
  bytes_match cur [(15%nat, isc 32); (16%nat, isdigit); (17%nat, isdigit); (18%nat, isdigit); (19%nat, isdigit); (20%nat, g_ascii_isspace)] = Ret false.
Proof.
  intros Hy P15 P16 P17 P18 P19 P20. cbn [bytes_match]. rewrite P15. cbn [obind]. unfold isc. case_bool; [|done]. subst x. specialize (Hy _ _ _ _ _ _ eq_refl).
  rewrite P16. cbn [obind]. destruct (isdigit a); [|done]. rewrite P17. cbn [obind]. destruct (isdigit b); [|done]. rewrite P18. cbn [obind]. destruct (isdigit c); [|done].
  rewrite P19. cbn [obind]. destruct (isdigit d); [|done]. rewrite P20. cbn [obind]. cbn [andb] in Hy. by rewrite Hy.
Qed.

Lemma bsd_recognized (t : tm) (r : bytes) (n : Z) : tm_range t -> no_year r -> 15 <= n <= lenZ (bsd_date t r) -> let c := mkCursor (bsd_date t r) n in
  __is_iso_stamp c = Ret false /\ __is_bsd_pis_or_asa c = Ret false /\ __is_bsd_linksys c = Ret false /\ __is_bsd_rfc_3164 c = Ret true.
Proof.
  intros R Hy Hn c. pose proof (bsd_date_length t r R) as Hl. pose proof (lenZ_nonneg r). subst c. rewrite Hl in Hn. destruct (bsd_bytes t r R) as (a & b & e & _ & _ & _ & ->). destruct R as [R1 R2 R3 R4 R5].
  unfold pad, two. pose proof (mod10_range (tm_mday t)). pose proof (div10_range (tm_min t) 10 ltac:(lia)). set (p := if bool_decide (tm_mday t < 10) then 32 else 48 + tm_mday t / 10).
  assert (D1 : isc 45 (p) = false) by (apply bool_decide_eq_false_2; unfold p; pose proof (div10_range (tm_mday t) 10 ltac:(lia)); case_bool; lia).
  assert (D2 : isc 32 (48 + tm_min t mod 10) = false) by (apply bool_decide_eq_false_2; pose proof (mod10_range (tm_min t)); lia).
  split_and!; [unfold __is_iso_stamp|unfold __is_bsd_pis_or_asa|unfold __is_bsd_linksys|unfold __is_bsd_rfc_3164]; cbn [cur_left]; (case_bool; [|done || lia]).
  - next_byte. by rewrite D1.
  - next_byte. next_byte. next_byte. by rewrite D2.
  - do 4 next_byte. change (isc 32 32) with true. change (isc 58 58) with true. cbn iota.
    destruct r as [|x1 [|x2 [|x3 [|x4 [|x5 [|x6 r]]]]]]; repeat rewrite lenZ_cons in *; try (change (lenZ (@nil Z)) with 0 in *; lia). by apply linksys_tail with x1 x2 x3 x4 x5 x6 r.
  - done.
Qed.

Lemma determine_year_ok (t now : tm) : 0 <= tm_mon t <= 11 -> 0 <= tm_mon now <= 11 -> Z.abs (12 * (tm_year now - tm_year t) + tm_mon now - tm_mon t) <= 1 ->
  determine_year_for_month (tm_mon t) now = tm_year t.
Proof. intros H1 H2 H. unfold determine_year_for_month. repeat case_bool; lia. Qed.

(** ** Reading it *)

Section host.
Context (localtime : Z -> tm) (mktime : tm -> Z * tm) (now : Z).

Lemma normalize_assume (stamp : LogStamp) (t : tm) (assume : Z) (caches : TimeCaches) : zone_offset stamp = -1 -> assume <> -1 ->
  _normalize_time localtime mktime stamp t assume caches = _normalize_time localtime mktime (set_zone stamp assume) t assume caches.
Proof.
  intros Hs Ha. unfold _normalize_time. destruct (cached_mktime mktime caches (set_isdst (-1) t)) as [[m t'] caches']. unfold __calculate_correct_time. cbn [tv_sec set_tv_sec set_zone tv_usec zone_offset].
  destruct (get_local_timezone_ofs localtime caches' m) as [[ofs c]|]; [|done]. cbn [obind]. rewrite Hs. rewrite (bool_decide_eq_true_2 (-1 = -1)) by done. by rewrite !(bool_decide_eq_false_2 (assume = -1)).
Qed.

Lemma parse_date_bsd (self : LogMessage) (flags assume : Z) (t : tm) (d u b : Z) (r : bytes) (n : Z) (caches : TimeCaches) : 0 <= n <= lenZ (b :: r) ->
  tm_range t -> 0 <= u < 1000000 -> isdigit b = false -> b <> 46 -> (d > 0 \/ no_year (b :: r)) -> has_flag flags LP_NO_PARSE_DATE = false -> has_flag flags LP_SYSLOG_PROTOCOL = false ->
  caches_ok localtime mktime caches -> now <> 0 -> determine_year_for_month (tm_mon t) (localtime now) = tm_year t ->
  let text := bsd_date t (frac_text d u ++ b :: r) in
  exists caches1, caches_ok localtime mktime caches1 /\ mktime_prev_tm caches1 = mktime_prev_tm caches /\
    log_msg_parse_date localtime mktime now self flags assume (mkCursor text (15 + lenZ (frac_text d u) + n)) caches =
    let! (stamp, caches) := _normalize_time localtime mktime (set_usec (lm_stamp self) (kept d u)) (date_of t (localtime now)) assume caches1 in
    Ret (Some (mkCursor (b :: r) n), mkMessage (lm_pri self) (lm_flags self) stamp (lm_recvd self) (lm_values self ++ [(bytes_of_string ".SDATA.timeQuality.isSynced", bytes_of_string "0")]), caches).
Proof.
  intros HL Ht Hu Hb Hdot Hy Hf Hp Hc Hn Hyear text. assert (Hlen : lenZ text = 15 + (lenZ (frac_text d u) + lenZ (b :: r))) by (unfold text; rewrite bsd_date_length, lenZ_app by done; lia).
  pose proof (lenZ_nonneg (frac_text d u)). set (L := 15 + lenZ (frac_text d u) + n) in *. assert (HL2 : L = 15 + lenZ (frac_text d u) + n) by done. clearbody L.
  destruct (bsd_recognized t (frac_text d u ++ b :: r) L Ht) as (I1 & I2 & I3 & I4).
  { unfold frac_text. destruct Hy as [Hd|Hy]; case_bool; try done; try lia; intros ? ? ? ? ? ? [=]. }
  { fold text. lia. }
  fold text in I1, I2, I3, I4. unfold log_msg_parse_date, log_msg_parse_date_unnormalized, _parse_date_is_synced. rewrite Hf, Hp.
  destruct (bsd_bytes t (frac_text d u ++ b :: r) Ht) as (x1 & x2 & x3 & _ & N1 & N2 & Eb). fold text in Eb. unfold peek at 1. replace (cur_buf (mkCursor text L) !! 0%nat) with (Some x1) by (cbn; by rewrite Eb). cbn [obind].
  replace (isc 42 x1) with false by (symmetry; by apply bool_decide_eq_false_2). replace (isc 46 x1) with false by (symmetry; by apply bool_decide_eq_false_2). cbn [orb]. rewrite I1. cbn [obind negb].
  unfold __parse_bsd_timestamp. rewrite I2. cbn [obind]. rewrite I3. cbn [obind]. rewrite I4. cbn [obind].
  destruct (cached_localtime_ok localtime mktime caches now Hc) as (t0 & caches1 & E & Hc1 & [->|[? _]] & Hpr & _); [|done]. rewrite E. cbn [obind]. unfold text at 1. rewrite scan_bsd_ok by (done || lia). cbn [obind negb].
  rewrite parse_usec_ok; [|done|done|intros r'; by intros [= -> ->]|lia]. cbn [obind]. exists caches1. split_and!; [done|done|].
  unfold log_msg_set_value. rewrite !not_in_header by done. unfold set_stamp, set_values, set_usec. cbn [lm_pri lm_flags lm_stamp lm_recvd lm_values tv_sec tv_usec zone_offset]. change (tm_mon (set_year (tm_year (localtime now)) (date_of t (localtime now)))) with (tm_mon t). rewrite Hyear.
  change (set_year (tm_year t) (set_year (tm_year (localtime now)) (date_of t (localtime now)))) with (date_of t (localtime now)).
  replace (L - 15 - lenZ (frac_text d u)) with n by lia. destruct (_normalize_time _ _ _ _ _ _) as [[stamp caches2]|]; done.
Qed.
End host.

(** C25: A stamp printed in the traditional format, which has neither year nor zone,
    is read back as the same time within a month of it, when the reader assumes
    the zone it was printed in. *)
Theorem bsd_stamp_roundtrip (localtime : Z -> tm) (mktime : tm -> Z * tm) (now : Z) (stamp : LogStamp) (z d k b flags : Z) (r : bytes) (self : LogMessage) (caches1 caches2 : TimeCaches) :
  let w := tv_sec stamp + z in
  caches_ok localtime mktime caches1 -> caches_ok localtime mktime caches2 -> w <> 0 -> z <> -1 -> zone_offset (lm_stamp self) = -1 ->
  now <> 0 -> 0 <= tm_mon (localtime now) <= 11 -> Z.abs (12 * (tm_year (localtime now) - tm_year (gmtime w)) + tm_mon (localtime now) - tm_mon (gmtime w)) <= 1 ->
  (forall g, mktime_at localtime mktime (meant w g) k) -> (k <> 0 -> same_call (meant w 0) (mktime_prev_tm caches2) = false) ->
  isdigit b = false -> b <> 46 -> (d > 0 \/ no_year (b :: r)) -> has_flag flags LP_NO_PARSE_DATE = false -> has_flag flags LP_SYSLOG_PROTOCOL = false ->
  exists text caches1' caches2' values,
    log_stamp_format caches1 stamp TS_FMT_BSD z d = Ret (text, caches1') /\
    log_msg_parse_date localtime mktime now self flags z (mkCursor (text ++ b :: r) (lenZ (text ++ b :: r))) caches2 =
      Ret (Some (mkCursor (b :: r) (lenZ (b :: r))), mkMessage (lm_pri self) (lm_flags self) (mkStamp (tv_sec stamp) (kept d (tv_usec stamp mod 1000000)) z) (lm_recvd self) values, caches2').
Proof.
  intros w H1 H2 Hw Hz Hs Hn Hm1 Hm2 Hm Hk Hb Hdot Hy Hf Hp. destruct (cached_gmtime_ok localtime mktime caches1 w H1) as (t & c1 & E1 & _ & [->|[? _]]); [|done]. pose proof (gmtime_range w) as R.
  unfold log_stamp_format, log_stamp_append_format. rewrite (bool_decide_eq_true_2 (z <> -1)) by done. fold w. rewrite E1. cbn [obind]. rewrite put_bsd by done. cbn [obind].
  pose proof (Z.mod_pos_bound (tv_usec stamp) 1000000 ltac:(done)) as Hu. pose proof (determine_year_ok _ _ (tr_mon _ R) Hm1 Hm2) as Hyear.
  destruct (parse_date_bsd localtime mktime now self flags z (gmtime w) d _ b r (lenZ (b :: r)) caches2 ltac:(pose proof (lenZ_nonneg (b :: r)); lia) R Hu Hb Hdot Hy Hf Hp H2 Hn Hyear) as (c2 & Hc2 & Hpr & E).
  rewrite normalize_assume in E by done. destruct (normalize_ok localtime mktime (set_zone (set_usec (lm_stamp self) (kept d (tv_usec stamp mod 1000000))) z) (localtime now) w k z c2) as (c3 & E3 & _); [done|done|by rewrite Hpr|done|].
  do 4 eexists. split; [done|]. replace (15 + lenZ (frac_text d (tv_usec stamp mod 1000000)) + lenZ (b :: r)) with (lenZ (bsd_date (gmtime w) (frac_text d (tv_usec stamp mod 1000000) ++ b :: r))) in E by (rewrite bsd_date_length, lenZ_app by done; lia). unfold bsd_date in *. rewrite <- !app_assoc in *. rewrite E3 in E. cbn [obind set_zone set_usec zone_offset tv_usec] in E. replace (w - z) with (tv_sec stamp) in E by (unfold w; lia). exact E.
Qed.

Lemma bsd_stamp_roundtrip_witness : exists text caches1' caches2' values,
  log_stamp_format initial_caches (mkStamp 951825296 120345 7200) TS_FMT_BSD 3600 0 = Ret (text, caches1') /\
  log_msg_parse_date east_localtime east_mktime 951829999 (mkMessage 0 0 (mkStamp 0 0 (-1)) (mkStamp 0 0 0) []) 0 3600 (mkCursor (text ++ 32 :: bytes_of_string "host") (lenZ (text ++ 32 :: bytes_of_string "host"))) initial_caches =
    Ret (Some (mkCursor (32 :: bytes_of_string "host") 5), mkMessage 0 0 (mkStamp 951825296 0 3600) (mkStamp 0 0 0) values, caches2').
Proof.
  apply (bsd_stamp_roundtrip east_localtime east_mktime 951829999 (mkStamp 951825296 120345 7200) 3600 0 0 32 0 (bytes_of_string "host") (mkMessage 0 0 (mkStamp 0 0 (-1)) (mkStamp 0 0 0) []) initial_caches initial_caches);
    [apply initial_caches_ok|apply initial_caches_ok|done|done|done|done|vm_compute; by split|by vm_compute|intros g; by apply east_mktime_at|done|done|done|right; intros ? ? ? ? ? ? [=]|done|done].
Defined.
