(* ===== verification/SyslogFormat.v ===== *)
(** * Parsing syslog messages (modules/syslogformat/syslog-format.c)

    The parser of the traditional format and of RFC 5424.  A message is the
    memory from its first byte on, with what lies behind it, and a length; a
    parser moves a cursor over it.  Reading outside that memory, and a string
    without an end, is [Abort].  The version, the priority and the lengths are
    [int]s. *)
From S2P Require Import Prelude StrFormat TimeStamp Buffer SyslogDate.

Definition LP_NOPARSE : Z := 0x0001.
Definition LP_CHECK_HOSTNAME : Z := 0x0002.
Definition LP_ASSUME_UTF8 : Z := 0x0008.
Definition LP_VALIDATE_UTF8 : Z := 0x0010.
Definition LP_NO_MULTI_LINE : Z := 0x0020.
Definition LP_STORE_LEGACY_MSGHDR : Z := 0x0040.
Definition LP_EXPECT_HOSTNAME : Z := 0x0080.
Definition LP_LOCAL : Z := 0x0100.
Definition LP_FALLBACK_NOPARSE : Z := 0x0800.

Definition LF_UTF8 : Z := 0x0001.
Definition LF_INTERNAL : Z := 0x0002.
Definition LF_LOCAL : Z := 0x0004.

Definition LM_V_HOST := bytes_of_string "HOST".
Definition LM_V_MESSAGE := bytes_of_string "MESSAGE".
Definition LM_V_PROGRAM := bytes_of_string "PROGRAM".
Definition LM_V_PID := bytes_of_string "PID".
Definition LM_V_MSGID := bytes_of_string "MSGID".
Definition LM_V_LEGACY_MSGHDR := bytes_of_string "LEGACY_MSGHDR".

Definition add_flag (self : LogMessage) (f : Z) : LogMessage := set_flags self (Z.lor (lm_flags self) f).

(** ** Memory *)

(** A string up to its zero byte. *)
Fixpoint c_string (buf : bytes) : outcome bytes :=
  match buf with
  | [] => Abort
  | b :: buf => if bool_decide (b = 0) then Ret [] else let! s := c_string buf in Ret (b :: s)
  end.
(** The value of a pointer and a length; a negative length stands for [strlen]. *)
Definition read_value (buf : bytes) (len : Z) : outcome bytes :=
  if bool_decide (len < 0) then c_string buf
  else if bool_decide (len <= lenZ buf) then Ret (take (Z.to_nat len) buf) else Abort.
Definition store_value (self : LogMessage) (name buf : bytes) (len : Z) : outcome LogMessage :=
  let! value := read_value buf len in Ret (log_msg_set_value self name value).

(** [while (left && p( *src)) { src++; left--; }] *)
Fixpoint skip_while (p : Z -> bool) (buf : bytes) (left : Z) : outcome cursor :=
  if bool_decide (left = 0) then Ret (mkCursor buf left)
  else match buf with
       | [] => Abort
       | b :: rest => if p b then skip_while p rest (left - 1) else Ret (mkCursor buf left)
       end.

(** [strchr] finds the terminator as well. *)
Definition in_chars (chars : bytes) (b : Z) : bool := bool_decide (b ∈ chars \/ b = 0).

(** [memchr] with a length that is converted to [size_t]. *)
Fixpoint memchr_loop (buf : bytes) (c n : Z) (at_ : nat) : outcome (option nat) :=
  if bool_decide (n <= 0) then Ret None
  else match buf with
       | [] => Abort
       | b :: buf => if bool_decide (b = c) then Ret (Some at_) else memchr_loop buf c (n - 1) (S at_)
       end.
Definition memchr (buf : bytes) (c left : Z) : outcome (option nat) := memchr_loop buf c (u64 left) 0.

(** [*src == v], when anything is [left]. *)
Definition left_and (c : cursor) (v : Z) : outcome bool :=
  if bool_decide (cur_left c = 0) then Ret false else let! b := peek c 0 in Ret (isc v b).
(** The same with [left > 0]. *)
Definition left_pos_and (c : cursor) (v : Z) : outcome bool :=
  if bool_decide (cur_left c > 0) then let! b := peek c 0 in Ret (isc v b) else Ret false.

(** ** The parts of a header *)

Fixpoint pri_loop (buf : bytes) (left pri : Z) : outcome (option (Z * cursor)) :=
  if bool_decide (left = 0) then Ret (Some (pri, mkCursor buf left))
  else match buf with
       | [] => Abort
       | b :: rest =>
           if isc 62 b then Ret (Some (pri, mkCursor buf left))
           else if isdigit b then pri_loop rest (left - 1) (s32 (pri * 10 + (b - 48)))
           else Ret None
       end.

(** [user_notice] is [EVT_FAC_USER | EVT_PRI_NOTICE] of the event library. *)
Definition log_msg_parse_pri (user_notice : Z) (self : LogMessage) (c : cursor) (default_pri : Z) : outcome (option (LogMessage * cursor)) :=
  let! open := left_and c 60 in
  if open : bool then
    let c := advance c 1 in
    let! r := pri_loop (cur_buf c) (cur_left c) 0 in
    match r with
    | None => Ret None
    | Some (pri, c) => Ret (Some (set_pri self (u16 pri), if bool_decide (cur_left c = 0) then c else advance c 1))
    end
  else Ret (Some (set_pri self (if bool_decide (default_pri <> 0xFFFF) then default_pri else user_notice), c)).

(** The number of bytes skipped is the difference of the lengths. *)
Fixpoint skip_chars_loop (chars buf : bytes) (left max_len : Z) : outcome cursor :=
  if bool_decide (max_len = 0 \/ left = 0) then Ret (mkCursor buf left)
  else match buf with
       | [] => Abort
       | b :: rest => if in_chars chars b then skip_chars_loop chars rest (left - 1) (if bool_decide (max_len >= 0) then max_len - 1 else max_len) else Ret (mkCursor buf left)
       end.
Definition log_msg_parse_skip_chars (c : cursor) (chars : bytes) (max_len : Z) : outcome cursor := skip_chars_loop chars (cur_buf c) (cur_left c) max_len.
Definition log_msg_parse_skip_chars_until (c : cursor) (delims : bytes) : outcome cursor := skip_while (fun b => negb (in_chars delims b)) (cur_buf c) (cur_left c).

Definition log_msg_parse_skip_space (c : cursor) : outcome (bool * cursor) :=
  let! space := left_pos_and c 32 in Ret (if space : bool then (true, advance c 1) else (false, c)).

Definition log_msg_parse_column (self : LogMessage) (name : bytes) (c : cursor) (max_length : Z) : outcome (LogMessage * cursor) :=
  let! space := memchr (cur_buf c) 32 (cur_left c) in
  let! end_ := match space with
               | Some i => Ret (advance c i)
               | None => if bool_decide (0 <= cur_left c <= lenZ (cur_buf c)) then Ret (mkCursor (drop (Z.to_nat (cur_left c)) (cur_buf c)) 0) else Abort
               end in
  let len := cur_left c - cur_left end_ in
  if bool_decide (cur_left end_ = 0) then Ret (self, end_)
  else
    let! dash := (if bool_decide (len > 1) then Ret false else let! b := peek c 0 in Ret (isc 45 b)) in
    if dash : bool then Ret (self, end_)
    else let! self := store_value self name (cur_buf c) (Z.min len max_length) in Ret (self, end_).

(** Digits up to a colon: the loop, and what follows it. *)
Fixpoint seq_loop (buf : bytes) (left : Z) : outcome (option cursor) :=
  if bool_decide (left = 0) then Ret (Some (mkCursor buf left))
  else match buf with
       | [] => Abort
       | b :: rest => if isc 58 b then Ret (Some (mkCursor buf left)) else if isdigit b then seq_loop rest (left - 1) else Ret None
       end.
Definition log_msg_parse_seq (self : LogMessage) (c : cursor) : outcome (LogMessage * cursor) :=
  let! r := seq_loop (cur_buf c) (cur_left c) in
  match r with
  | None => Ret (self, c)
  | Some c1 =>
      let c1 := advance c1 1 in
      let! b := peek c1 0 in
      if negb (isc 32 b) then Ret (self, c)
      else let! self := store_value self (bytes_of_string ".SDATA.meta.sequenceId") (cur_buf c) (cur_left c - cur_left c1 - 1) in Ret (self, c1)
  end.

Fixpoint version_loop (buf : bytes) (left version : Z) : outcome (option (Z * cursor)) :=
  if bool_decide (left = 0) then Ret (Some (version, mkCursor buf left))
  else match buf with
       | [] => Abort
       | b :: rest =>
           if isc 32 b then Ret (Some (version, mkCursor buf left))
           else if isdigit b then version_loop rest (left - 1) (s32 (version * 10 + (b - 48)))
           else Ret None
       end.
Definition log_msg_parse_version (c : cursor) : outcome (option cursor) :=
  let! r := version_loop (cur_buf c) (cur_left c) 0 in
  Ret (match r with Some (version, c) => if bool_decide (version <> 1) then None else Some c | None => None end).

Definition step_if (v : Z) (c : cursor) : outcome cursor := let! b := left_pos_and c v in Ret (if b : bool then advance c 1 else c).

Definition log_msg_parse_legacy_program_name (self : LogMessage) (c : cursor) (flags : Z) : outcome (LogMessage * cursor) :=
  let! e := skip_while (fun b => negb (isc 32 b || isc 91 b || isc 58 b)) (cur_buf c) (cur_left c) in
  let! self := store_value self LM_V_PROGRAM (cur_buf c) (cur_left c - cur_left e) in
  let! bracket := left_pos_and e 91 in
  let! (self, e) :=
    (if bracket : bool then
       let pid := advance e 1 in
       let! e := skip_while (fun b => negb (isc 32 b || isc 93 b || isc 58 b)) (cur_buf e) (cur_left e) in
       let! self := (if bool_decide (cur_left e = 0) then Ret self else store_value self LM_V_PID (cur_buf pid) (cur_left pid - cur_left e)) in
       let! e := step_if 93 e in
       Ret (self, e)
     else Ret (self, e)) in
  let! e := step_if 58 e in
  let! e := step_if 32 e in
  if has_flag flags LP_STORE_LEGACY_MSGHDR then
    let! self := store_value self LM_V_LEGACY_MSGHDR (cur_buf c) (cur_left c - cur_left e) in
    Ret (add_flag self LF_LEGACY_MSGHDR, e)
  else Ret (self, e).

(** ** Host names *)

Definition valid_hostname_char (i : Z) : bool :=
  bool_decide (65 <= i <= 90 \/ 97 <= i <= 122 \/ 48 <= i <= 57 \/ i = 45 \/ i = 95 \/ i = 46 \/ i = 58 \/ i = 64 \/ i = 47).

(** The table of thirty-two bytes; the index is as in the source. *)
Definition mark_invalid (table : bytes) (i : Z) : bytes :=
  if valid_hostname_char i then table else alter (fun b => u8 (Z.lor b (Z.shiftl 1 (i mod 8)))) (Z.to_nat (Z.shiftr i 8)) table.
Definition _init_parse_hostname_invalid_chars (table : bytes) : bytes :=
  match table !! 0%nat with
  | Some b => if bool_decide (Z.land b 1 = 0) then alter (fun b => Z.lor b 1) 0%nat (foldl mark_invalid table (seqZ 0 256)) else table
  | None => table
  end.
Definition invalid_chars : bytes := _init_parse_hostname_invalid_chars (replicate 32 0).

Definition char_invalid (b : Z) : outcome bool :=
  match invalid_chars !! Z.to_nat (Z.shiftr b 8) with
  | Some x => Ret (bool_decide (Z.land x (Z.shiftl 1 (b mod 8)) <> 0))
  | None => Abort
  end.

(** The loop; the characters go to a buffer of 256 bytes. *)
Fixpoint hostname_loop (flags : Z) (buf : bytes) (left : Z) (hostname_buf : bytes) : outcome (bytes * cursor) :=
  if bool_decide (left = 0) then Ret (hostname_buf, mkCursor buf left)
  else match buf with
       | [] => Abort
       | b :: rest =>
           if negb (isc 32 b || isc 58 b || isc 91 b) && bool_decide (lenZ hostname_buf < 255) then
             let! bad := (if has_flag flags LP_CHECK_HOSTNAME then char_invalid b else Ret false) in
             if bad : bool then Ret (hostname_buf, mkCursor buf left) else hostname_loop flags rest (left - 1) (hostname_buf ++ [b])
           else Ret (hostname_buf, mkCursor buf left)
       end.

(** [bad_hostname] tells whether the expression matches a string. *)
Definition log_msg_parse_hostname (c : cursor) (flags : Z) (bad_hostname : option (bytes -> bool)) : outcome (option (bytes * Z) * cursor) :=
  let! (hostname_buf, e) := hostname_loop flags (cur_buf c) (cur_left c) [] in
  let! space := left_and e 32 in
  let! name := c_string (hostname_buf ++ [0]) in
  if space && match bad_hostname with None => true | Some re => negb (re name) end then
    Ret (Some (cur_buf c, Z.min (cur_left c - cur_left e) 255), e)
  else Ret (None, c).

(** ** Structured data *)

Record MsgFormatOptions := mkOptions {
  mo_flags : Z;
  mo_default_pri : Z;
  mo_recv_ofs : Z;                        (* time_zone_info_get_offset(recv_time_zone_info) *)
  mo_bad_hostname : option (bytes -> bool);
  mo_sdata_param_value_max : Z
}.

Definition isascii (b : Z) : bool := bool_decide (b < 128).
(** A character of a name. *)
Definition sd_name_char (b : Z) : bool := isascii b && negb (isc 61 b || isc 32 b || isc 93 b || isc 34 b).

(** Names of at most 32 characters, up to a character of [stops]; a failure
    leaves the cursor where it was found. *)
Fixpoint sd_name_loop (stops : Z -> bool) (buf : bytes) (left : Z) (name : bytes) : outcome (option bytes * cursor) :=
  if bool_decide (left = 0) then Ret (Some name, mkCursor buf left)
  else match buf with
       | [] => Abort
       | b :: rest =>
           if stops b then Ret (Some name, mkCursor buf left)
           else if bool_decide (lenZ name < 32) && sd_name_char b then sd_name_loop stops rest (left - 1) (name ++ [b])
           else Ret (None, mkCursor buf left)
       end.

(** [strncpy]: up to a zero byte, and zeros behind. *)
Definition strncpy (src : bytes) (n : nat) : bytes :=
  let s := match c_string (src ++ [0]) with Ret s => s | Abort => [] end in take n (s ++ replicate n 0).

Definition sd_prefix : bytes := bytes_of_string ".SDATA.".
(** [sd_value_name], an array of 66 bytes: with the name of an element, with the
    dot behind it, with the name of a parameter. *)
Definition name_of_id (id : bytes) : bytes := sd_prefix ++ strncpy id 59.
Definition with_dot (value_name id : bytes) : bytes := <[(7 + length id)%nat := 46]> value_name.
Definition with_param (value_name id param : bytes) : bytes := take (8 + length id) value_name ++ strncpy param (58 - length id).

(** The value of a parameter behind its opening quote. *)
Fixpoint sd_value_loop (max_size : Z) (buf : bytes) (left : Z) (quote : bool) (value : bytes) : outcome (option bytes * cursor) :=
  if bool_decide (left = 0) then Ret (Some value, mkCursor buf left)
  else match buf with
       | [] => Abort
       | b :: rest =>
           if isc 34 b && negb quote then Ret (Some value, mkCursor buf left)
           else if negb quote && isc 92 b then sd_value_loop max_size rest (left - 1) true value
           else
             let room (v : bytes) := bool_decide (lenZ v < max_size - 1) in
             if quote && negb (isc 34 b) && negb (isc 93 b) && negb (isc 92 b) && room value then
               let value := value ++ [92] in
               sd_value_loop max_size rest (left - 1) false (if room value then value ++ [b] else value)
             else if negb quote && isc 93 b then Ret (None, mkCursor buf left)
             else sd_value_loop max_size rest (left - 1) false (if room value then value ++ [b] else value)
       end.

(** A step over an expected character. *)
Definition expect (v : Z) (c : cursor) : outcome (bool * cursor) := let! b := left_and c v in Ret (if b : bool then (true, advance c 1) else (false, c)).

(** One parameter, from the space before it. *)
Definition sd_param (max_size : Z) (value_name id : bytes) (self : LogMessage) (c : cursor) : outcome (bool * bytes * LogMessage * cursor) :=
  let fail self c := Ret (false, value_name, self, c) in
  let! (ok, c) := expect 32 c in
  if negb ok then fail self c
  else
    let! b := peek c 0 in
    if negb (sd_name_char b) then fail self c
    else
      let! (param, c) := sd_name_loop (isc 61) (cur_buf c) (cur_left c) [] in
      match param with
      | None => fail self c
      | Some param =>
          let value_name := with_param value_name id param in
          let! (ok, c) := expect 61 c in
          if negb ok then fail self c
          else
            let! (ok, c) := expect 34 c in
            if negb ok then fail self c
            else
              let! (value, c) := sd_value_loop max_size (cur_buf c) (cur_left c) false [] in
              match value with
              | None => fail self c
              | Some value =>
                  let! (ok, c) := expect 34 c in
                  if negb ok then fail self c
                  else let! name := c_string value_name in Ret (true, value_name, log_msg_set_value self name value, c)
              end
      end.

(** [while (left && *src != ']')] *)
Fixpoint sd_params (fuel : nat) (max_size : Z) (value_name id : bytes) (self : LogMessage) (c : cursor) : outcome (bool * LogMessage * cursor) :=
  let! close := left_and c 93 in
  if bool_decide (cur_left c = 0) || close then Ret (true, self, c)
  else match fuel with
       | O => Abort
       | S fuel =>
           let! (ok, value_name, self, c) := sd_param max_size value_name id self c in
           if ok : bool then sd_params fuel max_size value_name id self c else Ret (false, self, c)
       end.

(** One element, behind its opening bracket and up to the bracket behind it. *)
Definition sd_element (max_size : Z) (self : LogMessage) (c : cursor) : outcome (bool * LogMessage * cursor) :=
  let! b := peek c 0 in
  if negb (sd_name_char b) then Ret (false, self, c)
  else
    let! (id, c) := sd_name_loop (fun b => isc 32 b || isc 93 b) (cur_buf c) (cur_left c) [] in
    match id with
    | None => Ret (false, self, c)
    | Some [] => Ret (false, self, c)
    | Some id =>
        let! b := peek c 0 in
        let! (self, value_name) :=
          (if isc 93 b then let! name := c_string (name_of_id id) in Ret (log_msg_set_value self name [], name_of_id id)
           else Ret (self, with_dot (name_of_id id) id)) in
        let! (ok, self, c) := sd_params (S (length (cur_buf c))) max_size value_name id self c in
        if ok : bool then let! (ok, c) := expect 93 c in Ret (ok, self, c) else Ret (false, self, c)
    end.

(** The elements: the loop goes on when another one was opened and bytes are left. *)
Fixpoint sd_elements (fuel : nat) (max_size : Z) (self : LogMessage) (c : cursor) : outcome (bool * LogMessage * cursor) :=
  match fuel with
  | O => Abort
  | S fuel =>
      let! (ok, self, c) := sd_element max_size self c in
      if ok : bool then
        let! (open, c) := expect 91 c in
        if open && bool_decide (cur_left c <> 0) then sd_elements fuel max_size self c else Ret (true, self, c)
      else Ret (false, self, c)
  end.

Definition log_msg_parse_sd (self : LogMessage) (c : cursor) (options : MsgFormatOptions) : outcome (bool * LogMessage * cursor) :=
  let! nil_value := left_and c 45 in
  if nil_value : bool then Ret (true, self, advance c 1)
  else
    let! (open, c) := expect 91 c in
    if open : bool then sd_elements (S (length (cur_buf c))) (mo_sdata_param_value_max options + 1) self c else Ret (true, self, c).

(** ** Messages *)

Definition aix_fwd_string : bytes := bytes_of_string "Message forwarded from ".
Definition repeat_msg_string : bytes := bytes_of_string "last message repeated".
Definition BOM : bytes := [0xEF; 0xBB; 0xBF].
Definition LOG_FACMASK : Z := 0x03f8.
Definition LOG_KERN : Z := 0.
Definition LOG_SYSLOG : Z := 5 * 8.
Definition LOG_ERR : Z := 3.

(** [left >= n && !memcmp(src, s, ...)] with a length that counts as unsigned
    when [n] is a [sizeof]. *)
Definition looks_at (c : cursor) (n : Z) (s : bytes) : outcome bool :=
  if bool_decide (n <= u64 (cur_left c)) then
    if bool_decide (lenZ s <= lenZ (cur_buf c)) then Ret (bool_decide (take (length s) (cur_buf c) = s)) else Abort
  else Ret false.

Section parser.
Context (localtime : Z -> tm) (mktime : tm -> Z * tm) (now : Z).
Context (user_notice pid : Z) (g_utf8_validate : bytes -> bool).

Definition validate (self : LogMessage) (flags : Z) (c : cursor) : outcome LogMessage :=
  if has_flag flags LP_VALIDATE_UTF8 then
    let! text := read_value (cur_buf c) (cur_left c) in Ret (if g_utf8_validate text then add_flag self LF_UTF8 else self)
  else Ret self.

(** Behind the date: the host, and the program. *)
Definition legacy_header (options : MsgFormatOptions) (self : LogMessage) (c : cursor) : outcome (LogMessage * cursor) :=
  let flags := mo_flags options in
  let! c := log_msg_parse_skip_chars c [32] (-1) in
  let! aix := looks_at c (lenZ aix_fwd_string) aix_fwd_string in
  let! (host, c) :=
    (if aix : bool then
       let c := advance c (length aix_fwd_string) in
       let! e := log_msg_parse_skip_chars_until c [58] in
       let! e' := log_msg_parse_skip_chars e [32; 58] (-1) in
       Ret (Some (cur_buf c, cur_left c - cur_left e), e')
     else Ret (None, c)) in
  let! repeated := looks_at c (lenZ repeat_msg_string + 1) repeat_msg_string in
  let! (host, self, c) :=
    (if repeated : bool then Ret (host, self, c)
     else
       let! (host, c) :=
         match host with
         | None =>
             if has_flag flags LP_EXPECT_HOSTNAME then
               let! (host, c) := log_msg_parse_hostname c flags (mo_bad_hostname options) in
               let! c := log_msg_parse_skip_chars c [32] (-1) in
               Ret (host, c)
             else Ret (None, c)
         | Some _ => Ret (host, c)
         end in
       let! (self, c) := log_msg_parse_legacy_program_name self c flags in
       Ret (host, self, c)) in
  match host with
  | Some (start, len) => let! self := store_value self LM_V_HOST start len in Ret (self, c)
  | None => Ret (self, c)
  end.

(** Without a date. *)
Definition legacy_no_date (options : MsgFormatOptions) (self : LogMessage) (c : cursor) : outcome (LogMessage * cursor) :=
  let! (self, c) :=
    (if negb (has_flag (lm_flags self) LF_INTERNAL) && bool_decide (Z.land (lm_pri self) LOG_FACMASK = LOG_KERN) then
       Ret (log_msg_set_value self LM_V_PROGRAM (bytes_of_string "kernel"), c)
     else if negb (has_flag (mo_flags options) LP_FALLBACK_NOPARSE) then log_msg_parse_legacy_program_name self c (mo_flags options)
     else Ret (self, c)) in
  Ret (set_stamp self (lm_recvd self), c).

(** A failure has the position of the problem. *)
Definition log_msg_parse_legacy (options : MsgFormatOptions) (data : cursor) (self : LogMessage) (caches : TimeCaches) : outcome (LogMessage * option Z * TimeCaches) :=
  let! r := log_msg_parse_pri user_notice self data (mo_default_pri options) in
  match r with
  | None => Ret (self, Some 0, caches)
  | Some (self, c) =>
      let! (self, c) := log_msg_parse_seq self c in
      let! c := log_msg_parse_skip_chars c [32] (-1) in
      let! (date, self, caches) := log_msg_parse_date localtime mktime now self (Z.ldiff (mo_flags options) LP_SYSLOG_PROTOCOL) (mo_recv_ofs options) c caches in
      let! (self, c) := match date with
                        | Some c => legacy_header options self c
                        | None => legacy_no_date options self c
                        end in
      let! self := store_value self LM_V_MESSAGE (cur_buf c) (cur_left c) in
      let! self := validate self (mo_flags options) c in
      Ret (self, None, caches)
  end.

(** Columns, each with the space behind it. *)
Fixpoint parse_columns (self : LogMessage) (c : cursor) (columns : list (bytes * Z)) : outcome (bool * LogMessage * cursor) :=
  match columns with
  | [] => Ret (true, self, c)
  | (name, max_length) :: columns =>
      let! (self, c) := log_msg_parse_column self name c max_length in
      let! (ok, c) := log_msg_parse_skip_space c in
      if ok : bool then parse_columns self c columns else Ret (false, self, c)
  end.

Definition proto_columns : list (bytes * Z) := [(LM_V_PROGRAM, 48); (LM_V_PID, 128); (LM_V_MSGID, 32)].

(** From the host name on; [false] is a failure at the cursor. *)
Definition proto_rest (options : MsgFormatOptions) (self : LogMessage) (c : cursor) : outcome (bool * LogMessage * cursor) :=
  let! (host, c) := log_msg_parse_hostname c (mo_flags options) None in
  let! (ok, c) := log_msg_parse_skip_space c in
  if negb ok then Ret (false, self, c)
  else
    let! self := match host with
                 | Some (start, len) =>
                     let! dash := (if bool_decide (len = 1) then let! b := peek (mkCursor start len) 0 in Ret (isc 45 b) else Ret false) in
                     if dash : bool then Ret self else store_value self LM_V_HOST start len
                 | None => Ret self
                 end in
    let! (ok, self, c) := parse_columns self c proto_columns in
    if negb ok then Ret (false, self, c)
    else
      let! (ok, self, c) := log_msg_parse_sd self c options in
      if negb ok then Ret (false, self, c)
      else if bool_decide (cur_left c = 0) then Ret (true, self, c)
      else
        let! (ok, c) := log_msg_parse_skip_space c in
        if negb ok then Ret (false, self, c)
        else
          let! bom := (if bool_decide (cur_left c >= 3) then looks_at c 3 BOM else Ret false) in
          let! (self, c) := (if bom : bool then Ret (add_flag self LF_UTF8, advance c 3) else let! self := validate self (mo_flags options) c in Ret (self, c)) in
          let! self := store_value self LM_V_MESSAGE (cur_buf c) (cur_left c) in
          Ret (true, self, c).

Definition position (data c : cursor) : Z := lenZ (cur_buf data) - lenZ (cur_buf c).

Definition log_msg_parse_syslog_proto (options : MsgFormatOptions) (data : cursor) (self : LogMessage) (caches : TimeCaches) : outcome (LogMessage * option Z * TimeCaches) :=
  let! r := log_msg_parse_pri user_notice self data (mo_default_pri options) in
  let! (self, v) := match r with
                    | None => Ret (self, None)
                    | Some (self, c) => let! v := log_msg_parse_version c in Ret (self, v)
                    end in
  match v with
  | None => log_msg_parse_legacy options data self caches
  | Some c =>
      let! (ok, c) := log_msg_parse_skip_space c in
      if negb ok then Ret (self, Some (position data c), caches)
      else
        let! (date, self, caches) := log_msg_parse_date localtime mktime now self (mo_flags options) (mo_recv_ofs options) c caches in
        match date with
        | None => Ret (self, Some (position data c), caches)
        | Some c =>
            let! (ok, c) := log_msg_parse_skip_space c in
            if negb ok then Ret (self, Some (position data c), caches)
            else
              let! (ok, self, c) := proto_rest options self c in
              Ret (self, if ok : bool then None else Some (position data c), caches)
        end
  end.

(** Newlines and zero bytes at the end do not count. *)
Fixpoint strip_length (data : bytes) (length : nat) : nat :=
  match length with
  | O => O
  | S n => match data !! n with Some b => if isc 10 b || isc 0 b then strip_length data n else length | None => length end
  end.

(** [%.*s] and the 2048 bytes of the buffer. *)
Definition error_text (position : Z) (data : bytes) (length : nat) : bytes :=
  let text := match c_string (take length data ++ [0]) with Ret s => s | Abort => [] end in
  take 2047 (bytes_of_string "Error processing log message (at position " ++ decimal position ++ bytes_of_string "): " ++ text).

(** Carriage returns and newlines of the message, up to a zero byte. *)
Fixpoint blank_lines (text : bytes) : bytes :=
  match text with
  | [] => []
  | b :: text => if bool_decide (b = 0) then b :: text else (if bool_decide (b = 13 \/ b = 10) then 32 else b) :: blank_lines text
  end.
Definition blank_message (v : bytes * bytes) : bytes * bytes := if bool_decide (v.1 = LM_V_MESSAGE) then (v.1, blank_lines v.2) else v.

Definition syslog_format_handler (options : MsgFormatOptions) (data : bytes) (length : nat) (self : LogMessage) (caches : TimeCaches) : outcome (LogMessage * TimeCaches) :=
  let length := strip_length data length in
  let flags := mo_flags options in
  let self := if has_flag flags LP_ASSUME_UTF8 then add_flag self LF_UTF8 else self in
  let self := if has_flag flags LP_LOCAL then add_flag self LF_LOCAL else self in
  if has_flag flags LP_NOPARSE then
    let! self := store_value self LM_V_MESSAGE data (Z.of_nat length) in
    Ret (set_pri self (mo_default_pri options), caches)
  else
    let c := mkCursor data (Z.of_nat length) in
    let! (self, problem, caches) :=
      (if has_flag flags LP_SYSLOG_PROTOCOL then log_msg_parse_syslog_proto options c self caches else log_msg_parse_legacy options c self caches) in
    match problem with
    | Some problem_position =>
        let self := set_values (set_stamp self (lm_recvd self)) [] in
        let self := log_msg_set_value self LM_V_HOST [] in
        let self := log_msg_set_value self LM_V_MESSAGE (error_text problem_position data length) in
        let self := log_msg_set_value self LM_V_PROGRAM (bytes_of_string "syslog-ng") in
        let self := log_msg_set_value self LM_V_PID (decimal pid) in
        Ret (set_pri self (Z.lor LOG_SYSLOG LOG_ERR), caches)
    | None => Ret (if has_flag flags LP_NO_MULTI_LINE then set_values self (blank_message <$> lm_values self) else self, caches)
    end.
End parser.
