(* ===== verification/SyslogFormatSpec.v ===== *)
(** * The parts of a header, read where they were written

    Each lemma gives the cursor behind what was read: the memory [r] that
    follows and the [k] bytes of it that belong to the message. *)
From S2P Require Import Prelude StrFormat TimeStamp Buffer SyslogDate TimeStampSpec TimeStampClaims SyslogFormat.

(** ** Messages with values *)

Definition store_all (self : LogMessage) (kvs : list (bytes * bytes)) : LogMessage := foldl (fun self kv => log_msg_set_value self kv.1 kv.2) self kvs.

Lemma set_value_fields (self : LogMessage) (name value : bytes) : let self' := log_msg_set_value self name value in
  lm_pri self' = lm_pri self /\ lm_stamp self' = lm_stamp self /\ lm_recvd self' = lm_recvd self /\ lm_values self' = lm_values self ++ [(name, value)].
Proof. unfold log_msg_set_value. by destruct (in_header name). Qed.

Lemma store_all_fields (kvs : list (bytes * bytes)) : forall self, let self' := store_all self kvs in
  lm_pri self' = lm_pri self /\ lm_stamp self' = lm_stamp self /\ lm_recvd self' = lm_recvd self /\ lm_values self' = lm_values self ++ kvs.
Proof.
  induction kvs as [|[n v] kvs IH]; intros self; [by rewrite app_nil_r|]. cbn [store_all foldl]. destruct (set_value_fields self n v) as (A & B & C & D).
  destruct (IH (log_msg_set_value self n v)) as (A' & B' & C' & D'). cbn in *. unfold store_all in *. rewrite A', B', C', D', A, B, C, D, <- app_assoc. done.
Qed.

Lemma store_all_app (self : LogMessage) (a b : list (bytes * bytes)) : store_all self (a ++ b) = store_all (store_all self a) b.
Proof. apply foldl_app. Qed.

(** ** Memory *)

Lemma read_value_app (x r : bytes) : read_value (x ++ r) (lenZ x) = Ret x.
Proof.
  unfold read_value. pose proof (lenZ_nonneg x). pose proof (lenZ_nonneg r). rewrite lenZ_app, bool_decide_eq_false_2, bool_decide_eq_true_2 by lia. unfold lenZ. by rewrite Nat2Z.id, take_app_length.
Qed.

Lemma store_value_app (self : LogMessage) (name x r : bytes) (n : Z) : n = lenZ x -> store_value self name (x ++ r) n = Ret (log_msg_set_value self name x).
Proof. intros ->. unfold store_value. by rewrite read_value_app. Qed.

Lemma advance_app (x r : bytes) (n k : Z) : n = lenZ x + k -> advance (mkCursor (x ++ r) n) (length x) = mkCursor r k.
Proof. intros ->. unfold advance. cbn [cur_buf cur_left]. rewrite drop_app_length. f_equal. unfold lenZ. lia. Qed.

Lemma advance_one (b : Z) (r : bytes) (n : Z) : advance (mkCursor (b :: r) n) 1 = mkCursor r (n - 1).
Proof. reflexivity. Qed.

(** The bytes that follow stop a loop. *)
Definition halts (p : Z -> bool) (r : bytes) (k : Z) : Prop := k = 0 \/ 0 < k /\ match r with b :: _ => p b = false | [] => False end.

Lemma skip_while_app (p : Z -> bool) (x r : bytes) (k : Z) : Forall (fun b => p b = true) x -> halts p r k -> skip_while p (x ++ r) (lenZ x + k) = Ret (mkCursor r k).
Proof.
  intros Hx Hr. assert (0 <= k) by (destruct Hr; lia). induction Hx as [|b x Hb Hx IH].
  - change (lenZ []) with 0. rewrite Z.add_0_l. cbn [app]. destruct Hr as [->|[Hk Hr]]; [by destruct r|]. destruct r as [|b r]; [done|]. cbn [skip_while]. rewrite bool_decide_eq_false_2 by lia. by rewrite Hr.
  - rewrite lenZ_cons. pose proof (lenZ_nonneg x). cbn [app skip_while]. rewrite bool_decide_eq_false_2 by lia. rewrite Hb. replace (1 + lenZ x + k - 1) with (lenZ x + k) by lia. done.
Qed.

Lemma left_and_cons (b v : Z) (r : bytes) (k : Z) : k <> 0 -> left_and (mkCursor (b :: r) k) v = Ret (isc v b).
Proof. intros Hk. unfold left_and. cbn [cur_left]. by rewrite bool_decide_eq_false_2. Qed.
Lemma left_and_end (v : Z) (r : bytes) : left_and (mkCursor r 0) v = Ret false.
Proof. reflexivity. Qed.
Lemma left_pos_and_cons (b v : Z) (r : bytes) (k : Z) : 0 < k -> left_pos_and (mkCursor (b :: r) k) v = Ret (isc v b).
Proof. intros Hk. unfold left_pos_and. cbn [cur_left]. by rewrite bool_decide_eq_true_2 by lia. Qed.
Lemma isc_refl (v : Z) : isc v v = true.
Proof. by apply bool_decide_eq_true_2. Qed.
Lemma isc_neq (v b : Z) : b <> v -> isc v b = false.
Proof. intros H. by apply bool_decide_eq_false_2. Qed.

Lemma expect_cons (v : Z) (r : bytes) (k : Z) : k <> -1 -> expect v (mkCursor (v :: r) (1 + k)) = Ret (true, mkCursor r k).
Proof. intros Hk. unfold expect. rewrite left_and_cons by lia. cbn [obind]. rewrite isc_refl, advance_one. by replace (1 + k - 1) with k by lia. Qed.

Lemma skip_space_cons (r : bytes) (k : Z) : 0 <= k -> log_msg_parse_skip_space (mkCursor (32 :: r) (1 + k)) = Ret (true, mkCursor r k).
Proof. intros Hk. unfold log_msg_parse_skip_space. rewrite left_pos_and_cons by lia. cbn [obind]. rewrite isc_refl, advance_one. by replace (1 + k - 1) with k by lia. Qed.

(** ** Numbers *)

Lemma digits_value_mono (ds : bytes) : forall acc, 0 <= acc -> Forall (fun d => 48 <= d <= 57) ds -> acc <= digits_value acc ds.
Proof.
  induction ds as [|d ds IH]; intros acc Ha Hd; [done|]. inversion Hd; subst. cbn [digits_value foldl]. unfold digits_value in IH |- *. cbn [foldl]. etransitivity; [|apply IH; [lia|done]]. lia.
Qed.

Lemma pri_loop_digits (ds r : bytes) (k : Z) : forall acc, 0 <= acc -> Forall (fun d => 48 <= d <= 57) ds -> digits_value acc ds < 2 ^ 31 -> 0 < k ->
  pri_loop (ds ++ 62 :: r) (lenZ ds + k) acc = Ret (Some (digits_value acc ds, mkCursor (62 :: r) k)).
Proof.
  induction ds as [|d ds IH]; intros acc Ha Hd Hv Hk.
  - change (lenZ []) with 0. rewrite Z.add_0_l. cbn [app pri_loop]. by rewrite bool_decide_eq_false_2 by lia.
  - inversion Hd as [|? ? Hd1 Hd2]; subst. rewrite lenZ_cons. pose proof (lenZ_nonneg ds). cbn [app pri_loop]. rewrite bool_decide_eq_false_2 by lia. rewrite isc_neq by lia.
    replace (isdigit d) with true by (symmetry; by apply bool_decide_eq_true_2). replace (1 + lenZ ds + k - 1) with (lenZ ds + k) by lia.
    pose proof (digits_value_mono ds (acc * 10 + (d - 48)) ltac:(lia) Hd2) as M. change (digits_value acc (d :: ds)) with (digits_value (acc * 10 + (d - 48)) ds) in *.
    rewrite s32_small by lia. apply IH; (done || lia).
Qed.

Lemma parse_pri_ok (un : Z) (self : LogMessage) (pri dp : Z) (r : bytes) (k : Z) : 0 <= pri < 2 ^ 16 -> 0 <= k ->
  log_msg_parse_pri un self (mkCursor (60 :: decimal pri ++ 62 :: r) (2 + lenZ (decimal pri) + k)) dp = Ret (Some (set_pri self pri, mkCursor r k)).
Proof.
  intros Hp Hk. destruct (decimal_ok pri ltac:(lia)) as (D1 & D2 & _). pose proof (lenZ_nonneg (decimal pri)). unfold log_msg_parse_pri. rewrite left_and_cons by lia. cbn [obind]. rewrite isc_refl, advance_one.
  cbn [cur_buf cur_left]. replace (2 + lenZ (decimal pri) + k - 1) with (lenZ (decimal pri) + (1 + k)) by lia. rewrite pri_loop_digits by (done || lia). cbn [obind cur_left].
  rewrite D1, bool_decide_eq_false_2 by lia. rewrite advance_one, u16_small by lia. by replace (1 + k - 1) with k by lia.
Qed.

Lemma parse_version_ok (r : bytes) (k : Z) : 0 < k -> log_msg_parse_version (mkCursor (49 :: 32 :: r) (1 + k)) = Ret (Some (mkCursor (32 :: r) k)).
Proof.
  intros Hk. unfold log_msg_parse_version. cbn [cur_buf cur_left version_loop]. rewrite bool_decide_eq_false_2 by lia. change (isc 32 49) with false. change (isdigit 49) with true. cbn iota.
  replace (1 + k - 1) with k by lia. rewrite bool_decide_eq_false_2 by lia. done.
Qed.

(** ** Columns *)

Definition print_column (o : option bytes) : bytes := default [45] o.
Definition column_values (name : bytes) (o : option bytes) : list (bytes * bytes) := match o with Some v => [(name, v)] | None => [] end.
Definition column_ok (max_length : Z) (o : option bytes) : Prop :=
  match o with Some v => Forall (fun b => b <> 32) v /\ v <> [45] /\ lenZ v <= max_length | None => True end.

Lemma memchr_app (x r : bytes) (c : Z) : forall n at_, Forall (fun b => b <> c) x -> lenZ x < n -> memchr_loop (x ++ c :: r) c n at_ = Ret (Some (length x + at_)%nat).
Proof.
  induction x as [|b x IH]; intros n at_ Hx Hn.
  - change (lenZ []) with 0 in Hn. cbn [app memchr_loop]. rewrite bool_decide_eq_false_2, bool_decide_eq_true_2 by lia. done.
  - inversion Hx; subst. rewrite lenZ_cons in Hn. pose proof (lenZ_nonneg x). cbn [app memchr_loop length]. rewrite bool_decide_eq_false_2 by lia. rewrite bool_decide_eq_false_2 by done.
    rewrite IH by (done || lia). do 2 f_equal. lia.
Qed.

Lemma parse_column_ok (self : LogMessage) (name : bytes) (o : option bytes) (max_length : Z) (r : bytes) (k : Z) : column_ok max_length o -> 0 <= k -> lenZ (print_column o) + 1 + k < 2 ^ 31 ->
  log_msg_parse_column self name (mkCursor (print_column o ++ 32 :: r) (lenZ (print_column o) + (1 + k))) max_length = Ret (store_all self (column_values name o), mkCursor (32 :: r) (1 + k)).
Proof.
  intros Ho Hk Hlen. unfold log_msg_parse_column, memchr. cbn [cur_buf cur_left]. set (x := print_column o) in *. pose proof (lenZ_nonneg x). rewrite u64_small by lia.
  assert (Hx : Forall (fun b => b <> 32) x) by (unfold x; destruct o as [v|]; [apply Ho|by repeat constructor]).
  rewrite memchr_app by (done || lia). cbn [obind]. rewrite Nat.add_0_r, (advance_app x (32 :: r) _ (1 + k)) by done. cbn [obind cur_left]. replace (lenZ x + (1 + k) - (1 + k)) with (lenZ x) by lia.
  rewrite bool_decide_eq_false_2 by lia. destruct o as [v|]; cbn [column_values store_all foldl].
  - destruct Ho as (_ & Hd & Hm). change x with v in *. assert (N : (if bool_decide (lenZ v > 1) then Ret false else let! b := peek (mkCursor (v ++ 32 :: r) (lenZ v + (1 + k))) 0 in Ret (isc 45 b)) = Ret false).
    { case_bool; [done|]. destruct v as [|b [|b' v]]; [done| |rewrite !lenZ_cons in Hb; pose proof (lenZ_nonneg v); lia]. unfold peek. cbn [cur_buf app lookup list_lookup obind]. rewrite isc_neq; [done|]. by intros ->. }
    rewrite N. cbn [obind]. rewrite Z.min_l by lia. by rewrite store_value_app.
  - done.
Qed.

Lemma hostname_loop_app (flags : Z) (x r : bytes) (k : Z) : forall acc, has_flag flags LP_CHECK_HOSTNAME = false -> Forall (fun b => isc 32 b || isc 58 b || isc 91 b = false) x -> lenZ acc + lenZ x <= 255 -> 0 < k ->
  hostname_loop flags (x ++ 32 :: r) (lenZ x + k) acc = Ret (acc ++ x, mkCursor (32 :: r) k).
Proof.
  induction x as [|b x IH]; intros acc Hf Hx Hl Hk.
  - change (lenZ []) with 0. rewrite Z.add_0_l, app_nil_r. cbn [app hostname_loop]. by rewrite bool_decide_eq_false_2 by lia.
  - inversion Hx as [|? ? Hb Hx']; subst. rewrite lenZ_cons in *. pose proof (lenZ_nonneg x). cbn [app hostname_loop]. rewrite bool_decide_eq_false_2 by lia. rewrite Hb, bool_decide_eq_true_2 by lia. cbn [negb andb]. rewrite Hf. cbn [obind].
    replace (1 + lenZ x + k - 1) with (lenZ x + k) by lia. rewrite IH by (done || (rewrite lenZ_app, lenZ_cons; change (lenZ []) with 0; lia)). by rewrite <- app_assoc.
Qed.

Lemma c_string_app (x r : bytes) : Forall (fun b => b <> 0) x -> c_string (x ++ 0 :: r) = Ret x.
Proof. induction 1 as [|b x Hb Hx IH]; [done|]. cbn [app c_string]. rewrite bool_decide_eq_false_2 by done. by rewrite IH. Qed.

Lemma c_string_total (x : bytes) : exists s, c_string (x ++ [0]) = Ret s.
Proof. induction x as [|b x (s & IH)]; [by exists []|]. cbn [app c_string]. case_bool; [by eexists|]. rewrite IH. cbn [obind]. by eexists. Qed.

Definition host_ok (h : bytes) : Prop := Forall (fun b => isc 32 b || isc 58 b || isc 91 b = false) h /\ lenZ h <= 255.

Lemma parse_hostname_ok (flags : Z) (h r : bytes) (k : Z) : has_flag flags LP_CHECK_HOSTNAME = false -> host_ok h -> 0 < k ->
  log_msg_parse_hostname (mkCursor (h ++ 32 :: r) (lenZ h + k)) flags None = Ret (Some (h ++ 32 :: r, lenZ h), mkCursor (32 :: r) k).
Proof.
  intros Hf [Hh Hl] Hk. unfold log_msg_parse_hostname. cbn [cur_buf cur_left]. rewrite hostname_loop_app by (done || (change (lenZ []) with 0; lia)). cbn [obind app]. rewrite left_and_cons by lia. cbn [obind].
  destruct (c_string_total h) as (s & ->). cbn [obind]. rewrite isc_refl. cbn [andb cur_left]. by replace (Z.min (lenZ h + k - k) 255) with (lenZ h) by lia.
Qed.

(** ** Structured data *)

Definition special (b : Z) : bool := isc 34 b || isc 92 b || isc 93 b.
Definition escape (v : bytes) : bytes := v ≫= fun b => if special b then [92; b] else [b].
Definition print_param (p : bytes * bytes) : bytes := 32 :: p.1 ++ 61 :: 34 :: escape p.2 ++ [34].

Record sd_elem := mkElem { sd_id : bytes; sd_pairs : list (bytes * bytes) }.
Definition print_elem (e : sd_elem) : bytes := 91 :: sd_id e ++ (sd_pairs e ≫= print_param) ++ [93].
Definition print_sd (es : list sd_elem) : bytes := match es with [] => [45] | _ => es ≫= print_elem end.

Definition param_value (id : bytes) (p : bytes * bytes) : bytes * bytes := (sd_prefix ++ id ++ 46 :: p.1, p.2).
Definition elem_values (e : sd_elem) : list (bytes * bytes) :=
  match sd_pairs e with [] => [(sd_prefix ++ sd_id e, [])] | ps => param_value (sd_id e) <$> ps end.

Definition sd_name_ok (n : bytes) : Prop := Forall (fun b => sd_name_char b = true /\ b <> 0) n /\ 0 < lenZ n <= 32.
Definition elem_ok (max : Z) (e : sd_elem) : Prop :=
  sd_name_ok (sd_id e) /\ Forall (fun p => sd_name_ok p.1 /\ lenZ (sd_id e) + lenZ p.1 <= 57 /\ lenZ p.2 <= max) (sd_pairs e).

Lemma sd_name_char_not (b : Z) : sd_name_char b = true -> isc 32 b = false /\ isc 93 b = false /\ isc 61 b = false /\ isc 34 b = false.
Proof. unfold sd_name_char. rewrite andb_true_iff, negb_true_iff, !orb_false_iff. tauto. Qed.

Lemma sd_name_loop_app (stops : Z -> bool) (x r : bytes) (b k : Z) : forall acc, Forall (fun b => sd_name_char b = true /\ stops b = false) x -> stops b = true -> lenZ acc + lenZ x <= 32 -> 0 < k ->
  sd_name_loop stops (x ++ b :: r) (lenZ x + k) acc = Ret (Some (acc ++ x), mkCursor (b :: r) k).
Proof.
  induction x as [|c x IH]; intros acc Hx Hb Hl Hk.
  - change (lenZ []) with 0. rewrite Z.add_0_l, app_nil_r. cbn [app sd_name_loop]. rewrite bool_decide_eq_false_2 by lia. by rewrite Hb.
  - inversion Hx as [|? ? [Hc1 Hc2] Hx']; subst. rewrite lenZ_cons in *. pose proof (lenZ_nonneg x). cbn [app sd_name_loop]. rewrite bool_decide_eq_false_2 by lia. rewrite Hc2, bool_decide_eq_true_2, Hc1 by lia. cbn [andb].
    replace (1 + lenZ x + k - 1) with (lenZ x + k) by lia. rewrite IH by (done || (rewrite lenZ_app, lenZ_cons; change (lenZ []) with 0; lia)). by rewrite <- app_assoc.
Qed.

Lemma sd_value_loop_app (max : Z) (v r : bytes) (k : Z) : forall acc, lenZ acc + lenZ v <= max -> 0 < k ->
  sd_value_loop (max + 1) (escape v ++ 34 :: r) (lenZ (escape v) + k) false acc = Ret (Some (acc ++ v), mkCursor (34 :: r) k).
Proof.
  induction v as [|b v IH]; intros acc Hm Hk.
  - change (lenZ (escape [])) with 0. rewrite Z.add_0_l, app_nil_r. cbn [escape mbind list_bind app sd_value_loop]. by rewrite bool_decide_eq_false_2 by lia.
  - rewrite lenZ_cons in Hm. pose proof (lenZ_nonneg v). pose proof (lenZ_nonneg acc). change (escape (b :: v)) with ((if special b then [92; b] else [b]) ++ escape v). rewrite lenZ_app. pose proof (lenZ_nonneg (escape v)).
    assert (IH' : sd_value_loop (max + 1) (escape v ++ 34 :: r) (lenZ (escape v) + k) false (acc ++ [b]) = Ret (Some (acc ++ b :: v), mkCursor (34 :: r) k))
      by (rewrite IH by (done || (rewrite lenZ_app, lenZ_cons; change (lenZ []) with 0; lia)); by rewrite <- app_assoc).
    destruct (special b) eqn:Hs; cbn [app].
    + change (lenZ [92; b]) with 2. cbn [sd_value_loop]. rewrite bool_decide_eq_false_2 by lia. change (isc 34 92) with false. change (isc 92 92) with true. cbn [andb negb]. rewrite bool_decide_eq_false_2 by lia.
      cbn [negb andb]. rewrite andb_false_r. replace (negb (isc 34 b) && negb (isc 93 b) && negb (isc 92 b)) with false by (unfold special in Hs; destruct (isc 34 b), (isc 93 b), (isc 92 b); done).
      cbn [andb]. rewrite bool_decide_eq_true_2 by lia. replace (2 + lenZ (escape v) + k - 1 - 1) with (lenZ (escape v) + k) by lia. done.
    + change (lenZ [b]) with 1. unfold special in Hs. rewrite !orb_false_iff in Hs. destruct Hs as [[S1 S2] S3]. cbn [sd_value_loop]. rewrite bool_decide_eq_false_2 by lia. rewrite S1, S2, S3. cbn [andb negb].
      rewrite bool_decide_eq_true_2 by lia. replace (1 + lenZ (escape v) + k - 1) with (lenZ (escape v) + k) by lia. done.
Qed.

(** The names of values, in their array. *)

Lemma strncpy_ok (s : bytes) (n : nat) : Forall (fun b => b <> 0) s -> (length s <= n)%nat -> strncpy s n = s ++ replicate (n - length s) 0.
Proof.
  intros Hs Hn. unfold strncpy. rewrite (c_string_app s []) by done. rewrite take_app, take_ge by done. f_equal. rewrite take_replicate. f_equal. lia.
Qed.

Lemma nonzero_prefix : Forall (fun b => b <> 0) sd_prefix.
Proof. by repeat constructor. Qed.

Lemma sd_name_nonzero (n : bytes) : sd_name_ok n -> Forall (fun b => b <> 0) n.
Proof. intros [H _]. eapply Forall_impl; [done|]. by intros b [_ ?]. Qed.
Lemma sd_name_length (n : bytes) : sd_name_ok n -> (0 < length n <= 32)%nat.
Proof. intros [_ H]. unfold lenZ in H. lia. Qed.

Definition dotted (id value_name : bytes) : Prop := take (8 + length id) value_name = sd_prefix ++ id ++ [46].

Lemma name_of_id_ok (id : bytes) : sd_name_ok id -> c_string (name_of_id id) = Ret (sd_prefix ++ id) /\ dotted id (with_dot (name_of_id id) id).
Proof.
  intros Hid. pose proof (sd_name_length id Hid). unfold name_of_id, with_dot, dotted. rewrite strncpy_ok by (by apply sd_name_nonzero || lia). destruct (59 - length id)%nat as [|m] eqn:E; [lia|]. cbn [replicate]. split.
  - rewrite app_assoc. apply c_string_app. apply Forall_app. split; [apply nonzero_prefix|by apply sd_name_nonzero].
  - change (7 + length id)%nat with (length sd_prefix + length id)%nat. rewrite insert_app_r, insert_app_r_alt, Nat.sub_diag by done. cbn [insert list_insert].
    change (46 :: replicate m 0) with ([46] ++ replicate m 0). rewrite !app_assoc. apply take_app_length'. rewrite !length_app. change (length sd_prefix) with 7%nat. cbn [length]. lia.
Qed.

Lemma with_param_ok (id param value_name : bytes) : sd_name_ok id -> sd_name_ok param -> (length id + length param <= 57)%nat -> dotted id value_name ->
  c_string (with_param value_name id param) = Ret (sd_prefix ++ id ++ 46 :: param) /\ dotted id (with_param value_name id param).
Proof.
  intros Hid Hp Hl Hd. pose proof (sd_name_length id Hid). unfold with_param. rewrite strncpy_ok by (by apply sd_name_nonzero || lia). rewrite Hd. destruct (58 - length id - length param)%nat as [|m] eqn:E; [lia|]. cbn [replicate]. split.
  - rewrite <- !app_assoc. cbn [app]. replace (sd_prefix ++ id ++ 46 :: param ++ 0 :: replicate m 0) with ((sd_prefix ++ id ++ 46 :: param) ++ 0 :: replicate m 0) by (by rewrite <- !app_assoc).
    apply c_string_app. apply Forall_app. split; [apply nonzero_prefix|]. apply Forall_app. split; [by apply sd_name_nonzero|]. constructor; [done|by apply sd_name_nonzero].
  - unfold dotted. apply take_app_length'. rewrite !length_app. change (length sd_prefix) with 7%nat. cbn [length]. lia.
Qed.

Lemma sd_name_first (n r : bytes) (k : Z) : sd_name_ok n -> exists b, peek (mkCursor (n ++ r) k) 0 = Ret b /\ sd_name_char b = true.
Proof. intros [H [L _]]. destruct n as [|b n]; [done|]. inversion H as [|? ? [Hb _] _]; subst. by exists b. Qed.

Lemma print_param_length (p : bytes * bytes) : lenZ (print_param p) = 4 + lenZ p.1 + lenZ (escape p.2).
Proof. unfold print_param. rewrite lenZ_cons, lenZ_app, !lenZ_cons, lenZ_app, lenZ_cons. change (lenZ (@nil Z)) with 0. lia. Qed.

Lemma sd_param_ok (max : Z) (value_name id : bytes) (p : bytes * bytes) (self : LogMessage) (r : bytes) (k : Z) :
  sd_name_ok id -> sd_name_ok p.1 -> lenZ id + lenZ p.1 <= 57 -> lenZ p.2 <= max -> dotted id value_name -> 0 <= k ->
  exists value_name', sd_param (max + 1) value_name id self (mkCursor (print_param p ++ r) (lenZ (print_param p) + k)) =
    Ret (true, value_name', log_msg_set_value self (param_value id p).1 (param_value id p).2, mkCursor r k) /\ dotted id value_name'.
Proof.
  intros Hid Hp Hl Hm Hd Hk. rewrite print_param_length. destruct p as [n v]. cbn [fst snd] in *. unfold print_param. cbn [fst snd]. pose proof (lenZ_nonneg n). pose proof (lenZ_nonneg (escape v)).
  replace ((32 :: n ++ 61 :: 34 :: escape v ++ [34]) ++ r) with (32 :: n ++ 61 :: 34 :: escape v ++ 34 :: r) by (cbn [app]; by rewrite <- app_assoc, <- !app_comm_cons, <- app_assoc).
  unfold sd_param. replace (4 + lenZ n + lenZ (escape v) + k) with (1 + (lenZ n + (1 + (1 + (lenZ (escape v) + (1 + k)))))) by lia. rewrite expect_cons by lia. cbn [obind negb].
  destruct (sd_name_first n (61 :: 34 :: escape v ++ 34 :: r) (lenZ n + (1 + (1 + (lenZ (escape v) + (1 + k))))) Hp) as (b & -> & Hb). cbn [obind]. rewrite Hb. cbn [negb cur_buf cur_left].
  rewrite sd_name_loop_app; [|eapply Forall_impl; [apply Hp|]; intros x [Hx _]; split; [done|by apply sd_name_char_not]|done|destruct Hp; change (lenZ []) with 0; lia|lia]. cbn [obind app].
  rewrite expect_cons by lia. cbn [obind negb]. rewrite expect_cons by lia. cbn [obind negb cur_buf cur_left]. rewrite sd_value_loop_app by (done || (change (lenZ []) with 0; lia)). cbn [obind app]. rewrite expect_cons by lia. cbn [obind negb].
  destruct (with_param_ok id n value_name Hid Hp ltac:(unfold lenZ in *; lia) Hd) as [-> Hd']. cbn [obind]. eauto.
Qed.

Lemma sd_params_ok (max : Z) (id : bytes) (ps : list (bytes * bytes)) (r : bytes) (k : Z) : forall fuel value_name self, sd_name_ok id ->
  Forall (fun p => sd_name_ok p.1 /\ lenZ id + lenZ p.1 <= 57 /\ lenZ p.2 <= max) ps -> dotted id value_name \/ ps = [] -> 0 < k -> (length ps <= fuel)%nat ->
  sd_params fuel (max + 1) value_name id self (mkCursor ((ps ≫= print_param) ++ 93 :: r) (lenZ (ps ≫= print_param) + k)) = Ret (true, store_all self (param_value id <$> ps), mkCursor (93 :: r) k).
Proof.
  induction ps as [|p ps IH]; intros fuel value_name self Hid Hps Hd Hk Hf.
  - cbn [mbind list_bind app fmap list_fmap]. change (lenZ []) with 0. rewrite Z.add_0_l. destruct fuel; cbn [sd_params]; rewrite left_and_cons by lia; cbn [obind]; rewrite isc_refl, orb_true_r; done.
  - inversion Hps as [|? ? (Hp & Hl & Hm) Hps']; subst. destruct Hd as [Hd|?]; [|done]. destruct fuel as [|fuel]; [cbn in Hf; lia|]. cbn [mbind list_bind]. rewrite lenZ_app, <- app_assoc, <- Z.add_assoc.
    set (rest := ps ≫= print_param) in *. pose proof (lenZ_nonneg rest). assert (Hk2 : 0 <= lenZ rest + k) by lia. destruct (sd_param_ok max value_name id p self (rest ++ 93 :: r) (lenZ rest + k) Hid Hp Hl Hm Hd Hk2) as (vn' & E & Hd').
    cbn [sd_params]. assert (0 < lenZ (print_param p)) by (rewrite print_param_length; pose proof (lenZ_nonneg p.1); pose proof (lenZ_nonneg (escape p.2)); lia).
    replace (left_and (mkCursor (print_param p ++ rest ++ 93 :: r) (lenZ (print_param p) + (lenZ rest + k))) 93) with (Ret false) by (symmetry; apply left_and_cons; lia).
    cbn [obind cur_left]. rewrite bool_decide_eq_false_2 by lia. cbn [orb]. rewrite E. cbn [obind]. unfold rest. rewrite IH by (done || by left || (cbn in Hf; lia)). done.
Qed.

Lemma params_length (ps : list (bytes * bytes)) : (length ps <= length (ps ≫= print_param))%nat.
Proof. induction ps as [|p ps IH]; [done|]. cbn [mbind list_bind length]. rewrite length_app. unfold print_param at 1. cbn [length]. lia. Qed.

Definition elem_body (e : sd_elem) : bytes := sd_id e ++ (sd_pairs e ≫= print_param) ++ [93].

Lemma elem_next (ps : list (bytes * bytes)) (r : bytes) : exists b r', (ps ≫= print_param) ++ 93 :: r = b :: r' /\ (isc 32 b || isc 93 b) = true /\ (isc 93 b = bool_decide (ps = [])).
Proof. destruct ps as [|p ps]; do 2 eexists; (split; [reflexivity|done]). Qed.

Lemma sd_element_ok (max : Z) (e : sd_elem) (self : LogMessage) (r : bytes) (k : Z) : elem_ok max e -> 0 <= k ->
  sd_element (max + 1) self (mkCursor (elem_body e ++ r) (lenZ (elem_body e) + k)) = Ret (true, store_all self (elem_values e), mkCursor r k).
Proof.
  intros [Hid Hps] Hk. destruct e as [id ps]. unfold elem_body. cbn [sd_id sd_pairs] in *. rewrite <- !app_assoc. cbn [app]. set (rest := ps ≫= print_param). pose proof (lenZ_nonneg rest). pose proof (lenZ_nonneg id).
  replace (lenZ (id ++ rest ++ [93]) + k) with (lenZ id + (lenZ rest + (1 + k))) by (rewrite !lenZ_app, lenZ_cons; change (lenZ []) with 0; lia).
  unfold sd_element. destruct (sd_name_first id (rest ++ 93 :: r) (lenZ id + (lenZ rest + (1 + k))) Hid) as (b & -> & Hb). cbn [obind]. rewrite Hb. cbn [negb cur_buf cur_left].
  destruct (elem_next ps r) as (b' & r' & E & Hb1 & Hb2). fold rest in E. rewrite E at 1.
  rewrite sd_name_loop_app; [|eapply Forall_impl; [apply Hid|]; intros x [Hx _]; split; [done|]; destruct (sd_name_char_not x Hx) as (-> & -> & _); done|done|destruct Hid; change (lenZ []) with 0; lia|lia].
  cbn [obind app]. rewrite <- E. destruct id as [|i l]; [by destruct Hid as [_ [? _]]|]. set (id := i :: l) in *. destruct (name_of_id_ok id Hid) as [N D].
  assert (F : (length ps <= S (length (rest ++ 93%Z :: r)))%nat) by (rewrite length_app; pose proof (params_length ps) as PL; fold rest in PL; lia).
  unfold elem_values. cbn [sd_pairs sd_id]. destruct ps as [|p ps].
  - cbn [mbind list_bind app] in rest. subst rest. cbn [app]. unfold peek. cbn [cur_buf lookup list_lookup obind]. rewrite isc_refl, N. cbn [obind cur_buf]. change (lenZ []) with 0. rewrite Z.add_0_l.
    cbn [length sd_params]. rewrite left_and_cons by lia. cbn [obind]. rewrite isc_refl, orb_true_r. cbn [obind]. rewrite expect_cons by lia. done.
  - replace (peek (mkCursor (rest ++ 93 :: r) (lenZ rest + (1 + k))) 0) with (Ret 32) by done. cbn [obind]. change (isc 93 32) with false. cbn iota. cbn [obind cur_buf].
    unfold rest at 2 3. rewrite sd_params_ok by (done || by left || lia). cbn [obind]. rewrite expect_cons by lia. done.
Qed.

Lemma print_elem_body (e : sd_elem) : print_elem e = 91 :: elem_body e.
Proof. reflexivity. Qed.

Lemma sd_elements_ok (max : Z) (r : bytes) (k : Z) (es : list sd_elem) : forall fuel e self, Forall (elem_ok max) (e :: es) -> halts (isc 91) r k -> (length es < fuel)%nat ->
  let text := elem_body e ++ (es ≫= print_elem) in
  sd_elements fuel (max + 1) self (mkCursor (text ++ r) (lenZ text + k)) = Ret (true, store_all self ((e :: es) ≫= elem_values), mkCursor r k).
Proof.
  induction es as [|e' es IH]; intros fuel e self He Hr Hf text; assert (0 <= k) by (destruct Hr; lia); inversion He as [|? ? H1 H2]; subst; (destruct fuel as [|fuel]; [cbn in Hf; lia|]); cbn [sd_elements].
  - subst text. cbn [mbind list_bind]. rewrite !app_nil_r. rewrite sd_element_ok by done. cbn [obind]. destruct Hr as [->|[Hk Hr]]; [done|]. destruct r as [|b r]; [done|]. unfold expect. rewrite left_and_cons by lia. cbn [obind]. by rewrite Hr.
  - subst text. cbn [mbind list_bind]. change (list_bind _ _ print_elem es) with (es ≫= print_elem). rewrite print_elem_body. cbn [app]. set (text := elem_body e' ++ (es ≫= print_elem)). pose proof (lenZ_nonneg text).
    replace ((elem_body e ++ 91 :: text) ++ r) with (elem_body e ++ 91 :: (text ++ r)) by (by rewrite <- app_assoc). rewrite lenZ_app, lenZ_cons.
    replace (lenZ (elem_body e) + (1 + lenZ text) + k) with (lenZ (elem_body e) + (1 + (lenZ text + k))) by lia. rewrite sd_element_ok by (done || lia). cbn [obind]. rewrite expect_cons by lia. cbn [obind].
    assert (0 < lenZ text). { unfold text, elem_body. rewrite !lenZ_app, lenZ_cons. pose proof (lenZ_nonneg (sd_id e')). pose proof (lenZ_nonneg (sd_pairs e' ≫= print_param)). pose proof (lenZ_nonneg (es ≫= print_elem)). pose proof (lenZ_nonneg (@nil Z)). lia. }
    cbn [cur_left]. rewrite bool_decide_eq_true_2 by lia. cbn [andb]. unfold text. rewrite IH by (done || (cbn in Hf; lia)). by rewrite <- store_all_app.
Qed.

Lemma elems_length (es : list sd_elem) : (length es <= length (es ≫= print_elem))%nat.
Proof. induction es as [|e es IH]; [done|]. cbn [mbind list_bind length]. rewrite length_app. unfold print_elem at 1. cbn [length]. lia. Qed.

Lemma parse_sd_ok (options : MsgFormatOptions) (es : list sd_elem) (self : LogMessage) (r : bytes) (k : Z) : Forall (elem_ok (mo_sdata_param_value_max options)) es -> halts (isc 91) r k ->
  log_msg_parse_sd self (mkCursor (print_sd es ++ r) (lenZ (print_sd es) + k)) options = Ret (true, store_all self (es ≫= elem_values), mkCursor r k).
Proof.
  intros He Hr. assert (0 <= k) by (destruct Hr; lia). unfold log_msg_parse_sd. destruct es as [|e es].
  - cbn [print_sd app]. rewrite lenZ_cons. change (lenZ []) with 0. rewrite left_and_cons by lia. cbn [obind]. rewrite isc_refl, advance_one. by replace (1 + 0 + k - 1) with k by lia.
  - unfold print_sd. cbn [mbind list_bind]. change (list_bind _ _ print_elem es) with (es ≫= print_elem). rewrite print_elem_body. cbn [app]. set (text := elem_body e ++ (es ≫= print_elem)). pose proof (lenZ_nonneg text). rewrite lenZ_cons.
    rewrite left_and_cons by lia. cbn [obind]. change (isc 45 91) with false. cbn iota. rewrite <- Z.add_assoc, expect_cons by lia. cbn [obind cur_buf]. unfold text. rewrite sd_elements_ok; [done|done|done|].
    rewrite !length_app. pose proof (elems_length es). lia.
Qed.
