(* ===== verification/SyslogFormatClaims.v ===== *)
(** * RFC 5424 messages are read back as they were written *)
From S2P Require Import Prelude StrFormat TimeStamp Buffer SyslogDate TimeStampSpec TimeStampClaims SyslogFormat SyslogFormatSpec.

Record rfc5424 := mkRfc {
  h_pri : Z;
  h_host : option bytes;
  h_app : option bytes;
  h_procid : option bytes;
  h_msgid : option bytes;
  h_sd : list sd_elem;
  h_msg : bytes
}.

Definition print_columns (cols : list (option bytes)) (r : bytes) : bytes := foldr (fun o r => print_column o ++ 32 :: r) r cols.
Definition print_tail (h : rfc5424) (r : bytes) : bytes := print_columns [h_host h; h_app h; h_procid h; h_msgid h] (print_sd (h_sd h) ++ 32 :: h_msg h ++ r).
Definition print_rfc5424 (date : bytes) (h : rfc5424) : bytes := 60 :: decimal (h_pri h) ++ 62 :: 49 :: 32 :: date ++ 32 :: print_tail h [].

Definition rfc_values (h : rfc5424) : list (bytes * bytes) :=
  column_values LM_V_HOST (h_host h) ++ column_values LM_V_PROGRAM (h_app h) ++ column_values LM_V_PID (h_procid h) ++ column_values LM_V_MSGID (h_msgid h) ++ (h_sd h ≫= elem_values).

Definition host_column_ok (o : option bytes) : Prop := match o with Some h => host_ok h /\ h <> [45] | None => True end.
Record rfc_ok (max : Z) (h : rfc5424) : Prop := {
  ro_pri : 0 <= h_pri h < 2 ^ 16;
  ro_host : host_column_ok (h_host h);
  ro_app : column_ok 48 (h_app h);
  ro_procid : column_ok 128 (h_procid h);
  ro_msgid : column_ok 32 (h_msgid h);
  ro_sd : Forall (elem_ok max) (h_sd h);
  ro_bom : take 3 (h_msg h) <> BOM;
  ro_end : match last (h_msg h) with Some b => b <> 10 /\ b <> 0 | None => True end
}.

Lemma host_column_print (o : option bytes) : host_column_ok o -> host_ok (print_column o).
Proof. destruct o as [h|]; [by intros [? _]|]. intros _. split; [by repeat constructor|done]. Qed.

Lemma store_host_ok (self : LogMessage) (o : option bytes) (r : bytes) : host_column_ok o ->
  (let! dash := (if bool_decide (lenZ (print_column o) = 1) then let! b := peek (mkCursor (print_column o ++ r) (lenZ (print_column o))) 0 in Ret (isc 45 b) else Ret false) in
   if dash : bool then Ret self else store_value self LM_V_HOST (print_column o ++ r) (lenZ (print_column o))) = Ret (store_all self (column_values LM_V_HOST o)).
Proof.
  intros Ho. destruct o as [h|]; [|done]. destruct Ho as [_ Hd]. change (print_column (Some h)) with h. replace (if bool_decide (lenZ h = 1) then _ else _) with (@Ret bool false); [cbn [obind]; by rewrite store_value_app|].
  destruct (bool_decide_reflect (lenZ h = 1)) as [Hb|Hb]; [|done]. destruct h as [|b [|b' h]]; [done| |rewrite !lenZ_cons in Hb; pose proof (lenZ_nonneg h); lia]. unfold peek. cbn [app cur_buf lookup list_lookup obind]. rewrite isc_neq; [done|]. by intros ->.
Qed.

Lemma looks_at_no (c : cursor) (n : Z) (s : bytes) : 0 <= cur_left c < 2 ^ 31 -> n = lenZ s -> take (length s) (cur_buf c) <> s -> cur_left c <= lenZ (cur_buf c) -> looks_at c n s = Ret false.
Proof.
  intros Hl -> Ht Hm. unfold looks_at. rewrite u64_small by lia. case_bool; [|done]. rewrite bool_decide_eq_true_2 by lia. by rewrite bool_decide_eq_false_2.
Qed.

Lemma columns_length (cols : list (option bytes)) (r : bytes) : lenZ (print_columns cols r) = foldr (fun o n => lenZ (print_column o) + (1 + n)) (lenZ r) cols.
Proof. induction cols as [|o cols IH]; [done|]. cbn [print_columns foldr]. rewrite lenZ_app, lenZ_cons. unfold print_columns in IH. by rewrite IH. Qed.

Section rest.
Context (g_utf8_validate : bytes -> bool) (options : MsgFormatOptions).

Lemma validate_ok (self : LogMessage) (flags : Z) (x r : bytes) : exists utf8 : bool, validate g_utf8_validate self flags (mkCursor (x ++ r) (lenZ x)) = Ret (if utf8 then add_flag self LF_UTF8 else self).
Proof. unfold validate. destruct (has_flag flags LP_VALIDATE_UTF8); [|by exists false]. cbn [cur_buf cur_left]. rewrite read_value_app. cbn [obind]. by exists (g_utf8_validate x). Qed.

Lemma parse_columns_ok (a p m : option bytes) (r : bytes) (k : Z) (self : LogMessage) : column_ok 48 a -> column_ok 128 p -> column_ok 32 m -> 0 <= k ->
  let n := lenZ (print_column a) + (1 + (lenZ (print_column p) + (1 + (lenZ (print_column m) + (1 + k))))) in n < 2 ^ 31 ->
  parse_columns self (mkCursor (print_columns [a; p; m] r) n) proto_columns =
    Ret (true, store_all self (column_values LM_V_PROGRAM a ++ column_values LM_V_PID p ++ column_values LM_V_MSGID m), mkCursor r k).
Proof.
  intros Ha Hp Hm Hk n Hn. subst n. pose proof (lenZ_nonneg (print_column a)). pose proof (lenZ_nonneg (print_column p)). pose proof (lenZ_nonneg (print_column m)). unfold proto_columns. cbn [parse_columns print_columns foldr].
  rewrite parse_column_ok by (done || lia). cbn [obind]. rewrite skip_space_cons by lia. cbn [obind]. rewrite parse_column_ok by (done || lia). cbn [obind]. rewrite skip_space_cons by lia. cbn [obind].
  rewrite parse_column_ok by (done || lia). cbn [obind]. rewrite skip_space_cons by lia. cbn [obind]. by rewrite !store_all_app.
Qed.

Lemma proto_rest_ok (h : rfc5424) (self : LogMessage) (r : bytes) : rfc_ok (mo_sdata_param_value_max options) h -> has_flag (mo_flags options) LP_CHECK_HOSTNAME = false -> lenZ (print_tail h []) < 2 ^ 31 ->
  exists utf8 : bool, let s := store_all self (rfc_values h) in
    proto_rest g_utf8_validate options self (mkCursor (print_tail h r) (lenZ (print_tail h []))) = Ret (true, log_msg_set_value (if utf8 then add_flag s LF_UTF8 else s) LM_V_MESSAGE (h_msg h), mkCursor (h_msg h ++ r) (lenZ (h_msg h))).
Proof.
  intros [_ Hh Ha Hp Hm Hs Hbom _] Hf Hlen. assert (El : lenZ (print_tail h []) = lenZ (print_column (h_host h)) + (1 + (lenZ (print_column (h_app h)) + (1 + (lenZ (print_column (h_procid h)) + (1 + (lenZ (print_column (h_msgid h)) + (1 + (lenZ (print_sd (h_sd h)) + (1 + lenZ (h_msg h))))))))))).
  { unfold print_tail. rewrite columns_length. cbn [foldr]. rewrite lenZ_app, lenZ_cons, app_nil_r. lia. }
  rewrite El in *. unfold print_tail. pose proof (lenZ_nonneg (print_column (h_host h))). pose proof (lenZ_nonneg (print_column (h_app h))). pose proof (lenZ_nonneg (print_column (h_procid h))). pose proof (lenZ_nonneg (print_column (h_msgid h))).
  pose proof (lenZ_nonneg (print_sd (h_sd h))). pose proof (lenZ_nonneg (h_msg h)). set (rest := print_sd (h_sd h) ++ 32 :: h_msg h ++ r). change (print_columns [h_host h; h_app h; h_procid h; h_msgid h] rest) with (print_column (h_host h) ++ 32 :: print_columns [h_app h; h_procid h; h_msgid h] rest).
  unfold proto_rest. rewrite parse_hostname_ok by (done || by apply host_column_print || lia). cbn [obind]. rewrite skip_space_cons by lia. cbn [obind negb].
  rewrite store_host_ok by done. cbn [obind]. rewrite parse_columns_ok by (done || lia). cbn [obind negb]. unfold rest. rewrite parse_sd_ok; [|done|right; split; [lia|done]]. cbn [obind negb cur_left].
  rewrite bool_decide_eq_false_2 by lia. rewrite skip_space_cons by lia. cbn [obind negb cur_left]. 
  replace (if bool_decide (lenZ (h_msg h) >= 3) then _ else _) with (@Ret bool false).
  2:{ case_bool; [|done]. rewrite looks_at_no; cbn [cur_left cur_buf]; [done|lia|done| |rewrite lenZ_app; pose proof (lenZ_nonneg r); lia]. intros E. apply Hbom. rewrite <- E. symmetry. change (length BOM) with 3%nat. apply take_app_le. unfold lenZ in Hb. lia. }
  cbn [obind]. destruct (validate_ok (store_all (store_all (store_all self (column_values LM_V_HOST (h_host h))) (column_values LM_V_PROGRAM (h_app h) ++ column_values LM_V_PID (h_procid h) ++ column_values LM_V_MSGID (h_msgid h))) (h_sd h ≫= elem_values)) (mo_flags options) (h_msg h) r) as (utf8 & ->).
  cbn [obind cur_buf cur_left]. rewrite store_value_app by done. cbn [obind]. exists utf8. unfold rfc_values. by rewrite !store_all_app.
Qed.
End rest.

(** The text of a stamp, from [log_stamp_format]. *)
Lemma format_iso_text (localtime : Z -> tm) (mktime : tm -> Z * tm) (caches caches' : TimeCaches) (stamp : LogStamp) (zone d : Z) (date r : bytes) :
  let z := if bool_decide (zone <> -1) then zone else zone_offset stamp in
  caches_ok localtime mktime caches -> tv_sec stamp + z <> 0 -> date_ok (gmtime (tv_sec stamp + z)) -> zone_range z -> log_stamp_format caches stamp TS_FMT_ISO zone d = Ret (date, caches') ->
  date ++ r = iso_text (gmtime (tv_sec stamp + z)) d (tv_usec stamp mod 1000000) z r.
Proof.
  intros z Hc Hw Hd Hz H. destruct (cached_gmtime_ok localtime mktime caches (tv_sec stamp + z) Hc) as (t & c1 & E1 & _ & [->|[? _]]); [|done].
  unfold log_stamp_format, log_stamp_append_format in H. fold z in H. rewrite E1 in H. cbn [obind] in H. rewrite put_iso in H by done. cbn [obind] in H. injection H as <- <-.
  unfold iso_text. by rewrite iso_date_app, <- app_assoc, format_zone.
Qed.

(** Flags of a source for RFC 5424 messages. *)
Record proto_flags (flags : Z) : Prop := {
  pf_proto : has_flag flags LP_SYSLOG_PROTOCOL = true;
  pf_parse : has_flag flags LP_NOPARSE = false;
  pf_date : has_flag flags LP_NO_PARSE_DATE = false;
  pf_host : has_flag flags LP_CHECK_HOSTNAME = false;
  pf_lines : has_flag flags LP_NO_MULTI_LINE = false
}.

Lemma strip_length_id (x r : bytes) : match last x with Some b => b <> 10 /\ b <> 0 | None => False end -> strip_length (x ++ r) (length x) = length x.
Proof.
  intros H. destruct (last x) as [b|] eqn:E; [|done]. apply last_Some in E as [x' ->]. rewrite length_app. cbn [length]. rewrite Nat.add_1_r. cbn [strip_length].
  rewrite <- app_assoc. cbn [app]. rewrite list_lookup_middle by done. destruct H as [H1 H2]. by rewrite !isc_neq.
Qed.

Lemma print_tail_app (h : rfc5424) (r : bytes) : print_tail h [] ++ r = print_tail h r.
Proof. unfold print_tail, print_columns. cbn [foldr]. repeat (rewrite <- app_assoc; cbn [app]). done. Qed.

Section proto.
Context (localtime : Z -> tm) (mktime : tm -> Z * tm) (now user_notice pid : Z) (g_utf8_validate : bytes -> bool).

Lemma parse_proto_ok (options : MsgFormatOptions) (h : rfc5424) (w d u z k : Z) (r : bytes) (self : LogMessage) (caches : TimeCaches) :
  proto_flags (mo_flags options) -> rfc_ok (mo_sdata_param_value_max options) h -> caches_ok localtime mktime caches -> date_ok (gmtime w) -> 0 <= u < 1000000 -> zone_range z ->
  (forall g, mktime_at localtime mktime (meant w g) k) -> (k <> 0 -> same_call (meant w 0) (mktime_prev_tm caches) = false) -> lenZ (print_tail h []) < 2 ^ 31 ->
  let head r := 60 :: decimal (h_pri h) ++ 62 :: 49 :: 32 :: iso_text (gmtime w) d u z (32 :: r) in
  exists m caches', log_msg_parse_syslog_proto localtime mktime now user_notice g_utf8_validate options (mkCursor (head (print_tail h r)) (lenZ (head (print_tail h [])))) self caches = Ret (m, None, caches') /\
    lm_pri m = h_pri h /\ lm_stamp m = mkStamp (w - z) (kept d u) z /\
    lm_values m = lm_values self ++ [(bytes_of_string ".SDATA.timeQuality.isSynced", bytes_of_string "0"); (bytes_of_string ".SDATA.timeQuality.tzKnown", bytes_of_string "1")] ++ rfc_values h ++ [(LM_V_MESSAGE, h_msg h)].
Proof.
  intros [F1 F2 F3 F4 F5] Hr Hc Hd Hu Hz Hm Hk Hlen head. pose proof (lenZ_nonneg (frac_text d u)). pose proof (lenZ_nonneg (print_tail h [])). pose proof (lenZ_nonneg (decimal (h_pri h))).
  assert (El : lenZ (head (print_tail h [])) = 2 + lenZ (decimal (h_pri h)) + (1 + (1 + (25 + lenZ (frac_text d u) + (1 + lenZ (print_tail h [])))))).
  { unfold head. rewrite lenZ_cons, lenZ_app, !lenZ_cons, iso_text_length, lenZ_cons. lia. }
  rewrite El. unfold head, log_msg_parse_syslog_proto. rewrite parse_pri_ok by (apply Hr || lia). cbn [obind]. rewrite parse_version_ok by lia. cbn [obind]. rewrite skip_space_cons by lia. cbn [obind negb].
  destruct (parse_date_iso localtime mktime now (set_pri self (h_pri h)) (mo_flags options) (mo_recv_ofs options) (gmtime w) d u z 32 (print_tail h r) (1 + lenZ (print_tail h [])) caches Hd Hu Hz eq_refl F3 Hc ltac:(lia)) as (t0 & c1 & Hc1 & Hp & ->).
  destruct (normalize_ok localtime mktime (mkStamp (tv_sec (lm_stamp (set_pri self (h_pri h)))) (kept d u) z) t0 w k (mo_recv_ofs options) c1) as (c2 & -> & _); [done|done|by rewrite Hp|cbn; intros ->; by destruct Hz|].
  cbn [obind]. rewrite skip_space_cons by lia. cbn [obind negb zone_offset tv_usec]. set (s := mkMessage _ _ _ _ _).
  destruct (proto_rest_ok g_utf8_validate options h s r Hr F4 Hlen) as (utf8 & ->). cbn [obind]. do 2 eexists. split; [done|].
  destruct (store_all_fields (rfc_values h) s) as (A & B & _ & D). set (s' := store_all s (rfc_values h)) in *. destruct (set_value_fields (if utf8 then add_flag s' LF_UTF8 else s') LM_V_MESSAGE (h_msg h)) as (A' & B' & _ & D').
  rewrite A', B', D'. assert (lm_pri (if utf8 then add_flag s' LF_UTF8 else s') = lm_pri s' /\ lm_stamp (if utf8 then add_flag s' LF_UTF8 else s') = lm_stamp s' /\ lm_values (if utf8 then add_flag s' LF_UTF8 else s') = lm_values s') as (-> & -> & ->) by (by destruct utf8).
  rewrite A, B, D. unfold s. cbn [lm_pri lm_stamp lm_values set_pri]. by rewrite <- !app_assoc.
Qed.
End proto.

(** C26: A message printed as RFC 5424 asks for, its date with [log_stamp_format],
    is taken apart again by the handler into priority, time, host, program,
    process id, message id, the parameters of the structured data with their
    values unescaped, and the text, whatever follows it in memory.  Hosts have up to 255 bytes without space, colon or opening
    bracket (IPv6 addresses are cut, syslog-format.c:757), the other columns up to 48, 128 and 32 bytes; names of elements and parameters have up to
    32 characters, but together with the name of their element at most 57 (RFC 5424 allows 64, the parser cuts them, :934), values at most
    sdata_param_value_max bytes; the text does not start with a byte order mark nor end in a newline or zero; the flags check-hostname, no-parse,
    no-parse-date and no-multi-line are not set.  The time: years with four digits, zones of whole minutes, the
    caches of the time functions are consistent and mktime resolves the local time in the same way each time. *)
Theorem rfc5424_roundtrip (localtime : Z -> tm) (mktime : tm -> Z * tm) (now user_notice pid : Z) (g_utf8_validate : bytes -> bool) (options : MsgFormatOptions)
  (stamp : LogStamp) (zone d k : Z) (date : bytes) (h : rfc5424) (r : bytes) (self : LogMessage) (caches1 caches1' caches2 : TimeCaches) :
  let z := if bool_decide (zone <> -1) then zone else zone_offset stamp in
  let w := tv_sec stamp + z in
  log_stamp_format caches1 stamp TS_FMT_ISO zone d = Ret (date, caches1') ->
  caches_ok localtime mktime caches1 -> caches_ok localtime mktime caches2 -> w <> 0 -> date_ok (gmtime w) -> zone_range z ->
  (forall g, mktime_at localtime mktime (meant w g) k) -> (k <> 0 -> same_call (meant w 0) (mktime_prev_tm caches2) = false) ->
  proto_flags (mo_flags options) -> rfc_ok (mo_sdata_param_value_max options) h ->
  let text := print_rfc5424 date h in
  lenZ text < 2 ^ 31 ->
  exists m caches2', syslog_format_handler localtime mktime now user_notice pid g_utf8_validate options (text ++ r) (length text) self caches2 = Ret (m, caches2') /\
    lm_pri m = h_pri h /\ lm_stamp m = mkStamp (tv_sec stamp) (kept d (tv_usec stamp mod 1000000)) z /\
    lm_values m = lm_values self ++ [(bytes_of_string ".SDATA.timeQuality.isSynced", bytes_of_string "0"); (bytes_of_string ".SDATA.timeQuality.tzKnown", bytes_of_string "1")] ++ rfc_values h ++ [(LM_V_MESSAGE, h_msg h)].
Proof.
  intros z w Hfmt H1 H2 Hw Hd Hz Hm Hk Hf Hr text Hlen. pose proof (format_iso_text localtime mktime caches1 caches1' stamp zone d date) as Hdate. fold z w in Hdate. specialize (fun r => Hdate r H1 Hw Hd Hz Hfmt) as Hdate.
  unfold syslog_format_handler. rewrite strip_length_id.
  2:{ unfold text, print_rfc5424, print_tail, print_columns. cbn [foldr]. rewrite app_nil_r. destruct Hr as [_ _ _ _ _ _ _ He].
      repeat first [rewrite last_cons | rewrite last_app]. destruct (last (h_msg h)) as [b|]; done. }
  destruct Hf as [F1 F2 F3 F4 F5]. rewrite F2, F1.
  set (self' := if has_flag (mo_flags options) LP_LOCAL then _ else _). assert (Ev : lm_values self' = lm_values self) by (unfold self'; by destruct (has_flag _ LP_LOCAL), (has_flag _ LP_ASSUME_UTF8)).
  assert (Et : forall x, text ++ x = 60 :: decimal (h_pri h) ++ 62 :: 49 :: 32 :: iso_text (gmtime w) d (tv_usec stamp mod 1000000) z (32 :: print_tail h x)).
  { intros x. unfold text, print_rfc5424. rewrite <- Hdate. cbn [app]. rewrite <- app_assoc. cbn [app]. rewrite <- app_assoc. cbn [app]. by rewrite print_tail_app. }
  assert (El : lenZ text = lenZ (60 :: decimal (h_pri h) ++ 62 :: 49 :: 32 :: iso_text (gmtime w) d (tv_usec stamp mod 1000000) z (32 :: print_tail h []))) by (by rewrite <- Et, app_nil_r).
  change (Z.of_nat (length text)) with (lenZ text). rewrite Et, El. rewrite El in Hlen. clearbody text.
  destruct (parse_proto_ok localtime mktime now user_notice g_utf8_validate options h w d (tv_usec stamp mod 1000000) z k r self' caches2) as (m & c & E & Ep & Es & Evl); [by split|done|done|done|by apply Z.mod_pos_bound|done|done|done| |].
  { rewrite lenZ_cons, lenZ_app, !lenZ_cons, iso_text_length, lenZ_cons in Hlen. pose proof (lenZ_nonneg (decimal (h_pri h))). pose proof (lenZ_nonneg (frac_text d (tv_usec stamp mod 1000000))). lia. }
  rewrite E. cbn [obind]. rewrite F5. do 2 eexists. split_and!; [done|done|rewrite Es; f_equal; unfold w; lia|by rewrite Evl, Ev].
Qed.

Lemma rfc5424_roundtrip_witness : exists date caches m caches',
  log_stamp_format initial_caches (mkStamp 951825296 120345 7200) TS_FMT_ISO (-1) 3 = Ret (date, caches) /\
  let h := mkRfc 165 (Some (bytes_of_string "host")) (Some (bytes_of_string "su")) None None [mkElem (bytes_of_string "a@1") [(bytes_of_string "x", [34; 93]); (bytes_of_string "y", [])]; mkElem (bytes_of_string "b") []] (bytes_of_string "hello") in
  syslog_format_handler east_localtime east_mktime 951829999 13 1 (fun _ => true) (mkOptions LP_SYSLOG_PROTOCOL 0xFFFF (-1) None 65535) (print_rfc5424 date h ++ [10]) (length (print_rfc5424 date h)) (mkMessage 0 0 (mkStamp 0 0 (-1)) (mkStamp 0 0 0) []) initial_caches = Ret (m, caches') /\
  lm_pri m = 165 /\ lm_stamp m = mkStamp 951825296 120000 7200.
Proof.
  set (h := mkRfc 165 _ _ _ _ _ _).
  assert (E : exists date caches, log_stamp_format initial_caches (mkStamp 951825296 120345 7200) TS_FMT_ISO (-1) 3 = Ret (date, caches) /\ length date = 29%nat) by (vm_compute; by do 2 eexists).
  destruct E as (date & caches & E & L).
  destruct (rfc5424_roundtrip east_localtime east_mktime 951829999 13 1 (fun _ => true) (mkOptions LP_SYSLOG_PROTOCOL 0xFFFF (-1) None 65535) (mkStamp 951825296 120345 7200) (-1) 3 0 date h [10]
    (mkMessage 0 0 (mkStamp 0 0 (-1)) (mkStamp 0 0 0) []) initial_caches caches initial_caches) as (m & c & H1 & H2 & H3 & _);
    [done|apply initial_caches_ok|apply initial_caches_ok|done| |done|intros g; by apply east_mktime_at|done|by split| | |].
  - split; [apply gmtime_range|]. vm_compute. split; [intros [=]|reflexivity].
  - split; try done; cbn; unfold host_ok, elem_ok, sd_name_ok; cbn; repeat first [split | constructor | done].
  - unfold print_rfc5424, lenZ. cbn [length]. rewrite length_app. cbn [length]. rewrite length_app, L. vm_compute. reflexivity.
  - exists date, caches, m, c. split_and!; done.
Defined.

(** * Traditional messages are read back as they were written *)

Record rfc3164 := mkBsd { l_pri : Z; l_host : bytes; l_program : bytes; l_pid : bytes; l_msg : bytes }.

Definition print_program (h : rfc3164) : bytes := l_program h ++ 91 :: l_pid h ++ [93; 58; 32].
Definition print_rfc3164 (date : bytes) (h : rfc3164) : bytes := 60 :: decimal (l_pri h) ++ 62 :: date ++ 32 :: l_host h ++ 32 :: print_program h ++ l_msg h.

Record bsd_ok (bad_hostname : option (bytes -> bool)) (h : rfc3164) : Prop := {
  bo_pri : 0 <= l_pri h < 2 ^ 16;
  bo_host : host_ok (l_host h);
  bo_host_text : Forall (fun b => b <> 0) (l_host h) /\ l_host h <> [];
  bo_good : match bad_hostname with Some re => re (l_host h) = false | None => True end;
  bo_aix : l_host h <> bytes_of_string "Message" /\ l_host h <> bytes_of_string "last";
  bo_program : Forall (fun b => isc 32 b || isc 91 b || isc 58 b = false /\ b <> 0) (l_program h);
  bo_pid : Forall (fun b => isc 32 b || isc 93 b || isc 58 b = false) (l_pid h);
  bo_end : match last (l_msg h) with Some b => b <> 10 /\ b <> 0 | None => True end
}.

(** ** Pieces *)

Lemma skip_chars_app (chars x r : bytes) (k : Z) : Forall (fun b => in_chars chars b = true) x -> halts (in_chars chars) r k -> skip_chars_loop chars (x ++ r) (lenZ x + k) (-1) = Ret (mkCursor r k).
Proof.
  intros Hx Hr. assert (0 <= k) by (destruct Hr; lia). induction Hx as [|b x Hb Hx IH].
  - change (lenZ []) with 0. rewrite Z.add_0_l. cbn [app]. destruct Hr as [->|[Hk Hr]]; [by destruct r|]. destruct r as [|b r]; [done|]. cbn [skip_chars_loop]. rewrite bool_decide_eq_false_2 by lia. by rewrite Hr.
  - rewrite lenZ_cons. pose proof (lenZ_nonneg x). cbn [app skip_chars_loop]. rewrite bool_decide_eq_false_2 by lia. rewrite Hb. change (bool_decide (-1 >= 0)) with false. cbn iota. replace (1 + lenZ x + k - 1) with (lenZ x + k) by lia. done.
Qed.

Lemma skip_one_space (r : bytes) (k : Z) : halts (in_chars [32]) r k -> log_msg_parse_skip_chars (mkCursor (32 :: r) (1 + k)) [32] (-1) = Ret (mkCursor r k).
Proof. intros Hr. apply (skip_chars_app [32] [32] r k); [by repeat constructor|done]. Qed.
Lemma skip_no_space (r : bytes) (k : Z) : halts (in_chars [32]) r k -> log_msg_parse_skip_chars (mkCursor r k) [32] (-1) = Ret (mkCursor r k).
Proof. intros Hr. apply (skip_chars_app [32] [] r k); [done|done]. Qed.

Lemma in_spaces_false (b : Z) : b <> 32 -> b <> 0 -> in_chars [32] b = false.
Proof. intros H1 H2. apply bool_decide_eq_false_2. rewrite list_elem_of_singleton. tauto. Qed.

Lemma parse_hostname_good (flags : Z) (bad : option (bytes -> bool)) (h r : bytes) (k : Z) : has_flag flags LP_CHECK_HOSTNAME = false -> host_ok h -> Forall (fun b => b <> 0) h ->
  match bad with Some re => re h = false | None => True end -> 0 < k ->
  log_msg_parse_hostname (mkCursor (h ++ 32 :: r) (lenZ h + k)) flags bad = Ret (Some (h ++ 32 :: r, lenZ h), mkCursor (32 :: r) k).
Proof.
  intros Hf [Hh Hl] Hn Hb Hk. unfold log_msg_parse_hostname. cbn [cur_buf cur_left]. rewrite hostname_loop_app by (done || (change (lenZ []) with 0; lia)). cbn [obind app]. rewrite left_and_cons by lia. cbn [obind].
  rewrite c_string_app by done. cbn [obind]. rewrite isc_refl. replace (match bad with None => true | Some re => negb (re h) end) with true by (destruct bad; [by rewrite Hb|done]). cbn [andb cur_left].
  by replace (Z.min (lenZ h + k - k) 255) with (lenZ h) by lia.
Qed.

(** A word and a space in front do not look like a text with another first word. *)
Lemma first_word (x y a b : bytes) : Forall (fun b => b <> 32) x -> Forall (fun b => b <> 32) a -> a ++ 32 :: b = x ++ 32 :: y -> a = x.
Proof.
  intros Hx. revert a. induction Hx as [|c x Hc Hx IH]; intros a Ha E; destruct Ha as [|c' a Hc' Ha]; [done|injection E as E1 _; congruence|injection E as E1 _; congruence|]. injection E as -> E. by rewrite (IH a Ha E).
Qed.

Lemma not_at_word (x y h r : bytes) (n k : Z) : Forall (fun b => b <> 32) x -> Forall (fun b => b <> 32) h -> h <> x -> 0 <= k <= lenZ (h ++ 32 :: r) -> k < 2 ^ 31 -> lenZ (x ++ 32 :: y) <= n ->
  looks_at (mkCursor (h ++ 32 :: r) k) n (x ++ 32 :: y) = Ret false.
Proof.
  intros Hx Hh Hne Hk Hk2 Hn. unfold looks_at. cbn [cur_left cur_buf]. rewrite u64_small by lia. case_bool; [|done]. rewrite bool_decide_eq_true_2 by lia. rewrite bool_decide_eq_false_2; [done|]. intros E. apply Hne.
  pose proof (take_drop (length (x ++ 32 :: y)) (h ++ 32 :: r)) as T. rewrite E, <- app_assoc in T. cbn [app] in T. symmetry in T. eapply first_word; [exact Hx|exact Hh|exact T].
Qed.

Lemma step_if_cons (v : Z) (r : bytes) (k : Z) : 0 <= k -> step_if v (mkCursor (v :: r) (1 + k)) = Ret (mkCursor r k).
Proof. intros Hk. unfold step_if. rewrite left_pos_and_cons by lia. cbn [obind]. rewrite isc_refl, advance_one. by replace (1 + k - 1) with k by lia. Qed.

(** What is stored of the program, in this order. *)
Definition program_stored (flags : Z) (h : rfc3164) (self : LogMessage) : LogMessage :=
  let self := store_all self [(LM_V_PROGRAM, l_program h); (LM_V_PID, l_pid h)] in
  if has_flag flags LP_STORE_LEGACY_MSGHDR then add_flag (log_msg_set_value self LM_V_LEGACY_MSGHDR (print_program h)) LF_LEGACY_MSGHDR else self.

Lemma parse_program_ok (flags : Z) (bad : option (bytes -> bool)) (h : rfc3164) (self : LogMessage) (r : bytes) (k : Z) : bsd_ok bad h -> 0 <= k ->
  log_msg_parse_legacy_program_name self (mkCursor (print_program h ++ r) (lenZ (print_program h) + k)) flags = Ret (program_stored flags h self, mkCursor r k).
Proof.
  intros [_ _ _ _ _ Hp Hq _] Hk. destruct h as [pri host prog pid msg]. unfold print_program in *. cbn [l_program l_pid] in *. pose proof (lenZ_nonneg prog). pose proof (lenZ_nonneg pid).
  assert (El : lenZ (prog ++ 91 :: pid ++ [93; 58; 32]) + k = lenZ prog + (1 + (lenZ pid + (1 + (1 + (1 + k)))))) by (rewrite lenZ_app, lenZ_cons, lenZ_app, !lenZ_cons; change (lenZ []) with 0; lia).
  assert (Et : (prog ++ 91 :: pid ++ [93; 58; 32]) ++ r = prog ++ 91 :: pid ++ 93 :: 58 :: 32 :: r) by (by rewrite <- app_assoc, <- app_comm_cons, <- app_assoc).
  unfold log_msg_parse_legacy_program_name. rewrite El. rewrite Et at 1. cbn [cur_buf cur_left].
  rewrite skip_while_app; [|eapply Forall_impl; [exact Hp|]; intros b [-> _]; done|right; split; [lia|done]]. cbn [obind cur_left]. rewrite Et at 1. rewrite store_value_app by lia. cbn [obind]. rewrite left_pos_and_cons by lia. cbn [obind]. rewrite isc_refl.
  rewrite advance_one. cbn [cur_buf cur_left]. change (91 :: pid ++ 93 :: 58 :: 32 :: r) with ((91 :: pid) ++ 93 :: 58 :: 32 :: r).
  replace (1 + (lenZ pid + (1 + (1 + (1 + k))))) with (lenZ (91 :: pid) + (1 + (1 + (1 + k)))) by (rewrite lenZ_cons; lia). rewrite skip_while_app; [|constructor; [done|]; eapply Forall_impl; [exact Hq|]; by intros b ->|right; split; [lia|done]].
  cbn [obind cur_left]. rewrite bool_decide_eq_false_2 by lia. rewrite store_value_app by (rewrite lenZ_cons; lia). cbn [obind]. rewrite step_if_cons by lia. cbn [obind]. rewrite step_if_cons by lia. cbn [obind]. rewrite step_if_cons by lia. cbn [obind cur_left cur_buf].
  unfold program_stored. cbn [l_program l_pid print_program]. destruct (has_flag flags LP_STORE_LEGACY_MSGHDR); [|done]. rewrite store_value_app by (autorewrite with sng; lia). done.
Qed.

(** Flags of a source for traditional messages that carry a host. *)
Record legacy_flags (flags : Z) : Prop := {
  lf_proto : has_flag flags LP_SYSLOG_PROTOCOL = false;
  lf_parse : has_flag flags LP_NOPARSE = false;
  lf_date : has_flag flags LP_NO_PARSE_DATE = false;
  lf_check : has_flag flags LP_CHECK_HOSTNAME = false;
  lf_expect : has_flag flags LP_EXPECT_HOSTNAME = true;
  lf_lines : has_flag flags LP_NO_MULTI_LINE = false
}.

Definition legacy_tail (h : rfc3164) (r : bytes) : bytes := l_host h ++ 32 :: print_program h ++ l_msg h ++ r.

Lemma host_no_space (h : bytes) : host_ok h -> Forall (fun b => b <> 32) h.
Proof. intros [H _]. eapply Forall_impl; [exact H|]. intros b Hb ->. done. Qed.

Lemma program_head (bad : option (bytes -> bool)) (h : rfc3164) (r : bytes) (k : Z) : bsd_ok bad h -> 0 < k -> halts (in_chars [32]) (print_program h ++ r) k.
Proof.
  intros [_ _ _ _ _ Hp _ _] Hk. right. split; [done|]. unfold print_program. destruct Hp as [|b x [Hb Hz] _]; [done|]. cbn. apply in_spaces_false; [|done]. by intros ->.
Qed.

Lemma legacy_header_ok (options : MsgFormatOptions) (h : rfc3164) (self : LogMessage) (r : bytes) : legacy_flags (mo_flags options) -> bsd_ok (mo_bad_hostname options) h -> lenZ (legacy_tail h []) < 2 ^ 31 - 1 ->
  legacy_header options self (mkCursor (32 :: legacy_tail h r) (1 + lenZ (legacy_tail h []))) =
    Ret (log_msg_set_value (program_stored (mo_flags options) h self) LM_V_HOST (l_host h), mkCursor (l_msg h ++ r) (lenZ (l_msg h))).
Proof.
  intros [F1 F2 F3 F4 F5 F6] Hh Hlen. pose proof Hh as [_ B2 [B3 B3'] B4 [B5 B5'] _ _ _]. pose proof (lenZ_nonneg (l_host h)). pose proof (lenZ_nonneg (l_msg h)).
  assert (Hpp : 0 < lenZ (print_program h)) by (unfold print_program; autorewrite with sng; pose proof (lenZ_nonneg (l_program h)); pose proof (lenZ_nonneg (l_pid h)); lia).
  assert (El : lenZ (legacy_tail h []) = lenZ (l_host h) + (1 + (lenZ (print_program h) + lenZ (l_msg h)))) by (unfold legacy_tail; autorewrite with sng; lia).
  rewrite El in *. unfold legacy_header. rewrite skip_one_space.
  2:{ right. split; [lia|]. unfold legacy_tail. destruct (l_host h) as [|b x]; [done|]. cbn [app]. inversion B3; subst. apply in_spaces_false; [|done]. intros ->. by apply host_no_space in B2; inversion B2. }
  cbn [obind]. unfold legacy_tail. set (rest := print_program h ++ l_msg h ++ r). assert (Hrest : lenZ rest = lenZ (print_program h) + lenZ (l_msg h) + lenZ r) by (unfold rest; autorewrite with sng; lia). pose proof (lenZ_nonneg r).
  rewrite (not_at_word (bytes_of_string "Message") (bytes_of_string "forwarded from ")); [|by repeat constructor|by apply host_no_space|done|rewrite lenZ_app, lenZ_cons; lia|lia|done]. cbn [obind].
  rewrite (not_at_word (bytes_of_string "last") (bytes_of_string "message repeated")); [|by repeat constructor|by apply host_no_space|done|rewrite lenZ_app, lenZ_cons; lia|lia|by vm_compute]. cbn [obind]. rewrite F5.
  rewrite parse_hostname_good by (done || lia). cbn [obind]. unfold rest. rewrite skip_one_space by (apply (program_head (mo_bad_hostname options)); [done|lia]). cbn [obind].
  rewrite (parse_program_ok _ (mo_bad_hostname options)) by done. cbn [obind]. by rewrite store_value_app.
Qed.

Lemma land_ldiff (a b c : Z) : Z.land b c = 0 -> Z.land (Z.ldiff a b) c = Z.land a c.
Proof.
  intros H. apply Z.bits_inj'. intros n Hn. rewrite !Z.land_spec, Z.ldiff_spec. assert (E : Z.testbit (Z.land b c) n = false) by (rewrite H; apply Z.bits_0). rewrite Z.land_spec in E.
  destruct (Z.testbit a n), (Z.testbit b n), (Z.testbit c n); done.
Qed.
Lemma ldiff_flag (flags f g : Z) : Z.land f g = 0 -> has_flag (Z.ldiff flags f) g = has_flag flags g.
Proof. intros H. unfold has_flag. by rewrite land_ldiff. Qed.
Lemma ldiff_self (flags f : Z) : has_flag (Z.ldiff flags f) f = false.
Proof. unfold has_flag. rewrite bool_decide_eq_false_2; [done|]. intros H. apply H. apply Z.bits_inj'. intros n Hn. rewrite Z.land_spec, Z.ldiff_spec, Z.bits_0. by destruct (Z.testbit flags n), (Z.testbit f n). Qed.

(** A date starts with a letter: no sequence number, no space. *)
Lemma date_first (t : tm) (r : bytes) : tm_range t -> exists a l, bsd_date t r = a :: l /\ 65 <= a <= 90.
Proof. intros R. pose proof (tr_mon _ R) as H. unfold bsd_date. set (x := tm_mon t) in *. clearbody x. each_month H; do 2 eexists; (split; [reflexivity|done]). Qed.

(** The text of a stamp without year. *)
Lemma format_bsd_text (localtime : Z -> tm) (mktime : tm -> Z * tm) (caches caches' : TimeCaches) (stamp : LogStamp) (z d : Z) (date r : bytes) :
  caches_ok localtime mktime caches -> tv_sec stamp + z <> 0 -> z <> -1 -> log_stamp_format caches stamp TS_FMT_BSD z d = Ret (date, caches') ->
  date ++ r = bsd_date (gmtime (tv_sec stamp + z)) (frac_text d (tv_usec stamp mod 1000000) ++ r).
Proof.
  intros Hc Hw Hz H. destruct (cached_gmtime_ok localtime mktime caches (tv_sec stamp + z) Hc) as (t & c1 & E1 & _ & [->|[? _]]); [|done].
  unfold log_stamp_format, log_stamp_append_format in H. rewrite (bool_decide_eq_true_2 (z <> -1)) in H by done. rewrite E1 in H. cbn [obind] in H. rewrite put_bsd in H by apply gmtime_range. cbn [obind] in H. injection H as <- <-.
  unfold bsd_date, pad, two. rewrite <- !app_assoc. done.
Qed.

Lemma program_stored_fields (flags : Z) (h : rfc3164) (self : LogMessage) : let self' := program_stored flags h self in
  lm_pri self' = lm_pri self /\ lm_stamp self' = lm_stamp self /\
  lm_values self' = lm_values self ++ [(LM_V_PROGRAM, l_program h); (LM_V_PID, l_pid h)] ++ if has_flag flags LP_STORE_LEGACY_MSGHDR then [(LM_V_LEGACY_MSGHDR, print_program h)] else [].
Proof.
  unfold program_stored. set (s := store_all self _). destruct (store_all_fields [(LM_V_PROGRAM, l_program h); (LM_V_PID, l_pid h)] self) as (A & B & _ & D). fold s in A, B, D.
  destruct (has_flag flags LP_STORE_LEGACY_MSGHDR); [|by rewrite app_nil_r]. destruct (set_value_fields s LM_V_LEGACY_MSGHDR (print_program h)) as (A' & B' & _ & D'). cbn [lm_pri lm_stamp lm_values add_flag set_flags].
  rewrite A', B', D', A, B, D. by rewrite <- !app_assoc.
Qed.

Section legacy.
Context (localtime : Z -> tm) (mktime : tm -> Z * tm) (now user_notice pid : Z) (g_utf8_validate : bytes -> bool).

Lemma parse_legacy_ok (options : MsgFormatOptions) (h : rfc3164) (w d u k : Z) (r : bytes) (self : LogMessage) (caches : TimeCaches) :
  legacy_flags (mo_flags options) -> bsd_ok (mo_bad_hostname options) h -> caches_ok localtime mktime caches -> 0 <= u < 1000000 -> mo_recv_ofs options <> -1 -> zone_offset (lm_stamp self) = -1 ->
  now <> 0 -> determine_year_for_month (tm_mon (gmtime w)) (localtime now) = tm_year (gmtime w) -> (d > 0 \/ no_year (32 :: legacy_tail h r)) ->
  (forall g, mktime_at localtime mktime (meant w g) k) -> (k <> 0 -> same_call (meant w 0) (mktime_prev_tm caches) = false) -> lenZ (legacy_tail h []) < 2 ^ 31 - 1 ->
  let head r := 60 :: decimal (l_pri h) ++ 62 :: bsd_date (gmtime w) (frac_text d u ++ 32 :: r) in
  exists m caches', log_msg_parse_legacy localtime mktime now user_notice g_utf8_validate options (mkCursor (head (legacy_tail h r)) (lenZ (head (legacy_tail h [])))) self caches = Ret (m, None, caches') /\
    lm_pri m = l_pri h /\ lm_stamp m = mkStamp (w - mo_recv_ofs options) (kept d u) (mo_recv_ofs options) /\
    lm_values m = lm_values self ++ [(bytes_of_string ".SDATA.timeQuality.isSynced", bytes_of_string "0"); (LM_V_PROGRAM, l_program h); (LM_V_PID, l_pid h)] ++
      (if has_flag (mo_flags options) LP_STORE_LEGACY_MSGHDR then [(LM_V_LEGACY_MSGHDR, print_program h)] else []) ++ [(LM_V_HOST, l_host h); (LM_V_MESSAGE, l_msg h)].
Proof.
  intros Hf Hh Hc Hu Hz Hs Hn Hyear Hny Hm Hk Hlen head. pose proof (lenZ_nonneg (frac_text d u)). pose proof (lenZ_nonneg (legacy_tail h [])). pose proof (lenZ_nonneg (decimal (l_pri h))). pose proof (gmtime_range w) as R. pose proof Hf as [F1 F2 F3 F4 F5 F6].
  assert (El : lenZ (head (legacy_tail h [])) = 2 + lenZ (decimal (l_pri h)) + (15 + lenZ (frac_text d u) + (1 + lenZ (legacy_tail h [])))) by (unfold head; autorewrite with sng; rewrite bsd_date_length, lenZ_app, lenZ_cons by done; lia).
  rewrite El. unfold head, log_msg_parse_legacy. rewrite parse_pri_ok by (apply Hh || lia). cbn [obind]. set (date := bsd_date (gmtime w) (frac_text d u ++ 32 :: legacy_tail h r)). set (n := 15 + lenZ (frac_text d u) + (1 + lenZ (legacy_tail h []))).
  destruct (date_first (gmtime w) (frac_text d u ++ 32 :: legacy_tail h r) R) as (a & l & Ea & Ra). fold date in Ea.
  assert (Eq : log_msg_parse_seq (set_pri self (l_pri h)) (mkCursor date n) = Ret (set_pri self (l_pri h), mkCursor date n)).
  { unfold log_msg_parse_seq. rewrite Ea. cbn [cur_buf cur_left seq_loop]. rewrite bool_decide_eq_false_2 by (unfold n; lia). rewrite isc_neq by lia. replace (isdigit a) with false by (symmetry; apply bool_decide_eq_false_2; lia). done. }
  rewrite Eq. cbn [obind]. rewrite skip_no_space by (right; split; [unfold n; lia|rewrite Ea; apply in_spaces_false; lia]). cbn [obind].
  assert (Hbound : 0 <= 1 + lenZ (legacy_tail h []) <= lenZ (32 :: legacy_tail h r)) by (rewrite lenZ_cons; unfold legacy_tail; autorewrite with sng; pose proof (lenZ_nonneg r); pose proof (lenZ_nonneg (l_host h)); pose proof (lenZ_nonneg (print_program h)); pose proof (lenZ_nonneg (l_msg h)); lia).
  destruct (parse_date_bsd localtime mktime now (set_pri self (l_pri h)) (Z.ldiff (mo_flags options) LP_SYSLOG_PROTOCOL) (mo_recv_ofs options) (gmtime w) d u 32 (legacy_tail h r) (1 + lenZ (legacy_tail h [])) caches Hbound R Hu eq_refl ltac:(done) Hny
    ltac:(by rewrite ldiff_flag) (ldiff_self _ _) Hc Hn Hyear) as (c1 & Hc1 & Hp & E). fold date n in E. rewrite E. rewrite normalize_assume by done.
  destruct (normalize_ok localtime mktime (set_zone (set_usec (lm_stamp (set_pri self (l_pri h))) (kept d u)) (mo_recv_ofs options)) (localtime now) w k (mo_recv_ofs options) c1) as (c2 & E2 & _); [done|done|by rewrite Hp|done|]. rewrite E2. cbn [obind]. clear E E2.
  set (s := mkMessage _ _ _ _ _). rewrite legacy_header_ok by done. cbn [obind cur_buf cur_left]. rewrite store_value_app by done. cbn [obind].
  set (s2 := log_msg_set_value (log_msg_set_value (program_stored (mo_flags options) h s) LM_V_HOST (l_host h)) LM_V_MESSAGE (l_msg h)). destruct (validate_ok g_utf8_validate s2 (mo_flags options) (l_msg h) r) as (utf8 & ->). cbn [obind]. do 2 eexists. split; [done|].
  destruct (program_stored_fields (mo_flags options) h s) as (A & B & D). destruct (set_value_fields (program_stored (mo_flags options) h s) LM_V_HOST (l_host h)) as (A1 & B1 & _ & D1).
  destruct (set_value_fields (log_msg_set_value (program_stored (mo_flags options) h s) LM_V_HOST (l_host h)) LM_V_MESSAGE (l_msg h)) as (A2 & B2 & _ & D2). fold s2 in A2, B2, D2.
  assert (lm_pri (if utf8 then add_flag s2 LF_UTF8 else s2) = lm_pri s2 /\ lm_stamp (if utf8 then add_flag s2 LF_UTF8 else s2) = lm_stamp s2 /\ lm_values (if utf8 then add_flag s2 LF_UTF8 else s2) = lm_values s2) as (-> & -> & ->) by (by destruct utf8).
  rewrite A2, B2, D2, A1, B1, D1, A, B, D. unfold s. cbn [lm_pri lm_stamp lm_values set_pri set_zone set_usec zone_offset tv_usec]. rewrite <- !app_assoc. done.
Qed.
End legacy.

(** C27: A traditional message, with priority, date, host, program and process id,
    is taken apart again by the handler, when the reader assumes the zone of
    the date and reads it within a month. *)
Theorem rfc3164_roundtrip (localtime : Z -> tm) (mktime : tm -> Z * tm) (now user_notice pid : Z) (g_utf8_validate : bytes -> bool) (options : MsgFormatOptions)
  (stamp : LogStamp) (d k : Z) (date : bytes) (h : rfc3164) (r : bytes) (self : LogMessage) (caches1 caches1' caches2 : TimeCaches) :
  let z := mo_recv_ofs options in
  let w := tv_sec stamp + z in
  log_stamp_format caches1 stamp TS_FMT_BSD z d = Ret (date, caches1') ->
  caches_ok localtime mktime caches1 -> caches_ok localtime mktime caches2 -> w <> 0 -> z <> -1 -> zone_offset (lm_stamp self) = -1 ->
  now <> 0 -> 0 <= tm_mon (localtime now) <= 11 -> Z.abs (12 * (tm_year (localtime now) - tm_year (gmtime w)) + tm_mon (localtime now) - tm_mon (gmtime w)) <= 1 ->
  (forall g, mktime_at localtime mktime (meant w g) k) -> (k <> 0 -> same_call (meant w 0) (mktime_prev_tm caches2) = false) ->
  legacy_flags (mo_flags options) -> bsd_ok (mo_bad_hostname options) h -> (d > 0 \/ no_year (32 :: legacy_tail h r)) ->
  let text := print_rfc3164 date h in
  lenZ text < 2 ^ 31 ->
  exists m caches2', syslog_format_handler localtime mktime now user_notice pid g_utf8_validate options (text ++ r) (length text) self caches2 = Ret (m, caches2') /\
    lm_pri m = l_pri h /\ lm_stamp m = mkStamp (tv_sec stamp) (kept d (tv_usec stamp mod 1000000)) z /\
    lm_values m = lm_values self ++ [(bytes_of_string ".SDATA.timeQuality.isSynced", bytes_of_string "0"); (LM_V_PROGRAM, l_program h); (LM_V_PID, l_pid h)] ++
      (if has_flag (mo_flags options) LP_STORE_LEGACY_MSGHDR then [(LM_V_LEGACY_MSGHDR, print_program h)] else []) ++ [(LM_V_HOST, l_host h); (LM_V_MESSAGE, l_msg h)].
Proof.
  intros z w Hfmt H1 H2 Hw Hz Hs Hn Hm1 Hm2 Hm Hk Hf Hh Hny text Hlen. pose proof (fun r => format_bsd_text localtime mktime caches1 caches1' stamp z d date r H1 Hw Hz Hfmt) as Hdate. fold w in Hdate.
  unfold syslog_format_handler. rewrite strip_length_id.
  2:{ unfold text, print_rfc3164, print_program. destruct Hh as [_ _ _ _ _ _ _ He]. repeat first [rewrite last_cons | rewrite last_app]. destruct (last (l_msg h)) as [b|]; done. }
  pose proof Hf as [F1 F2 F3 F4 F5 F6]. rewrite F2, F1.
  set (self' := if has_flag (mo_flags options) LP_LOCAL then _ else _).
  assert (lm_values self' = lm_values self /\ lm_stamp self' = lm_stamp self) as [Ev Es] by (unfold self'; by destruct (has_flag _ LP_LOCAL), (has_flag _ LP_ASSUME_UTF8)).
  assert (Et : forall x, text ++ x = 60 :: decimal (l_pri h) ++ 62 :: bsd_date (gmtime w) (frac_text d (tv_usec stamp mod 1000000) ++ 32 :: legacy_tail h x)).
  { intros x. unfold text, print_rfc3164, legacy_tail. rewrite <- Hdate. cbn [app]. repeat (rewrite <- app_assoc; cbn [app]). done. }
  assert (El : lenZ text = lenZ (60 :: decimal (l_pri h) ++ 62 :: bsd_date (gmtime w) (frac_text d (tv_usec stamp mod 1000000) ++ 32 :: legacy_tail h []))) by (by rewrite <- Et, app_nil_r).
  change (Z.of_nat (length text)) with (lenZ text). rewrite Et, El. rewrite El in Hlen. clearbody text.
  destruct (parse_legacy_ok localtime mktime now user_notice g_utf8_validate options h w d (tv_usec stamp mod 1000000) k r self' caches2) as (m & c & E & Ep & Est & Evl);
    [done|done|done|by apply Z.mod_pos_bound|done|by rewrite Es|done|apply determine_year_ok; [apply tr_mon, gmtime_range|done|done]|done|done|done| |].
  { rewrite lenZ_cons, lenZ_app, !lenZ_cons, bsd_date_length, lenZ_app, lenZ_cons in Hlen by apply gmtime_range. pose proof (lenZ_nonneg (decimal (l_pri h))). pose proof (lenZ_nonneg (frac_text d (tv_usec stamp mod 1000000))). lia. }
  rewrite E. cbn [obind]. rewrite F6. do 2 eexists. split_and!; [done|done|rewrite Est; f_equal; unfold w, z; lia|by rewrite Evl, Ev].
Qed.

Lemma rfc3164_roundtrip_witness : exists date caches m caches',
  log_stamp_format initial_caches (mkStamp 951825296 120345 7200) TS_FMT_BSD 3600 0 = Ret (date, caches) /\
  let h := mkBsd 34 (bytes_of_string "host") (bytes_of_string "su") (bytes_of_string "12") (bytes_of_string "hello world") in
  syslog_format_handler east_localtime east_mktime 951829999 13 1 (fun _ => true) (mkOptions (Z.lor LP_EXPECT_HOSTNAME LP_STORE_LEGACY_MSGHDR) 0xFFFF 3600 None 65535) (print_rfc3164 date h ++ [10]) (length (print_rfc3164 date h)) (mkMessage 0 0 (mkStamp 0 0 (-1)) (mkStamp 0 0 0) []) initial_caches = Ret (m, caches') /\
  lm_pri m = 34 /\ lm_stamp m = mkStamp 951825296 0 3600.
Proof.
  set (h := mkBsd 34 _ _ _ _).
  assert (E : exists date caches, log_stamp_format initial_caches (mkStamp 951825296 120345 7200) TS_FMT_BSD 3600 0 = Ret (date, caches) /\ length date = 15%nat) by (vm_compute; by do 2 eexists).
  destruct E as (date & caches & E & L).
  destruct (rfc3164_roundtrip east_localtime east_mktime 951829999 13 1 (fun _ => true) (mkOptions (Z.lor LP_EXPECT_HOSTNAME LP_STORE_LEGACY_MSGHDR) 0xFFFF 3600 None 65535) (mkStamp 951825296 120345 7200) 0 0 date h [10]
    (mkMessage 0 0 (mkStamp 0 0 (-1)) (mkStamp 0 0 0) []) initial_caches caches initial_caches) as (m & c & H1 & H2 & H3 & _);
    [done|apply initial_caches_ok|apply initial_caches_ok|done|done|done|done|vm_compute; by split|by vm_compute|intros g; by apply east_mktime_at|done|by split| | | |].
  - split; try done; cbn; unfold host_ok; cbn; repeat first [split | constructor | done].
  - right. intros ? ? ? ? ? ? [=]. subst. done.
  - unfold print_rfc3164, lenZ. cbn [length]. rewrite length_app. cbn [length]. rewrite length_app, L. vm_compute. reflexivity.
  - exists date, caches, m, c. split_and!; done.
Defined.
