(* ===== verification/SyslogSafeClaims.v ===== *)
(** * The parser of syslog messages stays inside the message

    The message is followed in memory by a newline or a zero byte and by one
    more byte, which is not a space.  A cursor that is inside has a rest of the
    message in front of that; every part of the parser returns and leaves the
    cursor inside, so it reads at most those two bytes behind the message. *)
From S2P Require Import Prelude StrFormat TimeStamp Buffer SyslogDate TimeStampSpec TimeStampClaims SyslogFormat SyslogFormatSpec.

Lemma c_string_elem (buf : bytes) : 0 ∈ buf -> exists s, c_string buf = Ret s.
Proof.
  induction buf as [|b buf IH]; intros H; [by apply not_elem_of_nil in H|]. cbn [c_string]. case_bool; [by eexists|]. destruct IH as (s & ->); [by apply elem_of_cons in H as [?|?]|]. by eexists.
Qed.

Section inside.
Context (a b : Z) (beyond : bytes) (Ha : a = 10 \/ a = 0) (Hb : b <> 32).

Definition tail : bytes := a :: b :: beyond.
Definition at_ (x : bytes) : cursor := mkCursor (x ++ tail) (lenZ x).

Lemma at_nil_cons (c : Z) (x : bytes) : at_ (c :: x) = mkCursor (c :: x ++ tail) (1 + lenZ x).
Proof. unfold at_. by rewrite lenZ_cons. Qed.
Lemma move_at (c : Z) (x : bytes) : advance (at_ (c :: x)) 1 = at_ x.
Proof. rewrite at_nil_cons, advance_one. unfold at_. f_equal. lia. Qed.
Lemma advance_at_n (n : nat) (x : bytes) : (n <= length x)%nat -> advance (at_ x) n = at_ (drop n x).
Proof. intros H. unfold at_, advance. cbn [cur_buf cur_left]. rewrite drop_app_le by done. f_equal. rewrite lenZ_drop. unfold lenZ. lia. Qed.
Lemma peek_at (x : bytes) (i : nat) : (i <= length x + 1)%nat -> exists v, peek (at_ x) i = Ret v.
Proof.
  intros H. unfold peek, at_. cbn [cur_buf]. destruct (lookup_lt_is_Some_2 (x ++ tail) i) as [v ->]; [|by eexists]. rewrite length_app. unfold tail. cbn [length]. lia.
Qed.
Lemma peek_nil : peek (at_ []) 0 = Ret a.
Proof. reflexivity. Qed.
Lemma peek_cons (c : Z) (x : bytes) : peek (at_ (c :: x)) 0 = Ret c.
Proof. reflexivity. Qed.

Lemma left_and_at (x : bytes) (v : Z) : left_and (at_ x) v = Ret (match x with c :: _ => isc v c | [] => false end).
Proof. destruct x as [|c x]; [done|]. rewrite at_nil_cons. apply left_and_cons. pose proof (lenZ_nonneg x). lia. Qed.
Lemma left_pos_and_at (x : bytes) (v : Z) : left_pos_and (at_ x) v = Ret (match x with c :: _ => isc v c | [] => false end).
Proof. destruct x as [|c x]; [done|]. rewrite at_nil_cons. apply left_pos_and_cons. pose proof (lenZ_nonneg x). lia. Qed.

Lemma suffix_trans (x y z : bytes) : x `suffix_of` y -> y `suffix_of` z -> x `suffix_of` z.
Proof. intros H1 H2. by etransitivity. Qed.
Lemma suffix_len (x y : bytes) : x `suffix_of` y -> lenZ x <= lenZ y.
Proof. intros H%suffix_length. unfold lenZ. lia. Qed.

Lemma expect_at (x : bytes) (v : Z) : exists ok y, expect v (at_ x) = Ret (ok, at_ y) /\ y `suffix_of` x /\ (ok = true -> lenZ y < lenZ x) /\ (ok = false -> y = x).
Proof.
  unfold expect. rewrite left_and_at. cbn [obind]. destruct x as [|c x]; [exists false, []; by split_and!|]. destruct (isc v c).
  - rewrite move_at. exists true, x. split_and!; [done|by apply suffix_cons_r|rewrite lenZ_cons; lia|done].
  - exists false, (c :: x). by split_and!.
Qed.
Lemma skip_space_at (x : bytes) : exists ok y, log_msg_parse_skip_space (at_ x) = Ret (ok, at_ y) /\ y `suffix_of` x.
Proof.
  unfold log_msg_parse_skip_space. rewrite left_pos_and_at. cbn [obind]. destruct x as [|c x]; [by exists false, []|]. destruct (isc 32 c); [rewrite move_at; exists true, x; split; [done|by apply suffix_cons_r]|by exists false, (c :: x)].
Qed.
Lemma step_if_at (x : bytes) (v : Z) : exists y, step_if v (at_ x) = Ret (at_ y) /\ y `suffix_of` x.
Proof.
  unfold step_if. rewrite left_pos_and_at. cbn [obind]. destruct x as [|c x]; [by exists []|]. destruct (isc v c); [rewrite move_at; exists x; split; [done|by apply suffix_cons_r]|by exists (c :: x)].
Qed.

(** Values between two places inside. *)
Lemma store_value_at (self : LogMessage) (name x : bytes) (n : Z) : 0 <= n <= lenZ x -> exists self', store_value self name (x ++ tail) n = Ret self'.
Proof.
  intros H. unfold store_value, read_value. rewrite bool_decide_eq_false_2 by lia. rewrite bool_decide_eq_true_2; [by eexists|]. rewrite lenZ_app. pose proof (lenZ_nonneg tail). lia.
Qed.

(** A cursor further on in [x]. *)
Definition lands (x : bytes) (c : cursor) : Prop := exists y, c = at_ y /\ y `suffix_of` x.
Lemma lands_cons (v : Z) (x : bytes) (c : cursor) : lands x c -> lands (v :: x) c.
Proof. intros (y & -> & S). exists y. split; [done|by apply suffix_cons_r]. Qed.
Lemma lands_here (x : bytes) : lands x (at_ x).
Proof. by exists x. Qed.
Lemma lands_suffix (x y : bytes) (c : cursor) : lands y c -> y `suffix_of` x -> lands x c.
Proof. intros (z & -> & S) H. exists z. split; [done|by apply suffix_trans with y]. Qed.

(** ** Loops *)

(** One step of a loop that tests [left] first. *)
Ltac loop x := cbn [app]; rewrite ?lenZ_cons; rewrite ?(bool_decide_eq_false_2 (1 + lenZ x = 0)) by (pose proof (lenZ_nonneg x); lia); rewrite ?(bool_decide_eq_false_2 (_ \/ 1 + lenZ x = 0)) by (pose proof (lenZ_nonneg x); lia);
  replace (1 + lenZ x - 1) with (lenZ x) by lia.

Lemma skip_while_at (p : Z -> bool) (x : bytes) : exists y, skip_while p (x ++ tail) (lenZ x) = Ret (at_ y) /\ y `suffix_of` x.
Proof.
  induction x as [|c x (y & IH & S)]; [by exists []|]. cbn [app skip_while]. loop x. destruct (p c); [exists y; split; [done|by apply suffix_cons_r]|]. exists (c :: x). by rewrite at_nil_cons.
Qed.
Lemma skip_while_step (p : Z -> bool) (c : Z) (x : bytes) : p c = true -> exists y, skip_while p ((c :: x) ++ tail) (lenZ (c :: x)) = Ret (at_ y) /\ y `suffix_of` x.
Proof. intros Hp. cbn [app skip_while]. loop x. rewrite Hp. apply skip_while_at. Qed.

Lemma skip_chars_at (chars x : bytes) : exists y, log_msg_parse_skip_chars (at_ x) chars (-1) = Ret (at_ y) /\ y `suffix_of` x.
Proof.
  unfold log_msg_parse_skip_chars. cbn [cur_buf cur_left at_]. induction x as [|c x (y & IH & S)]; [by exists []|]. cbn [app skip_chars_loop]. rewrite lenZ_cons. pose proof (lenZ_nonneg x). rewrite bool_decide_eq_false_2 by lia. replace (1 + lenZ x - 1) with (lenZ x) by lia.
  destruct (in_chars chars c); [exists y; split; [done|by apply suffix_cons_r]|]. exists (c :: x). by rewrite at_nil_cons.
Qed.

Lemma pri_loop_at (x : bytes) : forall pri, exists r, pri_loop (x ++ tail) (lenZ x) pri = Ret r /\ match r with Some (_, c) => lands x c | None => True end.
Proof.
  induction x as [|c x IH]; intros pri; [eexists; split; [done|apply lands_here]|]. cbn [app pri_loop]. loop x. destruct (isc 62 c); [eexists; split; [done|]; rewrite <- at_nil_cons; apply lands_here|].
  destruct (isdigit c); [|by eexists]. destruct (IH (s32 (pri * 10 + (c - 48)))) as (r & -> & Hr). eexists. split; [done|]. destruct r as [[v e]|]; [by apply lands_cons|done].
Qed.

Lemma version_loop_at (x : bytes) : forall v, exists r, version_loop (x ++ tail) (lenZ x) v = Ret r /\ match r with Some (_, c) => lands x c | None => True end.
Proof.
  induction x as [|c x IH]; intros pri; [eexists; split; [done|apply lands_here]|]. cbn [app version_loop]. loop x. destruct (isc 32 c); [eexists; split; [done|]; rewrite <- at_nil_cons; apply lands_here|].
  destruct (isdigit c); [|by eexists]. destruct (IH (s32 (pri * 10 + (c - 48)))) as (r & -> & Hr). eexists. split; [done|]. destruct r as [[v e]|]; [by apply lands_cons|done].
Qed.

Lemma seq_loop_at (x : bytes) : exists r, seq_loop (x ++ tail) (lenZ x) = Ret r /\ match r with Some c => lands x c | None => True end.
Proof.
  induction x as [|c x (r & IH & Hr)]; [eexists; split; [done|apply lands_here]|]. cbn [app seq_loop]. loop x. destruct (isc 58 c); [eexists; split; [done|]; rewrite <- at_nil_cons; apply lands_here|].
  destruct (isdigit c); [|by eexists]. rewrite IH. eexists. split; [done|]. destruct r as [e|]; [by apply lands_cons|done].
Qed.

Lemma memchr_at (v : Z) (x : bytes) : forall n, exists r, memchr_loop (x ++ tail) v (lenZ x) n = Ret r /\ match r with Some i => exists j, i = (n + j)%nat /\ (j < length x)%nat | None => True end.
Proof.
  induction x as [|c x IH]; intros n; [by exists None|]. cbn [app memchr_loop]. rewrite lenZ_cons. pose proof (lenZ_nonneg x). rewrite bool_decide_eq_false_2 by lia. case_bool; [eexists; split; [done|]; exists 0%nat; cbn [length]; lia|].
  replace (1 + lenZ x - 1) with (lenZ x) by lia. destruct (IH (S n)) as (r & -> & Hr). eexists. split; [done|]. destruct r as [i|]; [|done]. destruct Hr as (j & -> & Hj). exists (S j). cbn [length]. lia.
Qed.

Lemma hostname_loop_at (flags : Z) (x : bytes) : forall acc, Forall is_byte x -> exists h c, hostname_loop flags (x ++ tail) (lenZ x) acc = Ret (h, c) /\ lands x c.
Proof.
  induction x as [|c x IH]; intros acc Hx; [do 2 eexists; split; [done|apply lands_here]|]. inversion Hx as [|? ? Hc Hx']; subst. cbn [app hostname_loop]. loop x.
  assert (Hstop : exists h e, (Ret (acc, mkCursor (c :: x ++ tail) (1 + lenZ x)) : outcome (bytes * cursor)) = Ret (h, e) /\ lands (c :: x) e) by (do 2 eexists; split; [done|]; rewrite <- at_nil_cons; apply lands_here).
  destruct (_ && _); [|done]. assert (Hci : exists bad, (if has_flag flags LP_CHECK_HOSTNAME then char_invalid c else Ret false) = Ret bad).
  { destruct (has_flag flags LP_CHECK_HOSTNAME); [|by eexists]. unfold char_invalid. replace (Z.shiftr c 8) with 0; [by eexists|]. rewrite Z.shiftr_div_pow2 by lia. unfold is_byte in Hc. symmetry. apply Z.div_small. lia. }
  destruct Hci as ([|] & ->); cbn [obind]; [done|]. destruct (IH (acc ++ [c]) Hx') as (h & e & -> & He). do 2 eexists. split; [done|by apply lands_cons].
Qed.

(** ** Parts of a header *)

Lemma parse_pri_at (un : Z) (self : LogMessage) (x : bytes) (dp : Z) : exists r, log_msg_parse_pri un self (at_ x) dp = Ret r /\ match r with Some (_, c) => lands x c | None => True end.
Proof.
  unfold log_msg_parse_pri. rewrite left_and_at. cbn [obind]. destruct x as [|c x]; [eexists; split; [done|apply lands_here]|]. destruct (isc 60 c); [|eexists; split; [done|apply lands_here]]. rewrite move_at. cbn [cur_buf cur_left at_].
  destruct (pri_loop_at x 0) as (r & -> & Hr). cbn [obind]. destruct r as [[p e]|]; [|by eexists]. eexists. split; [done|]. apply lands_cons. destruct Hr as (y & -> & S). case_bool; [by exists y|].
  destruct y as [|c' y]; [done|]. rewrite move_at. exists y. split; [done|]. by apply suffix_cons_l in S.
Qed.

Lemma parse_version_at (x : bytes) : exists r, log_msg_parse_version (at_ x) = Ret r /\ match r with Some c => lands x c | None => True end.
Proof. unfold log_msg_parse_version. cbn [cur_buf cur_left at_]. destruct (version_loop_at x 0) as (r & -> & Hr). cbn [obind]. eexists. split; [done|]. destruct r as [[v e]|]; [|done]. by case_bool. Qed.

Lemma parse_column_at (self : LogMessage) (name x : bytes) (max : Z) : 0 <= max -> lenZ x < 2 ^ 31 -> exists self' c, log_msg_parse_column self name (at_ x) max = Ret (self', c) /\ lands x c.
Proof.
  intros Hm Hl. pose proof (lenZ_nonneg x). unfold log_msg_parse_column, memchr. cbn [cur_buf cur_left at_]. rewrite u64_small by lia. destruct (memchr_at 32 x 0) as (r & -> & Hr). cbn [obind].
  assert (He : exists y, (match r with Some i => Ret (advance (at_ x) i) | None => if bool_decide (0 <= lenZ x <= lenZ (x ++ tail)) then Ret (mkCursor (drop (Z.to_nat (lenZ x)) (x ++ tail)) 0) else Abort end) = Ret (at_ y) /\ y `suffix_of` x).
  { destruct r as [i|].
    - destruct Hr as (j & -> & Hj). rewrite advance_at_n by lia. eexists. split; [done|apply suffix_drop].
    - rewrite bool_decide_eq_true_2 by (rewrite lenZ_app; pose proof (lenZ_nonneg tail); lia). exists []. split; [|apply suffix_nil]. unfold at_. do 2 f_equal. unfold lenZ. by rewrite Nat2Z.id, drop_app_length. }
  destruct He as (y & -> & S). cbn [obind cur_left at_]. pose proof (suffix_len _ _ S). pose proof (lenZ_nonneg y). case_bool; [do 2 eexists; split; [done|by exists y]|].
  assert (Hn : exists dash, (if bool_decide (lenZ x - lenZ y > 1) then Ret false else let! b0 := peek (at_ x) 0 in Ret (isc 45 b0)) = Ret dash) by (case_bool; [by eexists|]; destruct (peek_at x 0 ltac:(lia)) as (v & ->); by eexists).
  destruct Hn as (dash & ->). cbn [obind]. destruct dash; [do 2 eexists; split; [done|by exists y]|]. destruct (store_value_at self name x (Z.min (lenZ x - lenZ y) max) ltac:(lia)) as (s & ->). cbn [obind]. do 2 eexists. split; [done|by exists y].
Qed.

Lemma parse_seq_at (self : LogMessage) (x : bytes) : exists self' c, log_msg_parse_seq self (at_ x) = Ret (self', c) /\ lands x c.
Proof.
  unfold log_msg_parse_seq. cbn [cur_buf cur_left at_]. destruct (seq_loop_at x) as (r & -> & Hr). cbn [obind]. destruct r as [e|]; [|do 2 eexists; split; [done|apply lands_here]]. destruct Hr as (y & -> & S). destruct y as [|c y].
  - replace (peek (advance (at_ []) 1) 0) with (Ret b) by done. cbn [obind]. rewrite isc_neq by done. do 2 eexists. split; [done|apply lands_here].
  - rewrite move_at. destruct (peek_at y 0 ltac:(lia)) as (v & ->). cbn [obind]. destruct (negb (isc 32 v)); [do 2 eexists; split; [done|apply lands_here]|]. apply suffix_len in S as L. rewrite lenZ_cons in L. pose proof (lenZ_nonneg y).
    cbn [cur_left at_]. destruct (store_value_at self (bytes_of_string ".SDATA.meta.sequenceId") x (lenZ x - lenZ y - 1) ltac:(lia)) as (s & ->). cbn [obind]. do 2 eexists. split; [done|]. exists y. split; [done|by apply suffix_cons_l in S].
Qed.

Lemma parse_program_at (self : LogMessage) (x : bytes) (flags : Z) : exists self' c, log_msg_parse_legacy_program_name self (at_ x) flags = Ret (self', c) /\ lands x c.
Proof.
  unfold log_msg_parse_legacy_program_name. cbn [cur_buf cur_left at_]. destruct (skip_while_at (fun b => negb (isc 32 b || isc 91 b || isc 58 b)) x) as (e & -> & S). cbn [obind cur_left at_]. pose proof (suffix_len _ _ S). pose proof (lenZ_nonneg e).
  destruct (store_value_at self LM_V_PROGRAM x (lenZ x - lenZ e) ltac:(lia)) as (s & ->). cbn [obind]. rewrite left_pos_and_at. cbn [obind].
  match goal with |- context [obind (if ?g then ?m else Ret (s, at_ e)) _] => assert (Hpid : exists s' y, (if g then m else Ret (s, at_ e)) = Ret (s', at_ y) /\ y `suffix_of` e) end.
  { destruct e as [|c e]; [by exists s, []|]. destruct (isc 91 c) eqn:E91; [|by exists s, (c :: e)]. apply bool_decide_eq_true in E91. subst c. rewrite move_at. cbn [cur_buf cur_left at_].
    destruct (skip_while_step (fun b => negb (isc 32 b || isc 93 b || isc 58 b)) 91 e eq_refl) as (y & E & Sy). rewrite E. cbn [obind cur_left at_]. pose proof (suffix_len _ _ Sy). pose proof (lenZ_nonneg y).
    assert (Hs : exists s', (if bool_decide (lenZ y = 0) then Ret s else store_value s LM_V_PID (e ++ tail) (lenZ e - lenZ y)) = Ret s') by (case_bool; [by eexists|apply store_value_at; lia]). destruct Hs as (s' & ->). cbn [obind].
    destruct (step_if_at y 93) as (z & -> & Sz). cbn [obind]. exists s', z. split; [done|]. apply suffix_cons_r. by apply suffix_trans with y. }
  destruct Hpid as (s' & y & -> & Sy). cbn [obind]. destruct (step_if_at y 58) as (y2 & -> & S2). cbn [obind]. destruct (step_if_at y2 32) as (y3 & -> & S3). cbn [obind].
  assert (S4 : y3 `suffix_of` x) by eauto using suffix_trans. pose proof (suffix_len _ _ S4). pose proof (lenZ_nonneg y3). destruct (has_flag flags LP_STORE_LEGACY_MSGHDR); [|do 2 eexists; split; [done|by exists y3]].
  cbn [cur_left at_]. destruct (store_value_at s' LM_V_LEGACY_MSGHDR x (lenZ x - lenZ y3) ltac:(lia)) as (s4 & ->). cbn [obind]. do 2 eexists. split; [done|by exists y3].
Qed.

Lemma parse_hostname_at (x : bytes) (flags : Z) (bad : option (bytes -> bool)) : Forall is_byte x ->
  exists h c, log_msg_parse_hostname (at_ x) flags bad = Ret (h, c) /\ lands x c /\ match h with Some (start, n) => start = x ++ tail /\ 0 <= n <= lenZ x | None => True end.
Proof.
  intros Hx. unfold log_msg_parse_hostname. cbn [cur_buf cur_left at_]. destruct (hostname_loop_at flags x [] Hx) as (h & c & -> & y & -> & S). cbn [obind]. rewrite left_and_at. cbn [obind]. destruct (c_string_total h) as (s & ->). cbn [obind].
  pose proof (suffix_len _ _ S). pose proof (lenZ_nonneg y). destruct (_ && _); do 2 eexists; (split; [done|]); (split; [|]); [by exists y|cbn [cur_left at_]; split; [done|lia]|apply lands_here|done].
Qed.

(** ** Structured data *)

(** Every closing bracket of a part of an open element is escaped; [quote]: a backslash stands before it. *)
Definition unclosed (quote : bool) (l : bytes) : Prop := forall i, l !! i = Some 93 -> i = 0%nat /\ quote = true \/ exists j, i = S j /\ l !! j = Some 92.
(** In an element, an opening bracket, a name, and later a space, a name, an equals sign and a quote, the name of the element and that of a parameter have at most 57 characters together; else
    they can fill the array of the value's name without an end.  This is asked wherever such a text is in the message. *)
Definition names_fit (x : bytes) : Prop := forall k1 id k2 p k3, x = k1 ++ 91 :: id ++ k2 ++ 32 :: p ++ 61 :: 34 :: k3 ->
  Forall (fun b => sd_name_char b = true) id -> Forall (fun b => sd_name_char b = true) p -> unclosed false k2 -> (length id <= 32)%nat -> (length p <= 32)%nat -> (length id + length p <= 57)%nat.
(** The same behind the name of the element. *)
Definition params_fit (id x : bytes) : Prop := forall k2 p k3, x = k2 ++ 32 :: p ++ 61 :: 34 :: k3 -> unclosed false k2 -> Forall (fun b => sd_name_char b = true) p -> (length p <= 32)%nat -> (length id + length p <= 57)%nat.

Lemma names_fit_suffix (x y : bytes) : names_fit x -> y `suffix_of` x -> names_fit y.
Proof. intros H [k ->] k1 id k2 p k3 E. apply (H (k ++ k1) id k2 p k3). rewrite <- app_assoc. by f_equal. Qed.
Lemma unclosed_app (l k : bytes) : unclosed false l -> unclosed false k -> unclosed false (l ++ k).
Proof.
  intros Hl Hk i Hi. destruct (decide (i < length l)%nat) as [Hlt|Hge].
  - rewrite lookup_app_l in Hi by done. destruct (Hl i Hi) as [[_ ?]|(j & -> & Hj)]; [done|]. right. exists j. rewrite lookup_app_l by lia. done.
  - rewrite lookup_app_r in Hi by lia. destruct (Hk _ Hi) as [[_ ?]|(j & Ej & Hj)]; [done|]. right. exists (length l + j)%nat. split; [lia|]. rewrite lookup_app_r by lia. by replace (length l + j - length l)%nat with j by lia.
Qed.
Lemma unclosed_none (l : bytes) : Forall (fun b => b <> 93) l -> unclosed false l.
Proof. intros H i Hi. rewrite Forall_lookup in H. by destruct (H i 93 Hi). Qed.
Lemma name_not_bracket (l : bytes) : Forall (fun b => sd_name_char b = true) l -> Forall (fun b => b <> 93) l.
Proof. intros H. eapply Forall_impl; [exact H|]. cbn. intros v Hv ->. by vm_compute in Hv. Qed.
Lemma params_fit_suffix (id l y : bytes) : params_fit id (l ++ y) -> unclosed false l -> params_fit id y.
Proof. intros H Hl k2 p k3 -> Hu. apply (H (l ++ k2) p k3); [by rewrite <- app_assoc|by apply unclosed_app]. Qed.

Lemma sd_name_loop_at (stops : Z -> bool) (x : bytes) : forall acc, lenZ acc <= 32 -> exists r y l, sd_name_loop stops (x ++ tail) (lenZ x) acc = Ret (r, at_ y) /\ x = l ++ y /\ Forall (fun b => sd_name_char b = true) l /\ (r = None \/ r = Some (acc ++ l)) /\ lenZ (acc ++ l) <= 32.
Proof.
  induction x as [|c x IH]; intros acc Hacc; [exists (Some acc), [], []; rewrite !app_nil_r; split_and!; [done|done|done|by right|done]|]. cbn [app sd_name_loop]. loop x.
  destruct (stops c); [exists (Some acc), (c :: x), []; rewrite at_nil_cons, !app_nil_r; split_and!; [done|done|done|by right|done]|].
  destruct (bool_decide (lenZ acc < 32) && sd_name_char c) eqn:E; [|exists None, (c :: x), []; rewrite at_nil_cons, app_nil_r; split_and!; [done|done|done|by left|done]]. apply andb_true_iff in E as [Ea%bool_decide_eq_true E].
  destruct (IH (acc ++ [c])) as (r & y & l & -> & -> & Hl & Hr & Hs); [rewrite lenZ_app, lenZ_cons, lenZ_nil; lia|]. rewrite <- app_assoc in *. exists r, y, (c :: l). split_and!; [done|done|by constructor|done|done].
Qed.

Lemma sd_value_loop_at (max : Z) (x : bytes) : forall quote acc, exists r l y, sd_value_loop max (x ++ tail) (lenZ x) quote acc = Ret (r, at_ y) /\ x = l ++ y /\ unclosed quote l.
Proof.
  induction x as [|c x IH]; intros quote acc; [exists (Some acc), [], []; split_and!; [done|done|by intros i Hi]|]. cbn [app sd_value_loop]. loop x.
  assert (Hstop : forall r, exists r' l y, (Ret (r, mkCursor (c :: x ++ tail) (1 + lenZ x)) : outcome (option bytes * cursor)) = Ret (r', at_ y) /\ c :: x = l ++ y /\ unclosed quote l) by (intros r; exists r, [], (c :: x); split_and!; [by rewrite <- at_nil_cons|done|by intros i Hi]).
  assert (Hgo : forall (q : bool) v, (c = 93 -> quote = true) -> (q = true -> c = 92) -> exists r l y, sd_value_loop max (x ++ tail) (lenZ x) q v = Ret (r, at_ y) /\ c :: x = l ++ y /\ unclosed quote l).
  { intros q v Hc Hq. destruct (IH q v) as (r & l & y & -> & -> & Hl). exists r, (c :: l), y. split_and!; [done|done|]. intros [|i] Hi; [left; split; [done|]; apply Hc; by injection Hi|]. right. destruct (Hl i Hi) as [[-> Hqt]|(j & -> & Hj)]; [exists 0%nat; by rewrite (Hq Hqt)|by exists (S j)]. }
  destruct (isc 34 c && negb quote); [apply Hstop|]. destruct (negb quote && isc 92 c) eqn:E92.
  { apply andb_true_iff in E92 as [_ E]. assert (c = 92) as -> by (destruct (decide (c = 92)) as [|Hn]; [done|]; by rewrite (isc_neq 92 c Hn) in E). by apply Hgo. }
  destruct (_ && _ && _ && _ && _) eqn:E5; [apply Hgo; [intros ->; by rewrite isc_refl in E5; rewrite !andb_false_r in E5|done]|].
  destruct (negb quote && isc 93 c) eqn:E93; [apply Hstop|]. apply Hgo; [|done]. intros ->. rewrite isc_refl, andb_true_r in E93. by destruct quote.
Qed.
Lemma expect_at_cases (x : bytes) (v : Z) : expect v (at_ x) = Ret (false, at_ x) \/ exists y, x = v :: y /\ expect v (at_ x) = Ret (true, at_ y).
Proof.
  unfold expect. rewrite left_and_at. cbn [obind]. destruct x as [|c x]; [by left|]. destruct (isc v c) eqn:E; [|by left]. right. exists x. assert (c = v) as -> by (destruct (decide (c = v)) as [|Hn]; [done|]; by rewrite (isc_neq v c Hn) in E). by rewrite move_at.
Qed.

Lemma strncpy_zero (src : bytes) (n : nat) : (length src < n)%nat -> 0 ∈ strncpy src n.
Proof.
  intros H. unfold strncpy. assert (Hs : forall x s, c_string (x ++ [0]) = Ret s -> (length s <= length x)%nat).
  { clear. induction x as [|c x IH]; intros s E; cbn in E; [by injection E as <-|]. case_bool; [injection E as <-; cbn; lia|]. destruct (c_string (x ++ [0])) as [s'|]; [|done]. injection E as <-. specialize (IH s' eq_refl). cbn. lia. }
  destruct (c_string_total src) as (s & E). rewrite E. specialize (Hs _ _ E). rewrite take_app, take_ge by lia. apply elem_of_app. right. rewrite take_replicate. destruct ((n - length s) `min` n)%nat as [|m] eqn:Em; [lia|]. cbn. by left.
Qed.

Lemma sd_param_at (max : Z) (value_name id x : bytes) (self : LogMessage) : (length id <= 32)%nat -> params_fit id x ->
  exists ok vn s l y, sd_param max value_name id self (at_ x) = Ret (ok, vn, s, at_ y) /\ x = l ++ y /\ (ok = true -> unclosed false l /\ l <> []).
Proof.
  intros Hid Hx. unfold sd_param. assert (Hfail : forall l y s, x = l ++ y -> exists ok vn s' l' y', Ret (false, value_name, s, at_ y) = (Ret (ok, vn, s', at_ y') : outcome (bool * bytes * LogMessage * cursor)) /\ x = l' ++ y' /\ (ok = true -> unclosed false l' /\ l' <> [])) by (intros l y s ->; by exists false, value_name, s, l, y).
  destruct (expect_at_cases x 32) as [->|(y & -> & ->)]; cbn [obind negb]; [by apply (Hfail [])|]. destruct (peek_at y 0 ltac:(lia)) as (v & ->). cbn [obind]. destruct (sd_name_char v); cbn [negb]; [|by apply (Hfail [32])]. cbn [cur_buf cur_left at_].
  destruct (sd_name_loop_at (isc 61) y [] ltac:(done)) as (r & y1 & l & -> & -> & Hl & Hr & Hs). cbn [obind app] in *. destruct Hr as [-> | ->]; [by apply (Hfail (32 :: l))|]. set (vn := with_param value_name id l).
  destruct (expect_at_cases y1 61) as [->|(y2 & -> & ->)]; cbn [obind negb]; [by apply (Hfail (32 :: l))|]. destruct (expect_at_cases y2 34) as [->|(y3 & -> & ->)]; cbn [obind negb]; [apply (Hfail (32 :: l ++ [61])); cbn; by rewrite <- app_assoc|]. cbn [cur_buf cur_left at_].
  assert (Hfit : (length id + length l <= 57)%nat) by (apply (Hx [] l y3); [done|by intros i Hi|done|unfold lenZ in Hs; lia]).
  destruct (sd_value_loop_at max y3 false []) as (r & l4 & y4 & -> & -> & Hu). cbn [obind]. destruct r as [value|]; [|apply (Hfail (32 :: l ++ 61 :: 34 :: l4)); cbn; by rewrite <- app_assoc].
  destruct (expect_at_cases y4 34) as [->|(y5 & -> & ->)]; cbn [obind negb]; [apply (Hfail (32 :: l ++ 61 :: 34 :: l4)); cbn; by rewrite <- app_assoc|].
  destruct (c_string_elem vn) as (name & ->). { apply elem_of_app. right. apply strncpy_zero. lia. }
  cbn [obind]. eexists true, vn, _, (32 :: l ++ 61 :: 34 :: l4 ++ [34]), y5. split_and!; [done|cbn; by rewrite <- !app_assoc; cbn; rewrite <- app_assoc|]. intros _. split; [|done].
  change (unclosed false ([32] ++ l ++ [61; 34] ++ l4 ++ [34])). apply unclosed_app; [apply unclosed_none; by repeat constructor|]. apply unclosed_app; [by apply unclosed_none, name_not_bracket|]. apply unclosed_app; [apply unclosed_none; by repeat constructor|]. apply unclosed_app; [done|apply unclosed_none; by repeat constructor].
Qed.

Lemma sd_params_at (max : Z) (id : bytes) (fuel : nat) : forall value_name x self, (length id <= 32)%nat -> params_fit id x -> lenZ x < Z.of_nat fuel ->
  exists ok s y, sd_params fuel max value_name id self (at_ x) = Ret (ok, s, at_ y) /\ y `suffix_of` x.
Proof.
  induction fuel as [|fuel IH]; intros value_name x self Hid Hx Hf; [pose proof (lenZ_nonneg x); lia|]. cbn [sd_params]. rewrite left_and_at. cbn [obind]. destruct (_ || _); [by exists true, self, x|].
  destruct (sd_param_at max value_name id x self Hid Hx) as (ok & vn & s & l & y & -> & -> & L). cbn [obind]. destruct ok; [|exists false, s, y; split; [done|by exists l]]. destruct (L eq_refl) as [Hu Hne].
  destruct (IH vn y s Hid (params_fit_suffix _ _ _ Hx Hu)) as (ok & s' & z & -> & S'). { rewrite lenZ_app in Hf. destruct l; [done|]. rewrite lenZ_cons in Hf. pose proof (lenZ_nonneg l). lia. }
  exists ok, s', z. split; [done|apply suffix_trans with y; [done|by exists l]].
Qed.

Lemma sd_element_at (max : Z) (x : bytes) (self : LogMessage) : names_fit (91 :: x) ->
  exists ok s y, sd_element max self (at_ x) = Ret (ok, s, at_ y) /\ y `suffix_of` x /\ (ok = true -> lenZ y < lenZ x).
Proof.
  intros Hx. unfold sd_element. destruct (peek_at x 0 ltac:(lia)) as (v & ->). cbn [obind]. destruct (sd_name_char v); cbn [negb]; [|exists false, self, x; by split_and!]. cbn [cur_buf cur_left at_].
  destruct (sd_name_loop_at (fun b => isc 32 b || isc 93 b) x [] ltac:(done)) as (r & y & l & -> & -> & Hl & Hr & Hs). cbn [obind app] in *. assert (Sy : y `suffix_of` l ++ y) by (by exists l). assert (Hll : (length l <= 32)%nat) by (unfold lenZ in Hs; lia).
  destruct Hr as [-> | ->]; [exists false, self, y; by split_and!|]. destruct l as [|c l]; [exists false, self, y; by split_and!|]. set (id := c :: l) in *.
  destruct (peek_at y 0 ltac:(lia)) as (v' & ->). cbn [obind].
  assert (Hn : exists s vn, (if isc 93 v' then let! name := c_string (name_of_id id) in Ret (log_msg_set_value self name [], name_of_id id) else Ret (self, with_dot (name_of_id id) id)) = Ret (s, vn)).
  { destruct (isc 93 v'); [|by do 2 eexists]. destruct (c_string_elem (name_of_id id)) as (n & ->); [|by do 2 eexists]. apply elem_of_app. right. apply strncpy_zero. lia. }
  destruct Hn as (s & vn & ->). cbn [obind].
  assert (Hpf : params_fit id y) by (intros k2 p k3 -> Hu Hp Hpl; by apply (Hx [] id k2 p k3)).
  destruct (sd_params_at max id (S (length (cur_buf (at_ y)))) vn y s Hll Hpf) as (ok & s' & z & -> & Sz). { unfold lenZ. cbn [cur_buf at_]. rewrite length_app. lia. }
  cbn [obind]. destruct ok; [|exists false, s', z; split_and!; [done|by apply suffix_trans with y|done]]. destruct (expect_at z 93) as (ok & z' & -> & Sz' & L & _). cbn [obind]. exists ok, s', z'.
  split_and!; [done|by eauto using suffix_trans|]. intros Hok. specialize (L Hok). pose proof (suffix_len _ _ Sz). rewrite lenZ_app. pose proof (lenZ_nonneg id). lia.
Qed.

Lemma sd_elements_at (max : Z) (fuel : nat) : forall x self, names_fit (91 :: x) -> lenZ x < Z.of_nat fuel -> exists ok s y, sd_elements fuel max self (at_ x) = Ret (ok, s, at_ y) /\ y `suffix_of` x.
Proof.
  induction fuel as [|fuel IH]; intros x self Hx Hf; [pose proof (lenZ_nonneg x); lia|]. cbn [sd_elements]. destruct (sd_element_at max x self Hx) as (ok & s & y & -> & S & L). cbn [obind]. destruct ok; [|by exists false, s, y]. specialize (L eq_refl).
  destruct (expect_at_cases y 91) as [->|(z & -> & ->)]; cbn [obind andb]; [by exists true, s, y|]. rewrite lenZ_cons in L. assert (S' : z `suffix_of` x) by (apply suffix_trans with (91 :: z); [by apply suffix_cons_r|done]). destruct (bool_decide (cur_left (at_ z) <> 0)); [|by exists true, s, z].
  destruct (IH z s) as (ok' & s' & z' & -> & Sz'); [apply (names_fit_suffix _ _ Hx); by apply suffix_cons_r|lia|]. exists ok', s', z'. split; [done|by apply suffix_trans with z].
Qed.

Lemma parse_sd_at (options : MsgFormatOptions) (x : bytes) (self : LogMessage) : names_fit x -> exists ok s y, log_msg_parse_sd self (at_ x) options = Ret (ok, s, at_ y) /\ y `suffix_of` x.
Proof.
  intros Hx. unfold log_msg_parse_sd. rewrite left_and_at. cbn [obind]. destruct x as [|c x]; [by exists true, self, []|]. destruct (isc 45 c); [rewrite move_at; exists true, self, x; split; [done|by apply suffix_cons_r]|].
  destruct (expect_at_cases (c :: x) 91) as [->|(y & Ey & ->)]; cbn [obind]; [by exists true, self, (c :: x)|]. rewrite Ey in *. clear Ey.
  destruct (sd_elements_at (mo_sdata_param_value_max options + 1) (S (length (cur_buf (at_ y)))) y self Hx) as (ok & s & z & -> & Sz). { unfold lenZ. cbn [cur_buf at_]. rewrite length_app. lia. }
  exists ok, s, z. split; [done|by apply suffix_cons_r].
Qed.

(** ** Dates *)

Lemma scan_uint32_at (w : nat) : forall x acc, exists v c, scan_uint32 (at_ x) w acc = Ret (v, c) /\ lands x c.
Proof.
  induction w as [|w IH]; intros x acc; cbn [scan_uint32]; [do 2 eexists; split; [done|apply lands_here]|]. destruct x as [|c x]; [do 2 eexists; split; [done|apply lands_here]|].
  rewrite at_nil_cons. cbn [cur_left]. rewrite bool_decide_eq_true_2 by (pose proof (lenZ_nonneg x); lia). rewrite <- at_nil_cons, peek_cons. cbn [obind]. rewrite move_at.
  assert (Hgo : forall acc', exists v e, scan_uint32 (at_ x) w acc' = Ret (v, e) /\ lands (c :: x) e) by (intros acc'; destruct (IH x acc') as (v & e & -> & He); do 2 eexists; split; [done|by apply lands_cons]).
  destruct (isdigit c); [apply Hgo|]. destruct (g_ascii_isspace c); [apply Hgo|]. do 2 eexists. split; [done|apply lands_here].
Qed.

Lemma strncasecmp_total (name buf : bytes) : (length name <= length buf)%nat -> exists r, strncasecmp_eq buf name = Ret r.
Proof. revert buf. induction name as [|n name IH]; intros buf H; [by exists true|]. destruct buf as [|c buf]; [cbn in H; lia|]. cbn [strncasecmp_eq]. case_bool; [apply IH; cbn in H; lia|by exists false]. Qed.

Lemma try_names_total (buf : bytes) (names : list (bytes * Z)) : Forall (fun p => (length p.1 <= length buf)%nat) names -> exists r, try_names buf names = Ret r.
Proof. induction 1 as [|[n v] names Hn Hns (r & IH)]; [by exists (-1)|]. cbn [try_names]. destruct (strncasecmp_total n buf Hn) as ([|] & ->); cbn [obind]; [by exists v|by exists r]. Qed.

Lemma month_names_three : Forall (fun c => Forall (fun p => length p.1 = 3%nat) c.2) month_cases.
Proof. by repeat constructor. Qed.

Lemma scan_month_at (x : bytes) : exists ok v c, scan_month_abbrev (at_ x) = Ret (ok, v, c) /\ lands x c.
Proof.
  unfold scan_month_abbrev, scan_abbrev. case_bool; [do 3 eexists; split; [done|apply lands_here]|]. cbn [cur_left at_] in Hb0. destruct (peek_at x 0 ltac:(lia)) as (v & ->). cbn [obind].
  destruct (list_find _ _) as [[i [v' names]]|] eqn:E; [|do 3 eexists; split; [done|apply lands_here]]. apply list_find_Some in E as (E & _ & _). pose proof month_names_three as M. rewrite Forall_lookup in M. specialize (M _ _ E). cbn in M.
  destruct (try_names_total (cur_buf (at_ x)) names) as (n & ->). { eapply Forall_impl; [exact M|]. intros p ->. cbn [cur_buf at_]. rewrite length_app. unfold lenZ in Hb0. lia. }
  cbn [obind]. rewrite advance_at_n by (unfold lenZ in Hb0; lia). do 3 eexists. split; [done|]. eexists. split; [done|apply suffix_drop].
Qed.

Lemma scan_item_at (x : bytes) (t : tm) (item : date_item) : exists ok c t', scan_item (at_ x) t item = Ret (ok, c, t') /\ lands x c.
Proof.
  destruct item as [w set|v|]; cbn [scan_item].
  - unfold scan_int. destruct (scan_uint32_at w x 0) as (v & c & -> & Hc). cbn [obind]. by destruct v; do 3 eexists; (split; [reflexivity|]).
  - unfold scan_expect_char. destruct x as [|c x]; [do 3 eexists; split; [done|apply lands_here]|]. rewrite at_nil_cons. cbn [cur_left]. rewrite bool_decide_eq_false_2 by (pose proof (lenZ_nonneg x); lia). rewrite <- at_nil_cons, peek_cons. cbn [obind].
    case_bool; do 3 eexists; (split; [reflexivity|]); [apply lands_here|]. rewrite move_at. apply lands_cons, lands_here.
  - destruct (scan_month_at x) as (ok & v & c & -> & Hc). cbn [obind]. by do 3 eexists.
Qed.

Lemma scan_items_at (items : list date_item) : forall x t, exists ok c t', scan_items (at_ x) t items = Ret (ok, c, t') /\ lands x c.
Proof.
  induction items as [|item items IH]; intros x t; cbn [scan_items]; [do 3 eexists; split; [done|apply lands_here]|]. destruct (scan_item_at x t item) as (ok & c & t' & -> & y & -> & S). cbn [obind].
  destruct ok; [|do 3 eexists; split; [done|by exists y]]. destruct (IH y t') as (ok & c & t2 & -> & Hc). do 3 eexists. split; [done|by apply lands_suffix with y].
Qed.

Lemma bytes_match_at (x : bytes) (tests : list (nat * (Z -> bool))) : Forall (fun t => (t.1 <= length x + 1)%nat) tests -> exists r, bytes_match (at_ x) tests = Ret r.
Proof.
  induction 1 as [|[i test] tests Hi Hts (r & IH)]; [by exists true|]. cbn [bytes_match]. destruct (peek_at x i Hi) as (v & ->). cbn [obind]. destruct (test v); [by exists r|by exists false].
Qed.

Ltac indices := repeat constructor; cbn; unfold lenZ in *; lia.

Lemma is_iso_at (x : bytes) : exists r, __is_iso_stamp (at_ x) = Ret r.
Proof. unfold __is_iso_stamp. case_bool; [|by eexists]. cbn [cur_left at_] in Hb0. apply bytes_match_at. indices. Qed.
Lemma is_pix_at (x : bytes) : exists r, __is_bsd_pis_or_asa (at_ x) = Ret r.
Proof. unfold __is_bsd_pis_or_asa. case_bool; [|by eexists]. cbn [cur_left at_] in Hb0. apply bytes_match_at. indices. Qed.
Lemma is_linksys_at (x : bytes) : exists r, __is_bsd_linksys (at_ x) = Ret r.
Proof. unfold __is_bsd_linksys. case_bool; [|by eexists]. cbn [cur_left at_] in Hb0. apply bytes_match_at. indices. Qed.
Lemma is_bsd_at (x : bytes) : exists r, __is_bsd_rfc_3164 (at_ x) = Ret r.
Proof. unfold __is_bsd_rfc_3164. case_bool; [|by eexists]. cbn [cur_left at_] in Hb0. apply bytes_match_at. indices. Qed.

Lemma frac_scan_at (fuel : nat) : forall x f d, exists f' d' c, frac_scan fuel (at_ x) f d = Ret (f', d', c) /\ lands x c.
Proof.
  induction fuel as [|fuel IH]; intros x f d; cbn [frac_scan]; [do 3 eexists; split; [done|apply lands_here]|]. destruct x as [|c x]; [do 3 eexists; split; [done|apply lands_here]|].
  rewrite at_nil_cons. cbn [cur_left]. rewrite bool_decide_eq_true_2 by (pose proof (lenZ_nonneg x); lia). rewrite <- at_nil_cons, peek_cons. cbn [obind]. rewrite move_at. destruct (isdigit c); [|do 3 eexists; split; [done|apply lands_here]].
  destruct (IH x (10 * f + c - 48) (d * 10)) as (f' & d' & e & -> & He). do 3 eexists. split; [done|by apply lands_cons].
Qed.

Lemma guard_not_digit : isdigit a = false.
Proof. apply bool_decide_eq_false_2. destruct Ha as [-> | ->]; lia. Qed.

Lemma skip_digits_at (x : bytes) : exists c, skip_digits (x ++ tail) (lenZ x) = Ret c /\ lands x c.
Proof.
  induction x as [|c x (e & IH & He)]; cbn [app skip_digits]; [cbn; rewrite guard_not_digit; eexists; split; [done|apply lands_here]|]. destruct (isdigit c); [|eexists; split; [done|]; rewrite lenZ_cons, <- at_nil_cons; apply lands_here].
  rewrite lenZ_cons. replace (1 + lenZ x - 1) with (lenZ x) by lia. rewrite IH. eexists. split; [done|by apply lands_cons].
Qed.

Lemma parse_usec_at (x : bytes) : exists v c, __parse_usec (at_ x) = Ret (v, c) /\ lands x c.
Proof.
  unfold __parse_usec. destruct x as [|c x]; [do 2 eexists; split; [done|apply lands_here]|]. rewrite at_nil_cons. cbn [cur_left]. rewrite bool_decide_eq_true_2 by (pose proof (lenZ_nonneg x); lia). rewrite <- at_nil_cons, peek_cons. cbn [obind].
  destruct (isc 46 c); [|do 2 eexists; split; [done|apply lands_here]]. rewrite move_at. destruct (frac_scan_at 6 x 0 1) as (f & d & e & -> & y & -> & S). cbn [obind cur_buf cur_left at_].
  destruct (skip_digits_at y) as (e & -> & He). cbn [obind]. do 2 eexists. split; [done|]. apply lands_cons. by apply lands_suffix with y.
Qed.

Lemma has_timezone_at (x : bytes) : exists r, __has_iso_timezone (at_ x) = Ret r /\ (r = true -> (6 <= length x)%nat).
Proof.
  unfold __has_iso_timezone. case_bool; [|by exists false]. cbn [cur_left at_] in Hb0. destruct (decide (6 <= length x)%nat) as [H6|H6].
  - destruct (bytes_match_at x [(0%nat, fun b => isc 43 b || isc 45 b); (1%nat, isdigit); (2%nat, isdigit); (3%nat, isc 58); (4%nat, isdigit); (5%nat, isdigit); (6%nat, fun b => negb (isdigit b))]) as (r & ->); [indices|by exists r].
  - destruct x as [|x0 [|x1 [|x2 [|x3 [|x4 [|x5 x]]]]]]; try (unfold lenZ in Hb0; cbn [length] in *; lia). exists false. split; [|done]. cbn [bytes_match]. unfold peek. cbn. rewrite guard_not_digit. repeat case_match; done.
Qed.

Lemma parse_tz_at (self : LogMessage) (flags : Z) (x : bytes) : exists s c, _parse_date_tz self flags (at_ x) = Ret (s, c) /\ lands x c.
Proof.
  unfold _parse_date_tz. match goal with |- context [obind (if ?g then ?m else Ret false) _] => assert (Hz : exists z, (if g then m else Ret false) = Ret z /\ (z = true -> x <> [])) end.
  { destruct x as [|c x]; [by exists false|]. case_bool; [rewrite peek_cons; by eexists|by exists false]. }
  destruct Hz as (z & -> & Hz). cbn [obind]. destruct z.
  - destruct x as [|c x]; [by destruct (Hz eq_refl)|]. rewrite move_at. cbn [obind]. do 2 eexists. split; [done|apply lands_cons, lands_here].
  - destruct (has_timezone_at x) as (r & -> & Hr). cbn [obind]. destruct r; [|do 2 eexists; split; [done|apply lands_here]]. specialize (Hr eq_refl). unfold __parse_iso_timezone.
    destruct (peek_at x 0 ltac:(lia)) as (v0 & ->), (peek_at x 1 ltac:(lia)) as (v1 & ->), (peek_at x 2 ltac:(lia)) as (v2 & ->), (peek_at x 4 ltac:(lia)) as (v4 & ->), (peek_at x 5 ltac:(lia)) as (v5 & ->). cbn [obind].
    rewrite advance_at_n by lia. do 2 eexists. split; [done|]. eexists. split; [done|apply suffix_drop].
Qed.

Lemma is_synced_at (self : LogMessage) (flags : Z) (x : bytes) : exists s c, _parse_date_is_synced self flags (at_ x) = Ret (s, c) /\ lands x c.
Proof.
  unfold _parse_date_is_synced. destruct x as [|c x].
  - rewrite peek_nil. cbn [obind]. replace (isc 42 a || isc 46 a) with false by (destruct Ha as [-> | ->]; done). do 2 eexists. split; [done|apply lands_here].
  - rewrite peek_cons. cbn [obind]. destruct (isc 42 c || isc 46 c); [rewrite move_at|]; do 2 eexists; (split; [done|]); [apply lands_cons|]; apply lands_here.
Qed.
End inside.

(** * No message makes the parser read outside *)

Section inside.
Context (a b : Z) (beyond : bytes) (Ha : a = 10 \/ a = 0) (Hb : b <> 32).
Context (localtime : Z -> tm) (mktime : tm -> Z * tm) (now user_notice pid : Z) (g_utf8_validate : bytes -> bool).
#[local] Abbreviation here := (at_ a b beyond).
#[local] Abbreviation on := (lands a b beyond).
#[local] Abbreviation ok_caches := (caches_ok localtime mktime).

Lemma normalize_returns (stamp : LogStamp) (t : tm) (assume : Z) (caches : TimeCaches) : ok_caches caches -> exists stamp' caches', _normalize_time localtime mktime stamp t assume caches = Ret (stamp', caches') /\ ok_caches caches'.
Proof.
  intros Hc. unfold _normalize_time. assert (Hm : exists m t' c, cached_mktime mktime caches (set_isdst (-1) t) = (m, t', c) /\ ok_caches c).
  { unfold cached_mktime. destruct (same_call _ _); [by do 3 eexists|]. destruct (mktime _) as [m t'] eqn:E. do 3 eexists. split; [done|]. destruct Hc as [C1 C2 _]. split; cbn; [done|done|left; by rewrite E]. }
  destruct Hm as (m & t' & c & -> & Hc'). unfold __calculate_correct_time, get_local_timezone_ofs. destruct (cached_localtime_ok localtime mktime c (tv_sec (set_tv_sec stamp m)) Hc') as (lt & c2 & -> & H2 & _). cbn [obind]. by do 2 eexists.
Qed.

Lemma parse_iso_at (self : LogMessage) (flags : Z) (x : bytes) (caches : TimeCaches) : ok_caches caches ->
  exists r s caches', __parse_iso_stamp localtime now self flags (here x) caches = Ret (r, s, caches') /\ ok_caches caches' /\ match r with Some (_, c) => on x c | None => True end.
Proof.
  intros Hc. unfold __parse_iso_stamp. destruct (cached_localtime_ok localtime mktime caches now Hc) as (t & c1 & -> & H1 & _). cbn [obind]. unfold scan_iso_timestamp.
  destruct (scan_items_at a b beyond iso_items x t) as (ok & c & t' & -> & y & -> & S). cbn [obind]. destruct ok; cbn [negb obind]; [|by do 3 eexists].
  destruct (parse_usec_at a b beyond Ha y) as (v & e & -> & z & -> & Sz). cbn [obind].
  match goal with |- context [_parse_date_tz ?s flags (here z)] => destruct (parse_tz_at a b beyond Ha s flags z) as (s' & e & -> & He) end. cbn [obind]. do 3 eexists. split; [done|]. split; [done|].
  apply lands_suffix with z; [done|]. by apply suffix_trans with y.
Qed.

Lemma parse_bsd_at (x : bytes) (caches : TimeCaches) : ok_caches caches ->
  exists r caches', __parse_bsd_timestamp localtime now (here x) caches = Ret (r, caches') /\ ok_caches caches' /\ match r with Some (_, _, c) => on x c | None => True end.
Proof.
  intros Hc. unfold __parse_bsd_timestamp. destruct (is_pix_at a b beyond x) as ([|] & ->); cbn [obind].
  { destruct (cached_localtime_ok localtime mktime caches now Hc) as (t & c1 & -> & H1 & _). cbn [obind]. unfold scan_pix_timestamp. destruct (scan_items_at a b beyond pix_items x t) as (ok & c & t' & -> & y & -> & S). cbn [obind].
    destruct ok; cbn [negb obind]; [|by do 2 eexists]. destruct y as [|v y].
    - rewrite peek_nil. cbn [obind]. replace (isc 58 a) with false by (destruct Ha as [-> | ->]; done). do 2 eexists. split_and!; [done|done|by exists []].
    - rewrite peek_cons. cbn [obind]. rewrite move_at. do 2 eexists. split_and!; [done|done|]. destruct (isc 58 v); [exists y; split; [done|by apply suffix_cons_l in S]|by exists (v :: y)]. }
  destruct (is_linksys_at a b beyond x) as ([|] & ->); cbn [obind].
  { destruct (cached_localtime_ok localtime mktime caches now Hc) as (t & c1 & -> & H1 & _). cbn [obind]. unfold scan_linksys_timestamp. destruct (scan_items_at a b beyond linksys_items x t) as (ok & c & t' & -> & Hl). cbn [obind]. destruct ok; by do 2 eexists. }
  destruct (is_bsd_at a b beyond x) as ([|] & ->); cbn [obind]; [|by do 2 eexists].
  destruct (cached_localtime_ok localtime mktime caches now Hc) as (t & c1 & -> & H1 & _). cbn [obind]. unfold scan_bsd_timestamp. destruct (scan_items_at a b beyond bsd_items x t) as (ok & c & t' & -> & y & -> & S). cbn [obind].
  destruct ok; cbn [negb]; [|by do 2 eexists]. destruct (parse_usec_at a b beyond Ha y) as (v & e & -> & He). cbn [obind]. do 2 eexists. split_and!; [done|done|by apply lands_suffix with y].
Qed.

Lemma parse_date_at (self : LogMessage) (flags assume : Z) (x : bytes) (caches : TimeCaches) : ok_caches caches ->
  exists r s caches', log_msg_parse_date localtime mktime now self flags assume (here x) caches = Ret (r, s, caches') /\ ok_caches caches' /\ match r with Some c => on x c | None => True end.
Proof.
  intros Hc. unfold log_msg_parse_date. assert (Hu : exists r s c, log_msg_parse_date_unnormalized localtime now self flags (here x) caches = Ret (r, s, c) /\ ok_caches c /\ match r with Some (_, c) => on x c | None => True end).
  { unfold log_msg_parse_date_unnormalized. destruct (is_synced_at a b beyond Ha self flags x) as (s & c & -> & y & -> & S). cbn [obind]. destruct (is_iso_at a b beyond y) as ([|] & ->); cbn [obind].
    - destruct (parse_iso_at s flags y caches Hc) as (r & s' & c' & -> & Hc' & Hr). cbn [obind]. destruct r as [[t e]|]; do 3 eexists; (split; [done|]); (split; [done|]); [by apply lands_suffix with y|done].
    - destruct (has_flag flags LP_SYSLOG_PROTOCOL); cbn [negb]; [by do 3 eexists|]. destruct (parse_bsd_at y caches Hc) as (r & c' & -> & Hc' & Hr). cbn [obind].
      destruct r as [[[t u] e]|]; do 3 eexists; (split; [done|]); (split; [done|]); [by apply lands_suffix with y|done]. }
  destruct Hu as (r & s & c & -> & Hc' & Hr). cbn [obind]. destruct r as [[t e]|]; [|by do 3 eexists]. destruct (has_flag flags LP_NO_PARSE_DATE); [by do 3 eexists|].
  destruct (normalize_returns (lm_stamp s) t assume c Hc') as (st & c2 & -> & H2). cbn [obind]. by do 3 eexists.
Qed.

(** ** Whole messages *)

Context (options : MsgFormatOptions).

Lemma looks_at_at (x : bytes) (n : Z) (s : bytes) : lenZ x < 2 ^ 31 -> lenZ s <= n -> exists r, looks_at (here x) n s = Ret r /\ (r = true -> (length s <= length x)%nat).
Proof.
  intros Hl Hn. pose proof (lenZ_nonneg x). unfold looks_at. cbn [cur_left cur_buf at_]. rewrite u64_small by lia. case_bool; [|by exists false]. rewrite bool_decide_eq_true_2; [|rewrite lenZ_app; pose proof (lenZ_nonneg (tail a b beyond)); lia].
  eexists. split; [done|]. intros _. unfold lenZ in *. lia.
Qed.

Lemma validate_at (self : LogMessage) (flags : Z) (x : bytes) : exists s, validate g_utf8_validate self flags (here x) = Ret s.
Proof. unfold validate. destruct (has_flag flags LP_VALIDATE_UTF8); [|by eexists]. cbn [cur_buf cur_left at_]. rewrite read_value_app. cbn [obind]. by eexists. Qed.

Lemma bytes_suffix (x y : bytes) : Forall is_byte x -> y `suffix_of` x -> Forall is_byte y.
Proof. intros H [k ->]. by apply Forall_app in H as [_ H]. Qed.

Lemma legacy_header_at (self : LogMessage) (x : bytes) : lenZ x < 2 ^ 31 -> Forall is_byte x -> exists s c, legacy_header options self (here x) = Ret (s, c) /\ on x c.
Proof.
  intros Hl Hx. unfold legacy_header. destruct (skip_chars_at a b beyond [32] x) as (y & -> & S). cbn [obind]. pose proof (suffix_len _ _ S).
  destruct (looks_at_at y (lenZ aix_fwd_string) aix_fwd_string ltac:(lia) ltac:(lia)) as (aix & -> & Haix). cbn [obind].
  match goal with |- context [obind (if aix then ?m else Ret (None, here y)) _] => assert (Hh : exists host z, (if aix then m else Ret (None, here y)) = Ret (host, here z) /\ z `suffix_of` y /\ match host with Some (start, n) => exists w, start = w ++ tail a b beyond /\ 0 <= n <= lenZ w | None => True end) end.
  { destruct aix; [|by exists None, y]. specialize (Haix eq_refl). rewrite advance_at_n by done. unfold log_msg_parse_skip_chars_until. cbn [cur_buf cur_left at_]. set (y0 := drop (length aix_fwd_string) y).
    destruct (skip_while_at a b beyond (fun b => negb (in_chars [58] b)) y0) as (z & -> & Sz). cbn [obind]. destruct (skip_chars_at a b beyond [32; 58] z) as (z' & -> & Sz'). cbn [obind cur_left at_]. pose proof (suffix_len _ _ Sz). pose proof (lenZ_nonneg z).
    exists (Some (y0 ++ tail a b beyond, lenZ y0 - lenZ z)), z'. split_and!; [done| |exists y0; split; [done|lia]]. apply suffix_trans with z; [done|]. apply suffix_trans with y0; [done|apply suffix_drop]. }
  destruct Hh as (host & z & -> & Sz & Hhost). cbn [obind]. pose proof (suffix_len _ _ Sz). destruct (looks_at_at z (lenZ repeat_msg_string + 1) repeat_msg_string ltac:(lia) ltac:(lia)) as (rep & -> & _). cbn [obind].
  match goal with |- context [obind (if rep then Ret (host, self, here z) else ?m) _] => assert (Hp : exists host' s c, (if rep then Ret (host, self, here z) else m) = Ret (host', s, c) /\ on z c /\ match host' with Some (start, n) => exists w, start = w ++ tail a b beyond /\ 0 <= n <= lenZ w | None => True end) end.
  { destruct rep; [do 3 eexists; split_and!; [done|apply lands_here|done]|].
    match goal with |- context [obind (match host with None => ?m | Some _ => Ret (host, here z) end) _] => assert (Hq : exists host' c, (match host with None => m | Some _ => Ret (host, here z) end) = Ret (host', c) /\ on z c /\ match host' with Some (start, n) => exists w, start = w ++ tail a b beyond /\ 0 <= n <= lenZ w | None => True end) end.
    { destruct host as [[start n]|]; [do 2 eexists; split_and!; [done|apply lands_here|done]|]. destruct (has_flag (mo_flags options) LP_EXPECT_HOSTNAME); [|do 2 eexists; split_and!; [done|apply lands_here|done]].
      destruct (parse_hostname_at a b beyond z (mo_flags options) (mo_bad_hostname options)) as (h & c & -> & (u & -> & Su) & Hh); [apply bytes_suffix with x; [done|by apply suffix_trans with y]|]. cbn [obind].
      destruct (skip_chars_at a b beyond [32] u) as (u' & -> & Su'). cbn [obind]. do 2 eexists. split_and!; [done|exists u'; split; [done|by apply suffix_trans with u]|]. destruct h as [[start n]|]; [|done]. destruct Hh as [-> ?]. by exists z. }
    destruct Hq as (host' & c & -> & (u & -> & Su) & Hh'). cbn [obind]. destruct (parse_program_at a b beyond self u (mo_flags options)) as (s & c & -> & Hc). cbn [obind]. do 3 eexists. split_and!; [done|by apply lands_suffix with u|done]. }
  destruct Hp as (host' & s & c & -> & Hc & Hh'). cbn [obind]. assert (Hx' : on x c) by (apply lands_suffix with z; [done|by apply suffix_trans with y]). destruct host' as [[start n]|]; [|by do 2 eexists].
  destruct Hh' as (w & -> & Hn). destruct (store_value_at a b beyond s LM_V_HOST w n Hn) as (s' & ->). cbn [obind]. by do 2 eexists.
Qed.

Lemma legacy_no_date_at (self : LogMessage) (x : bytes) : exists s c, legacy_no_date options self (here x) = Ret (s, c) /\ on x c.
Proof.
  unfold legacy_no_date. destruct (_ && _); cbn [obind]; [do 2 eexists; split; [done|apply lands_here]|]. destruct (has_flag (mo_flags options) LP_FALLBACK_NOPARSE); cbn [negb obind]; [do 2 eexists; split; [done|apply lands_here]|].
  destruct (parse_program_at a b beyond self x (mo_flags options)) as (s & c & -> & Hc). cbn [obind]. by do 2 eexists.
Qed.

Lemma parse_legacy_at (self : LogMessage) (x : bytes) (caches : TimeCaches) : lenZ x < 2 ^ 31 -> Forall is_byte x -> ok_caches caches ->
  exists s p caches', log_msg_parse_legacy localtime mktime now user_notice g_utf8_validate options (here x) self caches = Ret (s, p, caches') /\ ok_caches caches'.
Proof.
  intros Hl Hx Hc. unfold log_msg_parse_legacy. destruct (parse_pri_at a b beyond user_notice self x (mo_default_pri options)) as (r & -> & Hr). cbn [obind]. destruct r as [[s c]|]; [|by do 3 eexists]. destruct Hr as (y & -> & S).
  destruct (parse_seq_at a b beyond Hb s y) as (s1 & c1 & -> & y1 & -> & S1). cbn [obind]. destruct (skip_chars_at a b beyond [32] y1) as (y2 & -> & S2). cbn [obind]. assert (Sy2 : y2 `suffix_of` x) by eauto using suffix_trans.
  destruct (parse_date_at s1 (Z.ldiff (mo_flags options) LP_SYSLOG_PROTOCOL) (mo_recv_ofs options) y2 caches Hc) as (date & s2 & c2 & -> & Hc2 & Hd). cbn [obind].
  assert (Hh : exists s3 c, match date with Some c => legacy_header options s2 c | None => legacy_no_date options s2 (here y2) end = Ret (s3, c) /\ on x c).
  { destruct date as [c|].
    - destruct Hd as (z & -> & Sz). assert (Szx : z `suffix_of` x) by eauto using suffix_trans. destruct (legacy_header_at s2 z) as (s3 & c & -> & Hc3); [pose proof (suffix_len _ _ Szx); lia|by apply bytes_suffix with x|]. do 2 eexists. split; [done|by apply lands_suffix with z].
    - destruct (legacy_no_date_at s2 y2) as (s3 & c & -> & Hc3). do 2 eexists. split; [done|by apply lands_suffix with y2]. }
  destruct Hh as (s3 & c & -> & z & -> & Sz). cbn [obind cur_buf cur_left at_]. pose proof (lenZ_nonneg z). destruct (store_value_at a b beyond s3 LM_V_MESSAGE z (lenZ z) ltac:(lia)) as (s4 & ->). cbn [obind].
  destruct (validate_at s4 (mo_flags options) z) as (s5 & E). cbn [cur_buf cur_left at_] in E. rewrite E. cbn [obind]. by do 3 eexists.
Qed.

Lemma parse_columns_at (columns : list (bytes * Z)) : forall self x, Forall (fun p => 0 <= p.2) columns -> lenZ x < 2 ^ 31 -> exists ok s c, parse_columns self (here x) columns = Ret (ok, s, c) /\ on x c.
Proof.
  induction columns as [|[name max] columns IH]; intros self x Hm Hl; cbn [parse_columns]; [do 3 eexists; split; [done|apply lands_here]|]. inversion Hm; subst.
  destruct (parse_column_at a b beyond self name x max) as (s & c & -> & y & -> & S); [done|done|]. cbn [obind]. destruct (skip_space_at a b beyond y) as (ok & z & -> & Sz). cbn [obind]. assert (Szx : z `suffix_of` x) by (by apply suffix_trans with y).
  destruct ok; [|do 3 eexists; split; [done|by exists z]]. destruct (IH s z) as (ok & s' & c & -> & Hc); [done|pose proof (suffix_len _ _ Szx); lia|]. do 3 eexists. split; [done|by apply lands_suffix with z].
Qed.

Lemma proto_rest_at (self : LogMessage) (x : bytes) : lenZ x < 2 ^ 31 -> Forall is_byte x -> names_fit x -> exists ok s c, proto_rest g_utf8_validate options self (here x) = Ret (ok, s, c).
Proof.
  intros Hl Hx Hns. unfold proto_rest. destruct (parse_hostname_at a b beyond x (mo_flags options) None Hx) as (h & c & -> & (y & -> & S) & Hh). cbn [obind]. destruct (skip_space_at a b beyond y) as (ok & y1 & -> & S1). cbn [obind].
  destruct ok; cbn [negb]; [|by do 3 eexists].
  match goal with |- context [obind ?m (fun self => obind (parse_columns _ _ _) _)] => assert (Hs : exists s, m = Ret s) end.
  { destruct h as [[start n]|]; [|by eexists]. destruct Hh as [-> Hn]. assert (Hd : exists d, (if bool_decide (n = 1) then let! b0 := peek (mkCursor (x ++ tail a b beyond) n) 0 in Ret (isc 45 b0) else Ret false) = Ret d).
    { case_bool; [|by eexists]. destruct (peek_at a b beyond x 0 ltac:(lia)) as (v & E). unfold peek in *. cbn [cur_buf at_] in *. rewrite E. by eexists. }
    destruct Hd as (d & ->). cbn [obind]. destruct d; [by eexists|]. by apply store_value_at. }
  destruct Hs as (s & ->). cbn [obind]. assert (S1x : y1 `suffix_of` x) by eauto using suffix_trans. destruct (parse_columns_at proto_columns s y1) as (ok & s1 & c & -> & y2 & -> & S2); [by repeat constructor|pose proof (suffix_len _ _ S1x); lia|]. cbn [obind].
  destruct ok; cbn [negb]; [|by do 3 eexists]. assert (S2x : y2 `suffix_of` x) by eauto using suffix_trans. destruct (parse_sd_at a b beyond options y2 s1 (names_fit_suffix _ _ Hns S2x)) as (ok & s2 & y3 & -> & S3). cbn [obind].
  destruct ok; cbn [negb]; [|by do 3 eexists]. case_bool; [by do 3 eexists|]. destruct (skip_space_at a b beyond y3) as (ok & y4 & -> & S4). cbn [obind]. destruct ok; cbn [negb]; [|by do 3 eexists].
  assert (S4x : y4 `suffix_of` x) by eauto using suffix_trans. pose proof (suffix_len _ _ S4x).
  match goal with |- context [obind (if ?g then looks_at ?c 3 BOM else Ret false) _] => assert (Hbom : exists bom, (if g then looks_at c 3 BOM else Ret false) = Ret bom /\ (bom = true -> (3 <= length y4)%nat)) end.
  { case_bool; [|by exists false]. apply (looks_at_at y4 3 BOM); [lia|done]. }
  destruct Hbom as (bom & -> & Hbom). cbn [obind].
  match goal with |- context [obind ?m (fun '(self, c) => obind (store_value _ _ _ _) _)] => assert (Hv : exists s3 z, m = Ret (s3, here z)) end.
  { destruct bom; [rewrite advance_at_n by (by apply Hbom); by do 2 eexists|]. destruct (validate_at s2 (mo_flags options) y4) as (s3 & ->). cbn [obind]. by do 2 eexists. }
  destruct Hv as (s3 & z & ->). cbn [obind cur_buf cur_left at_]. destruct (store_value_at a b beyond s3 LM_V_MESSAGE z (lenZ z)) as (s4 & ->); [pose proof (lenZ_nonneg z); lia|]. cbn [obind]. by do 3 eexists.
Qed.

Lemma parse_proto_at (self : LogMessage) (x : bytes) (caches : TimeCaches) : lenZ x < 2 ^ 31 -> Forall is_byte x -> names_fit x -> ok_caches caches ->
  exists s p caches', log_msg_parse_syslog_proto localtime mktime now user_notice g_utf8_validate options (here x) self caches = Ret (s, p, caches') /\ ok_caches caches'.
Proof.
  intros Hl Hx Hns Hc. unfold log_msg_parse_syslog_proto. destruct (parse_pri_at a b beyond user_notice self x (mo_default_pri options)) as (r & -> & Hr). cbn [obind].
  assert (Hv : exists s v, match r with None => Ret (self, None) | Some (self, c) => let! v := log_msg_parse_version c in Ret (self, v) end = Ret (s, v) /\ match v with Some c => on x c | None => True end).
  { destruct r as [[s c]|]; [|by do 2 eexists]. destruct Hr as (y & -> & S). destruct (parse_version_at a b beyond y) as (v & -> & Hv). cbn [obind]. do 2 eexists. split; [done|]. destruct v; [by apply lands_suffix with y|done]. }
  destruct Hv as (s & v & -> & Hv). cbn [obind]. destruct v as [c|]; [|by apply parse_legacy_at]. destruct Hv as (y & -> & S). destruct (skip_space_at a b beyond y) as (ok & y1 & -> & S1). cbn [obind]. destruct ok; cbn [negb]; [|by do 3 eexists].
  destruct (parse_date_at s (mo_flags options) (mo_recv_ofs options) y1 caches Hc) as (date & s2 & c2 & -> & Hc2 & Hd). cbn [obind]. destruct date as [c|]; [|by do 3 eexists]. destruct Hd as (y2 & -> & S2).
  destruct (skip_space_at a b beyond y2) as (ok & y3 & -> & S3). cbn [obind]. destruct ok; cbn [negb]; [|by do 3 eexists]. assert (S3x : y3 `suffix_of` x) by eauto using suffix_trans.
  destruct (proto_rest_at s2 y3) as (ok & s3 & c & ->); [pose proof (suffix_len _ _ S3x); lia|by apply bytes_suffix with x|by apply names_fit_suffix with x|]. cbn [obind]. by do 3 eexists.
Qed.
End inside.

(** Stripping newlines and zero bytes leaves such a byte behind the message. *)
Lemma strip_split (a b : Z) (beyond x : bytes) : (a = 10 \/ a = 0) -> b <> 32 ->
  exists x' a' b' beyond', x ++ a :: b :: beyond = x' ++ a' :: b' :: beyond' /\ x' `prefix_of` x /\ strip_length (x ++ a :: b :: beyond) (length x) = length x' /\ (a' = 10 \/ a' = 0) /\ b' <> 32.
Proof.
  intros Ha Hb. induction x as [|v x IH] using rev_ind; [by exists [], a, b, beyond|]. rewrite <- app_assoc. cbn [app]. rewrite length_app. cbn [length]. rewrite Nat.add_1_r. cbn [strip_length]. rewrite list_lookup_middle by done.
  destruct (isc 10 v || isc 0 v) eqn:E; [|exists (x ++ [v]), a, b, beyond; split_and!; [by rewrite <- app_assoc|done|rewrite length_app; cbn; lia|done|done]].
  assert (Hv : v = 10 \/ v = 0) by (apply orb_true_iff in E as [E|E]; apply bool_decide_eq_true in E; auto).
  assert (G : forall t t' y, strip_length (y ++ t) (length y) = strip_length (y ++ t') (length y)).
  { clear. intros t t' y. assert (G : forall n, (n <= length y)%nat -> strip_length (y ++ t) n = strip_length (y ++ t') n); [|by apply G].
    induction n as [|n IH]; intros Hn; [done|]. cbn [strip_length]. rewrite !lookup_app_l by lia. destruct (y !! n) as [c|]; [|done]. destruct (_ || _); [apply IH; lia|done]. }
  destruct IH as (x' & a' & b' & r' & E1 & E2 & E3 & E4 & E5). rewrite (G _ (a :: b :: beyond) x). destruct E2 as [k ->]. destruct k as [|c [|c2 k]].
  - rewrite app_nil_r in *. exists x', v, a, (b :: beyond). split_and!; [done|by apply prefix_app_r|done|done|destruct Ha; lia].
  - exists x', c, v, (a :: b :: beyond). rewrite <- app_assoc in *. cbn [app] in *. apply app_inv_head in E1. injection E1 as <- <- _. split_and!; [done|by do 2 apply prefix_app_r|by rewrite <- app_assoc|done|destruct Hv; lia].
  - exists x', c, c2, (k ++ v :: a :: b :: beyond). rewrite <- app_assoc in *. cbn [app] in *. apply app_inv_head in E1. injection E1 as <- <- _. split_and!; [by rewrite <- ?app_assoc|by do 2 apply prefix_app_r|by rewrite <- app_assoc|done|done].
Qed.

(** C28: For any bytes of a message of less than 2^31, any options and any zone of the host, the
    handler returns: every loop ends and nothing is read outside the message and
    the two bytes behind it, when these are a newline or zero byte and anything
    but a space, and, for RFC 5424 messages, when wherever the message has an opening bracket with a name, and in the same element a space, a name, an equals sign and a quote, the two names
    have at most 57 characters together (each may have 32; longer ones overrun an array, long_names_overrun). *)
Theorem syslog_handler_safe (localtime : Z -> tm) (mktime : tm -> Z * tm) (now user_notice pid : Z) (g_utf8_validate : bytes -> bool) (options : MsgFormatOptions)
  (x : bytes) (a b : Z) (beyond : bytes) (self : LogMessage) (caches : TimeCaches) :
  (a = 10 \/ a = 0) -> b <> 32 -> lenZ x < 2 ^ 31 -> Forall is_byte x -> (has_flag (mo_flags options) LP_SYSLOG_PROTOCOL = true -> names_fit x) -> caches_ok localtime mktime caches ->
  exists m caches', syslog_format_handler localtime mktime now user_notice pid g_utf8_validate options (x ++ a :: b :: beyond) (length x) self caches = Ret (m, caches') /\ caches_ok localtime mktime caches'.
Proof.
  intros Ha Hb Hl Hx Hns Hc. unfold syslog_format_handler. destruct (strip_split a b beyond x Ha Hb) as (x' & a' & b' & r' & -> & [k ->] & -> & Ha' & Hb'). rewrite lenZ_app in Hl. pose proof (lenZ_nonneg k). apply Forall_app in Hx as [Hx _].
  set (s := if has_flag (mo_flags options) LP_LOCAL then _ else _). clearbody s. destruct (has_flag (mo_flags options) LP_NOPARSE).
  { destruct (store_value_at a' b' r' s LM_V_MESSAGE x' (Z.of_nat (length x')) ltac:(unfold lenZ; lia)) as (s' & E). unfold tail in E. rewrite E. cbn [obind]. by do 2 eexists. }
  change (mkCursor (x' ++ a' :: b' :: r') (Z.of_nat (length x'))) with (at_ a' b' r' x').
  match goal with |- context [obind (if ?g then ?p1 else ?p2) _] => assert (Hp : exists s' p c', (if g then p1 else p2) = Ret (s', p, c') /\ caches_ok localtime mktime c') end.
  { destruct (has_flag (mo_flags options) LP_SYSLOG_PROTOCOL); [apply parse_proto_at|apply parse_legacy_at]; try done; try lia. intros k1 id k2 p k3 -> H1 H2 H3 H4 H5. apply (Hns eq_refl k1 id k2 p (k3 ++ k)); [|done..]. rewrite <- !app_assoc. cbn. rewrite <- !app_assoc. cbn. by rewrite <- !app_assoc. }
  destruct Hp as (s' & p & c' & -> & Hc'). cbn [obind]. destruct p; by do 2 eexists.
Qed.

Definition dated_message : bytes := bytes_of_string "<34>1 2006-10-29T01:59:59.156+01:00 - - - - [a x=" ++ 34 :: 121 :: 34 :: bytes_of_string "] m".
Lemma syslog_handler_safe_witness : exists m caches',
  syslog_format_handler east_localtime east_mktime 951829999 13 1 (fun _ => true) (mkOptions LP_SYSLOG_PROTOCOL 0xFFFF (-1) None 65535) (dated_message ++ 10 :: 65 :: []) (length dated_message) (mkMessage 0 0 (mkStamp 0 0 (-1)) (mkStamp 0 0 0) []) initial_caches = Ret (m, caches') /\
  caches_ok east_localtime east_mktime caches'.
Proof.
  apply (syslog_handler_safe east_localtime east_mktime 951829999 13 1 (fun _ => true) (mkOptions LP_SYSLOG_PROTOCOL 0xFFFF (-1) None 65535) dated_message 10 65 []);
    [by left|done|done| | |apply initial_caches_ok].
  - vm_compute. repeat constructor; discriminate.
  - intros _ k1 id k2 p k3 E _ _ _ _ _. apply (f_equal length) in E. rewrite !length_app in E. cbn in E. rewrite !length_app in E. cbn in E. rewrite !length_app in E. cbn in E. lia.
Defined.

(** ** Where it goes wrong *)

(** Digits up to the end, and a space where the second byte behind the message
    is: the rest of memory becomes part of the message. *)
Example digits_then_space :
  match syslog_format_handler east_localtime east_mktime 951829999 13 1 (fun _ => true) (mkOptions LP_EXPECT_HOSTNAME 0xFFFF (-1) None 65535)
          (bytes_of_string "<34>123" ++ 10 :: bytes_of_string " secret: the next line of the input" ++ [0]) 7 (mkMessage 0 0 (mkStamp 0 0 (-1)) (mkStamp 0 0 0) []) initial_caches with
  | Ret (m, _) => lm_values m !! 3%nat
  | Abort => None
  end = Some (LM_V_MESSAGE, bytes_of_string ": the next line of the input").
Proof. vm_compute. reflexivity. Qed.

(** A name of an element of 32 characters and one of a parameter of 26 fill the
    array without an end. *)
Example long_names_overrun :
  log_msg_parse_sd (mkMessage 0 0 (mkStamp 0 0 (-1)) (mkStamp 0 0 0) [])
    (let text := 91 :: replicate 32 65 ++ 32 :: replicate 26 66 ++ [61; 34; 34; 93] in mkCursor (text ++ [10; 0]) (lenZ text)) (mkOptions LP_SYSLOG_PROTOCOL 0xFFFF (-1) None 65535) = Abort.
Proof. vm_compute. reflexivity. Qed.

(** The table of the characters that may not be in a host name is indexed by
    [i >> 8], so all of them are in its first byte. *)
Lemma every_char_invalid (c : Z) : is_byte c -> char_invalid c = Ret true.
Proof.
  intros Hc. unfold char_invalid. unfold is_byte in Hc. replace (Z.shiftr c 8) with 0 by (rewrite Z.shiftr_div_pow2 by lia; symmetry; apply Z.div_small; lia).
  change (invalid_chars !! Z.to_nat 0) with (Some 255). pose proof (Z.mod_pos_bound c 8 ltac:(lia)) as M. set (i := c mod 8) in *. clearbody i.
  assert (i = 0 \/ i = 1 \/ i = 2 \/ i = 3 \/ i = 4 \/ i = 5 \/ i = 6 \/ i = 7) as H by lia. destruct_or! H; subst; reflexivity.
Qed.

(** With [check-hostname] no host name is ever found, except an empty one. *)
Lemma check_hostname_finds_nothing (v : Z) (x : bytes) (left flags : Z) (bad : option (bytes -> bool)) : has_flag flags LP_CHECK_HOSTNAME = true -> is_byte v -> v <> 32 -> left <> 0 ->
  log_msg_parse_hostname (mkCursor (v :: x) left) flags bad = Ret (None, mkCursor (v :: x) left).
Proof.
  intros Hf Hv Hs Hl. unfold log_msg_parse_hostname. cbn [cur_buf cur_left hostname_loop]. rewrite bool_decide_eq_false_2 by done. rewrite Hf, every_char_invalid by done. cbn [obind].
  destruct (_ && _); cbn [obind]; rewrite left_and_cons by done; cbn [obind app c_string]; rewrite isc_neq by done; done.
Qed.
