(* ===== verification/RadixParsers.v ===== *)
(** * The parsers of pattern database rules (modules/dbparser/radix.c)

    A parser looks at a string in memory: [prev] is what lies before it,
    nearest first, [str] what starts there, with the zero byte that ends the
    string and whatever follows.  It says how many bytes it takes and how the
    match is shifted: [m_ofs] and [m_len] are the fields of [RParserMatch], which
    are zero at first.  Reading outside memory is [Abort].  The matcher of pcre
    is a parameter. *)
From S2P Require Import Prelude.

Definition is_digit (c : Z) : bool := bool_decide (48 <= c <= 57).
Definition is_alnum (c : Z) : bool := bool_decide (48 <= c <= 57 \/ 65 <= c <= 90 \/ 97 <= c <= 122).
Definition is_xdigit (c : Z) : bool := bool_decide (48 <= c <= 57 \/ 65 <= c <= 70 \/ 97 <= c <= 102).
Definition xdigit_value (c : Z) : Z := if bool_decide (c <= 57) then c - 48 else if bool_decide (c <= 70) then c - 55 else c - 87.
(** [strchr(set, c)], which finds the terminator of the set too. *)
Definition chr (set : bytes) (c : Z) : bool := bool_decide (c ∈ set \/ c = 0).

Definition rd (s : bytes) (i : nat) : outcome Z := match s !! i with Some c => Ret c | None => Abort end.
(** The number of bytes a loop steps over. *)
Fixpoint count_while (p : Z -> bool) (s : bytes) : outcome nat :=
  match s with
  | [] => Abort
  | c :: s => if p c then let! n := count_while p s in Ret (S n) else Ret O
  end.
(** The same from an index on. *)
Definition skip (p : Z -> bool) (s : bytes) (len : nat) : outcome nat := let! n := count_while p (drop len s) in Ret (len + n)%nat.

(** [strchr] and [strstr] on memory. *)
Fixpoint find_char (q : Z) (s : bytes) : outcome (option nat) :=
  match s with
  | [] => Abort
  | c :: s => if bool_decide (c = q) then Ret (Some O) else if bool_decide (c = 0) then Ret None else let! r := find_char q s in Ret (S <$> r)
  end.
Fixpoint has_prefix (s t : bytes) : outcome bool :=
  match t with
  | [] => Ret true
  | d :: t => match s with [] => Abort | c :: s => if bool_decide (c = d) then has_prefix s t else Ret false end
  end.
Fixpoint find_string (t s : bytes) : outcome (option nat) :=
  let! here := has_prefix s t in
  if here : bool then Ret (Some O)
  else match s with
       | [] => Abort
       | c :: s => if bool_decide (c = 0) then Ret None else let! r := find_string t s in Ret (S <$> r)
       end.

Record RMatch := mkMatch { m_take : nat; m_ofs : Z; m_len : Z }.
Definition plain (len : nat) : outcome (option RMatch) := Ret (Some (mkMatch len 0 0)).
Definition no_match : outcome (option RMatch) := Ret None.
(** The fields are 16 bits wide. *)
Definition shifted (len : nat) (ofs mlen : Z) : outcome (option RMatch) := Ret (Some (mkMatch len (u16 ofs) (u16 mlen))).

Definition r_parser_string (str : bytes) (param : option bytes) : outcome (option RMatch) :=
  let! len := count_while (fun c => bool_decide (c <> 0) && (is_alnum c || match param with Some p => chr p c | None => false end)) str in
  if bool_decide (0 < len)%nat then plain len else no_match.

Definition r_parser_qstring (str : bytes) (quote : Z) : outcome (option RMatch) :=
  let! r := find_char quote (drop 1 str) in
  match r with Some i => shifted (i + 2)%nat 1 (-2) | None => no_match end.

Definition r_parser_estring_c (str : bytes) (param : option bytes) : outcome (option RMatch) :=
  match param with
  | None => no_match
  | Some p => let! r := find_char (default 0 (head p)) str in match r with Some i => shifted (i + 1)%nat 0 (-1) | None => no_match end
  end.

Definition r_parser_estring (str : bytes) (param : option bytes) (state : nat) : outcome (option RMatch) :=
  match param with
  | None => no_match
  | Some p => let! r := find_string p str in match r with Some i => shifted (i + state)%nat 0 (- Z.of_nat state) | None => no_match end
  end.

Definition r_parser_anystring (str : bytes) : outcome (option RMatch) := let! len := count_while (fun c => bool_decide (c <> 0)) str in plain len.

Definition r_parser_set (str : bytes) (param : option bytes) : outcome (option RMatch) :=
  match param with
  | None => no_match
  | Some p => let! len := count_while (chr p) str in if bool_decide (0 < len)%nat then plain len else no_match
  end.

(** Labels with dots between them: the length and the number of rounds. *)
Definition host_char (c : Z) : bool := is_alnum c || bool_decide (c = 45).
Fixpoint labels (fuel : nat) (str : bytes) (len count : nat) : outcome (nat * nat) :=
  let! c := rd str len in
  if host_char c then
    match fuel with
    | O => Abort
    | S fuel =>
        let! len := skip host_char str (len + 1) in
        let! c := rd str len in
        labels fuel str (if bool_decide (c = 46%Z) then len + 1 else len)%nat (count + 1)
    end
  else Ret (len, count).

Definition r_parser_hostname (str : bytes) : outcome (option RMatch) :=
  let! (len, count) := labels (length str) str 0 0 in
  if bool_decide (count < 2)%nat then no_match else plain len.

Definition email_chars : bytes := bytes_of_string "!#$%&'*+-/=?^_`{|}~.".
Definition skip_param (param : option bytes) (str : bytes) (len : nat) : outcome nat := match param with Some p => skip (chr p) str len | None => Ret len end.

(** [has_match] tells whether the caller gave a place for the match. *)
Definition r_parser_email (has_match : bool) (prev str : bytes) (param : option bytes) : outcome (option RMatch) :=
  let! ofs := skip_param param str 0 in
  if negb has_match then Abort
  else
    let! c := rd str ofs in
    if bool_decide (c = 46) then no_match
    else
      let! len := skip (fun c => is_alnum c || chr email_chars c) str ofs in
      let! c := (match len with O => rd prev 0 | S n => rd str n end) in
      if bool_decide (c = 46) then no_match
      else
        let! c := rd str len in
        if bool_decide (c = 64) then
          let! (end_, count) := labels (length str) str (len + 1) 0 in
          if bool_decide (count < 2)%nat then no_match
          else
            let! len := skip_param param str end_ in
            if bool_decide (0 < len)%nat then shifted len (Z.of_nat ofs) (Z.of_nat end_ - Z.of_nat len - Z.of_nat ofs) else no_match
        else no_match.

(** Pairs of hexadecimal digits with colons between them; [i] counts the pairs
    left. *)
Fixpoint lladdr_loop (i : nat) (first : bool) (str : bytes) (len : nat) : outcome (option nat) :=
  match i with
  | O => Ret (Some len)
  | S i =>
      let! c := rd str len in
      let! two := (if is_xdigit c then let! d := rd str (len + 1) in Ret (is_xdigit d) else Ret false) in
      if negb two then Ret (if first then None else Some (len - 1)%nat)
      else
        match i with
        | O => Ret (Some (len + 2)%nat)
        | S _ =>
            let! c := rd str (len + 2) in
            if bool_decide (c <> 58) then Ret (Some (len + 2)%nat) else lladdr_loop i false str (len + 3)
        end
  end.
Definition _r_parser_lladdr (str : bytes) (count parts : Z) : outcome (option RMatch) :=
  let! r := lladdr_loop (Z.to_nat parts) true str 0 in
  match r with
  | None => no_match
  | Some len => if bool_decide (Z.of_nat len > count) then no_match else plain len
  end.
Definition decimal_of (s : bytes) : Z := foldl (fun n c => s32 (n * 10 + (c - 48))) 0 s.
Fixpoint digits_prefix (s : bytes) : bytes := match s with c :: s => if is_digit c then c :: digits_prefix s else [] | [] => [] end.
Definition r_parser_lladdr (str : bytes) (param : option bytes) : outcome (option RMatch) :=
  let parts := match param with Some p => decimal_of (digits_prefix p) | None => 20 end in
  _r_parser_lladdr str (s32 (parts * 3 - 1)) parts.
Definition r_parser_macaddr (str : bytes) : outcome (option RMatch) := _r_parser_lladdr str 17 6.

(** The loop: the length, the dots, and the octet, -1 when it has no digit yet. *)
Fixpoint ipv4_loop (str : bytes) (len : nat) (dots octet : Z) : outcome (option (nat * Z * Z)) :=
  match str with
  | [] => Abort
  | c :: rest =>
      if bool_decide (c = 46) then
        if bool_decide (octet > 255 \/ octet = -1) then Ret None
        else if bool_decide (dots = 3) then Ret (Some (len, dots, octet))
        else ipv4_loop rest (S len) (dots + 1) (-1)
      else if is_digit c then ipv4_loop rest (S len) dots (s32 ((if bool_decide (octet = -1) then 0 else octet * 10) + (c - 48)))
      else Ret (Some (len, dots, octet))
  end.
Definition r_parser_ipv4 (str : bytes) : outcome (option RMatch) :=
  let! r := ipv4_loop str 0 0 (-1) in
  match r with
  | None => no_match
  | Some (len, dots, octet) => if bool_decide (dots <> 3 \/ octet > 255 \/ octet = -1) then no_match else plain len
  end.

Record v6 := mkV6 { v6_len : nat; v6_colons : Z; v6_dots : Z; v6_octet : Z; v6_digit : Z; v6_shortened : bool }.
Fixpoint ipv6_loop (str : bytes) (s : v6) : outcome (option v6) :=
  match str with
  | [] => Abort
  | c :: rest =>
      let octet := v6_octet s in
      if bool_decide (c = 58) then
        if bool_decide (octet > 0xffff) || (bool_decide (octet = -1) && v6_shortened s) || bool_decide (v6_digit s = 10) then Ret None
        else
          let shortened := if bool_decide (octet = -1) then true else v6_shortened s in
          if bool_decide (v6_colons s = 7) then Ret (Some (mkV6 (v6_len s) (v6_colons s) (v6_dots s) octet (v6_digit s) shortened))
          else ipv6_loop rest (mkV6 (S (v6_len s)) (v6_colons s + 1) (v6_dots s) (-1) (v6_digit s) shortened)
      else if is_xdigit c then
        ipv6_loop rest (mkV6 (S (v6_len s)) (v6_colons s) (v6_dots s) (s32 ((if bool_decide (octet = -1) then 0 else octet * v6_digit s) + xdigit_value c)) (v6_digit s) (v6_shortened s))
      else if bool_decide (c = 46) then
        if bool_decide (v6_digit s = 10 /\ octet > 255) then Ret None
        else if bool_decide (v6_digit s = 16 /\ octet > 597 \/ octet = -1 \/ v6_colons s = 7 \/ v6_dots s = 3) then Ret (Some s)
        else ipv6_loop rest (mkV6 (S (v6_len s)) (v6_colons s) (v6_dots s + 1) (-1) 10 (v6_shortened s))
      else Ret (Some s)
  end.
(** [str[len - 1]] and [str[len - 2]], which may lie before the string. *)
Definition rd_back (prev str : bytes) (len k : nat) : outcome Z := if bool_decide (k <= len)%nat then rd str (len - k) else rd prev (k - len - 1).
Definition r_parser_ipv6 (prev str : bytes) : outcome (option RMatch) :=
  let! r := ipv6_loop str (mkV6 0 0 0 0 16 false) in
  match r with
  | None => no_match
  | Some s =>
      let! c1 := rd_back prev str (v6_len s) 1 in
      let! (len, dots, colons) :=
        (if bool_decide (c1 = 46) then Ret (Z.of_nat (v6_len s) - 1, v6_dots s - 1, v6_colons s)
         else if bool_decide (c1 = 58) then
           let! c2 := rd_back prev str (v6_len s) 2 in
           Ret (if bool_decide (c2 <> 58) then (Z.of_nat (v6_len s) - 1, v6_dots s, v6_colons s - 1) else (Z.of_nat (v6_len s), v6_dots s, v6_colons s))
         else Ret (Z.of_nat (v6_len s), v6_dots s, v6_colons s)) in
      if bool_decide (colons < 2 \/ colons > 7 \/ v6_digit s = 10 /\ v6_octet s > 255 \/ v6_digit s = 16 /\ v6_octet s > 0xffff \/ ~ (dots = 0 \/ dots = 3))
         || (negb (v6_shortened s) && bool_decide (colons < 7 /\ dots = 0)) then no_match
      else plain (Z.to_nat len)
  end.
Definition r_parser_ip (prev str : bytes) : outcome (option RMatch) :=
  let! r := r_parser_ipv4 str in match r with Some m => Ret (Some m) | None => r_parser_ipv6 prev str end.

(** Digits with at most one dot. *)
Fixpoint float_digits (dot : bool) (str : bytes) : outcome nat :=
  match str with
  | [] => Abort
  | c :: rest =>
      if is_digit c then let! n := float_digits dot rest in Ret (S n)
      else if negb dot && bool_decide (c = 46) then let! n := float_digits true rest in Ret (S n)
      else Ret O
  end.
Definition minus (str : bytes) (len : nat) : outcome nat := let! c := rd str len in Ret (if bool_decide (c = 45%Z) then len + 1 else len)%nat.
Definition r_parser_float (str : bytes) : outcome (option RMatch) :=
  let! len := minus str 0 in
  let! n := float_digits false (drop len str) in
  let len := (len + n)%nat in
  let! c := rd str len in
  let! len := (if bool_decide (0 < len)%nat && bool_decide (c = 101 \/ c = 69) then let! len := minus str (len + 1) in skip is_digit str len else Ret len) in
  if bool_decide (len <> 0%nat) then plain len else no_match.

Definition r_parser_number (str : bytes) : outcome (option RMatch) :=
  let! hex1 := has_prefix str (bytes_of_string "0x") in
  let! hex := (if hex1 : bool then Ret true else has_prefix str (bytes_of_string "0X")) in
  let! (len, min_len) :=
    (if hex : bool then let! len := skip is_xdigit str 2 in Ret (len, 3%nat)
     else let! start := minus str 0 in let! len := skip is_digit str start in Ret (len, (start + 1)%nat)) in
  if bool_decide (min_len <= len)%nat then plain len else no_match.
