(* ===== verification/Radix.v ===== *)
(** * The radix tree of the pattern database (modules/dbparser/radix.c)

    A tree node has literal children, kept in the order of their first bytes,
    and parser children, tried in the order they were added.  [RNode] is the
    tree itself, so a search returns the subtree of the node it finds.  The
    values are of any type; a value given to [r_insert_node] is not NULL.  What
    the file uses of pcre, and the numbers the registry of names gives to names,
    are parameters.  No parser of the file sets the field [match] of a match, which
    would hold a copy of the text. *)
From stdpp Require Import sorting.
From S2P Require Import Prelude CString RadixParsers.

#[local] Set Warnings "-register-all".

(** ** Parser nodes *)

Inductive parse_fn :=
| PString | PQstring | PEstringC | PEstring | PIpv4 | PNumber | PAnystring | PIpv6 | PIp | PFloat | PSet | PMacaddr | PPcre | PEmail | PHostname | PLladdr.
#[global] Instance parse_fn_eq_dec : EqDecision parse_fn.
Proof. solve_decision. Defined.

(** The numbers of the types, [RPT_STRING] and on. *)
Definition rpt_of (f : parse_fn) : Z :=
  match f with
  | PString => 0 | PQstring => 1 | PEstringC | PEstring => 2 | PIpv4 => 3 | PNumber => 4 | PAnystring => 5 | PIpv6 => 6 | PIp => 7
  | PFloat => 8 | PSet => 9 | PMacaddr => 10 | PPcre => 11 | PEmail => 12 | PHostname => 13 | PLladdr => 14
  end.

(** The pointer-sized state of a parser. *)
Inductive pstate (R : Type) := StNull | StInt (n : nat) | StChar (c : Z) | StRe (re : R).
Arguments StNull {R}. Arguments StInt {R} n. Arguments StChar {R} c. Arguments StRe {R} re.

Record RParserNode (R : Type) := mkPNode {
  pn_param : option bytes; pn_state : pstate R; pn_first : Z; pn_last : Z; pn_type : Z; pn_handle : Z; pn_parse : parse_fn }.
Arguments mkPNode {R}. Arguments pn_param {R}. Arguments pn_state {R}. Arguments pn_first {R}. Arguments pn_last {R}.
Arguments pn_type {R}. Arguments pn_handle {R}. Arguments pn_parse {R}.

(** [strchr(s, c)] as the text before and after. *)
Fixpoint split_at (c : Z) (s : bytes) : option (bytes * bytes) :=
  match s with
  | [] => None
  | x :: s => if bool_decide (x = c) then Some ([], s) else match split_at c s with Some (a, b) => Some (x :: a, b) | None => None end
  end.
(** [g_strsplit(s, ":", 3)]. *)
Definition g_strsplit3 (s : bytes) : list bytes :=
  match s with
  | [] => []
  | _ => match split_at 58 s with
         | None => [s]
         | Some (a, r) => match split_at 58 r with None => [a; r] | Some (b, r) => [a; b; r] end
         end
  end.

Section parser_nodes.
Context {R : Type}.
(** [pcre_compile2] with [pcre_study], and [pcre_exec] with the result and the first two offsets. *)
Variable pcre_compile : bytes -> option R.
Variable pcre_exec : R -> bytes -> Z * (Z * Z).
(** [log_msg_get_value_handle]. *)
Variable value_handle : bytes -> Z.

Definition r_parser_pcre (str : bytes) (state : pstate R) : outcome (option RMatch) :=
  match state with
  | StRe re =>
      let! n := count_while (fun c => bool_decide (c <> 0)) str in
      let '(rc, (m0, m1)) := pcre_exec re (take n str) in
      if bool_decide (rc <= 0) then no_match else plain (Z.to_nat (m1 - m0))
  | _ => Abort
  end.
Definition r_parser_pcre_compile_state (expr : bytes) : pstate R := match pcre_compile expr with Some re => StRe re | None => StNull end.

(** [parser_node->parse(key, len, param, state, match)]. *)
Definition parse (p : RParserNode R) (has_match : bool) (prev str : bytes) : outcome (option RMatch) :=
  let param := pn_param p in
  match pn_parse p with
  | PString => r_parser_string str param
  | PQstring => r_parser_qstring str (match pn_state p with StChar c => c | _ => 0 end)
  | PEstringC => r_parser_estring_c str param
  | PEstring => r_parser_estring str param (match pn_state p with StInt n => n | _ => O end)
  | PIpv4 => r_parser_ipv4 str
  | PNumber => r_parser_number str
  | PAnystring => r_parser_anystring str
  | PIpv6 => r_parser_ipv6 prev str
  | PIp => r_parser_ip prev str
  | PFloat => r_parser_float str
  | PSet => r_parser_set str param
  | PMacaddr => r_parser_macaddr str
  | PPcre => r_parser_pcre str (pn_state p)
  | PEmail => r_parser_email has_match prev str param
  | PHostname => r_parser_hostname str
  | PLladdr => r_parser_lladdr str param
  end.

(** The chain of [strcmp] in [r_new_pnode]: the parser, its state, the first
    bytes it may start with; nothing when the parameters are wrong. *)
Definition pnode_kind (name : bytes) (arg : option bytes) : option (parse_fn * pstate R * (Z * Z)) :=
  let named (s : string) := bool_decide (name = bytes_of_string s) in
  let any := (0, 255) in
  if named "IPv4"%string then Some (PIpv4, StNull, (48, 57))
  else if named "IPv6"%string then Some (PIpv6, StNull, any)
  else if named "IPvANY"%string then Some (PIp, StNull, any)
  else if named "MACADDR"%string then Some (PMacaddr, StNull, any)
  else if named "NUMBER"%string then Some (PNumber, StNull, (45, 57))
  else if named "FLOAT"%string || named "DOUBLE"%string then Some (PFloat, StNull, (45, 57))
  else if named "STRING"%string then Some (PString, StNull, any)
  else if named "ESTRING"%string then
    match arg with
    | Some a => Some (if bool_decide (1 < length a)%nat then (PEstring, StInt (length a), any) else (PEstringC, StNull, any))
    | None => None
    end
  else if named "PCRE"%string then match arg with Some a => Some (PPcre, r_parser_pcre_compile_state a, any) | None => None end
  else if named "ANYSTRING"%string then Some (PAnystring, StNull, any)
  else if named "SET"%string then match arg with Some _ => Some (PSet, StNull, any) | None => None end
  else if named "EMAIL"%string then Some (PEmail, StNull, any)
  else if named "HOSTNAME"%string then Some (PHostname, StNull, any)
  else if named "LLADDR"%string then Some (PLladdr, StNull, any)
  else if starts_with name (bytes_of_string "QSTRING") then
    match arg with
    | Some a => Some (PQstring, StChar (if bool_decide (length a = 2%nat) then default 0 (a !! 1%nat) else deref a), (deref a, deref a))
    | None => None
    end
  else None.

(** Nothing when an error is reported.  Text without a name in it would be read
    through a NULL pointer; for PCRE without parameters [params[2]] lies behind the NULL that ends the list. *)
Definition r_new_pnode (key : bytes) : outcome (option (RParserNode R)) :=
  match g_strsplit3 key with
  | [] => Abort
  | name :: params =>
      let! _ := g_assert (negb (bool_decide (name = bytes_of_string "PCRE" /\ params = []))) in
      Ret match pnode_kind name (params !! 1%nat) with
          | None => None
          | Some (f, st, (first, last)) =>
              let handle := match params !! 0%nat with Some (c :: n) => value_handle (c :: n) | _ => 0 end in
              Some (mkPNode (params !! 1%nat) st first last (rpt_of f) handle f)
          end
  end.

Definition r_equal_pnode (a b : RParserNode R) : bool :=
  bool_decide (pn_parse a = pn_parse b) && bool_decide (pn_handle a = pn_handle b) && bool_decide (pn_param a = pn_param b).
End parser_nodes.

(** ** The tree *)

Inductive RNode (R V : Type) :=
| mkNode (key : option bytes) (parser : option (RParserNode R)) (value : option V) (children pchildren : list (RNode R V)).
Arguments mkNode {R V}.

Section tree.
Context {R V : Type}.
Variable pcre_compile : bytes -> option R.
Variable pcre_exec : R -> bytes -> Z * (Z * Z).
Variable value_handle : bytes -> Z.
Abbreviation node := (RNode R V).

Definition n_key (n : node) : option bytes := let '(mkNode k _ _ _ _) := n in k.
Definition n_parser (n : node) : option (RParserNode R) := let '(mkNode _ p _ _ _) := n in p.
Definition n_value (n : node) : option V := let '(mkNode _ _ v _ _) := n in v.
Definition n_children (n : node) : list node := let '(mkNode _ _ _ c _) := n in c.
Definition n_pchildren (n : node) : list node := let '(mkNode _ _ _ _ c) := n in c.
Definition n_keylen (n : node) : Z := match n_key n with Some k => lenZ k | None => -1 end.
(** [node->key] as bytes, and [node->key[0]]. *)
Definition n_bytes (n : node) : bytes := default [] (n_key n).
Definition n_first (n : node) : Z := deref (n_bytes n).
Definition set_value (n : node) (v : option V) : node := let '(mkNode k p _ c pc) := n in mkNode k p v c pc.
Definition set_children (n : node) (c : list node) : node := let '(mkNode k p v _ pc) := n in mkNode k p v c pc.
Definition set_pchildren (n : node) (pc : list node) : node := let '(mkNode k p v c _) := n in mkNode k p v c pc.

Fixpoint height (n : node) : nat := let '(mkNode _ _ _ c pc) := n in S (Nat.max (max_list (height <$> c)) (max_list (height <$> pc))).

Definition r_new_node (key : option bytes) (value : option V) : node := mkNode key None value [] [].

Definition r_node_cmp (a b : node) : Z := if bool_decide (n_first a < n_first b) then -1 else if bool_decide (n_first a > n_first b) then 1 else 0.
Definition node_le (a b : node) : Prop := r_node_cmp a b <= 0.
#[local] Instance node_le_dec : RelDecision node_le.
Proof. intros a b. unfold node_le. apply _. Defined.
Definition r_add_child (parent child : node) : node := set_children parent (merge_sort node_le (n_children parent ++ [child])).
Definition r_add_pchild (parent child : node) : node := set_pchildren parent (n_pchildren parent ++ [child]).

(** The index of the child. *)
Fixpoint r_find_pchild (pchildren : list node) (p : RParserNode R) : option nat :=
  match pchildren with
  | [] => None
  | c :: rest => if match n_parser c with Some q => r_equal_pnode q p | None => false end then Some O else S <$> r_find_pchild rest p
  end.

(** Binary search between [l] and [u]; the byte is read as a [char], the first
    bytes of the keys are unsigned. *)
Fixpoint child_search (fuel : nat) (children : list node) (k : Z) (l u : nat) : option nat :=
  match fuel with
  | O => None
  | S fuel =>
      if bool_decide (l < u)%nat then
        let idx := ((l + u) / 2)%nat in
        match children !! idx with
        | None => None
        | Some c =>
            if bool_decide (n_first c > k) then child_search fuel children k l idx
            else if bool_decide (n_first c < k) then child_search fuel children k (idx + 1) u
            else Some idx
        end
      else None
  end.
Definition r_find_child_by_first_character (root : node) (key : Z) : option nat :=
  child_search (S (length (n_children root))) (n_children root) (s8 key) 0 (length (n_children root)).

(** What an insertion reports. *)
Inductive rerr := EDuplicate | EParser | EUnescaped.

Section check.
Variable insert : node -> bytes -> outcome (node * option rerr).
Definition r_add_child_check (root : node) (key : bytes) (value : V) : outcome (node * option rerr) :=
  match split_at 64 key with
  | Some (lit, rest) =>
      if bool_decide (0 < length lit)%nat then
        let! (child, e) := insert (r_new_node (Some lit) None) (64 :: rest) in
        Ret (r_add_child root child, e)
      else insert root key
  | None => Ret (r_add_child root (r_new_node (Some key) (Some value)), None)
  end.
(** Go on below a child, or give it the value when the key is over. *)
Definition insert_below (child : node) (rest : bytes) (value : V) : outcome (node * option rerr) :=
  match rest with
  | [] => match n_value child with None => Ret (set_value child (Some value), None) | Some _ => Ret (child, Some EDuplicate) end
  | _ => insert child rest
  end.
End check.

(** The number of bytes a key and a node have in common. *)
Fixpoint common_prefix (key nkey : bytes) : nat :=
  match key, nkey with
  | a :: key, b :: nkey => if bool_decide (a <> b \/ a = 64) then O else S (common_prefix key nkey)
  | _, _ => O
  end.

(** [i] bytes stay in the node, the rest goes to a child. *)
Definition split_node (root : node) (i : nat) : node :=
  let '(mkNode k p v c pc) := root in
  r_add_child (mkNode (Some (take i (default [] k))) p None [] []) (mkNode (Some (drop i (default [] k))) None v c pc).

Fixpoint insert_loop (fuel : nat) (root : node) (key : bytes) (value : V) : outcome (node * option rerr) :=
  match fuel with
  | O => Abort
  | S fuel =>
      let insert (n : node) (k : bytes) := insert_loop fuel n k value in
      let tail := drop 1 key in
      if bool_decide (deref key = 64) then
        if bool_decide (2 <= lenZ key /\ deref tail = 64) then
          let rest := drop 2 key in
          match r_find_child_by_first_character root 64 with
          | None =>
              let! (child, e) := insert_below insert (r_new_node (Some [64]) None) rest value in
              Ret (r_add_child root child, e)
          | Some i =>
              match n_children root !! i with
              | None => Abort
              | Some child => let! (child, e) := insert_below insert child rest value in Ret (set_children root (<[i := child]> (n_children root)), e)
              end
          end
        else
          match split_at 64 tail with
          | None => Ret (root, Some EUnescaped)
          | Some (spec, rest) =>
              let! r := r_new_pnode pcre_compile value_handle spec in
              match r with
              | None => Ret (root, Some EParser)
              | Some p =>
                  match r_find_pchild (n_pchildren root) p with
                  | None =>
                      let! (child, e) := insert_below insert (mkNode None (Some p) None [] []) rest value in
                      Ret (r_add_pchild root child, e)
                  | Some i =>
                      match n_pchildren root !! i with
                      | None => Abort
                      | Some child => let! (child, e) := insert_below insert child rest value in Ret (set_pchildren root (<[i := child]> (n_pchildren root)), e)
                      end
                  end
              end
          end
      else
        let keylen := lenZ key in
        let nodelen := n_keylen root in
        let n := common_prefix key (n_bytes root) in
        let i := Z.of_nat n in
        if bool_decide (nodelen = 0 \/ i = 0 \/ i < keylen /\ i >= nodelen) then
          match r_find_child_by_first_character root (deref (drop n key)) with
          | Some idx =>
              if bool_decide (deref (drop n key) = 64) then insert root (drop n key)
              else
                match n_children root !! idx with
                | None => Abort
                | Some child => let! (child, e) := insert child (drop n key) in Ret (set_children root (<[idx := child]> (n_children root)), e)
                end
          | None => r_add_child_check insert root (drop n key) value
          end
        else if bool_decide (i = keylen /\ i = nodelen) then
          match n_value root with None => Ret (set_value root (Some value), None) | Some _ => Ret (root, Some EDuplicate) end
        else if bool_decide (i > 0 /\ i < nodelen) then
          let root := split_node root n in
          if bool_decide (i < keylen) then r_add_child_check insert root (drop n key) value
          else Ret (set_value root (Some value), None)
        else r_add_child_check insert root (drop n key) value
  end.
(** A step takes bytes from the key or goes to a child that starts with the next
    one, but an empty key goes down a chain of children with empty keys. *)
Definition r_insert_node (root : node) (key : bytes) (value : V) : outcome (node * option rerr) :=
  insert_loop (2 * length key + 2 + height root) root key value.
End tree.

(** * Searching the radix tree (modules/dbparser/radix.c)

    [before] and [mem] are the memory before the key and from the key on; a
    pointer into the key is the number of bytes from its start.  [keylen] is what
    is left of the key, which is negative when a parser took the terminator too.
    The fuel is the height of the tree. *)

Definition s16 (x : Z) : Z := let y := u16 x in if bool_decide (y < 2 ^ 15) then y else y - 2 ^ 16.

Record RParserMatch := mkRMatch { rm_match : option bytes; rm_handle : Z; rm_len : Z; rm_ofs : Z; rm_type : Z }.
Definition empty_match : RParserMatch := mkRMatch None 0 0 0 0.

Section find.
Context {R V : Type}.
Variable pcre_exec : R -> bytes -> Z * (Z * Z).
Variables before mem : bytes.
Abbreviation node := (RNode R V).

Record RDebugInfo := mkDbg { dbg_node : node; dbg_pnode : option (RParserNode R); dbg_i : Z; dbg_match_off : Z; dbg_match_len : Z }.

Record RFindNodeState := mkFind {
  require_complete_match : bool; partial_match_found : bool;
  stored_matches : option (list RParserMatch); dbg_list : option (list RDebugInfo); applicable_nodes : option (list node) }.
Definition set_matches (s : RFindNodeState) (m : option (list RParserMatch)) : RFindNodeState :=
  mkFind (require_complete_match s) (partial_match_found s) m (dbg_list s) (applicable_nodes s).
Definition set_dbg (s : RFindNodeState) (d : option (list RDebugInfo)) : RFindNodeState :=
  mkFind (require_complete_match s) (partial_match_found s) (stored_matches s) d (applicable_nodes s).

Definition _add_debug_info (s : RFindNodeState) (d : RDebugInfo) : RFindNodeState := set_dbg s ((fun l => l ++ [d]) <$> dbg_list s).
Definition _add_literal_match_to_debug_info (s : RFindNodeState) (n : node) (literal_prefix : Z) : RFindNodeState := _add_debug_info s (mkDbg n None literal_prefix 0 0).
Definition _add_parser_match_debug_info (s : RFindNodeState) (root : node) (p : RParserNode R) (pos : nat) (len : nat) (slot : option RParserMatch) : RFindNodeState :=
  match slot with
  | Some m => _add_debug_info s (mkDbg root (Some p) (Z.of_nat len) (s16 (rm_ofs m) + Z.of_nat pos) (s16 (rm_len m) + Z.of_nat len))
  | None => s
  end.
Definition _truncate_debug_info (s : RFindNodeState) (size : nat) : RFindNodeState := set_dbg s (take size <$> dbg_list s).

Fixpoint prefix_loop (fuel : nat) (key : bytes) (pos match_length : nat) (m : Z) : outcome nat :=
  if bool_decide (Z.of_nat match_length < m) then
    match fuel with
    | O => Abort
    | S fuel =>
        let! a := rd mem (pos + match_length) in
        let! b := rd key match_length in
        if bool_decide (a <> b) then Ret match_length else prefix_loop fuel key pos (match_length + 1) m
    end
  else Ret match_length.
Definition _find_matching_literal_prefix (root : node) (pos : nat) (keylen : Z) : outcome nat :=
  if bool_decide (n_keylen root < 1) then Ret O
  else if bool_decide (n_keylen root = 1) then Ret 1%nat
  else let m := Z.min keylen (n_keylen root) in prefix_loop (length (n_bytes root)) (n_bytes root) pos 1 m.

(** The index of the new slot; the slot of a search without matches is NULL. *)
Definition _alloc_slot_in_matches (s : RFindNodeState) : nat * RFindNodeState :=
  match stored_matches s with Some l => (length l, set_matches s (Some (l ++ [empty_match]))) | None => (O, s) end.
Definition _get_match_slot (s : RFindNodeState) (i : nat) : option RParserMatch := match stored_matches s with Some l => l !! i | None => None end.
Definition set_slot (s : RFindNodeState) (i : nat) (m : RParserMatch) : RFindNodeState := set_matches s ((fun l => <[i := m]> l) <$> stored_matches s).
Definition _clear_match_slot (s : RFindNodeState) (i : nat) : RFindNodeState := set_slot s i empty_match.
Definition _reset_matches_to_original_state (s : RFindNodeState) (i : nat) : RFindNodeState := set_matches s (take i <$> stored_matches s).

Definition _is_pnode_matching_initial_character (p : RParserNode R) (c : Z) : bool := bool_decide (pn_first p <= c <= pn_last p).
Definition has_slot (s : RFindNodeState) : bool := match stored_matches s with Some _ => true | None => false end.
Definition _pnode_try_parse (p : RParserNode R) (pos : nat) (has_match : bool) : outcome (option RMatch) :=
  let! c := rd mem pos in
  if negb (_is_pnode_matching_initial_character p c) then Ret None else parse pcre_exec p has_match (reverse (take pos mem) ++ before) (drop pos mem).
Definition _fixup_match_offsets (p : RParserNode R) (len pos : nat) (m : RParserMatch) : RParserMatch :=
  match rm_match m with
  | None => mkRMatch None (pn_handle p) (u16 (s16 (rm_len m) + Z.of_nat len)) (u16 (rm_ofs m + Z.of_nat pos)) (pn_type p)
  | Some _ => m
  end.
Definition _clear_match_content (m : RParserMatch) : RParserMatch := mkRMatch None (rm_handle m) (rm_len m) (rm_ofs m) (rm_type m).

Section children.
Variable find : RFindNodeState -> node -> nat -> Z -> outcome (option node * RFindNodeState).

Definition _find_child_by_remaining_key (s : RFindNodeState) (root : node) (pos : nat) (keylen : Z) : outcome (option node * RFindNodeState) :=
  let! c := rd mem pos in
  match r_find_child_by_first_character root c with
  | Some i => match n_children root !! i with Some candidate => find s candidate pos keylen | None => Abort end
  | None => Ret (None, s)
  end.

Definition _try_parse_with_a_given_child (s : RFindNodeState) (root child : node) (slot pos : nat) (keylen : Z) : outcome (option node * RFindNodeState) :=
  match n_parser child with
  | None => Abort
  | Some p =>
      let s := _clear_match_slot s slot in
      let! r := _pnode_try_parse p pos (has_slot s) in
      match r with
      | None => Ret (None, s)
      | Some m =>
          let s := set_slot s slot (mkRMatch None 0 (m_len m) (m_ofs m) 0) in
          let s := _add_parser_match_debug_info s root p pos (m_take m) (_get_match_slot s slot) in
          let! (ret, s) := find s child (pos + m_take m)%nat (keylen - Z.of_nat (m_take m)) in
          let s := match _get_match_slot s slot with
                   | Some sl => set_slot s slot (match ret with Some _ => _fixup_match_offsets p (m_take m) pos sl | None => _clear_match_content sl end)
                   | None => s
                   end in
          Ret (ret, s)
      end
  end.

Fixpoint try_parsers (s : RFindNodeState) (root : node) (pchildren : list node) (dbg_base slot pos : nat) (keylen : Z) : outcome (option node * RFindNodeState) :=
  match pchildren with
  | [] => Ret (None, s)
  | child :: rest =>
      let s := _truncate_debug_info s dbg_base in
      let! (ret, s) := _try_parse_with_a_given_child s root child slot pos keylen in
      match ret with Some n => Ret (Some n, s) | None => try_parsers s root rest dbg_base slot pos keylen end
  end.
Definition _find_child_by_parser (s : RFindNodeState) (root : node) (pos : nat) (keylen : Z) : outcome (option node * RFindNodeState) :=
  let dbg_base := length (default [] (dbg_list s)) in
  let '(slot, s) := _alloc_slot_in_matches s in
  let! (ret, s) := try_parsers s root (n_pchildren root) dbg_base slot pos keylen in
  Ret (ret, match ret with None => _reset_matches_to_original_state s slot | Some _ => s end).
End children.

Definition note_partial (s : RFindNodeState) : RFindNodeState := mkFind (require_complete_match s) true (stored_matches s) (dbg_list s) (applicable_nodes s).

Fixpoint _find_node_recursively (fuel : nat) (s : RFindNodeState) (root : node) (pos : nat) (keylen : Z) : outcome (option node * RFindNodeState) :=
  match fuel with
  | O => Abort
  | S fuel =>
      let! n := _find_matching_literal_prefix root pos keylen in
      let literal_prefix_len := Z.of_nat n in
      let s := _add_literal_match_to_debug_info s root literal_prefix_len in
      if bool_decide (literal_prefix_len = keylen /\ (literal_prefix_len = n_keylen root \/ n_keylen root = -1)) then
        match applicable_nodes s with
        | Some l => Ret (None, mkFind (require_complete_match s) (partial_match_found s) (stored_matches s) (dbg_list s) (Some (l ++ [root])))
        | None => Ret (match n_value root with Some _ => Some root | None => None end, s)
        end
      else if bool_decide (n_keylen root < 1 \/ literal_prefix_len < keylen /\ literal_prefix_len >= n_keylen root) then
        let pos := (pos + n)%nat in
        let keylen := keylen - literal_prefix_len in
        let! (ret, s) := _find_child_by_remaining_key (_find_node_recursively fuel) s root pos keylen in
        let! (ret, s) := (match ret with Some _ => Ret (ret, s) | None => _find_child_by_parser (_find_node_recursively fuel) s root pos keylen end) in
        match ret, n_value root with
        | None, Some _ => if negb (require_complete_match s) then Ret (Some root, s) else Ret (None, note_partial s)
        | _, _ => Ret (ret, s)
        end
      else Ret (None, s)
  end.

Definition _find_node_with_state (s : RFindNodeState) (root : node) (keylen : Z) : outcome (option node * RFindNodeState) :=
  let s := mkFind true false (stored_matches s) (dbg_list s) (applicable_nodes s) in
  let! (ret, s) := _find_node_recursively (height root) s root 0 keylen in
  match ret with
  | None =>
      if partial_match_found s then
        let s := mkFind false (partial_match_found s) (stored_matches s) (dbg_list s) (applicable_nodes s) in
        _find_node_recursively (height root) s root 0 keylen
      else Ret (None, s)
  | Some _ => Ret (ret, s)
  end.

Definition r_find_node (root : node) (keylen : Z) (matches : option (list RParserMatch)) : outcome (option node * option (list RParserMatch)) :=
  let! (ret, s) := _find_node_with_state (mkFind false false matches None None) root keylen in Ret (ret, stored_matches s).
Definition r_find_node_dbg (root : node) (keylen : Z) (matches : option (list RParserMatch)) (dbg : list RDebugInfo) :
  outcome (option node * option (list RParserMatch) * list RDebugInfo) :=
  let! (ret, s) := _find_node_with_state (mkFind false false matches (Some dbg) None) root keylen in Ret (ret, stored_matches s, default [] (dbg_list s)).
(** The values of the nodes, through [value_func]. *)
Definition r_find_all_applicable_nodes (root : node) (keylen : Z) (value_func : option V -> bytes) : outcome (list bytes) :=
  let! (_, s) := _find_node_recursively (height root) (mkFind true false None None (Some [])) root 0 keylen in
  Ret ((fun n => value_func (n_value n)) <$> default [] (applicable_nodes s)).
End find.
