(* ===== verification/RadixSpec.v ===== *)
(** * What a radix tree holds

    A pattern is a sequence of literal bytes and parsers.  [tokens] reads one
    from the text of a rule, [spells] says which patterns lead to a value in a
    tree.  The invariant [wf] of a tree: the children start with different bytes, in
    order; an [@] is a node of its own; the parsers below one node differ.
    Patterns are ASCII here: see [RadixClaims] for what happens to others. *)
From stdpp Require Import sorting.
From S2P Require Import Prelude CString RadixParsers Radix.

(** ** Splitting a text *)

Lemma split_at_some c s a b : split_at c s = Some (a, b) -> s = a ++ c :: b /\ c ∉ a.
Proof.
  revert a b. induction s as [|x s IH]; intros a b; [done|]. simpl. case_bool; [intros [= <- <-]; subst; split; [done|set_solver]|].
  destruct (split_at c s) as [[a' b']|] eqn:E; [|done]. intros [= <- <-]. destruct (IH a' b' eq_refl) as [-> ?]. split; [done|set_solver].
Qed.
Lemma split_at_none c s : split_at c s = None -> c ∉ s.
Proof. induction s as [|x s IH]; simpl; [set_solver|]. case_bool; [done|]. destruct (split_at c s) as [[]|]; [done|]. intros _. set_solver. Qed.
Lemma split_at_app c a b : c ∉ a -> split_at c (a ++ c :: b) = Some (a, b).
Proof. induction a as [|x a IH]; intros H; simpl; [by rewrite bool_decide_eq_true_2|]. rewrite bool_decide_eq_false_2 by set_solver. rewrite IH by set_solver. done. Qed.

Section spec.
Context {R V : Type}.
Variable pcre_compile : bytes -> option R.
Variable value_handle : bytes -> Z.
Abbreviation node := (RNode R V).
Abbreviation new_pnode := (r_new_pnode pcre_compile value_handle).

Inductive tok := Lit (c : Z) | Prs (p : RParserNode R).
Definition lits (k : bytes) : list tok := Lit <$> k.

(** The pattern a text stands for. *)
Inductive tokens : bytes -> list tok -> Prop :=
| T_nil : tokens [] []
| T_lit c s q : c <> 64 -> tokens s q -> tokens (c :: s) (Lit c :: q)
| T_escape s q : tokens s q -> tokens (64 :: 64 :: s) (Lit 64 :: q)
| T_parser spec p s q : spec <> [] -> 64 ∉ spec -> new_pnode spec = Ret (Some p) -> tokens s q -> tokens (64 :: spec ++ 64 :: s) (Prs p :: q).

(** ** Texts *)

Lemma tokens_nil q : tokens [] q <-> q = [].
Proof. split; [by inversion 1|intros ->; constructor]. Qed.
Lemma tokens_lit c s q : c <> 64 -> tokens (c :: s) q <-> exists q', q = [Lit c] ++ q' /\ tokens s q'.
Proof. intros H. split; [inversion 1; subst; [by eexists|done..]|intros (q' & -> & ?); by constructor]. Qed.
Lemma tokens_lits a s q : 64 ∉ a -> tokens (a ++ s) q <-> exists q', q = lits a ++ q' /\ tokens s q'.
Proof.
  revert q. induction a as [|c a IH]; intros q H; [simpl; split; [by eexists|by intros (? & -> & ?)]|]. simpl. rewrite tokens_lit by set_solver. split.
  - intros (q' & -> & (q'' & -> & ?)%IH); [by exists q''|set_solver].
  - intros (q' & -> & ?). exists (lits a ++ q'). split; [done|]. apply IH; [set_solver|by exists q'].
Qed.
Lemma tokens_escape s q : tokens (64 :: 64 :: s) q <-> exists q', q = [Lit 64] ++ q' /\ tokens s q'.
Proof.
  split; [|intros (q' & -> & ?); by constructor]. inversion 1 as [| | |spec p s' q0 ? N]; subst; [done|by eexists|]. destruct spec; [done|]. simplify_eq/=. set_solver.
Qed.
Lemma tokens_parser tail spec rest q : split_at 64 tail = Some (spec, rest) -> spec <> [] ->
  tokens (64 :: tail) q <-> exists p q', new_pnode spec = Ret (Some p) /\ q = [Prs p] ++ q' /\ tokens rest q'.
Proof.
  intros H Hs. apply split_at_some in H as H'. destruct H' as [-> Hn]. split; [|intros (p & q' & ? & -> & ?); by constructor].
  inversion 1 as [| |s' q0 ? E|spec' p s' q0 ? N ? ? E]; subst; [done|destruct spec; [done|]; simplify_eq/=; set_solver|].
  assert (Hx : split_at 64 (spec' ++ 64 :: s') = Some (spec, rest)) by congruence. rewrite split_at_app in Hx by done. simplify_eq. by exists p, q0.
Qed.
Lemma tokens_unescaped tail q : split_at 64 tail = None -> ~ tokens (64 :: tail) q.
Proof. intros H%split_at_none. inversion 1; subst; [done|set_solver|set_solver]. Qed.

Lemma tokens_functional s q q' : tokens s q -> tokens s q' -> q = q'.
Proof.
  intros H. revert q'. induction H as [|c s q Nc H IH|s q H IH|spec p s q Ns Nn Hp H IH]; intros q'.
  - by rewrite tokens_nil.
  - rewrite tokens_lit by done. intros (q0 & -> & H0). simpl. f_equal. by apply IH.
  - rewrite tokens_escape. intros (q0 & -> & H0). simpl. f_equal. by apply IH.
  - rewrite (tokens_parser _ spec s) by (done || by apply split_at_app). intros (p' & q0 & Hp' & -> & H0). simpl. rewrite (IH q0) by done. congruence.
Qed.

Lemma new_pnode_total spec : spec <> [] -> spec <> bytes_of_string "PCRE" -> exists r, new_pnode spec = Ret r.
Proof. intros H Hp. unfold r_new_pnode, g_strsplit3. destruct spec as [|c spec]; [done|]. repeat case_match; simplify_eq; (rewrite bool_decide_eq_false_2 by (intros [? ?]; congruence)); by eexists. Qed.

(** State and first bytes follow from the parser and its parameter. *)
Definition shape (f : parse_fn) (arg : option bytes) : pstate R * (Z * Z) :=
  match f with
  | PIpv4 => (StNull, (48, 57)) | PNumber | PFloat => (StNull, (45, 57))
  | PEstring => (StInt (length (default [] arg)), (0, 255))
  | PPcre => (r_parser_pcre_compile_state pcre_compile (default [] arg), (0, 255))
  | PQstring => let a := default [] arg in (StChar (if bool_decide (length a = 2%nat) then default 0 (a !! 1%nat) else deref a), (deref a, deref a))
  | _ => (StNull, (0, 255))
  end.
Lemma kind_shape name arg f st r : pnode_kind pcre_compile name arg = Some (f, st, r) -> (st, r) = shape f arg.
Proof.
  unfold pnode_kind. intros H. repeat (case_match; simplify_eq/=; try done).
Qed.
Lemma new_pnode_inv spec p : new_pnode spec = Ret (Some p) ->
  p = (let '(st, (first, last)) := shape (pn_parse p) (pn_param p) in mkPNode (pn_param p) st first last (rpt_of (pn_parse p)) (pn_handle p) (pn_parse p)).
Proof.
  unfold r_new_pnode. destruct (g_strsplit3 spec) as [|name params]; [done|]. destruct (bool_decide (_ /\ _)); cbn [negb g_assert obind]; [done|]. destruct (pnode_kind _ _ _) as [[[f st] [first last]]|] eqn:E; [|done].
  intros H. simplify_eq. apply kind_shape in E. cbn [pn_parse pn_param pn_handle]. by rewrite <- E.
Qed.
(** ** The tree *)

(** The parsers the rules may use. *)
Variable allowed : bytes -> Prop.

(** Below node [n] the pattern leads to the value. *)
Inductive spells : node -> list tok -> V -> Prop :=
| sp_here n v : n_value n = Some v -> spells n [] v
| sp_lit n c q v : c ∈ n_children n -> spells c q v -> spells n (lits (n_bytes c) ++ q) v
| sp_parser n c p q v : c ∈ n_pchildren n -> n_parser c = Some p -> spells c q v -> spells n (Prs p :: q) v.
(** The same with the key of the node itself. *)
Definition spells_at (n : node) (q : list tok) (v : V) : Prop := exists q', q = lits (n_bytes n) ++ q' /\ spells n q' v.

Definition ascii (s : bytes) : Prop := Forall (fun c => 1 <= c < 128) s.
Definition key_ok (k : bytes) : Prop := k <> [] /\ (k = [64] \/ 64 ∉ k) /\ ascii k.
Definition made (p : RParserNode R) : Prop := exists spec, new_pnode spec = Ret (Some p) /\ allowed spec.
Definition lit_child (c : node) : Prop := exists k, n_key c = Some k /\ key_ok k.
Definition parser_child (c : node) : Prop := n_key c = None /\ exists p, n_parser c = Some p /\ made p.
Definition first_lt (a b : node) : Prop := n_first a < n_first b.
Record wf_at (n : node) : Prop := {
  wa_lit : Forall lit_child (n_children n);
  wa_sorted : StronglySorted first_lt (n_children n);
  wa_parsers : Forall parser_child (n_pchildren n);
  wa_distinct : NoDup (n_parser <$> n_pchildren n) }.
Inductive wf (n : node) : Prop :=
| wf_intro : wf_at n -> (forall c, c ∈ n_children n -> wf c) -> (forall c, c ∈ n_pchildren n -> wf c) -> wf n.

(** A text with allowed parsers, where PCRE has parameters. *)
Definition text_ok (s : bytes) : Prop := ascii s /\ forall a spec b, s = a ++ 64 :: spec ++ 64 :: b -> spec <> [] -> 64 ∉ spec -> allowed spec /\ spec <> bytes_of_string "PCRE".

Lemma text_suffix a s : text_ok (a ++ s) -> text_ok s.
Proof. intros [A H]. split; [by apply Forall_app in A as [_ ?]|]. intros b spec c -> Hs Hn. apply (H (a ++ b) spec c); [by rewrite <- app_assoc|done..]. Qed.
Lemma text_drop n s : text_ok s -> text_ok (drop n s).
Proof. intros H. apply (text_suffix (take n s)). by rewrite take_drop. Qed.
Lemma text_tail c s : text_ok (c :: s) -> text_ok s.
Proof. apply (text_suffix [c]). Qed.

Lemma equal_pnode_eq a b : made a -> made b -> r_equal_pnode a b = true <-> a = b.
Proof.
  intros (sa & Ha & _) (sb & Hb & _). unfold r_equal_pnode. split; [|intros ->; by rewrite !bool_decide_eq_true_2].
  intros [[E1%bool_decide_eq_true E2%bool_decide_eq_true]%andb_true_iff E3%bool_decide_eq_true]%andb_true_iff.
  rewrite (new_pnode_inv _ _ Ha), (new_pnode_inv _ _ Hb), E1, E2, E3. done.
Qed.

(** ** Nodes *)

Lemma key_ok_first k : key_ok k -> exists c k', k = c :: k' /\ 1 <= c < 128.
Proof. intros (H & _ & A). destruct k as [|c k]; [done|]. apply Forall_cons in A as [? _]. by exists c, k. Qed.
Lemma lit_child_bytes c : lit_child c -> key_ok (n_bytes c).
Proof. intros (k & E & H). unfold n_bytes. by rewrite E. Qed.
Lemma lit_child_first c : lit_child c -> exists k, n_bytes c = n_first c :: k.
Proof. intros (x & k & E & _)%lit_child_bytes%key_ok_first. exists k. unfold n_first. by rewrite E. Qed.
Lemma wf_child n c : wf n -> c ∈ n_children n -> wf c /\ lit_child c.
Proof. intros [A H _] Hc. split; [by apply H|]. destruct A as [L _ _ _]. rewrite Forall_forall in L. by apply L. Qed.
Lemma wf_pchild n c : wf n -> c ∈ n_pchildren n -> wf c /\ parser_child c.
Proof. intros [A _ H] Hc. split; [by apply H|]. destruct A as [_ _ L _]. rewrite Forall_forall in L. by apply L. Qed.
Lemma wf_leaf k p v : wf (mkNode k p v [] []).
Proof. constructor; [split; simpl; constructor|intros c; simpl; set_solver..]. Qed.

Lemma spells_cases n q v : spells n q v <->
  (q = [] /\ n_value n = Some v) \/ (exists c, c ∈ n_children n /\ spells_at c q v) \/ (exists c p q', c ∈ n_pchildren n /\ n_parser c = Some p /\ q = [Prs p] ++ q' /\ spells c q' v).
Proof.
  split.
  - destruct 1 as [|n c q v Hc H|n c p q v Hc Hp H]; [by left|right; left; exists c; split; [done|by exists q]|right; right; by exists c, p, q].
  - intros [[-> H]|[(c & Hc & q' & -> & H)|(c & p & q' & Hc & Hp & -> & H)]]; by econstructor.
Qed.
Lemma spells_at_first c q v : lit_child c -> spells_at c q v -> exists q', q = Lit (n_first c) :: q'.
Proof. intros (k & E)%lit_child_first (q' & -> & _). rewrite E. simpl. by eexists. Qed.
Lemma spells_nil n v : wf n -> spells n [] v <-> n_value n = Some v.
Proof.
  intros W. rewrite spells_cases. split; [|by left]. intros [[_ H]|[(c & Hc & H)|(c & p & q' & _ & _ & ? & _)]]; [done| |done].
  apply (wf_child _ _ W) in Hc as [_ L]. by destruct (spells_at_first _ _ _ L H).
Qed.

Lemma sorted_lookup (l : list node) i j x y : StronglySorted first_lt l -> l !! i = Some x -> l !! j = Some y -> (i < j)%nat -> n_first x < n_first y.
Proof.
  intros S. revert i j. induction S as [|a l S IH F]; intros i j Hi Hj L; [done|]. destruct j as [|j]; [lia|]. destruct i as [|i]; [|by apply (IH i j); [..|lia]].
  simplify_eq/=. rewrite Forall_forall in F. apply F. by eapply list_elem_of_lookup_2.
Qed.
Lemma first_distinct n i j c d : wf n -> n_children n !! i = Some c -> n_children n !! j = Some d -> n_first c = n_first d -> i = j.
Proof.
  intros [[_ S _ _] _ _] Hi Hj E.
  destruct (Nat.lt_trichotomy i j) as [L|[->|L]]; [pose proof (sorted_lookup _ _ _ _ _ S Hi Hj L); lia|done|pose proof (sorted_lookup _ _ _ _ _ S Hj Hi L); lia].
Qed.
(** Patterns that start with the byte of a child lead through it. *)
Lemma spells_child n c x q v : wf n -> c ∈ n_children n -> n_first c = x -> spells n (Lit x :: q) v <-> spells_at c (Lit x :: q) v.
Proof.
  intros W Hc Ex. rewrite spells_cases. split; [|intros H; right; left; by exists c]. intros [[? _]|[(d & Hd & H)|(d & p & q' & _ & _ & ? & _)]]; [done| |done].
  destruct (wf_child _ _ W Hd) as [_ L]. destruct (spells_at_first _ _ _ L H) as [q' E]. simplify_eq.
  apply list_elem_of_lookup in Hc as [i Hi], Hd as [j Hj]. assert (i = j) as -> by eauto using first_distinct. by simplify_eq.
Qed.
Lemma spells_no_child n x q v : wf n -> (forall c, c ∈ n_children n -> n_first c <> x) -> ~ spells n (Lit x :: q) v.
Proof.
  intros W N. rewrite spells_cases. intros [[? _]|[(d & Hd & H)|(d & p & q' & _ & _ & ? & _)]]; [done| |done].
  destruct (wf_child _ _ W Hd) as [_ L]. destruct (spells_at_first _ _ _ L H) as [q' E]. simplify_eq. by apply (N d).
Qed.
Lemma spells_pchild n c p q v : wf n -> c ∈ n_pchildren n -> n_parser c = Some p -> spells n (Prs p :: q) v <-> spells c q v.
Proof.
  intros W Hc Hp. rewrite spells_cases. split; [|intros H; right; right; by exists c, p, q].
  intros [[? _]|[(d & Hd & H)|(d & p' & q' & Hd & Hp' & E & H)]]; [done| |].
  - destruct (wf_child _ _ W Hd) as [_ L]. by destruct (spells_at_first _ _ _ L H).
  - simplify_eq/=. destruct W as [[_ _ _ N] _ _]. apply list_elem_of_lookup in Hc as [i Hi], Hd as [j Hj].
    cut (i = j); [intros ->; assert (c = d) as -> by congruence; done|]. eapply (NoDup_lookup (n_parser <$> n_pchildren n)); [done|rewrite list_lookup_fmap, Hi; simpl; done|rewrite list_lookup_fmap, Hj; simpl; congruence].
Qed.
Lemma spells_no_pchild n p q v : wf n -> (forall c, c ∈ n_pchildren n -> n_parser c <> Some p) -> ~ spells n (Prs p :: q) v.
Proof.
  intros W N. rewrite spells_cases. intros [[? _]|[(d & Hd & H)|(d & p' & q' & Hd & Hp' & E & H)]]; [done| |simplify_eq/=; by apply (N d)].
  destruct (wf_child _ _ W Hd) as [_ L]. by destruct (spells_at_first _ _ _ L H).
Qed.

(** A pattern leads to one value. *)
Lemma spells_functional n q v w : wf n -> spells n q v -> spells n q w -> v = w.
Proof.
  intros W H. revert W w. induction H as [n v Hv|n c q v Hc H IH|n c p q v Hc Hp H IH]; intros W w Hw.
  - apply spells_nil in Hw; [congruence|done].
  - destruct (wf_child _ _ W Hc) as [Wc L]. destruct (lit_child_first _ L) as [k E]. apply IH; [done|]. revert Hw. rewrite E. simpl.
    rewrite (spells_child n c) by done. intros (q' & Eq & Hw). rewrite E in Eq. by simplify_eq/=.
  - apply IH; [by apply (wf_pchild n)|]. by apply (spells_pchild n c p).
Qed.
End spec.
