(* ===== verification/RadixInsert.v ===== *)
(** * Insertion into the radix tree adds one pattern

    An insertion keeps the invariant, and the tree then holds what it held and
    the new pattern, unless it has that one already or the text is not a
    pattern, which is reported. *)
From stdpp Require Import sorting.
From S2P Require Import Prelude CString RadixParsers Radix RadixSpec.

Section insert.
Context {R V : Type}.
Variable pcre_compile : bytes -> option R.
Variable value_handle : bytes -> Z.
Variable allowed : bytes -> Prop.
Abbreviation node := (RNode R V).
Abbreviation new_pnode := (r_new_pnode pcre_compile value_handle).
Abbreviation tokens := (tokens pcre_compile value_handle).
Abbreviation wf := (@wf R V pcre_compile value_handle allowed).
Abbreviation text_ok := (text_ok allowed).
Abbreviation insert_loop := (@insert_loop R V pcre_compile value_handle).

(** ** Changing the children *)

#[local] Instance node_le_total : Total (@node_le R V).
Proof. intros a b. unfold node_le, r_node_cmp. repeat case_bool; lia. Qed.
#[local] Instance node_le_trans : Transitive (@node_le R V).
Proof. intros a b c. unfold node_le, r_node_cmp. repeat case_bool; lia. Qed.

Lemma add_child_elem (n c d : node) : d ∈ n_children (r_add_child n c) <-> d ∈ n_children n \/ d = c.
Proof. destruct n. simpl. rewrite (merge_sort_Permutation node_le). set_solver. Qed.
Lemma le_strict (l : list node) : StronglySorted node_le l -> NoDup (n_first <$> l) -> StronglySorted first_lt l.
Proof.
  induction 1 as [|a l S IH F]; intros N; constructor.
  - apply IH. by apply NoDup_cons in N as [_ ?].
  - apply NoDup_cons in N as [N _]. rewrite Forall_forall in *. intros b Hb. specialize (F b Hb). unfold first_lt, node_le, r_node_cmp in *.
    destruct (decide (n_first a = n_first b)) as [E|]; [destruct N; rewrite E; by apply list_elem_of_fmap_2|]. repeat case_bool; lia.
Qed.
Lemma lt_nodup (l : list node) : StronglySorted first_lt l -> NoDup (n_first <$> l).
Proof.
  induction 1 as [|a l S IH F]; [constructor|]. simpl. apply NoDup_cons. split; [|done]. rewrite list_elem_of_fmap. intros (b & E & Hb).
  rewrite Forall_forall in F. specialize (F b Hb). unfold first_lt in F. lia.
Qed.
Lemma add_child_wf (n c : node) : wf n -> wf c -> lit_child c -> (forall d, d ∈ n_children n -> n_first d <> n_first c) -> wf (r_add_child n c).
Proof.
  intros [[L S P D] Wc Wp] W Lc N. constructor.
  - split; [|destruct n; simpl in *|by destruct n..].
    + rewrite Forall_forall in *. intros d [Hd| ->]%add_child_elem; auto.
    + apply le_strict; [apply (StronglySorted_merge_sort node_le)|]. rewrite (merge_sort_Permutation node_le), fmap_app, NoDup_app. split; [by apply lt_nodup|].
      split; [|apply NoDup_singleton]. intros x (d & -> & Hd)%list_elem_of_fmap ?. apply (N d Hd). set_solver.
  - intros d [Hd| ->]%add_child_elem; auto.
  - by destruct n.
Qed.
Lemma add_child_spells (n c : node) q v : spells (r_add_child n c) q v <-> spells n q v \/ spells_at c q v.
Proof.
  rewrite !(spells_cases _ q v). setoid_rewrite add_child_elem. replace (n_value (r_add_child n c)) with (n_value n) by by destruct n.
  replace (n_pchildren (r_add_child n c)) with (n_pchildren n) by by destruct n. split; [intros [?|[(d & [Hd| ->] & H)|?]]|intros [[?|[(d & Hd & H)|?]]|?]]; eauto 8.
Qed.

Lemma replace_child_elem (n d : node) (l : list node) i c : l !! i = Some c -> d ∈ <[i := n]> l -> d = n \/ d ∈ l.
Proof. intros Hi [j Hj]%list_elem_of_lookup. apply list_lookup_insert_Some in Hj as [(? & ? & ?)|[? Hj]]; [by left|right; by eapply list_elem_of_lookup_2]. Qed.
Lemma replace_first (c' c : node) (l : list node) i : l !! i = Some c -> n_first c' = n_first c -> StronglySorted first_lt l -> StronglySorted first_lt (<[i := c']> l).
Proof.
  intros Hi E S. revert i Hi. induction S as [|a l S IH F]; intros i Hi; [done|]. destruct i as [|i]; simplify_eq/=; constructor; [done| |by apply IH|].
  - rewrite Forall_forall in *. intros d Hd. specialize (F d Hd). unfold first_lt in *. lia.
  - rewrite Forall_forall in *. intros d Hd. destruct (replace_child_elem _ _ _ _ _ Hi Hd) as [->|]; [|auto]. unfold first_lt in *. rewrite E. apply F. by eapply list_elem_of_lookup_2.
Qed.
Lemma replace_child_wf (n c c' : node) i : wf n -> n_children n !! i = Some c -> wf c' -> lit_child c' -> n_first c' = n_first c -> wf (set_children n (<[i := c']> (n_children n))).
Proof.
  intros [[L S P D] Wc Wp] Hi W Lc E. constructor.
  - split; [|destruct n; by eapply replace_first|by destruct n..].
    destruct n; simpl in *. rewrite Forall_forall in *. intros d [->|Hd]%(replace_child_elem _ _ _ _ _ Hi); auto.
  - destruct n; simpl in *. intros d [->|Hd]%(replace_child_elem _ _ _ _ _ Hi); auto.
  - by destruct n.
Qed.
Lemma replace_child_spells (n c c' : node) i q v : n_children n !! i = Some c -> (forall v, spells_at c q v -> spells_at c' q v) ->
  spells (set_children n (<[i := c']> (n_children n))) q v <-> spells n q v \/ spells_at c' q v.
Proof.
  intros Hi M. rewrite !(spells_cases _ q v). destruct n as [k p w cs ps]; simpl in *. split.
  - intros [?|[(d & [->|Hd]%(replace_child_elem _ _ _ _ _ Hi) & H)|?]]; eauto 8.
  - assert (Hin : c' ∈ <[i := c']> cs) by (eapply (list_elem_of_lookup_2 _ i), list_lookup_insert_eq; by eapply lookup_lt_Some).
    intros [[?|[(d & [j Hj]%list_elem_of_lookup & H)|?]]|?]; eauto 8. right; left. destruct (decide (i = j)) as [->|Ne].
    + simplify_eq. exists c'. eauto.
    + exists d. split; [|done]. eapply (list_elem_of_lookup_2 _ j). by rewrite list_lookup_insert_ne.
Qed.

Lemma add_pchild_wf (n c : node) p : wf n -> wf c -> n_key c = None -> n_parser c = Some p -> made pcre_compile value_handle allowed p -> (forall d, d ∈ n_pchildren n -> n_parser d <> Some p) -> wf (r_add_pchild n c).
Proof.
  intros [[L S P D] Wc Wp] W Kc Pc M N. destruct n as [k p' v cs ps]; simpl in *. constructor; [split|..]; simpl.
  - done.
  - done.
  - apply Forall_app. split; [done|]. constructor; [|done]. split; [done|by exists p].
  - rewrite fmap_app, NoDup_app. split; [done|]. split; [|apply NoDup_singleton]. intros x (d & -> & Hd)%list_elem_of_fmap Hx. simpl in Hx. apply list_elem_of_singleton in Hx. apply (N d Hd). congruence.
  - done.
  - intros d [Hd|Hd%list_elem_of_singleton]%elem_of_app; [auto|by subst].
Qed.
Lemma add_pchild_spells (n c : node) p q v : n_parser c = Some p -> spells (r_add_pchild n c) q v <-> spells n q v \/ exists q', q = [Prs p] ++ q' /\ spells c q' v.
Proof.
  intros Hp. rewrite !(spells_cases _ q v). destruct n as [k p' w cs ps]; simpl. split.
  - intros [?|[?|(d & p1 & q' & [Hd|Hd%list_elem_of_singleton]%elem_of_app & H1 & H2 & H3)]]; [by eauto|by eauto|left; right; right; eauto 8|]. subst d. simplify_eq. right. by exists q'.
  - intros [[?|[?|(d & p1 & q' & Hd & H1 & H2 & H3)]]|(q' & -> & H)]; [by eauto|by eauto|right; right; exists d, p1, q'; set_solver|]. right; right. exists c, p, q'. set_solver.
Qed.
Lemma replace_pchild_wf (n c c' : node) i : wf n -> n_pchildren n !! i = Some c -> wf c' -> n_key c' = n_key c -> n_parser c' = n_parser c -> wf (set_pchildren n (<[i := c']> (n_pchildren n))).
Proof.
  intros [[L S P D] Wc Wp] Hi W Ek Ep. destruct n as [k p' v cs ps]; simpl in *. constructor; [split|..]; simpl.
  - done.
  - done.
  - rewrite Forall_forall in *. intros d [->|Hd]%(replace_child_elem _ _ _ _ _ Hi); [|auto]. unfold parser_child. rewrite Ek, Ep. apply P. by eapply list_elem_of_lookup_2.
  - replace (n_parser <$> <[i:=c']> ps) with (n_parser <$> ps); [done|]. rewrite list_fmap_insert, Ep. symmetry. apply list_insert_id. by rewrite list_lookup_fmap, Hi.
  - done.
  - intros d [->|Hd]%(replace_child_elem _ _ _ _ _ Hi); auto.
Qed.
Lemma replace_pchild_spells (n c c' : node) p i q v : n_pchildren n !! i = Some c -> n_parser c = Some p -> n_parser c' = Some p -> (forall q v, spells c q v -> spells c' q v) ->
  spells (set_pchildren n (<[i := c']> (n_pchildren n))) q v <-> spells n q v \/ exists q', q = [Prs p] ++ q' /\ spells c' q' v.
Proof.
  intros Hi Hp Hp' M. rewrite !(spells_cases _ q v). destruct n as [k p0 w cs ps]; simpl in *. split.
  - intros [?|[?|(d & p1 & q' & [->|Hd]%(replace_child_elem _ _ _ _ _ Hi) & H1 & H2 & H3)]]; [by eauto|by eauto| |left; right; right; eauto 8]. simplify_eq. right. by exists q'.
  - assert (Hin : c' ∈ <[i := c']> ps) by (eapply (list_elem_of_lookup_2 _ i), list_lookup_insert_eq; by eapply lookup_lt_Some).
    intros [[?|[?|(d & p1 & q' & [j Hj]%list_elem_of_lookup & H1 & H2 & H3)]]|(q' & -> & H)]; [by eauto|by eauto| |right; right; by exists c', p, q'].
    right; right. destruct (decide (i = j)) as [->|Ne]; [simplify_eq; exists c'; eauto 8|]. exists d, p1, q'. split; [|done]. eapply (list_elem_of_lookup_2 _ j). by rewrite list_lookup_insert_ne.
Qed.

(** ** Searching a child *)

Lemma s8_ascii (c : Z) : 0 <= c < 128 -> s8 c = c.
Proof. intros H. unfold s8. by rewrite bool_decide_eq_true_2 by lia. Qed.

Lemma child_search_ok (fuel : nat) (l : list node) (k : Z) (lo hi : nat) : StronglySorted first_lt l -> (hi <= length l)%nat -> (hi - lo < fuel)%nat ->
  (forall i c, l !! i = Some c -> (i < lo)%nat -> n_first c < k) -> (forall i c, l !! i = Some c -> (hi <= i)%nat -> n_first c > k) ->
  match child_search fuel l k lo hi with Some i => exists c, l !! i = Some c /\ n_first c = k | None => forall c, c ∈ l -> n_first c <> k end.
Proof.
  intros S. revert lo hi. induction fuel as [|fuel IH]; intros lo hi Hh Hf A B; [lia|]. cbn [child_search]. destruct (bool_decide_reflect (lo < hi)%nat) as [L|L].
  2:{ intros c [i Hi]%list_elem_of_lookup. destruct (decide (i < lo)%nat) as [C|C]; [pose proof (A i c Hi C); lia|pose proof (B i c Hi ltac:(lia)); lia]. }
  set (m := ((lo + hi) / 2)%nat). assert (Hm : (lo <= m < hi)%nat) by (split; [apply Nat.div_le_lower_bound; lia|apply Nat.Div0.div_lt_upper_bound; lia]).
  destruct (lookup_lt_is_Some_2 l m ltac:(lia)) as [c Hc]. rewrite Hc. destruct (bool_decide_reflect (n_first c > k)) as [G|G]; [|destruct (bool_decide_reflect (n_first c < k)) as [G2|G2]; [|exists c; split; [done|lia]]].
  - apply IH; [lia|lia|done|]. intros i d Hi Hl. destruct (decide (i = m)) as [->|]; [simplify_eq; lia|]. pose proof (sorted_lookup _ _ _ _ _ S Hc Hi ltac:(lia)). lia.
  - apply IH; [lia|lia| |done]. intros i d Hi Hl. destruct (decide (i = m)) as [->|]; [simplify_eq; lia|]. pose proof (sorted_lookup _ _ _ _ _ S Hi Hc ltac:(lia)). lia.
Qed.
Lemma find_child_ok (n : node) (x : Z) : wf n -> 0 <= x < 128 ->
  match r_find_child_by_first_character n x with Some i => exists c, n_children n !! i = Some c /\ n_first c = x | None => forall c, c ∈ n_children n -> n_first c <> x end.
Proof.
  intros [[_ S _ _] _ _] Hx. unfold r_find_child_by_first_character. rewrite s8_ascii by done. apply child_search_ok; [done|lia|lia|lia|].
  intros i c Hi Hl. apply lookup_lt_Some in Hi. lia.
Qed.
Lemma find_pchild_ok (l : list node) (p : RParserNode R) : Forall (parser_child pcre_compile value_handle allowed) l -> made pcre_compile value_handle allowed p ->
  match r_find_pchild l p with Some i => exists c, l !! i = Some c /\ n_parser c = Some p | None => forall c, c ∈ l -> n_parser c <> Some p end.
Proof.
  intros F M. induction F as [|c l (K & q & Eq & Mq) F IH]; [simpl; set_solver|]. simpl. rewrite Eq. destruct (r_equal_pnode q p) eqn:E.
  - apply (equal_pnode_eq pcre_compile value_handle allowed) in E; [|done..]. subst. by exists c.
  - assert (q <> p) by (intros ->; rewrite (proj2 (equal_pnode_eq pcre_compile value_handle allowed p p M M) eq_refl) in E; done).
    destruct (r_find_pchild l p); simpl; [done|]. intros d [->|Hd]%elem_of_cons; [congruence|auto].
Qed.

(** ** The effect of an insertion *)

(** [S'] is [S] and the pattern of [key], which is new; [e] tells. *)
Definition adds (S S' : list tok -> V -> Prop) (key : bytes) (v : V) (e : option rerr) : Prop :=
  (forall q w, S' q w <-> S q w \/ tokens key q /\ w = v /\ (forall w', ~ S q w')) /\
  match e with None => exists q, tokens key q /\ forall w', ~ S q w' | Some _ => forall q, tokens key q -> exists w, S q w end.

Lemma adds_lift (pre : list tok) (key rest : bytes) (S S' T T' : list tok -> V -> Prop) (v : V) (e : option rerr) :
  (forall q, tokens key q <-> exists q', q = pre ++ q' /\ tokens rest q') ->
  (forall q' w, T q' w -> S (pre ++ q') w) -> (forall q' w, tokens rest q' -> S (pre ++ q') w -> T q' w) ->
  (forall q w, S' q w <-> S q w \/ exists q', q = pre ++ q' /\ T' q' w) -> adds T T' rest v e -> adds S S' key v e.
Proof.
  intros K TS ST H' [A B]. split.
  - intros q w. rewrite H', K. split.
    + intros [?|(q' & -> & [?|(Hq & -> & N)]%A)]; [by left|left; by apply TS|]. right. split; [by exists q'|]. split; [done|]. intros w' Hw. by apply (N w'), ST.
    + intros [?|((q' & -> & Hq) & -> & N)]; [by left|]. right. exists q'. split; [done|]. apply A. right. split; [done|]. split; [done|]. intros w' Hw. by apply (N w'), TS.
  - destruct e as [e|].
    + intros q (q' & -> & Hq)%K. destruct (B q' Hq) as [w Hw]. exists w. by apply TS.
    + destruct B as (q' & Hq & N). exists (pre ++ q'). split; [apply K; by exists q'|]. intros w' Hw. by apply (N w'), ST.
Qed.
Lemma adds_sub (S S' : list tok -> V -> Prop) key v e q w : adds S S' key v e -> S q w -> S' q w.
Proof. intros [A _] H. apply A. by left. Qed.
Lemma adds_nothing (S : list tok -> V -> Prop) key v e : (forall q, ~ tokens key q) -> adds S S key v (Some e).
Proof. intros N. split; [intros q w; split; [by left|intros [?|(Hq & _)]; [done|by apply N in Hq]]|intros q Hq; by apply N in Hq]. Qed.
Lemma adds_here (S S' : list tok -> V -> Prop) v : (forall w, ~ S [] w) -> (forall q w, S' q w <-> S q w \/ q = [] /\ w = v) -> adds S S' [] v None.
Proof.
  intros N H. split; [intros q w; rewrite H, tokens_nil; split; [intros [?|[-> ->]]; auto|intros [?|(-> & -> & _)]; auto]|]. exists []. split; [by apply tokens_nil|done].
Qed.
Lemma adds_duplicate (S : list tok -> V -> Prop) v w : S [] w -> adds S S [] v (Some EDuplicate).
Proof.
  intros H. split; [intros q w'; split; [by left|]|].
  - intros [?|(Hq%tokens_nil & _ & N)]; [done|]. subst. by apply N in H.
  - intros q ->%tokens_nil. by exists w.
Qed.

Section one.
Variable v : V.
Variable ins : node -> bytes -> outcome (node * option rerr).

(** The insertion goes below the node. *)
Definition below_ok (r : outcome (node * option rerr)) (n : node) (key : bytes) : Prop :=
  exists n' e, r = Ret (n', e) /\ wf n' /\ n_key n' = n_key n /\ n_parser n' = n_parser n /\ adds (spells n) (spells n') key v e.
(** The insertion starts with the bytes of the node. *)
Definition at_ok (r : outcome (node * option rerr)) (n : node) (key : bytes) : Prop :=
  exists n' e, r = Ret (n', e) /\ wf n' /\ lit_child n' /\ n_first n' = n_first n /\ adds (spells_at n) (spells_at n') key v e.

Lemma set_value_wf (n : node) w : wf n -> wf (set_value n w).
Proof. intros [[? ? ? ?] ? ?]. destruct n. by constructor. Qed.
Lemma set_value_spells (n : node) q w : n_value n = None -> spells (set_value n (Some v)) q w <-> spells n q w \/ q = [] /\ w = v.
Proof.
  intros E. rewrite !(spells_cases _ q w), E. destruct n; simpl. split; [intros [[-> [= <-]]|?]; auto|intros [[[_ ?]|?]|[-> ->]]; auto; done].
Qed.
Lemma value_ok (n : node) : wf n ->
  below_ok (match n_value n with None => Ret (set_value n (Some v), None) | Some _ => Ret (n, Some EDuplicate) end) n [].
Proof.
  intros W. destruct (n_value n) as [w|] eqn:E.
  - exists n, (Some EDuplicate). split_and!; [done..|]. apply (adds_duplicate _ _ w). by apply (spells_nil pcre_compile value_handle allowed).
  - exists (set_value n (Some v)), None. split_and!; [done|by apply set_value_wf|by destruct n..|]. apply adds_here; [|intros; by apply set_value_spells].
    intros w. rewrite (spells_nil pcre_compile value_handle allowed) by done. by rewrite E.
Qed.
Lemma insert_below_ok (n : node) (rest : bytes) : wf n -> (rest <> [] -> below_ok (ins n rest) n rest) -> below_ok (insert_below ins n rest v) n rest.
Proof. intros W H. destruct rest as [|c rest]; [by apply value_ok|by apply H]. Qed.

(** Results below a child, seen from the parent. *)
Lemma spells_at_lits (c : node) q w : spells_at c (lits (n_bytes c) ++ q) w <-> spells c q w.
Proof. split; [intros (q' & E & H); by simplify_eq|intros H; by exists q]. Qed.
Lemma new_child_ok (n c : node) (k key rest : bytes) r : wf n -> n_key c = Some k -> key_ok k -> n_value c = None -> n_children c = [] -> n_pchildren c = [] ->
  (forall d, d ∈ n_children n -> n_first d <> deref k) -> (forall q, tokens key q <-> exists q', q = lits k ++ q' /\ tokens rest q') ->
  below_ok r c rest -> below_ok (let! (c', e) := r in Ret (r_add_child n c', e)) n key.
Proof.
  intros W K Ok E1 E2 E3 N T (c' & e & -> & Wc & Kc & _ & A). cbn [obind]. assert (B : n_bytes c' = k) by (unfold n_bytes; by rewrite Kc, K).
  assert (F : n_first c' = deref k) by (unfold n_first; by rewrite B). destruct (key_ok_first _ Ok) as (x & k' & -> & _).
  exists (r_add_child n c'), e. split_and!; [done| |by destruct n..|].
  - apply add_child_wf; [done..|exists (x :: k'); split; [congruence|done]|]. intros d Hd. rewrite F. by apply N.
  - eapply (adds_lift (lits (x :: k')) _ rest _ _ (spells c)); [done|..|done].
    + intros q w H. apply spells_cases in H as [[_ H]|[(d & H & _)|(d & p & q' & H & _)]]; [congruence|rewrite E2 in H; set_solver|rewrite E3 in H; set_solver].
    + intros q w _ H. exfalso. simpl in H. by eapply (spells_no_child pcre_compile value_handle allowed) in H.
    + intros q w. rewrite add_child_spells. unfold spells_at. by rewrite B.
Qed.
Lemma old_child_ok (n c : node) (i : nat) (key rest : bytes) r : wf n -> n_children n !! i = Some c ->
  (forall q, tokens key q <-> exists q', q = lits (n_bytes c) ++ q' /\ tokens rest q') ->
  below_ok r c rest -> below_ok (let! (c', e) := r in Ret (set_children n (<[i := c']> (n_children n)), e)) n key.
Proof.
  intros W Hi T (c' & e & -> & Wc & Kc & _ & A). cbn [obind]. pose proof (list_elem_of_lookup_2 _ _ _ Hi) as Hc. destruct (wf_child _ _ _ _ _ W Hc) as [_ L].
  assert (B : n_bytes c' = n_bytes c) by (unfold n_bytes; by rewrite Kc). destruct (lit_child_first _ L) as [k Ek].
  exists (set_children n (<[i := c']> (n_children n))), e. split_and!; [done| |by destruct n..|].
  - eapply replace_child_wf; [done..| |unfold n_first; by rewrite B]. destruct L as (k0 & ? & ?). exists k0. split; [congruence|done].
  - eapply (adds_lift (lits (n_bytes c)) _ rest _ _ (spells c)); [done|..|done].
    + intros q w H. apply spells_cases. right; left. exists c. split; [done|by exists q].
    + intros q w _ H. apply spells_at_lits. revert H. rewrite Ek. simpl. by rewrite (spells_child pcre_compile value_handle allowed n c).
    + intros q w. rewrite (replace_child_spells n c c' i); [|done|unfold spells_at; rewrite B; intros w' (q' & -> & H); eexists; split; [done|by eapply adds_sub]].
      unfold spells_at. by rewrite B.
Qed.
Lemma new_pchild_ok (n : node) p (key rest : bytes) r : wf n -> made pcre_compile value_handle allowed p -> (forall d, d ∈ n_pchildren n -> n_parser d <> Some p) ->
  (forall q, tokens key q <-> exists q', q = [Prs p] ++ q' /\ tokens rest q') -> below_ok r (mkNode None (Some p) None [] []) rest ->
  below_ok (let! (c', e) := r in Ret (r_add_pchild n c', e)) n key.
Proof.
  intros W M N T (c' & e & -> & Wc & Kc & Pc & A). cbn [obind]. exists (r_add_pchild n c'), e. split_and!; [done| |by destruct n..|].
  - by eapply add_pchild_wf.
  - eapply (adds_lift [Prs p] _ rest _ _ (spells (mkNode None (Some p) None [] []))); [done|..|done].
    + intros q w H. apply spells_cases in H as [[_ H]|[(d & H & _)|(d & p' & q' & H & _)]]; [done|simpl in H; set_solver..].
    + intros q w _ H. exfalso. simpl in H. by eapply (spells_no_pchild pcre_compile value_handle allowed) in H.
    + intros q w. by rewrite (add_pchild_spells n c' p).
Qed.
Lemma old_pchild_ok (n c : node) (i : nat) p (key rest : bytes) r : wf n -> n_pchildren n !! i = Some c -> n_parser c = Some p ->
  (forall q, tokens key q <-> exists q', q = [Prs p] ++ q' /\ tokens rest q') -> below_ok r c rest ->
  below_ok (let! (c', e) := r in Ret (set_pchildren n (<[i := c']> (n_pchildren n)), e)) n key.
Proof.
  intros W Hi Pp T (c' & e & -> & Wc & Kc & Pc & A). cbn [obind]. pose proof (list_elem_of_lookup_2 _ _ _ Hi) as Hc.
  exists (set_pchildren n (<[i := c']> (n_pchildren n))), e. split_and!; [done| |by destruct n..|].
  - by eapply replace_pchild_wf.
  - eapply (adds_lift [Prs p] _ rest _ _ (spells c)); [done|..|done].
    + intros q w H. by apply (spells_pchild pcre_compile value_handle allowed n c).
    + intros q w _ H. by apply (spells_pchild pcre_compile value_handle allowed n c p) in H.
    + intros q w. rewrite (replace_pchild_spells n c c' p i); [done|done|done|congruence|intros; by eapply adds_sub].
Qed.

Lemma add_child_check_ok (n : node) (key : bytes) : wf n -> text_ok key -> key <> [] ->
  (deref key <> 64 -> forall d, d ∈ n_children n -> n_first d <> deref key) -> (deref key = 64 -> below_ok (ins n key) n key) ->
  (forall lit rest, key = lit ++ 64 :: rest -> lit <> [] -> below_ok (ins (r_new_node (Some lit) None) (64 :: rest)) (r_new_node (Some lit) None) (64 :: rest)) ->
  below_ok (r_add_child_check ins n key v) n key.
Proof.
  intros W A Ne N H64 Hlit. unfold r_add_child_check. destruct (split_at 64 key) as [[lit rest]|] eqn:E.
  - apply split_at_some in E as [-> Nl]. destruct lit as [|c lit]; [rewrite bool_decide_eq_false_2 by (simpl; lia); by apply H64|]. rewrite bool_decide_eq_true_2 by (simpl; lia).
    destruct A as [[Al _]%Forall_app _]. simpl in N. assert (c <> 64) by set_solver.
    apply (new_child_ok _ (r_new_node (Some (c :: lit)) None) (c :: lit) _ (64 :: rest)); [done|done|by split_and!; [|right|]|done..|simpl; auto|intros q; by apply (tokens_lits _ _ (c :: lit))|]. by apply Hlit.
  - destruct A as [A _]. apply split_at_none in E. destruct key as [|c key]; [done|]. assert (c <> 64) by set_solver. simpl in N.
    apply (new_child_ok n (r_new_node (Some (c :: key)) None) (c :: key) (c :: key) [] (Ret (set_value (r_new_node (Some (c :: key)) None) (Some v), None))); [done|done|by split_and!; [|right|]|done..|simpl; auto| |].
    + intros q. rewrite <- (tokens_lits _ _ (c :: key)) by done. by rewrite app_nil_r.
    + apply (value_ok (r_new_node (Some (c :: key)) None)), wf_leaf.
Qed.

(** The search for a child and what follows. *)
Definition go_down (n : node) (key : bytes) : outcome (node * option rerr) :=
  match r_find_child_by_first_character n (deref key) with
  | Some idx =>
      if bool_decide (deref key = 64) then ins n key
      else
        match n_children n !! idx with
        | None => Abort
        | Some child => let! (child, e) := ins child key in Ret (set_children n (<[idx := child]> (n_children n)), e)
        end
  | None => r_add_child_check ins n key v
  end.
Lemma deref_ascii (key : bytes) : ascii key -> key <> [] -> 1 <= deref key < 128.
Proof. intros A H. destruct key; [done|]. by apply Forall_cons in A as [? _]. Qed.
Lemma tokens_first (key : bytes) q : key <> [] -> deref key <> 64 -> tokens key q -> exists q', q = Lit (deref key) :: q'.
Proof. intros Ne N H. destruct key as [|c key]; [done|]. apply tokens_lit in H as (q' & -> & _); [by exists q'|done]. Qed.

Lemma go_down_ok (n : node) (key : bytes) : wf n -> text_ok key -> key <> [] -> (deref key = 64 -> below_ok (ins n key) n key) ->
  (forall lit rest, key = lit ++ 64 :: rest -> lit <> [] -> below_ok (ins (r_new_node (Some lit) None) (64 :: rest)) (r_new_node (Some lit) None) (64 :: rest)) ->
  (forall c, c ∈ n_children n -> deref key <> 64 -> n_first c = deref key -> at_ok (ins c key) c key) -> below_ok (go_down n key) n key.
Proof.
  intros W A Ne H64 Hlit Hc. unfold go_down. pose proof (deref_ascii _ (proj1 A) Ne) as Hd. pose proof (find_child_ok n (deref key) W ltac:(lia)) as F.
  destruct (r_find_child_by_first_character n (deref key)) as [i|]; [|by apply add_child_check_ok]. destruct F as (c & Hi & F).
  destruct (bool_decide_reflect (deref key = 64)) as [E|E]; [by apply H64|]. rewrite Hi. pose proof (list_elem_of_lookup_2 _ _ _ Hi) as He.
  destruct (Hc c He E F) as (c' & e & -> & Wc & Lc & Fc & AA). cbn [obind]. exists (set_children n (<[i := c']> (n_children n))), e. split_and!; [done| |by destruct n..|].
  - by eapply replace_child_wf.
  - eapply (adds_lift [] _ key _ _ (spells_at c)); [..|done].
    + intros q. split; [by exists q|by intros (? & -> & ?)].
    + intros q w H. apply spells_cases. right; left. by exists c.
    + intros q w T H. destruct (tokens_first _ _ Ne E T) as [q' ->]. simpl in H. by apply (spells_child pcre_compile value_handle allowed n c).
    + intros q w. rewrite (replace_child_spells n c c' i); [|done|intros; by eapply adds_sub]. split; [intros [?|?]; [auto|right; by exists q]|intros [?|(? & -> & ?)]; auto].
Qed.
End one.

Lemma common_prefix_ok (key k : bytes) : let n := common_prefix key k in
  (n <= length key)%nat /\ (n <= length k)%nat /\ take n key = take n k /\ 64 ∉ take n key /\
  (forall a b, key !! n = Some a -> k !! n = Some b -> a = b -> a = 64).
Proof.
  revert k. induction key as [|a key IH]; intros k; simpl; [split_and!; [lia|lia|done|set_solver|done]|].
  destruct k as [|b k]; simpl; [split_and!; [lia|lia|done|set_solver|done]|]. case_bool.
  - simpl. split_and!; [lia|lia|done|set_solver|]. intros ? ? ? ? ?. simplify_eq. by destruct Hb.
  - simpl. destruct (IH k) as (L1 & L2 & E & N & D). split_and!; [lia|lia|rewrite E; f_equal; lia|apply not_elem_of_cons; split; [lia|done]|done].
Qed.
Lemma at_first (c : node) (key : bytes) : lit_child c -> deref key = n_first c -> key <> [] -> n_first c <> 64 -> (1 <= common_prefix key (n_bytes c))%nat.
Proof.
  intros (k & E)%lit_child_first D Ne N. rewrite E. destruct key as [|a key]; [done|]. simpl in D. simpl. rewrite bool_decide_eq_false_2 by lia. lia.
Qed.
Lemma deref_drop (s : bytes) n a : s !! n = Some a -> deref (drop n s) = a.
Proof. intros H. by rewrite (drop_S _ _ _ H). Qed.
Lemma deref_lookup (s : bytes) n : (n < length s)%nat -> s !! n = Some (deref (drop n s)).
Proof. intros H. destruct (lookup_lt_is_Some_2 _ _ H) as [a Ha]. by rewrite (deref_drop _ _ _ Ha). Qed.

(** The steps that bring the node to the new key. *)
Lemma at_from_below v (n : node) (key : bytes) r : lit_child n -> 64 ∉ n_bytes n -> take (length (n_bytes n)) key = n_bytes n ->
  below_ok v r n (drop (length (n_bytes n)) key) -> at_ok v r n key.
Proof.
  intros L N E (n' & e & -> & W & K & _ & A). assert (B : n_bytes n' = n_bytes n) by (unfold n_bytes; by rewrite K).
  exists n', e. split_and!; [done..| |unfold n_first; by rewrite B|].
  - destruct L as (k & ? & ?). exists k. split; [congruence|done].
  - eapply (adds_lift (lits (n_bytes n)) _ (drop (length (n_bytes n)) key) _ _ (spells n)); [..|done].
    + intros q. rewrite <- (tokens_lits _ _ (n_bytes n)) by done. by rewrite <- E at 1; rewrite take_drop.
    + intros q w H. by exists q.
    + intros q w _ H. by apply spells_at_lits.
    + intros q w. unfold spells_at. rewrite B. split; [by right|]. intros [(q' & -> & H)|?]; [|done]. exists q'. split; [done|by eapply adds_sub].
Qed.

(** The node cut in two spells what it did. *)
Lemma split_node_ok (n : node) (i : nat) : wf n -> lit_child n -> 64 ∉ n_bytes n -> (0 < i < length (n_bytes n))%nat ->
  exists c, wf (split_node n i) /\ n_key (split_node n i) = Some (take i (n_bytes n)) /\ n_value (split_node n i) = None /\ n_children (split_node n i) = [c] /\
    n_first c = deref (drop i (n_bytes n)) /\ (forall q w, spells_at (split_node n i) q w <-> spells_at n q w).
Proof.
  intros W L N Hi. destruct (lit_child_bytes _ L) as (_ & _ & As). destruct n as [k p v cs ps]. unfold n_bytes in *. simpl in *. set (k0 := default [] k) in *.
  set (c := mkNode (Some (drop i k0)) None v cs ps). exists c.
  assert (Lc : lit_child c) by (exists (drop i k0); split; [done|]; split_and!; [intros E%(f_equal length); rewrite length_drop in E; simpl in E; lia|right; intros H; apply N; rewrite <- (take_drop i k0); apply elem_of_app; by right|by apply Forall_drop]).
  assert (Wc : wf c) by (destruct W as [[? ? ? ?] ? ?]; by constructor).
  split_and!; [|done|done|done|done|].
  - change (wf (r_add_child (mkNode (Some (take i k0)) p None [] []) c)). apply add_child_wf; [apply wf_leaf|done..|]. simpl. set_solver.
  - intros q w. change (spells_at (r_add_child (mkNode (Some (take i k0)) p None [] []) c) q w <-> spells_at (mkNode k p v cs ps) q w).
    unfold spells_at at 1. setoid_rewrite add_child_spells. change (n_bytes (r_add_child (mkNode (Some (take i k0)) p None [] []) c)) with (take i k0).
    assert (Eq : forall q, spells c q w <-> spells (mkNode k p v cs ps) q w) by (intros q0; by rewrite !(spells_cases _ q0)).
    assert (Zo : forall q, ~ spells (mkNode (Some (take i k0)) p None [] []) q w) by (intros q0 [[_ ?]|[(d & H & _)|(d & p' & q' & H & _)]]%spells_cases; [done|simpl in H; set_solver..]).
    assert (Ta : forall q0 : list (@tok R), lits (take i k0) ++ lits (drop i k0) ++ q0 = lits k0 ++ q0) by (intros q0; unfold lits; rewrite app_assoc, <- fmap_app, take_drop; done).
    unfold spells_at. simpl. split.
    + intros (q' & -> & [H|(q2 & -> & H)]); [by apply Zo in H|]. exists q2. split; [apply Ta|by apply Eq].
    + intros (q' & -> & H). exists (lits (drop i k0) ++ q'). split; [by rewrite Ta|]. right. exists q'. split; [done|by apply Eq].
Qed.

(** ** The loop *)

Section loop.
Variable v : V.
Variable fuel : nat.
Abbreviation ins := (fun n k => insert_loop fuel n k v).
Hypothesis IHb : forall n key, wf n -> text_ok key -> key <> [] -> deref key = 64 \/ n_bytes n = [] \/ n_bytes n = [64] ->
  (2 * length key + 2 <= fuel)%nat -> below_ok v (insert_loop fuel n key v) n key.
Hypothesis IHa : forall n key, wf n -> text_ok key -> key <> [] -> lit_child n -> 64 ∉ n_bytes n -> deref key = n_first n ->
  (2 * length key + 1 <= fuel)%nat -> at_ok v (insert_loop fuel n key v) n key.

Lemma rest_ok (n : node) (rest : bytes) : wf n -> text_ok rest -> n_bytes n = [] \/ n_bytes n = [64] -> (2 * length rest + 2 <= fuel)%nat -> below_ok v (insert_below ins n rest v) n rest.
Proof. intros W A K F. apply insert_below_ok; [done|]. intros Ne. apply IHb; auto. Qed.

Lemma escape_ok (n : node) (key : bytes) : wf n -> text_ok key -> deref key = 64 -> (2 * length key + 2 <= S fuel)%nat -> below_ok v (insert_loop (S fuel) n key v) n key.
Proof.
  intros W A E F. cbn [Radix.insert_loop]. rewrite bool_decide_eq_true_2 by done. destruct key as [|c tail]; [done|]. simpl in E. subst c. cbn [drop]. change (drop 0 tail) with tail.
  pose proof (text_tail _ _ _ A) as At. case_bool.
  - destruct tail as [|c rest]; [by destruct Hb|]. destruct Hb as [_ E]. simpl in E. subst c. change (drop 2 (64 :: 64 :: rest)) with rest. simpl in F.
    apply text_tail in At as Ar. pose proof (find_child_ok n 64 W ltac:(lia)) as Fc. destruct (r_find_child_by_first_character n 64) as [i|].
    + destruct Fc as (c & Hi & Fc). rewrite Hi. destruct (wf_child _ _ _ _ _ W (list_elem_of_lookup_2 _ _ _ Hi)) as [Wc Lc].
      assert (B : n_bytes c = [64]) by (destruct (lit_child_first _ Lc) as [k Ek]; rewrite Fc in Ek; destruct (lit_child_bytes _ Lc) as (_ & [?|N] & _); [done|rewrite Ek in N; set_solver]).
      eapply (old_child_ok v n c i _ rest); [done..|rewrite B; intros q; apply tokens_escape|]. apply rest_ok; [done|done|by right|lia].
    + eapply (new_child_ok v n (r_new_node (Some [64]) None) [64] _ rest); [done|done| |done..|intros q; apply tokens_escape|].
      * split_and!; [done|by left|repeat constructor; lia].
      * apply rest_ok; [apply wf_leaf|done|by right|lia].
  - destruct (split_at 64 tail) as [[spec rest]|] eqn:E; [|exists n, (Some EUnescaped); split_and!; [done..|]; apply adds_nothing; intros q; by apply tokens_unescaped].
    assert (Ns : spec <> []). { apply split_at_some in E as [-> _]. intros ->. apply Hb. simpl. split; [|done]. rewrite !lenZ_cons. pose proof (lenZ_nonneg rest). lia. }
    pose proof (tokens_parser pcre_compile value_handle tail spec rest) as T. pose proof (split_at_some _ _ _ _ E) as [Et Nn].
    destruct (proj2 A [] spec rest ltac:(by rewrite Et) Ns Nn) as [Al Np]. destruct (new_pnode_total pcre_compile value_handle _ Ns Np) as [r Hr]. rewrite Hr. cbn [obind].
    destruct r as [p|].
    2:{ exists n, (Some EParser). split_and!; [done..|]. apply adds_nothing. intros q (p & q' & ? & _)%(T _ E Ns). congruence. }
    assert (Tk : forall q, tokens (64 :: tail) q <-> exists q', q = [Prs p] ++ q' /\ tokens rest q').
    { intros q. rewrite (T q E Ns). split; [intros (p' & q' & ? & -> & ?); assert (p' = p) as -> by congruence; by exists q'|intros (q' & -> & ?); by exists p, q']. }
    clear Nn. apply split_at_some in E as [-> Nn]. assert (M : made pcre_compile value_handle allowed p) by (by exists spec). rewrite length_cons, length_app, length_cons in F.
    apply text_suffix, text_tail in At as Ar. pose proof W as [[_ _ Pc _] _ _]. pose proof (find_pchild_ok _ _ Pc M) as Fp. destruct (r_find_pchild (n_pchildren n) p) as [i|].
    + destruct Fp as (c & Hi & Fc). rewrite Hi. destruct (wf_pchild _ _ _ _ _ W (list_elem_of_lookup_2 _ _ _ Hi)) as [Wc [Kc _]].
      eapply old_pchild_ok; [done..|]. apply rest_ok; [done|done|left; unfold n_bytes; by rewrite Kc|lia].
    + eapply new_pchild_ok; [done..|]. apply rest_ok; [apply wf_leaf|done|by left|lia].
Qed.

Lemma down_ok (n : node) (key : bytes) : wf n -> text_ok key -> key <> [] -> (2 * length key + 1 <= fuel)%nat -> (deref key = 64 -> (2 * length key + 2 <= fuel)%nat) -> below_ok v (go_down v ins n key) n key.
Proof.
  intros W A Ne F F64. apply go_down_ok; [done..| | |].
  - intros E. apply IHb; auto.
  - intros lit rest -> Nl. apply text_suffix in A. destruct lit as [|x lit]; [done|]. rewrite length_app, length_cons in F. apply IHb; [apply wf_leaf|done|done|by left|simpl length in *; lia].
  - intros c Hc N E. destruct (wf_child _ _ _ _ _ W Hc) as [Wc Lc]. apply IHa; [done..| |done|done]. destruct (lit_child_bytes _ Lc) as (_ & [B|?] & _); [|done].
    unfold n_first in E. rewrite B in E. simpl in E. lia.
Qed.

Lemma below_step (n : node) (key : bytes) : wf n -> text_ok key -> key <> [] -> deref key = 64 \/ n_bytes n = [] \/ n_bytes n = [64] ->
  (2 * length key + 2 <= S fuel)%nat -> below_ok v (insert_loop (S fuel) n key v) n key.
Proof.
  intros W A Ne K F. destruct (decide (deref key = 64)) as [E|E]; [by apply escape_ok|]. destruct K as [|K]; [done|].
  cbn [Radix.insert_loop]. rewrite (bool_decide_eq_false_2 (deref key = 64)) by done.
  assert (C : common_prefix key (n_bytes n) = O). { destruct K as [-> | ->]; destruct key as [|a key]; try done. simpl in *. by rewrite bool_decide_eq_true_2 by lia. }
  rewrite C. change (drop 0 key) with key. rewrite bool_decide_eq_true_2 by lia. apply (down_ok n key); [done..|lia|done].
Qed.

Lemma at_ext (n n' : node) (key : bytes) r : (forall q w, spells_at n' q w <-> spells_at n q w) -> n_first n' = n_first n -> at_ok v r n' key -> at_ok v r n key.
Proof.
  intros E F (m & e & -> & W & L & Fm & A & B). exists m, e. split_and!; [done..|congruence|]. split.
  - intros q w. rewrite A, E. by setoid_rewrite E.
  - destruct e as [e|]; [intros q Hq; destruct (B q Hq) as [w Hw]; exists w; by apply E|destruct B as (q & Hq & N); exists q; split; [done|]; intros w' Hw; apply (N w'); by apply E].
Qed.

Lemma at_step (n : node) (key : bytes) : wf n -> text_ok key -> key <> [] -> lit_child n -> 64 ∉ n_bytes n -> deref key = n_first n ->
  (2 * length key + 1 <= S fuel)%nat -> at_ok v (insert_loop (S fuel) n key v) n key.
Proof.
  intros W A Ne L N D F. pose proof L as [k [Hk Ok]]. assert (Bk : n_bytes n = k) by (unfold n_bytes; by rewrite Hk). rewrite Bk in *.
  destruct (key_ok_first _ Ok) as (x & k' & Ek & Hx). assert (Fx : n_first n = x) by (unfold n_first; by rewrite Bk, Ek). assert (Nx : x <> 64) by (intros ->; apply N; rewrite Ek; apply elem_of_cons; by left).
  cbn [Radix.insert_loop]. rewrite (bool_decide_eq_false_2 (deref key = 64)) by congruence. rewrite Bk.
  pose proof (at_first n key L D Ne ltac:(congruence)) as P. rewrite Bk in P. destruct (common_prefix_ok key k) as (L1 & L2 & Et & Nt & Dif). set (i := common_prefix key k) in *.
  assert (Hl : n_keylen n = lenZ k) by (unfold n_keylen; by rewrite Hk). rewrite Hl. unfold lenZ.
  destruct (decide (i = length k)) as [Ei|Ei].
  - assert (Tk : take (length (n_bytes n)) key = n_bytes n) by (rewrite Bk, <- Ei, Et, Ei; apply firstn_all).
    apply at_from_below; [done|by rewrite Bk|done|]. rewrite Bk, <- Ei. destruct (decide (i = length key)) as [El|El].
    + rewrite bool_decide_eq_false_2 by lia. rewrite bool_decide_eq_true_2 by lia. rewrite El, drop_all. by apply value_ok.
    + rewrite bool_decide_eq_true_2 by lia. apply (down_ok n (drop i key)); [done|by apply text_drop| |rewrite length_drop; lia|rewrite length_drop; lia].
      intros E%(f_equal length). rewrite length_drop in E. simpl in E. lia.
  - rewrite bool_decide_eq_false_2 by lia. rewrite bool_decide_eq_false_2 by lia. rewrite bool_decide_eq_true_2 by lia.
    destruct (split_node_ok n i W L ltac:(by rewrite Bk) ltac:(rewrite Bk; lia)) as (c & Ws & Ks & Vs & Cs & Fc & Eq). rewrite Bk in Ks, Fc. set (m := split_node n i) in *.
    assert (Bm : n_bytes m = take i k) by (unfold n_bytes; by rewrite Ks). assert (Li : length (take i k) = i) by (rewrite length_take; lia).
    assert (Fm : n_first m = n_first n) by (unfold n_first; rewrite Bm, Bk, Ek; destruct i; [lia|done]).
    apply (at_ext n m); [done|done|]. apply at_from_below; [|by rewrite Bm, <- Et|by rewrite Bm, Li|rewrite Bm, Li].
    { exists (take i k). split; [done|]. destruct Ok as (_ & _ & Ak). split_and!; [rewrite Ek; destruct i; [lia|done]|right; by rewrite <- Et|by apply Forall_take]. }
    destruct (decide (i = length key)) as [El|El].
    + rewrite bool_decide_eq_false_2 by lia. rewrite El, drop_all. pose proof (value_ok v m Ws) as H. by rewrite Vs in H.
    + rewrite bool_decide_eq_true_2 by lia. assert (Nd : drop i key <> []) by (intros E%(f_equal length); rewrite length_drop in E; simpl in E; lia).
      apply add_child_check_ok; [done|by apply text_drop|done|..].
      * intros N64 d Hd. rewrite Cs in Hd. apply list_elem_of_singleton in Hd as ->. rewrite Fc. intros E. apply N64.
        eapply Dif; [apply deref_lookup; lia|apply deref_lookup; lia|done].
      * intros E. apply IHb; [done|by apply text_drop|done|by left|rewrite length_drop; lia].
      * intros lit rest E Nl. apply (f_equal length) in E as El'. rewrite length_app, length_drop, length_cons in El'. pose proof (text_drop _ i _ A) as Ad. rewrite E in Ad.
        apply text_suffix in Ad. apply IHb; [apply wf_leaf|done|done|by left|simpl length; lia].
Qed.
End loop.

Lemma insert_loop_ok (fuel : nat) (v : V) :
  (forall n key, wf n -> text_ok key -> key <> [] -> deref key = 64 \/ n_bytes n = [] \/ n_bytes n = [64] -> (2 * length key + 2 <= fuel)%nat -> below_ok v (insert_loop fuel n key v) n key) /\
  (forall n key, wf n -> text_ok key -> key <> [] -> lit_child n -> 64 ∉ n_bytes n -> deref key = n_first n -> (2 * length key + 1 <= fuel)%nat -> at_ok v (insert_loop fuel n key v) n key).
Proof. induction fuel as [|fuel [IHb IHa]]; [split; intros; lia|]. split; intros; [by apply below_step|by apply at_step]. Qed.
End insert.
