(* ===== verification/RadixFindSpec.v ===== *)
(** * The search finds a pattern that reads the key

    [reads] says that a pattern reads a part of the key and with which matches.
    The search goes through the patterns of the tree: it returns a node whose
    pattern reads the whole key when there is one, else one whose pattern reads
    a beginning of the key, and nothing when there is none.  The parsers of the tree
    must stay inside the key, which [RadixClaims] shows. *)
From S2P Require Import Prelude CString RadixParsers Radix RadixSpec RadixInsert.

Definition plain_text (s : bytes) : Prop := Forall (fun c => 0 < c < 256) s.

Section find_spec.
Context {R V : Type}.
Variable pcre_compile : bytes -> option R.
Variable pcre_exec : R -> bytes -> Z * (Z * Z).
Variable value_handle : bytes -> Z.
Variable allowed : bytes -> Prop.
Abbreviation node := (RNode R V).
Abbreviation wf := (@wf R V pcre_compile value_handle allowed).
Abbreviation made := (made pcre_compile value_handle allowed).

(** The parser returns, and takes no more than there is. *)
Definition parser_safe (p : RParserNode R) : Prop := forall hm prev rest junk, plain_text rest -> rest <> [] -> (2 <= length prev)%nat -> pn_first p <= deref rest <= pn_last p ->
  exists r, parse pcre_exec p hm prev (rest ++ 0 :: junk) = Ret r /\ forall m, r = Some m -> (m_take m <= length rest)%nat.
Hypothesis safe : forall p, made p -> parser_safe p.

Variables before key junk : bytes.
Variable hm : bool.
Hypothesis before_ok : (2 <= length before)%nat.
Hypothesis key_plain : plain_text key.
Abbreviation mem := (key ++ 0 :: junk).
Abbreviation try_parse := (_pnode_try_parse pcre_exec before mem).
Abbreviation find := (@_find_node_recursively R V pcre_exec before mem).

Definition capture (p : RParserNode R) (pos : nat) (m : RMatch) : RParserMatch :=
  mkRMatch None (pn_handle p) (u16 (s16 (m_len m) + Z.of_nat (m_take m))) (u16 (m_ofs m + Z.of_nat pos)) (pn_type p).

(** The pattern reads the key from [pos] to the second position. *)
Inductive reads : nat -> list tok -> nat -> list RParserMatch -> Prop :=
| rd_nil pos : reads pos [] pos []
| rd_lit pos c q pos' ms : key !! pos = Some c -> reads (S pos) q pos' ms -> reads pos (Lit c :: q) pos' ms
| rd_parser pos p q m pos' ms : (pos < length key)%nat -> try_parse p pos hm = Ret (Some m) -> reads (pos + m_take m) q pos' ms -> reads pos (Prs p :: q) pos' (capture p pos m :: ms).

Lemma reads_lits pos k q pos' ms : reads pos (lits k ++ q) pos' ms <-> (forall i c, k !! i = Some c -> key !! (pos + i)%nat = Some c) /\ reads (pos + length k) q pos' ms.
Proof.
  revert pos. induction k as [|x k IH]; intros pos; simpl.
  - rewrite Nat.add_0_r. split; [intros H; split; [done|done]|by intros [_ ?]].
  - split.
    + intros Hx. inversion Hx as [|? ? ? ? ? Hk Hr|]; subst. apply IH in Hr as [H H']. split; [|by rewrite Nat.add_succ_r].
      intros [|i] c Hc; simpl in Hc; [rewrite Nat.add_0_r; congruence|]. rewrite Nat.add_succ_r. by apply (H i).
    + intros [H H']. constructor; [specialize (H O x eq_refl); by rewrite Nat.add_0_r in H|]. apply IH. split; [|by rewrite Nat.add_succ_r in H'].
      intros i c Hc. specialize (H (S i) c Hc). by rewrite Nat.add_succ_r in H.
Qed.
Lemma reads_end q pos' ms : reads (length key) q pos' ms -> q = [].
Proof. inversion 1 as [|? ? ? ? ? Hc|? ? ? ? ? ? Hl]; subst; [done|apply lookup_lt_Some in Hc; lia|lia]. Qed.
Lemma mem_key pos : (pos < length key)%nat -> exists c, key !! pos = Some c /\ rd mem pos = Ret c /\ 0 < c < 256.
Proof.
  intros H. destruct (lookup_lt_is_Some_2 _ _ H) as [c Hc]. exists c. split; [done|]. split; [unfold rd; rewrite lookup_app_l by done; by rewrite Hc|].
  unfold plain_text in key_plain. rewrite Forall_forall in key_plain. apply key_plain. by eapply list_elem_of_lookup_2.
Qed.
Lemma try_parse_ok p pos : made p -> (pos < length key)%nat -> exists r, try_parse p pos hm = Ret r /\ forall m, r = Some m -> (pos + m_take m <= length key)%nat.
Proof.
  intros M H. unfold _pnode_try_parse. destruct (mem_key pos H) as (c & Hc & -> & _). cbn [obind]. unfold _is_pnode_matching_initial_character. destruct (bool_decide_reflect (pn_first p <= c <= pn_last p)) as [Hb|Hb]; simpl; [|exists None; split; [done|done]].
  rewrite drop_app_le by lia. destruct (safe p M hm (reverse (take pos mem) ++ before) (drop pos key) junk) as (r & -> & Hr).
  - by apply Forall_drop.
  - intros E%(f_equal length). rewrite length_drop in E. simpl in E. lia.
  - rewrite length_app. lia.
  - by rewrite (deref_drop _ _ _ Hc).
  - exists r. split; [done|]. intros m Hm. specialize (Hr m Hm). rewrite length_drop in Hr. lia.
Qed.

(** ** The literal part *)

Lemma prefix_loop_ok fuel (k : bytes) pos ml : (forall i c, k !! i = Some c -> (i < ml)%nat -> key !! (pos + i)%nat = Some c) -> (ml <= length k)%nat -> (length k - ml <= fuel)%nat -> (pos + ml <= length key)%nat ->
  exists i, prefix_loop mem fuel k pos ml (Z.min (Z.of_nat (length key - pos)) (lenZ k)) = Ret i /\ (i <= length k)%nat /\ (pos + i <= length key)%nat /\
    (forall j c, k !! j = Some c -> (j < i)%nat -> key !! (pos + j)%nat = Some c) /\ ((i < length k)%nat -> forall c, k !! i = Some c -> key !! (pos + i)%nat <> Some c).
Proof.
  revert ml. induction fuel as [|fuel IH]; intros ml H L F P; unfold prefix_loop; fold prefix_loop; unfold lenZ; case_bool.
  - lia.
  - exists ml. split_and!; [done..|]. intros L' c _ E. apply lookup_lt_Some in E. lia.
  - destruct (mem_key (pos + ml) ltac:(lia)) as (a & Ha & -> & _). cbn [obind]. destruct (lookup_lt_is_Some_2 k ml ltac:(lia)) as [b Hkb]. unfold rd at 1. rewrite Hkb. cbn [obind].
    case_bool; [exists ml; split_and!; [done..|]; intros _ c Hc; congruence|]. apply IH; [|lia|lia|lia].
    intros i c Hc Hi. destruct (decide (i = ml)) as [->|]; [|apply H; [done|lia]]. rewrite Ha. f_equal. assert (a = b) by lia. congruence.
  - exists ml. split_and!; [done..|]. intros L' c _ E. apply lookup_lt_Some in E. lia.
Qed.

(** A search may start at a node when its first byte is the next one. *)
Definition enters (n : node) (pos : nat) : Prop := (n_bytes n = [] \/ key !! pos = Some (n_first n)) /\ (pos <= length key)%nat.
Lemma literal_prefix_ok (n : node) pos : enters n pos ->
  exists i, _find_matching_literal_prefix mem n pos (Z.of_nat (length key - pos)) = Ret i /\ (i <= length (n_bytes n))%nat /\ (pos + i <= length key)%nat /\
    (forall j c, n_bytes n !! j = Some c -> (j < i)%nat -> key !! (pos + j)%nat = Some c) /\ ((i < length (n_bytes n))%nat -> forall c, n_bytes n !! i = Some c -> key !! (pos + i)%nat <> Some c).
Proof.
  intros [E P]. unfold _find_matching_literal_prefix. assert (K : n_bytes n = [] /\ n_keylen n < 1 \/ n_keylen n = lenZ (n_bytes n) /\ 1 <= lenZ (n_bytes n)).
  { unfold n_keylen, n_bytes. destruct (n_key n) as [k|]; [|left; done]. destruct k as [|x k]; [by left|right]. simpl. rewrite lenZ_cons. pose proof (lenZ_nonneg k). lia. }
  destruct K as [[-> K]|[K L]]; [rewrite bool_decide_eq_true_2 by done; exists O; simpl; split_and!; [done|lia|lia|done|lia]|].
  rewrite bool_decide_eq_false_2 by lia. destruct E as [E|E]; [rewrite E in L; done|]. unfold n_first in E. destruct (n_bytes n) as [|x k] eqn:B; [done|]. simpl in E.
  assert (Hx : forall j c, (x :: k) !! j = Some c -> (j < 1)%nat -> key !! (pos + j)%nat = Some c) by (intros j c Hc Hj; assert (j = O) as -> by lia; rewrite Nat.add_0_r; simpl in Hc; congruence).
  apply lookup_lt_Some in E as Lt. case_bool.
  - assert (k = []) as -> by (rewrite K, lenZ_cons in Hb; apply lenZ_zero_nil; lia). exists 1%nat. simpl. split_and!; [done|lia|lia|done|lia].
  - rewrite K. destruct (prefix_loop_ok (length (x :: k)) (x :: k) pos 1 Hx) as (i & Hi); [simpl; lia..|]. exists i. done.
Qed.

(** ** Results *)

Abbreviation state := (@RFindNodeState R V).
Record keeps (s s' : state) : Prop := {
  ks_require : require_complete_match s' = require_complete_match s;
  ks_applicable : applicable_nodes s' = applicable_nodes s;
  ks_partial : partial_match_found s = true -> partial_match_found s' = true }.
Definition ready (s : state) : Prop := applicable_nodes s = None /\ has_slot s = hm.
Definition with_matches (ms0 : option (list RParserMatch)) (ms : list RParserMatch) : option (list RParserMatch) := (fun l => l ++ ms) <$> ms0.

(** A pattern of [S] that reads the key was missed only if it leaves a rest and
    the whole key is asked for. *)
Definition missed (s' : state) (S : list tok -> V -> Prop) (pos : nat) : Prop := forall q v pos' ms, S q v -> reads pos q pos' ms ->
  require_complete_match s' = true /\ (pos' < length key)%nat /\ partial_match_found s' = true.
Definition found (s' : state) (S : list tok -> V -> Prop) (pos : nat) (ms0 : option (list RParserMatch)) (n : node) : Prop :=
  exists q v pos' ms, S q v /\ n_value n = Some v /\ reads pos q pos' ms /\ (require_complete_match s' = true -> pos' = length key) /\ stored_matches s' = with_matches ms0 ms.
Definition finds (res : outcome (option node * state)) (S : list tok -> V -> Prop) (pos : nat) (s : state) : Prop :=
  exists r s', res = Ret (r, s') /\ keeps s s' /\
    match r with Some n => found s' S pos (stored_matches s) n | None => stored_matches s' = stored_matches s /\ missed s' S pos end.

Lemma keeps_refl s : keeps s s.
Proof. by split. Qed.
Lemma keeps_trans s1 s2 s3 : keeps s1 s2 -> keeps s2 s3 -> keeps s1 s3.
Proof. intros [? ? ?] [? ? ?]. split; [congruence|congruence|auto]. Qed.
Lemma keeps_set_matches s m : keeps s (set_matches s m).
Proof. by split. Qed.
Lemma keeps_set_dbg s d : keeps s (set_dbg s d).
Proof. by split. Qed.
Lemma missed_keeps s s' S pos : keeps s s' -> missed s S pos -> missed s' S pos.
Proof. intros [E _ P] M q v pos' ms Hq Hr. destruct (M q v pos' ms Hq Hr) as (? & ? & ?). split_and!; [congruence|done|auto]. Qed.
Lemma found_sub s' (S T : list tok -> V -> Prop) pos ms0 n : (forall q v, S q v -> T q v) -> found s' S pos ms0 n -> found s' T pos ms0 n.
Proof. intros H (q & v & pos' & ms & ? & ?). exists q, v, pos', ms. split; [auto|done]. Qed.
Lemma has_slot_stored (s s' : state) : (stored_matches s' = None <-> stored_matches s = None) -> has_slot s' = has_slot s.
Proof. unfold has_slot. destruct (stored_matches s), (stored_matches s'); intros []; intuition congruence. Qed.
Lemma with_nil ms0 : with_matches ms0 [] = ms0.
Proof. destruct ms0; [|done]. simpl. by rewrite app_nil_r. Qed.

Lemma height_child (n c : node) : c ∈ n_children n \/ c ∈ n_pchildren n -> (height c < height n)%nat.
Proof.
  destruct n as [k p v cs ps]. simpl. assert (H : forall l : list node, c ∈ l -> (height c <= max_list (height <$> l))%nat) by (intros l Hl; by apply max_list_elem_of_le, list_elem_of_fmap_2).
  intros [Hc|Hc]; apply H in Hc; lia.
Qed.

Lemma find_child_any (n : node) (x : Z) : wf n -> 0 < x < 256 ->
  match r_find_child_by_first_character n x with Some i => exists c, n_children n !! i = Some c /\ n_first c = x | None => forall c, c ∈ n_children n -> n_first c <> x end.
Proof.
  intros W Hx. destruct (decide (x < 128)) as [L|L]; [apply (find_child_ok pcre_compile value_handle allowed); [done|lia]|].
  assert (F : forall c, c ∈ n_children n -> 1 <= n_first c < 128).
  { intros c Hc. destruct (wf_child _ _ _ _ _ W Hc) as [_ Lc]. destruct (key_ok_first _ (lit_child_bytes _ Lc)) as (y & k & E & ?). unfold n_first. by rewrite E. }
  unfold r_find_child_by_first_character. pose proof (child_search_ok (S (length (n_children n))) (n_children n) (s8 x) 0 (length (n_children n))) as H.
  destruct (child_search _ _ _ _ _) as [i|]; [|intros c Hc E; specialize (F c Hc); lia]. destruct W as [[_ So _ _] _ _].
  destruct H as (c & Hc & E); [done|lia|lia|lia|intros i0 c0 ? ?; pose proof (lookup_lt_Some _ _ _ H); lia|]. specialize (F c (list_elem_of_lookup_2 _ _ _ Hc)).
  unfold s8 in E. rewrite bool_decide_eq_false_2 in E by lia. lia.
Qed.

(** ** One level *)

Section level.
Variable fuel : nat.
Hypothesis IH : forall n s pos, wf n -> (height n <= fuel)%nat -> enters n pos -> ready s -> finds (find fuel s n pos (Z.of_nat (length key - pos))) (spells_at n) pos s.

Lemma by_key_ok (n : node) s pos : wf n -> (height n <= S fuel)%nat -> (pos < length key)%nat -> ready s ->
  finds (_find_child_by_remaining_key mem (find fuel) s n pos (Z.of_nat (length key - pos))) (fun q v => exists c, c ∈ n_children n /\ spells_at c q v) pos s.
Proof.
  intros W Hh P Rd. unfold _find_child_by_remaining_key. destruct (mem_key pos P) as (x & Hx & -> & Bx). cbn [obind]. pose proof (find_child_any n x W Bx) as F.
  destruct (r_find_child_by_first_character n x) as [i|].
  - destruct F as (c & Hi & Fc). rewrite Hi. pose proof (list_elem_of_lookup_2 _ _ _ Hi) as Hc. destruct (wf_child _ _ _ _ _ W Hc) as [Wc Lc].
    destruct (IH c s pos Wc) as (r & s' & -> & K & H); [pose proof (height_child n c (or_introl Hc)); lia|split; [right; congruence|lia]|done|]. exists r, s'. split_and!; [done..|].
    destruct r as [n'|]; [eapply found_sub; [|done]; intros; by exists c|]. destruct H as [E M]. split; [done|]. intros q v pos' ms (d & Hd & Sd) Hr. apply (M q v pos' ms); [|done].
    destruct (wf_child _ _ _ _ _ W Hd) as [_ Ld]. destruct (spells_at_first _ _ _ Ld Sd) as [q' ->]. inversion Hr as [|? ? ? ? ? Hk|]; subst.
    apply list_elem_of_lookup in Hd as [j Hj]. assert (i = j) as -> by (eapply (first_distinct pcre_compile value_handle allowed n i j c d); [done..|congruence]). congruence.
  - exists None, s. split_and!; [done|apply keeps_refl|done|]. intros q v pos' ms (d & Hd & Sd) Hr. destruct (wf_child _ _ _ _ _ W Hd) as [_ Ld].
    destruct (spells_at_first _ _ _ Ld Sd) as [q' ->]. inversion Hr as [|? ? ? ? ? Hk|]; subst. destruct (F d Hd). congruence.
Qed.

(** While parsers are tried there is one more slot. *)
Definition slotted (ms0 : option (list RParserMatch)) (s : state) : Prop := exists x, stored_matches s = with_matches ms0 [x].
Definition tried (res : outcome (option node * state)) (S : list tok -> V -> Prop) (pos : nat) (ms0 : option (list RParserMatch)) (s : state) : Prop :=
  exists r s', res = Ret (r, s') /\ keeps s s' /\ match r with Some n => found s' S pos ms0 n | None => slotted ms0 s' /\ missed s' S pos end.
Abbreviation slot_of ms0 := (length (default [] ms0)).

Lemma insert_middle {A} (l k : list A) x y : <[length l := y]> (l ++ x :: k) = l ++ y :: k.
Proof. induction l as [|a l IHl]; simpl; [done|by rewrite IHl]. Qed.
Lemma set_slot_stored ms0 ms x y (s : state) : stored_matches s = with_matches ms0 (x :: ms) -> stored_matches (set_slot s (slot_of ms0) y) = with_matches ms0 (y :: ms).
Proof. intros E. unfold set_slot, set_matches. cbn [stored_matches]. rewrite E. destruct ms0 as [l|]; [|done]. simpl. by rewrite insert_middle. Qed.
Lemma get_slot_stored ms0 ms x (s : state) : stored_matches s = with_matches ms0 (x :: ms) -> _get_match_slot s (slot_of ms0) = match ms0 with Some _ => Some x | None => None end.
Proof. intros E. unfold _get_match_slot. rewrite E. destruct ms0 as [l|]; [|done]. simpl. by rewrite list_lookup_middle. Qed.
Lemma has_slot_with (s : state) ms0 ms : stored_matches s = with_matches ms0 ms -> has_slot s = match ms0 with Some _ => true | None => false end.
Proof. intros E. unfold has_slot. rewrite E. by destruct ms0. Qed.

Lemma try_child_ok (n c : node) p s pos ms0 : wf c -> n_key c = None -> n_parser c = Some p -> made p -> (height c <= fuel)%nat -> (pos < length key)%nat -> ready s -> slotted ms0 s ->
  tried (_try_parse_with_a_given_child pcre_exec before mem (find fuel) s n c (slot_of ms0) pos (Z.of_nat (length key - pos))) (fun q v => exists q', q = [Prs p] ++ q' /\ spells c q' v) pos ms0 s.
Proof.
  intros W Kc Pc M Hh P [Ra Rh] [x Hx]. unfold _try_parse_with_a_given_child. rewrite Pc. unfold _clear_match_slot. set (s1 := set_slot s _ empty_match).
  assert (E1 : stored_matches s1 = with_matches ms0 [empty_match]) by by apply (set_slot_stored ms0 [] x).
  assert (H1 : has_slot s1 = hm) by (rewrite (has_slot_with _ _ _ E1), <- Rh; symmetry; apply (has_slot_with _ _ _ Hx)). rewrite H1.
  destruct (try_parse_ok p pos M P) as (r & Hr & Hm). rewrite Hr. cbn [obind]. destruct r as [m|].
  2:{ exists None, s1. split_and!; [done|apply keeps_set_matches|by exists empty_match|]. intros q v pos' ms (q' & -> & _) Hrd. inversion Hrd; subst; congruence. }
  specialize (Hm m eq_refl). set (sl := mkRMatch None 0 (m_len m) (m_ofs m) 0). set (s2 := set_slot s1 _ sl).
  assert (E2 : stored_matches s2 = with_matches ms0 [sl]) by by apply (set_slot_stored ms0 [] empty_match).
  rewrite (get_slot_stored ms0 [] sl s2 E2). set (s3 := _add_parser_match_debug_info s2 _ _ _ _ _).
  assert (E3 : stored_matches s3 = with_matches ms0 [sl] /\ keeps s s3) by (subst s3; unfold _add_parser_match_debug_info; destruct ms0; split; done). destruct E3 as [E3 K3].
  replace (Z.of_nat (length key - pos) - Z.of_nat (m_take m)) with (Z.of_nat (length key - (pos + m_take m))) by lia. assert (Bc : n_bytes c = []) by (unfold n_bytes; by rewrite Kc).
  destruct (IH c s3 (pos + m_take m)) as (r & s4 & -> & K4 & H4); [done|done|by split; [left|]|split; [by rewrite (ks_applicable _ _ K3)|rewrite (has_slot_with _ _ _ E3), <- H1; symmetry; apply (has_slot_with _ _ _ E1)]|].
  cbn [obind]. rewrite E3 in H4. assert (Sc : forall q v, spells_at c q v <-> spells c q v) by (intros q v; unfold spells_at; rewrite Bc; simpl; split; [by intros (? & -> & ?)|by exists q]).
  pose proof (keeps_trans _ _ _ K3 K4) as K34. destruct r as [n'|].
  - destruct H4 as (q & v & pos' & ms & Hs & Hv & Hrd & Hc & E4). apply Sc in Hs.
    assert (E4' : stored_matches s4 = with_matches ms0 (sl :: ms)) by (rewrite E4; destruct ms0 as [l|]; [simpl; by rewrite <- app_assoc|done]). rewrite (get_slot_stored ms0 ms sl s4 E4').
    assert (G : forall s5, keeps s4 s5 -> stored_matches s5 = with_matches ms0 (capture p pos m :: ms) -> found s5 (fun q v => exists q', q = [Prs p] ++ q' /\ spells c q' v) pos ms0 n').
    { intros s5 K5 E5. exists (Prs p :: q), v, pos', (capture p pos m :: ms). split_and!; [by exists q|done|by eapply rd_parser|rewrite (ks_require _ _ K5); done|done]. }
    eexists (Some n'), _. split; [done|]. destruct ms0 as [l|].
    + split; [by eapply keeps_trans; [|apply keeps_set_matches]|]. apply G; [apply keeps_set_matches|]. by apply (set_slot_stored (Some l) ms sl).
    + split; [done|]. apply G; [apply keeps_refl|]. by rewrite E4'.
  - destruct H4 as [E4 M4]. rewrite (get_slot_stored ms0 [] sl s4 E4). eexists None, _. split; [done|].
    assert (M' : missed s4 (fun q v => exists q', q = [Prs p] ++ q' /\ spells c q' v) pos).
    { intros q v pos' ms (q' & -> & Hs) Hrd. inversion Hrd; subst. simplify_eq. eapply (M4 q'); [by apply Sc|]. assert (m0 = m) as -> by congruence. done. }
    destruct ms0 as [l|]; [|split; [done|split; [by exists sl|done]]]. split; [by eapply keeps_trans; [|apply keeps_set_matches]|]. split; [|eapply missed_keeps; [apply keeps_set_matches|done]].
    eexists. by apply (set_slot_stored (Some l) [] sl).
Qed.

Lemma ready_slotted s s' ms0 : ready s -> keeps s s' -> slotted ms0 s -> slotted ms0 s' -> ready s'.
Proof. intros [Ra Rh] K [x Hx] [y Hy]. split; [by rewrite (ks_applicable _ _ K)|]. rewrite <- Rh, (has_slot_with _ _ _ Hx). apply (has_slot_with _ _ _ Hy). Qed.

Definition below_parsers (l : list node) (q : list tok) (v : V) : Prop := exists c p q', c ∈ l /\ n_parser c = Some p /\ q = [Prs p] ++ q' /\ spells c q' v.
Lemma try_parsers_ok (n : node) (l : list node) s pos ms0 base : Forall (parser_child pcre_compile value_handle allowed) l -> (forall c, c ∈ l -> wf c /\ (height c <= fuel)%nat) ->
  (pos < length key)%nat -> ready s -> slotted ms0 s ->
  tried (try_parsers pcre_exec before mem (find fuel) s n l base (slot_of ms0) pos (Z.of_nat (length key - pos))) (below_parsers l) pos ms0 s.
Proof.
  intros F. revert s. induction F as [|c l (Kc & p & Pc & M) F IHl]; intros s Hl P Rd Sl; simpl.
  - exists None, s. split_and!; [done|apply keeps_refl|done|]. intros q v pos' ms (c & ? & ? & Hc & _). set_solver.
  - set (s1 := _truncate_debug_info s base). assert (K1 : keeps s s1) by apply keeps_set_dbg. assert (Sl1 : slotted ms0 s1) by exact Sl.
    assert (Rd1 : ready s1) by exact Rd. destruct (Hl c ltac:(left)) as [Wc Hc].
    destruct (try_child_ok n c p s1 pos ms0 Wc Kc Pc M Hc P Rd1 Sl1) as (r & s2 & -> & K2 & H2). cbn [obind]. pose proof (keeps_trans _ _ _ K1 K2) as K12.
    destruct r as [n'|].
    + exists (Some n'), s2. split_and!; [done|done|]. eapply found_sub; [|done]. intros q v (q' & -> & ?). exists c, p, q'. split_and!; [left|done..].
    + destruct H2 as [Sl2 M2]. destruct (IHl s2) as (r & s3 & -> & K3 & H3); [intros d Hd; apply Hl; by right|done|by eapply (ready_slotted s)|done|].
      exists r, s3. split_and!; [done|by eapply keeps_trans|]. destruct r as [n'|].
      * eapply found_sub; [|done]. intros q v (d & p' & q' & Hd & ?). exists d, p', q'. split; [by right|done].
      * destruct H3 as [Sl3 M3]. split; [done|]. intros q v pos' ms (d & p' & q' & [->|Hd]%elem_of_cons & Hp' & -> & Hs) Hrd.
        -- eapply (missed_keeps s2); [done..| |done]. exists q'. split; [congruence|done].
        -- eapply M3; [|done]. by exists d, p', q'.
Qed.

Lemma by_parser_ok (n : node) s pos : wf n -> (height n <= S fuel)%nat -> (pos < length key)%nat -> ready s ->
  finds (_find_child_by_parser pcre_exec before mem (find fuel) s n pos (Z.of_nat (length key - pos))) (below_parsers (n_pchildren n)) pos s.
Proof.
  intros W Hh P Rd. unfold _find_child_by_parser. set (base := length _).
  assert (A : exists s1, _alloc_slot_in_matches s = (slot_of (stored_matches s), s1) /\ slotted (stored_matches s) s1 /\ keeps s s1 /\ ready s1).
  { destruct Rd as [Ra Rh]. unfold _alloc_slot_in_matches. destruct (stored_matches s) as [l|] eqn:E.
    - eexists. split; [done|]. split_and!; [by exists empty_match|apply keeps_set_matches|split; [done|]]. rewrite <- Rh. unfold has_slot. by rewrite E.
    - exists s. split_and!; [done|exists empty_match; by rewrite E|apply keeps_refl|done]. }
  destruct A as (s1 & -> & Sl & K1 & Rd1). pose proof W as [[_ _ Pc _] _ Wp].
  destruct (try_parsers_ok n (n_pchildren n) s1 pos (stored_matches s) base Pc) as (r & s2 & -> & K2 & H2); [|done..|].
  { intros c Hc. split; [by apply Wp|]. pose proof (height_child n c (or_intror Hc)). lia. }
  cbn [obind]. pose proof (keeps_trans _ _ _ K1 K2) as K. destruct r as [n'|]; [by exists (Some n'), s2|]. destruct H2 as [[x Hx] M].
  eexists None, _. split; [done|]. split_and!; [eapply keeps_trans; [done|apply keeps_set_matches]| |eapply missed_keeps; [apply keeps_set_matches|done]].
  unfold _reset_matches_to_original_state. cbn [stored_matches set_matches]. rewrite Hx. destruct (stored_matches s) as [l|]; [|done]. simpl. by rewrite take_app_length.
Qed.

Lemma ready_keeps s s' : ready s -> keeps s s' -> stored_matches s' = stored_matches s -> ready s'.
Proof. intros [Ra Rh] K E. split; [by rewrite (ks_applicable _ _ K)|]. unfold has_slot in *. by rewrite E. Qed.

(** Below a node whose literal part was read. *)
Definition search_below (s : state) (n : node) (pos : nat) (keylen : Z) : outcome (option node * state) :=
  let! (ret, s) := _find_child_by_remaining_key mem (find fuel) s n pos keylen in
  let! (ret, s) := (match ret with Some _ => Ret (ret, s) | None => _find_child_by_parser pcre_exec before mem (find fuel) s n pos keylen end) in
  match ret, n_value n with
  | None, Some _ => if negb (require_complete_match s) then Ret (Some n, s) else Ret (None, note_partial s)
  | _, _ => Ret (ret, s)
  end.
Lemma search_below_ok (n : node) s pos : wf n -> (height n <= S fuel)%nat -> (pos < length key)%nat -> ready s ->
  finds (search_below s n pos (Z.of_nat (length key - pos))) (spells n) pos s.
Proof.
  intros W Hh P Rd. unfold search_below. destruct (by_key_ok n s pos W Hh P Rd) as (r1 & s1 & -> & K1 & H1). cbn [obind]. destruct r1 as [n'|].
  - cbn [obind]. exists (Some n'), s1. split_and!; [done..|]. eapply found_sub; [|done]. intros q v (c & Hc & Hs). apply spells_cases. right; left. by exists c.
  - destruct H1 as [E1 M1]. destruct (by_parser_ok n s1 pos W Hh P (ready_keeps _ _ Rd K1 E1)) as (r2 & s2 & -> & K2 & H2). cbn [obind]. pose proof (keeps_trans _ _ _ K1 K2) as K. rewrite E1 in H2.
    destruct r2 as [n'|]; [exists (Some n'), s2; split_and!; [done..|]; eapply found_sub; [|done]; intros q v Hq; apply spells_cases; by right; right|].
    destruct H2 as [E2 M2]. assert (M : forall s3, keeps s2 s3 -> (forall v, n_value n = Some v -> require_complete_match s3 = true /\ partial_match_found s3 = true) -> missed s3 (spells n) pos).
    { intros s3 K3 Hv q v pos' ms [[-> Hn]|[Hc|Hp]]%spells_cases Hrd.
      - inversion Hrd; subst. destruct (Hv v Hn). by split_and!.
      - eapply (missed_keeps s1 s3); [by eapply keeps_trans|exact M1|exact Hc|exact Hrd].
      - eapply (missed_keeps s2 s3); [done|exact M2|exact Hp|exact Hrd]. }
    destruct (n_value n) as [v|] eqn:Ev; [|exists None, s2; split_and!; [done|done|done|by apply M; [apply keeps_refl|]]].
    destruct (require_complete_match s2) eqn:Er; simpl.
    + assert (Kp : keeps s2 (note_partial s2)) by (by split). exists None, (note_partial s2). split_and!; [done|by eapply keeps_trans|done|]. by apply M.
    + exists (Some n), s2. split_and!; [done|done|]. exists [], v, pos, []. split_and!; [by constructor|done|constructor|congruence|by rewrite with_nil].
Qed.
End level.

Lemma find_ok (fuel : nat) (n : node) s pos : wf n -> (height n <= fuel)%nat -> enters n pos -> ready s -> finds (find fuel s n pos (Z.of_nat (length key - pos))) (spells_at n) pos s.
Proof.
  revert n s pos. induction fuel as [|fuel IH]; intros n s pos W Hh En Rd; [destruct n; simpl in Hh; lia|]. cbn [_find_node_recursively].
  destruct (literal_prefix_ok n pos En) as (i & -> & Li & Lp & Pre & Diff). cbn [obind]. set (s1 := _add_literal_match_to_debug_info s n _).
  assert (K1 : keeps s s1) by apply keeps_set_dbg. assert (Rd1 : ready s1) by exact Rd.
  assert (Kl : n_keylen n = -1 /\ length (n_bytes n) = O \/ n_keylen n = Z.of_nat (length (n_bytes n))) by (unfold n_keylen, n_bytes; destruct (n_key n); [by right|by left]).
  destruct (decide (i = length (n_bytes n))) as [Ei|Ei].
  2:{ rewrite bool_decide_eq_false_2 by lia. rewrite bool_decide_eq_false_2 by lia. exists None, s1. split_and!; [done..|]. intros q v pos' ms (q' & -> & _) [H _]%reads_lits.
      destruct (lookup_lt_is_Some_2 (n_bytes n) i ltac:(lia)) as [c Hc]. by destruct (Diff ltac:(lia) c Hc), (H i c). }
  assert (Rl : forall q pos' ms, reads pos (lits (n_bytes n) ++ q) pos' ms <-> reads (pos + i) q pos' ms).
  { intros q pos' ms. rewrite reads_lits, <- Ei. split; [by intros [_ ?]|]. intros H. split; [|done]. intros j c Hc. apply Pre; [done|]. apply lookup_lt_Some in Hc. lia. }
  destruct (decide (pos + i = length key)%nat) as [El|El].
  - rewrite bool_decide_eq_true_2 by lia. destruct Rd1 as [Ra _]. rewrite Ra. exists (match n_value n with Some _ => Some n | None => None end), s1. split_and!; [done..|].
    destruct (n_value n) as [v|] eqn:Ev.
    + exists (lits (n_bytes n) ++ []), v, (length key), []. split_and!; [exists []; split; [done|by constructor]|done|apply Rl; rewrite El; constructor|done|by rewrite with_nil].
    + split; [done|]. intros q v pos' ms (q' & -> & Hs) H%Rl. rewrite El in H. apply reads_end in H as ->. apply (spells_nil pcre_compile value_handle allowed) in Hs; [congruence|done].
  - rewrite bool_decide_eq_false_2 by lia. rewrite bool_decide_eq_true_2 by lia. replace (Z.of_nat (length key - pos) - Z.of_nat i) with (Z.of_nat (length key - (pos + i))) by lia.
    destruct (search_below_ok fuel IH n s1 (pos + i) W Hh ltac:(lia) Rd1) as (r & s2 & Hr & K2 & H2). unfold search_below in Hr. rewrite Hr.
    exists r, s2. split_and!; [done|by eapply keeps_trans|]. destruct r as [n'|].
    + destruct H2 as (q & v & pos' & ms & Hs & Hv & Hrd & Hc & E). exists (lits (n_bytes n) ++ q), v, pos', ms. split_and!; [by exists q|done|by apply Rl|done|done].
    + destruct H2 as [E M]. split; [done|]. intros q v pos' ms (q' & -> & Hs) H%Rl. by eapply M.
Qed.
End find_spec.
