(* ===== verification/RadixClaims.v ===== *)
(** * The parsers stay inside the string

    Each parser of [RadixParsers] on a string that ends with a zero byte: it reads
    nothing past the terminator and takes no more than the string has, with the
    exceptions that [safe_kind] names: the sets of SET and EMAIL are searched with
    [strchr], which finds the terminator as well, and so is the empty end mark of
    an ESTRING; a PCRE that does not compile leaves a NULL state. *)
From S2P Require Import Prelude CString RadixParsers Radix RadixSpec RadixFindSpec RadixInsert.

Section strings.
Variables rest junk : bytes.
Hypothesis Hrest : plain_text rest.
Abbreviation str := (rest ++ 0 :: junk).
Abbreviation len := (length rest).

Definition within (r : outcome (option RMatch)) : Prop := exists o, r = Ret o /\ forall m, o = Some m -> (m_take m <= len)%nat.
Lemma within_none : within no_match.
Proof. by exists None. Qed.
Lemma within_plain n : (n <= len)%nat -> within (plain n).
Proof. intros H. eexists. split; [done|]. by intros m [= <-]. Qed.
Lemma within_shifted n o l : (n <= len)%nat -> within (shifted n o l).
Proof. intros H. eexists. split; [done|]. by intros m [= <-]. Qed.

Lemma rd_ok i : (i <= len)%nat -> exists c, rd str i = Ret c /\ (c <> 0 -> (i < len)%nat) /\ ((i < len)%nat -> rest !! i = Some c).
Proof.
  intros H. unfold rd. destruct (decide (i = len)) as [->|N].
  - exists 0. rewrite list_lookup_middle by done. split_and!; [done|done|lia].
  - destruct (lookup_lt_is_Some_2 rest i ltac:(lia)) as [c Hc]. exists c. rewrite lookup_app_l by lia. rewrite Hc. split_and!; [done|lia|done].
Qed.
Lemma count_while_ok p (s : bytes) : p 0 = false -> exists n, count_while p (s ++ 0 :: junk) = Ret n /\ (n <= length s)%nat.
Proof.
  intros P0. induction s as [|c s (n & IH & L)]; simpl; [exists O; by rewrite P0|]. destruct (p c); [rewrite IH; exists (S n); split; [done|lia]|exists O; split; [done|lia]].
Qed.
Lemma skip_ok p i : p 0 = false -> (i <= len)%nat -> exists n, skip p str i = Ret n /\ (i <= n <= len)%nat.
Proof.
  intros P0 H. unfold skip. rewrite drop_app_le by lia. destruct (count_while_ok p (drop i rest) P0) as (n & -> & L). rewrite length_drop in L. exists (i + n)%nat. split; [done|lia].
Qed.
Lemma find_char_ok q (s : bytes) : q <> 0 -> exists r, find_char q (s ++ 0 :: junk) = Ret r /\ forall i, r = Some i -> (i < length s)%nat.
Proof.
  intros Q. induction s as [|c s (r & IH & L)]; simpl.
  - rewrite bool_decide_eq_false_2 by lia. by exists None.
  - case_bool; [exists (Some O); split; [done|]; intros i [= <-]; lia|]. case_bool; [by exists None|]. rewrite IH. exists (S <$> r). split; [done|]. intros i Hi. destruct r as [j|]; [|done].
    simplify_eq/=. specialize (L j eq_refl). lia.
Qed.
Lemma has_prefix_ok (t s : bytes) : Forall (fun c => c <> 0) t -> exists r, has_prefix (s ++ 0 :: junk) t = Ret r /\ (r = true -> (length t <= length s)%nat).
Proof.
  revert s. induction t as [|d t IH]; intros s H; [exists true; split; [by destruct s|simpl; lia]|]. apply Forall_cons in H as [Hd Ht]. destruct s as [|c s]; simpl.
  - rewrite bool_decide_eq_false_2 by lia. by exists false.
  - case_bool; [|by exists false]. destruct (IH s Ht) as (r & -> & L). exists r. split; [done|]. intros ->. specialize (L eq_refl). lia.
Qed.
Lemma find_string_ok (t s : bytes) : Forall (fun c => c <> 0) t -> exists r, find_string t (s ++ 0 :: junk) = Ret r /\ forall i, r = Some i -> (i + length t <= length s)%nat.
Proof.
  intros T. induction s as [|c s (r & IH & L)].
  - simpl find_string. destruct (has_prefix_ok t [] T) as (h & Hh & Lh). simpl in Hh. rewrite Hh. cbn [obind]. destruct h; [exists (Some O); split; [done|]; intros i [= <-]; specialize (Lh eq_refl); simpl in *; lia|].
    by exists None.
  - destruct (has_prefix_ok t (c :: s) T) as (h & Hh & Lh). change ((c :: s) ++ 0 :: junk) with (c :: s ++ 0 :: junk) in *. cbn [find_string]. rewrite Hh. cbn [obind].
    destruct h; [exists (Some O); split; [done|]; intros i [= <-]; specialize (Lh eq_refl); simpl in *; lia|]. case_bool; [by exists None|]. rewrite IH. cbn [obind]. exists (S <$> r). split; [done|].
    intros i Hi. destruct r as [j|]; [|done]. simplify_eq/=. specialize (L j eq_refl). lia.
Qed.

Lemma string_safe param : within (r_parser_string str param).
Proof. unfold r_parser_string. edestruct count_while_ok as (n & -> & L); [done|]. cbn [obind]. case_bool; [by apply within_plain|apply within_none]. Qed.
Lemma qstring_safe q : q <> 0 -> rest <> [] -> within (r_parser_qstring str q).
Proof.
  intros Q Ne. unfold r_parser_qstring. assert (L1 : (1 <= len)%nat) by (destruct rest; [done|simpl; lia]). rewrite drop_app_le by lia.
  destruct (find_char_ok q (drop 1 rest) Q) as ([i|] & -> & L); cbn [obind]; [|apply within_none]. specialize (L i eq_refl). rewrite length_drop in L. apply within_shifted. lia.
Qed.
Lemma estring_c_safe p : deref p <> 0 -> within (r_parser_estring_c str (Some p)).
Proof.
  intros Q. unfold r_parser_estring_c. replace (default 0 (head p)) with (deref p) by by destruct p.
  destruct (find_char_ok _ rest Q) as ([i|] & -> & L); cbn [obind]; [specialize (L i eq_refl); apply within_shifted; lia|apply within_none].
Qed.
Lemma estring_safe p : Forall (fun c => c <> 0) p -> within (r_parser_estring str (Some p) (length p)).
Proof. intros H. unfold r_parser_estring. destruct (find_string_ok p rest H) as ([i|] & -> & L); cbn [obind]; [specialize (L i eq_refl); apply within_shifted; lia|apply within_none]. Qed.
Lemma anystring_safe : within (r_parser_anystring str).
Proof. unfold r_parser_anystring. edestruct count_while_ok as (n & -> & L); [done|]. by apply within_plain. Qed.

Lemma labels_ok fuel i n : (i <= len)%nat -> (len - i < fuel)%nat -> exists j m, labels fuel str i n = Ret (j, m) /\ (i <= j <= len)%nat.
Proof.
  revert i n. induction fuel as [|fuel IH]; intros i n Hi F; [lia|]. simpl. destruct (rd_ok i Hi) as (c & -> & Nz & _). cbn [obind].
  destruct (host_char c) eqn:Hc; [|exists i, n; split; [done|lia]]. assert (c <> 0) by (intros ->; done). specialize (Nz ltac:(done)).
  destruct (skip_ok host_char (i + 1) eq_refl ltac:(lia)) as (j & -> & Hj). cbn [obind]. destruct (rd_ok j ltac:(lia)) as (d & -> & Nd & _). cbn [obind].
  case_bool; [|destruct (IH j (n + 1)%nat) as (k & m & E & ?); [lia|lia|]; exists k, m; split; [done|lia]].
  destruct (IH (j + 1)%nat (n + 1)%nat) as (k & m & E & ?); [specialize (Nd ltac:(lia)); lia|lia|]. exists k, m. split; [done|lia].
Qed.
Lemma hostname_safe : within (r_parser_hostname str).
Proof.
  unfold r_parser_hostname. destruct (labels_ok (length str) 0 0) as (j & m & -> & L); [lia|rewrite length_app; simpl; lia|]. cbn [obind]. case_bool; [apply within_none|apply within_plain; lia].
Qed.
Lemma lladdr_loop_ok parts first i : (i <= len)%nat -> (first = false -> 1 <= i)%nat -> exists r, lladdr_loop parts first str i = Ret r /\ forall j, r = Some j -> (j <= len)%nat.
Proof.
  revert first i. induction parts as [|parts IH]; intros first i Hi Hf; simpl; [exists (Some i); split; [done|by intros j [= <-]]|].
  destruct (rd_ok i Hi) as (c & -> & Nc & _). cbn [obind]. destruct (is_xdigit c) eqn:Xc.
  2:{ eexists. split; [done|]. destruct first; [done|]. intros j [= <-]. lia. }
  assert (c <> 0) by (intros ->; done). specialize (Nc ltac:(done)). destruct (rd_ok (i + 1) ltac:(lia)) as (d & -> & Nd & _). cbn [obind]. destruct (is_xdigit d) eqn:Xd; simpl.
  2:{ eexists. split; [done|]. destruct first; [done|]. intros j [= <-]. lia. }
  assert (d <> 0) by (intros ->; done). specialize (Nd ltac:(done)). destruct parts as [|parts]; [exists (Some (i + 2)%nat); split; [done|]; intros j [= <-]; lia|].
  destruct (rd_ok (i + 2) ltac:(lia)) as (e & -> & Ne & _). cbn [obind]. case_bool; [exists (Some (i + 2)%nat); split; [done|]; intros j [= <-]; lia|].
  apply IH; [specialize (Ne ltac:(lia)); lia|lia].
Qed.
Lemma lladdr_safe count parts : within (_r_parser_lladdr str count parts).
Proof.
  unfold _r_parser_lladdr. destruct (lladdr_loop_ok (Z.to_nat parts) true 0) as ([j|] & -> & L); [lia|done|..]; cbn [obind]; [|apply within_none].
  case_bool; [apply within_none|by apply within_plain, L].
Qed.
Lemma ipv4_loop_ok (s : bytes) i d o : exists r, ipv4_loop (s ++ 0 :: junk) i d o = Ret r /\ forall j d' o', r = Some (j, d', o') -> (j <= i + length s)%nat.
Proof.
  revert i d o. induction s as [|c s IH]; intros i d o; simpl; [exists (Some (i, d, o)); split; [done|]; intros j d' o' [= <- _ _]; lia|].
  assert (G : forall d o, exists r, ipv4_loop (s ++ 0 :: junk) (S i) d o = Ret r /\ forall j d' o', r = Some (j, d', o') -> (j <= i + S (length s))%nat).
  { intros d1 o1. destruct (IH (S i) d1 o1) as (r & -> & L). exists r. split; [done|]. intros j d' o' E. specialize (L j d' o' E). lia. }
  assert (St : exists r, Ret (Some (i, d, o)) = Ret r /\ forall j d' o', r = Some (j, d', o') -> (j <= i + S (length s))%nat) by (eexists; split; [done|]; intros j d' o' [= <- _ _]; lia).
  case_bool; [case_bool; [by exists None|]; case_bool; [done|apply G]|]. destruct (is_digit c); [apply G|done].
Qed.
Lemma ipv4_safe : within (r_parser_ipv4 str).
Proof.
  unfold r_parser_ipv4. destruct (ipv4_loop_ok rest 0 0 (-1)) as ([[[j d] o]|] & -> & L); cbn [obind]; [|apply within_none]. case_bool; [apply within_none|]. apply within_plain. by apply (L j d o).
Qed.
Lemma ipv6_loop_ok (s : bytes) t : exists r, ipv6_loop (s ++ 0 :: junk) t = Ret r /\ forall u, r = Some u -> (v6_len u <= v6_len t + length s)%nat.
Proof.
  revert t. induction s as [|c s IH]; intros t; simpl; [exists (Some t); split; [done|]; intros u [= <-]; lia|].
  assert (G : forall t', v6_len t' = S (v6_len t) -> exists r, ipv6_loop (s ++ 0 :: junk) t' = Ret r /\ forall u, r = Some u -> (v6_len u <= v6_len t + S (length s))%nat).
  { intros t' E. destruct (IH t') as (r & -> & L). exists r. split; [done|]. intros u Hu. specialize (L u Hu). lia. }
  assert (St : forall t', v6_len t' = v6_len t -> exists r, Ret (Some t') = Ret r /\ forall u, r = Some u -> (v6_len u <= v6_len t + S (length s))%nat) by (intros t' E; eexists; split; [done|]; intros u [= <-]; lia).
  repeat match goal with |- context [if ?b then _ else _] => destruct b end; first [by exists None|by apply St|by apply G].
Qed.
Lemma rd_back_ok prev i k : (2 <= length prev)%nat -> (i <= len)%nat -> (k <= 2)%nat -> exists c, rd_back prev str i k = Ret c.
Proof.
  intros Hp Hi Hk. unfold rd_back. case_bool; [destruct (rd_ok (i - k) ltac:(lia)) as (c & ? & _); by exists c|]. unfold rd. destruct (lookup_lt_is_Some_2 prev (k - i - 1) ltac:(lia)) as [c ->]. by exists c.
Qed.
Lemma ipv6_safe prev : (2 <= length prev)%nat -> within (r_parser_ipv6 prev str).
Proof.
  intros Hp. unfold r_parser_ipv6. destruct (ipv6_loop_ok rest (mkV6 0 0 0 0 16 false)) as ([u|] & -> & L); cbn [obind]; [|apply within_none]. specialize (L u eq_refl). simpl in L.
  destruct (rd_back_ok prev (v6_len u) 1 Hp L ltac:(lia)) as (c1 & ->). cbn [obind].
  assert (B : forall x : Z * Z * Z, (let '(n, _, _) := x in n <= Z.of_nat (v6_len u)) -> within (let! (n, dots, colons) := Ret x in
    if bool_decide (colons < 2 \/ colons > 7 \/ v6_digit u = 10 /\ v6_octet u > 255 \/ v6_digit u = 16 /\ v6_octet u > 0xffff \/ ~ (dots = 0 \/ dots = 3))
       || (negb (v6_shortened u) && bool_decide (colons < 7 /\ dots = 0)) then no_match else plain (Z.to_nat n))).
  { intros [[n d] co] Hn. cbn [obind]. destruct (_ || _); [apply within_none|]. apply within_plain. lia. }
  case_bool; [apply (B (_, _, _)); lia|]. case_bool; [|apply (B (_, _, _)); lia]. destruct (rd_back_ok prev (v6_len u) 2 Hp L ltac:(lia)) as (c2 & ->). cbn [obind]. apply B. case_bool; lia.
Qed.
Lemma ip_safe prev : (2 <= length prev)%nat -> within (r_parser_ip prev str).
Proof. intros Hp. unfold r_parser_ip. destruct ipv4_safe as (r & -> & L). cbn [obind]. destruct r as [m|]; [by exists (Some m)|by apply ipv6_safe]. Qed.

Lemma float_digits_ok dot (s : bytes) : exists n, float_digits dot (s ++ 0 :: junk) = Ret n /\ (n <= length s)%nat.
Proof.
  revert dot. induction s as [|c s IH]; intros dot; simpl; [rewrite andb_false_r; exists O; split; [done|lia]|].
  destruct (is_digit c); [destruct (IH dot) as (n & -> & ?); exists (S n); split; [done|lia]|]. destruct (_ && _); [destruct (IH true) as (n & -> & ?); exists (S n); split; [done|lia]|exists O; split; [done|lia]].
Qed.
Lemma minus_ok i : (i <= len)%nat -> exists j, minus str i = Ret j /\ (i <= j <= len)%nat.
Proof. intros H. unfold minus. destruct (rd_ok i H) as (c & -> & Nc & _). cbn [obind]. eexists. split; [done|]. case_bool; [specialize (Nc ltac:(lia)); lia|lia]. Qed.
Lemma float_safe : within (r_parser_float str).
Proof.
  unfold r_parser_float. destruct (minus_ok 0 ltac:(lia)) as (i & -> & Hi). cbn [obind]. rewrite drop_app_le by lia. destruct (float_digits_ok false (drop i rest)) as (n & -> & Hn). cbn [obind].
  rewrite length_drop in Hn. destruct (rd_ok (i + n) ltac:(lia)) as (c & -> & Nc & _). cbn [obind].
  destruct (bool_decide (0 < i + n)%nat && bool_decide (c = 101 \/ c = 69)) eqn:E; [|cbn [obind]; case_bool; [apply within_plain; lia|apply within_none]].
  apply andb_true_iff in E as [_ E%bool_decide_eq_true]. specialize (Nc ltac:(lia)). destruct (minus_ok (i + n + 1) ltac:(lia)) as (j & -> & Hj). cbn [obind].
  destruct (skip_ok is_digit j eq_refl ltac:(lia)) as (k & -> & Hk). cbn [obind]. case_bool; [apply within_plain; lia|apply within_none].
Qed.
Lemma number_safe : within (r_parser_number str).
Proof.
  unfold r_parser_number. assert (Z0 : forall a, a <> 0 -> Forall (fun c => c <> 0) [48; a]) by (intros; repeat constructor; lia).
  destruct (has_prefix_ok (bytes_of_string "0x") rest (Z0 120 ltac:(lia))) as (h1 & -> & L1). cbn [obind].
  destruct (has_prefix_ok (bytes_of_string "0X") rest (Z0 88 ltac:(lia))) as (h2 & E2 & L2).
  assert (H : exists h, (if h1 then Ret true else has_prefix str (bytes_of_string "0X")) = Ret h /\ (h = true -> (2 <= len)%nat)) by (destruct h1; [exists true; split; [done|]; intros _; by apply L1|rewrite E2; by exists h2]).
  destruct H as (h & -> & L). cbn [obind]. destruct h.
  - destruct (skip_ok is_xdigit 2 eq_refl (L eq_refl)) as (n & -> & Hn). cbn [obind]. case_bool; [apply within_plain; lia|apply within_none].
  - destruct (minus_ok 0 ltac:(lia)) as (i & -> & Hi). cbn [obind]. destruct (skip_ok is_digit i eq_refl ltac:(lia)) as (n & -> & Hn). cbn [obind]. case_bool; [apply within_plain; lia|apply within_none].
Qed.
End strings.

(** * Pattern databases: what is inserted is what is found *)

Section claims.
Context {R V : Type}.
Variable pcre_compile : bytes -> option R.
Variable pcre_exec : R -> bytes -> Z * (Z * Z).
Variable value_handle : bytes -> Z.
Abbreviation node := (RNode R V).
Abbreviation new_pnode := (r_new_pnode pcre_compile value_handle).
Abbreviation tokens := (tokens pcre_compile value_handle).

(** Parsers without the defects named above. *)
Definition safe_kind (p : RParserNode R) : Prop :=
  match pn_parse p with
  | PSet | PEmail => False
  | PEstringC => pn_param p <> Some []
  | PPcre => pn_state p <> StNull
  | _ => True
  end.
(** What [pcre_exec] returns lies in the text. *)
Definition pcre_in_text : Prop := forall re s rc m0 m1, pcre_exec re s = (rc, (m0, m1)) -> 0 < rc -> 0 <= m0 <= m1 /\ m1 <= lenZ s.

Lemma split_at_forall (P : Z -> Prop) c s a b : split_at c s = Some (a, b) -> Forall P s -> Forall P a /\ Forall P b.
Proof. intros [-> _]%split_at_some [Ha [_ Hb]%Forall_cons]%Forall_app. done. Qed.
Lemma strsplit_forall (P : Z -> Prop) s : Forall P s -> Forall (Forall P) (g_strsplit3 s).
Proof.
  intros H. unfold g_strsplit3. destruct s as [|x s]; [constructor|]. destruct (split_at 58 (x :: s)) as [[a r]|] eqn:E; [|constructor; [done|constructor]].
  destruct (split_at_forall P _ _ _ _ E H) as [Ha Hr]. destruct (split_at 58 r) as [[b r']|] eqn:E2; [|by repeat constructor].
  destruct (split_at_forall P _ _ _ _ E2 Hr). by repeat constructor.
Qed.
Lemma pnode_param spec p : ascii spec -> new_pnode spec = Ret (Some p) -> forall a, pn_param p = Some a -> ascii a.
Proof.
  intros A H a Ha. unfold r_new_pnode in H. pose proof (strsplit_forall _ _ A) as F. destruct (g_strsplit3 spec) as [|name params]; [done|].
  destruct (bool_decide (_ /\ _)); cbn [negb g_assert obind] in H; [done|]. destruct (pnode_kind _ _ _) as [[[f st] [fi la]]|]; [|done]. simplify_eq/=. apply Forall_cons in F as [_ F]. rewrite Forall_forall in F. apply F. by eapply list_elem_of_lookup_2.
Qed.
Lemma ascii_nonzero a : ascii a -> Forall (fun c => c <> 0) a.
Proof. intros A. eapply Forall_impl; [exact A|]. simpl. lia. Qed.
Lemma deref_nonzero a : ascii a -> deref a <> 0 <-> a <> [].
Proof. intros A. destruct a as [|c a]; [done|]. apply Forall_cons in A as [? _]. simpl. split; [done|lia]. Qed.

Lemma safe_parser spec p : pcre_in_text -> ascii spec -> new_pnode spec = Ret (Some p) -> safe_kind p -> parser_safe pcre_exec p.
Proof.
  intros HP A H K hm prev rest junk Hrest Ne Hprev Hfirst. pose proof (pnode_param _ _ A H) as Pa. apply new_pnode_inv in H.
  fold (within rest (parse pcre_exec p hm prev (rest ++ 0 :: junk))). unfold safe_kind in K. unfold parse. destruct (pn_parse p) eqn:Ef; cbn [shape] in H; try done.
  - apply string_safe.
  - assert (Ea : exists a, (pn_param p = Some a \/ a = []) /\ pn_first p = deref a /\ pn_last p = deref a /\ pn_state p = StChar (if bool_decide (length a = 2%nat) then default 0 (a !! 1%nat) else deref a)).
    { exists (default [] (pn_param p)). rewrite H. cbn [pn_param pn_first pn_last pn_state]. split_and!; [|done..]. destruct (pn_param p); [by left|by right]. }
    destruct Ea as (a & Ha & E1 & E2 & ->). assert (Aa : ascii a) by (destruct Ha as [?| ->]; [by apply Pa|constructor]).
    apply qstring_safe; [done| |done]. assert (D : deref a <> 0). { destruct rest as [|c s]; [done|]. apply Forall_cons in Hrest as [Hc _]. simpl in Hfirst. lia. }
    case_bool; [|done]. destruct a as [|x [|y [|]]]; try done. simpl. apply Forall_cons in Aa as [_ [? _]%Forall_cons]. lia.
  - destruct (pn_param p) as [a|] eqn:Ep; [|apply within_none]. apply estring_c_safe. apply deref_nonzero; [by apply Pa|congruence].
  - destruct (pn_param p) as [a|] eqn:Ep; [|apply within_none]. rewrite H. cbn [pn_state default]. by apply estring_safe, ascii_nonzero, Pa.
  - apply ipv4_safe.
  - apply number_safe.
  - apply anystring_safe.
  - by apply ipv6_safe.
  - by apply ip_safe.
  - apply float_safe.
  - apply lladdr_safe.
  - unfold r_parser_pcre. destruct (pn_state p) as [|n|c|re] eqn:Es; [done|rewrite H in Es; cbn [pn_state] in Es; unfold r_parser_pcre_compile_state in Es; by case_match..|].
    destruct (count_while_ok junk (fun c => bool_decide (c <> 0)) rest ltac:(done)) as (n & -> & L). cbn [obind]. destruct (pcre_exec re (take n _)) as [rc [m0 m1]] eqn:Ex.
    case_bool; [apply within_none|]. destruct (HP _ _ _ _ _ Ex ltac:(lia)) as [? B]. apply within_plain. rewrite lenZ_take in B. lia.
  - apply hostname_safe.
  - apply lladdr_safe.
Qed.

(** ** Building the tree *)

Definition new_root : node := r_new_node (Some []) None.
Fixpoint insert_all (t : node) (rules : list (bytes * V)) : outcome (node * list (option rerr)) :=
  match rules with
  | [] => Ret (t, [])
  | (key, v) :: rules =>
      let! (t, e) := r_insert_node pcre_compile value_handle t key v in
      let! (t, es) := insert_all t rules in
      Ret (t, e :: es)
  end.

(** The patterns of a list of rules, the first one with a pattern counts. *)
Definition holds (rules : list (bytes * V)) (q : list tok) (v : V) : Prop :=
  exists before key after, rules = before ++ (key, v) :: after /\ tokens key q /\ forall k w, (k, w) ∈ before -> ~ tokens k q.

Section build.
Variable allowed : bytes -> Prop.
Abbreviation wf := (@wf R V pcre_compile value_handle allowed).
Definition rule_ok (r : bytes * V) : Prop := r.1 <> [] /\ text_ok allowed r.1.

Lemma insert_node_ok (t : node) (key : bytes) (v : V) : wf t -> n_bytes t = [] -> rule_ok (key, v) ->
  exists t' e, r_insert_node pcre_compile value_handle t key v = Ret (t', e) /\ wf t' /\ n_bytes t' = [] /\ adds pcre_compile value_handle (spells t) (spells t') key v e.
Proof.
  intros W B [Ne Ok]. unfold r_insert_node. destruct (insert_loop_ok pcre_compile value_handle allowed (2 * length key + 2 + height t) v) as [H _].
  destruct (H t key W Ok Ne ltac:(auto) ltac:(lia)) as (t' & e & -> & W' & K & _ & A). exists t', e. split_and!; [done..| |done]. unfold n_bytes in *. by rewrite K.
Qed.

(** The tree holds the rules [don]. *)
Record tree_of (don : list (bytes * V)) (t : node) : Prop := {
  to_wf : wf t; to_root : n_bytes t = [];
  to_spells : forall q v, spells t q v <-> holds don q v;
  to_covers : forall q k w, (k, w) ∈ don -> tokens k q -> exists v, spells t q v }.

Lemma tree_of_new : tree_of [] new_root.
Proof.
  split; [apply wf_leaf|done| |set_solver]. intros q v. split; [|intros ([|] & ? & ? & ? & _); done].
  intros [[_ ?]|[(c & H & _)|(c & ? & ? & H & _)]]%spells_cases; [done|simpl in H; set_solver..].
Qed.
Lemma tree_of_none don t q : tree_of don t -> (forall w, ~ spells t q w) <-> forall k w, (k, w) ∈ don -> ~ tokens k q.
Proof.
  intros [_ _ S C]. split.
  - intros N k w Hk Ht. destruct (C q k w Hk Ht) as [v Hv]. by apply (N v).
  - intros N w (b & k & a & -> & Hk & _)%S. apply (N k w); [set_solver|done].
Qed.
Lemma holds_snoc don key v q w : holds (don ++ [(key, v)]) q w <-> holds don q w \/ tokens key q /\ w = v /\ forall k w', (k, w') ∈ don -> ~ tokens k q.
Proof.
  split.
  - intros (b & k & a & E & Hk & N). destruct (decide (a = [])) as [->|Na].
    + apply app_inj_tail in E as [-> [= -> ->]]. by right.
    + destruct (exists_last Na) as (a' & x & ->). rewrite app_comm_cons, app_assoc in E. apply app_inj_tail in E as [-> _]. left. by exists b, k, a'.
  - intros [(b & k & a & -> & H)|(Hk & -> & N)]; [exists b, k, (a ++ [(key, v)]); split; [by rewrite <- app_assoc|done]|by exists don, key, []].
Qed.
Lemma insert_tree_of don t key v : tree_of don t -> rule_ok (key, v) ->
  exists t' e, r_insert_node pcre_compile value_handle t key v = Ret (t', e) /\ tree_of (don ++ [(key, v)]) t' /\
    (e = None <-> exists q, tokens key q /\ forall k w, (k, w) ∈ don -> ~ tokens k q).
Proof.
  intros T Ok. pose proof T as [W B S C]. destruct (insert_node_ok t key v W B Ok) as (t' & e & -> & W' & B' & A & E). exists t', e. split; [done|].
  split; [split; [done..| |]|].
  - intros q w. rewrite A, holds_snoc, S. by rewrite (tree_of_none don t q T).
  - intros q k w [Hk|[= -> ->]%list_elem_of_singleton]%elem_of_app Ht; [destruct (C q k w Hk Ht) as [w' ?]; exists w'; apply A; by left|].
    destruct e as [e|]; [destruct (E q Ht) as [w' ?]; exists w'; apply A; by left|]. destruct E as (q' & Hq & N). assert (q' = q) as -> by (by eapply tokens_functional). exists v. apply A. by right.
  - destruct e as [e|].
    + split; [done|]. intros (q & Hq & N). destruct (E q Hq) as [w Hw]. exfalso. by apply (proj2 (tree_of_none don t q T) N w).
    + split; [|done]. intros _. destruct E as (q & Hq & N). exists q. split; [done|]. by apply (tree_of_none don t q T).
Qed.

Lemma insert_all_ok (rules don : list (bytes * V)) (t : node) : Forall rule_ok rules -> tree_of don t ->
  exists t' es, insert_all t rules = Ret (t', es) /\ tree_of (don ++ rules) t' /\ length es = length rules /\
    (forall i key v, rules !! i = Some (key, v) -> es !! i = Some None <-> exists q, tokens key q /\ forall k w, (k, w) ∈ don ++ take i rules -> ~ tokens k q).
Proof.
  intros F. revert t don. induction F as [|[key v] rules Ok F IH]; intros t don T; [exists t, []; rewrite app_nil_r; by split_and!|].
  cbn [insert_all]. destruct (insert_tree_of don t key v T Ok) as (t1 & e & -> & T1 & E1). cbn [obind].
  destruct (IH t1 _ T1) as (t2 & es & -> & T2 & L2 & E2). cbn [obind]. exists t2, (e :: es). rewrite <- app_assoc in T2. split_and!; [done|done|simpl; lia|].
  intros [|i] key' v' Hi; simpl in Hi; [simplify_eq; simpl take; rewrite app_nil_r, <- E1; simpl; split; congruence|]. simpl. rewrite (E2 i key' v' Hi), <- app_assoc. done.
Qed.
End build.

(** ** Claims *)

(** The rules: ASCII text, not empty, with parsers that stay inside the string; PCRE has parameters. *)
Definition allowed (spec : bytes) : Prop := ascii spec /\ forall p, new_pnode spec = Ret (Some p) -> safe_kind p.
Definition good_rule (r : bytes * V) : Prop :=
  r.1 <> [] /\ ascii r.1 /\ forall a spec b, r.1 = a ++ 64 :: spec ++ 64 :: b -> spec <> [] -> 64 ∉ spec -> spec <> bytes_of_string "PCRE" /\ forall p, new_pnode spec = Ret (Some p) -> safe_kind p.
Lemma good_rule_ok r : good_rule r -> rule_ok allowed r.
Proof.
  intros (Ne & A & H). split; [done|]. split; [done|]. intros a spec b E Hs Hn. destruct (H a spec b E Hs Hn) as [Np Sk]. split; [|done]. split; [|done]. rewrite E in A. apply Forall_app in A as [_ [_ [A _]%Forall_app]%Forall_cons]. done.
Qed.

(** C29: Inserting rules one after the other into an empty tree ends with a
    well-formed tree that holds exactly the patterns of the rules, each with the
    value of the first rule that has it.  An insertion reports an error exactly
    when its text is not a pattern or an earlier rule has the same pattern.
    The rules are not empty and contain only ASCII: a child that starts with a byte
    above 127 is not found again ([radix_high_byte_lost]), so of patterns in UTF-8
    some are lost and duplicates are not noticed.  PCRE without any
    parameter is left out too, its third one is read from behind the list. *)
Theorem radix_insert_refines (rules : list (bytes * V)) :
  Forall (rule_ok (fun _ => True)) rules ->
  exists t es, insert_all new_root rules = Ret (t, es) /\ wf pcre_compile value_handle (fun _ => True) t /\
    (forall q v, spells t q v <-> holds rules q v) /\ (forall q v w, spells t q v -> spells t q w -> v = w) /\ length es = length rules /\
    (forall i key v, rules !! i = Some (key, v) -> es !! i = Some None <-> exists q, tokens key q /\ forall k w, (k, w) ∈ take i rules -> ~ tokens k q).
Proof.
  intros F. destruct (insert_all_ok (fun _ => True) rules [] new_root F (tree_of_new _)) as (t & es & H & [W _ S _] & L & E).
  exists t, es. split_and!; [done..| |done|done]. intros q v w. by apply (spells_functional pcre_compile value_handle (fun _ => True)).
Qed.

(** The parsers that [r_new_pnode] makes, given a key that ends with a zero
    byte, read nothing past that byte and take no more bytes than the key has,
    whatever the bytes are.  Left out are SET and EMAIL, an ESTRING without
    an end mark and a PCRE that does not compile. *)
Theorem radix_parsers_in_bounds (spec : bytes) (p : RParserNode R) :
  pcre_in_text -> ascii spec -> new_pnode spec = Ret (Some p) -> safe_kind p ->
  forall hm prev rest junk, plain_text rest -> rest <> [] -> (2 <= length prev)%nat -> pn_first p <= deref rest <= pn_last p ->
  exists r, parse pcre_exec p hm prev (rest ++ 0 :: junk) = Ret r /\ forall m, r = Some m -> (m_take m <= length rest)%nat.
Proof. exact (safe_parser spec p). Qed.

(** C30: A search in the tree of a list of rules returns the value of a rule whose
    pattern reads the whole key when there is one, otherwise of one whose
    pattern reads a beginning of the key, and nothing when no pattern does.  The
    matches it stores are those of the parsers of that pattern, in order.
    The rules are as for the insertion, and those with SET, EMAIL, an ESTRING without an
    end mark or a PCRE that does not compile are left out: these parsers step over
    the end of the key ([set_runs_away], [email_runs_away]) or use a NULL state.  The key has
    no zero byte in it and two bytes before it in memory, which the
    parser of IPv6 addresses may look at; PCRE is asked to report matches inside the text. *)
Theorem radix_lookup (rules : list (bytes * V)) (before key junk : bytes) (ms0 : option (list RParserMatch)) :
  let hm := match ms0 with Some _ => true | None => false end in
  pcre_in_text -> Forall good_rule rules -> (2 <= length before)%nat -> plain_text key ->
  exists t es r ms', insert_all new_root rules = Ret (t, es) /\ r_find_node pcre_exec before (key ++ 0 :: junk) t (lenZ key) ms0 = Ret (r, ms') /\
    match r with
    | Some n => exists q v pos ms, n_value n = Some v /\ holds rules q v /\ reads pcre_exec before key junk hm 0 q pos ms /\ ms' = with_matches ms0 ms /\
        (pos = length key \/ forall q v ms, holds rules q v -> ~ reads pcre_exec before key junk hm 0 q (length key) ms)
    | None => ms' = ms0 /\ forall q v pos ms, holds rules q v -> ~ reads pcre_exec before key junk hm 0 q pos ms
    end.
Proof.
  intros hm HP F Hb Hk. assert (F' : Forall (rule_ok allowed) rules) by (eapply Forall_impl; [exact F|apply good_rule_ok]).
  destruct (insert_all_ok allowed rules [] new_root F' (tree_of_new _)) as (t & es & Ht & [W B S _] & _). exists t, es.
  assert (Sf : forall p, made pcre_compile value_handle allowed p -> parser_safe pcre_exec p) by (intros p (spec & Hs & A & Ok); apply (safe_parser spec p); auto).
  unfold r_find_node, _find_node_with_state. cbn [stored_matches dbg_list applicable_nodes].
  assert (En : enters key t 0) by (split; [by left|lia]). assert (Sa : forall q v, spells_at t q v <-> holds rules q v).
  { intros q v. rewrite <- S. unfold spells_at. rewrite B. split; [by intros (? & -> & ?)|by exists q]. }
  assert (Fi : forall b pf d, finds pcre_exec before key junk hm (_find_node_recursively pcre_exec before (key ++ 0 :: junk) (height t) (mkFind b pf ms0 d None) t 0 (lenZ key)) (spells_at t) 0 (mkFind b pf ms0 d None)).
  { intros b pf d. unfold lenZ. replace (length key) with (length key - 0)%nat at 1 by lia. by eapply (find_ok pcre_compile pcre_exec value_handle allowed). }
  destruct (Fi true false None) as (r & s2 & -> & [Kr Ka _] & H). cbn [obind require_complete_match applicable_nodes stored_matches] in *. destruct r as [n|].
  - exists (Some n), (stored_matches s2). split_and!; [done..|]. destruct H as (q & v & pos & ms & Hq & Hv & Hr & Hc & E). apply Sa in Hq. rewrite (Hc Kr) in Hr. exists q, v, (length key), ms. split_and!; [done..|by left].
  - destruct H as [E M]. destruct (partial_match_found s2) eqn:Ep.
    + rewrite E, Ka. destruct (Fi false true (dbg_list s2)) as (r & s3 & -> & [Kr3 _ _] & H). cbn [obind require_complete_match stored_matches] in *. exists r, (stored_matches s3). split_and!; [done..|].
      assert (No : forall q v ms, holds rules q v -> ~ reads pcre_exec before key junk hm 0 q (length key) ms) by (intros q v ms Hq Hr; destruct (M q v (length key) ms) as (_ & ? & _); [by apply Sa|done|lia]).
      destruct r as [n|].
      * destruct H as (q & v & pos & ms & Hq & Hv & Hr & _ & E3). apply Sa in Hq. exists q, v, pos, ms. split_and!; [done..|by right].
      * destruct H as [E3 M3]. split; [done|]. intros q v pos ms Hq Hr. destruct (M3 q v pos ms) as (? & _ & _); [by apply Sa|done|congruence].
    + cbn [obind]. exists None, ms0. rewrite E. split_and!; [done..|]. intros q v pos ms Hq Hr. destruct (M q v pos ms) as (_ & _ & ?); [by apply Sa|done|congruence].
Qed.
End claims.

(** ** Bytes above 127 *)

(** No child is found for such a byte: it is compared as a signed [char]. *)
Lemma high_byte_no_child {R V} (n : RNode R V) (x : Z) : 128 <= x < 256 -> Forall (fun c => 0 <= n_first c) (n_children n) -> r_find_child_by_first_character n x = None.
Proof.
  intros Hx F. unfold r_find_child_by_first_character, s8. rewrite bool_decide_eq_false_2 by lia. generalize (S (length (n_children n))) as fuel. intros fuel.
  generalize O as l, (length (n_children n)) as u. induction fuel as [|fuel IH]; intros l u; [done|]. cbn [child_search]. case_bool; [|done].
  destruct (n_children n !! ((l + u) / 2)%nat) as [c|] eqn:E; [|done]. rewrite Forall_forall in F. specialize (F c (list_elem_of_lookup_2 _ _ _ E)). rewrite bool_decide_eq_true_2 by lia. apply IH.
Qed.

(** A pattern whose first byte is above 127, as any UTF-8 text that starts with a
    letter outside ASCII, is inserted without an error and never found again: the
    search for the very same text returns nothing. *)
Theorem radix_high_byte_lost {R V} (pcre_compile : bytes -> option R) (pcre_exec : R -> bytes -> Z * (Z * Z)) (value_handle : bytes -> Z) (before : bytes) (x : Z) (s : bytes) (v : V) :
  128 <= x < 256 -> 64 ∉ s ->
  exists t, r_insert_node pcre_compile value_handle new_root (x :: s) v = Ret (t, None) /\ r_find_node pcre_exec before ((x :: s) ++ [0]) t (lenZ (x :: s)) None = Ret (None, None).
Proof.
  intros Hx Ns. set (c := r_new_node (Some (x :: s)) (Some v) : RNode R V). exists (mkNode (Some []) None None [c] []).
  assert (Sp : split_at 64 (x :: s) = None).
  { destruct (split_at 64 (x :: s)) as [[a b]|] eqn:E; [|done]. apply split_at_some in E as [E _]. exfalso. assert (H : 64 ∈ x :: s) by (rewrite E; set_solver). apply elem_of_cons in H as [?|?]; [lia|done]. }
  split.
  - unfold r_insert_node. rewrite Nat.add_comm. simpl height. rewrite Nat.add_succ_l. cbn [insert_loop]. rewrite bool_decide_eq_false_2 by (simpl; lia).
    simpl common_prefix. rewrite bool_decide_eq_true_2 by (by left). change (drop 0 (x :: s)) with (x :: s). simpl deref. rewrite high_byte_no_child by (done || constructor). unfold r_add_child_check. by rewrite Sp.
  - unfold r_find_node, _find_node_with_state. simpl height. cbn [_find_node_recursively]. unfold _find_matching_literal_prefix. rewrite bool_decide_eq_true_2 by done. cbn [obind].
    rewrite bool_decide_eq_false_2 by (rewrite lenZ_cons; pose proof (lenZ_nonneg s); simpl; lia). rewrite bool_decide_eq_true_2 by (left; done).
    unfold _find_child_by_remaining_key. change (rd ((x :: s) ++ [0]) (0 + 0)) with (Ret x). cbn [obind]. rewrite high_byte_no_child; [done|done|]. apply Forall_cons. split; [|constructor]. change (0 <= x). lia.
Qed.

(** ** Witnesses and defects *)

Module RadixDemo.
Definition no_pcre : bytes -> option unit := fun _ => None.
Definition never : unit -> bytes -> Z * (Z * Z) := fun _ _ => (0, (0, 0)).
Definition handles : bytes -> Z := lenZ.
Definition rules : list (bytes * Z) := [(bytes_of_string "n@NUMBER@", 1); (bytes_of_string "n1", 2)].
Definition twice : list (bytes * Z) := [(bytes_of_string "a@NUMBER:n@", 1); (bytes_of_string "a@@", 2); (bytes_of_string "a@NUMBER:n@", 3); (bytes_of_string "a@", 4)].

Ltac bytes_ok := unfold ascii, plain_text; match goal with |- Forall ?P ?l => apply (bool_decide_unpack (Forall P l)); vm_compute; exact I end.
(** Each parser in a concrete text. *)
Ltac each_spec := simpl; intros a spec b E Hs Hn; repeat (destruct a as [|? a]; simplify_eq/=); repeat (destruct spec as [|? spec]; simplify_eq/=); try (exfalso; set_solver).
Lemma rules_plain : Forall (rule_ok (fun _ => True)) twice.
Proof. repeat (apply Forall_cons; split; [split; [done|split; [bytes_ok|each_spec; by split]]|]). by apply Forall_nil. Defined.
Lemma rules_good : Forall (good_rule no_pcre handles) rules.
Proof.
  repeat (apply Forall_cons; split; [split; [done|split; [bytes_ok|]]|]); [| |by apply Forall_nil]; each_spec; (split; [done|]);
    vm_compute; intros ? ?; by simplify_eq.
Defined.
Lemma never_in_text : pcre_in_text never.
Proof. intros re s rc m0 m1 [= <- <- <-] ?. lia. Defined.

(** The rules are inserted one by one; the third is reported, the fourth too. *)
Lemma radix_insert_refines_witness : exists t es, insert_all no_pcre handles new_root twice = Ret (t, es) /\ es = [None; None; Some EDuplicate; Some EUnescaped] /\ wf no_pcre handles (fun _ => True) t.
Proof.
  destruct (radix_insert_refines no_pcre handles twice rules_plain) as (t & es & E & W & _). exists t, es. split; [done|]. split; [|done].
  vm_compute in E. injection E as _ E. by rewrite <- E.
Defined.
Lemma radix_parsers_in_bounds_witness : exists r, parse never (mkPNode (Some (bytes_of_string "x")) StNull 0 255 0 1 PString) true [0; 0] (bytes_of_string "ax" ++ [0]) = Ret r /\ forall m, r = Some m -> (m_take m <= 2)%nat.
Proof.
  apply (radix_parsers_in_bounds no_pcre never handles (bytes_of_string "STRING:s:x") (mkPNode (Some (bytes_of_string "x")) StNull 0 255 0 1 PString) never_in_text ltac:(bytes_ok) eq_refl I true [0; 0] (bytes_of_string "ax") []); [bytes_ok|done|simpl; lia|split; vm_compute; done].
Defined.
Lemma radix_lookup_witness : exists t es r ms', insert_all no_pcre handles new_root rules = Ret (t, es) /\
  r_find_node never [0; 0] (bytes_of_string "n1" ++ [0]) t (lenZ (bytes_of_string "n1")) (Some []) = Ret (r, ms') /\ (n_value <$> r) = Some (Some 2).
Proof.
  destruct (radix_lookup no_pcre never handles rules [0; 0] (bytes_of_string "n1") [] (Some []) never_in_text rules_good ltac:(simpl; lia) ltac:(bytes_ok)) as (t & es & r & ms' & E & F & _).
  exists t, es, r, ms'. split; [done|]. split; [done|]. vm_compute in E. injection E as E _. subst t. vm_compute in F. injection F as F _. by subst r.
Defined.
Lemma radix_high_byte_lost_witness : exists t, r_insert_node no_pcre handles new_root [195; 169] 1 = Ret (t, None) /\ r_find_node never [] [195; 169; 0] t 2 None = Ret (None, None).
Proof. apply (radix_high_byte_lost no_pcre never handles [] 195 [169] 1); [lia|set_solver]. Defined.

Definition tree (text : string) : RNode unit Z := match r_insert_node no_pcre handles new_root (bytes_of_string text) 1 with Ret (t, _) => t | Abort => new_root end.
Definition lookup (text key : string) (after : bytes) : outcome (option (option Z) * option (list RParserMatch)) :=
  let! (r, ms) := r_find_node never [0; 0] (bytes_of_string key ++ 0 :: after) (tree text) (lenZ (bytes_of_string key)) (Some []) in Ret (n_value <$> r, ms).

(** A SET at the end of the key takes the terminator, and what follows it in
    memory, into its match, or runs out of the memory. *)
Example set_takes_terminator : lookup "s@SET:a:xy@" "sxy" [120; 1] = Ret (Some (Some 1), Some [mkRMatch None 1 4 1 9]).
Proof. reflexivity. Qed.
Example set_runs_away : lookup "s@SET:a:xy@" "sxy" [] = Abort.
Proof. reflexivity. Qed.
(** EMAIL looks for an [@] behind the terminator. *)
Example email_runs_away : lookup "s@EMAIL:a@" "sfoo" [] = Abort.
Proof. reflexivity. Qed.
(** Without matches to store, EMAIL writes through a NULL pointer. *)
Example email_needs_matches : r_find_all_applicable_nodes never [0; 0] (bytes_of_string "sa@b.c" ++ [0]) (tree "s@EMAIL:a@") 6 (fun _ => []) = Abort.
Proof. reflexivity. Qed.
(** An ESTRING with an empty end mark takes the terminator. *)
Example estring_takes_terminator : lookup "s@ESTRING:a:@" "sxy" [] = Abort.
Proof. reflexivity. Qed.
(** A PCRE that does not compile is inserted, and a search goes through NULL. *)
Example bad_pcre_aborts : lookup "s@PCRE:a:(@" "sxy" [] = Abort.
Proof. reflexivity. Qed.
(** PCRE without parameters: the third one is read from behind the list. *)
Example bare_pcre_reads_behind : r_insert_node no_pcre handles (new_root : RNode unit Z) (bytes_of_string "s@PCRE@") 1 = Abort.
Proof. reflexivity. Qed.
(** The octets of an address wrap around. *)
Example ipv4_wraps : r_parser_ipv4 (bytes_of_string "4294967297.1.1.1" ++ [0]) = plain 16.
Proof. reflexivity. Qed.
(** The byte before the string is read. *)
Example ipv6_reads_before : r_parser_ipv6 [] (bytes_of_string "x" ++ [0]) = Abort.
Proof. reflexivity. Qed.
End RadixDemo.
