(* ===== verification/LogMsgData.v ===== *)
(** * Values, tags and structured data of a message (lib/logmsg.c, lib/tags.c)

    A message points to its name-value table, to the array of its tags and to the
    array of its structured data, and a clone has the pointers of its original
    until it is changed.  So there is a store of these blocks, addressed by
    positive numbers, and a message says with its flags which of them are its
    own.  Using a block that was freed or moved, or reading outside of an array,
    is [Abort].  The counters of references are in [LogMsgRef]. *)
From S2P Require Import Prelude CString NVTable NVRegistry.

(** ** The store *)

Record store := mkStore { s_tables : gmap Z NVTable; s_words : gmap Z (list Z); s_handles : gmap Z (list Z); s_next : Z }.
Definition get {A} (m : gmap Z A) (p : Z) : outcome A := match m !! p with Some a => Ret a | None => Abort end.
Definition put_table (st : store) (p : Z) (t : NVTable) : store := mkStore (<[p := t]> (s_tables st)) (s_words st) (s_handles st) (s_next st).
Definition put_words (st : store) (p : Z) (l : list Z) : store := mkStore (s_tables st) (<[p := l]> (s_words st)) (s_handles st) (s_next st).
Definition put_handles (st : store) (p : Z) (l : list Z) : store := mkStore (s_tables st) (s_words st) (<[p := l]> (s_handles st)) (s_next st).
Definition free_table (st : store) (p : Z) : store := mkStore (delete p (s_tables st)) (s_words st) (s_handles st) (s_next st).
Definition free_words (st : store) (p : Z) : store := mkStore (s_tables st) (delete p (s_words st)) (s_handles st) (s_next st).
Definition free_handles (st : store) (p : Z) : store := mkStore (s_tables st) (s_words st) (delete p (s_handles st)) (s_next st).
Definition fresh (st : store) : Z * store := (s_next st, mkStore (s_tables st) (s_words st) (s_handles st) (s_next st + 1)).

(** ** The message *)

Definition LM_V_MAX : Z := 9.
Definition LM_V_PROGRAM : Z := 4.
Definition LM_V_PID : Z := 5.
Definition LM_VF_SDATA : Z := 1.
Definition LM_VF_MACRO : Z := 4.
Definition LF_STATE_MASK : Z := 0xFFF0.
Definition LF_STATE_OWN_PAYLOAD : Z := 0x10.
Definition LF_STATE_OWN_TAGS : Z := 0x40.
Definition LF_STATE_OWN_SDATA : Z := 0x80.
Definition LF_STATE_OWN_MASK : Z := 0xF0.
Definition LF_STATE_REFERENCED : Z := 0x100.
Definition LF_LEGACY_MSGHDR : Z := 0x20000.

(** [msg_tags] is the word of tags itself when there is no array, [msg_sdata] is 0
    for NULL. *)
Record LogMessage := mkMsg {
  msg_payload : Z; msg_tags : Z; msg_num_tags : Z; msg_sdata : Z; msg_alloc_sdata : Z; msg_num_sdata : Z;
  msg_num_matches : Z; msg_flags : Z; msg_initial_parse : bool; msg_original : option Z }.

Definition set_payload (m : LogMessage) (p : Z) : LogMessage :=
  mkMsg p (msg_tags m) (msg_num_tags m) (msg_sdata m) (msg_alloc_sdata m) (msg_num_sdata m) (msg_num_matches m) (msg_flags m) (msg_initial_parse m) (msg_original m).
Definition set_tags (m : LogMessage) (tags num : Z) : LogMessage :=
  mkMsg (msg_payload m) tags num (msg_sdata m) (msg_alloc_sdata m) (msg_num_sdata m) (msg_num_matches m) (msg_flags m) (msg_initial_parse m) (msg_original m).
Definition set_sdata (m : LogMessage) (sdata alloc num : Z) : LogMessage :=
  mkMsg (msg_payload m) (msg_tags m) (msg_num_tags m) sdata alloc num (msg_num_matches m) (msg_flags m) (msg_initial_parse m) (msg_original m).
Definition set_num_matches (m : LogMessage) (n : Z) : LogMessage :=
  mkMsg (msg_payload m) (msg_tags m) (msg_num_tags m) (msg_sdata m) (msg_alloc_sdata m) (msg_num_sdata m) n (msg_flags m) (msg_initial_parse m) (msg_original m).
Definition set_flags (m : LogMessage) (f : Z) : LogMessage :=
  mkMsg (msg_payload m) (msg_tags m) (msg_num_tags m) (msg_sdata m) (msg_alloc_sdata m) (msg_num_sdata m) (msg_num_matches m) f (msg_initial_parse m) (msg_original m).

Definition log_msg_chk_flag (m : LogMessage) (flag : Z) : bool := bool_decide (Z.land (msg_flags m) flag <> 0).
Definition log_msg_set_flag (m : LogMessage) (flag : Z) : LogMessage := set_flags m (Z.lor (msg_flags m) flag).
Definition log_msg_unset_flag (m : LogMessage) (flag : Z) : LogMessage := set_flags m (Z.land (msg_flags m) (u32 (Z.lnot flag))).

(** ** Tags *)

Definition LOGMSG_TAGS_BITS : Z := 64.
Definition word_with (w index : Z) (value : bool) : Z :=
  let bit := Z.shiftl 1 (Z.land index 0x3F) in if value then Z.lor w bit else Z.land w (u64 (Z.lnot bit)).
Definition log_msg_set_bit (tags : list Z) (index : Z) (value : bool) : outcome (list Z) :=
  let i := Z.to_nat (Z.shiftr index 6) in
  match tags !! i with Some w => Ret (<[i := word_with w index value]> tags) | None => Abort end.
Definition log_msg_get_bit (tags : list Z) (index : Z) : outcome bool :=
  match tags !! Z.to_nat (Z.shiftr index 6) with Some w => Ret (bool_decide (Z.land w (Z.shiftl 1 (Z.land index 0x3F)) <> 0)) | None => Abort end.

(** The callback gets the numbers of the tags in this order. *)
Fixpoint foreach_item (n : nat) (base i item : Z) : list Z :=
  match n with
  | O => []
  | S n => if bool_decide (item = 0) then [] else (if Z.odd item then [u16 (base + i)] else []) ++ foreach_item n base (i + 1) (Z.shiftr item 1)
  end.
Definition log_msg_tags_foreach_item (base item : Z) : list Z := foreach_item 64 base 0 item.
Fixpoint foreach_words (i : Z) (tags : list Z) : list Z :=
  match tags with [] => [] | w :: tags => log_msg_tags_foreach_item (i * LOGMSG_TAGS_BITS) w ++ foreach_words (i + 1) tags end.
Definition log_msg_tags_foreach (st : store) (self : LogMessage) : outcome (list Z) :=
  if bool_decide (msg_num_tags self = 0) then Ret (log_msg_tags_foreach_item 0 (msg_tags self))
  else let! tags := get (s_words st) (msg_tags self) in Ret (foreach_words 0 (take (Z.to_nat (msg_num_tags self)) tags)).

Definition own_tags (st : store) (self : LogMessage) : outcome (store * LogMessage) :=
  if negb (log_msg_chk_flag self LF_STATE_OWN_TAGS) && bool_decide (msg_num_tags self <> 0) then
    let! tags := get (s_words st) (msg_tags self) in
    let '(p, st) := fresh st in
    Ret (put_words st p (take (Z.to_nat (msg_num_tags self)) tags), set_tags self p (msg_num_tags self))
  else Ret (st, self).

(** The array with room for [num] words. *)
Definition grow_tags (st : store) (self : LogMessage) (num : Z) : outcome (store * LogMessage) :=
  let old_num_tags := msg_num_tags self in
  let zeros := repeat 0 (Z.to_nat (num - old_num_tags)) in
  let '(p, st) := fresh st in
  if bool_decide (old_num_tags <> 0) then
    let! tags := get (s_words st) (msg_tags self) in
    Ret (put_words (free_words st (msg_tags self)) p (take (Z.to_nat old_num_tags) tags ++ zeros), set_tags self p num)
  else Ret (put_words st p (<[0%nat := msg_tags self]> zeros), set_tags self p num).

(** The last component tells whether the counter of the tag is changed. *)
Definition log_msg_set_tag_by_id_onoff (st : store) (self : LogMessage) (id : Z) (on : bool) : outcome (store * LogMessage * bool) :=
  let! (st, self) := own_tags st self in
  let self := log_msg_set_flag self LF_STATE_OWN_TAGS in
  if bool_decide (msg_num_tags self = 0 /\ id < LOGMSG_TAGS_BITS) then Ret (st, set_tags self (word_with (msg_tags self) id on) 0, true)
  else if bool_decide (msg_num_tags self * LOGMSG_TAGS_BITS <= id /\ 8159 < id) then Ret (st, self, false)
  else
    let! (st, self) := (if bool_decide (msg_num_tags self * LOGMSG_TAGS_BITS <= id) then grow_tags st self (u8 (id / LOGMSG_TAGS_BITS + 1)) else Ret (st, self)) in
    let! tags := get (s_words st) (msg_tags self) in
    let! tags := log_msg_set_bit tags id on in
    Ret (put_words st (msg_tags self) tags, self, true).
Definition log_msg_set_tag_by_id (st : store) (self : LogMessage) (id : Z) := log_msg_set_tag_by_id_onoff st self id true.
Definition log_msg_clear_tag_by_id (st : store) (self : LogMessage) (id : Z) := log_msg_set_tag_by_id_onoff st self id false.

Definition log_msg_is_tag_by_id (st : store) (self : LogMessage) (id : Z) : outcome bool :=
  if bool_decide (8159 < id) then Ret false
  else if bool_decide (msg_num_tags self = 0 /\ id < LOGMSG_TAGS_BITS) then log_msg_get_bit [msg_tags self] id
  else if bool_decide (id < msg_num_tags self * LOGMSG_TAGS_BITS) then let! tags := get (s_words st) (msg_tags self) in log_msg_get_bit tags id
  else Ret false.

(** ** The registry of tags *)

(** The counter is [None] when statistics of tags are off. *)
Record LogTag := mkTag { tag_id : Z; tag_name : bytes; tag_counter : option Z }.
Record LogTags := mkTags { log_tags_list : list LogTag; log_tags_hash : gmap bytes Z; log_tags_num : Z; log_tags_list_size : Z }.
Definition LOG_TAGS_MAX : Z := 16384.

(** [stats] tells whether the counter is registered.  A name is stored with one
    more than its number; writing behind the array is [Abort]. *)
Definition log_tags_get_by_name (stats : bool) (s : LogTags) (name : bytes) : outcome (Z * LogTags) :=
  match log_tags_hash s !! name with
  | Some n => Ret (u16 (u32 (n - 1)), s)
  | None =>
      if bool_decide (log_tags_num s < LOG_TAGS_MAX - 1) then
        let id := log_tags_num s in
        let num := log_tags_num s + 1 in
        let '(l, size) := (if bool_decide (id = log_tags_list_size s) then (log_tags_list s ++ repeat (mkTag 0 [] None) (Z.to_nat (log_tags_list_size s)), u32 (log_tags_list_size s * 2))
                           else (log_tags_list s, log_tags_list_size s)) in
        let! _ := g_assert (bool_decide (id < lenZ l)) in
        let tag := mkTag (u16 id) name (if stats then Some 0 else None) in
        Ret (u16 id, mkTags (<[Z.to_nat id := tag]> l) (<[name := u16 id + 1]> (log_tags_hash s)) num size)
      else Ret (0, s)
  end.
Definition log_tags_get_by_id (s : LogTags) (id : Z) : option bytes :=
  if bool_decide (id < log_tags_num s) then tag_name <$> log_tags_list s !! Z.to_nat id else None.
Definition add_counter (s : LogTags) (id delta : Z) : LogTags :=
  if bool_decide (id < log_tags_num s) then
    mkTags (alter (fun t => mkTag (tag_id t) (tag_name t) ((fun c => u32 (c + delta)) <$> tag_counter t)) (Z.to_nat id) (log_tags_list s)) (log_tags_hash s) (log_tags_num s) (log_tags_list_size s)
  else s.
Definition log_tags_inc_counter (s : LogTags) (id : Z) : LogTags := add_counter s id 1.
Definition log_tags_dec_counter (s : LogTags) (id : Z) : LogTags := add_counter s id (-1).
Definition log_tags_init : LogTags :=
  let name := bytes_of_string "an empty tag" in
  mkTags (mkTag 0 name None :: repeat (mkTag 0 [] None) 3) {[ name := 1 ]} 0 4.

Definition log_msg_set_tag_by_name (stats : bool) (tags : LogTags) (st : store) (self : LogMessage) (name : bytes) (on : bool) : outcome (LogTags * store * LogMessage) :=
  let! (id, tags) := log_tags_get_by_name stats tags name in
  let! (st, self, counted) := log_msg_set_tag_by_id_onoff st self id on in
  Ret (if counted : bool then (if on then log_tags_inc_counter tags id else log_tags_dec_counter tags id) else tags, st, self).
Definition log_msg_is_tag_by_name (stats : bool) (tags : LogTags) (st : store) (self : LogMessage) (name : bytes) : outcome (bool * LogTags) :=
  let! (id, tags) := log_tags_get_by_name stats tags name in
  let! r := log_msg_is_tag_by_id st self id in
  Ret (r, tags).

(** A tag without a name would be a NULL string. *)
Fixpoint append_tags (tags : LogTags) (original_length : Z) (ids : list Z) (result : bytes) : outcome bytes :=
  match ids with
  | [] => Ret result
  | id :: ids =>
      match log_tags_get_by_id tags id with
      | None => Abort
      | Some name => append_tags tags original_length ids ((if bool_decide (lenZ result > original_length) then result ++ [44] else result) ++ name)
      end
  end.
Definition log_msg_print_tags (tags : LogTags) (st : store) (self : LogMessage) (result : bytes) : outcome bytes :=
  let! ids := log_msg_tags_foreach st self in append_tags tags (lenZ result) ids result.

(** ** The registry of values *)

Definition logmsg_sd_prefix : bytes := bytes_of_string ".SDATA.".
Definition log_msg_get_value_handle (reg : NVRegistry) (name : bytes) : outcome (Z * NVRegistry) :=
  let '(handle, reg) := nv_registry_alloc_handle reg name in
  if strncmp_eq name logmsg_sd_prefix 7 && bool_decide (default 0 (name !! 6%nat) <> 0) then
    let! reg := nv_registry_set_handle_flags reg handle LM_VF_SDATA in Ret (handle, reg)
  else Ret (handle, reg).

(** ** Structured data *)

(** The index of the last occurrence of a byte. *)
Fixpoint memrchr (s : bytes) (c : Z) : option nat :=
  match s with
  | [] => None
  | x :: s => match memrchr s c with Some i => Some (S i) | None => if bool_decide (x = c) then Some O else None end
  end.

(** The last element, among the first [n], whose name starts with the block of
    the new name. *)
Fixpoint find_block (reg : NVRegistry) (sdata : list Z) (block : bytes) (n : nat) : outcome (option nat) :=
  match n with
  | O => Ret None
  | S n =>
      match sdata !! n with
      | None => Abort
      | Some h =>
          let! (name, len) := nv_registry_get_handle_name reg h in
          if bool_decide (len > lenZ block) && strncmp_eq name block (length block) then Ret (Some n) else find_block reg sdata block n
      end
  end.

(** An array of the message's own with room for [alloc] elements.  The elements
    behind the first [num], which the code leaves as they are in a new block and
    does not read, are 0. *)
Definition own_sdata (st : store) (self : LogMessage) (alloc : Z) : outcome (store * LogMessage) :=
  let num := msg_num_sdata self in
  if log_msg_chk_flag self LF_STATE_OWN_SDATA && bool_decide (msg_sdata self <> 0) then
    if bool_decide (msg_alloc_sdata self < alloc) then
      let! old := get (s_handles st) (msg_sdata self) in
      let '(p, st) := fresh (free_handles st (msg_sdata self)) in
      Ret (put_handles st p (old ++ repeat 0 (Z.to_nat (alloc - msg_alloc_sdata self))), set_sdata self p (msg_alloc_sdata self) num)
    else Ret (st, self)
  else
    let! old := (if bool_decide (num <> 0) then get (s_handles st) (msg_sdata self) else Ret []) in
    let '(p, st) := fresh st in
    Ret (put_handles st p (take (Z.to_nat num) old ++ repeat 0 (Z.to_nat (alloc - num))), log_msg_set_flag (set_sdata self p (msg_alloc_sdata self) num) LF_STATE_OWN_SDATA).

Definition log_msg_update_sdata_slow (reg : NVRegistry) (st : store) (self : LogMessage) (handle : Z) (name : bytes) : outcome (store * LogMessage) :=
  let num := msg_num_sdata self in
  if bool_decide (num = 255) then Ret (st, self)
  else
    let alloc := if bool_decide (msg_alloc_sdata self <= num) then Z.min 255 (Z.max (num + 1) (Z.land (num + 8) (Z.lnot 7))) else msg_alloc_sdata self in
    let! (st, self) := own_sdata st self alloc in
    let! sdata := get (s_handles st) (msg_sdata self) in
    let! i := (if msg_initial_parse self then Ret None
               else match memrchr name 46 with None => Abort | Some dot => find_block reg sdata (take dot name) (Z.to_nat num) end) in
    let n := Z.to_nat num in
    let! _ := g_assert (bool_decide (num < lenZ sdata)) in
    let sdata := match i with
                 | Some i => take i sdata ++ handle :: take (n - i) (drop i sdata) ++ drop (S n) sdata
                 | None => <[n := handle]> sdata
                 end in
    Ret (put_handles st (msg_sdata self) sdata, set_sdata self (msg_sdata self) (u8 alloc) (u8 (num + 1))).

Definition log_msg_update_sdata (reg : NVRegistry) (st : store) (self : LogMessage) (handle : Z) (name : bytes) : outcome (store * LogMessage) :=
  let! flags := nv_registry_get_handle_flags reg handle in
  if bool_decide (Z.land (u8 flags) LM_VF_SDATA <> 0) then log_msg_update_sdata_slow reg st self handle name else Ret (st, self).

(** ** Values *)

(** Try to add, make the table larger, try again.  The last component tells
    whether the value was stored. *)
Fixpoint add_loop (fuel : nat) (add : NVTable -> option bool -> outcome (bool * option bool * NVTable)) (st : store) (p : Z) (new_entry : option bool) : outcome (store * Z * option bool * bool) :=
  match fuel with
  | O => Abort
  | S fuel =>
      let! t := get (s_tables st) p in
      let! (ok, new_entry, t) := add t new_entry in
      let st := put_table st p t in
      if ok : bool then Ret (st, p, new_entry, true)
      else
        match nv_table_realloc t with
        | None => Ret (st, p, new_entry, false)
        | Some (t, old) =>
            let st := match old with Some o => put_table st p o | None => free_table st p end in
            let '(p, st) := fresh st in
            add_loop fuel add (put_table st p t) p new_entry
        end
  end.

Definition own_payload (st : store) (self : LogMessage) (extra : Z) : outcome (store * LogMessage) :=
  if log_msg_chk_flag self LF_STATE_OWN_PAYLOAD then Ret (st, self)
  else
    let! t := get (s_tables st) (msg_payload self) in
    let '(p, st) := fresh st in
    Ret (put_table st p (nv_table_clone t extra), log_msg_set_flag (set_payload self p) LF_STATE_OWN_PAYLOAD).

(** A table grows from 128 bytes at least to 2^28 at most. *)
Definition add_fuel : nat := 40.
Definition log_msg_set_value (reg : NVRegistry) (st : store) (self : LogMessage) (handle : Z) (value : bytes) : outcome (store * LogMessage) :=
  if bool_decide (handle = 0) then Ret (st, self)
  else
    let! (name, name_len) := nv_registry_get_handle_name reg handle in
    let! (st, self) := own_payload st self (name_len + lenZ value + 2) in
    let! (st, p, new_entry, _) := add_loop add_fuel (fun t ne => Ret (nv_table_add_value t handle name value ne)) st (msg_payload self) (Some false) in
    let self := set_payload self p in
    let! (st, self) := (if bool_decide (new_entry = Some true) then log_msg_update_sdata reg st self handle name else Ret (st, self)) in
    Ret (st, if bool_decide (handle = LM_V_PROGRAM \/ handle = LM_V_PID) then log_msg_unset_flag self LF_LEGACY_MSGHDR else self).
Definition log_msg_set_value_by_name (reg : NVRegistry) (st : store) (self : LogMessage) (name value : bytes) : outcome (NVRegistry * store * LogMessage) :=
  let! (handle, reg) := log_msg_get_value_handle reg name in
  let! (st, self) := log_msg_set_value reg st self handle value in
  Ret (reg, st, self).

(** [macro] is the expansion of a macro for the message. *)
Definition log_msg_get_value (macro : Z -> bytes) (reg : NVRegistry) (st : store) (self : LogMessage) (handle : Z) : outcome (bytes * Z) :=
  let! flags := nv_registry_get_handle_flags reg handle in
  if bool_decide (Z.land flags LM_VF_MACRO = 0) then
    let! t := get (s_tables st) (msg_payload self) in
    match nv_table_get_value t handle with Some v => Ret v | None => Abort end
  else let v := macro (Z.shiftr flags 8) in Ret (v, lenZ v).

Definition log_msg_set_value_indirect (macro : Z -> bytes) (reg : NVRegistry) (st : store) (self : LogMessage) (handle ref_handle type ofs len : Z) : outcome (store * LogMessage) :=
  if bool_decide (handle = 0) then Ret (st, self)
  else
    let! _ := g_assert (bool_decide (handle >= LM_V_MAX)) in
    let! (name, name_len) := nv_registry_get_handle_name reg handle in
    let! (_, value_len) := log_msg_get_value macro reg st self ref_handle in
    if bool_decide (value_len = 0) then Ret (st, self)
    else
      let! (st, self) := own_payload st self (name_len + 1) in
      let! (st, p, new_entry, _) := add_loop add_fuel (fun t ne => nv_table_add_value_indirect t handle name (mkSlice ref_handle ofs len type) ne) st (msg_payload self) (Some false) in
      let self := set_payload self p in
      if bool_decide (new_entry = Some true) then log_msg_update_sdata reg st self handle name else Ret (st, self).

(** ** Matches *)

Definition log_msg_set_match (match_handles : list Z) (reg : NVRegistry) (st : store) (self : LogMessage) (index : Z) (value : bytes) : outcome (store * LogMessage) :=
  let! _ := g_assert (bool_decide (index < 256)) in
  let self := if bool_decide (index >= msg_num_matches self) then set_num_matches self (u8 (index + 1)) else self in
  match match_handles !! Z.to_nat index with None => Abort | Some h => log_msg_set_value reg st self h value end.
Definition log_msg_set_match_indirect (macro : Z -> bytes) (match_handles : list Z) (reg : NVRegistry) (st : store) (self : LogMessage) (index ref_handle type ofs len : Z) : outcome (store * LogMessage) :=
  let! _ := g_assert (bool_decide (index < 256)) in
  match match_handles !! Z.to_nat index with None => Abort | Some h => log_msg_set_value_indirect macro reg st self h ref_handle type ofs len end.
Fixpoint clear_loop (handles : list Z) (reg : NVRegistry) (st : store) (self : LogMessage) : outcome (store * LogMessage) :=
  match handles with
  | [] => Ret (st, self)
  | h :: handles => let! (st, self) := log_msg_set_value reg st self h [] in clear_loop handles reg st self
  end.
Definition log_msg_clear_matches (match_handles : list Z) (reg : NVRegistry) (st : store) (self : LogMessage) : outcome (store * LogMessage) :=
  let! (st, self) := clear_loop (take (Z.to_nat (msg_num_matches self)) match_handles) reg st self in
  Ret (st, set_num_matches self 0).

(** ** New messages, clones, the end of a message *)

(** Without a size there is no table. *)
Definition log_msg_alloc (payload_size : Z) (st : store) : outcome (store * LogMessage) :=
  if bool_decide (payload_size <> 0) then
    let! t := nv_table_init_borrowed (nv_table_get_alloc_size LM_V_MAX 16 payload_size) LM_V_MAX in
    let '(p, st) := fresh st in
    Ret (put_table st p t, mkMsg p 0 0 0 0 0 0 0 false None)
  else Ret (st, mkMsg 0 0 0 0 0 0 0 0 false None).
Definition log_msg_init (self : LogMessage) : LogMessage :=
  let self := set_sdata self 0 (msg_alloc_sdata self) (msg_num_sdata self) in
  let self := mkMsg (msg_payload self) (msg_tags self) (msg_num_tags self) (msg_sdata self) (msg_alloc_sdata self) (msg_num_sdata self) (msg_num_matches self) (msg_flags self) (msg_initial_parse self) None in
  log_msg_set_flag self LF_STATE_OWN_MASK.
(** The size of the payload of a message of [length] bytes that is to be parsed. *)
Definition payload_size_for (length : Z) : Z := if bool_decide (length = 0) then 256 else length * 2.
Definition log_msg_new_sized (payload_size : Z) (st : store) : outcome (store * LogMessage) :=
  let! (st, self) := log_msg_alloc payload_size st in Ret (st, log_msg_init self).
Definition log_msg_new_empty (st : store) : outcome (store * LogMessage) := log_msg_new_sized 256 st.

(** The original, marked, and the clone; [id] is the address of the original. *)
Definition log_msg_clone_cow (id : Z) (msg : LogMessage) : LogMessage * LogMessage :=
  let msg := log_msg_set_flag msg LF_STATE_REFERENCED in
  let self := log_msg_unset_flag msg LF_STATE_MASK in
  let self := mkMsg (msg_payload self) (msg_tags self) (msg_num_tags self) (msg_sdata self) (msg_alloc_sdata self) (msg_num_sdata self) (msg_num_matches self) (msg_flags self) (msg_initial_parse self) (Some id) in
  (msg, if bool_decide (msg_num_tags self = 0) then log_msg_set_flag self LF_STATE_OWN_TAGS else self).

Definition log_msg_free (st : store) (self : LogMessage) : outcome store :=
  let! st := (if log_msg_chk_flag self LF_STATE_OWN_PAYLOAD && bool_decide (msg_payload self <> 0) then
                let! t := get (s_tables st) (msg_payload self) in
                let '(t, freed) := nv_table_unref t in
                Ret (if freed || nt_borrowed t then free_table st (msg_payload self) else put_table st (msg_payload self) t)
              else Ret st) in
  let! st := (if log_msg_chk_flag self LF_STATE_OWN_TAGS && bool_decide (msg_tags self <> 0) && bool_decide (msg_num_tags self > 0) then
                let! _ := get (s_words st) (msg_tags self) in Ret (free_words st (msg_tags self))
              else Ret st) in
  if log_msg_chk_flag self LF_STATE_OWN_SDATA && bool_decide (msg_sdata self <> 0) then
    let! _ := get (s_handles st) (msg_sdata self) in Ret (free_handles st (msg_sdata self))
  else Ret st.
