(* ===== verification/LogMsgTags.v ===== *)
(** * The tags of a message are a set of numbers *)
From S2P Require Import Prelude CString NVTable NVRegistry LogMsgData.

Definition is_word (w : Z) : Prop := 0 <= w < 2 ^ 64.
(** The words of the tags: one inline, or those of the array. *)
Definition tag_words (st : store) (m : LogMessage) : option (list Z) := if bool_decide (msg_num_tags m = 0) then Some [msg_tags m] else s_words st !! msg_tags m.
Definition words_bit (ws : list Z) (id : Z) : bool := Z.testbit (default 0 (ws !! Z.to_nat (id / 64))) (id mod 64).
Record tags_wf (st : store) (m : LogMessage) (ws : list Z) : Prop := {
  tw_words : tag_words st m = Some ws;
  tw_is : Forall is_word ws;
  tw_len : lenZ ws = Z.max 1 (msg_num_tags m);
  tw_num : 0 <= msg_num_tags m <= 128 }.

(** ** Bits of words *)

Lemma shiftr_div (id : Z) : Z.shiftr id 6 = id / 64.
Proof. by rewrite Z.shiftr_div_pow2. Qed.
Lemma land_mod (id : Z) : Z.land id 0x3F = id mod 64.
Proof. change 0x3F with (Z.ones 6). by rewrite Z.land_ones. Qed.

Lemma testbit_bit (n k : Z) : 0 <= n -> Z.testbit (Z.shiftl 1 n) k = bool_decide (k = n).
Proof.
  intros Hn. rewrite Z.shiftl_1_l. destruct (decide (k < 0)) as [L|L]; [rewrite Z.testbit_neg_r, bool_decide_eq_false_2 by lia; done|].
  rewrite Z.pow2_bits_eqb by lia. apply eq_true_iff_eq. rewrite Z.eqb_eq, bool_decide_eq_true. lia.
Qed.
Lemma word_bits (w k : Z) : is_word w -> 64 <= k -> Z.testbit w k = false.
Proof. intros Hw Hk. apply Z.bits_above_log2; [unfold is_word in *; lia|]. unfold is_word in Hw. destruct (decide (w = 0)) as [->|]; [simpl; lia|]. assert (Z.log2 w < 64) by (apply Z.log2_lt_pow2; lia). lia. Qed.
Lemma is_word_bits (w : Z) : 0 <= w -> (forall k, 64 <= k -> Z.testbit w k = false) -> is_word w.
Proof.
  intros H0 H. split; [done|]. destruct (decide (w = 0)) as [->|]; [done|]. apply Z.log2_lt_pow2; [lia|]. destruct (decide (Z.log2 w < 64)) as [|L]; [done|].
  specialize (H (Z.log2 w) ltac:(lia)). rewrite Z.bit_log2 in H by lia. done.
Qed.
Lemma word_with_bits (w id k : Z) (v : bool) : is_word w -> 0 <= id -> 0 <= k -> Z.testbit (word_with w id v) k = if bool_decide (k = id mod 64) then v else Z.testbit w k.
Proof.
  intros Hw Hid Hk. unfold word_with. rewrite land_mod. assert (Hm : 0 <= id mod 64 < 64) by (by apply Z.mod_pos_bound). destruct v.
  - rewrite Z.lor_spec, testbit_bit by lia. case_bool; [by rewrite orb_true_r|]. by rewrite orb_false_r.
  - rewrite Z.land_spec. unfold u64. destruct (decide (k < 64)) as [L|L].
    + rewrite Z.mod_pow2_bits_low, Z.lnot_spec, testbit_bit by lia. case_bool; [by rewrite andb_false_r|]. by rewrite andb_true_r.
    + rewrite (word_bits w k Hw) by lia. simpl. rewrite bool_decide_eq_false_2 by lia. done.
Qed.
Lemma word_with_word (w id : Z) (v : bool) : is_word w -> 0 <= id -> is_word (word_with w id v).
Proof.
  intros Hw Hid. assert (Hm : 0 <= id mod 64 < 64) by (by apply Z.mod_pos_bound). apply is_word_bits.
  - unfold word_with, is_word in *. rewrite land_mod. destruct v; [apply Z.lor_nonneg; split; [lia|apply Z.shiftl_nonneg; lia]|apply Z.land_nonneg; left; lia].
  - intros k Hk. rewrite word_with_bits by (done || lia). rewrite bool_decide_eq_false_2 by lia. by apply word_bits.
Qed.
Lemma get_bit_ok (ws : list Z) (id : Z) : Forall is_word ws -> 0 <= id < 64 * lenZ ws -> log_msg_get_bit ws id = Ret (words_bit ws id).
Proof.
  intros F Hid. unfold log_msg_get_bit, words_bit. rewrite shiftr_div, land_mod. unfold lenZ in Hid.
  destruct (lookup_lt_is_Some_2 ws (Z.to_nat (id / 64))) as [w Hw]; [Z.to_euclidean_division_equations; lia|]. rewrite Hw. simpl. f_equal.
  assert (Hm : 0 <= id mod 64 < 64) by (by apply Z.mod_pos_bound). destruct (Z.testbit w (id mod 64)) eqn:E.
  - apply bool_decide_eq_true. intros Z0. apply (f_equal (fun z => Z.testbit z (id mod 64))) in Z0. rewrite Z.land_spec, testbit_bit, E, bool_decide_eq_true_2, Z.bits_0 in Z0 by lia. done.
  - apply bool_decide_eq_false. intros N. apply N. apply Z.bits_inj'. intros k Hk. rewrite Z.land_spec, testbit_bit, Z.bits_0 by lia. destruct (bool_decide_reflect (k = id mod 64)) as [->|]; [by rewrite E|by rewrite andb_false_r].
Qed.
Lemma set_bit_ok (ws : list Z) (id : Z) (v : bool) : Forall is_word ws -> 0 <= id < 64 * lenZ ws ->
  exists ws', log_msg_set_bit ws id v = Ret ws' /\ Forall is_word ws' /\ length ws' = length ws /\ forall j, 0 <= j -> words_bit ws' j = if bool_decide (j = id) then v else words_bit ws j.
Proof.
  intros F Hid. unfold log_msg_set_bit. rewrite shiftr_div. unfold lenZ in Hid. set (i := Z.to_nat (id / 64)).
  destruct (lookup_lt_is_Some_2 ws i) as [w Hw]; [subst i; Z.to_euclidean_division_equations; lia|]. rewrite Hw. assert (Ww : is_word w) by (rewrite Forall_forall in F; apply F; by eapply list_elem_of_lookup_2).
  eexists. split; [done|]. split; [apply Forall_insert; [done|apply word_with_word; [done|lia]]|]. split; [by rewrite length_insert|]. intros j Hj. unfold words_bit. destruct (decide (Z.to_nat (j / 64) = i)) as [Ei|Ei].
  - rewrite Ei, list_lookup_insert_eq by (by eapply lookup_lt_Some). rewrite Hw. simpl. rewrite word_with_bits by (done || (Z.to_euclidean_division_equations; lia)).
    assert (j / 64 = id / 64) by (subst i; Z.to_euclidean_division_equations; lia). assert (Hq : j = id <-> j mod 64 = id mod 64) by (Z.to_euclidean_division_equations; lia).
    repeat case_bool; try done; tauto.
  - rewrite list_lookup_insert_ne by done. rewrite bool_decide_eq_false_2; [done|]. intros ->. done.
Qed.

(** ** Setting and clearing *)

Definition store_wf (st : store) : Prop := 0 < s_next st /\ forall p, s_next st <= p -> s_tables st !! p = None /\ s_words st !! p = None /\ s_handles st !! p = None.
Definition owns_tags (m : LogMessage) : Prop := log_msg_chk_flag m LF_STATE_OWN_TAGS = true.

(** What an operation on the tags of [m] leaves alone: other parts of the store and
    arrays that are not its own.  The new array is its own or fresh. *)
Record tags_frame (st st' : store) (m m' : LogMessage) : Prop := {
  tf_tables : s_tables st' = s_tables st;
  tf_handles : s_handles st' = s_handles st;
  tf_next : s_next st <= s_next st';
  tf_wf : store_wf st';
  tf_others : forall p, p < s_next st -> (owns_tags m -> msg_num_tags m <> 0 -> p <> msg_tags m) -> s_words st' !! p = s_words st !! p;
  tf_array : msg_num_tags m' <> 0 -> (owns_tags m /\ msg_num_tags m <> 0 /\ msg_tags m' = msg_tags m) \/ s_next st <= msg_tags m' < s_next st';
  tf_msg : m' = set_tags (log_msg_set_flag m LF_STATE_OWN_TAGS) (msg_tags m') (msg_num_tags m') }.

Lemma chk_set_flag (m : LogMessage) (f : Z) : f <> 0 -> 0 <= f -> log_msg_chk_flag (log_msg_set_flag m f) f = true.
Proof.
  intros Hf Hp. unfold log_msg_chk_flag, log_msg_set_flag. destruct m; simpl. apply bool_decide_eq_true. rewrite Z.land_lor_distr_l, Z.land_diag. intros [_ ?]%Z.lor_eq_0_iff. done.
Qed.
Lemma chk_flag_bit (m : LogMessage) (n : Z) : 0 <= n -> log_msg_chk_flag m (Z.shiftl 1 n) = Z.testbit (msg_flags m) n.
Proof.
  intros Hn. unfold log_msg_chk_flag. destruct (Z.testbit (msg_flags m) n) eqn:E.
  - apply bool_decide_eq_true. intros H. apply (f_equal (fun z => Z.testbit z n)) in H. rewrite Z.land_spec, testbit_bit, E, bool_decide_eq_true_2, Z.bits_0 in H by lia. done.
  - apply bool_decide_eq_false. intros H. apply H, Z.bits_inj'. intros k Hk. rewrite Z.land_spec, testbit_bit, Z.bits_0 by lia. destruct (bool_decide_reflect (k = n)) as [->|]; [by rewrite E|by rewrite andb_false_r].
Qed.
Lemma set_flag_same (m : LogMessage) (n : Z) : 0 <= n -> log_msg_chk_flag m (Z.shiftl 1 n) = true -> log_msg_set_flag m (Z.shiftl 1 n) = m.
Proof.
  intros Hn H. rewrite chk_flag_bit in H by done. destruct m; unfold log_msg_set_flag, set_flags; simpl in *. f_equal. apply Z.bits_inj'. intros k Hk. rewrite Z.lor_spec, testbit_bit by done.
  destruct (bool_decide_reflect (k = n)) as [->|]; [by rewrite H|by rewrite orb_false_r].
Qed.
Lemma owns_tags_flag (m : LogMessage) : owns_tags m -> log_msg_set_flag m LF_STATE_OWN_TAGS = m.
Proof. exact (set_flag_same m 6 ltac:(lia)). Qed.
Lemma words_bit_app (ws zs : list Z) (id : Z) : (forall z, z ∈ zs -> z = 0) -> words_bit (ws ++ zs) id = words_bit ws id.
Proof.
  intros Hz. unfold words_bit. destruct (decide (Z.to_nat (id / 64) < length ws)%nat) as [L|L]; [by rewrite lookup_app_l by done|].
  rewrite lookup_app_r, (lookup_ge_None_2 ws) by lia. destruct (zs !! _) as [z|] eqn:E; [|done]. rewrite (Hz z) by (by eapply list_elem_of_lookup_2). done.
Qed.
Lemma repeat_zero (n : nat) (z : Z) : z ∈ repeat 0 n -> z = 0.
Proof. induction n; simpl; [set_solver|]. intros [->|?]%elem_of_cons; auto. Qed.
Lemma repeat_words (n : nat) : Forall is_word (repeat 0 n).
Proof. rewrite Forall_forall. intros z ->%repeat_zero. split; [done|lia]. Qed.

Lemma tag_words_array (st : store) (m : LogMessage) (ws : list Z) : tags_wf st m ws -> msg_num_tags m <> 0 -> s_words st !! msg_tags m = Some ws /\ length ws = Z.to_nat (msg_num_tags m).
Proof. intros [E _ L N] H. unfold tag_words in E. rewrite bool_decide_eq_false_2 in E by done. split; [done|]. unfold lenZ in L. lia. Qed.
Lemma tag_words_inline (st : store) (m : LogMessage) (ws : list Z) : tags_wf st m ws -> msg_num_tags m = 0 -> ws = [msg_tags m].
Proof. intros [E _ _ _] H. unfold tag_words in E. rewrite bool_decide_eq_true_2 in E by done. congruence. Qed.

Lemma own_tags_ok (st : store) (m : LogMessage) (ws : list Z) : store_wf st -> tags_wf st m ws ->
  exists st' m', own_tags st m = Ret (st', m') /\ tags_wf st' m' ws /\ msg_num_tags m' = msg_num_tags m /\ tags_frame st st' m (log_msg_set_flag m' LF_STATE_OWN_TAGS).
Proof.
  intros Hst Wf. unfold own_tags. destruct (log_msg_chk_flag m LF_STATE_OWN_TAGS) eqn:Own; simpl.
  { exists st, m. split_and!; [done..|]. split; [done|done|lia|done|done| |by destruct m]. intros H. left. destruct m; simpl in *. done. }
  case_bool.
  - destruct (tag_words_array _ _ _ Wf Hb) as [Ha Hl]. unfold get. rewrite Ha. cbn [obind fresh]. eexists _, _. split; [done|].
    destruct Wf as [_ F L N]. destruct Hst as [H0 Hf]. rewrite firstn_all2 by lia. split_and!; [|done|].
    + split; [|done|done|done]. unfold tag_words. cbn [set_tags msg_num_tags msg_tags]. rewrite bool_decide_eq_false_2 by done. cbn [put_words s_words]. by rewrite lookup_insert_eq.
    + split; cbn [put_words s_tables s_handles s_next s_words]; [done|done|lia| | | |by destruct m].
      * split; [cbn; lia|]. cbn. intros p Hp. destruct (Hf p ltac:(lia)) as (? & ? & ?). split_and!; [done| |done]. by rewrite lookup_insert_ne by lia.
      * intros p Hp _. rewrite lookup_insert_ne; [done|lia].
      * intros _. right. destruct m; simpl. lia.
  - exists st, m. split_and!; [done..|]. split; [done|done|lia|done|done| |by destruct m]. intros H. destruct m; simpl in *. done.
Qed.

Lemma tags_frame_trans (st1 st2 st3 : store) (m1 m2 m3 : LogMessage) : tags_frame st1 st2 m1 m2 -> tags_frame st2 st3 m2 m3 -> tags_frame st1 st3 m1 m3.
Proof.
  intros [T1 H1 N1 W1 O1 A1 M1] [T2 H2 N2 W2 O2 A2 M2]. split; [congruence|congruence|lia|done| | |].
  - intros p Hp Ho. rewrite O2; [by apply O1|lia|]. intros _ Hn. destruct (A1 Hn) as [(Hw & Hn1 & ->)|?]; [by apply Ho|lia].
  - intros Hn. destruct (A2 Hn) as [(Hw & Hn2 & E)|?]; [|right; lia]. destruct (A1 Hn2) as [(? & ? & ?)|?]; [left; split_and!; [done..|congruence]|right; lia].
  - rewrite M2, M1. destruct m1; unfold set_tags, log_msg_set_flag, set_flags; simpl. by rewrite <- Z.lor_assoc, Z.lor_diag.
Qed.

Lemma grow_tags_ok (st : store) (m : LogMessage) (ws : list Z) (num : Z) : store_wf st -> tags_wf st m ws -> owns_tags m -> msg_num_tags m < num <= 128 -> 1 < num ->
  exists st' m' ws', grow_tags st m num = Ret (st', m') /\ tags_wf st' m' ws' /\ msg_num_tags m' = num /\ owns_tags m' /\ tags_frame st st' m m' /\ forall j, words_bit ws' j = words_bit ws j.
Proof.
  intros [H0 Hf] Wf Own Hn H1. unfold grow_tags. cbn [fresh]. set (zeros := repeat 0 _).
  assert (Hm : forall t, set_tags m t num = set_tags (log_msg_set_flag m LF_STATE_OWN_TAGS) t num) by (intros t; by rewrite owns_tags_flag).
  case_bool.
  - destruct (tag_words_array _ _ _ Wf Hb) as [Ha Hl]. unfold get. cbn [s_words]. rewrite Ha. cbn [obind]. rewrite firstn_all2 by lia. eexists _, _, (ws ++ zeros). split; [done|].
    split_and!; [| |done| |intros j; apply words_bit_app; intros z; apply repeat_zero].
    + destruct Wf as [_ F L N]. split; cbn; [|apply Forall_app; split; [done|apply repeat_words]| |lia].
      * unfold tag_words. cbn. rewrite bool_decide_eq_false_2 by lia. by rewrite lookup_insert_eq.
      * rewrite lenZ_app. unfold zeros, lenZ in *. rewrite repeat_length. lia.
    + done.
    + split; cbn; [done|done|lia| | | |apply Hm].
      * split; [cbn; lia|]. cbn. intros p Hp. destruct (Hf p ltac:(lia)) as (? & ? & ?). split_and!; [done| |done]. rewrite lookup_insert_ne by lia. by apply lookup_delete_None; right.
      * intros p Hp Ho. rewrite lookup_insert_ne by lia. rewrite lookup_delete_ne; [done|]. intros <-. by apply Ho.
      * intros _. right. lia.
  - apply dec_stable in Hb. pose proof (tw_is _ _ _ Wf) as Fw. rewrite (tag_words_inline _ _ _ Wf Hb) in Fw |- *. apply Forall_cons in Fw as [Fw _]. assert (Ez : <[0%nat := msg_tags m]> zeros = [msg_tags m] ++ repeat 0 (Z.to_nat (num - 1))).
    { unfold zeros. rewrite Hb. replace (Z.to_nat (num - 0)) with (S (Z.to_nat (num - 1))) by lia. done. }
    rewrite Ez. eexists _, _, ([msg_tags m] ++ repeat 0 (Z.to_nat (num - 1))). split; [done|]. split_and!; [|done|done| |intros j; apply words_bit_app; intros z; apply repeat_zero].
    + destruct Wf as [_ F L N]. split; cbn; [|apply Forall_cons; split; [|apply repeat_words]| |lia].
      * unfold tag_words. cbn. rewrite bool_decide_eq_false_2 by lia. by rewrite lookup_insert_eq.
      * done.
      * rewrite lenZ_cons. unfold lenZ. rewrite repeat_length. lia.
    + split; cbn; [done|done|lia| | | |apply Hm].
      * split; [cbn; lia|]. cbn. intros p Hp. destruct (Hf p ltac:(lia)) as (? & ? & ?). split_and!; [done| |done]. by rewrite lookup_insert_ne by lia.
      * intros p Hp Ho. by rewrite lookup_insert_ne by lia.
      * intros _. right. lia.
Qed.

Lemma set_tag_ok (st : store) (m : LogMessage) (ws : list Z) (id : Z) (on : bool) : store_wf st -> tags_wf st m ws -> 0 <= id <= 8159 ->
  exists st' m' ws', log_msg_set_tag_by_id_onoff st m id on = Ret (st', m', true) /\ tags_wf st' m' ws' /\ owns_tags m' /\ tags_frame st st' m m' /\
    forall j, 0 <= j -> words_bit ws' j = if bool_decide (j = id) then on else words_bit ws j.
Proof.
  intros Hst Wf Hid. unfold log_msg_set_tag_by_id_onoff. destruct (own_tags_ok st m ws Hst Wf) as (st1 & m1 & -> & Wf1 & N1 & F1). cbn [obind].
  set (m2 := log_msg_set_flag m1 LF_STATE_OWN_TAGS) in *. assert (Own2 : owns_tags m2) by (by apply chk_set_flag). assert (Wf2 : tags_wf st1 m2 ws) by (destruct Wf1; split; by destruct m1).
  assert (Hm2 : forall t n, set_tags m2 t n = set_tags (log_msg_set_flag m2 LF_STATE_OWN_TAGS) t n) by (intros t n; by rewrite owns_tags_flag).
  pose proof (tf_wf _ _ _ _ F1) as Hst1. unfold LOGMSG_TAGS_BITS. case_bool.
  - destruct Hb as [Hn Hi]. pose proof (tag_words_inline _ _ _ Wf2 Hn) as Ew. subst ws. pose proof (tw_is _ _ _ Wf2) as Fw. apply Forall_cons in Fw as [Fw _].
    eexists _, _, [word_with (msg_tags m2) id on]. split; [done|]. split_and!.
    + split; cbn; [done|apply Forall_cons; split; [apply word_with_word; [done|lia]|constructor]|done|lia].
    + done.
    + eapply tags_frame_trans; [exact F1|]. split; cbn; [done|done|lia|done|done|done|apply Hm2].
    + intros j Hj. unfold words_bit. destruct (decide (j / 64 = 0)) as [E|E].
      * rewrite E. simpl. rewrite word_with_bits by (done || (Z.to_euclidean_division_equations; lia)). assert (j = id <-> j mod 64 = id mod 64) by (Z.to_euclidean_division_equations; lia). repeat case_bool; try done; tauto.
      * assert (0 < j / 64) by (Z.to_euclidean_division_equations; lia). rewrite !(lookup_ge_None_2 _ (Z.to_nat (j / 64))) by (simpl; lia). rewrite bool_decide_eq_false_2; [done|]. intros ->. rewrite Z.div_small in E by lia. done.
  - rewrite bool_decide_eq_false_2 by lia.
    assert (G : exists st3 m3 ws3, (if bool_decide (msg_num_tags m2 * 64 <= id) then grow_tags st1 m2 (u8 (id / 64 + 1)) else Ret (st1, m2)) = Ret (st3, m3) /\ tags_wf st3 m3 ws3 /\ id < msg_num_tags m3 * 64 /\
      owns_tags m3 /\ tags_frame st1 st3 m2 m3 /\ forall j, words_bit ws3 j = words_bit ws j).
    { destruct (bool_decide_reflect (msg_num_tags m2 * 64 <= id)) as [L|L]; [|exists st1, m2, ws; split_and!; [done|done|lia|done| |done]].
      - rewrite u8_small by (Z.to_euclidean_division_equations; lia). pose proof (tw_num _ _ _ Wf2). assert (msg_num_tags m2 < id / 64 + 1 <= 128) by (Z.to_euclidean_division_equations; lia).
        destruct (grow_tags_ok st1 m2 ws (id / 64 + 1) Hst1 Wf2 Own2) as (st3 & m3 & ws3 & -> & W3 & N3 & O3 & F3 & B3); [done|Z.to_euclidean_division_equations; lia|].
        exists st3, m3, ws3. split_and!; [done|done|rewrite N3; Z.to_euclidean_division_equations; lia|done|done|done].
      - split; [done|done|lia|done|done| |symmetry; rewrite owns_tags_flag by done; by destruct m2]. intros Hn. by left. }
    destruct G as (st3 & m3 & ws3 & -> & W3 & L3 & O3 & F3 & B3). cbn [obind]. assert (N3 : msg_num_tags m3 <> 0) by lia. destruct (tag_words_array _ _ _ W3 N3) as [Ha Hl]. unfold get. rewrite Ha. cbn [obind].
    pose proof (tw_num _ _ _ W3) as Hn3. destruct (set_bit_ok ws3 id on (tw_is _ _ _ W3)) as (ws4 & -> & F4 & L4 & B4); [unfold lenZ; lia|]. cbn [obind].
    eexists _, m3, ws4. split; [done|]. split_and!; [|done| |intros j Hj; by rewrite B4, B3].
    + split; [|done|unfold lenZ; rewrite L4, Hl; lia|done]. unfold tag_words. rewrite bool_decide_eq_false_2 by done. cbn. by rewrite lookup_insert_eq.
    + eapply tags_frame_trans; [exact F1|]. eapply tags_frame_trans; [exact F3|]. destruct (tf_wf _ _ _ _ F3) as [H0 Hf]. split; cbn; [done|done|lia| | | |symmetry; rewrite owns_tags_flag by done; by destruct m3].
      * split; [done|]. cbn. intros p Hp. destruct (Hf p Hp) as (? & Hw & ?). split_and!; [done| |done]. rewrite lookup_insert_ne; [done|]. congruence.
      * intros p Hp Ho. rewrite lookup_insert_ne; [done|]. intros <-. by apply Ho.
      * intros _. by left.
Qed.

Lemma is_tag_ok (st : store) (m : LogMessage) (ws : list Z) (id : Z) : tags_wf st m ws -> 0 <= id <= 8159 -> log_msg_is_tag_by_id st m id = Ret (words_bit ws id).
Proof.
  intros Wf Hid. unfold log_msg_is_tag_by_id. rewrite bool_decide_eq_false_2 by lia. pose proof (tw_is _ _ _ Wf) as F. pose proof (tw_len _ _ _ Wf) as L. unfold LOGMSG_TAGS_BITS. case_bool.
  - destruct Hb as [Hn Hi]. pose proof (tag_words_inline _ _ _ Wf Hn) as Ew. subst ws. apply get_bit_ok; [done|]. change (lenZ [msg_tags m]) with 1. lia.
  - case_bool.
    + assert (Hn : msg_num_tags m <> 0) by lia. destruct (tag_words_array _ _ _ Wf Hn) as [Ha Hl]. unfold get. rewrite Ha. cbn [obind]. apply get_bit_ok; [done|lia].
    + f_equal. unfold words_bit. rewrite lookup_ge_None_2; [simpl; by rewrite Z.testbit_0_l|]. pose proof (tw_num _ _ _ Wf). assert (Z.max 1 (msg_num_tags m) <= id / 64) by (apply Z.div_le_lower_bound; lia). unfold lenZ in L. lia.
Qed.


(** ** Iteration *)

Lemma seq_S_fmap (n : nat) : seq 0 (S n) = 0%nat :: (S <$> seq 0 n).
Proof. simpl. f_equal. symmetry. apply (seq_shift n 0). Qed.
Lemma filter_fmap_nat (f : nat -> nat) (P : nat -> Prop) `{!forall x, Decision (P x)} (l : list nat) : filter P (f <$> l) = f <$> filter (fun k => P (f k)) l.
Proof. induction l as [|x l IH]; [done|]. cbn [fmap list_fmap]. rewrite !filter_cons. destruct (decide (P (f x))); cbn [fmap list_fmap]; by rewrite <- IH. Qed.
Lemma filter_none (P : nat -> Prop) `{!forall x, Decision (P x)} (l : list nat) : (forall x, ~ P x) -> filter P l = [].
Proof. intros Hn. induction l as [|x l IH]; [done|]. rewrite filter_cons, decide_False by done. done. Qed.
Lemma foreach_item_ok (n : nat) (base i item : Z) : 0 <= item < 2 ^ Z.of_nat n ->
  foreach_item n base i item = (fun k => u16 (base + i + Z.of_nat k)) <$> filter (fun k => Z.testbit item (Z.of_nat k) = true) (seq 0 n).
Proof.
  revert i item. induction n as [|n IH]; intros i item H; [done|]. cbn [foreach_item]. case_bool.
  - subst item. rewrite filter_none; [done|]. intros x. by rewrite Z.testbit_0_l.
  - rewrite seq_S_fmap, filter_cons, filter_fmap_nat, IH.
    + rewrite Z.bit0_odd. destruct (Z.odd item); [rewrite decide_True by done|rewrite decide_False by done]; cbn [fmap list_fmap app]; [f_equal; [f_equal; lia|]|]; rewrite <- list_fmap_compose;
        rewrite (list_filter_iff _ (fun k => Z.testbit item (Z.of_nat (S k)) = true)); try (apply list_fmap_ext; intros ? k _; simpl; f_equal; lia); intros k; rewrite Z.shiftr_spec by lia; by rewrite Nat2Z.inj_succ, Z.add_1_r.
    + rewrite Z.shiftr_div_pow2 by lia. rewrite Nat2Z.inj_succ, Z.pow_succ_r in H by lia. split; [apply Z.div_pos; lia|apply Z.div_lt_upper_bound; lia].
Qed.
Lemma filter_ext_in (P Q : nat -> Prop) `{!forall x, Decision (P x)} `{!forall x, Decision (Q x)} (l : list nat) : (forall x, x ∈ l -> P x <-> Q x) -> filter P l = filter Q l.
Proof.
  intros Hx. induction l as [|x l IH]; [done|]. assert (Hl : filter P l = filter Q l) by (apply IH; intros y Hy; apply Hx; by right). rewrite !filter_cons, Hl.
  destruct (Hx x ltac:(left)) as [A B]. repeat case_decide; auto; tauto.
Qed.
Lemma seq_shift_by (a n : nat) : seq a n = (fun k => a + k)%nat <$> seq 0 n.
Proof. induction n as [|n IH]; [done|]. rewrite !seq_S, IH, fmap_app. simpl. done. Qed.
Lemma foreach_words_ok (i : Z) (ws : list Z) : Forall is_word ws ->
  foreach_words i ws = (fun k => u16 (i * 64 + Z.of_nat k)) <$> filter (fun k => words_bit ws (Z.of_nat k) = true) (seq 0 (64 * length ws)).
Proof.
  intros F. revert i. induction F as [|w ws Hw F IH]; intros i; [done|]. cbn [foreach_words length]. rewrite IH. unfold log_msg_tags_foreach_item, LOGMSG_TAGS_BITS. rewrite foreach_item_ok by (change (Z.of_nat 64) with 64; exact Hw).
  replace (64 * S (length ws))%nat with (64 + 64 * length ws)%nat by lia. rewrite seq_app, filter_app, fmap_app. apply (f_equal2 app).
  - rewrite (filter_ext_in _ (fun k => words_bit (w :: ws) (Z.of_nat k) = true)); [apply list_fmap_ext; intros ? k _; f_equal; lia|].
    intros k Hk. apply elem_of_seq in Hk. unfold words_bit. rewrite Z.div_small, Z.mod_small by lia. done.
  - rewrite (seq_shift_by 64), filter_fmap_nat, <- list_fmap_compose.
    rewrite (filter_ext_in _ (fun k => words_bit (w :: ws) (Z.of_nat (64 + k)) = true)); [apply list_fmap_ext; intros ? k _; simpl; f_equal; lia|].
    intros k _. unfold words_bit. replace (Z.of_nat (64 + k)) with (Z.of_nat k + 1 * 64) by lia. rewrite Z.div_add, Z.mod_add by lia.
    rewrite Z2Nat.inj_add by (try apply Z.div_pos; lia). change (Z.to_nat 1) with 1%nat. rewrite Nat.add_1_r. done.
Qed.

(** The numbers of the tags, each once and in order. *)
Definition tag_ids (ws : list Z) : list Z := Z.of_nat <$> filter (fun k => words_bit ws (Z.of_nat k) = true) (seq 0 (64 * length ws)).
Lemma tags_foreach_ok (st : store) (m : LogMessage) (ws : list Z) : tags_wf st m ws -> log_msg_tags_foreach st m = Ret (tag_ids ws).
Proof.
  intros Wf. unfold log_msg_tags_foreach. pose proof (tw_is _ _ _ Wf) as F. pose proof (tw_len _ _ _ Wf) as L. pose proof (tw_num _ _ _ Wf) as N.
  assert (Hids : foreach_words 0 ws = tag_ids ws).
  { rewrite foreach_words_ok by done. unfold tag_ids. apply list_fmap_ext. intros ? k Hk. apply list_elem_of_lookup_2, list_elem_of_filter in Hk as [_ Hk%elem_of_seq]. rewrite u16_small; [lia|]. unfold lenZ in L. lia. }
  case_bool.
  - rewrite <- Hids. rewrite (tag_words_inline _ _ _ Wf Hb). simpl. by rewrite app_nil_r.
  - destruct (tag_words_array _ _ _ Wf Hb) as [Ha Hl]. unfold get. rewrite Ha. cbn [obind]. rewrite firstn_all2 by lia. by rewrite Hids.
Qed.
Lemma tag_ids_spec (ws : list Z) (id : Z) : id ∈ tag_ids ws <-> 0 <= id /\ words_bit ws id = true.
Proof.
  unfold tag_ids. rewrite list_elem_of_fmap. split.
  - intros (k & -> & [H _]%list_elem_of_filter). split; [lia|done].
  - intros [H0 H]. exists (Z.to_nat id). rewrite Z2Nat.id by done. split; [done|]. apply list_elem_of_filter. rewrite Z2Nat.id by done. split; [done|]. apply elem_of_seq.
    unfold words_bit in H. destruct (ws !! Z.to_nat (id / 64)) as [w|] eqn:E; [|simpl in H; by rewrite Z.testbit_0_l in H]. apply lookup_lt_Some in E. pose proof (Z.div_mod id 64). pose proof (Z.mod_pos_bound id 64). lia.
Qed.
