(* ===== verification/LogMsgValues.v ===== *)
(** * What an operation on a message may touch

    A message has three blocks: table, tags, structured data, each its own or
    borrowed from its original.  [kframe] is for one kind of blocks: other
    blocks stay as they are, and the message then has the same block or one of
    its own, changed or new. *)
From S2P Require Import Prelude CString NVTable NVRegistry LogMsgData LogMsgTags NVTableInv NVTableOps NVTableStore NVTableSpec.

Record kframe {A} (mp mp' : gmap Z A) (next next' : Z) (ptr ptr' : option Z) (own own' : bool) : Prop := {
  kf_others : forall p, p < next -> (own = true -> ptr <> Some p) -> mp' !! p = mp !! p;
  kf_ptr : (ptr' = ptr /\ own' = own) \/ (own' = true /\ forall p, ptr' = Some p -> (own = true /\ ptr = Some p) \/ next <= p < next') }.

Lemma kframe_refl {A} (mp : gmap Z A) (next : Z) (ptr : option Z) (own : bool) : kframe mp mp next next ptr ptr own own.
Proof. split; [done|by left]. Qed.
Lemma kframe_same {A} (mp : gmap Z A) (next next' : Z) (ptr : option Z) (own : bool) : kframe mp mp next next' ptr ptr own own.
Proof. split; [done|by left]. Qed.
Lemma kframe_trans {A} (m1 m2 m3 : gmap Z A) (n1 n2 n3 : Z) (p1 p2 p3 : option Z) (o1 o2 o3 : bool) : n1 <= n2 -> n2 <= n3 -> kframe m1 m2 n1 n2 p1 p2 o1 o2 -> kframe m2 m3 n2 n3 p2 p3 o2 o3 -> kframe m1 m3 n1 n3 p1 p3 o1 o3.
Proof.
  intros L1 L2 [O1 P1] [O2 P2]. split.
  - intros p Hp Hn. rewrite O2; [by apply O1|lia|]. intros Ho2 E2. destruct P1 as [[-> ->]|[_ P1]]; [by apply Hn|]. destruct (P1 p E2) as [[? ?]|?]; [by apply Hn|lia].
  - destruct P2 as [[-> ->]|[Ho P2]].
    + destruct P1 as [?|[? P1]]; [by left|]. right. split; [done|]. intros p E. destruct (P1 p E) as [?|?]; [by left|right; lia].
    + right. split; [done|]. intros p E. destruct (P2 p E) as [[Ho2 E2]|?]; [|right; lia]. destruct P1 as [[-> ->]|[_ P1]]; [by left|]. destruct (P1 p E2) as [?|?]; [by left|right; lia].
Qed.

Definition payload_ptr (m : LogMessage) : option Z := Some (msg_payload m).
Definition tags_ptr (m : LogMessage) : option Z := if bool_decide (msg_num_tags m = 0) then None else Some (msg_tags m).
Definition sdata_ptr (m : LogMessage) : option Z := if bool_decide (msg_sdata m = 0) then None else Some (msg_sdata m).
Definition has_own (m : LogMessage) (bit : Z) : bool := Z.testbit (msg_flags m) bit.
(** The numbers of the bits of the flags. *)
Definition OWN_PAYLOAD : Z := 4.
Definition OWN_TAGS : Z := 6.
Definition OWN_SDATA : Z := 7.
Definition REFERENCED : Z := 8.

Record frame (st st' : store) (m m' : LogMessage) : Prop := {
  fr_next : s_next st <= s_next st';
  fr_wf : store_wf st';
  fr_payload : kframe (s_tables st) (s_tables st') (s_next st) (s_next st') (payload_ptr m) (payload_ptr m') (has_own m OWN_PAYLOAD) (has_own m' OWN_PAYLOAD);
  fr_tags : kframe (s_words st) (s_words st') (s_next st) (s_next st') (tags_ptr m) (tags_ptr m') (has_own m OWN_TAGS) (has_own m' OWN_TAGS);
  fr_sdata : kframe (s_handles st) (s_handles st') (s_next st) (s_next st') (sdata_ptr m) (sdata_ptr m') (has_own m OWN_SDATA) (has_own m' OWN_SDATA);
  fr_original : msg_original m' = msg_original m;
  fr_referenced : has_own m' REFERENCED = has_own m REFERENCED }.

Lemma frame_refl (st : store) (m : LogMessage) : store_wf st -> frame st st m m.
Proof. intros W. split; [lia|done|apply kframe_refl..|done|done]. Qed.
Lemma frame_trans (st1 st2 st3 : store) (m1 m2 m3 : LogMessage) : frame st1 st2 m1 m2 -> frame st2 st3 m2 m3 -> frame st1 st3 m1 m3.
Proof.
  intros [N1 W1 P1 T1 S1 O1 R1] [N2 W2 P2 T2 S2 O2 R2].
  split; [lia|done|by eapply (kframe_trans _ _ _ _ _ _ _ _ _ _ _ _ N1 N2)|by eapply (kframe_trans _ _ _ _ _ _ _ _ _ _ _ _ N1 N2)|by eapply (kframe_trans _ _ _ _ _ _ _ _ _ _ _ _ N1 N2)|congruence|congruence].
Qed.

(** Flags are bits. *)
Lemma chk_flag_own (m : LogMessage) (n : Z) : 0 <= n -> log_msg_chk_flag m (Z.shiftl 1 n) = has_own m n.
Proof. apply chk_flag_bit. Qed.
Lemma set_flag_own (m : LogMessage) (n k : Z) : 0 <= n -> has_own (log_msg_set_flag m (Z.shiftl 1 n)) k = bool_decide (k = n) || has_own m k.
Proof. intros Hn. unfold has_own, log_msg_set_flag. destruct m; simpl. rewrite Z.lor_spec, testbit_bit by done. apply orb_comm. Qed.

Lemma tags_frame_frame (st st' : store) (m m' : LogMessage) : tags_frame st st' m m' -> frame st st' m m'.
Proof.
  intros [T H N W O A M]. assert (Hown : forall k, has_own m' k = bool_decide (k = 6) || has_own m k) by (intros k; rewrite M; apply (set_flag_own m 6); lia).
  assert (E : owns_tags m <-> has_own m OWN_TAGS = true) by (unfold owns_tags; change LF_STATE_OWN_TAGS with (Z.shiftl 1 6); by rewrite chk_flag_own).
  assert (F : msg_payload m' = msg_payload m /\ msg_sdata m' = msg_sdata m /\ msg_original m' = msg_original m) by (rewrite M; by destruct m). destruct F as (Fp & Fs & Fo).
  split; [done|done| | | |done|by rewrite Hown].
  - rewrite T. unfold payload_ptr. rewrite Fp, Hown. apply kframe_same.
  - rewrite Hown. split.
    + intros p Hp Ho. apply O; [done|]. intros Hw Hn. intros ->. apply Ho; [by apply E|]. unfold tags_ptr. by rewrite bool_decide_eq_false_2.
    + right. split; [done|]. intros p. unfold tags_ptr. case_bool; [done|]. intros [= <-]. destruct (A Hb) as [(Hw & Hn & Ht)|?]; [|by right]. left. split; [by apply E|]. rewrite bool_decide_eq_false_2 by done. congruence.
  - rewrite H. unfold sdata_ptr. rewrite Fs, Hown. apply kframe_same.
Qed.

(** * Setting the values of a message *)

(** ** What a store into the table does besides the value *)

Lemma foreach_size (func : Z -> Z -> NVTable -> bool * NVTable) (t : NVTable) : (forall h o t, nt_size (snd (func h o t)) = nt_size t) -> nt_size (snd (nv_table_foreach_entry t func)) = nt_size t.
Proof.
  intros Hf. assert (Hs : forall idxs t, nt_size (snd (foreach_static func idxs t)) = nt_size t).
  { induction idxs as [|i idxs IH]; intros t1; [done|]. cbn [foreach_static]. destruct (nv_table_get_entry_at_ofs _) as [o|]; [|apply IH]. pose proof (Hf (Z.of_nat i + 1) o t1) as H. destruct (func _ o t1) as [stop t2]. cbn [snd] in H. destruct stop; cbn [snd]; [done|]. by rewrite IH. }
  assert (Hd : forall idxs t, nt_size (snd (foreach_dyn func idxs t)) = nt_size t).
  { induction idxs as [|i idxs IH]; intros t1; [done|]. cbn [foreach_dyn]. destruct (nt_dyn t1 !! i) as [[h ofs]|]; [|apply IH]. destruct (nv_table_get_entry_at_ofs _) as [o|]; [|apply IH]. pose proof (Hf h o t1) as H. destruct (func h o t1) as [stop t2]. cbn [snd] in H. destruct stop; cbn [snd]; [done|]. by rewrite IH. }
  unfold nv_table_foreach_entry. pose proof (Hs (seq 0 (length (nt_static t))) t) as H. repeat case_match; cbn [snd] in *; subst; try done; rewrite <- ?H; try apply Hd.
Qed.
Lemma set_table_entry_size (t : NVTable) (h o : Z) (slot : option nat) : nt_size (nv_table_set_table_entry t h o slot) = nt_size t.
Proof. unfold nv_table_set_table_entry. case_bool; [done|]. by destruct slot. Qed.
Lemma store_value_size (t : NVTable) (h : Z) (name v : bytes) (ne : option bool) (en : option Z) (slot : option nat) : nt_size (snd (nv_table_store_value t h name v ne en slot)) = nt_size t.
Proof.
  assert (Ha : forall ne, nt_size (snd (nv_table_append_value t h name v ne slot)) = nt_size t).
  { intros ne'. unfold nv_table_append_value, nv_table_reserve_table_entry, nv_table_alloc_value. repeat case_match; simplify_eq; cbn [snd]; rewrite ?set_table_entry_size; done. }
  unfold nv_table_store_value. repeat case_match; cbn [snd]; rewrite ?Ha; done.
Qed.
Lemma add_value_size (fuel : nat) (t : NVTable) (h : Z) (name v : bytes) (ne : option bool) : nt_size (snd (nv_table_add_value_fuel fuel t h name v ne)) = nt_size t.
Proof.
  revert t h name v ne. induction fuel as [|fuel IH]; intros t h name v ne; [done|]. cbn [nv_table_add_value_fuel].
  assert (Hm : forall r h o t, nt_size (snd (nv_table_make_direct (nv_table_add_value_fuel fuel) r h o t)) = nt_size t).
  { intros r h1 o t1. unfold nv_table_make_direct. destruct (nt_heap t1 !! o) as [e|]; [|done]. destruct (e_body e) as [|sl]; [reflexivity|]. destruct (bool_decide _); [|done]. destruct (nv_table_resolve_entry t1 e) as [[w n]|]; [|done].
    pose proof (IH t1 h1 (e_name e) w None) as H9. destruct (nv_table_add_value_fuel fuel t1 h1 (e_name e) w None) as [[ok x] t2]. exact H9. }
  destruct (nv_table_get_entry t h) as [en slot]. case_match; [done|]. destruct (match nv_lookup t h with Some e => _ | None => false end); [|by rewrite store_value_size].
  pose proof (foreach_size (nv_table_make_direct (nv_table_add_value_fuel fuel) h) t (Hm h)) as Hf. destruct (nv_table_foreach_entry _ _) as [[] t1]; cbn [snd] in *; [done|]. by rewrite store_value_size.
Qed.

Section new_entry.
Variable nm : Z -> bytes.
Lemma lookup_link_none (t : NVTable) (h : Z) : nv_wf nm t -> nv_lookup t h = None <-> link t h = None.
Proof. intros W. split; [|intros H; by rewrite nv_lookup_link, H]. destruct (link t h) as [o|] eqn:E; [|done]. destruct (wf_lookup_Some _ _ _ _ W E) as (e & _ & ->). done. Qed.
Lemma store_value_new (t : NVTable) (h : Z) (name v : bytes) (b : bool) (en : option Z) (slot : option nat) (ok : bool) (ne' : option bool) (t' : NVTable) :
  nv_table_store_value t h name v (Some b) en slot = (ok, ne', t') -> ne' = Some (if en then b else true).
Proof. unfold nv_table_store_value, nv_table_append_value. intros H. repeat case_match; simplify_eq; done. Qed.
(** The flag tells that there was no entry; a failed store does not make one. *)
Lemma add_value_new (t : NVTable) (h : Z) (v : bytes) (b ok : bool) (ne' : option bool) (t' : NVTable) : nv_wf nm t -> 0 < h < 2 ^ 16 -> nv_table_add_value t h (nm h) v (Some b) = (ok, ne', t') ->
  ne' = Some (bool_decide (nv_lookup t h = None)) /\ (nv_lookup t' h = None <-> ok = false /\ nv_lookup t h = None) /\
  (forall h', h' <> h -> nv_lookup t' h' = None <-> nv_lookup t h' = None).
Proof.
  intros Hwf Hh. unfold nv_table_add_value. set (f := 1%nat). simpl. destruct (nv_table_get_entry t h) as [en slot] eqn:Hg. rewrite andb_false_r. simpl.
  assert (Hlink : link t h = en) by (unfold link; by rewrite Hg). pose proof (lookup_link_none t h Hwf) as Hn.
  assert (Hfin : forall t1, nv_wf nm t1 -> (forall h', nv_lookup t1 h' = None <-> nv_lookup t h' = None) -> nv_table_get_entry t1 h = (en, slot) -> no_refs t1 h ->
    nv_table_store_value t1 h (nm h) (truncate_value v) (Some false) en slot = (ok, ne', t') -> ne' = Some (bool_decide (nv_lookup t h = None)) /\ (nv_lookup t' h = None <-> ok = false /\ nv_lookup t h = None) /\ (forall h', h' <> h -> nv_lookup t' h' = None <-> nv_lookup t h' = None)).
  { intros t1 Hwf1 Hv1 Hg1 Hn1 E. split.
    - rewrite (store_value_new _ _ _ _ _ _ _ _ _ _ E). rewrite Hlink in Hn. f_equal. destruct en; [|by rewrite bool_decide_eq_true_2 by tauto]. symmetry. apply bool_decide_eq_false. intros H%Hn. done.
    - pose proof (store_value_spec nm t1 h (nm h) (truncate_value v) (Some false) en slot Hwf1 Hh Hg1) as Hst. rewrite E in Hst.
      destruct Hst as [_ _ _ Sl _ _]; [done|intros; by apply (lookup_name nm t1)|done|]. destruct ok; [|split; [rewrite Sl, Hv1; tauto|intros h' _; by rewrite Sl, Hv1]]. destruct Sl as (e & Hu & _).
      split; [rewrite Hu, decide_True by done; split; [done|]; by intros [? _]|]. intros h' Hne. by rewrite Hu, decide_False by done. }
  destruct (nv_lookup t h) as [e|] eqn:El; cycle 1.
  { apply Hfin; [done|done|done|]. apply (no_refs_unreferenced nm); [done|]. by rewrite El. }
  destruct (negb (e_indirect e) && e_referenced e) eqn:Er; cycle 1.
  { apply Hfin; [done|done|done|]. apply (no_refs_unreferenced nm); [done|]. rewrite El. by intros ? [= <-]. }
  apply andb_true_iff in Er as [Ei _]. apply negb_true_iff in Ei. pose proof (make_direct_all nm 0 t h e Hwf El Ei) as Hmd. subst f.
  destruct (nv_table_foreach_entry _ _) as [[] t1]; destruct Hmd as [HI Hn1].
  - intros [= <- <- <-]. split; [done|]. split; [rewrite (md_present _ _ _ _ HI), El; split; [done|by intros [_ ?]]|]. intros h' _. apply HI.
  - apply Hfin; [apply HI|intros h'; rewrite (md_present _ _ _ _ HI); done|by rewrite (md_entry _ _ _ _ HI)|by apply Hn1].
Qed.
End new_entry.

(** ** The loop that makes the table larger *)

Definition table_value (st : store) (p h : Z) : option (bytes * Z) := match s_tables st !! p with Some t => nv_table_get_value t h | None => None end.
Lemma put_table_wf (st : store) (p : Z) (t : NVTable) : store_wf st -> p < s_next st -> store_wf (put_table st p t).
Proof. intros [H0 Hf] Hp. split; [done|]. cbn. intros q Hq. rewrite lookup_insert_ne by lia. by apply Hf. Qed.
Lemma fresh_wf (st : store) : store_wf st -> store_wf (snd (fresh st)).
Proof. intros [H0 Hf]. split; [cbn; lia|]. cbn. intros q Hq. apply Hf. lia. Qed.
Lemma free_table_wf (st : store) (p : Z) : store_wf st -> store_wf (free_table st p).
Proof. intros [H0 Hf]. split; [done|]. cbn. intros q Hq. destruct (Hf q Hq) as (? & ? & ?). split_and!; [|done|done]. by apply lookup_delete_None; right. Qed.
Lemma table_bound (st : store) (p : Z) (t : NVTable) : store_wf st -> s_tables st !! p = Some t -> p < s_next st.
Proof. intros [_ Hf] H. destruct (decide (p < s_next st)) as [|L]; [done|]. destruct (Hf p ltac:(lia)) as (E & _). congruence. Qed.

(** What changes only the table [p], or puts it somewhere else. *)
Record table_frame (st st' : store) (p p' : Z) : Prop := {
  tb_words : s_words st' = s_words st;
  tb_handles : s_handles st' = s_handles st;
  tb_next : s_next st <= s_next st';
  tb_wf : store_wf st';
  tb_others : forall q, q < s_next st -> q <> p -> s_tables st' !! q = s_tables st !! q;
  tb_ptr : p' = p \/ s_next st <= p' < s_next st' }.

Lemma add_loop_S (fuel : nat) (add : NVTable -> option bool -> outcome (bool * option bool * NVTable)) (st : store) (p : Z) (new_entry : option bool) : add_loop (S fuel) add st p new_entry =
  (let! t := get (s_tables st) p in
   let! (ok, new_entry, t) := add t new_entry in
   let st := put_table st p t in
   if ok : bool then Ret (st, p, new_entry, true)
   else
     match nv_table_realloc t with
     | None => Ret (st, p, new_entry, false)
     | Some (t, old) =>
         let st := match old with Some o => put_table st p o | None => free_table st p end in
         let '(p, st) := fresh st in add_loop fuel add (put_table st p t) p new_entry
     end).
Proof. done. Qed.

Section set_value.
Variable nm : Z -> bytes.
Variables (h : Z) (v : bytes).
Hypothesis Hh : 0 < h < 2 ^ 16.

Record set_done (t0 t' : NVTable) (ok : bool) : Prop := {
  sv_wf : nv_wf nm t';
  sv_other : forall h', h' <> h -> nv_table_get_value t' h' = nv_table_get_value t0 h';
  sv_value : nv_table_get_value t' h = if ok then Some (truncate_value v, lenZ (truncate_value v)) else nv_table_get_value t0 h;
  sv_full : ok = false -> nt_size t' = NV_TABLE_MAX_BYTES;
  sv_present : nv_lookup t' h = None <-> ok = false /\ nv_lookup t0 h = None;
  sv_present_other : forall h', h' <> h -> nv_lookup t' h' = None <-> nv_lookup t0 h' = None }.

Lemma add_loop_ok (fuel : nat) (st : store) (p : Z) (t : NVTable) (b : bool) : store_wf st -> s_tables st !! p = Some t -> nv_wf nm t -> NV_TABLE_MAX_BYTES <= nt_size t * 2 ^ Z.of_nat fuel ->
  exists st' p' t' ok, add_loop (S fuel) (fun t ne => Ret (nv_table_add_value t h (nm h) v ne)) st p (Some b) = Ret (st', p', Some (bool_decide (nv_lookup t h = None)), ok) /\
    table_frame st st' p p' /\ s_tables st' !! p' = Some t' /\ set_done t t' ok.
Proof.
  revert st p t b. induction fuel as [|fuel IH]; intros st p t b Hst Ht Hwf Hsz; rewrite add_loop_S; unfold get at 1; rewrite Ht; cbn [obind]; pose proof (add_value_fuel_spec nm 0 t h v (Some b) Hwf Hh) as Ha; change (nv_table_add_value_fuel 2) with nv_table_add_value in Ha;
    pose proof (add_value_size 2 t h (nm h) v (Some b)) as Hz; change (nv_table_add_value_fuel 2) with nv_table_add_value in Hz;
    destruct (nv_table_add_value t h (nm h) v (Some b)) as [[ok ne'] t1] eqn:E; destruct Ha as (W1 & O1 & V1); cbn [snd] in Hz; cbn [obind];
    destruct (add_value_new nm t h v b ok ne' t1 Hwf Hh E) as (-> & N1 & N2); pose proof (table_bound st p t Hst Ht) as Hp;
    assert (F1 : table_frame st (put_table st p t1) p p) by (split; cbn; [done|done|lia|by apply put_table_wf|intros q Hq Hn; by rewrite lookup_insert_ne|by left]);
    (destruct ok; [eexists _, p, t1, true; split_and!; [done|done|cbn; by rewrite lookup_insert_eq|by split]|]).
  - pose proof (realloc_size nm t1 W1) as R. destruct (nv_table_realloc t1) as [[t2 old]|]; [destruct R; pose proof (wf_size _ _ Hwf); lia|]. eexists _, p, t1, false. split_and!; [done|done|cbn; by rewrite lookup_insert_eq|by split].
  - pose proof (realloc_size nm t1 W1) as R. destruct (nv_table_realloc t1) as [[t2 old]|] eqn:Er; [|eexists _, p, t1, false; split_and!; [done|done|cbn; by rewrite lookup_insert_eq|by split]].
    destruct R as (Hs2 & _ & rc & bo & Hr). destruct (nv_table_realloc_spec nm t1 t2 old W1 Er) as [W2 V2]. set (st2 := match old with Some o => _ | None => _ end).
    assert (Hst2 : store_wf st2 /\ s_next st2 = s_next st /\ s_words st2 = s_words st /\ s_handles st2 = s_handles st /\ forall q, q <> p -> s_tables st2 !! q = s_tables st !! q).
    { assert (Hst1 : store_wf (put_table st p t1)) by (by apply put_table_wf). subst st2. destruct old; split_and!; try done; try (by apply put_table_wf); try (by apply free_table_wf); intros q Hq; cbn; rewrite ?lookup_delete_ne, ?lookup_insert_ne by done; done. }
    destruct Hst2 as (Hst2 & Nx & Wd & Hd & Ot). cbn [fresh]. set (p2 := s_next st2). pose proof (fresh_wf st2 Hst2) as Hst3. cbn [fresh snd] in Hst3. pose proof (wf_size_nonneg nm t Hwf) as Hpos.
    destruct (IH (put_table (mkStore (s_tables st2) (s_words st2) (s_handles st2) (p2 + 1)) p2 t2) p2 t2 (bool_decide (nv_lookup t h = None))) as (st' & p' & t' & ok & -> & F & Ht' & D).
    { apply put_table_wf; [done|cbn; lia]. } { cbn. by rewrite lookup_insert_eq. } { done. } { rewrite Hs2, Hz, Nat2Z.inj_succ, Z.pow_succ_r in * by lia. unfold NV_TABLE_MAX_BYTES in *. nia. }
    assert (Hl : nv_lookup t2 h = nv_lookup t1 h) by (rewrite Hr; done). rewrite Hl. assert (Hb : bool_decide (nv_lookup t1 h = None) = bool_decide (nv_lookup t h = None)) by (apply bool_decide_ext; tauto). rewrite Hb.
    exists st', p', t', ok. split_and!; [done| |done|].
    + destruct F as [Fw Fh Fn Fs Fo Fp]. cbn in *. split; [congruence|congruence|lia|done| |right; subst p2; lia].
      intros q Hq Hne. rewrite Fo by (subst p2; lia). rewrite lookup_insert_ne by (subst p2; lia). by apply Ot.
    + destruct D as [Dw Do Dv Df Dp Dq]. assert (Hl2 : forall h', nv_lookup t2 h' = nv_lookup t1 h') by (intros h'; rewrite Hr; done). split; [done| | |done|rewrite Dp, Hl2, N1; tauto|intros h' Hne; rewrite Dq, Hl2, N2 by done; done].
      * intros h' Hne. by rewrite Do, V2, O1.
      * rewrite Dv. destruct ok; [done|]. by rewrite V2, V1.
Qed.
End set_value.

(** * The list of structured data of a message *)

(** ** The registry of the names of values *)

Definition handle_ok (reg : NVRegistry) (h : Z) : Prop := 1 <= h <= lenZ (r_names reg).
Definition reg_name (reg : NVRegistry) (h : Z) : bytes := default [] (hd_name <$> r_names reg !! Z.to_nat (h - 1)).
Definition is_sdata (reg : NVRegistry) (h : Z) : bool := match r_names reg !! Z.to_nat (h - 1) with Some d => bool_decide (Z.land (u8 (hd_flags d)) LM_VF_SDATA <> 0) | None => false end.
Record msg_registry (reg : NVRegistry) : Prop := {
  mr_wf : reg_wf reg;
  mr_small : lenZ (r_names reg) < 2 ^ 16;
  mr_sdata : forall h, is_sdata reg h = true -> exists rest, reg_name reg h = logmsg_sd_prefix ++ rest }.

Lemma handle_lookup (reg : NVRegistry) (h : Z) : handle_ok reg h -> exists d, r_names reg !! Z.to_nat (h - 1) = Some d.
Proof. intros H. apply lookup_lt_is_Some_2. unfold handle_ok, lenZ in H. lia. Qed.
Lemma get_name_ok (reg : NVRegistry) (h : Z) : reg_wf reg -> handle_ok reg h -> nv_registry_get_handle_name reg h = Ret (reg_name reg h, lenZ (reg_name reg h)) /\ lenZ (reg_name reg h) <= 255.
Proof.
  intros W H. unfold nv_registry_get_handle_name, reg_name. rewrite bool_decide_eq_false_2 by (unfold handle_ok in H; lia). destruct (handle_lookup reg h H) as [d Hd]. rewrite Hd. cbn. destruct (rw_names _ W _ _ Hd) as (_ & ? & ->). split; [done|lia].
Qed.
Lemma get_flags_ok (reg : NVRegistry) (h : Z) : handle_ok reg h -> exists f, nv_registry_get_handle_flags reg h = Ret f /\ bool_decide (Z.land (u8 f) LM_VF_SDATA <> 0) = is_sdata reg h.
Proof.
  intros H. unfold nv_registry_get_handle_flags, is_sdata. rewrite bool_decide_eq_false_2 by (unfold handle_ok in H; lia). destruct (handle_lookup reg h H) as [d Hd]. rewrite Hd. eauto.
Qed.

(** ** Where a new element goes *)

Definition in_block (reg : NVRegistry) (block : bytes) (x : Z) : bool := bool_decide (lenZ (reg_name reg x) > lenZ block) && strncmp_eq (reg_name reg x) block (length block).
(** In front of the last element that [P] holds of, else at the end. *)
Fixpoint insert_before_last (P : Z -> bool) (h : Z) (hs : list Z) : list Z :=
  match hs with
  | [] => [h]
  | x :: hs => if existsb P hs || negb (P x) then x :: insert_before_last P h hs else h :: x :: hs
  end.
Definition block_of (name : bytes) : bytes := match memrchr name 46 with Some dot => take dot name | None => name end.
Definition sd_insert (reg : NVRegistry) (initial_parse : bool) (hs : list Z) (h : Z) : list Z :=
  if bool_decide (lenZ hs = 255) then hs else if initial_parse then hs ++ [h] else insert_before_last (in_block reg (block_of (reg_name reg h))) h hs.

Lemma insert_last_Some (P : Z -> bool) (h : Z) (l1 : list Z) (x : Z) (l2 : list Z) : P x = true -> existsb P l2 = false -> insert_before_last P h (l1 ++ x :: l2) = l1 ++ h :: x :: l2.
Proof. intros Hx H2. induction l1 as [|y l1 IH]; simpl; [by rewrite Hx, H2|]. rewrite existsb_app. simpl. rewrite Hx, orb_true_r. simpl. by rewrite IH. Qed.
Lemma insert_last_None (P : Z -> bool) (h : Z) (hs : list Z) : existsb P hs = false -> insert_before_last P h hs = hs ++ [h].
Proof. induction hs as [|x hs IH]; simpl; [done|]. intros [Hx Hs]%orb_false_iff. rewrite Hs, Hx. simpl. by rewrite IH. Qed.
Lemma insert_last_split (P : Z -> bool) (h : Z) (hs : list Z) : exists l1 l2, hs = l1 ++ l2 /\ insert_before_last P h hs = l1 ++ h :: l2.
Proof.
  induction hs as [|x hs (l1 & l2 & E & IH)]; [by exists [], []|]. cbn [insert_before_last]. destruct (_ || _); [|by exists [], (x :: hs)]. exists (x :: l1), l2. split; [by rewrite E|by rewrite IH].
Qed.
Lemma sd_insert_split (reg : NVRegistry) (b : bool) (hs : list Z) (h : Z) : sd_insert reg b hs h = hs /\ lenZ hs = 255 \/ lenZ hs <> 255 /\ exists l1 l2, hs = l1 ++ l2 /\ sd_insert reg b hs h = l1 ++ h :: l2.
Proof.
  unfold sd_insert. case_bool; [by left|]. right. split; [done|]. destruct b; [|apply insert_last_split]. exists hs, []. by rewrite app_nil_r.
Qed.

Lemma find_block_ok (reg : NVRegistry) (block : bytes) (hs rest : list Z) : reg_wf reg -> Forall (handle_ok reg) hs ->
  exists o, find_block reg (hs ++ rest) block (length hs) = Ret o /\
    match o with Some i => exists l1 x l2, hs = l1 ++ x :: l2 /\ length l1 = i /\ in_block reg block x = true /\ existsb (in_block reg block) l2 = false | None => existsb (in_block reg block) hs = false end.
Proof.
  intros W. revert rest. induction hs as [|x hs IH] using rev_ind; intros rest F; [by exists None|]. apply Forall_app in F as [F Fx]. apply Forall_cons in Fx as [Fx _].
  rewrite length_app, Nat.add_comm. cbn [length Nat.add find_block]. rewrite <- app_assoc, (lookup_app_r hs) by lia. rewrite Nat.sub_diag. cbn [lookup app list_lookup].
  destruct (get_name_ok reg x W Fx) as [-> _]. cbn [obind]. fold (in_block reg block x). destruct (in_block reg block x) eqn:Ex.
  - eexists. split; [done|]. exists hs, x, []. done.
  - destruct (IH (x :: rest) F) as (o & -> & Ho). exists o. split; [done|]. destruct o as [i|].
    + destruct Ho as (l1 & y & l2 & -> & Hl & Hy & H2). exists l1, y, (l2 ++ [x]). split_and!; [by rewrite <- app_assoc|done|done|]. rewrite existsb_app, H2. simpl. by rewrite Ex.
    + rewrite existsb_app, Ho. simpl. by rewrite Ex.
Qed.

Record sdata_wf (st : store) (m : LogMessage) (hs : list Z) : Prop := {
  sd_num : msg_num_sdata m = lenZ hs;
  sd_alloc : lenZ hs <= msg_alloc_sdata m <= 255;
  sd_array : if bool_decide (msg_sdata m = 0) then hs = [] /\ msg_alloc_sdata m = 0 else exists rest, s_handles st !! msg_sdata m = Some (hs ++ rest) /\ lenZ (hs ++ rest) = msg_alloc_sdata m }.

(** The part of a message that does not concern its structured data stays. *)
Definition same_fields (m m' : LogMessage) : Prop :=
  msg_payload m' = msg_payload m /\ msg_tags m' = msg_tags m /\ msg_num_tags m' = msg_num_tags m /\ msg_num_matches m' = msg_num_matches m /\ msg_initial_parse m' = msg_initial_parse m.
Definition same_rest (st st' : store) (m m' : LogMessage) : Prop := s_tables st' = s_tables st /\ s_words st' = s_words st /\ same_fields m m'.

Lemma handles_bound (st : store) (p : Z) (l : list Z) : store_wf st -> s_handles st !! p = Some l -> p < s_next st.
Proof. intros [_ Hf] H. destruct (decide (p < s_next st)) as [|L]; [done|]. destruct (Hf p ltac:(lia)) as (_ & _ & E). congruence. Qed.
Lemma sdata_frame (st : store) (tb : gmap Z (list Z)) (next' : Z) (m m' : LogMessage) : store_wf st -> s_next st <= next' -> (forall p, next' <= p -> tb !! p = None) -> same_fields m m' -> msg_original m' = msg_original m ->
  (forall k, k <> OWN_SDATA -> has_own m' k = has_own m k) -> kframe (s_handles st) tb (s_next st) next' (sdata_ptr m) (sdata_ptr m') (has_own m OWN_SDATA) (has_own m' OWN_SDATA) -> frame st (mkStore (s_tables st) (s_words st) tb next') m m'.
Proof.
  intros [H0 Hf] Hn Ht (Ep & Et & En & _ & _) Eo Hk K. split; cbn [s_tables s_words s_handles s_next]; [done| | | |done|done|by apply Hk].
  - split; [cbn; lia|]. cbn. intros p Hp. destruct (Hf p ltac:(lia)) as (? & ? & _). auto.
  - unfold payload_ptr. rewrite Ep, Hk by done. apply kframe_same.
  - unfold tags_ptr. rewrite Et, En, Hk by done. apply kframe_same.
Qed.

(** The branch that makes a new array. *)
Lemma new_sdata_ok (st : store) (m : LogMessage) (hs : list Z) (alloc : Z) : store_wf st -> sdata_wf st m hs -> lenZ hs < alloc <= 255 -> has_own m OWN_SDATA = false \/ msg_sdata m = 0 ->
  exists st' m' rest, (let! old := (if bool_decide (msg_num_sdata m <> 0) then get (s_handles st) (msg_sdata m) else Ret []) in
    let '(p, st) := fresh st in
    Ret (put_handles st p (take (Z.to_nat (msg_num_sdata m)) old ++ repeat 0 (Z.to_nat (alloc - msg_num_sdata m))), log_msg_set_flag (set_sdata m p (msg_alloc_sdata m) (msg_num_sdata m)) LF_STATE_OWN_SDATA)) = Ret (st', m') /\
    frame st st' m m' /\ same_rest st st' m m' /\ msg_num_sdata m' = lenZ hs /\ has_own m' OWN_SDATA = true /\ msg_sdata m' <> 0 /\ s_handles st' !! msg_sdata m' = Some (hs ++ rest) /\ lenZ (hs ++ rest) = alloc.
Proof.
  intros Hst [Hn Ha Hr] Hal Hown. pose proof Hst as [H0 Hf]. pose proof (lenZ_nonneg hs) as Hl.
  assert (Ho : exists old, (if bool_decide (msg_num_sdata m <> 0) then get (s_handles st) (msg_sdata m) else Ret []) = Ret old /\ take (Z.to_nat (msg_num_sdata m)) old = hs).
  { case_bool; [|exists []; split; [done|]; apply dec_stable in Hb; rewrite take_nil; symmetry; apply lenZ_zero_nil; lia].
    destruct (bool_decide_reflect (msg_sdata m = 0)) as [E|E]; [destruct Hr as [-> _]; by rewrite lenZ_nil in Hn|]. destruct Hr as (rest & Hs & _). unfold get. rewrite Hs. exists (hs ++ rest). split; [done|]. rewrite Hn. unfold lenZ. by rewrite Nat2Z.id, take_app_length. }
  destruct Ho as (old & -> & Et). cbn [obind fresh]. rewrite Et. eexists _, _, (repeat 0 (Z.to_nat (alloc - msg_num_sdata m))). split; [done|].
  assert (Hown' : forall k, has_own (log_msg_set_flag (set_sdata m (s_next st) (msg_alloc_sdata m) (msg_num_sdata m)) LF_STATE_OWN_SDATA) k = bool_decide (k = OWN_SDATA) || has_own m k) by (intros k; apply (set_flag_own (set_sdata m _ _ _) OWN_SDATA); done).
  split_and!; [|by destruct m|by destruct m|by rewrite Hown'|cbn; lia|cbn; by rewrite lookup_insert_eq|rewrite lenZ_app; unfold lenZ at 2; rewrite repeat_length; lia].
  unfold put_handles. cbn [s_tables s_words s_handles s_next]. apply sdata_frame; [done|cbn; lia| |by destruct m|by destruct m|intros k Hk; by rewrite Hown', bool_decide_eq_false_2|].
  - cbn. intros q Hq. rewrite lookup_insert_ne by lia. apply Hf. lia.
  - rewrite Hown'. split; cbn [s_handles s_next put_handles].
    + intros q Hq _. by rewrite lookup_insert_ne by lia.
    + right. split; [done|]. intros q. unfold sdata_ptr. cbn [log_msg_set_flag set_flags set_sdata msg_sdata]. rewrite bool_decide_eq_false_2 by lia. intros [= <-]. right. lia.
Qed.

Lemma own_sdata_ok (st : store) (m : LogMessage) (hs : list Z) (alloc : Z) : store_wf st -> sdata_wf st m hs -> lenZ hs < alloc <= 255 -> msg_alloc_sdata m <= alloc ->
  exists st' m' rest, own_sdata st m alloc = Ret (st', m') /\ frame st st' m m' /\ same_rest st st' m m' /\ msg_num_sdata m' = lenZ hs /\ has_own m' OWN_SDATA = true /\ msg_sdata m' <> 0 /\
    s_handles st' !! msg_sdata m' = Some (hs ++ rest) /\ lenZ (hs ++ rest) = alloc.
Proof.
  intros Hst [Hn Ha Hr] Hal Hle. pose proof Hst as [H0 Hf]. pose proof (lenZ_nonneg hs) as Hl. unfold own_sdata. change LF_STATE_OWN_SDATA with (Z.shiftl 1 OWN_SDATA). rewrite chk_flag_own by done. change (Z.testbit _ _) with (has_own m OWN_SDATA).
  destruct (has_own m OWN_SDATA) eqn:Own; cbn [andb]; [case_bool|].
  - rewrite bool_decide_eq_false_2 in Hr by done. destruct Hr as (rest & Hs & Hlen). pose proof (handles_bound _ _ _ Hst Hs) as Hp. case_bool.
    + unfold get. rewrite Hs. cbn [obind fresh]. rename Hb0 into Lt. eexists _, _, (rest ++ repeat 0 (Z.to_nat (alloc - msg_alloc_sdata m))). split; [by rewrite <- app_assoc|].
      assert (Hlen' : lenZ (hs ++ rest ++ repeat 0 (Z.to_nat (alloc - msg_alloc_sdata m))) = alloc) by (rewrite app_assoc, lenZ_app, Hlen; unfold lenZ; rewrite repeat_length; lia).
      split_and!; [|by destruct m|by destruct m|done|cbn; lia|cbn; by rewrite lookup_insert_eq|done].
      unfold put_handles, free_handles. cbn [s_tables s_words s_handles s_next]. apply sdata_frame; [done|cbn; lia| |by destruct m|by destruct m|by destruct m|].
      * cbn. intros q Hq. rewrite lookup_insert_ne by lia. apply lookup_delete_None. right. apply Hf. lia.
      * split; cbn.
        -- intros q Hq Hne. rewrite lookup_insert_ne by lia. rewrite lookup_delete_ne; [done|]. intros E. apply Hne; [done|]. unfold sdata_ptr. rewrite bool_decide_eq_false_2 by done. congruence.
        -- right. split; [done|]. intros q. unfold sdata_ptr. cbn [set_sdata msg_sdata]. rewrite bool_decide_eq_false_2 by lia. intros [= <-]. right. lia.
    + eexists _, _, rest. split; [done|]. split_and!; [by apply frame_refl|done..|lia].
  - apply dec_stable in Hb. apply new_sdata_ok; [done|by split|done|by right].
  - apply new_sdata_ok; [done|by split|done|by left].
Qed.

Lemma sdata_name_dot (rest : bytes) : exists dot, memrchr (logmsg_sd_prefix ++ rest) 46 = Some dot.
Proof.
  assert (H : forall l, 46 ∈ l -> exists dot, memrchr l 46 = Some dot).
  { induction l as [|x l IH]; [by intros ?%elem_of_nil|]. intros Hx. cbn [memrchr]. destruct (memrchr l 46) as [i|] eqn:E; [eauto|]. case_bool; [eauto|]. apply elem_of_cons in Hx as [?|?]; [congruence|]. destruct IH as [? ?]; [done|congruence]. }
  apply H. apply elem_of_app. left. vm_compute. left.
Qed.

(** The array after the insertion. *)
Lemma insert_array (h : Z) (l1 : list Z) (x : Z) (l2 rest : list Z) :
  take (length l1) ((l1 ++ x :: l2) ++ rest) ++ h :: take (length (l1 ++ x :: l2) - length l1) (drop (length l1) ((l1 ++ x :: l2) ++ rest)) ++ drop (S (length (l1 ++ x :: l2))) ((l1 ++ x :: l2) ++ rest) =
  (l1 ++ h :: x :: l2) ++ drop 1 rest.
Proof.
  rewrite <- !app_assoc. rewrite take_app_length, drop_app_length. f_equal. cbn [app]. f_equal. rewrite length_app. replace (length l1 + length (x :: l2) - length l1)%nat with (length (x :: l2)) by lia.
  rewrite app_comm_cons, take_app_length. rewrite drop_app_ge by (simpl; lia). rewrite drop_app_ge by (simpl; lia). cbn [app]. do 2 f_equal. f_equal. simpl. lia.
Qed.

Lemma update_sdata_slow_ok (reg : NVRegistry) (st : store) (m : LogMessage) (hs : list Z) (h : Z) : msg_registry reg -> store_wf st -> sdata_wf st m hs -> Forall (handle_ok reg) hs -> is_sdata reg h = true ->
  exists st' m', log_msg_update_sdata_slow reg st m h (reg_name reg h) = Ret (st', m') /\ frame st st' m m' /\ same_rest st st' m m' /\ sdata_wf st' m' (sd_insert reg (msg_initial_parse m) hs h).
Proof.
  intros [Wr _ Hsd] Hst Wf F Hh. pose proof Wf as [Hn Ha Hr]. unfold log_msg_update_sdata_slow, sd_insert. rewrite Hn. case_bool; [exists st, m; split_and!; [done|by apply frame_refl|done|done]|]. rename Hb into H255.
  set (alloc := if bool_decide (msg_alloc_sdata m <= lenZ hs) then _ else _). assert (Hal : lenZ hs < alloc <= 255 /\ msg_alloc_sdata m <= alloc) by (subst alloc; case_bool; lia). destruct Hal as [Hal Hle].
  destruct (own_sdata_ok st m hs alloc Hst Wf Hal Hle) as (st1 & m1 & rest & -> & F1 & S1 & N1 & O1 & P1 & H1 & L1). cbn [obind]. unfold get. rewrite H1. cbn [obind].
  destruct (Hsd h Hh) as [r Er]. destruct (sdata_name_dot r) as [dot Hdot]. rewrite <- Er in Hdot. unfold block_of. rewrite Hdot. destruct S1 as (Tb1 & Wd1 & Sp & St & Sn & Sm & Si). rewrite Si.
  set (block := take dot (reg_name reg h)). assert (Hlz : Z.to_nat (lenZ hs) = length hs) by (unfold lenZ; lia). rewrite Hlz.
  assert (Hrest : rest <> []) by (intros ->; rewrite app_nil_r in L1; lia).
  assert (G : exists o, (if msg_initial_parse m then Ret None else find_block reg (hs ++ rest) block (length hs)) = Ret o /\
    match o with Some i => take i (hs ++ rest) ++ h :: take (length hs - i) (drop i (hs ++ rest)) ++ drop (S (length hs)) (hs ++ rest) | None => <[length hs := h]> (hs ++ rest) end =
    (if msg_initial_parse m then hs ++ [h] else insert_before_last (in_block reg block) h hs) ++ drop 1 rest).
  { assert (Hi : <[length hs := h]> (hs ++ rest) = (hs ++ [h]) ++ drop 1 rest) by (destruct rest as [|y rest]; [done|]; rewrite insert_app_r_alt by lia; rewrite Nat.sub_diag, <- app_assoc; done).
    destruct (msg_initial_parse m); [by exists None|]. destruct (find_block_ok reg block hs rest Wr F) as (o & -> & Ho). exists o. split; [done|]. destruct o as [i|].
    - destruct Ho as (l1 & x & l2 & -> & <- & Hx & H2). rewrite insert_last_Some by done. apply insert_array.
    - by rewrite insert_last_None. }
  destruct G as (o & -> & Ea). cbn [obind]. rewrite bool_decide_eq_true_2 by (rewrite L1; lia). cbn [g_assert obind]. rewrite Ea.
  set (hs' := if msg_initial_parse m then _ else _). eexists _, _. split; [done|]. pose proof (lenZ_nonneg hs) as Hl0.
  assert (Hl' : lenZ hs' = lenZ hs + 1). { subst hs'. destruct (msg_initial_parse m); [by rewrite lenZ_app|]. destruct (insert_last_split (in_block reg block) h hs) as (l1 & l2 & -> & ->). rewrite !lenZ_app, lenZ_cons. lia. }
  pose proof (fr_wf _ _ _ _ F1) as Hst1. pose proof (handles_bound _ _ _ Hst1 H1) as Hp1. split_and!.
  - eapply frame_trans; [exact F1|]. unfold put_handles. apply sdata_frame; [done|lia| |done|done|done|].
    + intros p Hp. rewrite lookup_insert_ne by lia. by apply Hst1.
    + change (has_own (set_sdata m1 _ _ _) OWN_SDATA) with (has_own m1 OWN_SDATA). unfold sdata_ptr. cbn [set_sdata msg_sdata]. split; [|by left]. intros p Hp Hne. rewrite lookup_insert_ne; [done|]. intros E. apply Hne; [done|]. rewrite bool_decide_eq_false_2 by done. congruence.
  - split_and!; done.
  - rewrite !u8_small by lia. split; cbn [set_sdata msg_num_sdata msg_alloc_sdata msg_sdata]; [lia|lia|]. rewrite bool_decide_eq_false_2 by done. cbn [put_handles s_handles]. exists (drop 1 rest). rewrite lookup_insert_eq. split; [done|].
    rewrite lenZ_app, Hl'. rewrite lenZ_app in L1. unfold lenZ in *. rewrite length_drop. destruct rest; [done|]. simpl in *. lia.
Qed.

Lemma update_sdata_ok (reg : NVRegistry) (st : store) (m : LogMessage) (hs : list Z) (h : Z) : msg_registry reg -> store_wf st -> sdata_wf st m hs -> Forall (handle_ok reg) hs -> handle_ok reg h ->
  exists st' m', log_msg_update_sdata reg st m h (reg_name reg h) = Ret (st', m') /\ frame st st' m m' /\ same_rest st st' m m' /\ sdata_wf st' m' (if is_sdata reg h then sd_insert reg (msg_initial_parse m) hs h else hs).
Proof.
  intros Mr Hst Wf F Hh. unfold log_msg_update_sdata. destruct (get_flags_ok reg h Hh) as (f & -> & Hf). cbn [obind]. rewrite Hf. destruct (is_sdata reg h) eqn:E; [by apply update_sdata_slow_ok|].
  exists st, m. split_and!; [done|by apply frame_refl|done|done].
Qed.

(** * Setting a value of a message, as a whole *)

Lemma payload_frame (st st' : store) (m m' : LogMessage) : store_wf st' -> s_words st' = s_words st -> s_handles st' = s_handles st -> s_next st <= s_next st' -> tags_ptr m' = tags_ptr m -> sdata_ptr m' = sdata_ptr m -> msg_original m' = msg_original m ->
  (forall k, k <> OWN_PAYLOAD -> has_own m' k = has_own m k) -> kframe (s_tables st) (s_tables st') (s_next st) (s_next st') (payload_ptr m) (payload_ptr m') (has_own m OWN_PAYLOAD) (has_own m' OWN_PAYLOAD) -> frame st st' m m'.
Proof.
  intros W Ew Eh Hn Et Es Eo Hk K. split; [done|done|done| | |done|by apply Hk].
  - rewrite Ew, Et, Hk by done. apply kframe_same.
  - rewrite Eh, Es, Hk by done. apply kframe_same.
Qed.

(** Fields that setting a value in the table does not touch. *)
Definition same_others (m m' : LogMessage) : Prop :=
  msg_tags m' = msg_tags m /\ msg_num_tags m' = msg_num_tags m /\ msg_sdata m' = msg_sdata m /\ msg_alloc_sdata m' = msg_alloc_sdata m /\ msg_num_sdata m' = msg_num_sdata m /\ msg_initial_parse m' = msg_initial_parse m /\ msg_original m' = msg_original m.
Lemma same_others_ptrs (m m' : LogMessage) : same_others m m' -> tags_ptr m' = tags_ptr m /\ sdata_ptr m' = sdata_ptr m.
Proof. intros (Et & En & Es & _). unfold tags_ptr, sdata_ptr. by rewrite Et, En, Es. Qed.

Lemma own_payload_ok (nm : Z -> bytes) (st : store) (m : LogMessage) (t : NVTable) (extra : Z) : store_wf st -> s_tables st !! msg_payload m = Some t -> nv_wf nm t -> 0 <= extra < 2 ^ 30 ->
  exists st' m' t', own_payload st m extra = Ret (st', m') /\ frame st st' m m' /\ s_words st' = s_words st /\ s_handles st' = s_handles st /\ same_others m m' /\ has_own m' OWN_PAYLOAD = true /\
    s_tables st' !! msg_payload m' = Some t' /\ nv_wf nm t' /\ (forall h, nv_table_get_value t' h = nv_table_get_value t h) /\ (forall h, nv_lookup t' h = nv_lookup t h).
Proof.
  intros Hst Ht Hwf Hx. unfold own_payload. change LF_STATE_OWN_PAYLOAD with (Z.shiftl 1 OWN_PAYLOAD). rewrite chk_flag_own by done. destruct (has_own m OWN_PAYLOAD) eqn:Own.
  { exists st, m, t. split_and!; [done|by apply frame_refl|done..]. }
  unfold get. rewrite Ht. cbn [obind fresh]. destruct (nv_table_clone_spec nm t extra Hwf Hx) as [Wc Vc]. eexists _, _, (nv_table_clone t extra). split; [done|].
  assert (Hown : forall k, has_own (log_msg_set_flag (set_payload m (s_next st)) (Z.shiftl 1 OWN_PAYLOAD)) k = bool_decide (k = OWN_PAYLOAD) || has_own m k) by (intros k; by apply (set_flag_own (set_payload m _) OWN_PAYLOAD)).
  assert (So : same_others m (log_msg_set_flag (set_payload m (s_next st)) (Z.shiftl 1 OWN_PAYLOAD))) by (by destruct m). pose proof Hst as [H0 Hf].
  split_and!; [|done|done|done|by rewrite Hown|cbn; by rewrite lookup_insert_eq|done|done|intros h; rewrite (clone_resize nm) by done; done].
  destruct (same_others_ptrs _ _ So). apply payload_frame; [apply put_table_wf; [by apply (fresh_wf st)|cbn; lia]|done|done|cbn; lia|done|done|apply So| |].
  - intros k Hk. by rewrite Hown, bool_decide_eq_false_2.
  - rewrite Hown. split; cbn [put_table s_tables s_next].
    + intros q Hq _. by rewrite lookup_insert_ne by lia.
    + right. split; [done|]. intros q [= <-]. right. lia.
Qed.

Lemma unset_flag_own (m : LogMessage) (f k : Z) : 0 <= k < 32 -> has_own (log_msg_unset_flag m f) k = has_own m k && negb (Z.testbit f k).
Proof. intros Hk. unfold has_own, log_msg_unset_flag, set_flags. cbn [msg_flags]. rewrite Z.land_spec. unfold u32. by rewrite Z.mod_pow2_bits_low, Z.lnot_spec by lia. Qed.
(** Another flag. *)
Lemma unset_flag_frame (st : store) (m : LogMessage) (f : Z) : store_wf st -> (forall k, 0 <= k <= 8 -> Z.testbit f k = false) -> frame st st m (log_msg_unset_flag m f).
Proof.
  intros W Hf. assert (Hk : forall k, 0 <= k <= 8 -> has_own (log_msg_unset_flag m f) k = has_own m k) by (intros k Hk; rewrite unset_flag_own, Hf, andb_true_r by lia; done).
  split; [lia|done| | | |done|by rewrite Hk]; rewrite Hk by done; apply kframe_same.
Qed.

(** [ok] tells whether the value was stored.  The handle of a new value of
    structured data goes into the list in either case. *)
Lemma set_value_ok (reg : NVRegistry) (st : store) (m : LogMessage) (t : NVTable) (hs : list Z) (h : Z) (v : bytes) : msg_registry reg -> store_wf st -> s_tables st !! msg_payload m = Some t -> nv_wf (reg_name reg) t ->
  sdata_wf st m hs -> Forall (handle_ok reg) hs -> handle_ok reg h -> lenZ v < 2 ^ 29 ->
  exists st' m' t' ok, log_msg_set_value reg st m h v = Ret (st', m') /\ frame st st' m m' /\ s_tables st' !! msg_payload m' = Some t' /\ set_done (reg_name reg) h v t t' ok /\
    sdata_wf st' m' (if bool_decide (nv_lookup t h = None) && is_sdata reg h then sd_insert reg (msg_initial_parse m) hs h else hs) /\
    s_words st' = s_words st /\ msg_tags m' = msg_tags m /\ msg_num_tags m' = msg_num_tags m /\ msg_initial_parse m' = msg_initial_parse m.
Proof.
  intros Mr Hst Ht Hwf Hsd F Hh Hv. pose proof Mr as [Wr Hs _]. pose proof (lenZ_nonneg v) as Hv0. unfold log_msg_set_value. rewrite bool_decide_eq_false_2 by (unfold handle_ok in Hh; lia).
  destruct (get_name_ok reg h Wr Hh) as [-> Hn]. cbn [obind]. pose proof (lenZ_nonneg (reg_name reg h)) as Hn0.
  destruct (own_payload_ok (reg_name reg) st m t (lenZ (reg_name reg h) + lenZ v + 2) Hst Ht Hwf) as (st1 & m1 & t1 & -> & F1 & Ew & Eh & So & Own & Ht1 & W1 & V1 & L1); [lia|]. cbn [obind].
  pose proof (wf_size_nonneg _ _ W1) as Hsz. assert (Hh16 : 0 < h < 2 ^ 16) by (unfold handle_ok in Hh; lia).
  destruct (add_loop_ok (reg_name reg) h v Hh16 39 st1 (msg_payload m1) t1 false (fr_wf _ _ _ _ F1) Ht1 W1) as (st2 & p2 & t2 & ok & E2 & F2 & Ht2 & D2). { change (2 ^ Z.of_nat 39) with 549755813888. unfold NV_TABLE_MAX_BYTES. lia. }
  unfold add_fuel. rewrite E2. cbn [obind]. rewrite L1. destruct F2 as [Fw Fh Fn Fs Fo Fp]. set (m2 := set_payload m1 p2).
  assert (So2 : same_others m m2) by (destruct So as (?&?&?&?&?&?&?); by split_and!).
  assert (F2 : frame st st2 m m2).
  { eapply frame_trans; [exact F1|]. apply payload_frame; [done|done|done|done|by destruct m1..|]. split.
    - intros q Hq Hne. apply Fo; [done|]. intros ->. by apply Hne.
    - right. split; [done|]. intros q [= <-]. destruct Fp as [->|?]; [by left|by right]. }
  assert (Hsd2 : sdata_wf st2 m2 hs). { destruct So2 as (_ & _ & Es & Ea & En & _). destruct Hsd as [A B C]. split; [by rewrite En|by rewrite Ea|]. rewrite Es, Ea, Fh, Eh. exact C. }
  assert (G : exists st3 m3, (if bool_decide (Some (bool_decide (nv_lookup t h = None)) = Some true) then log_msg_update_sdata reg st2 m2 h (reg_name reg h) else Ret (st2, m2)) = Ret (st3, m3) /\
    frame st2 st3 m2 m3 /\ same_rest st2 st3 m2 m3 /\ sdata_wf st3 m3 (if bool_decide (nv_lookup t h = None) && is_sdata reg h then sd_insert reg (msg_initial_parse m) hs h else hs)).
  { assert (Hi : msg_initial_parse m = msg_initial_parse m2) by (symmetry; apply So2). rewrite Hi. destruct (bool_decide (nv_lookup t h = None)); [rewrite bool_decide_eq_true_2 by done; cbn [andb]; by apply update_sdata_ok|]. rewrite bool_decide_eq_false_2 by done. cbn [andb].
    exists st2, m2. split_and!; [done|by apply frame_refl|done|done]. }
  destruct G as (st3 & m3 & -> & F3 & (Tb3 & Wd3 & Sp & St & Sn & _ & Si) & Hsd3). cbn [obind].
  set (m4 := if bool_decide (h = LM_V_PROGRAM \/ h = LM_V_PID) then _ else m3). pose proof (fr_wf _ _ _ _ F3) as Hst3.
  assert (F4 : frame st3 st3 m3 m4 /\ msg_payload m4 = msg_payload m3 /\ msg_sdata m4 = msg_sdata m3 /\ msg_alloc_sdata m4 = msg_alloc_sdata m3 /\ msg_num_sdata m4 = msg_num_sdata m3 /\
    msg_tags m4 = msg_tags m3 /\ msg_num_tags m4 = msg_num_tags m3 /\ msg_initial_parse m4 = msg_initial_parse m3).
  { subst m4. case_bool; [|split_and!; [by apply frame_refl|done..]]. split_and!; [|by destruct m3..]. apply unset_flag_frame; [done|]. intros k Hk. change LF_LEGACY_MSGHDR with (Z.shiftl 1 17). rewrite testbit_bit by lia. apply bool_decide_eq_false. lia. }
  destruct F4 as (F4 & Ep & Es & Ea & En & Et & Ent & Ei). destruct So2 as (St2 & Snt2 & _ & _ & _ & Si2 & _).
  exists st3, m4, t2, ok. split_and!; [done| | | | |congruence|congruence|congruence|congruence].
  - eapply frame_trans; [exact F2|]. eapply frame_trans; [exact F3|exact F4].
  - rewrite Ep, Sp, Tb3. exact Ht2.
  - destruct D2 as [A B C D E G]. split; [done|intros h' Hne; rewrite B, V1 by done; done|rewrite C; destruct ok; [done|apply V1]|done|by rewrite E, L1|intros h' Hne; by rewrite G, L1].
  - destruct Hsd3 as [A B C]. split; [by rewrite En|by rewrite Ea|]. rewrite Es, Ea. exact C.
Qed.
