(* ===== verification/LogMsgCow.v ===== *)
(** * Messages and their clones behave as messages of their own

    A world of messages in one store of blocks, where messages are made, cloned,
    changed and freed.  The specification is a world in which a message is a
    value: a map of values, a set of tags, a list of structured data; a clone is a
    copy of it. *)
From S2P Require Import Prelude CString NVTable NVTableInv NVTableOps NVTableStore NVTableSpec NVRegistry LogMsgData LogMsgTags LogMsgValues.

Record world := mkWorld { w_store : store; w_msgs : gmap Z LogMessage; w_next : Z }.
Definition empty_world : world := mkWorld (mkStore ∅ ∅ ∅ 1) ∅ 0.
Inductive msg_op :=
| OpNew (length : Z)
| OpClone (id : Z)
| OpSetValue (id handle : Z) (value : bytes)
| OpTag (id tag : Z) (on : bool)
| OpInitialParse (id : Z) (on : bool)
| OpFree (id : Z).

Definition set_initial_parse (m : LogMessage) (b : bool) : LogMessage :=
  mkMsg (msg_payload m) (msg_tags m) (msg_num_tags m) (msg_sdata m) (msg_alloc_sdata m) (msg_num_sdata m) (msg_num_matches m) (msg_flags m) b (msg_original m).

Section cow.
Variable reg : NVRegistry.

Definition msg_step (w : world) (op : msg_op) : outcome world :=
  match op with
  | OpNew length => let! (st, m) := log_msg_new_sized (payload_size_for length) (w_store w) in Ret (mkWorld st (<[w_next w := m]> (w_msgs w)) (w_next w + 1))
  | OpClone id =>
      let! m := get (w_msgs w) id in
      let '(m, c) := log_msg_clone_cow id m in
      Ret (mkWorld (w_store w) (<[w_next w := c]> (<[id := m]> (w_msgs w))) (w_next w + 1))
  | OpSetValue id h v =>
      let! m := get (w_msgs w) id in
      let! (st, m) := log_msg_set_value reg (w_store w) m h v in
      Ret (mkWorld st (<[id := m]> (w_msgs w)) (w_next w))
  | OpTag id tag on =>
      let! m := get (w_msgs w) id in
      let! (st, m, _) := log_msg_set_tag_by_id_onoff (w_store w) m tag on in
      Ret (mkWorld st (<[id := m]> (w_msgs w)) (w_next w))
  | OpInitialParse id b =>
      let! m := get (w_msgs w) id in
      Ret (mkWorld (w_store w) (<[id := set_initial_parse m b]> (w_msgs w)) (w_next w))
  | OpFree id =>
      let! m := get (w_msgs w) id in
      let! st := log_msg_free (w_store w) m in
      Ret (mkWorld st (delete id (w_msgs w)) (w_next w))
  end.
Fixpoint msg_run (w : world) (ops : list msg_op) : outcome world := match ops with [] => Ret w | op :: ops => let! w := msg_step w op in msg_run w ops end.

(** Only a message that was not cloned is changed, and a message is freed when
    its clones are gone, which its counter of references sees to. *)
Definition writable (w : world) (id : Z) : bool := match w_msgs w !! id with Some m => negb (log_msg_chk_flag m LF_STATE_REFERENCED) | None => false end.
Definition msg_allowed (w : world) (op : msg_op) : bool :=
  match op with
  | OpNew length => bool_decide (0 <= length < 2 ^ 30)
  | OpClone id => bool_decide (is_Some (w_msgs w !! id))
  | OpSetValue id h v => writable w id && bool_decide (1 <= h <= lenZ (r_names reg)) && bool_decide (lenZ v < 2 ^ 29)
  | OpTag id tag _ => writable w id && bool_decide (0 <= tag <= 8159)
  | OpInitialParse id _ => writable w id
  | OpFree id => bool_decide (is_Some (w_msgs w !! id)) && forallb (fun p => bool_decide (msg_original p.2 <> Some id)) (map_to_list (w_msgs w))
  end.
Fixpoint allowed_run (w : world) (ops : list msg_op) : bool :=
  match ops with [] => true | op :: ops => msg_allowed w op && match msg_step w op with Ret w => allowed_run w ops | Abort => true end end.

(** ** The specification *)

Record amsg := mkA { a_value : Z -> option bytes; a_tag : Z -> bool; a_sdata : list Z; a_initial : bool }.
Definition a_new : amsg := mkA (fun _ => None) (fun _ => false) [] false.
Definition a_set (a : amsg) (h : Z) (v : bytes) (stored : bool) : amsg :=
  mkA (fun k => if stored && bool_decide (k = h) then Some (truncate_value v) else a_value a k) (a_tag a)
    (if bool_decide (a_value a h = None) && is_sdata reg h then sd_insert reg (a_initial a) (a_sdata a) h else a_sdata a) (a_initial a).
Definition a_set_tag (a : amsg) (tag : Z) (on : bool) : amsg := mkA (a_value a) (fun k => if bool_decide (k = tag) then on else a_tag a k) (a_sdata a) (a_initial a).

Definition aworld : Type := gmap Z amsg * Z.
(** A value is not stored only if the table has its largest size. *)
Inductive a_step : aworld -> msg_op -> aworld -> Prop :=
| a_step_new A n length : a_step (A, n) (OpNew length) (<[n := a_new]> A, n + 1)
| a_step_clone A n id a : A !! id = Some a -> a_step (A, n) (OpClone id) (<[n := a]> A, n + 1)
| a_step_set A n id a h v stored : A !! id = Some a -> a_step (A, n) (OpSetValue id h v) (<[id := a_set a h v stored]> A, n)
| a_step_tag A n id a tag on : A !! id = Some a -> a_step (A, n) (OpTag id tag on) (<[id := a_set_tag a tag on]> A, n)
| a_step_initial A n id a b : A !! id = Some a -> a_step (A, n) (OpInitialParse id b) (<[id := mkA (a_value a) (a_tag a) (a_sdata a) b]> A, n)
| a_step_free A n id : a_step (A, n) (OpFree id) (delete id A, n).
Inductive a_run : aworld -> list msg_op -> aworld -> Prop :=
| a_run_nil A : a_run A [] A
| a_run_cons A op ops A1 A2 : a_step A op A1 -> a_run A1 ops A2 -> a_run A (op :: ops) A2.

(** The message, through its blocks, is the value. *)
Record sees (st : store) (m : LogMessage) (a : amsg) : Prop := {
  se_table : exists t, s_tables st !! msg_payload m = Some t /\ nv_wf (reg_name reg) t /\ forall h, nv_table_get_value t h = Some (default [] (a_value a h), lenZ (default [] (a_value a h))) /\ (nv_lookup t h = None <-> a_value a h = None);
  se_tags : exists ws, tags_wf st m ws /\ forall j, 0 <= j -> words_bit ws j = a_tag a j;
  se_sdata : sdata_wf st m (a_sdata a);
  se_handles : Forall (handle_ok reg) (a_sdata a);
  se_initial : msg_initial_parse m = a_initial a }.

(** ** The invariant *)

Inductive kind := KPayload | KTags | KSdata.
Definition ptr (k : kind) (m : LogMessage) : option Z := match k with KPayload => payload_ptr m | KTags => tags_ptr m | KSdata => sdata_ptr m end.
Definition own (k : kind) (m : LogMessage) : bool := has_own m match k with KPayload => OWN_PAYLOAD | KTags => OWN_TAGS | KSdata => OWN_SDATA end.

Record cow_inv (w : world) (A : gmap Z amsg) : Prop := {
  ci_store : store_wf (w_store w);
  ci_ids : forall id m, w_msgs w !! id = Some m -> 0 <= id < w_next w;
  ci_sees : forall id m, w_msgs w !! id = Some m -> exists a, A !! id = Some a /\ sees (w_store w) m a;
  ci_dom : forall id, w_msgs w !! id = None -> A !! id = None;
  ci_unique : forall k i j mi mj p, w_msgs w !! i = Some mi -> w_msgs w !! j = Some mj -> own k mi = true -> own k mj = true -> ptr k mi = Some p -> ptr k mj = Some p -> i = j;
  ci_borrow : forall k i mi p, w_msgs w !! i = Some mi -> own k mi = false -> ptr k mi = Some p -> exists o mo, msg_original mi = Some o /\ w_msgs w !! o = Some mo /\ ptr k mo = Some p;
  ci_original : forall i mi o, w_msgs w !! i = Some mi -> msg_original mi = Some o -> o < i /\ exists mo, w_msgs w !! o = Some mo /\ has_own mo REFERENCED = true }.

(** A block of a message that another message uses has a clone. *)
Lemma sharer (w : world) (A : gmap Z amsg) (k : kind) (i : Z) (mi : LogMessage) (p : Z) : cow_inv w A -> w_msgs w !! i = Some mi -> own k mi = true -> ptr k mi = Some p ->
  forall j mj, w_msgs w !! j = Some mj -> j <> i -> ptr k mj = Some p -> exists c mc, w_msgs w !! c = Some mc /\ msg_original mc = Some i.
Proof.
  intros I Hi Ho Hp j. induction (Z.lt_wf 0 j) as [j _ IH]. intros mj Hj Hne Hpj. destruct (own k mj) eqn:Oj; [destruct Hne; by eapply (ci_unique _ _ I)|].
  destruct (ci_borrow _ _ I k j mj p Hj Oj Hpj) as (o & mo & Eo & Ho2 & Hpo). destruct (decide (o = i)) as [->|Hoi]; [by exists j, mj|].
  destruct (ci_original _ _ I j mj o Hj Eo) as [Hlt _]. pose proof (ci_ids _ _ I o mo Ho2) as Hio. apply (IH o ltac:(lia) mo Ho2 Hoi Hpo).
Qed.

Lemma words_bound (st : store) (p : Z) (l : list Z) : store_wf st -> s_words st !! p = Some l -> p < s_next st.
Proof. intros [_ Hf] H. destruct (decide (p < s_next st)) as [|L]; [done|]. destruct (Hf p ltac:(lia)) as (_ & E & _). congruence. Qed.

(** What does not touch the blocks of a message does not change it. *)
Definition untouched (st st' : store) (m : LogMessage) : Prop :=
  (forall p, p < s_next st -> ptr KPayload m = Some p -> s_tables st' !! p = s_tables st !! p) /\ (forall p, p < s_next st -> ptr KTags m = Some p -> s_words st' !! p = s_words st !! p) /\ (forall p, p < s_next st -> ptr KSdata m = Some p -> s_handles st' !! p = s_handles st !! p).
Lemma sees_untouched (st st' : store) (m : LogMessage) (a : amsg) : store_wf st -> untouched st st' m -> sees st m a -> sees st' m a.
Proof.
  intros W (Ut & Uw & Uh) [(t & Ht & Hwf & Hv) (ws & Hws & Hb) Hsd Hh Hi]. split; [| | |done|done].
  - exists t. split; [|done]. rewrite Ut; [done| |done]. by eapply table_bound.
  - exists ws. split; [|done]. destruct Hws as [A B C D]. split; [|done..]. unfold tag_words in *. destruct (bool_decide_reflect (msg_num_tags m = 0)) as [|E]; [done|]. rewrite Uw; [done| |]; [by eapply words_bound|]. unfold ptr, tags_ptr. by rewrite bool_decide_eq_false_2.
  - destruct Hsd as [A B C]. split; [done..|]. destruct (bool_decide_reflect (msg_sdata m = 0)) as [|E]; [done|]. destruct C as (rest & C & D). exists rest. split; [|done]. rewrite Uh; [done| |]; [by eapply handles_bound|]. unfold ptr, sdata_ptr. by rewrite bool_decide_eq_false_2.
Qed.
Lemma sees_bound (st : store) (m : LogMessage) (a : amsg) (k : kind) (p : Z) : store_wf st -> sees st m a -> ptr k m = Some p -> p < s_next st.
Proof.
  intros W [(t & Ht & _) (ws & [Hw _ _ _] & _) [_ _ Hs] _ _] E. destruct k; cbn [ptr] in E.
  - injection E as <-. by eapply table_bound.
  - unfold tags_ptr, tag_words in *. case_bool; [done|]. injection E as <-. by eapply words_bound.
  - unfold sdata_ptr in *. case_bool; [done|]. injection E as <-. destruct Hs as (rest & Hs & _). by eapply handles_bound.
Qed.
Lemma frame_untouched (st st' : store) (m0 m0' m : LogMessage) : frame st st' m0 m0' -> (forall k p, own k m0 = true -> ptr k m0 = Some p -> ptr k m <> Some p) -> untouched st st' m.
Proof.
  intros [_ _ [P _] [T _] [S _] _ _] H. split_and!; intros p Hp E.
  - apply P; [done|]. intros Ho E0. by apply (H KPayload p).
  - apply T; [done|]. intros Ho E0. by apply (H KTags p).
  - apply S; [done|]. intros Ho E0. by apply (H KSdata p).
Qed.
Lemma frame_kind (st st' : store) (m m' : LogMessage) (k : kind) : frame st st' m m' -> (ptr k m' = ptr k m /\ own k m' = own k m) \/ (own k m' = true /\ forall p, ptr k m' = Some p -> (own k m = true /\ ptr k m = Some p) \/ s_next st <= p).
Proof.
  intros [_ _ [_ P] [_ T] [_ S] _ _]. destruct k; [destruct P as [?|[? H]]|destruct T as [?|[? H]]|destruct S as [?|[? H]]]; try (by left); right; (split; [done|]); intros p E; destruct (H p E) as [?|?]; [by left|right; lia|by left|right; lia|by left|right; lia].
Qed.
Lemma not_cloned (w : world) (A : gmap Z amsg) (i : Z) (m : LogMessage) : cow_inv w A -> w_msgs w !! i = Some m -> has_own m REFERENCED = false -> forall j mj, w_msgs w !! j = Some mj -> msg_original mj <> Some i.
Proof. intros I Hi Hr j mj Hj E. destruct (ci_original _ _ I j mj i Hj E) as (_ & mo & Ho & Hb). congruence. Qed.

(** A message that has no clones changes. *)
Lemma inv_update (w : world) (A : gmap Z amsg) (i : Z) (m m' : LogMessage) (st' : store) (a' : amsg) : cow_inv w A -> w_msgs w !! i = Some m -> has_own m REFERENCED = false -> frame (w_store w) st' m m' -> sees st' m' a' ->
  cow_inv (mkWorld st' (<[i := m']> (w_msgs w)) (w_next w)) (<[i := a']> A).
Proof.
  intros I Hi Hr F Hs. pose proof (not_cloned w A i m I Hi Hr) as Hnc. pose proof (ci_store _ _ I) as Hst.
  assert (Hsh : forall k p j mj, own k m = true -> ptr k m = Some p -> w_msgs w !! j = Some mj -> j <> i -> ptr k mj <> Some p).
  { intros k p j mj Ho Hp Hj Hne E. destruct (sharer w A k i m p I Hi Ho Hp j mj Hj Hne E) as (c & mc & Hc & Eo). by apply (Hnc c mc). }
  assert (Hfresh : forall k p j mj, w_msgs w !! j = Some mj -> ptr k mj = Some p -> p < s_next (w_store w)) by (intros k p j mj Hj E; destruct (ci_sees _ _ I j mj Hj) as (a & _ & Sa); by eapply sees_bound).
  assert (Hun : forall k j mj p, w_msgs w !! j = Some mj -> j <> i -> own k mj = true -> own k m' = true -> ptr k m' = Some p -> ptr k mj = Some p -> False).
  { intros k j mj p Hj Hne Oj O' E' Ej. destruct (frame_kind _ _ _ _ k F) as [[Ep Eo]|[_ H]].
    - by apply (Hsh k p j mj); [congruence|congruence|done|done|].
    - destruct (H p E') as [[Om Em]|Hge]; [by apply (Hsh k p j mj)|]. pose proof (Hfresh k p j mj Hj Ej). lia. }
  split; cbn [w_store w_msgs w_next].
  - apply (fr_wf _ _ _ _ F).
  - intros j mj [[<- _]|[_ Hj]]%lookup_insert_Some; [by eapply ci_ids|by eapply ci_ids].
  - intros j mj [[<- <-]|[Hne Hj]]%lookup_insert_Some; [exists a'; by rewrite lookup_insert_eq|]. rewrite lookup_insert_ne by done. destruct (ci_sees _ _ I j mj Hj) as (a & Ha & Sa). exists a. split; [done|].
    eapply sees_untouched; [exact Hst| |exact Sa]. eapply frame_untouched; [exact F|]. intros k p Ho Hp. by apply (Hsh k p j mj).
  - intros j [Hj Hne]%lookup_insert_None. rewrite lookup_insert_ne by done. by apply (ci_dom _ _ I).
  - intros k j l mj ml p [[<- <-]|[Hj Ej]]%lookup_insert_Some [[<- <-]|[Hl El]]%lookup_insert_Some Oj Ol Pj Pl; [done| | |by eapply (ci_unique _ _ I)].
    + exfalso. by eapply (Hun k l ml p).
    + exfalso. by eapply (Hun k j mj p).
  - intros k j mj p [[<- <-]|[Hne Hj]]%lookup_insert_Some Oj Pj.
    + destruct (frame_kind _ _ _ _ k F) as [[Ep Eo]|[? _]]; [|congruence]. destruct (ci_borrow _ _ I k i m p Hi) as (o & mo & E1 & E2 & E3); [congruence|congruence|]. exists o, mo. rewrite (fr_original _ _ _ _ F). split; [done|].
      destruct (ci_original _ _ I i m o Hi E1) as [? _]. by rewrite lookup_insert_ne by lia.
    + destruct (ci_borrow _ _ I k j mj p Hj Oj Pj) as (o & mo & E1 & E2 & E3). exists o, mo. split; [done|]. rewrite lookup_insert_ne; [done|]. intros <-. by apply (Hnc j mj).
  - intros j mj o [[<- <-]|[Hne Hj]]%lookup_insert_Some Eo.
    + rewrite (fr_original _ _ _ _ F) in Eo. destruct (ci_original _ _ I i m o Hi Eo) as (Hlt & mo & ? & ?). split; [done|]. exists mo. by rewrite lookup_insert_ne by lia.
    + destruct (ci_original _ _ I j mj o Hj Eo) as (Hlt & mo & ? & ?). split; [done|]. exists mo. rewrite lookup_insert_ne; [done|]. intros <-. by apply (Hnc j mj).
Qed.

(** ** The operations *)

Lemma set_value_sees (st : store) (m : LogMessage) (a : amsg) (h : Z) (v : bytes) : msg_registry reg -> store_wf st -> sees st m a -> handle_ok reg h -> lenZ v < 2 ^ 29 ->
  exists st' m' stored, log_msg_set_value reg st m h v = Ret (st', m') /\ frame st st' m m' /\ sees st' m' (a_set a h v stored).
Proof.
  intros Mr Hst [(t & Ht & Hwf & Hv) (ws & Hws & Hb) Hsd Hh Hi] Hok Hlen.
  destruct (set_value_ok reg st m t (a_sdata a) h v Mr Hst Ht Hwf Hsd Hh Hok Hlen) as (st' & m' & t' & ok & E & F & Ht' & D & Hsd' & Ew & Et & En & Ei). exists st', m', ok. split; [done|]. split; [done|].
  assert (Hnew : bool_decide (nv_lookup t h = None) = bool_decide (a_value a h = None)) by (apply bool_decide_ext; apply Hv). destruct D as [Dw Do Dv _ Dp Dq]. split; cbn [a_set a_value a_tag a_sdata a_initial].
  - exists t'. split; [done|]. split; [done|]. intros k. destruct (bool_decide_reflect (k = h)) as [->|Hne].
    + rewrite andb_true_r, Dv, Dp. destruct ok; [split; [done|]; split; [by intros [? _]|done]|]. destruct (Hv h) as [-> ->]. split; [done|]. tauto.
    + rewrite andb_false_r, Do, Dq by done. apply Hv.
  - exists ws. split; [|done]. destruct Hws as [A B C G]. split; [|done|by rewrite En|by rewrite En]. unfold tag_words in *. by rewrite Et, En, Ew.
  - rewrite <- Hnew, <- Hi. done.
  - destruct (bool_decide (a_value a h = None) && is_sdata reg h); [|done]. destruct (sd_insert_split reg (a_initial a) (a_sdata a) h) as [[-> _]|(_ & l1 & l2 & El & ->)]; [done|]. rewrite El in Hh. apply Forall_app in Hh as [? ?]. apply Forall_app. split; [done|]. by apply Forall_cons.
  - congruence.
Qed.
Lemma set_tag_sees (st : store) (m : LogMessage) (a : amsg) (tag : Z) (on : bool) : store_wf st -> sees st m a -> 0 <= tag <= 8159 ->
  exists st' m', log_msg_set_tag_by_id_onoff st m tag on = Ret (st', m', true) /\ frame st st' m m' /\ sees st' m' (a_set_tag a tag on).
Proof.
  intros Hst [(t & Ht & Hwf & Hv) (ws & Hws & Hb) Hsd Hh Hi] Htag. destruct (set_tag_ok st m ws tag on Hst Hws Htag) as (st' & m' & ws' & E & W' & _ & F & B'). exists st', m'. split; [done|]. split; [by apply tags_frame_frame|].
  destruct F as [Ft Fh _ _ _ _ Fm]. assert (G : msg_payload m' = msg_payload m /\ msg_sdata m' = msg_sdata m /\ msg_alloc_sdata m' = msg_alloc_sdata m /\ msg_num_sdata m' = msg_num_sdata m /\ msg_initial_parse m' = msg_initial_parse m) by (rewrite Fm; by destruct m).
  destruct G as (Gp & Gs & Ga & Gn & Gi). split; cbn [a_set_tag a_value a_tag a_sdata a_initial].
  - exists t. by rewrite Gp, Ft.
  - exists ws'. split; [done|]. intros j Hj. rewrite B' by done. case_bool; [done|]. by apply Hb.
  - destruct Hsd as [A B C]. split; [by rewrite Gn|by rewrite Ga|]. by rewrite Gs, Ga, Fh.
  - done.
  - congruence.
Qed.

Lemma init_borrowed_new (size : Z) : 0 < size -> exists t, nv_table_init_borrowed (nv_table_get_alloc_size LM_V_MAX 16 size) LM_V_MAX = Ret t /\ nv_wf (reg_name reg) t /\ forall h, nv_lookup t h = None.
Proof.
  intros Hs. set (n := nv_table_get_alloc_size LM_V_MAX 16 size). assert (Hn : 128 <= n) by (subst n; unfold nv_table_get_alloc_size; repeat case_bool; unfold NV_TABLE_MAX_BYTES in *; lia).
  assert (Hl : n - 3 <= Z.land n (Z.lnot 3)). { pose proof (NV_TABLE_BOUND_ge (n - 3)) as H. unfold NV_TABLE_BOUND in H. replace (n - 3 + 3) with n in H by lia. lia. }
  assert (Ht : exists t, nv_table_init_borrowed n LM_V_MAX = Ret t /\ nt_heap t = ∅) by (unfold nv_table_init_borrowed; rewrite bool_decide_eq_true_2 by (unfold LM_V_MAX, SIZEOF_STATIC, SIZEOF_NVTABLE; lia); eexists; split; done).
  destruct Ht as (t & Ht & Hh). exists t. split; [done|]. split; [eapply init_borrowed_wf; [|exact Ht]; unfold LM_V_MAX; lia|]. intros h. rewrite nv_lookup_link, Hh. destruct (link t h) as [o|]; [|done]. apply lookup_empty.
Qed.

Lemma new_message_ok (st : store) (length : Z) : store_wf st -> 0 <= length ->
  exists st' m, log_msg_new_sized (payload_size_for length) st = Ret (st', m) /\ store_wf st' /\ s_next st <= s_next st' /\ (forall m0, untouched st st' m0) /\ sees st' m a_new /\ msg_original m = None /\
    forall k, own k m = true /\ forall p, ptr k m = Some p -> s_next st <= p.
Proof.
  intros Hst Hl. unfold log_msg_new_sized, log_msg_alloc. assert (Hs : 0 < payload_size_for length) by (unfold payload_size_for; case_bool; lia). rewrite bool_decide_eq_true_2 by lia.
  destruct (init_borrowed_new _ Hs) as (t & -> & Hwf & Hnone). cbn [obind fresh]. eexists _, _. split; [done|]. pose proof Hst as [H0 Hf]. split_and!; [|cbn; lia| | |done|].
  - apply put_table_wf; [by apply (fresh_wf st)|cbn; lia].
  - intros m0. split_and!; [|done|done]. intros p Hp _. cbn. by rewrite lookup_insert_ne by lia.
  - split; [| | |constructor|done].
    + exists t. split; [cbn; by rewrite lookup_insert_eq|]. split; [done|]. intros h. rewrite get_value_absent by done. by rewrite Hnone.
    + exists [0]. split; [|intros j Hj; unfold words_bit; destruct (Z.to_nat (j / 64)) as [|n]; [by rewrite Z.testbit_0_l|]; by rewrite Z.testbit_0_l]. split; [done|by repeat constructor|done|cbn; lia].
    + split; [done|vm_compute; split; discriminate|done].
  - intros k. split; [by destruct k|]. intros p. destruct k; cbn; [intros [= <-]; lia|done|done].
Qed.

Lemma inv_new (w : world) (A : gmap Z amsg) (st' : store) (m : LogMessage) : cow_inv w A -> store_wf st' -> s_next (w_store w) <= s_next st' -> (forall m0, untouched (w_store w) st' m0) -> sees st' m a_new -> msg_original m = None ->
  (forall k, own k m = true /\ forall p, ptr k m = Some p -> s_next (w_store w) <= p) -> 0 <= w_next w -> cow_inv (mkWorld st' (<[w_next w := m]> (w_msgs w)) (w_next w + 1)) (<[w_next w := a_new]> A).
Proof.
  intros I Hst' Hn Hu Hs Ho Hk Hw. assert (Hfresh : forall k p j mj, w_msgs w !! j = Some mj -> ptr k mj = Some p -> p < s_next (w_store w)) by (intros k p j mj Hj E; destruct (ci_sees _ _ I j mj Hj) as (a & _ & Sa); eapply sees_bound; [apply I|done|done]).
  split; cbn [w_store w_msgs w_next].
  - done.
  - intros j mj [[<- _]|[_ Hj]]%lookup_insert_Some; [lia|]. pose proof (ci_ids _ _ I j mj Hj). lia.
  - intros j mj [[<- <-]|[Hne Hj]]%lookup_insert_Some; [exists a_new; by rewrite lookup_insert_eq|]. rewrite lookup_insert_ne by done. destruct (ci_sees _ _ I j mj Hj) as (a & Ha & Sa). exists a. split; [done|]. eapply sees_untouched; [apply I|apply Hu|done].
  - intros j [Hj Hne]%lookup_insert_None. rewrite lookup_insert_ne by done. by apply (ci_dom _ _ I).
  - intros k j l mj ml p [[<- <-]|[Hj Ej]]%lookup_insert_Some [[<- <-]|[Hl El]]%lookup_insert_Some Oj Ol Pj Pl; [done| | |by eapply (ci_unique _ _ I)]; exfalso.
    + destruct (Hk k) as [_ H]. pose proof (H p Pj). pose proof (Hfresh k p l ml El Pl). lia.
    + destruct (Hk k) as [_ H]. pose proof (H p Pl). pose proof (Hfresh k p j mj Ej Pj). lia.
  - intros k j mj p [[<- <-]|[Hne Hj]]%lookup_insert_Some Oj Pj; [destruct (Hk k); congruence|]. destruct (ci_borrow _ _ I k j mj p Hj Oj Pj) as (o & mo & E1 & E2 & E3). exists o, mo. split; [done|]. pose proof (ci_ids _ _ I o mo E2). by rewrite lookup_insert_ne by lia.
  - intros j mj o [[<- <-]|[Hne Hj]]%lookup_insert_Some Eo; [congruence|]. destruct (ci_original _ _ I j mj o Hj Eo) as (Hlt & mo & Ho2 & ?). split; [done|]. exists mo. pose proof (ci_ids _ _ I o mo Ho2). by rewrite lookup_insert_ne by lia.
Qed.

(** The original is marked, and the clone borrows its blocks. *)
Lemma clone_ok (id : Z) (m : LogMessage) : let '(m1, c) := log_msg_clone_cow id m in
  (forall st a, sees st m a -> sees st m1 a /\ sees st c a) /\ msg_original m1 = msg_original m /\ has_own m1 REFERENCED = true /\ msg_original c = Some id /\
  forall k, ptr k m1 = ptr k m /\ own k m1 = own k m /\ ptr k c = ptr k m /\ (own k c = true -> ptr k c = None).
Proof.
  unfold log_msg_clone_cow. set (m1 := log_msg_set_flag m LF_STATE_REFERENCED). set (c0 := mkMsg _ _ _ _ _ _ _ _ _ _).
  assert (H1 : forall k, has_own m1 k = bool_decide (k = REFERENCED) || has_own m k) by (intros k; by apply (set_flag_own m REFERENCED)).
  assert (H0 : forall k, 4 <= k <= 8 -> has_own c0 k = false). { intros k Hk. change (has_own c0 k) with (has_own (log_msg_unset_flag m1 LF_STATE_MASK) k). rewrite unset_flag_own by lia. assert (E : Z.testbit LF_STATE_MASK k = true) by (assert (D : k = 4 \/ k = 5 \/ k = 6 \/ k = 7 \/ k = 8) by lia; by destruct D as [->|[->|[->|[->| ->]]]]). by rewrite E, andb_false_r. }
  assert (Hs : forall c st a, msg_payload c = msg_payload m -> msg_tags c = msg_tags m -> msg_num_tags c = msg_num_tags m -> msg_sdata c = msg_sdata m -> msg_alloc_sdata c = msg_alloc_sdata m -> msg_num_sdata c = msg_num_sdata m ->
    msg_initial_parse c = msg_initial_parse m -> sees st m a -> sees st c a).
  { intros c st a E1 E2 E3 E4 E5 E6 E7 [S1 (ws & [T1 T2 T3 T4] & S2) [D1 D2 D3] S4 S5]. split; [by rewrite E1| |split; [by rewrite E6|by rewrite E5|by rewrite E4, E5]|done|by rewrite E7].
    exists ws. split; [|done]. split; [|done|by rewrite E3|by rewrite E3]. unfold tag_words in *. by rewrite E2, E3. }
  assert (Hp : forall k, ptr k m1 = ptr k m /\ ptr k c0 = ptr k m) by (intros []; by destruct m).
  assert (Hc : exists c, (if bool_decide (msg_num_tags c0 = 0) then log_msg_set_flag c0 LF_STATE_OWN_TAGS else c0) = c /\ (forall st a, sees st m a -> sees st c a) /\ msg_original c = Some id /\ forall k, ptr k c = ptr k m /\ (own k c = true -> ptr k c = None)).
  { eexists. split; [done|]. assert (Ht : forall k, own k c0 = false) by (intros []; apply H0; vm_compute; split; discriminate).
    destruct (bool_decide_reflect (msg_num_tags c0 = 0)) as [En|En]; split_and!; [intros st a; apply Hs; by destruct m|done| |intros st a; apply Hs; by destruct m|done|].
    - intros k. split; [rewrite <- (proj2 (Hp k)); by destruct k|]. destruct k.
      + intros E. exfalso. unfold own in E. rewrite (set_flag_own c0 OWN_TAGS) in E by done. change (has_own c0 OWN_PAYLOAD) with (own KPayload c0) in E. by rewrite Ht in E.
      + intros _. unfold ptr, tags_ptr. by rewrite bool_decide_eq_true_2.
      + intros E. exfalso. unfold own in E. rewrite (set_flag_own c0 OWN_TAGS) in E by done. change (has_own c0 OWN_SDATA) with (own KSdata c0) in E. by rewrite Ht in E.
    - intros k. split; [apply Hp|]. by rewrite Ht. }
  destruct Hc as (c & -> & C1 & C2 & C3). split_and!; [|by destruct m|by rewrite H1|done|].
  - intros st a Sa. split; [by apply (Hs m1); [destruct m..|]|by apply C1].
  - intros k. destruct (C3 k). split_and!; [apply Hp| |done|done]. destruct k; unfold own; by rewrite H1.
Qed.

(** A lookup among the messages after a clone. *)
Lemma clone_lookup (M : gmap Z LogMessage) (n id : Z) (m m1 c : LogMessage) (j : Z) (mj : LogMessage) : M !! id = Some m -> <[n := c]> (<[id := m1]> M) !! j = Some mj ->
  (j = n /\ mj = c) \/ j <> n /\ ((j = id /\ mj = m1 /\ M !! j = Some m) \/ (j <> id /\ M !! j = Some mj)).
Proof. intros Hm [[-> ->]|[Hn [[-> ->]|[Hi Hj]]%lookup_insert_Some]]%lookup_insert_Some; [by left|right; split; [done|by left]|right; split; [done|by right]]. Qed.
Lemma inv_clone (w : world) (A : gmap Z amsg) (id : Z) (m : LogMessage) (a : amsg) : cow_inv w A -> w_msgs w !! id = Some m -> A !! id = Some a ->
  let '(m1, c) := log_msg_clone_cow id m in cow_inv (mkWorld (w_store w) (<[w_next w := c]> (<[id := m1]> (w_msgs w))) (w_next w + 1)) (<[w_next w := a]> A).
Proof.
  intros I Hm Ha. pose proof (clone_ok id m) as H. destruct (log_msg_clone_cow id m) as [m1 c]. destruct H as (Hsee & Eo1 & Hr & Eoc & Hk). pose proof (ci_ids _ _ I id m Hm) as Hid. destruct (ci_sees _ _ I id m Hm) as (a0 & Ha0 & Sa). assert (a0 = a) as -> by congruence.
  set (M := <[w_next w := c]> (<[id := m1]> (w_msgs w))). assert (Hold : forall j mj, M !! j = Some mj -> j = w_next w /\ mj = c \/ exists m0, w_msgs w !! j = Some m0 /\ (forall k, ptr k mj = ptr k m0 /\ own k mj = own k m0) /\ msg_original mj = msg_original m0 /\ forall st b, sees st m0 b -> sees st mj b).
  { intros j mj [[-> ->]|[_ [(-> & -> & ?)|(? & ?)]]]%(clone_lookup _ _ _ m); [by left|right; exists m|right; exists mj|done]. { split_and!; [done| |done|intros st b Sb; by apply Hsee]. intros k. destruct (Hk k) as (? & ? & _). done. } { done. } }
  assert (Hnew : forall o mo, w_msgs w !! o = Some mo -> exists mo', M !! o = Some mo' /\ (forall k, ptr k mo' = ptr k mo) /\ (has_own mo REFERENCED = true -> has_own mo' REFERENCED = true)).
  { intros o mo Ho. pose proof (ci_ids _ _ I o mo Ho). subst M. rewrite lookup_insert_ne by lia. destruct (decide (o = id)) as [->|Hne]; [rewrite lookup_insert_eq; exists m1|rewrite lookup_insert_ne by done; exists mo]; split_and!; try done. intros k. assert (mo = m) as -> by congruence. apply Hk. }
  split; cbn [w_store w_msgs w_next]; fold M.
  - apply I.
  - intros j mj [[-> _]|(m0 & Hj & _)]%Hold; [lia|]. pose proof (ci_ids _ _ I j m0 Hj). lia.
  - intros j mj [[-> ->]|(m0 & Hj & _ & _ & Hs)]%Hold; [exists a; rewrite lookup_insert_eq; split; [done|by apply Hsee]|]. pose proof (ci_ids _ _ I j m0 Hj). rewrite lookup_insert_ne by lia. destruct (ci_sees _ _ I j m0 Hj) as (b & Hb & Sb). exists b. split; [done|by apply Hs].
  - intros j [[Hj _]%lookup_insert_None Hn]%lookup_insert_None. rewrite lookup_insert_ne by done. by apply (ci_dom _ _ I).
  - intros k i j mi mj p [[-> ->]|(m0 & Hi & K0 & _)]%Hold Hj Oi Oj Pi Pj; [destruct (Hk k) as (_ & _ & _ & Hn); rewrite Hn in Pi by done; done|].
    apply Hold in Hj as [[-> ->]|(m2 & Hj & K2 & _)]; [destruct (Hk k) as (_ & _ & _ & Hn); rewrite Hn in Pj by done; done|]. destruct (K0 k), (K2 k). eapply (ci_unique _ _ I k i j m0 m2 p); congruence.
  - intros k i mi p [[-> ->]|(m0 & Hi & K0 & Eo & _)]%Hold Oi Pi.
    + destruct (Hnew id m Hm) as (mo & Ho & Hp & _). exists id, mo. split_and!; [done|done|]. rewrite Hp. destruct (Hk k) as (_ & _ & <- & _). done.
    + destruct (K0 k) as [Kp Ko]. destruct (ci_borrow _ _ I k i m0 p Hi) as (o & mo & E1 & E2 & E3); [congruence|congruence|]. destruct (Hnew o mo E2) as (mo' & Ho & Hp & _). exists o, mo'. split_and!; [congruence|done|]. by rewrite Hp.
  - intros i mi o [[-> ->]|(m0 & Hi & _ & Eo & _)]%Hold E.
    + assert (o = id) as -> by congruence. split; [lia|]. exists m1. split; [|done]. subst M. rewrite lookup_insert_ne by lia. by rewrite lookup_insert_eq.
    + rewrite Eo in E. destruct (ci_original _ _ I i m0 o Hi E) as (Hlt & mo & Ho & Hb). split; [done|]. destruct (Hnew o mo Ho) as (mo' & Ho' & _ & Hr'). exists mo'. auto.
Qed.

(** A message whose blocks nobody else has any more goes. *)
Lemma free_ok (st : store) (m : LogMessage) (a : amsg) : store_wf st -> sees st m a ->
  exists st', log_msg_free st m = Ret st' /\ store_wf st' /\ s_next st' = s_next st /\ forall m0, (forall k p, own k m = true -> ptr k m = Some p -> ptr k m0 <> Some p) -> untouched st st' m0.
Proof.
  intros Hst [(t & Ht & _) (ws & Hws & _) [_ _ Hsd] _ _]. unfold log_msg_free. change LF_STATE_OWN_PAYLOAD with (Z.shiftl 1 OWN_PAYLOAD). change LF_STATE_OWN_TAGS with (Z.shiftl 1 OWN_TAGS). change LF_STATE_OWN_SDATA with (Z.shiftl 1 OWN_SDATA). rewrite !chk_flag_own by done.
  pose proof (table_bound _ _ _ Hst Ht) as Hp.
  assert (G1 : exists st1, (if has_own m OWN_PAYLOAD && bool_decide (msg_payload m <> 0) then let! t := get (s_tables st) (msg_payload m) in let '(t, freed) := nv_table_unref t in Ret (if freed || nt_borrowed t then free_table st (msg_payload m) else put_table st (msg_payload m) t) else Ret st) = Ret st1 /\
    store_wf st1 /\ s_words st1 = s_words st /\ s_handles st1 = s_handles st /\ s_next st1 = s_next st /\ forall q, (own KPayload m = true -> q <> msg_payload m) -> s_tables st1 !! q = s_tables st !! q).
  { destruct (has_own m OWN_PAYLOAD) eqn:E; cbn [andb]; [|exists st; by split_and!]. case_bool; [|exists st; by split_and!]. unfold get. rewrite Ht. cbn [obind]. destruct (nv_table_unref t) as [t1 f]. eexists. split; [done|].
    destruct (f || nt_borrowed t1); (split_and!; [by apply free_table_wf || by apply put_table_wf|done|done|done|]); intros q Hq; cbn; [rewrite lookup_delete_ne|rewrite lookup_insert_ne]; try done; intros E9; by apply Hq. }
  destruct G1 as (st1 & -> & W1 & Ew & Eh & En & U1). cbn [obind].
  assert (G2 : exists st2, (if has_own m OWN_TAGS && bool_decide (msg_tags m <> 0) && bool_decide (msg_num_tags m > 0) then let! _ := get (s_words st1) (msg_tags m) in Ret (free_words st1 (msg_tags m)) else Ret st1) = Ret st2 /\
    store_wf st2 /\ s_tables st2 = s_tables st1 /\ s_handles st2 = s_handles st /\ s_next st2 = s_next st /\ forall q, (own KTags m = true -> ptr KTags m <> Some q) -> s_words st2 !! q = s_words st !! q).
  { destruct (_ && _ && _) eqn:E; [|exists st1; split_and!; [done..|by rewrite Ew]]. apply andb_true_iff in E as [[Eo _]%andb_true_iff E%bool_decide_eq_true]. destruct (tag_words_array st m ws Hws) as [Ha _]; [lia|]. unfold get. rewrite Ew, Ha. cbn [obind]. eexists. split; [done|].
    split_and!; [|done|done|done|].
    - destruct W1 as [H0 Hf]. split; [done|]. cbn. intros q Hq. destruct (Hf q Hq) as (? & ? & ?). split_and!; [done| |done]. by apply lookup_delete_None; right.
    - intros q Hq. cbn. rewrite lookup_delete_ne; [by rewrite Ew|]. intros <-. apply Hq; [done|]. unfold ptr, tags_ptr. by rewrite bool_decide_eq_false_2 by lia. }
  destruct G2 as (st2 & -> & W2 & Et2 & Eh2 & En2 & U2). cbn [obind].
  assert (U : forall st3, s_tables st3 = s_tables st2 -> s_words st3 = s_words st2 -> (forall q, (own KSdata m = true -> ptr KSdata m <> Some q) -> s_handles st3 !! q = s_handles st !! q) ->
    forall m0, (forall k p, own k m = true -> ptr k m = Some p -> ptr k m0 <> Some p) -> untouched st st3 m0).
  { intros st3 E1 E2 U3 m0 H. split_and!; intros p _ Ep.
    - rewrite E1, Et2. apply U1. intros Ho ->. by apply (H KPayload (msg_payload m)).
    - rewrite E2. apply U2. intros Ho E. by apply (H KTags p).
    - apply U3. intros Ho E. by apply (H KSdata p). }
  destruct (has_own m OWN_SDATA) eqn:Eo; cbn [andb]; [|exists st2; split_and!; [done..|]; apply U; [done..|intros q _; by rewrite Eh2]]. case_bool; [|exists st2; split_and!; [done..|]; apply U; [done..|intros q _; by rewrite Eh2]].
  rewrite bool_decide_eq_false_2 in Hsd by done. destruct Hsd as (rest & Hs & _). unfold get. rewrite Eh2, Hs. cbn [obind]. eexists. split; [done|]. split_and!; [|done|].
  - destruct W2 as [H0 Hf]. split; [done|]. cbn. intros q Hq. destruct (Hf q Hq) as (? & ? & ?). split_and!; [done|done|]. by apply lookup_delete_None; right.
  - apply U; [done|done|]. intros q Hq. cbn. rewrite lookup_delete_ne; [by rewrite Eh2|]. intros <-. apply Hq; [done|]. unfold ptr, sdata_ptr. by rewrite bool_decide_eq_false_2.
Qed.

Lemma inv_free (w : world) (A : gmap Z amsg) (id : Z) (m : LogMessage) (st' : store) : cow_inv w A -> w_msgs w !! id = Some m -> (forall j mj, w_msgs w !! j = Some mj -> msg_original mj <> Some id) -> store_wf st' ->
  (forall m0, (forall k p, own k m = true -> ptr k m = Some p -> ptr k m0 <> Some p) -> untouched (w_store w) st' m0) -> cow_inv (mkWorld st' (delete id (w_msgs w)) (w_next w)) (delete id A).
Proof.
  intros I Hm Hnc Hst' Hu. split; cbn [w_store w_msgs w_next].
  - done.
  - intros j mj [_ Hj]%lookup_delete_Some. by eapply ci_ids.
  - intros j mj [Hne Hj]%lookup_delete_Some. rewrite lookup_delete_ne by done. destruct (ci_sees _ _ I j mj Hj) as (a & Ha & Sa). exists a. split; [done|]. eapply sees_untouched; [apply I| |done]. apply Hu. intros k p Ho Hp E.
    destruct (sharer w A k id m p I Hm Ho Hp j mj Hj) as (c & mc & Hc & Ec); [done|done|]. by apply (Hnc c mc).
  - intros j Hj. destruct (decide (j = id)) as [->|Hne]; [by rewrite lookup_delete_eq|]. rewrite lookup_delete_ne in Hj by done. rewrite lookup_delete_ne by done. by apply (ci_dom _ _ I).
  - intros k i j mi mj p [_ Hi]%lookup_delete_Some [_ Hj]%lookup_delete_Some. by eapply (ci_unique _ _ I).
  - intros k i mi p [_ Hi]%lookup_delete_Some Oi Pi. destruct (ci_borrow _ _ I k i mi p Hi Oi Pi) as (o & mo & E1 & E2 & E3). exists o, mo. split; [done|]. rewrite lookup_delete_ne; [done|]. intros <-. by apply (Hnc i mi).
  - intros i mi o [_ Hi]%lookup_delete_Some E. destruct (ci_original _ _ I i mi o Hi E) as (Hlt & mo & Ho & Hb). split; [done|]. exists mo. rewrite lookup_delete_ne; [done|]. intros <-. by apply (Hnc i mi).
Qed.

(** ** The simulation *)

Lemma writable_ok (w : world) (id : Z) : writable w id = true -> exists m, w_msgs w !! id = Some m /\ has_own m REFERENCED = false.
Proof. unfold writable. destruct (w_msgs w !! id) as [m|]; [|done]. change LF_STATE_REFERENCED with (Z.shiftl 1 REFERENCED). rewrite chk_flag_own by done. intros H%negb_true_iff. eauto. Qed.
Lemma initial_sees (st : store) (m : LogMessage) (a : amsg) (b : bool) : store_wf st -> sees st m a -> frame st st m (set_initial_parse m b) /\ sees st (set_initial_parse m b) (mkA (a_value a) (a_tag a) (a_sdata a) b).
Proof.
  intros W [S1 (ws & [T1 T2 T3 T4] & S2) [D1 D2 D3] S4 S5]. split; [split; [lia|done|apply kframe_refl..|done|done]|]. split; [done| |done|done|done]. exists ws. done.
Qed.
Lemma step_simulates (w : world) (A : gmap Z amsg) (op : msg_op) : msg_registry reg -> cow_inv w A -> 0 <= w_next w -> msg_allowed w op = true ->
  exists w' A', msg_step w op = Ret w' /\ a_step (A, w_next w) op (A', w_next w') /\ cow_inv w' A' /\ 0 <= w_next w'.
Proof.
  intros Mr I Hn Hal. pose proof (ci_store _ _ I) as Hst. destruct op as [len|id|id h v|id tag on|id b|id]; cbn [msg_allowed msg_step] in *.
  - apply bool_decide_eq_true in Hal. destruct (new_message_ok (w_store w) len Hst) as (st' & m & -> & W' & N' & U & S & Eo & K); [lia|]. cbn [obind]. eexists _, _. split; [done|]. split; [constructor|]. split; [by apply inv_new|cbn; lia].
  - apply bool_decide_eq_true in Hal as [m Hm]. unfold get. rewrite Hm. cbn [obind]. destruct (ci_sees _ _ I id m Hm) as (a & Ha & _). pose proof (inv_clone w A id m a I Hm Ha) as H. destruct (log_msg_clone_cow id m) as [m1 c].
    eexists _, _. split; [done|]. split; [by constructor|]. split; [done|cbn; lia].
  - apply andb_true_iff in Hal as [[Hw Hh%bool_decide_eq_true]%andb_true_iff Hv%bool_decide_eq_true]. destruct (writable_ok w id Hw) as (m & Hm & Hr). unfold get. rewrite Hm. cbn [obind]. destruct (ci_sees _ _ I id m Hm) as (a & Ha & Sa).
    destruct (set_value_sees (w_store w) m a h v Mr Hst Sa Hh Hv) as (st' & m' & stored & -> & F & S). cbn [obind]. eexists _, _. split; [done|]. split; [by apply (a_step_set _ _ _ a _ _ stored)|]. split; [by eapply inv_update|done].
  - apply andb_true_iff in Hal as [Hw Ht%bool_decide_eq_true]. destruct (writable_ok w id Hw) as (m & Hm & Hr). unfold get. rewrite Hm. cbn [obind]. destruct (ci_sees _ _ I id m Hm) as (a & Ha & Sa).
    destruct (set_tag_sees (w_store w) m a tag on Hst Sa Ht) as (st' & m' & -> & F & S). cbn [obind]. eexists _, _. split; [done|]. split; [by apply (a_step_tag _ _ _ a)|]. split; [by eapply inv_update|done].
  - destruct (writable_ok w id Hal) as (m & Hm & Hr). unfold get. rewrite Hm. cbn [obind]. destruct (ci_sees _ _ I id m Hm) as (a & Ha & Sa). destruct (initial_sees (w_store w) m a b Hst Sa) as [F S].
    eexists _, _. split; [done|]. split; [by apply (a_step_initial _ _ _ a)|]. split; [by eapply inv_update|done].
  - apply andb_true_iff in Hal as [[m Hm]%bool_decide_eq_true Hall]. unfold get. rewrite Hm. cbn [obind]. destruct (ci_sees _ _ I id m Hm) as (a & Ha & Sa). destruct (free_ok (w_store w) m a Hst Sa) as (st' & -> & W' & _ & U). cbn [obind].
    eexists _, _. split; [done|]. split; [constructor|]. split; [|done]. eapply inv_free; [done|done| |done|done]. intros j mj Hj. rewrite forallb_forall in Hall. specialize (Hall (j, mj)). apply bool_decide_eq_true in Hall; [done|]. apply list_elem_of_In. by apply elem_of_map_to_list.
Qed.
Lemma empty_inv : cow_inv empty_world ∅.
Proof. split; cbn; by intros; simplify_map_eq. Qed.
Lemma run_simulates (ops : list msg_op) : msg_registry reg -> forall w A, cow_inv w A -> 0 <= w_next w -> allowed_run w ops = true ->
  exists w' A', msg_run w ops = Ret w' /\ a_run (A, w_next w) ops (A', w_next w') /\ cow_inv w' A'.
Proof.
  intros Mr. induction ops as [|op ops IH]; intros w A I Hn Hal; [exists w, A; split_and!; [done|constructor|done]|]. cbn [allowed_run msg_run] in *. apply andb_true_iff in Hal as [Ha Hal].
  destruct (step_simulates w A op Mr I Hn Ha) as (w1 & A1 & E & S & I1 & N1). rewrite E in *. cbn [obind]. destruct (IH w1 A1 I1 N1 Hal) as (w2 & A2 & -> & R & I2). exists w2, A2. split_and!; [done|by econstructor|done].
Qed.
End cow.
