(* ===== verification/SdataFormat.v ===== *)
(** * Printing the structured data of a message (lib/logmsg.c) *)
From S2P Require Import Prelude CString NVTable NVRegistry Buffer StrFormat TimeStamp SyslogDate SyslogFormat SyslogFormatSpec LogMsgData LogMsgTags LogMsgValues LogMsgCow.

Definition hex_digit (d : Z) : Z := if bool_decide (d < 10) then 48 + d else 55 + d.
Definition key_char (c : Z) : bytes :=
  if bool_decide (c >= 128 \/ c = 61 \/ c = 32 \/ c = 91 \/ c = 93 \/ c = 34) then [37; hex_digit (c / 16); hex_digit (c mod 16)] else [c].
Definition log_msg_sdata_append_key_escaped (result str : bytes) : bytes := result ++ (str ≫= key_char).
Definition value_char (c : Z) : bytes := if bool_decide (c = 34 \/ c = 92 \/ c = 93) then [92; c] else [c].
Definition log_msg_sdata_append_escaped (result str : bytes) : bytes := result ++ (str ≫= value_char).

(** ["%d"] of a 32 bit number. *)
Definition print_int (n : Z) : bytes := if bool_decide (s32 n < 0) then 45 :: decimal (- s32 n) else decimal (s32 n).

(** The element and the parameter in a name, given the length of the element in
    the flags of the handle, or 0. *)
Definition split_sdata_name (name : bytes) (name_len sd_id_len : Z) : outcome (bytes * bytes) :=
  let rest := drop 7 name in
  let! dot :=
    (if bool_decide (sd_id_len <> 0) then
       if bool_decide (7 + sd_id_len <> name_len) then
         let! _ := g_assert (bool_decide (7 + sd_id_len < name_len /\ rest !! Z.to_nat sd_id_len = Some 46)) in Ret (Some (Z.to_nat sd_id_len))
       else Ret None
     else Ret (memrchr rest 46)) in
  Ret match dot with
      | Some d => (take d rest, drop (S d) rest)
      | None => (if bool_decide (name_len = 7) then bytes_of_string "none" else rest, [])
      end.

Record sd_state := mkSd { sd_result : bytes; sd_cur : option bytes; sd_has_seq : bool }.
Definition sequence_param (seq_num : Z) : bytes := bytes_of_string "sequenceId=" ++ 34 :: print_int seq_num ++ [34].

Section format.
Variable macro : Z -> bytes.
Variable reg : NVRegistry.
Variable st : store.
Variable self : LogMessage.
Variable seq_num : Z.

(** The round of the loop for one handle. *)
Definition format_one (s : sd_state) (handle : Z) : outcome sd_state :=
  let! (name, name_len) := nv_registry_get_handle_name reg handle in
  let! flags := nv_registry_get_handle_flags reg handle in
  let! _ := g_assert (bool_decide (Z.land flags LM_VF_SDATA <> 0)) in
  let! _ := g_assert (bool_decide (name_len > 6)) in
  let! (elem, param) := split_sdata_name name name_len (Z.shiftr flags 8) in
  let s := if bool_decide (sd_cur s = Some elem) then s
           else mkSd (log_msg_sdata_append_key_escaped ((match sd_cur s with Some _ => sd_result s ++ [93] | None => sd_result s end) ++ [91]) elem) (Some elem) (sd_has_seq s) in
  let s := if negb (sd_has_seq s) && bool_decide (seq_num <> 0) && strncmp_eq (drop 7 name) (bytes_of_string "meta.") 5
           then mkSd (sd_result s ++ 32 :: sequence_param seq_num) (sd_cur s) true else s in
  if bool_decide (lenZ param <> 0) then
    let! (value, len) := log_msg_get_value macro reg st self handle in
    let result := log_msg_sdata_append_key_escaped (sd_result s ++ [32]) param ++ [61; 34] in
    Ret (mkSd (log_msg_sdata_append_escaped result value ++ [34]) (sd_cur s) (sd_has_seq s))
  else Ret s.
Fixpoint format_loop (s : sd_state) (handles : list Z) : outcome sd_state :=
  match handles with [] => Ret s | h :: handles => let! s := format_one s h in format_loop s handles end.
End format.

Definition log_msg_append_format_sdata (macro : Z -> bytes) (reg : NVRegistry) (st : store) (self : LogMessage) (result : bytes) (seq_num : Z) : outcome (NVRegistry * bytes) :=
  let! (meta_seqid, reg) := log_msg_get_value_handle reg (bytes_of_string ".SDATA.meta.sequenceId") in
  let! (seqid, _) := log_msg_get_value macro reg st self meta_seqid in
  let! sdata := (if bool_decide (msg_num_sdata self = 0) then Ret [] else get (s_handles st) (msg_sdata self)) in
  let! _ := g_assert (bool_decide (msg_num_sdata self <= lenZ sdata)) in
  let! s := format_loop macro reg st self seq_num (mkSd result None (bool_decide (deref seqid <> 0))) (take (Z.to_nat (msg_num_sdata self)) sdata) in
  let result := match sd_cur s with Some _ => sd_result s ++ [93] | None => sd_result s end in
  Ret (reg, if negb (sd_has_seq s) && bool_decide (seq_num <> 0) then result ++ bytes_of_string "[meta " ++ sequence_param seq_num ++ [93] else result).
Definition log_msg_format_sdata (macro : Z -> bytes) (reg : NVRegistry) (st : store) (self : LogMessage) (seq_num : Z) : outcome (NVRegistry * bytes) :=
  log_msg_append_format_sdata macro reg st self [] seq_num.

(** * Structured data printed and parsed again *)

(** ** The registry when the name of the sequence number is asked for *)

Lemma value_handle_ok (reg : NVRegistry) (name : bytes) : reg_wf reg -> strncmp_eq name logmsg_sd_prefix 7 && bool_decide (default 0 (name !! 6%nat) <> 0) = true ->
  exists h reg', log_msg_get_value_handle reg name = Ret (h, reg') /\ (h = 0 \/ nv_registry_get_handle_flags reg' h = Ret LM_VF_SDATA) /\
    forall i d, r_names reg !! i = Some d -> exists f, r_names reg' !! i = Some (mkDesc (hd_name d) f (hd_name_len d)) /\ (f = hd_flags d \/ f = LM_VF_SDATA).
Proof.
  intros W Hn. unfold log_msg_get_value_handle. pose proof (alloc_handle_spec reg name W) as S. pose proof (alloc_handle_wf reg name W) as W1. destruct (nv_registry_alloc_handle reg name) as [h reg1]. cbn [fst snd] in *. rewrite Hn.
  assert (Hold : forall i d, r_names reg !! i = Some d -> r_names reg1 !! i = Some d) by (intros i d Hi; inversion S; subst; [done|done|]; cbn; by apply lookup_app_l_Some).
  assert (Hh : h = 0 \/ exists d, r_names reg1 !! Z.to_nat (h - 1) = Some d).
  { inversion S as [h0 E|E1 E2|E1 E2 E3]; subst; [right|by left|right].
    - apply lookup_lt_is_Some_2. pose proof (rw_map _ W name h E). unfold lenZ in *. lia.
    - cbn. apply lookup_lt_is_Some_2. rewrite length_app. pose proof (lenZ_nonneg (r_names reg)). unfold lenZ in *. simpl. lia. }
  unfold nv_registry_set_handle_flags, nv_registry_get_handle_flags. destruct (bool_decide_reflect (h = 0)) as [->|Hz].
  - cbn [obind]. exists 0, reg1. split_and!; [done|by left|]. intros i d Hi. exists (hd_flags d). split; [|by left]. rewrite (Hold i d Hi). by destruct d.
  - destruct Hh as [?|[d Hd]]; [done|]. rewrite Hd. cbn [obind]. eexists h, _. split; [done|]. cbn [r_names]. split.
    + right. rewrite bool_decide_eq_false_2 by done. rewrite list_lookup_insert_eq by (by eapply lookup_lt_Some). done.
    + intros i d' Hi. specialize (Hold i d' Hi). destruct (decide (i = Z.to_nat (h - 1))) as [->|Hne].
      * exists LM_VF_SDATA. rewrite list_lookup_insert_eq by (by eapply lookup_lt_Some). split; [|by right]. assert (d' = d) as -> by congruence. done.
      * exists (hd_flags d'). rewrite list_lookup_insert_ne by done. split; [|by left]. rewrite Hold. by destruct d'.
Qed.

(** ** Names *)

Lemma memrchr_last (x y : bytes) (c : Z) : c ∉ y -> memrchr (x ++ c :: y) c = Some (length x).
Proof.
  intros Hy. assert (Hn : memrchr y c = None) by (induction y as [|b y IH]; [done|]; cbn; rewrite IH by set_solver; rewrite bool_decide_eq_false_2 by set_solver; done).
  induction x as [|b x IH]; cbn; [rewrite Hn; by rewrite bool_decide_eq_true_2|by rewrite IH].
Qed.
Lemma memrchr_none (y : bytes) (c : Z) : c ∉ y -> memrchr y c = None.
Proof. induction y as [|b y IH]; [done|]. intros H. cbn. rewrite IH by set_solver. by rewrite bool_decide_eq_false_2 by set_solver. Qed.

Definition key_ok (n : bytes) : Prop := Forall (fun b => sd_name_char b = true /\ b <> 91) n.
Lemma key_escape_id (n result : bytes) : key_ok n -> log_msg_sdata_append_key_escaped result n = result ++ n.
Proof.
  intros H. unfold log_msg_sdata_append_key_escaped. f_equal. induction H as [|b n [Hb H91] H IH]; [done|]. cbn [mbind list_bind]. change (list_bind _ _ key_char n) with (n ≫= key_char). rewrite IH. unfold key_char. rewrite bool_decide_eq_false_2; [done|].
  unfold sd_name_char, isascii in Hb. apply andb_true_iff in Hb as [Ha Hb]. apply negb_true_iff in Hb. rewrite !orb_false_iff in Hb. unfold isc in Hb. rewrite !bool_decide_eq_false in Hb. apply bool_decide_eq_true in Ha. lia.
Qed.
Lemma value_escape_eq (v result : bytes) : log_msg_sdata_append_escaped result v = result ++ escape v.
Proof.
  unfold log_msg_sdata_append_escaped, escape. f_equal. apply list_bind_ext; [|done]. intros b. unfold value_char, special, isc. assert (E : bool_decide (b = 34 \/ b = 92 \/ b = 93) = bool_decide (b = 34) || bool_decide (b = 92) || bool_decide (b = 93)) by (apply eq_true_iff_eq; rewrite !orb_true_iff, !bool_decide_eq_true; tauto). by rewrite E.
Qed.

(** ** Printing *)

Section print.
Variable macro : Z -> bytes.
Variable reg : NVRegistry.
Variable st : store.
Variable m : LogMessage.
Variable t : NVTable.
Hypothesis Ht : s_tables st !! msg_payload m = Some t.

(** The handle has this name, flags without a length, and this value in the message. *)
Record has_pair (h : Z) (kv : bytes * bytes) : Prop := {
  hp_desc : 0 < h /\ r_names reg !! Z.to_nat (h - 1) = Some (mkDesc kv.1 LM_VF_SDATA (lenZ kv.1));
  hp_value : nv_table_get_value t h = Some (kv.2, lenZ kv.2) }.

Lemma pair_name (h : Z) (kv : bytes * bytes) : has_pair h kv -> nv_registry_get_handle_name reg h = Ret (kv.1, lenZ kv.1) /\ nv_registry_get_handle_flags reg h = Ret LM_VF_SDATA /\ log_msg_get_value macro reg st m h = Ret (kv.2, lenZ kv.2).
Proof.
  intros [[Hh Hd] Hv]. assert (Hf : nv_registry_get_handle_flags reg h = Ret LM_VF_SDATA) by (unfold nv_registry_get_handle_flags; rewrite bool_decide_eq_false_2 by lia; by rewrite Hd). split_and!; [|done|].
  - unfold nv_registry_get_handle_name. rewrite bool_decide_eq_false_2 by lia. by rewrite Hd.
  - unfold log_msg_get_value. rewrite Hf. cbn [obind]. rewrite bool_decide_eq_true_2 by done. unfold get. rewrite Ht. cbn [obind]. by rewrite Hv.
Qed.

Definition opened (s : sd_state) (id : bytes) : bytes := if bool_decide (sd_cur s = Some id) then sd_result s else (match sd_cur s with Some _ => sd_result s ++ [93] | None => sd_result s end) ++ 91 :: id.
Lemma format_param (s : sd_state) (h : Z) (id : bytes) (p : bytes * bytes) : has_pair h (param_value id p) -> key_ok id -> key_ok p.1 -> 46 ∉ p.1 -> p.1 <> [] ->
  format_one macro reg st m 0 s h = Ret (mkSd (opened s id ++ print_param p) (Some id) (sd_has_seq s)).
Proof.
  intros Hh Kid Kp Hdot Hne. destruct (pair_name _ _ Hh) as (E1 & E2 & E3). unfold format_one. rewrite E1. cbn [obind]. rewrite E2. cbn [obind]. rewrite bool_decide_eq_true_2 by done. cbn [g_assert obind]. cbn [param_value fst].
  assert (Hl : lenZ (sd_prefix ++ id ++ 46 :: p.1) > 6) by (rewrite !lenZ_app, lenZ_cons; change (lenZ sd_prefix) with 7; pose proof (lenZ_nonneg id); pose proof (lenZ_nonneg p.1); lia). rewrite bool_decide_eq_true_2 by exact Hl. cbn [g_assert obind].
  unfold split_sdata_name. change (Z.shiftr LM_VF_SDATA 8) with 0. change (bool_decide (0 <> 0)) with false. cbn iota. cbn [obind]. change (drop 7 (sd_prefix ++ id ++ 46 :: p.1)) with (id ++ 46 :: p.1). rewrite memrchr_last by done. cbn [obind].
  rewrite take_app_length. assert (Ed : drop (S (length id)) (id ++ 46 :: p.1) = p.1) by (rewrite drop_app_ge by lia; by replace (S (length id) - length id)%nat with 1%nat by lia). rewrite Ed.
  rewrite andb_false_r. cbn [andb]. set (s1 := if bool_decide (sd_cur s = Some id) then s else _). assert (Hs1 : s1 = mkSd (opened s id) (Some id) (sd_has_seq s)).
  { subst s1. unfold opened. destruct (bool_decide_reflect (sd_cur s = Some id)) as [E|E]; [destruct s; cbn in *; by subst|]. rewrite key_escape_id by done. by rewrite <- app_assoc. }
  rewrite Hs1. cbn [sd_result sd_cur sd_has_seq]. assert (Hp : lenZ p.1 <> 0) by (intros H; by apply lenZ_zero_nil in H). rewrite bool_decide_eq_true_2 by done. rewrite E3. cbn [obind]. rewrite key_escape_id, value_escape_eq by done. do 2 f_equal. unfold print_param. cbn [param_value snd]. rewrite <- !app_assoc. done.
Qed.
Lemma format_empty (s : sd_state) (h : Z) (id : bytes) : has_pair h (sd_prefix ++ id, []) -> key_ok id -> 46 ∉ id -> id <> [] -> format_one macro reg st m 0 s h = Ret (mkSd (opened s id) (Some id) (sd_has_seq s)).
Proof.
  intros Hh Kid Hdot Hne. destruct (pair_name _ _ Hh) as (E1 & E2 & E3). unfold format_one. rewrite E1. cbn [obind]. rewrite E2. cbn [obind]. rewrite bool_decide_eq_true_2 by done. cbn [g_assert obind fst].
  assert (Hl0 : lenZ (sd_prefix ++ id) > 7). { rewrite lenZ_app. change (lenZ sd_prefix) with 7. destruct id; [done|]. rewrite lenZ_cons. pose proof (lenZ_nonneg id). lia. }
  rewrite bool_decide_eq_true_2 by lia. cbn [g_assert obind]. unfold split_sdata_name. change (Z.shiftr LM_VF_SDATA 8) with 0. change (bool_decide (0 <> 0)) with false. cbn iota. cbn [obind]. change (drop 7 (sd_prefix ++ id)) with id. rewrite memrchr_none by done. cbn [obind].
  rewrite (bool_decide_eq_false_2 (lenZ _ = 7)) by lia. rewrite andb_false_r. cbn [andb]. set (s1 := if bool_decide (sd_cur s = Some id) then s else _). assert (Hs1 : s1 = mkSd (opened s id) (Some id) (sd_has_seq s)).
  { subst s1. unfold opened. destruct (bool_decide_reflect (sd_cur s = Some id)) as [E|E]; [destruct s; cbn in *; by subst|]. rewrite key_escape_id by done. by rewrite <- app_assoc. }
  rewrite Hs1. done.
Qed.
Lemma format_params (id : bytes) (ps : list (bytes * bytes)) : forall hs s, Forall2 has_pair hs (param_value id <$> ps) -> key_ok id -> Forall (fun p => key_ok p.1 /\ 46 ∉ p.1 /\ p.1 <> []) ps -> sd_cur s = Some id ->
  format_loop macro reg st m 0 s hs = Ret (mkSd (sd_result s ++ (ps ≫= print_param)) (Some id) (sd_has_seq s)).
Proof.
  induction ps as [|p ps IH]; intros hs s F Kid Kp Hc; inversion F as [|h kv hs' kvs Hh F']; subst.
  - cbn. rewrite app_nil_r. destruct s; cbn in *. by subst.
  - apply Forall_cons in Kp as [(K1 & K2 & K3) Kp]. cbn [format_loop]. rewrite (format_param s h id p) by done. cbn [obind]. rewrite IH by done. cbn [sd_result sd_has_seq mbind list_bind]. unfold opened. rewrite bool_decide_eq_true_2 by done. by rewrite <- app_assoc.
Qed.

Definition closed (s : sd_state) : bytes := match sd_cur s with Some _ => sd_result s ++ [93] | None => sd_result s end.
(** What relaying needs of the names: no dots that would move the border between
    element and parameter, no bracket, and no two neighbours of one name. *)
Definition relay_elem (e : sd_elem) : Prop :=
  key_ok (sd_id e) /\ sd_id e <> [] /\ (sd_pairs e = [] -> 46 ∉ sd_id e) /\ Forall (fun p => key_ok p.1 /\ 46 ∉ p.1 /\ p.1 <> []) (sd_pairs e).
Fixpoint neighbours (cur : option bytes) (es : list sd_elem) : Prop := match es with [] => True | e :: es => cur <> Some (sd_id e) /\ neighbours (Some (sd_id e)) es end.
Lemma format_elem (e : sd_elem) (hs : list Z) (s : sd_state) : Forall2 has_pair hs (elem_values e) -> relay_elem e -> sd_cur s <> Some (sd_id e) ->
  format_loop macro reg st m 0 s hs = Ret (mkSd (closed s ++ 91 :: sd_id e ++ (sd_pairs e ≫= print_param)) (Some (sd_id e)) (sd_has_seq s)).
Proof.
  intros F (Kid & Hne & Hd & Kp) Hc. assert (Ho : opened s (sd_id e) = closed s ++ 91 :: sd_id e) by (unfold opened; by rewrite bool_decide_eq_false_2). unfold elem_values in F. destruct e as [id [|p ps]]; cbn [sd_id sd_pairs] in *.
  - inversion F as [|h kv hs' kvs Hh F']; subst. inversion F'; subst. cbn [format_loop]. rewrite (format_empty s h id) by (try done; by apply Hd). cbn [obind mbind list_bind]. rewrite Ho. by rewrite app_nil_r.
  - inversion F as [|h kv hs' kvs Hh F']; subst. apply Forall_cons in Kp as [(K1 & K2 & K3) Kp]. cbn [format_loop]. rewrite (format_param s h id p) by done. cbn [obind]. rewrite format_params with (id := id) (ps := ps) by done. cbn [sd_result sd_has_seq mbind list_bind]. rewrite Ho, <- !app_assoc. done.
Qed.
Lemma format_elems (es : list sd_elem) : forall hs s, Forall2 has_pair hs (es ≫= elem_values) -> Forall relay_elem es -> neighbours (sd_cur s) es ->
  exists s', format_loop macro reg st m 0 s hs = Ret s' /\ closed s' = closed s ++ (es ≫= print_elem) /\ sd_has_seq s' = sd_has_seq s.
Proof.
  assert (Happ : forall l1 l2 s, format_loop macro reg st m 0 s (l1 ++ l2) = (let! s := format_loop macro reg st m 0 s l1 in format_loop macro reg st m 0 s l2)).
  { induction l1 as [|h l1 IH]; intros l2 s; [done|]. cbn [app format_loop]. destruct (format_one macro reg st m 0 s h); cbn [obind]; [apply IH|done]. }
  induction es as [|e es IH]; intros hs s F R N.
  - inversion F; subst. exists s. cbn. by rewrite app_nil_r.
  - cbn [mbind list_bind] in F. apply Forall2_app_inv_r in F as (h1 & h2 & F1 & F2 & ->). apply Forall_cons in R as [R1 R2]. destruct N as [N1 N2]. rewrite Happ, (format_elem e h1 s) by done. cbn [obind].
    destruct (IH h2 (mkSd (closed s ++ 91 :: sd_id e ++ (sd_pairs e ≫= print_param)) (Some (sd_id e)) (sd_has_seq s)) F2 R2 N2) as (s' & -> & E & Es). exists s'. split_and!; [done| |done]. rewrite E. cbn [mbind list_bind]. unfold closed at 1. cbn [sd_cur sd_result]. unfold print_elem at 2. rewrite <- !app_assoc. cbn [app]. by rewrite <- !app_assoc.
Qed.
End print.
