(* ===== verification/LogMsgClaims.v ===== *)
(** * What the values, tags and structured data of messages promise *)
From Stdlib Require Import Sorting.Sorted.
From S2P Require Import Prelude CString NVTable NVTableInv NVTableOps NVTableStore NVTableSpec NVRegistry StrFormat TimeStamp SyslogDate SyslogFormat SyslogFormatSpec LogMsgData LogMsgTags LogMsgValues LogMsgCow SdataFormat.

(** What the program can ask a message for. *)
Definition observes (reg : NVRegistry) (st : store) (m : LogMessage) (a : amsg) : Prop :=
  (forall macro h f, nv_registry_get_handle_flags reg h = Ret f -> Z.land f LM_VF_MACRO = 0 -> log_msg_get_value macro reg st m h = Ret (default [] (a_value a h), lenZ (default [] (a_value a h)))) /\
  (forall tag, 0 <= tag <= 8159 -> log_msg_is_tag_by_id st m tag = Ret (a_tag a tag)) /\
  (exists ids, log_msg_tags_foreach st m = Ret ids /\ forall tag, tag ∈ ids <-> 0 <= tag /\ a_tag a tag = true) /\
  sdata_wf st m (a_sdata a).
Lemma sees_observes (reg : NVRegistry) (st : store) (m : LogMessage) (a : amsg) : sees reg st m a -> observes reg st m a.
Proof.
  intros [(t & Ht & _ & Hv) (ws & Hws & Hb) Hsd _ _]. split_and!; [| | |done].
  - intros macro h f Hf Hm. unfold log_msg_get_value. rewrite Hf. cbn [obind]. rewrite bool_decide_eq_true_2 by done. unfold get. rewrite Ht. cbn [obind]. destruct (Hv h) as [-> _]. done.
  - intros tag Htag. rewrite (is_tag_ok st m ws) by done. by rewrite Hb by lia.
  - exists (tag_ids ws). split; [by apply tags_foreach_ok|]. intros tag. rewrite tag_ids_spec. split; intros [H0 H]; (split; [done|]); [by rewrite <- Hb|by rewrite Hb].
Qed.

(** C31: clones are messages of their own.  Messages are made, cloned, given
    values, tags and structured data, and freed, in any order in which only
    messages without clones are changed and freed after their clones; although a
    clone shares the table, the tags and the structured data of its original until
    it is changed, all operations return, never touching a freed block, and
    every message answers as if cloning had copied it: a change of one message
    is seen through no other one. *)
Theorem log_msg_clones_independent (reg : NVRegistry) (ops : list msg_op) (Mr : msg_registry reg) (Hal : allowed_run reg empty_world ops = true) :
  exists w A, msg_run reg empty_world ops = Ret w /\ a_run reg (∅, 0) ops (A, w_next w) /\
    forall id m, w_msgs w !! id = Some m -> exists a, A !! id = Some a /\ observes reg (w_store w) m a.
Proof.
  destruct (run_simulates reg ops Mr empty_world ∅ (empty_inv reg) ltac:(done) Hal) as (w & A & E & R & I). exists w, A. split_and!; [done|done|].
  intros id m Hm. destruct (ci_sees _ _ _ I id m Hm) as (a & Ha & Sa). exists a. split; [done|by apply sees_observes].
Qed.

(** C32: setting a value.  The call returns; afterwards the handle has the value
    (cut at 256 MB), unless the table has reached 256 MB, where it keeps its old
    one; all other values, and the tags, are as they were; a new value of
    structured data is put into the list at the place the source looks for, and
    the list is otherwise as it was. *)
Theorem log_msg_set_value_correct (reg : NVRegistry) (st : store) (m : LogMessage) (t : NVTable) (hs : list Z) (h : Z) (v : bytes) (Mr : msg_registry reg) (Hst : store_wf st)
  (Ht : s_tables st !! msg_payload m = Some t) (Hwf : nv_wf (reg_name reg) t) (Hsd : sdata_wf st m hs) (Hhs : Forall (handle_ok reg) hs) (Hh : handle_ok reg h) (Hv : lenZ v < 2 ^ 29) :
  exists st' m' t', log_msg_set_value reg st m h v = Ret (st', m') /\ s_tables st' !! msg_payload m' = Some t' /\ nv_wf (reg_name reg) t' /\
    (nv_table_get_value t' h = Some (truncate_value v, lenZ (truncate_value v)) \/ nt_size t' = NV_TABLE_MAX_BYTES /\ nv_table_get_value t' h = nv_table_get_value t h) /\
    (forall h', h' <> h -> nv_table_get_value t' h' = nv_table_get_value t h') /\
    sdata_wf st' m' (if bool_decide (nv_lookup t h = None) && is_sdata reg h then sd_insert reg (msg_initial_parse m) hs h else hs) /\
    (forall ws, tags_wf st m ws -> tags_wf st' m' ws).
Proof.
  destruct (set_value_ok reg st m t hs h v Mr Hst Ht Hwf Hsd Hhs Hh Hv) as (st' & m' & t' & ok & E & _ & Ht' & [Dw Do Dv Df _ _] & Hsd' & Ew & Et & En & _). exists st', m', t'. split_and!; [done|done|done| |done|done|].
  - destruct ok; [by left|right]. auto.
  - intros ws [A B C D]. split; [|done|by rewrite En|by rewrite En]. unfold tag_words in *. by rewrite Et, En, Ew.
Qed.

Lemma tag_ids_sorted (ws : list Z) : StronglySorted Z.lt (tag_ids ws).
Proof.
  assert (H : forall n a, StronglySorted Z.lt (Z.of_nat <$> filter (fun k => words_bit ws (Z.of_nat k) = true) (seq a n))); [|apply H]. induction n as [|n IH]; intros a; [constructor|]. cbn [seq]. rewrite filter_cons. case_decide; [|apply IH]. cbn [fmap list_fmap]. constructor; [apply IH|].
  rewrite Forall_fmap, Forall_forall. intros k [_ Hk%elem_of_seq]%list_elem_of_filter. simpl. lia.
Qed.
(** The tags of a message are a set of numbers: setting or clearing one of
    the numbers up to 8159 returns and changes the answer for this one only,
    whether the tags are in the message, in an array of its own or in that of its
    original, and iterating gives each number in the set once, in order. *)
Theorem log_msg_tags_are_a_set (st : store) (m : LogMessage) (ws : list Z) (id : Z) (on : bool) (Hst : store_wf st) (Hws : tags_wf st m ws) (Hid : 0 <= id <= 8159) :
  exists st' m' ws', log_msg_set_tag_by_id_onoff st m id on = Ret (st', m', true) /\ tags_wf st' m' ws' /\
    (forall j, 0 <= j <= 8159 -> log_msg_is_tag_by_id st' m' j = if bool_decide (j = id) then Ret on else log_msg_is_tag_by_id st m j) /\
    exists ids, log_msg_tags_foreach st' m' = Ret ids /\ StronglySorted Z.lt ids /\ forall j, 0 <= j <= 8159 -> j ∈ ids <-> log_msg_is_tag_by_id st' m' j = Ret true.
Proof.
  destruct (set_tag_ok st m ws id on Hst Hws Hid) as (st' & m' & ws' & E & W' & _ & _ & B'). exists st', m', ws'. split_and!; [done|done| |].
  - intros j Hj. rewrite (is_tag_ok st' m' ws'), (is_tag_ok st m ws) by done. rewrite B' by lia. by case_bool.
  - exists (tag_ids ws'). split_and!; [by apply tags_foreach_ok|apply tag_ids_sorted|]. intros j Hj. rewrite tag_ids_spec, (is_tag_ok st' m' ws') by done. split; [intros [_ ->]; done|]. intros [= ->]. split; [lia|done].
Qed.

(** C33: structured data that syslog-ng prints is parsed again as the same
    values: for elements whose parameters have no dots in their names, element
    names without brackets, and no two neighbours of one name, the text that is
    printed for a message that has these values is, followed by anything that is
    not another element, parsed into exactly these values in this order, whatever
    bytes the values have. *)
Theorem sdata_print_parse (macro : Z -> bytes) (reg : NVRegistry) (nm : Z -> bytes) (st : store) (m : LogMessage) (t : NVTable) (hs : list Z) (es : list sd_elem) (options : MsgFormatOptions) (self : SyslogDate.LogMessage) (r : bytes) (k : Z)
  (Hreg : reg_wf reg) (Ht : s_tables st !! msg_payload m = Some t) (Hwf : nv_wf nm t) (Hsd : sdata_wf st m hs) (Hp : Forall2 (has_pair reg t) hs (es ≫= elem_values)) (Hne : es <> [])
  (Hr : Forall relay_elem es) (Hn : neighbours None es) (Ho : Forall (elem_ok (mo_sdata_param_value_max options)) es) (Hk : halts (isc 91) r k) :
  exists reg' text, log_msg_format_sdata macro reg st m 0 = Ret (reg', text) /\
    log_msg_parse_sd self (mkCursor (text ++ r) (lenZ text + k)) options = Ret (true, store_all self (es ≫= elem_values), mkCursor r k).
Proof.
  unfold log_msg_format_sdata, log_msg_append_format_sdata. destruct (value_handle_ok reg (bytes_of_string ".SDATA.meta.sequenceId") Hreg eq_refl) as (h & reg' & -> & Hf & Hd). cbn [obind].
  assert (Hq : exists s, log_msg_get_value macro reg' st m h = Ret (s, lenZ s)).
  { unfold log_msg_get_value. assert (exists f, nv_registry_get_handle_flags reg' h = Ret f /\ Z.land f LM_VF_MACRO = 0) as (f & -> & Hz) by (destruct Hf as [->|Hf]; [by exists 0|by eexists]). cbn [obind]. rewrite bool_decide_eq_true_2 by done. unfold get. rewrite Ht. cbn [obind]. destruct (get_value_total nm t h Hwf) as (w & -> & _). eauto. }
  destruct Hq as [s ->]. cbn [obind]. destruct Hsd as [Hnum _ Harr].
  assert (Ha : exists arr, (if bool_decide (msg_num_sdata m = 0) then Ret [] else get (s_handles st) (msg_sdata m)) = Ret arr /\ take (Z.to_nat (msg_num_sdata m)) arr = hs /\ msg_num_sdata m <= lenZ arr).
  { rewrite Hnum. case_bool; [exists []; rewrite Hb; split_and!; [done|symmetry; by apply lenZ_zero_nil|done]|]. destruct (bool_decide_reflect (msg_sdata m = 0)) as [|E]; [destruct Harr as [-> _]; done|]. destruct Harr as (rest & Hs & _). exists (hs ++ rest). unfold get. rewrite Hs. split_and!; [done| |rewrite lenZ_app; pose proof (lenZ_nonneg rest); lia]. unfold lenZ. by rewrite Nat2Z.id, take_app_length. }
  destruct Ha as (arr & -> & Et & Hle). cbn [obind]. rewrite bool_decide_eq_true_2 by done. cbn [g_assert obind]. rewrite Et.
  assert (Hp' : Forall2 (has_pair reg' t) hs (es ≫= elem_values)). { eapply Forall2_impl; [exact Hp|]. intros h0 kv [[Hz Hd0] Hv]. split; [|done]. split; [done|]. destruct (Hd _ _ Hd0) as (f & -> & [->| ->]); done. }
  destruct (format_elems macro reg' st m t Ht es hs (mkSd [] None (bool_decide (deref s <> 0))) Hp' Hr Hn) as (s' & -> & Ec & Es). cbn [obind]. rewrite andb_false_r. fold (closed s'). rewrite Ec. cbn [closed sd_cur sd_result app].
  eexists _, _. split; [done|]. assert (Eq : es ≫= print_elem = print_sd es) by (by destruct es). rewrite Eq. by apply parse_sd_ok.
Qed.

(** ** A registry and messages *)

Module MessageDemo.
Definition name_ax : bytes := bytes_of_string ".SDATA.a.x".
Definition name_ay : bytes := bytes_of_string ".SDATA.a.y".
Definition name_b : bytes := bytes_of_string ".SDATA.b".
Definition with_flag (r : NVRegistry) (h : Z) : NVRegistry := match nv_registry_set_handle_flags r h LM_VF_SDATA with Ret r => r | Abort => r end.
Definition reg : NVRegistry := foldl with_flag (nv_registry_new [name_ax; name_ay; name_b; bytes_of_string "HOST"] 65535) [1; 2; 3].
Lemma reg_ok : msg_registry reg.
Proof.
  assert (W : forall r h, reg_wf r -> op_ok r (OpFlags h LM_VF_SDATA) -> reg_wf (with_flag r h)).
  { intros r h Wr Ho. unfold with_flag. destruct (nv_registry_set_handle_flags r h LM_VF_SDATA) as [r'|] eqn:E; [|done]. by eapply set_flags_wf. }
  split; [|vm_compute; reflexivity|].
  - unfold reg. cbn [foldl]. repeat apply W; try (vm_compute; split; discriminate). apply reg_new_wf. lia.
  - intros h. unfold is_sdata, reg_name. destruct (Z.to_nat (h - 1)) as [|[|[|[|n]]]]; intros H; vm_compute in H; try discriminate H.
    + exists (bytes_of_string "a.x"). reflexivity.
    + exists (bytes_of_string "a.y"). reflexivity.
    + exists (bytes_of_string "b"). reflexivity.
Qed.

(** A message is tagged, cloned twice, both clones are changed, the first is
    freed, the original is cloned again. *)
Definition history : list msg_op :=
  [OpNew 100; OpSetValue 0 1 (bytes_of_string "one"); OpTag 0 70 true; OpClone 0; OpClone 0; OpSetValue 1 1 (bytes_of_string "two"); OpTag 1 70 false; OpSetValue 2 2 (bytes_of_string "three"); OpTag 2 5 true; OpFree 1; OpClone 0; OpInitialParse 3 true; OpSetValue 3 3 []].
Lemma log_msg_clones_independent_witness : exists w A, msg_run reg empty_world history = Ret w /\ a_run reg (∅, 0) history (A, w_next w) /\
  forall id m, w_msgs w !! id = Some m -> exists a, A !! id = Some a /\ observes reg (w_store w) m a.
Proof. apply (log_msg_clones_independent reg history reg_ok). vm_compute. reflexivity. Defined.
(** What the three messages say at the end. *)
Example history_values : match msg_run reg empty_world history with
  | Ret w => (fun id => match w_msgs w !! id with
      | Some m => (log_msg_get_value (fun _ => []) reg (w_store w) m 1, log_msg_get_value (fun _ => []) reg (w_store w) m 2, log_msg_tags_foreach (w_store w) m, msg_num_sdata m)
      | None => (Abort, Abort, Abort, 0) end) <$> [0; 1; 2; 3] =
    [(Ret (bytes_of_string "one", 3), Ret ([], 0), Ret [70], 1); (Abort, Abort, Abort, 0); (Ret (bytes_of_string "one", 3), Ret (bytes_of_string "three", 5), Ret [5; 70], 2); (Ret (bytes_of_string "one", 3), Ret ([], 0), Ret [70], 2)]
  | Abort => False
  end.
Proof. vm_compute. reflexivity. Qed.

Definition after (ops : list msg_op) : world := match msg_run reg empty_world ops with Ret w => w | Abort => empty_world end.
Definition message (w : world) : LogMessage := default (mkMsg 0 0 0 0 0 0 0 0 false None) (w_msgs w !! 0).
Definition table (w : world) : NVTable := default (nv_table_new 9 16 256) (s_tables (w_store w) !! msg_payload (message w)).
Lemma after_wf (ops : list msg_op) : allowed_run reg empty_world ops = true -> (exists m, w_msgs (after ops) !! 0 = Some m) -> store_wf (w_store (after ops)) /\ s_tables (w_store (after ops)) !! msg_payload (message (after ops)) = Some (table (after ops)) /\ nv_wf (reg_name reg) (table (after ops)).
Proof.
  intros Hal [m Hm]. unfold after in *. destruct (run_simulates reg ops reg_ok empty_world ∅ (empty_inv reg) ltac:(done) Hal) as (w & A & E & _ & I). rewrite E in *. destruct (ci_sees _ _ _ I 0 m Hm) as (a & _ & [(t & Ht & Hwf & _) _ _ _ _]).
  unfold table, message. rewrite Hm. cbn [from_option id]. rewrite Ht. split; [apply I|]. by split.
Qed.

Lemma log_msg_set_value_correct_witness : let w := after [OpNew 100] in exists st' m' t', log_msg_set_value reg (w_store w) (message w) 1 (bytes_of_string "one") = Ret (st', m') /\ s_tables st' !! msg_payload m' = Some t' /\ nv_wf (reg_name reg) t' /\
    (nv_table_get_value t' 1 = Some (truncate_value (bytes_of_string "one"), lenZ (truncate_value (bytes_of_string "one"))) \/ nt_size t' = NV_TABLE_MAX_BYTES /\ nv_table_get_value t' 1 = nv_table_get_value (table w) 1) /\
    (forall h', h' <> 1 -> nv_table_get_value t' h' = nv_table_get_value (table w) h') /\
    sdata_wf st' m' (if bool_decide (nv_lookup (table w) 1 = None) && is_sdata reg 1 then sd_insert reg (msg_initial_parse (message w)) [] 1 else []) /\
    (forall ws, tags_wf (w_store w) (message w) ws -> tags_wf st' m' ws).
Proof.
  intros w. destruct (after_wf [OpNew 100]) as (H1 & H2 & H3); [vm_compute; reflexivity|eexists; vm_compute; reflexivity|].
  apply (log_msg_set_value_correct reg (w_store w) (message w) (table w) [] 1); [apply reg_ok|exact H1|exact H2|exact H3| |constructor|vm_compute; split; discriminate|vm_compute; reflexivity].
  split; vm_compute; [reflexivity|split; discriminate|split; reflexivity].
Defined.

Lemma log_msg_tags_are_a_set_witness : let w := after [OpNew 100] in exists st' m' ws', log_msg_set_tag_by_id_onoff (w_store w) (message w) 70 true = Ret (st', m', true) /\ tags_wf st' m' ws' /\
    (forall j, 0 <= j <= 8159 -> log_msg_is_tag_by_id st' m' j = if bool_decide (j = 70) then Ret true else log_msg_is_tag_by_id (w_store w) (message w) j) /\
    exists ids, log_msg_tags_foreach st' m' = Ret ids /\ StronglySorted Z.lt ids /\ forall j, 0 <= j <= 8159 -> j ∈ ids <-> log_msg_is_tag_by_id st' m' j = Ret true.
Proof.
  intros w. destruct (after_wf [OpNew 100]) as (H1 & _ & _); [vm_compute; reflexivity|eexists; vm_compute; reflexivity|].
  apply (log_msg_tags_are_a_set (w_store w) (message w) [0] 70 true); [exact H1| |lia]. split; [reflexivity|repeat constructor; lia|reflexivity|vm_compute; split; discriminate].
Defined.

(** Two elements, the second one empty. *)
Definition elements : list sd_elem := [mkElem (bytes_of_string "a") [(bytes_of_string "x", [118; 34; 93; 92; 200]); (bytes_of_string "y", [])]; mkElem (bytes_of_string "b") []].
Definition relayed : list msg_op := [OpNew 100; OpInitialParse 0 true; OpSetValue 0 1 [118; 34; 93; 92; 200]; OpSetValue 0 2 []; OpSetValue 0 3 []].
Definition options : MsgFormatOptions := mkOptions 0 13 0 None 1000.
Definition parsed : SyslogDate.LogMessage := mkMessage 0 0 (mkStamp 0 0 0) (mkStamp 0 0 0) [].
Lemma elements_relay : Forall relay_elem elements.
Proof.
  assert (K : forall n, bool_decide (Forall (fun b => sd_name_char b = true /\ b <> 91) n) = true -> key_ok n) by (intros n; by rewrite bool_decide_eq_true). assert (D : forall n : bytes, bool_decide (46 ∉ n) = true -> 46 ∉ n) by (intros n; by rewrite bool_decide_eq_true).
  apply Forall_cons. split; [|apply Forall_cons; split; [|constructor]]; unfold relay_elem; cbn [sd_id sd_pairs].
  - split_and!; [by apply K|discriminate|discriminate|]. apply Forall_cons. split; [|apply Forall_cons; split; [|constructor]]; (split_and!; [by apply K|by apply D|discriminate]).
  - split_and!; [by apply K|discriminate|intros _; by apply D|constructor].
Qed.
Lemma sdata_print_parse_witness : exists reg' text, log_msg_format_sdata (fun _ => []) reg (w_store (after relayed)) (message (after relayed)) 0 = Ret (reg', text) /\
    log_msg_parse_sd parsed (mkCursor (text ++ [32; 120]) (lenZ text + 2)) options = Ret (true, store_all parsed (elements ≫= elem_values), mkCursor [32; 120] 2).
Proof.
  destruct (after_wf relayed) as (H1 & H2 & H3); [vm_compute; reflexivity|eexists; vm_compute; reflexivity|].
  apply (sdata_print_parse (fun _ => []) reg (reg_name reg) (w_store (after relayed)) (message (after relayed)) (table (after relayed)) [1; 2; 3] elements options parsed [32; 120] 2); [apply reg_ok|exact H2|exact H3| | |discriminate| | | |].
  - split; vm_compute; [reflexivity|split; discriminate|exists [0; 0; 0; 0; 0]; split; reflexivity].
  - repeat constructor.
  - apply elements_relay.
  - split; [discriminate|]. split; [|done]. discriminate.
  - repeat constructor; try (vm_compute; discriminate).
  - right. split; [lia|reflexivity].
Defined.
(** The text, ending in what the value was escaped to. *)
Example relayed_text : (match log_msg_format_sdata (fun _ => []) reg (w_store (after relayed)) (message (after relayed)) 0 with Ret (_, text) => text | Abort => [] end) =
  bytes_of_string "[a x=" ++ [34; 118; 92; 34; 92; 93; 92; 92; 200; 34] ++ bytes_of_string " y=" ++ [34; 34] ++ bytes_of_string "][b]".
Proof. vm_compute. reflexivity. Qed.
End MessageDemo.
