(* ===== verification/DnsCache.v ===== *)
(** * The cache of host names (lib/dnscache.c)

    Each thread has a hash table and two lists of its entries, from the hosts file
    and from the resolver; the counter of the former is shared by all threads.  An
    entry has a number, its address in memory.  The hosts file is what [stat] and
    [fopen] give; [inet_pton] is a parameter, and so is what a variable that was
    not set holds. *)
From S2P Require Import Prelude CString.

Definition AF_INET : Z := 2.
Definition AF_INET6 : Z := 10.
(** Family and address. *)
Abbreviation DNSCacheKey := (Z * bytes)%type (only parsing).
Record DNSCacheEntry := mkDns { de_id : Z; de_key : DNSCacheKey; de_resolved : Z; de_hostname : option bytes; de_positive : bool }.
Record dns_tls := mkTls { cache : gmap DNSCacheKey DNSCacheEntry; cache_list : list DNSCacheEntry; persist_list : list DNSCacheEntry; cache_hosts_mtime : Z; cache_hosts_checktime : Z; next_id : Z }.
Record dns_conf := mkDnsConf { dns_cache_size : Z; dns_cache_expire : Z; dns_cache_expire_failed : Z; dns_cache_hosts : bool }.

Definition dns_cache_tls_init : dns_tls := mkTls ∅ [] [] (-1) 0 0.
Definition set_lists (s : dns_tls) (c : gmap DNSCacheKey DNSCacheEntry) (l p : list DNSCacheEntry) : dns_tls := mkTls c l p (cache_hosts_mtime s) (cache_hosts_checktime s) (next_id s).

(** An address of another family is an assertion that fails. *)
Definition dns_cache_fill_key (family : Z) (addr : bytes) : outcome DNSCacheKey :=
  let! _ := g_assert (bool_decide (family = AF_INET \/ family = AF_INET6)) in Ret (family, addr).

(** Unlinking, from whichever list it is in. *)
Definition without (e : DNSCacheEntry) (l : list DNSCacheEntry) : list DNSCacheEntry := filter (fun x => de_id x <> de_id e) l.
Definition dns_cache_entry_free (s : dns_tls) (e : DNSCacheEntry) : dns_tls := set_lists s (cache s) (without e (cache_list s)) (without e (persist_list s)).
(** [g_hash_table_remove] and [g_hash_table_replace] free the value that was there. *)
Definition cache_remove (s : dns_tls) (key : DNSCacheKey) : dns_tls :=
  match cache s !! key with
  | Some e => let s := dns_cache_entry_free s e in set_lists s (delete key (cache s)) (cache_list s) (persist_list s)
  | None => s
  end.
Definition cache_replace (s : dns_tls) (e : DNSCacheEntry) : dns_tls :=
  let s := match cache s !! de_key e with Some o => dns_cache_entry_free s o | None => s end in
  set_lists s (<[de_key e := e]> (cache s)) (cache_list s) (persist_list s).
Definition cache_hash_size (s : dns_tls) : Z := Z.of_nat (size (cache s)).

(** [now] is the time, [count] the shared counter.  With an empty list the key of the end mark is
    hashed, whose family is none. *)
Definition dns_cache_store (conf : dns_conf) (now : Z) (s : dns_tls) (count : Z) (persistent : bool) (family : Z) (addr : bytes) (hostname : option bytes) (positive : bool) : outcome (dns_tls * Z) :=
  let! key := dns_cache_fill_key family addr in
  let entry := mkDns (next_id s) key (if persistent then 0 else now) hostname positive in
  let s := mkTls (cache s) (if persistent then cache_list s else cache_list s ++ [entry]) (if persistent then persist_list s ++ [entry] else persist_list s) (cache_hosts_mtime s) (cache_hosts_checktime s) (next_id s + 1) in
  let hash_size := cache_hash_size s in
  let s := cache_replace s entry in
  let count := if persistent && bool_decide (hash_size <> cache_hash_size s) then count + 1 else count in
  if bool_decide (s32 (u32 (cache_hash_size s - count)) > dns_cache_size conf) then
    match cache_list s with [] => Abort | oldest :: _ => Ret (cache_remove s (de_key oldest), count) end
  else Ret (s, count).

Fixpoint cleanup_loop (fuel : nat) (s : dns_tls) (count : Z) : outcome (dns_tls * Z) :=
  match fuel with
  | O => Abort
  | S fuel => match persist_list s with [] => Ret (s, count) | e :: _ => cleanup_loop fuel (cache_remove s (de_key e)) (count - 1) end
  end.
Definition dns_cache_cleanup_persistent_hosts (s : dns_tls) (count : Z) : outcome (dns_tls * Z) := cleanup_loop (S (length (persist_list s))) s count.

(** ** The hosts file *)

(** Lines are read into a buffer of 4096 bytes. *)
Definition strtok (s delim : cstr) : option (cstr * cstr) :=
  let s := drop (strspn s delim) s in
  match s with [] => None | _ => let n := strcspn s delim in Some (take n s, drop (S n) s) end.
(** The address and the first name in a line. *)
Definition parse_hosts_line (buf : cstr) : option (cstr * cstr) :=
  if bool_decide (deref buf = 0 \/ deref buf = 10 \/ deref buf = 35) then None
  else
    let buf := if bool_decide (last buf = Some 10) then take (length buf - 1) buf else buf in
    match strtok buf [32; 9] with
    | None => None
    | Some (ip, rest) => match strtok rest [32; 9] with None => None | Some (name, _) => Some (ip, name) end
    end.

Section hosts.
Variable inet_pton : Z -> cstr -> option bytes.
Variable uninitialized : Z -> cstr -> bytes.
Variable conf : dns_conf.

Fixpoint load_hosts (fuel : nat) (now : Z) (s : dns_tls) (count : Z) (file : bytes) : outcome (dns_tls * Z) :=
  match fuel with
  | O => Abort
  | S fuel =>
      match file with
      | [] => Ret (s, count)
      | _ =>
          let '(buf, file) := fgets 4095 file in
          match parse_hosts_line (up_to_nul buf) with
          | None => load_hosts fuel now s count file
          | Some (ip, name) =>
              let family := if bool_decide (58 ∈ ip) then AF_INET6 else AF_INET in
              let ia := match inet_pton family ip with Some ia => ia | None => uninitialized family ip end in
              let! (s, count) := dns_cache_store conf now s count true family ia (Some name) true in
              load_hosts fuel now s count file
          end
      end
  end.

(** [stat] is the time of the last change, [contents] what can be read. *)
Record hosts_file := mkHosts { hf_mtime : option Z; hf_contents : option bytes }.
Definition dns_cache_check_hosts (s : dns_tls) (count t : Z) (file : hosts_file) : outcome (dns_tls * Z) :=
  if bool_decide (cache_hosts_checktime s = t) then Ret (s, count)
  else
    let s := mkTls (cache s) (cache_list s) (persist_list s) (cache_hosts_mtime s) t (next_id s) in
    match (if dns_cache_hosts conf then hf_mtime file else None) with
    | None => dns_cache_cleanup_persistent_hosts s count
    | Some mtime =>
        if bool_decide (cache_hosts_mtime s = -1 \/ mtime > cache_hosts_mtime s) then
          let s := mkTls (cache s) (cache_list s) (persist_list s) mtime (cache_hosts_checktime s) (next_id s) in
          let! (s, count) := dns_cache_cleanup_persistent_hosts s count in
          match hf_contents file with None => Ret (s, count) | Some file => load_hosts (S (length file)) t s count file end
        else Ret (s, count)
    end.

Definition too_old (now : Z) (e : DNSCacheEntry) : bool :=
  bool_decide (de_resolved e <> 0) && ((de_positive e && bool_decide (de_resolved e < now - dns_cache_expire conf)) || (negb (de_positive e) && bool_decide (de_resolved e < now - dns_cache_expire_failed conf))).
(** [None] is a miss; otherwise the name and whether the address was resolved. *)
Definition dns_cache_lookup (now : Z) (s : dns_tls) (count : Z) (file : hosts_file) (family : Z) (addr : bytes) : outcome (option (option bytes * bool) * dns_tls * Z) :=
  let! (s, count) := dns_cache_check_hosts s count now file in
  let! key := dns_cache_fill_key family addr in
  Ret (match cache s !! key with Some e => if too_old now e then None else Some (de_hostname e, de_positive e) | None => None end, s, count).
End hosts.

(** ** The invariant: the table and the lists have the same entries *)

Definition entries (s : dns_tls) : list DNSCacheEntry := cache_list s ++ persist_list s.
Definition remove_key (k : DNSCacheKey) (l : list DNSCacheEntry) : list DNSCacheEntry := filter (fun x => de_key x <> k) l.
Record dns_inv (s : dns_tls) : Prop := {
  di_map : forall k e, cache s !! k = Some e <-> e ∈ entries s /\ de_key e = k;
  di_keys : NoDup (de_key <$> entries s);
  di_next : forall e, e ∈ entries s -> de_id e < next_id s;
  di_ids : forall e1 e2, e1 ∈ entries s -> e2 ∈ entries s -> de_id e1 = de_id e2 -> e1 = e2;
  di_persist : forall e, e ∈ persist_list s -> de_resolved e = 0 /\ de_positive e = true }.

Lemma remove_key_elem (k : DNSCacheKey) (l : list DNSCacheEntry) (e : DNSCacheEntry) : e ∈ remove_key k l <-> e ∈ l /\ de_key e <> k.
Proof. unfold remove_key. rewrite list_elem_of_filter. tauto. Qed.
Lemma remove_key_id (k : DNSCacheKey) (l : list DNSCacheEntry) : (forall e, e ∈ l -> de_key e <> k) -> remove_key k l = l.
Proof. intros H. induction l as [|e l IH]; [done|]. unfold remove_key in *. rewrite filter_cons_True by (apply H; left). f_equal. apply IH. intros x Hx. apply H. by right. Qed.
Lemma remove_key_app (k : DNSCacheKey) (l1 l2 : list DNSCacheEntry) : remove_key k (l1 ++ l2) = remove_key k l1 ++ remove_key k l2.
Proof. apply filter_app. Qed.
Lemma remove_key_NoDup (k : DNSCacheKey) (l : list DNSCacheEntry) : NoDup (de_key <$> l) -> NoDup (de_key <$> remove_key k l).
Proof.
  induction l as [|e l IH]; [done|]. cbn [fmap list_fmap]. intros [Hn Hd]%NoDup_cons. unfold remove_key in *. rewrite filter_cons. case_decide; [|by apply IH]. cbn [fmap list_fmap]. apply NoDup_cons. split; [|by apply IH].
  rewrite list_elem_of_fmap. intros (x & E & [_ Hx]%list_elem_of_filter). apply Hn. rewrite E. apply list_elem_of_fmap. eauto.
Qed.
(** How many an entry with key [k] there are. *)
Lemma remove_key_length (k : DNSCacheKey) (l : list DNSCacheEntry) (e : DNSCacheEntry) : NoDup (de_key <$> l) -> e ∈ l -> de_key e = k -> length l = S (length (remove_key k l)).
Proof.
  intros Hd He <-. induction l as [|x l IH]; [by apply elem_of_nil in He|]. cbn [fmap list_fmap] in Hd. apply NoDup_cons in Hd as [Hn Hd]. unfold remove_key in *. rewrite filter_cons. apply elem_of_cons in He as [->|He].
  - rewrite decide_False by (by intros H; apply H). cbn [length]. f_equal. change (length l = length (remove_key (de_key x) l)). rewrite remove_key_id; [done|]. intros y Hy E. apply Hn. rewrite <- E. by apply list_elem_of_fmap_2.
  - rewrite decide_True. { cbn [length]. f_equal. by apply IH. } intros E. apply Hn. rewrite E. by apply list_elem_of_fmap_2.
Qed.

Lemma entry_unique (s : dns_tls) (e1 e2 : DNSCacheEntry) : dns_inv s -> e1 ∈ entries s -> e2 ∈ entries s -> de_key e1 = de_key e2 -> e1 = e2.
Proof. intros I H1 H2 E. assert (cache s !! de_key e1 = Some e1) by (by apply (di_map _ I)). assert (cache s !! de_key e1 = Some e2) by (by apply (di_map _ I)). congruence. Qed.
Lemma filter_iff_in (P Q : DNSCacheEntry -> Prop) `{!forall x, Decision (P x)} `{!forall x, Decision (Q x)} (l : list DNSCacheEntry) : (forall x, x ∈ l -> P x <-> Q x) -> filter P l = filter Q l.
Proof.
  intros Hin. induction l as [|x l IH]; [done|]. rewrite !filter_cons. assert (Hl : filter P l = filter Q l) by (apply IH; intros y Hy; apply Hin; by right). destruct (Hin x ltac:(left)). repeat case_decide; try tauto; by rewrite Hl.
Qed.
Lemma without_key (s : dns_tls) (o : DNSCacheEntry) (l : list DNSCacheEntry) : dns_inv s -> o ∈ entries s -> (forall x, x ∈ l -> x ∈ entries s) -> without o l = remove_key (de_key o) l.
Proof. intros I Ho Hl. apply filter_iff_in. intros x Hx. split; intros N E; apply N; [by rewrite (entry_unique s x o I (Hl x Hx) Ho E)|by rewrite (di_ids _ I x o (Hl x Hx) Ho E)]. Qed.

Lemma cache_remove_spec (s : dns_tls) (k : DNSCacheKey) : dns_inv s -> cache_remove s k = set_lists s (delete k (cache s)) (remove_key k (cache_list s)) (remove_key k (persist_list s)).
Proof.
  intros I. unfold cache_remove. destruct (cache s !! k) as [o|] eqn:E.
  - apply (di_map _ I) in E as [Ho <-]. unfold dns_cache_entry_free. cbn [set_lists cache cache_list persist_list]. rewrite !(without_key s o) by (done || (intros x Hx; apply elem_of_app; auto)). done.
  - assert (Hno : forall e, e ∈ entries s -> de_key e <> k) by (intros e He Hk; assert (cache s !! k = Some e) by (by apply (di_map _ I)); congruence). rewrite !remove_key_id by (intros e He; apply Hno, elem_of_app; auto). rewrite delete_id by done. by destruct s.
Qed.
Lemma cache_remove_inv (s : dns_tls) (k : DNSCacheKey) : dns_inv s -> dns_inv (cache_remove s k).
Proof.
  intros I. rewrite cache_remove_spec by done. assert (He : entries (set_lists s (delete k (cache s)) (remove_key k (cache_list s)) (remove_key k (persist_list s))) = remove_key k (entries s)) by (symmetry; apply remove_key_app).
  split; rewrite ?He.
  - intros k' e. cbn. rewrite lookup_delete_Some, (di_map _ I), remove_key_elem. split; [intros (? & ? & <-)|intros [[? ?] <-]]; split_and!; auto.
  - apply remove_key_NoDup, I.
  - intros e [H _]%remove_key_elem. by apply I.
  - intros e1 e2 [H1 _]%remove_key_elem [H2 _]%remove_key_elem. by apply I.
  - cbn. intros e [H _]%remove_key_elem. by apply I.
Qed.

(** A new entry in one of the lists takes the place of the old ones with its key. *)
Lemma cache_replace_inv (s : dns_tls) (persistent : bool) (e : DNSCacheEntry) : dns_inv s -> de_id e = next_id s -> (persistent = true -> de_resolved e = 0 /\ de_positive e = true) ->
  let s1 := mkTls (cache s) (if persistent then cache_list s else cache_list s ++ [e]) (if persistent then persist_list s ++ [e] else persist_list s) (cache_hosts_mtime s) (cache_hosts_checktime s) (next_id s + 1) in
  let s' := cache_replace s1 e in dns_inv s' /\ cache_list s' = remove_key (de_key e) (cache_list s) ++ (if persistent then [] else [e]) /\ persist_list s' = remove_key (de_key e) (persist_list s) ++ (if persistent then [e] else []) /\
    cache s' = <[de_key e := e]> (cache s) /\ next_id s' = next_id s + 1.
Proof.
  intros I Hid Hp s1 s'. set (k := de_key e) in *.
  assert (Hwo : forall o, cache s !! k = Some o -> (forall l, (forall x, x ∈ l -> x ∈ entries s) -> without o l = remove_key k l) /\ forall l, (forall x, x ∈ l -> x ∈ entries s) -> without o (l ++ [e]) = remove_key k l ++ [e]).
  { intros o Ho. apply (di_map _ I) in Ho as [Ho Hk]. assert (H1 : forall l, (forall x, x ∈ l -> x ∈ entries s) -> without o l = remove_key k l) by (intros l Hl; rewrite <- Hk; by apply (without_key s)). split; [done|].
    intros l Hl. unfold without. rewrite filter_app. fold (without o l). rewrite H1 by done. f_equal. rewrite filter_cons_True; [done|]. pose proof (di_next _ I o Ho). lia. }
  assert (Hls : cache_list s' = remove_key k (cache_list s) ++ (if persistent then [] else [e]) /\ persist_list s' = remove_key k (persist_list s) ++ (if persistent then [e] else [])).
  { subst s' s1. unfold cache_replace. cbn [cache]. fold k. destruct (cache s !! k) as [o|] eqn:E.
    - destruct (Hwo o eq_refl) as [W1 W2]. cbn. destruct persistent; rewrite ?app_nil_r; (split; [first [apply W1|apply W2]|first [apply W2|apply W1]]); intros x Hx; apply elem_of_app; auto.
    - cbn. assert (Hno : forall x, x ∈ entries s -> de_key x <> k) by (intros x Hx Hk; assert (cache s !! k = Some x) by (by apply (di_map _ I)); congruence). rewrite !remove_key_id by (intros x Hx; apply Hno, elem_of_app; auto). destruct persistent; by rewrite ?app_nil_r. }
  assert (Hc : cache s' = <[k := e]> (cache s) /\ next_id s' = next_id s + 1) by (subst s' s1; unfold cache_replace; cbn [cache]; by destruct (cache s !! de_key e)). destruct Hls as [Hl Hpl], Hc as [Hc Hn].
  assert (He : forall x, x ∈ entries s' <-> x = e \/ x ∈ entries s /\ de_key x <> k).
  { intros x. unfold entries. rewrite Hl, Hpl, !elem_of_app, !remove_key_elem. destruct persistent; rewrite list_elem_of_singleton, elem_of_nil; tauto. }
  split; [|by split_and!]. split.
  - intros k' x. rewrite Hc, He, lookup_insert_Some, (di_map _ I). fold k. split; [intros [[<- <-]|(? & ? & <-)]|intros [[->|[? ?]] <-]]; auto.
  - assert (Hperm : entries s' ≡ₚ e :: remove_key k (entries s)). { unfold entries. rewrite Hl, Hpl, remove_key_app. destruct persistent; rewrite ?app_nil_r; solve_Permutation. }
    rewrite Hperm. cbn [fmap list_fmap]. apply NoDup_cons. split; [|apply remove_key_NoDup, I]. rewrite list_elem_of_fmap. intros (x & E & [_ Hx]%remove_key_elem). by apply Hx.
  - intros x [->|[Hx _]]%He; [lia|]. pose proof (di_next _ I x Hx). lia.
  - intros e1 e2 [->|[H1 _]]%He [->|[H2 _]]%He E; [done| | |by apply I]; [pose proof (di_next _ I e2 H2)|pose proof (di_next _ I e1 H1)]; lia.
  - rewrite Hpl. intros x [[Hx _]%remove_key_elem|Hx]%elem_of_app; [by apply I|]. destruct persistent; [|by apply elem_of_nil in Hx]. apply list_elem_of_singleton in Hx as ->. by apply Hp.
Qed.

(** ** Sizes *)

Lemma inv_size (s : dns_tls) : dns_inv s -> cache_hash_size s = lenZ (cache_list s) + lenZ (persist_list s).
Proof.
  intros I. assert (E : cache s = list_to_map ((fun e => (de_key e, e)) <$> entries s)).
  { assert (Hd : NoDup (((fun e => (de_key e, e)) <$> entries s).*1)) by (rewrite <- list_fmap_compose; apply I). apply map_eq. intros k. apply option_eq. intros e. rewrite (di_map _ I), <- elem_of_list_to_map by done. rewrite list_elem_of_fmap. split; [intros [H <-]; eauto|]. intros (x & [= -> ->] & H). done. }
  unfold cache_hash_size. rewrite E, map_size_list_to_map; [rewrite length_fmap; unfold entries; rewrite length_app; unfold lenZ; lia|]. rewrite <- list_fmap_compose. apply I.
Qed.

(** ** The specification *)

Definition del {A} (k : DNSCacheKey) (l : list (DNSCacheKey * A)) : list (DNSCacheKey * A) := filter (fun p => p.1 <> k) l.
Definition assoc {A} (k : DNSCacheKey) (l : list (DNSCacheKey * A)) : option A := snd <$> list_find (fun p => p.1 = k) l ≫= (fun ip => Some ip.2).
Abbreviation answer := (option bytes * bool * Z)%type (only parsing).
(** Names from the hosts file, answers of the resolver with their times, oldest first, and how many
    places were lost. *)
Record dns_spec := mkSpec { sp_hosts : list (DNSCacheKey * option bytes); sp_answers : list (DNSCacheKey * answer); sp_lost : Z; sp_mtime : Z; sp_checktime : Z }.
Definition has {A} (k : DNSCacheKey) (l : list (DNSCacheKey * A)) : bool := bool_decide (k ∈ l.*1).

Section spec.
Variable inet_pton : Z -> cstr -> option bytes.
Variable uninitialized : Z -> cstr -> bytes.
Variable conf : dns_conf.

(** The lines of the file that name a host. *)
Fixpoint host_lines (fuel : nat) (file : bytes) : list (DNSCacheKey * option bytes) :=
  match fuel with
  | O => []
  | S fuel =>
      match file with
      | [] => []
      | _ =>
          let '(buf, file) := fgets 4095 file in
          match parse_hosts_line (up_to_nul buf) with
          | None => host_lines fuel file
          | Some (ip, name) =>
              let family := if bool_decide (58 ∈ ip) then AF_INET6 else AF_INET in
              ((family, match inet_pton family ip with Some ia => ia | None => uninitialized family ip end), Some name) :: host_lines fuel file
          end
      end
  end.
(** A host that was in the cache as an answer takes its place for good. *)
Definition sp_host (a : dns_spec) (h : DNSCacheKey * option bytes) : dns_spec :=
  mkSpec (del h.1 (sp_hosts a) ++ [h]) (del h.1 (sp_answers a)) (if has h.1 (sp_answers a) then sp_lost a + 1 else sp_lost a) (sp_mtime a) (sp_checktime a).
Definition sp_check (a : dns_spec) (t : Z) (file : hosts_file) : dns_spec :=
  if bool_decide (sp_checktime a = t) then a
  else
    match (if dns_cache_hosts conf then hf_mtime file else None) with
    | None => mkSpec [] (sp_answers a) (sp_lost a) (sp_mtime a) t
    | Some mtime =>
        if bool_decide (sp_mtime a = -1 \/ mtime > sp_mtime a) then
          foldl sp_host (mkSpec [] (sp_answers a) (sp_lost a) mtime t) (match hf_contents file with None => [] | Some f => host_lines (S (length f)) f end)
        else mkSpec (sp_hosts a) (sp_answers a) (sp_lost a) (sp_mtime a) t
    end.
Definition sp_lookup (a : dns_spec) (now : Z) (k : DNSCacheKey) : option (option bytes * bool) :=
  match assoc k (sp_hosts a) with
  | Some name => Some (name, true)
  | None =>
      match assoc k (sp_answers a) with
      | Some (name, positive, t) => if bool_decide (t <> 0 /\ t < now - (if positive then dns_cache_expire conf else dns_cache_expire_failed conf)) then None else Some (name, positive)
      | None => None
      end
  end.
(** The new answer is the youngest; there is room for [dns_cache_size] less the lost places. *)
Definition sp_store (a : dns_spec) (now : Z) (k : DNSCacheKey) (name : option bytes) (positive : bool) : dns_spec :=
  let l := del k (sp_answers a) ++ [(k, (name, positive, now))] in
  mkSpec (sp_hosts a) (if bool_decide (lenZ l + sp_lost a > dns_cache_size conf) then tail l else l) (sp_lost a) (sp_mtime a) (sp_checktime a).

Definition host_of (e : DNSCacheEntry) : DNSCacheKey * option bytes := (de_key e, de_hostname e).
Definition answer_of (e : DNSCacheEntry) : DNSCacheKey * answer := (de_key e, (de_hostname e, de_positive e, de_resolved e)).
(** The state, and the value of the counter, as the specification sees them. *)
Definition view (s : dns_tls) (count : Z) : dns_spec :=
  mkSpec (host_of <$> persist_list s) (answer_of <$> cache_list s) (lenZ (persist_list s) - count) (cache_hosts_mtime s) (cache_hosts_checktime s).
(** The cache fits, and no entry of the file was counted that is none. *)
Record dns_ok (s : dns_tls) (count : Z) : Prop := {
  dk_inv : dns_inv s;
  dk_fits : lenZ (cache_list s) + (lenZ (persist_list s) - count) <= dns_cache_size conf;
  dk_lost : 0 <= lenZ (persist_list s) - count }.
Hypothesis Hsize : 0 <= dns_cache_size conf < 2 ^ 31 - 1.

Lemma del_fmap {A} (f : DNSCacheEntry -> A) (k : DNSCacheKey) (l : list DNSCacheEntry) : del k ((fun e => (de_key e, f e)) <$> l) = (fun e => (de_key e, f e)) <$> remove_key k l.
Proof. unfold del, remove_key. induction l as [|e l IH]; [done|]. cbn [fmap list_fmap]. rewrite !filter_cons. cbn [fst]. case_decide; cbn [fmap list_fmap]; by rewrite <- IH. Qed.
Lemma has_elem {A} (f : DNSCacheEntry -> A) (k : DNSCacheKey) (l : list DNSCacheEntry) : has k ((fun e => (de_key e, f e)) <$> l) = true <-> exists e, e ∈ l /\ de_key e = k.
Proof. unfold has. rewrite bool_decide_eq_true. rewrite <- list_fmap_compose, list_elem_of_fmap. split; [intros (e & -> & H); eauto|]. intros (e & H & <-). eauto. Qed.
Lemma assoc_elem {A} (f : DNSCacheEntry -> A) (k : DNSCacheKey) (l : list DNSCacheEntry) (a : A) : NoDup (de_key <$> l) -> assoc k ((fun e => (de_key e, f e)) <$> l) = Some a <-> exists e, e ∈ l /\ de_key e = k /\ f e = a.
Proof.
  unfold assoc. induction l as [|e l IH]; intros Hd; cbn [fmap list_fmap list_find].
  - split; [done|]. by intros (e & He%elem_of_nil & _).
  - cbn in Hd. apply NoDup_cons in Hd as [Hn Hd]. cbn [fst]. case_decide as E.
    + cbn. split; [intros [= <-]; exists e; split_and!; [left|done|done]|]. intros (x & [->|Hx]%elem_of_cons & Hk & <-); [done|]. destruct Hn. rewrite E, <- Hk. by apply list_elem_of_fmap_2.
    + specialize (IH Hd). destruct (list_find _ _) as [[i p]|]; cbn in *; rewrite IH; (split; [intros (x & Hx & ? & ?); exists x; split_and!; [by right|done|done]|]; intros (x & [->|Hx]%elem_of_cons & ? & ?); [done|eauto]).
Qed.

Lemma lists_disjoint (s : dns_tls) (e1 e2 : DNSCacheEntry) : dns_inv s -> e1 ∈ cache_list s -> e2 ∈ persist_list s -> de_key e1 <> de_key e2.
Proof.
  intros I H1 H2 E. pose proof (di_keys _ I) as Hd. unfold entries in Hd. rewrite fmap_app in Hd. apply NoDup_app in Hd as (_ & Hd & _). apply (Hd (de_key e1)); [by apply list_elem_of_fmap_2|]. rewrite E. by apply list_elem_of_fmap_2.
Qed.
Lemma lists_NoDup (s : dns_tls) : dns_inv s -> NoDup (de_key <$> cache_list s) /\ NoDup (de_key <$> persist_list s).
Proof. intros I. pose proof (di_keys _ I) as Hd. unfold entries in Hd. rewrite fmap_app in Hd. by apply NoDup_app in Hd as (? & _ & ?). Qed.
Lemma remove_head (e : DNSCacheEntry) (l : list DNSCacheEntry) : NoDup (de_key <$> e :: l) -> remove_key (de_key e) (e :: l) = l.
Proof. cbn [fmap list_fmap]. intros [Hn _]%NoDup_cons. unfold remove_key. rewrite filter_cons_False by (intros N9; by apply N9). apply remove_key_id. intros x Hx E. apply Hn. rewrite <- E. by apply list_elem_of_fmap_2. Qed.
Lemma remove_key_le (k : DNSCacheKey) (l : list DNSCacheEntry) : lenZ (remove_key k l) <= lenZ l.
Proof. unfold lenZ, remove_key. pose proof (length_filter (fun x => de_key x <> k) l). lia. Qed.
Lemma size_small (n : Z) : 0 <= n < 2 ^ 31 -> s32 (u32 n) = n.
Proof. intros H. rewrite (u32_small n) by lia. unfold s32. rewrite u32_small by lia. by rewrite bool_decide_eq_true_2 by lia. Qed.

Lemma store_answer_ok (s : dns_tls) (count now : Z) (k : DNSCacheKey) (name : option bytes) (positive : bool) : dns_ok s count -> (k.1 = AF_INET \/ k.1 = AF_INET6) -> (forall e, e ∈ persist_list s -> de_key e <> k) ->
  exists s', dns_cache_store conf now s count false k.1 k.2 name positive = Ret (s', count) /\ dns_ok s' count /\ view s' count = sp_store (view s count) now k name positive.
Proof.
  intros [I Hf Hl] Hk Hno. destruct k as [fam addr]. cbn [fst snd] in *. unfold dns_cache_store, dns_cache_fill_key. rewrite bool_decide_eq_true_2 by done. cbn [g_assert obind andb]. set (e := mkDns _ _ _ _ _).
  destruct (cache_replace_inv s false e I eq_refl ltac:(done)) as (I' & L' & P' & C' & N'). cbn [de_key e] in L', P'. rewrite app_nil_r in P'. rewrite remove_key_id in P' by done. set (s1 := cache_replace _ e) in *.
  pose proof (inv_size s1 I') as Hsz. rewrite L', P' in Hsz. pose proof (remove_key_le (fam, addr) (cache_list s)) as Hle. assert (Hlen : lenZ (remove_key (fam, addr) (cache_list s) ++ [e]) = lenZ (remove_key (fam, addr) (cache_list s)) + 1) by (by rewrite lenZ_app). rewrite Hlen in Hsz. pose proof (lenZ_nonneg (remove_key (fam, addr) (cache_list s))) as Hnn.
  rewrite size_small by lia. assert (Hv : answer_of <$> cache_list s1 = del (fam, addr) (answer_of <$> cache_list s) ++ [((fam, addr), (name, positive, now))]) by (rewrite L', fmap_app; unfold answer_of at 2; by rewrite (del_fmap (fun e => (de_hostname e, de_positive e, de_resolved e)))).
  assert (Hlv : lenZ (del (fam, addr) (answer_of <$> cache_list s) ++ [((fam, addr), (name, positive, now))]) = lenZ (remove_key (fam, addr) (cache_list s)) + 1) by (rewrite <- Hv, L'; unfold lenZ; rewrite length_fmap; unfold lenZ in Hlen; lia).
  assert (Hmt : cache_hosts_mtime s1 = cache_hosts_mtime s /\ cache_hosts_checktime s1 = cache_hosts_checktime s) by (subst s1; unfold cache_replace; cbn [cache]; by destruct (cache s !! de_key e)). destruct Hmt as [Hm1 Hm2].
  unfold sp_store. cbn [sp_answers sp_lost view]. rewrite Hlv. case_bool.
  - destruct (cache_list s1) as [|o l] eqn:El; [by destruct (remove_key (fam, addr) (cache_list s))|]. exists (cache_remove s1 (de_key o)). split; [done|]. pose proof (cache_remove_inv s1 (de_key o) I') as I2. rewrite cache_remove_spec in * by done.
    rewrite El in *. destruct (lists_NoDup s1 I') as [Hd _]. rewrite El in Hd. rewrite remove_head in * by done. rewrite (remove_key_id _ (persist_list s1)) in * by (intros x Hx E; apply (lists_disjoint s1 o x I'); [rewrite El; left|done|done]).
    assert (Hll : lenZ l + 1 = lenZ (remove_key (fam, addr) (cache_list s)) + 1) by (rewrite <- Hlen, <- L', lenZ_cons; lia).
    split; [split; cbn [cache_list persist_list set_lists]; [done|rewrite P'; lia|rewrite P'; lia]|]. rewrite bool_decide_eq_true_2 by lia. unfold view. cbn [cache_list persist_list set_lists cache_hosts_mtime cache_hosts_checktime sp_hosts sp_mtime sp_checktime]. rewrite P', Hm1, Hm2. f_equal. by rewrite <- Hv.
  - exists s1. split; [done|]. split; [split; [done|rewrite L', P', Hlen; lia|rewrite P'; lia]|]. rewrite bool_decide_eq_false_2 by lia. unfold view. cbn [sp_hosts sp_mtime sp_checktime]. rewrite P', Hm1, Hm2. f_equal. done.
Qed.

Lemma dns_store_host_ok (s : dns_tls) (count now : Z) (h : DNSCacheKey * option bytes) : dns_ok s count -> (h.1.1 = AF_INET \/ h.1.1 = AF_INET6) ->
  exists s' count', dns_cache_store conf now s count true h.1.1 h.1.2 h.2 true = Ret (s', count') /\ dns_ok s' count' /\ view s' count' = sp_host (view s count) h.
Proof.
  intros [I Hf Hl] Hk. destruct h as [[fam addr] name]. cbn [fst snd] in *. unfold dns_cache_store, dns_cache_fill_key. rewrite bool_decide_eq_true_2 by done. cbn [g_assert obind andb]. set (e := mkDns _ _ _ _ _). set (k := (fam, addr)).
  destruct (cache_replace_inv s true e I eq_refl ltac:(done)) as (I' & L' & P' & C' & N'). cbn [de_key e] in L', P'. rewrite app_nil_r in L'. fold k in L', P'. set (s0 := mkTls _ _ _ _ _ _). set (s1 := cache_replace _ e) in *.
  assert (Hm : cache_hosts_mtime s1 = cache_hosts_mtime s /\ cache_hosts_checktime s1 = cache_hosts_checktime s) by (subst s1; unfold cache_replace; cbn [cache]; by destruct (cache s !! de_key e)). destruct Hm as [Hm1 Hm2].
  assert (Hsz0 : cache_hash_size s0 = lenZ (cache_list s) + lenZ (persist_list s)) by (transitivity (cache_hash_size s); [done|by apply inv_size]). pose proof (inv_size s1 I') as Hsz. rewrite L', P' in Hsz. rewrite lenZ_app in Hsz. change (lenZ [e]) with 1 in Hsz.
  destruct (lists_NoDup s I) as [Hd1 Hd2]. pose proof (lenZ_nonneg (cache_list s)). pose proof (lenZ_nonneg (persist_list s)).
  assert (Hcase : exists count', (if bool_decide (cache_hash_size s0 <> cache_hash_size s1) then count + 1 else count) = count' /\ lenZ (cache_list s1) + (lenZ (persist_list s1) - count') <= lenZ (cache_list s) + (lenZ (persist_list s) - count) /\
    lenZ (persist_list s1) - count' = if has k (answer_of <$> cache_list s) then lenZ (persist_list s) - count + 1 else lenZ (persist_list s) - count).
  { eexists. split; [done|]. rewrite Hsz0, Hsz, L', P', lenZ_app. change (lenZ [e]) with 1. destruct (has k (answer_of <$> cache_list s)) eqn:Eh.
    - apply (has_elem (fun e => (de_hostname e, de_positive e, de_resolved e))) in Eh as (o & Ho & Hko). pose proof (remove_key_length k (cache_list s) o Hd1 Ho Hko) as Hlen. rewrite (remove_key_id k (persist_list s)) by (intros x Hx E; apply (lists_disjoint s o x I Ho Hx); congruence). unfold lenZ in *. rewrite bool_decide_eq_false_2 by lia. lia.
    - assert (Hno : forall x, x ∈ cache_list s -> de_key x <> k) by (intros x Hx E; assert (has k (answer_of <$> cache_list s) = true) by (apply (has_elem (fun e => (de_hostname e, de_positive e, de_resolved e))); eauto); congruence). rewrite (remove_key_id k (cache_list s)) by done.
      destruct (decide (k ∈ de_key <$> persist_list s)) as [(o & Hko & Ho)%list_elem_of_fmap|Hn].
      + pose proof (remove_key_length k (persist_list s) o Hd2 Ho (eq_sym Hko)) as Hlen. unfold lenZ in *. rewrite bool_decide_eq_false_2 by lia. lia.
      + rewrite (remove_key_id k (persist_list s)) by (intros x Hx E; apply Hn; rewrite <- E; by apply list_elem_of_fmap_2). rewrite bool_decide_eq_true_2 by lia. lia. }
  destruct Hcase as (count' & -> & Hfit & Hlost). assert (Hsz1 : cache_hash_size s1 = lenZ (cache_list s1) + lenZ (persist_list s1)) by (by apply inv_size). pose proof (lenZ_nonneg (cache_list s1)). assert (Hl1 : 0 <= lenZ (persist_list s1) - count') by (rewrite Hlost; destruct (has _ _); lia). rewrite (size_small (cache_hash_size s1 - count')) by lia.
  rewrite bool_decide_eq_false_2 by lia. exists s1, count'. split; [done|]. split; [split; [done|lia|done]|].
  unfold view, sp_host. cbn [sp_hosts sp_answers sp_lost sp_mtime sp_checktime fst]. rewrite Hm1, Hm2, Hlost, L', P', fmap_app. unfold host_of at 1, answer_of at 1. rewrite (del_fmap de_hostname), (del_fmap (fun e => (de_hostname e, de_positive e, de_resolved e))). done.
Qed.

Lemma cleanup_ok (fuel : nat) : forall s count, (length (persist_list s) < fuel)%nat -> dns_ok s count ->
  exists s', cleanup_loop fuel s count = Ret (s', count - lenZ (persist_list s)) /\ dns_ok s' (count - lenZ (persist_list s)) /\ persist_list s' = [] /\ cache_list s' = cache_list s /\ cache_hosts_mtime s' = cache_hosts_mtime s /\ cache_hosts_checktime s' = cache_hosts_checktime s.
Proof.
  induction fuel as [|fuel IH]; intros s count Hf [I Hfit Hl]; [lia|]. cbn [cleanup_loop]. destruct (persist_list s) as [|e l] eqn:E.
  - exists s. rewrite lenZ_nil, Z.sub_0_r. split_and!; try done. split; [done|by rewrite E|by rewrite E].
  - pose proof (cache_remove_inv s (de_key e) I) as I'. rewrite cache_remove_spec in * by done. destruct (lists_NoDup s I) as [_ Hd]. rewrite E in *. rewrite remove_head in * by done. rewrite (remove_key_id _ (cache_list s)) in * by (intros x Hx; apply (lists_disjoint s x e I Hx); rewrite E; left).
    cbn [length] in Hf. rewrite lenZ_cons in *. destruct (IH (set_lists s (delete (de_key e) (cache s)) (cache_list s) l) (count - 1)) as (s' & -> & K & P & L & M & T); [cbn; lia|split; cbn; [done|lia|lia]|]. cbn [persist_list set_lists cache_list cache_hosts_mtime cache_hosts_checktime] in *.
    exists s'. replace (count - 1 - lenZ l) with (count - (1 + lenZ l)) in * by lia. by split_and!.
Qed.

Lemma load_hosts_ok (fuel : nat) (now : Z) : forall s count file, (length file < fuel)%nat -> dns_ok s count ->
  exists s' count', load_hosts inet_pton uninitialized conf fuel now s count file = Ret (s', count') /\ dns_ok s' count' /\ view s' count' = foldl sp_host (view s count) (host_lines fuel file).
Proof.
  assert (Hg : forall n f l r, fgets (S n) f = (l, r) -> f <> [] -> (length r < length f)%nat).
  { assert (G : forall n f, (length (fgets n f).2 <= length f)%nat). { induction n as [|n IH]; intros f; [by destruct f|]. destruct f as [|c f]; [done|]. cbn [fgets]. case_bool; [simpl; lia|]. specialize (IH f). destruct (fgets n f) as [l r]. simpl in *. lia. }
    intros n f l r E Hn. destruct f as [|c f]; [done|]. cbn [fgets] in E. case_bool; [injection E as <- <-; simpl; lia|]. specialize (G n f). destruct (fgets n f) as [l' r']. injection E as <- <-. simpl in *. lia. }
  induction fuel as [|fuel IH]; intros s count file Hf K; [lia|]. cbn [load_hosts host_lines]. destruct file as [|c file]; [by exists s, count|]. destruct (fgets 4095 (c :: file)) as [buf rest] eqn:E. pose proof (Hg _ _ _ _ E ltac:(done)) as Hr. assert (length rest < fuel)%nat by (simpl in *; lia).
  destruct (parse_hosts_line (up_to_nul buf)) as [[ip name]|]; [|by apply IH]. set (fam := if bool_decide (58 ∈ ip) then _ else _). set (ia := match inet_pton fam ip with Some _ => _ | None => _ end).
  destruct (dns_store_host_ok s count now ((fam, ia), Some name) K) as (s1 & c1 & E1 & K1 & V1); [subst fam; cbn; case_bool; auto|]. cbn [fst snd] in E1. rewrite E1. cbn [obind foldl]. rewrite <- V1. by apply IH.
Qed.

Lemma check_ok (s : dns_tls) (count t : Z) (file : hosts_file) : dns_ok s count -> exists s' count', dns_cache_check_hosts inet_pton uninitialized conf s count t file = Ret (s', count') /\ dns_ok s' count' /\ view s' count' = sp_check (view s count) t file.
Proof.
  intros K. unfold dns_cache_check_hosts, sp_check. cbn [view sp_checktime sp_mtime]. case_bool; [by exists s, count|].
  assert (Hset : forall mt, dns_ok (mkTls (cache s) (cache_list s) (persist_list s) mt t (next_id s)) count) by (intros mt; destruct K as [[A B C D E] Kf Kl]; split; [by split|done|done]).
  assert (Hclean : forall mt, exists s', dns_cache_cleanup_persistent_hosts (mkTls (cache s) (cache_list s) (persist_list s) mt t (next_id s)) count = Ret (s', count - lenZ (persist_list s)) /\ dns_ok s' (count - lenZ (persist_list s)) /\
    view s' (count - lenZ (persist_list s)) = mkSpec [] (answer_of <$> cache_list s) (lenZ (persist_list s) - count) mt t).
  { intros mt. destruct (cleanup_ok (S (length (persist_list s))) (mkTls (cache s) (cache_list s) (persist_list s) mt t (next_id s)) count) as (s' & E & K' & P' & L' & M' & T'); [cbn; lia|apply Hset|]. exists s'. split; [exact E|]. split; [done|]. cbn in M', T', L'. unfold view. rewrite P', L', M', T'. f_equal. change (lenZ []) with 0. lia. }
  destruct (if dns_cache_hosts conf then hf_mtime file else None) as [mtime|].
  - cbn [cache_hosts_mtime]. case_bool.
    + cbn [cache cache_list persist_list cache_hosts_checktime next_id]. destruct (Hclean mtime) as (s' & -> & K' & V'). cbn [obind view sp_answers sp_lost]. rewrite <- V'. destruct (hf_contents file) as [f|]; [apply load_hosts_ok; [lia|done]|by eexists _, _].
    + by eexists _, _.
  - destruct (Hclean (cache_hosts_mtime s)) as (s' & -> & K' & V'). by eexists _, _.
Qed.
End spec.
