(* ===== verification/DnsClaims.v ===== *)
(** * Names of senders (resolve_sockaddr of lib/misc.c), and what the cache promises *)
From S2P Require Import Prelude CString DnsCache.

(** ** From an address to a name *)

Section resolve.
Variable inet_pton : Z -> cstr -> option bytes.
Variable uninitialized : Z -> cstr -> bytes.
Variable conf : dns_conf.

(** A request: the time and the hosts file when the cache is asked, the address, the option for name
    service (2 asks for the hosts file only), what [getnameinfo] and [inet_ntop] would give, and the
    time when the answer is there. *)
Record request := mkRequest { rq_now : Z; rq_file : hosts_file; rq_key : Z * bytes; rq_usedns : Z; rq_getnameinfo : option bytes; rq_inet_ntop : bytes; rq_now2 : Z }.

(** [hname] and [positive] of resolve_sockaddr for an address of the Internet, before the name is cut. *)
Definition resolve_name (use_dns_cache : bool) (s : dns_tls) (count : Z) (r : request) : outcome (bytes * bool * dns_tls * Z) :=
  let '(family, addr) := rq_key r in
  let! (found, s, count) := (if use_dns_cache then dns_cache_lookup inet_pton uninitialized conf (rq_now r) s count (rq_file r) family addr else Ret (None, s, count)) in
  let! (hname, positive, s, count) :=
    (match found with
     | Some (hname, positive) => Ret (hname, positive, s, count)
     | None =>
         if bool_decide (rq_usedns r <> 0 /\ rq_usedns r <> 2) then
           match rq_getnameinfo r with
           | Some name =>
               let! (s, count) := (if use_dns_cache then dns_cache_store conf (rq_now2 r) s count false family addr (Some name) true else Ret (s, count)) in
               Ret (Some name, true, s, count)
           | None => Ret (None, false, s, count)
           end
         else Ret (None, false, s, count)
     end) in
  match hname with
  | Some hname => Ret (hname, positive, s, count)
  | None =>
      let! (s, count) := (if use_dns_cache then dns_cache_store conf (rq_now2 r) s count false family addr (Some (rq_inet_ntop r)) false else Ret (s, count)) in
      Ret (rq_inet_ntop r, false, s, count)
  end.

(** The part in front of the first dot, through a buffer of 256 bytes. *)
Definition short_name (hname : bytes) : outcome bytes :=
  let n := lenZ hname - lenZ (drop (strcspn hname [46]) hname) in
  if bool_decide (n = lenZ hname) then Ret hname
  else
    let n := if bool_decide (n > 256) then 255 else n in
    let! _ := g_assert (bool_decide (n < 256)) in Ret (take (Z.to_nat n) hname).
(** Into [result], which has [result_len] bytes. *)
Definition normalize_hostname (result_len : Z) (hostname : bytes) : bytes := g_ascii_tolower <$> take (Z.to_nat (result_len - 1)) hostname.
Definition copy_name (result_len : Z) (hname : bytes) : outcome bytes :=
  let len := lenZ hname in
  if bool_decide (len = 0) then Ret []
  else
    let len := if bool_decide (result_len < len - 1) then result_len - 1 else len in
    let! _ := g_assert (bool_decide (len < result_len)) in Ret (take (Z.to_nat len) hname).
Definition resolve_sockaddr (use_dns_cache usefqdn normalize_hostnames : bool) (result_len : Z) (s : dns_tls) (count : Z) (r : request) : outcome (bytes * dns_tls * Z) :=
  let! (hname, positive, s, count) := resolve_name use_dns_cache s count r in
  let! hname := (if negb usefqdn && positive then short_name hname else Ret hname) in
  let! result := (if normalize_hostnames then Ret (normalize_hostname result_len hname) else copy_name result_len hname) in
  Ret (result, s, count).

(** ** The specification of a request *)

Definition sp_resolve (a : dns_spec) (r : request) : bytes * bool * dns_spec :=
  let a := sp_check inet_pton uninitialized conf a (rq_now r) (rq_file r) in
  match sp_lookup conf a (rq_now r) (rq_key r) with
  | Some (Some name, positive) => (name, positive, a)
  | _ =>
      match (if bool_decide (rq_usedns r <> 0 /\ rq_usedns r <> 2) then rq_getnameinfo r else None) with
      | Some name => (name, true, sp_store conf a (rq_now2 r) (rq_key r) (Some name) true)
      | None => (rq_inet_ntop r, false, sp_store conf a (rq_now2 r) (rq_key r) (Some (rq_inet_ntop r)) false)
      end
  end.
Fixpoint sp_run (a : dns_spec) (rs : list request) : list (bytes * bool) * dns_spec :=
  match rs with [] => ([], a) | r :: rs => let '(name, positive, a) := sp_resolve a r in let '(l, a) := sp_run a rs in ((name, positive) :: l, a) end.
Fixpoint dns_run (s : dns_tls) (count : Z) (rs : list request) : outcome (list (bytes * bool) * dns_tls * Z) :=
  match rs with
  | [] => Ret ([], s, count)
  | r :: rs => let! (name, positive, s, count) := resolve_name true s count r in let! (l, s, count) := dns_run s count rs in Ret ((name, positive) :: l, s, count)
  end.
Definition sp_init : dns_spec := mkSpec [] [] 0 (-1) 0.
Definition family_ok (r : request) : Prop := (rq_key r).1 = AF_INET \/ (rq_key r).1 = AF_INET6.
Hypothesis Hsize : 0 <= dns_cache_size conf < 2 ^ 31 - 1.

(** Every entry has a name. *)
Definition sp_named (a : dns_spec) : Prop := Forall (fun p => p.2 <> None) (sp_hosts a) /\ Forall (fun p => p.2.1.1 <> None) (sp_answers a).
Lemma del_Forall {A} (P : Z * bytes * A -> Prop) (k : Z * bytes) (l : list (Z * bytes * A)) : Forall P l -> Forall P (del k l).
Proof. rewrite !Forall_forall. intros Hp x [_ Hx]%list_elem_of_filter. auto. Qed.
Lemma lines_named (fuel : nat) (file : bytes) : Forall (fun p => p.2 <> None) (host_lines inet_pton uninitialized fuel file).
Proof. revert file. induction fuel as [|fuel IH]; intros file; [constructor|]. cbn [host_lines]. destruct file; [constructor|]. destruct (fgets _ _) as [buf rest]. destruct (parse_hosts_line _) as [[ip name]|]; [|apply IH]. constructor; [done|apply IH]. Qed.
Lemma host_named (l : list (Z * bytes * option bytes)) : forall a, Forall (fun p => p.2 <> None) l -> sp_named a -> sp_named (foldl sp_host a l).
Proof.
  induction l as [|h l IH]; intros a Hl [H1 H2]; [done|]. apply Forall_cons in Hl as [Hh Hl]. cbn [foldl]. apply IH; [done|]. split; cbn; [|by apply del_Forall]. apply Forall_app. split; [by apply del_Forall|]. by constructor.
Qed.
Lemma check_named (a : dns_spec) (t : Z) (file : hosts_file) : sp_named a -> sp_named (sp_check inet_pton uninitialized conf a t file).
Proof.
  intros [H1 H2]. unfold sp_check. case_bool; [done|]. destruct (if dns_cache_hosts conf then _ else None); [|by split; [constructor|]]. case_bool; [|done]. apply host_named; [|by split; [constructor|]]. destruct (hf_contents file); [apply lines_named|constructor].
Qed.
Lemma store_named (a : dns_spec) (now : Z) (k : Z * bytes) (name : bytes) (pos : bool) : sp_named a -> sp_named (sp_store conf a now k (Some name) pos).
Proof.
  intros [H1 H2]. split; [done|]. cbn. assert (H3 : Forall (fun p => p.2.1.1 <> None) (del k (sp_answers a) ++ [(k, (Some name, pos, now))])) by (apply Forall_app; split; [by apply del_Forall|by constructor]). case_bool; [|done]. destruct (_ ++ _); [done|]. by inversion H3.
Qed.
Lemma lookup_view (s : dns_tls) (count now : Z) (k : Z * bytes) : dns_inv s -> match cache s !! k with Some e => if too_old conf now e then None else Some (de_hostname e, de_positive e) | None => None end = sp_lookup conf (view s count) now k.
Proof.
  intros I. unfold sp_lookup. cbn [view sp_hosts sp_answers]. destruct (lists_NoDup s I) as [Hd1 Hd2]. destruct (assoc k (host_of <$> persist_list s)) as [name|] eqn:Eh.
  - apply (assoc_elem de_hostname) in Eh as (e & He & Hk & <-); [|done]. assert (cache s !! k = Some e) as -> by (apply (di_map _ I); split; [apply elem_of_app; by right|done]). destruct (di_persist _ I e He) as [Hz Hp]. unfold too_old. by rewrite bool_decide_eq_false_2, Hp by (by intros N9; apply N9).
  - destruct (assoc k (answer_of <$> cache_list s)) as [[[name pos] t]|] eqn:Ea.
    + apply (assoc_elem (fun e => (de_hostname e, de_positive e, de_resolved e))) in Ea as (e & He & Hk & [= <- <- <-]); [|done]. assert (cache s !! k = Some e) as -> by (apply (di_map _ I); split; [apply elem_of_app; by left|done]).
      unfold too_old. destruct (de_positive e); cbn [andb orb negb]; by rewrite ?orb_false_r, bool_decide_and.
    + destruct (cache s !! k) as [e|] eqn:Ec; [|done]. apply (di_map _ I) in Ec as [[He|He]%elem_of_app Hk].
      * assert (assoc k (answer_of <$> cache_list s) = Some (de_hostname e, de_positive e, de_resolved e)) by (apply (assoc_elem (fun e => (de_hostname e, de_positive e, de_resolved e))); eauto). congruence.
      * assert (assoc k (host_of <$> persist_list s) = Some (de_hostname e)) by (apply (assoc_elem de_hostname); eauto). congruence.
Qed.

Lemma resolve_name_ok (s : dns_tls) (count : Z) (r : request) : dns_ok conf s count -> sp_named (view s count) -> family_ok r ->
  exists s' count', resolve_name true s count r = Ret ((sp_resolve (view s count) r).1, s', count') /\ dns_ok conf s' count' /\ view s' count' = (sp_resolve (view s count) r).2 /\ sp_named (view s' count').
Proof.
  intros K Hn Hf. unfold resolve_name, sp_resolve. destruct (rq_key r) as [fam addr] eqn:Ek. unfold family_ok in Hf. rewrite Ek in Hf. cbn [fst] in Hf. unfold dns_cache_lookup.
  destruct (check_ok inet_pton uninitialized conf Hsize s count (rq_now r) (rq_file r) K) as (s1 & c1 & -> & K1 & V1). cbn [obind]. pose proof (check_named (view s count) (rq_now r) (rq_file r) Hn) as Hn1. rewrite <- V1 in *.
  unfold dns_cache_fill_key. rewrite bool_decide_eq_true_2 by done. cbn [g_assert obind]. rewrite (lookup_view s1 c1 (rq_now r) (fam, addr)) by apply K1.
  assert (Hstore : forall name pos, sp_lookup conf (view s1 c1) (rq_now r) (fam, addr) = None -> exists s2, dns_cache_store conf (rq_now2 r) s1 c1 false fam addr (Some name) pos = Ret (s2, c1) /\ dns_ok conf s2 c1 /\ view s2 c1 = sp_store conf (view s1 c1) (rq_now2 r) (fam, addr) (Some name) pos).
  { intros name pos Hl. apply (store_answer_ok conf Hsize s1 c1 (rq_now2 r) (fam, addr)); [done|done|]. intros e He Hke. unfold sp_lookup in Hl. assert (assoc (fam, addr) (host_of <$> persist_list s1) = Some (de_hostname e)) as Ha by (apply (assoc_elem de_hostname); [by apply lists_NoDup, K1|eauto]). cbn [view sp_hosts] in Hl. by rewrite Ha in Hl. }
  destruct (sp_lookup conf (view s1 c1) (rq_now r) (fam, addr)) as [[[name|] pos]|] eqn:El.
  - cbn [obind]. eexists _, _. split; [done|]. by split_and!.
  - exfalso. destruct Hn1 as [Hh Ha]. unfold sp_lookup in El. destruct (assoc _ (sp_hosts _)) as [n|] eqn:E1.
    + injection El as -> _. apply (assoc_elem de_hostname) in E1 as (e & He & _ & En); [|by apply lists_NoDup, K1]. rewrite Forall_forall in Hh. apply (Hh (host_of e)); [by apply list_elem_of_fmap_2|done].
    + destruct (assoc _ (sp_answers _)) as [[[n p] t]|] eqn:E2; [|done]. case_bool; [done|]. injection El as -> _. apply (assoc_elem (fun e => (de_hostname e, de_positive e, de_resolved e))) in E2 as (e & He & _ & [= En _ _]); [|by apply lists_NoDup, K1]. rewrite Forall_forall in Ha. apply (Ha (answer_of e)); [by apply list_elem_of_fmap_2|done].
  - assert (Hst : forall name pos, exists s2, dns_cache_store conf (rq_now2 r) s1 c1 false fam addr (Some name) pos = Ret (s2, c1) /\ dns_ok conf s2 c1 /\ view s2 c1 = sp_store conf (view s1 c1) (rq_now2 r) (fam, addr) (Some name) pos) by (intros; by apply Hstore).
    case_bool; [destruct (rq_getnameinfo r) as [name|]|]; cbn [obind]; [destruct (Hst name true) as (s2 & -> & K2 & V2)|destruct (Hst (rq_inet_ntop r) false) as (s2 & -> & K2 & V2)..]; cbn [obind fst snd]; eexists _, _; (split; [done|]); (split_and!; [done|done|]); rewrite V2; by apply store_named.
Qed.
Lemma dns_run_ok (rs : list request) : forall s count, dns_ok conf s count -> sp_named (view s count) -> Forall family_ok rs ->
  exists s' count', dns_run s count rs = Ret ((sp_run (view s count) rs).1, s', count') /\ dns_ok conf s' count' /\ view s' count' = (sp_run (view s count) rs).2.
Proof.
  induction rs as [|r rs IH]; intros s count K Hn Hf; [by exists s, count|]. apply Forall_cons in Hf as [Hr Hf]. cbn [dns_run sp_run]. destruct (resolve_name_ok s count r K Hn Hr) as (s1 & c1 & -> & K1 & V1 & Hn1). destruct (sp_resolve (view s count) r) as [[name pos] a1]. cbn [fst snd obind] in *. subst a1.
  destruct (IH s1 c1 K1 Hn1 Hf) as (s2 & c2 & -> & K2 & V2). destruct (sp_run (view s1 c1) rs) as [l a2]. cbn [fst snd obind] in *. by eexists _, _.
Qed.
End resolve.

(** C34: the cache of host names.  With one thread, any requests at any times, with
    any hosts files: every call returns, the names it gives are those of the
    specification (the hosts file first, then the answers of the resolver until
    they expire, then a new answer), and the answers kept are the youngest, of which
    together with the places that were lost there are never more than
    dns_cache_size. *)
Theorem dns_cache_refines (inet_pton : Z -> cstr -> option bytes) (uninitialized : Z -> cstr -> bytes) (conf : dns_conf) (rs : list request)
  (Hsize : 0 <= dns_cache_size conf < 2 ^ 31 - 1) (Hrs : Forall family_ok rs) :
  exists s count, dns_run inet_pton uninitialized conf dns_cache_tls_init 0 rs = Ret ((sp_run inet_pton uninitialized conf sp_init rs).1, s, count) /\
    let a := (sp_run inet_pton uninitialized conf sp_init rs).2 in view s count = a /\ lenZ (sp_answers a) + sp_lost a <= dns_cache_size conf /\ 0 <= sp_lost a.
Proof.
  assert (I : dns_inv dns_cache_tls_init).
  { split; cbn; [|constructor|by intros e ?%elem_of_nil|by intros e1 e2 ?%elem_of_nil|by intros e ?%elem_of_nil]. intros k e. rewrite lookup_empty. split; [done|]. by intros [?%elem_of_nil _]. }
  assert (K : dns_ok conf dns_cache_tls_init 0) by (split; [done|change (0 + (0 - 0) <= dns_cache_size conf); lia|change (0 <= 0 - 0); lia]).
  destruct (dns_run_ok inet_pton uninitialized conf Hsize rs dns_cache_tls_init 0 K ltac:(by split; constructor) Hrs) as (s & c & E & [_ Kf Kl] & V). exists s, c. split; [exact E|]. change (view dns_cache_tls_init 0) with sp_init in V. rewrite <- V. split_and!; [done| |done]. cbn. unfold lenZ in *. by rewrite length_fmap.
Qed.

(** copying the name.  Into a result of [result_len] bytes resolve_sockaddr
    writes outside exactly when the name is as long as the result or a byte
    longer; the name that it gives otherwise is the name, or its beginning. *)
Theorem copy_name_bounds (result_len : Z) (hname : bytes) (Hlen : 1 <= result_len) :
  (copy_name result_len hname = Abort <-> result_len <= lenZ hname <= result_len + 1) /\
  (lenZ hname < result_len -> copy_name result_len hname = Ret hname) /\
  (result_len + 1 < lenZ hname -> copy_name result_len hname = Ret (take (Z.to_nat (result_len - 1)) hname)).
Proof.
  pose proof (lenZ_nonneg hname) as Hn. unfold copy_name. destruct (bool_decide_reflect (lenZ hname = 0)) as [E|E].
  - apply lenZ_zero_nil in E as ->. change (lenZ []) with 0. split_and!; [split; [done|lia]|done|lia].
  - destruct (bool_decide_reflect (result_len < lenZ hname - 1)) as [L|L]; cbn [g_assert].
    + rewrite bool_decide_eq_true_2 by lia. cbn [g_assert obind]. split_and!; [split; [done|lia]|lia|done].
    + destruct (bool_decide_reflect (lenZ hname < result_len)) as [L2|L2]; cbn [g_assert obind]; (split_and!; [split; [done || lia|done || lia]| |lia]); [|lia]. intros _. f_equal. unfold lenZ. rewrite Nat2Z.id. apply firstn_all.
Qed.

Module DnsDemo.
Definition pton (family : Z) (ip : cstr) : option bytes := if bool_decide (ip = bytes_of_string "10.0.0.1") then Some [10; 0; 0; 1] else None.
Definition junk (family : Z) (ip : cstr) : bytes := [127; 0; 0; 1].
Definition conf : dns_conf := mkDnsConf 1 3600 60 true.
Definition no_hosts : hosts_file := mkHosts None None.
Definition hosts (mtime : Z) : hosts_file := mkHosts (Some mtime) (Some (bytes_of_string "# local
10.0.0.1	printer alias
")).
Definition ask (now : Z) (file : hosts_file) (addr : bytes) (answer : option bytes) : request := mkRequest now file (AF_INET, addr) 1 answer (bytes_of_string "ip") now.
Definition requests : list request :=
  [ask 100 no_hosts [10; 0; 0; 1] (Some (bytes_of_string "old")); ask 200 (hosts 150) [10; 0; 0; 1] None; ask 201 (hosts 150) [10; 0; 0; 2] (Some (bytes_of_string "host")); ask 202 (hosts 150) [10; 0; 0; 2] None; ask 300 no_hosts [10; 0; 0; 1] None; ask 301 (hosts 150) [10; 0; 0; 1] None].
Lemma dns_cache_refines_witness : exists s count, dns_run pton junk conf dns_cache_tls_init 0 requests = Ret ((sp_run pton junk conf sp_init requests).1, s, count) /\
    let a := (sp_run pton junk conf sp_init requests).2 in view s count = a /\ lenZ (sp_answers a) + sp_lost a <= dns_cache_size conf /\ 0 <= sp_lost a.
Proof. apply dns_cache_refines; [vm_compute; split; [discriminate|reflexivity]|repeat constructor]. Defined.

(** The host that the file took over cost the only place there was: the answer of
    the third request is not kept for the fourth.  When the file is back
    with its old time it is not read again. *)
Theorem dns_cache_loses_places : (sp_run pton junk conf sp_init requests).1 =
  [(bytes_of_string "old", true); (bytes_of_string "printer", true); (bytes_of_string "host", true); (bytes_of_string "ip", false); (bytes_of_string "ip", false); (bytes_of_string "ip", false)].
Proof. vm_compute. reflexivity. Qed.

(** The counter is shared by all threads: when another thread has read a hosts file,
    this one keeps more answers than the configured one. *)
Theorem dns_cache_counts_other_threads :
  match dns_run pton junk conf dns_cache_tls_init 0 [ask 100 (hosts 50) [10; 0; 0; 1] None] with
  | Ret (_, _, count) =>
      match dns_run pton junk (mkDnsConf 1 3600 60 false) dns_cache_tls_init count [ask 100 no_hosts [10; 0; 0; 7] None; ask 100 no_hosts [10; 0; 0; 8] None] with
      | Ret (_, s, _) => lenZ (cache_list s) = 2
      | Abort => False
      end
  | Abort => False
  end.
Proof. vm_compute. reflexivity. Qed.
(** A line with an address that is none is stored under what the variable held. *)
Theorem hosts_line_not_checked : (sp_run pton junk conf sp_init [ask 100 (mkHosts (Some 50) (Some (bytes_of_string "bad evil"))) [127; 0; 0; 1] None]).1 = [(bytes_of_string "evil", true)].
Proof. vm_compute. reflexivity. Qed.

Lemma copy_name_bounds_witness : (copy_name 4 [97; 98; 99; 100] = Abort <-> 4 <= 4 <= 4 + 1) /\ (4 < 4 -> copy_name 4 [97; 98; 99; 100] = Ret [97; 98; 99; 100]) /\ (4 + 1 < 4 -> copy_name 4 [97; 98; 99; 100] = Ret (take (Z.to_nat (4 - 1)) [97; 98; 99; 100])).
Proof. apply (copy_name_bounds 4 [97; 98; 99; 100]). lia. Defined.
(** The short name goes through a buffer that a dot in place 256 does not fit. *)
Theorem short_name_overflows : short_name (repeat 97 256 ++ [46; 98]) = Abort.
Proof. vm_compute. reflexivity. Qed.
End DnsDemo.
