(* ===== verification/LogMatcher.v ===== *)
(** * Matchers (lib/logmatcher.c)

    Regular expressions are matched by the C library and by PCRE, patterns of file
    names by GLib: they are parameters.  What a matcher does to a message goes
    through an interface, [MatchSink]; [message_sink] is the message of lib/logmsg.c. *)
From S2P Require Import Prelude CString NVTable NVRegistry LogMsgData.

Definition LMF_GLOBAL : Z := 0x0001.
Definition LMF_ICASE : Z := 0x0002.
Definition LMF_MATCH_ONLY : Z := 0x0004.
Definition LMF_NEWLINE : Z := 0x0008.
Definition LMF_UTF8 : Z := 0x0010.
Definition LMF_STORE_MATCHES : Z := 0x0020.
Definition LMF_SUBSTRING : Z := 0x0040.
Definition LMF_PREFIX : Z := 0x0080.
Definition RE_MAX_MATCHES : Z := 256.
Definition REG_EXTENDED : Z := 1.
Definition REG_ICASE : Z := 2.
Definition REG_NEWLINE : Z := 4.
Definition REG_NOSUB : Z := 8.
Definition PCRE_CASELESS : Z := 0x00000001.
Definition PCRE_ANCHORED : Z := 0x00000010.
Definition PCRE_NOTEMPTY : Z := 0x00000400.
Definition PCRE_UTF8 : Z := 0x00000800.
Definition PCRE_NO_UTF8_CHECK : Z := 0x00002000.
Definition PCRE_NEWLINE_ANYCRLF : Z := 0x00500000.
Definition PCRE_ERROR_NOMATCH : Z := -1.
Definition flag_set (flags f : Z) : bool := bool_decide (Z.land flags f <> 0).
Definition slice (value : bytes) (ofs len : Z) : bytes := take (Z.to_nat len) (drop (Z.to_nat ofs) value).

(** ** What matchers do to a message *)

Class MatchSink (M : Type) := {
  sink_is_macro : M -> Z -> outcome bool;
  sink_set_match : M -> Z -> bytes -> outcome M;
  sink_set_match_indirect : M -> Z -> Z -> Z -> Z -> Z -> outcome M;
  sink_clear_matches : M -> outcome M;
  sink_set_named : M -> bytes -> bytes -> outcome M;
  sink_utf8 : M -> bool }.

Definition LF_UTF8 : Z := 0x0001.
(** The registry, the blocks and the message. *)
Record msg_state := mkMS { ms_reg : NVRegistry; ms_store : store; ms_msg : LogMessage }.
Definition log_msg_is_handle_macro (reg : NVRegistry) (handle : Z) : outcome bool :=
  let! flags := nv_registry_get_handle_flags reg handle in Ret (flag_set flags LM_VF_MACRO).
Definition on_msg (s : msg_state) (f : NVRegistry -> store -> LogMessage -> outcome (store * LogMessage)) : outcome msg_state :=
  let! (st, m) := f (ms_reg s) (ms_store s) (ms_msg s) in Ret (mkMS (ms_reg s) st m).
#[export] Instance message_sink (macro : LogMessage -> Z -> bytes) (match_handles : list Z) : MatchSink msg_state := {
  sink_is_macro s handle := log_msg_is_handle_macro (ms_reg s) handle;
  sink_set_match s i value := on_msg s (fun reg st m => log_msg_set_match match_handles reg st m i value);
  sink_set_match_indirect s i ref type ofs len := on_msg s (fun reg st m => log_msg_set_match_indirect (macro m) match_handles reg st m i ref type ofs len);
  sink_clear_matches s := on_msg s (log_msg_clear_matches match_handles);
  sink_set_named s name value := let! (reg, st, m) := log_msg_set_value_by_name (ms_reg s) (ms_store s) (ms_msg s) name value in Ret (mkMS reg st m);
  sink_utf8 s := log_msg_chk_flag (ms_msg s) LF_UTF8 }.

(** ** Strings *)

Definition fold_case (icase : bool) (s : bytes) : bytes := if icase then g_ascii_tolower <$> s else s.
(** The offset of the first occurrence: [strcasestr] and [g_strstr_len]. *)
Definition find_string (icase : bool) (value pattern : bytes) : option Z :=
  let s := up_to_nul value in
  match strstr (fold_case icase s) (fold_case icase pattern) with Some rest => Some (lenZ s - lenZ rest) | None => None end.
Definition strncmp_case (icase : bool) (value pattern : bytes) (n : nat) : bool := strncmp_eq (fold_case icase (up_to_nul value)) (fold_case icase pattern) n.
(** The offset of the match. *)
Definition log_matcher_string_match_string (flags : Z) (pattern value : bytes) : option Z :=
  if bool_decide (lenZ pattern > lenZ value) then None
  else
    let icase := flag_set flags LMF_ICASE in
    if bool_decide (Z.land flags (LMF_SUBSTRING + LMF_PREFIX) = 0) then if strncmp_case icase value pattern (length value) then Some 0 else None
    else if flag_set flags LMF_PREFIX then if strncmp_case icase value pattern (Nat.min (length value) (length pattern)) then Some 0 else None
    else find_string icase value pattern.
Definition log_matcher_string_match (flags : Z) (pattern value : bytes) : bool := bool_decide (log_matcher_string_match_string flags pattern value <> None).

Section matchers.
Context {M : Type} `{MatchSink M}.
(** [log_template_append_format] of the replacement. *)
Variable format : M -> bytes.

(** One round of a replacement: what was built, where to go on. *)
Fixpoint string_replace_loop (fuel : nat) (flags : Z) (pattern value : bytes) (m : M) (current_ofs : Z) (first_round : bool) (new_value : option bytes) : outcome (option bytes * M) :=
  match fuel with
  | O => Abort
  | S fuel =>
      if bool_decide (current_ofs = lenZ value) then Ret (new_value, m)
      else
        match log_matcher_string_match_string flags pattern (drop (Z.to_nat current_ofs) value) with
        | Some at_ =>
            let start_ofs := current_ofs + at_ in
            let end_ofs := start_ofs + lenZ pattern in
            let skip := if bool_decide (start_ofs = end_ofs) && negb first_round then 1 else 0 in
            let '(start_ofs, end_ofs) := (start_ofs + skip, end_ofs + skip) in
            let! m := (if flag_set flags LMF_STORE_MATCHES then sink_clear_matches m else Ret m) in
            let new_value := default [] new_value ++ slice value current_ofs (start_ofs - current_ofs) ++ format m in
            if flag_set flags LMF_GLOBAL then string_replace_loop fuel flags pattern value m end_ofs false (Some new_value)
            else Ret (Some (new_value ++ slice value end_ofs (lenZ value - end_ofs)), m)
        | None => Ret ((fun n => n ++ slice value current_ofs (lenZ value - current_ofs)) <$> new_value, m)
        end
  end.
Definition log_matcher_string_replace (flags : Z) (pattern value : bytes) (m : M) : outcome (option bytes * M) :=
  string_replace_loop (length value + 2) flags pattern value m 0 true None.

(** ** POSIX regular expressions *)

Section posix.
Context {R : Type}.
(** Begin and end of the whole match and of the groups, -1 for one that is not set; the flag is
    [REG_NOTBOL]. *)
Variable regexec : R -> cstr -> bool -> option (list (Z * Z)).
Variable regcomp : cstr -> Z -> option R.

Fixpoint until_paren (re : cstr) : bool * cstr :=
  match re with
  | [] => (false, [])
  | c :: re' => if bool_decide (c = 41) then (false, re) else let '(i, rest) := until_paren re' in (bool_decide (c = 105) || i, rest)
  end.
Definition log_matcher_posix_re_compile (flags : Z) (re : cstr) : option R :=
  let r :=
    if bool_decide (deref re = 40 /\ deref (tail re) = 63) then
      let '(i, rest) := until_paren (drop 2 re) in
      match rest with [] => None | _ :: rest => Some (if i then Z.lor REG_EXTENDED REG_ICASE else REG_EXTENDED, rest) end
    else Some (REG_EXTENDED, re) in
  match r with
  | None => None
  | Some (f, re_comp) =>
      let f := if flag_set flags LMF_ICASE then Z.lor f REG_ICASE else f in
      let f := if flag_set flags LMF_NEWLINE then Z.lor f REG_NEWLINE else f in
      let f := if bool_decide (Z.land flags (LMF_MATCH_ONLY + LMF_STORE_MATCHES) = LMF_MATCH_ONLY) then Z.lor f REG_NOSUB else f in
      regcomp re_comp f
  end.

(** Group [i], from the bytes [value]. *)
Definition feed_one (m : M) (i value_handle so eo : Z) (value : bytes) : outcome M :=
  let! indirect := (if bool_decide (value_handle <> 0) then let! macro := sink_is_macro m value_handle in Ret (negb macro) else Ret false) in
  if indirect then sink_set_match_indirect m i value_handle 0 so (eo - so) else sink_set_match m i (slice value so (eo - so)).
Fixpoint posix_feed (m : M) (i value_handle : Z) (matches : list (Z * Z)) (value : bytes) : outcome M :=
  match matches with
  | [] => Ret m
  | (so, eo) :: matches => if bool_decide (so = -1) then Ret m else let! m := feed_one m i value_handle so eo value in posix_feed m (i + 1) value_handle matches value
  end.
Definition log_matcher_posix_re_feed_backrefs (m : M) (value_handle : Z) (matches : list (Z * Z)) (value : bytes) : outcome M :=
  posix_feed m 0 value_handle (take (Z.to_nat RE_MAX_MATCHES) matches) value.

Definition log_matcher_posix_re_match (flags : Z) (pattern : R) (m : M) (value_handle : Z) (value : bytes) : outcome (bool * M) :=
  match regexec pattern (up_to_nul value) false with
  | None => Ret (false, m)
  | Some matches =>
      let! m := (if flag_set flags LMF_STORE_MATCHES then log_matcher_posix_re_feed_backrefs m value_handle matches value else Ret m) in
      Ret (true, m)
  end.

(** The buffer ends with a zero byte, which may be read; a search from behind it leaves the buffer. *)
Fixpoint posix_replace_loop (fuel : nat) (flags : Z) (pattern : R) (value_handle : Z) (value : bytes) (m : M) (current_ofs : Z) (first_round : bool) (new_value : option bytes) : outcome (option bytes * M) :=
  match fuel with
  | O => Abort
  | S fuel =>
      if bool_decide (current_ofs = lenZ value) then Ret (new_value, m)
      else
        let! _ := g_assert (bool_decide (current_ofs <= lenZ value)) in
        let buf := value ++ [0] in
        match regexec pattern (up_to_nul (drop (Z.to_nat current_ofs) buf)) (bool_decide (current_ofs > 0)) with
        | Some matches =>
            let '(so, eo) := default (0, 0) (head matches) in
            let start_ofs := so + current_ofs in
            let end_ofs := eo + current_ofs in
            let skip := if bool_decide (start_ofs = end_ofs) && negb first_round then 1 else 0 in
            let '(start_ofs, end_ofs) := (start_ofs + skip, end_ofs + skip) in
            let! m := log_matcher_posix_re_feed_backrefs m value_handle matches (drop (Z.to_nat current_ofs) buf) in
            let new_value := default [] new_value ++ slice buf current_ofs (start_ofs - current_ofs) ++ format m in
            if flag_set flags LMF_GLOBAL then posix_replace_loop fuel flags pattern value_handle value m end_ofs false (Some new_value)
            else Ret (Some (new_value ++ slice buf end_ofs (lenZ value - end_ofs)), m)
        | None => Ret ((fun n => n ++ slice buf current_ofs (lenZ value - current_ofs)) <$> new_value, m)
        end
  end.
Definition log_matcher_posix_re_replace (flags : Z) (pattern : R) (m : M) (value_handle : Z) (value : bytes) : outcome (option bytes * M) :=
  posix_replace_loop (length value + 3) flags pattern value_handle value m 0 true None.
End posix.

(** ** PCRE *)

Section pcre.
Context {P : Type}.
(** The result and the array of offsets, with room for the given number. *)
Variable pcre_exec : P -> bytes -> Z -> Z -> Z -> Z * list Z.
(** What [pcre_fullinfo] tells: the number of groups, of names, their table and the size of its entries. *)
Variable capture_count name_count name_entry_size : P -> Z.
Variable name_table : P -> bytes.
Variable pcre_compile2 : cstr -> Z -> option P.
Variable pcre_study : P -> bool.
(** What [pcre_config] tells of UTF8 and of its properties. *)
Variable utf8_support utf8_properties : bool.

(** Pattern and options for the matches. *)
Definition log_matcher_pcre_re_compile (lmflags : Z) (re : cstr) : option (P * Z) :=
  let flags := if flag_set lmflags LMF_ICASE then PCRE_CASELESS else 0 in
  let flags := if flag_set lmflags LMF_NEWLINE then Z.lor flags PCRE_NEWLINE_ANYCRLF else flags in
  let utf8 := flag_set lmflags LMF_UTF8 in
  if utf8 && negb (utf8_support && utf8_properties) then None
  else
    let flags := if utf8 then Z.lor flags (Z.lor PCRE_UTF8 PCRE_NO_UTF8_CHECK) else flags in
    match pcre_compile2 re flags with
    | None => None
    | Some pattern => if pcre_study pattern then Some (pattern, if utf8 then PCRE_NO_UTF8_CHECK else 0) else None
    end.

Definition at_index (l : list Z) (i : Z) : outcome Z := if bool_decide (0 <= i) then match l !! Z.to_nat i with Some x => Ret x | None => Abort end else Abort.
Fixpoint pcre_feed (n : nat) (m : M) (i value_handle : Z) (matches : list Z) (value : bytes) : outcome M :=
  match n with
  | O => Ret m
  | S n =>
      let! begin_index := at_index matches (2 * i) in
      let! end_index := at_index matches (2 * i + 1) in
      let! m := (if bool_decide (begin_index < 0 \/ end_index < 0) then Ret m else feed_one m i value_handle begin_index end_index value) in
      pcre_feed n m (i + 1) value_handle matches value
  end.
Definition log_matcher_pcre_re_feed_backrefs (m : M) (value_handle : Z) (matches : list Z) (match_num : Z) (value : bytes) : outcome M :=
  pcre_feed (Z.to_nat (Z.min RE_MAX_MATCHES match_num)) m 0 value_handle matches value.
(** A group that is not set leaves [tabptr] where it is. *)
Fixpoint named_loop (namecount : nat) (entry_size : Z) (tabptr : bytes) (m : M) (matches : list Z) (value : bytes) : outcome M :=
  match namecount with
  | O => Ret m
  | S namecount =>
      match tabptr with
      | hi :: lo :: name =>
          let n := Z.lor (Z.shiftl (s8 hi) 8) (s8 lo) in
          let! begin_index := at_index matches (2 * n) in
          let! end_index := at_index matches (2 * n + 1) in
          if bool_decide (begin_index < 0 \/ end_index < 0) then named_loop namecount entry_size tabptr m matches value
          else
            let! m := sink_set_named m (up_to_nul name) (slice value begin_index (end_index - begin_index)) in
            named_loop namecount entry_size (drop (Z.to_nat entry_size) tabptr) m matches value
      | _ => Abort
      end
  end.
Definition log_matcher_pcre_re_feed_named_substrings (pattern : P) (m : M) (matches : list Z) (value : bytes) : outcome M :=
  named_loop (Z.to_nat (name_count pattern)) (name_entry_size pattern) (name_table pattern) m matches value.
Definition matches_size (pattern : P) : Z := 3 * (Z.min (capture_count pattern) RE_MAX_MATCHES + 1).
Definition pcre_store (pattern : P) (m : M) (value_handle : Z) (matches : list Z) (rc : Z) (value : bytes) : outcome M :=
  let! m := log_matcher_pcre_re_feed_backrefs m value_handle matches rc value in
  log_matcher_pcre_re_feed_named_substrings pattern m matches value.

Definition log_matcher_pcre_re_match (flags : Z) (pattern : P) (match_options : Z) (m : M) (value_handle : Z) (value : bytes) : outcome (bool * M) :=
  let! _ := g_assert (bool_decide (0 <= capture_count pattern)) in
  let '(rc, matches) := pcre_exec pattern value 0 match_options (matches_size pattern) in
  if bool_decide (rc < 0) then Ret (false, m)
  else if bool_decide (rc = 0) then Ret (true, m)
  else
    let! m := (if flag_set flags LMF_STORE_MATCHES then pcre_store pattern m value_handle matches rc value else Ret m) in
    Ret (true, m).

(** [last_offset] is where the text that was copied ends. *)
Fixpoint pcre_replace_loop (fuel : nat) (flags : Z) (pattern : P) (match_options value_handle : Z) (value : bytes) (m : M) (start_offset last_offset : Z) (last_match_was_empty : bool) (new_value : option bytes) : outcome (option bytes * Z * M) :=
  match fuel with
  | O => Abort
  | S fuel =>
      let options := if last_match_was_empty then Z.lor PCRE_NOTEMPTY PCRE_ANCHORED else 0 in
      let '(rc, matches) := pcre_exec pattern value start_offset (Z.lor match_options options) (matches_size pattern) in
      if bool_decide (rc < 0 /\ rc <> PCRE_ERROR_NOMATCH) then Ret (new_value, last_offset, m)
      else if bool_decide (rc < 0) then
        if negb last_match_was_empty then Ret (new_value, last_offset, m)
        else
          let start_offset := start_offset + 1 in
          if flag_set flags LMF_GLOBAL && bool_decide (start_offset < lenZ value) then pcre_replace_loop fuel flags pattern match_options value_handle value m start_offset last_offset false new_value
          else Ret (new_value, last_offset, m)
      else
        let rc := if bool_decide (rc = 0) then matches_size pattern / 3 else rc in
        let! m := pcre_store pattern m value_handle matches rc value in
        let! so := at_index matches 0 in
        let! eo := at_index matches 1 in
        let new_value := Some (default [] new_value ++ slice value last_offset (so - last_offset) ++ format m) in
        if flag_set flags LMF_GLOBAL && bool_decide (eo < lenZ value) then pcre_replace_loop fuel flags pattern match_options value_handle value m eo eo (bool_decide (so = eo)) new_value
        else Ret (new_value, eo, m)
  end.
Definition log_matcher_pcre_re_replace (flags : Z) (pattern : P) (match_options : Z) (m : M) (value_handle : Z) (value : bytes) : outcome (option bytes * M) :=
  let! _ := g_assert (bool_decide (0 <= capture_count pattern)) in
  let! (new_value, last_offset, m) := pcre_replace_loop (2 * length value + 2) flags pattern match_options value_handle value m 0 0 false None in
  Ret ((fun n => n ++ slice value last_offset (lenZ value - last_offset)) <$> new_value, m).
End pcre.
End matchers.

(** ** All kinds of matchers *)

(** The libraries that match patterns. *)
Record regex_lib := mkLib {
  lib_regex : Type; lib_regexec : lib_regex -> cstr -> bool -> option (list (Z * Z));
  lib_pcre : Type; lib_pcre_exec : lib_pcre -> bytes -> Z -> Z -> Z -> Z * list Z; lib_captures : lib_pcre -> Z; lib_name_count : lib_pcre -> Z; lib_name_size : lib_pcre -> Z; lib_names : lib_pcre -> bytes;
  lib_glob : Type; lib_pattern_match : lib_glob -> bytes -> bool; lib_utf8_validate : bytes -> bool }.
Inductive matcher_kind (L : regex_lib) :=
  | LMR_POSIX_REGEXP (pattern : lib_regex L)
  | LMR_PCRE_REGEXP (pattern : lib_pcre L) (match_options : Z)
  | LMR_STRING (pattern : bytes)
  | LMR_GLOB (pattern : lib_glob L).
Arguments LMR_POSIX_REGEXP {L}. Arguments LMR_PCRE_REGEXP {L}. Arguments LMR_STRING {L}. Arguments LMR_GLOB {L}.
Record LogMatcher (L : regex_lib) := mkMatcher { lm_flags : Z; lm_kind : matcher_kind L }.
Arguments mkMatcher {L}. Arguments lm_flags {L}. Arguments lm_kind {L}.

Section dispatch.
Context {M : Type} `{MatchSink M} (L : regex_lib).
Definition log_matcher_glob_match (pattern : lib_glob L) (m : M) (value : bytes) : bool := (sink_utf8 m || lib_utf8_validate L value) && lib_pattern_match L pattern value.
Definition log_matcher_match (s : LogMatcher L) (m : M) (value_handle : Z) (value : bytes) : outcome (bool * M) :=
  match lm_kind s with
  | LMR_POSIX_REGEXP p => log_matcher_posix_re_match (lib_regexec L) (lm_flags s) p m value_handle value
  | LMR_PCRE_REGEXP p o => log_matcher_pcre_re_match (lib_pcre_exec L) (lib_captures L) (lib_name_count L) (lib_name_size L) (lib_names L) (lm_flags s) p o m value_handle value
  | LMR_STRING p => Ret (log_matcher_string_match (lm_flags s) p value, m)
  | LMR_GLOB p => Ret (log_matcher_glob_match p m value, m)
  end.
(** Patterns of file names cannot be replaced. *)
Definition log_matcher_replace (format : M -> bytes) (s : LogMatcher L) (m : M) (value_handle : Z) (value : bytes) : outcome (option bytes * M) :=
  match lm_kind s with
  | LMR_POSIX_REGEXP p => log_matcher_posix_re_replace format (lib_regexec L) (lm_flags s) p m value_handle value
  | LMR_PCRE_REGEXP p o => log_matcher_pcre_re_replace format (lib_pcre_exec L) (lib_captures L) (lib_name_count L) (lib_name_size L) (lib_names L) (lm_flags s) p o m value_handle value
  | LMR_STRING p => log_matcher_string_replace format (lm_flags s) p value m
  | LMR_GLOB _ => Ret (None, m)
  end.
(** Without the flag for groups a match leaves the message alone. *)
Lemma log_matcher_match_keeps (s : LogMatcher L) (m m' : M) (h : Z) (value : bytes) (b : bool) : flag_set (lm_flags s) LMF_STORE_MATCHES = false -> log_matcher_match s m h value = Ret (b, m') -> m' = m.
Proof.
  intros Hf. unfold log_matcher_match. destruct (lm_kind s) as [p|p o|p|p].
  - unfold log_matcher_posix_re_match. destruct (lib_regexec L p _ _); [|by intros [= _ <-]]. rewrite Hf. cbn. by intros [= _ <-].
  - unfold log_matcher_pcre_re_match. destruct (bool_decide (0 <= _)); cbn; [|done]. destruct (lib_pcre_exec L p value 0 o _) as [rc ov]. case_bool; [by intros [= _ <-]|]. case_bool; [by intros [= _ <-]|]. rewrite Hf. cbn. by intros [= _ <-].
  - by intros [= _ <-].
  - by intros [= _ <-].
Qed.
End dispatch.
