(* ===== verification/MatcherClaims.v ===== *)
(** * What matchers promise (lib/logmatcher.c)

    Strings are compared, searched and replaced as the flags say.  A replacement by a
    regular expression of PCRE finds its matches as Perl does, but for an empty one at the
    end of the value, and puts the formatted texts in their place.  Of the replacement by one of
    POSIX the examples at the end show where it goes wrong. *)
From S2P Require Import Prelude CString NVTable NVRegistry LogMsgData LogMatcher.

(** ** Strings *)

Lemma fold_length (ic : bool) (s : bytes) : length (fold_case ic s) = length s.
Proof. destruct ic; cbn; [apply length_fmap|done]. Qed.
Lemma fold_app (ic : bool) (s t : bytes) : fold_case ic (s ++ t) = fold_case ic s ++ fold_case ic t.
Proof. destruct ic; cbn; [apply fmap_app|done]. Qed.
Lemma fold_take (ic : bool) (n : nat) (s : bytes) : fold_case ic (take n s) = take n (fold_case ic s).
Proof. destruct ic; cbn; [apply fmap_take|done]. Qed.
Lemma fold_no_nul (ic : bool) (s : bytes) : no_nul s -> no_nul (fold_case ic s).
Proof. destruct ic; cbn; [|done]. unfold no_nul. rewrite Forall_fmap. intros F. eapply Forall_impl; [exact F|]. intros c Hc. cbn in *. unfold g_ascii_tolower. case_bool; lia. Qed.

Lemma strstr_first (s t p : cstr) : strstr s t = Some p -> forall a b, s = a ++ t ++ b -> (length s - length p <= length a)%nat.
Proof.
  revert p. induction s as [|c s IH]; intros p; rewrite strstr_eq.
  - destruct (starts_with [] t); [|done]. intros [= <-] a b _. cbn. lia.
  - destruct (starts_with (c :: s) t) eqn:E; [intros [= <-]; lia|]. intros Hs [|x a] b Hab.
    + assert (Hp : t `prefix_of` c :: s) by (exists b; exact Hab). apply starts_with_spec in Hp. congruence.
    + injection Hab as -> Hab. specialize (IH p Hs a b Hab). cbn. destruct (strstr_sound _ _ _ Hs) as (k & -> & _). rewrite length_app in *. lia.
Qed.
Lemma strstr_none (s t : cstr) : strstr s t = None -> forall a b, s <> a ++ t ++ b.
Proof.
  induction s as [|c s IH]; rewrite strstr_eq.
  - destruct (starts_with [] t) eqn:E; [done|]. intros _ a b Hab. symmetry in Hab. apply app_nil in Hab as [-> [-> ->]%app_nil]. done.
  - destruct (starts_with (c :: s) t) eqn:E; [done|]. intros Hs [|x a] b Hab.
    + assert (Hp : t `prefix_of` c :: s) by (exists b; exact Hab). apply starts_with_spec in Hp. congruence.
    + injection Hab as -> Hab. by eapply IH.
Qed.

(** [q] stands at [a] in [s] and equals [p], but for the case of letters if [ic]. *)
Definition occurs (ic : bool) (p s a q b : bytes) : Prop := s = a ++ q ++ b /\ fold_case ic q = fold_case ic p.
Lemma occurs_folded (ic : bool) (p s : bytes) (a' b' : bytes) : fold_case ic s = a' ++ fold_case ic p ++ b' -> exists a q b, occurs ic p s a q b /\ length a = length a'.
Proof.
  intros E. exists (take (length a') s), (take (length p) (drop (length a') s)), (drop (length p) (drop (length a') s)). split; [split|].
  - by rewrite !take_drop.
  - rewrite fold_take. assert (D : fold_case ic (drop (length a') s) = drop (length a') (fold_case ic s)) by (destruct ic; [apply fmap_drop|done]). rewrite D, E, drop_app_length, <- (fold_length ic p), take_app_length. done.
  - rewrite length_take. apply (f_equal length) in E. rewrite fold_length, !length_app in E. lia.
Qed.
Lemma find_string_spec (ic : bool) (s p : bytes) : no_nul s ->
  match find_string ic s p with
  | Some k => exists a q b, occurs ic p s a q b /\ lenZ a = k /\ forall a' q' b', occurs ic p s a' q' b' -> (length a <= length a')%nat
  | None => forall a q b, ~ occurs ic p s a q b
  end.
Proof.
  intros Hs. unfold find_string. rewrite up_to_nul_id by done. destruct (strstr (fold_case ic s) (fold_case ic p)) as [rest|] eqn:E.
  - destruct (strstr_sound _ _ _ E) as (k & Hk & rest' & ->). destruct (occurs_folded ic p s k rest' Hk) as (a & q & b & Ho & Hl). exists a, q, b. split; [done|].
    assert (L : lenZ a = lenZ s - lenZ (fold_case ic p ++ rest')). { unfold lenZ. apply (f_equal length) in Hk. rewrite fold_length, length_app in Hk. lia. } split; [exact L|].
    intros a' q' b' [-> Hq]. pose proof (strstr_first _ _ _ E (fold_case ic a') (fold_case ic b')) as F. rewrite !fold_app, Hq in F. specialize (F eq_refl). unfold lenZ in L. rewrite !length_app in F. rewrite !length_app in L. apply (f_equal length) in Hq. rewrite !fold_length in F. rewrite !fold_length in Hq. rewrite !fold_length in L. lia.
  - intros a q b [-> Hq]. eapply (strstr_none _ _ E (fold_case ic a) (fold_case ic b)). by rewrite !fold_app, Hq.
Qed.
Lemma strncmp_prefix (s t : cstr) : (length t <= length s)%nat -> strncmp_eq s t (length t) = true <-> t `prefix_of` s.
Proof.
  intros L. unfold strncmp_eq. rewrite bool_decide_eq_true, (take_app_length' t [0]), take_app_le by done. split.
  - intros <-. apply prefix_take.
  - intros [k ->]. by rewrite take_app_length.
Qed.
Lemma strncmp_whole (s t : cstr) : no_nul s -> (length t <= length s)%nat -> strncmp_eq s t (length s) = true <-> s = t.
Proof.
  intros Hs L. unfold strncmp_eq. rewrite bool_decide_eq_true, (take_app_length' s [0]) by done. split.
  - intros E. destruct (decide (length t = length s)) as [El|Nl]; [rewrite take_app_le, <- El, firstn_all in E by lia; congruence|].
    exfalso. rewrite take_ge in E by (rewrite length_app; cbn; lia). rewrite E in Hs. apply no_nul_app in Hs as [_ [Hn _]%no_nul_cons]. done.
  - intros ->. by rewrite take_app_length.
Qed.

(** Comparing a value with a string: equal, beginning with it or containing it, as
    the flags say, and without regard to the case of letters if asked for. *)
Theorem log_matcher_string_match_correct (flags : Z) (pattern value : bytes) (Hp : no_nul pattern) (Hv : no_nul value) :
  let ic := flag_set flags LMF_ICASE in
  log_matcher_string_match flags pattern value = true <->
    if bool_decide (Z.land flags (LMF_SUBSTRING + LMF_PREFIX) = 0) then fold_case ic value = fold_case ic pattern
    else if flag_set flags LMF_PREFIX then fold_case ic pattern `prefix_of` fold_case ic value
    else exists a q b, occurs ic pattern value a q b.
Proof.
  intros ic. unfold log_matcher_string_match. rewrite bool_decide_eq_true. unfold log_matcher_string_match_string. fold ic. unfold strncmp_case. rewrite up_to_nul_id by done.
  assert (Hf : no_nul (fold_case ic value)) by (by apply fold_no_nul). pose proof (fold_length ic value) as Lv. pose proof (fold_length ic pattern) as Lp.
  destruct (bool_decide_reflect (lenZ pattern > lenZ value)) as [L|L]; unfold lenZ in L.
  - split; [done|]. case_bool; [intros E%(f_equal length); lia|]. destruct (flag_set flags LMF_PREFIX); [intros E%prefix_length; lia|]. intros (a & q & b & -> & E%(f_equal length)). rewrite !length_app in L. rewrite !fold_length in E. lia.
  - case_bool; [rewrite <- Lv; destruct (strncmp_eq _ _ _) eqn:E; pose proof (strncmp_whole (fold_case ic value) (fold_case ic pattern) Hf ltac:(lia)) as W; rewrite E in W; [split; [intros _; by apply W|done]|split; [done|intros F; apply W in F; done]]|].
    destruct (flag_set flags LMF_PREFIX).
    + rewrite Nat.min_r, <- Lp by lia. pose proof (strncmp_prefix (fold_case ic value) (fold_case ic pattern) ltac:(lia)) as W. destruct (strncmp_eq _ _ _); [split; [intros _; by apply W|done]|split; [done|intros F; apply W in F; done]].
    + pose proof (find_string_spec ic value pattern Hv) as F. destruct (find_string ic value pattern) as [k|]; split; try done.
      * intros _. destruct F as (a & q & b & Ho & _). by exists a, q, b.
      * intros (a & q & b & Ho). by destruct (F a q b).
Qed.

(** ** Replacing strings *)

(** Each occurrence of [p], from the left, by [r]. *)
Inductive replaced (ic : bool) (p r : bytes) : bytes -> bytes -> Prop :=
  | replaced_end s : (forall a q b, ~ occurs ic p s a q b) -> replaced ic p r s s
  | replaced_next s a q b out : occurs ic p s a q b -> (forall a' q' b', occurs ic p s a' q' b' -> (length a <= length a')%nat) -> replaced ic p r b out -> replaced ic p r s (a ++ r ++ out).

Section replace.
Context {M : Type} `{MatchSink M}.
Variables (format : M -> bytes) (flags : Z) (pattern value : bytes) (m : M).
Hypothesis Hsub : flag_set flags LMF_SUBSTRING = true.
Hypothesis Hpre : flag_set flags LMF_PREFIX = false.
Hypothesis Hsto : flag_set flags LMF_STORE_MATCHES = false.
Hypothesis Hp : pattern <> [].
Hypothesis Hv : no_nul value.
Let ic := flag_set flags LMF_ICASE.

Lemma match_substring (s : bytes) : no_nul s ->
  match log_matcher_string_match_string flags pattern s with
  | Some k => exists a q b, occurs ic pattern s a q b /\ lenZ a = k /\ forall a' q' b', occurs ic pattern s a' q' b' -> (length a <= length a')%nat
  | None => forall a q b, ~ occurs ic pattern s a q b
  end.
Proof.
  intros Hs. unfold log_matcher_string_match_string. fold ic. rewrite Hpre. destruct (bool_decide_reflect (lenZ pattern > lenZ s)) as [L|L].
  - intros a q b [-> E%(f_equal length)]. unfold lenZ in L. rewrite !length_app in L. rewrite !fold_length in E. lia.
  - rewrite bool_decide_eq_false_2; [by apply find_string_spec|]. intros E. apply bool_decide_eq_true in Hsub. apply Hsub. change (LMF_SUBSTRING + LMF_PREFIX) with (Z.lor LMF_SUBSTRING LMF_PREFIX) in E. rewrite Z.land_lor_distr_r in E. by apply Z.lor_eq_0_iff in E as [? _].
Qed.
Lemma slice_at (cur k : Z) : 0 <= cur -> slice value cur k = take (Z.to_nat k) (drop (Z.to_nat cur) value).
Proof. done. Qed.
Lemma slice_rest (cur : Z) : 0 <= cur <= lenZ value -> slice value cur (lenZ value - cur) = drop (Z.to_nat cur) value.
Proof. intros Hc. unfold slice. apply take_ge. rewrite length_drop. unfold lenZ in *. lia. Qed.
Lemma occurs_step (cur : Z) (a q b : bytes) : 0 <= cur <= lenZ value -> occurs ic pattern (drop (Z.to_nat cur) value) a q b ->
  slice value cur (lenZ a) = a /\ lenZ q = lenZ pattern /\ 0 < lenZ q /\ 0 <= cur + lenZ a + lenZ pattern <= lenZ value /\ drop (Z.to_nat (cur + lenZ a + lenZ pattern)) value = b.
Proof.
  intros Hc [E F]. apply (f_equal length) in F. rewrite !fold_length in F. assert (Hq : lenZ q = lenZ pattern) by (unfold lenZ; lia). assert (0 < lenZ q) by (rewrite Hq; destruct pattern; [done|rewrite lenZ_cons; pose proof (lenZ_nonneg l); lia]).
  pose proof (lenZ_nonneg a). split_and!; [unfold slice; rewrite E; unfold lenZ; rewrite Nat2Z.id; apply take_app_length|done|done|lia| |].
  - apply (f_equal lenZ) in E. rewrite !lenZ_app, lenZ_drop in E. pose proof (lenZ_nonneg b). lia.
  - rewrite <- Hq. replace (Z.to_nat (cur + lenZ a + lenZ q)) with (Z.to_nat cur + (length a + length q))%nat by (unfold lenZ; lia). rewrite <- drop_drop, E, app_assoc, <- length_app. apply drop_app_length.
Qed.

Lemma string_replace_rest (fuel : nat) (cur : Z) (acc : bytes) : flag_set flags LMF_GLOBAL = true -> 0 <= cur <= lenZ value -> (length value - Z.to_nat cur < fuel)%nat ->
  exists out, string_replace_loop format fuel flags pattern value m cur false (Some acc) = Ret (Some (acc ++ out), m) /\ replaced ic pattern (format m) (drop (Z.to_nat cur) value) out.
Proof.
  intros Hg. revert cur acc. induction fuel as [|fuel IH]; intros cur acc Hc Hf; [lia|]. cbn [string_replace_loop]. case_bool.
  - exists []. rewrite app_nil_r. split; [done|]. rewrite drop_ge by (unfold lenZ in *; lia). constructor. intros a q b [E F]. symmetry in E. apply app_nil in E as [-> [-> ->]%app_nil]. apply Hp. apply length_zero_iff_nil. apply (f_equal length) in F. rewrite !fold_length in F. done.
  - pose proof (match_substring (drop (Z.to_nat cur) value) ltac:(by apply no_nul_drop)) as F. destruct (log_matcher_string_match_string _ _ _) as [k|].
    + destruct F as (a & q & b & Ho & <- & Hmin). destruct (occurs_step cur a q b Hc Ho) as (Es & Eq & Hq & Hbd & Ed). rewrite bool_decide_eq_false_2 by lia. cbn [andb]. rewrite !Z.add_0_r, Hsto, Hg. cbn [obind from_option id]. replace (cur + lenZ a - cur) with (lenZ a) by lia. rewrite Es.
      destruct (IH (cur + lenZ a + lenZ pattern) (acc ++ a ++ format m) Hbd) as (out & -> & R); [unfold lenZ in *; lia|]. rewrite Ed in R. exists (a ++ format m ++ out). split; [by rewrite <- !app_assoc|]. by apply replaced_next with q b.
    + exists (drop (Z.to_nat cur) value). cbn. rewrite slice_rest by done. split; [done|]. by constructor.
Qed.
End replace.

(** replacing a string in a value.  With the flag for all occurrences each one,
    from the left and not overlapping, is replaced by the text; without it the
    first; a value without an occurrence stays.  The search never runs out of
    rounds. *)
Theorem log_matcher_string_replace_correct {M : Type} `{MatchSink M} (format : M -> bytes) (flags : Z) (pattern value : bytes) (m : M)
  (Hsub : flag_set flags LMF_SUBSTRING = true) (Hpre : flag_set flags LMF_PREFIX = false) (Hsto : flag_set flags LMF_STORE_MATCHES = false) (Hp : pattern <> []) (Hv : no_nul value) :
  let ic := flag_set flags LMF_ICASE in
  exists result, log_matcher_string_replace format flags pattern value m = Ret (result, m) /\
    match result with
    | None => forall a q b, ~ occurs ic pattern value a q b
    | Some out => exists a q b, occurs ic pattern value a q b /\ (forall a' q' b', occurs ic pattern value a' q' b' -> (length a <= length a')%nat) /\
        if flag_set flags LMF_GLOBAL then replaced ic pattern (format m) value out else out = a ++ format m ++ b
    end.
Proof.
  intros ic. unfold log_matcher_string_replace. set (f := S (length value)). replace (length value + 2)%nat with (S f) by (subst f; lia). assert (Hf : (length value < f)%nat) by (subst f; lia). clearbody f. cbn [string_replace_loop]. destruct (bool_decide_reflect (0 = lenZ value)) as [Hb|Hb].
  - exists None. split; [done|]. symmetry in Hb. apply lenZ_zero_nil in Hb as ->. intros a q b [E F]. symmetry in E. apply app_nil in E as [-> [-> ->]%app_nil]. apply Hp, length_zero_iff_nil. apply (f_equal length) in F. by rewrite !fold_length in F.
  - pose proof (match_substring flags pattern Hsub Hpre (drop (Z.to_nat 0) value) ltac:(by apply no_nul_drop)) as F. destruct (log_matcher_string_match_string _ _ _) as [k|].
    + destruct F as (a & q & b & Ho & <- & Hmin). destruct (occurs_step flags pattern value Hp 0 a q b ltac:(pose proof (lenZ_nonneg value); lia) Ho) as (Es & Eq & Hq & Hbd & Ed). rewrite andb_false_r, !Z.add_0_r, !Z.add_0_l, Hsto in *. cbn [obind from_option id]. rewrite Z.sub_0_r, Es. destruct (flag_set flags LMF_GLOBAL) eqn:Hg.
      * destruct (string_replace_rest format flags pattern value m Hsub Hpre Hsto Hp Hv f (lenZ a + lenZ pattern) ([] ++ a ++ format m) Hg Hbd) as (out & E & R); [lia|]. rewrite E. eexists. split; [done|]. exists a, q, b. split; [done|]. split; [done|]. rewrite Ed in R. cbn [app]. rewrite <- app_assoc. by apply replaced_next with q b.
      * eexists. split; [done|]. exists a, q, b. split; [done|]. split; [done|]. rewrite slice_rest by done. rewrite Ed. cbn [app]. by rewrite <- app_assoc.
    + exists None. split; [done|]. exact F.
Qed.

(** ** Replacing matches of regular expressions *)

(** Begin, end and text of each replacement, behind [pos]. *)
Fixpoint splice (value : bytes) (pos : Z) (ps : list (Z * Z * bytes)) : bytes :=
  match ps with
  | [] => drop (Z.to_nat pos) value
  | (s, e, r) :: ps => slice value pos (s - pos) ++ r ++ splice value e ps
  end.
Fixpoint in_order (pos len : Z) (spans : list (Z * Z)) : Prop :=
  match spans with [] => pos <= len | (s, e) :: spans => pos <= s <= e /\ in_order e len spans end.
(** The part of [splice] up to the last replacement, and where that ends. *)
Fixpoint copied (value : bytes) (pos : Z) (ps : list (Z * Z * bytes)) : bytes :=
  match ps with [] => [] | (s, e, r) :: ps => slice value pos (s - pos) ++ r ++ copied value e ps end.
Fixpoint end_of (pos : Z) (ps : list (Z * Z * bytes)) : Z := match ps with [] => pos | (_, e, _) :: ps => end_of e ps end.
Lemma splice_copied (value : bytes) (ps : list (Z * Z * bytes)) (pos : Z) : splice value pos ps = copied value pos ps ++ drop (Z.to_nat (end_of pos ps)) value.
Proof. revert pos. induction ps as [|[[s e] r] ps IH]; intros pos; cbn; [done|]. by rewrite IH, <- !app_assoc. Qed.
Lemma in_order_end (len : Z) (ps : list (Z * Z * bytes)) (pos : Z) : 0 <= pos -> in_order pos len (ps.*1) -> 0 <= end_of pos ps <= len.
Proof. revert pos. induction ps as [|[[s e] r] ps IH]; intros pos H0 Ho; cbn in *; [lia|]. apply IH; [lia|tauto]. Qed.

Lemma at_index_ok (l : list Z) (i : nat) (x : Z) : l !! i = Some x -> at_index l (Z.of_nat i) = Ret x.
Proof. intros E. unfold at_index. by rewrite bool_decide_eq_true_2, Nat2Z.id, E by lia. Qed.

(** Which matches are replaced.  The matches follow each other as in Perl: the next
    one is searched where the last one ended; when that one was empty, first one that is not
    empty and starts right there, and if there is none, any from one byte further on. *)
Section pcre_matches.
Context {P : Type}.
Variable pcre_exec : P -> bytes -> Z -> Z -> Z -> Z * list Z.
Variable capture_count : P -> Z.
Variables (pattern : P) (match_options : Z) (value : bytes).
Abbreviation exec start options := (pcre_exec pattern value start (Z.lor match_options options) (matches_size capture_count pattern)).
Definition not_empty_here : Z := Z.lor PCRE_NOTEMPTY PCRE_ANCHORED.
(** What the library promises of a match: it lies in the value, not before the start, and is not empty where
    that was asked for. *)
Definition exec_ok : Prop := forall start options rc ov, exec start options = (rc, ov) -> 0 <= rc -> 0 <= start <= lenZ value -> options = 0 \/ options = not_empty_here ->
  exists so eo, ov !! 0%nat = Some so /\ ov !! 1%nat = Some eo /\ start <= so <= eo /\ eo <= lenZ value /\ (options = not_empty_here -> so < eo).
(** The result of a search with the array of offsets; begin and end of the match. *)
Definition hit : Type := Z * list Z.
Definition search (start options : Z) : option hit := if bool_decide (0 <= (exec start options).1) then Some (exec start options) else None.
Definition span (h : hit) : Z * Z := (default 0 (h.2 !! 0%nat), default 0 (h.2 !! 1%nat)).
Definition is_empty (h : hit) : bool := bool_decide ((span h).1 = (span h).2).
(** The match behind one that ended at [pos], [empty] or not. *)
Definition next_match (pos : Z) (empty : bool) : option hit :=
  if empty then
    match search pos not_empty_here with
    | Some h => Some h
    | None => if bool_decide ((exec pos not_empty_here).1 = PCRE_ERROR_NOMATCH /\ pos + 1 < lenZ value) then search (pos + 1) 0 else None
    end
  else search pos 0.
(** All matches behind; none is looked for at the end of the value. *)
Inductive matches_behind : Z -> bool -> list hit -> Prop :=
  | behind_end pos empty : lenZ value <= pos \/ next_match pos empty = None -> matches_behind pos empty []
  | behind_next pos empty h hs : pos < lenZ value -> next_match pos empty = Some h -> matches_behind (span h).2 (is_empty h) hs -> matches_behind pos empty (h :: hs).
Definition pcre_matches (global : bool) (hs : list hit) : Prop :=
  match hs with
  | [] => search 0 0 = None
  | h :: hs => search 0 0 = Some h /\ if global then matches_behind (span h).2 (is_empty h) hs else hs = []
  end.

Lemma search_ok (start options : Z) (h : hit) : exec_ok -> 0 <= start <= lenZ value -> options = 0 \/ options = not_empty_here -> search start options = Some h ->
  exec start options = h /\ 0 <= h.1 /\ at_index h.2 0 = Ret (span h).1 /\ at_index h.2 1 = Ret (span h).2 /\ start <= (span h).1 <= (span h).2 /\ (span h).2 <= lenZ value /\ (options = not_empty_here -> (span h).1 < (span h).2).
Proof.
  intros Hx Hs Ho. unfold search. case_bool; [|done]. intros [= <-]. destruct (exec start options) as [rc ov] eqn:E. destruct (Hx start options rc ov E) as (so & eo & E0 & E1 & R); [done..|].
  unfold span. cbn [fst snd] in *. rewrite E0, E1. cbn. split_and!; [done|done|exact (at_index_ok ov 0 so E0)|exact (at_index_ok ov 1 eo E1)|lia|lia|lia|]. apply R.
Qed.
Lemma search_none (start options : Z) : search start options = None <-> (exec start options).1 < 0.
Proof. unfold search. case_bool; split; (done || lia). Qed.
End pcre_matches.

Section pcre_replace.
Context {M : Type} `{MatchSink M} {P : Type}.
Variable pcre_exec : P -> bytes -> Z -> Z -> Z -> Z * list Z.
Variable capture_count name_count name_entry_size : P -> Z.
Variable name_table : P -> bytes.
Variable format : M -> bytes.
Variables (flags : Z) (pattern : P) (match_options value_handle : Z) (value : bytes).
Abbreviation exec start options := (pcre_exec pattern value start (Z.lor match_options options) (matches_size capture_count pattern)).
Abbreviation loop := (pcre_replace_loop format pcre_exec capture_count name_count name_entry_size name_table).
Abbreviation search_at := (search pcre_exec capture_count pattern match_options value).
Abbreviation next := (next_match pcre_exec capture_count pattern match_options value).
Abbreviation behind := (matches_behind pcre_exec capture_count pattern match_options value).

(** The groups of each match are stored in the message in turn, and the template is
    formatted from the message behind each. *)
Fixpoint replacements (m : M) (hs : list hit) : outcome (list (Z * Z * bytes) * M) :=
  match hs with
  | [] => Ret ([], m)
  | h :: hs =>
      let! m := pcre_store name_count name_entry_size name_table pattern m value_handle h.2 (if bool_decide (h.1 = 0) then matches_size capture_count pattern / 3 else h.1) value in
      let! (ps, m') := replacements m hs in
      Ret ((span h, format m) :: ps, m')
  end.
Lemma replacements_spans (hs : list hit) (m m' : M) (ps : list (Z * Z * bytes)) : replacements m hs = Ret (ps, m') -> ps.*1 = span <$> hs.
Proof.
  revert m ps. induction hs as [|h hs IH]; intros m ps; cbn [replacements]; [by intros [= <- _]|]. destruct (pcre_store _ _ _ _ _ _ _ _ _) as [m1|]; [|done]. cbn [obind]. destruct (replacements m1 hs) as [[ps1 m2]|] eqn:E; [|done]. cbn [obind]. intros [= <- ->]. cbn. f_equal. by eapply IH.
Qed.

Definition joined (nv : option bytes) (last : Z) (ps : list (Z * Z * bytes)) : option bytes := match ps with [] => nv | _ => Some (default [] nv ++ copied value last ps) end.
(** What the rounds of the loop give when [hs] are the matches they find. *)
Definition rounds (m : M) (last : Z) (nv : option bytes) (hs : list hit) : outcome (option bytes * Z * M) :=
  let! (ps, m') := replacements m hs in Ret (joined nv last ps, end_of last ps, m').
Lemma rounds_next (m : M) (last : Z) (nv : option bytes) (h : hit) (hs : list hit) : rounds m last nv (h :: hs) =
  let! m := pcre_store name_count name_entry_size name_table pattern m value_handle h.2 (if bool_decide (h.1 = 0) then matches_size capture_count pattern / 3 else h.1) value in
  rounds m (span h).2 (Some (default [] nv ++ slice value last ((span h).1 - last) ++ format m)) hs.
Proof.
  unfold rounds. cbn [replacements]. destruct (pcre_store _ _ _ _ _ _ _ _ _) as [m1|]; [|done]. cbn [obind]. destruct (replacements m1 hs) as [[ps m2]|]; [|done]. destruct (span h) as [so eo]. cbn. repeat f_equal. destruct ps; cbn; [by rewrite app_nil_r|by rewrite <- !app_assoc].
Qed.

Hypothesis Hexec : exec_ok pcre_exec capture_count pattern match_options value.
(** One round in which the search finds [h]. *)
Lemma loop_hit (fuel : nat) (m : M) (start last : Z) (empty : bool) (nv : option bytes) (h : hit) : 0 <= start <= lenZ value -> search_at start (if empty then not_empty_here else 0) = Some h ->
  loop (S fuel) flags pattern match_options value_handle value m start last empty nv =
    let! m := pcre_store name_count name_entry_size name_table pattern m value_handle h.2 (if bool_decide (h.1 = 0) then matches_size capture_count pattern / 3 else h.1) value in
    let nv := Some (default [] nv ++ slice value last ((span h).1 - last) ++ format m) in
    if flag_set flags LMF_GLOBAL && bool_decide ((span h).2 < lenZ value) then loop fuel flags pattern match_options value_handle value m (span h).2 (span h).2 (is_empty h) nv else Ret (nv, (span h).2, m).
Proof.
  intros Hs Hh. apply search_ok in Hh as (E & Hr & E0 & E1 & _); [|done|done|destruct empty; auto]. cbn [pcre_replace_loop]. unfold not_empty_here in E. rewrite E. destruct h as [rc ov]. cbn [fst snd] in *.
  rewrite (bool_decide_eq_false_2 (rc < 0 /\ _)), (bool_decide_eq_false_2 (rc < 0)) by lia. destruct (pcre_store _ _ _ _ _ _ _ _ _) as [m1|]; [|done]. cbn [obind]. by rewrite E0, E1.
Qed.
(** One round in which it finds nothing. *)
Lemma loop_miss (fuel : nat) (m : M) (start last : Z) (empty : bool) (nv : option bytes) : search_at start (if empty then not_empty_here else 0) = None ->
  loop (S fuel) flags pattern match_options value_handle value m start last empty nv =
    if empty && bool_decide ((exec start not_empty_here).1 = PCRE_ERROR_NOMATCH) && flag_set flags LMF_GLOBAL && bool_decide (start + 1 < lenZ value)
    then loop fuel flags pattern match_options value_handle value m (start + 1) last false nv else Ret (nv, last, m).
Proof.
  intros Hn%search_none. cbn [pcre_replace_loop]. unfold not_empty_here in *. destruct empty; destruct (pcre_exec _ _ _ _ _) as [rc ov]; cbn [fst andb negb] in *.
  - rewrite (bool_decide_eq_true_2 (rc < 0)) by lia. destruct (decide (rc = PCRE_ERROR_NOMATCH)) as [R|R]; [rewrite (bool_decide_eq_true_2 (rc = _)), bool_decide_eq_false_2 by tauto; done|by rewrite (bool_decide_eq_false_2 (rc = _)), bool_decide_eq_true_2].
  - rewrite (bool_decide_eq_true_2 (rc < 0)) by lia. by case_bool.
Qed.

(** The matches that are found from [start] on. *)
Definition found_from (start : Z) (empty : bool) (hs : list hit) : Prop :=
  match hs with [] => next start empty = None | h :: hs => next start empty = Some h /\ behind (span h).2 (is_empty h) hs end.
Lemma found_behind (start : Z) (empty : bool) (hs : list hit) : start < lenZ value -> found_from start empty hs -> behind start empty hs.
Proof. intros Hs. destruct hs as [|h hs]; cbn; [intros ?; constructor; by right|intros [? ?]; by constructor]. Qed.

(** A match from [start] on, and what the rest of the loop does behind it. *)
Lemma loop_rest (fuel : nat) (start last : Z) (empty : bool) (h : hit) : flag_set flags LMF_GLOBAL = true -> 0 <= last <= start -> start <= lenZ value -> search_at start (if empty then not_empty_here else 0) = Some h ->
  ((span h).2 < lenZ value -> exists hs, found_from (span h).2 (is_empty h) hs /\ in_order (span h).2 (lenZ value) (span <$> hs) /\
     forall m nv, loop fuel flags pattern match_options value_handle value m (span h).2 (span h).2 (is_empty h) nv = rounds m (span h).2 nv hs) ->
  exists hs, behind (span h).2 (is_empty h) hs /\ in_order last (lenZ value) (span <$> h :: hs) /\
    forall m nv, loop (S fuel) flags pattern match_options value_handle value m start last empty nv = rounds m last nv (h :: hs).
Proof.
  intros Hg Hl Hs Hh K. pose proof (search_ok _ _ _ _ _ start (if empty then not_empty_here else 0) h Hexec ltac:(lia) ltac:(destruct empty; auto) Hh) as (_ & _ & _ & _ & Ho & He & _).
  destruct (decide ((span h).2 < lenZ value)) as [L|L].
  - destruct (K L) as (hs & Hf & Hi & E). exists hs. split; [by apply found_behind|]. rewrite fmap_cons. destruct (span h) as [so eo] eqn:Sp. split; [cbn in *; split; [lia|done]|]. intros m1 nv1. rewrite (loop_hit fuel m1 start last empty nv1 h), rounds_next, Hg, Sp by (lia || exact Hh).
    destruct (pcre_store _ _ _ _ _ _ _ _ _) as [m2|]; [|done]. cbn [obind andb]. rewrite bool_decide_eq_true_2 by done. apply E.
  - exists []. split; [constructor; left; lia|]. cbn [fmap list_fmap]. destruct (span h) as [so eo] eqn:Sp. split; [cbn in *; lia|]. intros m1 nv1. rewrite (loop_hit fuel m1 start last empty nv1 h), rounds_next, Hg, Sp by (lia || exact Hh).
    destruct (pcre_store _ _ _ _ _ _ _ _ _) as [m2|]; [|done]. cbn [obind andb]. by rewrite bool_decide_eq_false_2.
Qed.

Lemma pcre_loop_found (fuel : nat) : flag_set flags LMF_GLOBAL = true -> forall (start last : Z) (empty : bool), 0 <= last <= start -> start <= lenZ value -> 2 * (lenZ value - start) + (if empty then 0 else 1) < Z.of_nat fuel ->
  exists hs, found_from start empty hs /\ in_order last (lenZ value) (span <$> hs) /\
    forall m nv, loop fuel flags pattern match_options value_handle value m start last empty nv = rounds m last nv hs.
Proof.
  intros Hg. induction fuel as [|fuel IH]; intros start last empty Hl Hs Hf; [destruct empty; lia|].
  destruct (search_at start (if empty then not_empty_here else 0)) as [h|] eqn:Hh.
  - pose proof (search_ok _ _ _ _ _ start (if empty then not_empty_here else 0) h Hexec ltac:(lia) ltac:(destruct empty; auto) Hh) as (_ & _ & _ & _ & Ho & He & Hne).
    destruct (loop_rest fuel start last empty h Hg Hl Hs Hh) as (hs & Hb & Hi & E).
    { intros L. apply IH; [lia|lia|]. unfold is_empty. case_bool; destruct empty; try lia; specialize (Hne eq_refl); lia. }
    exists (h :: hs). split; [|done]. cbn. split; [|done]. destruct empty; cbn; [by rewrite Hh|done].
  - destruct empty; cbn [next_match found_from] in *.
    + destruct (decide ((exec start not_empty_here).1 = PCRE_ERROR_NOMATCH /\ start + 1 < lenZ value)) as [[D1 D2]|D].
      * destruct (IH (start + 1) last false) as (hs & Hf' & Hi & E); [lia..|]. exists hs. split; [|split; [done|]].
        -- destruct hs; cbn in *; rewrite Hh, bool_decide_eq_true_2 by done; exact Hf'.
        -- intros m nv. rewrite loop_miss by done. rewrite !bool_decide_eq_true_2, Hg by done. cbn [andb]. apply E.
      * exists []. split; [cbn; by rewrite Hh, bool_decide_eq_false_2|]. split; [cbn; lia|]. intros m nv. rewrite loop_miss, Hg by done. cbn [andb]. rewrite andb_true_r, <- bool_decide_and, bool_decide_eq_false_2 by done. done.
    + exists []. split; [done|]. split; [cbn; lia|]. intros m nv. by rewrite loop_miss.
Qed.
(** The whole loop, with the flag for all matches or without it. *)
Lemma loop_whole (fuel : nat) : 2 * lenZ value + 1 < Z.of_nat fuel ->
  exists hs, pcre_matches pcre_exec capture_count pattern match_options value (flag_set flags LMF_GLOBAL) hs /\ in_order 0 (lenZ value) (span <$> hs) /\
    forall m, loop fuel flags pattern match_options value_handle value m 0 0 false None = rounds m 0 None hs.
Proof.
  intros Hf. pose proof (lenZ_nonneg value) as Hv. destruct (flag_set flags LMF_GLOBAL) eqn:Hg.
  - destruct (pcre_loop_found fuel Hg 0 0 false) as (hs & H1 & H2 & H3); [lia..|]. by exists hs.
  - destruct fuel as [|fuel]; [lia|]. destruct (search_at 0 0) as [h|] eqn:Hh.
    + pose proof (search_ok _ _ _ _ _ 0 0 h Hexec ltac:(lia) ltac:(by left) Hh) as (_ & _ & _ & _ & Ho & He & _). exists [h]. split; [done|]. split; [cbn [fmap list_fmap]; destruct (span h); cbn in *; lia|].
      intros m. rewrite (loop_hit fuel m 0 0 false None h), rounds_next, Hg by (done || lia). cbn [andb]. destruct (pcre_store _ _ _ _ _ _ _ _ _) as [m1|]; done.
    + exists []. split; [done|]. split; [done|]. intros m. by rewrite loop_miss.
Qed.
End pcre_replace.


Module MatcherDemo.
(** A message that remembers what was stored: number, offset and length of groups, names with their values. *)
Definition trace : Type := list (Z * Z * Z) * list (bytes * bytes).
#[local] Instance trace_sink : MatchSink trace := {
  sink_is_macro _ _ := Ret false;
  sink_set_match t i value := Ret (t.1 ++ [(i, -1, lenZ value)], t.2);
  sink_set_match_indirect t i _ _ ofs len := Ret (t.1 ++ [(i, ofs, len)], t.2);
  sink_clear_matches t := Ret ([], t.2);
  sink_set_named t name value := Ret (t.1, t.2 ++ [(name, value)]);
  sink_utf8 _ := true }.
Definition nothing : trace := ([], []).
Definition text (s : string) : trace -> bytes := fun _ => bytes_of_string s.

Definition global_substring : Z := Z.lor LMF_GLOBAL (Z.lor LMF_SUBSTRING LMF_ICASE).
Lemma log_matcher_string_replace_correct_witness : exists result, log_matcher_string_replace (text "-") global_substring (bytes_of_string "aB") (bytes_of_string "xabABy") nothing = Ret (result, nothing) /\
  match result with
  | None => forall a q b, ~ occurs true (bytes_of_string "aB") (bytes_of_string "xabABy") a q b
  | Some out => exists a q b, occurs true (bytes_of_string "aB") (bytes_of_string "xabABy") a q b /\ (forall a' q' b', occurs true (bytes_of_string "aB") (bytes_of_string "xabABy") a' q' b' -> (length a <= length a')%nat) /\
      replaced true (bytes_of_string "aB") (bytes_of_string "-") (bytes_of_string "xabABy") out
  end.
Proof. apply (log_matcher_string_replace_correct (text "-") global_substring (bytes_of_string "aB") (bytes_of_string "xabABy") nothing); [reflexivity|reflexivity|reflexivity|discriminate|repeat constructor; discriminate]. Defined.
Theorem string_replaced : log_matcher_string_replace (text "-") global_substring (bytes_of_string "aB") (bytes_of_string "xabABy") nothing = Ret (Some (bytes_of_string "x--y"), nothing).
Proof. vm_compute. reflexivity. Qed.

(** The pattern a*. *)
Definition exec_a (_ : unit) (value : bytes) (start options size : Z) : Z * list Z :=
  let n := Z.of_nat (strspn (drop (Z.to_nat start) value) [97]) in
  if flag_set options PCRE_NOTEMPTY && bool_decide (n = 0) then (-1, []) else (1, [start; start + n; 0]).
Definition zero (_ : unit) : Z := 0.
Definition no_names (_ : unit) : bytes := [].
Lemma exec_a_ok (value : bytes) : exec_ok exec_a zero tt 0 value.
Proof.
  intros start options rc ov. unfold exec_a. rewrite Z.lor_0_l. set (n := strspn _ _). pose proof (strspn_le (drop (Z.to_nat start) value) [97]) as Hn. fold n in Hn. rewrite length_drop in Hn. unfold lenZ.
  destruct (flag_set options PCRE_NOTEMPTY) eqn:Hf; destruct (bool_decide_reflect (Z.of_nat n = 0)) as [Z0|Z0]; cbn [andb]; intros [= <- <-] Hrc Hs Ho; try lia; exists start, (start + Z.of_nat n); split_and!; try done; try lia; intros ->; vm_compute in Hf; discriminate Hf.
Qed.

(** A message with the value baac as MESSAGE, and the registry with a name for the first group. *)
Definition reg : NVRegistry := nv_registry_new (bytes_of_string <$> ["HOST"; "HOST_FROM"; "MESSAGE"; "PROGRAM"; "PID"; "MSGID"; "SOURCE"; "LEGACY_MSGHDR"; "0"])%string 4294967295.
Definition baac : bytes := bytes_of_string "baac".
Definition a_message : outcome msg_state :=
  let! (st, m) := log_msg_new_empty (mkStore ∅ ∅ ∅ 1) in
  let! (st, m) := log_msg_set_value reg st m 3 baac in
  Ret (mkMS reg st m).
Definition message : msg_state := Eval vm_compute in match a_message with Ret s => s | Abort => mkMS reg (mkStore ∅ ∅ ∅ 1) (mkMsg 0 0 0 0 0 0 0 0 false None) end.
#[local] Instance real_sink : MatchSink msg_state := message_sink (fun _ _ => []) [9].
(** The template [$0], with the brackets. *)
Definition first_group (s : msg_state) : bytes := match log_msg_get_value (fun _ => []) (ms_reg s) (ms_store s) (ms_msg s) 9 with Ret (v, _) => 91 :: v ++ [93] | Abort => [] end.
Example message_made : a_message = Ret message.
Proof. vm_compute. reflexivity. Qed.
Example groups_replaced : match log_matcher_pcre_re_replace first_group exec_a zero zero zero no_names LMF_GLOBAL tt 0 message 3 baac with Ret (Some out, _) => out = bytes_of_string "[]b[aa][]c" | _ => False end.
Proof. vm_compute. reflexivity. Qed.
(** The matches of that: empty at 0, the two letters, empty behind them. *)
Example matches_of_baac : pcre_matches exec_a zero tt 0 baac true [(1, [0; 0; 0]); (1, [1; 3; 0]); (1, [3; 3; 0])].
Proof.
  split; [vm_compute; reflexivity|]. apply behind_next; [vm_compute; reflexivity..|]. apply behind_next; [vm_compute; reflexivity..|]. apply behind_end. right. vm_compute. reflexivity.
Qed.

(** The comment in the source promises a text behind the last character too. *)
Theorem pcre_replace_misses_end : exists m', log_matcher_pcre_re_replace (text "#") exec_a zero zero zero no_names LMF_GLOBAL tt 0 nothing 0 (bytes_of_string "message") = Ret (Some (bytes_of_string "#m#e#s#s##g#e"), m').
Proof. eexists. vm_compute. reflexivity. Qed.

(** Two named groups of which the first is not set: the entry of the first is looked at twice. *)
Theorem pcre_names_stuck : named_loop 2 4 [0; 1; 97; 0; 0; 2; 98; 0] nothing [0; 1; -1; -1; 0; 1] (bytes_of_string "x") = Ret nothing.
Proof. vm_compute. reflexivity. Qed.

(** The pattern x|$: the next x, or the end. *)
Definition exec_x (_ : unit) (s : cstr) (notbol : bool) : option (list (Z * Z)) := let n := Z.of_nat (strcspn s [120]) in Some [(n, if bool_decide (n = lenZ s) then n else n + 1)].
Theorem posix_replace_leaves_buffer : log_matcher_posix_re_replace (text "-") exec_x LMF_GLOBAL tt nothing 3 (bytes_of_string "xab") = Abort.
Proof. vm_compute. reflexivity. Qed.
(** The second x stands at 2, its group is stored with the offset from behind the first one. *)
Theorem posix_groups_relative : log_matcher_posix_re_replace (text "-") exec_x LMF_GLOBAL tt nothing 3 (bytes_of_string "xax") = Ret (Some (bytes_of_string "-a-"), ([(0, 0, 1); (0, 1, 1)], [])).
Proof. vm_compute. reflexivity. Qed.
End MatcherDemo.
