(* ===== verification/FilterTree.v ===== *)
(** * Trees of filters (lib/filter.c, logpipe.h)

    Expressions combine tests by and, or and negation; a filter() expression stands
    for the expression of a rule with a name, which is looked up when the
    pipe is started.  The tests themselves are a parameter here. *)
From S2P Require Import Prelude.

(** [comp]: negated; [modify]: may change the message.  A call has a number, its address. *)
Inductive FilterExprNode (L : Type) :=
  | FilterLeaf (comp modify : bool) (test : L)
  | FilterOp (comp modify is_or : bool) (left right : FilterExprNode L)
  | FilterCall (comp : bool) (id : Z) (rule : bytes).
Arguments FilterLeaf {L}. Arguments FilterOp {L}. Arguments FilterCall {L}.

Section tree.
Context {L : Type}.
Abbreviation node := (FilterExprNode L).

Definition expr_modify (e : node) : bool := match e with FilterLeaf _ modify _ => modify | FilterOp _ modify _ _ _ => modify | FilterCall _ _ _ => false end.
Definition fop_or_new (e1 e2 : node) : node := FilterOp false (expr_modify e1 || expr_modify e2) true e1 e2.
Definition fop_and_new (e1 e2 : node) : node := FilterOp false (expr_modify e1 || expr_modify e2) false e1 e2.

(** ** Starting *)

(** The pipes of filters, and the first pipe of each rule. *)
Record filter_conf := mkFConf { fc_pipes : gmap Z node; fc_filters : gmap bytes Z }.
(** [filter_expr] and [visited] of the calls, [PIF_INITIALIZED] of the pipes. *)
Record filter_state := mkFState { fs_target : gmap Z node; fs_visited : gset Z; fs_initialized : gset Z }.

Variable conf : filter_conf.
(** [log_pipe_init] of a pipe of filters, where [init] is that of its expression. *)
Definition pipe_init (init : node -> filter_state -> outcome (bool * filter_state)) (p : Z) (s : filter_state) : outcome (bool * filter_state) :=
  if bool_decide (p ∈ fs_initialized s) then Ret (true, s)
  else
    match fc_pipes conf !! p with
    | None => Abort
    | Some e =>
        let! (ok, s) := init e s in
        Ret (ok, if ok : bool then mkFState (fs_target s) (fs_visited s) ({[p]} ∪ fs_initialized s) else s)
    end.
Definition filter_call_init (pipe : Z -> filter_state -> outcome (bool * filter_state)) (id : Z) (rule : bytes) (s : filter_state) : outcome (bool * filter_state) :=
  if bool_decide (id ∈ fs_visited s) then Ret (false, s)
  else
    let s := mkFState (fs_target s) ({[id]} ∪ fs_visited s) (fs_initialized s) in
    match fc_filters conf !! rule with
    | None => Ret (false, s)
    | Some p =>
        let! (ok, s) := pipe p s in
        if ok : bool then
          match fc_pipes conf !! p with
          | None => Abort
          | Some e => Ret (true, mkFState (<[id := e]> (fs_target s)) (fs_visited s ∖ {[id]}) (fs_initialized s))
          end
        else Ret (false, s)
    end.
Fixpoint fop_init (call : Z -> bytes -> filter_state -> outcome (bool * filter_state)) (e : node) (s : filter_state) : outcome (bool * filter_state) :=
  match e with
  | FilterLeaf _ _ _ => Ret (true, s)
  | FilterOp _ _ _ l r => let! (ok, s) := fop_init call l s in if ok : bool then fop_init call r s else Ret (false, s)
  | FilterCall _ id rule => call id rule s
  end.
(** The fuel bounds how deep calls are nested. *)
Fixpoint filter_init (fuel : nat) (e : node) (s : filter_state) : outcome (bool * filter_state) :=
  match fuel with
  | O => Abort
  | S fuel => fop_init (filter_call_init (pipe_init (filter_init fuel))) e s
  end.
Definition log_filter_pipe_init (fuel : nat) (p : Z) (s : filter_state) : outcome (bool * filter_state) := pipe_init (filter_init fuel) p s.
Definition not_started : filter_state := mkFState ∅ ∅ ∅.

(** ** Evaluating *)

Section eval.
Context {M : Type}.
(** A test gives its result and the message after it. *)
Variable test : L -> M -> outcome (bool * M).

Definition filter_call_eval (eval : node -> M -> outcome (bool * M)) (s : filter_state) (id : Z) (m : M) : outcome (bool * M) :=
  match fs_target s !! id with Some e => eval e m | None => Ret (false, m) end.
Fixpoint fop_eval (call : Z -> M -> outcome (bool * M)) (e : node) (m : M) : outcome (bool * M) :=
  match e with
  | FilterLeaf comp _ t => let! (b, m) := test t m in Ret (xorb b comp, m)
  | FilterOp comp _ is_or l r =>
      let! (b, m) := fop_eval call l m in
      let! (b, m) := (if Bool.eqb b is_or then Ret (b, m) else fop_eval call r m) in
      Ret (xorb b comp, m)
  | FilterCall comp id _ => let! (b, m) := call id m in Ret (xorb b comp, m)
  end.
Fixpoint filter_expr_eval (fuel : nat) (s : filter_state) (e : node) (m : M) : outcome (bool * M) :=
  match fuel with
  | O => Abort
  | S fuel => fop_eval (filter_call_eval (filter_expr_eval fuel s) s) e m
  end.

(** ** What an expression means *)

(** An expression in which the rules it names are written out. *)
Inductive formula :=
  | Test (t : L)
  | Not (f : formula)
  | And (f g : formula)
  | Or (f g : formula).
Definition negate (comp : bool) (f : formula) : formula := if comp then Not f else f.
Fixpoint holds (f : formula) (m : M) : outcome (bool * M) :=
  match f with
  | Test t => test t m
  | Not f => let! (b, m) := holds f m in Ret (negb b, m)
  | And f g => let! (b, m) := holds f m in if b : bool then holds g m else Ret (false, m)
  | Or f g => let! (b, m) := holds f m in if b : bool then Ret (true, m) else holds g m
  end.
End eval.

(** [f] is [e] with the rules written out, [n] how deep they are nested. *)
Inductive means : nat -> node -> formula -> Prop :=
  | means_leaf n comp modify t : means n (FilterLeaf comp modify t) (negate comp (Test t))
  | means_op n comp modify is_or l r f g : means n l f -> means n r g -> means n (FilterOp comp modify is_or l r) (negate comp (if is_or : bool then Or f g else And f g))
  | means_call n comp id rule p e f : fc_filters conf !! rule = Some p -> fc_pipes conf !! p = Some e -> means n e f -> means (S n) (FilterCall comp id rule) (negate comp f).
(** The same with the rules that were found at the start. *)
Inductive resolved (s : filter_state) : nat -> node -> formula -> Prop :=
  | resolved_leaf n comp modify t : resolved s n (FilterLeaf comp modify t) (negate comp (Test t))
  | resolved_op n comp modify is_or l r f g : resolved s n l f -> resolved s n r g -> resolved s n (FilterOp comp modify is_or l r) (negate comp (if is_or : bool then Or f g else And f g))
  | resolved_call n comp id rule e f : fs_target s !! id = Some e -> resolved s n e f -> resolved s (S n) (FilterCall comp id rule) (negate comp f).
Hint Constructors means resolved : core.

Section eval_lemmas.
Context {M : Type}.
Variable test : L -> M -> outcome (bool * M).

Lemma holds_negate (comp : bool) (f : formula) (m : M) : holds test (negate comp f) m = (let! (b, m) := holds test f m in Ret (xorb b comp, m)).
Proof. destruct comp; cbn; destruct (holds test f m) as [[b m']|]; cbn; [by destruct b|done|by rewrite xorb_false_r|done]. Qed.
Lemma eval_resolved (s : filter_state) (n : nat) (e : node) (f : formula) : resolved s n e f -> forall fuel m, (n < fuel)%nat -> filter_expr_eval test fuel s e m = holds test f m.
Proof.
  induction 1 as [n comp modify t|n comp modify is_or l r f g _ IHl _ IHr|n comp id rule e f Ht _ IH]; intros fuel m Hf; (destruct fuel as [|fuel]; [lia|]); cbn [filter_expr_eval fop_eval]; rewrite holds_negate.
  - done.
  - specialize (IHl (S fuel) m Hf). cbn [filter_expr_eval] in IHl. rewrite IHl. destruct is_or; cbn [holds]; destruct (holds test f m) as [[[] m']|]; cbn [obind Bool.eqb]; try done; specialize (IHr (S fuel) m' Hf); cbn [filter_expr_eval] in IHr; by rewrite IHr.
  - unfold filter_call_eval. rewrite Ht, IH by lia. done.
Qed.
End eval_lemmas.

(** ** Starting finds loops *)

Fixpoint calls (e : node) : list (Z * bytes) :=
  match e with FilterLeaf _ _ _ => [] | FilterOp _ _ _ l r => calls l ++ calls r | FilterCall _ id rule => [(id, rule)] end.
(** A call belongs to one expression (which clones of its pipe share), and rules have a pipe. *)
Record calls_ok : Prop := {
  co_owner : forall p1 p2 e1 e2 i r1 r2, fc_pipes conf !! p1 = Some e1 -> fc_pipes conf !! p2 = Some e2 -> (i, r1) ∈ calls e1 -> (i, r2) ∈ calls e2 -> e1 = e2 /\ r1 = r2;
  co_pipe : forall rule p, fc_filters conf !! rule = Some p -> is_Some (fc_pipes conf !! p) }.
Hypothesis Hok : calls_ok.

Lemma means_mono (n k : nat) (e : node) (f : formula) : means n e f -> (n <= k)%nat -> means k e f.
Proof. intros H. revert k. induction H; intros k Hk; [done|by constructor; auto|]. destruct k as [|k]; [lia|]. econstructor; eauto. apply IHmeans. lia. Qed.
Lemma resolved_mono (s : filter_state) (n k : nat) (e : node) (f : formula) : resolved s n e f -> (n <= k)%nat -> resolved s k e f.
Proof. intros H. revert k. induction H; intros k Hk; [done|by constructor; auto|]. destruct k as [|k]; [lia|]. econstructor; eauto. apply IHresolved. lia. Qed.
Lemma means_dec (n : nat) (e : node) : {exists f, means n e f} + {~ exists f, means n e f}.
Proof.
  revert e. induction n as [|n IHn]; induction e as [comp modify t|comp modify is_or l IHl r IHr|comp id rule]; try (left; eexists; by constructor).
  - destruct IHl as [Hl|Hl]; [|right; intros (f & Hf); inversion Hf; subst; eauto]. destruct IHr as [Hr|Hr]; [|right; intros (f & Hf); inversion Hf; subst; eauto]. left. destruct Hl as (f & Hf), Hr as (g & Hg). eexists. by constructor.
  - right. intros (f & Hf). inversion Hf.
  - destruct IHl as [Hl|Hl]; [|right; intros (f & Hf); inversion Hf; subst; eauto]. destruct IHr as [Hr|Hr]; [|right; intros (f & Hf); inversion Hf; subst; eauto]. left. destruct Hl as (f & Hf), Hr as (g & Hg). eexists. by constructor.
  - destruct (fc_filters conf !! rule) as [p|] eqn:Ep; [|right; intros (f & Hf); inversion Hf; congruence]. destruct (fc_pipes conf !! p) as [e|] eqn:Ee; [|right; intros (f & Hf); inversion Hf; congruence].
    destruct (IHn e) as [H|H]; [left; destruct H as (f & Hf); eexists; econstructor; eauto|]. right. intros (f & Hf). inversion Hf; subst. simplify_eq. eauto.
Qed.
Lemma means_least (n : nat) (e : node) (f : formula) : means n e f -> exists k g, (k <= n)%nat /\ means k e g /\ forall j, (j < k)%nat -> ~ exists h, means j e h.
Proof.
  revert f. induction n as [|n IH]; intros f Hf; [exists 0%nat, f; split_and!; [lia|done|lia]|]. destruct (means_dec n e) as [(g & Hg)|Hn].
  - destruct (IH g Hg) as (k & h & Hk & R). exists k, h. split; [lia|done].
  - exists (S n), f. split_and!; [lia|done|]. intros j Hj (h & Hh). apply Hn. exists h. eapply means_mono; [done|lia].
Qed.

(** Part of the expression of a pipe. *)
Definition part (e : node) : Prop := exists p e0, fc_pipes conf !! p = Some e0 /\ calls e ⊆ calls e0.
Record init_inv (s : filter_state) : Prop := {
  ii_target : forall i e, fs_target s !! i = Some e -> exists p0 e0 r p, fc_pipes conf !! p0 = Some e0 /\ (i, r) ∈ calls e0 /\ fc_filters conf !! r = Some p /\ fc_pipes conf !! p = Some e;
  ii_initialized : forall p, p ∈ fs_initialized s -> exists e n f, fc_pipes conf !! p = Some e /\ means n e f /\ resolved s n e f }.
Definition extends (s s' : filter_state) : Prop := forall i e, fs_target s !! i = Some e -> fs_target s' !! i = Some e.
Lemma resolved_extends (s s' : filter_state) (n : nat) (e : node) (f : formula) : extends s s' -> resolved s n e f -> resolved s' n e f.
Proof. intros X H. induction H; econstructor; eauto. Qed.
(** What starting [e] from [s] gives. *)
Definition sound (e : node) (s : filter_state) (r : outcome (bool * filter_state)) : Prop := forall ok s', r = Ret (ok, s') ->
  init_inv s' /\ extends s s' /\ (ok = true -> fs_visited s' = fs_visited s /\ exists n f, means n e f /\ resolved s' n e f).

Lemma fop_sound (call : Z -> bytes -> filter_state -> outcome (bool * filter_state)) (e : node) : (forall comp id rule s, part (FilterCall comp id rule) -> init_inv s -> sound (FilterCall comp id rule) s (call id rule s)) ->
  forall s, part e -> init_inv s -> sound e s (fop_init call e s).
Proof.
  intros Hc. induction e as [comp modify t|comp modify is_or l IHl r IHr|comp id rule]; intros s Hp Hs; cbn [fop_init].
  - intros ok s' [= <- <-]. split; [done|]. split; [by intros i e|]. intros _. split; [done|]. exists 0%nat. eexists. by split.
  - intros ok s'. destruct (fop_init call l s) as [[okl s1]|] eqn:El; cbn [obind]; [|done]. destruct Hp as (p & e0 & Hpe & Hsub). cbn in Hsub.
    assert (Pl : part l) by (exists p, e0; split; [done|]; intros x Hx; apply Hsub; set_solver). assert (Pr : part r) by (exists p, e0; split; [done|]; intros x Hx; apply Hsub; set_solver).
    destruct (IHl s Pl Hs okl s1 El) as (I1 & X1 & R1). destruct okl; [|intros [= <- <-]; done]. intros Er. destruct (IHr s1 Pr I1 ok s' Er) as (I2 & X2 & R2). split; [done|]. split; [by intros i e ?%X1%X2|].
    intros Ho. destruct (R1 eq_refl) as (V1 & n1 & f1 & M1 & S1), (R2 Ho) as (V2 & n2 & f2 & M2 & S2). split; [congruence|]. exists (Nat.max n1 n2). eexists. split; constructor.
    { eapply means_mono; [exact M1|lia]. } { eapply means_mono; [exact M2|lia]. } { eapply resolved_mono; [eapply resolved_extends; [exact X2|exact S1]|lia]. } { eapply resolved_mono; [exact S2|lia]. }
  - by apply Hc.
Qed.
Lemma pipe_sound (init : node -> filter_state -> outcome (bool * filter_state)) (p : Z) (e : node) (s : filter_state) : fc_pipes conf !! p = Some e -> (forall s, init_inv s -> sound e s (init e s)) -> init_inv s -> sound e s (pipe_init init p s).
Proof.
  intros He Hi Hs ok s'. unfold pipe_init. destruct (bool_decide_reflect (p ∈ fs_initialized s)) as [Hp|Hp].
  - intros [= <- <-]. destruct (ii_initialized s Hs p Hp) as (e' & n & f & E & Hm & Hr). simplify_eq. split; [done|]. split; [by intros i x|]. intros _. split; [done|]. by exists n, f.
  - rewrite He. destruct (init e s) as [[ok1 s1]|] eqn:Ei; cbn [obind]; [|done]. intros [= <- <-]. destruct (Hi s Hs ok1 s1 Ei) as ([T I] & X & R). destruct ok1; [|split; [by split|]; split; [exact X|done]]. destruct (R eq_refl) as (V & n & f & Hm & Hr).
    assert (Xr : extends s1 (mkFState (fs_target s1) (fs_visited s1) ({[p]} ∪ fs_initialized s1))) by (intros i x Hx; exact Hx). split; [split|].
    + exact T.
    + intros q [->%elem_of_singleton|Hq]%elem_of_union; [exists e, n, f; split_and!; [done|done|by eapply resolved_extends]|]. destruct (I q Hq) as (e' & n' & f' & ? & ? & ?). exists e', n', f'. split_and!; [done|done|by eapply resolved_extends].
    + split; [done|]. intros _. split; [done|]. exists n, f. split; [done|by eapply resolved_extends].
Qed.
Lemma visit_inv (s : filter_state) (v : gset Z) : init_inv s -> init_inv (mkFState (fs_target s) v (fs_initialized s)).
Proof.
  intros [T I]. split; [exact T|]. intros q Hq. destruct (I q Hq) as (e & n & f & ? & ? & R). exists e, n, f. split_and!; [done|done|]. eapply resolved_extends; [|exact R]. intros i x Hx. exact Hx.
Qed.
Lemma call_sound (pipe : Z -> filter_state -> outcome (bool * filter_state)) (comp : bool) (id : Z) (rule : bytes) (s : filter_state) : (forall p e s, fc_pipes conf !! p = Some e -> init_inv s -> sound e s (pipe p s)) ->
  part (FilterCall comp id rule) -> init_inv s -> sound (FilterCall comp id rule) s (filter_call_init pipe id rule s).
Proof.
  intros Hp (p0 & e0 & Hpe0 & Hsub) Hs ok s'. assert (Hid : (id, rule) ∈ calls e0) by (apply Hsub; cbn; set_solver). unfold filter_call_init. destruct (bool_decide_reflect (id ∈ fs_visited s)) as [Hv|Hv]; [intros [= <- <-]; split_and!; [done|by intros i x|done]|].
  set (s1 := mkFState _ _ _). assert (I1 : init_inv s1) by (by apply visit_inv).
  destruct (fc_filters conf !! rule) as [p|] eqn:Ef; [|intros [= <- <-]; split_and!; [done|intros i x Hx; exact Hx|done]]. destruct (co_pipe Hok rule p Ef) as [e He]. destruct (pipe p s1) as [[ok1 s2]|] eqn:Ep; cbn [obind]; [|done]. destruct (Hp p e s1 He I1 ok1 s2 Ep) as (I2 & X2 & R2). destruct ok1; [|intros [= <- <-]; split_and!; [done|intros i x Hx; by apply X2|done]].
  rewrite He. intros [= <- <-]. destruct (R2 eq_refl) as (V2 & n & f & Hm & Hr). set (s3 := mkFState _ _ _).
  assert (X3 : extends s2 s3). { intros i x Hx. cbn. destruct (decide (i = id)) as [->|Hne]; [|by rewrite lookup_insert_ne]. rewrite lookup_insert_eq. destruct (ii_target s2 I2 id x Hx) as (p1 & e1 & r1 & q & Hp1 & Hin & Hq & Hx'). destruct (co_owner Hok _ _ _ _ _ _ _ Hpe0 Hp1 Hid Hin) as [_ <-]. congruence. }
  split; [split|split].
  - intros i x. cbn. destruct (decide (i = id)) as [->|Hne]; [rewrite lookup_insert_eq; intros [= <-]; by exists p0, e0, rule, p|rewrite lookup_insert_ne by done; apply I2].
  - intros q Hq. destruct (ii_initialized s2 I2 q Hq) as (e' & n' & f' & ? & ? & ?). exists e', n', f'. split_and!; [done|done|by eapply resolved_extends].
  - intros i x Hx. by apply X3, X2.
  - intros _. split; [cbn; rewrite V2; cbn; set_solver|]. exists (S n), (negate comp f). split; [by econstructor|]. econstructor; [cbn; by rewrite lookup_insert_eq|by eapply resolved_extends].
Qed.
Lemma init_sound (fuel : nat) : forall e s, part e -> init_inv s -> sound e s (filter_init fuel e s).
Proof.
  induction fuel as [|fuel IH]; intros e s Hp Hs; [done|]. cbn [filter_init]. apply fop_sound; [|done|done]. intros comp id rule s0 Hp0 Hs0. apply call_sound; [|done|done]. intros p e1 s1 He1 Hs1. apply pipe_sound; [done| |done]. intros s2 Hs2. apply IH; [by exists p, e1|done].
Qed.

(** Each call that is entered has not been entered before. *)
Definition all_ids : gset Z := list_to_set (map_to_list (fc_pipes conf) ≫= fun pe => (calls pe.2).*1).
Lemma part_ids (comp : bool) (id : Z) (rule : bytes) : part (FilterCall comp id rule) -> id ∈ all_ids.
Proof.
  intros (p & e0 & Hpe & Hsub). apply elem_of_list_to_set, list_elem_of_bind. exists (p, e0). split; [|by apply elem_of_map_to_list]. apply list_elem_of_fmap. exists (id, rule). split; [done|]. apply Hsub. cbn. set_solver.
Qed.
Definition unvisited (s : filter_state) : nat := size (all_ids ∖ fs_visited s).
Lemma part_op (comp modify is_or : bool) (l r : node) : part (FilterOp comp modify is_or l r) -> part l /\ part r.
Proof. intros (p & e0 & Hpe & Hsub). cbn in Hsub. split; exists p, e0; (split; [done|]); intros x Hx; apply Hsub; set_solver. Qed.
Lemma init_total (fuel : nat) : forall e s, part e -> init_inv s -> (unvisited s < fuel)%nat -> exists ok s', filter_init fuel e s = Ret (ok, s').
Proof.
  induction fuel as [|fuel IH]; intros e s Hp Hs Hf; [lia|]. cbn [filter_init]. set (call := filter_call_init _).
  assert (Hcs : forall comp id rule s, part (FilterCall comp id rule) -> init_inv s -> sound (FilterCall comp id rule) s (call id rule s)).
  { intros comp id rule s0 Hp0 Hs0. apply call_sound; [|done|done]. intros p e1 s1 He1 Hs1. apply pipe_sound; [done| |done]. intros s2 Hs2. apply init_sound; [by exists p, e1|done]. }
  assert (Hct : forall comp id rule s, part (FilterCall comp id rule) -> init_inv s -> (unvisited s < S fuel)%nat -> exists ok s', call id rule s = Ret (ok, s')).
  { intros comp id rule s0 Hp0 Hs0 Hf0. subst call. unfold filter_call_init. destruct (bool_decide_reflect (id ∈ fs_visited s0)) as [Hv|Hv]; [by eexists _, _|]. set (s1 := mkFState _ _ _).
    destruct (fc_filters conf !! rule) as [p|] eqn:Ef; [|by eexists _, _]. destruct (co_pipe Hok rule p Ef) as [e1 He1]. rewrite He1.
    assert (Hu : (unvisited s1 < fuel)%nat). { unfold unvisited in *. assert (Hsub : all_ids ∖ fs_visited s1 ⊂ all_ids ∖ fs_visited s0). { split; [cbn; set_solver|]. intros C. pose proof (part_ids comp id rule Hp0) as Hi. cbn in C. set_solver. } apply subset_size in Hsub. lia. }
    assert (I1 : init_inv s1) by (by apply visit_inv).
    unfold pipe_init. destruct (bool_decide (p ∈ fs_initialized s1)); cbn [obind]; [by eexists _, _|]. rewrite He1. destruct (IH e1 s1 ltac:(by exists p, e1) I1 Hu) as (ok & s2 & ->). cbn [obind]. destruct ok; by eexists _, _. }
  revert s Hp Hs Hf. induction e as [comp modify t|comp modify is_or l IHl r IHr|comp id rule]; intros s Hp Hs Hf; cbn [fop_init]; [by eexists _, _| |by eapply Hct].
  destruct (part_op _ _ _ _ _ Hp) as [Pl Pr]. destruct (IHl s Pl Hs Hf) as (okl & s1 & E). rewrite E. cbn [obind]. destruct okl; [|by eexists _, _]. destruct (fop_sound call l Hcs s Pl Hs true s1 E) as (I1 & _ & R). destruct (R eq_refl) as (V & _). apply IHr; [done|done|]. unfold unvisited in *. by rewrite V.
Qed.

(** A finite expression is never taken for a loop: what is being started is nested deeper than [n]. *)
Definition deeper (n : nat) (s : filter_state) : Prop := forall i p e r, i ∈ fs_visited s -> fc_pipes conf !! p = Some e -> (i, r) ∈ calls e -> ~ exists f, means n e f.
Lemma init_complete (n : nat) : forall fuel p0 e0 f0 s ok s', fc_pipes conf !! p0 = Some e0 -> means n e0 f0 -> (forall j, (j < n)%nat -> ~ exists h, means j e0 h) -> init_inv s -> deeper n s -> filter_init fuel e0 s = Ret (ok, s') -> ok = true.
Proof.
  induction n as [n IH] using lt_wf_ind. intros fuel p0 e0 f0 s ok s' Hp0 Hm0 Hl Hs Hd. destruct fuel as [|fuel]; [done|]. cbn [filter_init]. set (call := filter_call_init _).
  assert (Hcs : forall comp id rule s, part (FilterCall comp id rule) -> init_inv s -> sound (FilterCall comp id rule) s (call id rule s)).
  { intros comp id rule s0 Hp1 Hs0. apply call_sound; [|done|done]. intros p e1 s1 He1 Hs1. apply pipe_sound; [done| |done]. intros s2 Hs2. apply init_sound; [by exists p, e1|done]. }
  assert (G : forall e f s ok s', calls e ⊆ calls e0 -> means n e f -> init_inv s -> deeper n s -> fop_init call e s = Ret (ok, s') -> ok = true); [|by eapply G].
  clear s ok s' Hs Hd. induction e as [comp modify t|comp modify is_or l IHl r IHr|comp id rule]; intros f s ok s' Hsub Hm Hs Hd; cbn [fop_init].
  - by intros [= <- _].
  - destruct (fop_init call l s) as [[okl s1]|] eqn:El; cbn [obind]; [|done]. cbn in Hsub. inversion Hm as [|? ? ? ? ? ? fl fr Ml Mr|]; subst. assert (Pl : calls l ⊆ calls e0) by (intros x Hx; apply Hsub; set_solver). assert (Pr : calls r ⊆ calls e0) by (intros x Hx; apply Hsub; set_solver).
    assert (Et : okl = true) by (exact (IHl fl s okl s1 Pl Ml Hs Hd El)). subst okl. destruct (fop_sound call l Hcs s ltac:(by exists p0, e0) Hs true s1 El) as (I1 & _ & R). destruct (R eq_refl) as (V & _). apply (IHr fr s1); [done|done|done|]. unfold deeper. by rewrite V.
  - assert (Hid : (id, rule) ∈ calls e0) by (apply Hsub; cbn; set_solver). inversion Hm as [| |k ? ? ? p e1 f1 Ef He1 M1]; subst. subst call. unfold filter_call_init. destruct (bool_decide_reflect (id ∈ fs_visited s)) as [Hv|Hv]; [exfalso; eapply (Hd id p0 e0 rule); [done..|by exists f0]|].
    rewrite Ef, He1. set (s1 := mkFState _ _ _). assert (I1 : init_inv s1) by (by apply visit_inv). unfold pipe_init. destruct (bool_decide (p ∈ fs_initialized s1)); cbn [obind]; [by intros [= <- _]|]. rewrite He1.
    destruct (filter_init fuel e1 s1) as [[ok1 s2]|] eqn:E1; cbn [obind]; [|done]. destruct (means_least k e1 f1 M1) as (j & g & Hj & Mj & Lj). rewrite (IH j ltac:(lia) fuel p e1 g s1 ok1 s2 He1 Mj Lj I1); [by intros [= <- _]| |done].
    intros i q e r Hi Hq Hr (h & Hh). cbn in Hi. apply elem_of_union in Hi as [->%elem_of_singleton|Hi].
    + destruct (co_owner Hok _ _ _ _ _ _ _ Hp0 Hq Hid Hr) as [<- _]. apply (Hl j ltac:(lia)). by exists h.
    + apply (Hd i q e r Hi Hq Hr). exists h. eapply means_mono; [done|lia].
Qed.
Lemma not_started_inv : init_inv not_started.
Proof. split; cbn; [intros i e; by rewrite lookup_empty|set_solver]. Qed.
(** Nothing is being started, and what was started is known. *)
Definition quiet (s : filter_state) : Prop := init_inv s /\ fs_visited s = ∅.
Definition init_fuel : nat := S (size all_ids).
Lemma pipe_init_spec (fuel : nat) (p : Z) (e : node) (s : filter_state) : fc_pipes conf !! p = Some e -> quiet s -> (init_fuel <= fuel)%nat ->
  exists ok s', log_filter_pipe_init fuel p s = Ret (ok, s') /\ (ok = true <-> exists n f, means n e f) /\ (ok = true -> quiet s' /\ extends s s' /\ exists n f, means n e f /\ resolved s' n e f).
Proof.
  intros He [Hs Hv] Hf. assert (Hp : part e) by (by exists p, e). assert (Hu : (unvisited s < fuel)%nat) by (unfold unvisited, init_fuel in *; rewrite Hv, difference_empty_L; lia).
  assert (Hret : exists ok s', log_filter_pipe_init fuel p s = Ret (ok, s')). { unfold log_filter_pipe_init, pipe_init. case_bool; [by eexists _, _|]. rewrite He. destruct (init_total fuel e s Hp Hs Hu) as (ok & s' & ->). by eexists _, _. }
  destruct Hret as (ok & s' & E). exists ok, s'. split; [done|]. destruct (pipe_sound (filter_init fuel) p e s He (fun s => init_sound fuel e s Hp) Hs ok s' E) as (I & X & R). split; [split|].
  - intros Ho. destruct (R Ho) as (_ & n & f & ? & _). by exists n, f.
  - intros (n & f & Hm). unfold log_filter_pipe_init, pipe_init in E. destruct (bool_decide (p ∈ fs_initialized s)); [by injection E as <- _|]. rewrite He in E. destruct (filter_init fuel e s) as [[ok1 s1]|] eqn:E1; cbn [obind] in E; [|done]. injection E as <- _. destruct (means_least n e f Hm) as (k & g & _ & Mk & Lk). eapply (init_complete k fuel p e g s); [exact He|exact Mk|exact Lk|exact Hs| |exact E1]. intros i q e1 r Hi. rewrite Hv in Hi. set_solver.
  - intros Ho. destruct (R Ho) as (V & Hr). split; [split; [done|congruence]|done].
Qed.
End tree.
