(* ===== verification/Filter.v ===== *)
(** * Tests of filters (lib/filter.c, lib/filter-netmask6.c, lib/filter-in-list.c)

    Templates and the functions of the C library for addresses are parameters.  What
    a test needs of a message is an interface, [FilterMsg]; [context_msg] is the
    message of lib/logmsg.c with its priority and sender. *)
From S2P Require Import Prelude CString Serialize NVTable NVRegistry LogMsgData LogMatcher FilterTree.

(** ** Messages *)

(** An address of the Internet is a number, one of version 6 its bytes. *)
Inductive GSockAddr := SA_INET (addr : Z) | SA_INET6 (addr : bytes) | SA_UNIX | SA_OTHER.
Class FilterMsg (M : Type) := {
  fm_sink :: MatchSink M;
  fm_get_value : M -> Z -> outcome bytes;
  fm_is_tag : M -> Z -> outcome bool;
  fm_pri : M -> Z;
  fm_saddr : M -> option GSockAddr }.

(** The first message of a context, and the others. *)
Record context := mkContext { cx_state : msg_state; cx_pri : Z; cx_saddr : option GSockAddr; cx_others : list LogMessage }.
Definition on_state (c : context) (r : outcome msg_state) : outcome context := let! s := r in Ret (mkContext s (cx_pri c) (cx_saddr c) (cx_others c)).
#[export] Instance context_sink (macro : LogMessage -> Z -> bytes) (match_handles : list Z) : MatchSink context :=
  let sink := message_sink macro match_handles in {|
  sink_is_macro c := @sink_is_macro _ sink (cx_state c);
  sink_set_match c i value := on_state c (@sink_set_match _ sink (cx_state c) i value);
  sink_set_match_indirect c i ref type ofs len := on_state c (@sink_set_match_indirect _ sink (cx_state c) i ref type ofs len);
  sink_clear_matches c := on_state c (@sink_clear_matches _ sink (cx_state c));
  sink_set_named c name value := on_state c (@sink_set_named _ sink (cx_state c) name value);
  sink_utf8 c := @sink_utf8 _ sink (cx_state c) |}.
#[export] Instance context_msg (macro : LogMessage -> Z -> bytes) (match_handles : list Z) : FilterMsg context := {
  fm_sink := context_sink macro match_handles;
  fm_get_value c handle := let s := cx_state c in let! (v, _) := log_msg_get_value (macro (ms_msg s)) (ms_reg s) (ms_store s) (ms_msg s) handle in Ret v;
  fm_is_tag c id := log_msg_is_tag_by_id (ms_store (cx_state c)) (ms_msg (cx_state c)) id;
  fm_pri := cx_pri;
  fm_saddr := cx_saddr }.

(** ** Numbers and strings *)

Fixpoint strcmp (s t : cstr) : Z :=
  match s, t with
  | [], [] => 0
  | [], y :: _ => - y
  | x :: _, [] => x
  | x :: s, y :: t => if bool_decide (x = y) then strcmp s t else x - y
  end.
Fixpoint digits (acc : Z) (s : cstr) : Z :=
  match s with c :: s => if bool_decide (48 <= c <= 57) then digits (acc * 10 + (c - 48)) s else acc | [] => acc end.
(** With base 10; numbers that are too large end at the limits of 64 bits. *)
Definition strtol (s : cstr) : Z :=
  let s := drop (strspn s [32; 9; 10; 11; 12; 13]) s in
  let v := match s with 45 :: s => - digits 0 s | 43 :: s => digits 0 s | s => digits 0 s end in
  Z.max (- 2 ^ 63) (Z.min (2 ^ 63 - 1) v).
Definition atoi (s : cstr) : Z := s32 (strtol s).

(** ** Comparing templates *)

Definition FCMP_EQ : Z := 0x0001.
Definition FCMP_LT : Z := 0x0002.
Definition FCMP_GT : Z := 0x0004.
Definition FCMP_NUM : Z := 0x0010.
Inductive keyword := KW_LT | KW_LE | KW_EQ | KW_NE | KW_GE | KW_GT | KW_NUM_LT | KW_NUM_LE | KW_NUM_EQ | KW_NUM_NE | KW_NUM_GE | KW_NUM_GT.
(** [fop_cmp_new]: the cases of numbers set [FCMP_NUM] and go on with the next case, which sets another
    value. *)
Definition cmp_op_of (op : keyword) : Z :=
  match op with
  | KW_NUM_LT | KW_LT => FCMP_LT
  | KW_NUM_LE | KW_LE => Z.lor FCMP_LT FCMP_EQ
  | KW_NUM_EQ | KW_EQ => FCMP_EQ
  | KW_NUM_NE | KW_NE => 0
  | KW_NUM_GE | KW_GE => Z.lor FCMP_GT FCMP_EQ
  | KW_NUM_GT | KW_GT => FCMP_GT
  end.
(** The strings are those of the templates. *)
Definition fop_cmp_eval (cmp_op : Z) (left_buf right_buf : bytes) : bool :=
  let cmp :=
    if flag_set cmp_op FCMP_NUM then
      let l := atoi (up_to_nul left_buf) in
      let r := atoi (up_to_nul right_buf) in
      if bool_decide (l = r) then 0 else if bool_decide (l > r) then -1 else 1
    else strcmp (up_to_nul left_buf) (up_to_nul right_buf) in
  if bool_decide (cmp = 0) then flag_set cmp_op FCMP_EQ
  else if bool_decide (cmp < 0) then flag_set cmp_op FCMP_LT || bool_decide (cmp_op = 0)
  else flag_set cmp_op FCMP_GT || bool_decide (cmp_op = 0).

(** ** Facility and level *)

Definition LOG_FACMASK : Z := 0x03f8.
Definition LOG_PRIMASK : Z := 0x07.
(** A shift by 32 or more is undefined. *)
Definition filter_facility_eval (valid pri : Z) : outcome bool :=
  let fac_num := Z.shiftr (Z.land pri LOG_FACMASK) 3 in
  if bool_decide (Z.land valid 0x80000000 <> 0) then Ret (bool_decide (Z.land valid 0x7FFFFFFF = fac_num))
  else let! _ := g_assert (bool_decide (fac_num < 32)) in Ret (bool_decide (Z.land valid (Z.shiftl 1 fac_num) <> 0)).
Definition filter_level_eval (valid pri : Z) : bool := bool_decide (Z.land (Z.shiftl 1 (Z.land pri LOG_PRIMASK)) valid <> 0).

(** ** Networks *)

Definition INADDR_LOOPBACK : Z := 0x7f000001.
Definition filter_netmask_eval (address netmask : Z) (saddr : option GSockAddr) : bool :=
  match saddr with
  | Some (SA_INET addr) => bool_decide (Z.land addr netmask = address)
  | None | Some SA_UNIX => bool_decide (Z.land INADDR_LOOPBACK netmask = address)
  | Some _ => false
  end.
(** Address and mask.  An address that is none leaves the zeros of the allocation; a shift by a
    number that is not in 0 to 31 is undefined. *)
Definition prefix_netmask (prefix : Z) : outcome Z :=
  if bool_decide (prefix = 32) then Ret 0xFFFFFFFF
  else let! _ := g_assert (bool_decide (1 <= prefix <= 31)) in Ret (u32 (Z.shiftl (Z.shiftl 1 prefix - 1) (32 - prefix))).
Definition filter_netmask_new (g_inet_aton : cstr -> option Z) (cidr : cstr) : outcome (Z * Z) :=
  let! (address, netmask) :=
    (match (if bool_decide (lenZ cidr >= 32) then None else strchr cidr 47) with
     | None => Ret (default 0 (g_inet_aton cidr), 0xFFFFFFFF)
     | Some slash =>
         let address := default 0 (g_inet_aton (take (length cidr - length slash) cidr)) in
         let! netmask := (if bool_decide (46 ∈ tail slash) then Ret (default 0 (g_inet_aton (tail slash))) else prefix_netmask (s32 (strtol (tail slash)))) in
         Ret (address, netmask)
     end) in
  Ret (Z.land address netmask, netmask).

(** Words of 8 bytes in the byte order of the host. *)
Definition load64 (big : bool) (b : bytes) : Z := be_value (if big then b else reverse b).
Definition store64 (big : bool) (v : Z) : bytes := if big then be_bytes 8 v else reverse (be_bytes 8 v).
Definition swap64 (v : Z) : Z := be_value (reverse (be_bytes 8 v)).
Definition _calculate_mask_by_prefix (prefix : Z) : outcome Z :=
  let! _ := g_assert (bool_decide (0 <= 64 - prefix < 64)) in Ret (u64 (Z.shiftl (2 ^ 64 - 1) (64 - prefix))).
Definition _mask (big : bool) (base mask : Z) : Z := if big then swap64 (Z.land base mask) else swap64 (Z.land (swap64 base) mask).
(** Into the 16 bytes [network]. *)
Definition _get_network_address (big : bool) (ipv6 : bytes) (prefix : Z) (network : bytes) : outcome bytes :=
  let '(lo, hi) := (take 8 ipv6, drop 8 ipv6) in
  if bool_decide (prefix <= 64) then
    let! mask := _calculate_mask_by_prefix prefix in
    Ret (store64 big (_mask big (load64 big lo) mask) ++ drop 8 network)
  else
    let! mask := _calculate_mask_by_prefix (prefix - 64) in
    Ret (lo ++ store64 big (_mask big (load64 big hi) mask)).
Definition zero_address : bytes := replicate 16 0.
Definition in6addr_loopback : bytes := replicate 15 0 ++ [1].
Definition filter_netmask6_eval (big : bool) (address : bytes) (prefix : Z) (is_valid : bool) (saddr : option GSockAddr) : outcome bool :=
  if negb is_valid then Ret false
  else
    match (match saddr with Some (SA_INET6 a) => Some a | None | Some SA_UNIX => Some in6addr_loopback | Some _ => None end) with
    | None => Ret false
    | Some a => let! network_address := _get_network_address big a prefix zero_address in Ret (bool_decide (network_address = address))
    end.
Definition INET6_ADDRSTRLEN : Z := 46.
(** Address, prefix and whether they are valid; a copy that is longer than the buffer leaves it. *)
Definition filter_netmask6_new (inet_pton : cstr -> option bytes) (big : bool) (cidr : cstr) : outcome (bytes * Z * bool) :=
  let! (address, prefix) :=
    (match (if bool_decide (lenZ cidr >= INET6_ADDRSTRLEN + 5) then None else strchr cidr 47) with
     | None => let! _ := g_assert (bool_decide (lenZ cidr < INET6_ADDRSTRLEN)) in Ret (cidr, 128)
     | Some slash =>
         let prefix := s32 (strtol (tail slash)) in
         if bool_decide (0 < prefix < 129) then
           let n := lenZ cidr - lenZ slash in
           let! _ := g_assert (bool_decide (n < INET6_ADDRSTRLEN)) in Ret (take (Z.to_nat n) cidr, prefix)
         else Ret ([], prefix)
     end) in
  match (if bool_decide (address = []) then None else inet_pton address) with
  | Some a => let! network := _get_network_address big a prefix zero_address in Ret (network, prefix, true)
  | None => Ret (in6addr_loopback, prefix, false)
  end.

(** ** Lists in files *)

(** The last byte of each line is cut off, whatever it is. *)
Fixpoint load_list (fuel : nat) (tree : gset bytes) (file : bytes) : outcome (gset bytes) :=
  match fuel with
  | O => Abort
  | S fuel =>
      match file with
      | [] => Ret tree
      | _ =>
          let '(buf, file) := fgets (Z.to_nat 16383) file in
          let line := up_to_nul buf in
          let! _ := g_assert (bool_decide (line <> [])) in
          let line := take (length line - 1) line in
          load_list fuel (if bool_decide (line = []) then tree else {[line]} ∪ tree) file
      end
  end.
Definition filter_in_list_new (file : option bytes) : outcome (option (gset bytes)) :=
  match file with None => Ret None | Some file => let! tree := load_list (S (length file)) ∅ file in Ret (Some tree) end.

(** ** Tests of a message *)

Section tests.
Context {M : Type} `{FilterMsg M} {T : Type} (lib : regex_lib).
(** A template, formatted for the messages of the context. *)
Variable template_format : T -> M -> bytes.
(** The byte order of the host. *)
Variable big : bool.

Inductive filter_test :=
  | FilterCmp (left right : T) (cmp_op : Z)
  | FilterFacility (valid : Z)
  | FilterLevel (valid : Z)
  | FilterRE (value_handle : Z) (matcher : LogMatcher lib)
  | FilterMatch (value_handle : Z) (matcher : LogMatcher lib)
  | FilterNetmask (address netmask : Z)
  | FilterNetmask6 (address : bytes) (prefix : Z) (is_valid : bool)
  | FilterTags (tags : list Z)
  | FilterInList (value_handle : Z) (tree : gset bytes).

Definition LM_V_MESSAGE : Z := 3.
Definition filter_re_eval (value_handle : Z) (matcher : LogMatcher lib) (m : M) : outcome (bool * M) :=
  let! value := fm_get_value m value_handle in log_matcher_match lib matcher m value_handle value.
Definition filter_match_eval (value_handle : Z) (matcher : LogMatcher lib) (m : M) : outcome (bool * M) :=
  if bool_decide (value_handle = 0) then
    let! pid := fm_get_value m LM_V_PID in
    let! program := fm_get_value m LM_V_PROGRAM in
    let! message := fm_get_value m LM_V_MESSAGE in
    let str := up_to_nul program ++ (if bool_decide (lenZ pid > 0) then [91] else []) ++ up_to_nul pid ++ (if bool_decide (lenZ pid > 0) then [93] else []) ++ [58; 32] ++ up_to_nul message in
    log_matcher_match lib matcher m 0 str
  else filter_re_eval value_handle matcher m.
Fixpoint filter_tags_eval (tags : list Z) (m : M) : outcome bool :=
  match tags with
  | [] => Ret false
  | id :: tags => let! b := fm_is_tag m id in if b : bool then Ret true else filter_tags_eval tags m
  end.
Definition filter_in_list_eval (value_handle : Z) (tree : gset bytes) (m : M) : outcome bool :=
  let! value := fm_get_value m value_handle in Ret (bool_decide (up_to_nul value ∈ tree)).
Definition filter_test_eval (t : filter_test) (m : M) : outcome (bool * M) :=
  match t with
  | FilterCmp l r op => Ret (fop_cmp_eval op (template_format l m) (template_format r m), m)
  | FilterFacility valid => let! b := filter_facility_eval valid (fm_pri m) in Ret (b, m)
  | FilterLevel valid => Ret (filter_level_eval valid (fm_pri m), m)
  | FilterRE h matcher => filter_re_eval h matcher m
  | FilterMatch h matcher => filter_match_eval h matcher m
  | FilterNetmask a n => Ret (filter_netmask_eval a n (fm_saddr m), m)
  | FilterNetmask6 a p v => let! b := filter_netmask6_eval big a p v (fm_saddr m) in Ret (b, m)
  | FilterTags tags => let! b := filter_tags_eval tags m in Ret (b, m)
  | FilterInList h tree => let! b := filter_in_list_eval h tree m in Ret (b, m)
  end.

(** ** Pipes *)

(** [modify] of a regular expression: whether it stores groups. *)
Definition filter_re_set_flags (flags : Z) : Z * bool := (Z.lor flags LMF_MATCH_ONLY, flag_set flags LMF_STORE_MATCHES).
Definition PIF_CLONE : Z := 0x0040.
Definition log_filter_pipe_new {L} (expr : FilterExprNode L) : Z := if expr_modify expr then PIF_CLONE else 0.
(** Whether the message goes on to the next pipe; [matched] of the path. *)
Definition log_filter_pipe_queue (fuel : nat) (s : filter_state) (expr : FilterExprNode filter_test) (m : M) (matched : option bool) : outcome (bool * M * option bool) :=
  let! (res, m) := filter_expr_eval filter_test_eval fuel s expr m in
  Ret (res, m, if res : bool then matched else (fun _ => false) <$> matched).

(** ** Rewriting (lib/logrewrite.c) *)

Variable set_value : M -> Z -> bytes -> outcome M.
Inductive LogRewrite :=
  | LogRewriteSubst (matcher : LogMatcher lib) (replacement : T)
  | LogRewriteSet (value_template : T).
Definition log_rewrite_process (r : LogRewrite) (value_handle : Z) (m : M) : outcome M :=
  match r with
  | LogRewriteSubst matcher replacement =>
      let! value := fm_get_value m value_handle in
      let! (new_value, m) := log_matcher_replace lib (template_format replacement) matcher m value_handle value in
      match new_value with Some v => set_value m value_handle v | None => Ret m end
  | LogRewriteSet template => set_value m value_handle (template_format template m)
  end.
(** The message goes on in any case. *)
Definition log_rewrite_queue (fuel : nat) (s : filter_state) (condition : option (FilterExprNode filter_test)) (r : LogRewrite) (value_handle : Z) (m : M) : outcome M :=
  match condition with
  | None => log_rewrite_process r value_handle m
  | Some expr => let! (res, m) := filter_expr_eval filter_test_eval fuel s expr m in if res : bool then log_rewrite_process r value_handle m else Ret m
  end.
End tests.
