(* ===== verification/FilterClaims.v ===== *)
(** * What filters promise (lib/filter.c, lib/filter-netmask6.c, lib/filter-in-list.c) *)
From S2P Require Import Prelude CString Serialize NVTableSerializeInv LogMatcher FilterTree Filter.

(** ** Starting and evaluating *)

Section start.
Context {L : Type}.
Variable conf : filter_conf (L := L).
(** The pipes of a configuration, one after the other (log_center_reinit). *)
Fixpoint start_pipes (fuel : nat) (ps : list Z) (s : filter_state) : outcome (bool * filter_state) :=
  match ps with
  | [] => Ret (true, s)
  | p :: ps => let! (ok, s) := log_filter_pipe_init conf fuel p s in if ok : bool then start_pipes fuel ps s else Ret (false, s)
  end.
Definition finite (p : Z) : Prop := exists e n f, fc_pipes conf !! p = Some e /\ means conf n e f.
Lemma extends_refl (s : filter_state (L := L)) : extends s s.
Proof. by intros i e. Qed.
Lemma start_pipes_spec (fuel : nat) (ps : list Z) : calls_ok conf -> Forall (fun p => is_Some (fc_pipes conf !! p)) ps -> (init_fuel conf <= fuel)%nat ->
  forall s, quiet conf s -> exists ok s', start_pipes fuel ps s = Ret (ok, s') /\ (ok = true <-> Forall finite ps) /\
    (ok = true -> extends s s' /\ forall p e, p ∈ ps -> fc_pipes conf !! p = Some e -> exists n f, means conf n e f /\ resolved s' n e f).
Proof.
  intros Hok Hps Hf. induction Hps as [|p ps [e He] Hps IH]; intros s Hs.
  - exists true, s. split; [done|]. split; [by split|]. intros _. split; [by intros i x|]. intros p e Hp. by apply elem_of_nil in Hp.
  - cbn [start_pipes]. destruct (pipe_init_spec conf Hok fuel p e s He Hs Hf) as (ok1 & s1 & -> & Hfin & Hr). cbn [obind]. destruct ok1.
    + destruct (Hr eq_refl) as (Q1 & X1 & n & f & Hm & Hres). destruct (IH s1 Q1) as (ok & s' & -> & Hi & Hall). exists ok, s'. split; [done|]. split.
      * rewrite Hi, Forall_cons. split; [intros Hx; split; [by exists e, n, f|done]|tauto].
      * intros Ho. destruct (Hall Ho) as (X2 & Hrest). split; [by intros i x Hx; apply X2, X1|]. intros q e' [->|Hq]%elem_of_cons He'; [simplify_eq; exists n, f; split; [done|by eapply resolved_extends]|by eapply Hrest].
    + exists false, s1. split; [done|]. split; [split; [done|]|done]. rewrite Forall_cons. intros [(e' & n & f & He' & Hm) _]. simplify_eq. apply Hfin. by exists n, f.
Qed.
End start.

(** C37: filters that name each other.  When the pipes of a configuration are started,
    in any order, the start returns, and it succeeds exactly if every rule that
    is named exists and no rule leads back to itself; then each expression is
    evaluated to the value of the formula in which the named rules are
    written out, with the tests in the order of the text and none behind the
    result. *)
Theorem filter_init_detects_loops {L : Type} (conf : filter_conf (L := L)) (ps : list Z) (Hok : calls_ok conf) (Hps : Forall (fun p => is_Some (fc_pipes conf !! p)) ps) :
  exists ok s, start_pipes conf (init_fuel conf) ps not_started = Ret (ok, s) /\ (ok = true <-> Forall (finite conf) ps) /\
    (ok = true -> forall p e, p ∈ ps -> fc_pipes conf !! p = Some e -> exists n f, means conf n e f /\
      forall (M : Type) (test : L -> M -> outcome (bool * M)) (fuel : nat) (m : M), (n < fuel)%nat -> filter_expr_eval test fuel s e m = holds test f m).
Proof.
  assert (Q : quiet conf not_started) by (split; [by apply not_started_inv|done]).
  destruct (start_pipes_spec conf (init_fuel conf) ps Hok Hps (le_n _) not_started Q) as (ok & s & E & Hi & Hall).
  exists ok, s. split; [done|]. split; [done|]. intros Ho p e Hp He. destruct (Hall Ho) as (_ & H). destruct (H p e Hp He) as (n & f & Hm & Hr). exists n, f. split; [done|]. intros M test fuel m Hn. by apply eval_resolved with n.
Qed.

(** ** Filters that only look *)

(** The flag of an expression made by the constructors. *)
Fixpoint built {L} (stores : L -> bool) (e : FilterExprNode L) : Prop :=
  match e with
  | FilterLeaf _ modify t => modify = stores t
  | FilterOp _ modify _ l r => modify = expr_modify l || expr_modify r /\ built stores l /\ built stores r
  | FilterCall _ _ _ => True
  end.
Section looks.
Context {M : Type} `{FilterMsg M} {T : Type} (lib : regex_lib) (template_format : T -> M -> bytes) (big : bool).
Definition test_stores (t : filter_test (T := T) lib) : bool :=
  match t with FilterRE _ _ m => flag_set (lm_flags m) LMF_STORE_MATCHES | FilterMatch _ _ m => flag_set (lm_flags m) LMF_STORE_MATCHES | _ => false end.
Lemma test_keeps (t : filter_test lib) (m m' : M) (b : bool) : test_stores t = false -> filter_test_eval lib template_format big t m = Ret (b, m') -> m' = m.
Proof.
  destruct t as [l r op|v|v|h mt|h mt|a n|a p v|tags|h tree]; cbn [filter_test_eval test_stores]; intros Hs.
  - by intros [= _ <-].
  - destruct (filter_facility_eval v (fm_pri m)); cbn; [by intros [= _ <-]|done].
  - by intros [= _ <-].
  - unfold filter_re_eval. destruct (fm_get_value m h); cbn [obind]; [|done]. by apply log_matcher_match_keeps.
  - unfold filter_match_eval. case_bool; [|unfold filter_re_eval; destruct (fm_get_value m h); cbn [obind]; [by apply log_matcher_match_keeps|done]].
    destruct (fm_get_value m LogMsgData.LM_V_PID); cbn [obind]; [|done]. destruct (fm_get_value m LogMsgData.LM_V_PROGRAM); cbn [obind]; [|done]. destruct (fm_get_value m LM_V_MESSAGE); cbn [obind]; [|done]. by apply log_matcher_match_keeps.
  - by intros [= _ <-].
  - destruct (filter_netmask6_eval big a p v (fm_saddr m)); cbn; [by intros [= _ <-]|done].
  - destruct (filter_tags_eval tags m); cbn; [by intros [= _ <-]|done].
  - destruct (filter_in_list_eval h tree m); cbn; [by intros [= _ <-]|done].
Qed.
(** An expression without the flag, and without calls, leaves the message alone: its pipe need not
    get a copy. *)
Theorem filter_without_modify_looks (fuel : nat) (s : filter_state) (e : FilterExprNode (filter_test lib)) (m m' : M) (b : bool) (Hb : built test_stores e) (Hc : calls e = []) (Hm : expr_modify e = false) :
  filter_expr_eval (filter_test_eval lib template_format big) fuel s e m = Ret (b, m') -> m' = m.
Proof.
  destruct fuel as [|fuel]; [done|]. cbn [filter_expr_eval]. set (call := filter_call_eval _ _). clearbody call. revert m m' b Hb Hc Hm. induction e as [comp modify t|comp modify is_or l IHl r IHr|comp id rule]; intros m m' b Hb Hc Hm; cbn [fop_eval].
  - destruct (filter_test_eval lib template_format big t m) as [[b1 m1]|] eqn:E; cbn [obind]; [|done]. intros [= _ <-]. eapply test_keeps; [|exact E]. cbn in *. congruence.
  - cbn in Hb, Hc, Hm. destruct Hb as (-> & Bl & Br). apply app_nil in Hc as [Cl Cr]. apply orb_false_iff in Hm as [Ml Mr]. destruct (fop_eval _ call l m) as [[b1 m1]|] eqn:El; cbn [obind]; [|done]. rewrite (IHl m m1 b1 Bl Cl Ml El) in *. destruct (Bool.eqb b1 is_or); cbn [obind]; [by intros [= _ <-]|].
    destruct (fop_eval _ call r m) as [[b2 m2]|] eqn:Er; cbn [obind]; [|done]. intros [= _ <-]. by apply (IHr m m2 b2).
  - done.
Qed.
End looks.

(** ** Networks *)

Lemma land_mask (w k mask x : Z) : 0 <= k -> 0 <= x < 2 ^ w -> (forall i, 0 <= i -> Z.testbit mask i = bool_decide (k <= i < w)) -> Z.land x mask = x / 2 ^ k * 2 ^ k.
Proof.
  intros Hk Hx Hm. apply Z.bits_inj'. intros i Hi. rewrite Z.land_spec, Hm, Z.mul_pow2_bits by lia. destruct (decide (i < k)) as [L|L].
  - rewrite bool_decide_eq_false_2, andb_false_r, Z.testbit_neg_r by lia. done.
  - rewrite Z.div_pow2_bits by lia. replace (i - k + k) with i by lia. destruct (decide (i < w)) as [W|W]; [by rewrite bool_decide_eq_true_2, andb_true_r by lia|]. rewrite bool_decide_eq_false_2, andb_false_r by lia. symmetry. destruct (decide (x = 0)) as [->|]; [apply Z.bits_0|]. apply Z.bits_above_log2; [lia|]. apply Z.log2_lt_pow2; [lia|]. assert (2 ^ w <= 2 ^ i); [|lia]. destruct (decide (0 <= w)); [by apply Z.pow_le_mono_r; lia|]. rewrite (Z.pow_neg_r 2 w) by lia. apply Z.pow_nonneg. lia.
Qed.
Lemma masked_eq (k x y : Z) : 0 <= k -> x / 2 ^ k * 2 ^ k = y / 2 ^ k * 2 ^ k <-> x / 2 ^ k = y / 2 ^ k.
Proof. intros Hk. assert (0 < 2 ^ k) by (apply Z.pow_pos_nonneg; lia). split; [intros E; by apply Z.mul_reg_r in E; [|lia]|by intros ->]. Qed.
Lemma ones_bits (w n k i : Z) : 0 <= n -> 0 <= k -> n + k = w \/ w <= n -> 0 <= i -> 0 <= w -> Z.testbit (Z.shiftl (2 ^ n - 1) k mod 2 ^ w) i = bool_decide (k <= i < w).
Proof.
  intros Hn Hk Hw Hi H0. rewrite Z.testbit_mod_pow2 by lia. rewrite Z.shiftl_spec by lia. replace (2 ^ n - 1) with (Z.ones n) by (rewrite Z.ones_equiv; lia). destruct (decide (k <= i < w)) as [B|B].
  - rewrite bool_decide_eq_true_2 by done. rewrite Z.ones_spec_low by lia. rewrite andb_true_r. apply Z.ltb_lt. lia.
  - rewrite bool_decide_eq_false_2 by done. destruct (decide (i < k)) as [L|L]; [rewrite (Z.testbit_neg_r (Z.ones n)) by lia; apply andb_false_r|]. replace (i <? w) with false by (symmetry; apply Z.ltb_ge; lia). done.
Qed.
Lemma netmask_bits (prefix mask i : Z) : 1 <= prefix <= 32 -> prefix_netmask prefix = Ret mask -> 0 <= i -> Z.testbit mask i = bool_decide (32 - prefix <= i < 32).
Proof.
  intros Hp. unfold prefix_netmask. case_bool.
  - intros [= <-] Hi. subst prefix. apply (ones_bits 32 32 0 i); lia.
  - rewrite bool_decide_eq_true_2 by lia. cbn [g_assert obind]. intros [= <-] Hi. unfold u32. rewrite Z.shiftl_1_l. apply ones_bits; lia.
Qed.
(** A sender matches a network with a prefix if the first bits of the addresses are equal. *)
Theorem filter_netmask_matches_prefix (a b prefix : Z) (Ha : 0 <= a < 2 ^ 32) (Hb : 0 <= b < 2 ^ 32) (Hp : 1 <= prefix <= 32) :
  exists mask, prefix_netmask prefix = Ret mask /\ filter_netmask_eval (Z.land a mask) mask (Some (SA_INET b)) = bool_decide (b / 2 ^ (32 - prefix) = a / 2 ^ (32 - prefix)).
Proof.
  assert (exists mask, prefix_netmask prefix = Ret mask) as (mask & E). { unfold prefix_netmask. case_bool; [by eexists|]. rewrite bool_decide_eq_true_2 by lia. by eexists. }
  exists mask. split; [done|]. cbn. rewrite !(land_mask 32 (32 - prefix) mask) by (lia || intros i Hi; by eapply netmask_bits). apply bool_decide_ext. apply masked_eq. lia.
Qed.

(** *** Version 6 *)

Lemma be_value_range (b : bytes) : Forall is_byte b -> 0 <= be_value b < 256 ^ lenZ b.
Proof.
  induction 1 as [|x b Hx Hb IH]; [done|]. cbn [be_value]. rewrite lenZ_cons, Z.pow_add_r by (pose proof (lenZ_nonneg b); lia). unfold is_byte in Hx. change (256 ^ 1) with 256. nia.
Qed.
Lemma be_value_app (a b : bytes) : be_value (a ++ b) = be_value a * 256 ^ lenZ b + be_value b.
Proof. induction a as [|x a IH]; [done|]. cbn [app be_value]. rewrite IH, lenZ_app, Z.pow_add_r by apply lenZ_nonneg. ring. Qed.
Lemma be_value_inj (a b : bytes) : Forall is_byte a -> Forall is_byte b -> length a = length b -> be_value a = be_value b -> a = b.
Proof. intros Ha Hb Hl E. rewrite <- (be_bytes_value a Ha), <- (be_bytes_value b Hb). by rewrite Hl, E. Qed.
Lemma swap64_bytes (v : Z) : be_bytes 8 (swap64 v) = reverse (be_bytes 8 v).
Proof.
  unfold swap64. assert (H : length (reverse (be_bytes 8 v)) = 8%nat) by (rewrite length_reverse; apply be_bytes_length). rewrite <- H at 1. apply be_bytes_value. apply Forall_reverse, be_bytes_are_bytes.
Qed.
(** Eight bytes through the mask. *)
Lemma mask_bytes (big : bool) (b : bytes) (mask : Z) : Forall is_byte b -> length b = 8%nat ->
  store64 big (_mask big (load64 big b) mask) = let r := be_bytes 8 (Z.land (be_value b) mask) in if big then reverse r else r.
Proof.
  intros Hb Hl. unfold store64, _mask, load64. destruct big; [apply swap64_bytes|]. rewrite swap64_bytes, reverse_involutive. unfold swap64.
  replace (be_bytes 8 (be_value (reverse b))) with (reverse b); [by rewrite reverse_involutive|]. rewrite <- (be_bytes_value (reverse b)) at 1 by (by apply Forall_reverse). by rewrite length_reverse, Hl.
Qed.
Lemma mask_bytes_eq (big : bool) (a b : bytes) (k mask : Z) : Forall is_byte a -> length a = 8%nat -> Forall is_byte b -> length b = 8%nat -> 0 <= k -> (forall i, 0 <= i -> Z.testbit mask i = bool_decide (k <= i < 64)) ->
  store64 big (_mask big (load64 big a) mask) = store64 big (_mask big (load64 big b) mask) <-> be_value a / 2 ^ k = be_value b / 2 ^ k.
Proof.
  intros Ha La Hb Lb Hk Hm. rewrite !mask_bytes by done. pose proof (be_value_range a Ha) as Ra. pose proof (be_value_range b Hb) as Rb. unfold lenZ in *. rewrite La in Ra. rewrite Lb in Rb. change (256 ^ Z.of_nat 8) with (2 ^ 64) in *. rewrite !(land_mask 64 k mask) by done.
  assert (R : forall x, 0 <= x < 2 ^ 64 -> 0 <= x / 2 ^ k * 2 ^ k < 256 ^ Z.of_nat 8). { intros x Hx. change (256 ^ Z.of_nat 8) with (2 ^ 64). assert (0 < 2 ^ k) by (apply Z.pow_pos_nonneg; lia). pose proof (Z.mul_div_le x (2 ^ k) ltac:(lia)). pose proof (Z.div_pos x (2 ^ k)). nia. }
  rewrite <- masked_eq by done. set (x := be_value a / 2 ^ k * 2 ^ k) in *. set (y := be_value b / 2 ^ k * 2 ^ k) in *. split; [|by intros ->]. intros E. cbn zeta in E.
  assert (E2 : be_bytes 8 x = be_bytes 8 y) by (destruct big; [by apply (inj reverse)|done]). apply (f_equal be_value) in E2. by rewrite !be_value_small in E2 by (by apply R).
Qed.
Lemma calc_mask (prefix : Z) : 1 <= prefix <= 64 -> exists mask, _calculate_mask_by_prefix prefix = Ret mask /\ forall i, 0 <= i -> Z.testbit mask i = bool_decide (64 - prefix <= i < 64).
Proof. intros Hp. unfold _calculate_mask_by_prefix. rewrite bool_decide_eq_true_2 by lia. eexists. split; [done|]. intros i Hi. apply ones_bits; lia. Qed.
Lemma network_eq (big : bool) (a b : bytes) (prefix : Z) : Forall is_byte a -> length a = 16%nat -> Forall is_byte b -> length b = 16%nat -> 1 <= prefix <= 128 ->
  exists na nb, _get_network_address big a prefix zero_address = Ret na /\ _get_network_address big b prefix zero_address = Ret nb /\ (nb = na <-> be_value b / 2 ^ (128 - prefix) = be_value a / 2 ^ (128 - prefix)).
Proof.
  intros Ha La Hb Lb Hp. assert (Fa : forall l : bytes, Forall is_byte l -> length l = 16%nat -> Forall is_byte (take 8 l) /\ Forall is_byte (drop 8 l) /\ length (take 8 l) = 8%nat /\ length (drop 8 l) = 8%nat /\ be_value l = be_value (take 8 l) * 2 ^ 64 + be_value (drop 8 l)).
  { intros l Hl Ll. split_and!; [by apply Forall_take|by apply Forall_drop|rewrite length_take; lia|rewrite length_drop; lia|]. rewrite <- (take_drop 8 l) at 1. rewrite be_value_app. unfold lenZ. rewrite length_drop, Ll. done. }
  destruct (Fa a Ha La) as (A1 & A2 & A3 & A4 & ->), (Fa b Hb Lb) as (B1 & B2 & B3 & B4 & ->). unfold _get_network_address. set (la := take 8 a) in *. set (ha := drop 8 a) in *. set (lb := take 8 b) in *. set (hb := drop 8 b) in *.
  pose proof (be_value_range ha A2) as Rha. pose proof (be_value_range hb B2) as Rhb. unfold lenZ in Rha, Rhb. rewrite A4 in Rha. rewrite B4 in Rhb. change (256 ^ Z.of_nat 8) with (2 ^ 64) in *. case_bool.
  - destruct (calc_mask prefix ltac:(lia)) as (mask & -> & Hm). cbn [obind]. do 2 eexists. split; [done|]. split; [done|]. rewrite (inj_iff (fun l => l ++ drop 8 zero_address)). rewrite (mask_bytes_eq big lb la (64 - prefix) mask) by (done || lia).
    assert (D : forall x y, 0 <= y < 2 ^ 64 -> (x * 2 ^ 64 + y) / 2 ^ (128 - prefix) = x / 2 ^ (64 - prefix)). { intros x y Hy. replace (128 - prefix) with (64 + (64 - prefix)) by lia. rewrite Z.pow_add_r, <- Z.div_div by lia. rewrite Z.div_add_l, (Z.div_small y) by lia. by rewrite Z.add_0_r. } by rewrite !D.
  - destruct (calc_mask (prefix - 64) ltac:(lia)) as (mask & -> & Hm). cbn [obind]. do 2 eexists. split; [done|]. split; [done|]. replace (64 - (prefix - 64)) with (128 - prefix) in Hm by lia.
    assert (P : 2 ^ 64 = 2 ^ (128 - prefix) * 2 ^ (prefix - 64)) by (rewrite <- Z.pow_add_r by lia; f_equal; lia). assert (Pk : 0 < 2 ^ (128 - prefix)) by (apply Z.pow_pos_nonneg; lia). assert (Pj : 0 < 2 ^ (prefix - 64)) by (apply Z.pow_pos_nonneg; lia).
    assert (D : forall x y, (x * 2 ^ 64 + y) / 2 ^ (128 - prefix) = x * 2 ^ (prefix - 64) + y / 2 ^ (128 - prefix)). { intros x y. rewrite P. replace (x * (2 ^ (128 - prefix) * 2 ^ (prefix - 64)) + y) with (x * 2 ^ (prefix - 64) * 2 ^ (128 - prefix) + y) by ring. rewrite Z.div_add_l by lia. done. } rewrite !D.
    assert (Q : forall y, 0 <= y < 2 ^ 64 -> 0 <= y / 2 ^ (128 - prefix) < 2 ^ (prefix - 64)). { intros y Hy. split; [apply Z.div_pos; lia|]. apply Z.div_lt_upper_bound; lia. } pose proof (Q _ Rha) as Qa. pose proof (Q _ Rhb) as Qb.
    split.
    + intros E. apply app_inj_1 in E as [E1 E2]; [|congruence]. apply (mask_bytes_eq big hb ha (128 - prefix) mask) in E2; [|done..|lia|done]. by rewrite E1, E2.
    + intros E. assert (E1 : be_value lb = be_value la) by nia. assert (E2 : be_value hb / 2 ^ (128 - prefix) = be_value ha / 2 ^ (128 - prefix)) by nia. f_equal; [apply be_value_inj; congruence || done|]. apply (mask_bytes_eq big hb ha (128 - prefix) mask); done || lia.
Qed.
Lemma strchr_slash (s t : cstr) (c : Z) : c ∉ s -> strchr (s ++ c :: t) c = Some (c :: t).
Proof. induction s as [|x s IH]; cbn; [by rewrite bool_decide_eq_true_2|]. intros [H1 H2]%not_elem_of_cons. rewrite bool_decide_eq_false_2 by congruence. by apply IH. Qed.

(** C38: networks of version 6.  A filter made of an address and a prefix from 1 to 128
    matches a sender exactly if the first bits of both addresses, as many as
    the prefix says, are equal; on hosts of both byte orders. *)
Theorem filter_netmask6_matches_prefix (inet_pton : cstr -> option bytes) (big : bool) (text suffix : cstr) (a b : bytes) (prefix : Z)
  (Htext : 47 ∉ text) (Hne : text <> []) (Hlen : lenZ (text ++ 47 :: suffix) < 51) (Hbuf : lenZ text < 46) (Hsuf : s32 (strtol suffix) = prefix) (Hp : 1 <= prefix <= 128)
  (Hpton : inet_pton text = Some a) (Ha : Forall is_byte a) (La : length a = 16%nat) (Hb : Forall is_byte b) (Lb : length b = 16%nat) :
  exists address, filter_netmask6_new inet_pton big (text ++ 47 :: suffix) = Ret (address, prefix, true) /\
    filter_netmask6_eval big address prefix true (Some (SA_INET6 b)) = Ret (bool_decide (be_value b / 2 ^ (128 - prefix) = be_value a / 2 ^ (128 - prefix))).
Proof.
  destruct (network_eq big a b prefix Ha La Hb Lb Hp) as (na & nb & Ea & Eb & Hiff). exists na. split.
  - unfold filter_netmask6_new. rewrite bool_decide_eq_false_2 by (unfold INET6_ADDRSTRLEN; lia). rewrite strchr_slash by done. cbn [tail]. rewrite Hsuf, bool_decide_eq_true_2 by lia. replace (lenZ (text ++ 47 :: suffix) - lenZ (47 :: suffix)) with (lenZ text) by (rewrite lenZ_app; lia). rewrite bool_decide_eq_true_2 by done. cbn [g_assert obind]. unfold lenZ. rewrite Nat2Z.id, take_app_length, bool_decide_eq_false_2, Hpton, Ea by done. done.
  - unfold filter_netmask6_eval. cbn [negb]. rewrite Eb. cbn [obind]. f_equal. by apply bool_decide_ext.
Qed.

(** ** Comparisons *)

Lemma strcmp_zero (s t : cstr) : no_nul s -> no_nul t -> strcmp s t = 0 <-> s = t.
Proof.
  revert t. induction s as [|x s IH]; intros [|y t] Hs Ht; cbn; [done| | |].
  - apply no_nul_cons in Ht as [? _]. split; [lia|done].
  - apply no_nul_cons in Hs as [? _]. split; [lia|done].
  - apply no_nul_cons in Hs as [? Hs], Ht as [? Ht]. case_bool; [subst; rewrite IH by done; split; [by intros ->|by intros [= ->]]|]. split; [lia|congruence].
Qed.
(** The first byte in which they differ decides; a string is behind its beginnings. *)
Inductive before : cstr -> cstr -> Prop :=
  | before_end y t : before [] (y :: t)
  | before_here x y s t : x < y -> before (x :: s) (y :: t)
  | before_later x s t : before s t -> before (x :: s) (x :: t).
Lemma strcmp_before (s t : cstr) : Forall (fun c => 0 < c) s -> Forall (fun c => 0 < c) t -> (strcmp s t < 0 <-> before s t) /\ (0 < strcmp s t <-> before t s).
Proof.
  intros Hs. revert t. induction Hs as [|x s Hx Hs IH]; intros t Ht; destruct Ht as [|y t Hy Ht]; cbn.
  - split; split; try lia; intros E; inversion E.
  - split; split; try lia; [intros _; constructor|intros E; inversion E].
  - split; split; try lia; [intros E; inversion E|intros _; constructor].
  - case_bool.
    + subst. destruct (IH t Ht) as [H1 H2]. rewrite H1, H2. split; split; intros E; (by constructor) || (inversion E; subst; [lia|done]).
    + split; split; intros E; try (constructor; lia); inversion E; subst; lia.
Qed.
(** What the comparisons mean: they compare strings, byte by byte, and the ones for
    numbers do so too. *)
Theorem fop_cmp_correct (op : keyword) (l r : bytes) (Hl : Forall (fun c => 0 < c) l) (Hr : Forall (fun c => 0 < c) r) :
  fop_cmp_eval (cmp_op_of op) l r = true <->
    match op with
    | KW_LT | KW_NUM_LT => before l r
    | KW_LE | KW_NUM_LE => before l r \/ l = r
    | KW_EQ | KW_NUM_EQ => l = r
    | KW_NE | KW_NUM_NE => before l r \/ before r l
    | KW_GE | KW_NUM_GE => before r l \/ l = r
    | KW_GT | KW_NUM_GT => before r l
    end.
Proof.
  assert (Nn : forall s, Forall (fun c => 0 < c) s -> no_nul s) by (intros s F; eapply Forall_impl; [exact F|]; intros; cbn in *; lia).
  destruct (strcmp_before l r Hl Hr) as [B1 B2]. pose proof (strcmp_zero l r (Nn l Hl) (Nn r Hr)) as B0. unfold fop_cmp_eval. replace (flag_set (cmp_op_of op) FCMP_NUM) with false by (by destruct op). rewrite !up_to_nul_id by auto.
  assert (C : forall P : Prop, (strcmp l r = 0 -> l = r -> ~ before l r -> ~ before r l -> P) -> (strcmp l r < 0 -> l <> r -> before l r -> ~ before r l -> P) -> (0 < strcmp l r -> l <> r -> ~ before l r -> before r l -> P) -> P).
  { intros P P0 P1 P2. destruct (Z.lt_trichotomy (strcmp l r) 0) as [Z1|[Z0|Z2]]; [apply P1|apply P0|apply P2]; try done; rewrite <- ?B1, <- ?B2, <- ?B0; lia. }
  apply C; intros Hz H0 H1 H2; [rewrite bool_decide_eq_true_2 by done|rewrite bool_decide_eq_false_2, bool_decide_eq_true_2 by lia|rewrite !bool_decide_eq_false_2 by lia]; destruct op; cbn; tauto || (split; [done|tauto]) || (split; tauto).
Qed.

(** ** Lists *)

Lemma fgets_line (n : nat) (l rest : bytes) : 10 ∉ l -> (length l < n)%nat -> fgets n (l ++ 10 :: rest) = (l ++ [10], rest).
Proof.
  revert n. induction l as [|c l IH]; intros n Hl Hn; (destruct n as [|n]; [cbn in *; lia|]); cbn [app fgets].
  - by rewrite bool_decide_eq_true_2.
  - apply not_elem_of_cons in Hl as [H1 H2]. rewrite bool_decide_eq_false_2 by congruence. rewrite IH by (done || cbn in *; lia). done.
Qed.
Definition line_ok (l : bytes) : Prop := 10 ∉ l /\ 0 ∉ l /\ lenZ l < 16383.
Lemma load_lines (lines : list bytes) : Forall line_ok lines -> forall fuel tree, (length (lines ≫= fun l => l ++ [10%Z]) < fuel)%nat ->
  exists tree', load_list fuel tree (lines ≫= fun l => l ++ [10]) = Ret tree' /\ forall v, v ∈ tree' <-> v ∈ tree \/ v ∈ lines /\ v <> [].
Proof.
  induction 1 as [|l lines (Hn & Hz & Hl) Hls IH]; intros fuel tree Hf; (destruct fuel as [|fuel]; [lia|]).
  - exists tree. split; [done|]. intros v. split; [by left|]. intros [?|[?%elem_of_nil _]]; done.
  - rewrite bind_cons in *. rewrite <- (app_assoc l [10]). cbn [app load_list]. assert (Hne : exists c r, l ++ 10 :: (lines ≫= fun l => l ++ [10]) = c :: r) by (destruct l; cbn; by eexists _, _). destruct Hne as (c & r & Er). rewrite Er, <- Er. rewrite fgets_line by (done || (unfold lenZ in Hl; lia)).
    assert (U : no_nul (l ++ [10])) by (apply no_nul_app; split; [apply Forall_forall; intros x Hx ->; done|by repeat constructor]).
    rewrite up_to_nul_id by done. rewrite bool_decide_eq_true_2 by (by destruct l). cbn [g_assert obind]. rewrite length_app. replace (length l + length [10%Z] - 1)%nat with (length l) by (cbn; lia). rewrite take_app_length.
    destruct (IH fuel (if bool_decide (l = []) then tree else {[l]} ∪ tree)) as (tree' & -> & Ht); [rewrite !length_app in Hf; cbn in Hf; lia|]. exists tree'. split; [done|]. intros v. rewrite Ht, elem_of_cons. case_bool; [subst; naive_solver|]. rewrite elem_of_union, elem_of_singleton. naive_solver.
Qed.
(** The lines of a file, each with its end, are the values that match; empty lines do not count. *)
Theorem filter_in_list_correct (lines : list bytes) (Hl : Forall line_ok lines) : exists tree, filter_in_list_new (Some (lines ≫= fun l => l ++ [10])) = Ret (Some tree) /\ forall v, v ∈ tree <-> v ∈ lines /\ v <> [].
Proof. unfold filter_in_list_new. destruct (load_lines lines Hl (S (length (lines ≫= fun l => l ++ [10%Z]))) ∅ (Nat.lt_succ_diag_r _)) as (tree & -> & Ht). exists tree. split; [done|]. intros v. rewrite Ht. set_solver. Qed.

Module FilterDemo.
(** Rules a and b; pipe 1 is that of a, pipe 2 that of b, pipe 3 a filter of a log path. *)
Definition name (s : string) : bytes := bytes_of_string s.
Definition good : filter_conf (L := bool) := mkFConf (list_to_map [(1, FilterOp false false true (FilterCall true 10 (name "b")) (FilterLeaf false false false)); (2, FilterLeaf false false true); (3, FilterOp false false false (FilterCall false 11 (name "a")) (FilterCall false 12 (name "b")))]) (list_to_map [(name "a", 1); (name "b", 2)]).
Definition looping : filter_conf (L := bool) := mkFConf (list_to_map [(1, FilterCall false 10 (name "b")); (2, FilterOp false false true (FilterLeaf false false true) (FilterCall false 11 (name "a")))]) (list_to_map [(name "a", 1); (name "b", 2)]).
(** A check of [calls_ok]. *)
Definition owners {L} (conf : filter_conf (L := L)) : list (Z * (Z * bytes)) := map_to_list (fc_pipes conf) ≫= fun pe => (fun c => (pe.1, c)) <$> calls pe.2.
Lemma owners_elem {L} (conf : filter_conf (L := L)) (p i : Z) (e : FilterExprNode L) (r : bytes) : fc_pipes conf !! p = Some e -> (i, r) ∈ calls e -> (p, (i, r)) ∈ owners conf.
Proof. intros He Hc. apply list_elem_of_bind. exists (p, e). split; [apply list_elem_of_fmap; by exists (i, r)|by apply elem_of_map_to_list]. Qed.
Lemma calls_ok_check {L} (conf : filter_conf (L := L)) : Forall (fun x => Forall (fun y => x.2.1 = y.2.1 -> x = y) (owners conf)) (owners conf) -> map_Forall (fun _ p => is_Some (fc_pipes conf !! p)) (fc_filters conf) -> calls_ok conf.
Proof.
  intros Ho Hf. split; [|exact Hf]. intros p1 p2 e1 e2 i r1 r2 H1 H2 C1 C2. pose proof (owners_elem conf p1 i e1 r1 H1 C1) as O1. pose proof (owners_elem conf p2 i e2 r2 H2 C2) as O2. rewrite Forall_forall in Ho. specialize (Ho _ O1). rewrite Forall_forall in Ho. specialize (Ho _ O2 eq_refl). simplify_eq. split; congruence.
Qed.
Lemma good_ok : calls_ok good.
Proof. apply calls_ok_check; apply (bool_decide_unpack _); vm_compute; exact I. Qed.
Lemma filter_init_detects_loops_witness : exists ok s, start_pipes good (init_fuel good) [3; 1; 2] not_started = Ret (ok, s) /\ (ok = true <-> Forall (finite good) [3; 1; 2]) /\
  (ok = true -> forall p e, p ∈ [3; 1; 2] -> fc_pipes good !! p = Some e -> exists n f, means good n e f /\
    forall (M : Type) (test : bool -> M -> outcome (bool * M)) (fuel : nat) (m : M), (n < fuel)%nat -> filter_expr_eval test fuel s e m = holds test f m).
Proof. apply (filter_init_detects_loops good [3; 1; 2]); [apply good_ok|]. apply (bool_decide_unpack _). vm_compute. exact I. Defined.
Theorem good_starts : match start_pipes good (init_fuel good) [3; 1; 2] not_started with Ret (true, s) => match fc_pipes good !! 3 with Some e => filter_expr_eval (fun t (n : Z) => Ret (t, n + 1)) 3 s e 0 = Ret (false, 2) | None => False end | _ => False end.
Proof. vm_compute. reflexivity. Qed.
Theorem loop_found : match start_pipes looping (init_fuel looping) [2] not_started with Ret (ok, _) => ok = false | Abort => False end.
Proof. vm_compute. reflexivity. Qed.
(** A rule that is missing leaves its call marked: another start takes it for a loop. *)
Theorem missing_rule_stays_visited : log_filter_pipe_init (mkFConf {[1 := FilterCall false 10 (name "c")]} ∅) 2 1 (not_started (L := bool)) = Ret (false, mkFState ∅ {[10]} ∅).
Proof. vm_compute. reflexivity. Qed.
(** A filter that calls one which changes the message is not marked as changing it. *)
Definition storing : filter_conf (L := bool) := mkFConf {[1 := FilterLeaf false true true]} {[name "a" := 1]}.
Theorem filter_call_hides_modify : log_filter_pipe_new (FilterCall (L := bool) false 10 (name "a")) = 0 /\
  match filter_init storing 2 (FilterCall false 10 (name "a")) not_started with Ret (true, s) => filter_expr_eval (fun (stores : bool) (n : Z) => Ret (true, if stores then n + 1 else n)) 2 s (FilterCall false 10 (name "a")) 0 = Ret (true, 1) | _ => False end.
Proof. vm_compute. split; reflexivity. Qed.
(** As numbers 10 is not below 9; with the flag that is lost the order would be reversed. *)
Theorem numbers_compare_as_strings : fop_cmp_eval (cmp_op_of KW_NUM_LT) (name "10") (name "9") = true /\ fop_cmp_eval (Z.lor FCMP_NUM FCMP_LT) (name "10") (name "9") = true.
Proof. vm_compute. split; reflexivity. Qed.
(** A message of priority 1000 has facility 125. *)
Theorem facility_undefined : filter_facility_eval 1 1000 = Abort.
Proof. vm_compute. reflexivity. Qed.
Theorem in_list_last_line : match filter_in_list_new (Some (name "ab")) with Ret (Some tree) => elements tree = [name "a"] | _ => False end.
Proof. vm_compute. reflexivity. Qed.
Theorem in_list_nul_leaves_buffer : filter_in_list_new (Some [0; 10]) = Abort.
Proof. vm_compute. reflexivity. Qed.

Definition pton6 (s : cstr) : option bytes := if bool_decide (s = name "fe80::1") then Some ([0xfe; 0x80] ++ replicate 13 0 ++ [1]) else None.
Lemma filter_netmask6_matches_prefix_witness : exists address, filter_netmask6_new pton6 false (name "fe80::1" ++ 47 :: name "66") = Ret (address, 66, true) /\
  filter_netmask6_eval false address 66 true (Some (SA_INET6 ([0xfe; 0x80] ++ replicate 14 7))) = Ret (bool_decide (be_value ([0xfe; 0x80] ++ replicate 14 7) / 2 ^ (128 - 66) = be_value ([0xfe; 0x80] ++ replicate 13 0 ++ [1]) / 2 ^ (128 - 66))).
Proof.
  apply (filter_netmask6_matches_prefix pton6 false (name "fe80::1") (name "66") ([0xfe; 0x80] ++ replicate 13 0 ++ [1]) ([0xfe; 0x80] ++ replicate 14 7) 66); try (apply (bool_decide_unpack _); vm_compute; exact I).
  all: first [lia | reflexivity | vm_compute; reflexivity | vm_compute; repeat constructor; discriminate].
Defined.
(** An address of 46 characters does not fit the buffer. *)
Theorem netmask6_leaves_buffer : filter_netmask6_new pton6 false (replicate 46 48) = Abort /\ filter_netmask6_new pton6 false (replicate 46 48 ++ [47; 49]) = Abort.
Proof. vm_compute. split; reflexivity. Qed.
(** A prefix of 0 shifts by 32. *)
Theorem netmask_zero_undefined : prefix_netmask 0 = Abort.
Proof. vm_compute. reflexivity. Qed.
End FilterDemo.
