(* ===== verification/LogPath.v ===== *)
(** * Log paths (lib/logmpx.c, logpipe.h, dgroup.c, logparser.c, logwriter.c, logthrdestdrv.c, logmsg.c)

    A configuration is a tree of pipes.  Messages are objects with numbers: a pipe hands
    on the object it got, a clone is a new object that shares the payload of its
    original until it is written to.  [C] is a payload, the name-value pairs of a
    message; what filters and rewrite rules do with it is a parameter.  A destination puts the
    object into its queue, so it sees what became of it until it is done with it.
    Counters of references and the life of objects are in [LogMsgRef] and [LogMsgCow]. *)
From S2P Require Import Prelude LogMsgRef.

Definition PIF_BRANCH_FINAL : Z := 0x0004.
Definition PIF_BRANCH_FALLBACK : Z := 0x0008.
Definition PIF_HARD_FLOW_CONTROL : Z := 0x0010.
Definition PIF_CLONE : Z := 0x0040.
Definition has_flag (flags f : Z) : bool := bool_decide (Z.land flags f <> 0).

Section path.
Context {C : Type}.
(** A payload with another value, as nv_table_add_value makes it: whether the old table had room.  Without room
    nv_table_realloc gives the object a table of its own. *)
Variable fits : C -> C -> bool.

(** A filter looks at the message, a rewrite rule or a parser changes a value and may reject the message (a parser that sets
    several values is a row of them); a writer is the end of a destination like a file or a connection, [soft]: with LW_SOFT_FLOW_CONTROL;
    a threaded destination has a queue and a thread; a group has its drivers, a multiplexer its branches. *)
Inductive LogPipe := mkPipe (flags : Z) (kind : pipe_kind) (pipe_next : option LogPipe)
with pipe_kind :=
  | PFilter (test : C -> bool)
  | PProcess (process : C -> C * bool)
  | PWriter (dest : Z) (soft : bool)
  | PThreaded (dest : Z)
  | PGroup (drivers : list LogPipe)
  | PMpx (next_hops : list LogPipe).
Definition pipe_flags (p : LogPipe) : Z := match p with mkPipe flags _ _ => flags end.

(** ** Messages *)

(** Who is called with the last acknowledgement: the source, the original, nobody. *)
Inductive ack_func := AckSource | AckClone (original : Z) | AckNull.
#[global] Instance ack_func_eq_dec : EqDecision ack_func.
Proof. solve_decision. Defined.
(** [own]: LF_STATE_OWN_PAYLOAD; [acks]: acknowledgements that are awaited; [abort], [suspend]: some of them were of that kind. *)
Record message := mkMessage { mg_payload : Z; mg_own : bool; mg_referenced : bool; mg_acks : Z; mg_abort : bool; mg_suspend : bool; mg_func : ack_func }.
Record queue_node := mkNode { n_dest : Z; n_msg : Z; n_ack_needed : bool; n_flow : bool }.
(** Writers that have a connection and are not suspended, and queues that have no room. *)
Record surroundings := mkSur { s_up : Z -> bool; s_full : Z -> bool }.
(** What is in queues or on its way from there, and which sources were told that a message is done. *)
Record world := mkWorld { w_msgs : gmap Z message; w_payloads : gmap Z C; w_next : Z; w_kept : list queue_node; w_told : list (Z * AckType); w_sur : surroundings }.
Definition set_msgs (w : world) (msgs : gmap Z message) : world := mkWorld msgs (w_payloads w) (w_next w) (w_kept w) (w_told w) (w_sur w).
Definition put (w : world) (id : Z) (m : message) : world := set_msgs w (<[id := m]> (w_msgs w)).
Definition get_msg (w : world) (id : Z) : outcome message := match w_msgs w !! id with Some m => Ret m | None => Abort end.
Definition get_payload (w : world) (p : Z) : outcome C := match w_payloads w !! p with Some c => Ret c | None => Abort end.
Definition set_acks (m : message) (acks : Z) : message := mkMessage (mg_payload m) (mg_own m) (mg_referenced m) acks (mg_abort m) (mg_suspend m) (mg_func m).
Definition mark_referenced (m : message) : message := mkMessage (mg_payload m) (mg_own m) true (mg_acks m) (mg_abort m) (mg_suspend m) (mg_func m).

(** [log_msg_add_ack], [log_msg_ack], [log_msg_drop], [log_msg_break_ack] and [log_msg_clone_cow] of lib/logmsg.c
    without the cache of counters, which [LogMsgRef] has. *)
Definition path_add_ack (w : world) (id : Z) (o : LogPathOptions) : outcome world :=
  if ack_needed o then let! m := get_msg w id in Ret (put w id (set_acks m (mg_acks m + 1))) else Ret w.
Definition acknowledged (m : message) (ack_type : AckType) : message :=
  mkMessage (mg_payload m) (mg_own m) (mg_referenced m) (mg_acks m - 1) (mg_abort m || bool_decide (ack_type = AT_ABORTED)) (mg_suspend m || bool_decide (ack_type = AT_SUSPENDED)) (mg_func m).
(** What the callback gets; [m] as it was before. *)
Definition passed_type (m : message) (ack_type : AckType) : AckType :=
  if bool_decide (ack_type = AT_SUSPENDED) then AT_SUSPENDED
  else if bool_decide (ack_type = AT_ABORTED) then AT_ABORTED
  else if mg_suspend m then AT_SUSPENDED else if mg_abort m then AT_ABORTED else AT_PROCESSED.
(** The last acknowledgement of a clone is one of its original (log_msg_clone_ack); [fuel] bounds the chain of clones.  An acknowledgement
    too many would borrow from the other fields of the word of counters. *)
Fixpoint path_ack (fuel : nat) (w : world) (id : Z) (o : LogPathOptions) (ack_type : AckType) : outcome world :=
  match fuel with
  | O => Abort
  | S fuel =>
      if ack_needed o then
        let! m := get_msg w id in
        let! _ := g_assert (bool_decide (0 < mg_acks m)) in
        let w := put w id (acknowledged m ack_type) in
        if bool_decide (mg_acks m = 1) then
          match mg_func m with
          | AckSource => Ret (mkWorld (w_msgs w) (w_payloads w) (w_next w) (w_kept w) (w_told w ++ [(id, passed_type m ack_type)]) (w_sur w))
          | AckClone k => path_ack fuel w k (mkLogPathOptions true false) (passed_type m ack_type)
          | AckNull => Abort
          end
        else Ret w
      else Ret w
  end.
Definition path_drop (w : world) (id : Z) (o : LogPathOptions) (ack_type : AckType) : outcome world := path_ack (S (Z.to_nat id)) w id o ack_type.
Definition path_break_ack (w : world) (id : Z) (o : LogPathOptions) : outcome (world * LogPathOptions) :=
  let! _ := g_assert (negb (flow_control_requested o)) in
  let! w := path_drop w id o AT_PROCESSED in Ret (w, mkLogPathOptions false (flow_control_requested o)).
Definition path_clone_cow (w : world) (id : Z) (o : LogPathOptions) : outcome (Z * world) :=
  let! m := get_msg w id in
  let w := put w id (mark_referenced m) in
  let new := w_next w in
  let clone := mkMessage (mg_payload m) false false (if ack_needed o then 1 else 0) false false (if ack_needed o then AckClone id else AckNull) in
  Ret (new, mkWorld (<[new := clone]> (w_msgs w)) (w_payloads w) (new + 1) (w_kept w) (w_told w) (w_sur w)).
(** [log_msg_set_value]: an object that owns its payload changes it in place if there is room, whoever shares it. *)
Definition change (w : world) (id : Z) (c : C) : outcome world :=
  let! m := get_msg w id in
  let! old := get_payload w (mg_payload m) in
  if mg_own m && fits old c then Ret (mkWorld (w_msgs w) (<[mg_payload m := c]> (w_payloads w)) (w_next w) (w_kept w) (w_told w) (w_sur w))
  else
    let p := w_next w in
    Ret (mkWorld (<[id := mkMessage p true (mg_referenced m) (mg_acks m) (mg_abort m) (mg_suspend m) (mg_func m)]> (w_msgs w)) (<[p := c]> (w_payloads w)) (p + 1) (w_kept w) (w_told w) (w_sur w)).

(** ** Destinations *)

(** log_queue_fifo_push_tail; the node takes over the acknowledgement that is awaited. *)
Definition push_tail (w : world) (dest id : Z) (o : LogPathOptions) : outcome world :=
  if s_full (w_sur w) dest then path_drop w id o (if flow_control_requested o then AT_SUSPENDED else AT_PROCESSED)
  else
    let! m := get_msg w id in
    let w := put w id (mark_referenced m) in
    Ret (mkWorld (w_msgs w) (w_payloads w) (w_next w) (w_kept w ++ [mkNode dest id (ack_needed o) (flow_control_requested o)]) (w_told w) (w_sur w)).
(** Without flow control the message is acknowledged when it is queued, unless the writer has soft flow control and is up. *)
Definition log_writer_queue (dest : Z) (soft : bool) (id : Z) (o : LogPathOptions) (w : world) : outcome world :=
  let! (w, o) := (if negb (flow_control_requested o) && (negb (s_up (w_sur w) dest) || negb soft) then path_break_ack w id o else Ret (w, o)) in
  push_tail w dest id o.
(** The result has the options for the pipe behind. *)
Definition log_threaded_dest_driver_queue (dest : Z) (id : Z) (o : LogPathOptions) (w : world) : outcome (world * LogPathOptions) :=
  let! (w, o) := (if negb (flow_control_requested o) then path_break_ack w id o else Ret (w, o)) in
  let! w := path_add_ack w id o in
  let! w := push_tail w dest id o in Ret (w, o).

(** ** Branches *)

Definition fallback_exists (hops : list LogPipe) : bool := existsb (fun h => has_flag (pipe_flags h) PIF_BRANCH_FALLBACK) hops.
Definition hop_options (o : LogPathOptions) (h : LogPipe) : LogPathOptions := mkLogPathOptions (ack_needed o) (flow_control_requested o || has_flag (pipe_flags h) PIF_HARD_FLOW_CONTROL).
(** The message for a branch: the same object or a clone. *)
Definition next_msg (w : world) (id : Z) (o : LogPathOptions) (hop : LogPipe) (last_delivery : bool) : outcome (Z * world) :=
  let! w := path_add_ack w id o in
  let! m := get_msg w id in
  if has_flag (pipe_flags hop) PIF_CLONE && (mg_referenced m || negb last_delivery) then path_clone_cow w id o else Ret (id, w).
(** The results tell whether [matched] is still set; [queue] is that of a pipe. *)
Definition each_driver (queue : LogPipe -> Z -> LogPathOptions -> world -> outcome (world * bool)) (id : Z) (o : LogPathOptions) : list LogPipe -> world -> bool -> outcome (world * bool) :=
  fix each (ds : list LogPipe) (w : world) (matched : bool) :=
    match ds with
    | [] => Ret (w, matched)
    | d :: ds => let! w := path_add_ack w id o in let! (w, b) := queue d id o w in each ds w (matched && b)
    end.
(** One round over the branches, of those for messages that no other took if [fallback]; [ends]: no pipe
    comes behind. *)
Definition mpx_round (queue : LogPipe -> Z -> LogPathOptions -> world -> outcome (world * bool)) (id : Z) (o : LogPathOptions) (ends fallbacks fallback : bool) : list LogPipe -> bool -> world -> outcome (world * bool) :=
  fix round (hs : list LogPipe) (delivered : bool) (w : world) :=
    match hs with
    | [] => Ret (w, delivered)
    | h :: hs =>
        if negb (Bool.eqb (has_flag (pipe_flags h) PIF_BRANCH_FALLBACK) fallback) then round hs delivered w
        else
          let last_delivery := ends && bool_decide (hs = []) && (negb fallbacks || delivered || fallback) in
          let! (next, w) := next_msg w id (hop_options o h) h last_delivery in
          let! (w, matched) := queue h next (hop_options o h) w in
          if matched : bool then if has_flag (pipe_flags h) PIF_BRANCH_FINAL then Ret (w, true) else round hs true w
          else round hs delivered w
    end.
Fixpoint log_pipe_queue (p : LogPipe) (id : Z) (o : LogPathOptions) (w : world) : outcome (world * bool) :=
  match p with
  | mkPipe flags kind pipe_next =>
      let forward (o : LogPathOptions) (w : world) : outcome (world * bool) :=
        match pipe_next with Some q => log_pipe_queue q id o w | None => let! w := path_drop w id o AT_PROCESSED in Ret (w, true) end in
      match kind with
      | PFilter test =>
          let! m := get_msg w id in
          let! c := get_payload w (mg_payload m) in
          if test c then forward o w else let! w := path_drop w id o AT_PROCESSED in Ret (w, false)
      | PProcess process =>
          let! m := get_msg w id in
          let! c := get_payload w (mg_payload m) in
          let '(c, success) := process c in
          let! w := change w id c in
          if success : bool then forward o w else let! w := path_drop w id o AT_PROCESSED in Ret (w, false)
      | PWriter dest soft => let! w := log_writer_queue dest soft id o w in Ret (w, true)
      | PThreaded dest => let! (w, o) := log_threaded_dest_driver_queue dest id o w in forward o w
      | PGroup drivers =>
          let! (w, matched) := each_driver log_pipe_queue id o drivers w true in
          let! (w, b) := forward o w in Ret (w, matched && b)
      | PMpx hops =>
          let fallbacks := fallback_exists hops in
          let ends := bool_decide (pipe_next = None) in
          let! (w, delivered) := mpx_round log_pipe_queue id o ends fallbacks false hops false w in
          let! (w, _) := (if fallbacks && negb delivered then mpx_round log_pipe_queue id o ends fallbacks true hops delivered w else Ret (w, delivered)) in
          forward o w
      end
  end.

(** A new message, with the acknowledgement its source awaits (log_source_queue). *)
Definition new_message (w : world) (c : C) : Z * world :=
  let n := w_next w in
  (n, mkWorld (<[n := mkMessage n true false 1 false false AckSource]> (w_msgs w)) (<[n := c]> (w_payloads w)) (n + 1) (w_kept w) (w_told w) (w_sur w)).
Definition source_options : LogPathOptions := mkLogPathOptions true false.

(** A source sends a message; a destination is done with the node at place [n], or gives it up; connections and queues change. *)
Inductive path_op := Send (c : C) | Finish (n : nat) (ack_type : AckType) | Surroundings (s : surroundings).
Definition unkeep (w : world) (n : nat) : world := mkWorld (w_msgs w) (w_payloads w) (w_next w) (delete n (w_kept w)) (w_told w) (w_sur w).
Definition path_step (p : LogPipe) (w : world) (op : path_op) : outcome world :=
  match op with
  | Send c => let '(id, w) := new_message w c in let! (w, _) := log_pipe_queue p id source_options w in Ret w
  | Finish n ack_type => match w_kept w !! n with Some x => path_drop (unkeep w n) (n_msg x) (mkLogPathOptions (n_ack_needed x) (n_flow x)) ack_type | None => Ret w end
  | Surroundings s => Ret (mkWorld (w_msgs w) (w_payloads w) (w_next w) (w_kept w) (w_told w) s)
  end.
Fixpoint path_run (p : LogPipe) (ops : list path_op) (w : world) : outcome world := match ops with [] => Ret w | op :: ops => let! w := path_step p w op in path_run p ops w end.
Definition empty_world (s : surroundings) : world := mkWorld ∅ ∅ 0 [] [] s.

(** ** What is meant *)

(** Where a message with payload [c] goes, with which payload, and whether the source waits for that destination; each branch
    sees what came to the fork. *)
Definition each_of (deliver : LogPipe -> LogPathOptions -> C -> list (Z * C * bool) * bool) (o : LogPathOptions) (c : C) : list LogPipe -> list (Z * C * bool) * bool :=
  fix each (ds : list LogPipe) := match ds with [] => ([], true) | d :: ds => let '(l, b) := deliver d o c in let '(l', b') := each ds in (l ++ l', b && b') end.
Definition round_of (deliver : LogPipe -> LogPathOptions -> C -> list (Z * C * bool) * bool) (o : LogPathOptions) (c : C) (fallback : bool) : list LogPipe -> list (Z * C * bool) * bool :=
  fix round (hs : list LogPipe) :=
    match hs with
    | [] => ([], false)
    | h :: hs =>
        if negb (Bool.eqb (has_flag (pipe_flags h) PIF_BRANCH_FALLBACK) fallback) then round hs
        else
          let '(l, matched) := deliver h (hop_options o h) c in
          if matched && has_flag (pipe_flags h) PIF_BRANCH_FINAL then (l, true)
          else let '(l', delivered) := round hs in (l ++ l', matched || delivered)
    end.
Definition queued (s : surroundings) (dest : Z) (c : C) (waits : bool) : list (Z * C * bool) := if s_full s dest then [] else [(dest, c, waits)].
Fixpoint deliver (s : surroundings) (p : LogPipe) (o : LogPathOptions) (c : C) : list (Z * C * bool) * bool :=
  match p with
  | mkPipe flags kind pipe_next =>
      let forward (o : LogPathOptions) (c : C) := match pipe_next with Some q => deliver s q o c | None => ([], true) end in
      match kind with
      | PFilter test => if test c then forward o c else ([], false)
      | PProcess process => let '(c, success) := process c in if success : bool then forward o c else ([], false)
      | PWriter dest soft => (queued s dest c (ack_needed o && (flow_control_requested o || soft && s_up s dest)), true)
      | PThreaded dest =>
          let o := mkLogPathOptions (ack_needed o && flow_control_requested o) (flow_control_requested o) in
          let '(l, b) := forward o c in (queued s dest c (ack_needed o) ++ l, b)
      | PGroup drivers => let '(l, b) := each_of (deliver s) o c drivers in let '(l', b') := forward o c in (l ++ l', b && b')
      | PMpx hops =>
          let '(l1, delivered) := round_of (deliver s) o c false hops in
          let l2 := if negb delivered then (round_of (deliver s) o c true hops).1 else [] in
          let '(l3, b) := forward o c in (l1 ++ l2 ++ l3, b)
      end
  end.
Definition spec_step (p : LogPipe) (st : surroundings * list (Z * C * bool)) (op : path_op) : surroundings * list (Z * C * bool) :=
  match op with Send c => (st.1, st.2 ++ (deliver st.1 p source_options c).1) | Finish n _ => (st.1, delete n st.2) | Surroundings s => (s, st.2) end.
Definition spec_run (p : LogPipe) (s : surroundings) (ops : list path_op) : surroundings * list (Z * C * bool) := foldl (spec_step p) (s, []) ops.

(** ** Marks *)

(** Nothing from here on changes the message. *)
Fixpoint looks (p : LogPipe) : Prop :=
  match p with
  | mkPipe flags kind pipe_next =>
      match pipe_next with Some q => looks q | None => True end /\
      match kind with
      | PFilter _ | PWriter _ _ | PThreaded _ => True
      | PProcess _ => False
      | PGroup l | PMpx l => foldr (fun d acc => looks d /\ acc) True l
      end
  end.
(** Nothing of the chain itself changes it. *)
Fixpoint tame (p : LogPipe) : Prop :=
  match p with
  | mkPipe flags kind pipe_next => match pipe_next with Some q => tame q | None => True end /\ match kind with PProcess _ => False | _ => True end
  end.
Definition marked (p : LogPipe) : Prop := has_flag (pipe_flags p) PIF_CLONE = true.
Definition next_tame (pipe_next : option LogPipe) : Prop := match pipe_next with Some q => tame q | None => True end.
(** A branch that changes the message is marked; behind a destination or a fork nothing of the same chain changes the message. *)
Fixpoint well_marked (p : LogPipe) : Prop :=
  match p with
  | mkPipe flags kind pipe_next =>
      match pipe_next with Some q => well_marked q | None => True end /\
      match kind with
      | PFilter _ | PProcess _ | PWriter _ _ => True
      | PThreaded _ => next_tame pipe_next
      | PGroup l => foldr (fun d acc => (well_marked d /\ looks d) /\ acc) True l /\ next_tame pipe_next
      | PMpx l => foldr (fun h acc => (well_marked h /\ (marked h \/ looks h)) /\ acc) True l /\ next_tame pipe_next
      end
  end.

Lemma LogPipe_nested_ind (P : LogPipe -> Prop) : (forall flags kind next, (forall q, next = Some q -> P q) -> match kind with PGroup l | PMpx l => Forall P l | _ => True end -> P (mkPipe flags kind next)) -> forall p, P p.
Proof.
  intros H. fix IH 1. intros [flags kind next]. apply H.
  - destruct next as [q|]; [|intros q' E; discriminate E]. intros q' [= <-]. apply IH.
  - destruct kind as [t|f|d s|d|l|l]; try exact I; (induction l as [|x l IHl]; constructor; [apply IH|exact IHl]).
Qed.
End path.
