(* ===== verification/LogPathAcks.v ===== *)
(** * Acknowledgements on log paths

    Every object awaits as many acknowledgements as calls in hand, queues and clones owe it; so every
    call returns and the source is told once.  This holds for every tree of pipes. *)
From S2P Require Import Prelude LogMsgRef LogPath.

(** ** Counting *)

Fixpoint cnt (i : Z) (l : list Z) : Z := match l with [] => 0 | x :: l => (if bool_decide (x = i) then 1 else 0) + cnt i l end.
Lemma cnt_app (i : Z) (l k : list Z) : cnt i (l ++ k) = cnt i l + cnt i k.
Proof. induction l as [|x l IH]; cbn; [done|]. rewrite IH. lia. Qed.
Lemma cnt_nonneg (i : Z) (l : list Z) : 0 <= cnt i l.
Proof. induction l as [|x l IH]; cbn; [done|]. case_bool; lia. Qed.
Lemma cnt_zero (i : Z) (l : list Z) : i ∉ l -> cnt i l = 0.
Proof. induction l as [|x l IH]; cbn; [done|]. intros [H1 H2]%not_elem_of_cons. rewrite bool_decide_eq_false_2, IH by (done || congruence). done. Qed.
Lemma cnt_pos (i : Z) (l : list Z) : i ∈ l -> 0 < cnt i l.
Proof. induction 1 as [x l|x y l H IH]; cbn; [rewrite bool_decide_eq_true_2 by done; pose proof (cnt_nonneg x l); lia|]. case_bool; lia. Qed.
Lemma cnt_elem (i : Z) (l : list Z) : 0 < cnt i l -> i ∈ l.
Proof. destruct (decide (i ∈ l)) as [|H]; [done|]. rewrite cnt_zero by done. lia. Qed.

Definition waits_of (l : list queue_node) : list Z := omap (fun x => if n_ack_needed x then Some (n_msg x) else None) l.
#[global] Arguments waits_of : simpl never.
Lemma waits_app (l k : list queue_node) : waits_of (l ++ k) = waits_of l ++ waits_of k.
Proof. apply omap_app. Qed.
Lemma waits_elem (l : list queue_node) (i : Z) : i ∈ waits_of l <-> exists x, x ∈ l /\ n_ack_needed x = true /\ n_msg x = i.
Proof.
  unfold waits_of. rewrite list_elem_of_omap. split; intros (x & Hx & E); exists x; [destruct (n_ack_needed x); [by injection E as <-|done]|]. split; [done|]. destruct E as [-> ->]. done.
Qed.
Definition failed (m : message) : bool := mg_abort m || mg_suspend m.
Lemma passed_failed (m : message) (ty : AckType) : (passed_type m ty <> AT_PROCESSED <-> failed (acknowledged m ty) = true).
Proof. unfold passed_type, failed. cbn. destruct ty, (mg_abort m), (mg_suspend m); cbn; split; (done || congruence). Qed.
Lemma failed_not (m : message) (ty : AckType) : ty = AT_PROCESSED -> failed (acknowledged m ty) = failed m.
Proof. intros ->. unfold failed. cbn. by rewrite !orb_false_r. Qed.
Lemma failed_mono (m : message) (ty : AckType) : failed m = true -> failed (acknowledged m ty) = true.
Proof. unfold failed. cbn. destruct (mg_abort m), (mg_suspend m); by rewrite ?orb_true_r. Qed.

Section acks.
Context {C : Type}.
Variable fits : C -> C -> bool.
Abbreviation world := (world (C := C)).
Abbreviation Pipe := (LogPath.LogPipe (C := C)).

(** ** The invariant *)

(** [held]: objects that calls have in hand with an acknowledgement to give; [par]: clones that still await something, with their
    originals.  [pend]: the object that is about to get an acknowledgement that is not AT_PROCESSED. *)
Record acks_inv (held : list Z) (par : list (Z * Z)) (pend : option Z) (w : world) : Prop := {
  av_nonneg : 0 <= w_next w;
  av_next : forall i, is_Some (w_msgs w !! i) -> 0 <= i < w_next w;
  av_acks : forall i m, w_msgs w !! i = Some m -> mg_acks m = cnt i held + cnt i (waits_of (w_kept w)) + cnt i par.*2;
  av_par : forall j i, (j, i) ∈ par <-> exists m, w_msgs w !! j = Some m /\ mg_func m = AckClone i /\ 0 < mg_acks m;
  av_nodup : NoDup par.*1;
  av_orig : forall j m i, w_msgs w !! j = Some m -> mg_func m = AckClone i -> i < j /\ exists mi, w_msgs w !! i = Some mi /\ mg_func mi <> AckNull;
  av_held : forall i, i ∈ held \/ i ∈ waits_of (w_kept w) -> exists m, w_msgs w !! i = Some m /\ mg_func m <> AckNull;
  av_node : forall x, x ∈ w_kept w -> is_Some (w_msgs w !! n_msg x);
  av_payload : forall i m, w_msgs w !! i = Some m -> is_Some (w_payloads w !! mg_payload m);
  av_told : forall i, cnt i (w_told w).*1 = match w_msgs w !! i with Some m => if bool_decide (mg_func m = AckSource /\ mg_acks m = 0) then 1 else 0 | None => 0 end;
  av_type : forall i ty, (i, ty) ∈ w_told w -> exists m, w_msgs w !! i = Some m /\ (ty <> AT_PROCESSED <-> failed m = true);
  av_bits : forall j mj i mi, w_msgs w !! j = Some mj -> mg_func mj = AckClone i -> mg_acks mj = 0 -> failed mj = true -> w_msgs w !! i = Some mi -> failed mi = true \/ pend = Some i }.
Definition wf_world (held : list Z) (w : world) : Prop := exists par, acks_inv held par None w.
Definition hold (o : LogPathOptions) (id : Z) (held : list Z) : list Z := if ack_needed o then id :: held else held.
(** Objects stay. *)
Definition lives (w w' : world) : Prop := forall i, is_Some (w_msgs w !! i) -> is_Some (w_msgs w' !! i).
Lemma lives_trans (w1 w2 w3 : world) : lives w1 w2 -> lives w2 w3 -> lives w1 w3.
Proof. unfold lives. auto. Qed.
Lemma lives_put (w : world) (id : Z) (m : message) : lives w (put w id m).
Proof. intros i Hi. cbn. apply lookup_insert_is_Some'. by right. Qed.

Definition told_now (m : message) (a : Z) : Z := if bool_decide (mg_func m = AckSource /\ a = 0) then 1 else 0.
(** Another object in place of [m]; who holds what after that. *)
Lemma inv_put (held held' : list Z) (par par' : list (Z * Z)) (pend pend' : option Z) (w : world) (id : Z) (m m' : message) (kept' : list queue_node) (told' : list (Z * AckType)) : acks_inv held par pend w -> w_msgs w !! id = Some m -> mg_func m' = mg_func m -> mg_payload m' = mg_payload m ->
  (forall i, cnt i held' + cnt i (waits_of kept') + cnt i par'.*2 = cnt i held + cnt i (waits_of (w_kept w)) + cnt i par.*2 + if bool_decide (i = id) then mg_acks m' - mg_acks m else 0) ->
  (forall j i, (j, i) ∈ par' <-> if bool_decide (j = id) then mg_func m = AckClone i /\ 0 < mg_acks m' else (j, i) ∈ par) -> NoDup par'.*1 ->
  (forall i, i ∈ held' \/ i ∈ waits_of kept' -> exists m, w_msgs w !! i = Some m /\ mg_func m <> AckNull) ->
  (forall x, x ∈ kept' -> is_Some (w_msgs w !! n_msg x)) ->
  (forall i, cnt i told'.*1 = cnt i (w_told w).*1 + if bool_decide (i = id) then told_now m (mg_acks m') - told_now m (mg_acks m) else 0) ->
  (forall i ty, (i, ty) ∈ told' -> if bool_decide (i = id) then (ty <> AT_PROCESSED <-> failed m' = true) else (i, ty) ∈ w_told w) ->
  (forall i, mg_acks m' = 0 -> failed m' = true -> mg_func m = AckClone i -> pend' = Some i \/ (mg_acks m = 0 /\ failed m = true /\ pend = None)) -> (pend = None \/ pend = Some id /\ failed m' = true) -> (failed m = true -> failed m' = true) ->
  acks_inv held' par' pend' (mkWorld (<[id := m']> (w_msgs w)) (w_payloads w) (w_next w) kept' told' (w_sur w)).
Proof.
  intros I Hm Hf Hpl Hc Hp Hn Hh Hx Ha Ht Hb Hpd Hmono. set (M := <[id := m']> (w_msgs w)).
  assert (Hl : forall i x, M !! i = Some x -> exists y, w_msgs w !! i = Some y /\ mg_func x = mg_func y /\ mg_payload x = mg_payload y /\ (i = id -> x = m' /\ y = m) /\ (i <> id -> x = y)).
  { intros i x. unfold M. destruct (decide (i = id)) as [->|Hne]; [rewrite lookup_insert_eq; intros [= <-]; exists m; by split_and!|rewrite lookup_insert_ne by done; intros E; exists x; by split_and!]. }
  assert (Hr : forall i y, w_msgs w !! i = Some y -> exists x, M !! i = Some x /\ mg_func x = mg_func y).
  { intros i y Hy. unfold M. destruct (decide (i = id)) as [->|Hne]; [rewrite lookup_insert_eq; exists m'; split; [done|congruence]|rewrite lookup_insert_ne by done; by exists y]. }
  split; cbn; fold M.
  - apply I.
  - intros i [x Hi]. destruct (Hl i x Hi) as (y & Hy & _). apply (av_next _ _ _ _ I). by rewrite Hy.
  - intros i x Hi. destruct (Hl i x Hi) as (y & Hy & _ & _ & He & Hne). pose proof (av_acks _ _ _ _ I i y Hy). specialize (Hc i). case_bool; [destruct (He Hb0) as [-> ->]; lia|rewrite (Hne Hb0); lia].
  - intros j i. rewrite Hp. case_bool; [subst; unfold M; rewrite lookup_insert_eq|unfold M; rewrite lookup_insert_ne by done; apply I]. split; [intros [? ?]; exists m'; split_and!; [done|congruence|done]|intros (x & [= <-] & ? & ?); split; [congruence|done]].
  - done.
  - intros j x i Hj Ho. destruct (Hl j x Hj) as (y & Hy & Ef & _). destruct (av_orig _ _ _ _ I j y i Hy ltac:(congruence)) as (? & mi & Hi & Hnn). split; [done|]. destruct (Hr i mi Hi) as (x' & Hx' & E'). exists x'. split; [done|congruence].
  - intros i Hi. destruct (Hh i Hi) as (y & Hy & Hnn). destruct (Hr i y Hy) as (x & Hx' & E'). exists x. split; [done|congruence].
  - intros x Hi. destruct (Hx x Hi) as [y Hy]. destruct (Hr _ y Hy) as (x' & Hx' & _). by rewrite Hx'.
  - intros i x Hi. destruct (Hl i x Hi) as (y & Hy & _ & -> & _). by apply (av_payload _ _ _ _ I i).
  - intros i. rewrite Ha, (av_told _ _ _ _ I i). unfold M. case_bool; [subst; rewrite Hm, lookup_insert_eq; unfold told_now; rewrite Hf; lia|rewrite lookup_insert_ne by done; lia].
  - intros i ty Hi. specialize (Ht i ty Hi). case_bool; [subst; exists m'; split; [unfold M; apply lookup_insert_eq|done]|]. unfold M. rewrite lookup_insert_ne by done. by apply (av_type _ _ _ _ I).
  - intros j mj i mi Hj Ho Hz Hfl Hi. destruct (Hl j mj Hj) as (yj & Hyj & Efj & _ & Ej & Nj). destruct (Hl i mi Hi) as (yi & Hyi & _ & _ & Ei & Ni). assert (Hmi : failed yi = true -> failed mi = true) by (intros E; destruct (decide (i = id)) as [e|n]; [destruct (Ei e); subst; by apply Hmono|by rewrite (Ni n)]).
    assert (Hold : mg_acks yj = 0 -> failed yj = true -> failed mi = true \/ pend' = Some i). { intros Hz' Hf'. destruct (av_bits _ _ _ _ I j yj i yi Hyj ltac:(congruence) Hz' Hf' Hyi) as [Hg|Hg]; [left; by apply Hmi|]. destruct Hpd as [->|[-> Hg']]; [done|]. injection Hg as ->. left. destruct (Ei eq_refl) as [-> _]. done. }
    destruct (decide (j = id)) as [e|n]; [|rewrite (Nj n) in *; by apply Hold]. destruct (Ej e) as [-> ->]. destruct (Hb i Hz Hfl ltac:(congruence)) as [?|(? & ? & _)]; [by right|by apply Hold].
Qed.
Lemma par_orig (held : list Z) (par : list (Z * Z)) (pend : option Z) (w : world) (id k : Z) (m : message) : acks_inv held par pend w -> w_msgs w !! id = Some m -> 0 < mg_acks m -> mg_func m = AckClone k ->
  exists l1 l2, par = l1 ++ (id, k) :: l2 /\ NoDup (l1 ++ l2).*1 /\ forall j i, (j, i) ∈ l1 ++ l2 <-> j <> id /\ (j, i) ∈ par.
Proof.
  intros I Hm Hp Ho. assert (Hk : (id, k) ∈ par) by (apply (av_par _ _ _ _ I); by exists m). apply list_elem_of_split in Hk as (l1 & l2 & ->). exists l1, l2. pose proof (av_nodup _ _ _ _ I) as Nd. rewrite fmap_app in Nd. cbn in Nd. apply NoDup_app in Nd as (N1 & Hd & [Hn N2]%NoDup_cons). split; [done|]. split.
  - rewrite fmap_app. apply NoDup_app. split_and!; [done| |done]. intros x Hx Hx2. apply (Hd x Hx). by right.
  - intros j i. rewrite !elem_of_app, elem_of_cons. split; [|intros [Hne [?|[[= -> ->]|?]]]; [by left|done|by right]]. intros Hj. split; [intros ->|destruct Hj; [by left|right; by right]].
    destruct Hj as [Hj|Hj]; [apply (Hd id); [apply list_elem_of_fmap; by exists (id, i)|by left]|apply Hn, list_elem_of_fmap; by exists (id, i)].
Qed.
Lemma par_func (held : list Z) (par : list (Z * Z)) (pend : option Z) (w : world) (id : Z) (m : message) (j i : Z) : acks_inv held par pend w -> w_msgs w !! id = Some m -> (j, i) ∈ par -> j = id -> mg_func m = AckClone i.
Proof. intros I Hm Hj ->. apply (av_par _ _ _ _ I) in Hj as (m0 & Hm0 & Ho & _). congruence. Qed.
(** The count of an object stays positive, or stays. *)
Lemma inv_keep_par (held : list Z) (par : list (Z * Z)) (pend : option Z) (w : world) (id : Z) (m : message) (a : Z) (j i : Z) : acks_inv held par pend w -> w_msgs w !! id = Some m -> (0 < mg_acks m <-> 0 < a) -> (j, i) ∈ par <-> if bool_decide (j = id) then mg_func m = AckClone i /\ 0 < a else (j, i) ∈ par.
Proof.
  intros I Hm Ha. case_bool; [subst|done]. rewrite (av_par _ _ _ _ I id i). split; [intros (m0 & Hm0 & Ho & Hp); simplify_eq; split; [done|by apply Ha]|intros [Ho Hp]; exists m; split_and!; [done|done|by apply Ha]].
Qed.
Lemma held_acks (held : list Z) (par : list (Z * Z)) (pend : option Z) (w : world) (id : Z) (m : message) : acks_inv held par pend w -> w_msgs w !! id = Some m -> id ∈ held -> 0 < mg_acks m.
Proof. intros I Hm Hi. rewrite (av_acks _ _ _ _ I id m Hm). pose proof (cnt_pos id held Hi). pose proof (cnt_nonneg id (waits_of (w_kept w))). pose proof (cnt_nonneg id par.*2). lia. Qed.
Lemma told_type (held : list Z) (par : list (Z * Z)) (pend : option Z) (w : world) (id : Z) (m : message) (ty : AckType) : acks_inv held par pend w -> w_msgs w !! id = Some m -> (id, ty) ∈ w_told w -> mg_acks m = 0.
Proof.
  intros I Hm Ht. assert (Hc : 0 < cnt id (w_told w).*1) by (apply cnt_pos, list_elem_of_fmap; by exists (id, ty)). rewrite (av_told _ _ _ _ I id), Hm in Hc. case_bool; [tauto|lia].
Qed.

(** ** Acknowledging *)

Definition pending (id : Z) (ty : AckType) : option Z := match ty with AT_ABORTED | AT_SUSPENDED => Some id | _ => None end.
Lemma path_ack_ok (fuel : nat) : forall held par w id o ty, ack_needed o = true -> acks_inv (id :: held) par (pending id ty) w -> (Z.to_nat id < fuel)%nat ->
  exists w' par', path_ack fuel w id o ty = Ret w' /\ acks_inv held par' None w' /\ lives w w'.
Proof.
  induction fuel as [|fuel IH]; intros held par w id o ty Ho I Hf; [lia|]. cbn [path_ack]. rewrite Ho. destruct (av_held _ _ _ _ I id) as (m & Hm & Hnn); [left; by left|]. unfold get_msg. rewrite Hm. cbn [obind].
  pose proof (av_acks _ _ _ _ I id m Hm) as Ha. cbn [cnt] in Ha. rewrite bool_decide_eq_true_2 in Ha by done. pose proof (cnt_nonneg id held). pose proof (cnt_nonneg id (waits_of (w_kept w))). pose proof (cnt_nonneg id par.*2).
  rewrite bool_decide_eq_true_2 by lia. cbn [g_assert obind]. assert (Hcnt : forall i, cnt i (id :: held) = cnt i held + if bool_decide (i = id) then 1 else 0) by (intros i; cbn; do 2 case_bool; lia).
  assert (Hh : forall i, i ∈ held \/ i ∈ waits_of (w_kept w) -> exists m, w_msgs w !! i = Some m /\ mg_func m <> AckNull) by (intros i [Hi|Hi]; apply (av_held _ _ _ _ I); [left; by right|by right]).
  assert (Hpd : pending id ty = None \/ pending id ty = Some id /\ failed (acknowledged m ty) = true). { unfold failed. destruct ty; cbn; rewrite ?orb_true_r; auto. }
  assert (Hty : forall ty', (id, ty') ∈ w_told w -> False) by (intros ty' Ht; pose proof (told_type _ _ _ _ id m ty' I Hm Ht); lia).
  destruct (bool_decide_reflect (mg_acks m = 1)) as [E1|E1].
  - destruct (mg_func m) as [|k|] eqn:Eo; [| |done].
    + eexists _, par. split_and!; [done| |apply lives_put]. apply (inv_put (id :: held) held par par (pending id ty) None w id m); [done|done|done|done| | |apply I|done|apply I| | | |done|by apply failed_mono].
      * intros i. rewrite Hcnt. cbn. case_bool; lia.
      * intros j i. case_bool; [|done]. split; [intros Hj; pose proof (par_func _ _ _ _ id m j i I Hm Hj ltac:(done)); congruence|intros [? ?]; congruence].
      * intros i. unfold told_now. rewrite fmap_app, cnt_app, Eo. cbn. rewrite (bool_decide_eq_true_2 (AckSource = AckSource /\ mg_acks m - 1 = 0)) by (split; [done|lia]). rewrite (bool_decide_eq_false_2 (AckSource = AckSource /\ mg_acks m = 0)) by (intros [_ ?]; lia). do 2 case_bool; lia.
      * intros i t [Hi|[= -> ->]%list_elem_of_singleton]%elem_of_app; [|rewrite bool_decide_eq_true_2 by done; apply passed_failed]. case_bool; [subst; by destruct (Hty t)|done].
      * intros i _ _ Hc. congruence.
    + destruct (par_orig _ _ _ _ id k m I Hm ltac:(lia) Eo) as (l1 & l2 & -> & Nd & Hp). destruct (av_orig _ _ _ _ I id m k Hm Eo) as (Hlt & mk & Hmk & Hkn). pose proof (av_next _ _ _ _ I k ltac:(by rewrite Hmk)) as Hk0.
      destruct (IH held (l1 ++ l2) (put w id (acknowledged m ty)) k (mkLogPathOptions true false) (passed_type m ty) eq_refl) as (w' & par' & -> & I' & S'); [|lia|exists w', par'; split_and!; [done|done|eapply lives_trans; [apply lives_put|done]]].
      apply (inv_put (id :: held) (k :: held) (l1 ++ (id, k) :: l2) (l1 ++ l2) (pending id ty) (pending k (passed_type m ty)) w id m); [done|done|done|done| | |done| |apply I| | | |done|by apply failed_mono].
      * intros i. rewrite Hcnt, !fmap_app, !cnt_app. cbn. do 2 case_bool; lia.
      * intros j i. rewrite Hp. case_bool; [split; [tauto|cbn; lia]|tauto].
      * intros i [[->|Hi]%elem_of_cons|Hi]; [by exists mk|apply Hh; by left|apply Hh; by right].
      * intros i. unfold told_now. rewrite Eo. rewrite !(bool_decide_eq_false_2 (AckClone k = AckSource /\ _)) by (intros [? _]; done). cbn. case_bool; lia.
      * intros i t Hi. case_bool; [subst; by destruct (Hty t)|done].
      * intros i _ Hfl Hc. rewrite Eo in Hc. injection Hc as <-. left. apply passed_failed in Hfl. revert Hfl. unfold passed_type. destruct ty; cbn; try done; destruct (mg_suspend m), (mg_abort m); done.
  - eexists _, par. split_and!; [done| |apply lives_put]. apply (inv_put (id :: held) held par par (pending id ty) None w id m); [done|done|done|done| | |apply I|done|apply I| | | |done|by apply failed_mono].
    + intros i. rewrite Hcnt. cbn. case_bool; lia.
    + intros j i. eapply inv_keep_par; [done|done|cbn; lia].
    + intros i. unfold told_now. cbn. rewrite !(bool_decide_eq_false_2 (mg_func m = AckSource /\ _)) by (intros [_ ?]; lia). case_bool; lia.
    + intros i t Hi. case_bool; [subst; by destruct (Hty t)|done].
    + cbn. intros i Hz. lia.
Qed.
(** Somebody who has the object in hand may fail it. *)
Lemma inv_pending (held : list Z) (par : list (Z * Z)) (pend : option Z) (w : world) : acks_inv held par None w -> acks_inv held par pend w.
Proof. intros []. split; try done. intros j mj i mi Hj Hf Hz Hb Hi. destruct (av_bits0 j mj i mi Hj Hf Hz Hb Hi) as [?|Hn]; [by left|discriminate Hn]. Qed.
Lemma drop_ok (held : list Z) (w : world) (id : Z) (o : LogPathOptions) (ty : AckType) : wf_world (hold o id held) w -> exists w', path_drop w id o ty = Ret w' /\ wf_world held w' /\ lives w w'.
Proof.
  intros (par & I). unfold path_drop. unfold hold in I. destruct (ack_needed o) eqn:Eo; [|exists w; cbn [path_ack]; rewrite Eo; split_and!; [done|by exists par|by intros i]].
  destruct (path_ack_ok (S (Z.to_nat id)) held par w id o ty Eo (inv_pending _ _ _ _ I)) as (w' & par' & E & I' & R); [lia|]. exists w'. split; [done|]. split; [by exists par'|done].
Qed.
(** Fields that acknowledgements do not count. *)
Lemma put_ok (held : list Z) (w : world) (id : Z) (m m' : message) : wf_world held w -> w_msgs w !! id = Some m -> mg_func m' = mg_func m -> mg_payload m' = mg_payload m -> mg_acks m' = mg_acks m -> failed m' = failed m -> wf_world held (put w id m').
Proof.
  intros (par & I) Hm Hf Hp Ha Hb. exists par. apply (inv_put held held par par None None w id m); [done|done|done|done| | |apply I|apply (av_held _ _ _ _ I)|apply I| | | |by left|by rewrite Hb].
  - intros i. cbn. case_bool; lia.
  - intros j i. rewrite Ha. by eapply inv_keep_par.
  - intros i. rewrite Ha. case_bool; lia.
  - intros i ty Hi. case_bool; [subst|done]. destruct (av_type _ _ _ _ I id ty Hi) as (x & Hx & E). simplify_eq. by rewrite Hb.
  - intros i Hz Hfl Hc. right. split_and!; [lia|congruence|done].
Qed.
Lemma add_ack_ok (held : list Z) (w : world) (id : Z) (o : LogPathOptions) : wf_world (hold o id held) w -> is_Some (w_msgs w !! id) ->
  exists w', path_add_ack w id o = Ret w' /\ wf_world (hold o id (hold o id held)) w' /\ lives w w'.
Proof.
  intros (par & I) [m Hm]. unfold path_add_ack, hold in *. destruct (ack_needed o); [|exists w; split_and!; [done|by exists par|by intros i]]. unfold get_msg. rewrite Hm. cbn [obind]. eexists. split; [done|]. split; [|apply lives_put]. exists par. assert (Hid : id ∈ id :: held) by by left. pose proof (held_acks _ _ _ _ id m I Hm Hid) as Hp. destruct (av_held _ _ _ _ I id (or_introl Hid)) as (m0 & Hm0 & Hnn). simplify_eq.
  apply (inv_put (id :: held) (id :: id :: held) par par None None w id m); [done|done|done|done| | |apply I| |apply I| | | |by left|done].
  - intros i. cbn. do 2 case_bool; try lia; congruence.
  - intros j i. eapply inv_keep_par; [done|done|cbn; lia].
  - intros i [[->|Hi']%elem_of_cons|Hi']; [by exists m|apply (av_held _ _ _ _ I); by left|apply (av_held _ _ _ _ I); by right].
  - intros i. unfold told_now. cbn. rewrite !(bool_decide_eq_false_2 (mg_func m = AckSource /\ _)) by (intros [_ ?]; lia). case_bool; lia.
  - intros i ty Hi. case_bool; [subst|done]. pose proof (told_type _ _ _ _ id m ty I Hm Hi). lia.
  - cbn. intros i Hz. lia.
Qed.

(** ** New objects and payloads *)

Lemma fresh (held : list Z) (par : list (Z * Z)) (pend : option Z) (w : world) (i : Z) : acks_inv held par pend w -> is_Some (w_msgs w !! i) -> i <> w_next w.
Proof. intros I Hi. pose proof (av_next _ _ _ _ I i Hi). lia. Qed.
Lemma path_inv_new (held held' : list Z) (par par' : list (Z * Z)) (w : world) (x : message) (pl : gmap Z C) : let n := w_next w in
  acks_inv held par None w -> failed x = false -> ~ (mg_func x = AckSource /\ mg_acks x = 0) -> is_Some (pl !! mg_payload x) -> (forall q, is_Some (w_payloads w !! q) -> is_Some (pl !! q)) ->
  (forall i, i <> n -> cnt i held' + cnt i par'.*2 = cnt i held + cnt i par.*2) -> mg_acks x = cnt n held' + cnt n par'.*2 ->
  (forall j i, (j, i) ∈ par' <-> if bool_decide (j = n) then mg_func x = AckClone i /\ 0 < mg_acks x else (j, i) ∈ par) -> NoDup par'.*1 ->
  (forall i, mg_func x = AckClone i -> i ∈ held) -> (forall i, i ∈ held' -> i = n /\ mg_func x <> AckNull \/ i ∈ held) ->
  acks_inv held' par' None (mkWorld (<[n := x]> (w_msgs w)) pl (n + 1) (w_kept w) (w_told w) (w_sur w)).
Proof.
  intros n I Hfl Hs Hp1 Hp Hc Ha Hpar Nd Hcl Hh. pose proof (av_nonneg _ _ _ _ I) as H0. set (M := <[n := x]> (w_msgs w)).
  assert (Hr : forall i y, w_msgs w !! i = Some y -> M !! i = Some y) by (intros i y Hy; unfold M; rewrite lookup_insert_ne; [done|]; apply not_eq_sym, (fresh _ _ _ _ i I); by rewrite Hy).
  assert (Hn : w_msgs w !! n = None) by (destruct (w_msgs w !! n) eqn:E; [|done]; exfalso; by apply (fresh _ _ _ _ n I); [rewrite E|]).
  assert (Hl : forall i y, M !! i = Some y -> i = n /\ y = x \/ i <> n /\ w_msgs w !! i = Some y) by (intros i y; unfold M; destruct (decide (i = n)) as [->|]; [rewrite lookup_insert_eq; intros [= <-]; by left|rewrite lookup_insert_ne by done; by right]).
  assert (Hw : cnt n (waits_of (w_kept w)) = 0) by (apply cnt_zero; intros Hi; destruct (av_held _ _ _ _ I n (or_intror Hi)) as (y & Hy & _); congruence).
  split; cbn; fold M.
  - lia.
  - intros i [y Hi]. destruct (Hl i y Hi) as [[-> _]|[_ Hy]]; [lia|]. pose proof (av_next _ _ _ _ I i ltac:(by rewrite Hy)). lia.
  - intros i y Hi. destruct (Hl i y Hi) as [[-> ->]|[Hne Hy]]; [lia|]. rewrite (av_acks _ _ _ _ I i y Hy). pose proof (Hc i Hne). lia.
  - intros j i. rewrite Hpar. case_bool; [subst; unfold M; rewrite lookup_insert_eq|unfold M; rewrite lookup_insert_ne by done; apply I]. split; [intros [? ?]; exists x; by split_and!|intros (y & [= <-] & ? & ?); done].
  - done.
  - intros j y i Hj Ho. destruct (Hl j y Hj) as [[-> ->]|[Hne Hy]].
    + destruct (av_held _ _ _ _ I i (or_introl (Hcl i Ho))) as (mi & Hi & Hnn). split; [apply (av_next _ _ _ _ I i); by rewrite Hi|]. exists mi. split; [by apply Hr|done].
    + destruct (av_orig _ _ _ _ I j y i Hy Ho) as (? & mi & Hi & Hnn). split; [done|]. exists mi. split; [by apply Hr|done].
  - intros i Hi. assert (i = n /\ mg_func x <> AckNull \/ (i ∈ held \/ i ∈ waits_of (w_kept w))) as [[-> Hnn]|Hi'] by (destruct Hi as [Hi|Hi]; [destruct (Hh i Hi); tauto|tauto]); [exists x; split; [apply lookup_insert_eq|done]|]. destruct (av_held _ _ _ _ I i Hi') as (y & Hy & Hnn). exists y. split; [by apply Hr|done].
  - intros q Hq. destruct (av_node _ _ _ _ I q Hq) as [y Hy]. by rewrite (Hr _ y Hy).
  - intros i y Hi. destruct (Hl i y Hi) as [[-> ->]|[Hne Hy]]; [done|]. by apply Hp, (av_payload _ _ _ _ I i).
  - intros i. rewrite (av_told _ _ _ _ I i). unfold M. destruct (decide (i = n)) as [->|]; [|by rewrite lookup_insert_ne]. by rewrite Hn, lookup_insert_eq, bool_decide_eq_false_2.
  - intros i ty Hi. destruct (av_type _ _ _ _ I i ty Hi) as (y & Hy & E). exists y. split; [by apply Hr|done].
  - intros j mj i mi Hj Ho Hz Hb Hi. destruct (Hl j mj Hj) as [[-> ->]|[Hne Hy]]; [congruence|]. destruct (av_orig _ _ _ _ I j mj i Hy Ho) as (_ & mi' & Hi' & _). rewrite (Hr i mi' Hi') in Hi. injection Hi as <-. by eapply (av_bits _ _ _ _ I j).
Qed.
Lemma par_fresh (held : list Z) (par : list (Z * Z)) (pend : option Z) (w : world) (j i : Z) : acks_inv held par pend w -> (j, i) ∈ par -> j <> w_next w /\ i <> w_next w.
Proof.
  intros I Hj. apply (av_par _ _ _ _ I) in Hj as (m & Hm & Hf & _). destruct (av_orig _ _ _ _ I j m i Hm Hf) as (_ & mi & Hi & _). split; apply (fresh _ _ _ _ _ I); [by rewrite Hm|by rewrite Hi].
Qed.
Lemma cnt_fresh (held : list Z) (par : list (Z * Z)) (pend : option Z) (w : world) : acks_inv held par pend w -> cnt (w_next w) held = 0 /\ cnt (w_next w) par.*2 = 0.
Proof.
  intros I. split; apply cnt_zero; intros Hi.
  - destruct (av_held _ _ _ _ I _ (or_introl Hi)) as (y & Hy & _). by apply (fresh _ _ _ _ (w_next w) I); [rewrite Hy|].
  - apply list_elem_of_fmap in Hi as ([j i] & Ei & Hj). destruct (par_fresh _ _ _ _ j i I Hj) as [_ Hn]. by apply Hn.
Qed.
Lemma path_new_ok (w : world) (c : C) : wf_world [] w -> wf_world [w_next w] (new_message w c).2.
Proof.
  intros (par & I). exists par. destruct (cnt_fresh _ _ _ _ I) as [_ Hz]. apply (path_inv_new [] [w_next w] par par); [done|done|by intros [_ ?]|cbn; by rewrite lookup_insert_eq| | | | |apply I|done|].
  - intros q Hq. apply lookup_insert_is_Some'. by right.
  - intros i Hi. cbn. rewrite bool_decide_eq_false_2 by congruence. done.
  - cbn. rewrite bool_decide_eq_true_2 by done. lia.
  - intros j i. case_bool; [subst|done]. split; [intros Hj; by destruct (par_fresh _ _ _ _ _ i I Hj)|intros [[=] _]].
  - intros i ->%list_elem_of_singleton. by left.
Qed.
Lemma path_clone_ok (held : list Z) (w : world) (id : Z) (o : LogPathOptions) : wf_world (hold o id held) w -> is_Some (w_msgs w !! id) ->
  exists w', path_clone_cow w id o = Ret (w_next w, w') /\ wf_world (hold o (w_next w) held) w' /\ lives w w' /\ is_Some (w_msgs w' !! w_next w).
Proof.
  intros W [m Hm]. unfold path_clone_cow, get_msg. rewrite Hm. cbn [obind]. eexists. split; [done|]. pose proof (put_ok _ w id m (mark_referenced m) W Hm eq_refl eq_refl eq_refl eq_refl) as (par & I). set (w1 := put w id (mark_referenced m)) in *. split_and!; [|intros i Hi; cbn; apply lookup_insert_is_Some'; right; by apply lives_put|cbn; by rewrite lookup_insert_eq].
  destruct (cnt_fresh _ _ _ _ I) as [Hz1 Hz2]. assert (Hpl : is_Some (w_payloads w1 !! mg_payload m)) by (apply (av_payload _ _ _ _ I id (mark_referenced m)), lookup_insert_eq). change (w_next w) with (w_next w1) in *. unfold hold in *. destruct (ack_needed o).
  - exists ((w_next w1, id) :: par). apply (path_inv_new (id :: held) (w_next w1 :: held) par); cbn [mg_func mg_acks failed mg_abort mg_suspend mg_payload]; [done|done|by intros [_ ?]|done|done| | | | | |].
    + intros i Hi. cbn [cnt fmap list_fmap snd]. rewrite (bool_decide_eq_false_2 (w_next w1 = i)) by congruence. cbn. lia.
    + cbn [cnt fmap list_fmap snd] in *. rewrite bool_decide_eq_true_2 by done. case_bool; [|lia]. pose proof (cnt_nonneg (w_next w1) held). lia.
    + intros j i. rewrite elem_of_cons. case_bool; [subst|split; [intros [[=]|?]; [done|done]|by right]]. split; [intros [[= ->]|Hj]; [done|by destruct (par_fresh _ _ _ _ _ i I Hj)]|intros [[= ->] _]; by left].
    + cbn. apply NoDup_cons. split; [|apply I]. intros Hi. apply list_elem_of_fmap in Hi as ([j i] & Ei & Hj). cbn in Ei. subst. by destruct (par_fresh _ _ _ _ _ i I Hj).
    + intros i [= <-]. by left.
    + intros i [->|Hi]%elem_of_cons; [by left|right; by right].
  - exists par. apply (path_inv_new held held par par); cbn [mg_func mg_acks failed mg_abort mg_suspend mg_payload]; [done|done|by intros [? _]|done|done|done|lia| |apply I|done|by right].
    intros j i. case_bool; [subst|done]. split; [intros Hj; by destruct (par_fresh _ _ _ _ _ i I Hj)|intros [[=] _]].
Qed.
(** Another payload for an object, or other contents. *)
Lemma change_ok (held : list Z) (w : world) (id : Z) (c : C) : wf_world held w -> is_Some (w_msgs w !! id) -> exists w', change fits w id c = Ret w' /\ wf_world held w' /\ lives w w'.
Proof.
  intros (par & I) [m Hm]. unfold change, get_msg, get_payload. rewrite Hm. cbn [obind]. destruct (av_payload _ _ _ _ I id m Hm) as [old ->]. cbn [obind]. destruct (mg_own m && fits old c).
  - eexists. split_and!; [done| |by intros i]. exists par. destruct I. split; try done. cbn. intros i x Hi. apply lookup_insert_is_Some'. right. by eapply av_payload0.
  - eexists. split_and!; [done| |apply lives_put]. set (m' := mkMessage _ _ _ _ _ _ _). set (M := <[id := m']> (w_msgs w)).
    assert (Hl : forall i y, M !! i = Some y -> exists z, w_msgs w !! i = Some z /\ mg_func y = mg_func z /\ mg_acks y = mg_acks z /\ failed y = failed z /\ (mg_payload y = w_next w \/ y = z)) by (intros i y; unfold M; destruct (decide (i = id)) as [->|]; [rewrite lookup_insert_eq; intros [= <-]; exists m; split_and!; try done; by left|rewrite lookup_insert_ne by done; intros E; exists y; split_and!; try done; by right]).
    assert (Hr : forall i z, w_msgs w !! i = Some z -> exists y, M !! i = Some y /\ mg_func y = mg_func z /\ mg_acks y = mg_acks z /\ failed y = failed z) by (intros i z Hz; unfold M; destruct (decide (i = id)) as [->|]; [rewrite lookup_insert_eq; simplify_eq; by exists m'|rewrite lookup_insert_ne by done; by exists z]).
    exists par. split; cbn; fold M.
    + pose proof (av_nonneg _ _ _ _ I). lia.
    + intros i [y Hi]. destruct (Hl i y Hi) as (z & Hz & _). pose proof (av_next _ _ _ _ I i ltac:(by rewrite Hz)). lia.
    + intros i y Hi. destruct (Hl i y Hi) as (z & Hz & _ & -> & _). by apply I.
    + intros j i. rewrite (av_par _ _ _ _ I j i). split; [intros (z & Hz & ? & ?); destruct (Hr j z Hz) as (y & Hy & ? & ? & _); exists y; split_and!; [done|congruence|lia]|intros (y & Hy & ? & ?); destruct (Hl j y Hy) as (z & Hz & ? & ? & _); exists z; split_and!; [done|congruence|lia]].
    + apply I.
    + intros j y i Hj Ho. destruct (Hl j y Hj) as (z & Hz & Ef & _). destruct (av_orig _ _ _ _ I j z i Hz ltac:(congruence)) as (? & mi & Hi & Hnn). split; [done|]. destruct (Hr i mi Hi) as (y' & Hy' & E' & _). exists y'. split; [done|congruence].
    + intros i Hi. destruct (av_held _ _ _ _ I i Hi) as (z & Hz & Hnn). destruct (Hr i z Hz) as (y & Hy & E & _). exists y. split; [done|congruence].
    + intros q Hq. destruct (av_node _ _ _ _ I q Hq) as [z Hz]. destruct (Hr _ z Hz) as (y & Hy & _). by rewrite Hy.
    + intros i y Hi. apply lookup_insert_is_Some'. destruct (Hl i y Hi) as (z & Hz & _ & _ & _ & [E|E]); [by left|right; subst; by apply (av_payload _ _ _ _ I i)].
    + intros i. rewrite (av_told _ _ _ _ I i). destruct (w_msgs w !! i) as [z|] eqn:Hz; [destruct (Hr i z Hz) as (y & -> & -> & -> & _); done|]. destruct (M !! i) as [y|] eqn:Hy; [|done]. destruct (Hl i y Hy) as (z & Hz' & _). congruence.
    + intros i ty Hi. destruct (av_type _ _ _ _ I i ty Hi) as (z & Hz & E). destruct (Hr i z Hz) as (y & Hy & _ & _ & Ef). exists y. split; [done|by rewrite Ef].
    + intros j mj i mi Hj Ho Hz Hb Hi. destruct (Hl j mj Hj) as (zj & Hzj & ? & ? & ? & _). destruct (Hl i mi Hi) as (zi & Hzi & _ & _ & Ef & _). rewrite Ef. eapply (av_bits _ _ _ _ I j zj i zi); [done|congruence|lia|congruence|done].
Qed.

(** ** Destinations *)

Lemma push_ok (held : list Z) (w : world) (dest id : Z) (o : LogPathOptions) : wf_world (hold o id held) w -> is_Some (w_msgs w !! id) -> exists w', push_tail w dest id o = Ret w' /\ wf_world held w' /\ lives w w'.
Proof.
  intros W [m Hm]. unfold push_tail. destruct (s_full (w_sur w) dest); [by apply drop_ok|]. unfold get_msg. rewrite Hm. cbn [obind]. eexists. split_and!; [done| |apply lives_put]. destruct W as (par & I). exists par.
  assert (Hw : waits_of (w_kept w ++ [mkNode dest id (ack_needed o) (flow_control_requested o)]) = waits_of (w_kept w) ++ if ack_needed o then [id] else []) by (rewrite waits_app; by destruct (ack_needed o)).
  cbn [put set_msgs w_kept w_msgs w_payloads w_next w_told w_sur]. apply (inv_put (hold o id held) held par par None None w id m (mark_referenced m)); [done|done|done|done| | |apply I| | | | | |by left|done].
  - intros i. rewrite Hw, cnt_app. unfold hold. destruct (ack_needed o); cbn; repeat case_bool; lia.
  - intros j i. by eapply inv_keep_par.
  - intros i. rewrite Hw, elem_of_app. intros Hi. apply (av_held _ _ _ _ I). unfold hold. destruct (ack_needed o); [|destruct Hi as [?|[?|Hi]]; [by left|by right|by apply elem_of_nil in Hi]]. destruct Hi as [?|[?| ->%list_elem_of_singleton]]; [left; by right|by right|left; by left].
  - intros x [Hx| ->%list_elem_of_singleton]%elem_of_app; [by apply (av_node _ _ _ _ I)|cbn; by rewrite Hm].
  - intros i. cbn. case_bool; lia.
  - intros i ty Hi. case_bool; [subst|done]. destruct (av_type _ _ _ _ I id ty Hi) as (x & Hx & E). by simplify_eq.
  - intros i Hz Hfl Hc. by right.
Qed.
Lemma break_ok (held : list Z) (w : world) (id : Z) (o : LogPathOptions) : flow_control_requested o = false -> wf_world (hold o id held) w -> exists w', path_break_ack w id o = Ret (w', mkLogPathOptions false false) /\ wf_world held w' /\ lives w w'.
Proof. intros Hf W. unfold path_break_ack. rewrite Hf. cbn [g_assert negb obind]. destruct (drop_ok held w id o AT_PROCESSED W) as (w' & -> & ? & ?). by exists w'. Qed.
Lemma writer_ok (held : list Z) (w : world) (dest : Z) (soft : bool) (id : Z) (o : LogPathOptions) : wf_world (hold o id held) w -> is_Some (w_msgs w !! id) -> exists w', log_writer_queue dest soft id o w = Ret w' /\ wf_world held w' /\ lives w w'.
Proof.
  intros W Hm. unfold log_writer_queue. destruct (negb (flow_control_requested o) && _) eqn:E; [|by apply push_ok]. apply andb_true_iff in E as [E%negb_true_iff _].
  destruct (break_ok held w id o E W) as (w1 & -> & W1 & L1). cbn [obind]. destruct (push_ok held w1 dest id (mkLogPathOptions false false) W1 (L1 _ Hm)) as (w2 & -> & W2 & L2). exists w2. split_and!; [done|done|by eapply lives_trans].
Qed.
Lemma threaded_ok (held : list Z) (w : world) (dest id : Z) (o : LogPathOptions) : wf_world (hold o id held) w -> is_Some (w_msgs w !! id) ->
  exists w' o', log_threaded_dest_driver_queue dest id o w = Ret (w', o') /\ wf_world (hold o' id held) w' /\ lives w w'.
Proof.
  intros W Hm. unfold log_threaded_dest_driver_queue. assert (H1 : exists w1 o1, (if negb (flow_control_requested o) then path_break_ack w id o else Ret (w, o)) = Ret (w1, o1) /\ wf_world (hold o1 id held) w1 /\ lives w w1).
  { destruct (flow_control_requested o) eqn:E; [exists w, o; split_and!; [done|done|by intros i]|]. destruct (break_ok held w id o E W) as (w1 & -> & ? & ?). by eexists w1, _. }
  destruct H1 as (w1 & o1 & -> & W1 & L1). cbn [obind]. destruct (add_ack_ok held w1 id o1 W1 (L1 _ Hm)) as (w2 & -> & W2 & L2). cbn [obind]. destruct (push_ok (hold o1 id held) w2 dest id o1 W2 (L2 _ (L1 _ Hm))) as (w3 & -> & W3 & L3). exists w3, o1. split_and!; [done|done|]. by eapply lives_trans; [|eapply lives_trans].
Qed.

(** ** Every pipe returns *)

Definition total (p : Pipe) : Prop := forall held w id o, wf_world (hold o id held) w -> is_Some (w_msgs w !! id) -> exists w' b, log_pipe_queue fits p id o w = Ret (w', b) /\ wf_world held w' /\ lives w w'.
Lemma hold_hop (o : LogPathOptions) (h : Pipe) (id : Z) (held : list Z) : hold (hop_options o h) id held = hold o id held.
Proof. done. Qed.
Lemma next_total (held : list Z) (w : world) (id : Z) (o : LogPathOptions) (h : Pipe) (ld : bool) : wf_world (hold o id held) w -> is_Some (w_msgs w !! id) ->
  exists n w', next_msg w id o h ld = Ret (n, w') /\ wf_world (hold o n (hold o id held)) w' /\ lives w w' /\ is_Some (w_msgs w' !! n).
Proof.
  intros W Hm. unfold next_msg. destruct (add_ack_ok held w id o W Hm) as (w1 & -> & W1 & L1). cbn [obind]. destruct (L1 _ Hm) as [m1 Hm1]. unfold get_msg at 1. rewrite Hm1. cbn [obind]. destruct (_ && _); [|exists id, w1; by split_and!].
  destruct (path_clone_ok (hold o id held) w1 id o W1 ltac:(by rewrite Hm1)) as (w2 & -> & W2 & L2 & Hn). eexists _, w2. split_and!; [done|done|by eapply lives_trans|done].
Qed.
Lemma each_total (ds : list Pipe) : Forall total ds -> forall held w id o b, wf_world (hold o id held) w -> is_Some (w_msgs w !! id) ->
  exists w' b', each_driver (log_pipe_queue fits) id o ds w b = Ret (w', b') /\ wf_world (hold o id held) w' /\ lives w w'.
Proof.
  induction 1 as [|d ds Hd Hds IH]; intros held w id o b W Hm; [exists w, b; split_and!; [done|done|by intros i]|]. cbn [each_driver]. fold (each_driver (log_pipe_queue fits) id o).
  destruct (add_ack_ok held w id o W Hm) as (w1 & -> & W1 & L1). cbn [obind]. destruct (Hd (hold o id held) w1 id o W1 (L1 _ Hm)) as (w2 & b2 & -> & W2 & L2). cbn [obind]. destruct (IH held w2 id o (b && b2) W2 (L2 _ (L1 _ Hm))) as (w3 & b3 & -> & W3 & L3). exists w3, b3. split_and!; [done|done|]. by eapply lives_trans; [|eapply lives_trans].
Qed.
Lemma round_total (hs : list Pipe) : Forall total hs -> forall held w id o ends fallbacks fallback d, wf_world (hold o id held) w -> is_Some (w_msgs w !! id) ->
  exists w' d', mpx_round (log_pipe_queue fits) id o ends fallbacks fallback hs d w = Ret (w', d') /\ wf_world (hold o id held) w' /\ lives w w'.
Proof.
  induction 1 as [|h hs Hh Hhs IH]; intros held w id o ends fallbacks fallback d W Hm; [exists w, d; split_and!; [done|done|by intros i]|]. cbn [mpx_round]. fold (mpx_round (log_pipe_queue fits) id o ends fallbacks fallback). destruct (negb (Bool.eqb _ fallback)); [by apply IH|].
  set (ld := _ && _ && _). destruct (next_total held w id (hop_options o h) h ld W Hm) as (n & w1 & -> & W1 & L1 & Hn). cbn [obind]. destruct (Hh (hold o id held) w1 n (hop_options o h) W1 Hn) as (w2 & b & -> & W2 & L2). cbn [obind].
  assert (Hgo : forall d', exists w' d'', mpx_round (log_pipe_queue fits) id o ends fallbacks fallback hs d' w2 = Ret (w', d'') /\ wf_world (hold o id held) w' /\ lives w w') by (intros d'; destruct (IH held w2 id o ends fallbacks fallback d' W2 (L2 _ (L1 _ Hm))) as (w3 & d3 & -> & W3 & L3); exists w3, d3; split_and!; [done|done|]; by eapply lives_trans; [|eapply lives_trans]).
  destruct b; [|apply Hgo]. destruct (has_flag _ PIF_BRANCH_FINAL); [|apply Hgo]. exists w2, true. split_and!; [done|done|by eapply lives_trans].
Qed.
Lemma all_total (p : Pipe) : total p.
Proof.
  induction p as [flags kind next Hq Hk] using LogPipe_nested_ind. intros held w id o W Hm. cbn [log_pipe_queue].
  assert (Hfw : forall o1 w1, wf_world (hold o1 id held) w1 -> lives w w1 -> exists w' b, match next with Some q => log_pipe_queue fits q id o1 w1 | None => let! w := path_drop w1 id o1 AT_PROCESSED in Ret (w, true) end = Ret (w', b) /\ wf_world held w' /\ lives w w').
  { intros o1 w1 W1 L1. destruct next as [q|]; [destruct (Hq q eq_refl held w1 id o1 W1 (L1 _ Hm)) as (w' & b & -> & ? & ?); exists w', b; split_and!; [done|done|by eapply lives_trans]|]. destruct (drop_ok held w1 id o1 AT_PROCESSED W1) as (w' & -> & ? & ?). exists w', true. split_and!; [done|done|by eapply lives_trans]. }
  assert (Hdr : forall w1 (b : bool), wf_world (hold o id held) w1 -> lives w w1 -> exists w' b', (let! w := path_drop w1 id o AT_PROCESSED in Ret (w, b)) = Ret (w', b') /\ wf_world held w' /\ lives w w') by (intros w1 b W1 L1; destruct (drop_ok held w1 id o AT_PROCESSED W1) as (w' & -> & ? & ?); exists w', b; split_and!; [done|done|by eapply lives_trans]).
  assert (Lw : lives w w) by (by intros i). destruct Hm as [m Hm]. assert (Hp : is_Some (w_payloads w !! mg_payload m)) by (destruct W as (par & I); by apply (av_payload _ _ _ _ I id)). destruct Hp as [c Hc]. unfold get_msg, get_payload. destruct kind as [test|process|dest soft|dest|drivers|hops].
  - rewrite Hm. cbn [obind]. rewrite Hc. cbn [obind]. destruct (test c); [by apply Hfw|by apply Hdr].
  - rewrite Hm. cbn [obind]. rewrite Hc. cbn [obind]. destruct (process c) as [c' success]. destruct (change_ok _ w id c' W ltac:(by rewrite Hm)) as (w1 & -> & W1 & L1). cbn [obind]. destruct success; [by apply Hfw|by apply Hdr].
  - destruct (writer_ok held w dest soft id o W ltac:(by rewrite Hm)) as (w1 & -> & W1 & L1). by exists w1, true.
  - destruct (threaded_ok held w dest id o W ltac:(by rewrite Hm)) as (w1 & o1 & -> & W1 & L1). cbn [obind]. by apply Hfw.
  - destruct (each_total drivers Hk held w id o true W ltac:(by rewrite Hm)) as (w1 & b1 & -> & W1 & L1). cbn [obind]. destruct (Hfw o w1 W1 L1) as (w2 & b2 & -> & W2 & L2). by eexists w2, _.
  - destruct (round_total hops Hk held w id o (bool_decide (next = None)) (fallback_exists hops) false false W ltac:(by rewrite Hm)) as (w1 & d1 & -> & W1 & L1). cbn [obind].
    assert (H2 : exists w2 d2, (if fallback_exists hops && negb d1 then mpx_round (log_pipe_queue fits) id o (bool_decide (next = None)) (fallback_exists hops) true hops d1 w1 else Ret (w1, d1)) = Ret (w2, d2) /\ wf_world (hold o id held) w2 /\ lives w w2).
    { destruct (_ && _); [|by exists w1, d1]. destruct (round_total hops Hk held w1 id o (bool_decide (next = None)) (fallback_exists hops) true d1 W1 (L1 id ltac:(by rewrite Hm))) as (w2 & d2 & -> & W2 & L2). exists w2, d2. split_and!; [done|done|by eapply lives_trans]. }
    destruct H2 as (w2 & d2 & -> & W2 & L2). cbn [obind]. by apply Hfw.
Qed.

(** ** Runs *)

Lemma cnt_delete (i : Z) (l : list queue_node) (n : nat) (x : queue_node) : l !! n = Some x -> cnt i (waits_of l) = cnt i (waits_of (delete n l)) + if n_ack_needed x && bool_decide (n_msg x = i) then 1 else 0.
Proof.
  intros E. rewrite <- (take_drop_middle l n x E) at 1. rewrite delete_take_drop, !waits_app, !cnt_app. change (x :: drop (S n) l) with ([x] ++ drop (S n) l). rewrite waits_app, cnt_app. unfold waits_of at 2. cbn. destruct (n_ack_needed x); cbn; [case_bool; lia|lia].
Qed.
Lemma delete_elem {A} (l : list A) (n : nat) (x : A) : x ∈ delete n l -> x ∈ l.
Proof. intros H. eapply elem_of_submseteq; [exact H|]. apply sublist_submseteq, sublist_delete. Qed.
Lemma unkeep_ok (w : world) (n : nat) (x : queue_node) : wf_world [] w -> w_kept w !! n = Some x -> wf_world (hold (mkLogPathOptions (n_ack_needed x) (n_flow x)) (n_msg x) []) (unkeep w n).
Proof.
  intros (par & I) E. exists par. pose proof (list_elem_of_lookup_2 _ _ _ E) as Hx. split; cbn; [apply I|apply I| |apply I|apply I|apply I| | |apply I|apply I|apply I|apply I].
  - intros i m Hm. rewrite (av_acks _ _ _ _ I i m Hm), (cnt_delete i _ n x E). unfold hold. cbn. destruct (n_ack_needed x); cbn; lia.
  - intros i [Hi|Hi]; apply (av_held _ _ _ _ I); right; apply waits_elem.
    + unfold hold in Hi. cbn in Hi. destruct (n_ack_needed x) eqn:Ea; [apply list_elem_of_singleton in Hi as ->; by exists x|by apply elem_of_nil in Hi].
    + apply waits_elem in Hi as (y & Hy & ?). exists y. split; [by eapply delete_elem|done].
  - intros y Hy. apply (av_node _ _ _ _ I). by eapply delete_elem.
Qed.
Lemma step_total (p : Pipe) (w : world) (op : path_op) : wf_world [] w -> exists w', path_step fits p w op = Ret w' /\ wf_world [] w'.
Proof.
  intros W. destruct op as [c|n ty|s]; cbn [path_step].
  - pose proof (path_new_ok w c W) as W1. unfold new_message in *. cbn [snd] in W1. destruct (all_total p [] _ (w_next w) source_options W1) as (w2 & b & -> & W2 & _); [cbn; by rewrite lookup_insert_eq|]. by exists w2.
  - destruct (w_kept w !! n) as [x|] eqn:E; [|by exists w]. destruct (drop_ok [] (unkeep w n) (n_msg x) (mkLogPathOptions (n_ack_needed x) (n_flow x)) ty (unkeep_ok w n x W E)) as (w' & -> & W' & _). by exists w'.
  - eexists. split; [done|]. destruct W as (par & []). exists par. by split.
Qed.
Lemma run_total (p : Pipe) (ops : list path_op) : forall w, wf_world [] w -> exists w', path_run fits p ops w = Ret w' /\ wf_world [] w'.
Proof. induction ops as [|op ops IH]; intros w W; [by exists w|]. cbn [path_run]. destruct (step_total p w op W) as (w1 & -> & W1). cbn [obind]. by apply IH. Qed.
Lemma empty_ok (s : surroundings) : wf_world [] (empty_world (C := C) s).
Proof.
  exists []. split; cbn; [done| | | |constructor| | | | | | |].
  - intros i [m Hm]. by rewrite lookup_empty in Hm.
  - intros i m Hm. by rewrite lookup_empty in Hm.
  - intros j i. split; [intros H; by apply elem_of_nil in H|intros (m & Hm & _); by rewrite lookup_empty in Hm].
  - intros j m i Hm. by rewrite lookup_empty in Hm.
  - intros i [H|H]; by apply elem_of_nil in H.
  - intros x H. by apply elem_of_nil in H.
  - intros i m Hm. by rewrite lookup_empty in Hm.
  - intros i. by rewrite lookup_empty.
  - intros i ty H. by apply elem_of_nil in H.
  - intros j mj i mi Hm. by rewrite lookup_empty in Hm.
Qed.

(** ** Who waits for whom *)

(** [j] is [i] or a clone of it, or a clone of such a clone, that hands its acknowledgement on. *)
Inductive stems (w : world) : Z -> Z -> Prop :=
  | stems_self i : stems w i i
  | stems_clone j m o i : w_msgs w !! j = Some m -> mg_func m = AckClone o -> stems w o i -> stems w j i.
Lemma stems_awaited (w : world) (par : list (Z * Z)) (held : list Z) (j i : Z) (mi : message) : acks_inv held par None w -> stems w j i -> (exists mj, w_msgs w !! j = Some mj /\ 0 < mg_acks mj) -> w_msgs w !! i = Some mi -> 0 < mg_acks mi.
Proof.
  intros I H. revert mi. induction H as [i|j m o i Hm Ho Hs IH]; intros mi (mj & Hj & Ha) Hi; [congruence|]. simplify_eq. apply IH; [|done]. assert (Hp : (j, o) ∈ par) by (apply (av_par _ _ _ _ I); by exists m). destruct (av_orig _ _ _ _ I j m o Hm Ho) as (_ & mo & Hmo & _). exists mo. split; [done|]. rewrite (av_acks _ _ _ _ I o mo Hmo). assert (o ∈ par.*2) as Hc%cnt_pos by (apply list_elem_of_fmap; by exists (j, o)). pose proof (cnt_nonneg o held). pose proof (cnt_nonneg o (waits_of (w_kept w))). lia.
Qed.
Lemma awaited_kept (w : world) (par : list (Z * Z)) : acks_inv [] par None w -> forall n i mi, Z.to_nat (w_next w - i) = n -> w_msgs w !! i = Some mi -> 0 < mg_acks mi -> exists x, x ∈ w_kept w /\ n_ack_needed x = true /\ stems w (n_msg x) i.
Proof.
  intros I n. induction n as [n IH] using lt_wf_ind. intros i mi Hn Hm Ha. rewrite (av_acks _ _ _ _ I i mi Hm) in Ha. cbn in Ha. destruct (decide (0 < cnt i (waits_of (w_kept w)))) as [Hk|Hk].
  - apply cnt_elem, waits_elem in Hk as (x & Hx & ? & <-). exists x. split_and!; [done|done|constructor].
  - assert (Hp : i ∈ par.*2) by (apply cnt_elem; lia). apply list_elem_of_fmap in Hp as ([j i'] & Ei & Hp). cbn in Ei. subst i'. apply (av_par _ _ _ _ I) in Hp as (mj & Hj & Ho & Hja). destruct (av_orig _ _ _ _ I j mj i Hj Ho) as (Hlt & _). pose proof (av_next _ _ _ _ I j ltac:(by rewrite Hj)) as Hb.
    destruct (IH (Z.to_nat (w_next w - j)) ltac:(lia) j mj eq_refl Hj Hja) as (x & Hk' & Hxa & Hs). exists x. split_and!; [done|done|]. clear - Hs Hj Ho. induction Hs as [k|k m o y Hk Hko Hs IHs]; [by eapply stems_clone; [exact Hj|exact Ho|constructor]|]. eapply stems_clone; [exact Hk|exact Hko|by apply IHs].
Qed.
(** A clone that is done and failed made its original fail. *)
Lemma stems_failed (w : world) (par : list (Z * Z)) (j i : Z) (mi : message) : acks_inv [] par None w -> stems w j i -> w_msgs w !! i = Some mi -> mg_acks mi = 0 -> (exists mj, w_msgs w !! j = Some mj /\ failed mj = true) -> failed mi = true.
Proof.
  intros I H. revert mi. induction H as [i|j m o i Hm Ho Hs IH]; intros mi Hi Hz (mj & Hj & Hf); [congruence|]. simplify_eq. apply IH; [done|done|]. destruct (av_orig _ _ _ _ I j m o Hm Ho) as (_ & mo & Hmo & _). exists mo. split; [done|].
  assert (mg_acks m = 0). { assert (0 <= mg_acks m) by (rewrite (av_acks _ _ _ _ I j m Hm); pose proof (cnt_nonneg j (waits_of (w_kept w))); pose proof (cnt_nonneg j par.*2); cbn; lia). destruct (decide (mg_acks m = 0)) as [|Hn]; [done|]. assert (0 < mg_acks mi); [|lia]. eapply (stems_awaited w par [] j i mi I); [by eapply stems_clone|exists m; split; [done|lia]|done]. }
  by destruct (av_bits _ _ _ _ I j m o mo Hm Ho ltac:(done) Hf Hmo).
Qed.
End acks.
