(* ===== verification/LogPathSpec.v ===== *)
(** * What destinations see of a message

    Objects that share a payload are clones; the one that owns it is marked as referenced, and so is
    everything in a queue.  With the marks of [well_marked] no object that is referenced is changed. *)
From S2P Require Import Prelude LogMsgRef LogPath.

Section contents.
Context {C : Type}.
Variable fits : C -> C -> bool.
Abbreviation world := (world (C := C)).
Abbreviation Pipe := (LogPath.LogPipe (C := C)).

Definition contains (w : world) (i : Z) (c : C) : Prop := exists m, w_msgs w !! i = Some m /\ w_payloads w !! mg_payload m = Some c.
(** What is queued has the payload that is meant, and the source waits for it if that is meant. *)
Definition carries (w : world) (ks : list queue_node) (l : list (Z * C * bool)) : Prop := Forall2 (fun x y => n_dest x = y.1.1 /\ contains w (n_msg x) y.1.2 /\ n_ack_needed x = y.2) ks l.
Record share_inv (w : world) : Prop := {
  sh_next : forall i m, w_msgs w !! i = Some m -> i < w_next w /\ mg_payload m < w_next w;
  sh_own : forall i j mi mj, i <> j -> w_msgs w !! i = Some mi -> w_msgs w !! j = Some mj -> mg_payload mi = mg_payload mj -> mg_own mi = true -> mg_referenced mi = true /\ mg_own mj = false;
  sh_kept : forall x, x ∈ w_kept w -> exists m, w_msgs w !! n_msg x = Some m /\ mg_referenced m = true }.
(** From [w] to [w'] with the object [id] in hand: [ks] are queued, no other object of [w] is changed. *)
Record step (id : Z) (w w' : world) (ks : list queue_node) : Prop := {
  st_kept : w_kept w' = w_kept w ++ ks;
  st_sur : w_sur w' = w_sur w;
  st_next : w_next w <= w_next w';
  st_frame : forall i c, i <> id -> contains w i c -> contains w' i c;
  st_ref : forall i m, w_msgs w !! i = Some m -> exists m', w_msgs w' !! i = Some m' /\ (mg_referenced m = true -> mg_referenced m' = true) }.
Lemma step_trans (id : Z) (w1 w2 w3 : world) (ks1 ks2 : list queue_node) : step id w1 w2 ks1 -> step id w2 w3 ks2 -> step id w1 w3 (ks1 ++ ks2).
Proof.
  intros [K1 S1 N1 F1 R1] [K2 S2 N2 F2 R2]. split; [by rewrite K2, K1, app_assoc|congruence|lia|auto|]. intros i m Hm. destruct (R1 i m Hm) as (m2 & H2 & H2'). destruct (R2 i m2 H2) as (m3 & H3 & H3'). exists m3. auto.
Qed.
Lemma contains_inj (w : world) (i : Z) (c c' : C) : contains w i c -> contains w i c' -> c = c'.
Proof. intros (m & Hm & Hc) (m' & Hm' & Hc'). congruence. Qed.
(** What is in queues keeps its payload. *)
Definition keeps (w w' : world) : Prop := forall x c, x ∈ w_kept w -> contains w (n_msg x) c -> contains w' (n_msg x) c.
Lemma step_keeps (id : Z) (w w' : world) (ks : list queue_node) (m : message) (c : C) : share_inv w -> step id w w' ks -> w_msgs w !! id = Some m -> contains w id c -> (mg_referenced m = true -> contains w' id c) -> keeps w w'.
Proof.
  intros I S Hm Hc Hr x c' Hx Hc'. destruct (decide (n_msg x = id)) as [e|n]; [|by apply (st_frame _ _ _ _ S)]. rewrite e in *. rewrite (contains_inj w id c' c Hc' Hc). apply Hr. destruct (sh_kept w I x Hx) as (m' & Hm' & ?). rewrite e in Hm'. congruence.
Qed.
Lemma carries_keeps (w w' : world) (ks : list queue_node) (l : list (Z * C * bool)) : keeps w w' -> (forall x, x ∈ ks -> x ∈ w_kept w) -> carries w ks l -> carries w' ks l.
Proof.
  intros K Hk F. unfold carries in *. induction F as [|x y ks l (Hd & Hc & Ha) F IH]; constructor; [|apply IH; intros z Hz; apply Hk; by right]. split_and!; [done| |done]. apply K; [apply Hk; by left|done].
Qed.
Lemma step_added (id : Z) (w w' : world) (ks : list queue_node) (x : queue_node) : step id w w' ks -> x ∈ ks -> x ∈ w_kept w'.
Proof. intros S Hx. rewrite (st_kept _ _ _ _ S). apply elem_of_app. by right. Qed.

(** ** Acknowledgements *)

Definition core (m : message) : Z * bool * bool := (mg_payload m, mg_own m, mg_referenced m).
Record same (w w' : world) : Prop := {
  sm_core : forall i, core <$> w_msgs w' !! i = core <$> w_msgs w !! i;
  sm_payloads : w_payloads w' = w_payloads w; sm_next : w_next w' = w_next w; sm_kept : w_kept w' = w_kept w; sm_sur : w_sur w' = w_sur w }.
Lemma same_refl (w : world) : same w w.
Proof. by split. Qed.
Lemma same_trans (w1 w2 w3 : world) : same w1 w2 -> same w2 w3 -> same w1 w3.
Proof. intros [] []. split; [intros i; congruence|congruence..]. Qed.
Lemma same_lookup (w w' : world) (i : Z) (m : message) : same w w' -> w_msgs w !! i = Some m -> exists m', w_msgs w' !! i = Some m' /\ mg_payload m' = mg_payload m /\ mg_own m' = mg_own m /\ mg_referenced m' = mg_referenced m.
Proof. intros S E. pose proof (sm_core _ _ S i) as Hc. rewrite E in Hc. destruct (w_msgs w' !! i) as [m'|]; [|done]. cbn in Hc. injection Hc as ? ? ?. by exists m'. Qed.
Lemma same_back (w w' : world) (i : Z) (m' : message) : same w w' -> w_msgs w' !! i = Some m' -> exists m, w_msgs w !! i = Some m /\ mg_payload m' = mg_payload m /\ mg_own m' = mg_own m /\ mg_referenced m' = mg_referenced m.
Proof. intros S E. pose proof (sm_core _ _ S i) as Hc. rewrite E in Hc. destruct (w_msgs w !! i) as [m|]; [|done]. cbn in Hc. injection Hc as ? ? ?. by exists m. Qed.
Lemma same_contains (w w' : world) (i : Z) (c : C) : same w w' -> contains w i c -> contains w' i c.
Proof. intros S (m & Hm & Hc). destruct (same_lookup w w' i m S Hm) as (m' & Hm' & Hp & _). exists m'. split; [done|]. by rewrite (sm_payloads _ _ S), Hp. Qed.
Lemma same_step (id : Z) (w w' : world) : same w w' -> step id w w' [].
Proof.
  intros S. split; [by rewrite (sm_kept _ _ S), app_nil_r|apply S|rewrite (sm_next _ _ S); lia|intros i c _; by apply same_contains|]. intros i m Hm. destruct (same_lookup w w' i m S Hm) as (m' & Hm' & _ & _ & Hr). exists m'. split; [done|congruence].
Qed.
Lemma same_inv (w w' : world) : same w w' -> share_inv w -> share_inv w'.
Proof.
  intros S I. split.
  - intros i m' Hm'. destruct (same_back w w' i m' S Hm') as (m & Hm & -> & _). rewrite (sm_next _ _ S). by apply (sh_next w I).
  - intros i j mi' mj' Hne Hi Hj Hp Ho. destruct (same_back w w' i mi' S Hi) as (mi & Hmi & Pi & Oi & Ri), (same_back w w' j mj' S Hj) as (mj & Hmj & Pj & Oj & _). rewrite Ri, Oj. by apply (sh_own w I i j); [| | |congruence|congruence].
  - intros x Hx. rewrite (sm_kept _ _ S) in Hx. destruct (sh_kept w I x Hx) as (m & Hm & Hr). destruct (same_lookup w w' _ m S Hm) as (m' & Hm' & _ & _ & Hr'). exists m'. split; [done|congruence].
Qed.
Lemma put_same (w : world) (id : Z) (m m' : message) : w_msgs w !! id = Some m -> core m' = core m -> same w (put w id m').
Proof. intros Hm Hc. split; try done. intros i. cbn. destruct (decide (i = id)) as [->|]; [rewrite lookup_insert_eq, Hm; cbn; by rewrite Hc|by rewrite lookup_insert_ne]. Qed.
Lemma ack_same (fuel : nat) : forall (w w' : world) (id : Z) (o : LogPathOptions) (ty : AckType), path_ack fuel w id o ty = Ret w' -> same w w'.
Proof.
  induction fuel as [|fuel IH]; intros w w' id o ty E; cbn [path_ack] in E; [done|]. destruct (ack_needed o); [|injection E as <-; apply same_refl]. unfold get_msg in E. destruct (w_msgs w !! id) as [m|] eqn:Hm; [|done]. cbn [obind] in E. destruct (bool_decide (0 < mg_acks m)); [|done]. cbn [g_assert obind] in E. pose proof (put_same w id m (acknowledged m ty) Hm eq_refl) as S1.
  case_bool; [|injection E as <-; done]. destruct (mg_func m) as [|k|]; [injection E as <-; by destruct S1|eapply same_trans; [exact S1|by eapply IH]|done].
Qed.
Lemma drop_same (w w' : world) (id : Z) (o : LogPathOptions) (ty : AckType) : path_drop w id o ty = Ret w' -> same w w'.
Proof. apply ack_same. Qed.
Lemma add_ack_same (w w' : world) (id : Z) (o : LogPathOptions) : path_add_ack w id o = Ret w' -> same w w'.
Proof.
  unfold path_add_ack, get_msg. destruct (ack_needed o); [|intros [= <-]; apply same_refl]. destruct (w_msgs w !! id) as [m|] eqn:Hm; [|done]. cbn [obind]. intros [= <-]. by eapply put_same.
Qed.
Lemma break_same (w w' : world) (id : Z) (o o' : LogPathOptions) : path_break_ack w id o = Ret (w', o') -> same w w' /\ o' = mkLogPathOptions false (flow_control_requested o).
Proof.
  unfold path_break_ack. destruct (negb (flow_control_requested o)); [|done]. cbn [g_assert obind]. destruct (path_drop w id o AT_PROCESSED) as [w1|] eqn:E; [|done]. cbn [obind]. intros [= <- <-]. split; [by eapply drop_same|done].
Qed.

(** ** Marking and changing an object *)

Lemma mark_inv (w : world) (id : Z) (m : message) : w_msgs w !! id = Some m -> share_inv w -> share_inv (put w id (mark_referenced m)) /\ step id w (put w id (mark_referenced m)) [] /\ forall i c, contains w i c -> contains (put w id (mark_referenced m)) i c.
Proof.
  intros Hm I. set (w' := put w id (mark_referenced m)).
  assert (Hl : forall i y, w_msgs w' !! i = Some y -> exists z, w_msgs w !! i = Some z /\ mg_payload y = mg_payload z /\ mg_own y = mg_own z /\ (mg_referenced z = true -> mg_referenced y = true)) by (intros i y; cbn; destruct (decide (i = id)) as [->|]; [rewrite lookup_insert_eq; intros [= <-]; by exists m|rewrite lookup_insert_ne by done; intros E; by exists y]).
  assert (Hr : forall i z, w_msgs w !! i = Some z -> exists y, w_msgs w' !! i = Some y /\ mg_payload y = mg_payload z /\ (mg_referenced z = true -> mg_referenced y = true)) by (intros i z Hz; cbn; destruct (decide (i = id)) as [->|]; [rewrite lookup_insert_eq; simplify_eq; by eexists|rewrite lookup_insert_ne by done; by exists z]).
  assert (Hc : forall i c, contains w i c -> contains w' i c) by (intros i c (z & Hz & Hc); destruct (Hr i z Hz) as (y & Hy & Hp & _); exists y; split; [done|by rewrite Hp]).
  split_and!; [split| |done].
  - intros i y Hy. destruct (Hl i y Hy) as (z & Hz & -> & _). by apply (sh_next w I).
  - intros i j mi mj Hne Hi Hj Hp Ho. destruct (Hl i mi Hi) as (zi & Hzi & Pi & Oi & Ri), (Hl j mj Hj) as (zj & Hzj & Pj & Oj & _). destruct (sh_own w I i j zi zj Hne Hzi Hzj) as [Hx Hy]; [congruence|congruence|]. split; [by apply Ri|congruence].
  - intros x Hx. destruct (sh_kept w I x Hx) as (z & Hz & Hrf). destruct (Hr _ z Hz) as (y & Hy & _ & Hrf'). exists y. auto.
  - split; [by rewrite app_nil_r|done|cbn; lia|intros i c _; apply Hc|]. intros i z Hz. destruct (Hr i z Hz) as (y & Hy & _ & ?). by exists y.
Qed.
Lemma change_good (w w' : world) (id : Z) (m : message) (c : C) : change fits w id c = Ret w' -> share_inv w -> w_msgs w !! id = Some m -> mg_referenced m = false ->
  share_inv w' /\ step id w w' [] /\ exists m', w_msgs w' !! id = Some m' /\ mg_referenced m' = false /\ w_payloads w' !! mg_payload m' = Some c.
Proof.
  intros E I Hm Hr. unfold change, get_msg, get_payload in E. rewrite Hm in E. cbn [obind] in E. destruct (w_payloads w !! mg_payload m) as [old|] eqn:Ho; [|done]. cbn [obind] in E. destruct (mg_own m && fits old c) eqn:Ef; injection E as <-.
  - apply andb_true_iff in Ef as [Eo _]. split_and!; [by destruct I| |exists m; split_and!; [done|done|cbn; apply lookup_insert_eq]]. split; [by rewrite app_nil_r|done|cbn; lia| |intros i x Hx; by exists x]. intros i x Hne (y & Hy & Hc). exists y. split; [done|]. cbn. rewrite lookup_insert_ne; [done|]. intros Hp. destruct (sh_own w I id i m y (not_eq_sym Hne) Hm Hy Hp Eo). congruence.
  - destruct (sh_next w I id m Hm) as [Hid Hpl]. set (m' := mkMessage _ _ _ _ _ _ _).
    assert (Hl : forall i y, <[id := m']> (w_msgs w) !! i = Some y -> i = id /\ y = m' \/ i <> id /\ w_msgs w !! i = Some y) by (intros i y; destruct (decide (i = id)) as [->|]; [rewrite lookup_insert_eq; intros [= <-]; by left|rewrite lookup_insert_ne by done; by right]).
    split_and!; [split; cbn| |exists m'; split_and!; [cbn; apply lookup_insert_eq|done|cbn; apply lookup_insert_eq]].
    + intros i y Hy. destruct (Hl i y Hy) as [[-> ->]|[_ Hz]]; [cbn; lia|]. pose proof (sh_next w I i y Hz). lia.
    + intros i j mi mj Hne Hi Hj Hp Hw. destruct (Hl i mi Hi) as [[-> ->]|[Hni Hzi]], (Hl j mj Hj) as [[-> ->]|[Hnj Hzj]]; [done| | |by apply (sh_own w I i j)].
      * pose proof (sh_next w I j mj Hzj). cbn in Hp. lia.
      * pose proof (sh_next w I i mi Hzi). cbn in Hp. lia.
    + intros x Hx. destruct (sh_kept w I x Hx) as (y & Hy & Hrf). exists y. split; [|done]. rewrite lookup_insert_ne; [done|]. intros e. rewrite <- e in Hy. congruence.
    + split; [by rewrite app_nil_r|done|cbn; lia| |].
      * intros i x Hne (y & Hy & Hc). exists y. cbn. rewrite lookup_insert_ne by done. split; [done|]. pose proof (sh_next w I i y Hy). rewrite lookup_insert_ne by lia. done.
      * intros i y Hy. cbn. destruct (decide (i = id)) as [->|]; [rewrite lookup_insert_eq; exists m'; split; [done|]; simplify_eq; congruence|rewrite lookup_insert_ne by done; by exists y].
Qed.
Lemma clone_good (w w' : world) (id n : Z) (m : message) (c : C) (o : LogPathOptions) : path_clone_cow w id o = Ret (n, w') -> share_inv w -> w_msgs w !! id = Some m -> w_payloads w !! mg_payload m = Some c ->
  n = w_next w /\ share_inv w' /\ step id w w' [] /\ (forall i x, contains w i x -> contains w' i x) /\ id <> n /\ exists m', w_msgs w' !! n = Some m' /\ mg_referenced m' = false /\ w_payloads w' !! mg_payload m' = Some c.
Proof.
  intros E I Hm Hc. unfold path_clone_cow, get_msg in E. rewrite Hm in E. cbn [obind] in E. injection E as <- <-. destruct (mark_inv w id m Hm I) as (I1 & S1 & C1). set (w1 := put w id (mark_referenced m)) in *. cbn [w_next]. change (w_next w) with (w_next w1). set (n := w_next w1). set (m' := mkMessage _ _ _ _ _ _ _).
  assert (Hm1 : w_msgs w1 !! id = Some (mark_referenced m)) by (cbn; apply lookup_insert_eq). destruct (sh_next w1 I1 id _ Hm1) as [Hid Hpl]. change (mg_payload m < n) in Hpl. change (id < n) in Hid.
  assert (Hl : forall i y, <[n := m']> (w_msgs w1) !! i = Some y -> i = n /\ y = m' \/ i <> n /\ w_msgs w1 !! i = Some y) by (intros i y; destruct (decide (i = n)) as [->|]; [rewrite lookup_insert_eq; intros [= <-]; by left|rewrite lookup_insert_ne by done; by right]).
  assert (Hr : forall i y, w_msgs w1 !! i = Some y -> <[n := m']> (w_msgs w1) !! i = Some y) by (intros i y Hy; pose proof (sh_next w1 I1 i y Hy) as Hzz; fold n in Hzz; rewrite lookup_insert_ne; [done|lia]).
  assert (Hcc : forall i x, contains w i x -> contains (mkWorld (<[n := m']> (w_msgs w1)) (w_payloads w1) (n + 1) (w_kept w1) (w_told w1) (w_sur w1)) i x) by (intros i x Hx; destruct (C1 i x Hx) as (y & Hy & Hp); exists y; split; [by apply Hr|done]).
  split_and!; [done|split; cbn| |done|lia|exists m'; split_and!; [cbn; apply lookup_insert_eq|done|done]].
  - intros i y Hy. destruct (Hl i y Hy) as [[-> ->]|[_ Hz]]; [subst n; cbn in *; lia|]. pose proof (sh_next w1 I1 i y Hz). subst n. cbn in *. lia.
  - intros i j mi mj Hne Hi Hj Hp Hw. destruct (Hl i mi Hi) as [[-> ->]|[Hni Hzi]]; [done|]. destruct (Hl j mj Hj) as [[-> ->]|[Hnj Hzj]]; [|by apply (sh_own w1 I1 i j)]. split; [|done].
    destruct (decide (i = id)) as [->|Hd]; [rewrite Hm1 in Hzi; by injection Hzi as <-|]. by destruct (sh_own w1 I1 i id mi (mark_referenced m) Hd Hzi Hm1 Hp Hw).
  - intros x Hx. destruct (sh_kept w1 I1 x Hx) as (y & Hy & Hrf). exists y. split; [by apply Hr|done].
  - split; [by rewrite app_nil_r|done|cbn; lia|intros i x _; apply Hcc|]. intros i y Hy. destruct (st_ref _ _ _ _ S1 i y Hy) as (z & Hz & Hrf). exists z. split; [by apply Hr|done].
Qed.

(** ** Destinations *)

Lemma push_good (w w' : world) (dest id : Z) (m : message) (c : C) (o : LogPathOptions) : push_tail w dest id o = Ret w' -> share_inv w -> w_msgs w !! id = Some m -> w_payloads w !! mg_payload m = Some c ->
  exists ks, share_inv w' /\ step id w w' ks /\ carries w' ks (queued (w_sur w) dest c (ack_needed o)) /\ contains w' id c.
Proof.
  intros E I Hm Hc. assert (Hcon : contains w id c) by (by exists m). unfold push_tail in E. unfold queued. destruct (s_full (w_sur w) dest).
  - pose proof (drop_same _ _ _ _ _ E) as S. exists []. split_and!; [by eapply same_inv|by apply same_step|constructor|by eapply same_contains].
  - unfold get_msg in E. rewrite Hm in E. cbn [obind] in E. injection E as <-. destruct (mark_inv w id m Hm I) as (I1 & S1 & C1). set (w1 := put w id (mark_referenced m)) in *. set (x := mkNode _ _ _ _). set (w2 := mkWorld _ _ _ _ _ _). assert (C2 : forall i y, contains w i y -> contains w2 i y) by (intros i y Hy; by apply (C1 i y Hy)). exists [x]. split_and!.
    + destruct I1 as [I1 I2 I3]. split; [done|done|]. intros y [Hy| ->%list_elem_of_singleton]%elem_of_app; [by apply I3|]. exists (mark_referenced m). split; [cbn; apply lookup_insert_eq|done].
    + destruct S1 as [K1 S1 N1 F1 R1]. split; [done|done|done|done|done].
    + constructor; [|constructor]. split_and!; [done|by apply C2|done].
    + by apply C2.
Qed.
Lemma lookup_contains (w : world) (id : Z) (c : C) : contains w id c -> exists m, w_msgs w !! id = Some m /\ w_payloads w !! mg_payload m = Some c.
Proof. done. Qed.
Lemma writer_good (w w' : world) (dest : Z) (soft : bool) (id : Z) (m : message) (c : C) (o : LogPathOptions) : log_writer_queue dest soft id o w = Ret w' -> share_inv w -> w_msgs w !! id = Some m -> w_payloads w !! mg_payload m = Some c ->
  exists ks, share_inv w' /\ step id w w' ks /\ carries w' ks (queued (w_sur w) dest c (ack_needed o && (flow_control_requested o || soft && s_up (w_sur w) dest))) /\ contains w' id c.
Proof.
  intros E I Hm Hc. unfold log_writer_queue in E. destruct (negb (flow_control_requested o) && (negb (s_up (w_sur w) dest) || negb soft)) eqn:Eb.
  - destruct (path_break_ack w id o) as [[w1 o1]|] eqn:E1; [|done]. cbn [obind] in E. destruct (break_same _ _ _ _ _ E1) as [S1 ->]. destruct (same_contains w w1 id c S1 ltac:(by exists m)) as (m1 & Hm1 & Hc1). destruct (push_good w1 w' dest id m1 c _ E (same_inv _ _ S1 I) Hm1 Hc1) as (ks & I' & S' & C' & L'). exists ks. rewrite (sm_sur _ _ S1) in C'. cbn [ack_needed] in C'.
    replace (ack_needed o && _) with false. { split_and!; [done|by apply (step_trans id w w1 w' []); [by apply same_step|]|done|done]. } symmetry. apply andb_true_iff in Eb as [Ef%negb_true_iff Eb]; rewrite Ef. cbn. destruct soft, (s_up (w_sur w) dest); cbn in *; by rewrite ?andb_false_r.
  - cbn [obind] in E. destruct (push_good w w' dest id m c o E I Hm Hc) as (ks & I' & S' & C' & L'). exists ks. split_and!; [done|done| |done]. replace (ack_needed o && _) with (ack_needed o); [done|]. destruct (flow_control_requested o); cbn in *; [by rewrite andb_true_r|]. destruct soft, (s_up (w_sur w) dest); cbn in *; try done; by rewrite andb_true_r.
Qed.
Lemma threaded_good (w w' : world) (dest : Z) (id : Z) (m : message) (c : C) (o o' : LogPathOptions) : log_threaded_dest_driver_queue dest id o w = Ret (w', o') -> share_inv w -> w_msgs w !! id = Some m -> w_payloads w !! mg_payload m = Some c ->
  exists ks, o' = mkLogPathOptions (ack_needed o && flow_control_requested o) (flow_control_requested o) /\ share_inv w' /\ step id w w' ks /\ carries w' ks (queued (w_sur w) dest c (ack_needed o')) /\ contains w' id c.
Proof.
  intros E I Hm Hc. unfold log_threaded_dest_driver_queue in E. assert (H1 : exists w1 o1, (if negb (flow_control_requested o) then path_break_ack w id o else Ret (w, o)) = Ret (w1, o1) /\ same w w1 /\ o1 = mkLogPathOptions (ack_needed o && flow_control_requested o) (flow_control_requested o)).
  { destruct (flow_control_requested o) eqn:Ef; cbn [negb] in *; [exists w, o; split_and!; [done|apply same_refl|destruct o as [a f]; cbn in *; by rewrite andb_true_r, Ef]|]. destruct (path_break_ack w id o) as [[w1 o1]|] eqn:E1; [|done]. destruct (break_same _ _ _ _ _ E1) as [S1 ->]. exists w1, (mkLogPathOptions false (flow_control_requested o)). split_and!; [done|done|by rewrite andb_false_r, Ef]. }
  destruct H1 as (w1 & o1 & E1 & S1 & Eo). rewrite E1 in E. cbn [obind] in E. destruct (path_add_ack w1 id o1) as [w2|] eqn:E2; [|done]. cbn [obind] in E. destruct (push_tail w2 dest id o1) as [w3|] eqn:E3; [|done]. cbn [obind] in E. injection E as <- <-. pose proof (same_trans _ _ _ S1 (add_ack_same _ _ _ _ E2)) as S2.
  destruct (same_contains w w2 id c S2 ltac:(by exists m)) as (m2 & Hm2 & Hc2). destruct (push_good w2 w3 dest id m2 c o1 E3 (same_inv _ _ S2 I) Hm2 Hc2) as (ks & I3 & S3 & C3 & L3). exists ks. rewrite (sm_sur _ _ S2) in C3. split_and!; [done|done|by apply (step_trans id w w2 w3 []); [by apply same_step|]|done|done].
Qed.

(** ** Pipes *)

Lemma looks_tame (p : Pipe) : looks p -> tame p.
Proof. induction p as [flags kind next Hq Hk] using LogPipe_nested_ind. intros [Hn Hl]. split; [destruct next as [q|]; [by apply (Hq q)|done]|by destruct kind]. Qed.
(** The state after a call, with what the pipes [p] are meant to have done with [c]. *)
Definition outcome_good (id : Z) (w w' : world) (c : C) (ks : list queue_node) (l : list (Z * C * bool)) : Prop := share_inv w' /\ step id w w' ks /\ carries w' ks l.
Definition good (p : Pipe) : Prop := forall w id m c o w' b, log_pipe_queue fits p id o w = Ret (w', b) -> share_inv w -> w_msgs w !! id = Some m -> w_payloads w !! mg_payload m = Some c -> well_marked p -> tame p \/ mg_referenced m = false ->
  exists ks, outcome_good id w w' c ks (deliver (w_sur w) p o c).1 /\ b = (deliver (w_sur w) p o c).2 /\ (looks p \/ mg_referenced m = true -> contains w' id c).
(** One call after another. *)
Lemma good_seq (id : Z) (w w1 w' : world) (m1 : message) (c : C) (k1 k2 : list queue_node) (l1 l2 : list (Z * C * bool)) : outcome_good id w w1 c k1 l1 -> w_msgs w1 !! id = Some m1 -> contains w1 id c -> outcome_good id w1 w' c k2 l2 -> (mg_referenced m1 = true -> contains w' id c) -> outcome_good id w w' c (k1 ++ k2) (l1 ++ l2).
Proof.
  intros (I1 & S1 & C1) Hm1 Hc1 (I2 & S2 & C2) Hr. split_and!; [done|by apply step_trans with w1|]. apply Forall2_app; [|done]. apply (carries_keeps w1); [by eapply step_keeps|intros x Hx; by eapply step_added|done].
Qed.
Lemma same_good (id : Z) (w w' : world) (c : C) : share_inv w -> same w w' -> outcome_good id w w' c [] [].
Proof. intros I S. split_and!; [by eapply same_inv|by apply same_step|constructor]. Qed.

Definition forward (pipe_next : option Pipe) (id : Z) (o : LogPathOptions) (w : world) : outcome (world * bool) := match pipe_next with Some q => log_pipe_queue fits q id o w | None => let! w := path_drop w id o AT_PROCESSED in Ret (w, true) end.
Definition forward_of (s : surroundings) (pipe_next : option Pipe) (o : LogPathOptions) (c : C) : list (Z * C * bool) * bool := match pipe_next with Some q => deliver s q o c | None => ([], true) end.
Definition next_looks (pipe_next : option Pipe) : Prop := match pipe_next with Some q => looks q | None => True end.
Lemma drop_good (w w' : world) (id : Z) (c : C) (o : LogPathOptions) (b b' : bool) : (let! w := path_drop w id o AT_PROCESSED in Ret (w, b)) = Ret (w', b') -> share_inv w -> contains w id c -> outcome_good id w w' c [] [] /\ b' = b /\ contains w' id c.
Proof.
  intros E I Hc. destruct (path_drop w id o AT_PROCESSED) as [w1|] eqn:E1; [|done]. cbn [obind] in E. injection E as <- <-. pose proof (drop_same _ _ _ _ _ E1) as S. split_and!; [by apply same_good|done|by eapply same_contains].
Qed.
Lemma forward_good (pipe_next : option Pipe) : (forall q, pipe_next = Some q -> good q) -> forall w id m c o w' b, forward pipe_next id o w = Ret (w', b) -> share_inv w -> w_msgs w !! id = Some m -> w_payloads w !! mg_payload m = Some c -> match pipe_next with Some q => well_marked q | None => True end -> next_tame pipe_next \/ mg_referenced m = false ->
  exists ks, outcome_good id w w' c ks (forward_of (w_sur w) pipe_next o c).1 /\ b = (forward_of (w_sur w) pipe_next o c).2 /\ (next_looks pipe_next \/ mg_referenced m = true -> contains w' id c).
Proof.
  intros Hg w id m c o w' b E I Hm Hc Hw Ht. destruct pipe_next as [q|]; [by eapply (Hg q eq_refl)|]. destruct (drop_good w w' id c o true b E I ltac:(by exists m)) as (O & -> & L). by exists [].
Qed.
Lemma each_good (ds : list Pipe) : Forall good ds -> foldr (fun d acc => (well_marked d /\ looks d) /\ acc) True ds -> forall w id m c o b w' b', each_driver (log_pipe_queue fits) id o ds w b = Ret (w', b') -> share_inv w -> w_msgs w !! id = Some m -> w_payloads w !! mg_payload m = Some c ->
  exists ks, outcome_good id w w' c ks (each_of (deliver (w_sur w)) o c ds).1 /\ b' = b && (each_of (deliver (w_sur w)) o c ds).2 /\ contains w' id c.
Proof.
  induction 1 as [|d ds Hd Hds IH]; intros Hw w id m c o b w' b' E I Hm Hc.
  - injection E as <- <-. exists []. split_and!; [apply same_good; [done|apply same_refl]|by rewrite andb_true_r|by exists m].
  - destruct Hw as [[Wd Ld] Hw]. cbn [each_driver] in E. fold (each_driver (log_pipe_queue fits) id o) in E. destruct (path_add_ack w id o) as [w1|] eqn:E1; [|done]. cbn [obind] in E. destruct (log_pipe_queue fits d id o w1) as [[w2 b2]|] eqn:E2; [|done]. cbn [obind] in E. pose proof (add_ack_same _ _ _ _ E1) as S1. pose proof (same_inv _ _ S1 I) as I1.
    assert (C1 : contains w1 id c) by (eapply same_contains; [done|by exists m]). destruct C1 as (m1 & Hm1 & Hc1). destruct (Hd w1 id m1 c o w2 b2 E2 I1 Hm1 Hc1 Wd (or_introl (looks_tame d Ld))) as (k2 & O2 & -> & L2). specialize (L2 (or_introl Ld)). destruct L2 as (m2 & Hm2 & Hc2). pose proof (proj1 O2) as I2.
    destruct (IH Hw w2 id m2 c o _ w' b' E I2 Hm2 Hc2) as (k3 & O3 & -> & L3). rewrite (st_sur _ _ _ _ (proj1 (proj2 O2))), (sm_sur _ _ S1) in *. exists (k2 ++ k3). cbn [each_of]. fold (each_of (deliver (w_sur w)) o c). destruct (deliver (w_sur w) d o c) as [l b1], (each_of (deliver (w_sur w)) o c ds) as [l' b'']. cbn [fst snd] in *.
    assert (O : outcome_good id w w2 c k2 l) by (apply (good_seq id w w1 w2 m1 c [] k2 [] l); [by apply same_good|done|by exists m1|done|intros _; by exists m2]). split_and!; [by eapply good_seq; [exact O|exact Hm2|by exists m2|exact O3|]|by rewrite andb_assoc|done].
Qed.

(** ** Branches *)

(** One branch; [ld]: it may be the last delivery. *)
Lemma hop_good (h : Pipe) (w w1 w' : world) (id n : Z) (m : message) (c : C) (o : LogPathOptions) (ld b : bool) : good h -> well_marked h -> marked h \/ looks h -> next_msg w id o h ld = Ret (n, w1) -> log_pipe_queue fits h n o w1 = Ret (w', b) -> share_inv w -> w_msgs w !! id = Some m -> w_payloads w !! mg_payload m = Some c ->
  exists ks, outcome_good id w w' c ks (deliver (w_sur w) h o c).1 /\ b = (deliver (w_sur w) h o c).2 /\ (ld = false \/ looks h \/ mg_referenced m = true -> contains w' id c).
Proof.
  intros Hg Hw Hml En Eq I Hm Hc. unfold next_msg in En. destruct (path_add_ack w id o) as [w0|] eqn:Ea; [|done]. cbn [obind] in En. pose proof (add_ack_same _ _ _ _ Ea) as S0. destruct (same_lookup w w0 id m S0 Hm) as (m0 & Hm0 & Hp0 & _ & Hr0). unfold get_msg at 1 in En. rewrite Hm0 in En. cbn [obind] in En. pose proof (same_inv _ _ S0 I) as I0. assert (Hc0 : w_payloads w0 !! mg_payload m0 = Some c) by (by rewrite (sm_payloads _ _ S0), Hp0).
  rewrite <- (sm_sur _ _ S0). destruct (has_flag (pipe_flags h) PIF_CLONE && (mg_referenced m0 || negb ld)) eqn:Ecl.
  - destruct (clone_good w0 w1 id n m0 c o En I0 Hm0 Hc0) as (-> & I1 & S1 & F1 & Hne & m1 & Hm1 & Hr1 & Hc1). destruct (Hg w1 _ m1 c o w' b Eq I1 Hm1 Hc1 Hw (or_intror Hr1)) as (ks & (I' & S' & C') & -> & _). rewrite (st_sur _ _ _ _ S1) in *.
    assert (Hall : forall i x, contains w i x -> contains w' i x). { intros i x Hx. pose proof (same_contains _ _ _ _ S0 Hx) as Hx0. apply (st_frame _ _ _ _ S'); [|by apply F1]. destruct Hx0 as (y & Hy & _). pose proof (sh_next w0 I0 i y Hy). lia. }
    exists ks. split_and!; [|done|intros _; apply Hall; by exists m]. split_and!; [done| |done]. destruct S' as [K' R' N' F' X']. destruct S1 as [K1 R1 N1 _ X1]. split.
    + by rewrite K', K1, app_nil_r, (sm_kept _ _ S0).
    + by rewrite R', R1, (sm_sur _ _ S0).
    + rewrite <- (sm_next _ _ S0). lia.
    + intros i x _. apply Hall.
    + intros i x Hx. destruct (same_lookup w w0 i x S0 Hx) as (x0 & Hx0 & _ & _ & Rx). destruct (X1 i x0 Hx0) as (x1 & Hx1 & Rx1). destruct (X' i x1 Hx1) as (x2 & Hx2 & Rx2). exists x2. split; [done|]. intros Hxr. apply Rx2, Rx1. congruence.
  - injection En as <- <-. assert (Hpre : tame h \/ mg_referenced m0 = false). { destruct Hml as [Hmk|Hl]; [|left; by apply looks_tame]. right. unfold marked in Hmk. rewrite Hmk in Ecl. cbn [andb] in Ecl. by apply orb_false_iff in Ecl as [? _]. }
    destruct (Hg w0 id m0 c o w' b Eq I0 Hm0 Hc0 Hw Hpre) as (ks & O & -> & L). exists ks. split_and!; [|done|].
    + apply (good_seq id w w0 w' m0 c [] ks [] _); [by apply same_good|done|by exists m0|done|intros Hr; apply L; by right].
    + intros Hor. apply L. rewrite Hr0. destruct Hor as [Hld|[Hl|Hr]]; [|by left|by right]. destruct Hml as [Hmk|Hl]; [|by left]. unfold marked in Hmk. rewrite Hmk, Hld in Ecl. cbn [andb negb] in Ecl. by rewrite orb_true_r in Ecl.
Qed.
Definition hops_ok (hs : list Pipe) : Prop := foldr (fun h acc => (well_marked h /\ (marked h \/ looks h)) /\ acc) True hs.
Definition hops_look (hs : list Pipe) : Prop := foldr (fun h acc => looks h /\ acc) True hs.
(** A round; in the end the object has its payload, or no branch comes any more. *)
Lemma round_good (hs : list Pipe) : Forall good hs -> hops_ok hs -> forall w id m c o ends fallbacks fallback delivered w' d', mpx_round (log_pipe_queue fits) id o ends fallbacks fallback hs delivered w = Ret (w', d') -> share_inv w -> w_msgs w !! id = Some m -> w_payloads w !! mg_payload m = Some c ->
  exists ks, outcome_good id w w' c ks (round_of (deliver (w_sur w)) o c fallback hs).1 /\ d' = delivered || (round_of (deliver (w_sur w)) o c fallback hs).2 /\
    (ends = false \/ hops_look hs \/ mg_referenced m = true -> contains w' id c) /\ (contains w' id c \/ ends = true /\ (fallbacks = false \/ d' = true \/ fallback = true)).
Proof.
  induction 1 as [|h hs Hh Hhs IH]; intros Hw w id m c o ends fallbacks fallback delivered w' d' E I Hm Hc.
  - injection E as <- <-. assert (contains w id c) by (by exists m). exists []. split_and!; [apply same_good; [done|apply same_refl]|by rewrite orb_false_r|done|by left].
  - destruct Hw as [[Hwh Hmh] Hw]. cbn [mpx_round] in E. fold (mpx_round (log_pipe_queue fits) id o ends fallbacks fallback) in E. cbn [round_of]. fold (round_of (deliver (w_sur w)) o c fallback). destruct (negb (Bool.eqb _ fallback)).
    { destruct (IH Hw w id m c o ends fallbacks fallback delivered w' d' E I Hm Hc) as (ks & O & Ed & L & F). exists ks. split_and!; [done|done|intros [?|[[_ ?]|?]]; apply L; tauto|done]. }
    set (ld := ends && bool_decide (hs = []) && (negb fallbacks || delivered || fallback)) in E. destruct (next_msg w id (hop_options o h) h ld) as [[n w1]|] eqn:En; [|done]. cbn [obind] in E. destruct (log_pipe_queue fits h n (hop_options o h) w1) as [[w2 b]|] eqn:Eq; [|done]. cbn [obind] in E.
    destruct (hop_good h w w1 w2 id n m c _ ld b Hh Hwh Hmh En Eq I Hm Hc) as (k1 & O1 & Eb & L1). pose proof O1 as (I1 & S1 & C1). destruct (deliver (w_sur w) h (hop_options o h) c) as [l1 b1]. cbn [fst snd] in *. subst b1.
    destruct hs as [|x hs].
    + assert (w' = w2 /\ d' = delivered || b) as [-> ->]. { destruct b; [destruct (has_flag (pipe_flags h) PIF_BRANCH_FINAL)|]; cbn in E; injection E as <- <-; by rewrite ?orb_true_r, ?orb_false_r. }
      assert (Hfin : (if b && has_flag (pipe_flags h) PIF_BRANCH_FINAL then (l1, true) else let '(l', d) := round_of (deliver (w_sur w)) o c fallback [] in (l1 ++ l', b || d)) = (l1, b)) by (cbn; rewrite app_nil_r, orb_false_r; destruct b; cbn; [by destruct (has_flag (pipe_flags h) PIF_BRANCH_FINAL)|done]). rewrite Hfin. exists k1. split_and!; [done|done| |].
      * intros [->|[[Hl _]|Hr]]; apply L1; [by left|by right; left|by right; right].
      * destruct ld eqn:Eld; [|left; apply L1; by left]. right. subst ld. apply andb_true_iff in Eld as [[Ee _]%andb_true_iff Eld]. split; [done|]. apply orb_true_iff in Eld as [[Eld|Eld]%orb_true_iff|Eld]; [left; by destruct fallbacks|right; left; by rewrite Eld|by right; right].
    + assert (Eld : ld = false) by (subst ld; rewrite (bool_decide_eq_false_2 (x :: hs = [])) by done; by rewrite andb_false_r). specialize (L1 (or_introl Eld)). pose proof L1 as (m2 & Hm2 & Hc2).
      destruct (b && has_flag (pipe_flags h) PIF_BRANCH_FINAL) eqn:Efin.
      * apply andb_true_iff in Efin as [-> Ef]. rewrite Ef in E. injection E as <- <-. exists k1. split_and!; [done|by rewrite orb_true_r|done|by left].
      * assert (E' : mpx_round (log_pipe_queue fits) id o ends fallbacks fallback (x :: hs) (delivered || b) w2 = Ret (w', d')) by (destruct b; cbn in Efin; [by rewrite Efin in E; rewrite orb_true_r|by rewrite orb_false_r]).
        destruct (IH Hw w2 id m2 c o ends fallbacks fallback _ w' d' E' I1 Hm2 Hc2) as (k2 & O2 & Ed & L2 & F2). rewrite (st_sur _ _ _ _ S1) in *. destruct (round_of (deliver (w_sur w)) o c fallback (x :: hs)) as [l d]. cbn [fst snd] in *. exists (k1 ++ k2). split_and!; [|by rewrite Ed, orb_assoc| |done].
        -- eapply good_seq; [exact O1|exact Hm2|done|exact O2|intros Hr; apply L2; by right; right].
        -- intros Hor. apply L2. destruct Hor as [?|[[_ ?]|Hr]]; [by left|by right; left|right; right]. destruct (st_ref _ _ _ _ S1 id m Hm) as (m2' & Hm2' & Hrr). simplify_eq. by apply Hrr.
Qed.
Lemma no_fallback (s : surroundings) (o : LogPathOptions) (c : C) (hops : list Pipe) : fallback_exists hops = false -> round_of (deliver s) o c true hops = ([], false).
Proof. unfold fallback_exists. induction hops as [|h hs IH]; [done|]. cbn. intros [-> Ef]%orb_false_iff. by apply IH. Qed.
Lemma mpx_good (flags : Z) (hops : list Pipe) (pipe_next : option Pipe) : Forall good hops -> (forall q, pipe_next = Some q -> good q) -> good (mkPipe flags (PMpx hops) pipe_next).
Proof.
  intros Hh Hq w id m c o w' b E I Hm Hc (Wn & Wh & Wt) _. cbn [log_pipe_queue] in E. set (ends := bool_decide (pipe_next = None)) in E. set (fallbacks := fallback_exists hops) in E. destruct (mpx_round (log_pipe_queue fits) id o ends fallbacks false hops false w) as [[w1 d1]|] eqn:E1; [|done]. cbn [obind] in E.
  destruct (round_good hops Hh Wh w id m c o ends fallbacks false false w1 d1 E1 I Hm Hc) as (k1 & O1 & Ed1 & L1 & F1). pose proof O1 as (I1 & S1 & C1). cbn [orb] in Ed1. cbn [deliver looks]. destruct (round_of (deliver (w_sur w)) o c false hops) as [l1 d1']. cbn [fst snd] in *. subst d1'.
  assert (Href : forall wx kx, step id w wx kx -> mg_referenced m = true -> forall mx, w_msgs wx !! id = Some mx -> mg_referenced mx = true) by (intros wx kx Sx Hr mx Hmx; destruct (st_ref _ _ _ _ Sx id m Hm) as (y & Hy & Hyr); simplify_eq; by apply Hyr).
  destruct (if fallbacks && negb d1 then mpx_round (log_pipe_queue fits) id o ends fallbacks true hops d1 w1 else Ret (w1, d1)) as [[w2 d2]|] eqn:E2; [|done]. cbn [obind] in E.
  assert (H2 : exists k2, outcome_good id w w2 c (k1 ++ k2) (l1 ++ if negb d1 then (round_of (deliver (w_sur w)) o c true hops).1 else []) /\ (ends = false \/ hops_look hops \/ mg_referenced m = true -> contains w2 id c)).
  { destruct (fallbacks && negb d1) eqn:Ef.
    - apply andb_true_iff in Ef as [Ef Ed]. rewrite Ed. destruct F1 as [Hc1|(_ & [?|[->|?]])]; [|congruence|done|done]. pose proof Hc1 as (m1 & Hm1 & Hp1). destruct (round_good hops Hh Wh w1 id m1 c o ends fallbacks true d1 w2 d2 E2 I1 Hm1 Hp1) as (k2 & O2 & _ & L2 & _). rewrite (st_sur _ _ _ _ S1) in O2. exists k2. split; [eapply good_seq; [exact O1|exact Hm1|done|exact O2|intros Hr; apply L2; by right; right]|]. intros Hor. apply L2. destruct Hor as [?|[?|Hr]]; [by left|by right; left|right; right; by eapply (Href w1 k1)].
    - injection E2 as <- <-. exists []. rewrite app_nil_r. replace (if negb d1 then _ else _) with ([] : list (Z * C * bool)); [by rewrite app_nil_r|]. destruct d1; [done|]. rewrite andb_true_r in Ef. by rewrite (no_fallback (w_sur w) o c hops Ef). }
  destruct H2 as (k2 & O2 & L2). pose proof O2 as (I2 & S2 & C2). change (forward pipe_next id o w2 = Ret (w', b)) in E. change (match pipe_next with Some q => deliver (w_sur w) q o c | None => ([], true) end) with (forward_of (w_sur w) pipe_next o c). set (l2 := if negb d1 then _ else _) in *. destruct pipe_next as [q|] eqn:En.
  - assert (Hc2 : contains w2 id c) by (apply L2; by left). pose proof Hc2 as (m2 & Hm2 & Hp2). destruct (forward_good (Some q) Hq w2 id m2 c o w' b E I2 Hm2 Hp2 Wn (or_introl Wt)) as (k3 & O3 & Eb & L3). rewrite (st_sur _ _ _ _ S2) in *. destruct (forward_of (w_sur w) (Some q) o c) as [l3 b3]. cbn [fst snd] in *. rewrite app_assoc. exists ((k1 ++ k2) ++ k3). split_and!; [eapply good_seq; [exact O2|exact Hm2|done|exact O3|intros Hr; apply L3; by right]|done|]. intros [[Hl _]|Hr]; apply L3; [by left|right; by eapply (Href w2 (k1 ++ k2))].
  - cbn [forward forward_of fst snd] in *. destruct (path_drop w2 id o AT_PROCESSED) as [w3|] eqn:E3; [|done]. cbn [obind] in E. injection E as <- <-. pose proof (drop_same _ _ _ _ _ E3) as S3. exists (k1 ++ k2). rewrite app_nil_r. split_and!; [|done|intros Hor; eapply same_contains; [exact S3|]; apply L2; right; destruct Hor as [[_ ?]|?]; [by left|by right]].
    split_and!; [by eapply same_inv|rewrite <- (app_nil_r (k1 ++ k2)); eapply step_trans; [exact S2|by apply same_step]|]. apply (carries_keeps w2); [intros x cx _; by apply same_contains|intros x Hx; by eapply step_added|done].
Qed.
Lemma all_good (p : Pipe) : good p.
Proof.
  induction p as [flags kind next Hq Hk] using LogPipe_nested_ind. destruct kind as [test|process|dest soft|dest|drivers|hops]; [| | | | |by apply mpx_good]; intros w id m c o w' b E I Hm Hc Hw Hpre; assert (Hcon : contains w id c) by (by exists m); cbn [log_pipe_queue] in E; cbn [deliver looks]; destruct Hw as [Wn Wk]; unfold get_msg, get_payload in E; rewrite ?Hm in E; cbn [obind] in E; rewrite ?Hc in E; cbn [obind] in E.
  - destruct (test c); [|destruct (drop_good w w' id c o false b E I Hcon) as (O & -> & L); by exists []]. destruct (forward_good next Hq w id m c o w' b E I Hm Hc Wn ltac:(destruct Hpre as [[? _]|?]; [by left|by right])) as (ks & O & Eb & L). exists ks. split_and!; [done|done|]. intros [[? _]|?]; apply L; [by left|by right].
  - destruct Hpre as [[_ []]|Hr]. destruct (process c) as [c' success]. destruct (change fits w id c') as [w1|] eqn:E1; [|done]. cbn [obind] in E. destruct (change_good w w1 id m c' E1 I Hm Hr) as (I1 & S1 & m1 & Hm1 & Hr1 & Hc1). assert (Hv : looks (mkPipe flags (PProcess process) next) \/ mg_referenced m = true -> contains w' id c) by (intros [[_ []]|?]; congruence). destruct success.
    + destruct (forward_good next Hq w1 id m1 c' o w' b E I1 Hm1 Hc1 Wn (or_intror Hr1)) as (ks & (I' & S' & C') & Eb & L). rewrite (st_sur _ _ _ _ S1) in *. exists ks. split_and!; [split_and!; [done|by apply (step_trans id w w1 w' [])|done]|done|done].
    + destruct (drop_good w1 w' id c' o false b E I1 ltac:(by exists m1)) as ((I' & S' & C') & -> & L). exists []. split_and!; [split_and!; [done|by apply (step_trans id w w1 w' [] [])|done]|done|done].
  - destruct (log_writer_queue dest soft id o w) as [w1|] eqn:E1; [|done]. cbn [obind] in E. injection E as <- <-. destruct (writer_good w w1 dest soft id m c o E1 I Hm Hc) as (ks & I1 & S1 & C1 & L1). exists ks. by split_and!.
  - destruct (log_threaded_dest_driver_queue dest id o w) as [[w1 o1]|] eqn:E1; [|done]. cbn [obind] in E. destruct (threaded_good w w1 dest id m c o o1 E1 I Hm Hc) as (k1 & -> & I1 & S1 & C1 & L1). pose proof L1 as (m1 & Hm1 & Hc1). destruct (forward_good next Hq w1 id m1 c _ w' b E I1 Hm1 Hc1 Wn (or_introl Wk)) as (k2 & O2 & Eb & L2). rewrite (st_sur _ _ _ _ S1) in *. cbn [ack_needed flow_control_requested] in *. change (match next with Some q => deliver (w_sur w) q ?o' c | None => ([], true) end) with (forward_of (w_sur w) next o' c). destruct (forward_of (w_sur w) next _ c) as [l2 b2]. cbn [fst snd] in *. exists (k1 ++ k2). split_and!; [eapply good_seq; [by split_and!|exact Hm1|done|exact O2|intros Hr; apply L2; by right]|done|]. intros [[? _]|Hr]; apply L2; [by left|right]. destruct (st_ref _ _ _ _ S1 id m Hm) as (y & Hy & Hyr). simplify_eq. by apply Hyr.
  - destruct (each_driver (log_pipe_queue fits) id o drivers w true) as [[w1 b1]|] eqn:E1; [|done]. cbn [obind] in E. destruct Wk as [Wd Wt]. destruct (each_good drivers Hk Wd w id m c o true w1 b1 E1 I Hm Hc) as (k1 & O1 & Eb1 & L1). pose proof O1 as (I1 & S1 & C1). pose proof L1 as (m1 & Hm1 & Hc1). change (obind (forward next id o w1) (fun x => let '(w, b) := x in Ret (w, b1 && b)) = Ret (w', b)) in E. destruct (forward next id o w1) as [[w2 b2]|] eqn:E2; [|done]. cbn [obind] in E. injection E as <- <-. destruct (forward_good next Hq w1 id m1 c o w2 b2 E2 I1 Hm1 Hc1 Wn (or_introl Wt)) as (k2 & O2 & Eb2 & L2). rewrite (st_sur _ _ _ _ S1) in *. change (match next with Some q => deliver (w_sur w) q o c | None => ([], true) end) with (forward_of (w_sur w) next o c). destruct (each_of (deliver (w_sur w)) o c drivers) as [l1 d1], (forward_of (w_sur w) next o c) as [l2 d2]. cbn [fst snd andb] in *. subst. exists (k1 ++ k2). split_and!; [eapply good_seq; [exact O1|exact Hm1|done|exact O2|intros Hr; apply L2; by right]|done|]. intros [[? _]|Hr]; apply L2; [by left|right]. destruct (st_ref _ _ _ _ S1 id m Hm) as (y & Hy & Hyr). simplify_eq. by apply Hyr.
Qed.
End contents.
