(* ===== verification/LogPathClaims.v ===== *)
(** * What log paths promise (lib/center.c, lib/logmpx.c)

    [log_center_init_pipe_line] makes pipes of a log statement.  When the statements are [statement_ok]
    every destination queues the message as the elements of its own statement made it; two log
    statements that are not show that the marks center.c sets are too few for them.  For every
    tree of pipes the source is told once that a message is done. *)
From S2P Require Import Prelude LogMsgRef LogPath LogPathAcks LogPathSpec.

(** ** Runs *)

Section run.
Context {C : Type}.
Variable fits : C -> C -> bool.
Variable p : LogPipe (C := C).
Abbreviation world := (LogPath.world (C := C)).

Lemma new_share (w : world) (c : C) : share_inv w -> let w1 := (new_message w c).2 in share_inv w1 /\ w_kept w1 = w_kept w /\ keeps w w1.
Proof.
  intros I. cbn. set (n := w_next w). set (m := mkMessage _ _ _ _ _ _ _). assert (Hl : forall i y, <[n := m]> (w_msgs w) !! i = Some y -> i = n /\ y = m \/ i <> n /\ w_msgs w !! i = Some y) by (intros i y; destruct (decide (i = n)) as [->|]; [rewrite lookup_insert_eq; intros [= <-]; by left|rewrite lookup_insert_ne by done; by right]).
  assert (Hr : forall i y, w_msgs w !! i = Some y -> <[n := m]> (w_msgs w) !! i = Some y /\ mg_payload y <> n) by (intros i y Hy; pose proof (sh_next w I i y Hy); subst n; rewrite lookup_insert_ne by lia; split; [done|lia]).
  split_and!; [split; cbn|done|].
  - intros i y Hy. destruct (Hl i y Hy) as [[-> ->]|[_ Hz]]; [subst n; cbn; lia|]. pose proof (sh_next w I i y Hz). lia.
  - intros i j mi mj Hne Hi Hj Hp Ho. destruct (Hl i mi Hi) as [[-> ->]|[Hni Hzi]], (Hl j mj Hj) as [[-> ->]|[Hnj Hzj]]; [done|by destruct (Hr j mj Hzj)|by destruct (Hr i mi Hzi)|by apply (sh_own w I i j)].
  - intros x Hx. destruct (sh_kept w I x Hx) as (y & Hy & Hrf). exists y. by destruct (Hr _ y Hy).
  - intros x c' Hx (y & Hy & Hc). exists y. cbn. destruct (Hr _ y Hy) as [? ?]. split; [done|]. by rewrite lookup_insert_ne.
Qed.
Lemma step_spec (w w' : world) (l : list (Z * C * bool)) (op : path_op) : well_marked p -> path_step fits p w op = Ret w' -> share_inv w -> carries w (w_kept w) l -> share_inv w' /\ w_sur w' = (spec_step p (w_sur w, l) op).1 /\ carries w' (w_kept w') (spec_step p (w_sur w, l) op).2.
Proof.
  intros Hp E I Hc. destruct op as [c|n ty|s]; cbn [path_step spec_step fst snd] in *.
  - destruct (new_share w c I) as (I1 & K1 & P1). unfold new_message in *. cbn [snd] in *. set (w1 := mkWorld _ _ _ _ _ _) in *. destruct (log_pipe_queue fits p (w_next w) source_options w1) as [[w2 b]|] eqn:E2; [|done]. cbn [obind] in E. injection E as <-.
    destruct (all_good fits p w1 (w_next w) _ c source_options w2 b E2 I1 (lookup_insert_eq _ _ _) (lookup_insert_eq _ _ _) Hp (or_intror eq_refl)) as (ks & (I2 & S2 & C2) & _). split_and!; [done|by rewrite (st_sur _ _ _ _ S2)|]. rewrite (st_kept _ _ _ _ S2), K1. apply Forall2_app; [|done].
    apply (carries_keeps w1); [|by rewrite K1|by apply (carries_keeps w)]. eapply (step_keeps _ w1 w2 ks (mkMessage (w_next w) true false 1 false false AckSource) c); [exact I1|exact S2|apply lookup_insert_eq|eexists; split; apply lookup_insert_eq|intros Hx; discriminate Hx].
  - destruct (w_kept w !! n) as [x|] eqn:Ex; [|injection E as <-; split_and!; [done|done|]; rewrite delete_take_drop, take_ge, drop_ge, app_nil_r by (rewrite <- (Forall2_length _ _ _ Hc); apply lookup_ge_None in Ex; lia); done].
    pose proof (drop_same _ _ _ _ _ E) as S. assert (I1 : share_inv (unkeep w n)) by (destruct I as [I1 I2 I3]; split; [done|done|]; intros y Hy; apply I3; exact (delete_elem (w_kept w) n y Hy)). split_and!; [by eapply same_inv|apply (sm_sur _ _ S)|]. rewrite (sm_kept _ _ S). cbn [unkeep w_kept]. apply Forall2_delete. eapply Forall2_impl; [exact Hc|]. intros y z (? & Hy & ?). split_and!; [done| |done]. eapply same_contains; [exact S|]. exact Hy.
  - injection E as <-. split_and!; [by destruct I|done|]. eapply Forall2_impl; [exact Hc|]. done.
Qed.
Lemma run_spec (ops : list path_op) : well_marked p -> forall w w' l, path_run fits p ops w = Ret w' -> share_inv w -> carries w (w_kept w) l -> carries w' (w_kept w') (foldl (spec_step p) (w_sur w, l) ops).2.
Proof.
  intros Hp. induction ops as [|op ops IH]; intros w w' l E I Hc; cbn [path_run foldl] in *; [by injection E as <-|]. destruct (path_step fits p w op) as [w1|] eqn:E1; [|done]. cbn [obind] in E. destruct (step_spec w w1 l op Hp E1 I Hc) as (I1 & S1 & C1). specialize (IH w1 w' _ E I1 C1). rewrite S1, <- surjective_pairing in IH. exact IH.
Qed.
Lemma empty_share (s : surroundings) : share_inv (empty_world (C := C) s).
Proof. split; cbn; [intros i m Hm; by rewrite lookup_empty in Hm|intros i j mi mj _ Hm; by rewrite lookup_empty in Hm|intros x Hx; by apply elem_of_nil in Hx]. Qed.
End run.

(** ** Log statements *)

Section config.
Context {C : Type}.
(** A statement has the flags final, fallback and flow-control and a list of elements; a parser, or a filter that stores
    groups, is an [EP_REWRITE] here.  A destination has drivers with writers, or with threads of their own. *)
Inductive Driver := DWriter (dest : Z) (soft : bool) | DThreaded (dest : Z).
Inductive LogConnection := mkConn (final fallback flow_control : bool) (endpoints : list LogPipeItem)
with LogPipeItem :=
  | EP_FILTER (test : C -> bool)
  | EP_REWRITE (process : C -> C * bool)
  | EP_DESTINATION (drivers : list Driver)
  | EP_PIPE (conn : LogConnection).

Definition driver (d : Driver) : LogPipe (C := C) := match d with DWriter dest soft => mkPipe 0 (PWriter dest soft) None | DThreaded dest => mkPipe 0 (PThreaded dest) None end.
(** Each destination is behind a multiplexer with one branch. *)
Definition destination (drivers : list Driver) : pipe_kind (C := C) := PMpx [mkPipe 0 (PGroup (driver <$> drivers)) None].
(** Nested statements share one multiplexer, at the place of the first of them. *)
Fixpoint kinds_of (items : list LogPipeItem) (fork : option (pipe_kind (C := C))) : list pipe_kind :=
  match items with
  | [] => []
  | EP_FILTER test :: items => PFilter test :: kinds_of items fork
  | EP_REWRITE process :: items => PProcess process :: kinds_of items fork
  | EP_DESTINATION drivers :: items => destination drivers :: kinds_of items fork
  | EP_PIPE _ :: items => match fork with Some k => k :: kinds_of items None | None => kinds_of items None end
  end.
Definition item_flags (k : pipe_kind (C := C)) : Z := match k with PProcess _ => PIF_CLONE | _ => 0 end.
Fixpoint chain (ks : list pipe_kind) : option (LogPipe (C := C)) := match ks with [] => None | k :: ks => Some (mkPipe (item_flags k) k (chain ks)) end.
Definition path_changes_the_message (items : list LogPipeItem) : bool := existsb (fun i => match i with EP_REWRITE _ => true | _ => false end) items.
Definition conn_flags (final fallback changes flow : bool) : Z :=
  Z.lor (if fallback then PIF_BRANCH_FALLBACK else 0) (Z.lor (if final then PIF_BRANCH_FINAL else 0) (Z.lor (if changes then PIF_CLONE else 0) (if flow then PIF_HARD_FLOW_CONTROL else 0))).
(** [None]: a statement without elements. *)
Fixpoint log_center_init_pipe_line (conn : LogConnection) (flow_controlled_parent : bool) : option (LogPipe (C := C)) :=
  match conn with
  | mkConn final fallback flow_control items =>
      let subs := foldr (fun i acc => match i with EP_PIPE c => match log_center_init_pipe_line c flow_control, acc with Some s, Some l => Some (s :: l) | _, _ => None end | _ => acc end) (Some []) items in
      match subs with
      | None => None
      | Some subs =>
          let flow_controlled_child := existsb (fun s => has_flag (pipe_flags s) PIF_HARD_FLOW_CONTROL) subs in
          match chain (kinds_of items (Some (PMpx subs))) with
          | None => None
          | Some (mkPipe flags kind next) => Some (mkPipe (Z.lor flags (conn_flags final fallback (path_changes_the_message items) (flow_control || flow_controlled_child || flow_controlled_parent))) kind next)
          end
      end
  end.
(** The multiplexer of a source, with the statements that name the source. *)
Definition source_pipe (conns : list LogConnection) : option (LogPipe (C := C)) :=
  match foldr (fun c acc => match log_center_init_pipe_line c false, acc with Some s, Some l => Some (s :: l) | _, _ => None end) (Some []) conns with
  | None => None
  | Some hops => Some (mkPipe 0 (PMpx hops) None)
  end.

(** Whether a statement or one inside of it changes messages. *)
Fixpoint rewrites (conn : LogConnection) : bool := match conn with mkConn _ _ _ items => existsb (fun i => match i with EP_REWRITE _ => true | EP_PIPE c => rewrites c | _ => false end) items end.
(** Behind a destination or nested statements nothing of the same statement rewrites. *)
Fixpoint order_ok (items : list LogPipeItem) : bool :=
  match items with [] => true | (EP_DESTINATION _ | EP_PIPE _) :: items => negb (path_changes_the_message items) | _ :: items => order_ok items end.
(** A statement around one that rewrites has an element of its own that does. *)
Fixpoint statement_ok (conn : LogConnection) : bool :=
  match conn with
  | mkConn _ _ _ items => order_ok items && (path_changes_the_message items || negb (existsb (fun i => match i with EP_PIPE c => rewrites c | _ => false end) items)) && forallb (fun i => match i with EP_PIPE c => statement_ok c | _ => true end) items
  end.

(** ** The marks are right *)

Lemma LogConnection_nested_ind (P : LogConnection -> Prop) : (forall final fallback flow items, Forall (fun i => match i with EP_PIPE c => P c | _ => True end) items -> P (mkConn final fallback flow items)) -> forall c, P c.
Proof.
  intros H. fix IH 1. intros [final fallback flow items]. apply H. induction items as [|i items IHi]; constructor; [|exact IHi]. destruct i as [t|f|d|c]; try exact I. apply IH.
Qed.
Definition not_process (k : pipe_kind (C := C)) : Prop := match k with PProcess _ => False | _ => True end.
Definition kind_ok (k : pipe_kind (C := C)) (ks : list pipe_kind) : Prop := match k with PMpx l => hops_ok l /\ Forall not_process ks | PFilter _ | PProcess _ => True | _ => False end.
Fixpoint chain_ok (ks : list pipe_kind) : Prop := match ks with [] => True | k :: ks => kind_ok k ks /\ chain_ok ks end.
Lemma chain_tame (ks : list (pipe_kind (C := C))) : Forall not_process ks -> next_tame (chain ks).
Proof. induction 1 as [|k ks Hk Hks IH]; [done|]. cbn. split; [exact IH|by destruct k]. Qed.
Lemma chain_marked (ks : list (pipe_kind (C := C))) : chain_ok ks -> match chain ks with Some p => well_marked p | None => True end.
Proof.
  induction ks as [|k ks IH]; [done|]. intros [Hk Hks]. cbn. split; [by apply IH|]. destruct k as [t|f|d s|d|l|l]; try done. destruct Hk as [Hl Hn]. split; [exact Hl|by apply chain_tame].
Qed.
Definition kind_looks (k : pipe_kind (C := C)) : Prop := match k with PProcess _ => False | PGroup l | PMpx l => hops_look l | _ => True end.
Lemma chain_looks (ks : list (pipe_kind (C := C))) : Forall kind_looks ks -> match chain ks with Some p => looks p | None => True end.
Proof. induction 1 as [|k ks Hk Hks IH]; [done|]. cbn. split; [exact IH|by destruct k]. Qed.
Lemma drivers_ok (drivers : list Driver) : foldr (fun d acc => (well_marked d /\ looks d) /\ acc) True (driver <$> drivers) /\ hops_look (driver <$> drivers).
Proof. induction drivers as [|d ds [IH1 IH2]]; [done|]. cbn. by destruct d. Qed.
Lemma destination_ok (drivers : list Driver) : hops_ok [mkPipe 0 (PGroup (driver <$> drivers)) None] /\ kind_looks (destination drivers).
Proof. destruct (drivers_ok drivers) as [H1 H2]. split; cbn; [split; [|done]; split; [done|right; done]|done]. Qed.
Lemma kinds_chain_ok (items : list LogPipeItem) (subs : list (LogPipe (C := C))) : order_ok items = true -> hops_ok subs -> chain_ok (kinds_of items (Some (PMpx subs))).
Proof.
  intros H Hs. enough (Hg : forall fork, (fork = Some (PMpx subs) \/ fork = None) -> order_ok items = true -> chain_ok (kinds_of items fork)) by (apply Hg; [by left|done]). clear H.
  assert (Hlater : forall items fork, (fork = Some (PMpx subs) \/ fork = None) -> path_changes_the_message items = false -> chain_ok (kinds_of items fork) /\ Forall not_process (kinds_of items fork)).
  { clear - Hs. intros items. induction items as [|[t|f|d|c] items IH]; intros fork Hf H; cbn in *; [done|..].
    - destruct (IH fork Hf H). split; [by split|by constructor].
    - done.
    - destruct (IH fork Hf H). split; [|by constructor]. split; [|done]. split; [apply destination_ok|done].
    - destruct (IH None ltac:(by right) H). destruct Hf as [->| ->]; [|done]. split; [|by constructor]. by split. }
  induction items as [|[t|f|d|c] items IH]; intros fork Hf H; cbn in *; [done|..].
  - split; [done|by apply IH].
  - split; [done|by apply IH].
  - apply negb_true_iff in H. destruct (Hlater items fork Hf H). split; [|done]. split; [apply destination_ok|done].
  - apply negb_true_iff in H. destruct (Hlater items None ltac:(by right) H). destruct Hf as [->| ->]; [|done]. by split.
Qed.
Lemma quiet_kinds (items : list LogPipeItem) (fork : option (pipe_kind (C := C))) : path_changes_the_message items = false -> (forall k, fork = Some k -> kind_looks k) -> Forall kind_looks (kinds_of items fork).
Proof.
  revert fork. induction items as [|[t|f|d|c] items IH]; intros fork H Hf; cbn in *; [done|..].
  - constructor; [done|by apply IH].
  - done.
  - constructor; [apply destination_ok|by apply IH].
  - destruct fork as [k|]; [constructor; [by apply Hf|by apply IH]|by apply IH].
Qed.
Lemma clone_flag (flags : Z) (final fallback flow : bool) : has_flag (Z.lor flags (conn_flags final fallback true flow)) PIF_CLONE = true.
Proof.
  unfold has_flag, conn_flags. apply bool_decide_eq_true_2. intros H. assert (Hb : Z.testbit (Z.land (Z.lor flags (Z.lor (if fallback then PIF_BRANCH_FALLBACK else 0) (Z.lor (if final then PIF_BRANCH_FINAL else 0) (Z.lor PIF_CLONE (if flow then PIF_HARD_FLOW_CONTROL else 0))))) PIF_CLONE) 6 = true).
  { rewrite Z.land_spec, !Z.lor_spec. change (Z.testbit PIF_CLONE 6) with true. cbn [orb andb]. by rewrite !orb_true_r. } by rewrite H in Hb.
Qed.
Definition subs_of (flow : bool) (items : list LogPipeItem) : option (list (LogPipe (C := C))) := foldr (fun i acc => match i with EP_PIPE c => match log_center_init_pipe_line c flow, acc with Some s, Some l => Some (s :: l) | _, _ => None end | _ => acc end) (Some []) items.
(** A statement becomes a branch that looks, or is marked; its own branches are right. *)
Definition branch_ok (conn : LogConnection) : Prop := forall parent p, log_center_init_pipe_line conn parent = Some p -> (rewrites conn = false -> looks p) /\ (statement_ok conn = true -> well_marked p /\ (marked p \/ looks p)).
Lemma subs_ok (flow : bool) (items : list LogPipeItem) : Forall (fun i => match i with EP_PIPE c => branch_ok c | _ => True end) items -> forall subs, subs_of flow items = Some subs ->
  (existsb (fun i => match i with EP_PIPE c => rewrites c | _ => false end) items = false -> hops_look subs) /\ (forallb (fun i => match i with EP_PIPE c => statement_ok c | _ => true end) items = true -> hops_ok subs).
Proof.
  induction 1 as [|i items Hi Hitems IH]; intros subs E; [by injection E as <-|]. cbn [subs_of foldr] in E. fold (subs_of flow items) in E. cbn [existsb forallb]. destruct i as [t|f|d|c]; cbn [orb andb]; [by apply IH..|]. destruct (log_center_init_pipe_line c flow) as [s|] eqn:Es; [|done]. destruct (subs_of flow items) as [l|]; [|done]. injection E as <-. destruct (IH l eq_refl) as [IH1 IH2]. destruct (Hi flow s Es) as [H1 H2]. split.
  - intros [? ?]%orb_false_iff. split; [by apply H1|by apply IH1].
  - intros [? ?]%andb_true_iff. split; [by apply H2|by apply IH2].
Qed.
Lemma statement_marked (conn : LogConnection) : branch_ok conn.
Proof.
  induction conn as [final fallback flow items IH] using LogConnection_nested_ind. intros parent p E. cbn [log_center_init_pipe_line] in E. fold (subs_of flow items) in E. destruct (subs_of flow items) as [subs|] eqn:Es; [|done]. destruct (subs_ok flow items IH subs Es) as [S1 S2]. destruct (chain (kinds_of items (Some (PMpx subs)))) as [[flags kind next]|] eqn:Ec; [|done]. injection E as <-.
  assert (Hl : path_changes_the_message items = false -> hops_look subs -> looks (mkPipe flags kind next)) by (intros Hc Hs; pose proof (chain_looks (kinds_of items (Some (PMpx subs)))) as H; rewrite Ec in H; apply H, quiet_kinds; [done|by intros k [= <-]]).
  assert (Hq : path_changes_the_message items = false -> existsb (fun i => match i with EP_PIPE c => rewrites c | _ => false end) items = false -> looks (mkPipe flags kind next)) by (intros Hc Hs; by apply Hl; [|apply S1]).
  split.
  - cbn [rewrites]. intros H. assert (Hs : path_changes_the_message items = false /\ existsb (fun i => match i with EP_PIPE c => rewrites c | _ => false end) items = false). { clear - H. unfold path_changes_the_message. induction items as [|[t|f|d|c] items IH]; cbn in *; [done|by apply IH|done|by apply IH|]. apply orb_false_iff in H as [-> H]. by apply IH. } destruct Hs. by apply Hq.
  - cbn [statement_ok]. intros [[Ho Hm]%andb_true_iff Hs]%andb_true_iff. specialize (S2 Hs). split.
    + pose proof (chain_marked (kinds_of items (Some (PMpx subs))) (kinds_chain_ok items subs Ho S2)) as H. rewrite Ec in H. exact H.
    + destruct (path_changes_the_message items) eqn:Ep; [left; apply clone_flag|right]. cbn [orb] in Hm. apply negb_true_iff in Hm. by apply Hq.
Qed.
Lemma source_marked (conns : list LogConnection) (p : LogPipe (C := C)) : source_pipe conns = Some p -> forallb statement_ok conns = true -> well_marked p.
Proof.
  unfold source_pipe. intros E Hc. destruct (foldr _ _ conns) as [hops|] eqn:Ef; [|done]. injection E as <-. split; [done|]. split; [|done]. revert hops Ef Hc. induction conns as [|c conns IH]; intros hops Ef Hc; cbn in *; [by injection Ef as <-|]. apply andb_true_iff in Hc as [Hc Hcs]. destruct (log_center_init_pipe_line c false) as [s|] eqn:Es; [|done]. destruct (foldr _ _ conns) as [l|]; [|done]. injection Ef as <-. destruct (statement_marked c false s Es) as [_ H]. split; [by apply H|by apply IH].
Qed.
End config.

(** C35: branches do not see each other.  For the pipes of log statements with nested
    ones in which (1) nothing that rewrites stands behind a destination or a nested statement of
    the same statement, and (2) a statement around one that rewrites has an element of its
    own that rewrites; for any messages, any order in which destinations finish them, and
    any queues that are full and connections that are down: every call returns, and what destinations queue has the
    payload that the elements of their own statement made of the message as it came to the fork, whatever became
    of it on other branches later; final and fallback statements and filters choose the branches as specified,
    and the source waits for a destination exactly if flow control (hard, or soft of
    a writer that is up) asks for it.  Without (1) and (2) it is not so (nested_branch_changes_other,
    rewrite_behind_destination).  Payloads are the name-value pairs; one thread at a time. *)
Theorem log_paths_isolated {C : Type} (fits : C -> C -> bool) (conns : list (LogConnection (C := C))) (p : LogPipe (C := C)) (s : surroundings) (ops : list path_op)
  (Hp : source_pipe conns = Some p) (Hc : forallb statement_ok conns = true) :
  exists w, path_run fits p ops (empty_world s) = Ret w /\ carries w (w_kept w) (spec_run p s ops).2.
Proof.
  destruct (run_total fits p ops (empty_world s) (empty_ok s)) as (w & E & _). exists w. split; [done|]. eapply (run_spec fits p ops (source_marked conns p Hp Hc) (empty_world s) w [] E); [apply empty_share|constructor].
Qed.

(** C36: acknowledgements.  For every tree of pipes with any marks, any messages, any order in which
    destinations finish or give up what they queued, any full queues: every call returns; a source is told at most once that
    its message is done, and exactly when no queue holds the message, a clone or a clone of a clone with an acknowledgement
    still to give; a destination without flow control gives it when it queues the message and then holds
    it without; and the source is told AT_PROCESSED exactly if none of these objects got another kind of acknowledgement. *)
Theorem log_paths_acknowledge {C : Type} (fits : C -> C -> bool) (p : LogPipe (C := C)) (s : surroundings) (ops : list path_op) :
  exists w, path_run fits p ops (empty_world s) = Ret w /\
    forall i m, w_msgs w !! i = Some m -> mg_func m = AckSource -> 0 <= cnt i (w_told w).*1 <= 1 /\
      (cnt i (w_told w).*1 = 1 <-> forall x, x ∈ w_kept w -> n_ack_needed x = true -> ~ stems w (n_msg x) i) /\
      forall ty, (i, ty) ∈ w_told w -> (ty = AT_PROCESSED <-> forall j mj, stems w j i -> w_msgs w !! j = Some mj -> failed mj = false).
Proof.
  destruct (run_total fits p ops (empty_world s) (empty_ok s)) as (w & E & (par & I)). exists w. split; [done|]. intros i m Hm Ho. rewrite (av_told _ _ _ _ I i), Hm. assert (H0 : 0 <= mg_acks m). { rewrite (av_acks _ _ _ _ I i m Hm). pose proof (cnt_nonneg i (waits_of (w_kept w))). pose proof (cnt_nonneg i par.*2). cbn. lia. }
  split; [case_bool; lia|]. split; [split|].
  - case_bool; [|done]. intros _ x Hx Hxa Hs. destruct Hb as [_ Ha]. assert (Hw : n_msg x ∈ waits_of (w_kept w)) by (apply waits_elem; by exists x). destruct (av_held _ _ _ _ I (n_msg x) (or_intror Hw)) as (mj & Hj & _).
    assert (0 < mg_acks mj). { rewrite (av_acks _ _ _ _ I _ mj Hj). pose proof (cnt_pos _ _ Hw). pose proof (cnt_nonneg (n_msg x) par.*2). cbn. lia. } pose proof (stems_awaited w par [] (n_msg x) i m I Hs ltac:(by exists mj) Hm). lia.
  - intros Hn. rewrite bool_decide_eq_true_2; [done|]. split; [done|]. destruct (decide (mg_acks m = 0)) as [|Hz]; [done|]. destruct (awaited_kept w par I _ i m eq_refl Hm ltac:(lia)) as (x & Hk & Hxa & Hs). by destruct (Hn x Hk Hxa).
  - intros ty Ht. pose proof (told_type _ _ _ _ i m ty I Hm Ht) as Hz. destruct (av_type _ _ _ _ I i ty Ht) as (m' & Hm' & Hf). simplify_eq. split.
    + intros -> j mj Hs Hj. destruct (failed mj) eqn:Ef; [|done]. pose proof (stems_failed w par j i m I Hs Hm Hz ltac:(by exists mj)) as Hb. by apply Hf in Hb.
    + intros Hall. destruct (decide (ty = AT_PROCESSED)) as [|Hn]; [done|]. apply Hf in Hn. rewrite (Hall i m (stems_self w i) Hm) in Hn. done.
Qed.

Module PathDemo.
(** Messages are numbers, rewriting adds 10; every writer is up. *)
Definition rewrite : LogPipeItem (C := Z) := EP_REWRITE (fun c => (c + 10, true)).
Definition to (d : Z) : LogPipeItem (C := Z) := EP_DESTINATION [DWriter d false].
Definition plain (items : list (LogPipeItem (C := Z))) : LogConnection := mkConn false false false items.
Definition calm : surroundings := mkSur (fun _ => true) (fun _ => false).
Definition in_place (_ _ : Z) : bool := true.
(** What destinations have queued in the end, and what is meant. *)
Definition written (w : world (C := Z)) : list (Z * option Z * bool) := (fun x => (n_dest x, m ← w_msgs w !! n_msg x; w_payloads w !! mg_payload m, n_ack_needed x)) <$> w_kept w.
Definition outcome_of (conns : list (LogConnection (C := Z))) (c : Z) : option (list (Z * option Z * bool) * list (Z * Z * bool)) :=
  match source_pipe conns with
  | Some p => match path_run in_place p [Send c] (empty_world calm) with Ret w => Some (written w, (deliver calm p source_options c).1) | Abort => None end
  | None => None
  end.

Definition conf : list (LogConnection (C := Z)) :=
  [mkConn true false true [EP_FILTER (fun c => bool_decide (c < 5)); rewrite; to 1];
   plain [rewrite; EP_PIPE (plain [rewrite; to 2]); EP_PIPE (plain [EP_DESTINATION [DThreaded 4; DWriter 5 true]])];
   mkConn false true false [rewrite; to 3]].
Definition conf_pipe : LogPipe := default (mkPipe 0 (PThreaded 0) None) (source_pipe conf).
Definition history : list (path_op (C := Z)) := [Send 3; Send 7; Finish 1 AT_PROCESSED; Surroundings (mkSur (fun _ => false) (fun d => bool_decide (d = 2))); Send 8; Finish 0 AT_SUSPENDED].
Lemma log_paths_isolated_witness : exists w, path_run in_place conf_pipe history (empty_world calm) = Ret w /\ carries w (w_kept w) (spec_run conf_pipe calm history).2.
Proof. apply (log_paths_isolated in_place conf conf_pipe calm history); vm_compute; reflexivity. Defined.
(** With flow control the source waits, a writer with soft flow control that is up is waited for too. *)
Theorem conf_outcomes : outcome_of conf 3 = Some ([(1, Some 13, true)], [(1, 13, true)]) /\ outcome_of conf 7 = Some ([(2, Some 27, false); (4, Some 17, false); (5, Some 17, true)], [(2, 27, false); (4, 17, false); (5, 17, true)]).
Proof. vm_compute. split; reflexivity. Qed.
(** The last statement gets a clone when an earlier destination has queued the message. *)
Theorem last_branch_cloned : outcome_of [plain [to 1]; plain [rewrite; to 2]] 1 = Some ([(1, Some 1, false); (2, Some 11, false)], [(1, 1, false); (2, 11, false)]).
Proof. vm_compute. reflexivity. Qed.

(** A nested statement that rewrites does not mark the one around it. *)
Theorem nested_branch_changes_other : outcome_of [plain [EP_PIPE (plain [rewrite; to 1])]; plain [to 2]] 1 = Some ([(1, Some 11, false); (2, Some 11, false)], [(1, 11, false); (2, 1, false)]).
Proof. vm_compute. reflexivity. Qed.
(** Rewriting behind a destination changes what that destination has queued. *)
Theorem rewrite_behind_destination : outcome_of [plain [to 1; rewrite; to 2]] 1 = Some ([(1, Some 11, false); (2, Some 11, false)], [(1, 1, false); (2, 11, false)]).
Proof. vm_compute. reflexivity. Qed.
End PathDemo.
