(* ===== verification/PersistState.v ===== *)
(** * The persistent state (lib/persist-state.c)

    Named blocks of memory in a file that is mapped.  A file starts with a header of 4096
    bytes, most of it the first block of keys; values and further blocks of keys follow, each
    behind a header of eight bytes.  At a start the file of the last run is copied into a
    new one, which is then renamed over the old.

    [ps_file] are the bytes of the new file and [current_map] is whether its first
    [current_size] bytes are mapped; an access outside is [Abort], and so is waiting
    for another thread to give back an entry: there is one thread.  Page size, allocator
    and the answers of the system are parameters; locks, messages and the part for Windows are left out. *)
From S2P Require Import Prelude Serialize NVTableSerialize.

Inductive PersistStateMode := persist_mode_normal | persist_mode_dump | persist_mode_edit.
#[global] Instance persist_mode_eq_dec : EqDecision PersistStateMode.
Proof. solve_decision. Defined.

(** [sizeof (PersistFileHeader)], [sizeof (PersistValueHeader)] and the place and size of the first keys. *)
Definition FILE_HEADER : Z := 4096.
Definition VALUE_HEADER : Z := 8.
Definition INITIAL_KEY_STORE : Z := 64.
Definition INITIAL_KEY_SIZE : Z := 4032.
Definition PERSIST_FILE_INITIAL_SIZE : Z := 16384.
Definition PERSIST_STATE_KEY_BLOCK_SIZE : Z := 4096.
Definition PERSIST_FILE_WATERMARK : Z := 4096.
Definition SLP4 : bytes := bytes_of_string "SLP4".

Record PersistState := mkPersist {
  ps_version : Z; ps_file : bytes; ps_renamed : bool;
  mapped_counter : Z; current_size : Z; current_ofs : Z; current_map : bool;
  keys : gmap bytes Z; current_key_block : Z; current_key_ofs : Z; current_key_size : Z;
  ps_mode : PersistStateMode; ps_handler : bool; ps_handler_calls : Z }.

Definition set_file (s : PersistState) (f : bytes) : PersistState := mkPersist (ps_version s) f (ps_renamed s) (mapped_counter s) (current_size s) (current_ofs s) (current_map s) (keys s) (current_key_block s) (current_key_ofs s) (current_key_size s) (ps_mode s) (ps_handler s) (ps_handler_calls s).
Definition set_renamed (s : PersistState) (b : bool) : PersistState := mkPersist (ps_version s) (ps_file s) b (mapped_counter s) (current_size s) (current_ofs s) (current_map s) (keys s) (current_key_block s) (current_key_ofs s) (current_key_size s) (ps_mode s) (ps_handler s) (ps_handler_calls s).
Definition set_counter (s : PersistState) (n : Z) : PersistState := mkPersist (ps_version s) (ps_file s) (ps_renamed s) n (current_size s) (current_ofs s) (current_map s) (keys s) (current_key_block s) (current_key_ofs s) (current_key_size s) (ps_mode s) (ps_handler s) (ps_handler_calls s).
Definition set_mapping (s : PersistState) (size : Z) (m : bool) : PersistState := mkPersist (ps_version s) (ps_file s) (ps_renamed s) (mapped_counter s) size (current_ofs s) m (keys s) (current_key_block s) (current_key_ofs s) (current_key_size s) (ps_mode s) (ps_handler s) (ps_handler_calls s).
Definition set_ofs (s : PersistState) (ofs : Z) : PersistState := mkPersist (ps_version s) (ps_file s) (ps_renamed s) (mapped_counter s) (current_size s) ofs (current_map s) (keys s) (current_key_block s) (current_key_ofs s) (current_key_size s) (ps_mode s) (ps_handler s) (ps_handler_calls s).
Definition set_keys (s : PersistState) (k : gmap bytes Z) : PersistState := mkPersist (ps_version s) (ps_file s) (ps_renamed s) (mapped_counter s) (current_size s) (current_ofs s) (current_map s) k (current_key_block s) (current_key_ofs s) (current_key_size s) (ps_mode s) (ps_handler s) (ps_handler_calls s).
Definition set_key_block (s : PersistState) (b ofs size : Z) : PersistState := mkPersist (ps_version s) (ps_file s) (ps_renamed s) (mapped_counter s) (current_size s) (current_ofs s) (current_map s) (keys s) b ofs size (ps_mode s) (ps_handler s) (ps_handler_calls s).
Definition persist_state_set_mode (s : PersistState) (m : PersistStateMode) : PersistState := mkPersist (ps_version s) (ps_file s) (ps_renamed s) (mapped_counter s) (current_size s) (current_ofs s) (current_map s) (keys s) (current_key_block s) (current_key_ofs s) (current_key_size s) m (ps_handler s) (ps_handler_calls s).
Definition persist_state_set_global_error_handler (s : PersistState) (h : bool) : PersistState := mkPersist (ps_version s) (ps_file s) (ps_renamed s) (mapped_counter s) (current_size s) (current_ofs s) (current_map s) (keys s) (current_key_block s) (current_key_ofs s) (current_key_size s) (ps_mode s) h (ps_handler_calls s).
Definition persist_state_run_error_handler (s : PersistState) : PersistState := mkPersist (ps_version s) (ps_file s) (ps_renamed s) (mapped_counter s) (current_size s) (current_ofs s) (current_map s) (keys s) (current_key_block s) (current_key_ofs s) (current_key_size s) (ps_mode s) (ps_handler s) (if ps_handler s then ps_handler_calls s + 1 else ps_handler_calls s).

Definition persist_state_new : PersistState := mkPersist 4 [] false 0 0 FILE_HEADER false ∅ 0 0 0 persist_mode_normal false 0.
Definition persist_state_get_version (self : PersistState) : Z := ps_version self.

(** Access to the mapped file. *)
Definition ps_load (self : PersistState) (ofs n : Z) : outcome bytes :=
  let! _ := g_assert (current_map self && bool_decide (ofs + n <= current_size self)) in load (ps_file self) ofs n.
Definition ps_store (self : PersistState) (ofs : Z) (b : bytes) : outcome PersistState :=
  let! _ := g_assert (current_map self && bool_decide (ofs + lenZ b <= current_size self)) in
  let! f := store (ps_file self) ofs b in Ret (set_file self f).

(** The place of an entry, and one more that is mapped. *)
Definition persist_state_map_entry (self : PersistState) (handle : Z) : Z * PersistState := (u32 handle, set_counter self (mapped_counter self + 1)).
Definition persist_state_unmap_entry (self : PersistState) : PersistState := set_counter self (mapped_counter self - 1).

Section system.
(** The size of a page; what [pwrite] writes when it is to make the file as long as given, [None] for all; whether [mmap] of a length succeeds; the allocator. *)
Context (pgsize : Z) (pwrite : Z -> option Z) (mmap : Z -> bool) (try_alloc : Z -> bool).

(** ** The file *)

Definition zeros (n : Z) : bytes := replicate (Z.to_nat n) 0.
Definition persist_state_increase_file_size (self : PersistState) (new_size : Z) : bool * PersistState :=
  let length := u32 (new_size - current_size self) in
  match pwrite new_size with
  | None => (true, set_file self (splice (ps_file self) (current_size self) (zeros length)))
  | Some n => (false, set_file self (splice (ps_file self) (current_size self) (zeros (Z.min n length))))
  end.
Definition persist_state_map_file (self : PersistState) : outcome (bool * PersistState) :=
  if mmap (current_size self) then let! self := ps_store (set_mapping self (current_size self) true) 0 SLP4 in Ret (true, self)
  else Ret (false, set_mapping self (current_size self) false).
(** Whether the file can be mapped again is not looked at. *)
Definition persist_state_grow_store (self : PersistState) (new_size : Z) : outcome (bool * PersistState) :=
  let! _ := g_assert (bool_decide (mapped_counter self = 0)) in
  let new_size := if bool_decide (Z.land new_size (pgsize - 1) <> 0) then u32 (u32 (new_size / pgsize + 1) * pgsize) else new_size in
  if bool_decide (current_size self < new_size) then
    let '(ok, self) := persist_state_increase_file_size self new_size in
    if ok then let! (_, self) := persist_state_map_file (set_mapping self new_size (current_map self)) in Ret (true, self)
    else Ret (false, self)
  else Ret (true, self).
(** [opened] is whether the file can be opened; it is empty then. *)
Definition persist_state_create_store (opened : bool) (self : PersistState) : outcome (bool * PersistState) :=
  if opened then persist_state_grow_store (set_key_block (set_file self []) INITIAL_KEY_STORE 0 INITIAL_KEY_SIZE) PERSIST_FILE_INITIAL_SIZE
  else Ret (false, self).
Definition persist_state_commit_store (renamed : bool) (self : PersistState) : bool * PersistState := (renamed, if renamed then set_renamed self true else self).

(** ** Values *)

Definition _check_watermark (self : PersistState) : bool := bool_decide (u32 (current_ofs self + PERSIST_FILE_WATERMARK) < current_size self).
Definition _check_free_space (self : PersistState) (size : Z) : bool := bool_decide (size + VALUE_HEADER + current_ofs self <= current_size self).

(** Up to a multiple of eight. *)
Definition round8 (size : Z) : Z := if bool_decide (Z.land size 7 <> 0) then u32 (Z.shiftl (Z.shiftr size 3 + 1) 3) else size.
Definition value_header (size in_use version : Z) : bytes := be_bytes 4 size ++ [u8 in_use; u8 version].

(** [0] where there is no room. *)
Definition persist_state_alloc_value (self : PersistState) (orig_size in_use version : Z) : outcome (Z * PersistState) :=
  let size := round8 orig_size in
  if negb (_check_free_space self size) then Ret (0, self)
  else
    let result := u32 (current_ofs self + VALUE_HEADER) in
    let '(header, self) := persist_state_map_entry self (current_ofs self) in
    let! self := ps_store self header (value_header orig_size in_use version) in
    let self := persist_state_unmap_entry self in
    let self := set_ofs self (u32 (current_ofs self + (size + VALUE_HEADER))) in
    if _check_watermark self then Ret (result, self)
    else
      let! (ok, self) := persist_state_grow_store self (u32 (current_size self + PERSIST_FILE_INITIAL_SIZE)) in
      Ret (result, if ok : bool then self else persist_state_run_error_handler self).

(** Fields of a value header: size, in use, version. *)
Definition get_value_size (self : PersistState) (header : Z) : outcome Z := let! b := ps_load self header 4 in Ret (be_value b).
Definition set_in_use (self : PersistState) (header in_use : Z) : outcome PersistState := ps_store self (header + 4) [in_use].

(** A handle inside the file is taken for a wrong one. *)
Definition persist_state_free_value (self : PersistState) (handle : Z) : outcome PersistState :=
  if bool_decide (handle = 0) then Ret self
  else if bool_decide (handle < current_size self) then Ret self
  else
    let '(header, self) := persist_state_map_entry self (handle - VALUE_HEADER) in
    let! size := get_value_size self header in
    if bool_decide (current_size self < u32 (size + handle)) then Ret self
    else let! self := set_in_use self header 0 in Ret (persist_state_unmap_entry self).
(** Without the change of the byte order. *)
Definition persist_state_get_allocated_size (big_endian : bool) (self : PersistState) (handle : Z) : outcome (Z * PersistState) :=
  let '(header, self) := persist_state_map_entry self (handle - VALUE_HEADER) in
  let! b := ps_load self header 4 in
  Ret (host_value big_endian b, persist_state_unmap_entry self).

(** ** Keys *)

Definition persist_state_lookup_key (self : PersistState) (key : bytes) : option Z := keys self !! key.
(** The file is not changed. *)
Definition persist_state_rename_entry (self : PersistState) (old_key new_key : bytes) : bool * PersistState :=
  match keys self !! old_key with
  | Some entry => (true, set_keys self (<[new_key := entry]> (delete old_key (keys self))))
  | None => (false, self)
  end.

(** An attempt to write a key into the current block, with room left to chain to another one. *)
Definition write_key (self : PersistState) (key : bytes) (handle : Z) : outcome (bool * Z * PersistState) :=
  let '(key_area, self) := persist_state_map_entry self (current_key_block self) in
  let ofs := key_area + current_key_ofs self in
  let! area := ps_load self ofs (u32 (current_key_size self - current_key_ofs self - 8)) in
  let '(success, sa) := and_then (serialize_write_cstring (serialize_buffer_archive_new area) key (-1)) (fun sa => serialize_write_uint32 sa handle) in
  let! self := ps_store self ofs (ar_data sa) in
  Ret (success, serialize_buffer_archive_get_pos sa, self).
(** The mark behind the last key of a block: an empty name and the place of the next block. *)
Definition write_chain (self : PersistState) (new_block : Z) : outcome PersistState :=
  let '(key_area, self) := persist_state_map_entry self (current_key_block self) in
  let ofs := key_area + current_key_ofs self in
  let! area := ps_load self ofs (current_key_size self - current_key_ofs self) in
  let '(success, sa) := and_then (serialize_write_cstring (serialize_buffer_archive_new area) [] 0) (fun sa => serialize_write_uint32 sa new_block) in
  let! _ := g_assert success in
  let! self := ps_store self ofs (ar_data sa) in
  Ret (persist_state_unmap_entry self).
(** The key is written; it counts. *)
Definition key_written (self : PersistState) (pos : Z) : outcome PersistState :=
  let! b := ps_load self 8 4 in
  let! self := ps_store self 8 (be_bytes 4 (u32 (be_value b + 1))) in
  Ret (persist_state_unmap_entry (set_key_block self (current_key_block self) (current_key_ofs self + pos) (current_key_size self))).
(** The loop runs at most twice: a fresh block is made once. *)
Definition persist_state_add_key (self : PersistState) (key : bytes) (handle : Z) : outcome (bool * PersistState) :=
  let! _ := g_assert (bool_decide (c_string key <> [])) in
  let self := set_keys self (<[c_string key := handle]> (keys self)) in
  let! (success, pos, self) := write_key self key handle in
  if success : bool then let! self := key_written self pos in Ret (true, self)
  else
    let self := persist_state_unmap_entry self in
    let! (new_block, self) := persist_state_alloc_value self PERSIST_STATE_KEY_BLOCK_SIZE 1 0 in
    if bool_decide (new_block = 0) then Ret (false, self)
    else
      let! self := write_chain self new_block in
      let self := set_key_block self new_block 0 PERSIST_STATE_KEY_BLOCK_SIZE in
      let! (success, pos, self) := write_key self key handle in
      if success : bool then let! self := key_written self pos in Ret (true, self)
      else Ret (false, persist_state_unmap_entry self).

(** ** Entries *)

Definition persist_state_alloc_entry (self : PersistState) (persist_name : bytes) (alloc_size : Z) : outcome (Z * PersistState) :=
  let! self :=
    match persist_state_lookup_key self persist_name with
    | Some handle =>
        let '(header, self) := persist_state_map_entry self (handle - VALUE_HEADER) in
        let! self := set_in_use self header 0 in Ret (persist_state_unmap_entry self)
    | None => Ret self
    end in
  let! (handle, self) := persist_state_alloc_value self (u32 alloc_size) 1 (ps_version self) in
  if bool_decide (handle = 0) then Ret (0, self)
  else
    let! (ok, self) := persist_state_add_key self persist_name handle in
    if ok : bool then Ret (handle, self)
    else let! self := persist_state_free_value self handle in Ret (0, self).

(** Handle, size and version.  On the last error the entry stays mapped. *)
Definition persist_state_lookup_entry (self : PersistState) (key : bytes) : outcome (option (Z * Z * Z) * PersistState) :=
  match persist_state_lookup_key self key with
  | None => Ret (None, self)
  | Some handle =>
      if bool_decide (current_size self < handle) then Ret (None, self)
      else
        let '(header, self) := persist_state_map_entry self (handle - VALUE_HEADER) in
        let! size := get_value_size self header in
        if bool_decide (current_size self < u32 (size + handle)) then Ret (None, self)
        else
          let! self := set_in_use self header 1 in
          let! v := ps_load self (header + 5) 1 in
          Ret (if bool_decide (handle = 0) then None else Some (handle, size, be_value v), persist_state_unmap_entry self)
  end.

(** What a user does with the entry: it maps it, and reads or writes. *)
Definition read_entry (self : PersistState) (handle ofs n : Z) : outcome (bytes * PersistState) :=
  let '(block, self) := persist_state_map_entry self handle in
  let! b := ps_load self (block + ofs) n in Ret (b, persist_state_unmap_entry self).
Definition write_entry (self : PersistState) (handle ofs : Z) (b : bytes) : outcome PersistState :=
  let '(block, self) := persist_state_map_entry self handle in
  let! self := ps_store self (block + ofs) b in Ret (persist_state_unmap_entry self).

Definition persist_state_lookup_string (self : PersistState) (key : bytes) : outcome (option (bytes * Z) * PersistState) :=
  let! (r, self) := persist_state_lookup_entry self key in
  match r with
  | None => Ret (None, self)
  | Some (handle, size, version) =>
      let! (block, self) := read_entry self handle 0 size in
      Ret (match fst (serialize_read_cstring try_alloc (serialize_buffer_archive_new block)) with Some result => Some (result, version) | None => None end, self)
  end.
(** The handle is not looked at: without room the value is written to the place 0. *)
Definition persist_state_alloc_string (self : PersistState) (persist_name value : bytes) (len : Z) : outcome PersistState :=
  let len := if bool_decide (len < 0) then lenZ (c_string value) else len in
  let '(success, sa) := serialize_write_cstring (serialize_string_archive_new []) value len in
  let! _ := g_assert success in
  let! (handle, self) := persist_state_alloc_entry self persist_name (lenZ (ar_data sa)) in
  write_entry self handle 0 (ar_data sa).

(** ** Loading the file of the last run *)

(** The old file as it is mapped: filled with zeros up to the end of the page. *)
Definition mapped_file (file : bytes) : bytes := file ++ zeros ((- lenZ file) mod pgsize).

(** A value goes into the new file; its handle is not looked at. *)
Definition copy_value (self : PersistState) (name value : bytes) (size version : Z) : outcome PersistState :=
  let! (new_handle, self) := persist_state_alloc_value self size 0 version in
  let! self := write_entry self new_handle 0 value in
  let! (_, self) := persist_state_add_key self name new_handle in Ret self.

(** An entry of which the key is read: [None] stops with an error. *)
Definition load_entry (self : PersistState) (map : bytes) (file_size : Z) (name : bytes) (entry_ofs : Z) : outcome (option PersistState) :=
  if bool_decide (entry_ofs < FILE_HEADER \/ file_size < entry_ofs) then Ret None
  else
    let! header := load map (entry_ofs - VALUE_HEADER) VALUE_HEADER in
    let size := be_value (take 4 header) in
    if bool_decide (header !!! 4%nat <> 0 \/ ps_mode self <> persist_mode_normal) then
      let! value := load map entry_ofs size in
      let! self := copy_value self name value size (header !!! 5%nat) in Ret (Some self)
    else Ret (Some self).
(** The next block of keys: [None] stops with an error. *)
Definition load_chain (map : bytes) (file_size chain_ofs : Z) : outcome (option SerializeArchive) :=
  if bool_decide (chain_ofs = 0 \/ file_size < chain_ofs) then Ret None
  else
    let! b := load map (chain_ofs - VALUE_HEADER) 4 in
    if bool_decide (file_size < u32 (chain_ofs + be_value b)) then Ret None
    else let! block := load map chain_ofs (be_value b) in Ret (Some (serialize_buffer_archive_new block)).
(** Both loops, of blocks and of the keys of a block.  A chain of blocks may lead back without a
    key between, and then they do not end. *)
Fixpoint load_keys (fuel : nat) (self : PersistState) (map : bytes) (file_size key_count i : Z) (sa : SerializeArchive) : outcome PersistState :=
  match fuel with
  | O => Abort
  | S fuel =>
      if bool_decide (i < key_count) then
        let '(name, sa) := serialize_read_cstring try_alloc sa in
        match name with
        | None => Ret self
        | Some name =>
            let '(ofs, sa) := serialize_read_uint32 sa in
            match ofs with
            | None => Ret self
            | Some ofs =>
                if bool_decide (c_string name <> []) then
                  let! r := load_entry self map file_size (c_string name) ofs in
                  match r with None => Ret self | Some self => load_keys fuel self map file_size key_count (i + 1) sa end
                else
                  let! r := load_chain map file_size ofs in
                  match r with None => Ret self | Some sa => load_keys fuel self map file_size key_count i sa end
            end
        end
      else Ret self
  end.
(** Between two keys a block cannot come twice. *)
Definition load_fuel (key_count file_size : Z) : nat := S (Z.to_nat key_count) * S (S (Z.to_nat file_size)).
Definition persist_state_load_v4 (self : PersistState) (file : bytes) : outcome (bool * PersistState) :=
  let file_size := lenZ file in
  if bool_decide (2 ^ 31 - 1 < file_size) then Ret (false, self)
  else if negb (mmap file_size) then Ret (false, self)
  else
    let map := mapped_file file in
    let! b := load map 8 4 in
    let key_count := s32 (be_value b) in
    let! block := load map INITIAL_KEY_STORE INITIAL_KEY_SIZE in
    let! self := load_keys (load_fuel key_count file_size) self map file_size key_count 0 (serialize_buffer_archive_new block) in
    Ret (true, self).

(** The formats of versions 2 and 3 are pairs of names and values.  The archive reads the file; once it
    fails it is not read again, as with a string. *)
Fixpoint persist_state_load_v23 (fuel : nat) (self : PersistState) (version : Z) (sa : SerializeArchive) : outcome (bool * PersistState) :=
  match fuel with
  | O => Abort
  | S fuel =>
      let '(key, sa) := serialize_read_cstring try_alloc sa in
      match key with
      | None => Ret (true, self)
      | Some key =>
          if bool_decide (c_string key <> []) then
            let '(value, sa) := serialize_read_cstring try_alloc sa in
            match value with
            | None => Ret (true, self)
            | Some value =>
                let! self := copy_value self (c_string key) (be_bytes 4 (lenZ value) ++ value) (u32 (lenZ value + 4)) version in
                persist_state_load_v23 fuel self version sa
            end
          else Ret (true, self)
      end
  end.
(** [junk] is what the variable for the first four bytes holds. *)
Definition persist_state_load (self : PersistState) (junk : bytes) (committed : option bytes) : outcome (bool * PersistState) :=
  match committed with
  | None => Ret (true, self)
  | Some file =>
      let magic := take 4 file ++ drop (length file) junk in
      let version := magic !!! 3%nat - 48 in
      if bool_decide (take 3 magic <> bytes_of_string "SLP") then Ret (bool_decide (ps_mode self <> persist_mode_dump), self)
      else if bool_decide (2 <= version <= 3) then persist_state_load_v23 (S (length file)) self version (snd (serialize_read_blob (serialize_string_archive_new file) 4))
      else if bool_decide (version = 4) then persist_state_load_v4 self file
      else Ret (true, self)
  end.

Definition persist_state_start (opened : bool) (self : PersistState) (junk : bytes) (committed : option bytes) : outcome (bool * PersistState) :=
  let! (ok, self) := persist_state_create_store opened self in
  if ok : bool then persist_state_load self junk committed else Ret (false, self).
Definition persist_state_commit (renamed : bool) (self : PersistState) : outcome (bool * PersistState) :=
  let! _ := g_assert (bool_decide (ps_mode self <> persist_mode_dump)) in Ret (persist_state_commit_store renamed self).
(** The mode and the handler go, too. *)
Definition persist_state_cancel (self : PersistState) : outcome PersistState :=
  let! _ := g_assert (bool_decide (mapped_counter self = 0)) in Ret persist_state_new.
Definition persist_state_free (self : PersistState) : outcome unit := g_assert (bool_decide (mapped_counter self = 0)).
End system.

(** Which state, and which entry of it, holds the counter of received messages. *)
Record rcptcfg := mkRcpt { rc_state : option PersistState; rc_handle : Z }.
Definition persist_state_set_rcptcfg_state (c : rcptcfg) (state : option PersistState) : rcptcfg := mkRcpt state (rc_handle c).
Definition persist_state_set_rcptcfg_handle (c : rcptcfg) (handle : Z) : rcptcfg := mkRcpt (rc_state c) handle.
Definition persist_state_get_key_list (self : PersistState) : list bytes := (map_to_list (keys self)).*1.
