(* ===== verification/PersistInv.v ===== *)
(** * The layout of the persistent file, and what each operation does to it *)
From S2P Require Import Prelude Serialize NVTableSerialize NVTableSerializeInv PersistState.

(** ** Files that agree in a range *)

Definition agree (f g : bytes) (a b : Z) : Prop := forall i, a <= i < b -> f !! Z.to_nat i = g !! Z.to_nat i.
Lemma agree_sub (f g : bytes) (a b a' b' : Z) : agree f g a b -> a <= a' -> b' <= b -> agree f g a' b'.
Proof. intros H ?? i ?. apply H. lia. Qed.
Lemma agree_trans (f g h : bytes) (a b : Z) : agree f g a b -> agree g h a b -> agree f h a b.
Proof. intros H K i Hi. by rewrite (H i Hi), (K i Hi). Qed.
Lemma agree_slice (f g : bytes) (a n : Z) : 0 <= a -> agree f g a (a + n) -> slice f a n = slice g a n.
Proof.
  intros Ha H. unfold slice. apply list_eq. intros i. destruct (decide (i < Z.to_nat n)%nat) as [Hi|Hi].
  - rewrite !lookup_take_lt, !lookup_drop by done. replace (Z.to_nat a + i)%nat with (Z.to_nat (a + Z.of_nat i)) by lia. apply H. lia.
  - rewrite !lookup_take_ge by lia. done.
Qed.
Lemma agree_splice (f b : bytes) (p x y : Z) : 0 <= x -> 0 <= p <= lenZ f -> y <= p \/ p + lenZ b <= x -> agree f (splice f p b) x y.
Proof.
  intros Hx Hp Hd i Hi. unfold splice. unfold lenZ in *. assert (Ht : length (take (Z.to_nat p) f) = Z.to_nat p) by (rewrite length_take; lia). destruct Hd.
  - rewrite lookup_app_l by lia. by rewrite lookup_take_lt by lia.
  - rewrite app_assoc, lookup_app_r by (rewrite length_app; lia). rewrite length_app, Ht, lookup_drop. f_equal. lia.
Qed.
(** Bytes at a place. *)
Definition here (f : bytes) (p : Z) (b : bytes) : Prop := slice f p (lenZ b) = b.
Lemma here_agree (f g : bytes) (p : Z) (b : bytes) : 0 <= p -> agree f g p (p + lenZ b) -> here f p b -> here g p b.
Proof. unfold here. intros Hp Ha. by rewrite (agree_slice f g) by done. Qed.
Lemma here_app (f : bytes) (p : Z) (b c : bytes) : 0 <= p -> here f p (b ++ c) <-> here f p b /\ here f (p + lenZ b) c.
Proof.
  intros Hp. unfold here. rewrite lenZ_app, slice_app by (done || apply lenZ_nonneg). split; [|by intros [-> ->]].
  intros H. apply app_inj_1 in H; [done|]. apply (f_equal length) in H. rewrite !length_app in H. unfold slice in *. rewrite !length_take, !length_drop in *. unfold lenZ in *. lia.
Qed.
Lemma here_splice (f : bytes) (p : Z) (b : bytes) : 0 <= p -> p + lenZ b <= lenZ f -> here (splice f p b) p b.
Proof. intros. by apply splice_same. Qed.
Lemma here_lookup (f : bytes) (p : Z) (b : bytes) (i : nat) (x : Z) : 0 <= p -> here f p b -> b !! i = Some x -> f !! (Z.to_nat p + i)%nat = Some x.
Proof.
  intros Hp H Hi. unfold here in H. rewrite <- H in Hi. apply lookup_lt_Some in Hi as Hl. unfold slice in *. rewrite length_take in Hl. rewrite lookup_take_lt, lookup_drop in Hi by lia. done.
Qed.
Lemma here_len (f : bytes) (p : Z) (b : bytes) : 0 <= p -> here f p b -> b <> [] -> p + lenZ b <= lenZ f.
Proof. intros Hp H Hb. apply (f_equal length) in H. unfold slice in H. rewrite length_take, length_drop in H. destruct b; [done|]. unfold lenZ in *. simpl in *. lia. Qed.
Lemma lookup_here (f : bytes) (p x : Z) : 0 <= p -> f !! Z.to_nat p = Some x -> here f p [x].
Proof. intros Hp H. unfold here, slice. change (Z.to_nat (lenZ [x])) with 1%nat. destruct (drop (Z.to_nat p) f) as [|y l] eqn:E; [|]; pose proof (lookup_drop f (Z.to_nat p) 0) as K; rewrite E, Nat.add_0_r, H in K; [done|]. injection K as ->. by rewrite firstn_cons. Qed.

(** ** Keys in their blocks *)

Abbreviation pkey := (bytes * Z)%type (only parsing).
Definition key_enc (k : pkey) : bytes := string_enc k.1 ++ be_bytes 4 k.2.
Definition keys_enc (l : list pkey) : bytes := concat (key_enc <$> l).
Definition link (b : Z) : bytes := string_enc [] ++ be_bytes 4 b.
(** The first block of keys is smaller. *)
Definition bsize (b : Z) : Z := if bool_decide (b = INITIAL_KEY_STORE) then INITIAL_KEY_SIZE else PERSIST_STATE_KEY_BLOCK_SIZE.
Fixpoint key_chain (f : bytes) (blocks : list (Z * list pkey)) : Prop :=
  match blocks with
  | [] => True
  | (b, ks) :: rest =>
      here f b (keys_enc ks) /\ lenZ (keys_enc ks) + 8 <= bsize b /\
      match rest with [] => True | (b', _) :: _ => here f (b + lenZ (keys_enc ks)) (link b') end /\ key_chain f rest
  end.
Definition keys_of (blocks : list (Z * list pkey)) : list pkey := concat (blocks.*2).
Definition valid_key (k : bytes) : Prop := k <> [] /\ Forall (fun c => c <> 0) k /\ lenZ k <= 4080.

Lemma keys_enc_app (l k : list pkey) : keys_enc (l ++ k) = keys_enc l ++ keys_enc k.
Proof. unfold keys_enc. by rewrite fmap_app, concat_app. Qed.
Lemma key_enc_len (k : pkey) : lenZ (key_enc k) = lenZ k.1 + 8.
Proof. unfold key_enc, string_enc. rewrite !lenZ_app, !be_bytes_lenZ. lia. Qed.
Lemma bsize_bounds (b : Z) : 4032 <= bsize b <= 4096.
Proof. unfold bsize, INITIAL_KEY_SIZE, PERSIST_STATE_KEY_BLOCK_SIZE. case_bool; lia. Qed.
Lemma c_string_id (k : bytes) : Forall (fun c => c <> 0) k -> c_string k = k.
Proof. induction 1 as [|c k Hc _ IH]; [done|]. cbn. rewrite bool_decide_eq_false_2 by done. by f_equal. Qed.
Lemma keys_of_app (l k : list (Z * list pkey)) : keys_of (l ++ k) = keys_of l ++ keys_of k.
Proof. unfold keys_of. by rewrite fmap_app, concat_app. Qed.

Lemma chain_frame (f g : bytes) (blocks : list (Z * list pkey)) : Forall (fun b => 0 <= b /\ agree f g b (b + bsize b)) (blocks.*1) -> key_chain f blocks -> key_chain g blocks.
Proof.
  induction blocks as [|[b ks] rest IH]; [done|]. cbn [fmap list_fmap fst]. intros [[Hb Ha] Hr]%Forall_cons (H1 & H2 & H3 & H4). pose proof (lenZ_nonneg (keys_enc ks)) as Hn. cbn [key_chain]. split_and!; [|done| |by apply IH].
  - apply (here_agree f g); [done| |done]. apply (agree_sub _ _ _ _ _ _ Ha); lia.
  - destruct rest as [|[b' ks'] ?]; [done|]. apply (here_agree f g); [lia| |done]. change (lenZ (link b')) with 8. apply (agree_sub _ _ _ _ _ _ Ha); lia.
Qed.
(** The last block changes; the ones before only name it. *)
Lemma chain_last (f : bytes) (pre : list (Z * list pkey)) (b : Z) (ks ks' : list pkey) (more : list (Z * list pkey)) : key_chain f (pre ++ [(b, ks)]) -> key_chain f ((b, ks') :: more) -> key_chain f (pre ++ (b, ks') :: more).
Proof.
  intros H Hm. induction pre as [|[a l] pre IH]; [done|]. cbn [app key_chain] in *. destruct H as (H1 & H2 & H3 & H4). split_and!; [done..| |by apply IH].
  by destruct pre as [|[a' l'] pre].
Qed.
Lemma chain_tail (f : bytes) (pre : list (Z * list pkey)) (b : Z) (ks : list pkey) : key_chain f (pre ++ [(b, ks)]) -> here f b (keys_enc ks) /\ lenZ (keys_enc ks) + 8 <= bsize b.
Proof. induction pre as [|[a l] pre IH]; cbn [app key_chain]; [by intros (? & ? & _)|]. intros (_ & _ & _ & H). by apply IH. Qed.

(** ** The layout *)

Record layout (s : PersistState) (blocks : list (Z * list pkey)) (areas : gmap Z Z) : Prop := {
  lo_map : current_map s = true;
  lo_ofs : 4096 <= current_ofs s /\ current_ofs s mod 8 = 0;
  lo_size : current_ofs s + 4096 < current_size s <= current_ofs s + 2 ^ 17 /\ current_size s mod 8 = 0 /\ lenZ (ps_file s) = current_size s;
  lo_zero : forall i, current_ofs s <= i < current_size s -> ps_file s !! Z.to_nat i = Some 0;
  lo_magic : here (ps_file s) 0 SLP4;
  lo_count : here (ps_file s) 8 (be_bytes 4 (lenZ (keys_of blocks)));
  lo_chain : key_chain (ps_file s) blocks;
  lo_last : exists pre b ks, blocks = pre ++ [(b, ks)] /\ current_key_block s = b /\ current_key_ofs s = lenZ (keys_enc ks) /\ current_key_size s = bsize b;
  lo_area : forall h n, areas !! h = Some n -> 0 <= n <= 4096 /\ (h = INITIAL_KEY_STORE /\ n = INITIAL_KEY_SIZE \/ 4104 <= h /\ h + n <= current_ofs s /\ here (ps_file s) (h - 8) (be_bytes 4 n));
  lo_disjoint : forall h n h' n', areas !! h = Some n -> areas !! h' = Some n' -> h < h' -> h + n <= h' - 8;
  lo_blocks : Forall (fun b => areas !! b = Some (bsize b)) (blocks.*1) /\ NoDup (blocks.*1) /\ hd 0 (blocks.*1) = INITIAL_KEY_STORE;
  lo_values : Forall (fun k : pkey => is_Some (areas !! (k.2)) /\ ~ (k.2 ∈ blocks.*1) /\ valid_key (k.1)) (keys_of blocks) /\ NoDup ((keys_of blocks).*2) }.

Lemma round8_ok (n : Z) : 0 <= n <= 4096 -> n <= round8 n <= 4096 /\ round8 n mod 8 = 0.
Proof.
  intros Hn. unfold round8. change 7 with (Z.ones 3). rewrite Z.land_ones, Z.shiftr_div_pow2, Z.shiftl_mul_pow2 by lia. change (2 ^ 3) with 8.
  case_bool; [|split; [lia|]; destruct (decide (n mod 8 = 0)); [done|tauto]]. rewrite u32_small by (Z.to_euclidean_division_equations; lia). split; Z.to_euclidean_division_equations; lia.
Qed.
Lemma zeros_len (n : Z) : 0 <= n -> lenZ (zeros n) = n.
Proof. intros. unfold lenZ, zeros. rewrite length_replicate. lia. Qed.
Lemma zeros_here (f : bytes) (p n : Z) : 0 <= p -> 0 <= n -> (forall i, p <= i < p + n -> f !! Z.to_nat i = Some 0) -> slice f p n = zeros n.
Proof.
  intros Hp Hn H. unfold slice, zeros. apply list_eq. intros i. destruct (decide (i < Z.to_nat n)%nat) as [Hi|Hi].
  - rewrite lookup_take_lt, lookup_drop, lookup_replicate_2 by done. replace (Z.to_nat p + i)%nat with (Z.to_nat (p + Z.of_nat i)) by lia. apply H. lia.
  - rewrite lookup_take_ge by lia. symmetry. apply lookup_replicate_None. lia.
Qed.
Lemma splice_lookup (f b : bytes) (p i : Z) : 0 <= p <= lenZ f -> p <= i < p + lenZ b -> splice f p b !! Z.to_nat i = b !! Z.to_nat (i - p).
Proof. intros Hp Hi. unfold splice, lenZ in *. rewrite lookup_app_r by (rewrite length_take; lia). rewrite length_take, lookup_app_l by lia. f_equal. lia. Qed.

Lemma splice_id (f : bytes) (p : Z) (b : bytes) : 0 <= p -> p + lenZ b <= lenZ f -> here f p b -> splice f p b = f.
Proof.
  intros Hp Hl H. unfold here, slice in H. unfold splice. rewrite <- H at 1. replace (length b) with (Z.to_nat (lenZ b)) by (unfold lenZ; lia). rewrite <- (drop_drop f), (take_drop (Z.to_nat (lenZ b))). apply take_drop.
Qed.

Lemma ps_load_ok (s : PersistState) (p n : Z) : current_map s = true -> current_size s <= lenZ (ps_file s) -> 0 <= p -> 0 <= n -> p + n <= current_size s -> ps_load s p n = Ret (slice (ps_file s) p n).
Proof. intros Hm Hl Hp Hn Hb. unfold ps_load. rewrite Hm, bool_decide_eq_true_2 by done. cbn. apply load_ok; lia. Qed.
Lemma ps_store_ok (s : PersistState) (p : Z) (b : bytes) : current_map s = true -> current_size s <= lenZ (ps_file s) -> 0 <= p -> p + lenZ b <= current_size s -> ps_store s p b = Ret (set_file s (splice (ps_file s) p b)).
Proof. intros Hm Hl Hp Hb. unfold ps_store. rewrite Hm, bool_decide_eq_true_2 by done. cbn. rewrite store_ok by lia. done. Qed.

(** A change that leaves alone the headers of values keeps the layout, if the keys are in place. *)
Lemma layout_change (s s' : PersistState) (blocks blocks' : list (Z * list pkey)) (areas : gmap Z Z) : layout s blocks areas ->
  current_map s' = true -> current_ofs s <= current_ofs s' -> current_ofs s' mod 8 = 0 ->
  current_ofs s' + 4096 < current_size s' <= current_ofs s' + 2 ^ 17 /\ current_size s' mod 8 = 0 /\ lenZ (ps_file s') = current_size s' ->
  (forall i, current_ofs s' <= i < current_size s' -> ps_file s' !! Z.to_nat i = Some 0) ->
  agree (ps_file s) (ps_file s') 0 4 -> here (ps_file s') 8 (be_bytes 4 (lenZ (keys_of blocks'))) -> key_chain (ps_file s') blocks' ->
  (exists pre b ks, blocks' = pre ++ [(b, ks)] /\ current_key_block s' = b /\ current_key_ofs s' = lenZ (keys_enc ks) /\ current_key_size s' = bsize b) ->
  (forall h n, areas !! h = Some n -> h <> INITIAL_KEY_STORE -> agree (ps_file s) (ps_file s') (h - 8) (h - 4)) ->
  Forall (fun b => areas !! b = Some (bsize b)) (blocks'.*1) /\ NoDup (blocks'.*1) /\ hd 0 (blocks'.*1) = INITIAL_KEY_STORE ->
  Forall (fun k : pkey => is_Some (areas !! (k.2)) /\ ~ (k.2 ∈ blocks'.*1) /\ valid_key (k.1)) (keys_of blocks') /\ NoDup ((keys_of blocks').*2) -> layout s' blocks' areas.
Proof.
  intros [] Hm Ho H8 Hs Hz H0 Hcnt Hch Hlast Ha Hbl Hv. split; try done.
  - lia.
  - apply (here_agree (ps_file s)); [done|apply (agree_sub _ _ _ _ _ _ H0); [lia|]; change (lenZ SLP4) with 4; lia|done].
  - intros h n Hh. destruct (lo_area0 h n Hh) as [? [?|(? & ? & K)]]; [tauto|]. split; [done|]. destruct (decide (h = INITIAL_KEY_STORE)) as [->|Hne]; [unfold INITIAL_KEY_STORE in *; lia|]. right. split_and!; [done|lia|]. apply (here_agree (ps_file s)); [lia| |done]. rewrite be_bytes_lenZ. apply (agree_sub _ _ _ _ _ _ (Ha h n Hh Hne)); lia.
Qed.
(** A change elsewhere keeps the layout. *)
Lemma layout_move (s s' : PersistState) (blocks : list (Z * list pkey)) (areas : gmap Z Z) : layout s blocks areas ->
  current_map s' = true -> current_key_block s' = current_key_block s -> current_key_ofs s' = current_key_ofs s -> current_key_size s' = current_key_size s ->
  current_ofs s <= current_ofs s' -> current_ofs s' mod 8 = 0 ->
  current_ofs s' + 4096 < current_size s' <= current_ofs s' + 2 ^ 17 /\ current_size s' mod 8 = 0 /\ lenZ (ps_file s') = current_size s' ->
  (forall i, current_ofs s' <= i < current_size s' -> ps_file s' !! Z.to_nat i = Some 0) ->
  agree (ps_file s) (ps_file s') 0 12 -> (forall b, b ∈ blocks.*1 -> agree (ps_file s) (ps_file s') b (b + bsize b)) ->
  (forall h n, areas !! h = Some n -> h <> INITIAL_KEY_STORE -> agree (ps_file s) (ps_file s') (h - 8) (h - 4)) -> layout s' blocks areas.
Proof.
  intros L Hm E1 E2 E3 Ho H8 Hs Hz H0 Hb Ha. pose proof L as []. apply (layout_change s s' blocks blocks areas L); try done.
  - apply (agree_sub _ _ _ _ _ _ H0); lia.
  - apply (here_agree (ps_file s)); [done|apply (agree_sub _ _ _ _ _ _ H0); rewrite ?be_bytes_lenZ; lia|done].
  - apply (chain_frame (ps_file s)); [|done]. apply Forall_forall. intros b Hin. split; [|by apply Hb]. destruct lo_blocks0 as [F _]. rewrite Forall_forall in F. specialize (F b Hin). apply lo_area0 in F as [_ [[-> _]|?]]; [done|lia].
  - by rewrite E1, E2, E3.
Qed.
Lemma layout_below (s : PersistState) (blocks : list (Z * list pkey)) (areas : gmap Z Z) (h n : Z) : layout s blocks areas -> areas !! h = Some n -> 64 <= h /\ 0 <= n <= 4096 /\ h + n <= current_ofs s.
Proof. intros [] Hh. apply lo_area0 in Hh as [? [[-> ->]|?]]; unfold INITIAL_KEY_STORE, INITIAL_KEY_SIZE; lia. Qed.
Lemma layout_block (s : PersistState) (blocks : list (Z * list pkey)) (areas : gmap Z Z) (b : Z) : layout s blocks areas -> b ∈ blocks.*1 -> areas !! b = Some (bsize b).
Proof. intros [] Hin. destruct lo_blocks0 as [F _]. rewrite Forall_forall in F. by apply F. Qed.
(** One more area. *)
Lemma layout_area (s : PersistState) (blocks : list (Z * list pkey)) (areas : gmap Z Z) (h n : Z) : layout s blocks areas -> 4104 <= h -> 0 <= n <= 4096 -> h + n <= current_ofs s -> here (ps_file s) (h - 8) (be_bytes 4 n) ->
  (forall h' n', areas !! h' = Some n' -> h' + n' <= h - 8) -> layout s blocks (<[h := n]> areas).
Proof.
  intros L Hh Hn Ho Hw Hb. pose proof L as []. assert (Hne : forall h' n', areas !! h' = Some n' -> h' < h) by (intros h' n' E; pose proof (layout_below _ _ _ _ _ L E); pose proof (Hb _ _ E); lia). assert (Hi : forall h' n', areas !! h' = Some n' -> (<[h := n]> areas) !! h' = Some n') by (intros h' n' E; rewrite lookup_insert_ne; [done|]; specialize (Hne _ _ E); lia).
  split; try done.
  - intros h' n' [[<- <-]|[_ E]]%lookup_insert_Some; [|by apply lo_area0]. split; [done|]. by right.
  - intros h1 n1 h2 n2 [[<- <-]|[_ E1]]%lookup_insert_Some [[<- <-]|[_ E2]]%lookup_insert_Some Hlt; [lia|pose proof (Hne _ _ E2); lia|by apply (Hb _ _ E1)|by eapply lo_disjoint0].
  - destruct lo_blocks0 as (F & ? & ?). split_and!; [|done..]. eapply Forall_impl; [exact F|]. intros b E. by apply Hi.
  - destruct lo_values0 as [F ?]. split; [|done]. eapply Forall_impl; [exact F|]. intros k ([m E] & ? & ?). split_and!; [|done..]. exists m. by apply Hi.
Qed.

(** ** Writing keys *)

Lemma push_len (a : SerializeArchive) (b : bytes) : ar_kind a = BufferArchive -> archive_wf a -> fits a (lenZ b) -> lenZ (ar_data (push a b)) = lenZ (ar_data a).
Proof. intros Hk [Hp Hl] Hf. unfold fits, push in *. rewrite Hk in *. cbn. autorewrite with sng. unfold lenZ in *. lia. Qed.

(** A key in a block of bytes: it is written if it fits. *)
Lemma key_archive (area key : bytes) (h : Z) : Forall (fun c => c <> 0) key -> lenZ area < 2 ^ 31 -> lenZ key < 2 ^ 31 -> 0 <= h < 2 ^ 32 ->
  let r := and_then (serialize_write_cstring (serialize_buffer_archive_new area) key (-1)) (fun sa => serialize_write_uint32 sa h) in
  lenZ (ar_data r.2) = lenZ area /\ (r.1 = true <-> lenZ key + 8 <= lenZ area) /\ (r.1 = true -> ar_pos r.2 = lenZ key + 8 /\ exists rest, ar_data r.2 = key_enc (key, h) ++ rest).
Proof.
  intros Hk Ha Hl Hh. unfold serialize_write_cstring. rewrite bool_decide_eq_true_2, c_string_id by done. set (a := serialize_buffer_archive_new area). pose proof (lenZ_nonneg key). pose proof (lenZ_nonneg area).
  assert (Wa : archive_wf a) by (split; cbn; lia). assert (Ht : take (Z.to_nat (lenZ key)) key = key) by (apply take_ge; unfold lenZ; lia). rewrite Ht.
  unfold serialize_write_uint32, write_be. rewrite !u32_small by lia. destruct (Z.le_gt_cases 4 (lenZ area)) as [F4|F4].
  - assert (F1 : fits a (lenZ (be_bytes 4 (lenZ key)))) by (by rewrite be_bytes_lenZ). rewrite write_bytes_fits by done. cbn [and_then]. set (a1 := push a _). assert (L1 : lenZ (ar_data a1) = lenZ area) by (by apply push_len). assert (W1 : archive_wf a1) by (apply push_wf; [done..|]; rewrite be_bytes_lenZ; change (ar_data a) with area; lia). assert (P1 : ar_pos a1 = 4) by done. assert (K1 : ar_kind a1 = BufferArchive) by done.
    destruct (Z.le_gt_cases (lenZ key + 4) (lenZ area)) as [Fk|Fk].
    + assert (F2 : fits a1 (lenZ key)) by (unfold fits; rewrite K1, P1, L1; lia). set (r1 := if bool_decide (lenZ key = 0) then (true, a1) else serialize_archive_write_bytes a1 key). assert (E2 : r1 = (true, push a1 key)). { subst r1. case_bool; [|by apply write_bytes_fits]. apply lenZ_zero_nil in Hb as ->. by f_equal. }
      rewrite E2. cbn [and_then]. set (a2 := push a1 key). assert (L2 : lenZ (ar_data a2) = lenZ area) by (unfold a2; rewrite push_len; done). assert (W2 : archive_wf a2) by (apply push_wf; [done..|]; rewrite L1; lia). assert (P2 : ar_pos a2 = lenZ key + 4) by (change (ar_pos a2) with (ar_pos a1 + lenZ key); lia). assert (E3 : ar_kind a2 = BufferArchive) by done.
      destruct (Z.le_gt_cases (lenZ key + 8) (lenZ area)) as [Fh|Fh].
      * assert (F3 : fits a2 (lenZ (be_bytes 4 h))) by (unfold fits; rewrite E3, be_bytes_lenZ, P2, L2; lia). rewrite write_bytes_fits by done. cbn [fst snd]. split_and!; [rewrite push_len by done; done|done|]. intros _. split; [unfold push; rewrite E3; cbn [ar_pos]; rewrite be_bytes_lenZ, P2; lia|].
        unfold a2, a1. rewrite (push_app a); [|done|unfold fits, a; cbn [ar_kind serialize_buffer_archive_new ar_pos ar_data]; rewrite lenZ_app, be_bytes_lenZ; lia]. rewrite (push_app a); [|done|unfold fits, a; cbn [ar_kind serialize_buffer_archive_new ar_pos ar_data]; rewrite !lenZ_app, !be_bytes_lenZ; lia]. unfold key_enc, string_enc, push. cbn [ar_kind a serialize_buffer_archive_new ar_data ar_pos fst snd]. rewrite take_0. by eexists.
      * rewrite write_bytes_full; [|done|done|rewrite be_bytes_lenZ; lia|unfold fits; rewrite E3, be_bytes_lenZ, P2, L2; lia]. cbn. split_and!; [done|split; [done|lia]|done].
    + rewrite (bool_decide_eq_false_2 (lenZ key = 0)) by lia. rewrite write_bytes_full; [|done|done|lia|unfold fits; rewrite K1, P1, L1; lia]. cbn [and_then fst snd]. split_and!; [by rewrite <- L1|split; [done|lia]|done].
  - rewrite write_bytes_full; [|done|done|rewrite be_bytes_lenZ; lia|unfold fits; cbn; rewrite lenZ_nil || idtac; change (~ (0 + 4 <= lenZ area)); lia]. cbn. split_and!; [done|split; [done|lia]|done].
Qed.

(** Where the current block is. *)
Record at_block (s : PersistState) (b o : Z) : Prop := { ab_map : current_map s = true; ab_len : lenZ (ps_file s) = current_size s; ab_block : current_key_block s = b; ab_ofs : current_key_ofs s = o; ab_size : current_key_size s = bsize b; ab_in : 0 <= b /\ b + bsize b <= current_size s < 2 ^ 31; ab_room : 0 <= o /\ o + 8 <= bsize b }.

Lemma chain_frame_last (f g : bytes) (pre : list (Z * list pkey)) (b : Z) (ks : list pkey) : Forall (fun b => 0 <= b /\ agree f g b (b + bsize b)) (pre.*1) -> here g b (keys_enc ks) -> key_chain f (pre ++ [(b, ks)]) -> key_chain g (pre ++ [(b, ks)]).
Proof.
  intros Hp Hb. induction pre as [|[a l] pre IH]; cbn [app key_chain fmap list_fmap fst] in *; [tauto|]. apply Forall_cons in Hp as [[Ha Hf] Hp]. intros (H1 & H2 & H3 & H4). pose proof (lenZ_nonneg (keys_enc l)). split_and!; [|done| |by apply IH].
  - apply (here_agree f g); [done| |done]. apply (agree_sub _ _ _ _ _ _ Hf); lia.
  - destruct (pre ++ [(b, ks)]) as [|[b' ks'] ?] eqn:E; [done|]. apply (here_agree f g); [lia| |done]. change (lenZ (link b')) with 8. apply (agree_sub _ _ _ _ _ _ Hf); lia.
Qed.
Lemma layout_apart (s : PersistState) (blocks : list (Z * list pkey)) (areas : gmap Z Z) (h n h' n' : Z) : layout s blocks areas -> areas !! h = Some n -> areas !! h' = Some n' -> h <> h' -> h + n <= h' - 8 \/ h' + n' <= h - 8.
Proof. intros [] E E' Hne. destruct (Z.lt_total h h') as [?|[?|?]]; [left|done|right]; by eapply lo_disjoint0. Qed.
Lemma layout_at_block (s : PersistState) (pre : list (Z * list pkey)) (b : Z) (ks : list pkey) (areas : gmap Z Z) : layout s (pre ++ [(b, ks)]) areas -> current_ofs s + 2 ^ 17 < 2 ^ 31 -> at_block s b (lenZ (keys_enc ks)).
Proof.
  intros L Hb. pose proof L as []. destruct lo_last0 as (pre' & b' & ks' & E & E1 & E2 & E3). apply app_inj_2 in E as [_ [= <- <-]]; [|done]. pose proof (layout_block _ _ _ b L ltac:(rewrite fmap_app; set_solver)) as Eb. pose proof (layout_below _ _ _ _ _ L Eb). destruct (chain_tail _ _ _ _ lo_chain0). pose proof (lenZ_nonneg (keys_enc ks)). split; try done; lia.
Qed.
Lemma layout_last (s : PersistState) (blocks : list (Z * list pkey)) (areas : gmap Z Z) : layout s blocks areas -> exists pre b ks, blocks = pre ++ [(b, ks)].
Proof. intros []. destruct lo_last0 as (pre & b & ks & E & _). by exists pre, b, ks. Qed.
Lemma layout_files (s s' : PersistState) (blocks : list (Z * list pkey)) (areas : gmap Z Z) : layout s blocks areas -> ps_file s' = ps_file s -> current_map s' = current_map s -> current_ofs s' = current_ofs s -> current_size s' = current_size s -> current_key_block s' = current_key_block s -> current_key_ofs s' = current_key_ofs s -> current_key_size s' = current_key_size s -> layout s' blocks areas.
Proof. intros L E1 E2 E3 E4 E5 E6 E7. pose proof L as []. apply (layout_move s s' blocks areas L); rewrite ?E1, ?E2, ?E3, ?E4; try done; lia. Qed.

(** A write into the rest of the current block. *)
Lemma layout_scratch (s : PersistState) (pre : list (Z * list pkey)) (b : Z) (ks : list pkey) (areas : gmap Z Z) (f : bytes) : layout s (pre ++ [(b, ks)]) areas -> lenZ f = lenZ (ps_file s) ->
  (forall x y, 0 <= x -> y <= b + lenZ (keys_enc ks) \/ b + bsize b <= x -> agree (ps_file s) f x y) -> layout (set_file s f) (pre ++ [(b, ks)]) areas.
Proof.
  intros L Hl Ha. pose proof L as []. assert (Hb : b ∈ (pre ++ [(b, ks)]).*1) by (rewrite fmap_app; set_solver). pose proof (layout_block _ _ _ b L Hb) as Eb. pose proof (layout_below _ _ _ _ _ L Eb) as Bb. pose proof (lenZ_nonneg (keys_enc ks)) as Hn. destruct (chain_tail _ _ _ _ lo_chain0) as [Ht _].
  apply (layout_change s _ (pre ++ [(b, ks)]) _ areas L); cbn [current_map current_ofs current_size ps_file set_file]; try done; try lia.
  - intros i Hi. rewrite <- (Ha (current_ofs s) (current_size s)) by lia. apply lo_zero0. lia.
  - apply Ha; lia.
  - apply (here_agree (ps_file s)); [done|apply Ha; rewrite ?be_bytes_lenZ; lia|done].
  - apply (chain_frame_last (ps_file s)); [|apply (here_agree (ps_file s)); [lia|apply Ha; lia|done]|done]. apply Forall_forall. intros c Hc. destruct lo_blocks0 as (_ & N & _). rewrite fmap_app in N. apply NoDup_app in N as (_ & N & _).
    pose proof (layout_block _ _ _ c L ltac:(rewrite fmap_app; set_solver)) as Ec. pose proof (layout_below _ _ _ _ _ L Ec). split; [lia|]. apply Ha; [lia|]. destruct (layout_apart _ _ _ _ _ _ _ L Ec Eb); [intros ->; apply (N b Hc); set_solver|lia..].
  - intros h n Hh Hne. pose proof (layout_below _ _ _ _ _ L Hh). apply Ha; [destruct (lo_area0 h n Hh) as [_ [[? _]|?]]; [done|lia]|]. destruct (decide (h = b)) as [->|Hd]; [lia|]. destruct (layout_apart _ _ _ _ _ _ _ L Hh Eb Hd); lia.
Qed.

(** A key behind the others of the current block, which now counts. *)
Lemma layout_key (s : PersistState) (pre : list (Z * list pkey)) (b : Z) (ks : list pkey) (areas : gmap Z Z) (key : bytes) (h n : Z) (f : bytes) : layout s (pre ++ [(b, ks)]) areas -> valid_key key -> areas !! h = Some n -> ~ (h ∈ (pre ++ [(b, ks)]).*1) -> ~ (h ∈ (keys_of (pre ++ [(b, ks)])).*2) ->
  lenZ f = lenZ (ps_file s) -> (forall x y, 0 <= x -> y <= b + lenZ (keys_enc ks) \/ b + bsize b <= x -> agree (ps_file s) f x y) -> lenZ (keys_enc ks) + lenZ key + 16 <= bsize b -> here f (b + lenZ (keys_enc ks)) (key_enc (key, h)) ->
  layout (set_key_block (set_file s (splice f 8 (be_bytes 4 (lenZ (keys_of (pre ++ [(b, ks)])) + 1)))) b (lenZ (keys_enc ks) + (lenZ key + 8)) (bsize b)) (pre ++ [(b, ks ++ [(key, h)])]) areas.
Proof.
  intros L Hk Hh Hnb Hnk Hl Ha Hf Hw. pose proof (layout_scratch s pre b ks areas f L Hl Ha) as L1. pose proof L as Ls. pose proof L1 as []. cbn [ps_file set_file current_ofs current_size] in *. set (g := splice f 8 _).
  assert (Hb : b ∈ (pre ++ [(b, ks)]).*1) by (rewrite fmap_app; set_solver). pose proof (layout_below _ _ _ _ _ L (layout_block _ _ _ b L Hb)) as Bb. pose proof (lenZ_nonneg (keys_enc ks)) as Hn0. destruct (chain_tail _ _ _ _ lo_chain0) as [Ht _].
  assert (Lg : lenZ g = lenZ f) by (unfold g; rewrite splice_lenZ; rewrite ?be_bytes_lenZ; lia). assert (G : forall x y, 12 <= x -> agree f g x y) by (intros x y Hx; apply agree_splice; rewrite ?be_bytes_lenZ; lia).
  assert (Ek : keys_of (pre ++ [(b, ks ++ [(key, h)])]) = keys_of (pre ++ [(b, ks)]) ++ [(key, h)]) by (rewrite !keys_of_app; unfold keys_of; cbn; by rewrite !app_nil_r, app_assoc).
  assert (Eb : (pre ++ [(b, ks ++ [(key, h)])]).*1 = (pre ++ [(b, ks)]).*1) by (by rewrite !fmap_app).
  apply (layout_change _ _ _ _ areas L1); cbn [current_map current_ofs current_size ps_file set_file set_key_block current_key_block current_key_ofs current_key_size]; try done; try lia.
  - intros i Hi. rewrite <- (G (current_ofs s) (current_size s)) by lia. apply lo_zero0. lia.
  - apply agree_splice; lia.
  - rewrite Ek, lenZ_app. apply here_splice; [done|]. rewrite be_bytes_lenZ. lia.
  - assert (Hc : key_chain g (pre ++ [(b, ks)])). { apply (chain_frame f); [|done]. apply Forall_forall. intros c Hc. pose proof (layout_below _ _ _ _ _ L (layout_block _ _ _ c L Hc)). split; [lia|]. apply G. lia. }
    apply (chain_last g pre b ks); [done|]. cbn [key_chain]. rewrite keys_enc_app, lenZ_app. unfold keys_enc at 2 4. cbn [fmap list_fmap concat]. rewrite app_nil_r, key_enc_len. cbn [fst]. split_and!; [|lia|done..]. apply here_app; [lia|]. split; [by apply chain_tail in Hc as [? _]|]. apply (here_agree f); [lia|apply G; lia|done].
  - exists pre, b, (ks ++ [(key, h)]). split_and!; try done. rewrite keys_enc_app, lenZ_app. unfold keys_enc at 3. cbn. by rewrite app_nil_r, key_enc_len.
  - intros h' n' Hh' _. pose proof (layout_below _ _ _ _ _ L Hh'). apply G. lia.
  - by rewrite Eb.
  - rewrite Ek, Eb. destruct lo_values0 as [V N]. split; [apply Forall_app; split; [done|]; constructor; [|done]; by eauto|]. rewrite fmap_app. apply NoDup_app. split_and!; [done| |apply NoDup_singleton]. intros x Hx ->%list_elem_of_singleton. done.
Qed.

(** A new block behind the current one. *)
Lemma layout_link (s : PersistState) (pre : list (Z * list pkey)) (b : Z) (ks : list pkey) (areas : gmap Z Z) (nb : Z) (f : bytes) : layout s (pre ++ [(b, ks)]) areas -> areas !! nb = Some 4096 -> 4104 <= nb -> ~ (nb ∈ (pre ++ [(b, ks)]).*1) -> ~ (nb ∈ (keys_of (pre ++ [(b, ks)])).*2) ->
  lenZ f = lenZ (ps_file s) -> (forall x y, 0 <= x -> y <= b + lenZ (keys_enc ks) \/ b + bsize b <= x -> agree (ps_file s) f x y) -> here f (b + lenZ (keys_enc ks)) (link nb) ->
  layout (set_key_block (set_file s f) nb 0 PERSIST_STATE_KEY_BLOCK_SIZE) ((pre ++ [(b, ks)]) ++ [(nb, [])]) areas.
Proof.
  intros L Hnb Hnb0 Hn Hnk Hl Ha Hw. pose proof (layout_scratch s pre b ks areas f L Hl Ha) as L1. pose proof L1 as []. cbn [ps_file set_file current_ofs current_size] in *. assert (Sz : bsize nb = 4096) by (unfold bsize; rewrite bool_decide_eq_false_2; [done|unfold INITIAL_KEY_STORE; lia]).
  assert (Ek : keys_of ((pre ++ [(b, ks)]) ++ [(nb, [])]) = keys_of (pre ++ [(b, ks)])) by (rewrite (keys_of_app (_ ++ _)); unfold keys_of at 2; cbn; by rewrite app_nil_r).
  assert (Eb : ((pre ++ [(b, ks)]) ++ [(nb, [])]).*1 = (pre ++ [(b, ks)]).*1 ++ [nb]) by (by rewrite fmap_app).
  apply (layout_change _ _ _ _ areas L1); cbn [current_map current_ofs current_size ps_file set_file set_key_block current_key_block current_key_ofs current_key_size]; try done; try lia.
  - by rewrite Ek.
  - rewrite <- app_assoc. cbn [app]. apply (chain_last f pre b ks); [done|]. destruct (chain_tail _ _ _ _ lo_chain0) as [Ht Hs]. cbn [key_chain]. split_and!; try done; change (0 + 8 <= bsize nb); lia.
  - exists (pre ++ [(b, ks)]), nb, []. by rewrite Sz.
  - rewrite Eb. destruct lo_blocks0 as (F & N & Hd). split_and!.
    + apply Forall_app. split; [done|]. constructor; [by rewrite Sz|done].
    + apply NoDup_app. split_and!; [done| |apply NoDup_singleton]. by intros x Hx ->%list_elem_of_singleton.
    + by destruct ((pre ++ [(b, ks)]).*1) eqn:E; [destruct pre|].
  - rewrite Ek, Eb. destruct lo_values0 as [V N]. split; [|done]. apply Forall_forall. intros k Hin. rewrite Forall_forall in V. destruct (V k Hin) as (? & ? & ?). split_and!; [done| |done]. intros [?|Hx]%elem_of_app; [done|]. apply list_elem_of_singleton in Hx. apply Hnk. rewrite <- Hx. apply list_elem_of_fmap. by exists k.
Qed.

Section system.
Context (pgsize : Z) (pwrite : Z -> option Z) (mmap : Z -> bool).
(** Pages of 4096 to 65536 bytes; the system has room for the file. *)
Hypothesis Hpage : exists k, pgsize = 2 ^ k /\ 12 <= k <= 16.
Hypothesis Hpwrite : forall n, pwrite n = None.
Hypothesis Hmmap : forall n, mmap n = true.

Lemma page_round (n : Z) : 0 <= n < 2 ^ 31 -> n mod 8 = 0 -> let n' := if bool_decide (Z.land n (pgsize - 1) <> 0) then u32 (u32 (n / pgsize + 1) * pgsize) else n in n <= n' < n + 65537 /\ n' mod 8 = 0.
Proof.
  destruct Hpage as (k & -> & Hk). intros Hn H8. assert (Hp : 2 ^ 12 <= 2 ^ k <= 2 ^ 16) by (split; apply Z.pow_le_mono_r; lia). change (2 ^ 12) with 4096 in Hp. change (2 ^ 16) with 65536 in Hp.
  rewrite Z.sub_1_r, <- Z.ones_equiv. rewrite Z.land_ones by lia. cbn zeta. case_bool; [|split; [lia|done]].
  assert (0 <= n / 2 ^ k <= n) by (split; [apply Z.div_pos; lia|apply Z.div_le_upper_bound; nia]). pose proof (Z.div_mod n (2 ^ k) ltac:(lia)) as E. pose proof (Z.mod_pos_bound n (2 ^ k) ltac:(lia)) as B.
  rewrite (u32_small (n / 2 ^ k + 1)) by lia. rewrite u32_small by nia. split; [nia|]. replace k with (3 + (k - 3)) at 2 by lia. rewrite Z.pow_add_r by lia. change (2 ^ 3) with 8. rewrite Z.mul_comm, <- Z.mul_assoc, (Z.mul_comm 8). by apply Z_mod_mult.
Qed.

Lemma grow_ok (s : PersistState) (n : Z) : mapped_counter s = 0 -> 0 <= current_size s < n -> n < 2 ^ 31 -> n mod 8 = 0 -> lenZ (ps_file s) = current_size s ->
  exists cs, n <= cs < n + 65537 /\ cs mod 8 = 0 /\ persist_state_grow_store pgsize pwrite mmap s n = Ret (true, set_mapping (set_file s (splice (splice (ps_file s) (current_size s) (zeros (cs - current_size s))) 0 SLP4)) cs true).
Proof.
  intros Hc Hn Hb H8 Hl. unfold persist_state_grow_store. rewrite Hc. cbn [bool_decide g_assert obind]. change (bool_decide (0 = 0)) with true. cbn [g_assert obind].
  pose proof (page_round n ltac:(lia) H8) as [Hr Hr8]. set (cs := if bool_decide (Z.land n (pgsize - 1) <> 0) then _ else _) in *. exists cs. split_and!; [lia..|done|]. rewrite bool_decide_eq_true_2 by lia.
  unfold persist_state_increase_file_size. rewrite Hpwrite, u32_small by lia. unfold persist_state_map_file. cbn [current_size set_mapping set_file]. rewrite Hmmap. cbn. rewrite ps_store_ok; [done|done| |done|]; cbn.
  - unfold splice. rewrite !lenZ_app, zeros_len by lia. pose proof (lenZ_nonneg (drop (Z.to_nat (current_size s) + length (zeros (cs - current_size s))) (ps_file s))). rewrite lenZ_take, Hl. lia.
  - change (0 + 4 <= cs). clearbody cs. Z.to_euclidean_division_equations; lia.
Qed.

(** ** Allocating *)

(** The rest of the state. *)
Definition same_rest (s s' : PersistState) : Prop :=
  ps_version s' = ps_version s /\ ps_renamed s' = ps_renamed s /\ mapped_counter s' = mapped_counter s /\ keys s' = keys s /\ current_key_block s' = current_key_block s /\ current_key_ofs s' = current_key_ofs s /\ current_key_size s' = current_key_size s /\ ps_mode s' = ps_mode s.

Lemma alloc_value_ok (s : PersistState) (blocks : list (Z * list pkey)) (areas : gmap Z Z) (size iu ver : Z) : layout s blocks areas -> mapped_counter s = 0 -> 0 <= size <= 4096 -> current_ofs s + 2 ^ 18 < 2 ^ 31 ->
  exists s', persist_state_alloc_value pgsize pwrite mmap s size iu ver = Ret (current_ofs s + 8, s') /\ layout s' blocks (<[current_ofs s + 8 := size]> areas) /\ same_rest s s' /\
    current_ofs s' = current_ofs s + 8 + round8 size /\ agree (ps_file s) (ps_file s') 0 (current_ofs s) /\ here (ps_file s') (current_ofs s) (value_header size iu ver) /\ here (ps_file s') (current_ofs s + 8) (zeros size).
Proof.
  intros L Hc Hn Hb. pose proof L as []. destruct lo_ofs0 as [Ho Ho8], lo_size0 as (Hs & Hs8 & Hl). pose proof (round8_ok size Hn) as [Hr Hr8]. unfold persist_state_alloc_value.
  assert (Hs' : current_ofs s + 4104 <= current_size s) by (Z.to_euclidean_division_equations; lia).
  unfold _check_free_space, VALUE_HEADER. rewrite bool_decide_eq_true_2 by lia. cbn [negb persist_state_map_entry]. rewrite !u32_small by lia.
  assert (Hvl : lenZ (value_header size iu ver) = 6) by (unfold value_header; by rewrite lenZ_app, be_bytes_lenZ).
  rewrite ps_store_ok; [|done|cbn; lia|lia|rewrite Hvl; cbn; lia]. cbn [obind]. set (f1 := splice _ _ _). cbn [ps_file set_counter] in f1.
  assert (Hl1 : lenZ f1 = current_size s) by (unfold f1; rewrite splice_lenZ; lia).
  assert (A1 : agree (ps_file s) f1 0 (current_ofs s)) by (apply agree_splice; lia).
  assert (Z1 : forall i, current_ofs s + 6 <= i < current_size s -> f1 !! Z.to_nat i = Some 0).
  { intros i Hi. rewrite <- (agree_splice (ps_file s) (value_header size iu ver) (current_ofs s) (current_ofs s + 6) (current_size s)) by lia. apply lo_zero0. lia. }
  assert (H1 : here f1 (current_ofs s) (value_header size iu ver)) by (apply here_splice; lia).
  set (s1 := set_ofs _ _). set (P := fun s' : PersistState => layout s' blocks (<[current_ofs s + 8 := size]> areas) /\ same_rest s s' /\ current_ofs s' = current_ofs s + 8 + round8 size /\ agree (ps_file s) (ps_file s') 0 (current_ofs s) /\ here (ps_file s') (current_ofs s) (value_header size iu ver) /\ here (ps_file s') (current_ofs s + 8) (zeros size)).
  assert (Eo : current_ofs s1 = current_ofs s + 8 + round8 size) by (cbn; rewrite u32_small; lia).
  assert (fin : forall s', same_rest s s' -> current_map s' = true -> current_ofs s' = current_ofs s1 -> current_ofs s' + 4096 < current_size s' <= current_ofs s' + 2 ^ 17 /\ current_size s' mod 8 = 0 /\ lenZ (ps_file s') = current_size s' ->
    agree (ps_file s) (ps_file s') 0 (current_ofs s) -> here (ps_file s') (current_ofs s) (value_header size iu ver) -> (forall i, current_ofs s + 6 <= i < current_size s' -> ps_file s' !! Z.to_nat i = Some 0) -> P s').
  { intros s' R M O S A H Z'. destruct R as (R1 & R2 & R3 & R4 & R5 & R6 & R7 & R8). unfold P. rewrite O, Eo. split_and!; [|by unfold same_rest|done..|].
    - apply layout_area; [|lia..| |].
      + apply (layout_move s); try (done || lia).
        * rewrite O, Eo. Z.to_euclidean_division_equations; lia.
        * intros i Hi. apply Z'. lia.
        * apply (agree_sub _ _ _ _ _ _ A); lia.
        * intros b Hin. pose proof (layout_below _ _ _ _ _ L (layout_block _ _ _ _ L Hin)). apply (agree_sub _ _ _ _ _ _ A); lia.
        * intros h n Hh Hne. pose proof (layout_below _ _ _ _ _ L Hh). destruct (lo_area0 h n Hh) as [? [[? _]|?]]; [done|]. apply (agree_sub _ _ _ _ _ _ A); lia.
      + rewrite Z.add_simpl_r. by apply here_app in H as [H _]; [|lia].
      + intros h n Hh. pose proof (layout_below _ _ _ _ _ L Hh). lia.
    - unfold here. rewrite zeros_len by lia. apply zeros_here; [lia..|]. intros i Hi. apply Z'. lia. }
  destruct (_check_watermark s1) eqn:W.
  - exists s1. split; [done|]. apply fin; try done; [unfold same_rest; cbn; split_and!; try done; lia|]. unfold _check_watermark, PERSIST_FILE_WATERMARK in W. apply bool_decide_eq_true in W. rewrite Eo in *. cbn [s1 current_size set_ofs persist_state_unmap_entry set_counter set_file ps_file] in *. rewrite u32_small in W by lia. lia.
  - unfold _check_watermark, PERSIST_FILE_WATERMARK in W. apply bool_decide_eq_false in W. rewrite Eo, u32_small in W by lia. change (current_size s1) with (current_size s) in *.
    destruct (grow_ok s1 (current_size s + PERSIST_FILE_INITIAL_SIZE)) as (cs & Hcs & Hcs8 & G); try done.
    + cbn. lia.
    + change (current_size s1) with (current_size s). unfold PERSIST_FILE_INITIAL_SIZE. lia.
    + unfold PERSIST_FILE_INITIAL_SIZE. lia.
    + unfold PERSIST_FILE_INITIAL_SIZE. Z.to_euclidean_division_equations; lia.
    + rewrite u32_small by (unfold PERSIST_FILE_INITIAL_SIZE; lia). rewrite G. cbn [obind]. eexists. split; [done|]. change (current_size s1) with (current_size s) in *. change (ps_file s1) with f1 in *. unfold PERSIST_FILE_INITIAL_SIZE in *.
      set (f2 := splice f1 _ _). assert (Hl2 : lenZ f2 = cs). { unfold f2, splice. rewrite !lenZ_app, zeros_len, lenZ_take, lenZ_drop by lia. rewrite Hl1. unfold zeros. rewrite length_replicate. lia. }
      assert (A2 : agree f1 f2 0 (current_size s)) by (apply agree_splice; lia).
      assert (M1 : here f2 0 SLP4). { apply (here_agree f1); [done|apply (agree_sub _ _ _ _ _ _ A2); change (lenZ SLP4) with 4; lia|]. apply (here_agree (ps_file s)); [done|apply (agree_sub _ _ _ _ _ _ A1); change (lenZ SLP4) with 4; lia|done]. }
      rewrite (splice_id f2 0 SLP4) by (done || (change (lenZ SLP4) with 4; lia)).
      apply fin; cbn [current_map set_mapping set_file current_ofs current_size ps_file]; try done.
      * unfold same_rest; cbn; split_and!; try done; lia.
      * rewrite Eo. lia.
      * eapply agree_trans; [exact A1|]. apply (agree_sub _ _ _ _ _ _ A2); lia.
      * apply (here_agree f1); [lia| |done]. apply (agree_sub _ _ _ _ _ _ A2); rewrite ?Hvl; lia.
      * intros i Hi. destruct (Z.lt_ge_cases i (current_size s)) as [Hlt|Hge]; [rewrite <- (A2 i ltac:(lia)); apply Z1; lia|]. unfold f2. rewrite splice_lookup by (rewrite ?zeros_len; lia). unfold zeros. apply lookup_replicate_2. lia.
Qed.
(** ** Adding keys *)

Lemma unmap_map (s : PersistState) (f : bytes) : persist_state_unmap_entry (set_file (set_counter s (mapped_counter s + 1)) f) = set_file s f.
Proof. unfold persist_state_unmap_entry, set_counter, set_file. cbn. f_equal. lia. Qed.

Lemma write_key_ok (s : PersistState) (b o : Z) (key : bytes) (h : Z) : at_block s b o -> valid_key key -> 0 <= h < 2 ^ 32 ->
  exists ok pos f, write_key s key h = Ret (ok, pos, set_file (set_counter s (mapped_counter s + 1)) f) /\ lenZ f = lenZ (ps_file s) /\
    (forall x y, 0 <= x -> y <= b + o \/ b + bsize b <= x -> agree (ps_file s) f x y) /\ (ok = true <-> o + lenZ key + 16 <= bsize b) /\ (ok = true -> pos = lenZ key + 8 /\ here f (b + o) (key_enc (key, h))).
Proof.
  intros [Hm Hl Eb Eo Es Hin Hr] (_ & Hk & Hkl) Hh. pose proof (bsize_bounds b) as Hbs. unfold write_key, persist_state_map_entry. rewrite Eb. rewrite u32_small by lia. cbn [current_key_ofs current_key_size set_counter]. rewrite Eo, Es. rewrite u32_small by lia.
  set (s1 := set_counter s (mapped_counter s + 1)). rewrite ps_load_ok by (done || cbn; lia). cbn [obind]. change (ps_file s1) with (ps_file s). set (area := slice _ _ _). assert (La : lenZ area = bsize b - o - 8) by (apply slice_length; lia).
  pose proof (key_archive area key h Hk ltac:(lia) ltac:(lia) Hh) as (Hd & Hok & Hsucc). destruct (and_then _ _) as [ok sa]. cbn [fst snd] in *. rewrite ps_store_ok by (done || rewrite ?Hd; cbn; lia). cbn [obind]. change (ps_file s1) with (ps_file s). eexists ok, _, _. split; [done|]. split_and!.
  - rewrite splice_lenZ; lia.
  - intros x y Hx Hxy. apply agree_splice; lia.
  - rewrite Hok, La. lia.
  - intros Ht. destruct (Hsucc Ht) as [Ep [rest E]]. split; [exact Ep|]. pose proof (here_splice (ps_file s) (b + o) (ar_data sa) ltac:(lia) ltac:(lia)) as K. rewrite E in K at 2. by apply here_app in K as [K _]; [|lia].
Qed.

Lemma write_chain_ok (s : PersistState) (b o nb : Z) : at_block s b o -> 0 <= nb < 2 ^ 32 ->
  exists f, write_chain s nb = Ret (set_file s f) /\ lenZ f = lenZ (ps_file s) /\ (forall x y, 0 <= x -> y <= b + o \/ b + bsize b <= x -> agree (ps_file s) f x y) /\ here f (b + o) (link nb).
Proof.
  intros [Hm Hl Eb Eo Es Hin Hr] Hnb. pose proof (bsize_bounds b) as Hbs. unfold write_chain, persist_state_map_entry. rewrite Eb. rewrite u32_small by lia. cbn [current_key_ofs current_key_size set_counter]. rewrite Eo, Es.
  set (s1 := set_counter s (mapped_counter s + 1)). rewrite ps_load_ok by (done || cbn; lia). cbn [obind]. change (ps_file s1) with (ps_file s). set (area := slice _ _ _). assert (La : lenZ area = bsize b - o) by (apply slice_length; lia). pose proof (key_archive area [] nb ltac:(constructor) ltac:(lia) ltac:(done) Hnb) as (Hd & Hok & Hsucc). change (serialize_write_cstring (serialize_buffer_archive_new area) [] (-1)) with (serialize_write_cstring (serialize_buffer_archive_new area) [] 0) in *.
  destruct (and_then _ _) as [ok sa]. cbn [fst snd] in *. assert (Ht : ok = true) by (apply Hok; rewrite La, lenZ_nil; lia). rewrite Ht. cbn [g_assert obind]. rewrite ps_store_ok by (done || rewrite ?Hd; cbn; lia). cbn [obind]. subst s1. rewrite unmap_map. eexists. split; [done|]. cbn [ps_file set_counter]. split_and!.
  - rewrite splice_lenZ; lia.
  - intros x y Hx Hxy. apply agree_splice; lia.
  - destruct (Hsucc Ht) as [_ [rest E]]. pose proof (here_splice (ps_file s) (b + o) (ar_data sa) ltac:(lia) ltac:(lia)) as K. rewrite E in K at 2. by apply here_app in K as [K _]; [|lia].
Qed.

Lemma key_written_ok (s : PersistState) (f : bytes) (pos n : Z) : current_map s = true -> lenZ f = current_size s -> 12 <= current_size s -> 0 <= n < 2 ^ 31 -> here f 8 (be_bytes 4 n) ->
  key_written (set_file (set_counter s (mapped_counter s + 1)) f) pos = Ret (set_key_block (set_file s (splice f 8 (be_bytes 4 (n + 1)))) (current_key_block s) (current_key_ofs s + pos) (current_key_size s)).
Proof.
  intros Hm Hl Hs Hn Hc. unfold key_written. rewrite ps_load_ok by (done || cbn; lia). cbn [obind ps_file set_file]. unfold here in Hc. rewrite be_bytes_lenZ in Hc. change (Z.of_nat 4) with 4 in Hc. rewrite Hc, be_value_small by (change (256 ^ Z.of_nat 4) with (2 ^ 32); lia). rewrite u32_small by lia.
  rewrite ps_store_ok by (done || rewrite ?be_bytes_lenZ; cbn; lia). cbn [obind]. f_equal. unfold persist_state_unmap_entry, set_counter, set_file, set_key_block. cbn. f_equal. lia.
Qed.

(** Entries stay where they are. *)
Definition kept (f f' : bytes) (blocks : list (Z * list pkey)) (areas : gmap Z Z) : Prop := forall h n, areas !! h = Some n -> ~ (h ∈ blocks.*1) -> agree f f' (h - 8) (h + n).

Lemma add_key_ok (s : PersistState) (blocks : list (Z * list pkey)) (areas : gmap Z Z) (key : bytes) (h n : Z) : layout s blocks areas -> mapped_counter s = 0 -> valid_key key -> areas !! h = Some n -> ~ (h ∈ blocks.*1) -> ~ (h ∈ (keys_of blocks).*2) -> current_ofs s + 2 ^ 18 < 2 ^ 31 -> lenZ (keys_of blocks) < 2 ^ 31 ->
  exists s' blocks' areas', persist_state_add_key pgsize pwrite mmap s key h = Ret (true, s') /\ layout s' blocks' areas' /\ keys_of blocks' = keys_of blocks ++ [(key, h)] /\ areas ⊆ areas' /\ keys s' = <[key := h]> (keys s) /\
    ps_version s' = ps_version s /\ ps_renamed s' = ps_renamed s /\ mapped_counter s' = 0 /\ ps_mode s' = ps_mode s /\ current_ofs s' <= current_ofs s + 4104 /\ kept (ps_file s) (ps_file s') blocks areas.
Proof.
  intros L Hc Hk Hh Hnb Hnk Hb Hcnt. destruct (layout_last _ _ _ L) as (pre & b & ks & ->). pose proof Hk as (Hk0 & Hk1 & Hk2). unfold persist_state_add_key. rewrite c_string_id by done. rewrite bool_decide_eq_true_2 by done. cbn [g_assert obind].
  set (s0 := set_keys s _). assert (L0 : layout s0 (pre ++ [(b, ks)]) areas) by (by apply (layout_files s)). pose proof (layout_at_block _ _ _ _ _ L0 ltac:(cbn; lia)) as A0. pose proof (layout_below _ _ _ _ _ L Hh) as Bh.
  assert (Hh32 : 0 <= h < 2 ^ 32) by lia. destruct (write_key_ok s0 b _ key h A0 Hk Hh32) as (ok & pos & f1 & -> & Hl1 & Ha1 & Hok & Hsucc). cbn [obind]. pose proof (lenZ_nonneg (keys_of (pre ++ [(b, ks)]))) as Hcnt0. pose proof L0 as []. destruct lo_size0 as (S1 & S2 & S3). cbn [ps_file s0 set_keys current_size current_ofs] in *.
  pose proof (layout_block _ _ _ b L ltac:(rewrite fmap_app; set_solver)) as Eb. pose proof (layout_below _ _ _ _ _ L Eb) as Bb. pose proof (lenZ_nonneg (keys_enc ks)) as Hn0.
  assert (Kpt : kept (ps_file s) f1 (pre ++ [(b, ks)]) areas). { intros x m Ex Hx. pose proof (layout_below _ _ _ _ _ L Ex). destruct (layout_apart _ _ _ _ _ _ _ L Ex Eb ltac:(intros ->; apply Hx; rewrite fmap_app; set_solver)); apply Ha1; lia. }
  destruct ok.
  - destruct (Hsucc eq_refl) as [-> Hw]. assert (Hfit : lenZ (keys_enc ks) + lenZ key + 16 <= bsize b) by tauto. rewrite (key_written_ok s0 f1 _ (lenZ (keys_of (pre ++ [(b, ks)])))); [|done|cbn; lia|cbn; lia|lia|].
    + cbn [obind]. eexists _, (pre ++ [(b, ks ++ [(key, h)])]), areas. split; [done|]. destruct A0 as [_ _ -> -> -> _ _]. split_and!; [by apply (layout_key s0 pre b ks areas key h n)| |done..|cbn; lia|].
      * rewrite !keys_of_app. unfold keys_of. cbn. by rewrite !app_nil_r, app_assoc.
      * cbn. intros x m Ex Hx. eapply agree_trans; [by apply Kpt|]. pose proof (layout_below _ _ _ _ _ L Ex). apply agree_splice; rewrite ?be_bytes_lenZ; lia.
    + apply (here_agree (ps_file s)); [done|apply Ha1; rewrite ?be_bytes_lenZ; lia|done].
  - rewrite unmap_map. assert (L1 : layout (set_file s0 f1) (pre ++ [(b, ks)]) areas) by (by apply layout_scratch).
    destruct (alloc_value_ok (set_file s0 f1) _ _ PERSIST_STATE_KEY_BLOCK_SIZE 1 0 L1 Hc ltac:(done) ltac:(cbn; lia)) as (s2 & -> & L2 & (R1 & R2 & R3 & R4 & R5 & R6 & R7 & R8) & O2 & Ag2 & _ & _). cbn [obind current_ofs set_file set_keys ps_file s0] in *. change (round8 PERSIST_STATE_KEY_BLOCK_SIZE) with 4096 in O2. rewrite bool_decide_eq_false_2 by lia.
    set (nb := current_ofs s + 8) in *. set (areas2 := <[nb := PERSIST_STATE_KEY_BLOCK_SIZE]> areas) in *. assert (Hne : forall x m, areas !! x = Some m -> x < nb) by (intros x m Ex; pose proof (layout_below _ _ _ _ _ L Ex); lia).
    assert (Hsub : areas ⊆ areas2). { apply insert_subseteq. destruct (areas !! nb) eqn:E; [|done]. apply Hne in E. lia. } assert (N1 : ~ (nb ∈ (pre ++ [(b, ks)]).*1)) by (intros Hin; pose proof (Hne _ _ (layout_block _ _ _ _ L Hin)); lia).
    assert (N2 : ~ (nb ∈ (keys_of (pre ++ [(b, ks)])).*2)). { intros (k & Ek & Hin)%list_elem_of_fmap. destruct lo_values0 as [V _]. rewrite Forall_forall in V. destruct (V k Hin) as ([m Em] & _ & _). rewrite <- Ek in Em. apply Hne in Em. lia. }
    pose proof (layout_at_block _ _ _ _ _ L2 ltac:(lia)) as A2. pose proof (lo_size _ _ _ L2) as (S4 & S5 & S6). destruct (write_chain_ok s2 b _ nb A2 ltac:(lia)) as (f3 & -> & Hl3 & Ha3 & Hw3). cbn [obind]. assert (Enb : areas2 !! nb = Some 4096) by apply lookup_insert_eq.
    pose proof (layout_link s2 pre b ks areas2 nb f3 L2 Enb ltac:(lia) N1 N2 Hl3 Ha3 Hw3) as L3. set (s3 := set_key_block (set_file s2 f3) nb 0 _) in *. pose proof (layout_at_block _ _ _ _ _ L3 ltac:(cbn; lia)) as A3.
    destruct (write_key_ok s3 nb _ key h A3 Hk Hh32) as (ok & pos' & f4 & -> & Hl4 & Ha4 & Hok4 & Hsucc4). cbn [obind]. pose proof (layout_block _ _ _ nb L3 ltac:(rewrite fmap_app; set_solver)) as Sz. rewrite Enb in Sz. injection Sz as Sz. change (lenZ (keys_enc [])) with 0 in *.
    assert (Hfit : 0 + lenZ key + 16 <= bsize nb) by lia. assert (Ht : ok = true) by tauto. subst ok. destruct (Hsucc4 eq_refl) as [-> Hw4]. cbn [s3 set_key_block set_file ps_file] in Hl4, Ha4.
    assert (Ek : keys_of ((pre ++ [(b, ks)]) ++ [(nb, [])]) = keys_of (pre ++ [(b, ks)])) by (rewrite (keys_of_app (_ ++ _)); unfold keys_of at 2; cbn; by rewrite app_nil_r).
    rewrite (key_written_ok s3 f4 _ (lenZ (keys_of (pre ++ [(b, ks)])))); [|by apply L3|cbn; lia|cbn; lia|lia|].
    + cbn [obind]. eexists _, ((pre ++ [(b, ks)]) ++ [(nb, [] ++ [(key, h)])]), areas2. split; [done|]. split_and!.
      * destruct A3 as [_ _ E1 E2 E3 _ _]. rewrite E1, E2, E3, <- Ek. assert (Eh2 : areas2 !! h = Some n) by (by eapply lookup_weaken). apply (layout_key s3 (pre ++ [(b, ks)]) nb [] areas2 key h n); try done; [|by rewrite Ek]. rewrite fmap_app. intros [?|Hx]%elem_of_app; [done|]. apply list_elem_of_singleton in Hx. apply Hne in Hh. cbn in Hx. lia.
      * rewrite (keys_of_app (_ ++ _)). unfold keys_of at 2. by cbn.
      * done.
      * cbn. done.
      * done.
      * done.
      * cbn. by rewrite R3.
      * done.
      * cbn. lia.
      * cbn. intros x m Ex Hx. pose proof (layout_below _ _ _ _ _ L Ex) as Bx. eapply agree_trans; [by apply Kpt|]. eapply agree_trans; [apply (agree_sub _ _ _ _ _ _ Ag2); lia|]. eapply agree_trans; [apply Ha3; [lia|destruct (layout_apart _ _ _ _ _ _ _ L Ex Eb ltac:(intros ->; apply Hx; rewrite fmap_app; set_solver)); lia]|]. eapply agree_trans; [apply Ha4; lia|]. apply agree_splice; rewrite ?be_bytes_lenZ; lia.
    + apply (here_agree (ps_file s3)); [done|apply Ha4; rewrite ?be_bytes_lenZ; lia|]. destruct L3 as [_ _ _ _ _ Hcount _ _ _ _ _ _]. by rewrite Ek in Hcount.
Qed.
End system.
