(* ===== verification/PersistOps.v ===== *)
(** * What the operations on the persistent state do to its entries *)
From S2P Require Import Prelude Serialize NVTableSerialize NVTableSerializeInv PersistState PersistInv.

(** An entry as a value: its bytes, its version, and whether it was used since the start. *)
Record pentry := mkEntry { pe_value : bytes; pe_version : Z; pe_in_use : bool }.
Definition entry_at (f : bytes) (h : Z) : pentry :=
  mkEntry (slice f h (be_value (slice f (h - 8) 4))) (f !!! Z.to_nat (h - 3)) (bool_decide (f !!! Z.to_nat (h - 4) <> 0)).
Definition view (s : PersistState) : gmap bytes pentry := entry_at (ps_file s) <$> keys s.

Lemma entry_agree (f g : bytes) (h n : Z) : 8 <= h -> 0 <= n < 2 ^ 32 -> here f (h - 8) (be_bytes 4 n) -> agree f g (h - 8) (h + n) -> entry_at g h = entry_at f h.
Proof.
  intros Hh Hn Hd Ha. unfold entry_at. rewrite <- (agree_slice f g (h - 8) 4) by (lia || apply (agree_sub _ _ _ _ _ _ Ha); lia). unfold here in Hd. rewrite be_bytes_lenZ in Hd. change (Z.of_nat 4) with 4 in Hd. rewrite Hd, be_value_small by (change (256 ^ Z.of_nat 4) with (2 ^ 32); lia).
  rewrite <- (agree_slice f g h n) by (lia || apply (agree_sub _ _ _ _ _ _ Ha); lia). rewrite !list_lookup_total_alt, <- (Ha (h - 3)), <- (Ha (h - 4)) by lia. done.
Qed.
Lemma value_size (f : bytes) (h n : Z) : 0 <= n < 2 ^ 32 -> here f (h - 8) (be_bytes 4 n) -> be_value (slice f (h - 8) 4) = n.
Proof. intros Hn Hd. unfold here in Hd. rewrite be_bytes_lenZ in Hd. change (Z.of_nat 4) with 4 in Hd. rewrite Hd. apply be_value_small. change (256 ^ Z.of_nat 4) with (2 ^ 32). lia. Qed.

(** The layout, and the table of keys: the last key of a name counts, and the entries of others are not in use. *)
Record persist_inv (s : PersistState) (blocks : list (Z * list pkey)) (areas : gmap Z Z) : Prop := {
  pi_layout : layout s blocks areas;
  pi_counter : mapped_counter s = 0;
  pi_mode : ps_mode s = persist_mode_normal;
  pi_version : ps_version s = 4;
  pi_keys : keys s = list_to_map (list.reverse (keys_of blocks));
  pi_stale : forall k h, (k, h) ∈ keys_of blocks -> keys s !! k <> Some h -> pe_in_use (entry_at (ps_file s) h) = false }.

Lemma persist_inv_key (s : PersistState) (blocks : list (Z * list pkey)) (areas : gmap Z Z) (k : bytes) (h : Z) : persist_inv s blocks areas -> keys s !! k = Some h -> (k, h) ∈ keys_of blocks.
Proof. intros [] H. rewrite pi_keys0 in H. apply elem_of_list_to_map_2 in H. by rewrite elem_of_reverse in H. Qed.
Lemma persist_inv_value (s : PersistState) (blocks : list (Z * list pkey)) (areas : gmap Z Z) (k : bytes) (h : Z) : persist_inv s blocks areas -> (k, h) ∈ keys_of blocks -> ~ (h ∈ blocks.*1) /\ valid_key k /\ exists n, areas !! h = Some n /\ 4104 <= h /\ 0 <= n <= 4096 /\ h + n <= current_ofs s /\ here (ps_file s) (h - 8) (be_bytes 4 n).
Proof.
  intros [L _ _ _ _ _] Hin. pose proof L as []. destruct lo_values as [V _]. rewrite Forall_forall in V. destruct (V _ Hin) as ([n Hn] & Hb & Hk). cbn in Hn, Hb, Hk. split_and!; [done..|]. exists n. split; [done|]. destruct (lo_area _ _ Hn) as [? [[-> _]|?]]; [|tauto].
  destruct Hb. destruct lo_blocks as (_ & _ & E). destruct (layout_last _ _ _ L) as (pre & b & ks & ->). destruct pre as [|[b0 ?] ?]; cbn in *; subst; set_solver.
Qed.
Lemma handle_name (l : list pkey) (k k' : bytes) (h : Z) : NoDup (l.*2) -> (k, h) ∈ l -> (k', h) ∈ l -> k = k'.
Proof.
  induction l as [|[a x] l IH]; cbn; [by intros _ ?%elem_of_nil|]. intros [Hx N]%NoDup_cons [E1|H1]%elem_of_cons [E2|H2]%elem_of_cons; simplify_eq; [done| | |by apply IH]; destruct Hx; apply list_elem_of_fmap; eexists; (split; [|done]); done.
Qed.

(** The file changes, but no entry with a key. *)
Lemma view_kept (s s' : PersistState) (blocks : list (Z * list pkey)) (areas : gmap Z Z) : persist_inv s blocks areas -> keys s' = keys s -> kept (ps_file s) (ps_file s') blocks areas -> view s' = view s.
Proof.
  intros P Hk Ha. unfold view. rewrite Hk. apply map_fmap_ext. intros k h Hh. destruct (persist_inv_value _ _ _ _ _ P (persist_inv_key _ _ _ _ _ P Hh)) as (Hb & _ & n & Hn & H1 & H2 & _ & Hd). apply (entry_agree _ _ _ n); [lia..|done|by apply Ha].
Qed.

(** A write into an area that holds a value. *)
Lemma store_in_value (s : PersistState) (blocks : list (Z * list pkey)) (areas : gmap Z Z) (h n p : Z) (b : bytes) : layout s blocks areas -> areas !! h = Some n -> ~ (h ∈ blocks.*1) -> 4104 <= h -> h - 4 <= p -> p + lenZ b <= h + n ->
  let f := splice (ps_file s) p b in ps_store s p b = Ret (set_file s f) /\ layout (set_file s f) blocks areas /\ lenZ f = lenZ (ps_file s) /\ (forall h' n', areas !! h' = Some n' -> h' <> h -> agree (ps_file s) f (h' - 8) (h' + n')) /\ (forall x y, 0 <= x -> y <= p \/ p + lenZ b <= x -> agree (ps_file s) f x y).
Proof.
  intros L Hh Hb H0 Hp Hl f. pose proof L as []. pose proof (layout_below _ _ _ _ _ L Hh) as Bh. pose proof (lenZ_nonneg b) as Hn. destruct lo_size as (S1 & S2 & S3). assert (Hf : lenZ f = lenZ (ps_file s)) by (apply splice_lenZ; lia).
  assert (Ax : forall x y, 0 <= x -> y <= p \/ p + lenZ b <= x -> agree (ps_file s) f x y) by (intros x y Hx Hy; apply agree_splice; lia).
  assert (Ao : forall h' n', areas !! h' = Some n' -> h' <> h -> agree (ps_file s) f (h' - 8) (h' + n')) by (intros h' n' Hh' Hne; pose proof (layout_below _ _ _ _ _ L Hh'); apply Ax; [lia|]; destruct (layout_apart _ _ _ _ _ _ _ L Hh Hh' ltac:(congruence)); lia).
  split_and!; try done; [apply ps_store_ok; try done; lia|]. apply (layout_move s); cbn; try done; try lia.
  - intros i Hi. rewrite <- (Ax (current_ofs s) (current_size s)) by lia. by apply lo_zero.
  - apply Ax; lia.
  - intros c Hc. pose proof (layout_block _ _ _ _ L Hc) as Ec. pose proof (layout_below _ _ _ _ _ L Ec). apply (agree_sub _ _ _ _ _ _ (Ao c _ Ec ltac:(congruence))); lia.
  - intros h' n' Hh' _. pose proof (layout_below _ _ _ _ _ L Hh'). destruct (decide (h' = h)) as [->|Hne]; [apply Ax; lia|]. apply (agree_sub _ _ _ _ _ _ (Ao h' n' Hh' Hne)); lia.
Qed.

(** A handle that no key has. *)
Definition fresh_handle (blocks : list (Z * list pkey)) (areas : gmap Z Z) (h n : Z) : Prop := areas !! h = Some n /\ 4104 <= h /\ ~ (h ∈ blocks.*1) /\ ~ (h ∈ (keys_of blocks).*2).

Lemma stale_kept (s s' : PersistState) (blocks : list (Z * list pkey)) (areas : gmap Z Z) : persist_inv s blocks areas -> kept (ps_file s) (ps_file s') blocks areas -> forall k h, (k, h) ∈ keys_of blocks -> entry_at (ps_file s') h = entry_at (ps_file s) h.
Proof. intros P Ha k h Hin. destruct (persist_inv_value _ _ _ _ _ P Hin) as (Hb & _ & n & Hn & H1 & H2 & _ & Hd). apply (entry_agree _ _ _ n); [lia..|done|by apply Ha]. Qed.
Lemma persist_inv_kept (s s' : PersistState) (blocks : list (Z * list pkey)) (areas areas' : gmap Z Z) : persist_inv s blocks areas -> layout s' blocks areas' -> mapped_counter s' = 0 -> ps_mode s' = ps_mode s -> ps_version s' = ps_version s -> keys s' = keys s -> kept (ps_file s) (ps_file s') blocks areas -> persist_inv s' blocks areas'.
Proof.
  intros P L C M V K Ha. pose proof (stale_kept s s' _ _ P Ha) as Hs. destruct P. split; [done|done|congruence..|]. intros k h Hin. rewrite K, (Hs k h Hin). by apply pi_stale0.
Qed.
(** The entry of one handle changes. *)
Lemma persist_inv_store (s : PersistState) (blocks : list (Z * list pkey)) (areas : gmap Z Z) (h n p : Z) (b : bytes) (k : bytes) : persist_inv s blocks areas -> areas !! h = Some n -> ~ (h ∈ blocks.*1) -> 4104 <= h -> h - 4 <= p -> p + lenZ b <= h + n ->
  (h ∈ (keys_of blocks).*2 -> keys s !! k = Some h) ->
  let f := splice (ps_file s) p b in ps_store s p b = Ret (set_file s f) /\ persist_inv (set_file s f) blocks areas /\ lenZ f = lenZ (ps_file s) /\ (forall x y, 0 <= x -> y <= p \/ p + lenZ b <= x -> agree (ps_file s) f x y) /\ (forall k' h', (k', h') ∈ keys_of blocks -> h' <> h -> entry_at f h' = entry_at (ps_file s) h').
Proof.
  intros P Hh Hb H0 Hp Hl Hk f. pose proof P as [L C M V K S]. destruct (store_in_value s blocks areas h n p b L Hh Hb H0 Hp Hl) as (E & L' & Hf & Ho & Hx). fold f in E, L', Hf, Ho, Hx.
  assert (He : forall k' h', (k', h') ∈ keys_of blocks -> h' <> h -> entry_at f h' = entry_at (ps_file s) h') by (intros k' h' Hin Hne; destruct (persist_inv_value _ _ _ _ _ P Hin) as (_ & _ & n' & Hn' & ? & ? & _ & Hd); apply (entry_agree _ _ _ n'); [lia..|done|by apply Ho]).
  split_and!; try done. split; try done. cbn [keys set_file ps_file]. intros k' h' Hin Hne. destruct (decide (h' = h)) as [->|Hd]; [|rewrite (He k' h') by done; by apply (S k')]. assert (h ∈ (keys_of blocks).*2) as Hi by (apply list_elem_of_fmap; by exists (k', h)). specialize (Hk Hi). pose proof (persist_inv_key _ _ _ _ _ P Hk) as Hin2. assert (k' = k) as -> by (apply (handle_name (keys_of blocks) k' k h); [apply L|done..]). done.
Qed.
Lemma view_store (s : PersistState) (blocks : list (Z * list pkey)) (areas : gmap Z Z) (k : bytes) (h : Z) (f : bytes) : persist_inv s blocks areas -> keys s !! k = Some h -> (forall k' h', (k', h') ∈ keys_of blocks -> h' <> h -> entry_at f h' = entry_at (ps_file s) h') -> view (set_file s f) = <[k := entry_at f h]> (view s).
Proof.
  intros P Hk He. unfold view. cbn [keys set_file ps_file]. apply map_eq. intros k'. destruct (decide (k' = k)) as [->|Hne]; [by rewrite lookup_insert_eq, lookup_fmap, Hk|]. rewrite lookup_insert_ne, !lookup_fmap by done. destruct (keys s !! k') as [h'|] eqn:E; [|done]. cbn. f_equal. pose proof (persist_inv_key _ _ _ _ _ P E) as Hin. apply (He k' h' Hin). intros ->. apply Hne. apply (handle_name (keys_of blocks) k' k h); [apply P|done|by eapply persist_inv_key].
Qed.

(** The parts of an entry. *)
Lemma entry_header (f : bytes) (h n iu ver : Z) : 8 <= h -> 0 <= n < 2 ^ 32 -> here f (h - 8) (value_header n iu ver) -> entry_at f h = mkEntry (slice f h n) (u8 ver) (bool_decide (u8 iu <> 0)).
Proof.
  intros Hh Hn H. unfold value_header in H. assert (H1 := H). apply here_app in H1 as [H1 _]; [|lia]. unfold entry_at. rewrite (value_size f h n) by done.
  assert (E4 : f !!! Z.to_nat (h - 4) = u8 iu). { rewrite list_lookup_total_alt. pose proof (here_lookup f (h - 8) _ 4 (u8 iu) ltac:(lia) H ltac:(by rewrite lookup_app_r by (rewrite be_bytes_length; lia); rewrite be_bytes_length)) as K. by replace (Z.to_nat (h - 4)) with (Z.to_nat (h - 8) + 4)%nat by lia; rewrite K. }
  assert (E5 : f !!! Z.to_nat (h - 3) = u8 ver). { rewrite list_lookup_total_alt. pose proof (here_lookup f (h - 8) _ 5 (u8 ver) ltac:(lia) H ltac:(by rewrite lookup_app_r by (rewrite be_bytes_length; lia); rewrite be_bytes_length)) as K. by replace (Z.to_nat (h - 3)) with (Z.to_nat (h - 8) + 5)%nat by lia; rewrite K. }
  by rewrite E4, E5.
Qed.
(** Writing into the value, or the mark of use. *)
Lemma entry_written (f b : bytes) (h n o : Z) : 8 <= h -> 0 <= n < 2 ^ 32 -> here f (h - 8) (be_bytes 4 n) -> h + n <= lenZ f -> 0 <= o -> o + lenZ b <= n ->
  entry_at (splice f (h + o) b) h = mkEntry (splice (pe_value (entry_at f h)) o b) (pe_version (entry_at f h)) (pe_in_use (entry_at f h)).
Proof.
  intros Hh Hn Hd Hl Ho Hb. pose proof (lenZ_nonneg b) as Hb0. assert (A : agree f (splice f (h + o) b) (h - 8) h) by (apply agree_splice; lia). unfold entry_at. cbn [pe_value pe_version pe_in_use]. rewrite (value_size f h n) by done. rewrite (value_size _ h n); [|done|apply (here_agree f); [lia|rewrite be_bytes_lenZ; apply (agree_sub _ _ _ _ _ _ A); lia|done]].
  rewrite !list_lookup_total_alt, <- (A (h - 3)), <- (A (h - 4)) by lia. f_equal. apply list_eq. intros i. destruct (decide (i < Z.to_nat n)%nat) as [Hi|Hi].
  - unfold slice at 1. rewrite lookup_take_lt, lookup_drop by done. replace (Z.to_nat h + i)%nat with (Z.to_nat (h + Z.of_nat i)) by lia. set (v := slice f h n). assert (Lv : lenZ v = n) by (apply slice_length; lia). assert (Ev : forall j, (j < Z.to_nat n)%nat -> v !! j = f !! (Z.to_nat h + j)%nat) by (intros j Hj; unfold v, slice; by rewrite lookup_take_lt, lookup_drop by done).
    destruct (Z.lt_ge_cases (Z.of_nat i) o) as [Hlt|Hge]; [|destruct (Z.lt_ge_cases (Z.of_nat i) (o + lenZ b)) as [Hlt2|Hge2]].
    + rewrite <- (agree_splice f b (h + o) h (h + o)) by lia. rewrite <- (Nat2Z.id i) at 2. rewrite <- (agree_splice v b o 0 o) by lia. rewrite Nat2Z.id, Ev by done. f_equal. lia.
    + rewrite splice_lookup by lia. rewrite <- (Nat2Z.id i) at 2. rewrite splice_lookup by lia. f_equal. lia.
    + rewrite <- (agree_splice f b (h + o) (h + o + lenZ b) (h + n)) by lia. rewrite <- (Nat2Z.id i) at 2. rewrite <- (agree_splice v b o (o + lenZ b) n) by lia. rewrite Nat2Z.id, Ev by done. f_equal. lia.
  - rewrite !lookup_ge_None_2; [done| |]; [|unfold slice; rewrite length_take; lia]. enough (lenZ (splice (slice f h n) o b) = n) as E by (unfold lenZ in E; lia). rewrite splice_lenZ; rewrite ?slice_length; lia.
Qed.
Lemma entry_marked (f : bytes) (h n v : Z) : 8 <= h -> 0 <= n < 2 ^ 32 -> here f (h - 8) (be_bytes 4 n) -> h + n <= lenZ f -> entry_at (splice f (h - 4) [v]) h = mkEntry (pe_value (entry_at f h)) (pe_version (entry_at f h)) (bool_decide (v <> 0)).
Proof.
  intros Hh Hn Hd Hl. assert (A : forall x y, 0 <= x -> y <= h - 4 \/ h - 3 <= x -> agree f (splice f (h - 4) [v]) x y) by (intros x y Hx Hy; apply agree_splice; change (lenZ [v]) with 1; lia). unfold entry_at. cbn [pe_value pe_version pe_in_use]. rewrite (value_size f h n) by done. rewrite (value_size _ h n); [|done|apply (here_agree f); [lia|rewrite be_bytes_lenZ; apply A; lia|done]].
  rewrite <- (agree_slice f _ h n) by (lia || apply A; lia). rewrite !list_lookup_total_alt, <- (A (h - 3) (h - 2) ltac:(lia) ltac:(lia) (h - 3)) by lia. rewrite splice_lookup by (change (lenZ [v]) with 1; lia). by rewrite Z.sub_diag.
Qed.

Section system.
Context (pgsize : Z) (pwrite : Z -> option Z) (mmap : Z -> bool).
Hypothesis Hpage : exists k, pgsize = 2 ^ k /\ 12 <= k <= 16.
Hypothesis Hpwrite : forall n, pwrite n = None.
Hypothesis Hmmap : forall n, mmap n = true.

Lemma fresh_value (s : PersistState) (blocks : list (Z * list pkey)) (areas : gmap Z Z) (size iu ver : Z) : persist_inv s blocks areas -> 0 <= size <= 4096 -> current_ofs s + 2 ^ 18 < 2 ^ 31 ->
  exists s' h, persist_state_alloc_value pgsize pwrite mmap s size iu ver = Ret (h, s') /\ persist_inv s' blocks (<[h := size]> areas) /\ fresh_handle blocks (<[h := size]> areas) h size /\ entry_at (ps_file s') h = mkEntry (zeros size) (u8 ver) (bool_decide (u8 iu <> 0)) /\
    view s' = view s /\ keys s' = keys s /\ ps_renamed s' = ps_renamed s /\ current_ofs s' <= current_ofs s + 4104.
Proof.
  intros P Hn Hb. pose proof P as [L C M V K S]. pose proof L as []. destruct (alloc_value_ok pgsize pwrite mmap Hpage Hpwrite Hmmap s blocks areas size iu ver L C Hn Hb) as (s' & E & L' & (R1 & R2 & R3 & R4 & R5 & R6 & R7 & R8) & O & A & H1 & H2).
  pose proof (round8_ok size Hn) as [Hr _]. set (h := current_ofs s + 8) in *. assert (Hne : forall x m, areas !! x = Some m -> x < h) by (intros x m Ex; pose proof (layout_below _ _ _ _ _ L Ex); lia).
  assert (Kp : kept (ps_file s) (ps_file s') blocks areas) by (intros x m Ex _; pose proof (layout_below _ _ _ _ _ L Ex); apply (agree_sub _ _ _ _ _ _ A); lia).
  exists s', h. split_and!; [done| | | | |done..|lia].
  - apply (persist_inv_kept s s' blocks areas); congruence || done.
  - split_and!; [apply lookup_insert_eq|lia| |].
    + intros Hin. pose proof (Hne _ _ (layout_block _ _ _ _ L Hin)). lia.
    + intros (k & Ek & Hin)%list_elem_of_fmap. destruct lo_values as [Vs _]. rewrite Forall_forall in Vs. destruct (Vs k Hin) as ([m Em] & _ & _). rewrite <- Ek in Em. apply Hne in Em. lia.
  - rewrite (entry_header _ h size iu ver); [|lia..|by replace (h - 8) with (current_ofs s) by lia]. f_equal. unfold here in H2. by rewrite zeros_len in H2 by lia.
  - by apply (view_kept s s' blocks areas).
Qed.

Lemma write_value (s : PersistState) (blocks : list (Z * list pkey)) (areas : gmap Z Z) (h n o : Z) (b k : bytes) : persist_inv s blocks areas -> areas !! h = Some n -> ~ (h ∈ blocks.*1) -> 4104 <= h -> 0 <= o -> o + lenZ b <= n -> current_ofs s < 2 ^ 31 -> (h ∈ (keys_of blocks).*2 -> keys s !! k = Some h) ->
  exists f, write_entry s h o b = Ret (set_file s f) /\ persist_inv (set_file s f) blocks areas /\ entry_at f h = mkEntry (splice (pe_value (entry_at (ps_file s) h)) o b) (pe_version (entry_at (ps_file s) h)) (pe_in_use (entry_at (ps_file s) h)) /\
    (forall k' h', (k', h') ∈ keys_of blocks -> h' <> h -> entry_at f h' = entry_at (ps_file s) h').
Proof.
  intros P Hh Hb H0 Ho Hl Hs Hk. pose proof P as [L C M V K S]. pose proof L as []. pose proof (layout_below _ _ _ _ _ L Hh) as Bh. destruct lo_size as (S1 & S2 & S3). destruct (persist_inv_store s blocks areas h n (h + o) b k P Hh Hb H0 ltac:(lia) ltac:(lia) Hk) as (E & P' & _ & Hx & He). eexists. split_and!; [|exact P'| |exact He].
  - unfold write_entry, persist_state_map_entry. rewrite u32_small by lia. rewrite ps_store_ok by (done || cbn; lia). cbn [obind]. f_equal. apply unmap_map.
  - apply (entry_written _ _ _ n); try lia. destruct (lo_area _ _ Hh) as [_ [[? _]|?]]; [unfold INITIAL_KEY_STORE in *; lia|tauto].
Qed.

Lemma key_added (s : PersistState) (blocks : list (Z * list pkey)) (areas : gmap Z Z) (key : bytes) (h n : Z) : persist_inv s blocks areas -> fresh_handle blocks areas h n -> valid_key key -> (forall e, view s !! key = Some e -> pe_in_use e = false) -> current_ofs s + 2 ^ 18 < 2 ^ 31 -> lenZ (keys_of blocks) < 2 ^ 31 ->
  exists s' blocks' areas', persist_state_add_key pgsize pwrite mmap s key h = Ret (true, s') /\ persist_inv s' blocks' areas' /\ keys_of blocks' = keys_of blocks ++ [(key, h)] /\ view s' = <[key := entry_at (ps_file s) h]> (view s) /\ keys s' = <[key := h]> (keys s) /\ ps_renamed s' = ps_renamed s /\ current_ofs s' <= current_ofs s + 4104.
Proof.
  intros P (Hh & H0 & Hnb & Hnk) Hk Hu Hb Hc. pose proof P as [L C M V K S]. destruct (add_key_ok pgsize pwrite mmap Hpage Hpwrite Hmmap s blocks areas key h n L C Hk Hh Hnb Hnk Hb Hc) as (s' & blocks' & areas' & E & L' & Ek & Hsub & K' & V' & R' & C' & M' & O' & Kp).
  assert (He : entry_at (ps_file s') h = entry_at (ps_file s) h). { pose proof L as []. destruct (lo_area _ _ Hh) as [? [[? _]|(? & ? & Hd)]]; [unfold INITIAL_KEY_STORE in *; lia|]. apply (entry_agree _ _ _ n); [lia..|done|by apply Kp]. }
  pose proof (stale_kept s s' _ _ P Kp) as Hs. exists s', blocks', areas'. split_and!; try done.
  - split; try congruence; try done.
    + by rewrite K', Ek, reverse_snoc, K.
    + intros k x. rewrite Ek, K'. intros [Hin|[= -> ->]%list_elem_of_singleton]%elem_of_app Hne; [|by rewrite lookup_insert_eq in Hne]. rewrite (Hs k x Hin). destruct (decide (k = key)) as [->|Hd]; [|rewrite lookup_insert_ne in Hne by done; by apply (S k)]. destruct (decide (keys s !! key = Some x)) as [Ex|Ex]; [|by apply (S key)]. apply Hu. unfold view. by rewrite lookup_fmap, Ex.
  - unfold view. rewrite K'. apply map_eq. intros k. rewrite lookup_fmap. destruct (decide (k = key)) as [->|Hd]; [rewrite !lookup_insert_eq; cbn; by rewrite He|]. rewrite !lookup_insert_ne, lookup_fmap by done. destruct (keys s !! k) as [x|] eqn:Ex; [|done]. cbn. f_equal. apply (Hs k). by eapply persist_inv_key.
Qed.

(** ** Entries *)

(** The mark of use. *)
Lemma mark_ok (s : PersistState) (blocks : list (Z * list pkey)) (areas : gmap Z Z) (k : bytes) (h v : Z) (e : pentry) : persist_inv s blocks areas -> keys s !! k = Some h -> view s !! k = Some e -> current_ofs s < 2 ^ 31 ->
  let f := splice (ps_file s) (h - 4) [v] in set_in_use (set_counter s (mapped_counter s + 1)) (u32 (h - 8)) v = Ret (set_file (set_counter s (mapped_counter s + 1)) f) /\ persist_inv (set_file s f) blocks areas /\ view (set_file s f) = <[k := mkEntry (pe_value e) (pe_version e) (bool_decide (v <> 0))]> (view s) /\ (forall x y, 0 <= x -> y <= h - 4 \/ h - 3 <= x -> agree (ps_file s) f x y).
Proof.
  intros P Hk He Hb f. pose proof P as [L C M V K S]. destruct (persist_inv_value _ _ _ _ _ P (persist_inv_key _ _ _ _ _ P Hk)) as (Hnb & _ & n & Hn & H1 & H2 & H3 & Hd). destruct (lo_size _ _ _ L) as (S1 & S2 & S3).
  destruct (persist_inv_store s blocks areas h n (h - 4) [v] k P Hn Hnb H1 ltac:(lia) ltac:(change (lenZ [v]) with 1; lia) ltac:(done)) as (E & P' & _ & Hx & Ho). split_and!; [|done| |intros x y ? ?; apply Hx; [lia|change (lenZ [v]) with 1; lia]].
  - unfold set_in_use. rewrite u32_small by lia. replace (h - 8 + 4) with (h - 4) by lia. apply ps_store_ok; [apply L|cbn; lia|lia|change (lenZ [v]) with 1; cbn; lia].
  - rewrite (view_store s blocks areas k h f P Hk Ho). f_equal. unfold view in He. rewrite lookup_fmap, Hk in He. injection He as <-. apply (entry_marked _ _ n); lia || done.
Qed.

Lemma alloc_entry_ok (s : PersistState) (blocks : list (Z * list pkey)) (areas : gmap Z Z) (k : bytes) (size : Z) : persist_inv s blocks areas -> valid_key k -> 0 <= size <= 4096 -> current_ofs s + 2 ^ 18 + 4104 < 2 ^ 31 -> lenZ (keys_of blocks) < 2 ^ 31 ->
  exists s' blocks' areas' h, persist_state_alloc_entry pgsize pwrite mmap s k size = Ret (h, s') /\ h <> 0 /\ persist_inv s' blocks' areas' /\ view s' = <[k := mkEntry (zeros size) 4 true]> (view s) /\ keys s' !! k = Some h /\ lenZ (keys_of blocks') = lenZ (keys_of blocks) + 1 /\ ps_renamed s' = ps_renamed s /\ current_ofs s' <= current_ofs s + 8208.
Proof.
  intros P Hk Hn Hb Hc. unfold persist_state_alloc_entry, persist_state_lookup_key.
  assert (exists s1, (match keys s !! k with Some handle => let '(header, self) := persist_state_map_entry s (handle - VALUE_HEADER) in let! self := set_in_use self header 0 in Ret (persist_state_unmap_entry self) | None => Ret s end) = Ret s1 /\ persist_inv s1 blocks areas /\ (forall e, view s1 !! k = Some e -> pe_in_use e = false) /\ (forall e, <[k := e]> (view s1) = <[k := e]> (view s)) /\ current_ofs s1 = current_ofs s /\ ps_renamed s1 = ps_renamed s) as (s1 & -> & P1 & U1 & V1 & O1 & R1).
  { destruct (keys s !! k) as [h|] eqn:Eh.
    - assert (Ev : view s !! k = Some (entry_at (ps_file s) h)) by (unfold view; by rewrite lookup_fmap, Eh). destruct (mark_ok s blocks areas k h 0 _ P Eh Ev ltac:(lia)) as (E & P1 & V1 & _). unfold persist_state_map_entry, VALUE_HEADER. rewrite E. cbn [obind]. rewrite unmap_map. eexists. split; [done|]. split; [done|]. rewrite V1. split_and!; [|intros e; apply insert_insert_eq|done..]. intros e. rewrite lookup_insert_eq. by intros [= <-].
    - exists s. split_and!; try done. intros e. unfold view. by rewrite lookup_fmap, Eh. }
  cbn [obind]. rewrite u32_small by lia. rewrite (pi_version _ _ _ P1). destruct (fresh_value s1 blocks areas size 1 4 P1 Hn ltac:(lia)) as (s2 & h & -> & P2 & F2 & E2 & V2 & K2 & R2 & O2). cbn [obind]. rewrite bool_decide_eq_false_2 by (destruct F2; lia).
  destruct (key_added s2 blocks _ k h size P2 F2 Hk ltac:(by rewrite V2) ltac:(lia) Hc) as (s3 & blocks3 & areas3 & -> & P3 & K3 & V3 & Kk3 & R3 & O3). cbn [obind]. exists s3, blocks3, areas3, h. split_and!; try done.
  - destruct F2; lia.
  - by rewrite V3, V2, E2, V1.
  - by rewrite Kk3, lookup_insert_eq.
  - by rewrite K3, lenZ_app.
  - congruence.
  - lia.
Qed.

Lemma lookup_entry_ok (s : PersistState) (blocks : list (Z * list pkey)) (areas : gmap Z Z) (k : bytes) : persist_inv s blocks areas -> current_ofs s + 2 ^ 18 < 2 ^ 31 ->
  match view s !! k with
  | None => persist_state_lookup_entry s k = Ret (None, s)
  | Some e => exists h f, persist_state_lookup_entry s k = Ret (Some (h, lenZ (pe_value e), pe_version e), set_file s f) /\ persist_inv (set_file s f) blocks areas /\ view (set_file s f) = <[k := mkEntry (pe_value e) (pe_version e) true]> (view s) /\ read_entry (set_file s f) h 0 (lenZ (pe_value e)) = Ret (pe_value e, set_file s f)
  end.
Proof.
  intros P Hb. destruct (view s !! k) as [e|] eqn:Ev.
  - unfold view in Ev. rewrite lookup_fmap in Ev. destruct (keys s !! k) as [h|] eqn:Eh; [|done]. pose proof Ev as Ee. injection Ee as Ee. assert (Ev' : view s !! k = Some e) by (unfold view; by rewrite lookup_fmap, Eh). destruct (mark_ok s blocks areas k h 1 e P Eh Ev' ltac:(lia)) as (E & P1 & V1 & A). set (f := splice _ _ _) in *.
    pose proof P as [L C M V K S]. destruct (persist_inv_value _ _ _ _ _ P (persist_inv_key _ _ _ _ _ P Eh)) as (Hnb & _ & n & Hn & H1 & H2 & H3 & Hd). destruct (lo_size _ _ _ L) as (S1 & S2 & S3). assert (Ln : lenZ (pe_value e) = n) by (rewrite <- Ee; unfold entry_at; cbn [pe_value]; rewrite (value_size _ _ n), slice_length by (done || lia); done). pose proof (value_size _ _ n ltac:(lia) Hd) as Sz.
    assert (Hf : lenZ f = lenZ (ps_file s)) by (unfold f; rewrite splice_lenZ; change (lenZ [1]) with 1; lia). exists h, f. split_and!; [|done..|].
    + unfold persist_state_lookup_entry, persist_state_lookup_key, persist_state_map_entry, VALUE_HEADER. rewrite Eh, bool_decide_eq_false_2 by lia. rewrite E. rewrite u32_small by lia. unfold get_value_size. rewrite ps_load_ok by (first [done|exact (lo_map _ _ _ L)|cbn; lia]). cbn [obind ps_file set_counter]. rewrite Sz. rewrite u32_small by lia. cbn [current_size set_counter]. rewrite bool_decide_eq_false_2 by lia. cbn [obind]. rewrite ps_load_ok by (first [done|exact (lo_map _ _ _ L)|cbn; lia]). cbn [obind ps_file set_file]. rewrite (bool_decide_eq_false_2 (h = 0)) by lia. rewrite unmap_map, Ln. do 4 f_equal. rewrite <- Ee. cbn [pe_version entry_at]. replace (h - 8 + 5) with (h - 3) by lia.
      rewrite <- (agree_slice (ps_file s) f (h - 3) 1) by (lia || apply A; lia). destruct (lookup_lt_is_Some_2 (ps_file s) (Z.to_nat (h - 3)) ltac:(unfold lenZ in *; lia)) as [x Hx]. pose proof (lookup_here (ps_file s) (h - 3) x ltac:(lia) Hx) as Hh. unfold here in Hh. change (lenZ [x]) with 1 in Hh. rewrite Hh, list_lookup_total_alt, Hx. cbn [be_value]. change (256 ^ lenZ []) with 1. change (x * 1 + 0 = x). lia.
    + unfold read_entry, persist_state_map_entry. rewrite u32_small by lia. rewrite Z.add_0_r. rewrite ps_load_ok by (first [done|exact (lo_map _ _ _ L)|cbn; lia]). cbn [obind ps_file set_file set_counter]. rewrite <- (agree_slice (ps_file s) f h) by (lia || apply A; lia). f_equal. f_equal; [|unfold persist_state_unmap_entry, set_counter, set_file; cbn; f_equal; lia]. rewrite <- Ee at 2. unfold entry_at. cbn [pe_value]. by rewrite Sz, Ln.
  - unfold persist_state_lookup_entry, persist_state_lookup_key. unfold view in Ev. rewrite lookup_fmap in Ev. by destruct (keys s !! k).
Qed.
End system.
