(* ===== verification/PersistClaims.v ===== *)
(** * The persistent state as a map of names, over stops between calls and starts *)
From S2P Require Import Prelude Serialize NVTableSerialize NVTableSerializeInv PersistState PersistInv PersistOps.

(** ** The specification *)

(** At a start the entries that were used since the start before are taken over, as not used. *)
Definition unused (e : pentry) : pentry := mkEntry (pe_value e) (u8 (pe_version e)) false.
Definition taken_over (a : gmap bytes pentry) : gmap bytes pentry := unused <$> filter (fun x => pe_in_use x.2 = true) a.

(** The entries now, and those of the file that the next start reads, as long as the new one is not renamed. *)
Record persist_spec := mkSpec { sp_now : gmap bytes pentry; sp_old : gmap bytes pentry; sp_renamed : bool }.
Definition sp_visible (a : persist_spec) : gmap bytes pentry := if sp_renamed a then sp_now a else sp_old a.
Definition sp_put (a : persist_spec) (k : bytes) (e : pentry) : persist_spec := mkSpec (<[k := e]> (sp_now a)) (sp_old a) (sp_renamed a).

Inductive persist_op :=
| PAlloc (k : bytes) (size : Z) | PWrite (k : bytes) (ofs : Z) (b : bytes) | PRead (k : bytes)
| PAllocString (k value : bytes) | PReadString (k : bytes) | PCommit | PRestart.

Definition sp_step (op : persist_op) (a : persist_spec) : option (bytes * Z) * persist_spec :=
  match op with
  | PAlloc k size => (Some ([], 0), sp_put a k (mkEntry (zeros size) 4 true))
  | PWrite k ofs b => (None, match sp_now a !! k with Some e => sp_put a k (mkEntry (splice (pe_value e) ofs b) (pe_version e) (pe_in_use e)) | None => a end)
  | PRead k => match sp_now a !! k with Some e => (Some (pe_value e, pe_version e), sp_put a k (mkEntry (pe_value e) (pe_version e) true)) | None => (None, a) end
  | PAllocString k value => (None, sp_put a k (mkEntry (string_enc value) 4 true))
  | PReadString k => match sp_now a !! k with Some e => (Some (drop 4 (pe_value e), pe_version e), sp_put a k (mkEntry (pe_value e) (pe_version e) true)) | None => (None, a) end
  | PCommit => (None, mkSpec (sp_now a) (sp_old a) true)
  | PRestart => (None, mkSpec (taken_over (sp_visible a)) (sp_visible a) false)
  end.
(** Names of 1 to 4080 bytes, values of up to 4096; writes inside the value; strings are read where strings are. *)
Definition op_ok (op : persist_op) (a : persist_spec) : Prop :=
  match op with
  | PAlloc k size => valid_key k /\ 0 <= size <= 4096
  | PWrite k ofs b => forall e, sp_now a !! k = Some e -> 0 <= ofs /\ ofs + lenZ b <= lenZ (pe_value e)
  | PAllocString k value => valid_key k /\ Forall (fun c => c <> 0) value /\ lenZ value <= 4092
  | PReadString k => forall e, sp_now a !! k = Some e -> exists v, pe_value e = string_enc v
  | _ => True
  end.
Fixpoint sp_run (ops : list persist_op) (a : persist_spec) : list (option (bytes * Z)) * persist_spec :=
  match ops with [] => ([], a) | op :: ops => let '(r, a) := sp_step op a in let '(l, a) := sp_run ops a in (r :: l, a) end.
Fixpoint ops_ok (ops : list persist_op) (a : persist_spec) : Prop :=
  match ops with [] => True | op :: ops => op_ok op a /\ ops_ok ops (sp_step op a).2 end.
Definition sp_init : persist_spec := mkSpec ∅ ∅ false.

(** ** Loading *)

Definition loaded (f : bytes) (l : list pkey) : gmap bytes pentry :=
  foldl (fun m (k : pkey) => if pe_in_use (entry_at f k.2) then <[k.1 := unused (entry_at f k.2)]> m else m) ∅ l.
Lemma loaded_snoc (f : bytes) (l : list pkey) (k : pkey) : loaded f (l ++ [k]) = if pe_in_use (entry_at f k.2) then <[k.1 := unused (entry_at f k.2)]> (loaded f l) else loaded f l.
Proof. unfold loaded. by rewrite foldl_app. Qed.
Lemma loaded_unused (f : bytes) (l : list pkey) (k : bytes) (e : pentry) : loaded f l !! k = Some e -> pe_in_use e = false.
Proof.
  induction l as [|x l IH] using rev_ind; [unfold loaded; cbn [foldl]; by rewrite lookup_empty|]. rewrite loaded_snoc. destruct (pe_in_use (entry_at f x.2)); [|done]. intros [[_ <-]|[_ H]]%lookup_insert_Some; [done|by apply IH].
Qed.
(** Of each name one entry at most is in use: the one that the table has. *)
Lemma loaded_all (s : PersistState) (blocks : list (Z * list pkey)) (areas : gmap Z Z) : persist_inv s blocks areas -> loaded (ps_file s) (keys_of blocks) = taken_over (view s).
Proof.
  intros P. assert (H : forall l, (forall x, x ∈ l -> x ∈ keys_of blocks) -> forall k, loaded (ps_file s) l !! k = match keys s !! k with Some h => if bool_decide ((k, h) ∈ l) && pe_in_use (entry_at (ps_file s) h) then Some (unused (entry_at (ps_file s) h)) else None | None => None end).
  { induction l as [|[k0 h0] l IH] using rev_ind; intros Hl k.
    - unfold loaded. cbn [foldl]. rewrite lookup_empty. destruct (keys s !! k); [|done]. rewrite bool_decide_eq_false_2; [done|]. by intros ?%elem_of_nil.
    - rewrite loaded_snoc. cbn [fst snd]. specialize (IH ltac:(intros x Hx; apply Hl; set_solver)). assert (Hin : (k0, h0) ∈ keys_of blocks) by (apply Hl; set_solver). destruct (pe_in_use (entry_at (ps_file s) h0)) eqn:U.
      + assert (Ek : keys s !! k0 = Some h0) by (destruct (decide (keys s !! k0 = Some h0)); [done|]; by rewrite (pi_stale _ _ _ P k0 h0) in U). destruct (decide (k = k0)) as [->|Hne]; [rewrite lookup_insert_eq, Ek, U, bool_decide_eq_true_2 by set_solver; done|]. rewrite lookup_insert_ne, IH by done. destruct (keys s !! k) as [h|]; [|done]. assert (bool_decide ((k, h) ∈ l ++ [(k0, h0)]) = bool_decide ((k, h) ∈ l)) as -> by (apply bool_decide_ext; rewrite elem_of_app, list_elem_of_singleton; naive_solver). done.
      + rewrite IH. destruct (keys s !! k) as [h|]; [|done]. destruct (decide (h = h0)) as [->|Hne]; [by rewrite U, !andb_false_r|]. assert (bool_decide ((k, h) ∈ l ++ [(k0, h0)]) = bool_decide ((k, h) ∈ l)) as -> by (apply bool_decide_ext; rewrite elem_of_app, list_elem_of_singleton; naive_solver). done. }
  apply map_eq. intros k. rewrite H by done. unfold taken_over, view. rewrite lookup_fmap. destruct (keys s !! k) as [h|] eqn:E.
  - rewrite bool_decide_eq_true_2 by (by eapply persist_inv_key). cbn [andb]. destruct (pe_in_use (entry_at (ps_file s) h)) eqn:U.
    + rewrite (map_lookup_filter_Some_2 _ _ k (entry_at (ps_file s) h)); [done|by rewrite lookup_fmap, E|done].
    + rewrite map_lookup_filter_None_2; [done|]. right. intros e. rewrite lookup_fmap, E. intros [= <-] Hc. cbn [snd] in Hc. congruence.
  - rewrite map_lookup_filter_None_2; [done|]. left. by rewrite lookup_fmap, E.
Qed.

Section system.
Context (pgsize : Z) (pwrite : Z -> option Z) (mmap : Z -> bool) (try_alloc : Z -> bool).
Hypothesis Hpage : exists k, pgsize = 2 ^ k /\ 12 <= k <= 16.
Hypothesis Hpwrite : forall n, pwrite n = None.
Hypothesis Hmmap : forall n, mmap n = true.
Hypothesis Halloc : forall n, try_alloc n = true.

(** Room for [c] keys: a value and a block of keys for each. *)
Definition roomy (s : PersistState) (blocks : list (Z * list pkey)) (c : Z) : Prop := current_ofs s <= 4096 + 8208 * lenZ (keys_of blocks) /\ lenZ (keys_of blocks) <= c.

Lemma copy_value_ok (s : PersistState) (blocks : list (Z * list pkey)) (areas : gmap Z Z) (k value : bytes) (ver c : Z) : persist_inv s blocks areas -> roomy s blocks c -> c < 200000 -> valid_key k -> lenZ value <= 4096 -> (forall e, view s !! k = Some e -> pe_in_use e = false) ->
  exists s' blocks' areas', copy_value pgsize pwrite mmap s k value (lenZ value) ver = Ret s' /\ persist_inv s' blocks' areas' /\ view s' = <[k := mkEntry value (u8 ver) false]> (view s) /\ roomy s' blocks' (c + 1) /\ ps_renamed s' = ps_renamed s.
Proof.
  intros P [R1 R2] Hc Hk Hv Hu. pose proof (lenZ_nonneg value) as Hv0. unfold copy_value. destruct (fresh_value pgsize pwrite mmap Hpage Hpwrite Hmmap s blocks areas (lenZ value) 0 ver P ltac:(lia) ltac:(lia)) as (s1 & h & -> & P1 & F1 & E1 & V1 & K1 & Rn1 & O1). cbn [obind]. pose proof F1 as (Hh & H0 & Hnb & Hnk).
  destruct (write_value s1 blocks _ h (lenZ value) 0 value k P1 Hh Hnb H0 ltac:(lia) ltac:(lia) ltac:(lia) ltac:(by intros ?)) as (f & -> & P2 & E2 & Ho). cbn [obind]. rewrite E1 in E2. cbn [pe_value pe_version pe_in_use] in E2. change (bool_decide (u8 0 <> 0)) with false in E2.
  assert (Es : splice (zeros (lenZ value)) 0 value = value) by (unfold splice; cbn; rewrite drop_ge, app_nil_r by (unfold zeros; rewrite length_replicate; unfold lenZ; lia); done). rewrite Es in E2.
  assert (V2 : view (set_file s1 f) = view s). { rewrite <- V1. unfold view. cbn [keys set_file ps_file]. apply map_fmap_ext. intros k' h' Hk'. pose proof (persist_inv_key _ _ _ _ _ P1 Hk') as Hin. apply (Ho k' h' Hin). intros ->. apply Hnk. apply list_elem_of_fmap. by exists (k', h). }
  destruct (key_added pgsize pwrite mmap Hpage Hpwrite Hmmap (set_file s1 f) blocks _ k h _ P2 F1 Hk ltac:(by rewrite V2) ltac:(cbn; lia) ltac:(lia)) as (s3 & blocks3 & areas3 & -> & P3 & K3 & V3 & _ & Rn3 & O3). cbn [obind ps_file set_file current_ofs ps_renamed] in *. exists s3, blocks3, areas3. split_and!; [done..| | |congruence].
  - by rewrite V3, V2, E2.
  - unfold roomy. rewrite K3, lenZ_app. change (lenZ [(k, h)]) with 1. lia.
Qed.

Lemma start_ok : exists s blocks areas, persist_state_create_store pgsize pwrite mmap true persist_state_new = Ret (true, s) /\ persist_inv s blocks areas /\ view s = ∅ /\ keys_of blocks = [] /\ roomy s blocks 0 /\ ps_renamed s = false.
Proof.
  unfold persist_state_create_store. set (s0 := set_key_block _ _ _ _). destruct (grow_ok pgsize pwrite mmap Hpage Hpwrite Hmmap s0 PERSIST_FILE_INITIAL_SIZE) as (cs & Hcs & H8 & E); [done..|]. rewrite E. change (current_size s0) with 0. change (ps_file s0) with (@nil Z). rewrite Z.sub_0_r. unfold PERSIST_FILE_INITIAL_SIZE in Hcs. set (f := splice _ _ SLP4). set (g := splice [] 0 (zeros cs)) in f. assert (Eg : g = zeros cs) by (unfold g, splice; cbn; by rewrite drop_nil, app_nil_r).
  assert (Lg : lenZ g = cs) by (rewrite Eg; apply zeros_len; lia). assert (Lf : lenZ f = cs) by (unfold f; rewrite splice_lenZ; [done|done|]; change (lenZ SLP4) with 4; lia).
  assert (Z0 : forall i, 4 <= i < cs -> f !! Z.to_nat i = Some 0). { intros i Hi. unfold f. rewrite <- (agree_splice g SLP4 0 4 cs) by (lia || (change (lenZ SLP4) with 4; lia)). rewrite Eg. unfold zeros. apply lookup_replicate_2. lia. }
  eexists _, [(INITIAL_KEY_STORE, [])], {[INITIAL_KEY_STORE := INITIAL_KEY_SIZE]}. split; [done|]. split_and!; [|done|done|split; done|done]. split; try done; [|by intros k h ?%elem_of_nil]. split; cbn [current_map current_ofs current_size ps_file set_mapping set_file set_key_block s0 persist_state_new current_key_block current_key_ofs current_key_size]; try done.
  - split_and!; [unfold FILE_HEADER; lia..|done|done].
  - intros i Hi. apply Z0. unfold FILE_HEADER in *. lia.
  - unfold here. change (lenZ (be_bytes 4 (lenZ (keys_of [(INITIAL_KEY_STORE, [])])))) with 4. rewrite zeros_here; [done..|]. intros i Hi. apply Z0. lia.
  - by exists [], INITIAL_KEY_STORE, [].
  - intros h n [<- <-]%lookup_singleton_Some. split; [done|by left].
  - intros h n h' n' [<- <-]%lookup_singleton_Some [<- <-]%lookup_singleton_Some. lia.
  - split_and!; [|apply NoDup_singleton|done]. constructor; [|done]. apply lookup_singleton_eq.
  - split; constructor.
Qed.

Lemma map_load (f : bytes) (p n : Z) : 0 <= p -> 0 <= n -> p + n <= lenZ f -> load (mapped_file pgsize f) p n = Ret (slice f p n).
Proof.
  intros Hp Hn Hl. unfold mapped_file. rewrite load_ok by (done || rewrite lenZ_app; pose proof (lenZ_nonneg (zeros (- lenZ f mod pgsize))); lia). f_equal. unfold slice. rewrite drop_app_le, take_app_le; [done|rewrite length_drop|]; unfold lenZ in *; lia.
Qed.
Lemma read_key (sa : SerializeArchive) (k : pkey) (rest : bytes) : archive_wf sa -> ar_error sa = false -> lenZ k.1 < 2 ^ 31 -> 0 <= k.2 < 2 ^ 32 -> drop (Z.to_nat (ar_pos sa)) (ar_data sa) = key_enc k ++ rest ->
  exists sa1 sa2, serialize_read_cstring try_alloc sa = (Some k.1, sa1) /\ serialize_read_uint32 sa1 = (Some k.2, sa2) /\ archive_wf sa2 /\ ar_error sa2 = false /\ drop (Z.to_nat (ar_pos sa2)) (ar_data sa2) = rest.
Proof.
  intros W E Hk Hh Hd. unfold key_enc in Hd. rewrite <- app_assoc in Hd. pose proof (co_read _ (codec_cstring_ok try_alloc) sa k.1 _ W E ltac:(cbn; split; [lia|apply Halloc]) Hd) as R. cbn [codec_cstring c_read c_enc] in R. destruct (advance_at sa _ _ W Hd) as [W1 D1].
  eexists _, _. split; [exact R|]. split; [by apply (read_uint32_at _ k.2 rest)|]. destruct (advance_be _ 4 k.2 rest W1 D1). done.
Qed.
(** One key of the old file. *)
Lemma load_entry_ok (s0 s : PersistState) (blocks0 blocks : list (Z * list pkey)) (areas0 areas : gmap Z Z) (k : pkey) (c : Z) : persist_inv s0 blocks0 areas0 -> persist_inv s blocks areas -> roomy s blocks c -> c < 200000 -> k ∈ keys_of blocks0 -> current_ofs s0 < 2 ^ 31 -> (forall x e, view s !! x = Some e -> pe_in_use e = false) ->
  exists s' blocks' areas', load_entry pgsize pwrite mmap s (mapped_file pgsize (ps_file s0)) (lenZ (ps_file s0)) k.1 k.2 = Ret (Some s') /\ persist_inv s' blocks' areas' /\ view s' = (if pe_in_use (entry_at (ps_file s0) k.2) then <[k.1 := unused (entry_at (ps_file s0) k.2)]> (view s) else view s) /\ roomy s' blocks' (c + 1) /\ ps_renamed s' = ps_renamed s.
Proof.
  intros P0 P R Hc Hin Hb Hu. destruct k as [k h]. destruct (persist_inv_value _ _ _ _ _ P0 Hin) as (_ & Hk & n & Hn & H1 & H2 & H3 & Hd). destruct (lo_size _ _ _ (pi_layout _ _ _ P0)) as (S1 & S2 & S3). set (f := ps_file s0) in *. cbn [fst snd]. unfold load_entry, FILE_HEADER, VALUE_HEADER. rewrite bool_decide_eq_false_2 by lia. rewrite map_load by lia. cbn [obind].
  pose proof (value_size _ _ n ltac:(lia) Hd) as Sz. set (hd := slice f (h - 8) 8). assert (E0 : take 4 hd = slice f (h - 8) 4) by (unfold hd, slice; by rewrite take_take). rewrite E0, Sz. assert (Hg : forall j, (j < 8)%nat -> hd !!! j = f !!! Z.to_nat (h - 8 + Z.of_nat j)) by (intros j Hj; rewrite !list_lookup_total_alt; unfold hd, slice; rewrite lookup_take_lt, lookup_drop by lia; do 2 f_equal; lia).
  rewrite (Hg 4%nat), (Hg 5%nat) by lia. replace (h - 8 + Z.of_nat 4) with (h - 4) by lia. replace (h - 8 + Z.of_nat 5) with (h - 3) by lia. rewrite (pi_mode _ _ _ P). cbn [entry_at pe_in_use]. destruct (bool_decide_reflect (f !!! Z.to_nat (h - 4) <> 0)) as [U|U].
  - rewrite bool_decide_eq_true_2 by (by left). rewrite map_load by lia. cbn [obind]. set (v := slice f h n). assert (Lv : lenZ v = n) by (apply slice_length; lia). rewrite <- Lv. destruct (copy_value_ok s blocks areas k v (f !!! Z.to_nat (h - 3)) c P R Hc Hk ltac:(lia) ltac:(apply Hu)) as (s' & blocks' & areas' & -> & P' & V' & R' & Rn'). cbn [obind]. exists s', blocks', areas'. split_and!; try done. rewrite V'. unfold unused, entry_at. cbn [pe_value pe_version]. by rewrite Sz.
  - rewrite bool_decide_eq_false_2 by tauto. exists s, blocks, areas. split_and!; try done. destruct R. split; [done|lia].
Qed.

(** The key blocks that follow. *)
Definition in_file (f : bytes) (b : Z) : Prop := 8 <= b /\ b + 4096 <= lenZ f < 2 ^ 31 /\ here f (b - 8) (be_bytes 4 4096) /\ bsize b = 4096.
Lemma load_keys_ok (s0 : PersistState) (blocks0 : list (Z * list pkey)) (areas0 : gmap Z Z) : persist_inv s0 blocks0 areas0 -> current_ofs s0 < 2 ^ 31 -> lenZ (keys_of blocks0) <= 200000 -> forall fuel more ks l s blocks areas sa rest,
  keys_of blocks0 = l ++ ks ++ keys_of more -> archive_wf sa -> ar_error sa = false -> drop (Z.to_nat (ar_pos sa)) (ar_data sa) = keys_enc ks ++ match more with [] => [] | (b, _) :: _ => link b end ++ rest -> key_chain (ps_file s0) more -> Forall (in_file (ps_file s0)) (more.*1) ->
  persist_inv s blocks areas -> view s = loaded (ps_file s0) l -> roomy s blocks (lenZ l) -> (length ks + length (keys_of more) + length more < fuel)%nat ->
  exists s' blocks' areas', load_keys pgsize pwrite mmap try_alloc fuel s (mapped_file pgsize (ps_file s0)) (lenZ (ps_file s0)) (lenZ (keys_of blocks0)) (lenZ l) sa = Ret s' /\ persist_inv s' blocks' areas' /\ view s' = loaded (ps_file s0) (keys_of blocks0) /\ roomy s' blocks' (lenZ (keys_of blocks0)) /\ ps_renamed s' = ps_renamed s.
Proof.
  intros P0 Hb Hk0. set (f := ps_file s0). induction fuel as [|fuel IH]; [lia|]. intros more ks l s blocks areas sa rest Ek W E Hd Hch Hin P V R Hf. cbn [load_keys]. destruct ks as [|k ks].
  - destruct more as [|[b ks'] more]; cbn [app] in *.
    + rewrite bool_decide_eq_false_2 by (rewrite Ek; unfold keys_of; cbn; rewrite app_nil_r; lia). unfold keys_of in Ek. cbn in Ek. rewrite app_nil_r in Ek. exists s, blocks, areas. fold (keys_of blocks0) in Ek. rewrite Ek. done.
    + case_bool.
      * rewrite fmap_cons in Hin. apply Forall_cons in Hin as [(B1 & B2 & B3 & B4) Hin]. cbn [fst] in B1, B2, B3, B4. change (keys_enc []) with (@nil Z) in Hd. cbn [app] in Hd. destruct Hch as (C1 & C2 & C3 & C4). change (link b) with (key_enc ([], b)) in Hd. destruct (read_key sa ([], b) rest W E ltac:(done) ltac:(cbn [snd]; lia) Hd) as (sa1 & sa2 & -> & -> & _ & _ & _). cbn [fst snd]. change (bool_decide (c_string [] <> [])) with false. cbn iota. unfold load_chain, VALUE_HEADER. rewrite bool_decide_eq_false_2 by lia. rewrite map_load by lia. cbn [obind].
        rewrite (value_size f b 4096) by done. rewrite u32_small by lia. rewrite bool_decide_eq_false_2 by lia. rewrite map_load by lia. cbn [obind]. pose proof (lenZ_nonneg (keys_enc ks')) as Hn. set (blk := slice f b 4096). assert (Lb : lenZ blk = 4096) by (apply slice_length; lia).
        assert (Hblk : exists rest', blk = keys_enc ks' ++ match more with [] => [] | (b', _) :: _ => link b' end ++ rest').
        { destruct more as [|[b' ks''] more].
          - exists (slice f (b + lenZ (keys_enc ks')) (4096 - lenZ (keys_enc ks'))). unfold here in C1. rewrite <- C1 at 1. cbn [app]. rewrite <- slice_app by lia. unfold blk. f_equal. lia.
          - exists (slice f (b + lenZ (keys_enc ks') + 8) (4096 - lenZ (keys_enc ks') - 8)). unfold here in C1, C3. change (lenZ (link b')) with 8 in C3. rewrite <- C1 at 1. rewrite <- C3. rewrite app_assoc, <- slice_app, <- Z.add_assoc, <- slice_app by lia. unfold blk. f_equal. lia. }
        destruct Hblk as [rest' Hblk]. rewrite B4 in C2. eapply (IH more ks' l s blocks areas (serialize_buffer_archive_new blk) rest'); try done; [split; cbn; lia|]. change (keys_of ((b, ks') :: more)) with (ks' ++ keys_of more) in Hf. rewrite length_app in Hf. cbn [length] in Hf. lia.
      * exists s, blocks, areas. assert (keys_of ((b, ks') :: more) = []) as Ez by (apply lenZ_zero_nil; rewrite Ek, lenZ_app in Hb0; pose proof (lenZ_nonneg (keys_of ((b, ks') :: more))); lia). rewrite Ez, app_nil_r in Ek. by rewrite Ek.
  - assert (Hin0 : k ∈ keys_of blocks0) by (rewrite Ek; set_solver). destruct k as [k h]. destruct (persist_inv_value _ _ _ _ _ P0 Hin0) as (_ & Hk & n & Hn & H1 & H2 & H3 & Hdd). pose proof Hk as (Hk1 & Hk2 & Hk3). rewrite bool_decide_eq_true_2 by (rewrite Ek, !lenZ_app, lenZ_cons; pose proof (lenZ_nonneg ks); pose proof (lenZ_nonneg (keys_of more)); lia).
    assert (Ec : keys_enc ((k, h) :: ks) = key_enc (k, h) ++ keys_enc ks) by done. rewrite Ec, <- app_assoc in Hd. destruct (read_key sa (k, h) _ W E ltac:(cbn [fst]; lia) ltac:(cbn [snd]; lia) Hd) as (sa1 & sa2 & -> & -> & W2 & E2 & D2). cbn [fst snd]. rewrite c_string_id by done. rewrite bool_decide_eq_true_2 by done. cbn iota.
    assert (Hl : lenZ l < 200000) by (assert (lenZ (keys_of blocks0) = lenZ l + (1 + lenZ ks + lenZ (keys_of more))) by (by rewrite Ek, !lenZ_app, lenZ_cons, Z.add_assoc); pose proof (lenZ_nonneg ks); pose proof (lenZ_nonneg (keys_of more)); lia).
    destruct (load_entry_ok s0 s blocks0 blocks areas0 areas (k, h) (lenZ l) P0 P R Hl Hin0 Hb ltac:(rewrite V; apply loaded_unused)) as (s' & blocks' & areas' & E' & P' & V' & R' & Rn'). cbn [fst snd] in E'. fold f in E'. rewrite E'. cbn [obind]. assert (El : lenZ (l ++ [(k, h)]) = lenZ l + 1) by (by rewrite lenZ_app). rewrite <- El in R' |- *.
    destruct (IH more ks (l ++ [(k, h)]) s' blocks' areas' sa2 rest) as (s2 & blocks2 & areas2 & E3 & P3 & V3 & R3 & Rn3); try done.
    + by rewrite <- app_assoc.
    + rewrite loaded_snoc, V', V. done.
    + cbn in Hf. lia.
    + exists s2, blocks2, areas2. split_and!; try done. congruence.
Qed.

Lemma nodup_bound (l : list Z) (n : Z) : NoDup l -> Forall (fun x => 0 <= x < n) l -> (length l <= Z.to_nat n)%nat.
Proof.
  intros N F. rewrite <- (length_seqZ 0 n). apply submseteq_length, NoDup_submseteq; [done|]. intros x Hx. rewrite Forall_forall in F. apply elem_of_seqZ. specialize (F x Hx). lia.
Qed.

Lemma restart_ok (s0 : PersistState) (blocks0 : list (Z * list pkey)) (areas0 : gmap Z Z) (c : Z) (junk : bytes) : persist_inv s0 blocks0 areas0 -> roomy s0 blocks0 c -> c <= 200000 -> length junk = 4%nat ->
  exists s blocks areas, persist_state_start pgsize pwrite mmap try_alloc true persist_state_new junk (Some (ps_file s0)) = Ret (true, s) /\ persist_inv s blocks areas /\ view s = taken_over (view s0) /\ roomy s blocks c /\ ps_renamed s = false.
Proof.
  intros P0 [R1 R2] Hc Hj. destruct start_ok as (s & blocks & areas & E & P & V & K & R & Rn). unfold persist_state_start. rewrite E. cbn [obind]. pose proof P0 as [L _ _ _ _ _]. pose proof L as []. destruct lo_size as (S1 & S2 & S3), lo_blocks as (B1 & B2 & B3). set (f := ps_file s0) in *. pose proof (lenZ_nonneg (keys_of blocks0)) as Hk0.
  assert (Hm : take 4 f ++ drop (length f) junk = SLP4) by (rewrite (drop_ge junk), app_nil_r by (unfold lenZ in *; lia); exact lo_magic). unfold persist_state_load. rewrite Hm. change (bool_decide (take 3 SLP4 <> bytes_of_string "SLP")) with false. change (SLP4 !!! 3%nat - 48) with 4. cbn iota. change (bool_decide (2 <= 4 <= 3)) with false. change (bool_decide (4 = 4)) with true. cbn iota.
  unfold persist_state_load_v4. rewrite bool_decide_eq_false_2 by lia. rewrite Hmmap. cbn [negb]. rewrite map_load by lia. cbn [obind]. assert (Hcnt : be_value (slice f 8 4) = lenZ (keys_of blocks0)). { unfold here in lo_count. rewrite be_bytes_lenZ in lo_count. change (Z.of_nat 4) with 4 in lo_count. rewrite lo_count. apply be_value_small. change (256 ^ Z.of_nat 4) with (2 ^ 32). lia. }
  rewrite Hcnt, s32_small by lia. unfold INITIAL_KEY_STORE, INITIAL_KEY_SIZE in *. rewrite map_load by lia. cbn [obind]. destruct blocks0 as [|[b ks] more]; [done|]. cbn [fmap list_fmap fst hd] in B3. subst b. cbn [fmap list_fmap fst] in B1, B2. apply NoDup_cons in B2 as [B2 B4]. apply Forall_cons in B1 as [_ B1]. destruct lo_chain as (C1 & C2 & C3 & C4). change (bsize 64) with 4032 in C2. pose proof (lenZ_nonneg (keys_enc ks)) as Hn.
  set (blk := slice f 64 4032). assert (Hblk : exists rest, blk = keys_enc ks ++ match more with [] => [] | (b', _) :: _ => link b' end ++ rest).
  { destruct more as [|[b' ks''] more].
    - exists (slice f (64 + lenZ (keys_enc ks)) (4032 - lenZ (keys_enc ks))). unfold here in C1. rewrite <- C1 at 1. cbn [app]. rewrite <- slice_app by lia. unfold blk. f_equal. lia.
    - exists (slice f (64 + lenZ (keys_enc ks) + 8) (4032 - lenZ (keys_enc ks) - 8)). unfold here in C1, C3. change (lenZ (link b')) with 8 in C3. rewrite <- C1 at 1. rewrite <- C3. rewrite app_assoc, <- slice_app, <- Z.add_assoc, <- slice_app by lia. unfold blk. f_equal. lia. }
  destruct Hblk as [rest Hblk]. assert (Hin : Forall (in_file f) (more.*1)).
  { apply Forall_forall. intros b Hb. rewrite Forall_forall in B1. specialize (B1 b Hb). assert (Hne : b <> 64) by (intros ->; by apply B2). assert (Sz : bsize b = 4096) by (unfold bsize; by rewrite bool_decide_eq_false_2). rewrite Sz in B1. destruct (lo_area b _ B1) as [_ [[? _]|(? & ? & ?)]]; [done|]. split_and!; [lia..|done|done]. }
  edestruct (load_keys_ok s0 ((64, ks) :: more) areas0 P0 ltac:(lia) ltac:(lia) (load_fuel (lenZ (keys_of ((64, ks) :: more))) (lenZ f)) more ks [] s blocks areas (serialize_buffer_archive_new blk) rest) as (s' & blocks' & areas' & E' & P' & V' & R' & Rn'); try done.
  - split; cbn; unfold blk; rewrite slice_length by lia; lia.
  - assert (length more <= Z.to_nat (lenZ f))%nat. { rewrite <- (length_fmap fst). apply nodup_bound; [done|]. eapply Forall_impl; [exact Hin|]. intros b (? & ? & _). lia. } unfold load_fuel. change (keys_of ((64, ks) :: more)) with (ks ++ keys_of more). unfold lenZ. rewrite length_app, !Nat2Z.id. unfold lenZ in *. nia.
  - fold f in E'. rewrite (lenZ_nil (A := list Z * Z)) in E'. rewrite E'. cbn [obind]. exists s', blocks', areas'. split_and!; [done..| | |congruence].
    + rewrite V'. by apply loaded_all with areas0.
    + destruct R'. split; [done|lia].
Qed.

(** ** A program that uses the state *)

(** The new file, and the one that the last run left. *)
Definition visible (w : PersistState * option bytes) : option bytes := if ps_renamed w.1 then Some (ps_file w.1) else w.2.
(** Entries are looked up, or written where they were found; a restart, after the end of the process at any
    time, starts from the file that is there. *)
Definition persist_step (junk : bytes) (op : persist_op) (w : PersistState * option bytes) : outcome (option (bytes * Z) * (PersistState * option bytes)) :=
  let '(s, disk) := w in
  match op with
  | PAlloc k size => let! (h, s) := persist_state_alloc_entry pgsize pwrite mmap s k size in Ret (if bool_decide (h = 0) then None else Some ([], 0), (s, disk))
  | PWrite k ofs b => match persist_state_lookup_key s k with Some h => let! s := write_entry s h ofs b in Ret (None, (s, disk)) | None => Ret (None, w) end
  | PRead k =>
      let! (r, s) := persist_state_lookup_entry s k in
      match r with Some (h, size, version) => let! (b, s) := read_entry s h 0 size in Ret (Some (b, version), (s, disk)) | None => Ret (None, (s, disk)) end
  | PAllocString k value => let! s := persist_state_alloc_string pgsize pwrite mmap s k value (-1) in Ret (None, (s, disk))
  | PReadString k => let! (r, s) := persist_state_lookup_string try_alloc s k in Ret (r, (s, disk))
  | PCommit => let! (_, s) := persist_state_commit true s in Ret (None, (s, disk))
  | PRestart => let! (_, s) := persist_state_start pgsize pwrite mmap try_alloc true persist_state_new junk (visible w) in Ret (None, (s, visible w))
  end.
Fixpoint persist_run (junk : bytes) (ops : list persist_op) (w : PersistState * option bytes) : outcome (list (option (bytes * Z)) * (PersistState * option bytes)) :=
  match ops with
  | [] => Ret ([], w)
  | op :: ops => let! (r, w) := persist_step junk op w in let! (l, w) := persist_run junk ops w in Ret (r :: l, w)
  end.

Definition old_ok (a : gmap bytes pentry) (disk : option bytes) (c : Z) : Prop :=
  match disk with None => a = ∅ | Some f => exists s blocks areas, persist_inv s blocks areas /\ ps_file s = f /\ view s = a /\ roomy s blocks c end.
Definition sim (w : PersistState * option bytes) (a : persist_spec) (c : Z) : Prop :=
  (exists blocks areas, persist_inv w.1 blocks areas /\ roomy w.1 blocks c) /\ view w.1 = sp_now a /\ ps_renamed w.1 = sp_renamed a /\ old_ok (sp_visible a) (visible w) c.

Lemma roomy_more (s : PersistState) (blocks : list (Z * list pkey)) (c c' : Z) : roomy s blocks c -> c <= c' -> roomy s blocks c'.
Proof. intros [? ?] ?. split; [done|lia]. Qed.
Lemma old_more (a : gmap bytes pentry) (disk : option bytes) (c c' : Z) : old_ok a disk c -> c <= c' -> old_ok a disk c'.
Proof. destruct disk; [|done]. intros (s & bl & ar & P & F & V & R) Hc. exists s, bl, ar. split_and!; try done. by eapply roomy_more. Qed.
(** What is visible after a change of the new file. *)
Lemma sim_put (s s' : PersistState) (disk : option bytes) (a : persist_spec) (c c' : Z) (k : bytes) (e : pentry) (blocks' : list (Z * list pkey)) (areas' : gmap Z Z) : sim (s, disk) a c -> c <= c' -> persist_inv s' blocks' areas' -> roomy s' blocks' c' -> view s' = <[k := e]> (view s) -> ps_renamed s' = ps_renamed s -> sim (s', disk) (sp_put a k e) c'.
Proof.
  intros (_ & V & Rn & O) Hc P' R' V' Rn'. cbn [fst] in V, Rn. split_and!; cbn; [by eauto|congruence|congruence|]. unfold visible, sp_visible, sp_put in *. cbn in *. rewrite Rn', Rn in *. destruct (sp_renamed a); [|by eapply old_more]. exists s', blocks', areas'. split_and!; try done. congruence.
Qed.
Lemma write_keyed (s : PersistState) (blocks : list (Z * list pkey)) (areas : gmap Z Z) (k : bytes) (h o : Z) (e : pentry) (b : bytes) : persist_inv s blocks areas -> keys s !! k = Some h -> view s !! k = Some e -> 0 <= o -> o + lenZ b <= lenZ (pe_value e) -> current_ofs s < 2 ^ 31 ->
  exists f, write_entry s h o b = Ret (set_file s f) /\ persist_inv (set_file s f) blocks areas /\ view (set_file s f) = <[k := mkEntry (splice (pe_value e) o b) (pe_version e) (pe_in_use e)]> (view s).
Proof.
  intros P Hk He Ho Hl Hb. destruct (persist_inv_value _ _ _ _ _ P (persist_inv_key _ _ _ _ _ P Hk)) as (Hnb & _ & n & Hn & H1 & H2 & H3 & Hd). destruct (lo_size _ _ _ (pi_layout _ _ _ P)) as (S1 & S2 & S3). unfold view in He. rewrite lookup_fmap, Hk in He. injection He as <-. unfold entry_at in Hl. cbn [pe_value] in Hl. rewrite (value_size _ _ n), slice_length in Hl by (done || lia).
  destruct (write_value s blocks areas h n o b k P Hn Hnb H1 Ho Hl Hb ltac:(done)) as (f & E & P' & E' & Ho'). exists f. split_and!; [done..|]. rewrite (view_store s blocks areas k h f P Hk Ho'). by rewrite E'.
Qed.
Lemma value_bound (s : PersistState) (blocks : list (Z * list pkey)) (areas : gmap Z Z) (k : bytes) (e : pentry) : persist_inv s blocks areas -> view s !! k = Some e -> lenZ (pe_value e) <= 4096.
Proof.
  intros P He. unfold view in He. rewrite lookup_fmap in He. destruct (keys s !! k) as [h|] eqn:Hk; [|done]. injection He as <-. destruct (persist_inv_value _ _ _ _ _ P (persist_inv_key _ _ _ _ _ P Hk)) as (Hnb & _ & n & Hn & H1 & H2 & H3 & Hd). destruct (lo_size _ _ _ (pi_layout _ _ _ P)) as (S1 & S2 & S3). unfold entry_at. cbn [pe_value]. rewrite (value_size _ _ n), slice_length by (done || lia). lia.
Qed.

Lemma sim_same (w : PersistState * option bytes) (a : persist_spec) (c c' : Z) : sim w a c -> c <= c' -> sim w a c'.
Proof. intros ((bl & ar & P & R) & V & Rn & O) Hc. split_and!; [|done..|by eapply old_more]. exists bl, ar. split; [done|by eapply roomy_more]. Qed.

Lemma lookup_step (s : PersistState) (disk : option bytes) (a : persist_spec) (c : Z) (k : bytes) : sim (s, disk) a c -> c < 200000 ->
  match sp_now a !! k with
  | None => persist_state_lookup_entry s k = Ret (None, s)
  | Some e => lenZ (pe_value e) <= 4096 /\ exists h s', persist_state_lookup_entry s k = Ret (Some (h, lenZ (pe_value e), pe_version e), s') /\ read_entry s' h 0 (lenZ (pe_value e)) = Ret (pe_value e, s') /\ sim (s', disk) (sp_put a k (mkEntry (pe_value e) (pe_version e) true)) (c + 1)
  end.
Proof.
  intros Hs Hc. pose proof Hs as ((bl & ar & P & [R1 R2]) & V & Rn & O). cbn [fst] in *. pose proof (lookup_entry_ok s bl ar k P ltac:(lia)) as H. rewrite V in H. destruct (sp_now a !! k) as [e|] eqn:Ee; [|done]. destruct H as (h & f & E & P' & V' & Rd). split; [apply (value_bound s bl ar k e P); by rewrite V|]. exists h, (set_file s f). split_and!; [done..|]. apply (sim_put s (set_file s f) disk a c (c + 1) k _ bl ar Hs ltac:(lia) P'); [split; cbn; lia|by rewrite V', V|done].
Qed.

Lemma persist_step_ok (junk : bytes) (op : persist_op) (w : PersistState * option bytes) (a : persist_spec) (c : Z) : sim w a c -> c < 200000 -> length junk = 4%nat -> op_ok op a ->
  exists w', persist_step junk op w = Ret ((sp_step op a).1, w') /\ sim w' (sp_step op a).2 (c + 1).
Proof.
  intros Hs Hc Hj Hop. destruct w as [s disk]. pose proof Hs as ((bl & ar & P & R) & V & Rn & O). pose proof R as [R1 R2]. cbn [fst] in *. destruct op as [k size|k ofs b|k|k value|k| |]; cbn [persist_step sp_step op_ok] in *.
  - destruct Hop as [Hk Hn]. destruct (alloc_entry_ok pgsize pwrite mmap Hpage Hpwrite Hmmap s bl ar k size P Hk Hn ltac:(lia) ltac:(lia)) as (s' & bl' & ar' & h & -> & Hh & P' & V' & _ & Kl & Rn' & O'). cbn [obind]. rewrite bool_decide_eq_false_2 by done. eexists. split; [done|]. cbn [snd]. apply (sim_put s s' disk a c (c + 1) k _ bl' ar' Hs ltac:(lia) P'); [split; lia|done..].
  - unfold persist_state_lookup_key. rewrite <- V in *. destruct (keys s !! k) as [h|] eqn:Hk.
    + assert (Ev : view s !! k = Some (entry_at (ps_file s) h)) by (unfold view; by rewrite lookup_fmap, Hk). rewrite Ev. destruct (Hop _ Ev) as [Ho Hl]. destruct (write_keyed s bl ar k h ofs _ b P Hk Ev Ho Hl ltac:(lia)) as (f & -> & P' & V'). cbn [obind]. eexists. split; [done|]. cbn [snd]. apply (sim_put s (set_file s f) disk a c (c + 1) k _ bl ar Hs ltac:(lia) P'); [split; cbn; lia|done..].
    + assert (Ev : view s !! k = None) by (unfold view; by rewrite lookup_fmap, Hk). rewrite Ev. eexists. split; [done|]. eapply sim_same; [exact Hs|lia].
  - pose proof (lookup_step s disk a c k Hs Hc) as H. destruct (sp_now a !! k) as [e|].
    + destruct H as (_ & h & s' & -> & Rd & S'). cbn [obind]. rewrite Rd. cbn [obind]. by eexists.
    + rewrite H. cbn [obind]. eexists. split; [done|]. eapply sim_same; [exact Hs|lia].
  - destruct Hop as (Hk & Hv & Hl). pose proof (lenZ_nonneg value) as Hv0. unfold persist_state_alloc_string. rewrite bool_decide_eq_true_2, c_string_id by done. assert (Ls : lenZ (string_enc value) = lenZ value + 4) by (unfold string_enc; rewrite lenZ_app, be_bytes_lenZ; lia).
    pose proof (co_write _ (codec_cstring_ok try_alloc) (serialize_string_archive_new []) value ltac:(by split; cbn) eq_refl ltac:(cbn; split; [lia|apply Halloc]) I ltac:(cbn [codec_cstring c_enc serialize_string_archive_new ar_data]; rewrite Ls, lenZ_nil; lia)) as Ew. cbn [codec_cstring c_write c_enc] in Ew. rewrite Ew. cbn [g_assert obind push serialize_string_archive_new ar_kind ar_data app]. rewrite Ls.
    destruct (alloc_entry_ok pgsize pwrite mmap Hpage Hpwrite Hmmap s bl ar k (lenZ value + 4) P Hk ltac:(lia) ltac:(lia) ltac:(lia)) as (s' & bl' & ar' & h & -> & Hh & P' & V' & Kh & Kl & Rn' & O'). cbn [obind]. assert (Lz : lenZ (zeros (lenZ value + 4)) = lenZ value + 4) by (apply zeros_len; lia).
    destruct (write_keyed s' bl' ar' k h 0 _ (string_enc value) P' Kh ltac:(by rewrite V', lookup_insert_eq) ltac:(lia) ltac:(cbn [pe_value]; rewrite Ls, Lz; lia) ltac:(lia)) as (f & -> & P2 & V2). cbn [obind]. eexists. split; [done|]. cbn [snd]. cbn [pe_value pe_version pe_in_use] in V2. assert (Es : splice (zeros (lenZ value + 4)) 0 (string_enc value) = string_enc value) by (unfold splice; cbn [Z.to_nat take app Nat.add]; rewrite drop_ge, app_nil_r by (unfold lenZ in *; lia); done). rewrite Es, V', insert_insert_eq in V2.
    apply (sim_put s (set_file s' f) disk a c (c + 1) k _ bl' ar' Hs ltac:(lia) P2); [split; cbn; lia|done..].
  - unfold persist_state_lookup_string. pose proof (lookup_step s disk a c k Hs Hc) as H. destruct (sp_now a !! k) as [e|].
    + destruct H as (Hlen & h & s' & -> & Rd & S'). cbn [obind]. rewrite Rd. cbn [obind]. destruct (Hop e eq_refl) as [v Ev]. assert (Lv : lenZ (pe_value e) = lenZ v + 4) by (rewrite Ev; unfold string_enc; rewrite lenZ_app, be_bytes_lenZ; lia). pose proof (lenZ_nonneg v).
      pose proof (co_read _ (codec_cstring_ok try_alloc) (serialize_buffer_archive_new (pe_value e)) v [] ltac:(split; cbn; lia) eq_refl ltac:(cbn; split; [lia|apply Halloc]) ltac:(cbn; by rewrite app_nil_r)) as Er. cbn [codec_cstring c_read c_enc] in Er. rewrite Er. cbn [fst]. eexists. split; [|exact S']. rewrite Ev. unfold string_enc. by rewrite drop_app_length' by (by rewrite be_bytes_length).
    + rewrite H. cbn [obind]. eexists. split; [done|]. eapply sim_same; [exact Hs|lia].
  - unfold persist_state_commit. rewrite (pi_mode _ _ _ P). cbn. eexists. split; [done|]. split_and!; cbn; [|done|done|].
    + exists bl, ar. split; [|split; cbn; lia]. destruct P. split; try done. by apply (layout_files s).
    + exists (set_renamed s true), bl, ar. split_and!; try done; [|split; cbn; lia]. destruct P. split; try done. by apply (layout_files s).
  - unfold visible in *. cbn [fst snd] in *. destruct (if ps_renamed s then Some (ps_file s) else disk) as [f|] eqn:Ef; cbn [old_ok] in O.
    + destruct O as (s0 & bl0 & ar0 & P0 & F0 & V0 & R0). destruct (restart_ok s0 bl0 ar0 c junk P0 R0 ltac:(lia) Hj) as (s' & bl' & ar' & E & P' & V' & R' & Rn'). rewrite F0 in E. rewrite E. cbn [obind]. eexists. split; [done|]. split_and!; cbn; [|by rewrite V', V0|done|].
      * exists bl', ar'. split; [done|]. by eapply roomy_more; [exact R'|lia].
      * unfold visible. cbn. rewrite Rn'. exists s0, bl0, ar0. split_and!; try done. by eapply roomy_more; [exact R0|lia].
    + destruct start_ok as (s' & bl' & ar' & E & P' & V' & K' & R' & Rn'). unfold persist_state_start. rewrite E. cbn [obind persist_state_load]. eexists. split; [done|]. split_and!; cbn; [|by rewrite V', O|done|].
      * exists bl', ar'. split; [done|]. eapply roomy_more; [exact R'|]. destruct R. pose proof (lenZ_nonneg (keys_of bl)). lia.
      * unfold visible. cbn. by rewrite Rn'.
Qed.

Lemma persist_run_ok (junk : bytes) (ops : list persist_op) : length junk = 4%nat -> forall w a c, sim w a c -> c + lenZ ops <= 200000 -> ops_ok ops a -> exists w', persist_run junk ops w = Ret ((sp_run ops a).1, w') /\ sim w' (sp_run ops a).2 (c + lenZ ops).
Proof.
  intros Hj. induction ops as [|op ops IH]; intros w a c Hs Hc Ho; cbn [persist_run sp_run ops_ok] in *; [exists w; split; [done|]; by rewrite lenZ_nil, Z.add_0_r|]. rewrite lenZ_cons in Hc. pose proof (lenZ_nonneg ops). destruct Ho as [Ho1 Ho2]. destruct (persist_step_ok junk op w a c Hs ltac:(lia) Hj Ho1) as (w1 & -> & S1). destruct (sp_step op a) as [r a1]. cbn [obind fst snd] in *. destruct (IH w1 a1 (c + 1) S1 ltac:(lia) Ho2) as (w2 & -> & S2). destruct (sp_run ops a1) as [l a2]. cbn [obind fst snd] in *. exists w2. split; [done|]. rewrite lenZ_cons. by replace (c + (1 + lenZ ops)) with (c + 1 + lenZ ops) by lia.
Qed.
End system.

(** C40: the persistent state.  A program that allocates, writes and reads entries and strings, commits
    the file and is stopped and started again between these calls, in any order, sees a map of names: a read gives what was
    written last, and after a start the entries of the file that is there which were used since
    the start before are back, with their values and versions, and the others are gone.  No call touches memory
    outside the file.  [pwrite], [mmap] and the allocation of memory succeed.  Names have up to 4080 bytes and values up to 4096,
    writes stay inside the entry, strings are read where strings were put, and there are at most 200000 calls.  Two things are left out:
    a stop inside a call ([persist_state_alloc_entry] takes the old entry out of use before the
    key of the new one is written, so that a stop in between loses both), and renaming an entry, which
    the file does not keep ([rename_forgotten]). *)
Theorem persist_state_refines (pgsize : Z) (pwrite : Z -> option Z) (mmap : Z -> bool) (try_alloc : Z -> bool) (junk : bytes) (ops : list persist_op)
  (Hpage : exists k, pgsize = 2 ^ k /\ 12 <= k <= 16) (Hpwrite : forall n, pwrite n = None) (Hmmap : forall n, mmap n = true) (Halloc : forall n, try_alloc n = true)
  (Hjunk : length junk = 4%nat) (Hlen : lenZ ops <= 200000) (Hops : ops_ok ops sp_init) :
  exists s w, persist_state_start pgsize pwrite mmap try_alloc true persist_state_new junk None = Ret (true, s) /\
    persist_run pgsize pwrite mmap try_alloc junk ops (s, None) = Ret ((sp_run ops sp_init).1, w) /\ view w.1 = sp_now (sp_run ops sp_init).2.
Proof.
  destruct (start_ok pgsize pwrite mmap Hpage Hpwrite Hmmap) as (s & bl & ar & E & P & V & K & R & Rn). assert (S : sim (s, None) sp_init 0) by (split_and!; cbn; [by eauto|done..|unfold visible; cbn; by rewrite Rn]).
  destruct (persist_run_ok pgsize pwrite mmap try_alloc Hpage Hpwrite Hmmap Halloc junk ops Hjunk _ _ 0 S Hlen Hops) as (w & Er & (_ & Vw & _)). exists s, w. split_and!; try done. unfold persist_state_start. rewrite E. done.
Qed.

(** ** Examples *)
Module PersistDemo.
Definition name (s : string) : bytes := bytes_of_string s.
Definition demo_ops : list persist_op :=
  [PAlloc (name "pos") 4; PWrite (name "pos") 1 [7; 8]; PAllocString (name "file") (name "q0"); PCommit; PRestart;
   PReadString (name "file"); PCommit; PRestart; PRead (name "pos"); PReadString (name "file")].
Lemma persist_state_refines_witness : exists s w,
  persist_state_start 4096 (fun _ => None) (fun _ => true) (fun _ => true) true persist_state_new [0; 0; 0; 0] None = Ret (true, s) /\
  persist_run 4096 (fun _ => None) (fun _ => true) (fun _ => true) [0; 0; 0; 0] demo_ops (s, None) = Ret ([Some ([], 0); None; None; None; None; Some (name "q0", 4); None; None; None; Some (name "q0", 4)], w).
Proof.
  destruct (persist_state_refines 4096 (fun _ => None) (fun _ => true) (fun _ => true) [0; 0; 0; 0] demo_ops) as (s & w & E1 & E2 & _).
  - by exists 12.
  - done.
  - done.
  - done.
  - done.
  - done.
  - assert (Hp : valid_key (name "pos")) by (split_and!; [done|repeat constructor; done|done]). assert (Hf : valid_key (name "file")) by (split_and!; [done|repeat constructor; done|done]). assert (Hq : Forall (fun c => c <> 0) (name "q0")) by (repeat constructor; done).
    cbn [ops_ok demo_ops op_ok]. split; [split; [exact Hp|lia]|]. split; [intros e He; vm_compute in He; injection He as <-; by vm_compute|]. split; [split; [exact Hf|split; [exact Hq|by vm_compute]]|]. split; [exact I|]. split; [exact I|].
    split; [intros e He; vm_compute in He; injection He as <-; by exists (name "q0")|]. split; [exact I|]. split; [exact I|]. split; [exact I|]. split; [intros e He; vm_compute in He; injection He as <-; by exists (name "q0")|exact I].
  - exists s, w. split; [exact E1|]. rewrite E2. by do 2 f_equal.
Defined.

(** A system with pages of 4096 bytes on which everything succeeds. *)
Definition run (ops : list persist_op) : outcome (list (option (bytes * Z)) * (PersistState * option bytes)) :=
  let! (_, s) := persist_state_start 4096 (fun _ => None) (fun _ => true) (fun _ => true) true persist_state_new [0; 0; 0; 0] None in
  persist_run 4096 (fun _ => None) (fun _ => true) (fun _ => true) [0; 0; 0; 0] ops (s, None).
Definition after {A} (ops : list persist_op) (f : PersistState -> outcome A) : outcome A := let! (_, (s, _)) := run ops in f s.
Definition long_name : bytes := replicate 4081 97.

(** A string under a name that is too long is written over the header of the file. *)
Lemma long_name_overwrites_header : after [PAllocString long_name (name "q0")] (fun s => Ret (take 6 (ps_file s))) = Ret (be_bytes 4 2 ++ name "q0").
Proof. by vm_compute. Qed.
(** The block of an allocation that fails stays in use: its handle is inside the file. *)
Lemma free_value_does_nothing (s : PersistState) (handle : Z) : 0 < handle < current_size s -> persist_state_free_value s handle = Ret s.
Proof. intros H. unfold persist_state_free_value. by rewrite bool_decide_eq_false_2, bool_decide_eq_true_2 by lia. Qed.
(** A value of 15000 bytes that had room among others has none in the next file: it is copied to the place 0. *)
Definition big_ops : list persist_op := [PAlloc (name "a") 8000; PAlloc (name "b") 300; PAlloc (name "big") 15000; PWrite (name "big") 0 [66; 73; 71; 33]; PCommit; PRestart; PRead (name "b"); PRead (name "big"); PCommit; PRestart].
Lemma big_value_overwrites_header : after big_ops (fun s => Ret (take 4 (ps_file s))) = Ret [66; 73; 71; 33].
Proof. by vm_compute. Qed.
(** A new name is forgotten at the next start, and the old one is back. *)
Lemma rename_forgotten :
  after [PAlloc (name "old") 8; PCommit] (fun s =>
    let '(_, s) := persist_state_rename_entry s (name "old") (name "new") in
    let! (_, (s, _)) := persist_run 4096 (fun _ => None) (fun _ => true) (fun _ => true) [0; 0; 0; 0] [PRestart] (s, None) in
    Ret (bool_decide (is_Some (keys s !! name "old")), bool_decide (is_Some (keys s !! name "new")))) = Ret (true, false).
Proof. by vm_compute. Qed.
(** On a little endian host the size comes with its bytes reversed. *)
Lemma allocated_size_reversed :
  after [PAlloc (name "a") 8] (fun s => match keys s !! name "a" with Some h => let! (n, _) := persist_state_get_allocated_size false s h in Ret n | None => Abort end) = Ret (8 * 2 ^ 24).
Proof. by vm_compute. Qed.
(** The size of an entry in a file is believed: more than the file has is copied. *)
Definition bad_size_file : bytes := SLP4 ++ zeros 4 ++ be_bytes 4 1 ++ zeros 52 ++ key_enc (name "a", 4104) ++ zeros 4023 ++ value_header 5000 1 4 ++ zeros 10.
Lemma bad_size_leaves_file : persist_state_start 4096 (fun _ => None) (fun _ => true) (fun _ => true) true persist_state_new [0; 0; 0; 0] (Some bad_size_file) = Abort.
Proof. by vm_compute. Qed.
(** A block of keys that is chained to itself: the start does not end. *)
Definition chained_file : bytes := SLP4 ++ zeros 4 ++ be_bytes 4 1 ++ zeros 44 ++ be_bytes 4 4032 ++ zeros 4 ++ link 64 ++ zeros 4024.
Lemma chain_back_never_ends (fuel : nat) (s : PersistState) (pgsize : Z) (pwrite : Z -> option Z) (mmap : Z -> bool) :
  load_keys pgsize pwrite mmap (fun _ => true) fuel s chained_file (lenZ chained_file) 1 0 (serialize_buffer_archive_new (slice chained_file 64 4032)) = Abort.
Proof.
  induction fuel as [|fuel IH]; [done|]. cbn [load_keys]. change (bool_decide (0 < 1)) with true. cbn iota. set (sa := serialize_buffer_archive_new _) in *.
  assert (exists sa1, serialize_read_cstring (fun _ => true) sa = (Some [], sa1) /\ exists sa2, serialize_read_uint32 sa1 = (Some 64, sa2)) as (sa1 & -> & sa2 & ->) by (eexists; split; [by vm_compute|]; eexists; by vm_compute).
  change (bool_decide (c_string [] <> [])) with false. cbn iota. assert (load_chain chained_file (lenZ chained_file) 64 = Ret (Some sa)) as -> by (by vm_compute). exact IH.
Qed.
End PersistDemo.
